(* ===== verification/_CoqProject ===== *)
-Q . S2P
Prelude.v
GoText.v
World.v
Errx.v
Retry.v
Wire.v
Netip.v
NetipParse.v
FlowTypes.v
NetFlow5.v
Templates.v
Walker.v
FlowData.v
NetFlow9.v
IPFIX.v
SFlow.v
Aggregate.v
Collector.v
Geo.v
Alerts.v
Alerting.v
AlertStore.v
Notify.v
Ingest.v
Lockout.v
Auth.v
AuthStore.v
ApiTokens.v
Sync.v
SyncStore.v
GoSort.v
MapDoc.v
Topology.v
Describe.v
MapStore.v
Buffer.v
Poller.v
Float64.v
TrapNames.v
Trap.v
TrapListener.v
Scheduler.v
Polling.v
FlowWriter.v
FlowSQL.v
FlowQuery.v
FlowExplore.v
Users.v
Sdk.v
Generic.v
Vendors.v
Circuits.v
Duplicates.v
Discovery.v
Execute.v
Live.v
Reports.v
Devices.v
Vault.v
Sites.v
Fleet.v
Rules.v
Settings.v
Channels.v
Series.v
Queries.v
Browse.v
Capacity.v
