(* ===== verification/Prelude.v ===== *)
(** * NetInv in Rocq

    NetInv is a network inventory and monitoring platform written in Go. A
    scheduler publishes jobs, one queue per site. Pollers run them against the
    devices through connectors (SNMP) and publish batches of samples and
    inventory snapshots. Core services consume these: the ingester labels the
    samples and writes them to a metrics store, the inventory reconciles the
    snapshots with its tables, the alerter evaluates rules over the metrics and
    announces what changes to the notifier. Two more services listen on UDP:
    one decodes NetFlow, IPFIX and sFlow datagrams and writes aggregated series
    and single flows, one decodes SNMP traps. An API serves the operators:
    accounts and tokens, devices, weathermaps, flow queries, reports.

    This library translates the core logic of these services from the source
    (paths below are under src/backend/internal/ unless they begin with
    connectors/) and proves what makes it correct. A definition bears the name
    it has in the code where Rocq allows.

    ** Ground: what the code is written on

    - Prelude.v: record update, machine integers and their wrap-around, slices
      with the panic of an index out of range ([outcome], its monad and its
      weakest preconditions [wp]), durations and times, the tactics and the
      hint databases every file uses.
    - GoText.v: Go strings, [strings], [strconv], UTF-8. GoSort.v: sorting by a
      total order, whatever order the elements come in. Float64.v: binary64.
      Netip.v, NetipParse.v: addresses, prefixes, and parsing them.
    - World.v: code that acts on collaborators, as a state monad over an
      abstract world. Errx.v: platform/errx, errors and their kinds. Retry.v:
      platform/retryx. Wire.v: platform/wire, the messages between services.

    ** Collecting

    - Scheduler.v (collection/app/scheduler.go, adapters/postgres/schedule.go):
      the claim of due schedules as the statement does it, and every tick. No
      schedule is booked twice in an interval, none starves. Polling.v
      (platform/polling): the cadence of the fleet as one setting.
    - Sdk.v, Generic.v, Vendors.v (connectors/): the registry and the choice of
      a connector; interface counters with the repair of partial walks,
      inventory, neighbours, health. A counter is taken once; the repair is
      bounded for any device and complete for an honest one.
    - Poller.v, Buffer.v (collection/pollerrt/runtime.go, buffer.go): the
      pending batch shared by workers and timers, its disk buffer, which is
      drained by a loop that lets go of the lock between its steps, and the
      sites served. In any order of turns and steps no sample is lost while the
      process lives, other than those a full buffer drops and counts and those
      of a file that cannot be read.
    - Execute.v (runtime.go, session.go, icmp.go of pollerrt): one delivery,
      from decoding it to settling it, with the session and the connector it
      runs. Every delivery is settled once, having told exactly what its kind of
      job and the answers of the device make of it, and no session is left open.
    - Discovery.v (discovery.go of collection/pollerrt, app, adapters/postgres
      and adapters/httpapi): subnet sweeps by concurrent probes, the queue of
      finds, approval. A sweep reports each address that answers once; what an
      operator decided outlives it.
    - Fleet.v (pollers.go of collection/app and adapters/postgres,
      pollerrt/agent.go): enrolment of pollers and the state of site queues.
      Looking a token up and binding it are two statements: in any interleaving
      a token that has been bound enrols nobody who asks later, though two who
      ask at once may both be enrolled ([registered_twice]).

    ** Flow

    - FlowTypes.v, NetFlow5.v, Templates.v, Walker.v, FlowData.v, NetFlow9.v,
      IPFIX.v, SFlow.v (flow/decode.go, netflow9.go, ipfix.go, sflow.go): the
      decoders, and the wire format each inverts. They return on every datagram,
      never read out of range, and decode what is encoded. The cache of
      templates stays bounded and cannot be poisoned for a live template.
    - Aggregate.v, Collector.v, Geo.v (flow/aggregate.go, collector.go,
      geo/geo.go): accumulation conserves bytes and packets; the receive path
      accounts for every read; the address databases answer what their lines
      say.
    - FlowWriter.v (flowstore/writer.go): each accepted flow is stored once,
      through refused and doubtful inserts. FlowSQL.v, FlowQuery.v,
      FlowExplore.v (flowstore/query.go, flowquery/): a value reaches a store
      as a parameter or quoted, never as text of a query, and a request is
      answered from the exporters it means.

    ** Traps

    - TrapNames.v, Trap.v, TrapListener.v (events/): names, decoding, and the
      way of a notification from the socket to the store and the metric: each
      datagram has one fate, and each counter counts the datagrams of its own;
      labels are bounded.

    ** Alerts and metrics

    - Alerts.v, Alerting.v, AlertStore.v (alerting/domain, app/evaluator.go,
      adapters/postgres/store.go): one evaluation makes the live alerts of a
      rule exactly what its surviving series say. Alerting.v proves this against
      the classes [WorldLaws] and [Reliable]; AlertStore.v discharges them for
      the table.
    - Rules.v (alerting/app/rules.go, adapters/httpapi/alerts.go): rules,
      acknowledgement, lists and silences. Rules stay whole under whatever is
      asked and evaluated.
    - Notify.v (notify/app), Ingest.v (metrics/app): delivery with retries, at
      least once. Channels.v (notify/adapters): the channels with their sealed
      secrets, and what is sent. Series.v (metrics/adapters, cmd/ingester): the
      writer of series and the ingester as its main assembles it, where the
      promise of Ingest.v does not hold: [Series.batch_fate].
    - Queries.v (metrics/adapters/httpapi): queries of users, bounded before
      they are forwarded. Settings.v (platform/settings, platform/vmwrite): the
      copying of metrics to further stores, and the branding of reports.
      Capacity.v (platform/capacity): what the disk will hold.

    ** Inventory, maps and reports

    - Devices.v, Sites.v (inventory/app/devices.go, sites.go and their
      statements): devices with their schedules, imports and pages; sites and
      what keeps one from being deleted. Vault.v (platform/cryptox,
      inventory/app/credentials.go, collection/adapters/secrets): envelopes,
      the vault, which is a map from identifiers to secrets, and its cache.
      Browse.v (inventory/adapters/snmptest): testing a credential, and the
      walk of the OID browser, which says whether it has all there is below its
      root; the object of the root itself is never in it.

    - Sync.v, SyncStore.v (inventory/app/sync.go, adapters/postgres/sync.go):
      the difference between a snapshot and the table, and the transaction that
      applies it without breaking the unique index.
    - Circuits.v, Duplicates.v (adapters/postgres/interfacematch.go,
      interfacetags.go, duplicates.go): customers of interfaces by rule or by
      list, and folding duplicate devices in a transaction any statement of
      which may be refused.
    - Topology.v, Describe.v, MapDoc.v, MapStore.v (maps/generate.go,
      describe.go, store.go): weathermaps generated, suggested, saved, and
      published over interfaces that are renumbered. Live.v (maps/live.go):
      what a published map shows now, however its links are drawn.
    - Reports.v (reports/bandwidth.go, bycustomer.go, series.go): the queries
      of a report and what is made of their answers, rows that share an index
      included ([index_shared]).

    ** Accounts

    - Lockout.v, Auth.v, AuthStore.v, Users.v, ApiTokens.v (iam/, and authz,
      authn, httpx of platform/): login throttling, refresh tokens, account
      management, API tokens. A refresh token is read and marked by two
      statements: a refresh that begins when another has answered is refused
      and revokes the family, in any interleaving, but two that overlap may
      both be served ([concurrent_refreshes_fork]). AuthStore.v and Users.v instantiate
      the classes of the services with the tables and prove what holds over any
      sequence of requests.

    ** Conventions

    A mutex held for the whole of an operation makes it one step, at one
    reading of the clock; where code lets go of the mutex midway the operation
    is several steps, and theorems quantify over all interleavings. Code that
    is not in the repository is a parameter, with documented behaviour as the
    laws of a class where a theorem needs it: hashing, JWT, JSON, BER, SNMP
    sessions, AMQP, Redis, ClickHouse, VictoriaMetrics, the printing of times,
    case mappings of Unicode. A statement of SQL is the function it computes on
    its tables. A range over a Go map takes any order ([MapRange] or a
    permutation). A log line is left out.

    Loops that are not structural take fuel that is shown to suffice: the
    length of the input plus one where each turn consumes at least a byte
    (decoders, walker) or shortens a list (drains, probes); the attempts of a
    policy ([Do]); the length of an error chain plus one ([KindOf]); the size of
    a table plus one (binary search); the limit of a walk plus one, as each
    request but the last brings an object ([Walk]).

    ** Not modelled

    The main packages other than the ingester's writer: they read the
    environment, connect, and hand the parts to each other. The client of the
    broker, Redis, the pool of the database, migrations, logging, health: each
    wraps a library whose state is the library's. HTTP handlers that decode a
    body, call a service that is modelled and encode its answer; those that
    decide something themselves are (alerts, channels, approval, queries of
    metrics). Queries of the console that select rows and print them, as the
    dashboard, the audit log, the details of a device. Drawing: PDF, SVG, and
    the placing of nodes, which is trigonometry. The web frontend is another
    language. *)
From Stdlib Require Import ZArith Lia.
From Stdlib Require Strings.Byte.
From stdpp Require Import base list gmap numbers.

Declare Scope go_scope.
Delimit Scope go_scope with go.
#[global] Open Scope Z_scope.
#[global] Open Scope go_scope.

(** * Record update: [r <| f := v |>] *)

Class Eta (R : Type) := eta : R -> R.
Class Setter {R T : Type} (p : R -> T) := set : (T -> T) -> R -> R.
Arguments set {R T} p {_} _ _ /.

Ltac mk_setter p :=
  match type of p with
  | ?R -> _ =>
      let e := constr:(_ : Eta R) in
      let e := eval hnf in e in
      let g := eval pattern p in e in
      match g with ?h p => exact (fun f => h (fun r => f (p r))) end
  end.
#[export] Hint Extern 0 (Setter ?p) => mk_setter p : typeclass_instances.

Notation "r <| p := v |>" := (set p (fun _ => v) r)
  (at level 1, left associativity, p at level 200, v at level 200) : go_scope.

(** * Machine integers

    A Go integer is a [Z]; the conversions and the operators that can wrap
    are written with the functions below. *)

Definition uint8 (z : Z) : Z := z mod 2 ^ 8.
Definition uint16 (z : Z) : Z := z mod 2 ^ 16.
Definition uint32 (z : Z) : Z := z mod 2 ^ 32.
Definition uint64 (z : Z) : Z := z mod 2 ^ 64.

Definition signed (w z : Z) : Z :=
  let u := z mod 2 ^ w in if u <? 2 ^ (w - 1) then u else u - 2 ^ w.
Definition int32 (z : Z) : Z := signed 32 z.
Definition int64 (z : Z) : Z := signed 64 z.

Definition is_u8 (z : Z) : Prop := 0 <= z < 2 ^ 8.
Definition is_u16 (z : Z) : Prop := 0 <= z < 2 ^ 16.
Definition is_u32 (z : Z) : Prop := 0 <= z < 2 ^ 32.
Definition is_u64 (z : Z) : Prop := 0 <= z < 2 ^ 64.

(** * Outcomes: a Go call returns, panics, or (in the model only) runs out
    of the fuel its loops were given. *)

Inductive outcome (A : Type) : Type :=
  | Ret (a : A)
  | Panic
  | OutOfFuel.
Arguments Ret {A} a.
Arguments Panic {A}.
Arguments OutOfFuel {A}.

#[export] Instance outcome_ret : MRet outcome := fun A a => Ret a.
#[export] Instance outcome_bind : MBind outcome := fun A B k m =>
  match m with Ret a => k a | Panic => Panic | OutOfFuel => OutOfFuel end.

(** [wp m Q]: [m] returns, and what it returns satisfies [Q]. *)
Definition wp {A : Type} (m : outcome A) (Q : A -> Prop) : Prop :=
  match m with Ret a => Q a | _ => False end.

(** * Bytes, slices and big-endian integers *)

Abbreviation byte := Corelib.Init.Byte.byte.
Abbreviation bytes := (list Corelib.Init.Byte.byte).

Definition bz (b : byte) : Z := Z.of_N (Strings.Byte.to_N b).
Definition zb (z : Z) : byte :=
  default Corelib.Init.Byte.x00 (Strings.Byte.of_N (Z.to_N (uint8 z))).

Definition len {A : Type} (l : list A) : Z := Z.of_nat (length l).

(** [sub l i j]: the elements of [l] from [i] up to but excluding [j]. *)
Definition sub {A : Type} (l : list A) (i j : Z) : list A :=
  take (Z.to_nat (j - i)) (drop (Z.to_nat i) l).

(** [l[i:j]]. Go checks [j] against the capacity; the model checks it against
    the length, which is the stricter test, so code that never panics here
    never panics there and never reads past the length. *)
Definition slice {A : Type} (l : list A) (i j : Z) : outcome (list A) :=
  if bool_decide (0 <= i /\ i <= j /\ j <= len l) then Ret (sub l i j) else Panic.

Definition slice_from {A : Type} (l : list A) (i : Z) : outcome (list A) :=
  slice l i (len l).

(** [l[i]]. *)
Definition index {A : Type} (l : list A) (i : Z) : outcome A :=
  if bool_decide (0 <= i) then
    match l !! Z.to_nat i with Some x => Ret x | None => Panic end
  else Panic.

(** The value of a byte string read as one big-endian integer. *)
Definition be (b : bytes) : Z := fold_left (fun v c => v * 256 + bz c) b 0.

(** [binary.BigEndian.Uint16] and [Uint32]: they read the first bytes and
    panic on a shorter slice. *)
Definition Uint16 (b : bytes) : outcome Z :=
  s ← slice b 0 2; Ret (be s).
Definition Uint32 (b : bytes) : outcome Z :=
  s ← slice b 0 4; Ret (be s).

(** [binary.BigEndian.Uint16(b[i:i+2])], the form the decoders use. *)
Definition u16at (b : bytes) (i : Z) : outcome Z :=
  s ← slice b i (i + 2); Uint16 s.
Definition u32at (b : bytes) (i : Z) : outcome Z :=
  s ← slice b i (i + 4); Uint32 s.

(** [put_be n z]: the [n]-byte big-endian encoding, for the round trips. *)
Fixpoint put_be (n : nat) (z : Z) : bytes :=
  match n with
  | O => []
  | S n' => put_be n' (z / 256) ++ [zb z]
  end.

(** * Time: nanoseconds since the Unix epoch *)

Abbreviation Time := Z (only parsing).
Abbreviation Duration := Z (only parsing).

Definition Nanosecond : Duration := 1.
Definition Millisecond : Duration := 10 ^ 6.
Definition Second : Duration := 10 ^ 9.
Definition Minute : Duration := 60 * Second.
Definition Hour : Duration := 60 * Minute.

(** [time.Time{}]: midnight, 1 January of the year 1. *)
Definition zeroTime : Time := -62135596800 * Second.

Definition IsZero (t : Time) : bool := t =? zeroTime.
Definition time_Unix (sec nsec : Z) : Time := sec * Second + nsec.
Definition time_UnixMilli (ms : Z) : Time := ms * Millisecond.
Definition Unix (t : Time) : Z := t / Second.
Definition time_Add (t : Time) (d : Duration) : Time := t + d.

Definition maxDuration : Duration := 2 ^ 63 - 1.
Definition minDuration : Duration := - 2 ^ 63.

(** [t.Sub(u)] saturates at the bounds of an int64. *)
Definition time_Sub (t u : Time) : Duration :=
  Z.max minDuration (Z.min maxDuration (t - u)).

(** * Outcome rules *)

Section wp_rules.
Context {A B : Type}.
Implicit Types (m : outcome A) (k : A -> outcome B).

Lemma wp_ret (a : A) (Q : A -> Prop) : Q a -> wp (Ret a) Q.
Proof. done. Qed.

Lemma wp_eq m a (Q : A -> Prop) : m = Ret a -> Q a -> wp m Q.
Proof. by intros ->. Qed.

Lemma wp_bind m k (Q : B -> Prop) : wp m (fun a => wp (k a) Q) -> wp (m ≫= k) Q.
Proof. by destruct m. Qed.

Lemma wp_bind_inv m k (Q : B -> Prop) : wp (m ≫= k) Q -> wp m (fun a => wp (k a) Q).
Proof. by destruct m. Qed.

Lemma wp_mono m (P Q : A -> Prop) : wp m P -> (forall a, P a -> Q a) -> wp m Q.
Proof. destruct m; simpl; auto. Qed.

Lemma wp_and m (P Q : A -> Prop) : wp m P -> wp m Q -> wp m (fun a => P a /\ Q a).
Proof. destruct m; simpl; auto. Qed.

Lemma wp_inv m (Q : A -> Prop) : wp m Q -> exists a, m = Ret a /\ Q a.
Proof. destruct m; simpl; [eauto | done | done]. Qed.

Lemma bind_ret (a : A) k : Ret a ≫= k = k a.
Proof. done. Qed.

Lemma bind_Ret_inv m k b : m ≫= k = Ret b -> exists a, m = Ret a /\ k a = Ret b.
Proof. destruct m; simpl; try done. eauto. Qed.
End wp_rules.

(** Proves [wp] of straight-line code: one bind, one conditional or one
    return at a time, the leaves left to the caller. *)
Ltac wp_step :=
  lazymatch goal with
  | |- wp (Ret _) _ => apply wp_ret
  | |- wp (_ ≫= _) _ => apply wp_bind
  | |- wp (if ?b then _ else _) _ => let E := fresh "E" in destruct b eqn:E
  end.

(** * Bytes *)

Lemma bz_bounds b : 0 <= bz b < 256.
Proof. unfold bz. pose proof (Strings.Byte.to_N_bounded b). lia. Qed.

Lemma zb_bz b : zb (bz b) = b.
Proof.
  unfold zb, uint8. rewrite Z.mod_small by (apply bz_bounds). unfold bz.
  rewrite N2Z.id, Strings.Byte.of_to_N. done.
Qed.

Lemma bz_zb z : bz (zb z) = uint8 z.
Proof.
  unfold zb, uint8. set (u := z mod 2 ^ 8).
  assert (0 <= u < 256) as Hu by (apply Z.mod_pos_bound; lia).
  destruct (Strings.Byte.of_N (Z.to_N u)) as [b|] eqn:E; simpl.
  - apply Strings.Byte.to_of_N in E. unfold bz. rewrite E. lia.
  - apply Strings.Byte.of_N_None_iff in E. lia.
Qed.

Lemma bz_zb_small z : 0 <= z < 256 -> bz (zb z) = z.
Proof. intros ?. rewrite bz_zb. by apply Z.mod_small. Qed.

#[export] Instance bz_inj : Inj (=) (=) bz.
Proof. intros a b E. by rewrite <- (zb_bz a), E, zb_bz. Qed.

#[export] Instance byte_eq_dec : EqDecision byte.
Proof.
  refine (fun a b => cast_if (decide (bz a = bz b))); [by apply (inj bz) | congruence].
Defined.

#[export] Program Instance byte_countable : Countable byte :=
  inj_countable Strings.Byte.to_N Strings.Byte.of_N _.
Next Obligation. intros b. apply Strings.Byte.of_to_N. Qed.

(** * Lengths and slices *)

Section slices.
Context {A : Type}.
Implicit Types l pre post : list A.

Lemma len_nonneg l : 0 <= len l.
Proof. unfold len. lia. Qed.

Lemma to_nat_len l : Z.to_nat (len l) = length l.
Proof. apply Nat2Z.id. Qed.

Lemma len_nil : len (@nil A) = 0.
Proof. done. Qed.

Lemma len_cons x l : len (x :: l) = 1 + len l.
Proof. unfold len. simpl. lia. Qed.

Lemma len_app l1 l2 : len (l1 ++ l2) = len l1 + len l2.
Proof. unfold len. rewrite length_app. lia. Qed.

Lemma len_sub l i j : 0 <= i -> i <= j -> j <= len l -> len (sub l i j) = j - i.
Proof. unfold len, sub. intros. rewrite length_take, length_drop. lia. Qed.

Lemma slice_ret l i j : 0 <= i -> i <= j -> j <= len l -> slice l i j = Ret (sub l i j).
Proof. intros. unfold slice. by rewrite bool_decide_true. Qed.

Lemma slice_from_ret l i : 0 <= i -> i <= len l -> slice_from l i = Ret (sub l i (len l)).
Proof. intros. unfold slice_from. apply slice_ret; lia. Qed.

Lemma slice_panic l i j : ~ (0 <= i /\ i <= j /\ j <= len l) -> slice l i j = Panic.
Proof. intros. unfold slice. by rewrite bool_decide_false. Qed.

Lemma index_lookup l i x : 0 <= i -> l !! Z.to_nat i = Some x -> index l i = Ret x.
Proof. intros ? E. unfold index. rewrite bool_decide_true by done. by rewrite E. Qed.

Lemma index_ret l i : 0 <= i < len l -> exists x, index l i = Ret x /\ l !! Z.to_nat i = Some x.
Proof.
  unfold len. intros ?. destruct (lookup_lt_is_Some_2 l (Z.to_nat i)) as [x E]; [lia|].
  exists x. split; [by apply index_lookup; [lia|] | done].
Qed.

Lemma index_middle pre x post i : i = len pre -> index (pre ++ x :: post) i = Ret x.
Proof.
  intros ->. apply index_lookup; [apply len_nonneg|].
  unfold len. rewrite Nat2Z.id. by apply list_lookup_middle.
Qed.

Lemma sub_app_exact pre l post i j :
  i = len pre -> j = i + len l -> sub (pre ++ l ++ post) i j = l.
Proof.
  intros -> ->. unfold sub, len. rewrite Nat2Z.id.
  rewrite drop_app_length. replace (Z.to_nat _) with (length l) by lia.
  apply take_app_length.
Qed.

Lemma sub_all l : sub l 0 (len l) = l.
Proof. unfold sub, len. rewrite drop_0. apply take_ge. lia. Qed.

Lemma sub_empty l i : sub l i i = [].
Proof. unfold sub. by rewrite Z.sub_diag. Qed.

Lemma sub_sub l i j a b :
  0 <= i -> i <= j -> j <= len l -> 0 <= a -> a <= b -> b <= j - i ->
  sub (sub l i j) a b = sub l (i + a) (i + b).
Proof.
  unfold sub, len. intros.
  rewrite skipn_firstn_comm, firstn_firstn, drop_drop. f_equal; [lia | f_equal; lia].
Qed.

Lemma sub_split l i j k :
  0 <= i -> i <= j -> j <= k -> k <= len l -> sub l i k = sub l i j ++ sub l j k.
Proof.
  unfold sub, len. intros.
  rewrite <- (take_drop (Z.to_nat (j - i)) (take (Z.to_nat (k - i)) _)).
  rewrite firstn_firstn, skipn_firstn_comm, drop_drop.
  f_equal; [f_equal; lia | f_equal; [lia | f_equal; lia]].
Qed.

Lemma sub_drop l i : 0 <= i -> sub l i (len l) = drop (Z.to_nat i) l.
Proof. intros. unfold sub, len. apply take_ge. rewrite length_drop. lia. Qed.

Lemma lookup_sub l i j k :
  0 <= i -> 0 <= k -> k < j - i -> sub l i j !! Z.to_nat k = l !! Z.to_nat (i + k).
Proof.
  intros. unfold sub. rewrite lookup_take_lt by lia.
  rewrite lookup_drop. f_equal. lia.
Qed.
End slices.

(** * Big-endian integers *)

Lemma fold_be_acc b a :
  fold_left (fun v c => v * 256 + bz c) b a = a * 256 ^ len b + be b.
Proof.
  unfold be. revert a. induction b as [|c b IH]; intros a; cbn [fold_left].
  - change (len (@nil byte)) with 0. lia.
  - rewrite (IH (a * 256 + bz c)), (IH (0 * 256 + bz c)), len_cons.
    rewrite Z.pow_add_r by (pose proof (len_nonneg b); lia). ring.
Qed.

Lemma be_nil : be [] = 0.
Proof. done. Qed.

Lemma be_cons c b : be (c :: b) = bz c * 256 ^ len b + be b.
Proof. apply (fold_be_acc b (bz c)). Qed.

Lemma be_app b1 b2 : be (b1 ++ b2) = be b1 * 256 ^ len b2 + be b2.
Proof. unfold be at 1. rewrite fold_left_app, fold_be_acc. done. Qed.

Lemma be_bounds b : 0 <= be b < 256 ^ len b.
Proof.
  induction b as [|c b IH]; [done|]. rewrite be_cons, len_cons.
  rewrite Z.pow_add_r by (pose proof (len_nonneg b); lia).
  pose proof (bz_bounds c). nia.
Qed.

Lemma be_lt b n : len b = n -> 0 <= be b < 256 ^ n.
Proof. intros <-. apply be_bounds. Qed.

Lemma length_put_be n z : length (put_be n z) = n.
Proof.
  revert z. induction n as [|n IH]; intros z; simpl; [done|].
  rewrite length_app, IH. simpl. lia.
Qed.

Lemma len_put_be n z : len (put_be n z) = Z.of_nat n.
Proof. unfold len. by rewrite length_put_be. Qed.

Lemma be_put_be n z : 0 <= z < 256 ^ Z.of_nat n -> be (put_be n z) = z.
Proof.
  revert z. induction n as [|n IH]; intros z Hz.
  - simpl in *. rewrite be_nil. lia.
  - rewrite Nat2Z.inj_succ, Z.pow_succ_r in Hz by lia.
    cbn [put_be]. rewrite be_app, IH.
    + change (len [zb z]) with 1. rewrite be_cons, be_nil, len_nil, bz_zb.
      unfold uint8. rewrite Z.pow_0_r, Z.pow_1_r. change (2 ^ 8) with 256.
      pose proof (Z.div_mod z 256). lia.
    + split; [apply Z.div_pos; lia | apply Z.div_lt_upper_bound; lia].
Qed.

Lemma put_be_be b : put_be (length b) (be b) = b.
Proof.
  induction b as [|c b IH] using rev_ind; [done|].
  rewrite length_app, Nat.add_comm. simpl. rewrite be_app.
  change (len [c]) with 1. rewrite be_cons, be_nil, len_nil. pose proof (bz_bounds c) as Hc.
  rewrite Z.pow_1_r, Z.pow_0_r. f_equal.
  - transitivity (put_be (length b) (be b)); [f_equal | exact IH].
    symmetry. apply (Z.div_unique_pos _ _ _ (bz c)); lia.
  - f_equal. transitivity (zb (bz c)); [|apply zb_bz]. unfold zb, uint8. do 3 f_equal.
    change (2 ^ 8) with 256. rewrite (Z.mod_small (bz c)) by lia.
    symmetry. apply (Z.mod_unique_pos _ _ (be b)); lia.
Qed.

Lemma put_be_inj n z1 z2 :
  0 <= z1 < 256 ^ Z.of_nat n -> 0 <= z2 < 256 ^ Z.of_nat n ->
  put_be n z1 = put_be n z2 -> z1 = z2.
Proof. intros ?? E. rewrite <- (be_put_be n z1), <- (be_put_be n z2) by done. by rewrite E. Qed.

Lemma be_put_u8 z : is_u8 z -> be (put_be 1 z) = z.
Proof. intros. apply be_put_be. done. Qed.
Lemma be_put_u16 z : is_u16 z -> be (put_be 2 z) = z.
Proof. intros. apply be_put_be. done. Qed.
Lemma be_put_u32 z : is_u32 z -> be (put_be 4 z) = z.
Proof. intros. apply be_put_be. done. Qed.

Lemma Uint16_ret b : 2 <= len b -> Uint16 b = Ret (be (sub b 0 2)).
Proof. intros. unfold Uint16. rewrite slice_ret by lia. done. Qed.

Lemma Uint32_ret b : 4 <= len b -> Uint32 b = Ret (be (sub b 0 4)).
Proof. intros. unfold Uint32. rewrite slice_ret by lia. done. Qed.

Lemma u16at_ret b i : 0 <= i -> i + 2 <= len b -> u16at b i = Ret (be (sub b i (i + 2))).
Proof.
  intros. unfold u16at. rewrite slice_ret, bind_ret by lia.
  rewrite Uint16_ret by (rewrite len_sub; lia). by rewrite sub_sub, Z.add_0_r by lia.
Qed.

Lemma u32at_ret b i : 0 <= i -> i + 4 <= len b -> u32at b i = Ret (be (sub b i (i + 4))).
Proof.
  intros. unfold u32at. rewrite slice_ret, bind_ret by lia.
  rewrite Uint32_ret by (rewrite len_sub; lia). by rewrite sub_sub, Z.add_0_r by lia.
Qed.

Lemma be_sub_u16 b i : 0 <= i -> i + 2 <= len b -> is_u16 (be (sub b i (i + 2))).
Proof. intros. unfold is_u16. apply (be_lt _ 2). rewrite len_sub; lia. Qed.

Lemma be_sub_u32 b i : 0 <= i -> i + 4 <= len b -> is_u32 (be (sub b i (i + 4))).
Proof. intros. unfold is_u32. apply (be_lt _ 4). rewrite len_sub; lia. Qed.

Lemma wp_u16at b i (Q : Z -> Prop) :
  0 <= i -> i + 2 <= len b -> (forall v, v = be (sub b i (i + 2)) -> is_u16 v -> Q v) ->
  wp (u16at b i) Q.
Proof. intros ?? HQ. rewrite u16at_ret by done. apply HQ, be_sub_u16; done. Qed.

Lemma wp_u32at b i (Q : Z -> Prop) :
  0 <= i -> i + 4 <= len b -> (forall v, v = be (sub b i (i + 4)) -> is_u32 v -> Q v) ->
  wp (u32at b i) Q.
Proof. intros ?? HQ. rewrite u32at_ret by done. apply HQ, be_sub_u32; done. Qed.

Lemma wp_slice {A} (l : list A) i j (Q : list A -> Prop) :
  0 <= i -> i <= j -> j <= len l -> (forall s, s = sub l i j -> len s = j - i -> Q s) ->
  wp (slice l i j) Q.
Proof. intros ??? HQ. rewrite slice_ret by done. apply HQ; [done|]. by apply len_sub. Qed.

Lemma wp_slice_from {A} (l : list A) i (Q : list A -> Prop) :
  0 <= i -> i <= len l ->
  (forall s, s = drop (Z.to_nat i) l -> len s = len l - i -> Q s) -> wp (slice_from l i) Q.
Proof.
  intros ?? HQ. apply wp_slice; [lia..|]. intros s -> ?. apply HQ; [|done].
  by apply sub_drop.
Qed.

Lemma wp_index {A} (l : list A) i (Q : A -> Prop) :
  0 <= i < len l -> (forall x, l !! Z.to_nat i = Some x -> Q x) -> wp (index l i) Q.
Proof. intros Hi HQ. destruct (index_ret l i Hi) as (x & -> & E). by apply HQ. Qed.

(** Bits written into the low end of a shifted word add up. *)
Lemma lor_low a c n : 0 <= n -> 0 <= c < 2 ^ n -> Z.lor (a * 2 ^ n) c = a * 2 ^ n + c.
Proof.
  intros Hn Hc. rewrite <- (Z.add_lor_land (a * 2 ^ n) c).
  assert (Z.land (a * 2 ^ n) c = 0) as ->; [|lia].
  apply Z.bits_inj'. intros i Hi. rewrite Z.land_spec, Z.bits_0, <- Z.shiftl_mul_pow2 by lia.
  destruct (Z.ltb_spec i n).
  - by rewrite Z.shiftl_spec_low by lia.
  - rewrite <- (Z.mod_small c (2 ^ n)) by done.
    rewrite Z.mod_pow2_bits_high by lia. by rewrite andb_false_r.
Qed.

Lemma land_low z n : 0 <= n -> Z.land z (Z.ones n) = z mod 2 ^ n.
Proof. apply Z.land_ones. Qed.

Create HintDb go.
Create Rewrite HintDb go_len.
Lemma uint8_u8 z : is_u8 (uint8 z).
Proof. by apply Z.mod_pos_bound. Qed.
Lemma uint16_u16 z : is_u16 (uint16 z).
Proof. by apply Z.mod_pos_bound. Qed.
Lemma uint32_u32 z : is_u32 (uint32 z).
Proof. by apply Z.mod_pos_bound. Qed.
Lemma uint64_u64 z : is_u64 (uint64 z).
Proof. by apply Z.mod_pos_bound. Qed.
Lemma bz_u8 b : is_u8 (bz b).
Proof. apply bz_bounds. Qed.

Lemma uint64_add_r a b : uint64 (a + uint64 b) = uint64 (a + b).
Proof. unfold uint64. by rewrite Z.add_mod_idemp_r by lia. Qed.
Lemma uint64_add_l a b : uint64 (uint64 a + b) = uint64 (a + b).
Proof. unfold uint64. by rewrite Z.add_mod_idemp_l by lia. Qed.
Lemma uint64_mul_l a b : uint64 (uint64 a * b) = uint64 (a * b).
Proof. unfold uint64. by rewrite Z.mul_mod_idemp_l by lia. Qed.
Lemma uint64_idemp a : uint64 (uint64 a) = uint64 a.
Proof. unfold uint64. by rewrite Z.mod_mod by lia. Qed.
Lemma uint64_small a : is_u64 a -> uint64 a = a.
Proof. apply Z.mod_small. Qed.
Lemma int64_add a b : int64 (int64 a + b) = int64 (a + b).
Proof.
  assert (forall x y, x mod 2 ^ 64 = y mod 2 ^ 64 -> int64 x = int64 y) as H by (intros x y E; unfold int64, signed; by rewrite E).
  apply H. unfold int64, signed. change (64 - 1) with 63. destruct (_ <? _).
  - by rewrite Z.add_mod_idemp_l by lia.
  - replace (a mod 2 ^ 64 - 2 ^ 64 + b) with (a mod 2 ^ 64 + b + (-1) * 2 ^ 64) by lia. by rewrite Z.mod_add, Z.add_mod_idemp_l by lia.
Qed.

#[export] Hint Resolve len_nonneg uint8_u8 uint16_u16 uint32_u32 uint64_u64 bz_u8 : go.
#[export] Hint Rewrite @len_app @len_cons @len_nil len_put_be : go_len.

(** [lia] on goals about slice lengths: every length in sight is known to be
    non-negative. *)
Ltac pose_len l :=
  lazymatch goal with
  | H : 0 <= len l |- _ => fail
  | _ => pose proof (len_nonneg l)
  end.
Ltac len_lia :=
  autorewrite with go_len in *;
  repeat match goal with
  | |- context [len ?l] => pose_len l
  | H : context [len ?l] |- _ => pose_len l
  end; lia.

(** Equal sums modulo 2^64, with wrapped terms inside. *)
Ltac uint64_sum :=
  unfold uint64; change (2 ^ 64) with 18446744073709551616;
  Z.div_mod_to_equations; lia.

(** Proves a decidable closed proposition by evaluating it. *)
Ltac decide_by_compute := apply (bool_decide_unpack _); vm_compute; exact I.

(** * Lists *)

Lemma list_filter_all {A} (P : A -> Prop) `{forall x, Decision (P x)} (l : list A) :
  (forall x, x ∈ l -> P x) -> filter P l = l.
Proof.
  induction l as [|x l IH]; intros Hall; [done|].
  rewrite filter_cons_True by (apply Hall; by left).
  f_equal. apply IH. intros y Hy. apply Hall. by right.
Qed.

Lemma list_filter_none {A} (P : A -> Prop) `{forall x, Decision (P x)} (l : list A) :
  (forall x, x ∈ l -> ~ P x) -> filter P l = [].
Proof.
  induction l as [|x l IH]; intros Hall; [done|].
  rewrite filter_cons_False by (apply Hall; by left).
  apply IH. intros y Hy. apply Hall. by right.
Qed.

(** The first [n] non-negative integers, for claims about a small range. *)
Definition upto (n : nat) : list Z := Z.of_nat <$> seq 0 n.

Lemma elem_of_upto n z : 0 <= z < Z.of_nat n -> z ∈ upto n.
Proof.
  intros Hz. apply list_elem_of_fmap. exists (Z.to_nat z). split; [lia|]. apply elem_of_seq. lia.
Qed.

Lemma inj_on_upto {A} (f : Z -> A) n x y :
  NoDup (f <$> upto n) -> 0 <= x < Z.of_nat n -> 0 <= y < Z.of_nat n -> f x = f y -> x = y.
Proof.
  intros Hnd Hx Hy E.
  assert (forall z, 0 <= z < Z.of_nat n -> (f <$> upto n) !! Z.to_nat z = Some (f z)) as Hl.
  { intros z Hz. unfold upto. rewrite !list_lookup_fmap, lookup_seq_lt by lia. simpl. do 2 f_equal. lia. }
  enough (Z.to_nat x = Z.to_nat y) by lia.
  eapply NoDup_lookup; [exact Hnd | by apply Hl | by rewrite E; apply Hl].
Qed.

Lemma Forall_upto (P : Z -> Prop) n z : Forall P (upto n) -> 0 <= z < Z.of_nat n -> P z.
Proof. rewrite List.Forall_forall. intros HP Hz. by apply HP, list_elem_of_In, elem_of_upto. Qed.
