(* ===== verification/GoText.v ===== *)
(** Go strings: the operations of [strings], [strconv] and [unicode/utf8] the
    modelled code calls. A Go string is a Rocq [string], one [ascii] per byte;
    a [[]byte] is a [bytes]. *)
From Stdlib Require Import ZArith Lia.
From Stdlib Require Strings.Byte Strings.String.
From stdpp Require Import base list strings pretty numbers.
From S2P Require Import Prelude.

#[global] Open Scope string_scope.
#[global] Open Scope list_scope.
#[global] Open Scope Z_scope.
#[global] Open Scope go_scope.

Definition to_bytes (s : string) : bytes := String.list_byte_of_string s.
Definition of_bytes (b : bytes) : string := String.string_of_list_byte b.

(** [len(s)] counts bytes. *)
Definition slen (s : string) : Z := len (to_bytes s).

(** * Numbers *)

(** [strconv.Itoa], [strconv.FormatUint(_, 10)] and [%d]. *)
Definition Itoa (z : Z) : string := @pretty Z _ z.

Definition hex_digit (d : Z) : string :=
  of_bytes [zb (if d <? 10 then 48 + d else 87 + d)].

(** [%x] of a byte slice: two digits each. *)
Fixpoint hex_bytes (b : bytes) : string :=
  match b with
  | [] => ""
  | c :: b' => (hex_digit (bz c / 16) +:+ hex_digit (bz c mod 16) +:+ hex_bytes b')
  end.

(** [strconv.FormatUint(_, 16)] of a 16-bit value, without leading zeros. *)
Definition hex16 (z : Z) : string :=
  ((if z <? 4096 then "" else hex_digit (z / 4096)) +:+
   (if z <? 256 then "" else hex_digit (z / 256 mod 16)) +:+
   (if z <? 16 then "" else hex_digit (z / 16 mod 16)) +:+
   hex_digit (z mod 16)).

(** * UTF-8 *)

Definition cont (z : Z) : bool := (128 <=? z) && (z <=? 191).
Definition within (lo z hi : Z) : bool := (lo <=? z) && (z <=? hi).

(** The first rune of a byte string and its width; [None] where Go's decoder
    yields [RuneError] of width one. *)
Definition decodeRune (b : bytes) : option (Z * nat) :=
  match bz <$> take 4 b with
  | [] => None
  | c0 :: r =>
      if c0 <? 128 then Some (c0, 1%nat)
      else match r with
      | c1 :: r =>
          if within 194 c0 223 && cont c1
          then Some ((c0 - 192) * 64 + (c1 - 128), 2%nat)
          else match r with
          | c2 :: r =>
              if within 224 c0 239 && cont c2 &&
                 within (if c0 =? 224 then 160 else 128) c1
                        (if c0 =? 237 then 159 else 191)
              then Some (((c0 - 224) * 64 + (c1 - 128)) * 64 + (c2 - 128), 3%nat)
              else match r with
              | c3 :: _ =>
                  if within 240 c0 244 && cont c2 && cont c3 &&
                     within (if c0 =? 240 then 144 else 128) c1
                            (if c0 =? 244 then 143 else 191)
                  then Some ((((c0 - 240) * 64 + (c1 - 128)) * 64 + (c2 - 128)) * 64
                             + (c3 - 128), 4%nat)
                  else None
              | [] => None
              end
          | [] => None
          end
      | [] => None
      end
  end.

(** A string cut into runes, each with its bytes; an invalid byte is a chunk
    of its own. The fuel is the length of the input. *)
Fixpoint runes_fuel (fuel : nat) (b : bytes) : list (option Z * bytes) :=
  match fuel with
  | O => []
  | S fuel =>
      match b with
      | [] => []
      | c :: b' =>
          match decodeRune b with
          | Some (r, w) => (Some r, take w b) :: runes_fuel fuel (drop w b)
          | None => (None, [c]) :: runes_fuel fuel b'
          end
      end
  end.
Definition runes (b : bytes) : list (option Z * bytes) := runes_fuel (length b) b.

Definition rune_ok (rc : option Z * bytes) : bool := bool_decide (is_Some (fst rc)).

(** [utf8.Valid]. *)
Definition utf8_Valid (b : bytes) : bool := forallb rune_ok (runes b).

(** [strings.ToValidUTF8(s, "")]. *)
Definition ToValidUTF8 (b : bytes) : bytes :=
  concat (map snd (filter rune_ok (runes b))).

(** [unicode.IsSpace]. *)
Definition IsSpace (r : Z) : bool :=
  within 9 r 13 || (r =? 32) || (r =? 133) || (r =? 160) || (r =? 5760) ||
  within 8192 r 8202 || (r =? 8232) || (r =? 8233) || (r =? 8239) ||
  (r =? 8287) || (r =? 12288).

Definition chunk_space (rc : option Z * bytes) : bool :=
  match fst rc with Some r => IsSpace r | None => false end.

Fixpoint drop_while {A} (f : A -> bool) (l : list A) : list A :=
  match l with
  | [] => []
  | x :: l' => if f x then drop_while f l' else l
  end.

(** [strings.TrimSpace]. *)
Definition TrimSpace (s : string) : string :=
  let cs := drop_while chunk_space (runes (to_bytes s)) in
  of_bytes (concat (map snd (reverse (drop_while chunk_space (reverse cs))))).

(** * Searching and splitting *)

Definition HasPrefix (s p : string) : bool := String.prefix p s.

Fixpoint split_bytes (sep : byte) (acc b : bytes) : list bytes :=
  match b with
  | [] => [reverse acc]
  | c :: b' =>
      if decide (c = sep) then reverse acc :: split_bytes sep [] b'
      else split_bytes sep (c :: acc) b'
  end.

(** [strings.Split(s, sep)] for a separator of one byte. *)
Definition Split (s : string) (sep : byte) : list string :=
  of_bytes <$> split_bytes sep [] (to_bytes s).

(** [strings.Join]. *)
Fixpoint Join (l : list string) (sep : string) : string :=
  match l with
  | [] => ""
  | [s] => s
  | s :: l' => (s +:+ sep +:+ Join l' sep)
  end.

(** Go compares strings byte by byte, as [String.compare] does. *)
Definition str_lt (a b : string) : bool :=
  match String.compare a b with Lt => true | _ => false end.

(** * Lemmas *)

Lemma to_of_bytes b : to_bytes (of_bytes b) = b.
Proof. apply String.list_byte_of_string_of_list_byte. Qed.

Lemma of_to_bytes s : of_bytes (to_bytes s) = s.
Proof. apply String.string_of_list_byte_of_string. Qed.

#[export] Instance of_bytes_inj : Inj (=) (=) of_bytes.
Proof. intros a b E. by rewrite <- (to_of_bytes a), E, to_of_bytes. Qed.

Lemma slen_of_bytes b : slen (of_bytes b) = len b.
Proof. unfold slen. by rewrite to_of_bytes. Qed.

#[export] Instance Itoa_inj : Inj (=) (=) Itoa.
Proof. unfold Itoa. apply _. Qed.

(** ** Runes *)

Lemma decodeRune_width b r w : decodeRune b = Some (r, w) -> (1 <= w <= length b)%nat /\ (w <= 4)%nat.
Proof.
  unfold decodeRune. intros E.
  destruct b as [|b0 [|b1 [|b2 [|b3 b']]]]; simpl in E; repeat case_match; simplify_eq;
    simpl; lia.
Qed.

Lemma decodeRune_take b r w : decodeRune b = Some (r, w) -> forall t, decodeRune (take w b ++ t) = Some (r, w).
Proof.
  unfold decodeRune. intros E t.
  destruct b as [|b0 [|b1 [|b2 [|b3 b']]]]; simpl in E;
    repeat (case_match; simplify_eq; simpl);
    repeat match goal with H : ?b = true |- _ => rewrite H; clear H end;
    try done; repeat case_match; simplify_eq; try done.
  all: destruct t as [|t0 [|t1 t2]]; simpl in *; simplify_eq;
    repeat match goal with H : ?x = _ |- context [?x] => rewrite H end; done.
Qed.

Lemma runes_fuel_chunks n b rc :
  rc ∈ runes_fuel n b -> rune_ok rc = true ->
  exists r w, rc = (Some r, take w (snd rc)) /\ (1 <= w)%nat /\
    forall t, decodeRune (snd rc ++ t) = Some (r, w) /\ length (snd rc) = w.
Proof.
  revert b. induction n as [|n IH]; intros b; simpl; [by intros ?%elem_of_nil|].
  destruct b as [|c b]; [by intros ?%elem_of_nil|].
  destruct (decodeRune (c :: b)) as [[r w]|] eqn:E.
  - intros [->|Hin]%elem_of_cons Hok; [|by eapply IH].
    pose proof (decodeRune_width _ _ _ E) as [Hw _].
    exists r, w. cbn [snd]. rewrite firstn_firstn, Nat.min_id. split; [done|].
    split; [lia|]. intros t. split; [by apply decodeRune_take|].
    rewrite length_take. lia.
  - intros [->|Hin]%elem_of_cons Hok; [|by eapply IH].
    unfold rune_ok in Hok. simpl in Hok. discriminate.
Qed.

(** Cutting the concatenation of valid chunks gives the chunks back. *)
Lemma runes_fuel_concat cs n :
  Forall (fun rc => exists r w, rc = (Some r, take w (snd rc)) /\ (1 <= w)%nat /\
    forall t, decodeRune (snd rc ++ t) = Some (r, w) /\ length (snd rc) = w) cs ->
  (length (concat (map snd cs)) <= n)%nat ->
  runes_fuel n (concat (map snd cs)) = cs.
Proof.
  intros Hcs. revert n. induction Hcs as [|rc cs (r & w & Erc & Hw & Hdec) Hcs IH];
    intros n Hn; [by destruct n|].
  destruct (Hdec (concat (map snd cs))) as [E Hlen].
  assert (rc = (Some r, snd rc)) as Erc'.
  { rewrite Erc at 1. f_equal. rewrite <- Hlen. apply firstn_all. }
  cbn [map concat] in *. rewrite length_app, Hlen in Hn.
  destruct n as [|n]; [lia|]. cbn [runes_fuel].
  destruct (snd rc ++ concat (map snd cs)) as [|c b] eqn:Eb.
  { apply (f_equal length) in Eb. rewrite length_app in Eb. simpl in Eb. lia. }
  rewrite E, <- Eb. rewrite <- Hlen, take_app_length, drop_app_length.
  rewrite IH by lia. by rewrite <- Erc'.
Qed.

Lemma runes_ToValidUTF8 b : runes (ToValidUTF8 b) = filter rune_ok (runes b).
Proof.
  unfold runes at 1. apply runes_fuel_concat; [|done].
  apply Forall_forall. intros rc [Hok Hin]%list_elem_of_In%list_elem_of_filter.
  eapply runes_fuel_chunks; [exact Hin|]. by destruct (rune_ok rc).
Qed.

Lemma utf8_Valid_ToValidUTF8 b : utf8_Valid (ToValidUTF8 b) = true.
Proof.
  unfold utf8_Valid. rewrite runes_ToValidUTF8. apply forallb_forall.
  intros rc [Hok _]%list_elem_of_In%list_elem_of_filter.
  by destruct (rune_ok rc).
Qed.

Lemma concat_runes_fuel n b : (length b <= n)%nat -> concat (map snd (runes_fuel n b)) = b.
Proof.
  revert b. induction n as [|n IH]; intros b Hb.
  - by destruct b; [|simpl in Hb; lia].
  - destruct b as [|c b]; [done|]. cbn [runes_fuel].
    destruct (decodeRune (c :: b)) as [[r w]|] eqn:E; cbn [map concat snd].
    + pose proof (decodeRune_width _ _ _ E) as [Hw _].
      rewrite IH; [apply take_drop | rewrite length_drop; simpl in *; lia].
    + rewrite IH by (simpl in Hb; lia). done.
Qed.

Lemma ToValidUTF8_valid b : utf8_Valid b = true -> ToValidUTF8 b = b.
Proof.
  unfold utf8_Valid, ToValidUTF8. intros Hv. rewrite <- (concat_runes_fuel (length b) b) at 2 by done.
  fold (runes b). do 2 f_equal. rewrite forallb_forall in Hv.
  induction (runes b) as [|rc cs IH]; [done|].
  rewrite filter_cons_True by (rewrite (Hv rc) by (left; done); done).
  f_equal. apply IH. intros x Hx. apply Hv. by right.
Qed.

Lemma length_concat_filter {A B} (P : A * list B -> bool) (l : list (A * list B)) :
  (length (concat (map snd (filter P l))) <= length (concat (map snd l)))%nat.
Proof.
  induction l as [|x l IH]; [done|]. rewrite filter_cons.
  destruct (decide _); cbn [map concat]; rewrite ?length_app in *; lia.
Qed.

Lemma len_ToValidUTF8 b : len (ToValidUTF8 b) <= len b.
Proof.
  unfold len, ToValidUTF8. pose proof (length_concat_filter rune_ok (runes b)) as H.
  unfold runes at 2 in H. rewrite concat_runes_fuel in H by done. lia.
Qed.

(** ** String order *)

Lemma String_compare_antisym a b : String.compare b a = CompOpp (String.compare a b).
Proof. apply String.compare_antisym. Qed.

Lemma str_lt_spec a b : str_lt a b = true <-> String.compare a b = Lt.
Proof. unfold str_lt. by destruct (String.compare a b). Qed.

Lemma Ascii_compare_eq a b : Ascii.compare a b = Eq <-> a = b.
Proof.
  unfold Ascii.compare. rewrite N.compare_eq_iff. split; [|by intros ->].
  intros E. by rewrite <- (Ascii.ascii_N_embedding a), E, Ascii.ascii_N_embedding.
Qed.

Lemma str_lt_trans a b c : str_lt a b = true -> str_lt b c = true -> str_lt a c = true.
Proof.
  rewrite !str_lt_spec. revert b c.
  induction a as [|x a IH]; intros [|y b] [|z c]; simpl; try done.
  destruct (Ascii.compare x y) eqn:Exy; [apply Ascii_compare_eq in Exy as -> | | done].
  - destruct (Ascii.compare y z); [by apply IH | done..].
  - intros _. destruct (Ascii.compare y z) eqn:Eyz; [apply Ascii_compare_eq in Eyz as <- | | done].
    + by rewrite Exy.
    + intros _. unfold Ascii.compare in *. rewrite N.compare_lt_iff in *.
      by rewrite (proj2 (N.compare_lt_iff _ _)) by lia.
Qed.

(** [str_le]: not above. *)
Lemma str_not_lt_trans a b c : str_lt b a = false -> str_lt c b = false -> str_lt c a = false.
Proof.
  intros Hab Hbc. destruct (str_lt c a) eqn:E; [|done]. exfalso.
  destruct (String.compare a b) eqn:Eab.
  - apply String.compare_eq_iff in Eab as ->. congruence.
  - apply str_lt_spec in Eab. rewrite (str_lt_trans _ _ _ E Eab) in Hbc. done.
  - assert (str_lt b a = true); [|congruence].
    apply str_lt_spec. by rewrite String_compare_antisym, Eab.
Qed.

Lemma str_lt_total a b : str_lt a b = false -> str_lt b a = false -> a = b.
Proof.
  unfold str_lt. rewrite (String_compare_antisym a b).
  destruct (String.compare a b) eqn:E; simpl; [|done..].
  intros _ _. by apply String.compare_eq_iff.
Qed.

Lemma str_lt_irrefl a : str_lt a a = false.
Proof.
  unfold str_lt. pose proof (String_compare_antisym a a) as E.
  by destruct (String.compare a a).
Qed.

Lemma str_lt_asym a b : str_lt a b = true -> str_lt b a = false.
Proof.
  intros H. destruct (str_lt b a) eqn:E; [|done].
  by rewrite <- (str_lt_trans _ _ _ H E), str_lt_irrefl.
Qed.

(** ** Splitting and trimming plain text *)

Lemma Split_last sep acc b : sep ∉ b -> split_bytes sep acc b = [reverse acc ++ b].
Proof.
  revert acc. induction b as [|c b IH]; intros acc; simpl; [by rewrite app_nil_r|].
  rewrite not_elem_of_cons. intros [Hc Hb]. rewrite decide_False by congruence.
  rewrite IH by done. by rewrite reverse_cons, <- app_assoc.
Qed.

Lemma Split_first sep acc a b :
  sep ∉ a -> split_bytes sep acc (a ++ sep :: b) = (reverse acc ++ a) :: split_bytes sep [] b.
Proof.
  revert acc. induction a as [|c a IH]; intros acc; simpl.
  - intros _. by rewrite decide_True, app_nil_r.
  - rewrite not_elem_of_cons. intros [Hc Ha]. rewrite decide_False by congruence.
    rewrite IH by done. by rewrite reverse_cons, <- app_assoc.
Qed.

Lemma slen_zero s : slen s = 0 <-> s = "".
Proof.
  split; [|by intros ->]. unfold slen, len. intros E. assert (to_bytes s = []) as H by (destruct (to_bytes s); done).
  by rewrite <- (of_to_bytes s), H.
Qed.
Lemma to_bytes_app a b : to_bytes (a +:+ b) = to_bytes a ++ to_bytes b.
Proof.
  unfold to_bytes, String.list_byte_of_string. induction a as [|c a IH]; [done|].
  simpl. by rewrite IH.
Qed.

(** Splitting what was joined gives the parts back. *)
Lemma Split_Join sep l :
  l <> [] -> Forall (fun s => sep ∉ to_bytes s) l -> Split (Join l (of_bytes [sep])) sep = l.
Proof.
  intros Hne Hl. unfold Split. induction Hl as [|s l Hs Hl IH]; [done|].
  destruct l as [|s' l].
  - cbn [Join]. rewrite Split_last by done. rewrite fmap_cons, reverse_nil. cbn [app].
    by rewrite of_to_bytes.
  - cbn [Join]. rewrite !to_bytes_app, to_of_bytes. cbn [app].
    rewrite Split_first by done. rewrite fmap_cons, reverse_nil. cbn [app].
    rewrite of_to_bytes. f_equal. by apply IH.
Qed.

(** Printable ASCII other than the blank. *)
Definition plain (c : byte) : bool := within 33 (bz c) 126.
Definition blanks (n : nat) : bytes := replicate n (zb 32).

Lemma runes_ascii b :
  Forall (fun c => bz c < 128) b -> runes b = map (fun c => (Some (bz c), [c])) b.
Proof.
  unfold runes. induction 1 as [|c b Hc Hb IH]; [done|]. cbn [length runes_fuel map].
  assert (decodeRune (c :: b) = Some (bz c, 1%nat)) as ->.
  { unfold decodeRune. cbn. by rewrite (proj2 (Z.ltb_lt _ _)). }
  simpl. rewrite drop_0. by rewrite IH.
Qed.

Lemma drop_while_blanks n l :
  drop_while chunk_space (map (fun c => (Some (bz c), [c])) (blanks n) ++ l) = drop_while chunk_space l.
Proof. by induction n. Qed.

Lemma drop_while_plain c b l :
  plain c = true -> drop_while chunk_space (map (fun c => (Some (bz c), [c])) (c :: b) ++ l)
  = map (fun c => (Some (bz c), [c])) (c :: b) ++ l.
Proof.
  unfold plain, within. rewrite andb_true_iff, !Z.leb_le. intros Hc. simpl.
  assert (chunk_space (Some (bz c), [c]) = false) as ->; [|done].
  unfold chunk_space, IsSpace, within. simpl.
  repeat match goal with |- context [?a <=? ?b] => destruct (Z.leb_spec a b) | |- context [?a =? ?b] => destruct (Z.eqb_spec a b) end;
    simpl; done || lia.
Qed.

(** Blanks around plain text are all that [TrimSpace] removes. *)
Lemma TrimSpace_plain s n m :
  Forall (fun c => plain c = true) s -> s <> [] ->
  TrimSpace (of_bytes (blanks n ++ s ++ blanks m)) = of_bytes s.
Proof.
  intros Hs Hne. unfold TrimSpace. rewrite to_of_bytes.
  set (f := fun c : byte => (Some (bz c), [c])).
  assert (forall k, Forall (fun c => bz c < 128) (blanks k)) as Hb.
  { intros k. apply Forall_replicate. done. }
  assert (Forall (fun c => bz c < 128) s) as Hs'.
  { eapply List.Forall_impl; [|exact Hs]. intros c. unfold plain, within.
    rewrite andb_true_iff, !Z.leb_le. lia. }
  rewrite runes_ascii by (by repeat apply Forall_app_2).
  rewrite !map_app. unfold f. rewrite drop_while_blanks.
  destruct s as [|c s]; [done|]. apply List.Forall_cons_iff in Hs as [Hc Hs].
  rewrite drop_while_plain by done. rewrite reverse_app.
  assert (forall l, reverse (map f l) = map f (reverse l)) as Hrev.
  { intros l. change (map f) with (fmap (M := list) f). by rewrite fmap_reverse. }
  fold f. rewrite !Hrev.
  assert (reverse (blanks m) = blanks m) as -> by apply reverse_replicate.
  unfold f at 1. rewrite drop_while_blanks.
  destruct (reverse (c :: s)) as [|d r] eqn:Er.
  { apply (f_equal length) in Er. rewrite length_reverse in Er. done. }
  assert (plain d = true) as Hd.
  { assert (d ∈ c :: s) as Hin by (rewrite <- elem_of_reverse, Er; by left).
    apply elem_of_cons in Hin as [->|Hin]; [done|]. rewrite List.Forall_forall in Hs.
    by apply Hs, list_elem_of_In. }
  rewrite <- (app_nil_r (map f (d :: r))). unfold f at 1. rewrite drop_while_plain by done.
  fold f. rewrite app_nil_r, Hrev, <- Er, reverse_involutive.
  f_equal. clear. induction (c :: s) as [|x l IH]; [done|]. simpl. by rewrite IH.
Qed.
