(* ===== verification/World.v ===== *)
(** Code that acts on the world around it: a state monad, for the components
    that call stores, brokers and clocks. The world is whatever type a
    component's collaborators work on. *)
From Stdlib Require Import ZArith Lia.
From stdpp Require Import base list gmap numbers.
From S2P Require Import Prelude.

Definition M (W A : Type) : Type := W -> A * W.
#[export] Instance M_ret W : MRet (M W) := fun A a w => (a, w).
#[export] Instance M_bind W : MBind (M W) := fun A B k m w => let '(a, w) := m w in k a w.

Section world.
Context {W A B : Type}.
Implicit Types (m : M W A) (k : A -> M W B).

Lemma bind_snd m k w : snd ((m ≫= k) w) = snd (k (fst (m w)) (snd (m w))).
Proof. unfold mbind, M_bind. by destruct (m w). Qed.
Lemma bind_fst m k w : fst ((m ≫= k) w) = fst (k (fst (m w)) (snd (m w))).
Proof. unfold mbind, M_bind. by destruct (m w). Qed.
Lemma bind_eq m k w a w' : m w = (a, w') -> (m ≫= k) w = k a w'.
Proof. intros E. unfold mbind, M_bind. by rewrite E. Qed.
End world.

(** ** Actions that may panic or run out of fuel *)

Definition obind {W A B} (m : M W (outcome A)) (k : A -> M W (outcome B)) : M W (outcome B) :=
  o ← m; match o with Ret a => k a | Panic => mret Panic | OutOfFuel => mret OutOfFuel end.
Notation "x ←? m ; k" := (obind m (fun x => k))
  (at level 20, m at level 100, k at level 200, right associativity) : go_scope.

Lemma obind_ret {W A B} (m : M W (outcome A)) (k : A -> M W (outcome B)) w a w' :
  m w = (Ret a, w') -> obind m k w = k a w'.
Proof. intros E. unfold obind. by rewrite (bind_eq _ _ _ _ _ E). Qed.

(** An action of one world in a larger one that keeps a counter. *)
Definition counting {W A} (m : M W A) : M (W * Z) A := fun s => let '(a, w) := m s.1 in (a, (w, s.2 + 1)).
Definition lifted {W A} (m : M W A) : M (W * Z) A := fun s => let '(a, w) := m s.1 in (a, (w, s.2)).

(** ** What an action can do to the world

    [moves R m]: wherever [m] is run, it leaves the world related by [R]. *)

Definition moves {W A} (R : relation W) (m : M W A) : Prop := forall w, R w (snd (m w)).

Section moves.
Context {W A B : Type} (R : relation W) `{!PreOrder R}.

Lemma moves_ret (a : A) : moves R (mret a : M W A).
Proof. intros w. simpl. reflexivity. Qed.
Lemma moves_bind (m : M W A) (k : A -> M W B) : moves R m -> (forall a, moves R (k a)) -> moves R (m ≫= k).
Proof. intros Hm Hk w. rewrite bind_snd. etrans; [apply Hm | apply Hk]. Qed.
End moves.

(** Splits an action into its calls; what a call does is looked up among the
    hints, or left to the caller. *)
Create HintDb moves discriminated.
Ltac solve_moves :=
  repeat lazymatch goal with
  | |- moves _ (mret _) => apply moves_ret
  | |- moves _ (_ ≫= _) => apply moves_bind; [| |intros ?]
  | |- moves _ (if ?b then _ else _) => destruct b
  | |- moves _ (match ?x with _ => _ end) => destruct x
  | |- moves _ (let '_ := ?x in _) => destruct x
  | |- PreOrder _ => typeclasses eauto
  | |- moves _ _ => solve [auto with moves]
  end.
