(* ===== verification/Errx.v ===== *)
(** Package platform/errx: the error taxonomy, and the error values of the Go
    library it classifies ([errors], [fmt.Errorf] with one [%w]). *)
From Stdlib Require Import ZArith Lia.
From stdpp Require Import base list strings numbers.
From S2P Require Import Prelude.

Inductive Kind : Type :=
  | KindUnknown | KindInvalid | KindUnauthorized | KindForbidden | KindNotFound
  | KindConflict | KindTransient | KindInternal.
#[export] Instance Kind_eq_dec : EqDecision Kind.
Proof. solve_decision. Defined.

Definition Kind_String (k : Kind) : string :=
  match k with
  | KindInvalid => "invalid" | KindUnauthorized => "unauthorized" | KindForbidden => "forbidden"
  | KindNotFound => "not_found" | KindConflict => "conflict" | KindTransient => "transient"
  | KindInternal => "internal" | KindUnknown => "unknown"
  end.

(** An error that is not nil: a message, [fmt.Errorf("%s: %w", msg, err)], or
    a [kindError]. *)
Inductive Err : Type :=
  | ErrText (msg : string)
  | ErrWrap (msg : string) (err : Err)
  | kindError (kind : Kind) (err : Err).
#[export] Instance Err_eq_dec : EqDecision Err.
Proof. solve_decision. Defined.

Fixpoint Err_Error (e : Err) : string :=
  match e with
  | ErrText msg => msg
  | ErrWrap msg e => msg +:+ ": " +:+ Err_Error e
  | kindError _ e => Err_Error e
  end.

(** [errors.Unwrap]. *)
Definition Unwrap (e : Err) : option Err :=
  match e with ErrText _ => None | ErrWrap _ e => Some e | kindError _ e => Some e end.

(** [errors.As(err, &ke)]: the first [kindError] of the chain, as its kind and
    what it wraps. *)
Fixpoint AsKind (e : Err) : option (Kind * Err) :=
  match e with
  | ErrText _ => None
  | ErrWrap _ e => AsKind e
  | kindError k e => Some (k, e)
  end.

Definition New (kind : Kind) (msg : string) : Err := kindError kind (ErrText msg).

(** [Wrap] of nil is nil. *)
Definition Wrap (kind : Kind) (err : option Err) (msg : string) : option Err :=
  match err with None => None | Some e => Some (kindError kind (ErrWrap msg e)) end.

(** The loop of [KindOf]: [fuel] bounds the length of the chain. *)
Fixpoint KindOf_loop (fuel : nat) (kind : Kind) (err : option Err) : outcome Kind :=
  match fuel, err with
  | O, _ => OutOfFuel
  | S fuel, None => Ret kind
  | S fuel, Some e =>
      match AsKind e with
      | Some (k, inner) => KindOf_loop fuel k (Some inner)
      | None => KindOf_loop fuel kind (Unwrap e)
      end
  end.

Fixpoint chain (e : Err) : nat :=
  match e with ErrText _ => 1%nat | ErrWrap _ e => S (chain e) | kindError _ e => S (chain e) end.
Definition KindOf (err : option Err) : outcome Kind :=
  KindOf_loop (S (match err with Some e => chain e | None => O end)) KindUnknown err.

Definition Retryable (err : option Err) : outcome bool :=
  k ← KindOf err; Ret (bool_decide (k = KindTransient)).

(** * What an error is classified as *)

(** The innermost classification of a chain. *)
Fixpoint origin (e : Err) : option Kind :=
  match e with
  | ErrText _ => None
  | ErrWrap _ e => origin e
  | kindError k e => Some (default k (origin e))
  end.
Definition kindOf (err : option Err) : Kind :=
  default KindUnknown (e ← err; origin e).
Definition retryable (err : option Err) : bool := bool_decide (kindOf err = KindTransient).

Lemma AsKind_None e : AsKind e = None -> origin e = None.
Proof. induction e; simpl; [done | done | done]. Qed.
Lemma AsKind_Some e k inner :
  AsKind e = Some (k, inner) -> origin e = Some (default k (origin inner)) /\ (chain inner < chain e)%nat.
Proof.
  induction e as [msg|msg e IH|kind e IH]; simpl; [done| |by intros [= -> ->]; split; [|lia]].
  intros Ha. destruct (IH Ha). split; [done | lia].
Qed.

Lemma KindOf_loop_spec fuel : forall kind err,
  (match err with Some e => chain e | None => O end < fuel)%nat ->
  KindOf_loop fuel kind err = Ret (default kind (e ← err; origin e)).
Proof.
  induction fuel as [|fuel IH]; intros kind err Hf; [lia|]. destruct err as [e|]; [|done]. simpl.
  destruct (AsKind e) as [[k inner]|] eqn:E.
  - apply AsKind_Some in E as [E Hlt]. rewrite IH by lia. by rewrite E.
  - pose proof (AsKind_None _ E) as En. rewrite En. destruct e as [msg|msg e|k e]; [|simpl in *|done].
    + simpl. destruct fuel; [simpl in Hf; lia | done].
    + rewrite IH by (simpl; lia). simpl. by rewrite En.
Qed.

Lemma KindOf_spec err : KindOf err = Ret (kindOf err).
Proof. unfold KindOf. rewrite KindOf_loop_spec; [done|]. destruct err; lia. Qed.
Lemma Retryable_spec err : Retryable err = Ret (retryable err).
Proof. unfold Retryable. by rewrite KindOf_spec. Qed.

(** [KindOf] ends on every chain, with the classification made at the
    error's origin: wrapping an error that has one changes nothing, and
    gives one to an error that has none. *)
Theorem origin_wins err kind msg :
  (exists k, KindOf err = Ret k) /\
  (KindOf (Wrap kind err msg) = match err with
     | Some e => match origin e with Some k => Ret k | None => Ret kind end
     | None => Ret KindUnknown end) /\
  KindOf (Some (New kind msg)) = Ret kind.
Proof.
  rewrite !KindOf_spec. split; [by eexists|]. split; [|done].
  destruct err as [e|]; simpl; [|done]. unfold kindOf. simpl. by destruct (origin e).
Qed.
