(* ===== verification/Retry.v ===== *)
(** Package platform/retryx: retrying with exponential backoff, and the
    circuit breaker.

    What [Do] retries is an action on the world; waiting is one too, which
    either takes its time or is cut short by the context's error. How long the
    jittered wait really takes is the world's affair. *)
From Stdlib Require Import ZArith Lia.
From stdpp Require Import base list strings numbers.
From S2P Require Import Prelude World Errx.

Record Policy : Type := mkPolicy { MaxAttempts : Z; BaseDelay : Duration; MaxDelay : Duration }.

Section retry.
Context {W : Type}.
Context (fn : M W (option Err)) (wait : Duration -> M W (option Err)).
Context (p : Policy).

Definition nextDelay (delay : Duration) : Duration := Z.min (int64 (delay * 2)) (MaxDelay p).

Fixpoint Do_loop (fuel : nat) (attempt : Z) (delay : Duration) : M W (outcome (option Err)) :=
  match fuel with
  | O => mret OutOfFuel
  | S fuel =>
      err ← fn;
      if bool_decide (err = None) || negb (retryable err) then mret (Ret err)
      else if (0 <? MaxAttempts p) && (MaxAttempts p <=? attempt) then mret (Ret err)
      else
        cancelled ← wait delay;
        match cancelled with
        | Some e => mret (Ret (Some e))
        | None => Do_loop fuel (attempt + 1) (nextDelay delay)
        end
  end.

Definition Do (fuel : nat) : M W (outcome (option Err)) := Do_loop fuel 1 (BaseDelay p).

(** ** Traces

    [retries w l w']: from [w], one transient failure and one full wait for
    each element of [l]. *)
Inductive retries : W -> list Duration -> W -> Prop :=
  | retries_nil w : retries w [] w
  | retries_cons w e w1 d w2 l w' :
      fn w = (Some e, w1) -> retryable (Some e) = true -> wait d w1 = (None, w2) ->
      retries w2 l w' -> retries w (d :: l) w'.

(** The waits of [n] retries, from a first delay. *)
Fixpoint delays (n : nat) (delay : Duration) : list Duration :=
  match n with O => [] | S n => delay :: delays n (nextDelay delay) end.

(** How a run that has retried [n] times ends, and where. *)
Definition ends (n : Z) (delay : Duration) (w : W) (r : option Err) (w' : W) : Prop :=
  (fn w = (r, w') /\ retryable r = false) \/
  (fn w = (r, w') /\ retryable r = true /\ 0 < MaxAttempts p /\ MaxAttempts p <= n + 1) \/
  (exists e w1 c, fn w = (Some e, w1) /\ retryable (Some e) = true /\
     (MaxAttempts p <= 0 \/ n + 1 < MaxAttempts p) /\ wait delay w1 = (Some c, w') /\ r = Some c).

Definition delayAfter (n : nat) (delay : Duration) : Duration := Nat.iter n nextDelay delay.

Lemma delayAfter_S n delay : delayAfter (S n) delay = delayAfter n (nextDelay delay).
Proof. unfold delayAfter. apply Nat.iter_succ_r. Qed.

(** What [Do_loop] does when its fuel covers the attempts left, or the
    attempts the world lets it make. *)
Lemma Do_loop_spec fuel : forall attempt delay w,
  0 < attempt ->
  (0 < MaxAttempts p -> attempt <= MaxAttempts p -> MaxAttempts p < attempt + Z.of_nat fuel) ->
  (0 < MaxAttempts p -> attempt <= MaxAttempts p) ->
  (MaxAttempts p <= 0 -> forall n w', retries w (delays n delay) w' -> (n < fuel)%nat) ->
  exists n wl r w', Do_loop fuel attempt delay w = (Ret r, w') /\
    retries w (delays n delay) wl /\ ends (attempt - 1 + Z.of_nat n) (delayAfter n delay) wl r w' /\
    (0 < MaxAttempts p -> attempt + Z.of_nat n <= MaxAttempts p).
Proof.
  induction fuel as [|fuel IH]; intros attempt delay w Hpos Hmax Hle Hun.
  { destruct (Z.le_gt_cases (MaxAttempts p) 0) as [H0|H0]; [|specialize (Hmax H0 (Hle H0)); lia].
    specialize (Hun H0 O w (retries_nil w)). lia. }
  cbn [Do_loop]. destruct (fn w) as [err w1] eqn:Ef. rewrite (bind_eq _ _ _ _ _ Ef).
  destruct (bool_decide (err = None) || negb (retryable err)) eqn:E1.
  { exists O, w, err, w1. split; [done|]. split; [constructor|]. split; [|lia]. left. split; [done|].
    apply orb_true_iff in E1 as [->%bool_decide_eq_true|E1]; [done|]. by apply negb_true_iff. }
  apply orb_false_iff in E1 as [E1 E2]. apply negb_false_iff in E2. apply bool_decide_eq_false in E1.
  destruct err as [e|]; [|done].
  destruct ((0 <? MaxAttempts p) && (MaxAttempts p <=? attempt)) eqn:E3.
  { apply andb_true_iff in E3 as [?%Z.ltb_lt ?%Z.leb_le]. exists O, w, (Some e), w1. split; [done|].
    split; [constructor|]. split; [|lia]. right. left. split_and!; [done..|]. lia. }
  assert (MaxAttempts p <= 0 \/ attempt < MaxAttempts p) as Hleft.
  { destruct (Z.ltb_spec 0 (MaxAttempts p)), (Z.leb_spec (MaxAttempts p) attempt); [done|lia..]. }
  destruct (wait delay w1) as [c w2] eqn:Ew. rewrite (bind_eq _ _ _ _ _ Ew). destruct c as [c|].
  { exists O, w, (Some c), w2. split; [done|]. split; [constructor|]. split; [|lia]. right. right.
    exists e, w1, c. split_and!; try done. simpl. lia. }
  destruct (IH (attempt + 1) (nextDelay delay) w2) as (n & wl & r & w' & E & Ht & He & Hn);
    [lia | lia | lia | |].
  { intros H0 n w' Hr. enough (S n < S fuel)%nat by lia. apply (Hun H0 (S n) w').
    simpl. econstructor; eauto. }
  exists (S n), wl, r, w'. split; [done|]. split; [simpl; econstructor; eauto|]. rewrite delayAfter_S.
  split; [|lia]. replace (attempt - 1 + Z.of_nat (S n)) with (attempt + 1 - 1 + Z.of_nat n) by lia. done.
Qed.

(** With a bound on its attempts, [Do] returns, whatever the world does,
    after at most that many: every attempt but the last failed with a
    transient error and was followed by one full wait, and the result is the
    last attempt's when it succeeds, fails for good or is the last allowed,
    and the context's error when the wait after it is cut short. *)
Theorem Do_terminates w :
  0 < MaxAttempts p ->
  exists n wl r w', Do (Z.to_nat (MaxAttempts p)) w = (Ret r, w') /\
    Z.of_nat n < MaxAttempts p /\ retries w (delays n (BaseDelay p)) wl /\
    ends (Z.of_nat n) (delayAfter n (BaseDelay p)) wl r w'.
Proof.
  intros Hp. destruct (Do_loop_spec (Z.to_nat (MaxAttempts p)) 1 (BaseDelay p) w)
    as (n & wl & r & w' & E & Ht & He & Hn); [lia..|].
  exists n, wl, r, w'. split; [done|]. split; [lia|]. split; [done|].
  by replace (Z.of_nat n) with (1 - 1 + Z.of_nat n) by lia.
Qed.

(** Without a bound, [Do] returns as soon as the world lets it: if it cannot
    fail transiently and be waited for more than [k] times in a row. *)
Theorem Do_unbounded_liveness w k :
  MaxAttempts p <= 0 ->
  (forall n w', retries w (delays n (BaseDelay p)) w' -> (n <= k)%nat) ->
  exists n wl r w', Do (S k) w = (Ret r, w') /\ (n <= k)%nat /\
    retries w (delays n (BaseDelay p)) wl /\ ends (Z.of_nat n) (delayAfter n (BaseDelay p)) wl r w'.
Proof.
  intros Hp Hk. destruct (Do_loop_spec (S k) 1 (BaseDelay p) w) as (n & wl & r & w' & E & Ht & He & _); [lia..| |].
  { intros _ n w' Hr. specialize (Hk n w' Hr). lia. }
  exists n, wl, r, w'. split; [done|]. split; [by eapply Hk|]. split; [done|].
  by replace (Z.of_nat n) with (1 - 1 + Z.of_nat n) by lia.
Qed.

(** The waits double from the first until the cap, without overflow. *)
Theorem delays_exponential n :
  0 <= BaseDelay p -> 0 <= MaxDelay p -> BaseDelay p < 2 ^ 62 -> MaxDelay p < 2 ^ 62 -> (0 < n)%nat ->
  delayAfter n (BaseDelay p) = Z.min (BaseDelay p * 2 ^ Z.of_nat n) (MaxDelay p).
Proof.
  intros Hb Hm Hb' Hm' Hn.
  assert (forall d, 0 <= d < 2 ^ 62 -> nextDelay d = Z.min (d * 2) (MaxDelay p)) as Hnext.
  { intros d Hd. unfold nextDelay, int64, signed. f_equal.
    rewrite Z.mod_small by lia. destruct (Z.ltb_spec (d * 2) (2 ^ (64 - 1))); lia. }
  induction n as [|n IH]; [lia|]. unfold delayAfter. simpl. fold (delayAfter n (BaseDelay p)).
  destruct n as [|n].
  - simpl. by rewrite Hnext by lia.
  - rewrite IH by lia. set (k := BaseDelay p * 2 ^ Z.of_nat (S n)) in *.
    assert (0 <= k) by (apply Z.mul_nonneg_nonneg; [lia | apply Z.pow_nonneg; lia]).
    rewrite Hnext by lia. replace (BaseDelay p * 2 ^ Z.of_nat (S (S n))) with (k * 2); [lia|].
    unfold k. rewrite (Nat2Z.inj_succ (S n)), Z.pow_succ_r by lia. lia.
Qed.
End retry.

(** * The circuit breaker

    [mu] is held for the whole of each operation, so an operation is one
    transition, at the time of its clock reading. *)

Record Breaker : Type := mkBreaker {
  Threshold : Z; Cooldown : Duration; failures : Z; openedAt : Time
}.
#[export] Instance eta_Breaker : Eta Breaker := fun b =>
  mkBreaker (Threshold b) (Cooldown b) (failures b) (openedAt b).

Definition Allow (b : Breaker) (now : Time) : bool :=
  if failures b <? Threshold b then true else Cooldown b <=? time_Sub now (openedAt b).

Definition Record_ (b : Breaker) (err : bool) (now : Time) : Breaker :=
  if negb err then b <| failures := 0 |>
  else
    let b := b <| failures := failures b + 1 |> in
    if failures b =? Threshold b then b <| openedAt := now |>
    else if Threshold b <? failures b then b <| openedAt := now |>
    else b.

Definition Open (b : Breaker) (now : Time) : bool :=
  (Threshold b <=? failures b) && (time_Sub now (openedAt b) <? Cooldown b).

(** A breaker after a history of recorded outcomes (failed or not, and when),
    oldest first. *)
Definition after (threshold : Z) (cooldown : Duration) (h : list (bool * Time)) : Breaker :=
  fold_left (fun b ev => Record_ b ev.1 ev.2) h (mkBreaker threshold cooldown 0 zeroTime).

(** The failures since the last success, newest first. *)
Fixpoint failuresSince (h : list (bool * Time)) (acc : list Time) : list Time :=
  match h with
  | [] => acc
  | (true, at_) :: h => failuresSince h (at_ :: acc)
  | (false, _) :: h => failuresSince h []
  end.
Definition currentRun (h : list (bool * Time)) : list Time := failuresSince h [].

Lemma failuresSince_snoc h ev acc :
  failuresSince (h ++ [ev]) acc = if ev.1 : bool then ev.2 :: failuresSince h acc else [].
Proof. revert acc. induction h as [|[[] t] h IH]; intros acc; simpl; [by destruct ev as [[] ?]|apply IH..]. Qed.

Lemma after_spec threshold cooldown h :
  let b := after threshold cooldown h in
  Threshold b = threshold /\ Cooldown b = cooldown /\ failures b = len (currentRun h) /\
  (0 < threshold -> threshold <= failures b -> head (currentRun h) = Some (openedAt b)).
Proof.
  unfold after, currentRun. induction h as [|[err at_] h IH] using rev_ind; [split_and!; try done; simpl; intros; lia|].
  rewrite fold_left_app, failuresSince_snoc. cbn [fold_left fst snd]. set (b := fold_left _ h _) in *.
  destruct IH as (Ht & Hc & Hf & Ho). unfold Record_. destruct err; simpl.
  - rewrite Ht, len_cons, Hf.
    destruct (Z.eqb_spec (len (failuresSince h []) + 1) threshold) as [E|E]; simpl; [split_and!; [done..|lia|done]|].
    destruct (Z.ltb_spec threshold (len (failuresSince h []) + 1)); simpl; split_and!; try done; intros; lia.
  - split_and!; [done..|]. intros; lia.
Qed.

(** The breaker stands open exactly while its last run of failures has
    reached the threshold and its last failure is less than the cooldown ago:
    calls pass until the threshold, none passes for the cooldown after the
    failure that reaches it or after any failed probe since, and one success
    closes it. *)
Theorem breaker_policy threshold cooldown h now :
  0 < threshold ->
  let b := after threshold cooldown h in
  (Allow b now = false <->
     threshold <= len (currentRun h) /\
     exists last, head (currentRun h) = Some last /\ time_Sub now last < cooldown) /\
  Open b now = negb (Allow b now).
Proof.
  intros Hpos b. destruct (after_spec threshold cooldown h) as (Ht & Hc & Hf & Ho). fold b in Ht, Hc, Hf, Ho.
  unfold Allow, Open. rewrite Ht, Hc. split.
  - destruct (Z.ltb_spec (failures b) threshold) as [Hlt|Hge].
    + split; [done|]. intros [Hle _]. lia.
    + rewrite Ho by lia. rewrite Z.leb_gt, <- Hf. split; [by eauto|]. by intros (_ & last & [= <-] & ?).
  - rewrite Z.leb_antisym. destruct (Z.ltb_spec (failures b) threshold); simpl; [done|].
    by rewrite Z.ltb_antisym.
Qed.

(** ** At work *)

Section example.
(** The world is the results still to come. *)
Definition scripted : M (list (option Err)) (option Err) := fun w => (default None (head w), tail w).
Definition patient (d : Duration) : M (list (option Err)) (option Err) := fun w => (None, w).
Definition flaky : list (option Err) := [Some (New KindTransient "busy"); Some (New KindTransient "busy"); None].

Lemma Do_terminates_witness :
  0 < MaxAttempts (mkPolicy 5 Second Minute) /\
  exists w', Do scripted patient (mkPolicy 5 Second Minute) 5 flaky = (Ret None, w').
Proof.
  split; [done|].
  destruct (Do_terminates scripted patient (mkPolicy 5 Second Minute) flaky eq_refl) as (n & wl & r & w' & E & _).
  exists w'. change (Z.to_nat _) with 5%nat in E. rewrite E. vm_compute in E. by injection E as <- _.
Defined.

Lemma flaky_lasts n w' : retries scripted patient flaky (delays (mkPolicy 0 Second Minute) n Second) w' -> (n <= 2)%nat.
Proof.
  destruct n as [|[|[|n]]]; [lia..|]. intros Hr.
  inversion Hr as [|? ? ? ? ? ? ? E1 _ E2 Hr2]; subst. injection E1 as _ <-. injection E2 as <-.
  inversion Hr2 as [|? ? ? ? ? ? ? E3 _ E4 Hr3]; subst. injection E3 as _ <-. injection E4 as <-.
  inversion Hr3 as [|? ? ? ? ? ? ? E5 _ _ _]; subst. by injection E5.
Qed.

Lemma Do_unbounded_liveness_witness :
  (forall n w', retries scripted patient flaky (delays (mkPolicy 0 Second Minute) n Second) w' -> (n <= 2)%nat) /\
  exists w', Do scripted patient (mkPolicy 0 Second Minute) 3 flaky = (Ret None, w').
Proof.
  split; [exact flaky_lasts|].
  destruct (Do_unbounded_liveness scripted patient (mkPolicy 0 Second Minute) flaky 2 ltac:(done) flaky_lasts)
    as (n & wl & r & w' & E & _).
  exists w'. rewrite E. vm_compute in E. by injection E as <- _.
Defined.

Lemma breaker_policy_witness :
  0 < 2 /\ Allow (after 2 Minute [(true, 0); (true, Second)]) (2 * Second) = false.
Proof.
  split; [done|]. apply (breaker_policy 2 Minute [(true, 0); (true, Second)] (2 * Second)); [done|].
  split; [by vm_compute|]. exists Second. split; [done|by vm_compute].
Defined.
End example.
