(* ===== verification/Wire.v ===== *)
(** Package platform/wire: the messages services exchange. A float64 is its
    bit pattern: nothing here computes with one. *)
From Stdlib Require Import ZArith Lia.
From stdpp Require Import base list gmap strings numbers.
From S2P Require Import Prelude.

Record SNMPCred : Type := mkSNMPCred {
  sc_Version : string; sc_Community : string; sc_Username : string; sc_AuthProto : string;
  sc_AuthPass : string; sc_PrivProto : string; sc_PrivPass : string; sc_Context : string
}.

Record PollJob : Type := mkPollJob {
  j_JobID : string; j_DeviceID : string; j_SiteID : string; j_Family : string; j_Trigger : string;
  j_MgmtIP : string; j_Port : Z; j_ConnectorID : string; j_Cred : SNMPCred; j_ScheduledAt : Time;
  j_IntervalS : Z; j_TimeoutMS : Z; j_Retries : Z
}.

Record SyncInterface : Type := mkSyncInterface {
  si_IfIndex : Z; si_Name : string; si_Alias : string; si_Descr : string; si_IfType : Z;
  si_MTU : Z; si_SpeedBPS : Z; si_PhysAddress : string; si_AdminStatus : Z; si_OperStatus : Z
}.
#[export] Instance SyncInterface_eq_dec : EqDecision SyncInterface.
Proof. solve_decision. Defined.

Record SyncAdjacency : Type := mkSyncAdjacency {
  sa_LocalIfIndex : Z; sa_RemoteSysName : string; sa_RemotePortID : string;
  sa_RemoteChassis : string; sa_Protocol : string
}.

Record SyncSnapshot : Type := mkSyncSnapshot {
  sn_SysName : string; sn_SysDescr : string; sn_SysObjectID : string; sn_SysLocation : string;
  sn_SysContact : string; sn_UptimeS : Z; sn_Vendor : string; sn_Model : string;
  sn_Serial : string; sn_OSVersion : string;
  sn_Interfaces : list SyncInterface; sn_Adjacencies : list SyncAdjacency
}.

Record SyncResult : Type := mkSyncResult {
  sr_JobID : string; sr_DeviceID : string; sr_PollerID : string; sr_Trigger : string;
  sr_CollectedAt : Time; sr_Error : string; sr_Snapshot : option SyncSnapshot
}.

Record AlertEvent : Type := mkAlertEvent {
  ev_Event : string; ev_AlertID : string; ev_RuleID : string; ev_RuleName : string;
  ev_Severity : string; ev_State : string; ev_DeviceID : string; ev_Labels : gmap string string;
  ev_Value : Z; ev_FiredAt : Time; ev_Summary : string; ev_GraphURL : string
}.

Record Sample : Type := mkSample {
  sm_DeviceID : string; sm_Name : string; sm_Labels : gmap string string; sm_TSMillis : Z; sm_Value : Z
}.
#[export] Instance Sample_eq_dec : EqDecision Sample.
Proof. solve_decision. Defined.

Record MetricBatch : Type := mkMetricBatch {
  mb_PollerID : string; mb_SiteID : string; mb_Samples : list Sample
}.
#[export] Instance MetricBatch_eq_dec : EqDecision MetricBatch.
Proof. solve_decision. Defined.

Record NamedCred : Type := mkNamedCred { nc_CredentialID : string; nc_Name : string; nc_Cred : SNMPCred }.

Record DiscoveryJob : Type := mkDiscoveryJob {
  dj_Family : string; dj_JobID : string; dj_RuleID : string; dj_SiteID : string; dj_CIDR : string; dj_Port : Z;
  dj_Creds : list NamedCred; dj_TimeoutMS : Z
}.

Record DiscoveredHost : Type := mkDiscoveredHost {
  dh_IP : string; dh_SysName : string; dh_SysDescr : string; dh_SysObjectID : string; dh_CredentialID : string
}.
#[export] Instance DiscoveredHost_eq_dec : EqDecision DiscoveredHost.
Proof. solve_decision. Defined.

Record DiscoveryResult : Type := mkDiscoveryResult {
  dr_JobID : string; dr_RuleID : string; dr_PollerID : string; dr_Scanned : Z; dr_Found : list DiscoveredHost; dr_Error : string
}.
