(* ===== verification/Netip.v ===== *)
(** IP addresses and prefixes: the parts of [net/netip] the modelled code
    uses. An address is invalid ([AddrZero], Go's zero value), IPv4, or IPv6
    with an optional zone; the numeric value is the big-endian reading of its
    bytes. *)
From Stdlib Require Import ZArith Lia.
From stdpp Require Import base list gmap strings pretty numbers.
From S2P Require Import Prelude GoText.

Inductive Addr : Type :=
  | AddrZero
  | V4 (z : Z)
  | V6 (z : Z) (zone : string).

#[export] Instance Addr_eq_dec : EqDecision Addr.
Proof. solve_decision. Defined.

#[export] Program Instance Addr_countable : Countable Addr :=
  inj_countable
    (fun a => match a with
      | AddrZero => None
      | V4 z => Some (inl z)
      | V6 z zone => Some (inr (z, zone)) end)
    (fun x => match x with
      | None => Some AddrZero
      | Some (inl z) => Some (V4 z)
      | Some (inr (z, zone)) => Some (V6 z zone) end) _.
Next Obligation. by intros []. Qed.

Definition IsValid (a : Addr) : bool := negb (bool_decide (a = AddrZero)).
Definition Is4 (a : Addr) : bool := match a with V4 _ => true | _ => false end.
Definition Is6 (a : Addr) : bool := match a with V6 _ _ => true | _ => false end.

(** [Is4In6]: an IPv4-mapped IPv6 address, [::ffff:0:0/96]. *)
Definition Is4In6 (a : Addr) : bool :=
  match a with V6 z _ => z / 2 ^ 32 =? 65535 | _ => false end.

Definition Unmap (a : Addr) : Addr :=
  match a with
  | V6 z _ => if Is4In6 a then V4 (z mod 2 ^ 32) else a
  | _ => a
  end.

Definition IsUnspecified (a : Addr) : bool :=
  bool_decide (a = V4 0 \/ a = V6 0 "").

Definition BitLen (a : Addr) : Z :=
  match a with AddrZero => 0 | V4 _ => 32 | V6 _ _ => 128 end.

(** The numeric value, whatever the family. *)
Definition addr_val (a : Addr) : Z :=
  match a with AddrZero => 0 | V4 z => z | V6 z _ => z end.
Definition Zone (a : Addr) : string := match a with V6 _ zone => zone | _ => "" end.

(** [netip.AddrFromSlice]: four or sixteen bytes, anything else is refused. *)
Definition AddrFromSlice (b : bytes) : Addr * bool :=
  if len b =? 4 then (V4 (be b), true)
  else if len b =? 16 then (V6 (be b) "", true)
  else (AddrZero, false).

(** [Addr.Compare]: family width, then value, then zone. *)
Definition Addr_Compare (a b : Addr) : comparison :=
  match BitLen a ?= BitLen b with
  | Eq => match addr_val a ?= addr_val b with
          | Eq => String.compare (Zone a) (Zone b)
          | c => c end
  | c => c
  end.
Definition Addr_Less (a b : Addr) : bool :=
  match Addr_Compare a b with Lt => true | _ => false end.

(** ** Text form *)

Definition octet (z i : Z) : Z := z / 256 ^ (3 - i) mod 256.
Definition string4 (z : Z) : string :=
  Itoa (octet z 0) +:+ "." +:+ Itoa (octet z 1) +:+ "." +:+
  Itoa (octet z 2) +:+ "." +:+ Itoa (octet z 3).

(** [v6u16(i)]: the [i]-th 16-bit group. *)
Definition group16 (z : Z) (i : nat) : Z := z / 2 ^ (112 - 16 * Z.of_nat i) mod 2 ^ 16.

(** How many groups from [i] on are zero. *)
Fixpoint zero_run (n : nat) (z : Z) (i : nat) : nat :=
  match n with
  | O => O
  | S n => if (i <? 8)%nat && (group16 z i =? 0) then S (zero_run n z (S i)) else O
  end.

(** The first longest run of at least two zero groups, as (start, end). *)
Fixpoint longest_run (n : nat) (z : Z) (i : nat) (best : option (nat * nat)) : option (nat * nat) :=
  match n with
  | O => best
  | S n =>
      let l := zero_run 8 z i in
      let size := match best with Some (s, e) => (e - s)%nat | None => O end in
      longest_run n z (S i)
        (if (2 <=? l)%nat && (size <? l)%nat then Some (i, (i + l)%nat) else best)
  end.

Fixpoint groups6 (n : nat) (z : Z) (i : nat) (run : option (nat * nat)) : string :=
  match n with
  | O => ""
  | S n =>
      if (8 <=? i)%nat then "" else
      match run with
      | Some (s, e) =>
          if (i =? s)%nat then
            "::" +:+ (if (8 <=? e)%nat then ""
                      else hex16 (group16 z e) +:+ groups6 n z (S e) run)
          else (if (i =? 0)%nat then "" else ":") +:+
               hex16 (group16 z i) +:+ groups6 n z (S i) run
      | None => (if (i =? 0)%nat then "" else ":") +:+
                hex16 (group16 z i) +:+ groups6 n z (S i) run
      end
  end.

Definition zone_suffix (zone : string) : string :=
  if decide (zone = "") then "" else "%" +:+ zone.

(** [Addr.String], RFC 5952 for IPv6. *)
Definition Addr_String (a : Addr) : string :=
  match a with
  | AddrZero => "invalid IP"
  | V4 z => string4 z
  | V6 z zone =>
      (if Is4In6 a then "::ffff:" +:+ string4 (z mod 2 ^ 32)
       else groups6 8 z 0 (longest_run 8 z 0 None)) +:+ zone_suffix zone
  end.

(** ** Prefixes: [bits] is -1 for the invalid prefix. *)

Record Prefix : Type := mkPrefix { pip : Addr; pbits : Z }.

Definition PrefixFrom (a : Addr) (bits : Z) : Prefix :=
  mkPrefix (match a with V6 z _ => V6 z "" | _ => a end)
    (if IsValid a && (0 <=? bits) && (bits <=? BitLen a) then bits else -1).

Definition mask_val (z width bits : Z) : Z :=
  Z.shiftl (Z.shiftr z (width - bits)) (width - bits).

(** [Addr.Prefix]: the address with its host bits cleared; [None] is Go's
    error for a length the family does not have. *)
Definition Addr_Prefix (a : Addr) (bits : Z) : option Prefix :=
  if bits <? 0 then None else
  match a with
  | AddrZero => Some (mkPrefix AddrZero (-1))
  | V4 z => if 32 <? bits then None
            else Some (PrefixFrom (V4 (mask_val z 32 bits)) bits)
  | V6 z zone => if 128 <? bits then None
                 else Some (PrefixFrom (V6 (mask_val z 128 bits) zone) bits)
  end.

Definition Prefix_String (p : Prefix) : string :=
  if pbits p <? 0 then "invalid Prefix"
  else Addr_String (pip p) +:+ "/" +:+ Itoa (pbits p).

Definition Contains (p : Prefix) (a : Addr) : bool :=
  (0 <=? pbits p) && bool_decide (Zone a = "") && IsValid a &&
  (BitLen (pip p) =? BitLen a) &&
  (Z.shiftr (addr_val a) (BitLen a - pbits p) =?
   Z.shiftr (addr_val (pip p)) (BitLen a - pbits p)).

(** ** Well-formedness: the value fits the family. *)
Definition Addr_wf (a : Addr) : Prop :=
  match a with
  | AddrZero => True
  | V4 z => 0 <= z < 2 ^ 32
  | V6 z _ => 0 <= z < 2 ^ 128
  end.

(** * Lemmas *)

Lemma AddrFromSlice_wf b : Addr_wf (fst (AddrFromSlice b)).
Proof.
  unfold AddrFromSlice. pose proof (be_bounds b).
  destruct (len b =? 4) eqn:E; [|destruct (len b =? 16) eqn:E']; simpl; try done.
  - apply Z.eqb_eq in E. rewrite E in *. done.
  - apply Z.eqb_eq in E'. rewrite E' in *. done.
Qed.

Lemma Unmap_wf a : Addr_wf a -> Addr_wf (Unmap a).
Proof.
  destruct a; simpl; try done. intros. case_match; simpl; [|done].
  apply Z.mod_pos_bound. lia.
Qed.

Lemma IsValid_Unmap a : IsValid (Unmap a) = IsValid a.
Proof. destruct a; simpl; [done..|]. by destruct (_ =? _). Qed.

Lemma Unmap_idemp a : Unmap (Unmap a) = Unmap a.
Proof.
  destruct a as [| |z zone]; simpl; [done..|].
  destruct (_ =? _) eqn:E; simpl; [done|]. by rewrite E.
Qed.

Lemma IsValid_true a : IsValid a = true <-> a <> AddrZero.
Proof. unfold IsValid. rewrite negb_true_iff, bool_decide_eq_false. done. Qed.

(** [Contains] is the mathematical statement: same family, no zone, and the
    leading [pbits] bits agree. *)
Lemma Contains_spec p a :
  pbits p <= BitLen (pip p) ->
  Contains p a = true <->
  0 <= pbits p /\ Zone a = "" /\ a <> AddrZero /\ BitLen (pip p) = BitLen a /\
  addr_val a / 2 ^ (BitLen a - pbits p) = addr_val (pip p) / 2 ^ (BitLen a - pbits p).
Proof.
  unfold Contains. intros Hb.
  rewrite !andb_true_iff, bool_decide_eq_true, !Z.leb_le, !Z.eqb_eq, IsValid_true.
  split.
  - intros ((((H1 & H2) & H3) & H4) & H5). rewrite !Z.shiftr_div_pow2 in H5 by lia. done.
  - intros (H1 & H2 & H3 & H4 & H5). rewrite !Z.shiftr_div_pow2 by lia. done.
Qed.

Lemma Addr_Compare_antisym a b : Addr_Compare b a = CompOpp (Addr_Compare a b).
Proof.
  unfold Addr_Compare. rewrite (Z.compare_antisym (BitLen a)).
  destruct (BitLen a ?= BitLen b) eqn:E; simpl; [|done..].
  rewrite (Z.compare_antisym (addr_val a)).
  destruct (addr_val a ?= addr_val b) eqn:E'; simpl; [|done..].
  apply String_compare_antisym.
Qed.

Lemma Addr_Compare_eq a b : Addr_Compare a b = Eq -> a = b.
Proof.
  unfold Addr_Compare.
  destruct (BitLen a ?= BitLen b) eqn:E; [|done..].
  destruct (addr_val a ?= addr_val b) eqn:E'; [|done..].
  intros Ez%String.compare_eq_iff. apply Z.compare_eq in E, E'.
  destruct a, b; simpl in *; simplify_eq; try lia; done.
Qed.

Arguments Addr_wf : simpl never.
Arguments Unmap : simpl never.
