(* ===== verification/NetipParse.v ===== *)
(** [netip.ParseAddr], [netip.ParsePrefix] and [strconv.Atoi], as the Go
    standard library computes them, and what they read back: the text of an
    IPv4 address or prefix parses to that address or prefix. *)
From Stdlib Require Import ZArith Lia.
From Stdlib Require Strings.Byte.
From stdpp Require Import base list strings pretty numbers.
From S2P Require Import Prelude GoText Netip.

Definition isDigit (c : byte) : bool := within 48 (bz c) 57.
Definition dot : byte := zb 46.
Definition colon : byte := zb 58.
Definition percent : byte := zb 37.
Definition slash : byte := zb 47.
Definition comma : byte := zb 44.
Definition space : byte := zb 32.

(** ** Numbers *)

Fixpoint digitsVal (b : bytes) (v : Z) : option Z :=
  match b with
  | [] => Some v
  | c :: b => if isDigit c then digitsVal b (v * 10 + (bz c - 48)) else None
  end.

(** [strconv.Atoi]: an optional sign, then digits; out of range is an error. *)
Definition Atoi (s : string) : option Z :=
  let '(neg, ds) := match to_bytes s with
    | c :: b => if bz c =? 45 then (true, b) else if bz c =? 43 then (false, b) else (false, c :: b)
    | [] => (false, []) end in
  if decide (ds = []) then None else
  v ← digitsVal ds 0;
  let v := if neg : bool then - v else v in
  if (- 2 ^ 63 <=? v) && (v <? 2 ^ 63) then Some v else None.

(** ** IPv4 *)

(** The loop of [parseIPv4Fields]: [first] is [i == 0], [afterDot] is
    [s[i-1] == '.']. *)
Fixpoint v4loop (s : bytes) (first afterDot : bool) (pos val digLen : Z) (fields : list Z)
    : option (list Z) :=
  match s with
  | [] => if pos <? 3 then None else Some (fields ++ [val])
  | c :: s =>
      if isDigit c then
        if (digLen =? 1) && (val =? 0) then None else
        let val := val * 10 + (bz c - 48) in
        if 255 <? val then None else v4loop s false false pos val (digLen + 1) fields
      else if decide (c = dot) then
        if first || bool_decide (s = []) || afterDot then None
        else if pos =? 3 then None
        else v4loop s false true (pos + 1) 0 0 (fields ++ [uint8 val])
      else None
  end.

Definition parseIPv4Fields (s : bytes) : option (list Z) := v4loop s true false 0 0 0 [].

Definition parseIPv4 (s : bytes) : option Addr :=
  fs ← parseIPv4Fields s; Some (V4 (foldl (fun v f => v * 256 + f) 0 fs)).

(** ** IPv6 *)

Definition hexVal (c : byte) : option Z :=
  let z := bz c in
  if within 48 z 57 then Some (z - 48)
  else if within 97 z 102 then Some (z - 87)
  else if within 65 z 70 then Some (z - 55) else None.

(** The hexadecimal digits at the head of [s]: their value and how many, or
    [None] where the inner loop fails. *)
Fixpoint hexField (s : bytes) (off acc : Z) : option (Z * Z) :=
  match s with
  | [] => Some (acc, off)
  | c :: s =>
      match hexVal c with
      | None => Some (acc, off)
      | Some d =>
          if 3 <? off then None else
          let acc := acc * 16 + d in
          if 65535 <? acc then None else hexField s (off + 1) acc
      end
  end.

(** The loop over the groups: the bytes parsed so far, where the ellipsis
    is (-1 for none) and the rest of the text. At most eight iterations. *)
Fixpoint v6loop (fuel : nat) (s : bytes) (ip : list Z) (ellipsis : Z)
    : option (list Z * Z * bytes) :=
  match fuel with
  | O => Some (ip, ellipsis, s)
  | S fuel =>
      if 16 <=? len ip then Some (ip, ellipsis, s) else
      '(acc, off) ← hexField s 0 0;
      if off =? 0 then None else
      match drop (Z.to_nat off) s with
      | [] => Some (ip ++ [acc / 256; acc mod 256], ellipsis, [])
      | c :: s' =>
          if decide (c = dot) then
            if (ellipsis <? 0) && negb (len ip =? 12) then None else
            if 16 <? len ip + 4 then None else
            fs ← parseIPv4Fields s;
            Some (ip ++ fs, ellipsis, [])
          else if negb (bool_decide (c = colon)) then None
          else match s' with
          | [] => None
          | c' :: s'' =>
              let ip := ip ++ [acc / 256; acc mod 256] in
              if decide (c' = colon) then
                if 0 <=? ellipsis then None
                else if decide (s'' = []) then Some (ip, len ip, [])
                else v6loop fuel s'' ip (len ip)
              else v6loop fuel s' ip ellipsis
          end
      end
  end.

Fixpoint index_byte (s : bytes) (c : byte) : option nat :=
  match s with
  | [] => None
  | x :: s => if decide (x = c) then Some O else S <$> index_byte s c
  end.

Definition parseIPv6 (s : bytes) : option Addr :=
  '(s, zone) ← match index_byte s percent with
    | None => Some (s, "")
    | Some i => let zone := of_bytes (drop (S i) s) in
                if decide (zone = "") then None else Some (take i s, zone)
    end;
  '(ip, ellipsis, s) ← match s with
    | c1 :: c2 :: s' =>
        if decide (c1 = colon /\ c2 = colon) then
          if decide (s' = []) then Some ([], 0, []) else v6loop 8 s' [] 0
        else v6loop 8 s [] (-1)
    | _ => v6loop 8 s [] (-1)
    end;
  if negb (bool_decide (s = [])) then None else
  if len ip <? 16 then
    if ellipsis <? 0 then None else
    let e := Z.to_nat ellipsis in
    let ip := take e ip ++ replicate (Z.to_nat (16 - len ip)) 0 ++ drop e ip in
    Some (V6 (foldl (fun v f => v * 256 + f) 0 ip) zone)
  else if 0 <=? ellipsis then None
  else Some (V6 (foldl (fun v f => v * 256 + f) 0 ip) zone).

(** ** Addresses and prefixes *)

(** The scan of [ParseAddr] for the first of '.', ':' and '%'. *)
Fixpoint addrKind (s : bytes) : option byte :=
  match s with
  | [] => None
  | c :: s => if decide (c = dot \/ c = colon \/ c = percent) then Some c else addrKind s
  end.

Definition ParseAddr (s : string) : option Addr :=
  let b := to_bytes s in
  match addrKind b with
  | Some c => if decide (c = dot) then parseIPv4 b
              else if decide (c = colon) then parseIPv6 b else None
  | None => None
  end.

(** The last slash: what is before it and what is after. *)
Fixpoint cut_last (s : bytes) (c : byte) : option (bytes * bytes) :=
  match s with
  | [] => None
  | x :: s =>
      match cut_last s c with
      | Some (a, b) => Some (x :: a, b)
      | None => if decide (x = c) then Some ([], s) else None
      end
  end.

Definition ParsePrefix (s : string) : option Prefix :=
  '(ipText, bitsText) ← cut_last (to_bytes s) slash;
  ip ← ParseAddr (of_bytes ipText);
  if negb (bool_decide (Zone ip = "")) then None else
  if (1 <? len bitsText) && negb (within 49 (bz (default slash (head bitsText))) 57) then None else
  bits ← Atoi (of_bytes bitsText);
  if (bits <? 0) || (BitLen ip <? bits) then None else Some (PrefixFrom ip bits).

Definition sample_addrs : list (string * option Addr) :=
  [("10.0.0.1", Some (V4 167772161)); ("1.2.3", None); ("1.2.3.256", None); ("1.2.3.04", None);
   ("::", Some (V6 0 "")); ("::1", Some (V6 1 "")); ("fe80::1%eth0", Some (V6 (65152 * 2 ^ 112 + 1) "eth0"));
   ("1:2:3:4:5:6:7:8", Some (V6 5192455318486707404433266433261576 ""));
   ("::ffff:1.2.3.4", Some (V6 (65535 * 2 ^ 32 + 16909060) "")); ("1:2:3:4:5:6:7::8:9", None);
   ("1:2:3:4:5:6:7:", None); ("1::2::3", None); ("12345::", None); ("", None); ("abc", None)].

Example ParseAddr_samples :
  Forall (fun '(s, r) => ParseAddr s = r) sample_addrs.
Proof. unfold sample_addrs. repeat constructor. Qed.

(** * Reading back what was written *)

(** ** One octet *)

Fixpoint octetDigits (ds : bytes) (val digLen : Z) : option (Z * Z) :=
  match ds with
  | [] => Some (val, digLen)
  | c :: ds =>
      if negb (isDigit c) || ((digLen =? 1) && (val =? 0)) then None else
      let val := val * 10 + (bz c - 48) in
      if 255 <? val then None else octetDigits ds val (digLen + 1)
  end.

Lemma v4loop_octet ds s first afterDot pos val digLen fs val' digLen' :
  ds <> [] -> octetDigits ds val digLen = Some (val', digLen') ->
  v4loop (ds ++ s) first afterDot pos val digLen fs = v4loop s false false pos val' digLen' fs.
Proof.
  intros Hne. revert first afterDot val digLen.
  induction ds as [|c ds IH]; intros first afterDot val digLen; [done|].
  cbn [octetDigits app v4loop]. destruct (isDigit c); cbn [negb orb]; [|done].
  destruct (_ && _); [done|]. cbv zeta. destruct (255 <? _); [done|].
  destruct ds as [|c' ds]; [by intros [= <- <-]|]. by apply IH.
Qed.

(** What every number below 256 is written as. *)
Definition octet_text (o : Z) : Prop :=
  let ds := to_bytes (Itoa o) in
  (fst <$> octetDigits ds 0 0) = Some o /\ digitsVal ds 0 = Some o /\ ds <> [] /\
  Forall (fun c => isDigit c = true) ds /\ (1 < len ds -> within 49 (bz (default slash (head ds))) 57 = true).
#[export] Instance octet_text_dec o : Decision (octet_text o).
Proof. unfold octet_text. apply _. Defined.

Lemma Itoa_octet o : 0 <= o < 256 -> octet_text o.
Proof. apply (Forall_upto octet_text 256). decide_by_compute. Qed.

Lemma v4loop_Itoa o s first afterDot pos fs :
  0 <= o < 256 -> exists n, 1 <= n /\
  v4loop (to_bytes (Itoa o) ++ s) first afterDot pos 0 0 fs = v4loop s false false pos o n fs.
Proof.
  intros (E & _ & Hne & _)%Itoa_octet.
  destruct (octetDigits _ 0 0) as [[v n]|] eqn:E'; simplify_eq/=. exists n.
  split; [|by eapply v4loop_octet].
  destruct (to_bytes (Itoa o)) as [|c ds]; [done|]. simpl in E'. destruct (_ || _); [done|].
  destruct (255 <? _); [done|]. clear -E'. revert E'. generalize (bz c - 48).
  assert (forall k z, octetDigits ds z k = Some (o, n) -> k <= n) as H.
  { induction ds as [|d ds IH]; intros k z; simpl; [intros [= -> ->]; lia|].
    repeat case_match; try done. intros ?%IH. lia. }
  intros z. apply H.
Qed.

Lemma v4loop_dot s pos o n fs :
  s <> [] -> pos <> 3 -> 0 <= o < 256 ->
  v4loop (dot :: s) false false pos o n fs = v4loop s false true (pos + 1) 0 0 (fs ++ [o]).
Proof.
  intros Hs Hp Ho. cbn [v4loop]. change (isDigit dot) with false. cbv iota.
  rewrite decide_True, bool_decide_false by done. cbn [orb].
  rewrite (proj2 (Z.eqb_neq _ _)) by done. unfold uint8. by rewrite Z.mod_small by lia.
Qed.

Lemma octet_bounds z i : 0 <= octet z i < 256.
Proof. apply Z.mod_pos_bound. lia. Qed.

Lemma octets_val z : 0 <= z < 2 ^ 32 ->
  ((octet z 0 * 256 + octet z 1) * 256 + octet z 2) * 256 + octet z 3 = z.
Proof.
  intros Hz. unfold octet. cbn [Z.sub Z.pow Z.pow_pos Pos.iter Z.mul Z.add Pos.mul Z.opp Z.pos_sub Pos.pred_double].
  change (256 ^ (3 - 0)) with (256 * (256 * 256)). change (256 ^ (3 - 1)) with (256 * 256).
  change (256 ^ (3 - 2)) with 256. change (256 ^ (3 - 3)) with 1.
  rewrite Z.div_1_r, <- !Z.div_div by lia.
  pose proof (Z.div_mod z 256). pose proof (Z.div_mod (z / 256) 256).
  pose proof (Z.div_mod (z / 256 / 256) 256).
  rewrite (Z.mod_small (z / 256 / 256 / 256)); [lia|].
  split; [repeat apply Z.div_pos; lia|]. repeat apply Z.div_lt_upper_bound; lia.
Qed.

Ltac dot_side :=
  solve [apply octet_bounds | lia | assumption
        | let E := fresh in intros E; apply (f_equal length) in E;
          rewrite length_app in E; simpl in E; lia].

Lemma parseIPv4_string4 z : 0 <= z < 2 ^ 32 -> parseIPv4 (to_bytes (string4 z)) = Some (V4 z).
Proof.
  intros Hz. unfold parseIPv4, parseIPv4Fields, string4. rewrite !to_bytes_app.
  change (to_bytes ".") with [dot]. pose proof (octet_bounds z) as Ho.
  destruct (Itoa_octet _ (Ho 3)) as (_ & _ & H3 & _).
  destruct (v4loop_Itoa (octet z 0) ([dot] ++ to_bytes (Itoa (octet z 1)) ++ [dot] ++
    to_bytes (Itoa (octet z 2)) ++ [dot] ++ to_bytes (Itoa (octet z 3))) true false 0 [] (Ho 0))
    as (n0 & _ & ->). cbn [app].
  rewrite v4loop_dot by dot_side.
  edestruct (v4loop_Itoa (octet z 1)) as (n1 & _ & ->); [done|].
  rewrite v4loop_dot by dot_side.
  edestruct (v4loop_Itoa (octet z 2)) as (n2 & _ & ->); [done|].
  rewrite v4loop_dot by dot_side.
  rewrite <- (app_nil_r (to_bytes (Itoa (octet z 3)))).
  edestruct (v4loop_Itoa (octet z 3)) as (n3 & _ & ->); [done|].
  cbn [v4loop app mbind option_bind foldl]. simpl. do 2 f_equal.
  rewrite <- (octets_val z Hz) at 5. lia.
Qed.

(** ** Addresses and prefixes *)

Definition v4char (c : byte) : bool := isDigit c || bool_decide (c = dot).

Lemma Itoa_octet_digits o : 0 <= o < 256 -> Forall (fun c => isDigit c = true) (to_bytes (Itoa o)).
Proof. intros Ho. by destruct (Itoa_octet o Ho) as (_ & _ & _ & ? & _). Qed.

Lemma string4_chars z : Forall (fun c => v4char c = true) (to_bytes (string4 z)).
Proof.
  unfold string4. rewrite !to_bytes_app. change (to_bytes ".") with [dot].
  assert (forall i, Forall (fun c => v4char c = true) (to_bytes (Itoa (octet z i)))) as H.
  { intros i. eapply List.Forall_impl; [|apply Itoa_octet_digits, octet_bounds].
    intros c Hc. unfold v4char. by rewrite Hc. }
  repeat first [apply H | apply Forall_app_2 | by repeat constructor].
Qed.

Lemma not_v4char c s : v4char c = false -> Forall (fun c => v4char c = true) s -> c ∉ s.
Proof.
  intros Hc Hs Hin%list_elem_of_In. rewrite List.Forall_forall in Hs. specialize (Hs c Hin). congruence.
Qed.

Lemma addrKind_v4 ds s : Forall (fun c => isDigit c = true) ds -> addrKind (ds ++ dot :: s) = Some dot.
Proof.
  induction 1 as [|c ds Hc Hds IH]; cbn [app addrKind]; [by rewrite decide_True by tauto|].
  rewrite decide_False; [done|]. intros [->|[->| ->]]; discriminate Hc.
Qed.

Lemma ParseAddr_v4 z : 0 <= z < 2 ^ 32 -> ParseAddr (string4 z) = Some (V4 z).
Proof.
  intros Hz. unfold ParseAddr. rewrite (parseIPv4_string4 z Hz).
  assert (addrKind (to_bytes (string4 z)) = Some dot) as ->; [|by rewrite decide_True].
  unfold string4. rewrite to_bytes_app, to_bytes_app.
  apply addrKind_v4, Itoa_octet_digits, octet_bounds.
Qed.

Lemma cut_last_None s c : c ∉ s -> cut_last s c = None.
Proof.
  induction s as [|x s IH]; [done|]. rewrite not_elem_of_cons. intros [Hx Hs]. simpl.
  by rewrite IH, decide_False by done.
Qed.

Lemma cut_last_app a c b : c ∉ b -> cut_last (a ++ c :: b) c = Some (a, b).
Proof.
  intros Hb. induction a as [|x a IH]; simpl; [by rewrite cut_last_None, decide_True|].
  by rewrite IH.
Qed.

Lemma ParsePrefix_bare z : ParsePrefix (string4 z) = None.
Proof.
  unfold ParsePrefix. rewrite cut_last_None; [done|].
  eapply not_v4char; [|apply string4_chars]. done.
Qed.

Lemma Atoi_octet o : 0 <= o < 256 -> Atoi (Itoa o) = Some o.
Proof.
  apply (Forall_upto (fun o => Atoi (Itoa o) = Some o) 256). decide_by_compute.
Qed.

Lemma ParsePrefix_v4 z bits :
  0 <= z < 2 ^ 32 -> 0 <= bits <= 32 ->
  ParsePrefix (string4 z +:+ "/" +:+ Itoa bits) = Some (mkPrefix (V4 z) bits).
Proof.
  intros Hz Hb. unfold ParsePrefix. rewrite !to_bytes_app. change (to_bytes "/") with [slash].
  cbn [app]. destruct (Itoa_octet bits) as (_ & _ & _ & Hd & Hhead); [lia|].
  rewrite cut_last_app.
  - cbn [mbind option_bind]. rewrite !of_to_bytes, ParseAddr_v4 by done. cbn [mbind option_bind].
    rewrite bool_decide_true by done. cbn [negb].
    assert ((1 <? len (to_bytes (Itoa bits))) &&
      negb (within 49 (bz (default slash (head (to_bytes (Itoa bits))))) 57) = false) as ->.
    { destruct (Z.ltb_spec 1 (len (to_bytes (Itoa bits)))); [|done]. by rewrite Hhead. }
    rewrite Atoi_octet by lia. cbn [mbind option_bind BitLen].
    rewrite (proj2 (Z.ltb_ge _ _)), (proj2 (Z.ltb_ge 32 bits)) by lia. cbn [orb].
    unfold PrefixFrom. cbn [IsValid BitLen].
    rewrite (proj2 (Z.leb_le 0 bits)), (proj2 (Z.leb_le bits 32)) by lia. done.
  - apply (not_v4char slash); [done|]. eapply List.Forall_impl; [|exact Hd].
    intros c Hc. unfold v4char. by rewrite Hc.
Qed.

(** ** Any natural number *)

Lemma to_bytes_cons c s : to_bytes (String c s) = Ascii.byte_of_ascii c :: to_bytes s.
Proof. done. Qed.

Lemma digit_char d : (d < 10)%N ->
  isDigit (Ascii.byte_of_ascii (pretty_N_char d)) = true /\
  bz (Ascii.byte_of_ascii (pretty_N_char d)) - 48 = Z.of_N d.
Proof.
  intros Hd. rewrite <- (N2Z.id d). set (z := Z.of_N d). assert (0 <= z < 10) as Hz by lia. revert Hz.
  apply (Forall_upto (fun z =>
    isDigit (Ascii.byte_of_ascii (pretty_N_char (Z.to_N z))) = true /\
    bz (Ascii.byte_of_ascii (pretty_N_char (Z.to_N z))) - 48 = Z.of_N (Z.to_N z)) 10).
  decide_by_compute.
Qed.

Lemma digitsVal_go x s :
  digitsVal (to_bytes (pretty_N_go x s)) 0 = digitsVal (to_bytes s) (Z.of_N x).
Proof.
  revert s. induction (N.lt_wf_0 x) as [x _ IH]; intros s.
  destruct (decide (0 < x)%N) as [Hx|Hx].
  - rewrite pretty_N_go_step by done. rewrite IH by (apply N.div_lt; lia).
    rewrite to_bytes_cons. cbn [digitsVal].
    destruct (digit_char (x `mod` 10)) as [-> ->]; [apply N.mod_lt; lia|]. f_equal.
    rewrite N2Z.inj_div, N2Z.inj_mod. pose proof (Z.div_mod (Z.of_N x) 10). lia.
  - assert (x = 0%N) as -> by lia. by rewrite pretty_N_go_0.
Qed.

Lemma digits_go x s :
  Forall (fun c => isDigit c = true) (to_bytes s) ->
  Forall (fun c => isDigit c = true) (to_bytes (pretty_N_go x s)).
Proof.
  revert s. induction (N.lt_wf_0 x) as [x _ IH]; intros s Hs.
  destruct (decide (0 < x)%N) as [Hx|Hx].
  - rewrite pretty_N_go_step by done. apply IH; [apply N.div_lt; lia|].
    rewrite to_bytes_cons. constructor; [|done]. apply digit_char, N.mod_lt. lia.
  - assert (x = 0%N) as -> by lia. by rewrite pretty_N_go_0.
Qed.

Lemma Itoa_N z : 0 <= z -> Itoa z = pretty (Z.to_N z).
Proof. intros Hz. destruct z; [done|done|lia]. Qed.

Lemma Itoa_digits z : 0 <= z ->
  digitsVal (to_bytes (Itoa z)) 0 = Some z /\ Forall (fun c => isDigit c = true) (to_bytes (Itoa z)) /\
  to_bytes (Itoa z) <> [].
Proof.
  intros Hz. rewrite Itoa_N by done. unfold pretty, pretty_N.
  destruct (decide (Z.to_N z = 0%N)) as [E|E].
  - assert (z = 0) as -> by lia. split; [done|]. split; [by repeat constructor | done].
  - split; [rewrite digitsVal_go; simpl; f_equal; lia|]. split; [by apply digits_go|].
    intros Hnil. pose proof (digitsVal_go (Z.to_N z) "") as Hd. rewrite Hnil in Hd. simpl in Hd.
    injection Hd as Hd. lia.
Qed.
