(* ===== verification/FlowTypes.v ===== *)
(** Package flow, file decode.go: the normalised flow record, the decoded
    packet, the errors of the decoders, and the exporter clock. *)
From Stdlib Require Import ZArith Lia.
From stdpp Require Import base list gmap strings numbers.
From S2P Require Import Prelude GoText Netip.

Record Record : Type := mkRecord {
  SrcAddr : Addr; DstAddr : Addr;
  SrcPort : Z; DstPort : Z;
  Protocol : Z; TOS : Z;
  SrcAS : Z; DstAS : Z;
  SrcMask : Z; DstMask : Z;
  TCPFlags : Z;
  Bytes : Z; Packets : Z;
  InputIf : Z; OutputIf : Z;
  Sampled : bool; SamplingRate : Z;
  Start : Time; End : Time;
  SrcMAC : Z; DstMAC : Z;
  SrcVLAN : Z; DstVLAN : Z;
  NextHop : Addr; BGPNextHop : Addr;
  Direction : Z; ICMPType : Z;
  AppID : string; AppName : string;
  NATSrcAddr : Addr; NATDstAddr : Addr;
  NATSrcPort : Z; NATDstPort : Z;
  FWEvent : Z; User : string; Type_ : string
}.

#[export] Instance eta_Record : Eta Record := fun r =>
  mkRecord (SrcAddr r) (DstAddr r) (SrcPort r) (DstPort r) (Protocol r) (TOS r)
    (SrcAS r) (DstAS r) (SrcMask r) (DstMask r) (TCPFlags r) (Bytes r) (Packets r)
    (InputIf r) (OutputIf r) (Sampled r) (SamplingRate r) (Start r) (End r)
    (SrcMAC r) (DstMAC r) (SrcVLAN r) (DstVLAN r) (NextHop r) (BGPNextHop r)
    (Direction r) (ICMPType r) (AppID r) (AppName r) (NATSrcAddr r) (NATDstAddr r)
    (NATSrcPort r) (NATDstPort r) (FWEvent r) (User r) (Type_ r).

(** [Record{}]: every field at its zero value. *)
Definition zeroRecord : Record :=
  mkRecord AddrZero AddrZero 0 0 0 0 0 0 0 0 0 0 0 0 0 false 0 zeroTime zeroTime
    0 0 0 0 AddrZero AddrZero 0 0 "" "" AddrZero AddrZero 0 0 0 "" "".

Record Packet : Type := mkPacket { ExporterIP : Addr; Records : list Record }.

#[export] Instance eta_Packet : Eta Packet := fun p => mkPacket (ExporterIP p) (Records p).

(** The errors the decoders return: the typed one and [fmt.Errorf] texts. *)
Inductive error : Type :=
  | ErrShortPacket (Want Got : Z)
  | Errorf (msg : string).

Definition Error (e : error) : string :=
  match e with
  | ErrShortPacket want got =>
      "flow: truncated packet: need " +:+ Itoa want +:+ " bytes, have " +:+ Itoa got
  | Errorf msg => msg
  end.

(** [Version]: the first two bytes, when there are two. *)
Definition Version (b : bytes) : outcome (Z * bool) :=
  if len b <? 2 then Ret (0, false)
  else v ← u16at b 0; Ret (v, true).

(** ** exportClock *)

Record exportClock : Type := mkClock { uptimeMs : Z; unix : Time }.

(** [exportClock{}] *)
Definition zeroClock : exportClock := mkClock 0 zeroTime.

(** [exportClock.at]; the subtraction is in uint32, read back as int32. *)
Definition clock_at (c : exportClock) (up : Z) : Time :=
  if (up =? 0) || IsZero (unix c) || (Unix (unix c) =? 0) then zeroTime
  else
    let age := int32 (uint32 (uptimeMs c - up)) in
    time_Add (unix c) (- age * Millisecond).

(** ** Well-formed records: every integer field fits its Go type. *)
Record Record_wf (r : Record) : Prop := mkRecord_wf {
  wf_SrcAddr : Addr_wf (SrcAddr r);
  wf_DstAddr : Addr_wf (DstAddr r);
  wf_SrcPort : is_u16 (SrcPort r);
  wf_DstPort : is_u16 (DstPort r);
  wf_Protocol : is_u8 (Protocol r);
  wf_TOS : is_u8 (TOS r);
  wf_SrcAS : is_u32 (SrcAS r);
  wf_DstAS : is_u32 (DstAS r);
  wf_SrcMask : is_u8 (SrcMask r);
  wf_DstMask : is_u8 (DstMask r);
  wf_TCPFlags : is_u8 (TCPFlags r);
  wf_Bytes : is_u64 (Bytes r);
  wf_Packets : is_u64 (Packets r);
  wf_InputIf : is_u32 (InputIf r);
  wf_OutputIf : is_u32 (OutputIf r);
  wf_SamplingRate : is_u32 (SamplingRate r);
  wf_SrcMAC : is_u64 (SrcMAC r);
  wf_DstMAC : is_u64 (DstMAC r);
  wf_SrcVLAN : is_u16 (SrcVLAN r);
  wf_DstVLAN : is_u16 (DstVLAN r);
  wf_NextHop : Addr_wf (NextHop r);
  wf_BGPNextHop : Addr_wf (BGPNextHop r);
  wf_Direction : is_u8 (Direction r);
  wf_ICMPType : is_u16 (ICMPType r);
  wf_NATSrcAddr : Addr_wf (NATSrcAddr r);
  wf_NATDstAddr : Addr_wf (NATDstAddr r);
  wf_NATSrcPort : is_u16 (NATSrcPort r);
  wf_NATDstPort : is_u16 (NATDstPort r);
  wf_FWEvent : is_u8 (FWEvent r)
}.

(** Splits the well-formedness of a record, after an update or not. *)
Ltac record_wf := constructor; simpl; first [assumption | solve [auto with go]].

Lemma Record_wf_zero : Record_wf zeroRecord.
Proof. constructor; simpl; done || lia. Qed.

Lemma Version_total b : wp (Version b) (fun '(v, ok) => is_u16 v /\ (ok = true <-> 2 <= len b)).
Proof.
  unfold Version. repeat wp_step.
  - apply Z.ltb_lt in E. split; [done|]. split; [done | lia].
  - apply Z.ltb_ge in E. apply wp_u16at; [lia.. |]. intros v _ Hv. simpl. split; [done|]. split; [lia|done].
Qed.

Lemma signed_small w z : 1 <= w -> - 2 ^ (w - 1) <= z < 2 ^ (w - 1) -> signed w z = z.
Proof.
  intros Hw Hz. unfold signed.
  assert (2 ^ w = 2 * 2 ^ (w - 1)) as Hp.
  { rewrite <- Z.pow_succ_r by lia. f_equal. lia. }
  destruct (decide (0 <= z)).
  - rewrite Z.mod_small by lia. destruct (Z.ltb_spec z (2 ^ (w - 1))); lia.
  - rewrite <- (Z.mod_add z 1) by lia. rewrite Z.mod_small by lia.
    destruct (Z.ltb_spec (z + 1 * 2 ^ w) (2 ^ (w - 1))); lia.
Qed.

Lemma signed_mod w z : 1 <= w -> signed w (z mod 2 ^ w) = signed w z.
Proof. intros. unfold signed. by rewrite Z.mod_mod by lia. Qed.

(** ** Clock properties *)

(** The exporter clock is right across the 49.7-day wrap of the 32-bit
    uptime. [U] and [V] are the true, unbounded millisecond readings of the
    header and of the packet; the datagram carries them modulo 2^32. Whenever
    they are within 2^31 milliseconds of each other, in either order, the
    wall-clock time of the packet is the header's time less their difference. *)
Theorem clock_at_wrap unix_time U V :
  - 2 ^ 31 <= U - V < 2 ^ 31 -> V mod 2 ^ 32 <> 0 ->
  unix_time <> zeroTime -> Unix unix_time <> 0 ->
  clock_at (mkClock (U mod 2 ^ 32) unix_time) (V mod 2 ^ 32)
  = unix_time - (U - V) * Millisecond.
Proof.
  intros HUV HV Hz Hu. unfold clock_at, IsZero. simpl unix. simpl uptimeMs.
  destruct (Z.eqb_spec (V mod 2 ^ 32) 0); [done|].
  destruct (Z.eqb_spec unix_time zeroTime); [done|].
  destruct (Z.eqb_spec (Unix unix_time) 0); [done|].
  cbn [orb]. unfold uint32, int32, time_Add.
  rewrite <- Zminus_mod, signed_mod, signed_small by lia. lia.
Qed.

Lemma clock_at_wrap_witness :
  clock_at (mkClock (4294967296 + 500) (1700000000 * Second)) 0 = zeroTime /\
  clock_at (mkClock ((4294967296 + 500) mod 2 ^ 32) (1700000000 * Second))
    ((4294967296 - 250) mod 2 ^ 32)
  = 1700000000 * Second - (4294967296 + 500 - (4294967296 - 250)) * Millisecond.
Proof.
  split; [reflexivity|].
  apply (clock_at_wrap (1700000000 * Second) (4294967296 + 500) (4294967296 - 250));
    [lia | vm_compute; discriminate ..].
Defined.
