(* ===== verification/NetFlow5.v ===== *)
(** Package flow, file decode.go: the NetFlow v5 decoder, and the wire format
    it inverts. *)
From Stdlib Require Import ZArith Lia.
From stdpp Require Import base list gmap strings numbers.
From S2P Require Import Prelude GoText Netip FlowTypes.

Definition netflowV5HeaderLen : Z := 24.
Definition netflowV5RecordLen : Z := 48.
Definition netflowV5MaxRecords : Z := 30.

(** How the header says the counters were sampled. *)
Record v5scale : Type := mkScale { scale : Z; rate : Z; sampled : bool }.

Definition v5Sampling (w : Z) : v5scale :=
  let samplingInterval := Z.land w 16383 in
  let samplingMode := Z.shiftr w 14 in
  if negb (samplingMode =? 0) && (1 <? samplingInterval)
  then mkScale samplingInterval samplingInterval true
  else mkScale 1 1 false.

(** The loop body of [DecodeNetFlowV5]: one 48-byte record. [None] is the
    [continue] taken when an address does not parse. *)
Definition decodeV5Record (r : bytes) (clock : exportClock) (s : v5scale)
    : outcome (option Record) :=
  sb ← slice r 0 4;
  db ← slice r 4 8;
  let '(src, okS) := AddrFromSlice sb in
  let '(dst, okD) := AddrFromSlice db in
  if negb okS || negb okD then Ret None else
  hb ← slice r 8 12;
  let '(hop, _) := AddrFromSlice hb in
  let hop := if IsUnspecified hop then AddrZero else hop in
  inputIf ← u16at r 12;
  outputIf ← u16at r 14;
  pkts ← u32at r 16;
  octets ← u32at r 20;
  sport ← u16at r 32;
  dport ← u16at r 34;
  flags ← index r 37;
  proto ← index r 38;
  tos ← index r 39;
  sas ← u16at r 40;
  das ← u16at r 42;
  smask ← index r 44;
  dmask ← index r 45;
  first ← u32at r 24;
  last ← u32at r 28;
  Ret (Some (zeroRecord
    <| SrcAddr := src |> <| DstAddr := dst |>
    <| InputIf := inputIf |> <| OutputIf := outputIf |>
    <| Packets := uint64 (pkts * scale s) |>
    <| Bytes := uint64 (octets * scale s) |>
    <| SrcPort := sport |> <| DstPort := dport |>
    <| TCPFlags := bz flags |> <| Protocol := bz proto |> <| TOS := bz tos |>
    <| SrcAS := sas |> <| DstAS := das |>
    <| SrcMask := bz smask |> <| DstMask := bz dmask |>
    <| Sampled := sampled s |> <| SamplingRate := rate s |>
    <| Start := clock_at clock first |> <| End := clock_at clock last |>
    <| NextHop := hop |> <| Type_ := "netflow5" |>)).

(** [for i := 0; i < count; i++]: [n] is [count - i]. *)
Fixpoint decodeV5Loop (n : nat) (i : Z) (b : bytes) (clock : exportClock) (s : v5scale)
    (acc : list Record) : outcome (list Record) :=
  match n with
  | O => Ret acc
  | S n =>
      let off := netflowV5HeaderLen + i * netflowV5RecordLen in
      r ← slice b off (off + netflowV5RecordLen);
      rec ← decodeV5Record r clock s;
      decodeV5Loop n (i + 1) b clock s
        (match rec with Some rc => acc ++ [rc] | None => acc end)
  end.

Definition DecodeNetFlowV5 (b : bytes) (from : Addr)
    : outcome (option Packet * option error) :=
  if len b <? netflowV5HeaderLen then
    Ret (None, Some (ErrShortPacket netflowV5HeaderLen (len b)))
  else
  version ← u16at b 0;
  if negb (version =? 5) then
    Ret (None, Some (Errorf ("flow: not a NetFlow v5 packet (version " +:+ Itoa version +:+ ")")))
  else
  count ← u16at b 2;
  if netflowV5MaxRecords <? count then
    Ret (None, Some (Errorf ("flow: v5 packet claims " +:+ Itoa count +:+
                             " records, max is " +:+ Itoa netflowV5MaxRecords)))
  else
  let need := netflowV5HeaderLen + count * netflowV5RecordLen in
  if len b <? need then Ret (None, Some (ErrShortPacket need (len b)))
  else
  up ← u32at b 4;
  secs ← u32at b 8;
  nsecs ← u32at b 12;
  let clock := mkClock up (time_Unix secs nsecs) in
  sw ← u16at b 22;
  recs ← decodeV5Loop (Z.to_nat count) 0 b clock (v5Sampling sw) [];
  Ret (Some (mkPacket from recs), None).

(** ** The wire format: what an exporter that follows the v5 layout sends. *)

Record v5flow : Type := mkV5flow {
  w_src : Z; w_dst : Z; w_hop : Z; w_in : Z; w_out : Z;
  w_pkts : Z; w_octets : Z; w_first : Z; w_last : Z;
  w_sport : Z; w_dport : Z; w_pad1 : Z; w_flags : Z; w_proto : Z; w_tos : Z;
  w_sas : Z; w_das : Z; w_smask : Z; w_dmask : Z; w_pad2 : Z
}.

Definition v5flow_wf (f : v5flow) : Prop :=
  is_u32 (w_src f) /\ is_u32 (w_dst f) /\ is_u32 (w_hop f) /\
  is_u16 (w_in f) /\ is_u16 (w_out f) /\
  is_u32 (w_pkts f) /\ is_u32 (w_octets f) /\ is_u32 (w_first f) /\ is_u32 (w_last f) /\
  is_u16 (w_sport f) /\ is_u16 (w_dport f) /\
  is_u8 (w_flags f) /\ is_u8 (w_proto f) /\ is_u8 (w_tos f) /\
  is_u16 (w_sas f) /\ is_u16 (w_das f) /\ is_u8 (w_smask f) /\ is_u8 (w_dmask f).

Definition v5flow_enc (f : v5flow) : bytes :=
  put_be 4 (w_src f) ++ put_be 4 (w_dst f) ++ put_be 4 (w_hop f) ++
  put_be 2 (w_in f) ++ put_be 2 (w_out f) ++
  put_be 4 (w_pkts f) ++ put_be 4 (w_octets f) ++
  put_be 4 (w_first f) ++ put_be 4 (w_last f) ++
  put_be 2 (w_sport f) ++ put_be 2 (w_dport f) ++
  put_be 1 (w_pad1 f) ++ put_be 1 (w_flags f) ++ put_be 1 (w_proto f) ++ put_be 1 (w_tos f) ++
  put_be 2 (w_sas f) ++ put_be 2 (w_das f) ++
  put_be 1 (w_smask f) ++ put_be 1 (w_dmask f) ++ put_be 2 (w_pad2 f).

Record v5header : Type := mkV5header {
  h_uptime : Z; h_secs : Z; h_nsecs : Z; h_seq : Z; h_engine : Z;
  h_mode : Z; h_interval : Z
}.

Definition v5header_wf (h : v5header) : Prop :=
  is_u32 (h_uptime h) /\ is_u32 (h_secs h) /\ is_u32 (h_nsecs h) /\
  0 <= h_mode h < 4 /\ 0 <= h_interval h < 2 ^ 14.

Definition v5header_enc (h : v5header) (count : Z) : bytes :=
  put_be 2 5 ++ put_be 2 count ++ put_be 4 (h_uptime h) ++ put_be 4 (h_secs h) ++
  put_be 4 (h_nsecs h) ++ put_be 4 (h_seq h) ++ put_be 2 (h_engine h) ++
  put_be 2 (h_mode h * 2 ^ 14 + h_interval h).

Definition v5_enc (h : v5header) (fs : list v5flow) : bytes :=
  v5header_enc h (len fs) ++ concat (map v5flow_enc fs).

(** ** The specification: the record a flow on the wire stands for. *)

(** One packet in [v5_factor h] was counted. *)
Definition v5_factor (h : v5header) : Z :=
  if decide (h_mode h <> 0 /\ 1 < h_interval h) then h_interval h else 1.

Definition v5_time (h : v5header) (up : Z) : Time :=
  clock_at (mkClock (h_uptime h) (h_secs h * Second + h_nsecs h)) up.

Definition v5_record (h : v5header) (f : v5flow) : Record :=
  mkRecord (V4 (w_src f)) (V4 (w_dst f)) (w_sport f) (w_dport f)
    (w_proto f) (w_tos f) (w_sas f) (w_das f) (w_smask f) (w_dmask f) (w_flags f)
    (w_octets f * v5_factor h) (w_pkts f * v5_factor h) (w_in f) (w_out f)
    (bool_decide (v5_factor h <> 1)) (v5_factor h)
    (v5_time h (w_first f)) (v5_time h (w_last f)) 0 0 0 0
    (if decide (w_hop f = 0) then AddrZero else V4 (w_hop f)) AddrZero
    0 0 "" "" AddrZero AddrZero 0 0 0 "" "netflow5".

(** * Lemmas *)

Lemma v5Sampling_bounds w : is_u16 w -> 1 <= scale (v5Sampling w) < 2 ^ 14 /\ rate (v5Sampling w) = scale (v5Sampling w).
Proof.
  intros Hw. unfold v5Sampling. destruct (_ && _) eqn:E; simpl; [|lia].
  apply andb_true_iff in E as [_ E]. apply Z.ltb_lt in E.
  change 16383 with (Z.ones 14) in *. rewrite Z.land_ones in * by lia.
  pose proof (Z.mod_pos_bound w (2 ^ 14)). lia.
Qed.

Lemma decodeV5Record_total r clock s :
  len r = 48 -> 1 <= scale s < 2 ^ 14 -> rate s = scale s ->
  wp (decodeV5Record r clock s) (fun o => exists rc, o = Some rc /\ Record_wf rc /\
    SrcAddr rc <> AddrZero /\ DstAddr rc <> AddrZero).
Proof.
  intros Hr Hs Hrate. unfold decodeV5Record.
  apply wp_bind, wp_slice; [lia..|]. intros sb _ Hsb.
  apply wp_bind, wp_slice; [lia..|]. intros db _ Hdb.
  pose proof (AddrFromSlice_wf sb) as Wsb. pose proof (AddrFromSlice_wf db) as Wdb.
  unfold AddrFromSlice in *. rewrite Hsb, Hdb in *. simpl in *.
  apply wp_bind, wp_slice; [lia..|]. intros hb _ Hhb.
  pose proof (AddrFromSlice_wf hb) as Whb. unfold AddrFromSlice in *. rewrite Hhb in *. simpl in *.
  repeat first
    [ apply wp_bind; first [apply wp_u16at | apply wp_u32at]; [lia..|]; intros ? _ ?
    | apply wp_bind; apply wp_index; [lia|]; intros ? _ ].
  apply wp_ret. eexists. split; [reflexivity|]. split; [|simpl; split; discriminate].
  repeat split; simpl; try (by apply bz_bounds); try (by apply Z.mod_pos_bound);
    unfold is_u8, is_u16, is_u32, is_u64, Addr_wf in *; try lia.
  all: repeat case_match; simplify_eq; done || lia.
Qed.

Lemma decodeV5Loop_total n i b clock s acc :
  0 <= i -> 24 + (i + Z.of_nat n) * 48 <= len b ->
  1 <= scale s < 2 ^ 14 -> rate s = scale s ->
  Forall Record_wf acc ->
  wp (decodeV5Loop n i b clock s acc) (fun l =>
    len l = len acc + Z.of_nat n /\ Forall Record_wf l).
Proof.
  revert i acc. induction n as [|n IH]; intros i acc Hi Hlen Hs Hr Hacc; simpl.
  { split; [lia|done]. }
  unfold netflowV5HeaderLen, netflowV5RecordLen.
  apply wp_bind, wp_slice; [lia..|]. intros r _ Hrl.
  apply wp_bind. eapply wp_mono; [apply decodeV5Record_total; [lia|done..]|].
  intros o (rc & -> & Hwf & _). eapply wp_mono.
  - apply IH; [lia | lia | done | done |]. apply Forall_app. split; [done | by constructor].
  - intros l [Hl ?]. split; [|done]. rewrite Hl. len_lia.
Qed.

(** What [DecodeNetFlowV5] accepts. *)
Definition v5_accepts (b : bytes) : Prop :=
  24 <= len b /\ be (sub b 0 2) = 5 /\ be (sub b 2 4) <= 30 /\
  24 + be (sub b 2 4) * 48 <= len b.

Lemma DecodeNetFlowV5_wp b from :
  wp (DecodeNetFlowV5 b from) (fun '(p, e) =>
    (~ v5_accepts b /\ p = None /\ e <> None) \/
    (v5_accepts b /\ e = None /\ exists pk, p = Some pk /\ ExporterIP pk = from /\
      len (Records pk) = be (sub b 2 4) /\ len (Records pk) <= 30 /\
      Forall Record_wf (Records pk))).
Proof.
  unfold DecodeNetFlowV5, v5_accepts, netflowV5HeaderLen, netflowV5RecordLen, netflowV5MaxRecords.
  destruct (Z.ltb_spec (len b) 24); [simpl; left; split; [lia|done]|].
  apply wp_bind, wp_u16at; [lia..|]. intros v Ev Hv. change (0 + 2) with 2 in Ev. rewrite <- Ev.
  destruct (Z.eqb_spec v 5); cbn [negb]; [|simpl; left; split; [lia|done]].
  apply wp_bind, wp_u16at; [lia..|]. intros c Ec Hc. change (2 + 2) with 4 in Ec. rewrite <- Ec.
  destruct (Z.ltb_spec 30 c); [simpl; left; split; [lia|done]|].
  destruct (Z.ltb_spec (len b) (24 + c * 48)); [simpl; left; split; [lia|done]|].
  apply wp_bind, wp_u32at; [lia..|]. intros up _ _.
  apply wp_bind, wp_u32at; [lia..|]. intros secs _ _.
  apply wp_bind, wp_u32at; [lia..|]. intros nsecs _ _.
  apply wp_bind, wp_u16at; [lia..|]. intros sw _ Hsw.
  destruct (v5Sampling_bounds sw Hsw) as [Hs Hr]. unfold is_u16 in *.
  apply wp_bind. eapply wp_mono; [apply decodeV5Loop_total; [lia | lia | done | done | constructor]|].
  intros l [Hl Hwf]. rewrite len_nil in Hl. right. split; [lia|]. split; [done|].
  eexists. split; [reflexivity|]. simpl. repeat split; [lia | lia | done].
Qed.

(** The v5 decoder is total and exact on every datagram: it never reads
    out of range; it returns an error, and no packet, unless the datagram has
    a full header, version 5, at most 30 declared records and the bytes of
    all of them; and otherwise returns as many records as declared, each with
    every field in its Go type's range. *)
Theorem DecodeNetFlowV5_total b from :
  wp (DecodeNetFlowV5 b from) (fun '(p, e) =>
    (~ v5_accepts b /\ p = None /\ e <> None) \/
    (v5_accepts b /\ e = None /\ exists pk, p = Some pk /\ ExporterIP pk = from /\
      len (Records pk) = be (sub b 2 4) /\ len (Records pk) <= 30 /\
      Forall Record_wf (Records pk))).
Proof. apply DecodeNetFlowV5_wp. Qed.

(** ** Round trip *)

Lemma len_v5flow_enc f : len (v5flow_enc f) = 48.
Proof. reflexivity. Qed.

Lemma len_v5header_enc h c : len (v5header_enc h c) = 24.
Proof. reflexivity. Qed.

Lemma AddrFromSlice_put4 z : is_u32 z -> AddrFromSlice (put_be 4 z) = (V4 z, true).
Proof. intros. unfold AddrFromSlice. rewrite len_put_be, be_put_u32 by done. done. Qed.

Lemma v5Sampling_enc h : v5header_wf h ->
  let s := v5Sampling (h_mode h * 2 ^ 14 + h_interval h) in
  scale s = v5_factor h /\ rate s = v5_factor h /\ sampled s = bool_decide (v5_factor h <> 1).
Proof.
  intros (_ & _ & _ & Hm & Hi). unfold v5Sampling, v5_factor.
  change 16383 with (Z.ones 14). rewrite Z.land_ones, Z.shiftr_div_pow2 by lia.
  replace ((h_mode h * 2 ^ 14 + h_interval h) mod 2 ^ 14) with (h_interval h)
    by (apply (Z.mod_unique_pos _ _ (h_mode h)); lia).
  replace ((h_mode h * 2 ^ 14 + h_interval h) / 2 ^ 14) with (h_mode h)
    by (apply (Z.div_unique_pos _ _ _ (h_interval h)); lia).
  destruct (Z.eqb_spec (h_mode h) 0), (Z.ltb_spec 1 (h_interval h)); cbn [negb andb];
    case_decide; try lia; simpl; repeat split.
  symmetry. apply bool_decide_eq_true. lia.
Qed.

Lemma v5_factor_bounds h : v5header_wf h -> 1 <= v5_factor h < 2 ^ 14.
Proof. intros (_ & _ & _ & Hm & Hi). unfold v5_factor. case_decide; lia. Qed.

Lemma decodeV5Record_enc h f :
  v5header_wf h -> v5flow_wf f ->
  decodeV5Record (v5flow_enc f)
    (mkClock (h_uptime h) (h_secs h * Second + h_nsecs h))
    (v5Sampling (h_mode h * 2 ^ 14 + h_interval h))
  = Ret (Some (v5_record h f)).
Proof.
  intros Hh Hf. destruct (v5Sampling_enc h Hh) as (Es & Er & Esm).
  pose proof (v5_factor_bounds h Hh) as Hfac.
  destruct Hf as (H1 & H2 & H3 & H4 & H5 & H6 & H7 & H8 & H9 & H10 & H11 & H12 & H13 & H14 & H15 & H16 & H17 & H18).
  unfold decodeV5Record.
  change (slice (v5flow_enc f) 0 4) with (Ret (put_be 4 (w_src f))).
  change (slice (v5flow_enc f) 4 8) with (Ret (put_be 4 (w_dst f))).
  change (slice (v5flow_enc f) 8 12) with (Ret (put_be 4 (w_hop f))).
  change (u16at (v5flow_enc f) 12) with (Ret (be (put_be 2 (w_in f)))).
  change (u16at (v5flow_enc f) 14) with (Ret (be (put_be 2 (w_out f)))).
  change (u32at (v5flow_enc f) 16) with (Ret (be (put_be 4 (w_pkts f)))).
  change (u32at (v5flow_enc f) 20) with (Ret (be (put_be 4 (w_octets f)))).
  change (u16at (v5flow_enc f) 32) with (Ret (be (put_be 2 (w_sport f)))).
  change (u16at (v5flow_enc f) 34) with (Ret (be (put_be 2 (w_dport f)))).
  change (index (v5flow_enc f) 37) with (Ret (zb (w_flags f))).
  change (index (v5flow_enc f) 38) with (Ret (zb (w_proto f))).
  change (index (v5flow_enc f) 39) with (Ret (zb (w_tos f))).
  change (u16at (v5flow_enc f) 40) with (Ret (be (put_be 2 (w_sas f)))).
  change (u16at (v5flow_enc f) 42) with (Ret (be (put_be 2 (w_das f)))).
  change (index (v5flow_enc f) 44) with (Ret (zb (w_smask f))).
  change (index (v5flow_enc f) 45) with (Ret (zb (w_dmask f))).
  change (u32at (v5flow_enc f) 24) with (Ret (be (put_be 4 (w_first f)))).
  change (u32at (v5flow_enc f) 28) with (Ret (be (put_be 4 (w_last f)))).
  rewrite !bind_ret, !AddrFromSlice_put4 by done. cbn [negb orb].
  rewrite bind_ret, AddrFromSlice_put4 by done. rewrite !bind_ret.
  rewrite !be_put_u32, !be_put_u16, !bz_zb_small by done. do 2 f_equal. unfold v5_record, v5_time.
  rewrite Es, Er, Esm. unfold uint64. rewrite !(Z.mod_small (_ * _)) by (unfold is_u32 in *; nia).
  assert ((if IsUnspecified (V4 (w_hop f)) then AddrZero else V4 (w_hop f)) =
          (if decide (w_hop f = 0) then AddrZero else V4 (w_hop f))) as Ehop.
  { unfold IsUnspecified. destruct (decide (w_hop f = 0)) as [E|]; [by rewrite E|].
    rewrite bool_decide_false; [done|]. by intros [[=]|[=]]. }
  rewrite Ehop. reflexivity.
Qed.

Lemma decodeV5Loop_enc h pre fs post i acc :
  v5header_wf h -> Forall v5flow_wf fs -> len pre = 24 + i * 48 ->
  decodeV5Loop (length fs) i (pre ++ concat (map v5flow_enc fs) ++ post)
    (mkClock (h_uptime h) (h_secs h * Second + h_nsecs h))
    (v5Sampling (h_mode h * 2 ^ 14 + h_interval h)) acc
  = Ret (acc ++ map (v5_record h) fs).
Proof.
  intros Hh Hfs. revert pre i acc. induction Hfs as [|f fs Hf Hfs IH]; intros pre i acc Hpre.
  { simpl. by rewrite app_nil_r. }
  cbn [length decodeV5Loop map concat]. unfold netflowV5HeaderLen, netflowV5RecordLen.
  rewrite <- app_assoc.
  pose proof (len_v5flow_enc f). pose proof (len_nonneg pre).
  rewrite slice_ret by len_lia. rewrite sub_app_exact by lia.
  rewrite bind_ret, decodeV5Record_enc, bind_ret by done.
  rewrite (app_assoc pre). rewrite IH by len_lia. by rewrite <- app_assoc.
Qed.

Lemma len_v5flows_enc fs : len (concat (map v5flow_enc fs)) = 48 * len fs.
Proof.
  induction fs as [|f fs IH]; [done|].
  cbn [map concat]. rewrite len_app, len_cons, len_v5flow_enc. lia.
Qed.

(** Round trip of the v5 wire format: a packet an exporter encodes, of at
    most 30 well-formed flows and whatever bytes follow it, decodes to exactly
    those flows, in order, with the counters multiplied by the sampling
    interval when and only when the header declares a mode and an interval
    above one; the products never overflow 64 bits. *)
Theorem v5_roundtrip h fs post from :
  v5header_wf h -> Forall v5flow_wf fs -> len fs <= 30 ->
  DecodeNetFlowV5 (v5_enc h fs ++ post) from
  = Ret (Some (mkPacket from (map (v5_record h) fs)), None).
Proof.
  intros Hh Hfs Hn. unfold DecodeNetFlowV5, v5_enc. rewrite <- app_assoc.
  pose proof (decodeV5Loop_enc h (v5header_enc h (len fs)) fs post 0 [] Hh Hfs eq_refl) as Hloop.
  pose proof (len_v5flows_enc fs) as Hbody. set (body := concat _) in *. set (b := _ ++ body ++ post) in *.
  pose proof (len_nonneg fs) as Hfs0. pose proof (len_nonneg post).
  assert (len b = 24 + 48 * len fs + len post) as Hlen.
  { subst b. rewrite !len_app, len_v5header_enc. lia. }
  destruct Hh as (Hup & Hsec & Hns & Hm & Hi).
  unfold netflowV5HeaderLen, netflowV5RecordLen, netflowV5MaxRecords.
  rewrite !u16at_ret, !u32at_ret by lia.
  change (sub b 0 (0 + 2)) with (put_be 2 5). change (sub b 2 (2 + 2)) with (put_be 2 (len fs)).
  change (sub b 4 (4 + 4)) with (put_be 4 (h_uptime h)).
  change (sub b 8 (8 + 4)) with (put_be 4 (h_secs h)).
  change (sub b 12 (12 + 4)) with (put_be 4 (h_nsecs h)).
  change (sub b 22 (22 + 2)) with (put_be 2 (h_mode h * 2 ^ 14 + h_interval h)).
  rewrite !be_put_u32, !be_put_u16 by (done || unfold is_u16; lia).
  rewrite !bind_ret, Hlen.
  rewrite (proj2 (Z.ltb_ge _ 24)), (proj2 (Z.ltb_ge 30 _)), (proj2 (Z.ltb_ge _ (24 + _))) by lia.
  change (negb (5 =? 5)) with false. cbv iota. unfold len at 1. rewrite Nat2Z.id.
  unfold time_Unix. rewrite Hloop. done.
Qed.

Definition v5_example_header : v5header := mkV5header 360000 1700000000 5 1 0 1 100.
Definition v5_example_flow : v5flow :=
  mkV5flow 167772161 167772162 0 3 4 10 1500 350000 355000 443 51000 0 27 6 184 0 0 24 24 0.

Lemma v5_roundtrip_witness :
  len [v5_example_flow] <= 30 /\
  DecodeNetFlowV5 (v5_enc v5_example_header [v5_example_flow] ++ []) (V4 1)
  = Ret (Some (mkPacket (V4 1) (map (v5_record v5_example_header) [v5_example_flow])), None).
Proof.
  split; [vm_compute; discriminate|].
  apply (v5_roundtrip v5_example_header [v5_example_flow] [] (V4 1)).
  - unfold v5header_wf, is_u32; simpl; lia.
  - constructor; [|constructor]. unfold v5flow_wf, is_u32, is_u16, is_u8; simpl; lia.
  - vm_compute; discriminate.
Defined.

(** The example's counters: 1500 bytes sampled one in a hundred. *)
Example v5_example_bytes : map Bytes (map (v5_record v5_example_header) [v5_example_flow]) = [150000].
Proof. reflexivity. Qed.
