(* ===== verification/Templates.v ===== *)
(** Package flow, file netflow9.go: field layouts and the template cache that
    NetFlow v9 and IPFIX share. *)
From Stdlib Require Import ZArith Lia.
From stdpp Require Import base list gmap strings numbers relations fin_maps.
From S2P Require Import Prelude GoText Netip FlowTypes.

(** The widths and identifiers are uint16 and uint32 values; [enterprise] is
    zero for a registered element. *)
Record templateField : Type := mkField { typ : Z; fieldLength : Z; enterprise : Z }.

Definition varLength : Z := 65535.
Definition variable (f : templateField) : bool := fieldLength f =? varLength.

Record template : Type := mkTemplate {
  fields : list templateField;
  recordLen : Z;
  hasVarLen : bool;
  scopeFields : Z;
  seen : Time
}.

#[export] Instance eta_template : Eta template := fun t =>
  mkTemplate (fields t) (recordLen t) (hasVarLen t) (scopeFields t) (seen t).

Definition isOptions (t : template) : bool := 0 <? scopeFields t.

Record templateKey : Type := mkTemplateKey {
  exporter : Addr; sourceID : Z; id : Z; version : Z
}.

#[export] Instance templateKey_eq_dec : EqDecision templateKey.
Proof. solve_decision. Defined.
#[export] Program Instance templateKey_countable : Countable templateKey :=
  inj_countable' (fun k => (exporter k, sourceID k, id k, version k))
    (fun '(e, s, i, v) => mkTemplateKey e s i v) _.
Next Obligation. by intros []. Qed.

Record samplingKey : Type := mkSamplingKey { sk_exporter : Addr; sk_sourceID : Z }.

#[export] Instance samplingKey_eq_dec : EqDecision samplingKey.
Proof. solve_decision. Defined.
#[export] Program Instance samplingKey_countable : Countable samplingKey :=
  inj_countable' (fun k => (sk_exporter k, sk_sourceID k))
    (fun '(e, s) => mkSamplingKey e s) _.
Next Obligation. by intros []. Qed.

(** The cache. Its mutex is held for the whole of each operation, so an
    operation is one state transition. *)
Record TemplateCache : Type := mkCache {
  TTL : Duration;
  Max : Z;
  templates : gmap templateKey template;
  sampling : gmap samplingKey Z
}.

#[export] Instance eta_TemplateCache : Eta TemplateCache := fun tc =>
  mkCache (TTL tc) (Max tc) (templates tc) (sampling tc).

Definition DefaultTemplateTTL : Duration := 60 * Minute.
Definition DefaultMaxTemplates : Z := 10000.

Definition NewTemplateCache : TemplateCache :=
  mkCache DefaultTemplateTTL DefaultMaxTemplates ∅ ∅.

Definition ttl (tc : TemplateCache) : Duration :=
  if 0 <? TTL tc then TTL tc else DefaultTemplateTTL.

Definition max (tc : TemplateCache) : Z :=
  if 0 <? Max tc then Max tc else DefaultMaxTemplates.

Definition expired (tc : TemplateCache) (now : Time) (t : template) : bool :=
  ttl tc <? time_Sub now (seen t).

(** [Len]: how many templates are held. *)
Definition Len (tc : TemplateCache) : Z := Z.of_nat (size (templates tc)).

(** [expireLocked]: the range loop deletes every expired entry. *)
Definition expireLocked (tc : TemplateCache) (now : Time) : TemplateCache :=
  tc <| templates := filter (fun kt => expired tc now kt.2 = false) (templates tc) |>.

Definition store (tc : TemplateCache) (k : templateKey) (t : template) (now : Time)
    : TemplateCache :=
  tc <| templates := <[k := t <| seen := now |>]> (templates tc) |>.

Definition put (tc : TemplateCache) (k : templateKey) (t : template) (now : Time)
    : TemplateCache :=
  let replacing := bool_decide (is_Some (templates tc !! k)) in
  if negb replacing && (max tc <=? Len tc) then
    let tc := expireLocked tc now in
    if max tc <=? Len tc then tc else store tc k t now
  else store tc k t now.

Definition get (tc : TemplateCache) (k : templateKey) (now : Time)
    : option template * TemplateCache :=
  match templates tc !! k with
  | None => (None, tc)
  | Some t =>
      if expired tc now t
      then (None, tc <| templates := delete k (templates tc) |>)
      else (Some t, tc)
  end.

Definition putSampling (tc : TemplateCache) (k : samplingKey) (interval : Z) : TemplateCache :=
  tc <| sampling := <[k := interval]> (sampling tc) |>.

(** A missing key reads as zero. *)
Definition getSampling (tc : TemplateCache) (k : samplingKey) : Z :=
  default 0 (sampling tc !! k).

(** ** Well-formed templates: what the record walker relies on. *)

Definition sumZ (l : list Z) : Z := foldr Z.add 0 l.

Definition field_wf (f : templateField) : Prop :=
  is_u16 (typ f) /\ is_u16 (fieldLength f).

Definition template_wf (t : template) : Prop :=
  Forall field_wf (fields t) /\
  if hasVarLen t
  then fields t <> [] /\ Forall (fun f => 0 < fieldLength f) (fields t)
  else recordLen t = sumZ (map fieldLength (fields t)) /\ 0 < recordLen t.

Definition cache_wf (tc : TemplateCache) : Prop :=
  map_Forall (fun _ t => template_wf t) (templates tc) /\
  map_Forall (fun _ iv => is_u32 iv) (sampling tc).

(** The cache as a transition system: one step per locked operation, at any
    clock reading, with any template and any interval. *)
Inductive cache_op : TemplateCache -> TemplateCache -> Prop :=
  | op_put tc k t now : cache_op tc (put tc k t now)
  | op_get tc k now : cache_op tc (snd (get tc k now))
  | op_sampling tc k iv : cache_op tc (putSampling tc k iv).

(** Those of its steps that store what a record can be walked by; the decoders
    take no other (NetFlow9.v, IPFIX.v). *)
Inductive cache_step : TemplateCache -> TemplateCache -> Prop :=
  | step_put tc k t now : template_wf t -> cache_step tc (put tc k t now)
  | step_get tc k now : cache_step tc (snd (get tc k now))
  | step_sampling tc k iv : is_u32 iv -> cache_step tc (putSampling tc k iv).

Abbreviation reachable := (rtc cache_step NewTemplateCache).

(** * Lemmas *)

Lemma sumZ_nonneg l : Forall (fun z => 0 <= z) l -> 0 <= sumZ l.
Proof. induction 1; simpl; lia. Qed.

Lemma sumZ_app l1 l2 : sumZ (l1 ++ l2) = sumZ l1 + sumZ l2.
Proof. induction l1; simpl; lia. Qed.

Lemma sum_lengths_nonneg fs : Forall field_wf fs -> 0 <= sumZ (map fieldLength fs).
Proof.
  intros H. apply sumZ_nonneg. induction H as [|f fs [_ Hf] _ IH]; simpl; constructor; [|done].
  unfold is_u16 in Hf. lia.
Qed.

Lemma max_pos tc : 1 <= max tc.
Proof. unfold max. destruct (Z.ltb_spec 0 (Max tc)); [lia | done]. Qed.

Lemma template_wf_seen t now : template_wf t -> template_wf (t <| seen := now |>).
Proof. done. Qed.

Lemma Len_expireLocked tc now : Len (expireLocked tc now) <= Len tc.
Proof.
  unfold Len, expireLocked. simpl.
  apply Nat2Z.inj_le, map_subseteq_size, map_filter_subseteq.
Qed.

Lemma Len_store tc k t now :
  Len (store tc k t now) = if decide (is_Some (templates tc !! k)) then Len tc else Len tc + 1.
Proof.
  unfold Len, store. simpl. case_decide as E.
  - by rewrite map_size_insert_Some by done.
  - rewrite map_size_insert_None by (by apply eq_None_not_Some). lia.
Qed.

Lemma put_Len tc k t now : Len tc <= max tc -> Len (put tc k t now) <= max tc.
Proof.
  intros Hle. unfold put. pose proof (Len_expireLocked tc now) as He.
  destruct (negb _ && _) eqn:E.
  - destruct (Z.leb_spec (max (expireLocked tc now)) (Len (expireLocked tc now))) as [|Hlt]; [lia|].
    rewrite Len_store. change (max (expireLocked tc now)) with (max tc) in Hlt. case_decide; lia.
  - rewrite Len_store. case_decide as Hd; [lia|].
    rewrite bool_decide_false in E by done. simpl in E. apply Z.leb_gt in E. lia.
Qed.

Lemma store_wf tc k t now : cache_wf tc -> template_wf t -> cache_wf (store tc k t now).
Proof.
  intros [Ht Hs] Hwf. split; [|done]. simpl. apply map_Forall_insert_2; [|done].
  by apply template_wf_seen.
Qed.

Lemma expireLocked_wf tc now : cache_wf tc -> cache_wf (expireLocked tc now).
Proof.
  intros [Ht Hs]. split; [|done]. simpl. intros k t [Hk _]%map_lookup_filter_Some. by apply (Ht k).
Qed.

Lemma put_wf tc k t now : cache_wf tc -> template_wf t -> cache_wf (put tc k t now).
Proof.
  intros Hc Ht. unfold put. pose proof (expireLocked_wf tc now Hc).
  repeat case_match; auto using store_wf.
Qed.

Lemma get_wf tc k now : cache_wf tc ->
  cache_wf (snd (get tc k now)) /\ forall t, fst (get tc k now) = Some t -> template_wf t.
Proof.
  intros [Ht Hs]. unfold get. destruct (templates tc !! k) as [t|] eqn:E; [|by split].
  destruct (expired tc now t); simpl; split; try done.
  - split; [|done]. simpl. by apply map_Forall_delete.
  - by intros _ [= <-]; apply (Ht k).
Qed.

Lemma putSampling_wf tc k iv : cache_wf tc -> is_u32 iv -> cache_wf (putSampling tc k iv).
Proof. intros [Ht Hs] ?. split; [done|]. simpl. by apply map_Forall_insert_2. Qed.

Lemma getSampling_wf tc k : cache_wf tc -> is_u32 (getSampling tc k).
Proof.
  intros [_ Hs]. unfold getSampling. destruct (sampling tc !! k) eqn:E; simpl; [by apply (Hs k)|].
  unfold is_u32. lia.
Qed.

Lemma NewTemplateCache_wf : cache_wf NewTemplateCache.
Proof. split; apply map_Forall_empty. Qed.

#[export] Hint Resolve store_wf expireLocked_wf put_wf putSampling_wf getSampling_wf
  NewTemplateCache_wf : go.

Lemma store_lookup_eq tc k t now :
  templates (store tc k t now) !! k = Some (t <| seen := now |>).
Proof. simpl. by rewrite lookup_insert_eq. Qed.

Lemma store_lookup_ne tc k k' t now :
  k' <> k -> templates (store tc k t now) !! k' = templates tc !! k'.
Proof. intros. simpl. by rewrite lookup_insert_ne. Qed.

Lemma expireLocked_live tc now k t :
  templates tc !! k = Some t -> expired tc now t = false ->
  templates (expireLocked tc now) !! k = Some t.
Proof. intros. simpl. by apply map_lookup_filter_Some. Qed.

Lemma put_keeps_live tc k t now k' t' :
  k' <> k -> templates tc !! k' = Some t' -> expired tc now t' = false ->
  templates (put tc k t now) !! k' = Some t'.
Proof.
  intros Hne Hk Hlive. pose proof (expireLocked_live _ _ _ _ Hk Hlive) as He.
  unfold put. repeat case_match; [done | by rewrite store_lookup_ne..].
Qed.

Lemma put_TTL tc k t now : TTL (put tc k t now) = TTL tc /\ Max (put tc k t now) = Max tc.
Proof. unfold put. by repeat case_match. Qed.

Lemma get_TTL tc k now : TTL (snd (get tc k now)) = TTL tc /\ Max (snd (get tc k now)) = Max tc.
Proof. unfold get. by repeat case_match. Qed.

Lemma get_Len tc k now : Len (snd (get tc k now)) <= Len tc.
Proof.
  unfold get, Len. repeat case_match; simpl; try done.
  apply Nat2Z.inj_le, map_subseteq_size, delete_subseteq.
Qed.

Lemma expired_mono tc now now' t :
  now <= now' -> expired tc now' t = false -> expired tc now t = false.
Proof. unfold expired, time_Sub. rewrite !Z.ltb_ge. lia. Qed.

Lemma expired_TTL tc tc' now t : TTL tc' = TTL tc -> expired tc' now t = expired tc now t.
Proof. unfold expired, ttl. by intros ->. Qed.

Lemma get_other_live tc k now k' t' :
  templates tc !! k' = Some t' -> expired tc now t' = false ->
  templates (snd (get tc k now)) !! k' = Some t'.
Proof.
  intros Hk Hlive. unfold get. destruct (templates tc !! k) as [t|] eqn:E; [|done].
  destruct (expired tc now t) eqn:Ee; simpl; [|done].
  destruct (decide (k = k')) as [->|]; [|by rewrite lookup_delete_ne].
  rewrite Hk in E. congruence.
Qed.

(** Steps that do not redefine [k], taken no later than [T]. *)
Inductive other_step (k : templateKey) (T : Time) : TemplateCache -> TemplateCache -> Prop :=
  | other_put tc k' t now : k' <> k -> now <= T -> other_step k T tc (put tc k' t now)
  | other_get tc k' now : now <= T -> other_step k T tc (snd (get tc k' now))
  | other_sampling tc sk iv : other_step k T tc (putSampling tc sk iv).

Lemma other_step_live k T tc tc' t :
  other_step k T tc tc' -> templates tc !! k = Some t -> expired tc T t = false ->
  templates tc' !! k = Some t /\ expired tc' T t = false.
Proof.
  intros Hs Hk He. destruct Hs as [tc k' t' now Hne Hnow|tc k' now Hnow|tc sk iv].
  - split; [apply put_keeps_live; eauto using expired_mono|].
    rewrite (expired_TTL tc) by apply put_TTL. done.
  - split; [apply get_other_live; eauto using expired_mono|].
    rewrite (expired_TTL tc) by apply get_TTL. done.
  - done.
Qed.

(** * Properties *)

Lemma cache_steps_bounded tc tc' :
  rtc cache_step tc tc' -> Len tc <= max tc -> cache_wf tc ->
  Len tc' <= max tc' /\ max tc' = max tc /\ cache_wf tc'.
Proof.
  induction 1 as [tc|tc tc' tc'' Hstep _ IH]; [done|]. intros Hl Hw.
  assert (max tc' = max tc) as Hm.
  { unfold max. destruct Hstep; rewrite ?(proj2 (put_TTL _ _ _ _)), ?(proj2 (get_TTL _ _ _)); done. }
  rewrite <- Hm. apply IH.
  - rewrite Hm. destruct Hstep as [tc k t now Hwf|tc k now|tc k iv Hiv].
    + by apply put_Len.
    + pose proof (get_Len tc k now). lia.
    + done.
  - destruct Hstep; [by apply put_wf | by apply get_wf | by apply putSampling_wf].
Qed.

Lemma empty_cache_bounded ttl0 max0 :
  Len (mkCache ttl0 max0 ∅ ∅) <= max (mkCache ttl0 max0 ∅ ∅) /\ cache_wf (mkCache ttl0 max0 ∅ ∅).
Proof.
  split; [|split; apply map_Forall_empty].
  pose proof (max_pos (mkCache ttl0 max0 ∅ ∅)). unfold Len. simpl. rewrite map_size_empty. lia.
Qed.

(** The template cache never holds more than its maximum, whatever sequence of
    announcements of whatever templates, lookups and sampling reports reaches it
    at whatever clock readings. *)
Theorem cache_bounded ttl0 max0 tc :
  rtc cache_op (mkCache ttl0 max0 ∅ ∅) tc -> Len tc <= max tc /\ max tc = max (mkCache ttl0 max0 ∅ ∅).
Proof.
  generalize (proj1 (empty_cache_bounded ttl0 max0)). generalize (mkCache ttl0 max0 ∅ ∅). intros tc0 Hl.
  induction 1 as [tc|tc tc' tc'' Hstep _ IH]; [done|].
  assert (max tc' = max tc) as Hm by (unfold max; destruct Hstep; rewrite ?(proj2 (put_TTL _ _ _ _)), ?(proj2 (get_TTL _ _ _)); done).
  rewrite <- Hm. apply IH. rewrite Hm. destruct Hstep as [tc k t now|tc k now|tc k iv]; [by apply put_Len| |done].
  pose proof (get_Len tc k now). lia.
Qed.

(** How many templates are live at [now]. *)
Definition live_count (tc : TemplateCache) (now : Time) : Z := Len (expireLocked tc now).

(** What an announcement does: it takes effect, replacing whatever was
    under the key, exactly when the key is already held or fewer than the
    maximum are live; otherwise it is refused and the key stays absent. In
    every case each other live template is kept as it was and no other
    template appears. *)
Theorem put_spec tc k t now :
  let tc' := put tc k t now in
  templates tc' !! k =
    (if decide (is_Some (templates tc !! k) \/ live_count tc now < max tc)
     then Some (t <| seen := now |>) else None) /\
  (forall k' t', k' <> k -> templates tc !! k' = Some t' -> expired tc now t' = false ->
     templates tc' !! k' = Some t') /\
  (forall k' t', k' <> k -> templates tc' !! k' = Some t' -> templates tc !! k' = Some t').
Proof.
  intros tc'. split; [|split; [intros; by apply put_keeps_live|]].
  - subst tc'. unfold put, live_count. pose proof (Len_expireLocked tc now) as Hle.
    change (max (expireLocked tc now)) with (max tc).
    destruct (decide (is_Some (templates tc !! k))) as [Hk|Hk].
    + rewrite bool_decide_true by done. simpl negb. cbv iota beta. cbn [andb].
      rewrite store_lookup_eq. rewrite decide_True by (by left). done.
    + rewrite bool_decide_false by done. cbn [negb andb].
      destruct (Z.leb_spec (max tc) (Len tc)).
      * destruct (Z.leb_spec (max tc) (Len (expireLocked tc now))).
        -- rewrite decide_False by (intros [?|?]; [done|lia]). simpl.
           apply map_lookup_filter_None. left. by apply eq_None_not_Some.
        -- rewrite decide_True by (right; lia). apply store_lookup_eq.
      * rewrite decide_True by (right; lia). apply store_lookup_eq.
  - intros k' t' Hne. subst tc'.
    assert (forall t', templates (expireLocked tc now) !! k' = Some t' ->
      templates tc !! k' = Some t') as Hf.
    { simpl. intros ? [? _]%map_lookup_filter_Some. done. }
    unfold put. repeat case_match; [apply Hf | rewrite store_lookup_ne by done; apply Hf |
      by rewrite store_lookup_ne by done].
Qed.

(** A template stays usable until it expires: as long as nobody redefines
    its own key, no sequence of other announcements (however many, from
    however many exporters), lookups and sampling reports before [T] can make
    a lookup at [T] fail, or see another layout, while the entry is within its
    time to live; and once past it, the lookup refuses it and forgets it. *)
Theorem template_survives k T tc tc' t :
  rtc (other_step k T) tc tc' -> templates tc !! k = Some t ->
  (expired tc T t = false -> get tc' k T = (Some t, tc')) /\
  (expired tc T t = true ->
     fst (get tc k T) = None /\ templates (snd (get tc k T)) !! k = None).
Proof.
  intros Hr Hk. split.
  - intros He. assert (templates tc' !! k = Some t /\ expired tc' T t = false) as [Hk' He'].
    { induction Hr as [|tc tc1 tc2 Hs _ IH]; [done|].
      destruct (other_step_live _ _ _ _ _ Hs Hk He). by apply IH. }
    unfold get. by rewrite Hk', He'.
  - intros He. unfold get. rewrite Hk, He. simpl. by rewrite lookup_delete_eq.
Qed.

Definition example_template : template := mkTemplate [mkField 1 4 0; mkField 8 4 0] 8 false 0 0.
Definition example_key (n : Z) : templateKey := mkTemplateKey (V4 n) 0 256 9.

Lemma cache_bounded_witness :
  let tc := put (put (mkCache 0 1 ∅ ∅) (example_key 1) example_template 0)
                (example_key 2) example_template 5 in
  rtc cache_op (mkCache 0 1 ∅ ∅) tc /\ Len tc <= max tc /\ max tc = max (mkCache 0 1 ∅ ∅).
Proof.
  intros tc. assert (rtc cache_op (mkCache 0 1 ∅ ∅) tc) as Hr.
  { eapply rtc_l; [by apply op_put|]. apply rtc_once. by apply op_put. }
  split; [exact Hr|]. apply (cache_bounded 0 1 tc Hr).
Defined.

Lemma template_survives_witness :
  let tc := put NewTemplateCache (example_key 1) example_template 0 in
  let tc' := put tc (example_key 2) example_template (30 * Minute) in
  get tc' (example_key 1) (60 * Minute) = (Some example_template, tc').
Proof.
  intros tc tc'.
  refine (proj1 (template_survives (example_key 1) (60 * Minute) tc tc' example_template _ _) _).
  - apply rtc_once. apply other_put; [by intros [=] | vm_compute; discriminate].
  - vm_compute. reflexivity.
  - vm_compute. reflexivity.
Defined.
