(* ===== verification/Walker.v ===== *)
(** Package flow, file netflow9.go: [eachRecord], the walker that cuts a data
    set into records and records into field values, with the wire format it
    inverts. *)
From Stdlib Require Import ZArith Lia.
From stdpp Require Import base list gmap strings numbers.
From S2P Require Import Prelude GoText Netip FlowTypes Templates.

(** The inner loop over a fixed-width record: [vals[j]]. *)
Fixpoint fixedVals (fs : list templateField) (rec : bytes) (off : Z) : outcome (list bytes) :=
  match fs with
  | [] => Ret []
  | f :: fs =>
      v ← slice rec off (off + fieldLength f);
      vs ← fixedVals fs rec (off + fieldLength f);
      Ret (v :: vs)
  end.

(** The inner loop over a record with fields whose width it carries itself.
    [None] is [ok = false], with the walk abandoned. *)
Fixpoint varVals (fs : list templateField) (body : bytes) (off : Z)
    : outcome (option (list bytes * Z)) :=
  match fs with
  | [] => Ret (Some ([], off))
  | f :: fs =>
      wo ← (if variable f then
              if len body <=? off then Ret None else
              c ← index body off;
              if bz c =? 255 then
                if len body <? off + 1 + 2 then Ret None else
                w ← u16at body (off + 1);
                Ret (Some (w, off + 1 + 2))
              else Ret (Some (bz c, off + 1))
            else Ret (Some (fieldLength f, off)));
      match wo with
      | None => Ret None
      | Some (width, off) =>
          if len body <? off + width then Ret None else
          v ← slice body off (off + width);
          rest ← varVals fs body (off + width);
          Ret (match rest with Some (vs, off') => Some (v :: vs, off') | None => None end)
      end
  end.

Section loops.
(** [fn] is the callback, with the state it captures threaded through. *)
Context {S : Type} (fn : list bytes -> S -> outcome S).

Fixpoint fixedLoop (fuel : nat) (body : bytes) (t : template) (i : Z) (s : S) : outcome S :=
  match fuel with
  | O => OutOfFuel
  | Datatypes.S fuel =>
      if i + recordLen t <=? len body then
        rec ← slice body i (i + recordLen t);
        vals ← fixedVals (fields t) rec 0;
        s ← fn vals s;
        fixedLoop fuel body t (i + recordLen t) s
      else Ret s
  end.

Fixpoint varLoop (fuel : nat) (body : bytes) (t : template) (off : Z) (s : S) : outcome S :=
  match fuel with
  | O => OutOfFuel
  | Datatypes.S fuel =>
      if off <? len body then
        r ← varVals (fields t) body off;
        match r with
        | None => Ret s
        | Some (vals, off') =>
            if off' =? off then Ret s
            else s ← fn vals s; varLoop fuel body t off' s
        end
      else Ret s
  end.

(** [eachRecord]. Every iteration of either loop consumes a byte, so the
    length of the body, and one for the exit test, is fuel enough. *)
Definition eachRecord (body : bytes) (t : template) (s : S) : outcome S :=
  if len (fields t) =? 0 then Ret s
  else if negb (hasVarLen t) then
    if recordLen t <=? 0 then Ret s
    else fixedLoop (Datatypes.S (length body)) body t 0 s
  else varLoop (Datatypes.S (length body)) body t 0 s.

(** The callback run on each of a list of rows. *)
Fixpoint foldRows (rows : list (list bytes)) (s : S) : outcome S :=
  match rows with
  | [] => Ret s
  | vals :: rows => s ← fn vals s; foldRows rows s
  end.
End loops.

(** ** The wire format (RFC 7011, section 7, and RFC 3954) *)

(** [val_enc hv f v b]: [b] is a way to write the value [v] of field [f]. A
    variable-length value has two forms; the long one may be used for any
    length. *)
Inductive val_enc (hv : bool) (f : templateField) (v : bytes) : bytes -> Prop :=
  | enc_fixed : hv && variable f = false -> len v = fieldLength f -> val_enc hv f v v
  | enc_short : hv && variable f = true -> len v < 255 -> val_enc hv f v (zb (len v) :: v)
  | enc_long : hv && variable f = true -> len v < 65536 ->
      val_enc hv f v (zb 255 :: put_be 2 (len v) ++ v).

Inductive row_enc (hv : bool) : list templateField -> list bytes -> bytes -> Prop :=
  | row_nil : row_enc hv [] [] []
  | row_cons f fs v vs b bs :
      val_enc hv f v b -> row_enc hv fs vs bs -> row_enc hv (f :: fs) (v :: vs) (b ++ bs).

Inductive rows_enc (t : template) : list (list bytes) -> bytes -> Prop :=
  | rows_nil : rows_enc t [] []
  | rows_cons vs rows b bs :
      row_enc (hasVarLen t) (fields t) vs b -> rows_enc t rows bs ->
      rows_enc t (vs :: rows) (b ++ bs).

(** The shortest record a template allows: padding is shorter than that. *)
Definition minWidth (hv : bool) (f : templateField) : Z :=
  if hv && variable f then 1 else fieldLength f.
Definition minRecord (t : template) : Z := sumZ (map (minWidth (hasVarLen t)) (fields t)).

(** [row_wf fs vals]: one value per field. *)
Definition row_wf (t : template) (vals : list bytes) : Prop := length vals = length (fields t).

(** * Totality *)

Lemma fixedVals_total fs rec off :
  Forall field_wf fs -> 0 <= off -> off + sumZ (map fieldLength fs) <= len rec ->
  wp (fixedVals fs rec off) (fun vs => length vs = length fs).
Proof.
  intros Hfs. revert off. induction Hfs as [|f fs [_ Hf] Hfs IH]; intros off Hoff Hlen; [done|].
  simpl in *. pose proof (sum_lengths_nonneg fs Hfs). unfold is_u16 in Hf.
  apply wp_bind, wp_slice; [lia..|]. intros v _ _.
  apply wp_bind. eapply wp_mono; [apply IH; lia|]. intros vs Hvs. simpl in *. lia.
Qed.

Lemma varVals_total fs body off :
  Forall field_wf fs -> Forall (fun f => 0 < fieldLength f) fs ->
  0 <= off -> off <= len body ->
  wp (varVals fs body off) (fun r => forall vs off', r = Some (vs, off') ->
    length vs = length fs /\ off <= off' /\ off' <= len body /\ (fs <> [] -> off < off')).
Proof.
  intros Hfs Hpos. revert off. induction Hfs as [|f fs [_ Hf] Hfs IH]; intros off Hoff Hle.
  { simpl. intros ?? [= <- <-]. split; [done|]. split; [lia|]. by split. }
  apply Forall_cons_1 in Hpos as [Hf0 Hpos]. unfold is_u16 in Hf. cbn [varVals].
  apply wp_bind. apply (wp_mono _ (fun wo => forall w o, wo = Some (w, o) -> 0 <= w /\ off <= o /\ off < o + w)).
  - destruct (variable f); [|simpl; intros ?? [= <- <-]; lia].
    destruct (Z.leb_spec (len body) off); [done|].
    apply wp_bind, wp_index; [lia|]. intros c _. pose proof (bz_bounds c).
    destruct (_ =? 255); [|simpl; intros ?? [= <- <-]; lia].
    destruct (Z.ltb_spec (len body) (off + 1 + 2)); [done|].
    apply wp_bind, wp_u16at; [lia..|]. intros w _ Hw. unfold is_u16 in Hw.
    simpl. intros ?? [= <- <-]. lia.
  - intros [[w o]|] Hwo; [|done]. destruct (Hwo w o eq_refl) as (Hw & Ho & How).
    destruct (Z.ltb_spec (len body) (o + w)); [done|].
    apply wp_bind, wp_slice; [lia..|]. intros v _ _.
    apply wp_bind. eapply wp_mono; [apply IH; [done|lia|lia]|].
    intros [[vs o']|] Hr; simpl; [|done]. intros ?? [= <- <-].
    destruct (Hr vs o' eq_refl) as (? & ? & ? & _). simpl. lia.
Qed.

Section total.
Context {S : Type} (fn : list bytes -> S -> outcome S) (I : S -> Prop).
Context (t : template) (Hwf : template_wf t).
(** The callback returns and keeps [I] on any row with one value per field. *)
Context (Hfn : forall vals s, row_wf t vals -> I s -> wp (fn vals s) I).

Lemma fixedLoop_total fuel body i s :
  hasVarLen t = false -> 0 <= i -> i <= len body -> len body - i < Z.of_nat fuel -> I s ->
  wp (fixedLoop fn fuel body t i s) I.
Proof.
  intros Hv. destruct Hwf as [Hfs Hrest]. rewrite Hv in Hrest. destruct Hrest as [Hsum Hpos].
  revert i s. induction fuel as [|fuel IH]; intros i s Hi Hle Hf Hs; cbn [fixedLoop]; [lia|].
  destruct (Z.leb_spec (i + recordLen t) (len body)); [|done].
    apply wp_bind, wp_slice; [lia..|]. intros rec _ Hrec.
    apply wp_bind. eapply wp_mono; [apply fixedVals_total; [done|lia|lia]|].
    intros vals Hvals. apply wp_bind. eapply wp_mono; [by apply Hfn|].
    intros s' Hs'. apply IH; [lia..|done].
Qed.

Lemma varLoop_total fuel body off s :
  hasVarLen t = true -> 0 <= off -> off <= len body -> len body - off < Z.of_nat fuel -> I s ->
  wp (varLoop fn fuel body t off s) I.
Proof.
  intros Hv. destruct Hwf as [Hfs Hrest]. rewrite Hv in Hrest. destruct Hrest as [Hne Hpos].
  revert off s. induction fuel as [|fuel IH]; intros off s Hi Hle Hf Hs; cbn [varLoop]; [lia|].
  destruct (Z.ltb_spec off (len body)); [|done].
    apply wp_bind. eapply wp_mono; [by apply varVals_total|].
    intros [[vals off']|] Hr; [|done]. destruct (Hr _ _ eq_refl) as (Hl & _ & Hle' & Hlt).
    specialize (Hlt Hne). destruct (Z.eqb_spec off' off); [lia|].
    apply wp_bind. eapply wp_mono; [by apply Hfn|].
    intros s' Hs'. apply IH; [lia..|done].
Qed.
End total.

(** The walker returns on every body, for a well-formed template and a
    callback that returns on rows of the template's shape. *)
Lemma eachRecord_total {S} (fn : list bytes -> S -> outcome S) (I : S -> Prop) t body s :
  template_wf t -> (forall vals s, row_wf t vals -> I s -> wp (fn vals s) I) -> I s ->
  wp (eachRecord fn body t s) I.
Proof.
  intros Hwf Hfn Hs. unfold eachRecord. pose proof (len_nonneg body).
  destruct (len (fields t) =? 0); [done|].
  destruct (hasVarLen t) eqn:Hv; cbn [negb].
  - apply varLoop_total; auto; unfold len in *; lia.
  - destruct (recordLen t <=? 0); [done|].
    apply fixedLoop_total; auto; unfold len in *; lia.
Qed.

(** * Round trip *)

Lemma val_enc_fixed f v b : val_enc false f v b -> b = v /\ len v = fieldLength f.
Proof. by inversion 1. Qed.

Lemma val_enc_minWidth hv f v b : val_enc hv f v b -> minWidth hv f <= len b.
Proof.
  unfold minWidth. inversion 1 as [E ?|E ?|E ?]; subst; rewrite E; len_lia.
Qed.

Lemma fixedVals_enc fs vs b pre post :
  row_enc false fs vs b -> fixedVals fs (pre ++ b ++ post) (len pre) = Ret vs.
Proof.
  intros H. revert pre. induction H as [|f fs v vs b bs Hv _ IH]; intros pre; [done|].
  destruct (val_enc_fixed _ _ _ Hv) as [-> Hlen]. cbn [fixedVals].
  rewrite <- Hlen, <- app_assoc.
  rewrite slice_ret by len_lia. rewrite sub_app_exact by lia. rewrite bind_ret.
  rewrite (app_assoc pre), <- len_app, IH. done.
Qed.

Lemma row_enc_fixed_len fs vs b : row_enc false fs vs b -> len b = sumZ (map fieldLength fs).
Proof.
  induction 1 as [|f fs v vs b bs Hv _ IH]; [done|].
  destruct (val_enc_fixed _ _ _ Hv) as [-> Hlen]. rewrite len_app. simpl. lia.
Qed.

Lemma varVals_enc fs vs b pre post :
  Forall field_wf fs -> row_enc true fs vs b ->
  varVals fs (pre ++ b ++ post) (len pre) = Ret (Some (vs, len pre + len b)).
Proof.
  intros Hwf H. revert pre Hwf.
  induction H as [|f fs v vs b bs Hv _ IH]; intros pre Hwf.
  { rewrite len_nil, Z.add_0_r. done. }
  apply Forall_cons_1 in Hwf as [[_ Hf] Hwf]. unfold is_u16 in Hf.
  cbn [varVals]. pose proof (len_nonneg v) as Hv0. pose proof (len_nonneg pre) as Hp0.
  pose proof (len_nonneg bs) as Hb0. pose proof (len_nonneg post) as Hq0.
  assert (forall hd, b = hd ++ v -> forall w, w = len v ->
    (if len (pre ++ (b ++ bs) ++ post) <? len pre + len hd + w then Ret None
     else v ← slice (pre ++ (b ++ bs) ++ post) (len pre + len hd) (len pre + len hd + w);
          rest ← varVals fs (pre ++ (b ++ bs) ++ post) (len pre + len hd + w);
          Ret (match rest with Some (vs, off') => Some (v :: vs, off') | None => None end))
    = Ret (Some (v :: vs, len pre + len (b ++ bs)))) as Hrest.
  { intros hd -> w ->. pose proof (len_nonneg hd).
    rewrite (proj2 (Z.ltb_ge _ _)) by len_lia. rewrite slice_ret by len_lia.
    replace (pre ++ ((hd ++ v) ++ bs) ++ post) with ((pre ++ hd) ++ v ++ bs ++ post)
      by (by rewrite !app_assoc).
    rewrite <- len_app, sub_app_exact by lia. rewrite bind_ret.
    rewrite (app_assoc (pre ++ hd)), <- len_app, IH by done. simpl.
    do 3 f_equal. len_lia. }
  inversion Hv as [Hx Hl E|Hx Hl E|Hx Hl E]; subst b; simpl in Hx; rewrite Hx.
  - specialize (Hrest [] eq_refl (fieldLength f) (eq_sym Hl)).
    rewrite len_nil, Z.add_0_r in Hrest. exact Hrest.
  - rewrite (proj2 (Z.leb_gt _ _)) by len_lia.
    cbn [app]. rewrite index_middle by done.
    rewrite bind_ret, bz_zb_small by lia. rewrite (proj2 (Z.eqb_neq _ _)) by lia.
    rewrite bind_ret. by apply (Hrest [zb (len v)]).
  - rewrite (proj2 (Z.leb_gt _ _)) by len_lia.
    cbn [app]. rewrite index_middle by done.
    rewrite bind_ret, bz_zb_small by lia. rewrite Z.eqb_refl.
    rewrite (proj2 (Z.ltb_ge _ _)) by len_lia.
    rewrite u16at_ret by len_lia.
    assert (pre ++ zb 255 :: ((put_be 2 (len v) ++ v) ++ bs) ++ post
      = (pre ++ [zb 255]) ++ put_be 2 (len v) ++ v ++ bs ++ post) as E
      by (by rewrite <- !app_assoc).
    rewrite E at 1.
    rewrite sub_app_exact by (rewrite ?len_app, ?len_put_be; done).
    rewrite be_put_be by lia. rewrite !bind_ret.
    rewrite <- (Z.add_assoc (len pre)). by apply (Hrest (zb 255 :: put_be 2 (len v))).
Qed.

(** A record that does not fit what is left is not read. *)
Lemma varVals_short fs body off :
  Forall field_wf fs -> 0 <= off -> off <= len body ->
  len body - off < sumZ (map (minWidth true) fs) ->
  varVals fs body off = Ret None.
Proof.
  intros Hwf. revert off. induction Hwf as [|f fs [_ Hf] Hwf IH]; intros off H0 H1 Hs;
    simpl in Hs; [lia|]. cbn [varVals]. unfold is_u16 in Hf.
  unfold minWidth at 1 in Hs. simpl in Hs.
  assert (forall o w, 0 <= o -> 0 <= w -> off + (if variable f then 1 else fieldLength f) <= o + w ->
    (if len body <? o + w then Ret None else
     v ← slice body o (o + w); rest ← varVals fs body (o + w);
     Ret (match rest with Some (vs, off') => Some (v :: vs, off') | None => None end)) = Ret None) as Hrest.
  { intros o w ???. destruct (Z.ltb_spec (len body) (o + w)); [done|].
    rewrite slice_ret, bind_ret by lia. rewrite IH by lia. done. }
  destruct (variable f) eqn:Ev; [|by apply (Hrest off); lia].
  destruct (Z.leb_spec (len body) off); [done|].
  destruct (index_ret body off) as (c & -> & _); [lia|]. rewrite bind_ret.
  pose proof (bz_bounds c). destruct (_ =? 255); [|by apply (Hrest (off + 1)); lia].
  destruct (Z.ltb_spec (len body) (off + 1 + 2)); [done|].
  rewrite u16at_ret by lia. rewrite !bind_ret.
  pose proof (be_sub_u16 body (off + 1)) as Hu. unfold is_u16 in Hu.
  apply (Hrest (off + 1 + 2)); lia.
Qed.

Lemma row_enc_len hv fs vs b : row_enc hv fs vs b -> sumZ (map (minWidth hv) fs) <= len b.
Proof.
  induction 1 as [|f fs v vs b bs Hv _ IH]; [done|].
  apply val_enc_minWidth in Hv. rewrite len_app. simpl. lia.
Qed.

Lemma minWidth_pos f : 0 < fieldLength f -> 0 < minWidth true f.
Proof. unfold minWidth. by case_match. Qed.

Lemma sum_minWidth_nonneg fs :
  Forall (fun f => 0 < fieldLength f) fs -> 0 <= sumZ (map (minWidth true) fs).
Proof.
  intros H. apply sumZ_nonneg, Forall_fmap. eapply Forall_impl; [|exact H].
  intros f Hf%minWidth_pos. simpl. lia.
Qed.

Lemma minRecord_pos t : template_wf t -> 0 < minRecord t.
Proof.
  intros [Hf Hrest]. unfold minRecord. destruct (hasVarLen t).
  - destruct Hrest as [Hne Hpos]. destruct (fields t) as [|f fs]; [done|].
    apply Forall_cons_1 in Hpos as [H0%minWidth_pos Hpos%sum_minWidth_nonneg]. simpl. lia.
  - destruct Hrest as [E Hpos]. change (0 < sumZ (map fieldLength (fields t))). lia.
Qed.

Section rows.
Context {S : Type} (fn : list bytes -> S -> outcome S).
Context (t : template) (Hwf : template_wf t).

Lemma fixedLoop_enc rows b pad pre fuel s :
  hasVarLen t = false -> rows_enc t rows b -> len pad < recordLen t ->
  len b + len pad < Z.of_nat fuel ->
  fixedLoop fn fuel (pre ++ b ++ pad) t (len pre) s = foldRows fn rows s.
Proof.
  intros Hv Hrows Hpad. destruct Hwf as [Hf Hrest]. rewrite Hv in Hrest. destruct Hrest as [Hsum Hpos].
  revert pre fuel s. induction Hrows as [|vs rows b bs Hrow _ IH]; intros pre [|fuel] s Hfuel;
    try (pose proof (len_nonneg pad); len_lia).
  - cbn [fixedLoop]. rewrite (proj2 (Z.leb_gt _ _)) by len_lia. done.
  - cbn [fixedLoop foldRows]. rewrite Hv in Hrow.
    pose proof (row_enc_fixed_len _ _ _ Hrow) as Hb. rewrite <- app_assoc.
    rewrite (proj2 (Z.leb_le _ _)) by len_lia.
    rewrite slice_ret by len_lia. rewrite sub_app_exact by lia. rewrite bind_ret.
    pose proof (fixedVals_enc (fields t) vs b [] [] Hrow) as Ev.
    rewrite app_nil_r in Ev. simpl in Ev. change (len (@nil byte)) with 0 in Ev.
    rewrite Ev, bind_ret. destruct (fn vs s) as [s'| |]; try done. rewrite !bind_ret.
    rewrite Hsum, <- Hb, <- len_app, app_assoc. apply IH. len_lia.
Qed.

Lemma varLoop_enc rows b pad pre fuel s :
  hasVarLen t = true -> rows_enc t rows b -> len pad < minRecord t ->
  len b + len pad < Z.of_nat fuel ->
  varLoop fn fuel (pre ++ b ++ pad) t (len pre) s = foldRows fn rows s.
Proof.
  intros Hv Hrows Hpad. pose proof (minRecord_pos t Hwf) as Hmin.
  destruct Hwf as [Hf _]. unfold minRecord in *. rewrite Hv in *.
  revert pre fuel s. induction Hrows as [|vs rows b bs Hrow _ IH]; intros pre [|fuel] s Hfuel;
    try (pose proof (len_nonneg pad); len_lia).
  - cbn [varLoop]. simpl. destruct (Z.ltb_spec (len pre) (len (pre ++ pad))); [|done].
    rewrite varVals_short; [done | done | len_lia ..].
  - cbn [varLoop foldRows]. rewrite Hv in Hrow. apply row_enc_len in Hrow as Hb.
    rewrite (proj2 (Z.ltb_lt _ _)) by len_lia. rewrite <- app_assoc.
    rewrite (varVals_enc _ vs) by done. rewrite bind_ret.
    rewrite (proj2 (Z.eqb_neq _ _)) by lia.
    destruct (fn vs s) as [s'| |]; try done. rewrite !bind_ret.
    rewrite <- len_app, app_assoc. apply IH. len_lia.
Qed.
End rows.

(** The record walker inverts the wire format: on a data set that is the
    encoding of some rows (fixed widths, or RFC 7011 variable lengths in
    either of their two forms) followed by padding shorter than the shortest
    record, it calls its callback on exactly those rows, in order, whatever
    the callback does. *)
Theorem eachRecord_roundtrip {S} (fn : list bytes -> S -> outcome S) t rows b pad s :
  template_wf t -> rows_enc t rows b -> len pad < minRecord t ->
  eachRecord fn (b ++ pad) t s = foldRows fn rows s.
Proof.
  intros Hwf Hrows Hpad. unfold eachRecord.
  assert (len (fields t) <> 0) as Hne.
  { pose proof (minRecord_pos t Hwf) as Hm. unfold minRecord in Hm.
    destruct (fields t); [done|]. len_lia. }
  rewrite (proj2 (Z.eqb_neq _ _)) by done.
  assert (len b + len pad < Z.of_nat (Datatypes.S (length (b ++ pad)))) as Hfuel.
  { rewrite length_app. unfold len. lia. }
  destruct (hasVarLen t) eqn:Hv; cbn [negb].
  - by apply (varLoop_enc fn t Hwf rows b pad []).
  - pose proof Hwf as [Hf Hrest]. rewrite Hv in Hrest.
    rewrite (proj2 (Z.leb_gt _ _)) by lia.
    apply (fixedLoop_enc fn t Hwf rows b pad []); [done | done | | done].
    unfold minRecord in Hpad. rewrite Hv in Hpad. destruct Hrest as [E _]. rewrite E. exact Hpad.
Qed.

(** A template with a variable-length user name, one row in the short form
    and one in the long form, and three bytes of padding. *)
Definition example_var_template : template :=
  mkTemplate [mkField 8 4 0; mkField 371 65535 0] 4 true 0 0.

Lemma eachRecord_roundtrip_witness :
  let row1 := [put_be 4 1; put_be 2 7] in
  let row2 := [put_be 4 2; put_be 1 9] in
  eachRecord (fun vals acc => Ret (acc ++ [vals]))
    ((((put_be 4 1 ++ ((zb 2 :: put_be 2 7) ++ [])) ++
       ((put_be 4 2 ++ ((zb 255 :: put_be 2 1 ++ put_be 1 9) ++ [])) ++ [])) ++ put_be 3 0))
    example_var_template []
  = foldRows (fun vals acc => Ret (acc ++ [vals])) [row1; row2] [].
Proof.
  intros row1 row2. apply (eachRecord_roundtrip _ _ [row1; row2]).
  - split; [repeat constructor; unfold is_u16; simpl; lia|].
    simpl. split; [done|]. repeat constructor; simpl; lia.
  - refine (rows_cons _ _ _ _ _ _ (rows_cons _ _ _ _ _ _ (rows_nil _)));
      simple refine (row_cons _ _ _ _ _ _ _ _ (row_cons _ _ _ _ _ _ _ _ (row_nil _)));
      [by apply enc_fixed | by apply (enc_short _ _ (put_be 2 7)) |
       by apply enc_fixed | by apply (enc_long _ _ (put_be 1 9))].
  - vm_compute. reflexivity.
Defined.
