(* ===== verification/FlowData.v ===== *)
(** Package flow, file netflow9.go: the meaning of the fields of a data
    record. [readFlowData] turns a data set into flow records, and
    [readOptionsData] learns the sampling interval, both through the walker
    of Walker.v. *)
From Stdlib Require Import ZArith Lia.
From stdpp Require Import base list gmap strings numbers relations.
From S2P Require Import Prelude GoText Netip FlowTypes Templates Walker.

(** ** Field types *)

Definition fInBytes : Z := 1.
Definition fInPkts : Z := 2.
Definition fProtocol : Z := 4.
Definition fTOS : Z := 5.
Definition fTCPFlags : Z := 6.
Definition fSrcPort : Z := 7.
Definition fSrcAddrV4 : Z := 8.
Definition fSrcMask : Z := 9.
Definition fInputSNMP : Z := 10.
Definition fDstPort : Z := 11.
Definition fDstAddrV4 : Z := 12.
Definition fDstMask : Z := 13.
Definition fOutputSNMP : Z := 14.
Definition fNextHopV4 : Z := 15.
Definition fSrcAS : Z := 16.
Definition fDstAS : Z := 17.
Definition fBGPNextHopV4 : Z := 18.
Definition fLastSwitched : Z := 21.
Definition fFirstSwitched : Z := 22.
Definition fOutBytes : Z := 23.
Definition fOutPkts : Z := 24.
Definition fSrcAddrV6 : Z := 27.
Definition fDstAddrV6 : Z := 28.
Definition fSrcMaskV6 : Z := 29.
Definition fDstMaskV6 : Z := 30.
Definition fICMPTypeV4 : Z := 32.
Definition fSamplingInterval : Z := 34.
Definition fSamplerRandomInt : Z := 50.
Definition fInSrcMAC : Z := 56.
Definition fOutDstMAC : Z := 57.
Definition fSrcVLAN : Z := 58.
Definition fDstVLAN : Z := 59.
Definition fDirection : Z := 61.
Definition fNextHopV6 : Z := 62.
Definition fBGPNextHopV6 : Z := 63.
Definition fInDstMAC : Z := 80.
Definition fOutSrcMAC : Z := 81.
Definition fApplicationID : Z := 95.
Definition fAppName : Z := 96.
Definition fICMPTypeV6 : Z := 139.
Definition fStartSeconds : Z := 150.
Definition fEndSeconds : Z := 151.
Definition fStartMillis : Z := 152.
Definition fEndMillis : Z := 153.
Definition fSysInitMillis : Z := 160.
Definition fNATSrcV4 : Z := 225.
Definition fNATDstV4 : Z := 226.
Definition fNATSrcPort : Z := 227.
Definition fNATDstPort : Z := 228.
Definition fFirewallEvent : Z := 233.
Definition fDot1qVLAN : Z := 243.
Definition fNATSrcV6 : Z := 281.
Definition fNATDstV6 : Z := 282.
Definition fSamplerInterval : Z := 305.
Definition fUserName : Z := 371.
Definition fASAUserName : Z := 40000.
Definition fASAFWEvent : Z := 40005.

(** A [case] with several labels. *)
Definition oneof (x : Z) (l : list Z) : bool := existsb (Z.eqb x) l.

(** ** Reading values *)

Definition narrow8 (v : Z) : Z := if 255 <? v then 0 else v.
Definition narrow16 (v : Z) : Z := if 65535 <? v then 0 else v.
Definition narrow32 (v : Z) : Z := if 4294967295 <? v then 0 else v.

(** [beUint]: [v = v<<8 | uint64(c)] over a uint64. *)
Definition beUint (b : bytes) : Z :=
  fold_left (fun v c => Z.lor (uint64 (Z.shiftl v 8)) (bz c)) b 0.

Definition unixAt (v unit : Z) : Time :=
  if (v =? 0) || (2 ^ 62 / unit <? v) then zeroTime
  else time_Unix 0 (v * unit).

Definition addrOrZero (b : bytes) : Addr :=
  let '(a, ok) := AddrFromSlice b in
  if negb ok || IsUnspecified a then AddrZero else Unmap a.

Definition appID (b : bytes) : outcome string :=
  if len b <? 2 then Ret "" else
  c ← index b 0;
  sel ← slice_from b 1;
  if len b <=? 9 then Ret (Itoa (bz c) +:+ ":" +:+ Itoa (beUint sel))
  else Ret (Itoa (bz c) +:+ ":" +:+ hex_bytes sel).

(** The bytes before the first NUL. *)
Fixpoint untilNUL (b : bytes) : bytes :=
  match b with
  | [] => []
  | c :: b' => if bz c =? 0 then [] else c :: untilNUL b'
  end.

Definition text (b : bytes) : outcome string :=
  let b := untilNUL b in
  b ← (if 128 <? len b then slice b 0 128 else Ret b);
  Ret (of_bytes (ToValidUTF8 b)).

(** [val[len(val)-1]] *)
Definition lastByte (val : bytes) : outcome Z :=
  c ← index val (len val - 1); Ret (bz c).

(** ** One record *)

(** The variables of the callback in [readFlowData]. *)
Record fieldState : Type := mkFS {
  fs_r : Record; inlineSampling : Z; firstUp : Z; lastUp : Z; sysInit : Z
}.
#[export] Instance eta_fieldState : Eta fieldState := fun s =>
  mkFS (fs_r s) (inlineSampling s) (firstUp s) (lastUp s) (sysInit s).

Definition setR (s : fieldState) (r : Record) : fieldState := s <| fs_r := r |>.

(** [readRawField]: the pointers are the fields of the state. *)
Definition readRawField (s : fieldState) (typ : Z) (val : bytes) : outcome fieldState :=
  let r := fs_r s in
  if typ =? fFirstSwitched then Ret (s <| firstUp := beUint val |>)
  else if typ =? fLastSwitched then Ret (s <| lastUp := beUint val |>)
  else if typ =? fSysInitMillis then Ret (s <| sysInit := beUint val |>)
  else if typ =? fStartSeconds then Ret (setR s (r <| Start := unixAt (beUint val) Second |>))
  else if typ =? fEndSeconds then Ret (setR s (r <| End := unixAt (beUint val) Second |>))
  else if typ =? fStartMillis then Ret (setR s (r <| Start := unixAt (beUint val) Millisecond |>))
  else if typ =? fEndMillis then Ret (setR s (r <| End := unixAt (beUint val) Millisecond |>))
  else if oneof typ [fInSrcMAC; fOutSrcMAC] then
    if (len val =? 6) && (SrcMAC r =? 0) then Ret (setR s (r <| SrcMAC := beUint val |>)) else Ret s
  else if oneof typ [fInDstMAC; fOutDstMAC] then
    if (len val =? 6) && (DstMAC r =? 0) then Ret (setR s (r <| DstMAC := beUint val |>)) else Ret s
  else if oneof typ [fSrcVLAN; fDot1qVLAN] then
    Ret (setR s (r <| SrcVLAN := Z.land (narrow16 (beUint val)) 4095 |>))
  else if typ =? fDstVLAN then
    Ret (setR s (r <| DstVLAN := Z.land (narrow16 (beUint val)) 4095 |>))
  else if oneof typ [fNextHopV4; fNextHopV6] then
    Ret (setR s (r <| NextHop := addrOrZero val |>))
  else if oneof typ [fBGPNextHopV4; fBGPNextHopV6] then
    Ret (setR s (r <| BGPNextHop := addrOrZero val |>))
  else if typ =? fDirection then
    if 0 <? len val then
      d ← lastByte val;
      if d <=? 1 then Ret (setR s (r <| Direction := uint8 (d + 1) |>)) else Ret s
    else Ret s
  else if oneof typ [fICMPTypeV4; fICMPTypeV6] then
    Ret (setR s (r <| ICMPType := narrow16 (beUint val) |>))
  else if typ =? fApplicationID then
    a ← appID val; Ret (setR s (r <| AppID := a |>))
  else if typ =? fAppName then
    a ← text val; Ret (setR s (r <| AppName := a |>))
  else if oneof typ [fNATSrcV4; fNATSrcV6] then
    Ret (setR s (r <| NATSrcAddr := addrOrZero val |>))
  else if oneof typ [fNATDstV4; fNATDstV6] then
    Ret (setR s (r <| NATDstAddr := addrOrZero val |>))
  else if typ =? fNATSrcPort then
    Ret (setR s (r <| NATSrcPort := narrow16 (beUint val) |>))
  else if typ =? fNATDstPort then
    Ret (setR s (r <| NATDstPort := narrow16 (beUint val) |>))
  else if oneof typ [fFirewallEvent; fASAFWEvent] then
    Ret (setR s (r <| FWEvent := narrow8 (beUint val) |>))
  else if oneof typ [fUserName; fASAUserName] then
    u ← text val; Ret (setR s (r <| User := u |>))
  else Ret s.

(** The switch of [readFlowData] on one field of the template. *)
Definition readFlowField (s : fieldState) (f : templateField) (val : bytes) : outcome fieldState :=
  let r := fs_r s in
  let typ := typ f in
  if negb (enterprise f =? 0) then Ret s
  else if oneof typ [fInBytes; fOutBytes] then
    Ret (setR s (r <| Bytes := uint64 (Bytes r + beUint val) |>))
  else if oneof typ [fInPkts; fOutPkts] then
    Ret (setR s (r <| Packets := uint64 (Packets r + beUint val) |>))
  else if typ =? fProtocol then
    if 0 <? len val then v ← lastByte val; Ret (setR s (r <| Protocol := v |>)) else Ret s
  else if typ =? fSrcPort then Ret (setR s (r <| SrcPort := narrow16 (beUint val) |>))
  else if typ =? fDstPort then Ret (setR s (r <| DstPort := narrow16 (beUint val) |>))
  else if typ =? fInputSNMP then Ret (setR s (r <| InputIf := narrow32 (beUint val) |>))
  else if typ =? fOutputSNMP then Ret (setR s (r <| OutputIf := narrow32 (beUint val) |>))
  else if oneof typ [fSrcAddrV4; fSrcAddrV6] then
    let '(a, ok) := AddrFromSlice val in
    if ok then Ret (setR s (r <| SrcAddr := Unmap a |>)) else Ret s
  else if oneof typ [fDstAddrV4; fDstAddrV6] then
    let '(a, ok) := AddrFromSlice val in
    if ok then Ret (setR s (r <| DstAddr := Unmap a |>)) else Ret s
  else if typ =? fTOS then
    if 0 <? len val then v ← lastByte val; Ret (setR s (r <| TOS := v |>)) else Ret s
  else if typ =? fTCPFlags then
    if 0 <? len val then v ← lastByte val; Ret (setR s (r <| TCPFlags := v |>)) else Ret s
  else if oneof typ [fSrcMask; fSrcMaskV6] then
    Ret (setR s (r <| SrcMask := narrow8 (beUint val) |>))
  else if oneof typ [fDstMask; fDstMaskV6] then
    Ret (setR s (r <| DstMask := narrow8 (beUint val) |>))
  else if typ =? fSrcAS then Ret (setR s (r <| SrcAS := narrow32 (beUint val) |>))
  else if typ =? fDstAS then Ret (setR s (r <| DstAS := narrow32 (beUint val) |>))
  else if oneof typ [fSamplingInterval; fSamplerRandomInt; fSamplerInterval] then
    Ret (s <| inlineSampling := beUint val |>)
  else readRawField s typ val.

(** [for i, f := range t.fields]: [val := vals[i]]. *)
Fixpoint readFlowFields (fs : list templateField) (i : Z) (vals : list bytes) (s : fieldState)
    : outcome fieldState :=
  match fs with
  | [] => Ret s
  | f :: fs =>
      val ← index vals i;
      s ← readFlowField s f val;
      readFlowFields fs (i + 1) vals s
  end.

(** What [readFlowData] does with a record once its fields are read. *)
Definition scaleInline (s : fieldState) : Record :=
  let r := fs_r s in
  let n := inlineSampling s in
  if (1 <? n) && (n <=? 4294967295)
  then r <| Bytes := uint64 (Bytes r * n) |> <| Packets := uint64 (Packets r * n) |>
         <| Sampled := true |> <| SamplingRate := uint32 n |>
  else r.

Definition resolveTimes (s : fieldState) (clock : exportClock) (r : Record) : Record :=
  if 0 <? sysInit s then
    let boot := time_UnixMilli (int64 (sysInit s)) in
    let r := if 0 <? firstUp s
             then r <| Start := time_Add boot (narrow32 (firstUp s) * Millisecond) |> else r in
    if 0 <? lastUp s
    then r <| End := time_Add boot (narrow32 (lastUp s) * Millisecond) |> else r
  else if IsZero (Start r) && IsZero (End r) then
    r <| Start := clock_at clock (narrow32 (firstUp s)) |>
      <| End := clock_at clock (narrow32 (lastUp s)) |>
  else r.

Definition hasAddrs (r : Record) : bool := IsValid (SrcAddr r) && IsValid (DstAddr r).

(** The callback [readFlowData] passes to [eachRecord]: [None] when the
    record has no addresses. *)
Definition flowRecord (t : template) (clock : exportClock) (kind : string) (vals : list bytes)
    : outcome (option Record) :=
  s ← readFlowFields (fields t) 0 vals (mkFS (zeroRecord <| Type_ := kind |>) 0 0 0 0);
  let r := resolveTimes s clock (scaleInline s) in
  Ret (if hasAddrs r then Some r else None).

Definition readFlowData (body : bytes) (t : template) (clock : exportClock) (kind : string)
    : outcome (list Record) :=
  eachRecord (fun vals out =>
    o ← flowRecord t clock kind vals;
    Ret (match o with Some r => out ++ [r] | None => out end)) body t [].

(** ** Options data *)

Fixpoint readOptionsFields (fs : list templateField) (i : Z) (vals : list bytes)
    (k : samplingKey) (tc : TemplateCache) : outcome TemplateCache :=
  match fs with
  | [] => Ret tc
  | f :: fs =>
      if negb (enterprise f =? 0) then readOptionsFields fs (i + 1) vals k tc
      else if oneof (typ f) [fSamplingInterval; fSamplerRandomInt; fSamplerInterval] then
        val ← index vals i;
        let iv := beUint val in
        readOptionsFields fs (i + 1) vals k
          (if 0 <? iv then putSampling tc k (narrow32 iv) else tc)
      else readOptionsFields fs (i + 1) vals k tc
  end.

Definition readOptionsData (body : bytes) (t : template) (from : Addr) (sourceID : Z)
    (tc : TemplateCache) : outcome TemplateCache :=
  eachRecord (fun vals tc =>
    readOptionsFields (fields t) 0 vals (mkSamplingKey from sourceID) tc) body t tc.

(** * Values *)

Lemma beUint_step v c : uint64 (v * 256 + bz c) = Z.lor (uint64 (Z.shiftl v 8)) (bz c).
Proof.
  pose proof (bz_bounds c) as Hc. rewrite Z.shiftl_mul_pow2 by lia. unfold uint64.
  change (2 ^ 8) with 256.
  assert ((v * 256) mod 2 ^ 64 = (v mod 2 ^ 56) * 2 ^ 8) as ->.
  { change (2 ^ 64) with (2 ^ 56 * 256). change (2 ^ 8) with 256.
    by rewrite Z.mul_mod_distr_r by lia. }
  rewrite lor_low by lia. change (2 ^ 64) with (2 ^ 56 * 256). change (2 ^ 8) with 256.
  pose proof (Z.mod_pos_bound v (2 ^ 56)). pose proof (Z.div_mod v (2 ^ 56)).
  symmetry. apply (Z.mod_unique_pos _ _ (v / 2 ^ 56)); lia.
Qed.

(** [beUint] is the big-endian value, kept modulo 2^64. *)
Lemma beUint_be b : beUint b = uint64 (be b).
Proof.
  unfold beUint, be. rewrite <- (fold_left_rev_right _ b), <- (fold_left_rev_right _ b).
  generalize (List.rev b) as l. clear b. induction l as [|c l IH]; [done|].
  cbn [fold_right]. rewrite IH, <- beUint_step. unfold uint64.
  rewrite Z.add_mod, Z.mul_mod_idemp_l, <- Z.add_mod by lia. done.
Qed.

Lemma beUint_u64 b : is_u64 (beUint b).
Proof. rewrite beUint_be. apply Z.mod_pos_bound. lia. Qed.

Lemma narrow8_u8 v : 0 <= v -> is_u8 (narrow8 v).
Proof. unfold narrow8, is_u8. case_match; lia. Qed.
Lemma narrow16_u16 v : 0 <= v -> is_u16 (narrow16 v).
Proof. unfold narrow16, is_u16. case_match; lia. Qed.
Lemma narrow32_u32 v : 0 <= v -> is_u32 (narrow32 v).
Proof. unfold narrow32, is_u32. case_match; lia. Qed.

Lemma land_vlan_u16 v : 0 <= v -> is_u16 (Z.land v 4095).
Proof.
  intros. change 4095 with (Z.ones 12). rewrite Z.land_ones by lia.
  pose proof (Z.mod_pos_bound v (2 ^ 12)). unfold is_u16. lia.
Qed.

Lemma addrOrZero_wf b : Addr_wf (addrOrZero b).
Proof.
  unfold addrOrZero. pose proof (AddrFromSlice_wf b). destruct (AddrFromSlice b) as [a ok].
  case_match; [done|]. by apply Unmap_wf.
Qed.

Lemma lastByte_total val : 0 < len val -> wp (lastByte val) is_u8.
Proof.
  intros. unfold lastByte. apply wp_bind, wp_index; [lia|]. intros c _. apply bz_bounds.
Qed.

Lemma appID_total b : wp (appID b) (fun _ => True).
Proof.
  unfold appID. destruct (Z.ltb_spec (len b) 2); [done|].
  apply wp_bind, wp_index; [lia|]. intros c _.
  apply wp_bind, wp_slice_from; [lia..|]. intros s _ _. by repeat wp_step.
Qed.

(** A text value is valid UTF-8 of at most 128 bytes, whatever arrived. *)
Lemma text_total b : wp (text b) (fun s => slen s <= 128 /\ utf8_Valid (to_bytes s) = true).
Proof.
  unfold text. apply wp_bind. apply (wp_mono _ (fun b => len b <= 128)).
  - destruct (Z.ltb_spec 128 (len (untilNUL b))); [|simpl; lia].
    apply wp_slice; [lia..|]. intros s _ Hs. lia.
  - intros b' Hb'. simpl. rewrite slen_of_bytes, to_of_bytes. pose proof (len_ToValidUTF8 b').
    split; [lia | apply utf8_Valid_ToValidUTF8].
Qed.

(** * Records are well formed *)

Definition FS_wf (s : fieldState) : Prop :=
  Record_wf (fs_r s) /\ is_u64 (inlineSampling s) /\ is_u64 (firstUp s) /\
  is_u64 (lastUp s) /\ is_u64 (sysInit s).

#[local] Hint Resolve beUint_u64 narrow8_u8 narrow16_u16 narrow32_u32 land_vlan_u16
  addrOrZero_wf : go.

Lemma beUint_nonneg b : 0 <= beUint b.
Proof. apply beUint_u64. Qed.
Lemma narrow16_nonneg v : 0 <= v -> 0 <= narrow16 v.
Proof. intros. by apply narrow16_u16. Qed.
#[local] Hint Resolve beUint_nonneg narrow16_nonneg : go.

Lemma setR_wf s r : FS_wf s -> Record_wf r -> FS_wf (setR s r).
Proof. intros (? & ? & ? & ? & ?) ?. done. Qed.

Lemma readRawField_wf s ty val : FS_wf s -> wp (readRawField s ty val) FS_wf.
Proof.
  intros Hs. pose proof Hs as (Hr & Hi & Hf & Hl & Hy). unfold readRawField.
  pose proof (beUint_u64 val) as Hu. destruct Hr.
  repeat case_match; rewrite ?Z.ltb_lt in *;
  repeat first
    [ apply wp_ret; first [assumption | apply setR_wf; [assumption|]; record_wf]
    | apply wp_bind; eapply wp_mono; [apply text_total | intros ? _]
    | apply wp_bind; eapply wp_mono; [apply appID_total | intros ? _]
    | apply wp_bind; eapply wp_mono; [by apply lastByte_total | intros ? ?; case_match] ].
  all: split; [constructor; assumption | done].
Qed.

Lemma AddrFromSlice_Unmap_wf val a ok : AddrFromSlice val = (a, ok) -> Addr_wf (Unmap a).
Proof. intros E. apply Unmap_wf. pose proof (AddrFromSlice_wf val) as H. by rewrite E in H. Qed.
#[local] Hint Resolve AddrFromSlice_Unmap_wf : go.

Lemma readFlowField_wf s f val : FS_wf s -> wp (readFlowField s f val) FS_wf.
Proof.
  intros Hs. pose proof (readRawField_wf s (typ f) val Hs) as Hraw.
  pose proof Hs as (Hr & Hi & Hf & Hl & Hy). unfold readFlowField.
  pose proof (beUint_u64 val) as Hu. destruct Hr.
  repeat case_match; rewrite ?Z.ltb_lt in *; try exact Hraw;
  repeat first
    [ apply wp_ret; first [assumption | apply setR_wf; [assumption|];
        constructor; simpl; first [assumption | eauto with go]]
    | apply wp_bind; eapply wp_mono; [by apply lastByte_total | intros ? ?] ].
  all: split; [constructor; assumption | done].
Qed.

Lemma readFlowFields_wf fs i vals s :
  0 <= i -> i + len fs <= len vals -> FS_wf s -> wp (readFlowFields fs i vals s) FS_wf.
Proof.
  revert i s. induction fs as [|f fs IH]; intros i s Hi Hl Hs; [done|].
  rewrite len_cons in Hl. pose proof (len_nonneg fs). cbn [readFlowFields].
  apply wp_bind, wp_index; [lia|]. intros val _.
  apply wp_bind. eapply wp_mono; [by apply readFlowField_wf|]. intros s' Hs'.
  apply IH; [lia..|done].
Qed.

(** A record out of [flowRecord]: well formed, with both addresses, and its
    own sampling rate only if it is above one. *)
Definition flow_ok (r : Record) : Prop :=
  Record_wf r /\ SrcAddr r <> AddrZero /\ DstAddr r <> AddrZero.

Lemma scaleInline_wf s : FS_wf s -> Record_wf (scaleInline s).
Proof.
  intros (Hr & _). unfold scaleInline. destruct (_ && _); [|done].
  destruct Hr. record_wf.
Qed.

Lemma resolveTimes_wf s clock r : Record_wf r -> Record_wf (resolveTimes s clock r).
Proof.
  intros []. unfold resolveTimes. repeat case_match; constructor; assumption.
Qed.

Lemma resolveTimes_addrs s clock r :
  SrcAddr (resolveTimes s clock r) = SrcAddr r /\ DstAddr (resolveTimes s clock r) = DstAddr r.
Proof. unfold resolveTimes. by repeat case_match. Qed.

Lemma FS_wf_init kind : FS_wf (mkFS (zeroRecord <| Type_ := kind |>) 0 0 0 0).
Proof. repeat split; simpl; done || lia. Qed.

Lemma flowRecord_total t clock kind vals :
  row_wf t vals -> wp (flowRecord t clock kind vals) (fun o => forall r, o = Some r -> flow_ok r).
Proof.
  intros Hrow. unfold flowRecord. apply wp_bind. eapply wp_mono.
  - apply (readFlowFields_wf _ 0); [lia | | apply FS_wf_init].
    unfold row_wf in Hrow. unfold len. lia.
  - intros s Hs. simpl. intros r Hr. destruct (hasAddrs _) eqn:E; [|done].
    injection Hr as <-. split; [by apply resolveTimes_wf, scaleInline_wf|].
    unfold hasAddrs in E. by rewrite andb_true_iff, !IsValid_true in E.
Qed.

Lemma readFlowData_total body t clock kind :
  template_wf t -> wp (readFlowData body t clock kind) (Forall flow_ok).
Proof.
  intros Hwf. apply eachRecord_total; [done| |constructor].
  intros vals out Hrow Hout. apply wp_bind. eapply wp_mono; [by apply flowRecord_total|].
  intros [r|] Hr; simpl; [|done]. apply Forall_app. split; [done|].
  constructor; [by apply Hr | constructor].
Qed.

Lemma readOptionsFields_total fs i vals k tc :
  0 <= i -> i + len fs <= len vals ->
  wp (readOptionsFields fs i vals k tc) (rtc cache_step tc).
Proof.
  revert i tc. induction fs as [|f fs IH]; intros i tc Hi Hl; [simpl; apply rtc_refl|].
  rewrite len_cons in Hl. pose proof (len_nonneg fs). cbn [readOptionsFields].
  destruct (negb _); [apply IH; lia|]. destruct (oneof _ _); [|apply IH; lia].
  apply wp_bind, wp_index; [lia|]. intros val _. pose proof (beUint_nonneg val).
  eapply wp_mono; [apply IH; lia|]. intros tc' Hr. simpl in Hr.
  destruct (0 <? beUint val); [|done]. eapply rtc_l; [|exact Hr].
  apply step_sampling. by apply narrow32_u32.
Qed.

Lemma readOptionsData_total body t from sid tc :
  template_wf t -> wp (readOptionsData body t from sid tc) (rtc cache_step tc).
Proof.
  intros Hwf. apply eachRecord_total; [done| |apply rtc_refl].
  intros vals tc' Hrow Htc'. eapply wp_mono.
  - apply (readOptionsFields_total _ 0); [lia|]. unfold row_wf in Hrow. unfold len. lia.
  - intros tc'' ?. by etrans.
Qed.

(** * What a record says *)

Lemma oneof_true x l : oneof x l = true <-> In x l.
Proof.
  unfold oneof. rewrite existsb_exists. split.
  - intros (y & Hin & ->%Z.eqb_eq). done.
  - intros Hin. exists x. split; [done|]. apply Z.eqb_refl.
Qed.

Lemma oneof_false x l : oneof x l = false <-> ~ In x l.
Proof. rewrite <- oneof_true. by destruct (oneof x l). Qed.

(** Turns the tests of the switch into (dis)equalities and lets [lia] find
    which labels exclude each other. *)
Ltac switch_lia :=
  rewrite ?oneof_true, ?oneof_false, ?Z.eqb_eq, ?Z.eqb_neq, ?negb_true_iff, ?negb_false_iff in *;
  simpl In in *;
  rewrite ?Z.eqb_eq, ?Z.eqb_neq in *;
  unfold fInBytes, fInPkts, fProtocol, fTOS, fTCPFlags, fSrcPort, fSrcAddrV4, fSrcMask,
    fInputSNMP, fDstPort, fDstAddrV4, fDstMask, fOutputSNMP, fNextHopV4, fSrcAS, fDstAS,
    fBGPNextHopV4, fLastSwitched, fFirstSwitched, fOutBytes, fOutPkts, fSrcAddrV6, fDstAddrV6,
    fSrcMaskV6, fDstMaskV6, fICMPTypeV4, fSamplingInterval, fSamplerRandomInt, fInSrcMAC,
    fOutDstMAC, fSrcVLAN, fDstVLAN, fDirection, fNextHopV6, fBGPNextHopV6, fInDstMAC, fOutSrcMAC,
    fApplicationID, fAppName, fICMPTypeV6, fStartSeconds, fEndSeconds, fStartMillis, fEndMillis,
    fSysInitMillis, fNATSrcV4, fNATDstV4, fNATSrcPort, fNATDstPort, fFirewallEvent, fDot1qVLAN,
    fNATSrcV6, fNATDstV6, fSamplerInterval, fUserName, fASAUserName, fASAFWEvent in *;
  lia.

Definition standard (f : templateField) (ids : list Z) : bool :=
  (enterprise f =? 0) && oneof (typ f) ids.

Definition byteFields : list Z := [fInBytes; fOutBytes].
Definition packetFields : list Z := [fInPkts; fOutPkts].
Definition samplingFields : list Z := [fSamplingInterval; fSamplerRandomInt; fSamplerInterval].

(** The parts of the state the counters depend on. *)
Definition countsOf (s : fieldState) : Z * Z * Z * Z * bool :=
  (Bytes (fs_r s), Packets (fs_r s), inlineSampling s, SamplingRate (fs_r s), Sampled (fs_r s)).

Definition countField (c : Z * Z * Z * Z * bool) (f : templateField) (val : bytes)
    : Z * Z * Z * Z * bool :=
  let '(by_, pk, inline, rate, smp) := c in
  ((if standard f byteFields then uint64 (by_ + be val) else by_),
   (if standard f packetFields then uint64 (pk + be val) else pk),
   (if standard f samplingFields then uint64 (be val) else inline), rate, smp).

Lemma readRawField_counters s ty val :
  wp (readRawField s ty val) (fun s' => countsOf s' = countsOf s).
Proof.
  unfold readRawField. repeat case_match; rewrite ?Z.ltb_lt in *;
  repeat first
    [ apply wp_ret; reflexivity
    | apply wp_bind; eapply wp_mono; [apply text_total | intros ? _]
    | apply wp_bind; eapply wp_mono; [apply appID_total | intros ? _]
    | apply wp_bind; eapply wp_mono; [by apply lastByte_total | intros ? ?; case_match] ].
Qed.

Lemma readFlowField_counters s f val :
  wp (readFlowField s f val) (fun s' => countsOf s' = countField (countsOf s) f val).
Proof.
  pose proof (readRawField_counters s (typ f) val) as Hraw.
  unfold readFlowField, countField, countsOf, standard, byteFields, packetFields, samplingFields in *.
  rewrite !beUint_be, !uint64_add_r.
  destruct (enterprise f =? 0); cbn [negb andb]; [|done].
  destruct (oneof (typ f) [fInBytes; fOutBytes]) eqn:E1.
  { rewrite !(proj2 (oneof_false _ _)) by switch_lia. done. }
  destruct (oneof (typ f) [fInPkts; fOutPkts]) eqn:E2.
  { rewrite !(proj2 (oneof_false _ _)) by switch_lia. done. }
  destruct (oneof (typ f) [fSamplingInterval; fSamplerRandomInt; fSamplerInterval]) eqn:E3.
  { repeat match goal with |- context [if ?b then _ else _] =>
      destruct b eqn:?; [exfalso; switch_lia|] end. done. }
  repeat case_match; rewrite ?Z.ltb_lt in *; try exact Hraw; try reflexivity;
    apply wp_bind; (eapply wp_mono; [by apply lastByte_total | intros ? ?; reflexivity]).
Qed.

(** A property of the state that every field transforms by [g] is
    transformed by the whole record, field by field in template order. *)
Lemma readFlowFields_fold {X} (obs : fieldState -> X) (g : X -> templateField -> bytes -> X)
    fs vs pre s :
  (forall s f val, wp (readFlowField s f val) (fun s' => obs s' = g (obs s) f val)) ->
  length vs = length fs ->
  wp (readFlowFields fs (len pre) (pre ++ vs) s)
     (fun s' => obs s' = foldl (fun x '(f, v) => g x f v) (obs s) (zip fs vs)).
Proof.
  intros Hstep. revert pre vs s. induction fs as [|f fs IH]; intros pre vs s Hl.
  { by destruct vs. }
  destruct vs as [|v vs]; [done|]. cbn [readFlowFields zip zip_with foldl].
  rewrite index_middle, bind_ret by done.
  apply wp_bind. eapply wp_mono; [apply Hstep|]. simpl. intros s' <-.
  rewrite (cons_middle v), app_assoc. replace (len pre + 1) with (len (pre ++ [v])) by len_lia.
  apply IH. by injection Hl.
Qed.

(** The sum of the values of the standard fields with one of these types. *)
Definition fieldSum (ids : list Z) (fs : list templateField) (vs : list bytes) : Z :=
  sumZ (zip_with (fun f v => if standard f ids then be v else 0) fs vs).

(** The rate the record carries itself: its last standard sampling field. *)
Definition inlineRate (fs : list templateField) (vs : list bytes) : Z :=
  foldl (fun n '(f, v) => if standard f samplingFields then uint64 (be v) else n) 0 (zip fs vs).

Lemma foldl_counters fs vs a b n rt sm :
  length vs = length fs ->
  foldl (fun x '(f, v) => countField x f v) (uint64 a, uint64 b, n, rt, sm) (zip fs vs)
  = (uint64 (a + fieldSum byteFields fs vs), uint64 (b + fieldSum packetFields fs vs),
     foldl (fun n '(f, v) => if standard f samplingFields then uint64 (be v) else n) n (zip fs vs),
     rt, sm).
Proof.
  unfold fieldSum. revert vs a b n. induction fs as [|f fs IH]; intros vs a b n Hl.
  { destruct vs; [|done]. simpl. by rewrite !Z.add_0_r. }
  destruct vs as [|v vs]; [done|]. injection Hl as Hl. cbn [zip zip_with foldl sumZ foldr countField].
  assert (forall c x, (if standard f c then uint64 (uint64 x + be v) else uint64 x)
    = uint64 (x + if standard f c then be v else 0)) as E.
  { intros c x. case_match; [by rewrite uint64_add_l | by rewrite Z.add_0_r]. }
  rewrite !E, IH by done. unfold sumZ. by rewrite !Z.add_assoc.
Qed.

Lemma resolveTimes_counters s clock r :
  let r' := resolveTimes s clock r in
  Bytes r' = Bytes r /\ Packets r' = Packets r /\ Sampled r' = Sampled r /\
  SamplingRate r' = SamplingRate r.
Proof. unfold resolveTimes. by repeat case_match. Qed.

(** What the countsOf of a flow record mean. Whatever order the template
    lists its fields in, whatever widths it gives them, and whatever vendor
    or unknown fields it mixes in, the byte count of a record is the sum of
    its standard byte fields, times the sampling rate the record itself
    carries when that is above one and fits 32 bits, modulo 2^64; the packet
    count likewise; and the record says whether and by what it was scaled. *)
Theorem flow_counters t clock kind vals r :
  row_wf t vals -> flowRecord t clock kind vals = Ret (Some r) ->
  let n := inlineRate (fields t) vals in
  let scaled := bool_decide (1 < n < 2 ^ 32) in
  let factor := if scaled then n else 1 in
  Bytes r = uint64 (fieldSum byteFields (fields t) vals * factor) /\
  Packets r = uint64 (fieldSum packetFields (fields t) vals * factor) /\
  Sampled r = scaled /\ SamplingRate r = if scaled then n else 0.
Proof.
  intros Hrow E n scaled factor. unfold flowRecord in E.
  set (s0 := mkFS _ 0 0 0 0) in E.
  pose proof (readFlowFields_fold countsOf countField (fields t) vals [] s0
    readFlowField_counters Hrow) as Hc.
  apply wp_inv in Hc as (s & Es & Hs). simpl in Es. change (len (@nil bytes)) with 0 in Es.
  rewrite Es, bind_ret in E. injection E as E. destruct (hasAddrs _); [|done]. injection E as <-.
  change (countsOf s0) with (uint64 0, uint64 0, 0, 0, false) in Hs.
  rewrite foldl_counters in Hs by done. fold (inlineRate (fields t) vals) in Hs. fold n in Hs.
  unfold countsOf in Hs. injection Hs as Hb Hp Hn Hr Hsm. rewrite Z.add_0_l in Hb, Hp.
  destruct (resolveTimes_counters s clock (scaleInline s)) as (-> & -> & -> & ->).
  unfold scaleInline. rewrite Hn. subst factor scaled.
  destruct (Z.ltb_spec 1 n), (Z.leb_spec n 4294967295); cbn [andb];
    first [rewrite bool_decide_true by lia | rewrite bool_decide_false by lia]; simpl;
    rewrite ?Hb, ?Hp, ?uint64_mul_l, ?Z.mul_1_r; repeat split;
    first [assumption | apply Z.mod_small; lia | lia].
Qed.

Definition knownFields : list Z := byteFields ++ packetFields ++ samplingFields ++
  [fProtocol; fTOS; fTCPFlags; fSrcPort; fSrcAddrV4; fSrcMask; fInputSNMP; fDstPort; fDstAddrV4;
   fDstMask; fOutputSNMP; fNextHopV4; fSrcAS; fDstAS; fBGPNextHopV4; fLastSwitched;
   fFirstSwitched; fSrcAddrV6; fDstAddrV6; fSrcMaskV6; fDstMaskV6; fICMPTypeV4; fInSrcMAC;
   fOutDstMAC; fSrcVLAN; fDstVLAN; fDirection; fNextHopV6; fBGPNextHopV6; fInDstMAC; fOutSrcMAC;
   fApplicationID; fAppName; fICMPTypeV6; fStartSeconds; fEndSeconds; fStartMillis; fEndMillis;
   fSysInitMillis; fNATSrcV4; fNATDstV4; fNATSrcPort; fNATDstPort; fFirewallEvent; fDot1qVLAN;
   fNATSrcV6; fNATDstV6; fUserName; fASAUserName; fASAFWEvent].

Lemma readFlowField_unknown s f val :
  standard f knownFields = false -> readFlowField s f val = Ret s.
Proof.
  unfold standard, knownFields, byteFields, packetFields, samplingFields, readFlowField, readRawField.
  cbn [app]. destruct (enterprise f =? 0); cbn [negb andb]; [|done]. intros Hk.
  repeat match goal with |- context [if ?b then _ else _] =>
    destruct b eqn:?; [exfalso; switch_lia|] end. done.
Qed.

(** The fields of a record, each with its value. *)
Fixpoint foldPairs (l : list (templateField * bytes)) (s : fieldState) : outcome fieldState :=
  match l with
  | [] => Ret s
  | (f, v) :: l => s ← readFlowField s f v; foldPairs l s
  end.

Lemma readFlowFields_pairs fs vs pre s :
  length vs = length fs -> readFlowFields fs (len pre) (pre ++ vs) s = foldPairs (zip fs vs) s.
Proof.
  revert pre vs s. induction fs as [|f fs IH]; intros pre vs s Hl; [by destruct vs|].
  destruct vs as [|v vs]; [done|]. cbn [readFlowFields foldPairs zip zip_with].
  rewrite index_middle, bind_ret by done. destruct (readFlowField s f v); try done.
  rewrite !bind_ret, (cons_middle v), app_assoc.
  replace (len pre + 1) with (len (pre ++ [v])) by len_lia. apply IH. by injection Hl.
Qed.

Lemma foldPairs_known l s :
  foldPairs (filter (fun fv => standard fv.1 knownFields = true) l) s = foldPairs l s.
Proof.
  revert s. induction l as [|[f v] l IH]; intros s; [done|]. rewrite filter_cons.
  destruct (decide _) as [E|E]; simpl in E; cbn [foldPairs].
  - destruct (readFlowField s f v); [apply IH | done..].
  - apply not_true_is_false in E. rewrite readFlowField_unknown, bind_ret by done. apply IH.
Qed.

(** Vendor and unknown fields do not matter: a record decodes to the same
    flow, or is refused, as the record with every enterprise-specific and
    every unrecognised field taken out of the template and its value out of
    the record. *)
Theorem unknown_fields_ignored t clock kind vals :
  row_wf t vals ->
  let kept := filter (fun fv => standard fv.1 knownFields = true) (zip (fields t) vals) in
  flowRecord t clock kind vals
  = flowRecord (t <| fields := map fst kept |>) clock kind (map snd kept).
Proof.
  intros Hrow kept. unfold flowRecord. cbn [fields set].
  change (fields (t <| fields := map fst kept |>)) with (map fst kept).
  rewrite <- (app_nil_l vals) at 1. rewrite <- (app_nil_l (map snd kept)).
  change 0 with (len (@nil bytes)) at 1 6. rewrite !readFlowFields_pairs.
  - replace (zip (map fst kept) (map snd kept)) with kept.
    + subst kept. by rewrite foldPairs_known.
    + induction kept as [|[f v] l IH]; [done|]. cbn [map zip zip_with]. by rewrite <- IH.
  - by rewrite !length_map.
  - done.
Qed.

Definition example_flow_template : template :=
  mkTemplate [mkField 305 4 0; mkField 1 8 0; mkField 23 4 9; mkField 23 4 0; mkField 8 4 0;
              mkField 12 4 0; mkField 999 2 0; mkField 2 4 0] 34 false 0 0.
Definition example_flow_row : list bytes :=
  [put_be 4 1000; put_be 8 1500; put_be 4 77; put_be 4 500; put_be 4 167772161;
   put_be 4 167772162; put_be 2 5; put_be 4 3].

Definition example_flow : Record := Eval vm_compute in
  match flowRecord example_flow_template zeroClock "netflow9" example_flow_row with
  | Ret (Some r) => r | _ => zeroRecord end.

Lemma flow_counters_witness :
  flowRecord example_flow_template zeroClock "netflow9" example_flow_row = Ret (Some example_flow) /\
  Bytes example_flow = 2000000 /\ Packets example_flow = 3000 /\ SamplingRate example_flow = 1000 /\
  Bytes example_flow = uint64 (fieldSum byteFields (fields example_flow_template) example_flow_row * 1000).
Proof.
  assert (flowRecord example_flow_template zeroClock "netflow9" example_flow_row
    = Ret (Some example_flow)) as E by (vm_compute; reflexivity).
  split; [exact E|]. do 3 (split; [vm_compute; reflexivity|]).
  destruct (flow_counters example_flow_template zeroClock "netflow9" example_flow_row
    example_flow eq_refl E) as [Hb _].
  rewrite Hb. vm_compute. reflexivity.
Defined.

Lemma unknown_fields_ignored_witness :
  let kept := filter (fun fv => standard fv.1 knownFields = true)
                (zip (fields example_flow_template) example_flow_row) in
  length kept = 6%nat /\
  flowRecord example_flow_template zeroClock "netflow9" example_flow_row
  = flowRecord (example_flow_template <| fields := map fst kept |>) zeroClock "netflow9" (map snd kept).
Proof.
  intros kept. split; [vm_compute; reflexivity|].
  exact (unknown_fields_ignored example_flow_template zeroClock "netflow9" example_flow_row eq_refl).
Defined.
