(* ===== verification/NetFlow9.v ===== *)
(** Package flow, file netflow9.go: template sets, the loop over the sets of
    a packet, sampling, and the NetFlow v9 decoder. *)
From Stdlib Require Import ZArith Lia.
From stdpp Require Import base list gmap strings numbers relations.
From S2P Require Import Prelude GoText Netip FlowTypes Templates Walker FlowData.

Definition netflowV9HeaderLen : Z := 20.
Definition fsIDTemplate : Z := 0.
Definition fsIDOptionsTemplate : Z := 1.
Definition fsIDMinData : Z := 256.
Definition flowsetHeaderLen : Z := 4.

(** ** Template sets *)

(** [for i := 0; i < count; i++]: the fields of one template, and the offset
    behind them. *)
Fixpoint parseFields (n : nat) (body : bytes) (off : Z) (t : template) : outcome (template * Z) :=
  match n with
  | O => Ret (t, off)
  | S n =>
      ty ← u16at body off;
      l ← u16at body (off + 2);
      parseFields n body (off + 4)
        (t <| fields := fields t ++ [mkField ty l 0] |> <| recordLen := recordLen t + l |>)
  end.

(** [&template{scopeFields: n}] *)
Definition newTemplate (scope : Z) : template := mkTemplate [] 0 false scope zeroTime.

Fixpoint parseTemplatesLoop (fuel : nat) (body : bytes) (from : Addr) (sourceID : Z)
    (tc : TemplateCache) (now : Time) (off : Z) : outcome TemplateCache :=
  match fuel with
  | O => OutOfFuel
  | S fuel =>
      if off + 4 <=? len body then
        id ← u16at body off;
        count ← u16at body (off + 2);
        let off := off + 4 in
        if (count <=? 0) || (len body <? off + count * 4) then Ret tc else
        '(t, off) ← parseFields (Z.to_nat count) body off (newTemplate 0);
        parseTemplatesLoop fuel body from sourceID
          (if recordLen t =? 0 then tc
           else put tc (mkTemplateKey from sourceID id 9) t now) now off
      else Ret tc
  end.

Definition parseTemplates (body : bytes) (from : Addr) (sourceID : Z) (tc : TemplateCache)
    (now : Time) : outcome TemplateCache :=
  parseTemplatesLoop (S (length body)) body from sourceID tc now 0.

(** [for end := ...; off+4 <= end; off += 4]; both lengths are multiples of
    four, so [n] fields are read. *)
Fixpoint parseOptionsTemplatesLoop (fuel : nat) (body : bytes) (from : Addr) (sourceID : Z)
    (tc : TemplateCache) (now : Time) (off : Z) : outcome TemplateCache :=
  match fuel with
  | O => OutOfFuel
  | S fuel =>
      if off + 6 <=? len body then
        id ← u16at body off;
        scopeBytes ← u16at body (off + 2);
        optionBytes ← u16at body (off + 4);
        let off := off + 6 in
        if negb (scopeBytes mod 4 =? 0) || negb (optionBytes mod 4 =? 0) ||
           (len body <? off + scopeBytes + optionBytes) then Ret tc else
        '(t, off) ← parseFields (Z.to_nat ((scopeBytes + optionBytes) / 4)) body off
                      (newTemplate (scopeBytes / 4));
        parseOptionsTemplatesLoop fuel body from sourceID
          (if (recordLen t =? 0) || (scopeFields t =? 0) then tc
           else put tc (mkTemplateKey from sourceID id 9) t now) now off
      else Ret tc
  end.

Definition parseOptionsTemplates (body : bytes) (from : Addr) (sourceID : Z)
    (tc : TemplateCache) (now : Time) : outcome TemplateCache :=
  parseOptionsTemplatesLoop (S (length body)) body from sourceID tc now 0.

(** ** Packets *)

(** What the loop over the sets of a packet carries. *)
Record setState : Type := mkSetState { ss_tc : TemplateCache; ss_recs : list Record; awaiting : Z }.

(** [case fsID >= fsIDMinData], the same in both decoders. *)
Definition dataSet (version id : Z) (kind : string) (body : bytes) (from : Addr) (sourceID : Z)
    (clock : exportClock) (now : Time) (st : setState) : outcome setState :=
  let '(o, tc) := get (ss_tc st) (mkTemplateKey from sourceID id version) now in
  match o with
  | None => Ret (mkSetState tc (ss_recs st) (awaiting st + 1))
  | Some t =>
      if isOptions t then
        tc ← readOptionsData body t from sourceID tc;
        Ret (mkSetState tc (ss_recs st) (awaiting st))
      else
        rs ← readFlowData body t clock kind;
        Ret (mkSetState tc (ss_recs st ++ rs) (awaiting st))
  end.

(** The switch of [DecodeNetFlowV9]. *)
Definition v9Set (fsID : Z) (body : bytes) (from : Addr) (sourceID : Z) (clock : exportClock)
    (now : Time) (st : setState) : outcome setState :=
  if fsID =? fsIDTemplate then
    tc ← parseTemplates body from sourceID (ss_tc st) now;
    Ret (mkSetState tc (ss_recs st) (awaiting st))
  else if fsID =? fsIDOptionsTemplate then
    tc ← parseOptionsTemplates body from sourceID (ss_tc st) now;
    Ret (mkSetState tc (ss_recs st) (awaiting st))
  else if fsIDMinData <=? fsID then
    dataSet 9 fsID "netflow9" body from sourceID clock now st
  else Ret st.

(** The loop over sets, shared by v9 and IPFIX: [what] and the set handler
    differ. The error is the one for a length that does not fit. *)
Fixpoint setLoop (handle : Z -> bytes -> setState -> outcome setState) (what : string)
    (fuel : nat) (b : bytes) (off : Z) (st : setState) : outcome (setState * option error) :=
  match fuel with
  | O => OutOfFuel
  | S fuel =>
      if off + flowsetHeaderLen <=? len b then
        fsID ← u16at b off;
        fsLen ← u16at b (off + 2);
        if (fsLen <? flowsetHeaderLen) || (len b <? off + fsLen) then
          Ret (st, Some (Errorf ("flow: " +:+ what +:+ " length " +:+ Itoa fsLen +:+
                                 " at offset " +:+ Itoa off +:+ " does not fit")))
        else
        body ← slice b (off + flowsetHeaderLen) (off + fsLen);
        st ← handle fsID body st;
        setLoop handle what fuel b (off + fsLen) st
      else Ret (st, None)
  end.

Definition applySampling1 (iv : Z) (r : Record) : Record :=
  if 1 <? SamplingRate r then r
  else if 1 <? iv then
    r <| Bytes := uint64 (Bytes r * iv) |> <| Packets := uint64 (Packets r * iv) |>
      <| Sampled := true |> <| SamplingRate := iv |>
  else r <| SamplingRate := 1 |>.

Definition applySampling (p : Packet) (iv : Z) : Packet :=
  p <| Records := map (applySampling1 iv) (Records p) |>.

(** The packet, the number of sets awaiting a template, the error, and the
    cache as the packet leaves it. *)
Definition DecodeNetFlowV9 (b : bytes) (from : Addr) (tc : TemplateCache) (now : Time)
    : outcome (option Packet * Z * option error * TemplateCache) :=
  if len b <? netflowV9HeaderLen then
    Ret (None, 0, Some (ErrShortPacket netflowV9HeaderLen (len b)), tc)
  else
  v ← u16at b 0;
  if negb (v =? 9) then
    Ret (None, 0, Some (Errorf ("flow: not a NetFlow v9 packet (version " +:+ Itoa v +:+ ")")), tc)
  else
  sourceID ← u32at b 16;
  up ← u32at b 4;
  secs ← u32at b 8;
  let clock := mkClock up (time_Unix secs 0) in
  '(st, e) ← setLoop (fun fsID body st => v9Set fsID body from sourceID clock now st)
               "v9 flowset" (S (length b)) b netflowV9HeaderLen (mkSetState tc [] 0);
  let p := mkPacket from (ss_recs st) in
  match e with
  | Some e => Ret (Some p, awaiting st, Some e, ss_tc st)
  | None => Ret (Some (applySampling p (getSampling (ss_tc st) (mkSamplingKey from sourceID))),
                 awaiting st, None, ss_tc st)
  end.

(** * Totality *)

Lemma parseFields_total n body off t :
  0 <= off -> off + 4 * Z.of_nat n <= len body ->
  wp (parseFields n body off t) (fun '(t', off') =>
    off' = off + 4 * Z.of_nat n /\ hasVarLen t' = hasVarLen t /\ scopeFields t' = scopeFields t /\
    exists fs, fields t' = fields t ++ fs /\ length fs = n /\ Forall field_wf fs /\
      recordLen t' = recordLen t + sumZ (map fieldLength fs)).
Proof.
  revert off t. induction n as [|n IH]; intros off t H0 Hl; cbn [parseFields].
  { simpl. split; [lia|]. do 2 (split; [done|]). exists []. rewrite app_nil_r.
    simpl. repeat split; [constructor | lia]. }
  apply wp_bind, wp_u16at; [lia..|]. intros ty _ Hty.
  apply wp_bind, wp_u16at; [lia..|]. intros l _ Hlen.
  eapply wp_mono; [apply IH; lia|]. intros [t' off'] (-> & Hv & Hs & fs & Hfs & Hn & Hwf & Hrl).
  simpl in *. split; [lia|]. do 2 (split; [done|]).
  exists (mkField ty l 0 :: fs). rewrite Hfs, <- app_assoc. simpl. repeat split; [lia | | lia].
  by constructor.
Qed.

(** A template built from [newTemplate] by reading fields is well formed
    unless it describes nothing. *)
Lemma parseFields_wf n body off scope :
  0 <= off -> off + 4 * Z.of_nat n <= len body ->
  wp (parseFields n body off (newTemplate scope)) (fun '(t, off') =>
    off' = off + 4 * Z.of_nat n /\ (recordLen t <> 0 -> template_wf t)).
Proof.
  intros H0 Hl. eapply wp_mono; [by apply parseFields_total|].
  intros [t off'] (-> & Hv & _ & fs & Hfs & _ & Hwf & Hrl). simpl in *.
  split; [done|]. intros Hne. split; [by rewrite Hfs|]. rewrite Hv, Hfs.
  pose proof (sum_lengths_nonneg fs Hwf). lia.
Qed.

Lemma put_step tc k t now (b : bool) :
  (b = false -> template_wf t) -> rtc cache_step tc (if b then tc else put tc k t now).
Proof. intros Hwf. destruct b; [done|]. apply rtc_once, step_put. by apply Hwf. Qed.

Lemma parseTemplatesLoop_total fuel body from sid tc now off :
  0 <= off -> off <= len body -> len body - off < Z.of_nat fuel ->
  wp (parseTemplatesLoop fuel body from sid tc now off) (rtc cache_step tc).
Proof.
  revert tc off. induction fuel as [|fuel IH]; intros tc off H0 Hl Hf; [lia|].
  cbn [parseTemplatesLoop]. destruct (Z.leb_spec (off + 4) (len body)); [|apply rtc_refl].
  apply wp_bind, wp_u16at; [lia..|]. intros i _ Hi.
  apply wp_bind, wp_u16at; [lia..|]. intros c _ Hc.
  destruct (Z.leb_spec c 0); [apply rtc_refl|]. cbn [orb].
  destruct (Z.ltb_spec (len body) (off + 4 + c * 4)); [apply rtc_refl|].
  apply wp_bind. eapply wp_mono; [apply parseFields_wf; lia|].
  intros [t off'] [-> Hwf]. eapply wp_mono; [apply IH; lia|].
  intros tc' Hr. etrans; [|exact Hr]. apply put_step. intros E%Z.eqb_neq. by apply Hwf.
Qed.

Lemma parseTemplates_total body from sid tc now :
  wp (parseTemplates body from sid tc now) (rtc cache_step tc).
Proof. apply parseTemplatesLoop_total; unfold len; lia. Qed.

Lemma parseOptionsTemplatesLoop_total fuel body from sid tc now off :
  0 <= off -> off <= len body -> len body - off < Z.of_nat fuel ->
  wp (parseOptionsTemplatesLoop fuel body from sid tc now off) (rtc cache_step tc).
Proof.
  revert tc off. induction fuel as [|fuel IH]; intros tc off H0 Hl Hf; [lia|].
  cbn [parseOptionsTemplatesLoop]. destruct (Z.leb_spec (off + 6) (len body)); [|apply rtc_refl].
  apply wp_bind, wp_u16at; [lia..|]. intros i _ Hi.
  apply wp_bind, wp_u16at; [lia..|]. intros sb _ Hsb.
  apply wp_bind, wp_u16at; [lia..|]. intros ob _ Hob. unfold is_u16 in *.
  destruct (negb (sb mod 4 =? 0) || negb (ob mod 4 =? 0)); [apply rtc_refl|]. cbn [orb].
  destruct (Z.ltb_spec (len body) (off + 6 + sb + ob)); [apply rtc_refl|].
  pose proof (Z.mul_div_le (sb + ob) 4). pose proof (Z.div_pos (sb + ob) 4).
  apply wp_bind. eapply wp_mono; [apply parseFields_wf; lia|].
  intros [t off'] [-> Hwf]. eapply wp_mono; [apply IH; lia|].
  intros tc' Hr. etrans; [|exact Hr]. apply put_step.
  intros [E%Z.eqb_neq _]%orb_false_iff. by apply Hwf.
Qed.

Lemma parseOptionsTemplates_total body from sid tc now :
  wp (parseOptionsTemplates body from sid tc now) (rtc cache_step tc).
Proof. apply parseOptionsTemplatesLoop_total; unfold len; lia. Qed.

(** The invariant of the loop over sets. *)
Definition set_inv (tc0 : TemplateCache) (st : setState) : Prop :=
  rtc cache_step tc0 (ss_tc st) /\ cache_wf (ss_tc st) /\ Forall flow_ok (ss_recs st) /\
  0 <= awaiting st.

Lemma cache_step_wf tc tc' : cache_step tc tc' -> cache_wf tc -> cache_wf tc'.
Proof.
  intros [] ?; [apply put_wf | apply get_wf | apply putSampling_wf]; assumption.
Qed.

Lemma cache_steps_wf tc tc' : rtc cache_step tc tc' -> cache_wf tc -> cache_wf tc'.
Proof. induction 1; eauto using cache_step_wf. Qed.

Lemma set_inv_tc tc0 st tc' :
  set_inv tc0 st -> rtc cache_step (ss_tc st) tc' ->
  set_inv tc0 (mkSetState tc' (ss_recs st) (awaiting st)).
Proof.
  intros (Hr & Hw & Hf & Ha) Hs. split; [by etrans|].
  split; [by eapply cache_steps_wf|]. done.
Qed.

Lemma dataSet_inv tc0 ver i kind body from sid clock now st :
  set_inv tc0 st -> wp (dataSet ver i kind body from sid clock now st) (set_inv tc0).
Proof.
  intros Hst. unfold dataSet. set (k := mkTemplateKey from sid i ver).
  pose proof Hst as (Hr & Hw & Hf & Ha).
  destruct (get_wf (ss_tc st) k now Hw) as [Hw' Ht].
  pose proof (step_get (ss_tc st) k now) as Hstep.
  destruct (get (ss_tc st) k now) as [[t|] tc]; simpl in *.
  - specialize (Ht t eq_refl). assert (rtc cache_step tc0 tc) by (by eapply rtc_r).
    destruct (isOptions t); apply wp_bind.
    + eapply wp_mono; [by apply readOptionsData_total|]. intros tc' Hs. simpl.
      split; [by etrans|]. split; [by eapply cache_steps_wf|]. done.
    + eapply wp_mono; [by apply readFlowData_total|]. intros rs Hrs. simpl.
      split; [done|]. split; [done|]. split; [by apply Forall_app|done].
  - split; [by eapply rtc_r|]. split; [done|]. split; [done|]. simpl. lia.
Qed.

Lemma v9Set_inv tc0 i body from sid clock now st :
  set_inv tc0 st -> wp (v9Set i body from sid clock now st) (set_inv tc0).
Proof.
  intros Hst. unfold v9Set. repeat case_match; try done; try (by apply dataSet_inv).
  - apply wp_bind. eapply wp_mono; [apply parseTemplates_total|]. intros tc' Hs.
    by apply set_inv_tc.
  - apply wp_bind. eapply wp_mono; [apply parseOptionsTemplates_total|]. intros tc' Hs.
    by apply set_inv_tc.
Qed.

Lemma setLoop_inv (I : setState -> Prop) handle what fuel b off st :
  (forall i body st, I st -> wp (handle i body st) I) ->
  0 <= off -> off <= len b -> len b - off < Z.of_nat fuel -> I st ->
  wp (setLoop handle what fuel b off st) (fun '(st', _) => I st').
Proof.
  intros Hh. revert off st. induction fuel as [|fuel IH]; intros off st H0 Hl Hf Hst; [lia|].
  cbn [setLoop]. unfold flowsetHeaderLen.
  destruct (Z.leb_spec (off + 4) (len b)); [|done].
  apply wp_bind, wp_u16at; [lia..|]. intros i _ Hi.
  apply wp_bind, wp_u16at; [lia..|]. intros l _ Hlen.
  destruct (Z.ltb_spec l 4); [done|]. cbn [orb].
  destruct (Z.ltb_spec (len b) (off + l)); [done|].
  apply wp_bind, wp_slice; [lia..|]. intros body _ _.
  apply wp_bind. eapply wp_mono; [by apply Hh|]. intros st' Hst'.
  apply IH; [lia..|done].
Qed.

(** What both template-based decoders promise about any datagram: an error
    without a packet, or a packet from the sender, of well-formed records
    with both addresses. Without an error every record also states its
    sampling rate. The cache only ever takes cache steps. *)
Definition decode_post (from : Addr) (tc : TemplateCache)
    (res : option Packet * Z * option error * TemplateCache) : Prop :=
  let '(p, aw, e, tc') := res in
  rtc cache_step tc tc' /\ cache_wf tc' /\ 0 <= aw /\
  match p with
  | None => e <> None /\ tc' = tc
  | Some pk => ExporterIP pk = from /\ Forall flow_ok (Records pk) /\
      (e = None -> Forall (fun r => 1 <= SamplingRate r) (Records pk))
  end.

Lemma applySampling1_ok iv r : is_u32 iv -> flow_ok r ->
  flow_ok (applySampling1 iv r) /\ 1 <= SamplingRate (applySampling1 iv r).
Proof.
  intros Hiv (Hwf & Hs & Hd). unfold applySampling1.
  destruct (Z.ltb_spec 1 (SamplingRate r)); [split; [done|lia]|].
  destruct (Z.ltb_spec 1 iv); (split; [|simpl; lia]); (split; [|done]); destruct Hwf.
  - record_wf.
  - constructor; simpl; try assumption. done.
Qed.

(** The end of both decoders. *)
Lemma decode_finish from sid tc (r : setState * option error) :
  set_inv tc (fst r) ->
  wp (let '(st, e) := r in
      let p := mkPacket from (ss_recs st) in
      match e with
      | Some e => Ret (Some p, awaiting st, Some e, ss_tc st)
      | None => Ret (Some (applySampling p (getSampling (ss_tc st) (mkSamplingKey from sid))),
                     awaiting st, None, ss_tc st)
      end) (decode_post from tc).
Proof.
  destruct r as [st e]. simpl. intros (Hr & Hw & Hf & Ha).
  destruct e as [e|]; simpl; (split; [done|]; split; [done|]; split; [done|]; split; [done|]);
    [done|].
  pose proof (getSampling_wf (ss_tc st) (mkSamplingKey from sid) Hw) as Hiv.
  split; [|intros _]; apply Forall_fmap; (eapply Forall_impl; [exact Hf|]);
    intros r Hok; by apply applySampling1_ok.
Qed.

Lemma decode_refuse from tc e : cache_wf tc -> decode_post from tc (None, 0, Some e, tc).
Proof. intros Hw. split; [apply rtc_refl|]. split; [done|]. split; [lia|]. by split. Qed.

Lemma set_inv_init tc : cache_wf tc -> set_inv tc (mkSetState tc [] 0).
Proof. intros. split; [apply rtc_refl|]. split; [done|]. split; [constructor|done]. Qed.

Lemma DecodeNetFlowV9_wp b from tc now :
  cache_wf tc -> wp (DecodeNetFlowV9 b from tc now) (decode_post from tc).
Proof.
  intros Hw. unfold DecodeNetFlowV9, netflowV9HeaderLen.
  destruct (Z.ltb_spec (len b) 20); [by apply decode_refuse|].
  apply wp_bind, wp_u16at; [lia..|]. intros v _ _. destruct (negb _); [by apply decode_refuse|].
  apply wp_bind, wp_u32at; [lia..|]. intros sid _ _.
  apply wp_bind, wp_u32at; [lia..|]. intros up _ _.
  apply wp_bind, wp_u32at; [lia..|]. intros secs _ _.
  apply wp_bind. eapply wp_mono.
  - apply (setLoop_inv (set_inv tc)); [|lia|lia|unfold len; lia|by apply set_inv_init].
    intros. by apply v9Set_inv.
  - intros [st e] Hst. by apply (decode_finish from sid tc (st, e)).
Qed.

(** C1. The v9 decoder is total: on every datagram, from every sender, at
    every time and with every cache a collector can have, it returns. It
    never reads out of range, never divides the walk by a zero-width record,
    never loops; the cache stays well formed and takes only cache steps, so
    its bound holds across any sequence of datagrams; and every record it
    returns is well formed and has both addresses. *)
Theorem DecodeNetFlowV9_total b from tc now :
  cache_wf tc -> wp (DecodeNetFlowV9 b from tc now) (decode_post from tc).
Proof. apply DecodeNetFlowV9_wp. Qed.

(** * Round trip *)

(** ** Sets *)

Definition set_enc (s : Z * bytes) : bytes :=
  put_be 2 (fst s) ++ put_be 2 (len (snd s) + flowsetHeaderLen) ++ snd s.

Definition set_wf (s : Z * bytes) : Prop := is_u16 (fst s) /\ is_u16 (len (snd s) + flowsetHeaderLen).

Fixpoint foldSets (handle : Z -> bytes -> setState -> outcome setState) (sets : list (Z * bytes))
    (st : setState) : outcome setState :=
  match sets with
  | [] => Ret st
  | (i, body) :: sets => st ← handle i body st; foldSets handle sets st
  end.

Lemma len_set_enc s : len (set_enc s) = len (snd s) + 4.
Proof. unfold set_enc. rewrite !len_app, !len_put_be. lia. Qed.

(** Reading a 16-bit word that was written at [off]. *)
Lemma u16at_put pre z post off :
  off = len pre -> is_u16 z -> u16at (pre ++ put_be 2 z ++ post) off = Ret z.
Proof.
  intros -> Hz. rewrite u16at_ret by len_lia.
  rewrite sub_app_exact by (rewrite ?len_put_be; done). by rewrite be_put_u16.
Qed.

Lemma setLoop_enc handle what sets tail pre fuel st :
  Forall set_wf sets -> len tail < 4 ->
  len (concat (map set_enc sets)) + len tail < Z.of_nat fuel ->
  setLoop handle what fuel (pre ++ concat (map set_enc sets) ++ tail) (len pre) st
  = st' ← foldSets handle sets st; Ret (st', None).
Proof.
  intros Hsets Htail. revert pre fuel st.
  induction Hsets as [|[i body] sets [Hi Hl] _ IH]; intros pre [|fuel] st Hfuel;
    try (exfalso; len_lia); cbn [setLoop foldSets]; unfold flowsetHeaderLen in *.
  - cbn [map concat]. rewrite (proj2 (Z.leb_gt _ _)) by len_lia. done.
  - cbn [map concat fst snd] in *. rewrite len_app, len_set_enc in Hfuel. cbn [snd] in Hfuel.
    rewrite <- app_assoc. set (rest := concat (map set_enc sets) ++ tail).
    set (buf := pre ++ set_enc (i, body) ++ rest).
    assert (len buf = len pre + (len body + 4) + len rest) as Hlen.
    { subst buf. rewrite !len_app, len_set_enc. simpl. lia. }
    pose proof (len_nonneg rest). pose proof (len_nonneg body). pose proof (len_nonneg pre).
    assert (u16at buf (len pre) = Ret i) as E1.
    { subst buf. unfold set_enc. rewrite <- app_assoc. by apply u16at_put. }
    assert (u16at buf (len pre + 2) = Ret (len body + 4)) as E2.
    { subst buf. unfold set_enc. rewrite <- !app_assoc, (app_assoc pre).
      apply u16at_put; [|done]. by rewrite len_app, len_put_be. }
    assert (slice buf (len pre + 4) (len pre + (len body + 4)) = Ret body) as E3.
    { rewrite slice_ret by lia. f_equal. subst buf. unfold set_enc.
      rewrite <- !app_assoc, (app_assoc pre), (app_assoc (pre ++ _)).
      apply sub_app_exact; [|lia]. rewrite !len_app, !len_put_be. simpl. lia. }
    rewrite Hlen, (proj2 (Z.leb_le _ _)) by lia. rewrite E1, bind_ret, E2, bind_ret.
    rewrite (proj2 (Z.ltb_ge _ 4)), (proj2 (Z.ltb_ge _ (len pre + _))) by lia. cbn [orb].
    rewrite E3, bind_ret. destruct (handle i body st) as [st'| |]; try done. rewrite !bind_ret.
    replace (len pre + (len body + 4)) with (len (pre ++ set_enc (i, body)))
      by (rewrite len_app, len_set_enc; simpl; lia).
    subst buf. rewrite (app_assoc pre). apply IH. subst rest. len_lia.
Qed.

(** ** Template sets *)

Definition field_enc (f : templateField) : bytes := put_be 2 (typ f) ++ put_be 2 (fieldLength f).
Definition template_enc (t : Z * list templateField) : bytes :=
  put_be 2 (fst t) ++ put_be 2 (len (snd t)) ++ concat (map field_enc (snd t)).

(** The template a definition on the wire stands for. *)
Definition v9Template (fs : list templateField) : template :=
  mkTemplate fs (sumZ (map fieldLength fs)) false 0 zeroTime.

Definition tmpl_wf (t : Z * list templateField) : Prop :=
  is_u16 (fst t) /\ 1 <= len (snd t) < 2 ^ 16 /\
  Forall (fun f => field_wf f /\ enterprise f = 0) (snd t).

(** What a template set does to the cache. *)
Definition learn (from : Addr) (sid : Z) (now : Time) (tc : TemplateCache)
    (t : Z * list templateField) : TemplateCache :=
  if sumZ (map fieldLength (snd t)) =? 0 then tc
  else put tc (mkTemplateKey from sid (fst t) 9) (v9Template (snd t)) now.

Lemma len_fields_enc fs : len (concat (map field_enc fs)) = 4 * len fs.
Proof.
  induction fs as [|f fs IH]; [done|]. cbn [map concat]. rewrite len_app, len_cons, IH.
  unfold field_enc. rewrite len_app, !len_put_be. lia.
Qed.

Lemma parseFields_enc fs pre post t :
  Forall (fun f => field_wf f /\ enterprise f = 0) fs ->
  parseFields (length fs) (pre ++ concat (map field_enc fs) ++ post) (len pre) t
  = Ret (mkTemplate (fields t ++ fs) (recordLen t + sumZ (map fieldLength fs)) (hasVarLen t)
           (scopeFields t) (seen t), len pre + 4 * len fs).
Proof.
  intros Hfs. revert pre t. induction Hfs as [|f fs [[Ht Hl] He] _ IH]; intros pre t.
  { cbn [length parseFields map sumZ foldr]. rewrite app_nil_r, !Z.add_0_r. by destruct t. }
  cbn [length parseFields map concat].
  assert (pre ++ (field_enc f ++ concat (map field_enc fs)) ++ post = pre ++ put_be 2 (typ f) ++
    put_be 2 (fieldLength f) ++ concat (map field_enc fs) ++ post) as ->.
  { unfold field_enc at 1. by rewrite <- !app_assoc. }
  rewrite (u16at_put pre _ _ (len pre)), bind_ret by done. rewrite (app_assoc pre).
  rewrite u16at_put, bind_ret by (rewrite ?len_app, ?len_put_be; done).
  rewrite app_assoc. set (pre' := (pre ++ _) ++ _).
  replace (len pre + 4) with (len pre') by (subst pre'; rewrite !len_app, !len_put_be; lia).
  rewrite IH. cbn [fields set recordLen hasVarLen scopeFields seen eta_template].
  do 2 f_equal.
  - simpl. rewrite <- app_assoc, <- Z.add_assoc. destruct f. simpl in He. by subst.
  - subst pre'. rewrite !len_app, !len_put_be, len_cons. lia.
Qed.

Lemma parseTemplatesLoop_enc ts pad pre fuel from sid tc now :
  Forall tmpl_wf ts -> len pad < 4 ->
  len (concat (map template_enc ts)) + len pad < Z.of_nat fuel ->
  parseTemplatesLoop fuel (pre ++ concat (map template_enc ts) ++ pad) from sid tc now (len pre)
  = Ret (foldl (learn from sid now) tc ts).
Proof.
  intros Hts Hpad. revert pre fuel tc.
  induction Hts as [|[i fs] ts (Hi & Hn & Hfs) _ IH]; intros pre [|fuel] tc Hfuel;
    try (exfalso; len_lia); cbn [parseTemplatesLoop].
  - cbn [map concat]. rewrite (proj2 (Z.leb_gt _ _)) by len_lia. done.
  - cbn [map concat foldl fst snd] in *. unfold template_enc at 1 in Hfuel. cbn [fst snd] in Hfuel.
    rewrite !len_app, !len_put_be, len_fields_enc in Hfuel. rewrite <- app_assoc.
    set (rest := concat (map template_enc ts) ++ pad).
    assert (pre ++ template_enc (i, fs) ++ rest =
      pre ++ put_be 2 i ++ put_be 2 (len fs) ++ concat (map field_enc fs) ++ rest) as ->.
    { unfold template_enc. cbn [fst snd]. by rewrite <- !app_assoc. }
    pose proof (len_nonneg rest).
    rewrite !len_app, !len_put_be, len_fields_enc.
    rewrite (proj2 (Z.leb_le _ _)) by lia.
    rewrite (u16at_put pre _ _ (len pre)), bind_ret by done.
    rewrite (app_assoc pre), u16at_put, bind_ret
      by (rewrite ?len_app, ?len_put_be; unfold is_u16; done || lia).
    rewrite (proj2 (Z.leb_gt _ _)), (proj2 (Z.ltb_ge _ _)) by lia. cbn [orb].
    rewrite (app_assoc (pre ++ _)). set (pre' := (pre ++ _) ++ _).
    replace (len pre + 4) with (len pre') by (subst pre'; rewrite !len_app, !len_put_be; lia).
    unfold len at 1. rewrite Nat2Z.id, parseFields_enc, bind_ret by done. simpl.
    rewrite Z.add_0_l. rewrite app_assoc. subst rest.
    replace (len pre' + 4 * len fs) with (len (pre' ++ concat (map field_enc fs)))
      by (by rewrite len_app, len_fields_enc).
    rewrite IH by len_lia. done.
Qed.

Lemma parseTemplates_enc ts pad from sid tc now :
  Forall tmpl_wf ts -> len pad < 4 ->
  parseTemplates (concat (map template_enc ts) ++ pad) from sid tc now
  = Ret (foldl (learn from sid now) tc ts).
Proof.
  intros Hts Hpad. apply (parseTemplatesLoop_enc ts pad []); [done..|].
  rewrite <- len_app. unfold len. lia.
Qed.

(** ** Packets *)

Record v9header : Type := mkV9header {
  v9_count : Z; v9_uptime : Z; v9_secs : Z; v9_seq : Z; v9_source : Z
}.
Definition v9header_wf (h : v9header) : Prop :=
  is_u32 (v9_uptime h) /\ is_u32 (v9_secs h) /\ is_u32 (v9_source h).
Definition v9header_enc (h : v9header) : bytes :=
  put_be 2 9 ++ put_be 2 (v9_count h) ++ put_be 4 (v9_uptime h) ++ put_be 4 (v9_secs h) ++
  put_be 4 (v9_seq h) ++ put_be 4 (v9_source h).
Definition v9clock (h : v9header) : exportClock := mkClock (v9_uptime h) (v9_secs h * Second).

(** Framing: a v9 packet that is a header, a sequence of sets of any
    kind and at most three stray bytes decodes by handling those sets, in
    order, each with exactly its own body, and applying the sampling rate the
    cache holds once they are all handled. *)
Theorem v9_framing h sets tail from tc now :
  v9header_wf h -> Forall set_wf sets -> len tail < 4 ->
  DecodeNetFlowV9 (v9header_enc h ++ concat (map set_enc sets) ++ tail) from tc now
  = st ← foldSets (fun i body st => v9Set i body from (v9_source h) (v9clock h) now st) sets
           (mkSetState tc [] 0);
    Ret (Some (applySampling (mkPacket from (ss_recs st))
                (getSampling (ss_tc st) (mkSamplingKey from (v9_source h)))),
         awaiting st, None, ss_tc st).
Proof.
  intros (Hu & Hs & Hi) Hsets Htail. unfold DecodeNetFlowV9, netflowV9HeaderLen.
  pose proof (setLoop_enc
    (fun i body st => v9Set i body from (v9_source h) (v9clock h) now st) "v9 flowset" sets tail
    (v9header_enc h) (S (length (v9header_enc h ++ concat (map set_enc sets) ++ tail)))
    (mkSetState tc [] 0) Hsets Htail) as Hloop.
  set (b := v9header_enc h ++ _) in *.
  assert (len b = 20 + len (concat (map set_enc sets)) + len tail) as Hlen.
  { subst b. rewrite !len_app. change (len (v9header_enc h)) with 20. lia. }
  pose proof (len_nonneg (concat (map set_enc sets))). pose proof (len_nonneg tail).
  rewrite (proj2 (Z.ltb_ge _ _)) by lia. rewrite u16at_ret, !u32at_ret by lia.
  change (sub b 0 (0 + 2)) with (put_be 2 9). change (sub b 16 (16 + 4)) with (put_be 4 (v9_source h)).
  change (sub b 4 (4 + 4)) with (put_be 4 (v9_uptime h)).
  change (sub b 8 (8 + 4)) with (put_be 4 (v9_secs h)).
  rewrite !be_put_u32 by done. change (be (put_be 2 9)) with 9. rewrite bind_ret.
  change (negb (9 =? 9)) with false. cbv iota. rewrite !bind_ret.
  unfold time_Unix. rewrite Z.add_0_r. fold (v9clock h).
  change 20 with (len (v9header_enc h)) at 1.
  rewrite Hloop by (rewrite Nat2Z.inj_succ; fold (len b); lia).
  by destruct (foldSets _ _ _).
Qed.

Lemma put_get tc k t now :
  is_Some (templates tc !! k) \/ live_count tc now < max tc ->
  get (put tc k t now) k now = (Some (t <| seen := now |>), put tc k t now).
Proof.
  intros Hroom. pose proof (put_spec tc k t now) as [Hk _].
  rewrite decide_True in Hk by done. unfold get. rewrite Hk.
  assert (expired (put tc k t now) now (t <| seen := now |>) = false) as ->; [|done].
  unfold expired, time_Sub. simpl. rewrite Z.sub_diag. change (Z.max _ _) with 0. apply Z.ltb_ge.
  unfold ttl. destruct (Z.ltb_spec 0 (TTL (put tc k t now))); [lia | vm_compute; discriminate].
Qed.

Lemma row_enc_wf hv fs vs b : row_enc hv fs vs b -> length vs = length fs.
Proof. induction 1; simpl; lia. Qed.

(** A data set decodes to what its rows stand for, one by one. *)
Lemma readFlowData_enc t clock kind rows b pad :
  template_wf t -> rows_enc t rows b -> len pad < minRecord t ->
  exists os, Forall2 (fun vals o => flowRecord t clock kind vals = Ret o) rows os /\
    readFlowData (b ++ pad) t clock kind = Ret (omap (fun o => o) os).
Proof.
  intros Hwf Hrows Hpad. unfold readFlowData. rewrite (eachRecord_roundtrip _ t rows) by done.
  clear Hpad. cut (exists os, Forall2 (fun vals o => flowRecord t clock kind vals = Ret o) rows os /\
    forall acc, foldRows (fun vals out => o ← flowRecord t clock kind vals;
      Ret (match o with Some r => out ++ [r] | None => out end)) rows acc
      = Ret (acc ++ omap (fun o => o) os)).
  { intros (os & Hos & Hf). exists os. split; [done|]. apply Hf. }
  induction Hrows as [|vs rows b bs Hrow _ (os & Hos & IH)].
  { exists []. split; [constructor|]. intros acc. simpl. by rewrite app_nil_r. }
  assert (row_wf t vs) as Hvs by (by eapply row_enc_wf).
  destruct (wp_inv _ _ (flowRecord_total t clock kind vs Hvs)) as (o & Eo & _).
  exists (o :: os). split; [by constructor|]. intros acc. cbn [foldRows].
  rewrite Eo, !bind_ret, IH. destruct o; simpl; [by rewrite <- app_assoc | done].
Qed.

Lemma v9Set_template body from sid clock now st :
  v9Set fsIDTemplate body from sid clock now st
  = tc ← parseTemplates body from sid (ss_tc st) now;
    Ret (mkSetState tc (ss_recs st) (awaiting st)).
Proof. done. Qed.

Lemma v9Set_data i body from sid clock now st :
  256 <= i -> v9Set i body from sid clock now st = dataSet 9 i "netflow9" body from sid clock now st.
Proof.
  intros. unfold v9Set, fsIDTemplate, fsIDOptionsTemplate, fsIDMinData.
  by rewrite (proj2 (Z.eqb_neq i 0)), (proj2 (Z.eqb_neq i 1)), (proj2 (Z.leb_le 256 i)) by lia.
Qed.

(** C15. End to end: a packet in which an exporter announces a template and
    then sends records laid out by it, with whatever padding the format
    allows, decodes, with no error and nothing awaited, to the flow of each
    row in order, scaled by the sampling rate known for that exporter; and
    the template is in the cache for the packets that follow. *)
Theorem v9_end_to_end h id fs rows body pad1 pad2 from tc now :
  v9header_wf h -> 256 <= id -> tmpl_wf (id, fs) -> sumZ (map fieldLength fs) <> 0 ->
  let key := mkTemplateKey from (v9_source h) id 9 in
  let t := (v9Template fs) <| seen := now |> in
  is_Some (templates tc !! key) \/ live_count tc now < max tc ->
  rows_enc t rows body -> len pad1 < 4 -> len pad2 < minRecord t ->
  let sets := [(fsIDTemplate, template_enc (id, fs) ++ pad1); (id, body ++ pad2)] in
  Forall set_wf sets ->
  exists os, Forall2 (fun vals o => flowRecord t (v9clock h) "netflow9" vals = Ret o) rows os /\
    DecodeNetFlowV9 (v9header_enc h ++ concat (map set_enc sets)) from tc now
    = Ret (Some (mkPacket from (map (applySampling1 (getSampling tc (mkSamplingKey from (v9_source h))))
                                  (omap (fun o => o) os))),
           0, None, put tc key (v9Template fs) now).
Proof.
  intros Hh Hid Htw Hsum key t Hroom Hrows Hp1 Hp2 sets Hsets.
  assert (template_wf t) as Hwf.
  { destruct Htw as (_ & _ & Hfs). simpl in Hfs.
    assert (Forall field_wf fs) as Hff by (eapply Forall_impl; [exact Hfs | by intros f [? _]]).
    split; [done|]. simpl. pose proof (sum_lengths_nonneg fs Hff). split; [done | lia]. }
  destruct (readFlowData_enc t (v9clock h) "netflow9" rows body pad2 Hwf Hrows Hp2) as (os & Hos & Er).
  exists os. split; [done|].
  rewrite <- (app_nil_r (concat _)), v9_framing by done. subst sets.
  cbn [foldSets]. rewrite v9Set_template.
  pose proof (parseTemplates_enc [(id, fs)] pad1 from (v9_source h) tc now) as Ep.
  cbn [map concat] in Ep. rewrite app_nil_r in Ep. cbn [ss_tc].
  rewrite Ep by (done || by constructor). rewrite !bind_ret.
  cbn [foldl]. unfold learn. cbn [fst snd]. rewrite (proj2 (Z.eqb_neq _ _)) by done.
  rewrite v9Set_data by done. unfold dataSet. fold key. cbn [ss_tc]. rewrite put_get by done. fold t.
  change (isOptions t) with false. cbv iota. rewrite Er, !bind_ret. cbn [ss_tc ss_recs awaiting].
  do 3 f_equal. f_equal. unfold applySampling. simpl. f_equal.
  f_equal. f_equal. unfold getSampling. f_equal.
  unfold put. by repeat case_match.
Qed.

(** Sampling is applied exactly once: after the packet's sampling step,
    the counters of a record are the sums of its standard fields times the
    rate the record states, and that rate is the record's own when it carries
    one above one, else the exporter's announced interval when that is above
    one, else one. *)
Theorem sampling_once t clock kind vals r iv :
  row_wf t vals -> is_u32 iv -> flowRecord t clock kind vals = Ret (Some r) ->
  let own := inlineRate (fields t) vals in
  let r' := applySampling1 iv r in
  SamplingRate r' = (if decide (1 < own < 2 ^ 32) then own else if decide (1 < iv) then iv else 1) /\
  Bytes r' = uint64 (fieldSum byteFields (fields t) vals * SamplingRate r') /\
  Packets r' = uint64 (fieldSum packetFields (fields t) vals * SamplingRate r') /\
  Sampled r' = (1 <? SamplingRate r').
Proof.
  intros Hrow Hiv E own r'. destruct (flow_counters _ _ _ _ _ Hrow E) as (Hb & Hp & Hs & Hr).
  fold own in Hb, Hp, Hs, Hr. subst r'. unfold applySampling1.
  destruct (decide (1 < own < 2 ^ 32)) as [Ho|Ho].
  - rewrite bool_decide_true in * by done. rewrite Hr.
    rewrite (proj2 (Z.ltb_lt 1 own)) by lia. rewrite Hr, Hb, Hp, Hs.
    by rewrite (proj2 (Z.ltb_lt 1 own)) by lia.
  - rewrite bool_decide_false in * by done. rewrite Hr. change (1 <? 0) with false. cbv iota.
    rewrite Z.mul_1_r in Hb, Hp.
    destruct (Z.ltb_spec 1 iv); simpl; [rewrite decide_True by done | rewrite decide_False by lia];
      rewrite ?Hb, ?Hp, ?uint64_mul_l, ?Z.mul_1_r; repeat split; try done.
    by rewrite (proj2 (Z.ltb_lt 1 iv)) by done.
Qed.

Definition example_v9_header : v9header := mkV9header 2 360000 1700000000 1 7.
Definition example_v9_fields : list templateField :=
  [mkField 8 4 0; mkField 12 4 0; mkField 1 4 0; mkField 2 4 0; mkField 4 1 0].
Definition example_v9_row : list bytes :=
  [put_be 4 167772161; put_be 4 167772162; put_be 4 1500; put_be 4 3; put_be 1 17].
Definition example_v9_sets : list (Z * bytes) :=
  [(fsIDTemplate, template_enc (300, example_v9_fields) ++ []); (300, concat example_v9_row ++ put_be 3 0)].

Lemma example_v9_sets_wf : Forall set_wf example_v9_sets.
Proof. repeat constructor; vm_compute; discriminate. Qed.

Lemma example_v9_header_wf : v9header_wf example_v9_header.
Proof. repeat split; vm_compute; try discriminate; reflexivity. Qed.

Lemma DecodeNetFlowV9_total_witness :
  wp (DecodeNetFlowV9 (v9header_enc example_v9_header ++ concat (map set_enc example_v9_sets))
        (V4 1) NewTemplateCache 5) (decode_post (V4 1) NewTemplateCache).
Proof. apply DecodeNetFlowV9_total, NewTemplateCache_wf. Defined.

Lemma v9_framing_witness :
  DecodeNetFlowV9 (v9header_enc example_v9_header ++ concat (map set_enc example_v9_sets) ++ [])
    (V4 1) NewTemplateCache 5
  = st ← foldSets (fun i body st => v9Set i body (V4 1) 7 (v9clock example_v9_header) 5 st)
           example_v9_sets (mkSetState NewTemplateCache [] 0);
    Ret (Some (applySampling (mkPacket (V4 1) (ss_recs st))
                (getSampling (ss_tc st) (mkSamplingKey (V4 1) 7))), awaiting st, None, ss_tc st).
Proof.
  apply (v9_framing example_v9_header example_v9_sets [] (V4 1) NewTemplateCache 5).
  - apply example_v9_header_wf.
  - apply example_v9_sets_wf.
  - vm_compute. reflexivity.
Defined.

Lemma v9_end_to_end_witness :
  exists os, Forall2 (fun vals o =>
      flowRecord ((v9Template example_v9_fields) <| seen := 5 |>) (v9clock example_v9_header)
        "netflow9" vals = Ret o) [example_v9_row] os /\
    DecodeNetFlowV9 (v9header_enc example_v9_header ++ concat (map set_enc example_v9_sets))
      (V4 1) NewTemplateCache 5
    = Ret (Some (mkPacket (V4 1) (map (applySampling1 0) (omap (fun o => o) os))), 0, None,
           put NewTemplateCache (mkTemplateKey (V4 1) 7 300 9) (v9Template example_v9_fields) 5).
Proof.
  apply (v9_end_to_end example_v9_header 300 example_v9_fields [example_v9_row]
    (concat example_v9_row) [] (put_be 3 0) (V4 1) NewTemplateCache 5).
  - apply example_v9_header_wf.
  - lia.
  - split; [vm_compute; split; [discriminate|reflexivity]|].
    split; [vm_compute; split; [discriminate|reflexivity]|].
    repeat constructor; vm_compute; discriminate.
  - vm_compute. discriminate.
  - right. vm_compute. reflexivity.
  - rewrite <- (app_nil_r (concat _)). apply rows_cons; [|apply rows_nil].
    repeat apply row_cons; try apply row_nil; by apply enc_fixed.
  - vm_compute. reflexivity.
  - vm_compute. reflexivity.
  - apply example_v9_sets_wf.
Defined.

Lemma sampling_once_witness :
  Bytes (applySampling1 7 example_flow) = uint64 (2000 * 1000).
Proof.
  destruct (sampling_once example_flow_template zeroClock "netflow9" example_flow_row example_flow 7)
    as (Hr & Hb & _).
  - reflexivity.
  - vm_compute. split; [discriminate|reflexivity].
  - vm_compute. reflexivity.
  - rewrite Hb, Hr. vm_compute. reflexivity.
Defined.

(** A record whose own sampling field says one is still scaled by the
    exporter's announced interval. *)
Lemma inline_one_rescaled :
  exists vals r, inlineRate (fields example_flow_template) vals = 1 /\
    flowRecord example_flow_template zeroClock "netflow9" vals = Ret (Some r) /\
    Bytes r = 2000 /\ Bytes (applySampling1 100 r) = 200000.
Proof.
  exists (put_be 4 1 :: tail example_flow_row).
  destruct (flowRecord example_flow_template zeroClock "netflow9"
    (put_be 4 1 :: tail example_flow_row)) as [[r|]| |] eqn:E; vm_compute in E; try discriminate.
  exists r. split; [vm_compute; reflexivity|]. split; [done|].
  injection E as <-. split; vm_compute; reflexivity.
Qed.
