(* ===== verification/IPFIX.v ===== *)
(** Package flow, file ipfix.go: IPFIX (RFC 7011) template sets and the
    message decoder, on the cache, the walker and the field meanings shared
    with NetFlow v9. *)
From Stdlib Require Import ZArith Lia.
From stdpp Require Import base list gmap strings numbers relations.
From S2P Require Import Prelude GoText Netip FlowTypes Templates Walker FlowData NetFlow9.

Definition ipfixHeaderLen : Z := 16.
Definition ipfixSetTemplate : Z := 2.
Definition ipfixSetOptionsTmpl : Z := 3.
Definition ipfixSetMinData : Z := 256.
Definition enterpriseBit : Z := 32768.

(** The field loop of one template. [None] is the [return] of a definition
    cut short; otherwise the template, whether it is [bad], and the offset. *)
Fixpoint ipfixFields (n : nat) (body : bytes) (off : Z) (t : template) (bad : bool)
    : outcome (option (template * bool * Z)) :=
  match n with
  | O => Ret (Some (t, bad, off))
  | S n =>
      if len body <? off + 4 then Ret None else
      raw ← u16at body off;
      l ← u16at body (off + 2);
      let f := mkField (Z.ldiff raw enterpriseBit) l 0 in
      let off := off + 4 in
      fo ← (if negb (Z.land raw enterpriseBit =? 0) then
              if len body <? off + 4 then Ret None else
              e ← u32at body off;
              Ret (Some (mkField (typ f) l e, off + 4))
            else Ret (Some (f, off)));
      match fo with
      | None => Ret None
      | Some (f, off) =>
          let t := if variable f then t <| hasVarLen := true |>
                   else t <| recordLen := recordLen t + fieldLength f |> in
          ipfixFields n body off (t <| fields := fields t ++ [f] |>) (bad || (fieldLength f =? 0))
      end
  end.

Fixpoint ipfixTemplatesLoop (fuel : nat) (body : bytes) (from : Addr) (domainID : Z)
    (tc : TemplateCache) (now : Time) (options : bool) (off : Z) : outcome TemplateCache :=
  match fuel with
  | O => OutOfFuel
  | S fuel =>
      let header := if options then 6 else 4 in
      if len body <? off + header then Ret tc else
      id ← u16at body off;
      fieldCount ← u16at body (off + 2);
      scopeCount ← (if options then u16at body (off + 4) else Ret 0);
      let off := off + header in
      if fieldCount =? 0 then ipfixTemplatesLoop fuel body from domainID tc now options off
      else if options && ((scopeCount =? 0) || (fieldCount <? scopeCount)) then Ret tc
      else
      r ← ipfixFields (Z.to_nat fieldCount) body off (newTemplate scopeCount) false;
      match r with
      | None => Ret tc
      | Some (t, bad, off) =>
          ipfixTemplatesLoop fuel body from domainID
            (if bad || (negb (hasVarLen t) && (recordLen t =? 0)) then tc
             else put tc (mkTemplateKey from domainID id 10) t now) now options off
      end
  end.

Definition parseIPFIXTemplates (body : bytes) (from : Addr) (domainID : Z) (tc : TemplateCache)
    (now : Time) (options : bool) : outcome TemplateCache :=
  ipfixTemplatesLoop (S (length body)) body from domainID tc now options 0.

(** The switch of [DecodeIPFIX]. *)
Definition ipfixSet (setID : Z) (body : bytes) (from : Addr) (domainID : Z) (now : Time)
    (st : setState) : outcome setState :=
  if setID =? ipfixSetTemplate then
    tc ← parseIPFIXTemplates body from domainID (ss_tc st) now false;
    Ret (mkSetState tc (ss_recs st) (awaiting st))
  else if setID =? ipfixSetOptionsTmpl then
    tc ← parseIPFIXTemplates body from domainID (ss_tc st) now true;
    Ret (mkSetState tc (ss_recs st) (awaiting st))
  else if ipfixSetMinData <=? setID then
    dataSet 10 setID "ipfix" body from domainID zeroClock now st
  else Ret st.

Definition DecodeIPFIX (b : bytes) (from : Addr) (tc : TemplateCache) (now : Time)
    : outcome (option Packet * Z * option error * TemplateCache) :=
  if len b <? ipfixHeaderLen then
    Ret (None, 0, Some (ErrShortPacket ipfixHeaderLen (len b)), tc)
  else
  v ← u16at b 0;
  if negb (v =? 10) then
    Ret (None, 0, Some (Errorf ("flow: not an IPFIX message (version " +:+ Itoa v +:+ ")")), tc)
  else
  msgLen ← u16at b 2;
  if msgLen <? ipfixHeaderLen then
    Ret (None, 0, Some (Errorf ("flow: IPFIX message length " +:+ Itoa msgLen +:+
                                " is shorter than its header")), tc)
  else if len b <? msgLen then Ret (None, 0, Some (ErrShortPacket msgLen (len b)), tc)
  else
  b ← slice b 0 msgLen;
  domainID ← u32at b 12;
  '(st, e) ← setLoop (fun setID body st => ipfixSet setID body from domainID now st)
               "IPFIX set" (S (length b)) b ipfixHeaderLen (mkSetState tc [] 0);
  let p := mkPacket from (ss_recs st) in
  match e with
  | Some e => Ret (Some p, awaiting st, Some e, ss_tc st)
  | None => Ret (Some (applySampling p (getSampling (ss_tc st) (mkSamplingKey from domainID))),
                 awaiting st, None, ss_tc st)
  end.

(** * Totality *)

(** What the field loop keeps true of the template it builds. *)
Definition partial_wf (t : template) (bad : bool) : Prop :=
  Forall field_wf (fields t) /\
  hasVarLen t = existsb variable (fields t) /\
  (bad = false -> Forall (fun f => 0 < fieldLength f) (fields t)) /\
  recordLen t = sumZ (map (fun f => if variable f then 0 else fieldLength f) (fields t)).

Lemma partial_wf_init scope : partial_wf (newTemplate scope) false.
Proof. repeat split; constructor. Qed.

Lemma partial_wf_snoc t bad f :
  partial_wf t bad -> field_wf f ->
  let t' := if variable f then t <| hasVarLen := true |>
            else t <| recordLen := recordLen t + fieldLength f |> in
  partial_wf (t' <| fields := fields t' ++ [f] |>) (bad || (fieldLength f =? 0)).
Proof.
  intros (Hf & Hv & Hb & Hr) Hwf t'. unfold partial_wf.
  assert (fields t' = fields t) as E by (subst t'; by destruct (variable f)).
  cbn [set fields recordLen hasVarLen eta_template]. simpl. rewrite E.
  split; [apply Forall_app; auto|]. split; [|split].
  - rewrite existsb_app, <- Hv. subst t'. simpl. destruct (variable f); simpl;
      by rewrite ?orb_true_r, ?orb_false_r.
  - intros [-> Hz%Z.eqb_neq]%orb_false_iff. apply Forall_app. split; [auto|].
    constructor; [|constructor]. destruct Hwf as [_ Hl]. unfold is_u16 in Hl. lia.
  - rewrite map_app, sumZ_app. subst t'. simpl. destruct (variable f); simpl; lia.
Qed.

Lemma partial_wf_template t bad :
  partial_wf t bad -> bad || (negb (hasVarLen t) && (recordLen t =? 0)) = false -> template_wf t.
Proof.
  intros (Hf & Hv & Hb & Hr) [-> Hz]%orb_false_iff. specialize (Hb eq_refl).
  split; [done|]. destruct (hasVarLen t).
  - split; [|done]. by destruct (fields t).
  - simpl in Hz. apply Z.eqb_neq in Hz.
    assert (recordLen t = sumZ (map fieldLength (fields t))) as E.
    { rewrite Hr. symmetry in Hv. clear - Hv. induction (fields t) as [|f fs IH]; [done|].
      simpl in *. apply orb_false_iff in Hv as [-> Hv]. by rewrite IH. }
    split; [done|]. pose proof (sum_lengths_nonneg _ Hf). lia.
Qed.

Lemma u16_high_bits raw i : is_u16 raw -> 16 <= i -> Z.testbit raw i = false.
Proof.
  intros Hraw Hi. rewrite <- (Z.mod_small raw (2 ^ 16)) by done.
  by rewrite Z.mod_pow2_bits_high by lia.
Qed.

Lemma testbit_enterprise i : 0 <= i -> Z.testbit enterpriseBit i = (i =? 15).
Proof.
  intros. change enterpriseBit with (2 ^ 15). rewrite Z.pow2_bits_eqb by lia. apply Z.eqb_sym.
Qed.

(** [raw &^ enterpriseBit] keeps the low fifteen bits. *)
Lemma ldiff_enterprise raw : is_u16 raw -> Z.ldiff raw enterpriseBit = raw mod 2 ^ 15.
Proof.
  intros Hraw. apply Z.bits_inj'. intros i Hi. rewrite Z.ldiff_spec, testbit_enterprise by done.
  destruct (Z.ltb_spec i 15).
  - rewrite Z.mod_pow2_bits_low by lia. rewrite (proj2 (Z.eqb_neq i 15)) by lia. apply andb_true_r.
  - rewrite Z.mod_pow2_bits_high by lia. destruct (Z.eqb_spec i 15); [apply andb_false_r|].
    by rewrite u16_high_bits by (done || lia).
Qed.

(** [raw & enterpriseBit] tests the top bit. *)
Lemma land_enterprise raw : is_u16 raw -> (Z.land raw enterpriseBit =? 0) = (raw <? 2 ^ 15).
Proof.
  intros Hraw. assert (raw = raw / 2 ^ 15 * 2 ^ 15 + raw mod 2 ^ 15) as E
    by (rewrite Z.mul_comm; apply Z.div_mod; lia).
  unfold is_u16 in Hraw. pose proof (Z.mod_pos_bound raw (2 ^ 15)).
  assert (Z.land raw enterpriseBit = Z.b2z (Z.testbit raw 15) * 2 ^ 15) as ->.
  { apply Z.bits_inj'. intros i Hi. rewrite Z.land_spec, testbit_enterprise by done.
    rewrite Z.mul_pow2_bits by lia. destruct (Z.eqb_spec i 15) as [->|].
    - rewrite andb_true_r. change (15 - 15) with 0. by rewrite Z.b2z_bit0.
    - rewrite andb_false_r. symmetry. destruct (Z.testbit raw 15); [|apply Z.bits_0].
      destruct (Z.ltb_spec i 15); [by rewrite Z.testbit_neg_r by lia|].
      simpl. change 1 with (2 ^ 0). rewrite Z.pow2_bits_eqb by lia. apply Z.eqb_neq. lia. }
  rewrite Z.testbit_odd, Z.shiftr_div_pow2 by lia.
  assert (raw / 2 ^ 15 = 0 \/ raw / 2 ^ 15 = 1) as [Hd|Hd] by lia; rewrite Hd in *; simpl;
    symmetry; [apply Z.ltb_lt | apply Z.ltb_ge]; lia.
Qed.

Lemma ldiff_u16 raw : is_u16 raw -> is_u16 (Z.ldiff raw enterpriseBit).
Proof.
  intros Hraw. rewrite ldiff_enterprise by done. pose proof (Z.mod_pos_bound raw (2 ^ 15)).
  unfold is_u16. lia.
Qed.

Lemma ipfixFields_total n body off t bad :
  0 <= off -> off <= len body -> partial_wf t bad ->
  wp (ipfixFields n body off t bad) (fun r => forall t' bad' off', r = Some (t', bad', off') ->
    partial_wf t' bad' /\ off + 4 * Z.of_nat n <= off' /\ off' <= len body).
Proof.
  revert off t bad. induction n as [|n IH]; intros off t bad H0 Hl Hp; cbn [ipfixFields].
  { simpl. intros ??? [= <- <- <-]. split; [done|lia]. }
  destruct (Z.ltb_spec (len body) (off + 4)); [done|].
  apply wp_bind, wp_u16at; [lia..|]. intros raw _ Hraw.
  apply wp_bind, wp_u16at; [lia..|]. intros l _ Hlen. apply ldiff_u16 in Hraw as Hty.
  apply wp_bind. apply (wp_mono _ (fun fo => forall f o, fo = Some (f, o) ->
    field_wf f /\ off + 4 <= o /\ o <= len body)).
  - destruct (negb _); [|simpl; intros ?? [= <- <-]; split; [done|lia]].
    destruct (Z.ltb_spec (len body) (off + 4 + 4)); [done|].
    apply wp_bind, wp_u32at; [lia..|]. intros e _ _. simpl. intros ?? [= <- <-].
    split; [done|lia].
  - intros [[f o]|] Hf; [|done]. destruct (Hf f o eq_refl) as (Hwf & Ho & Ho').
    eapply wp_mono; [apply IH; [lia|lia|]|].
    + by apply partial_wf_snoc.
    + intros r Hr t' bad' off' E. destruct (Hr _ _ _ E) as (? & ? & ?). split; [done|lia].
Qed.

Lemma ipfixTemplatesLoop_total fuel body from dom tc now options off :
  0 <= off -> off <= len body -> len body - off < Z.of_nat fuel ->
  wp (ipfixTemplatesLoop fuel body from dom tc now options off) (rtc cache_step tc).
Proof.
  revert tc off. induction fuel as [|fuel IH]; intros tc off H0 Hl Hf; [lia|].
  cbn [ipfixTemplatesLoop]. set (header := if options then 6 else 4).
  assert (4 <= header /\ (options = true -> header = 6)) as [Hh Hh6] by (subst header; destruct options; lia).
  destruct (Z.ltb_spec (len body) (off + header)); [apply rtc_refl|].
  apply wp_bind, wp_u16at; [lia..|]. intros i _ Hi.
  apply wp_bind, wp_u16at; [lia..|]. intros n _ Hn. unfold is_u16 in Hn.
  apply wp_bind. apply (wp_mono _ (fun _ => True)).
  { destruct options; [apply wp_u16at; [lia..|done] | done]. }
  intros sc _. destruct (Z.eqb_spec n 0); [apply IH; lia|].
  destruct (options && _); [apply rtc_refl|].
  apply wp_bind. eapply wp_mono; [apply ipfixFields_total; [lia|lia|apply partial_wf_init]|].
  intros [[[t bad] off']|] Hr; [|apply rtc_refl]. destruct (Hr _ _ _ eq_refl) as (Hp & ? & ?).
  eapply wp_mono; [apply IH; lia|]. intros tc' Hs. etrans; [|exact Hs].
  apply put_step. by apply partial_wf_template.
Qed.

Lemma parseIPFIXTemplates_total body from dom tc now options :
  wp (parseIPFIXTemplates body from dom tc now options) (rtc cache_step tc).
Proof. apply ipfixTemplatesLoop_total; unfold len; lia. Qed.

Lemma ipfixSet_inv tc0 i body from dom now st :
  set_inv tc0 st -> wp (ipfixSet i body from dom now st) (set_inv tc0).
Proof.
  intros Hst. unfold ipfixSet. repeat case_match; try done; try (by apply dataSet_inv);
    apply wp_bind; (eapply wp_mono; [apply parseIPFIXTemplates_total|]); intros tc' Hs;
    by apply set_inv_tc.
Qed.

Lemma DecodeIPFIX_wp b from tc now :
  cache_wf tc -> wp (DecodeIPFIX b from tc now) (decode_post from tc).
Proof.
  intros Hw. unfold DecodeIPFIX, ipfixHeaderLen.
  destruct (Z.ltb_spec (len b) 16); [by apply decode_refuse|].
  apply wp_bind, wp_u16at; [lia..|]. intros v _ _. destruct (negb _); [by apply decode_refuse|].
  apply wp_bind, wp_u16at; [lia..|]. intros ml _ Hml. unfold is_u16 in Hml.
  destruct (Z.ltb_spec ml 16); [by apply decode_refuse|].
  destruct (Z.ltb_spec (len b) ml); [by apply decode_refuse|].
  apply wp_bind, wp_slice; [lia..|]. intros b' _ Hb'.
  apply wp_bind, wp_u32at; [lia..|]. intros dom _ _.
  apply wp_bind. eapply wp_mono.
  - apply (setLoop_inv (set_inv tc)); [|lia|lia|unfold len in *; lia|by apply set_inv_init].
    intros. by apply ipfixSet_inv.
  - intros [st e] Hst. by apply (decode_finish from dom tc (st, e)).
Qed.

(** C2. The IPFIX decoder is total, with the same promises as the v9
    decoder. *)
Theorem DecodeIPFIX_total b from tc now :
  cache_wf tc -> wp (DecodeIPFIX b from tc now) (decode_post from tc).
Proof. apply DecodeIPFIX_wp. Qed.

Lemma DecodeIPFIX_total_witness :
  wp (DecodeIPFIX [] (V4 1) NewTemplateCache 0) (decode_post (V4 1) NewTemplateCache).
Proof. apply DecodeIPFIX_total, NewTemplateCache_wf. Defined.

(** * Round trip *)

Definition ipfix_field_enc (f : templateField) : bytes :=
  if enterprise f =? 0 then put_be 2 (typ f) ++ put_be 2 (fieldLength f)
  else put_be 2 (typ f + 2 ^ 15) ++ put_be 2 (fieldLength f) ++ put_be 4 (enterprise f).

(** A field definition an exporter may send: a 15-bit element, a width that
    is not zero, and its enterprise number if it has one. *)
Definition ipfix_field_wf (f : templateField) : Prop :=
  0 <= typ f < 2 ^ 15 /\ 0 < fieldLength f < 2 ^ 16 /\ is_u32 (enterprise f).

(** A template definition: identifier, scope count, fields. *)
Record tmplDef : Type := mkTmplDef { td_id : Z; td_scope : Z; td_fields : list templateField }.

Definition tmplDef_enc (options : bool) (d : tmplDef) : bytes :=
  put_be 2 (td_id d) ++ put_be 2 (len (td_fields d)) ++
  (if options then put_be 2 (td_scope d) else []) ++
  concat (map ipfix_field_enc (td_fields d)).

Definition tmplDef_wf (options : bool) (d : tmplDef) : Prop :=
  is_u16 (td_id d) /\ 1 <= len (td_fields d) < 2 ^ 16 /\
  Forall ipfix_field_wf (td_fields d) /\
  (if options then 1 <= td_scope d <= len (td_fields d) else td_scope d = 0).

(** The template a definition stands for. *)
Definition ipfixTemplate (d : tmplDef) : template :=
  mkTemplate (td_fields d)
    (sumZ (map (fun f => if variable f then 0 else fieldLength f) (td_fields d)))
    (existsb variable (td_fields d)) (td_scope d) zeroTime.

Definition ipfixLearn (from : Addr) (dom : Z) (now : Time) (tc : TemplateCache) (d : tmplDef)
    : TemplateCache :=
  put tc (mkTemplateKey from dom (td_id d) 10) (ipfixTemplate d) now.

Lemma len_ipfix_field_enc f : 4 <= len (ipfix_field_enc f).
Proof. unfold ipfix_field_enc. case_match; rewrite !len_app, !len_put_be; lia. Qed.

Lemma u32at_put pre z post off :
  off = len pre -> is_u32 z -> u32at (pre ++ put_be 4 z ++ post) off = Ret z.
Proof.
  intros -> Hz. rewrite u32at_ret by len_lia.
  rewrite sub_app_exact by (rewrite ?len_put_be; done). by rewrite be_put_u32.
Qed.

(** Reading one field definition. *)
Lemma ipfixField_enc n pre f post t bad :
  ipfix_field_wf f ->
  ipfixFields (S n) (pre ++ ipfix_field_enc f ++ post) (len pre) t bad
  = let t' := if variable f then t <| hasVarLen := true |>
              else t <| recordLen := recordLen t + fieldLength f |> in
    ipfixFields n (pre ++ ipfix_field_enc f ++ post) (len (pre ++ ipfix_field_enc f))
      (t' <| fields := fields t' ++ [f] |>) (bad || (fieldLength f =? 0)).
Proof.
  intros (Ht & Hl & He). pose proof (len_ipfix_field_enc f) as Hlen.
  pose proof (len_nonneg pre). pose proof (len_nonneg post).
  assert (is_u16 (typ f) /\ is_u16 (typ f + 2 ^ 15) /\ is_u16 (fieldLength f)) as (Hw1 & Hw2 & Hw3)
    by (unfold is_u16; lia).
  cbn [ipfixFields]. rewrite (proj2 (Z.ltb_ge _ _)) by (rewrite !len_app; lia).
  unfold ipfix_field_enc in *. destruct (Z.eqb_spec (enterprise f) 0) as [E|E].
  - set (buf := pre ++ _ ++ post).
    assert (u16at buf (len pre) = Ret (typ f)) as ->.
    { subst buf. rewrite <- app_assoc. by apply u16at_put. }
    assert (u16at buf (len pre + 2) = Ret (fieldLength f)) as ->.
    { subst buf. rewrite <- app_assoc, (app_assoc pre). apply u16at_put; [|done].
      by rewrite len_app, len_put_be. }
    rewrite !bind_ret, land_enterprise, ldiff_enterprise by done.
    rewrite (proj2 (Z.ltb_lt _ _)), Z.mod_small by lia. cbn [negb]. rewrite bind_ret.
    replace (mkField (typ f) (fieldLength f) 0) with f by (destruct f; simpl in *; by subst).
    f_equal. rewrite !len_app, !len_put_be. lia.
  - set (buf := pre ++ _ ++ post).
    assert (u16at buf (len pre) = Ret (typ f + 2 ^ 15)) as ->.
    { subst buf. rewrite <- app_assoc. by apply u16at_put. }
    assert (u16at buf (len pre + 2) = Ret (fieldLength f)) as ->.
    { subst buf. rewrite <- !app_assoc, (app_assoc pre). apply u16at_put; [|done].
      by rewrite len_app, len_put_be. }
    assert (u32at buf (len pre + 4) = Ret (enterprise f)) as ->.
    { subst buf. rewrite <- !app_assoc, (app_assoc pre), (app_assoc (pre ++ _)).
      apply u32at_put; [|done]. rewrite !len_app, !len_put_be. lia. }
    assert (len buf = len pre + 8 + len post) as Hb.
    { subst buf. rewrite !len_app, !len_put_be. lia. }
    rewrite !bind_ret, land_enterprise, ldiff_enterprise by done.
    rewrite (proj2 (Z.ltb_ge _ (2 ^ 15))) by lia. cbn [negb].
    rewrite (proj2 (Z.ltb_ge _ _)) by lia. rewrite !bind_ret. cbn [typ].
    replace ((typ f + 2 ^ 15) mod 2 ^ 15) with (typ f)
      by (apply (Z.mod_unique_pos _ _ 1); lia).
    replace (mkField (typ f) (fieldLength f) (enterprise f)) with f by (by destruct f).
    f_equal. rewrite !len_app, !len_put_be. lia.
Qed.

Lemma ipfixFields_enc fs pre post t :
  Forall ipfix_field_wf fs ->
  ipfixFields (length fs) (pre ++ concat (map ipfix_field_enc fs) ++ post) (len pre) t false
  = Ret (Some (mkTemplate (fields t ++ fs)
                 (recordLen t + sumZ (map (fun f => if variable f then 0 else fieldLength f) fs))
                 (hasVarLen t || existsb variable fs) (scopeFields t) (seen t), false,
               len (pre ++ concat (map ipfix_field_enc fs)))).
Proof.
  intros Hfs. revert pre t. induction Hfs as [|f fs Hf _ IH]; intros pre t.
  { simpl. rewrite !app_nil_r, Z.add_0_r, orb_false_r. by destruct t. }
  cbn [length map concat]. rewrite <- app_assoc, ipfixField_enc by done. cbv zeta.
  assert ((fieldLength f =? 0) = false) as -> by (destruct Hf as (_ & ? & _); apply Z.eqb_neq; lia).
  cbn [orb]. rewrite (app_assoc pre (ipfix_field_enc f)), IH. rewrite !app_assoc. do 4 f_equal.
  destruct (variable f) eqn:Ev; simpl; rewrite ?Ev, <- app_assoc; simpl;
    rewrite ?orb_true_r; f_equal; lia.
Qed.

(** A definition an exporter may send is one the walker can walk, so it is
    never skipped. *)
Lemma ipfixTemplate_wf options d : tmplDef_wf options d -> template_wf (ipfixTemplate d).
Proof.
  intros (_ & Hn & Hfs & _).
  assert (partial_wf (ipfixTemplate d) false) as Hp.
  { split; [|split; [done|split; [intros _|done]]].
    - eapply Forall_impl; [exact Hfs|]. intros f (? & ? & ?). split; unfold is_u16; lia.
    - eapply Forall_impl; [exact Hfs|]. intros f (? & ? & ?). lia. }
  apply (partial_wf_template _ false); [done|]. cbn [orb].
  destruct Hp as (Hf & Hv & Hb & Hr). specialize (Hb eq_refl).
  destruct (hasVarLen (ipfixTemplate d)) eqn:E; [done|]. cbn [negb andb]. apply Z.eqb_neq.
  rewrite Hr. simpl in *. destruct (td_fields d) as [|f fs]; [len_lia|].
  apply Forall_cons_1 in Hb as [H0 Hb]. simpl in E. apply orb_false_iff in E as [Ef Efs].
  simpl. rewrite Ef.
  assert (0 <= sumZ (map (fun f => if variable f then 0 else fieldLength f) fs)); [|lia].
  apply sumZ_nonneg, Forall_fmap. eapply Forall_impl; [exact Hb|]. intros g Hg. simpl in *.
  destruct (variable g); lia.
Qed.

Lemma ipfixTemplatesLoop_enc options ds pad pre fuel from dom tc now :
  Forall (tmplDef_wf options) ds -> len pad < 4 ->
  len (concat (map (tmplDef_enc options) ds)) + len pad < Z.of_nat fuel ->
  ipfixTemplatesLoop fuel (pre ++ concat (map (tmplDef_enc options) ds) ++ pad) from dom tc now
    options (len pre)
  = Ret (foldl (ipfixLearn from dom now) tc ds).
Proof.
  intros Hds Hpad. revert pre fuel tc.
  induction Hds as [|d ds Hd Hds IH]; intros pre [|fuel] tc Hfuel; try (exfalso; len_lia);
    cbn [ipfixTemplatesLoop]; set (header := if options then 6 else 4).
  { cbn [map concat]. rewrite (proj2 (Z.ltb_lt _ _)); [done|].
    subst header. destruct options; len_lia. }
  pose proof (ipfixTemplate_wf _ _ Hd) as Hwf.
  destruct Hd as (Hi & Hn & Hfs & Hsc). cbn [map concat] in *.
  set (hd := put_be 2 (td_id d) ++ put_be 2 (len (td_fields d)) ++
             (if options then put_be 2 (td_scope d) else [])).
  set (defs := concat (map ipfix_field_enc (td_fields d))).
  set (rest := concat (map (tmplDef_enc options) ds) ++ pad) in *.
  assert (tmplDef_enc options d = hd ++ defs) as Ed.
  { unfold tmplDef_enc. subst hd. by rewrite <- !app_assoc. }
  assert (len hd = header) as Hhd by (subst hd header; by destruct options).
  rewrite Ed in *. rewrite <- !app_assoc. fold rest.
  set (buf := pre ++ hd ++ defs ++ rest).
  assert (u16at buf (len pre) = Ret (td_id d)) as ->.
  { subst buf hd. rewrite <- !app_assoc. by apply u16at_put. }
  assert (u16at buf (len pre + 2) = Ret (len (td_fields d))) as ->.
  { subst buf hd. rewrite <- !app_assoc, (app_assoc pre). apply u16at_put;
      [by rewrite len_app, len_put_be | unfold is_u16; lia]. }
  assert ((if options then u16at buf (len pre + 4) else Ret 0) = Ret (td_scope d)) as ->.
  { destruct options; [|by rewrite Hsc].
    subst buf hd. rewrite <- !app_assoc, (app_assoc pre), (app_assoc (pre ++ _)).
    apply u16at_put; [by rewrite !len_app, !len_put_be; lia | unfold is_u16; lia]. }
  assert (len buf = len pre + header + len defs + len rest) as Hbuf
    by (subst buf; rewrite !len_app; lia).
  pose proof (len_nonneg defs). pose proof (len_nonneg rest).
  rewrite (proj2 (Z.ltb_ge _ _)), !bind_ret by lia.
  rewrite (proj2 (Z.eqb_neq _ _)) by lia.
  assert (options && ((td_scope d =? 0) || (len (td_fields d) <? td_scope d)) = false) as ->.
  { destruct options; [|done]. cbn [andb]. apply orb_false_iff.
    split; [apply Z.eqb_neq | apply Z.ltb_ge]; lia. }
  rewrite to_nat_len. subst buf. rewrite <- Hhd, <- len_app, (app_assoc pre hd).
  subst defs. rewrite ipfixFields_enc, bind_ret by done. simpl.
  assert (negb (existsb variable (td_fields d)) &&
    (sumZ (map (fun f => if variable f then 0 else fieldLength f) (td_fields d)) =? 0) = false) as E.
  { destruct (existsb variable (td_fields d)) eqn:Ev; [done|]. destruct Hwf as [_ Hwf].
    unfold ipfixTemplate in Hwf. cbn [hasVarLen recordLen fields] in Hwf. rewrite Ev in Hwf.
    apply Z.eqb_neq. lia. }
  rewrite Z.add_0_l, E. rewrite app_assoc. subst rest. rewrite IH; [done|].
  assert (1 <= len hd) by (rewrite Hhd; subst header; destruct options; lia). len_lia.
Qed.

Lemma parseIPFIXTemplates_enc options ds pad from dom tc now :
  Forall (tmplDef_wf options) ds -> len pad < 4 ->
  parseIPFIXTemplates (concat (map (tmplDef_enc options) ds) ++ pad) from dom tc now options
  = Ret (foldl (ipfixLearn from dom now) tc ds).
Proof.
  intros Hds Hpad. apply (ipfixTemplatesLoop_enc options ds pad []); [done..|].
  rewrite <- len_app. unfold len. lia.
Qed.

(** ** Messages *)

Record ipfixHeader : Type := mkIpfixHeader { ih_export : Z; ih_seq : Z; ih_domain : Z }.
Definition ipfixHeader_enc (h : ipfixHeader) (msgLen : Z) : bytes :=
  put_be 2 10 ++ put_be 2 msgLen ++ put_be 4 (ih_export h) ++ put_be 4 (ih_seq h) ++
  put_be 4 (ih_domain h).
Definition ipfix_enc (h : ipfixHeader) (sets : list (Z * bytes)) : bytes :=
  ipfixHeader_enc h (16 + len (concat (map set_enc sets))) ++ concat (map set_enc sets).

(** Framing: an IPFIX message of sets of any kind decodes by handling
    those sets in order, and whatever follows the declared message length in
    the datagram is not looked at. *)
Theorem ipfix_framing h sets trailing from tc now :
  is_u32 (ih_domain h) -> Forall set_wf sets -> 16 + len (concat (map set_enc sets)) < 2 ^ 16 ->
  DecodeIPFIX (ipfix_enc h sets ++ trailing) from tc now
  = st ← foldSets (fun i body st => ipfixSet i body from (ih_domain h) now st) sets
           (mkSetState tc [] 0);
    Ret (Some (applySampling (mkPacket from (ss_recs st))
                (getSampling (ss_tc st) (mkSamplingKey from (ih_domain h)))),
         awaiting st, None, ss_tc st).
Proof.
  intros Hd Hsets Hfit. unfold DecodeIPFIX, ipfixHeaderLen.
  set (ml := 16 + len (concat (map set_enc sets))) in *.
  set (hd := ipfixHeader_enc h ml).
  pose proof (setLoop_enc (fun i body st => ipfixSet i body from (ih_domain h) now st) "IPFIX set"
    sets [] hd (S (length (ipfix_enc h sets))) (mkSetState tc [] 0) Hsets) as Hloop.
  rewrite app_nil_r in Hloop.
  set (b := ipfix_enc h sets ++ trailing).
  pose proof (len_nonneg (concat (map set_enc sets))). pose proof (len_nonneg trailing).
  assert (len (ipfix_enc h sets) = ml) as Hlen by (unfold ipfix_enc; by rewrite len_app).
  assert (len b = ml + len trailing) as Hb by (subst b; rewrite len_app; lia).
  assert (is_u16 ml) as Hml by (unfold is_u16; lia).
  rewrite (proj2 (Z.ltb_ge _ _)) by lia. rewrite !u16at_ret by lia.
  change (sub b 0 (0 + 2)) with (put_be 2 10). change (sub b 2 (2 + 2)) with (put_be 2 ml).
  change (be (put_be 2 10)) with 10. rewrite be_put_u16, !bind_ret by done.
  change (negb (10 =? 10)) with false. cbv iota.
  rewrite !(proj2 (Z.ltb_ge _ _)) by lia. rewrite slice_ret by lia.
  assert (sub b 0 ml = ipfix_enc h sets) as ->.
  { rewrite <- Hlen. subst b. apply (sub_app_exact []); [done|lia]. }
  rewrite bind_ret, u32at_ret by lia.
  change (sub (ipfix_enc h sets) 12 (12 + 4)) with (put_be 4 (ih_domain h)).
  rewrite be_put_u32, bind_ret by done. change 16 with (len hd) at 1.
  change (ipfix_enc h sets) with (hd ++ concat (map set_enc sets)) at 2.
  rewrite Hloop; [by destruct (foldSets _ _ _) | done |].
  rewrite len_nil, Nat2Z.inj_succ. fold (len (ipfix_enc h sets)). lia.
Qed.

Lemma ipfixSet_template body from dom now st :
  ipfixSet ipfixSetTemplate body from dom now st
  = tc ← parseIPFIXTemplates body from dom (ss_tc st) now false;
    Ret (mkSetState tc (ss_recs st) (awaiting st)).
Proof. done. Qed.

Lemma ipfixSet_data i body from dom now st :
  256 <= i -> ipfixSet i body from dom now st = dataSet 10 i "ipfix" body from dom zeroClock now st.
Proof.
  intros. unfold ipfixSet, ipfixSetTemplate, ipfixSetOptionsTmpl, ipfixSetMinData.
  by rewrite (proj2 (Z.eqb_neq i 2)), (proj2 (Z.eqb_neq i 3)), (proj2 (Z.leb_le 256 i)) by lia.
Qed.

Lemma put_sampling tc k t now : sampling (put tc k t now) = sampling tc.
Proof. unfold put. by repeat case_match. Qed.

(** C16. End to end, IPFIX: a message that defines a template (with vendor
    fields and variable-length fields if it likes) and then carries records
    laid out by it decodes to the flow of each row, in order, and leaves the
    template in the cache. *)
Theorem ipfix_end_to_end h d rows body pad1 pad2 trailing from tc now :
  is_u32 (ih_domain h) -> 256 <= td_id d -> tmplDef_wf false d ->
  let key := mkTemplateKey from (ih_domain h) (td_id d) 10 in
  let t := (ipfixTemplate d) <| seen := now |> in
  is_Some (templates tc !! key) \/ live_count tc now < max tc ->
  rows_enc t rows body -> len pad1 < 4 -> len pad2 < minRecord t ->
  let sets := [(ipfixSetTemplate, tmplDef_enc false d ++ pad1); (td_id d, body ++ pad2)] in
  Forall set_wf sets -> 16 + len (concat (map set_enc sets)) < 2 ^ 16 ->
  exists os, Forall2 (fun vals o => flowRecord t zeroClock "ipfix" vals = Ret o) rows os /\
    DecodeIPFIX (ipfix_enc h sets ++ trailing) from tc now
    = Ret (Some (mkPacket from (map (applySampling1 (getSampling tc (mkSamplingKey from (ih_domain h))))
                                  (omap (fun o => o) os))),
           0, None, put tc key (ipfixTemplate d) now).
Proof.
  intros Hdom Hid Hd key t Hroom Hrows Hp1 Hp2 sets Hsets Hfit.
  assert (template_wf t) as Hwf by (by eapply template_wf_seen, ipfixTemplate_wf).
  destruct (readFlowData_enc t zeroClock "ipfix" rows body pad2 Hwf Hrows Hp2) as (os & Hos & Er).
  exists os. split; [done|]. rewrite ipfix_framing by done. subst sets.
  cbn [foldSets]. rewrite ipfixSet_template.
  pose proof (parseIPFIXTemplates_enc false [d] pad1 from (ih_domain h) tc now) as Ep.
  cbn [map concat foldl] in Ep. rewrite app_nil_r in Ep. cbn [ss_tc].
  rewrite Ep by (done || by constructor). rewrite !bind_ret. unfold ipfixLearn. fold key.
  rewrite ipfixSet_data by done. unfold dataSet. fold key. cbn [ss_tc].
  rewrite put_get by done. fold t.
  assert (isOptions t = false) as -> by (destruct Hd as (_ & _ & _ & Hs); unfold isOptions; simpl;
    by rewrite Hs).
  rewrite Er, !bind_ret. cbn [ss_tc ss_recs awaiting]. unfold applySampling, getSampling.
  by rewrite put_sampling.
Qed.

(** A message whose template has a vendor field and a variable-length user
    name, and one record. *)
Definition example_ipfix_header : ipfixHeader := mkIpfixHeader 1700000000 1 42.
Definition example_def : tmplDef :=
  mkTmplDef 400 0 [mkField 8 4 0; mkField 12 4 0; mkField 1 8 0; mkField 100 2 9999; mkField 371 65535 0].
Definition example_ipfix_row : list bytes :=
  [put_be 4 167772161; put_be 4 167772162; put_be 8 1500; put_be 2 5; put_be 3 6513249].
Definition example_ipfix_body : bytes :=
  put_be 4 167772161 ++ put_be 4 167772162 ++ put_be 8 1500 ++ put_be 2 5 ++
  (zb 3 :: put_be 3 6513249) ++ [].
Definition example_ipfix_sets : list (Z * bytes) :=
  [(ipfixSetTemplate, tmplDef_enc false example_def ++ []); (400, (example_ipfix_body ++ []) ++ put_be 2 0)].

Lemma example_ipfix_sets_wf : Forall set_wf example_ipfix_sets.
Proof. repeat constructor; vm_compute; discriminate. Qed.

Lemma ipfix_framing_witness :
  DecodeIPFIX (ipfix_enc example_ipfix_header example_ipfix_sets ++ put_be 2 77) (V4 1) NewTemplateCache 5
  = st ← foldSets (fun i body st => ipfixSet i body (V4 1) 42 5 st) example_ipfix_sets
           (mkSetState NewTemplateCache [] 0);
    Ret (Some (applySampling (mkPacket (V4 1) (ss_recs st))
                (getSampling (ss_tc st) (mkSamplingKey (V4 1) 42))), awaiting st, None, ss_tc st).
Proof.
  apply (ipfix_framing example_ipfix_header).
  - split; vm_compute; [discriminate | reflexivity].
  - apply example_ipfix_sets_wf.
  - vm_compute. reflexivity.
Defined.

Lemma ipfix_end_to_end_witness :
  exists os, Forall2 (fun vals o =>
      flowRecord ((ipfixTemplate example_def) <| seen := 5 |>) zeroClock "ipfix" vals = Ret o)
      [example_ipfix_row] os /\
    DecodeIPFIX (ipfix_enc example_ipfix_header example_ipfix_sets ++ []) (V4 1) NewTemplateCache 5
    = Ret (Some (mkPacket (V4 1) (map (applySampling1 0) (omap (fun o => o) os))), 0, None,
           put NewTemplateCache (mkTemplateKey (V4 1) 42 400 10) (ipfixTemplate example_def) 5).
Proof.
  apply (ipfix_end_to_end example_ipfix_header example_def [example_ipfix_row]
    (example_ipfix_body ++ []) [] (put_be 2 0) [] (V4 1) NewTemplateCache 5).
  - split; vm_compute; [discriminate | reflexivity].
  - vm_compute. discriminate.
  - split; [split; vm_compute; [discriminate | reflexivity]|].
    split; [split; vm_compute; [discriminate | reflexivity]|].
    split; [|reflexivity]. repeat constructor; vm_compute; discriminate.
  - right. vm_compute. reflexivity.
  - apply rows_cons; [|apply rows_nil].
    repeat apply row_cons; try apply row_nil; try (by apply enc_fixed).
    by apply (enc_short _ _ (put_be 3 6513249)).
  - vm_compute. reflexivity.
  - vm_compute. reflexivity.
  - apply example_ipfix_sets_wf.
  - vm_compute. reflexivity.
Defined.
