(* ===== verification/SFlow.v ===== *)
(** Package flow, file sflow.go: the sFlow v5 decoder. sFlow is XDR, read
    through a cursor that remembers whether it ran off the end; the cursor is
    the state of a small monad. *)
From Stdlib Require Import ZArith Lia.
From stdpp Require Import base list gmap strings numbers.
From S2P Require Import Prelude GoText Netip FlowTypes FlowData.

Definition sflowVersion : Z := 5.
Definition sflowMaxSamples : Z := 512.
Definition sflowMaxRecords : Z := 64.
Definition sflowFlowSample : Z := 1.
Definition sflowExpandedFlowSample : Z := 3.
Definition sflowRawHeader : Z := 1.
Definition sflowEthernetFrame : Z := 2.
Definition sflowIPv4Data : Z := 3.
Definition sflowIPv6Data : Z := 4.
Definition sflowExtSwitch : Z := 1001.
Definition sflowExtRouter : Z := 1002.
Definition sflowExtGateway : Z := 1003.
Definition sflowHdrEthernet : Z := 1.
Definition sflowHdrIPv4 : Z := 11.
Definition sflowHdrIPv6 : Z := 12.
Definition sflowIfUnknown : Z := 1073741823.
Definition sflowAddrIPv4 : Z := 1.
Definition sflowAddrIPv6 : Z := 2.
Definition sflowMaxASPathTotal : Z := 256.

Definition IsSFlow (b : bytes) : outcome bool :=
  if 4 <=? len b then v ← u32at b 0; Ret (v =? sflowVersion) else Ret false.

(** ** xdrReader *)

Record xdrReader : Type := mkX { xb : bytes; xoff : Z; xbad : bool }.
#[export] Instance eta_xdrReader : Eta xdrReader := fun x => mkX (xb x) (xoff x) (xbad x).

(** A method of the reader: it may panic, and it updates the reader. *)
Definition xdr (A : Type) : Type := xdrReader -> outcome (A * xdrReader).
#[export] Instance xdr_ret : MRet xdr := fun A a x => Ret (a, x).
#[export] Instance xdr_bind : MBind xdr := fun A B k m x =>
  match m x with
  | Ret (a, x') => k a x'
  | Panic => Panic
  | OutOfFuel => OutOfFuel
  end.

(** [x.bad] read, and code of the outcome monad run between reads. *)
Definition isbad : xdr bool := fun x => Ret (xbad x, x).
Definition lift {A} (m : outcome A) : xdr A := fun x => a ← m; Ret (a, x).
Definition setbad : xdr unit := fun x => Ret (tt, x <| xbad := true |>).

Definition x_u32 : xdr Z := fun x =>
  if xbad x || (len (xb x) <? xoff x + 4) then Ret (0, x <| xbad := true |>)
  else v ← u32at (xb x) (xoff x); Ret (v, x <| xoff := xoff x + 4 |>).

(** A nil slice is the empty one. *)
Definition x_take (n : Z) : xdr bytes := fun x =>
  if xbad x || (len (xb x) - xoff x <? n) then Ret ([], x <| xbad := true |>)
  else
    let stop := xoff x + n in
    out ← slice (xb x) (xoff x) stop;
    let pad := (4 - n mod 4) mod 4 in
    if len (xb x) <? stop + pad then Ret (out, x <| xoff := len (xb x) |>)
    else Ret (out, x <| xoff := stop + pad |>).

Definition x_skip (n : Z) : xdr unit := fun x =>
  if xbad x || (len (xb x) - xoff x <? n) then Ret (tt, x <| xbad := true |>)
  else Ret (tt, x <| xoff := xoff x + n |>).

Definition x_addr : xdr Addr :=
  ty ← x_u32;
  if ty =? sflowAddrIPv4 then b ← x_take 4; mret (addrOrZero b)
  else if ty =? sflowAddrIPv6 then b ← x_take 16; mret (addrOrZero b)
  else if ty =? 0 then mret AddrZero
  else _ ← setbad; mret AddrZero.

(** [x.take(x.u32())] *)
Definition x_opaque : xdr bytes := n ← x_u32; x_take n.

Definition run {A} (m : xdr A) (b : bytes) : outcome A :=
  '(a, _) ← m (mkX b 0 false); Ret a.

(** ** Packet headers *)

(** [parseL4]: it looks at the protocol already in the record. *)
Definition parseL4 (h : bytes) (r : Record) : outcome Record :=
  let ports (r : Record) : outcome Record :=
    if 4 <=? len h then
      s ← u16at h 0; d ← u16at h 2; Ret (r <| SrcPort := s |> <| DstPort := d |>)
    else Ret r in
  let p := Protocol r in
  if p =? 6 then
    r ← ports r;
    if 14 <=? len h then f ← index h 13; Ret (r <| TCPFlags := bz f |>) else Ret r
  else if oneof p [17; 132] then ports r
  else if oneof p [1; 58] then
    if 2 <=? len h then
      a ← index h 0; b ← index h 1;
      Ret (r <| ICMPType := Z.lor (uint16 (Z.shiftl (bz a) 8)) (bz b) |>)
    else Ret r
  else Ret r.

Definition parseIPv4Header (h : bytes) (r : Record) : outcome Record :=
  if len h <? 20 then Ret r else
  b0 ← index h 0;
  if negb (Z.shiftr (bz b0) 4 =? 4) then Ret r else
  let ihl := Z.land (bz b0) 15 * 4 in
  if ihl <? 20 then Ret r else
  tos ← index h 1;
  proto ← index h 9;
  src ← slice h 12 16;
  dst ← slice h 16 20;
  let r := r <| TOS := bz tos |> <| Protocol := bz proto |>
             <| SrcAddr := V4 (be src) |> <| DstAddr := V4 (be dst) |> in
  frag ← u16at h 6;
  if negb (Z.land frag 8191 =? 0) || (len h <? ihl) then Ret r else
  rest ← slice_from h ihl;
  parseL4 rest r.

(** [for hops := 0; hops < 4; hops++]: [n] hops are left. *)
Fixpoint ipv6Hops (n : nat) (h : bytes) (next off : Z) (r : Record) : outcome Record :=
  match n with
  | O => Ret (r <| Protocol := next |>)
  | S n =>
      if oneof next [0; 43; 60] then
        if len h <? off + 2 then Ret (r <| Protocol := next |>) else
        nx ← index h off;
        hl ← index h (off + 1);
        ipv6Hops n h (bz nx) (off + (bz hl + 1) * 8) r
      else if next =? 44 then
        if len h <? off + 8 then Ret (r <| Protocol := next |>) else
        fo ← u16at h (off + 2);
        nx ← index h off;
        if negb (Z.shiftr fo 3 =? 0) then Ret (r <| Protocol := bz nx |>)
        else ipv6Hops n h (bz nx) (off + 8) r
      else
        let r := r <| Protocol := next |> in
        if off <=? len h then rest ← slice_from h off; parseL4 rest r else Ret r
  end.

Definition parseIPv6Header (h : bytes) (r : Record) : outcome Record :=
  if len h <? 40 then Ret r else
  b0 ← index h 0;
  if negb (Z.shiftr (bz b0) 4 =? 6) then Ret r else
  b1 ← index h 1;
  src ← slice h 8 24;
  dst ← slice h 24 40;
  nx ← index h 6;
  ipv6Hops 4 h (bz nx) 40
    (r <| TOS := Z.lor (uint8 (Z.shiftl (bz b0) 4)) (Z.shiftr (bz b1) 4) |>
       <| SrcAddr := Unmap (V6 (be src) "") |> <| DstAddr := Unmap (V6 (be dst) "") |>).

(** The VLAN tags: [None] is the [return] for a tag cut short. *)
Fixpoint vlanTags (n : nat) (first : bool) (h : bytes) (et off : Z) (r : Record)
    : outcome (option (Z * Z) * Record) :=
  match n with
  | O => Ret (Some (et, off), r)
  | S n =>
      if oneof et [33024; 34984; 37120] then
        if len h <? off + 4 then Ret (None, r) else
        r ← (if first then
               v ← u16at h off; Ret (r <| SrcVLAN := Z.land v 4095 |>)
             else Ret r);
        et ← u16at h (off + 2);
        vlanTags n false h et (off + 4) r
      else Ret (Some (et, off), r)
  end.

Definition parseEthernetHeader (h : bytes) (r : Record) : outcome Record :=
  if len h <? 14 then Ret r else
  dmac ← slice h 0 6;
  smac ← slice h 6 12;
  et ← u16at h 12;
  '(o, r) ← vlanTags 2 true h et 14 (r <| DstMAC := beUint dmac |> <| SrcMAC := beUint smac |>);
  match o with
  | None => Ret r
  | Some (et, off) =>
      if et =? 2048 then rest ← slice_from h off; parseIPv4Header rest r
      else if et =? 34525 then rest ← slice_from h off; parseIPv6Header rest r
      else Ret r
  end.

(** ** Records of a flow sample: the value returned and the record updated *)

Definition sflowReadRawHeader (rec : bytes) (r : Record) : outcome (Z * bool * Record) :=
  '(proto, frameLen, hdr, bad) ← run
    (proto ← x_u32; frameLen ← x_u32; _ ← x_skip 4; hdr ← x_opaque; bad ← isbad;
     mret (proto, frameLen, hdr, bad)) rec;
  if bad : bool then Ret (0, false, r) else
  r ← (if proto =? sflowHdrEthernet then parseEthernetHeader hdr r
       else if proto =? sflowHdrIPv4 then parseIPv4Header hdr r
       else if proto =? sflowHdrIPv6 then parseIPv6Header hdr r
       else Ret r);
  Ret (frameLen, true, r).

Definition sflowReadEthernetData (rec : bytes) (r : Record) : outcome Record :=
  '(src, dst, bad) ← run
    (_ ← x_skip 4; src ← x_take 6; dst ← x_take 6; bad ← isbad; mret (src, dst, bad)) rec;
  if bad : bool then Ret r else
  let r := if SrcMAC r =? 0 then r <| SrcMAC := beUint src |> else r in
  Ret (if DstMAC r =? 0 then r <| DstMAC := beUint dst |> else r).

Definition sflowReadIPData (rec : bytes) (r : Record) (v6 haveHeader : bool)
    : outcome (Z * bool * Record) :=
  let w := if v6 then 16 else 4 in
  '(length, proto, src, dst, sport, dport, flags, tos, bad) ← run
    (length ← x_u32; proto ← x_u32; src ← x_take w; dst ← x_take w;
     sport ← x_u32; dport ← x_u32; flags ← x_u32; tos ← x_u32; bad ← isbad;
     mret (length, proto, src, dst, sport, dport, flags, tos, bad)) rec;
  if bad : bool then Ret (0, false, r) else
  Ret (length, true,
    if negb haveHeader && negb (IsValid (SrcAddr r)) then
      r <| Protocol := narrow8 proto |> <| SrcAddr := addrOrZero src |>
        <| DstAddr := addrOrZero dst |> <| SrcPort := narrow16 sport |>
        <| DstPort := narrow16 dport |> <| TCPFlags := narrow8 flags |> <| TOS := narrow8 tos |>
    else r).

Definition sflowReadExtSwitch (rec : bytes) (r : Record) : outcome Record :=
  '(srcVLAN, dstVLAN, bad) ← run
    (s ← x_u32; _ ← x_skip 4; d ← x_u32; bad ← isbad; mret (s, d, bad)) rec;
  if bad : bool then Ret r else
  let v := Z.land (narrow16 srcVLAN) 4095 in
  let r := if v =? 0 then r else r <| SrcVLAN := v |> in
  let v := Z.land (narrow16 dstVLAN) 4095 in
  Ret (if v =? 0 then r else r <| DstVLAN := v |>).

Definition sflowReadExtRouter (rec : bytes) (r : Record) : outcome Record :=
  '(hop, srcMask, dstMask, bad) ← run
    (hop ← x_addr; s ← x_u32; d ← x_u32; bad ← isbad; mret (hop, s, d, bad)) rec;
  if bad : bool then Ret r else
  Ret (r <| NextHop := hop |> <| SrcMask := narrow8 srcMask |> <| DstMask := narrow8 dstMask |>).

(** The AS numbers of one path segment; the last one read is kept. *)
Fixpoint asSegment (n : nat) (dstAS : Z) : xdr Z :=
  match n with
  | O => mret dstAS
  | S n => a ← x_u32; asSegment n a
  end.

(** The segments of the path; [None] is the [return]. *)
Fixpoint asPath (n : nat) (total dstAS : Z) : xdr (option Z) :=
  match n with
  | O => mret (Some dstAS)
  | S n =>
      _ ← x_skip 4;
      count ← x_u32;
      bad ← isbad;
      if (bad : bool) || (uint32 (sflowMaxASPathTotal - total) <? count) then mret None else
      dstAS ← asSegment (Z.to_nat count) dstAS;
      asPath n (uint32 (total + count)) dstAS
  end.

Definition sflowReadExtGateway (rec : bytes) (r : Record) : outcome Record :=
  o ← run
    (hop ← x_addr; ownAS ← x_u32; srcAS ← x_u32; _ ← x_skip 4; segments ← x_u32; bad ← isbad;
     if (bad : bool) || (sflowMaxASPathTotal <? segments) then mret None else
     p ← asPath (Z.to_nat segments) 0 0;
     match p with
     | None => mret None
     | Some dstAS =>
         bad ← isbad;
         if bad : bool then mret None
         else mret (Some (hop, srcAS, if segments =? 0 then ownAS else dstAS))
     end) rec;
  match o with
  | None => Ret r
  | Some (hop, srcAS, dstAS) =>
      Ret (r <| BGPNextHop := hop |> <| SrcAS := srcAS |> <| DstAS := dstAS |>)
  end.

(** ** Flow samples *)

Definition sflowIf (format value : Z) : Z :=
  if negb (format =? 0) || (value =? sflowIfUnknown) then 0 else value.

(** The variables of the record loop of [decodeSFlowSample]. *)
Record sampleState : Type := mkSample { s_r : Record; frameLen : Z; haveHeader : bool }.

(** The switch on one record. *)
Definition sampleRecord (format : Z) (rec : bytes) (s : sampleState) : outcome sampleState :=
  let keep (m : outcome Record) : outcome sampleState :=
    r ← m; Ret (mkSample r (frameLen s) (haveHeader s)) in
  if negb (Z.shiftr format 12 =? 0) then Ret s else
  let k := Z.land format 4095 in
  if k =? sflowRawHeader then
    '(l, ok, r) ← sflowReadRawHeader rec (s_r s);
    Ret (if ok : bool then mkSample r l true else mkSample r (frameLen s) (haveHeader s))
  else if k =? sflowEthernetFrame then keep (sflowReadEthernetData rec (s_r s))
  else if oneof k [sflowIPv4Data; sflowIPv6Data] then
    '(l, ok, r) ← sflowReadIPData rec (s_r s) (k =? sflowIPv6Data) (haveHeader s);
    Ret (mkSample r (if ok && negb (haveHeader s) then l else frameLen s) (haveHeader s))
  else if k =? sflowExtSwitch then keep (sflowReadExtSwitch rec (s_r s))
  else if k =? sflowExtRouter then keep (sflowReadExtRouter rec (s_r s))
  else if k =? sflowExtGateway then keep (sflowReadExtGateway rec (s_r s))
  else Ret s.

(** The record loop; [None] is the [return] for a record that does not fit. *)
Fixpoint sampleRecords (n : nat) (s : sampleState) : xdr (option sampleState) :=
  match n with
  | O => mret (Some s)
  | S n =>
      format ← x_u32;
      rec ← x_opaque;
      bad ← isbad;
      if bad : bool then mret None else
      s ← lift (sampleRecord format rec s);
      sampleRecords n s
  end.

(** The header of a sample, then its records. *)
Definition decodeSFlowSample (body : bytes) (expanded : bool) : outcome (option Record) :=
  o ← run
    (_ ← x_skip 4;
     _ ← (if expanded then x_skip 8 else x_skip 4);
     rate ← x_u32;
     _ ← x_skip 4;
     _ ← x_skip 4;
     ifs ← (if expanded then
              inF ← x_u32; inV ← x_u32; outF ← x_u32; outV ← x_u32;
              mret (sflowIf inF inV, sflowIf outF outV)
            else
              i ← x_u32; o ← x_u32;
              mret (sflowIf (Z.shiftr i 30) (Z.land i 1073741823),
                    sflowIf (Z.shiftr o 30) (Z.land o 1073741823)));
     n ← x_u32;
     bad ← isbad;
     if (bad : bool) || (sflowMaxRecords <? n) then mret None else
     let r := zeroRecord <| Type_ := "sflow" |>
                <| InputIf := fst ifs |> <| OutputIf := snd ifs |> in
     s ← sampleRecords (Z.to_nat n) (mkSample r 0 false);
     mret (match s with Some s => Some (rate, s) | None => None end)) body;
  match o with
  | None => Ret None
  | Some (rate, s) =>
      let r := s_r s in
      if negb (IsValid (SrcAddr r)) || negb (IsValid (DstAddr r)) then Ret None else
      let rate := if rate =? 0 then 1 else rate in
      Ret (Some (r <| SamplingRate := rate |> <| Sampled := 1 <? rate |>
                   <| Packets := rate |> <| Bytes := uint64 (frameLen s * rate) |>))
  end.

(** ** Datagrams *)

(** The switch on one sample: the record it yields, if it does. *)
Definition sflowSample (format : Z) (body : bytes) : outcome (list Record) :=
  if negb (Z.shiftr format 12 =? 0) then Ret [] else
  let k := Z.land format 4095 in
  let one (expanded : bool) : outcome (list Record) :=
    o ← decodeSFlowSample body expanded; Ret (match o with Some r => [r] | None => [] end) in
  if k =? sflowFlowSample then one false
  else if k =? sflowExpandedFlowSample then one true
  else Ret [].

(** The sample loop; [inr i] is the error for sample [i]. *)
Fixpoint sflowSamples (n : nat) (i : Z) (acc : list Record) : xdr (list Record + Z) :=
  match n with
  | O => mret (inl acc)
  | S n =>
      format ← x_u32;
      body ← x_opaque;
      bad ← isbad;
      if bad : bool then mret (inr i) else
      rs ← lift (sflowSample format body);
      sflowSamples n (i + 1) (acc ++ rs)
  end.

Definition DecodeSFlow (b : bytes) (from : Addr) : outcome (option Packet * option error) :=
  run
   (v ← x_u32;
    bad ← isbad;
    if (bad : bool) || negb (v =? sflowVersion) then
      mret (None, Some (if bad : bool then ErrShortPacket 4 (len b)
                        else Errorf ("flow: not an sFlow v5 datagram (version " +:+ Itoa v +:+ ")")))
    else
    _ ← x_addr;
    _ ← x_skip 4;
    _ ← x_skip 4;
    _ ← x_skip 4;
    n ← x_u32;
    bad ← isbad;
    if bad : bool then
      mret (None, Some (Errorf ("flow: truncated sFlow header (" +:+ Itoa (len b) +:+ " bytes)")))
    else if sflowMaxSamples <? n then
      mret (None, Some (Errorf ("flow: sFlow datagram claims " +:+ Itoa n +:+
                                " samples, max is " +:+ Itoa sflowMaxSamples)))
    else
    res ← sflowSamples (Z.to_nat n) 0 [];
    match res with
    | inl rs => mret (Some (mkPacket from rs), None)
    | inr i =>
        mret (None, Some (Errorf ("flow: sFlow sample " +:+ Itoa (i + 1) +:+ " of " +:+ Itoa n +:+
                                  " does not fit the datagram")))
    end) b.

(** * Totality *)

Definition rd_ok (x : xdrReader) : Prop := 0 <= xoff x <= len (xb x).

(** [m] returns from every reader within its buffer, leaves the reader within
    it, and yields a value that satisfies [Q]. *)
Definition xpost {A} (m : xdr A) (Q : A -> Prop) : Prop :=
  forall x, rd_ok x -> wp (m x) (fun '(a, x') => rd_ok x' /\ Q a).

Lemma xpost_ret {A} (a : A) (Q : A -> Prop) : Q a -> xpost (mret a) Q.
Proof. by intros ? x Hx. Qed.

Lemma xpost_bind {A B} (m : xdr A) (k : A -> xdr B) (P : A -> Prop) (Q : B -> Prop) :
  xpost m P -> (forall a, P a -> xpost (k a) Q) -> xpost (m ≫= k) Q.
Proof.
  intros Hm Hk x Hx. specialize (Hm x Hx). unfold mbind, xdr_bind.
  destruct (m x) as [[a x']| |]; simpl in *; try done. destruct Hm as [Hx' Ha].
  by apply (Hk a Ha).
Qed.

Lemma xpost_mono {A} (m : xdr A) (P Q : A -> Prop) :
  xpost m P -> (forall a, P a -> Q a) -> xpost m Q.
Proof.
  intros Hm HPQ x Hx. eapply wp_mono; [by apply Hm|]. intros [a x'] [??]. auto.
Qed.

Lemma xpost_run {A} (m : xdr A) (Q : A -> Prop) b : xpost m Q -> wp (run m b) Q.
Proof.
  intros Hm. unfold run. apply wp_bind. eapply wp_mono.
  - apply Hm. split; [done|]. apply len_nonneg.
  - by intros [a x'] [_ ?].
Qed.

Lemma xpost_lift {A} (m : outcome A) (Q : A -> Prop) : wp m Q -> xpost (lift m) Q.
Proof.
  intros Hm x Hx. unfold lift. apply wp_bind. eapply wp_mono; [exact Hm|]. by intros a Ha.
Qed.

Lemma xpost_isbad : xpost isbad (fun _ => True).
Proof. by intros x Hx. Qed.

Lemma xpost_setbad : xpost setbad (fun _ => True).
Proof. by intros x Hx. Qed.

Lemma xpost_u32 : xpost x_u32 is_u32.
Proof.
  intros x [H0 H1]. unfold x_u32. destruct (xbad x); [done|]. cbn [orb].
  destruct (Z.ltb_spec (len (xb x)) (xoff x + 4)); [done|].
  apply wp_bind, wp_u32at; [lia..|]. intros v _ Hv. split; [split; simpl; lia | done].
Qed.

Lemma xpost_take n : 0 <= n -> xpost (x_take n) (fun b => len b <= n).
Proof.
  intros Hn x [H0 H1]. unfold x_take. destruct (xbad x); [by repeat split|]. cbn [orb].
  destruct (Z.ltb_spec (len (xb x) - xoff x) n); [by repeat split|].
  pose proof (Z.mod_pos_bound (4 - n mod 4) 4).
  apply wp_bind, wp_slice; [lia..|]. intros s _ Hs.
  destruct (Z.ltb_spec (len (xb x)) (xoff x + n + (4 - n mod 4) mod 4));
    (split; [split; simpl; lia | lia]).
Qed.

Lemma xpost_skip n : 0 <= n -> xpost (x_skip n) (fun _ => True).
Proof.
  intros Hn x [H0 H1]. unfold x_skip. destruct (xbad x); [done|]. cbn [orb].
  destruct (Z.ltb_spec (len (xb x) - xoff x) n); [done|]. split; [split; simpl; lia | done].
Qed.

Lemma xpost_opaque : xpost x_opaque (fun _ => True).
Proof.
  eapply xpost_bind; [apply xpost_u32|]. intros n [Hn _].
  eapply xpost_mono; [by apply xpost_take|done].
Qed.

Lemma xpost_addr : xpost x_addr Addr_wf.
Proof.
  unfold x_addr. eapply xpost_bind; [apply xpost_u32|]. intros ty _.
  assert (forall n, 0 <= n -> xpost (b ← x_take n; mret (addrOrZero b)) Addr_wf) as Ht.
  { intros n Hn. eapply xpost_bind; [by apply xpost_take|]. intros b _.
    apply xpost_ret, addrOrZero_wf. }
  destruct (_ =? _); [by apply Ht|]. destruct (_ =? _); [by apply Ht|].
  destruct (_ =? _); [by apply xpost_ret|].
  eapply xpost_bind; [apply xpost_setbad|]. intros _ _. by apply xpost_ret.
Qed.

(** One read of straight-line XDR code. *)
Ltac xstep :=
  eapply xpost_bind;
  [ first [ apply xpost_u32 | apply xpost_take; lia | apply xpost_skip; lia
          | apply xpost_opaque | apply xpost_addr | apply xpost_isbad ]
  | let v := fresh "v" in let H := fresh "Hv" in intros v H ].

(** ** Packet headers *)

(** Reads of straight-line code over a byte slice. *)
Ltac bstep :=
  apply wp_bind;
  first [ apply wp_u16at; [lia..|]; intros ? _ ?
        | apply wp_index; [lia|]; intros ? _
        | apply wp_slice_from; [lia..|]; intros ? _ ?
        | apply wp_slice; [lia..|]; intros ? _ ? ].

Lemma lor_u8_u16 a b : is_u8 a -> is_u8 b -> is_u16 (Z.lor (uint16 (Z.shiftl a 8)) b).
Proof.
  intros Ha Hb. rewrite Z.shiftl_mul_pow2 by lia. unfold uint16, is_u8, is_u16 in *.
  rewrite Z.mod_small by lia. rewrite lor_low by lia. lia.
Qed.

Lemma land_ones_bounds z n : 0 <= n -> 0 <= Z.land z (Z.ones n) < 2 ^ n.
Proof. intros. rewrite Z.land_ones by done. apply Z.mod_pos_bound. lia. Qed.

Lemma land4095_u16 z : is_u16 (Z.land z 4095).
Proof. pose proof (land_ones_bounds z 12). unfold is_u16. change (Z.ones 12) with 4095 in *. lia. Qed.

Lemma tos_v6_u8 a b : is_u8 a -> is_u8 b -> is_u8 (Z.lor (uint8 (Z.shiftl a 4)) (Z.shiftr b 4)).
Proof.
  intros Ha Hb. rewrite Z.shiftl_mul_pow2, Z.shiftr_div_pow2 by lia. unfold uint8, is_u8 in *.
  assert ((a * 2 ^ 4) mod 2 ^ 8 = a mod 2 ^ 4 * 2 ^ 4) as ->.
  { change (2 ^ 8) with (2 ^ 4 * 2 ^ 4). by rewrite Z.mul_mod_distr_r by lia. }
  pose proof (Z.mod_pos_bound a (2 ^ 4)).
  assert (0 <= b / 2 ^ 4 < 2 ^ 4) by (split; [apply Z.div_pos | apply Z.div_lt_upper_bound]; lia).
  rewrite lor_low by lia. lia.
Qed.

Lemma be_addr_wf4 s : len s = 4 -> Addr_wf (V4 (be s)).
Proof. intros Hs. apply (be_lt _ _ Hs). Qed.
Lemma be_addr_wf16 s : len s = 16 -> Addr_wf (Unmap (V6 (be s) "")).
Proof. intros Hs. apply Unmap_wf, (be_lt _ _ Hs). Qed.

#[local] Hint Resolve lor_u8_u16 land4095_u16 tos_v6_u8 beUint_u64 narrow8_u8 narrow16_u16
  addrOrZero_wf : go.
#[local] Hint Extern 1 (Addr_wf (V4 (be _))) => apply be_addr_wf4; lia : go.
#[local] Hint Extern 1 (Addr_wf (Unmap (V6 (be _) ""))) => apply be_addr_wf16; lia : go.
#[local] Hint Extern 1 (0 <= _) => (unfold is_u8, is_u16, is_u32, is_u64 in *; lia) : go.

Lemma parseL4_wf h r : Record_wf r -> wp (parseL4 h r) Record_wf.
Proof.
  intros Hr. unfold parseL4.
  assert (forall Q : Record -> Prop,
    (forall r', Record_wf r' -> Q r') ->
    wp (if 4 <=? len h then s ← u16at h 0; d ← u16at h 2; Ret (r <| SrcPort := s |> <| DstPort := d |>)
        else Ret r) Q) as Hp.
  { intros Q HQ. destruct (Z.leb_spec 4 (len h)); [|by apply HQ].
    do 2 bstep. apply HQ. destruct Hr. record_wf. }
  destruct (_ =? _); [|destruct (oneof _ _); [by apply Hp | destruct (oneof _ _); [|done]]].
  - apply wp_bind, Hp. intros r' Hr'. destruct (Z.leb_spec 14 (len h)); [|done].
    bstep. destruct Hr'. simpl. record_wf.
  - destruct (Z.leb_spec 2 (len h)); [|done]. do 2 bstep. destruct Hr. simpl. record_wf.
Qed.

Lemma parseIPv4Header_wf h r : Record_wf r -> wp (parseIPv4Header h r) Record_wf.
Proof.
  intros Hr. unfold parseIPv4Header. destruct (Z.ltb_spec (len h) 20); [done|].
  apply wp_bind, wp_index; [lia|]. intros b0 _.
  destruct (negb _); [done|]. set (ihl := Z.land (bz b0) 15 * 4).
  destruct (Z.ltb_spec ihl 20); [done|]. do 4 bstep.
  assert (forall r', r' = r <| TOS := bz x |> <| Protocol := bz x0 |> <| SrcAddr := V4 (be s) |>
    <| DstAddr := V4 (be s0) |> -> Record_wf r') as Hwf by (intros r' ->; destruct Hr; record_wf).
  specialize (Hwf _ eq_refl). bstep. destruct (negb _); [done|]. cbn [orb].
  destruct (Z.ltb_spec (len h) ihl); [done|]. bstep. by apply parseL4_wf.
Qed.

Lemma ipv6Hops_wf n h next off r :
  0 <= off -> is_u8 next -> Record_wf r -> wp (ipv6Hops n h next off r) Record_wf.
Proof.
  revert next off. induction n as [|n IH]; intros next off Hoff Hnext Hr; cbn [ipv6Hops].
  { destruct Hr. simpl. record_wf. }
  assert (forall p, is_u8 p -> Record_wf (r <| Protocol := p |>)) as Hp
    by (intros p ?; destruct Hr; record_wf).
  destruct (oneof _ _).
  { destruct (Z.ltb_spec (len h) (off + 2)); [by apply Hp|]. do 2 bstep.
    pose proof (bz_bounds x0). apply IH; auto with go. }
  destruct (_ =? _).
  { destruct (Z.ltb_spec (len h) (off + 8)); [by apply Hp|]. do 2 bstep.
    destruct (negb _); [apply Hp; auto with go|]. apply IH; auto with go. }
  destruct (Z.leb_spec off (len h)); [|by apply Hp]. bstep. apply parseL4_wf. by apply Hp.
Qed.

Lemma parseIPv6Header_wf h r : Record_wf r -> wp (parseIPv6Header h r) Record_wf.
Proof.
  intros Hr. unfold parseIPv6Header. destruct (Z.ltb_spec (len h) 40); [done|].
  bstep. destruct (negb _); [done|]. do 4 bstep.
  apply ipv6Hops_wf; [done | auto with go |]. destruct Hr. record_wf.
Qed.

Lemma vlanTags_wf n first h et off r :
  0 <= off -> off <= len h -> Record_wf r ->
  wp (vlanTags n first h et off r) (fun '(o, r') => Record_wf r' /\
    forall et' off', o = Some (et', off') -> off <= off' /\ off' <= len h).
Proof.
  revert first et off r. induction n as [|n IH]; intros first et off r H0 H1 Hr; cbn [vlanTags].
  { split; [done|]. intros ?? [= <- <-]. lia. }
  destruct (oneof _ _); [|split; [done|]; intros ?? [= <- <-]; lia].
  destruct (Z.ltb_spec (len h) (off + 4)); [by split|].
  apply wp_bind. apply (wp_mono _ Record_wf).
  - destruct first; [|done]. bstep. destruct Hr. simpl. record_wf.
  - intros r' Hr'. bstep. eapply wp_mono; [apply IH; [lia|lia|done]|].
    intros [o r''] [? Ho]. split; [done|]. intros et' off' E. destruct (Ho _ _ E). lia.
Qed.

Lemma parseEthernetHeader_wf h r : Record_wf r -> wp (parseEthernetHeader h r) Record_wf.
Proof.
  intros Hr. unfold parseEthernetHeader. destruct (Z.ltb_spec (len h) 14); [done|].
  do 3 bstep. apply wp_bind. eapply wp_mono; [apply vlanTags_wf; [lia|lia|]|].
  - destruct Hr. record_wf.
  - intros [[[et off]|] r'] [Hr' Ho]; [|done]. destruct (Ho _ _ eq_refl).
    destruct (_ =? _); [bstep; by apply parseIPv4Header_wf|].
    destruct (_ =? _); [bstep; by apply parseIPv6Header_wf|done].
Qed.

(** ** Records of a sample *)

Lemma sflowReadRawHeader_wf rec r : Record_wf r ->
  wp (sflowReadRawHeader rec r) (fun '(l, ok, r') => is_u32 l /\ Record_wf r').
Proof.
  intros Hr. unfold sflowReadRawHeader. apply wp_bind.
  apply (wp_mono _ (fun '(proto, l, hdr, bad) => is_u32 l)).
  - apply xpost_run. do 5 xstep. by apply xpost_ret.
  - intros [[[proto l] hdr] bad] Hl. destruct bad; [by split|].
    apply wp_bind. apply (wp_mono _ Record_wf); [|done].
    repeat case_match; auto using parseEthernetHeader_wf, parseIPv4Header_wf, parseIPv6Header_wf.
Qed.

Lemma sflowReadEthernetData_wf rec r : Record_wf r -> wp (sflowReadEthernetData rec r) Record_wf.
Proof.
  intros Hr. unfold sflowReadEthernetData. apply wp_bind. apply (wp_mono _ (fun _ => True)).
  - apply xpost_run. do 4 xstep. by apply xpost_ret.
  - intros [[src dst] bad] _. destruct bad; [done|]. destruct Hr.
    repeat case_match; simpl; record_wf.
Qed.

Lemma sflowReadIPData_wf rec r v6 hh : Record_wf r ->
  wp (sflowReadIPData rec r v6 hh) (fun '(l, ok, r') => is_u32 l /\ Record_wf r').
Proof.
  intros Hr. unfold sflowReadIPData. apply wp_bind.
  apply (wp_mono _ (fun '(l, proto, src, dst, sport, dport, flags, tos, bad) =>
    is_u32 l /\ is_u32 proto /\ is_u32 sport /\ is_u32 dport /\ is_u32 flags /\ is_u32 tos)).
  - apply xpost_run. destruct v6; do 9 xstep; by apply xpost_ret.
  - intros [[[[[[[[l proto] src] dst] sport] dport] flags] tos] bad] (Hl & ? & ? & ? & ? & ?).
    destruct bad; [done|]. split; [done|]. case_match; [|done]. destruct Hr. record_wf.
Qed.

Lemma sflowReadExtSwitch_wf rec r : Record_wf r -> wp (sflowReadExtSwitch rec r) Record_wf.
Proof.
  intros Hr. unfold sflowReadExtSwitch. apply wp_bind. apply (wp_mono _ (fun _ => True)).
  - apply xpost_run. do 4 xstep. by apply xpost_ret.
  - intros [[s d] bad] _. destruct bad; [done|]. destruct Hr.
    repeat case_match; simpl; record_wf.
Qed.

Lemma sflowReadExtRouter_wf rec r : Record_wf r -> wp (sflowReadExtRouter rec r) Record_wf.
Proof.
  intros Hr. unfold sflowReadExtRouter. apply wp_bind.
  apply (wp_mono _ (fun '(hop, s, d, bad) => Addr_wf hop /\ is_u32 s /\ is_u32 d)).
  - apply xpost_run. do 4 xstep. by apply xpost_ret.
  - intros [[[hop s] d] bad] (? & ? & ?). destruct bad; [done|]. destruct Hr. simpl. record_wf.
Qed.

Lemma asSegment_post n a : is_u32 a -> xpost (asSegment n a) is_u32.
Proof.
  revert a. induction n as [|n IH]; intros a Ha; [by apply xpost_ret|]. cbn [asSegment].
  xstep. by apply IH.
Qed.

Lemma asPath_post n total a : is_u32 a -> xpost (asPath n total a) (fun o => forall d, o = Some d -> is_u32 d).
Proof.
  revert total a. induction n as [|n IH]; intros total a Ha; cbn [asPath].
  { apply xpost_ret. by intros ? [= <-]. }
  do 3 xstep. destruct (_ || _); [by apply xpost_ret|].
  eapply xpost_bind; [by apply asSegment_post|]. intros d Hd. by apply IH.
Qed.

Lemma sflowReadExtGateway_wf rec r : Record_wf r -> wp (sflowReadExtGateway rec r) Record_wf.
Proof.
  intros Hr. unfold sflowReadExtGateway. apply wp_bind.
  apply (wp_mono _ (fun o => forall hop s d, o = Some (hop, s, d) -> Addr_wf hop /\ is_u32 s /\ is_u32 d)).
  - apply xpost_run. do 6 xstep. destruct (_ || _); [by apply xpost_ret|].
    eapply xpost_bind; [by apply asPath_post|]. intros [d|] Hd; [|by apply xpost_ret].
    specialize (Hd d eq_refl). xstep. destruct v5; [by apply xpost_ret|].
    apply xpost_ret. intros ??? [= <- <- <-]. repeat (split; [assumption|]). by case_match.
  - intros [[[hop s] d]|] H; [|done]. destruct (H _ _ _ eq_refl) as (? & ? & ?).
    destruct Hr. simpl. record_wf.
Qed.

Definition sample_wf (s : sampleState) : Prop := Record_wf (s_r s) /\ is_u32 (frameLen s).

Lemma sampleRecord_wf format rec s : sample_wf s -> wp (sampleRecord format rec s) sample_wf.
Proof.
  intros [Hr Hl]. unfold sampleRecord.
  assert (forall m, wp m Record_wf ->
    wp (r ← m; Ret (mkSample r (frameLen s) (haveHeader s))) sample_wf) as Hkeep.
  { intros m Hm. apply wp_bind. eapply wp_mono; [exact Hm|]. by intros r' Hr'. }
  destruct (negb _); [done|].
  destruct (_ =? _).
  { apply wp_bind. eapply wp_mono; [by apply sflowReadRawHeader_wf|].
    intros [[l ok] r'] [Hl' Hr']. by destruct ok. }
  destruct (_ =? _); [by apply Hkeep, sflowReadEthernetData_wf|].
  destruct (oneof _ _).
  { apply wp_bind. eapply wp_mono; [by apply sflowReadIPData_wf|].
    intros [[l ok] r'] [Hl' Hr']. split; [done|]. simpl. by case_match. }
  destruct (_ =? _); [by apply Hkeep, sflowReadExtSwitch_wf|].
  destruct (_ =? _); [by apply Hkeep, sflowReadExtRouter_wf|].
  destruct (_ =? _); [by apply Hkeep, sflowReadExtGateway_wf|]. done.
Qed.

Lemma sampleRecords_wf n s : sample_wf s ->
  xpost (sampleRecords n s) (fun o => forall s', o = Some s' -> sample_wf s').
Proof.
  revert s. induction n as [|n IH]; intros s Hs; cbn [sampleRecords].
  { apply xpost_ret. by intros ? [= <-]. }
  do 3 xstep. destruct (v1 : bool); [by apply xpost_ret|].
  eapply xpost_bind; [by apply xpost_lift, sampleRecord_wf|]. intros s' Hs'. by apply IH.
Qed.

(** What an sFlow record is: a frame, counted [SamplingRate] times. *)
Definition sflow_ok (r : Record) : Prop :=
  flow_ok r /\ 1 <= SamplingRate r /\ Packets r = SamplingRate r /\
  Sampled r = (1 <? SamplingRate r) /\
  exists l, is_u32 l /\ Bytes r = l * SamplingRate r.

Lemma sflowIf_u32 f v : is_u32 v -> is_u32 (sflowIf f v).
Proof. intros. unfold sflowIf. by case_match. Qed.

Lemma land30_u32 z : is_u32 (Z.land z 1073741823).
Proof.
  pose proof (land_ones_bounds z 30). change (Z.ones 30) with 1073741823 in *. unfold is_u32. lia.
Qed.

Lemma decodeSFlowSample_total body expanded :
  wp (decodeSFlowSample body expanded) (fun o => forall r, o = Some r -> sflow_ok r).
Proof.
  unfold decodeSFlowSample. apply wp_bind.
  apply (wp_mono _ (fun o => forall rate s, o = Some (rate, s) -> is_u32 rate /\ sample_wf s)).
  - apply xpost_run. xstep.
    apply (xpost_bind _ _ (fun _ => True)); [destruct expanded; apply xpost_skip; lia|].
    intros _ _. do 3 xstep.
    apply (xpost_bind _ _ (fun p : Z * Z => is_u32 (fst p) /\ is_u32 (snd p))).
    { destruct expanded.
      - do 4 xstep. apply xpost_ret. split; by apply sflowIf_u32.
      - do 2 xstep. apply xpost_ret. split; apply sflowIf_u32, land30_u32. }
    intros ifs [Hi Ho]. do 2 xstep. destruct (_ || _); [by apply xpost_ret|].
    eapply xpost_bind; [apply sampleRecords_wf|].
    + split; [|by split]. pose proof Record_wf_zero as []. simpl in *. record_wf.
    + intros [s|] Hs; apply xpost_ret; [|done]. intros rate s' [= <- <-]. auto.
  - intros [[rate s]|] H; [|done]. destruct (H _ _ eq_refl) as [Hrate [Hr Hl]].
    destruct (IsValid (SrcAddr (s_r s))) eqn:Es; [|done].
    destruct (IsValid (DstAddr (s_r s))) eqn:Ed; [|done]. cbn [negb orb].
    apply IsValid_true in Es, Ed. intros r [= <-].
    set (n := if rate =? 0 then 1 else rate).
    assert (1 <= n < 2 ^ 32) as Hn by (subst n; unfold is_u32 in Hrate; destruct (Z.eqb_spec rate 0); lia).
    unfold is_u32 in Hl.
    assert (is_u32 n /\ is_u64 n) as [? ?] by (unfold is_u32, is_u64; lia).
    assert (uint64 (frameLen s * n) = frameLen s * n) as E
      by (apply uint64_small; unfold is_u64; nia).
    split; [|simpl; rewrite E; repeat split; [lia|]; exists (frameLen s); done].
    split; [destruct Hr; record_wf | done].
Qed.

Lemma sflowSample_total format body :
  wp (sflowSample format body) (fun rs => len rs <= 1 /\ Forall sflow_ok rs).
Proof.
  unfold sflowSample.
  assert (forall e, wp (o ← decodeSFlowSample body e; Ret (match o with Some r => [r] | None => [] end))
    (fun rs => len rs <= 1 /\ Forall sflow_ok rs)) as Hone.
  { intros e. apply wp_bind. eapply wp_mono; [apply decodeSFlowSample_total|].
    intros [r|] Hr; (split; [done|]); constructor; auto. }
  repeat case_match; auto; by repeat split.
Qed.

Lemma sflowSamples_total n i acc :
  0 <= i -> len acc <= i -> Forall sflow_ok acc ->
  xpost (sflowSamples n i acc) (fun res =>
    match res with
    | inl rs => len rs <= i + Z.of_nat n /\ Forall sflow_ok rs
    | inr j => i <= j < i + Z.of_nat n
    end).
Proof.
  revert i acc. induction n as [|n IH]; intros i acc Hi Hl Hok; cbn [sflowSamples].
  { apply xpost_ret. split; [lia|done]. }
  do 3 xstep. destruct (v1 : bool); [apply xpost_ret; lia|].
  eapply xpost_bind; [apply xpost_lift, sflowSample_total|]. intros rs [Hrs Hok'].
  eapply xpost_mono.
  - apply IH; [lia | len_lia | by apply Forall_app].
  - intros [rs'|j]; [intros [? ?]; split; [lia|done] | lia].
Qed.

Lemma DecodeSFlow_wp b from :
  wp (DecodeSFlow b from) (fun '(p, e) =>
    (p = None /\ e <> None) \/
    (e = None /\ exists pk, p = Some pk /\ ExporterIP pk = from /\
       len (Records pk) <= 512 /\ Forall sflow_ok (Records pk))).
Proof.
  unfold DecodeSFlow. apply xpost_run. do 2 xstep.
  destruct (_ || _); [apply xpost_ret; by left|]. do 6 xstep.
  destruct (v6 : bool); [apply xpost_ret; by left|].
  unfold sflowMaxSamples. destruct (Z.ltb_spec 512 v5); [apply xpost_ret; by left|].
  eapply xpost_bind; [by apply sflowSamples_total|]. intros [rs|j] Hres.
  - destruct Hres as [Hl Hok]. unfold is_u32 in *. apply xpost_ret. right. split; [done|].
    eexists. split; [reflexivity|]. simpl. repeat split; [lia|done].
  - apply xpost_ret. by left.
Qed.

(** The sFlow decoder is total on every datagram: a forged count, length
    or address type is an error, never an out-of-range read or an unbounded
    loop. Without an error it returns at most 512 records from the sender,
    each well formed, with both addresses, standing for its sampling rate of
    packets, whose byte count is a 32-bit frame length times that rate
    exactly, never wrapped. *)
Theorem DecodeSFlow_total b from :
  wp (DecodeSFlow b from) (fun '(p, e) =>
    (p = None /\ e <> None) \/
    (e = None /\ exists pk, p = Some pk /\ ExporterIP pk = from /\
       len (Records pk) <= 512 /\ Forall sflow_ok (Records pk))).
Proof. apply DecodeSFlow_wp. Qed.

(** * Round trip *)

(** [parses m w a]: from any position, with the bytes [w] next, [m] consumes
    exactly [w] and yields [a]. *)
Definition parses {A} (m : xdr A) (w : bytes) (a : A) : Prop :=
  forall pre post, m (mkX (pre ++ w ++ post) (len pre) false)
    = Ret (a, mkX (pre ++ w ++ post) (len pre + len w) false).

Lemma parses_ret {A} (a : A) : parses (mret a) [] a.
Proof. intros pre post. by rewrite len_nil, Z.add_0_r. Qed.

Lemma parses_bind {A B} (m : xdr A) (k : A -> xdr B) w1 w2 a b :
  parses m w1 a -> parses (k a) w2 b -> parses (m ≫= k) (w1 ++ w2) b.
Proof.
  intros Hm Hk pre post. unfold mbind, xdr_bind. rewrite <- app_assoc, Hm.
  rewrite (app_assoc pre), <- len_app, Hk. rewrite !len_app, !Z.add_assoc. done.
Qed.

Lemma parses_u32 v : is_u32 v -> parses x_u32 (put_be 4 v) v.
Proof.
  intros Hv pre post. unfold x_u32. cbn [xbad xb xoff orb].
  pose proof (len_nonneg post).
  rewrite (proj2 (Z.ltb_ge _ _)) by len_lia. rewrite u32at_ret by len_lia.
  rewrite sub_app_exact by (rewrite ?len_put_be; done). by rewrite be_put_u32.
Qed.

Definition xdrPad (n : Z) : bytes := repeat Corelib.Init.Byte.x00 (Z.to_nat ((4 - n mod 4) mod 4)).

Lemma len_xdrPad n : len (xdrPad n) = (4 - n mod 4) mod 4.
Proof.
  unfold len, xdrPad. rewrite repeat_length. apply Z2Nat.id, Z.mod_pos_bound. lia.
Qed.

Lemma parses_take b : parses (x_take (len b)) (b ++ xdrPad (len b)) b.
Proof.
  intros pre post. unfold x_take. cbn [xbad xb xoff orb].
  pose proof (len_nonneg b). pose proof (len_nonneg post). pose proof (len_nonneg pre).
  pose proof (len_xdrPad (len b)). pose proof (len_nonneg (xdrPad (len b))).
  rewrite (proj2 (Z.ltb_ge _ _)) by len_lia. rewrite slice_ret by len_lia.
  rewrite <- app_assoc, sub_app_exact, bind_ret by done.
  rewrite (proj2 (Z.ltb_ge _ _)) by len_lia. unfold set; simpl. do 3 f_equal. len_lia.
Qed.

Lemma parses_take0 b n : len b = n -> n mod 4 = 0 -> parses (x_take n) b b.
Proof.
  intros <- Hm. pose proof (parses_take b) as H.
  assert (xdrPad (len b) = []) as E by (unfold xdrPad; by rewrite Hm).
  by rewrite E, app_nil_r in H.
Qed.

Lemma parses_skip b n : len b = n -> parses (x_skip n) b tt.
Proof.
  intros <- pre post. unfold x_skip. cbn [xbad xb xoff orb].
  pose proof (len_nonneg post). by rewrite (proj2 (Z.ltb_ge _ _)) by len_lia.
Qed.

Lemma parses_isbad : parses isbad [] false.
Proof. intros pre post. by rewrite len_nil, Z.add_0_r. Qed.

Lemma parses_lift {A} (m : outcome A) a : m = Ret a -> parses (lift m) [] a.
Proof. intros -> pre post. by rewrite len_nil, Z.add_0_r. Qed.

Lemma parses_run {A} (m : xdr A) w a post : parses m w a -> run m (w ++ post) = Ret a.
Proof.
  intros Hm. specialize (Hm [] post). unfold run.
  change (len (@nil byte)) with 0 in Hm. simpl in Hm. by rewrite Hm.
Qed.

(** A length-prefixed value with its padding. *)
Definition opaque_enc (b : bytes) : bytes := put_be 4 (len b) ++ b ++ xdrPad (len b).

Lemma parses_opaque b : is_u32 (len b) -> parses x_opaque (opaque_enc b) b.
Proof. intros Hb. eapply parses_bind; [by apply parses_u32 | apply parses_take]. Qed.

(** A tagged one: samples in a datagram, records in a sample. *)
Definition tagged_enc (fb : Z * bytes) : bytes := put_be 4 (fst fb) ++ opaque_enc (snd fb).
Definition tagged_wf (fb : Z * bytes) : Prop := is_u32 (fst fb) /\ is_u32 (len (snd fb)).

Fixpoint foldRecords (recs : list (Z * bytes)) (s : sampleState) : outcome sampleState :=
  match recs with
  | [] => Ret s
  | (f, b) :: recs => s ← sampleRecord f b s; foldRecords recs s
  end.

Lemma sampleRecords_parses recs s s' :
  Forall tagged_wf recs -> foldRecords recs s = Ret s' ->
  parses (sampleRecords (length recs) s) (concat (map tagged_enc recs)) (Some s').
Proof.
  intros Hwf. revert s. induction Hwf as [|[f b] recs [Hf Hb] _ IH]; intros s E.
  { injection E as <-. apply parses_ret. }
  cbn [foldRecords] in E. apply bind_Ret_inv in E as (s1 & E1 & E).
  cbn [length sampleRecords map concat]. unfold tagged_enc at 1. rewrite <- app_assoc.
  eapply parses_bind; [by apply parses_u32|].
  eapply parses_bind; [by apply parses_opaque|].
  rewrite <- (app_nil_l (concat _)). eapply parses_bind; [apply parses_isbad|]. cbv iota.
  rewrite <- (app_nil_l (concat _)). eapply parses_bind; [by apply parses_lift|]. by apply IH.
Qed.

Fixpoint flatSamples (samples : list (Z * bytes)) : outcome (list Record) :=
  match samples with
  | [] => Ret []
  | (f, b) :: samples => rs ← sflowSample f b; rest ← flatSamples samples; Ret (rs ++ rest)
  end.

Lemma sflowSamples_parses samples i acc rs :
  Forall tagged_wf samples -> flatSamples samples = Ret rs ->
  parses (sflowSamples (length samples) i acc) (concat (map tagged_enc samples)) (inl (acc ++ rs)).
Proof.
  intros Hwf. revert i acc rs. induction Hwf as [|[f b] samples [Hf Hb] _ IH]; intros i acc rs E.
  { injection E as <-. rewrite app_nil_r. apply parses_ret. }
  cbn [flatSamples] in E. apply bind_Ret_inv in E as (r1 & E1 & E).
  apply bind_Ret_inv in E as (r2 & E2 & [= <-]).
  cbn [length sflowSamples map concat]. unfold tagged_enc at 1. rewrite <- app_assoc.
  eapply parses_bind; [by apply parses_u32|].
  eapply parses_bind; [by apply parses_opaque|].
  rewrite <- (app_nil_l (concat _)). eapply parses_bind; [apply parses_isbad|]. cbv iota.
  rewrite <- (app_nil_l (concat _)). eapply parses_bind; [by apply parses_lift|].
  rewrite app_assoc. by apply IH.
Qed.

Lemma flatSamples_total samples : wp (flatSamples samples) (Forall sflow_ok).
Proof.
  induction samples as [|[f b] samples IH]; [constructor|]. cbn [flatSamples].
  apply wp_bind. eapply wp_mono; [apply sflowSample_total|]. intros rs [_ Hrs].
  apply wp_bind. eapply wp_mono; [exact IH|]. intros rest Hrest. by apply Forall_app.
Qed.

(** An agent's address; sFlow has a form for "unknown". *)
Definition agent_enc (a : Addr) : bytes :=
  match a with
  | AddrZero => put_be 4 0
  | V4 z => put_be 4 1 ++ put_be 4 z
  | V6 z _ => put_be 4 2 ++ put_be 16 z
  end.

Lemma parses_agent a : exists v, parses x_addr (agent_enc a) v.
Proof.
  unfold x_addr, agent_enc. destruct a as [|z|z zone]; eexists.
  - rewrite <- (app_nil_r (put_be 4 0)).
    eapply parses_bind; [by apply parses_u32|]. apply parses_ret.
  - eapply parses_bind; [by apply parses_u32|]. cbn [Z.eqb Pos.eqb sflowAddrIPv4].
    rewrite <- (app_nil_r (put_be 4 z)).
    eapply parses_bind; [by apply parses_take0|]. apply parses_ret.
  - eapply parses_bind; [by apply parses_u32|]. cbn [Z.eqb Pos.eqb sflowAddrIPv4 sflowAddrIPv6].
    rewrite <- (app_nil_r (put_be 16 z)).
    eapply parses_bind; [by apply parses_take0|]. apply parses_ret.
Qed.

Definition datagram_enc (agent : Addr) (subAgent seq uptime : Z) (samples : list (Z * bytes)) : bytes :=
  put_be 4 5 ++ agent_enc agent ++ put_be 4 subAgent ++ put_be 4 seq ++ put_be 4 uptime ++
  put_be 4 (len samples) ++ concat (map tagged_enc samples).

(** Framing: a datagram of at most 512 samples, of any formats, decodes
    to the records of its samples, in order, each sample read from exactly
    its own bytes; the agent address inside and whatever follows the last
    sample do not matter, and no error is reported. *)
Theorem sflow_framing agent sub seq up samples trailing from :
  Forall tagged_wf samples -> len samples <= 512 ->
  exists rs, flatSamples samples = Ret rs /\
    DecodeSFlow (datagram_enc agent sub seq up samples ++ trailing) from
    = Ret (Some (mkPacket from rs), None).
Proof.
  intros Hwf Hn. destruct (wp_inv _ _ (flatSamples_total samples)) as (rs & Ers & _).
  exists rs. split; [done|]. unfold DecodeSFlow. apply parses_run. unfold datagram_enc.
  pose proof (len_nonneg samples). destruct (parses_agent agent) as [a Ha].
  eapply parses_bind; [by apply parses_u32|].
  rewrite <- (app_nil_l (agent_enc _ ++ _)). eapply parses_bind; [apply parses_isbad|].
  change (false || negb (5 =? sflowVersion)) with false. cbv iota.
  eapply parses_bind; [exact Ha|].
  do 3 (eapply parses_bind; [by apply parses_skip|]).
  eapply parses_bind; [apply parses_u32; unfold is_u32; lia|].
  rewrite <- (app_nil_l (concat _)). eapply parses_bind; [apply parses_isbad|]. cbv iota.
  unfold sflowMaxSamples. rewrite (proj2 (Z.ltb_ge _ _)) by done.
  rewrite <- (app_nil_r (concat _)). rewrite to_nat_len.
  eapply parses_bind; [by apply (sflowSamples_parses samples 0 [])|]. apply parses_ret.
Qed.

(** ** A sampled UDP packet, from the wire to the record *)

Record udpFrame : Type := mkUdpFrame {
  uf_dmac : Z; uf_smac : Z; uf_tci : option Z;
  uf_tos : Z; uf_len : Z; uf_id : Z; uf_flags : Z; uf_ttl : Z; uf_csum : Z;
  uf_src : Z; uf_dst : Z; uf_sport : Z; uf_dport : Z; uf_rest : bytes
}.

Definition udpFrame_wf (f : udpFrame) : Prop :=
  0 <= uf_dmac f < 2 ^ 48 /\ 0 <= uf_smac f < 2 ^ 48 /\
  (forall t, uf_tci f = Some t -> is_u16 t) /\ is_u8 (uf_tos f) /\ 0 <= uf_flags f < 8 /\
  is_u32 (uf_src f) /\ is_u32 (uf_dst f) /\ is_u16 (uf_sport f) /\ is_u16 (uf_dport f).

(** IPv4 with no options, not a later fragment, carrying UDP; the capture may
    stop anywhere behind the ports. *)
Definition ipv4udp_enc (f : udpFrame) : bytes :=
  put_be 1 69 ++ put_be 1 (uf_tos f) ++ put_be 2 (uf_len f) ++ put_be 2 (uf_id f) ++
  put_be 2 (uf_flags f * 2 ^ 13) ++ put_be 1 (uf_ttl f) ++ put_be 1 17 ++ put_be 2 (uf_csum f) ++
  put_be 4 (uf_src f) ++ put_be 4 (uf_dst f) ++
  put_be 2 (uf_sport f) ++ put_be 2 (uf_dport f) ++ uf_rest f.

Definition udpFrame_enc (f : udpFrame) : bytes :=
  put_be 6 (uf_dmac f) ++ put_be 6 (uf_smac f) ++
  match uf_tci f with
  | Some t => put_be 2 33024 ++ put_be 2 t ++ put_be 2 2048
  | None => put_be 2 2048
  end ++ ipv4udp_enc f.

(** A compact flow sample of one such frame. *)
Definition udpSample_enc (seq source rate pool drops inIf outIf frameLen stripped : Z) (f : udpFrame) : bytes :=
  put_be 4 seq ++ put_be 4 source ++ put_be 4 rate ++ put_be 4 pool ++ put_be 4 drops ++
  put_be 4 inIf ++ put_be 4 outIf ++ put_be 4 1 ++
  tagged_enc (sflowRawHeader,
    put_be 4 sflowHdrEthernet ++ put_be 4 frameLen ++ put_be 4 stripped ++ opaque_enc (udpFrame_enc f)).

Definition udp_ip_fields (f : udpFrame) (r : Record) : Record :=
  r <| TOS := uf_tos f |> <| Protocol := 17 |>
    <| SrcAddr := V4 (uf_src f) |> <| DstAddr := V4 (uf_dst f) |>
    <| SrcPort := uf_sport f |> <| DstPort := uf_dport f |>.

Definition udp_frame_fields (f : udpFrame) (r : Record) : Record :=
  let r := r <| DstMAC := uf_dmac f |> <| SrcMAC := uf_smac f |> in
  udp_ip_fields f (match uf_tci f with Some t => r <| SrcVLAN := t mod 2 ^ 12 |> | None => r end).

Lemma parseIPv4_udp f r : udpFrame_wf f ->
  parseIPv4Header (ipv4udp_enc f) r = Ret (udp_ip_fields f r).
Proof.
  intros (_ & _ & _ & Ht & Hfl & Hs & Hd & Hsp & Hdp). unfold parseIPv4Header.
  set (h := ipv4udp_enc f). assert (len h = 24 + len (uf_rest f)) as Hlen.
  { subst h. unfold ipv4udp_enc. rewrite !len_app, !len_put_be. lia. }
  pose proof (len_nonneg (uf_rest f)).
  rewrite (proj2 (Z.ltb_ge _ _)) by lia.
  change (index h 0) with (Ret (zb 69)). change (index h 1) with (Ret (zb (uf_tos f))).
  change (index h 9) with (Ret (zb 17)). rewrite !bind_ret.
  rewrite !bz_zb_small by (done || lia). change (negb (Z.shiftr 69 4 =? 4)) with false. cbv iota.
  change (Z.land 69 15 * 4) with 20. change (20 <? 20) with false. cbv iota.
  rewrite !slice_ret, !bind_ret by lia.
  change (sub h 12 16) with (put_be 4 (uf_src f)). change (sub h 16 20) with (put_be 4 (uf_dst f)).
  rewrite u16at_ret, bind_ret by lia.
  change (sub h 6 (6 + 2)) with (put_be 2 (uf_flags f * 2 ^ 13)).
  rewrite !be_put_u32, be_put_u16 by (done || unfold is_u16; lia).
  change 8191 with (Z.ones 13). rewrite Z.land_ones, Z.mod_mul by lia.
  change (negb (0 =? 0)) with false. rewrite (proj2 (Z.ltb_ge _ _)) by lia. cbn [orb].
  rewrite slice_from_ret, bind_ret, sub_drop by lia.
  change (drop (Z.to_nat 20) h) with (put_be 2 (uf_sport f) ++ put_be 2 (uf_dport f) ++ uf_rest f).
  set (p := put_be 2 _ ++ _). assert (len p = 4 + len (uf_rest f)) as Hp.
  { subst p. rewrite !len_app, !len_put_be. lia. }
  unfold parseL4. simpl Protocol. change (17 =? 6) with false.
  change (oneof 17 [17; 132]) with true. cbv iota. rewrite (proj2 (Z.leb_le _ _)) by lia.
  rewrite !u16at_ret, !bind_ret by lia. change (sub p 0 (0 + 2)) with (put_be 2 (uf_sport f)).
  change (sub p 2 (2 + 2)) with (put_be 2 (uf_dport f)). by rewrite !be_put_u16.
Qed.

Lemma beUint_put6 z : 0 <= z < 2 ^ 48 -> beUint (put_be 6 z) = z.
Proof.
  intros. rewrite beUint_be, be_put_be by done. apply uint64_small. unfold is_u64. lia.
Qed.

Lemma parseEthernet_udp f r : udpFrame_wf f ->
  parseEthernetHeader (udpFrame_enc f) r = Ret (udp_frame_fields f r).
Proof.
  intros Hf. pose proof Hf as (Hdm & Hsm & Htci & _). unfold parseEthernetHeader.
  set (h := udpFrame_enc f). unfold udp_frame_fields, udpFrame_enc in *.
  assert (24 <= len (ipv4udp_enc f)).
  { unfold ipv4udp_enc. rewrite !len_app, !len_put_be. pose proof (len_nonneg (uf_rest f)). lia. }
  assert (len h = 14 + (match uf_tci f with Some _ => 4 | None => 0 end) + len (ipv4udp_enc f)) as Hlen.
  { subst h. rewrite !len_app, !len_put_be. destruct (uf_tci f); rewrite ?len_app, !len_put_be; lia. }
  destruct (uf_tci f) as [t|];
    rewrite (proj2 (Z.ltb_ge _ _)) by lia; rewrite !slice_ret, !bind_ret by lia;
    change (sub h 0 6) with (put_be 6 (uf_dmac f)); change (sub h 6 12) with (put_be 6 (uf_smac f));
    rewrite !beUint_put6 by done; rewrite u16at_ret, bind_ret by lia.
  - specialize (Htci t eq_refl).
    change (be (sub h 12 (12 + 2))) with 33024. cbn [vlanTags].
    change (oneof 33024 [33024; 34984; 37120]) with true. cbv iota.
    rewrite (proj2 (Z.ltb_ge _ _)) by lia. rewrite !u16at_ret by lia. rewrite !bind_ret.
    change (sub h 14 (14 + 2)) with (put_be 2 t).
    change (be (sub h (14 + 2) (14 + 2 + 2))) with 2048. cbn [vlanTags].
    change (oneof 2048 [33024; 34984; 37120]) with false. cbv iota. rewrite bind_ret.
    change (2048 =? 2048) with true. cbv iota.
    rewrite slice_from_ret, bind_ret, sub_drop by lia.
    change (drop (Z.to_nat (14 + 4)) h) with (ipv4udp_enc f).
    rewrite parseIPv4_udp, be_put_u16 by done.
    change 4095 with (Z.ones 12). by rewrite Z.land_ones by lia.
  - change (be (sub h 12 (12 + 2))) with 2048. cbn [vlanTags].
    change (oneof 2048 [33024; 34984; 37120]) with false. cbv iota. rewrite bind_ret.
    change (2048 =? 2048) with true. cbv iota.
    rewrite slice_from_ret, bind_ret, sub_drop by lia.
    change (drop (Z.to_nat 14) h) with (ipv4udp_enc f). by rewrite parseIPv4_udp.
Qed.

(** A sampled UDP packet, from the wire to the record: a compact flow
    sample carrying the captured header of an Ethernet frame (VLAN-tagged or
    not) with an IPv4 UDP packet in it decodes to one record with the frame's
    addresses, ports, class, MACs and outer VLAN, the sample's interfaces,
    [rate] packets and [frameLen * rate] bytes, a zero rate counting as one. *)
Theorem sflow_udp_sample seq source rate pool drops inIf outIf frameLen stripped f post :
  udpFrame_wf f -> is_u32 rate -> is_u32 frameLen ->
  0 <= inIf < 2 ^ 30 - 1 -> 0 <= outIf < 2 ^ 30 - 1 -> len (udpFrame_enc f) < 2 ^ 31 ->
  let n := Z.max 1 rate in
  decodeSFlowSample (udpSample_enc seq source rate pool drops inIf outIf frameLen stripped f ++ post) false
  = Ret (Some ((udp_frame_fields f (zeroRecord <| Type_ := "sflow" |>
      <| InputIf := inIf |> <| OutputIf := outIf |>))
      <| SamplingRate := n |> <| Sampled := 1 <? n |>
      <| Packets := n |> <| Bytes := frameLen * n |>)).
Proof.
  intros Hf Hrate Hl Hin Hout Hfit n. unfold is_u32 in Hrate, Hl.
  set (hdr := put_be 4 sflowHdrEthernet ++ put_be 4 frameLen ++ put_be 4 stripped ++ opaque_enc (udpFrame_enc f)).
  pose proof (len_nonneg (udpFrame_enc f)) as H0.
  assert (0 <= len hdr < 2 ^ 32) as Hhdr.
  { subst hdr. unfold opaque_enc. rewrite !len_app, !len_put_be, len_xdrPad.
    pose proof (Z.mod_pos_bound (4 - len (udpFrame_enc f) mod 4) 4). lia. }
  set (r0 := zeroRecord <| Type_ := "sflow" |> <| InputIf := inIf |> <| OutputIf := outIf |>).
  set (s1 := mkSample (udp_frame_fields f r0) frameLen true).
  assert (sampleRecord sflowRawHeader hdr (mkSample r0 0 false) = Ret s1) as Erec.
  { unfold sampleRecord. cbn [s_r]. change (negb (Z.shiftr sflowRawHeader 12 =? 0)) with false.
    change (Z.land sflowRawHeader 4095 =? sflowRawHeader) with true. cbv iota.
    unfold sflowReadRawHeader. rewrite <- (app_nil_r hdr).
    erewrite parses_run; [rewrite bind_ret; cbv beta iota|].
    2: { subst hdr. eapply parses_bind; [by apply parses_u32|].
         eapply parses_bind; [by apply parses_u32|].
         eapply parses_bind; [by apply parses_skip|].
         rewrite <- (app_nil_r (opaque_enc _)).
         eapply parses_bind; [apply parses_opaque; unfold is_u32; lia|].
         rewrite <- (app_nil_l []). eapply parses_bind; [apply parses_isbad|]. apply parses_ret. }
    change (sflowHdrEthernet =? sflowHdrEthernet) with true. cbv iota.
    by rewrite parseEthernet_udp. }
  unfold decodeSFlowSample. erewrite parses_run; [rewrite bind_ret; cbv beta iota|].
  2: { unfold udpSample_enc.
    eapply parses_bind; [by apply parses_skip|]. eapply parses_bind; [by apply parses_skip|].
    eapply parses_bind; [by apply parses_u32|].
    do 2 (eapply parses_bind; [by apply parses_skip|]).
    rewrite (app_assoc (put_be 4 inIf)). eapply parses_bind.
    { eapply parses_bind; [apply parses_u32; unfold is_u32; lia|].
      rewrite <- (app_nil_r (put_be 4 outIf)).
      eapply parses_bind; [apply parses_u32; unfold is_u32; lia|]. apply parses_ret. }
    eapply parses_bind; [by apply parses_u32|].
    rewrite <- (app_nil_l (tagged_enc _)). eapply parses_bind; [apply parses_isbad|].
    change (false || (sflowMaxRecords <? 1)) with false. cbv iota.
    rewrite <- (app_nil_r (tagged_enc _)). eapply parses_bind; [|apply parses_ret].
    cbn [fst snd].
    assert (forall z, 0 <= z < 2 ^ 30 - 1 -> sflowIf (Z.shiftr z 30) (Z.land z 1073741823) = z) as Eif.
    { intros z Hz. change 1073741823 with (Z.ones 30). rewrite Z.shiftr_div_pow2, Z.land_ones by lia.
      rewrite Z.div_small, Z.mod_small by lia. unfold sflowIf, sflowIfUnknown. simpl.
      by rewrite (proj2 (Z.eqb_neq _ _)) by lia. }
    rewrite !Eif by done. fold r0.
    rewrite <- (app_nil_r (tagged_enc _)).
    apply (sampleRecords_parses [(sflowRawHeader, hdr)] _ s1).
    - constructor; [|constructor]. done.
    - cbn [foldRecords]. by rewrite Erec. }
  cbv zeta. subst s1. cbn [s_r SFlow.frameLen].
  assert (SrcAddr (udp_frame_fields f r0) = V4 (uf_src f)) as -> by done.
  assert (DstAddr (udp_frame_fields f r0) = V4 (uf_dst f)) as -> by done.
  cbn [IsValid]. change (negb (IsValid (V4 (uf_src f))) || negb (IsValid (V4 (uf_dst f)))) with false.
  cbv iota. assert ((if rate =? 0 then 1 else rate) = n) as ->
    by (subst n; destruct (Z.eqb_spec rate 0); lia).
  rewrite uint64_small by (unfold is_u64; nia). done.
Qed.

(** A later fragment has no ports: an IPv4 header whose fragment offset
    is not zero gives the record its addresses, class and protocol and leaves
    its ports, TCP flags and ICMP type alone, whatever the payload bytes. *)
Theorem later_fragment_no_ports h r r' :
  20 <= len h -> be (sub h 6 8) mod 2 ^ 13 <> 0 -> parseIPv4Header h r = Ret r' ->
  SrcPort r' = SrcPort r /\ DstPort r' = DstPort r /\
  TCPFlags r' = TCPFlags r /\ ICMPType r' = ICMPType r.
Proof.
  intros Hl Hfrag E. unfold parseIPv4Header in E.
  rewrite (proj2 (Z.ltb_ge _ _)) in E by lia.
  apply bind_Ret_inv in E as (b0 & _ & E). destruct (negb _); [by injection E as <-|].
  destruct (_ <? 20); [by injection E as <-|].
  apply bind_Ret_inv in E as (tos & _ & E). apply bind_Ret_inv in E as (proto & _ & E).
  apply bind_Ret_inv in E as (src & _ & E). apply bind_Ret_inv in E as (dst & _ & E).
  rewrite u16at_ret, bind_ret in E by lia. change (6 + 2) with 8 in E.
  change 8191 with (Z.ones 13) in E. rewrite Z.land_ones in E by lia.
  rewrite (proj2 (Z.eqb_neq _ 0)) in E by done. by injection E as <-.
Qed.

Definition example_frame : udpFrame :=
  mkUdpFrame 1 2 (Some 8292) 184 100 7 2 64 0 167772161 167772162 53 40000 [].

Lemma example_frame_wf : udpFrame_wf example_frame.
Proof.
  unfold udpFrame_wf, is_u8, is_u16, is_u32; simpl. split_and!; try lia.
  intros t [= <-]. lia.
Qed.

Lemma sflow_udp_sample_witness :
  decodeSFlowSample (udpSample_enc 1 2 1000 5000 0 3 4 1500 4 example_frame ++ []) false
  = Ret (Some ((udp_frame_fields example_frame (zeroRecord <| Type_ := "sflow" |>
      <| InputIf := 3 |> <| OutputIf := 4 |>))
      <| SamplingRate := 1000 |> <| Sampled := 1 <? 1000 |>
      <| Packets := 1000 |> <| Bytes := 1500 * 1000 |>)).
Proof.
  apply (sflow_udp_sample 1 2 1000 5000 0 3 4 1500 4 example_frame []);
    [apply example_frame_wf | unfold is_u32; lia .. | lia | lia | vm_compute; reflexivity].
Defined.

Lemma sflow_framing_witness :
  exists rs, flatSamples [(sflowFlowSample, udpSample_enc 1 2 1000 5000 0 3 4 1500 4 example_frame); (2, [])] = Ret rs /\
    DecodeSFlow (datagram_enc (V4 9) 0 1 5 [(sflowFlowSample, udpSample_enc 1 2 1000 5000 0 3 4 1500 4 example_frame); (2, [])]
      ++ put_be 3 0) (V4 7)
    = Ret (Some (mkPacket (V4 7) rs), None).
Proof.
  apply (sflow_framing (V4 9) 0 1 5
    [(sflowFlowSample, udpSample_enc 1 2 1000 5000 0 3 4 1500 4 example_frame); (2, [])]).
  - repeat constructor; vm_compute; discriminate.
  - vm_compute. discriminate.
Defined.

(** The second half of a fragmented UDP packet: fragment offset 185. *)
Lemma later_fragment_no_ports_witness :
  let h := put_be 1 69 ++ put_be 5 0 ++ put_be 2 185 ++ put_be 1 64 ++ put_be 1 17 ++ put_be 2 0 ++
           put_be 4 1 ++ put_be 4 2 ++ put_be 4 305419896 in
  exists r', parseIPv4Header h zeroRecord = Ret r' /\ Protocol r' = 17 /\ SrcPort r' = 0 /\ DstPort r' = 0.
Proof.
  intros h. assert (wp (parseIPv4Header h zeroRecord) (fun r' => Protocol r' = 17)) as H
    by (vm_compute; reflexivity).
  destruct (wp_inv _ _ H) as (r' & E & Hp). exists r'.
  destruct (later_fragment_no_ports h zeroRecord r') as (Hs & Hd & _);
    [vm_compute; discriminate | vm_compute; discriminate | exact E |].
  auto.
Defined.
