(* ===== verification/Aggregate.v ===== *)
(** Package flow, file aggregate.go: the interval accumulator, its names for
    what it counts, and the top-N cut. *)
From Stdlib Require Import ZArith Lia.
From stdpp Require Import base list gmap strings numbers sorting.
From S2P Require Import Prelude GoText Netip FlowTypes.

Abbreviation Dimension := string (only parsing).
Definition DimTalker : Dimension := "talker".
Definition DimConversation : Dimension := "conversation".
Definition DimApplication : Dimension := "application".
Definition DimProtocol : Dimension := "protocol".
Definition DimDSCP : Dimension := "dscp".
Definition DimAS : Dimension := "as".
Definition DimSubnet : Dimension := "subnet".
Definition DimTCPFlags : Dimension := "tcp_flags".

Record Key : Type := mkKey { k_exporter : string; IfIndex : Z; k_dim : Dimension; Value : string }.

#[export] Instance eta_Key : Eta Key := fun k => mkKey (k_exporter k) (IfIndex k) (k_dim k) (Value k).
#[export] Instance Key_eq_dec : EqDecision Key.
Proof. solve_decision. Defined.
#[export] Program Instance Key_countable : Countable Key :=
  inj_countable' (fun k => (k_exporter k, IfIndex k, k_dim k, Value k))
    (fun '(e, i, d, v) => mkKey e i d v) _.
Next Obligation. by intros []. Qed.

Record counters : Type := mkCounters { cbytes : Z; cpackets : Z; csampled : bool }.

Record Aggregator : Type := mkAggregator {
  TopN : Z; counts : gmap Key counters; MaxKeys : Z; dropped : Z
}.
#[export] Instance eta_Aggregator : Eta Aggregator := fun a =>
  mkAggregator (TopN a) (counts a) (MaxKeys a) (dropped a).

Definition DefaultTopN : Z := 25.
Definition DefaultMaxKeys : Z := 200000.
Definition OtherValue : string := "other".

Definition NewAggregator : Aggregator := mkAggregator DefaultTopN ∅ DefaultMaxKeys 0.

(** ** Names *)

(** " ⇄ ", in UTF-8 as in the source. *)
Definition arrow : string := " " +:+ of_bytes (map zb [226; 135; 132]) +:+ " ".

Definition conversation (a b : Addr) : string :=
  match Addr_Compare a b with
  | Gt => Addr_String b +:+ arrow +:+ Addr_String a
  | _ => Addr_String a +:+ arrow +:+ Addr_String b
  end.

Definition wellKnown : list (Z * Z * string) :=
  [(22, 6, "ssh"); (23, 6, "telnet"); (25, 6, "smtp"); (53, 6, "dns");
   (53, 17, "dns"); (80, 6, "http"); (110, 6, "pop3"); (123, 17, "ntp");
   (143, 6, "imap"); (161, 17, "snmp"); (389, 6, "ldap"); (443, 6, "https");
   (443, 17, "quic"); (445, 6, "smb"); (465, 6, "smtps"); (514, 17, "syslog");
   (587, 6, "submission"); (993, 6, "imaps"); (995, 6, "pop3s");
   (1194, 17, "openvpn"); (3306, 6, "mysql"); (3389, 6, "rdp");
   (5432, 6, "postgres"); (5060, 17, "sip"); (6379, 6, "redis");
   (51820, 17, "wireguard")].

(** The map lookup; the keys of the literal are distinct. *)
Fixpoint lookupPort (l : list (Z * Z * string)) (port proto : Z) : option string :=
  match l with
  | [] => None
  | (p, q, name) :: l =>
      if (p =? port) && (q =? proto) then Some name else lookupPort l port proto
  end.

Arguments lookupPort : simpl never.

Definition protoName (p : Z) : string :=
  if p =? 1 then "icmp" else if p =? 6 then "tcp" else if p =? 17 then "udp"
  else if p =? 47 then "gre" else if p =? 50 then "esp" else if p =? 58 then "icmp6"
  else "ip/" +:+ Itoa p.

Definition application (r : Record) : string :=
  match lookupPort wellKnown (SrcPort r) (Protocol r), lookupPort wellKnown (DstPort r) (Protocol r) with
  | Some src, Some dst => if SrcPort r <=? DstPort r then src else dst
  | Some src, None => src
  | None, Some dst => dst
  | None, None =>
      let port := if (DstPort r <? SrcPort r) || (SrcPort r =? 0) then DstPort r else SrcPort r in
      let name := protoName (Protocol r) in
      if port =? 0 then name else name +:+ "/" +:+ Itoa port
  end.

Definition dscpName (d : Z) : string :=
  if d =? 0 then "be" else if d =? 46 then "ef" else if d =? 44 then "voice-admit"
  else if Z.land d 7 =? 0 then "cs" +:+ Itoa (Z.shiftr d 3)
  else if (1 <=? Z.shiftr d 3) && (Z.shiftr d 3 <=? 4) && (Z.land d 1 =? 0) &&
          (1 <=? Z.land (Z.shiftr d 1) 3)
  then "af" +:+ Itoa (Z.shiftr d 3) +:+ Itoa (Z.land (Z.shiftr d 1) 3)
  else "dscp/" +:+ Itoa d.

Definition defaultSubnetV4 : Z := 24.
Definition defaultSubnetV6 : Z := 48.

Definition subnet (a : Addr) (mask : Z) : string :=
  let bits := if (mask =? 0) || (BitLen a <? mask)
              then if Is6 a then defaultSubnetV6 else defaultSubnetV4 else mask in
  match Addr_Prefix a bits with
  | None => Addr_String a
  | Some p => Prefix_String p
  end.

Definition tcpFlagNames : list (Z * string) :=
  [(2, "SYN"); (16, "ACK"); (8, "PSH"); (1, "FIN"); (4, "RST"); (32, "URG"); (64, "ECE"); (128, "CWR")].

(** The builder's text after the loop over the names. *)
Definition tcpFlagsName (f : Z) : string :=
  if f =? 0 then "none" else
  foldl (fun b '(bit, name) =>
    if Z.land f bit =? 0 then b
    else (if 0 <? slen b then b +:+ "," else b) +:+ name) "" tcpFlagNames.

(** ** Accumulating *)

Definition addCounters (c : counters) (r : Record) : counters :=
  mkCounters (uint64 (cbytes c + Bytes r)) (uint64 (cpackets c + Packets r)) (csampled c || Sampled r).

Definition zeroCounters : counters := mkCounters 0 0 false.

(** [Aggregator.add]: past the cap the key is rewritten to the "other" bucket
    of its group. *)
Definition add (a : Aggregator) (k : Key) (r : Record) : Aggregator :=
  match counts a !! k with
  | Some c => a <| counts := <[k := addCounters c r]> (counts a) |>
  | None =>
      if (0 <? MaxKeys a) && (MaxKeys a <=? Z.of_nat (size (counts a))) then
        let k := k <| Value := OtherValue |> in
        let c := default zeroCounters (counts a !! k) in
        a <| counts := <[k := addCounters c r]> (counts a) |> <| dropped := uint64 (dropped a + 1) |>
      else a <| counts := <[k := addCounters zeroCounters r]> (counts a) |>
  end.

(** The keys one record is counted under, in the order of the calls in [Add]. *)
Definition recordKeys (exporter : string) (ifIndex : Z) (r : Record) : list Key :=
  let key := mkKey exporter ifIndex in
  let src := subnet (SrcAddr r) (SrcMask r) in
  let dst := subnet (DstAddr r) (DstMask r) in
  [key DimTalker (Addr_String (SrcAddr r)); key DimTalker (Addr_String (DstAddr r));
   key DimConversation (conversation (SrcAddr r) (DstAddr r));
   key DimApplication (application r);
   key DimProtocol (protoName (Protocol r));
   key DimDSCP (dscpName (Z.shiftr (TOS r) 2))] ++
  (if negb (SrcAS r =? 0) then [key DimAS ("AS" +:+ Itoa (SrcAS r))] else []) ++
  (if negb (DstAS r =? 0) && negb (DstAS r =? SrcAS r) then [key DimAS ("AS" +:+ Itoa (DstAS r))] else []) ++
  [key DimSubnet src] ++
  (if decide (dst = src) then [] else [key DimSubnet dst]) ++
  (if Protocol r =? 6 then [key DimTCPFlags (tcpFlagsName (TCPFlags r))] else []).

(** The interface a record is attributed to; zero is "unattributable". *)
Definition attribution (r : Record) : Z := if InputIf r =? 0 then OutputIf r else InputIf r.

Definition addRecord (exporter : string) (a : Aggregator) (r : Record) : Aggregator :=
  if attribution r =? 0 then a
  else foldl (fun a k => add a k r) a (recordKeys exporter (attribution r) r).

(** [Add]; a nil packet is ignored. *)
Definition Add (a : Aggregator) (p : option Packet) : Aggregator :=
  match p with
  | None => a
  | Some p => foldl (addRecord (Addr_String (ExporterIP p))) a (Records p)
  end.

Definition Dropped (a : Aggregator) : Z := dropped a.

(** ** Draining *)

Record Bucket : Type := mkBucket { b_key : Key; b_bytes : Z; b_packets : Z; b_sampled : bool }.

(** The comparison [sort.Slice] is given, and the total order it generates. *)
Definition rowBefore (x y : Bucket) : bool :=
  if b_bytes x =? b_bytes y then str_lt (Value (b_key x)) (Value (b_key y))
  else b_bytes y <? b_bytes x.
Definition rowLe (x y : Bucket) : Prop := rowBefore y x = false.
#[export] Instance rowLe_dec : RelDecision rowLe.
Proof. intros x y. unfold rowLe. apply _. Defined.

Definition groupOf (k : Key) : Key := k <| Value := "" |>.
Definition bucketOf (kc : Key * counters) : Bucket :=
  mkBucket kc.1 (cbytes kc.2) (cpackets kc.2) (csampled kc.2).

Definition topN (a : Aggregator) : Z := if TopN a <=? 0 then DefaultTopN else TopN a.

(** One group of rows: sorted, and cut to the top. *)
Definition groupRows (g : Key) (entries : list (Key * counters)) : list Bucket :=
  bucketOf <$> filter (fun kc => groupOf kc.1 = g) entries.
Definition cutGroup (n : Z) (entries : list (Key * counters)) (g : Key) : list Bucket :=
  take (Z.to_nat n) (merge_sort rowLe (groupRows g entries)).

(** The body of [Drain], given the orders in which Go happens to range over
    its two maps: [entries] of the counters, [groups] of the groups. *)
Definition drainOver (n : Z) (entries : list (Key * counters)) (groups : list Key) : list Bucket :=
  groups ≫= cutGroup n entries.

Definition groupsOf (entries : list (Key * counters)) : list Key :=
  remove_dups ((fun kc => groupOf kc.1) <$> entries).

(** [Drain], for one choice of those orders. *)
Definition Drain (a : Aggregator) : list Bucket * Aggregator :=
  let entries := map_to_list (counts a) in
  (drainOver (topN a) entries (groupsOf entries),
   a <| counts := ∅ |> <| dropped := 0 |>).

(** * Conservation *)

(** What the entries of one group add up to; [amount] is the bytes or the
    packets. *)
Definition groupTotal (amount : counters -> Z) (g : Key) (m : gmap Key counters) : Z :=
  map_fold (fun k c acc => (if decide (groupOf k = g) then amount c else 0) + acc) 0 m.

Section totals.
Context (amount : counters -> Z) (g : Key).

Lemma groupTotal_insert_None m k c :
  m !! k = None ->
  groupTotal amount g (<[k := c]> m)
  = (if decide (groupOf k = g) then amount c else 0) + groupTotal amount g m.
Proof. intros E. unfold groupTotal. rewrite map_fold_insert_L; [done | intros; lia | done]. Qed.

Lemma groupTotal_insert m k c :
  groupTotal amount g (<[k := c]> m)
  = groupTotal amount g m +
    (if decide (groupOf k = g) then amount c - amount (default zeroCounters (m !! k)) else 0)
    + (if decide (groupOf k = g) then
         if decide (is_Some (m !! k)) then 0 else amount zeroCounters else 0).
Proof.
  destruct (m !! k) as [c0|] eqn:E.
  - rewrite <- (insert_delete_eq m k c).
    rewrite <- (insert_delete_id m k c0) at 2 by done.
    rewrite !groupTotal_insert_None by apply lookup_delete_eq.
    change (default zeroCounters (Some c0)) with c0.
    destruct (decide (groupOf k = g)); [rewrite decide_True by eauto|]; lia.
  - rewrite groupTotal_insert_None by done.
    change (default zeroCounters None) with zeroCounters.
    destruct (decide (groupOf k = g)); [rewrite decide_False by (by intros [? ?])|]; lia.
Qed.
End totals.

Lemma groupOf_other k : groupOf (k <| Value := OtherValue |>) = groupOf k.
Proof. done. Qed.

(** Adding a record under a key adds its amount to the group of the key,
    modulo 2^64, whatever the cap does to the key itself. *)
Lemma add_total (amount : counters -> Z) (val : Record -> Z) g a k r :
  amount zeroCounters = 0 ->
  (forall c, amount (addCounters c r) = uint64 (amount c + val r)) ->
  uint64 (groupTotal amount g (counts (add a k r)))
  = uint64 (groupTotal amount g (counts a) + if decide (groupOf k = g) then val r else 0).
Proof.
  intros H0 Hadd.
  assert (forall m k', groupOf k' = groupOf k ->
    uint64 (groupTotal amount g (<[k' := addCounters (default zeroCounters (m !! k')) r]> m))
    = uint64 (groupTotal amount g m + if decide (groupOf k = g) then val r else 0)) as Hins.
  { intros m k' Ek. rewrite groupTotal_insert, Ek, Hadd, H0.
    destruct (decide (groupOf k = g)); [|by rewrite !Z.add_0_r].
    case_decide; rewrite ?Z.add_0_r.
    all: set (x := amount (default zeroCounters (m !! k'))).
    all: replace (groupTotal amount g m + (uint64 (x + val r) - x))
      with (groupTotal amount g m - x + uint64 (x + val r)) by lia.
    all: rewrite uint64_add_r; f_equal; lia. }
  unfold add. destruct (counts a !! k) as [c|] eqn:E.
  - specialize (Hins (counts a) k eq_refl). rewrite E in Hins. exact Hins.
  - destruct (_ && _).
    + apply (Hins (counts a) (k <| Value := OtherValue |>)). apply groupOf_other.
    + specialize (Hins (counts a) k eq_refl). rewrite E in Hins. exact Hins.
Qed.

(** How many of a record's keys fall in a group. *)
Definition multiplicity (g : Key) (ks : list Key) : Z := len (filter (fun k => groupOf k = g) ks).

Section add_record.
Context (amount : counters -> Z) (val : Record -> Z).
Context (H0 : amount zeroCounters = 0).
Context (Hadd : forall c r, amount (addCounters c r) = uint64 (amount c + val r)).

Lemma addKeys_total g ks a r :
  uint64 (groupTotal amount g (counts (foldl (fun a k => add a k r) a ks)))
  = uint64 (groupTotal amount g (counts a) + multiplicity g ks * val r).
Proof.
  revert a. induction ks as [|k ks IH]; intros a; [by rewrite Z.add_0_r|].
  cbn [foldl]. rewrite IH. unfold multiplicity. rewrite filter_cons.
  rewrite <- uint64_add_l, (add_total amount val) by auto. rewrite uint64_add_l. f_equal.
  destruct (decide (groupOf k = g)); rewrite ?len_cons; lia.
Qed.

(** What one record contributes to a group. *)
Definition contribution (exporter : string) (g : Key) (r : Record) : Z :=
  if attribution r =? 0 then 0
  else multiplicity g (recordKeys exporter (attribution r) r) * val r.

Lemma addRecords_total exporter g rs a :
  uint64 (groupTotal amount g (counts (foldl (addRecord exporter) a rs)))
  = uint64 (groupTotal amount g (counts a) + foldr (fun r acc => contribution exporter g r + acc) 0 rs).
Proof.
  revert a. induction rs as [|r rs IH]; intros a; [by rewrite Z.add_0_r|].
  cbn [foldl foldr]. rewrite IH. unfold addRecord at 1, contribution at 2.
  destruct (attribution r =? 0); [f_equal; lia|].
  rewrite <- uint64_add_l, addKeys_total, uint64_add_l. f_equal. lia.
Qed.
End add_record.

(** The dimensions every attributable record is counted in exactly once. *)
Definition onceDims : list Dimension := [DimConversation; DimApplication; DimProtocol; DimDSCP].

Lemma groupOf_key e i j d d' v :
  (if decide (groupOf (mkKey e i d' v) = mkKey e j d "") then 1 else 0)
  = if decide (i = j) then if String.eqb d' d then 1 else 0 else 0.
Proof.
  unfold groupOf. simpl. destruct (String.eqb_spec d' d) as [->|Hd].
  - destruct (decide (i = j)) as [->|Hi]; [by rewrite decide_True|].
    rewrite decide_False; [done|]. by intros [=].
  - rewrite decide_False by (by intros [=]). by case_decide.
Qed.

Lemma multiplicity_nil g : multiplicity g [] = 0.
Proof. done. Qed.

Lemma multiplicity_cons g k ks :
  multiplicity g (k :: ks) = (if decide (groupOf k = g) then 1 else 0) + multiplicity g ks.
Proof. unfold multiplicity. rewrite filter_cons. case_decide; rewrite ?len_cons; lia. Qed.

Lemma multiplicity_app g ks ks' :
  multiplicity g (ks ++ ks') = multiplicity g ks + multiplicity g ks'.
Proof. unfold multiplicity. by rewrite filter_app, len_app. Qed.

Lemma multiplicity_once exporter i j d r :
  In d onceDims ->
  multiplicity (mkKey exporter j d "") (recordKeys exporter i r) = if decide (i = j) then 1 else 0.
Proof.
  intros Hd. unfold recordKeys. rewrite !multiplicity_app.
  assert (forall b k, multiplicity (mkKey exporter j d "") (if b : bool then [k] else [])
    = if b then multiplicity (mkKey exporter j d "") [k] else 0) as Hif by (by intros []).
  rewrite !Hif. assert (forall (b : {subnet (DstAddr r) (DstMask r) = subnet (SrcAddr r) (SrcMask r)} +
      {subnet (DstAddr r) (DstMask r) <> subnet (SrcAddr r) (SrcMask r)}) k,
    multiplicity (mkKey exporter j d "") (if b then [] else [k])
    = if b then 0 else multiplicity (mkKey exporter j d "") [k]) as Hif' by (by intros []).
  rewrite Hif', !multiplicity_cons, !groupOf_key, !multiplicity_nil.
  destruct (decide (i = j));
    [simpl in Hd; destruct Hd as [<-|[<-|[<-|[<-|[]]]]]; simpl|];
    repeat match goal with |- context [if ?b then _ else _] => destruct b end; reflexivity.
Qed.

(** The bytes (or packets) of the records attributed to an interface. *)
Definition attributed (val : Record -> Z) (i : Z) (rs : list Record) : Z :=
  foldr (fun r acc => (if decide (attribution r = i) then val r else 0) + acc) 0 rs.

Lemma contributions_once val exporter i d rs :
  In d onceDims -> i <> 0 ->
  foldr (fun r acc => contribution val exporter (mkKey exporter i d "") r + acc) 0 rs
  = attributed val i rs.
Proof.
  intros Hd Hi. induction rs as [|r rs IH]; [done|]. cbn [foldr attributed]. rewrite IH. f_equal.
  unfold contribution. destruct (Z.eqb_spec (attribution r) 0) as [E|E].
  - rewrite decide_False by lia. done.
  - rewrite multiplicity_once by done. case_decide; lia.
Qed.

(** C10. Nothing is lost and nothing is counted twice: in the conversation,
    application, protocol and DSCP tables, the rows of an interface of an
    exporter grow, all together, by exactly the bytes and the packets of the
    records attributed to that interface, modulo 2^64, whether or not the key
    cap forces some of them into the "other" row. *)
Theorem add_conserves a p i d :
  In d onceDims -> i <> 0 ->
  let e := Addr_String (ExporterIP p) in
  let g := mkKey e i d "" in
  uint64 (groupTotal cbytes g (counts (Add a (Some p))))
    = uint64 (groupTotal cbytes g (counts a) + attributed Bytes i (Records p)) /\
  uint64 (groupTotal cpackets g (counts (Add a (Some p))))
    = uint64 (groupTotal cpackets g (counts a) + attributed Packets i (Records p)).
Proof.
  intros Hd Hi e g. subst g e. cbn [Add].
  rewrite (addRecords_total cbytes Bytes), (addRecords_total cpackets Packets) by done.
  by rewrite !contributions_once.
Qed.

(** * The cap *)

(** How many keys other than the overflow rows are held. *)
Definition plainKeys (m : gmap Key counters) : Z :=
  Z.of_nat (size (filter (fun kc => Value kc.1 <> OtherValue) m)).

Lemma plainKeys_insert m k c :
  plainKeys (<[k := c]> m) =
  if decide (Value k = OtherValue \/ is_Some (m !! k)) then plainKeys m else plainKeys m + 1.
Proof.
  unfold plainKeys. destruct (decide (Value k = OtherValue)) as [Ev|Ev].
  - rewrite decide_True by (by left). rewrite map_filter_insert_False by (simpl; tauto).
    destruct (m !! k) as [c0|] eqn:E; [|by rewrite delete_id].
    rewrite map_filter_delete, map_size_delete_None; [done|].
    apply map_lookup_filter_None. right. intros c1 _. simpl. tauto.
  - rewrite map_filter_insert_True by done. destruct (m !! k) as [c0|] eqn:E.
    + rewrite decide_True by eauto. rewrite map_size_insert_Some; [done|].
      exists c0. by apply map_lookup_filter_Some.
    + rewrite decide_False by (intros [?|[? ?]]; done). rewrite map_size_insert_None; [lia|].
      apply map_lookup_filter_None. by left.
Qed.

Lemma plainKeys_size m : plainKeys m <= Z.of_nat (size m).
Proof. unfold plainKeys. apply Nat2Z.inj_le, map_subseteq_size, map_filter_subseteq. Qed.

Lemma add_MaxKeys a k r : MaxKeys (add a k r) = MaxKeys a /\ TopN (add a k r) = TopN a.
Proof. unfold add. by repeat case_match. Qed.

Lemma add_plainKeys a k r :
  0 < MaxKeys a -> plainKeys (counts a) <= MaxKeys a ->
  plainKeys (counts (add a k r)) <= MaxKeys (add a k r).
Proof.
  intros Hpos Hle. rewrite (proj1 (add_MaxKeys _ _ _)). unfold add.
  pose proof (plainKeys_size (counts a)).
  destruct (counts a !! k) as [c|] eqn:E.
  - simpl. rewrite plainKeys_insert, decide_True by eauto. done.
  - rewrite (proj2 (Z.ltb_lt _ _)) by done. cbn [andb].
    destruct (Z.leb_spec (MaxKeys a) (Z.of_nat (size (counts a)))); simpl;
      rewrite plainKeys_insert; case_decide; lia || idtac.
    exfalso. tauto.
Qed.

(** The key cap bounds the detail: whatever packets are added, an
    aggregator with a cap holds at most that many rows other than the
    overflow rows. *)
Theorem detail_bounded topn cap ps :
  0 < cap ->
  plainKeys (counts (foldl Add (mkAggregator topn ∅ cap 0) ps)) <= cap.
Proof.
  intros Hcap.
  assert (forall (P : Aggregator -> Prop), (forall a k r, P a -> P (add a k r)) ->
    forall ps a, P a -> P (foldl Add a ps)) as Hind.
  { intros P HP. assert (forall ks r a, P a -> P (foldl (fun a k => add a k r) a ks)) as Hk.
    { induction ks; simpl; auto. }
    assert (forall e rs a, P a -> P (foldl (addRecord e) a rs)) as Hr.
    { induction rs; simpl; auto. intros a0 Ha. apply IHrs. unfold addRecord. case_match; auto. }
    induction ps0 as [|[p|] ps0 IH]; simpl; auto. }
  apply (Hind (fun a => MaxKeys a = cap /\ plainKeys (counts a) <= cap)).
  - intros a k r [Hm Hle]. destruct (add_MaxKeys a k r) as [Hm' _].
    split; [congruence|]. rewrite <- Hm, <- Hm'. apply add_plainKeys; lia.
  - split; [done|]. simpl. unfold plainKeys. rewrite map_filter_empty, map_size_empty. lia.
Qed.

(** ** The overflow rows are not bounded by the cap *)

Definition groupPresent (m : gmap Key counters) (g : Key) : Prop :=
  exists k, groupOf k = g /\ is_Some (m !! k).

Lemma present_size (m : gmap Key counters) gs :
  NoDup gs -> Forall (groupPresent m) gs -> (length gs <= size m)%nat.
Proof.
  intros Hnd Hp.
  assert (gs ⊆+ (groupOf <$> (map_to_list m).*1)) as Hsub.
  { apply NoDup_submseteq; [done|]. intros g Hg. rewrite List.Forall_forall in Hp.
    destruct (Hp g) as (k & <- & c & Hc); [by apply list_elem_of_In|].
    apply list_elem_of_fmap. exists k. split; [done|].
    apply list_elem_of_fmap. exists (k, c). split; [done|]. by apply elem_of_map_to_list. }
  apply submseteq_length in Hsub. by rewrite !length_fmap, length_map_to_list in Hsub.
Qed.

Lemma add_present a k r g :
  groupPresent (counts a) g \/ groupOf k = g -> groupPresent (counts (add a k r)) g.
Proof.
  assert (forall m k' c, groupPresent m g \/ groupOf k' = g -> groupPresent (<[k' := c]> m) g) as Hins.
  { intros m k' c [(k0 & E & Hk0)|E].
    - exists k0. split; [done|]. apply lookup_insert_is_Some'. by right.
    - exists k'. split; [done|]. by rewrite lookup_insert_eq. }
  unfold add. intros H. destruct (counts a !! k); [by apply Hins|].
  case_match; simpl; apply Hins; by rewrite ?groupOf_other.
Qed.

Lemma addKeys_present ks a r g :
  groupPresent (counts a) g \/ Exists (fun k => groupOf k = g) ks ->
  groupPresent (counts (foldl (fun a k => add a k r) a ks)) g.
Proof.
  revert a. induction ks as [|k ks IH]; intros a [H|H]; simpl; try done.
  - by inversion H.
  - apply IH. left. apply add_present. by left.
  - apply Exists_cons in H as [H|H]; apply IH; [left; apply add_present | ]; by right.
Qed.

Definition spray (i : nat) : Record := zeroRecord <| InputIf := Z.of_nat i + 1 |>.

Lemma spray_present e rs a g :
  groupPresent (counts a) g \/
  Exists (fun r => attribution r <> 0 /\ mkKey e (attribution r) DimTalker "" = g) rs ->
  groupPresent (counts (foldl (addRecord e) a rs)) g.
Proof.
  assert (forall a r, groupPresent (counts a) g \/
    (attribution r <> 0 /\ mkKey e (attribution r) DimTalker "" = g) ->
    groupPresent (counts (addRecord e a r)) g) as H1.
  { intros b r H. unfold addRecord. destruct (Z.eqb_spec (attribution r) 0); [by destruct H as [|[]]|].
    apply addKeys_present. destruct H as [|[_ <-]]; [by left|]. right. by apply Exists_cons_hd. }
  revert a. induction rs as [|r rs IH]; intros a [H|H]; simpl; try done.
  - by inversion H.
  - apply IH. left. apply H1. by left.
  - apply Exists_cons in H as [H|H]; apply IH; [left; apply H1 |]; by right.
Qed.

(** The cap does not bound the table as a whole: with a cap of one, a
    single packet whose records name ever new interface numbers makes the
    table as large as the sender likes, one overflow row per dimension of
    every interface. *)
Theorem overflow_unbounded n :
  exists p, n <= Z.of_nat (size (counts (Add (mkAggregator 25 ∅ 1 0) (Some p)))).
Proof.
  exists (mkPacket (V4 1) (map spray (seq 0 (Z.to_nat n)))). cbn [Add ExporterIP Records].
  set (e := Addr_String (V4 1)). set (m := counts _).
  set (gs := map (fun i => mkKey e (Z.of_nat i + 1) DimTalker "") (seq 0 (Z.to_nat n))).
  assert (length gs <= size m)%nat as Hle; [|subst gs; rewrite length_map, length_seq in Hle; lia].
  apply present_size.
  - subst gs. apply NoDup_fmap_2_strong; [|apply NoDup_seq]. intros i j _ _ [=]. lia.
  - apply Forall_forall. intros g Hg. apply list_elem_of_fmap in Hg as (i & -> & Hi).
    subst m. apply spray_present. right. apply Exists_exists. exists (spray i).
    split; [apply list_elem_of_fmap; by exists i|].
    unfold attribution, spray. simpl. rewrite (proj2 (Z.eqb_neq _ _)) by lia. split; [lia|done].
Qed.

(** * Draining *)

Lemma rowLe_spec x y :
  rowLe x y <-> b_bytes y < b_bytes x \/
    (b_bytes x = b_bytes y /\ str_lt (Value (b_key y)) (Value (b_key x)) = false).
Proof.
  unfold rowLe, rowBefore. destruct (Z.eqb_spec (b_bytes y) (b_bytes x)); rewrite ?Z.ltb_ge;
    intuition (auto; lia).
Qed.

#[export] Instance rowLe_trans : Transitive rowLe.
Proof.
  intros x y z. rewrite !rowLe_spec. intros [|[? Hxy]] [|[? Hyz]]; [left; lia..|].
  right. split; [lia|]. by eapply str_not_lt_trans.
Qed.

#[export] Instance rowLe_total : Total rowLe.
Proof.
  intros x y. rewrite !rowLe_spec.
  destruct (Z.lt_total (b_bytes x) (b_bytes y)) as [?|[E|?]]; [by right; left | | by left; left].
  destruct (str_lt (Value (b_key y)) (Value (b_key x))) eqn:H; [right|left]; right; split; try done.
  by apply str_lt_asym.
Qed.

(** Two rows of one group that tie are the same row of the counters. *)
Lemma rowLe_antisym_group (m : gmap Key counters) g x y :
  x ∈ groupRows g (map_to_list m) -> y ∈ groupRows g (map_to_list m) ->
  rowLe x y -> rowLe y x -> x = y.
Proof.
  unfold groupRows. intros [[k c] [-> Hx]]%list_elem_of_fmap [[k' c'] [-> Hy]]%list_elem_of_fmap.
  apply list_elem_of_filter in Hx as [Hg Hx], Hy as [Hg' Hy]. rewrite !rowLe_spec. simpl in *.
  intros [|[E1 V1]] [|[E2 V2]]; [lia..|].
  apply elem_of_map_to_list in Hx, Hy.
  assert (k = k') as <-; [|congruence].
  pose proof (str_lt_total _ _ V2 V1) as Ev. rewrite <- Hg' in Hg.
  destruct k, k'. unfold groupOf in Hg. simpl in *. congruence.
Qed.

Lemma groupRows_perm g l l' : l ≡ₚ l' -> groupRows g l ≡ₚ groupRows g l'.
Proof. intros E. unfold groupRows. by rewrite E. Qed.

(** The rows of a group do not depend on the order the map is ranged over. *)
Lemma cutGroup_perm (m : gmap Key counters) n g entries :
  entries ≡ₚ map_to_list m -> cutGroup n entries g = cutGroup n (map_to_list m) g.
Proof.
  intros E%(groupRows_perm g). unfold cutGroup. f_equal.
  apply (StronglySorted_unique_strong rowLe); try (apply StronglySorted_merge_sort; apply _).
  - intros x y. rewrite !merge_sort_Permutation, E. apply rowLe_antisym_group.
  - by rewrite !merge_sort_Permutation.
Qed.

Lemma cutGroup_group n entries g b : b ∈ cutGroup n entries g -> groupOf (b_key b) = g.
Proof.
  unfold cutGroup. intros Hb%elem_of_take. destruct Hb as (i & Hb & _).
  apply list_elem_of_lookup_2 in Hb. rewrite merge_sort_Permutation in Hb.
  apply list_elem_of_fmap in Hb as [[k c] [-> Hb]]. by apply list_elem_of_filter in Hb as [? _].
Qed.

Lemma filter_drainOver n entries groups g :
  NoDup groups ->
  filter (fun b => groupOf (b_key b) = g) (drainOver n entries groups)
  = if decide (g ∈ groups) then cutGroup n entries g else [].
Proof.
  unfold drainOver. induction 1 as [|g' gs Hnin Hnd IH]; [done|].
  cbn [mbind list_bind]. rewrite filter_app, IH.
  destruct (decide (g' = g)) as [->|Hne].
  - rewrite (decide_False (P := g ∈ gs)) by done. rewrite decide_True by (by left).
    rewrite app_nil_r. apply list_filter_all. apply cutGroup_group.
  - rewrite list_filter_none.
    + simpl. destruct (decide (g ∈ gs)); [by rewrite decide_True by (by right)|].
      by rewrite decide_False by (by rewrite elem_of_cons; intros [|]).
    + intros b Hb%cutGroup_group. congruence.
Qed.

Lemma elem_of_groupsOf g (m : gmap Key counters) :
  g ∈ groupsOf (map_to_list m) <-> groupPresent m g.
Proof.
  unfold groupsOf, groupPresent. rewrite elem_of_remove_dups, list_elem_of_fmap. split.
  - intros ([k c] & -> & Hk%elem_of_map_to_list). by exists k.
  - intros (k & <- & c & Hk). exists (k, c). split; [done|]. by apply elem_of_map_to_list.
Qed.

(** The rows of a group are the counters of the group. *)
Lemma elem_of_groupRows (m : gmap Key counters) g b :
  b ∈ groupRows g (map_to_list m) <->
  groupOf (b_key b) = g /\ m !! b_key b = Some (mkCounters (b_bytes b) (b_packets b) (b_sampled b)).
Proof.
  unfold groupRows. rewrite list_elem_of_fmap. split.
  - intros ([k [c1 c2 c3]] & -> & [Hg Hm%elem_of_map_to_list]%list_elem_of_filter). done.
  - intros [Hg Hm]. exists (b_key b, mkCounters (b_bytes b) (b_packets b) (b_sampled b)).
    split; [by destruct b|]. apply list_elem_of_filter. split; [done|]. by apply elem_of_map_to_list.
Qed.

Lemma groupRows_NoDup (m : gmap Key counters) g : NoDup (groupRows g (map_to_list m)).
Proof.
  unfold groupRows. apply NoDup_fmap_2.
  - intros [k [c1 c2 c3]] [k' [c1' c2' c3']]. unfold bucketOf. simpl. congruence.
  - apply NoDup_filter, NoDup_map_to_list.
Qed.

Lemma cutGroup_absent (m : gmap Key counters) n g :
  ~ groupPresent m g -> cutGroup n (map_to_list m) g = [].
Proof.
  intros Hn. unfold cutGroup. assert (groupRows g (map_to_list m) = []) as ->; [|by destruct (Z.to_nat n)].
  unfold groupRows. rewrite list_filter_none; [done|]. intros [k c] Hk%elem_of_map_to_list Hg.
  apply Hn. exists k. by split; [|exists c].
Qed.

(** [Drain]'s rows of one group, whatever the order of its loops. *)
Lemma drain_group (m : gmap Key counters) n g entries groups :
  entries ≡ₚ map_to_list m -> groups ≡ₚ groupsOf entries ->
  filter (fun b => groupOf (b_key b) = g) (drainOver n entries groups) = cutGroup n (map_to_list m) g.
Proof.
  intros He Hg. rewrite filter_drainOver.
  - rewrite (cutGroup_perm m) by done. case_decide as Hin; [done|].
    rewrite cutGroup_absent; [done|]. rewrite <- elem_of_groupsOf. intros Hin'. apply Hin.
    rewrite Hg. unfold groupsOf in *. rewrite elem_of_remove_dups in *. by rewrite He.
  - rewrite Hg. apply NoDup_remove_dups.
Qed.

Lemma topN_pos a : 0 < topN a.
Proof. unfold topN, DefaultTopN. destruct (Z.leb_spec (TopN a) 0); lia. Qed.

(** What [Drain] reports for one exporter, interface and dimension,
    whatever order Go ranges over its maps in: the same rows each time; each
    of them a counter of that group exactly as it was accumulated; no more
    than the top N; sorted by bytes, most first, ties by value; all of the
    group when it fits, and otherwise exactly N rows, none of which a row left
    out would precede. The accumulator is empty afterwards. *)
Theorem drain_spec a g entries groups :
  entries ≡ₚ map_to_list (counts a) -> groups ≡ₚ groupsOf entries ->
  let out := filter (fun b => groupOf (b_key b) = g) (drainOver (topN a) entries groups) in
  let all := groupRows g (map_to_list (counts a)) in
  out = filter (fun b => groupOf (b_key b) = g) (fst (Drain a)) /\
  (forall b, b ∈ out -> groupOf (b_key b) = g /\
    counts a !! b_key b = Some (mkCounters (b_bytes b) (b_packets b) (b_sampled b))) /\
  NoDup out /\ StronglySorted rowLe out /\ len out = Z.min (topN a) (len all) /\
  (forall b, b ∈ all -> b ∉ out -> forall b', b' ∈ out -> rowLe b' b) /\
  counts (snd (Drain a)) = ∅ /\ Dropped (snd (Drain a)) = 0.
Proof.
  intros He Hg out all. subst out. rewrite (drain_group (counts a)) by done.
  set (sorted := merge_sort rowLe all).
  assert (StronglySorted rowLe sorted) as Hs by (apply StronglySorted_merge_sort; apply _).
  assert (sorted ≡ₚ all) as Hp by apply merge_sort_Permutation.
  rewrite <- (take_drop (Z.to_nat (topN a)) sorted) in Hs.
  assert (forall b, b ∈ take (Z.to_nat (topN a)) sorted -> b ∈ all) as Hin.
  { intros b (i & Hb & _)%elem_of_take. rewrite <- Hp. by eapply list_elem_of_lookup_2. }
  split_and!; try done.
  - symmetry. by apply drain_group.
  - intros b Hb%Hin. by apply elem_of_groupRows.
  - apply (sublist_NoDup _ sorted); [rewrite Hp; apply groupRows_NoDup | apply sublist_take].
  - by apply StronglySorted_app_1_l in Hs.
  - unfold cutGroup, len. fold all sorted. rewrite length_take, (Permutation_length Hp).
    pose proof (topN_pos a). lia.
  - intros b Hb Hnb b' Hb'. apply (StronglySorted_app_1_elem_of _ _ _ _ _ Hs Hb').
    rewrite <- Hp, <- (take_drop (Z.to_nat (topN a)) sorted), elem_of_app in Hb. by destruct Hb.
Qed.

(** * Names *)

(** The two directions of an exchange. *)
Definition reversed (r : Record) : Record :=
  r <| SrcAddr := DstAddr r |> <| DstAddr := SrcAddr r |>
    <| SrcPort := DstPort r |> <| DstPort := SrcPort r |>.

Lemma conversation_comm a b : conversation a b = conversation b a.
Proof.
  unfold conversation. pose proof (Addr_Compare_antisym a b) as E. rewrite E.
  destruct (Addr_Compare a b) eqn:Eab; simpl; try done.
  by apply Addr_Compare_eq in Eab as ->.
Qed.

(** Both directions of an exchange land in the same rows: the
    conversation key is the same, and so is the application key when the two
    ports are not zero. *)
Theorem directions_agree r :
  SrcPort r <> 0 -> DstPort r <> 0 ->
  conversation (SrcAddr (reversed r)) (DstAddr (reversed r)) = conversation (SrcAddr r) (DstAddr r) /\
  application (reversed r) = application r.
Proof.
  intros Hs Hd. split; [apply conversation_comm|]. unfold application, reversed. simpl.
  rewrite (proj2 (Z.eqb_neq (DstPort r) 0)), (proj2 (Z.eqb_neq (SrcPort r) 0)) by done.
  destruct (lookupPort wellKnown (SrcPort r) (Protocol r)) eqn:E1,
    (lookupPort wellKnown (DstPort r) (Protocol r)) eqn:E2; try done.
  - destruct (Z.leb_spec (SrcPort r) (DstPort r)), (Z.leb_spec (DstPort r) (SrcPort r)); try done.
    + assert (SrcPort r = DstPort r) as E by lia. rewrite E in E1. congruence.
    + lia.
  - rewrite !orb_false_r. destruct (Z.ltb_spec (DstPort r) (SrcPort r)), (Z.ltb_spec (SrcPort r) (DstPort r));
      try done; [lia|]. assert (SrcPort r = DstPort r) as -> by lia. done.
Qed.

(** A port of zero breaks the symmetry: from the source it is passed over,
    from the destination it wins. *)
Example application_port_zero :
  let r := zeroRecord <| Protocol := 6 |> <| SrcPort := 40000 |> <| DstPort := 0 |> in
  application r = "tcp" /\ application (reversed r) = "tcp/40000".
Proof. done. Qed.

(** The labels do not merge what they name: two protocol numbers, two
    DSCP code points or two TCP flag sets with the same label are the same. *)
Theorem labels_injective x y :
  (is_u8 x -> is_u8 y -> protoName x = protoName y -> x = y) /\
  (0 <= x < 64 -> 0 <= y < 64 -> dscpName x = dscpName y -> x = y) /\
  (is_u8 x -> is_u8 y -> tcpFlagsName x = tcpFlagsName y -> x = y).
Proof.
  repeat split; intros Hx Hy.
  - apply (inj_on_upto protoName 256%nat); [|done..]. decide_by_compute.
  - apply (inj_on_upto dscpName 64%nat); [|done..]. decide_by_compute.
  - apply (inj_on_upto tcpFlagsName 256%nat); [|done..]. decide_by_compute.
Qed.

(** * Witnesses *)

Definition sampleRecord : Record :=
  zeroRecord <| SrcAddr := V4 167772161 |> <| DstAddr := V4 3232235521 |> <| SrcPort := 51515 |>
    <| DstPort := 443 |> <| Protocol := 6 |> <| Bytes := 1500 |> <| Packets := 3 |> <| InputIf := 7 |>.
Definition samplePacket : Packet := mkPacket (V4 167772414) [sampleRecord; reversed sampleRecord].

Lemma add_conserves_witness :
  In DimProtocol onceDims /\ 7 <> 0 /\
  uint64 (groupTotal cbytes (mkKey (Addr_String (ExporterIP samplePacket)) 7 DimProtocol "")
    (counts (Add NewAggregator (Some samplePacket)))) = 3000.
Proof.
  assert (In DimProtocol onceDims) as Hd by (simpl; auto).
  split; [exact Hd|]. split; [lia|].
  destruct (add_conserves NewAggregator samplePacket 7 DimProtocol Hd) as [H _]; [lia|].
  rewrite H. vm_compute. reflexivity.
Defined.

Lemma detail_bounded_witness :
  0 < 5 /\ plainKeys (counts (foldl Add (mkAggregator 25 ∅ 5 0) [Some samplePacket])) <= 5.
Proof. split; [lia | apply (detail_bounded 25 5 [Some samplePacket]); lia]. Defined.

Lemma drain_spec_witness :
  let a := Add NewAggregator (Some samplePacket) in
  len (filter (fun b => groupOf (b_key b) = mkKey "10.0.0.254" 7 DimTalker "")
    (drainOver (topN a) (map_to_list (counts a)) (groupsOf (map_to_list (counts a))))) = 2.
Proof.
  intros a.
  destruct (drain_spec a (mkKey "10.0.0.254" 7 DimTalker "") (map_to_list (counts a))
    (groupsOf (map_to_list (counts a))) (reflexivity _) (reflexivity _)) as (_ & _ & _ & _ & H & _).
  etransitivity; [exact H|]. vm_compute. reflexivity.
Defined.

Lemma directions_agree_witness :
  SrcPort sampleRecord <> 0 /\ DstPort sampleRecord <> 0 /\
  application sampleRecord = "https" /\ application (reversed sampleRecord) = "https".
Proof.
  assert (SrcPort sampleRecord <> 0) as Hs by (vm_compute; lia).
  assert (DstPort sampleRecord <> 0) as Hd by (vm_compute; lia).
  assert (application sampleRecord = "https") as E by reflexivity.
  split; [exact Hs|]. split; [exact Hd|]. split; [exact E|].
  rewrite (proj2 (directions_agree sampleRecord Hs Hd)). exact E.
Defined.
