(* ===== verification/Collector.v ===== *)
(** Package flow, file collector.go: the UDP receive path, the source
    allow-list, the intake counters and the drain of each interval.

    A datagram is handled by [handle]; an interval is closed by [tick]. The
    sockets, the ticker and the log are outside the model: what they deliver
    are the arguments of those two, and what is logged or written is the list
    [tick] returns. *)
From Stdlib Require Import ZArith Lia.
From stdpp Require Import base list gmap strings numbers relations.
From S2P Require Import Prelude GoText Netip NetipParse FlowTypes NetFlow5 Templates FlowData NetFlow9 IPFIX SFlow Aggregate.

(** [net.Addr]: what [ReadFrom] says a datagram came from. *)
Inductive NetAddr : Type :=
  | UDPAddr (IP : bytes) (Port : Z) (zone : string)
  | OtherAddr.

(** [RawSink]: the store of single flows, when there is one. *)
Class RawSink (S : Type) := raw_Add : S -> Packet -> S.

Record intake : Type := mkIntake { packets : Z; records : Z; refused : Z; malformed : Z; awaiting : Z }.
#[export] Instance eta_intake : Eta intake := fun s =>
  mkIntake (packets s) (records s) (refused s) (malformed s) (awaiting s).
Definition zeroIntake : intake := mkIntake 0 0 0 0 0.

Record Collector (S : Type) : Type := mkCollector {
  c_Addr : string; Agg : Aggregator; Raw : option S; Allow : list Prefix; Every : Duration;
  Templates : option TemplateCache; stats : intake; prev : intake
}.
Arguments mkCollector {S} _ _ _ _ _ _ _ _.
Arguments c_Addr {S} _.
Arguments Agg {S} _.
Arguments Raw {S} _.
Arguments Allow {S} _.
Arguments Every {S} _.
Arguments Templates {S} _.
Arguments stats {S} _.
Arguments prev {S} _.
#[export] Instance eta_Collector S : Eta (Collector S) := fun c =>
  mkCollector (c_Addr c) (Agg c) (Raw c) (Allow c) (Every c) (Templates c) (stats c) (prev c).

(** What an interval's end logs and writes. *)
Inductive output : Type :=
  | LogIntake (now : intake) (templates : Z)
  | LogNothingAggregated (pkts undecodable refused_by_allowlist : Z)
  | WriteFlow (at_ : Time) (buckets : list Bucket)
  | LogWriteFailed (buckets : Z)
  | LogKeyCap (records max_keys : Z)
  | LogWritten (buckets : Z).

Definition Interval : Duration := Minute.

(** ** Configuration *)

Definition splitAddrs (s : string) : list string :=
  filter (fun part => part <> "") (TrimSpace <$> Split s comma).

(** The error of [ParseAllow] names the part it could not read. *)
Inductive allowError : Type := ErrNeither (part : string).

Definition parseAllowPart (part : string) : Prefix + allowError :=
  match ParsePrefix part with
  | Some p => inl p
  | None =>
      match ParseAddr part with
      | None => inr (ErrNeither part)
      | Some a => inl (PrefixFrom a (BitLen a))
      end
  end.

Fixpoint parseAllowParts (parts : list string) (out : list Prefix) : list Prefix + allowError :=
  match parts with
  | [] => inl out
  | part :: parts =>
      let part := TrimSpace part in
      if decide (part = "") then parseAllowParts parts out
      else match parseAllowPart part with
      | inl p => parseAllowParts parts (out ++ [p])
      | inr e => inr e
      end
  end.

Definition ParseAllow (s : string) : list Prefix + allowError := parseAllowParts (Split s comma) [].

Section collector.
Context {S : Type} `{RawSink S}.
Abbreviation Collector := (Collector S).

Definition allowed (c : Collector) (a : Addr) : bool :=
  match Allow c with [] => true | ps => existsb (fun p => Contains p a) ps end.

(** What [Run] does before it serves: [None] where it refuses to start. *)
Definition Run_init (c : Collector) : option (Collector * Duration) :=
  let c := match Templates c with None => c <| Templates := Some NewTemplateCache |> | Some _ => c end in
  let every := if Every c <=? 0 then Interval else Every c in
  if decide (splitAddrs (c_Addr c) = []) then None else Some (c, every).

(** ** Counters: each [Add] wraps at 64 bits. *)
Definition count_packets (n : Z) (c : Collector) : Collector :=
  c <| stats := (stats c) <| packets := uint64 (packets (stats c) + n) |> |>.
Definition count_records (n : Z) (c : Collector) : Collector :=
  c <| stats := (stats c) <| records := uint64 (records (stats c) + n) |> |>.
Definition count_refused (c : Collector) : Collector :=
  c <| stats := (stats c) <| refused := uint64 (refused (stats c) + 1) |> |>.
Definition count_malformed (c : Collector) : Collector :=
  c <| stats := (stats c) <| malformed := uint64 (malformed (stats c) + 1) |> |>.
Definition count_awaiting (n : Z) (c : Collector) : Collector :=
  c <| stats := (stats c) <| awaiting := uint64 (awaiting (stats c) + n) |> |>.

(** ** Receiving *)

(** A nil packet would panic on [p.Records]. *)
Definition accept (c : Collector) (p : option Packet) : outcome Collector :=
  match p with
  | None => Panic
  | Some p =>
      let c := count_packets 1 c in
      let c := count_records (uint64 (len (Records p))) c in
      let c := c <| Agg := Add (Agg c) (Some p) |> in
      Ret (match Raw c with None => c | Some s => c <| Raw := Some (raw_Add s p) |> end)
  end.

Abbreviation decoder := (bytes -> Addr -> TemplateCache -> Time ->
    outcome (option Packet * Z * option error * TemplateCache)).

(** The branch of the formats with templates, for the decoder chosen. *)
Definition handleTemplated (decode : decoder) (c : Collector) (b : bytes) (from : Addr) (now : Time)
    : outcome Collector :=
  '(p, aw, err, tc) ← decode b from (default NewTemplateCache (Templates c)) now;
  let c := c <| Templates := Some tc |> in
  match err with
  | Some _ => Ret (count_malformed c)
  | None =>
      let c := if 0 <? aw then count_awaiting (uint64 aw) c else c in
      accept c p
  end.

Definition handle (c : Collector) (b : bytes) (addr : NetAddr) (now : Time) : outcome Collector :=
  match addr with
  | OtherAddr => Ret c
  | UDPAddr ip _ _ =>
    let '(from, ok) := AddrFromSlice ip in
    if negb ok then Ret c else
    let from := Unmap from in
    if negb (allowed c from) then Ret (count_refused c) else
    '(version, ok) ← Version b;
    if negb (ok : bool) then Ret (count_malformed c) else
    sflow ← (if version =? 0 then IsSFlow b else Ret false);
    if sflow : bool then
      '(p, err) ← DecodeSFlow b from;
      match err with
      | Some _ => Ret (count_malformed c)
      | None => accept c p
      end
    else if version =? 5 then
      '(p, err) ← DecodeNetFlowV5 b from;
      match err with
      | Some _ => Ret (count_malformed c)
      | None => accept c p
      end
    else if (version =? 9) || (version =? 10) then
      handleTemplated (if version =? 10 then DecodeIPFIX else DecodeNetFlowV9) c b from now
    else Ret (count_malformed c)
  end.

(** What one read of a socket yields. *)
Inductive readResult : Type :=
  | Read (b : bytes) (addr : NetAddr) (now : Time)
  | Timeout
  | ReadError.

(** [serve], over what its reads yield until the context is cancelled. *)
Fixpoint serve (c : Collector) (reads : list readResult) : outcome Collector :=
  match reads with
  | [] => Ret c
  | Read b addr now :: reads => c ← handle c b addr now; serve c reads
  | _ :: reads => serve c reads
  end.

(** ** Closing an interval *)

Definition Stats (c : Collector) : intake := stats c.

Definition interval (c : Collector) : intake * Collector :=
  let s := Stats c in
  let d := fun f => uint64 (f s - f (prev c)) in
  (mkIntake (d packets) (d records) (d refused) (d malformed) (d awaiting), c <| prev := s |>).

(** One turn of [drainLoop]; [wrote] is whether the writer succeeds. *)
Definition tick (c : Collector) (now : Time) (wrote : bool) : Collector * list output :=
  let '(i, c) := interval c in
  let report :=
    if (0 <? refused i) || (0 <? malformed i) || (0 <? awaiting i)
    then [LogIntake i (Len (default NewTemplateCache (Templates c)))] else [] in
  let dropped := Dropped (Agg c) in
  let '(buckets, agg) := Drain (Agg c) in
  let c := c <| Agg := agg |> in
  (c, report ++
    if decide (buckets = []) then
      if packets i =? 0 then []
      else [LogNothingAggregated (packets i) (malformed i) (refused i)]
    else WriteFlow now buckets ::
      (if wrote then (if 0 <? dropped then [LogKeyCap dropped (MaxKeys agg)] else []) ++ [LogWritten (len buckets)]
       else [LogWriteFailed (len buckets)])).

(** * Receiving *)

(** The source a datagram is judged by, when it has one. *)
Definition source (addr : NetAddr) : option Addr :=
  match addr with
  | OtherAddr => None
  | UDPAddr ip _ _ => let '(from, ok) := AddrFromSlice ip in if ok then Some (Unmap from) else None
  end.

Definition cache_ok (o : option TemplateCache) : Prop :=
  match o with None => True | Some tc => reachable tc end.

Definition packet_ok (p : Packet) : Prop := Addr_wf (ExporterIP p) /\ Forall Record_wf (Records p).

(** The state after a packet is accepted. *)
Definition accepted (c : Collector) (p : Packet) : Collector :=
  let c := count_records (uint64 (len (Records p))) (count_packets 1 c) in
  let c := c <| Agg := Add (Agg c) (Some p) |> in
  match Raw c with None => c | Some s => c <| Raw := Some (raw_Add s p) |> end.

Lemma accept_Some c p : accept c (Some p) = Ret (accepted c p).
Proof. done. Qed.

(** The outcomes of one datagram from an admitted source. *)
Definition admitted_post (c c' : Collector) : Prop :=
  exists o aw, cache_ok o /\
    let c0 := (c <| Templates := o |>) <| stats := (stats c) <| awaiting := aw |> |> in
    (c' = count_malformed c0 \/ exists p, packet_ok p /\ c' = accepted c0 p).

Lemma admitted_same (c : Collector) :
  (c <| Templates := Templates c |>) <| stats := (stats c) <| awaiting := awaiting (stats c) |> |> = c.
Proof. by destruct c as [? ? ? ? ? ? []]. Qed.

Lemma admitted_malformed c : cache_ok (Templates c) -> admitted_post c (count_malformed c).
Proof.
  intros Hc. exists (Templates c), (awaiting (stats c)). split; [done|]. cbv zeta.
  rewrite admitted_same. by left.
Qed.

Lemma admitted_accept c p (e : option error) from :
  Addr_wf from -> cache_ok (Templates c) ->
  (p = None /\ e <> None) \/ (e = None /\ exists pk, p = Some pk /\ ExporterIP pk = from /\ Forall Record_wf (Records pk)) ->
  wp (match e with Some _ => Ret (count_malformed c) | None => accept c p end) (admitted_post c).
Proof.
  intros Hf Hc [[-> He]|(-> & pk & -> & <- & Hpk)].
  - destruct e; [|done]. by apply admitted_malformed.
  - rewrite accept_Some. exists (Templates c), (awaiting (stats c)). split; [done|]. cbv zeta.
    rewrite admitted_same. right. by exists pk.
Qed.

Lemma reachable_wf tc : reachable tc -> cache_wf tc.
Proof. intros Hr. apply (cache_steps_wf _ _ Hr). apply NewTemplateCache_wf. Qed.

Lemma cache_ok_default o : cache_ok o -> reachable (default NewTemplateCache o).
Proof. destruct o; simpl; [done|]. intros _. apply rtc_refl. Qed.

Lemma flow_ok_wf rs : Forall flow_ok rs -> Forall Record_wf rs.
Proof. apply List.Forall_impl. by intros r [? _]. Qed.

(** The v9 and IPFIX branch, for either decoder. *)
Lemma admitted_templates c b from now (decode : decoder) :
  let tc := default NewTemplateCache (Templates c) in
  wp (decode b from tc now) (decode_post from tc) ->
  Addr_wf from -> cache_ok (Templates c) ->
  wp (handleTemplated decode c b from now) (admitted_post c).
Proof.
  intros tc Hd Hf Hc. unfold handleTemplated. apply wp_bind. eapply wp_mono; [exact Hd|].
  intros [[[p aw] e] tc'] (Hsteps & _ & Haw & Hp).
  assert (reachable tc') as Hc' by (etransitivity; [by apply cache_ok_default | exact Hsteps]).
  destruct e as [e|].
  - exists (Some tc'), (awaiting (stats c)). split; [done|]. cbv zeta. left.
    by destruct c as [? ? ? ? ? ? []].
  - destruct p as [p|]; [|by destruct Hp].
    exists (Some tc'), (if 0 <? aw then uint64 (awaiting (stats c) + uint64 aw) else awaiting (stats c)).
    split; [done|]. cbv zeta. right. exists p. destruct Hp as (Hfrom & Hrs & _).
    split; [split; [by rewrite Hfrom | by apply flow_ok_wf]|].
    by destruct c as [? ? ? ? ? ? []], (0 <? aw).
Qed.

(** Every outcome of [handle]. *)
Lemma handle_cases c b addr now :
  cache_ok (Templates c) ->
  wp (handle c b addr now) (fun c' =>
    match source addr with
    | None => c' = c
    | Some from => if allowed c from then admitted_post c c' else c' = count_refused c
    end).
Proof.
  intros Hc. unfold handle, source. destruct addr as [ip port zone|]; [|done].
  pose proof (AddrFromSlice_wf ip) as Hwf. destruct (AddrFromSlice ip) as [from0 ok]. simpl fst in Hwf.
  destruct ok; cbn [negb]; [|done]. apply Unmap_wf in Hwf. set (from := Unmap from0) in *.
  destruct (allowed c from); cbn [negb]; [|done].
  apply wp_bind. eapply wp_mono; [apply Version_total|]. intros [v ok] [_ Hok].
  destruct ok; cbn [negb]; [|by apply admitted_malformed].
  apply wp_bind. apply (wp_mono _ (fun _ => True)).
  { destruct (v =? 0); [|done]. unfold IsSFlow. destruct (Z.leb_spec 4 (len b)); [|done].
    apply wp_bind, wp_u32at; [lia..|]. done. }
  intros sf _. destruct sf.
  { apply wp_bind. eapply wp_mono; [apply DecodeSFlow_wp|]. intros [p e] Hp.
    apply (admitted_accept c p e from); [done|done|].
    destruct Hp as [?|(? & pk & ? & ? & _ & Hrs)]; [by left|right]. split; [done|].
    exists pk. split_and!; [done..|]. eapply List.Forall_impl; [|exact Hrs]. by intros r [[? _] _]. }
  destruct (v =? 5).
  { apply wp_bind. eapply wp_mono; [apply DecodeNetFlowV5_wp|]. intros [p e] Hp.
    apply (admitted_accept c p e from); [done|done|].
    destruct Hp as [(_ & ? & ?)|(_ & ? & pk & ? & ? & _ & _ & Hrs)]; [by left|right].
    split; [done|]. by exists pk. }
  destruct (_ || _); [|by apply admitted_malformed].
  pose proof (reachable_wf _ (cache_ok_default _ Hc)) as Htc. 
  apply admitted_templates; [|done..].
  destruct (v =? 10); [by apply DecodeIPFIX_wp | by apply DecodeNetFlowV9_wp].
Qed.

(** ** A stream of reads *)

(** The reads that carry a source address, and those of them the allow-list
    turns away. *)
Definition read_source (r : readResult) : option Addr :=
  match r with Read _ addr _ => source addr | _ => None end.
Definition sourced (rs : list readResult) : Z := len (omap read_source rs).
Definition turned_away (c : Collector) (rs : list readResult) : Z :=
  len (filter (fun a => allowed c a = false) (omap read_source rs)).

Definition total (s : intake) : Z := packets s + refused s + malformed s.
Definition recordCount (ps : list Packet) : Z := sumZ (map (fun p => len (Records p)) ps).

(** What holds between the collector before and after receiving the packets
    [ps] out of the reads [rs]. *)
Record receives (c c' : Collector) (ps : list Packet) (rs : list readResult) : Prop := mkReceives {
  rc_packets_ok : Forall packet_ok ps;
  rc_agg : Agg c' = foldl Add (Agg c) (Some <$> ps);
  rc_raw : Raw c' = (fun s => foldl raw_Add s ps) <$> Raw c;
  rc_packets : uint64 (packets (stats c')) = uint64 (packets (stats c) + len ps);
  rc_records : uint64 (records (stats c')) = uint64 (records (stats c) + recordCount ps);
  rc_refused : uint64 (refused (stats c')) = uint64 (refused (stats c) + turned_away c rs);
  rc_total : uint64 (total (stats c')) = uint64 (total (stats c) + sourced rs);
  rc_cache : cache_ok (Templates c) -> cache_ok (Templates c');
  rc_config : Allow c' = Allow c /\ prev c' = prev c /\ c_Addr c' = c_Addr c /\ Every c' = Every c
}.

Lemma receives_nothing c rs : omap read_source rs = [] -> receives c c [] rs.
Proof.
  intros E. constructor; try done.
  - by destruct (Raw c).
  - by rewrite Z.add_0_r.
  - by rewrite Z.add_0_r.
  - unfold turned_away. rewrite E. by rewrite Z.add_0_r.
  - unfold sourced. rewrite E. by rewrite Z.add_0_r.
Qed.

Lemma recordCount_app ps ps' : recordCount (ps ++ ps') = recordCount ps + recordCount ps'.
Proof. unfold recordCount. rewrite map_app. induction (map _ ps); simpl; [done|]. unfold sumZ in *. simpl. lia. Qed.

Lemma uint64_add_eq a b c x y :
  uint64 a = uint64 (b + x) -> uint64 c = uint64 (a + y) -> uint64 c = uint64 (b + (x + y)).
Proof. intros E1 E2. rewrite E2, <- uint64_add_l, E1, uint64_add_l. f_equal. lia. Qed.

Lemma receives_trans c1 c2 c3 ps ps' rs rs' :
  receives c1 c2 ps rs -> receives c2 c3 ps' rs' -> receives c1 c3 (ps ++ ps') (rs ++ rs').
Proof.
  intros [] []. assert (turned_away c2 rs' = turned_away c1 rs') as Et.
  { unfold turned_away, allowed. destruct rc_config0 as (-> & _). done. }
  constructor.
  - by apply Forall_app_2.
  - by rewrite fmap_app, foldl_app, <- rc_agg0.
  - rewrite rc_raw1, rc_raw0. destruct (Raw c1); simpl; [by rewrite foldl_app | done].
  - rewrite len_app. by eapply uint64_add_eq.
  - rewrite recordCount_app. by eapply uint64_add_eq.
  - assert (turned_away c1 (rs ++ rs') = turned_away c1 rs + turned_away c1 rs') as ->.
    { unfold turned_away. by rewrite omap_app, filter_app, len_app. }
    rewrite Et in rc_refused1. by eapply uint64_add_eq.
  - assert (sourced (rs ++ rs') = sourced rs + sourced rs') as ->.
    { unfold sourced. by rewrite omap_app, len_app. }
    by eapply uint64_add_eq.
  - auto.
  - destruct rc_config0 as (? & ? & ? & ?), rc_config1 as (? & ? & ? & ?). split_and!; congruence.
Qed.

Lemma handle_receives c b addr now :
  cache_ok (Templates c) ->
  wp (handle c b addr now) (fun c' => exists ps, receives c c' ps [Read b addr now]).
Proof.
  intros Hc. eapply wp_mono; [by apply handle_cases|]. intros c' Hc'.
  destruct (source addr) as [from|] eqn:Es.
  2: { subst c'. exists []. apply receives_nothing. simpl. by rewrite Es. }
  assert (sourced [Read b addr now] = 1) as H1 by (unfold sourced; simpl; by rewrite Es).
  assert (turned_away c [Read b addr now] = if allowed c from then 0 else 1) as H2.
  { unfold turned_away. simpl. rewrite Es. simpl. rewrite filter_cons. by destruct (allowed c from). }
  destruct (allowed c from) eqn:Ea.
  2: { subst c'. exists []. constructor; try done; rewrite ?H1, ?H2.
    - by destruct c as [? ? []].
    - by rewrite Z.add_0_r.
    - by rewrite Z.add_0_r.
    - simpl. uint64_sum.
    - unfold total. simpl. uint64_sum. }
  destruct Hc' as (o & aw & Ho & [->|(p & Hp & ->)]).
  - exists []. constructor; try done; rewrite ?H1, ?H2.
    + by destruct c as [? ? []].
    + by rewrite Z.add_0_r.
    + by rewrite Z.add_0_r.
    + by rewrite Z.add_0_r.
    + unfold total. simpl. uint64_sum.
  - exists [p]. unfold accepted. cbv zeta.
    constructor; rewrite ?H1, ?H2; simpl; repeat (case_match; simplify_eq/=); try done.
    all: unfold recordCount, total, sumZ; simpl; change (len [p]) with 1; try uint64_sum; by constructor.
Qed.

Lemma serve_receives c rs :
  cache_ok (Templates c) -> wp (serve c rs) (fun c' => exists ps, receives c c' ps rs).
Proof.
  revert c. induction rs as [|r rs IH]; intros c Hc; [exists []; by apply receives_nothing|].
  assert (receives c c [] [r] -> wp (serve c rs) (fun c' => exists ps, receives c c' ps (r :: rs))) as Hskip.
  { intros H1. eapply wp_mono; [by apply IH|]. intros c' [ps Hps]. exists ps.
    apply (receives_trans _ _ _ _ _ _ _ H1 Hps). }
  destruct r as [b addr now| |]; [|by apply Hskip, receives_nothing..].
  cbn [serve]. apply wp_bind. eapply wp_mono; [by apply handle_receives|]. intros c1 [ps1 H1].
  eapply wp_mono; [apply IH, (rc_cache _ _ _ _ H1), Hc|]. intros c2 [ps2 H2].
  exists (ps1 ++ ps2). apply (receives_trans _ _ _ _ _ _ _ H1 H2).
Qed.

(** Receiving is total and loses nothing: whatever datagrams arrive, from
    whatever sources, at whatever times, the collector never panics and every
    read is accounted for. There is a sequence of well-formed packets that is
    handed, in order and each once, to the aggregator and to the raw store;
    the packet and record counters grow by exactly that sequence, the refused
    counter by exactly the datagrams the allow-list turns away, and packets,
    refused and malformed together by the datagrams that have a source. The
    template cache keeps its bound throughout. *)
Theorem serve_spec c rs :
  cache_ok (Templates c) ->
  wp (serve c rs) (fun c' =>
    (exists ps, receives c c' ps rs) /\ Len (default NewTemplateCache (Templates c')) <= DefaultMaxTemplates).
Proof.
  intros Hc. eapply wp_mono; [by apply serve_receives|]. intros c' [ps Hps]. split; [by exists ps|].
  pose proof (cache_ok_default _ (rc_cache _ _ _ _ Hps Hc)) as Hr.
  destruct (empty_cache_bounded DefaultTemplateTTL DefaultMaxTemplates) as [Hl Hw].
  destruct (cache_steps_bounded _ _ Hr Hl Hw) as (Hle & Hm & _). by rewrite Hm in Hle.
Qed.

(** C18. Whatever datagrams a collector reads, from whatever senders and at
    whatever times, NetFlow v9 and IPFIX announcements of every shape among
    them, it never fails, its template cache never holds more than ten thousand
    templates, and each of them can be walked: the widths of its fields add up
    to the record length, or it says that some vary, and no record is of zero
    width, so that no later data set can keep the walk where it is. *)
Theorem templates_sound (c : Collector) rs : exists c', serve (c <| Templates := None |>) rs = Ret c' /\
  let tc := default NewTemplateCache (Templates c') in
  Len tc <= 10000 /\
  forall k t, templates tc !! k = Some t ->
    Forall (fun f => is_u16 (typ f) /\ is_u16 (fieldLength f)) (fields t) /\
    if hasVarLen t then fields t <> [] /\ Forall (fun f => 0 < fieldLength f) (fields t)
    else recordLen t = sumZ (map fieldLength (fields t)) /\ 0 < recordLen t.
Proof.
  pose proof (serve_receives (c <| Templates := None |>) rs I) as Hrs. destruct (serve _ rs) as [c'| |]; [|done|done].
  destruct Hrs as [ps Hps]. exists c'. split; [done|].
  pose proof (cache_ok_default _ (rc_cache _ _ _ _ Hps I)) as Hr.
  destruct (empty_cache_bounded DefaultTemplateTTL DefaultMaxTemplates) as [Hl Hw].
  destruct (cache_steps_bounded _ _ Hr Hl Hw) as (Hle & Hm & Hwf & _). rewrite Hm in Hle. split; [exact Hle|]. intros k t Hk. exact (Hwf k t Hk).
Qed.

(** ** The allow-list *)

(** The state with its refused counter set to [n]: what two collectors that
    differ in nothing else have in common. *)
Definition with_refused (n : Z) (c : Collector) : Collector :=
  c <| stats := (stats c) <| refused := n |> |>.

Definition outcome_map {A B} (f : A -> B) (m : outcome A) : outcome B :=
  match m with Ret a => Ret (f a) | Panic => Panic | OutOfFuel => OutOfFuel end.

Lemma accept_refused n c p : accept (with_refused n c) p = outcome_map (with_refused n) (accept c p).
Proof.
  destruct p as [p|]; [|done]. destruct c as [? ? [s|] ? ? ? [] ?]; reflexivity.
Qed.

Lemma handleTemplated_refused decode n c b from now :
  handleTemplated decode (with_refused n c) b from now
  = outcome_map (with_refused n) (handleTemplated decode c b from now).
Proof.
  unfold handleTemplated. change (Templates (with_refused n c)) with (Templates c).
  destruct (decode b from _ now) as [[[[p aw] e] tc]| |]; [|done..]. cbn [mbind outcome_bind].
  destruct e as [e|]; [by destruct c as [? ? ? ? ? ? [] ?]|].
  rewrite <- accept_refused. f_equal. by destruct (0 <? aw), c as [? ? ? ? ? ? [] ?].
Qed.

(** Nothing else the collector does depends on how many were refused. *)
Lemma handle_with_refused n c b addr now from :
  source addr = Some from -> allowed c from = true ->
  handle (with_refused n c) b addr now = outcome_map (with_refused n) (handle c b addr now).
Proof.
  unfold source, handle. destruct addr as [ip port zone|]; [|done].
  destruct (AddrFromSlice ip) as [from0 []]; [|done]. intros [= <-] Ha. cbn [negb].
  change (allowed (with_refused n c) (Unmap from0)) with (allowed c (Unmap from0)). rewrite Ha. cbn [negb].
  assert (count_malformed (with_refused n c) = with_refused n (count_malformed c)) as Em
    by (by destruct c as [? ? ? ? ? ? [] ?]).
  rewrite !Em. destruct (Version b) as [[v ok]| |]; [|done..]. cbn [mbind outcome_bind].
  destruct ok; cbn [negb]; [|done].
  destruct (if v =? 0 then IsSFlow b else Ret false) as [[]| |]; [| |done..]; cbn [mbind outcome_bind].
  - destruct (DecodeSFlow b _) as [[p [e|]]| |]; [done| |done..]. apply accept_refused.
  - destruct (v =? 5).
    + destruct (DecodeNetFlowV5 b _) as [[p [e|]]| |]; [done| |done..]. apply accept_refused.
    + destruct (_ || _); [|done]. apply handleTemplated_refused.
Qed.

Definition admitted (c : Collector) (r : readResult) : Prop :=
  match read_source r with Some from => allowed c from = true | None => True end.
#[export] Instance admitted_dec c r : Decision (admitted c r).
Proof. unfold admitted. destruct (read_source r); apply _. Defined.

Lemma handle_Allow c b addr now c' :
  cache_ok (Templates c) -> handle c b addr now = Ret c' ->
  Allow c' = Allow c /\ cache_ok (Templates c').
Proof.
  intros Hc E. pose proof (handle_receives c b addr now Hc) as Hw. rewrite E in Hw.
  destruct Hw as (ps & Hps). destruct Hps. split; [apply rc_config0 | auto].
Qed.

Lemma handle_unsourced c b addr now : source addr = None -> handle c b addr now = Ret c.
Proof.
  unfold source, handle. destruct addr as [ip port zone|]; [|done].
  by destruct (AddrFromSlice ip) as [from []].
Qed.

Lemma handle_turned_away c b addr now from :
  source addr = Some from -> allowed c from = false -> handle c b addr now = Ret (count_refused c).
Proof.
  unfold source, handle. destruct addr as [ip port zone|]; [|done].
  destruct (AddrFromSlice ip) as [from0 []]; [|done]. intros [= <-] ->. done.
Qed.

Lemma serve_with_refused rs : forall n c,
  cache_ok (Templates c) ->
  exists n', serve (with_refused n c) rs
    = outcome_map (with_refused n') (serve c (filter (admitted c) rs)).
Proof.
  induction rs as [|r rs IH]; intros n c Hc; [by exists n|].
  destruct r as [b addr now| |]; [|rewrite filter_cons_True by done; cbn [serve]; by apply IH..].
  cbn [serve]. destruct (source addr) as [from|] eqn:Es.
  - destruct (allowed c from) eqn:Ea.
    + rewrite filter_cons_True by (unfold admitted; simpl; by rewrite Es). cbn [serve].
      rewrite (handle_with_refused _ _ _ _ _ _ Es Ea).
      destruct (handle c b addr now) as [c1| |] eqn:E; [|by exists n..]. cbn [outcome_map mbind outcome_bind].
      destruct (handle_Allow _ _ _ _ _ Hc E) as [HA Hc1].
      assert (filter (admitted c) rs = filter (admitted c1) rs) as ->; [|by apply IH].
      apply list_filter_iff. intros r. unfold admitted, allowed. by rewrite HA.
    + rewrite filter_cons_False by (unfold admitted; simpl; rewrite Es, Ea; done).
      rewrite (handle_turned_away (with_refused n c) _ _ _ _ Es Ea). cbn [mbind outcome_bind].
      assert (count_refused (with_refused n c) = with_refused (uint64 (n + 1)) c) as ->
        by (by destruct c as [? ? ? ? ? ? [] ?]).
      by apply IH.
  - rewrite filter_cons_True by (unfold admitted; simpl; by rewrite Es). cbn [serve].
    rewrite !handle_unsourced by done. cbn [mbind outcome_bind]. by apply IH.
Qed.

(** A source outside the allow-list has no influence: taking every
    datagram the list refuses out of the stream leaves the same collector,
    aggregates, templates, raw store and every other counter alike; only the
    refused counter tells the two apart. *)
Theorem refused_no_influence c rs :
  cache_ok (Templates c) ->
  exists n c', serve c (filter (admitted c) rs) = Ret c' /\ serve c rs = Ret (with_refused n c').
Proof.
  intros Hc. destruct (serve_with_refused rs (refused (stats c)) c Hc) as [n E].
  assert (with_refused (refused (stats c)) c = c) as Ec by (by destruct c as [? ? ? ? ? ? [] ?]).
  rewrite Ec in E. destruct (wp_inv _ _ (serve_receives c (filter (admitted c) rs) Hc)) as (c' & E' & _).
  exists n, c'. split; [done|]. by rewrite E, E'.
Qed.

(** * Intervals *)

(** Every counter of an intake report. *)
Definition counterOf : list (intake -> Z) := [packets; records; refused; malformed; awaiting].

Lemma interval_delta c f :
  In f counterOf -> f (fst (interval c)) = uint64 (f (stats c) - f (prev c)).
Proof. simpl. intros [<-|[<-|[<-|[<-|[<-|[]]]]]]; reflexivity. Qed.

Lemma tick_fields c now wrote :
  let c' := fst (tick c now wrote) in
  stats c' = stats c /\ prev c' = stats c /\ Templates c' = Templates c /\ Allow c' = Allow c /\
  Raw c' = Raw c /\ Agg c' = snd (Drain (Agg c)).
Proof. done. Qed.

(** What the end of an interval does: the aggregate is written exactly
    when it is not empty, once, stamped with the time of the tick and holding
    the drained rows; the intake line appears exactly when something was
    refused, undecodable or awaiting a template since the last tick, and
    carries the number of templates held; a failed write is reported in place
    of the success; and the aggregator is empty afterwards. *)
Theorem tick_spec c now wrote :
  let i := fst (interval c) in
  let out := snd (tick c now wrote) in
  let rows := fst (Drain (Agg c)) in
  (forall at_ buckets, WriteFlow at_ buckets ∈ out <-> at_ = now /\ buckets = rows /\ rows <> []) /\
  (forall i' n, LogIntake i' n ∈ out <->
     i' = i /\ n = Len (default NewTemplateCache (Templates c)) /\
     (0 < refused i \/ 0 < malformed i \/ 0 < awaiting i)) /\
  (forall n, LogWritten n ∈ out <-> n = len rows /\ rows <> [] /\ wrote = true) /\
  (forall n, LogWriteFailed n ∈ out <-> n = len rows /\ rows <> [] /\ wrote = false) /\
  counts (Agg (fst (tick c now wrote))) = ∅.
Proof.
  intros i out rows. subst i out. unfold tick.
  destruct (interval c) as [i c1] eqn:Ei. assert (Agg c1 = Agg c /\ Templates c1 = Templates c) as [EA ET]
    by (unfold interval in Ei; by simplify_eq).
  subst rows. rewrite EA, ET. destruct (Drain (Agg c)) as [rows agg] eqn:Ed. simpl fst. simpl snd.
  assert (((0 <? refused i) || (0 <? malformed i) || (0 <? awaiting i)) = true <->
    (0 < refused i \/ 0 < malformed i \/ 0 < awaiting i)) as Hrep.
  { rewrite !orb_true_iff, !Z.ltb_lt. tauto. }
  set (line := LogIntake i _).
  split_and!.
  - intros at_ buckets. clear Hrep; repeat case_match; set_solver.
  - intros i' n. rewrite <- Hrep. subst line. clear Hrep. repeat case_match; set_solver.
  - intros n. clear Hrep; repeat case_match; set_solver.
  - intros n. clear Hrep; repeat case_match; set_solver.
  - by injection Ed as <- <-.
Qed.

(** One round of a collector's life: what it reads, then a tick. *)
Fixpoint life (c : Collector) (rounds : list (list readResult * Time * bool))
    : outcome (Collector * list (intake * list output)) :=
  match rounds with
  | [] => Ret (c, [])
  | (rs, now, wrote) :: rounds =>
      c ← serve c rs;
      let i := fst (interval c) in
      let '(c, out) := tick c now wrote in
      '(c, outs) ← life c rounds;
      Ret (c, (i, out) :: outs)
  end.

Lemma life_total c rounds :
  cache_ok (Templates c) ->
  wp (life c rounds) (fun '(c', outs) => cache_ok (Templates c') /\
    (rounds <> [] -> prev c' = stats c') /\ (rounds = [] -> c' = c) /\
    forall f, In f counterOf ->
      uint64 (f (prev c) + sumZ (map (fun io => f (fst io)) outs)) = uint64 (f (prev c'))).
Proof.
  revert c. induction rounds as [|[[rs now] wrote] rounds IH]; intros c Hc.
  { simpl. split_and!; [done..|]. intros. by rewrite Z.add_0_r. }
  cbn [life]. apply wp_bind. eapply wp_mono; [by apply serve_receives|]. intros c1 [ps Hps].
  destruct Hps. destruct rc_config0 as (_ & Hprev & _).
  destruct (tick_fields c1 now wrote) as (Hs & Hp & Ht & _).
  pose proof (interval_delta c1) as Hd.
  destruct (tick c1 now wrote) as [c2 out]. simpl fst in *. simpl in Ht.
  apply wp_bind. eapply wp_mono; [apply IH; rewrite Ht; auto|].
  intros [c3 outs] (Hok & Hne & Hnil & Hsum). cbn [wp]. split_and!; [done| |done|].
  - intros _. destruct rounds; [rewrite (Hnil eq_refl); congruence | by apply Hne].
  - intros f Hf. simpl. rewrite <- Hsum by done. rewrite (Hd f Hf), Hp, Hprev. uint64_sum.
Qed.

(** The interval reports tell the whole story: over any life of a
    collector that starts with its counters at zero, of any number of rounds
    each ended by a tick, each counter's reported deltas add up, modulo 2^64,
    to the collector's final total, no round's arrivals being reported twice
    or left out; and the collector never panics. *)
Theorem intervals_telescope c rounds :
  cache_ok (Templates c) -> stats c = zeroIntake -> prev c = zeroIntake -> rounds <> [] ->
  exists c' outs, life c rounds = Ret (c', outs) /\ len outs = len rounds /\
    forall f, In f counterOf ->
      uint64 (sumZ (map (fun io => f (fst io)) outs)) = uint64 (f (stats c')).
Proof.
  intros Hc Hs Hp Hne. destruct (wp_inv _ _ (life_total c rounds Hc)) as ([c' outs] & E & _ & Hps & _ & Hsum).
  exists c', outs. split; [done|]. split.
  - clear -E. revert c c' outs E. induction rounds as [|[[rs now] wrote] rounds IH]; intros c c' outs E.
    + by injection E as <- <-.
    + cbn [life] in E. apply bind_Ret_inv in E as (c1 & _ & E). destruct (tick c1 now wrote) as [c2 out].
      apply bind_Ret_inv in E as ([c3 outs'] & E & E'). injection E' as <- <-.
      rewrite !len_cons. f_equal. by eapply IH.
  - intros f Hf. rewrite <- (Hps Hne). rewrite <- (Hsum f Hf), Hp. f_equal.
    simpl in Hf. destruct Hf as [<-|[<-|[<-|[<-|[<-|[]]]]]]; simpl; lia.
Qed.
End collector.

(** * The allow-list an operator writes *)

(** An entry: an IPv4 address, or a network with its length. *)
Inductive allowEntry : Type :=
  | Bare (z : Z)
  | Network (z bits : Z).

Definition entry_text (e : allowEntry) : string :=
  match e with
  | Bare z => string4 z
  | Network z bits => string4 z +:+ "/" +:+ Itoa bits
  end.
Definition entry_prefix (e : allowEntry) : Prefix :=
  match e with Bare z => mkPrefix (V4 z) 32 | Network z bits => mkPrefix (V4 z) bits end.
Definition entry_wf (e : allowEntry) : Prop :=
  match e with
  | Bare z => 0 <= z < 2 ^ 32
  | Network z bits => 0 <= z < 2 ^ 32 /\ 0 <= bits <= 32
  end.

(** An entry with blanks before and after it. *)
Definition padded (e : nat * allowEntry * nat) : string :=
  let '(n, e, m) := e in of_bytes (blanks n ++ to_bytes (entry_text e) ++ blanks m).

Lemma v4char_plain c : v4char c = true -> plain c = true.
Proof.
  unfold v4char, isDigit, plain, within. rewrite orb_true_iff, andb_true_iff, bool_decide_eq_true, !Z.leb_le.
  intros [?| ->]; [|done]. apply andb_true_iff. rewrite !Z.leb_le. lia.
Qed.

Lemma entry_text_chars e :
  entry_wf e ->
  Forall (fun c => plain c = true /\ c <> comma) (to_bytes (entry_text e)) /\ to_bytes (entry_text e) <> [].
Proof.
  assert (forall c, v4char c = true -> plain c = true /\ c <> comma) as Hv.
  { intros c Hc. split; [by apply v4char_plain|]. by intros ->. }
  assert (forall z, Forall (fun c => plain c = true /\ c <> comma) (to_bytes (string4 z))) as H4.
  { intros z. eapply List.Forall_impl; [exact Hv | apply string4_chars]. }
  assert (forall z s, to_bytes (string4 z) ++ s <> []) as Hne.
  { intros z s E. apply (f_equal length) in E. unfold string4 in E.
    rewrite !to_bytes_app in E. change (to_bytes ".") with [dot] in E.
    rewrite !length_app in E. simpl in E. lia. }
  destruct e as [z|z bits]; simpl; intros Hwf.
  - split; [apply H4|]. rewrite <- (app_nil_r (to_bytes _)). apply Hne.
  - rewrite !to_bytes_app. split; [|apply Hne]. apply Forall_app_2; [apply H4|].
    apply Forall_app_2; [by repeat constructor|].
    eapply List.Forall_impl; [|apply Itoa_octet_digits; lia].
    intros c Hc. apply Hv. unfold v4char. by rewrite Hc.
Qed.

Lemma padded_no_comma e : entry_wf (snd (fst e)) -> comma ∉ to_bytes (padded e).
Proof.
  destruct e as [[n e] m]. simpl. intros He%entry_text_chars. destruct He as [He _].
  rewrite to_of_bytes, !elem_of_app. rewrite List.Forall_forall in He.
  intros [H|[H|H]]; [by apply elem_of_replicate in H as [? _] | | by apply elem_of_replicate in H as [? _]].
  apply list_elem_of_In in H. by destruct (He _ H) as [_ []].
Qed.

Lemma TrimSpace_padded e : entry_wf (snd (fst e)) -> TrimSpace (padded e) = entry_text (snd (fst e)).
Proof.
  destruct e as [[n e] m]. simpl. intros He%entry_text_chars. destruct He as [He Hne].
  rewrite TrimSpace_plain; [by rewrite of_to_bytes | | done].
  eapply List.Forall_impl; [|exact He]. by intros c [? _].
Qed.

Lemma parseAllowPart_entry e : entry_wf e -> parseAllowPart (entry_text e) = inl (entry_prefix e).
Proof.
  unfold parseAllowPart. destruct e as [z|z bits]; simpl.
  - intros Hz. rewrite ParsePrefix_bare, ParseAddr_v4 by done. done.
  - intros [Hz Hb]. by rewrite ParsePrefix_v4.
Qed.

Lemma parseAllowParts_entries es out :
  Forall (fun e => entry_wf (snd (fst e))) es ->
  parseAllowParts (map padded es) out = inl (out ++ map (fun e => entry_prefix (snd (fst e))) es).
Proof.
  intros Hes. revert out. induction Hes as [|e es He Hes IH]; intros out; [by rewrite app_nil_r|].
  cbn [map parseAllowParts]. rewrite (TrimSpace_padded e He).
  rewrite decide_False.
  - rewrite parseAllowPart_entry by done. rewrite IH. by rewrite <- app_assoc.
  - intros E. destruct (entry_text_chars _ He) as [_ Hne]. by rewrite E in Hne.
Qed.

(** The address is in the entry's network: the leading bits agree. *)
Definition in_entry (z : Z) (e : allowEntry) : Prop :=
  match e with
  | Bare z' => z = z'
  | Network z' bits => z / 2 ^ (32 - bits) = z' / 2 ^ (32 - bits)
  end.

Lemma entry_Contains z e : entry_wf e -> Contains (entry_prefix e) (V4 z) = true <-> in_entry z e.
Proof.
  intros He. rewrite Contains_spec by (destruct e; simpl in *; lia).
  destruct e as [z'|z' bits]; simpl in *.
  - rewrite !Z.div_1_r. split; [by intros (_ & _ & _ & _ & ?) | intros ->; split_and!; done || lia].
  - split; [by intros (_ & _ & _ & _ & ?) | intros; split_and!; done || lia].
Qed.

(** The allow-list does what the operator wrote: a comma-separated list
    of IPv4 addresses and networks, with any blanks around the entries, is
    read without error, and the collector configured with it admits exactly
    the IPv4 sources that one of the entries names. *)
Theorem allow_list_enforced {S} `{RawSink S} (c : Collector S) es z :
  es <> [] -> Forall (fun e => entry_wf (snd (fst e))) es ->
  exists ps, ParseAllow (Join (map padded es) ",") = inl ps /\
    (allowed (c <| Allow := ps |>) (V4 z) = true <-> exists e, e ∈ es /\ in_entry z (snd (fst e))).
Proof.
  intros Hne Hes. exists (map (fun e => entry_prefix (snd (fst e))) es). split.
  - unfold ParseAllow. change "," with (of_bytes [comma]).
    rewrite Split_Join; [by apply parseAllowParts_entries | by destruct es|].
    apply Forall_fmap. eapply List.Forall_impl; [|exact Hes]. intros e. apply padded_no_comma.
  - set (ps := map _ es). assert (allowed (c <| Allow := ps |>) (V4 z) = existsb (fun p => Contains p (V4 z)) ps) as ->
      by (by destruct es).
    subst ps. rewrite existsb_exists. split.
    + intros (p & Hin & Hp). apply in_map_iff in Hin as (e & <- & Hin).
      exists e. split; [by apply list_elem_of_In|]. rewrite List.Forall_forall in Hes.
      by apply entry_Contains in Hp; [|apply Hes].
    + intros (e & Hin & Hp). apply list_elem_of_In in Hin. rewrite List.Forall_forall in Hes.
      exists (entry_prefix (snd (fst e))). split; [apply in_map_iff; by exists e|].
      apply entry_Contains; [by apply Hes | done].
Qed.

(** * Witnesses *)

#[local] Instance listSink : RawSink (list Packet) := fun s p => s ++ [p].

Definition sampleCollector (ps : list Prefix) : Collector (list Packet) :=
  mkCollector ":2055" NewAggregator (Some []) ps 0 None zeroIntake zeroIntake.

(** A v5 packet without records, from 10.0.0.1, from 10.0.0.2 and from a
    sender whose bytes are not a flow export. *)
Definition emptyV5 : bytes := put_be 2 5 ++ put_be 2 0 ++ put_be 20 0.
Definition ten (host : Z) : NetAddr := UDPAddr (put_be 4 (167772160 + host)) 2055 "".
Definition sampleReads : list readResult :=
  [Read emptyV5 (ten 1) 0; Timeout; Read emptyV5 (ten 2) 0; Read [] (ten 1) 0].
Definition onlyTen1 : list Prefix := [mkPrefix (V4 167772161) 32].

Lemma serve_spec_witness :
  cache_ok (Templates (sampleCollector onlyTen1)) /\
  wp (serve (sampleCollector onlyTen1) sampleReads) (fun c' =>
    Len (default NewTemplateCache (Templates c')) <= DefaultMaxTemplates).
Proof.
  split; [exact I|]. eapply wp_mono; [apply serve_spec; exact I|]. intros c' [_ H]. exact H.
Defined.

Lemma refused_no_influence_witness :
  exists n c', serve (sampleCollector onlyTen1) sampleReads = Ret (with_refused n c') /\ n = 1 /\
    packets (stats c') = 1 /\ malformed (stats c') = 1.
Proof.
  destruct (refused_no_influence (sampleCollector onlyTen1) sampleReads I) as (n & c' & E1 & E2).
  exists n, c'. split; [exact E2|].
  pose proof (f_equal (fun o => match o with Ret c => stats c | _ => zeroIntake end) E2) as Es.
  assert (mkIntake 1 0 1 1 0 = stats (with_refused n c')) as Es'
    by (etransitivity; [|exact Es]; vm_compute; reflexivity).
  destruct c' as [a b r p e t [x1 x2 x3 x4 x5] q]. unfold with_refused in Es'. simpl in *.
  by injection Es' as <- <- <- <- <-.
Defined.

Lemma intervals_telescope_witness :
  exists c' outs,
    life (sampleCollector onlyTen1) [(sampleReads, 0, true); (sampleReads, Minute, true)] = Ret (c', outs) /\
    uint64 (sumZ (map (fun io => refused (fst io)) outs)) = uint64 (refused (stats c')).
Proof.
  destruct (intervals_telescope (sampleCollector onlyTen1)
    [(sampleReads, 0, true); (sampleReads, Minute, true)] I eq_refl eq_refl) as (c' & outs & E & _ & H);
    [discriminate|].
  exists c', outs. split; [exact E|]. apply H. simpl. auto.
Defined.

Lemma allow_list_enforced_witness :
  exists ps, ParseAllow " 10.0.0.1 ,192.168.0.0/16" = inl ps /\
    allowed ((sampleCollector []) <| Allow := ps |>) (V4 3232240000) = true.
Proof.
  destruct (allow_list_enforced (sampleCollector [])
    [(1%nat, Bare 167772161, 1%nat); (0%nat, Network 3232235520 16, 0%nat)] 3232240000) as (ps & E & H).
  - discriminate.
  - repeat constructor; simpl; lia.
  - exists ps. split; [exact E|]. apply H. exists (0%nat, Network 3232235520 16, 0%nat).
    split; [by right; left|]. reflexivity.
Defined.
