(* ===== verification/Geo.v ===== *)
(** Package geo: the AS and country databases that enrich flow addresses.

    A database file is the list of its lines, or the error reading it gives
    ([fileResult]); opening, decompressing and watching the files are outside
    the model. *)
From Stdlib Require Import ZArith Lia.
From stdpp Require Import base list gmap strings pretty numbers sorting.
From S2P Require Import Prelude GoText Netip NetipParse.

Record Info : Type := mkInfo { i_ASN : Z; i_ASName : string; i_Country : string }.
#[export] Instance eta_Info : Eta Info := fun i => mkInfo (i_ASN i) (i_ASName i) (i_Country i).

Record v4Range : Type := mkV4 { start : Z; end_ : Z; val : Z }.
Record v6Range : Type := mkV6 {
  startHi : Z; startLo : Z; endHi : Z; endLo : Z; val6 : Z
}.

Record table : Type := mkTable { v4 : list v4Range; v6 : list v6Range }.
#[export] Instance eta_table : Eta table := fun t => mkTable (v4 t) (v6 t).

Definition table_len (t : table) : Z := len (v4 t) + len (v6 t).

(** [split]: the halves of the 16-byte form. *)
Definition split (a : Addr) : Z * Z :=
  match a with
  | AddrZero => (0, 0)
  | V4 z => (0, 65535 * 2 ^ 32 + z)
  | V6 z _ => (z / 2 ^ 64, z mod 2 ^ 64)
  end.

Definition table_add (t : table) (start end_ : Addr) (val : Z) : table * bool :=
  let start := Unmap start in
  let end_ := Unmap end_ in
  if negb (bool_decide (Is4 start = Is4 end_)) || Addr_Less end_ start then (t, false)
  else if Is4 start then
    (t <| v4 := v4 t ++ [mkV4 (addr_val start) (addr_val end_) val] |>, true)
  else
    let '(sh, sl) := split start in
    let '(eh, el) := split end_ in
    (t <| v6 := v6 t ++ [mkV6 sh sl eh el val] |>, true).

(** The orders [sort.Slice] is given. *)
Definition v4Le (a b : v4Range) : Prop := start a <= start b.
Definition v6Before (a b : v6Range) : bool :=
  (startHi a <? startHi b) || ((startHi a =? startHi b) && (startLo a <? startLo b)).
Definition v6Le (a b : v6Range) : Prop := v6Before b a = false.
#[export] Instance v4Le_dec : RelDecision v4Le.
Proof. intros a b. unfold v4Le. apply _. Defined.
#[export] Instance v6Le_dec : RelDecision v6Le.
Proof. intros a b. unfold v6Le. apply _. Defined.

Definition table_sort (t : table) : table := mkTable (merge_sort v4Le (v4 t)) (merge_sort v6Le (v6 t)).

(** [sort.Search]: the first index below [n] where [f] holds, by bisection. *)
Fixpoint searchLoop (fuel : nat) (f : Z -> outcome bool) (i j : Z) : outcome Z :=
  match fuel with
  | O => OutOfFuel
  | S fuel =>
      if i <? j then
        let h := (i + j) / 2 in
        b ← f h;
        if negb (b : bool) then searchLoop fuel f (h + 1) j else searchLoop fuel f i h
      else Ret i
  end.
Definition Search (n : Z) (f : Z -> outcome bool) : outcome Z :=
  searchLoop (S (Z.to_nat n)) f 0 n.

Definition find (t : table) (a : Addr) : outcome (Z * bool) :=
  let a := Unmap a in
  if Is4 a then
    let x := addr_val a in
    k ← Search (len (v4 t)) (fun i => r ← index (v4 t) i; Ret (x <? start r));
    let i := k - 1 in
    if 0 <=? i then
      r ← index (v4 t) i;
      if x <=? end_ r then Ret (val r, true) else Ret (0, false)
    else Ret (0, false)
  else if negb (Is6 a) then Ret (0, false)
  else
    let '(hi, lo) := split a in
    k ← Search (len (v6 t)) (fun i =>
          r ← index (v6 t) i;
          Ret ((hi <? startHi r) || ((startHi r =? hi) && (lo <? startLo r))));
    let i := k - 1 in
    if i <? 0 then Ret (0, false) else
    r ← index (v6 t) i;
    if (hi <? endHi r) || ((hi =? endHi r) && (lo <=? endLo r)) then Ret (val6 r, true)
    else Ret (0, false).

(** ** The database *)

Record DB : Type := mkDB {
  asn : table; country : table;
  asNames : gmap Z string; asCountry : gmap Z Z;
  SkippedASN : Z; SkippedCountry : Z
}.
#[export] Instance eta_DB : Eta DB := fun d =>
  mkDB (asn d) (country d) (asNames d) (asCountry d) (SkippedASN d) (SkippedCountry d).
Definition emptyDB : DB := mkDB (mkTable [] []) (mkTable [] []) ∅ ∅ 0 0.

Definition HasASN (d : option DB) : bool :=
  match d with Some d => 0 <? table_len (asn d) | None => false end.
Definition HasCountry (d : option DB) : bool :=
  match d with Some d => 0 <? table_len (country d) | None => false end.
Definition Loaded (d : option DB) : Z * Z :=
  match d with Some d => (table_len (asn d), table_len (country d)) | None => (0, 0) end.

(** A missing key of a Go map of strings reads as "". *)
Definition nameOf (d : DB) (asn : Z) : string := default "" (asNames d !! asn).
Definition ASName (d : option DB) (asn : Z) : string :=
  match d with Some d => if asn =? 0 then "" else nameOf d asn | None => "" end.

Definition isAlpha (c : byte) : bool := within 65 (bz c) 90 || within 97 (bz c) 122.
(** [strings.ToUpper] of an ASCII letter. *)
Definition upper (c : byte) : Z := if within 97 (bz c) 122 then bz c - 32 else bz c.

Definition packCC (s : string) : Z * bool :=
  match to_bytes s with
  | [a; b] =>
      if negb (isAlpha a) || negb (isAlpha b) then (0, false)
      else if (upper a =? 90) && (upper b =? 90) then (0, false)
      else (Z.lor (Z.shiftl (upper a) 8) (upper b), true)
  | _ => (0, false)
  end.

Definition unpackCC (v : Z) : string :=
  if v =? 0 then "" else of_bytes [zb (uint8 (Z.shiftr v 8)); zb (uint8 v)].

Definition Lookup (d : option DB) (a : Addr) : outcome Info :=
  let info := mkInfo 0 "" "" in
  match d with
  | None => Ret info
  | Some d =>
      if negb (IsValid a) then Ret info else
      '(n, ok) ← find (asn d) a;
      let info :=
        if ok : bool then
          let info := info <| i_ASN := n |> <| i_ASName := nameOf d n |> in
          match asCountry d !! n with Some cc => info <| i_Country := unpackCC cc |> | None => info end
        else info in
      '(cc, ok) ← find (country d) a;
      Ret (if ok : bool then info <| i_Country := unpackCC cc |> else info)
  end.

(** ** Loading *)

Definition maxLine : Z := 4096.
Definition tab : byte := zb 9.

(** [strings.SplitN(s, sep, n)]: at most [n] parts, the last unsplit. *)
Fixpoint splitN_bytes (n : nat) (sep : byte) (acc b : bytes) : list bytes :=
  match b with
  | [] => [reverse acc]
  | c :: b' =>
      if decide (c = sep) then
        match n with
        | O | S O => [reverse acc ++ b]
        | S n => reverse acc :: splitN_bytes n sep [] b'
        end
      else splitN_bytes n sep (c :: acc) b'
  end.
Definition SplitN (s : string) (sep : byte) (n : nat) : list string :=
  of_bytes <$> splitN_bytes n sep [] (to_bytes s).

(** [strconv.ParseUint(s, 10, 32)]. *)
Definition ParseUint32 (s : string) : option Z :=
  if decide (to_bytes s = []) then None else
  v ← digitsVal (to_bytes s) 0;
  if v <? 2 ^ 32 then Some v else None.

Definition clean (s : string) : string :=
  let b := ToValidUTF8 (to_bytes (TrimSpace s)) in
  of_bytes (if 96 <? len b then ToValidUTF8 (take 96 b) else b).

(** [addASN]: the database, and (kept, valid). *)
Definition addASN (d : DB) (line : string) : DB * (bool * bool) :=
  match SplitN line tab 5 with
  | [f0; f1; f2; f3; f4] =>
      match ParseAddr f0, ParseAddr f1, ParseUint32 f2 with
      | Some start, Some end_, Some n =>
          if n =? 0 then (d, (false, true)) else
          let '(t, ok) := table_add (asn d) start end_ n in
          if negb ok then (d, (false, false)) else
          let d := d <| asn := t |> in
          match asNames d !! n with
          | Some _ => (d, (true, true))
          | None =>
              let d := d <| asNames := <[n := clean f4]> (asNames d) |> in
              let '(cc, ok) := packCC f3 in
              ((if ok : bool then d <| asCountry := <[n := cc]> (asCountry d) |> else d), (true, true))
          end
      | _, _, _ => (d, (false, false))
      end
  | _ => (d, (false, false))
  end.

Definition addCountry (d : DB) (line : string) : DB * (bool * bool) :=
  match Split line comma with
  | [f0; f1; f2] =>
      match ParseAddr f0, ParseAddr f1 with
      | Some start, Some end_ =>
          let '(cc, ok) := packCC f2 in
          if negb ok then (d, (false, slen f2 =? 2)) else
          let '(t, ok) := table_add (country d) start end_ cc in
          if negb ok then (d, (false, false)) else (d <| country := t |>, (true, true))
      | _, _ => (d, (false, false))
      end
  | _ => (d, (false, false))
  end.

(** Trailing carriage returns are dropped; blank and comment lines skipped. *)
Definition trimCR (s : string) : string :=
  of_bytes (reverse (drop_while (fun c => bz c =? 13) (reverse (to_bytes s)))).
Definition skipLine (s : string) : bool :=
  match to_bytes s with [] => true | c :: _ => bz c =? 35 end.

Inductive fileResult : Type :=
  | Lines (lines : list string)
  | OpenError
  | LineTooLong
  | ScanError.

Inductive geoError : Type :=
  | ErrOpen | ErrTooLong | ErrScan
  | ErrNoASN (skipped : Z) | ErrNoCountry (skipped : Z).

Definition readLine (add : DB -> string -> DB * (bool * bool)) (st : DB * (Z * Z)) (line : string)
    : DB * (Z * Z) :=
  let '(d, (kept, skipped)) := st in
  let line := trimCR line in
  if skipLine line then st else
  let '(d, (k, valid)) := add d line in
  if k : bool then (d, (kept + 1, skipped))
  else if negb valid then (d, (kept, skipped + 1)) else (d, (kept, skipped)).

Definition readFile (d : DB) (f : fileResult) (add : DB -> string -> DB * (bool * bool))
    : DB * (Z * Z) + geoError :=
  match f with
  | OpenError => inr ErrOpen
  | LineTooLong => inr ErrTooLong
  | ScanError => inr ErrScan
  | Lines ls => inl (foldl (readLine add) (d, (0, 0)) ls)
  end.

(** [Load], given the two files where they are present. *)
Definition loadASN (d : DB) (f : option fileResult) : DB + geoError :=
  match f with
  | None => inl d
  | Some f =>
      match readFile d f addASN with
      | inr e => inr e
      | inl (d, (n, skipped)) =>
          if n =? 0 then inr (ErrNoASN skipped) else inl (d <| SkippedASN := skipped |>)
      end
  end.
Definition loadCountry (d : DB) (f : option fileResult) : DB + geoError :=
  match f with
  | None => inl d
  | Some f =>
      match readFile d f addCountry with
      | inr e => inr e
      | inl (d, (n, skipped)) =>
          if n =? 0 then inr (ErrNoCountry skipped) else inl (d <| SkippedCountry := skipped |>)
      end
  end.
Definition Load (asnFile countryFile : option fileResult) : DB + geoError :=
  match loadASN emptyDB asnFile with
  | inr e => inr e
  | inl d =>
      match loadCountry d countryFile with
      | inr e => inr e
      | inl d => inl (d <| asn := table_sort (asn d) |> <| country := table_sort (country d) |>)
      end
  end.

(** [Watch], one pass: the signature of the files, and what loading them
    would give; the state is the last signature loaded and what [set] was last
    called with. *)
Definition watchStep (st : option string * option DB) (pass : string * (DB + geoError))
    : option string * option DB :=
  let '(last, db) := st in
  let '(sig, result) := pass in
  if bool_decide (last = Some sig) then st
  else match result with
  | inr _ => st
  | inl d => (Some sig, Some d)
  end.

(** * Bisection *)

Lemma searchLoop_ok n f (p : Z -> bool) fuel i j :
  (forall k, 0 <= k < n -> f k = Ret (p k)) ->
  (forall k l, 0 <= k <= l -> l < n -> p k = true -> p l = true) ->
  0 <= i <= j -> j <= n -> j - i < Z.of_nat fuel ->
  (forall k, 0 <= k < i -> p k = false) -> (forall k, j <= k < n -> p k = true) ->
  exists r, searchLoop fuel f i j = Ret r /\ 0 <= r <= n /\
    (forall k, 0 <= k < r -> p k = false) /\ (forall k, r <= k < n -> p k = true).
Proof.
  intros Hf Hmono. revert i j. induction fuel as [|fuel IH]; intros i j Hij Hj Hfuel Hlo Hhi; [lia|].
  cbn [searchLoop]. destruct (Z.ltb_spec i j) as [Hlt|Hge].
  - cbv zeta. assert (i <= (i + j) / 2 < j) as Hh
      by (split; [apply Z.div_le_lower_bound | apply Z.div_lt_upper_bound]; lia).
    rewrite (Hf ((i + j) / 2)), bind_ret by lia. destruct (p ((i + j) / 2)) eqn:Ep; cbn [negb].
    + apply IH; try lia; [done|]. intros k Hk. apply (Hmono ((i + j) / 2)); [lia | lia | done].
    + apply IH; try lia; [|done]. intros k Hk. destruct (p k) eqn:Ek; [|done].
      rewrite (Hmono k ((i + j) / 2)) in Ep; [done | lia | lia | done].
  - exists i. split; [done|]. split; [lia|]. split; [done|]. intros k Hk. apply Hhi. lia.
Qed.

Lemma searchLoop_ext n f g fuel i j :
  (forall k, 0 <= k < n -> f k = g k) -> 0 <= i -> j <= n -> searchLoop fuel f i j = searchLoop fuel g i j.
Proof.
  intros Hfg. revert i j. induction fuel as [|fuel IH]; intros i j Hi Hj; [done|].
  cbn [searchLoop]. destruct (Z.ltb_spec i j); [|done]. cbv zeta.
  assert (i <= (i + j) / 2 < j) as Hh
    by (split; [apply Z.div_le_lower_bound | apply Z.div_lt_upper_bound]; lia).
  rewrite Hfg by lia. destruct (g ((i + j) / 2)) as [[]| |]; [|..|done|done]; simpl; apply IH; lia.
Qed.

Lemma Search_ext n f g : (forall k, 0 <= k < n -> f k = g k) -> Search n f = Search n g.
Proof. intros. unfold Search. apply (searchLoop_ext n); [done | lia | lia]. Qed.

(** What [sort.Search] promises for a predicate that flips once. *)
Lemma Search_ok n f (p : Z -> bool) :
  0 <= n -> (forall k, 0 <= k < n -> f k = Ret (p k)) ->
  (forall k l, 0 <= k <= l -> l < n -> p k = true -> p l = true) ->
  exists r, Search n f = Ret r /\ 0 <= r <= n /\
    (forall k, 0 <= k < r -> p k = false) /\ (forall k, r <= k < n -> p k = true).
Proof. intros. unfold Search. eapply searchLoop_ok; eauto; lia. Qed.

(** ** Ranges, of either family *)

Section ranges.
Context {R : Type} (lo hi : R -> Z).

Definition inRange (r : R) (x : Z) : Prop := lo r <= x <= hi r.
Definition apart (r r' : R) : Prop := hi r < lo r' \/ hi r' < lo r.

(** No two ranges of the list meet, and none is backwards. *)
Definition disjoint (rs : list R) : Prop :=
  Forall (fun r => lo r <= hi r) rs /\
  forall i j r r', rs !! i = Some r -> rs !! j = Some r' -> i <> j -> apart r r'.

Lemma disjoint_perm rs rs' : rs ≡ₚ rs' -> disjoint rs -> disjoint rs'.
Proof.
  intros E [Hle Hd]. split; [by rewrite <- E|]. symmetry in E.
  apply Permutation_inj in E as (Hl & f & Hf & Hlk).
  intros i j r r' Hi Hj Hij. rewrite Hlk in Hi, Hj. eapply Hd; [exact Hi | exact Hj |].
  intros E. by apply Hij, (inj f).
Qed.

Lemma StronglySorted_lookup (Q : relation R) rs i j r r' :
  StronglySorted Q rs -> rs !! i = Some r -> rs !! j = Some r' -> (i < j)%nat -> Q r r'.
Proof.
  intros Hs. revert i j. induction Hs as [|x rs Hs IH Hx]; intros i j Hi Hj Hij; [done|].
  destruct j as [|j]; [lia|]. simpl in Hj. destruct i as [|i]; simpl in Hi.
  - injection Hi as <-. rewrite List.Forall_forall in Hx. apply Hx, list_elem_of_In. by eapply list_elem_of_lookup_2.
  - eapply IH; [exact Hi | exact Hj | lia].
Qed.

(** Bisecting sorted disjoint ranges finds the one that holds [x], or tells
    that none does. *)
Lemma bisect rs x :
  StronglySorted (fun a b => lo a <= lo b) rs -> disjoint rs ->
  exists k, Search (len rs) (fun i => r ← index rs i; Ret (x <? lo r)) = Ret k /\
    (k = 0 /\ (forall r, r ∈ rs -> ~ inRange r x) \/
     1 <= k /\ exists r, index rs (k - 1) = Ret r /\ r ∈ rs /\
       (x <= hi r -> inRange r x) /\ (hi r < x -> forall r', r' ∈ rs -> ~ inRange r' x)).
Proof.
  intros Hs [Hle Hd].
  set (p := fun i => match rs !! Z.to_nat i with Some r => x <? lo r | None => true end).
  assert (forall k, 0 <= k < len rs -> (r ← index rs k; Ret (x <? lo r)) = Ret (p k)) as Hf.
  { intros k Hk. destruct (index_ret rs k Hk) as (r & Er & El). rewrite Er. unfold p. by rewrite El. }
  destruct (Search_ok (len rs) _ p (len_nonneg rs) Hf) as (k & Ek & Hk & Hbelow & Habove).
  { intros a b Hab Hb Ha. unfold p in *.
    destruct (index_ret rs a) as (ra & _ & Ea); [lia|]. destruct (index_ret rs b) as (rb & _ & Eb); [lia|].
    rewrite Ea in Ha. rewrite Eb. rewrite Z.ltb_lt in *. destruct (decide (a = b)) as [->|Hne]; [congruence|].
    enough (lo ra <= lo rb) by lia.
    eapply (StronglySorted_lookup _ _ _ _ _ _ Hs Ea Eb). lia. }
  exists k. split; [exact Ek|].
  assert (forall i r, rs !! i = Some r -> k <= Z.of_nat i -> x < lo r) as Hhigh.
  { intros i r Ei Hi. assert (p (Z.of_nat i) = true) as Hp.
    { apply Habove. apply lookup_lt_Some in Ei. unfold len. lia. }
    unfold p in Hp. rewrite Nat2Z.id, Ei in Hp. by apply Z.ltb_lt. }
  destruct (decide (k = 0)) as [->|Hk0].
  - left. split; [done|]. intros r (i & Ei)%list_elem_of_lookup Hin.
    specialize (Hhigh i r Ei ltac:(lia)). unfold inRange in Hin. lia.
  - right. split; [lia|]. destruct (index_ret rs (k - 1)) as (r & Er & El); [lia|].
    exists r. split; [exact Er|]. split; [by eapply list_elem_of_lookup_2|].
    assert (lo r <= x) as Hlo.
    { assert (p (k - 1) = false) as Hp by (apply Hbelow; lia). unfold p in Hp. rewrite El in Hp.
      by apply Z.ltb_ge. }
    split; [by split|]. intros Hhi r' (i & Ei)%list_elem_of_lookup [H1 H2].
    destruct (decide (k <= Z.of_nat i)); [specialize (Hhigh i r' Ei ltac:(lia)); lia|].
    destruct (decide (Z.of_nat i = k - 1)) as [E|Hne].
    { replace (Z.to_nat (k - 1)) with i in El by lia. rewrite Ei in El. injection El as ->. lia. }
    destruct (Hd _ _ _ _ Ei El) as [?|?]; [lia|lia|].
    pose proof (StronglySorted_lookup _ _ _ _ _ _ Hs Ei El ltac:(lia)) as Hord. simpl in Hord.
    rewrite List.Forall_forall in Hle. specialize (Hle r (proj1 (list_elem_of_In _ _) (list_elem_of_lookup_2 _ _ _ El))).
    lia.
Qed.
End ranges.

(** ** [find] *)

Definition lo6 (r : v6Range) : Z := startHi r * 2 ^ 64 + startLo r.
Definition hi6 (r : v6Range) : Z := endHi r * 2 ^ 64 + endLo r.
Definition v6Range_wf (r : v6Range) : Prop :=
  is_u64 (startHi r) /\ is_u64 (startLo r) /\ is_u64 (endHi r) /\ is_u64 (endLo r).

(** A table whose ranges do not meet. *)
Definition table_ok (t : table) : Prop :=
  disjoint start end_ (v4 t) /\ disjoint lo6 hi6 (v6 t) /\ Forall v6Range_wf (v6 t).

(** A range of the table holds the address, with this value. *)
Definition holds (t : table) (a : Addr) (v : Z) : Prop :=
  match Unmap a with
  | V4 x => exists r, r ∈ v4 t /\ inRange start end_ r x /\ val r = v
  | V6 x _ => exists r, r ∈ v6 t /\ inRange lo6 hi6 r x /\ val6 r = v
  | AddrZero => False
  end.

#[export] Instance v4Le_trans : Transitive v4Le.
Proof. intros a b c. unfold v4Le. lia. Qed.
#[export] Instance v4Le_total : Total v4Le.
Proof. intros a b. unfold v4Le. lia. Qed.

Lemma v6Before_spec a b : v6Before a b = true <->
  startHi a < startHi b \/ (startHi a = startHi b /\ startLo a < startLo b).
Proof. unfold v6Before. rewrite orb_true_iff, andb_true_iff, !Z.ltb_lt, Z.eqb_eq. done. Qed.

Lemma v6Le_spec a b : v6Le a b <->
  startHi a < startHi b \/ (startHi a = startHi b /\ startLo a <= startLo b).
Proof. unfold v6Le. rewrite <- not_true_iff_false, v6Before_spec. lia. Qed.

#[export] Instance v6Le_trans : Transitive v6Le.
Proof. intros a b c. rewrite !v6Le_spec. lia. Qed.
#[export] Instance v6Le_total : Total v6Le.
Proof. intros a b. rewrite !v6Le_spec. lia. Qed.

Lemma StronglySorted_weaken {A} (P Q : relation A) l :
  (forall x y, x ∈ l -> y ∈ l -> P x y -> Q x y) -> StronglySorted P l -> StronglySorted Q l.
Proof.
  intros HPQ Hs. induction Hs as [|x l Hs IH Hx]; [constructor|]. constructor.
  - apply IH. intros y z Hy Hz. apply HPQ; by right.
  - rewrite List.Forall_forall in *. intros y Hy. apply HPQ; [by left | right; by apply list_elem_of_In | by apply Hx].
Qed.

Lemma v6Le_lo6 a b : v6Range_wf a -> v6Range_wf b -> v6Le a b -> lo6 a <= lo6 b.
Proof. unfold v6Range_wf, lo6, is_u64. rewrite v6Le_spec. nia. Qed.

Lemma table_sort_perm t : v4 (table_sort t) ≡ₚ v4 t /\ v6 (table_sort t) ≡ₚ v6 t.
Proof. split; apply merge_sort_Permutation. Qed.

Lemma table_sort_ok t : table_ok t -> table_ok (table_sort t).
Proof.
  intros (H4 & H6 & Hwf). destruct (table_sort_perm t) as [P4 P6].
  split; [by apply (disjoint_perm start end_ (v4 t))|]. split; [by apply (disjoint_perm lo6 hi6 (v6 t))|].
  by rewrite P6.
Qed.

Lemma holds_sort t a v : holds (table_sort t) a v <-> holds t a v.
Proof.
  destruct (table_sort_perm t) as [P4 P6]. unfold holds.
  destruct (Unmap a); [done| by setoid_rewrite P4 | by setoid_rewrite P6].
Qed.

(** 128-bit comparisons, half by half. *)
Lemma halves_lt h l h' l' : is_u64 l -> is_u64 l' ->
  (h < h' \/ (h = h' /\ l < l')) <-> h * 2 ^ 64 + l < h' * 2 ^ 64 + l'.
Proof. unfold is_u64. nia. Qed.

Lemma split_val a x zone : a = V6 x zone -> 0 <= x < 2 ^ 128 ->
  let '(hi, lo) := split a in x = hi * 2 ^ 64 + lo /\ is_u64 lo.
Proof.
  intros -> Hx. simpl. pose proof (Z.div_mod x (2 ^ 64) ltac:(lia)).
  split; [lia|]. by apply Z.mod_pos_bound.
Qed.

Lemma find_wp t a :
  table_ok t -> Addr_wf a ->
  wp (find (table_sort t) a) (fun '(v, ok) =>
    if ok : bool then holds t a v else v = 0 /\ forall v', ~ holds t a v').
Proof.
  intros Hok Hwf%Unmap_wf. destruct (table_sort_ok t Hok) as (H4 & H6 & Hw6).
  cut (wp (find (table_sort t) a) (fun '(v, ok) =>
    if ok : bool then holds (table_sort t) a v else v = 0 /\ forall v', ~ holds (table_sort t) a v')).
  { intros H. eapply wp_mono; [exact H|]. intros [v []]; [by rewrite holds_sort|].
    intros [-> Hn]. split; [done|]. intros v'. rewrite <- holds_sort. apply Hn. }
  unfold find, holds. destruct (Unmap a) as [|x|x zone] eqn:Ea; cbn [Is4 Is6 negb addr_val].
  - split; [done|]. intros v' [].
  - destruct (bisect start end_ (v4 (table_sort t)) x) as (k & -> & Hk);
      [apply StronglySorted_merge_sort; apply _ | done |].
    rewrite bind_ret. destruct Hk as [[-> Hnone]|(Hk & r & Er & Hin & Hyes & Hno)].
    + simpl. split; [done|]. intros v' (r & Hr & Hx & _). by apply (Hnone r).
    + rewrite (proj2 (Z.leb_le _ _)) by lia. rewrite Er, bind_ret.
      destruct (Z.leb_spec x (end_ r)); simpl; [by exists r; auto|].
      split; [done|]. intros v' (r' & Hr' & Hx & _). by apply (Hno ltac:(lia) r').
  - pose proof (split_val (V6 x zone) x zone eq_refl Hwf) as Hs.
    destruct (split (V6 x zone)) as [hi lo]. destruct Hs as [Hx Hlo].
    set (rs := v6 (table_sort t)) in *.
    assert (forall r, r ∈ rs -> v6Range_wf r) as Hrs.
    { intros r Hr. rewrite List.Forall_forall in Hw6. by apply Hw6, list_elem_of_In. }
    assert (Search (len rs) (fun i => r ← index rs i;
        Ret ((hi <? startHi r) || ((startHi r =? hi) && (lo <? startLo r))))
      = Search (len rs) (fun i => r ← index rs i; Ret (x <? lo6 r))) as ->.
    { apply Search_ext. intros k Hk. destruct (index_ret rs k Hk) as (r & -> & El). rewrite !bind_ret.
      destruct (Hrs r (list_elem_of_lookup_2 _ _ _ El)) as (_ & Hsl & _). f_equal.
      apply eq_true_iff_eq. rewrite orb_true_iff, andb_true_iff, !Z.ltb_lt, Z.eqb_eq.
      subst x. unfold lo6, is_u64 in *. nia. }
    destruct (bisect lo6 hi6 rs x) as (k & -> & Hk); [|done|].
    { eapply StronglySorted_weaken; [|apply StronglySorted_merge_sort; apply _].
      intros r r' Hr Hr'. apply v6Le_lo6; by apply Hrs. }
    rewrite bind_ret. destruct Hk as [[-> Hnone]|(Hk & r & Er & Hin & Hyes & Hno)].
    + simpl. split; [done|]. intros v' (r & Hr & Hxr & _). by apply (Hnone r).
    + rewrite (proj2 (Z.ltb_ge _ _)) by lia. rewrite Er, bind_ret.
      destruct (Hrs r Hin) as (_ & _ & _ & Hel).
      assert (((hi <? endHi r) || ((hi =? endHi r) && (lo <=? endLo r))) = (x <=? hi6 r)) as ->.
      { apply eq_true_iff_eq. rewrite orb_true_iff, andb_true_iff, Z.ltb_lt, Z.eqb_eq, !Z.leb_le.
        subst x. unfold hi6, is_u64 in *. nia. }
      destruct (Z.leb_spec x (hi6 r)); simpl; [by exists r; auto|].
      split; [done|]. intros v' (r' & Hr' & Hxr & _). by apply (Hno ltac:(lia) r').
Qed.

(** The lookup is right: on a table whose ranges do not overlap, however
    its lines were ordered, [find] after [sort] always returns, and returns
    the value of the one range holding the address, of either family and also
    for an IPv4 address mapped into IPv6, or "none" exactly when there is no
    such range. *)
Theorem find_correct t a :
  table_ok t -> Addr_wf a ->
  wp (find (table_sort t) a) (fun '(v, ok) =>
    if ok : bool then holds t a v else v = 0 /\ forall v', ~ holds t a v').
Proof. apply find_wp. Qed.

(** * Loading *)

(** One line of each file, for IPv4 ranges. *)
Record asnEntry : Type := mkAsnEntry {
  ae_lo : Z; ae_hi : Z; ae_asn : Z; ae_c1 : byte; ae_c2 : byte; ae_name : string
}.
Record ccEntry : Type := mkCcEntry { ce_lo : Z; ce_hi : Z; ce_c1 : byte; ce_c2 : byte }.

Definition tabText : string := of_bytes [tab].
Definition asn_line (e : asnEntry) : string :=
  string4 (ae_lo e) +:+ tabText +:+ string4 (ae_hi e) +:+ tabText +:+ Itoa (ae_asn e) +:+
  tabText +:+ of_bytes [ae_c1 e; ae_c2 e] +:+ tabText +:+ ae_name e.
Definition cc_line (e : ccEntry) : string :=
  string4 (ce_lo e) +:+ "," +:+ string4 (ce_hi e) +:+ "," +:+ of_bytes [ce_c1 e; ce_c2 e].

Definition isUpper (c : byte) : Prop := 65 <= bz c <= 90.
Definition country_wf (a b : byte) : Prop := isUpper a /\ isUpper b /\ (bz a <> 90 \/ bz b <> 90).
Definition asnEntry_wf (e : asnEntry) : Prop :=
  0 <= ae_lo e /\ ae_lo e <= ae_hi e /\ ae_hi e < 2 ^ 32 /\ 0 < ae_asn e < 2 ^ 32 /\
  country_wf (ae_c1 e) (ae_c2 e) /\ Forall (fun c => bz c <> 13) (to_bytes (ae_name e)).
Definition ccEntry_wf (e : ccEntry) : Prop :=
  0 <= ce_lo e /\ ce_lo e <= ce_hi e /\ ce_hi e < 2 ^ 32 /\ country_wf (ce_c1 e) (ce_c2 e).

(** What the two files say about an address. *)
Definition asnOf (es : list asnEntry) (z : Z) : option asnEntry :=
  List.find (fun e => (ae_lo e <=? z) && (z <=? ae_hi e)) es.
Definition ccOf (cs : list ccEntry) (z : Z) : option ccEntry :=
  List.find (fun e => (ce_lo e <=? z) && (z <=? ce_hi e)) cs.
(** The entry that first mentions an AS names it. *)
Definition firstOf (es : list asnEntry) (n : Z) : option asnEntry :=
  List.find (fun e => ae_asn e =? n) es.

Definition expectedInfo (es : list asnEntry) (cs : list ccEntry) (z : Z) : Info :=
  let info :=
    match asnOf es z with
    | None => mkInfo 0 "" ""
    | Some e =>
        let e0 := default e (firstOf es (ae_asn e)) in
        mkInfo (ae_asn e) (clean (ae_name e0)) (of_bytes [ae_c1 e0; ae_c2 e0])
    end in
  match ccOf cs z with
  | None => info
  | Some c => info <| i_Country := of_bytes [ce_c1 c; ce_c2 c] |>
  end.

(** ** Country codes *)

Lemma packCC_ok a b :
  country_wf a b -> packCC (of_bytes [a; b]) = (Z.lor (Z.shiftl (bz a) 8) (bz b), true).
Proof.
  intros (Ha & Hb & Hab). unfold packCC. rewrite to_of_bytes. unfold isUpper in *.
  assert (isAlpha a = true /\ isAlpha b = true) as [-> ->].
  { unfold isAlpha, within. split; apply orb_true_iff; left; apply andb_true_iff; rewrite !Z.leb_le; lia. }
  assert (upper a = bz a /\ upper b = bz b) as [-> ->].
  { unfold upper, within. split; rewrite (proj2 (Z.leb_gt 97 _)) by lia; done. }
  cbn [negb orb]. assert ((bz a =? 90) && (bz b =? 90) = false) as ->; [|done].
  apply andb_false_iff. rewrite !Z.eqb_neq. done.
Qed.

Lemma unpackCC_packed a b :
  country_wf a b -> unpackCC (Z.lor (Z.shiftl (bz a) 8) (bz b)) = of_bytes [a; b].
Proof.
  intros (Ha & Hb & _). unfold isUpper in *. unfold unpackCC.
  rewrite Z.shiftl_mul_pow2 by lia. rewrite lor_low by (pose proof (bz_bounds b); lia).
  rewrite (proj2 (Z.eqb_neq _ _)) by lia. rewrite Z.shiftr_div_pow2 by lia.
  rewrite Z.div_add_l by lia. rewrite (Z.div_small (bz b)) by lia. rewrite Z.add_0_r.
  do 2 f_equal; [|f_equal].
  - rewrite <- (zb_bz a) at 2. f_equal. apply Z.mod_small. lia.
  - rewrite <- (zb_bz b) at 2. f_equal. unfold uint8. change (2 ^ 8) with 256.
    rewrite Z.add_comm, Z.mod_add by lia. apply Z.mod_small. lia.
Qed.

(** ** Lines *)

Lemma splitN_first n sep acc a b :
  (2 <= n)%nat -> sep ∉ a ->
  splitN_bytes n sep acc (a ++ sep :: b) = (reverse acc ++ a) :: splitN_bytes (pred n) sep [] b.
Proof.
  intros Hn. revert acc. induction a as [|c a IH]; intros acc Ha; simpl.
  - rewrite decide_True by done. rewrite app_nil_r. destruct n as [|[|n]]; [lia|lia|done].
  - apply not_elem_of_cons in Ha as [Hc Ha]. rewrite decide_False by congruence.
    rewrite IH by done. by rewrite reverse_cons, <- app_assoc.
Qed.

Lemma splitN_last n sep b acc : (n <= 1)%nat -> splitN_bytes n sep acc b = [reverse acc ++ b].
Proof.
  intros Hn. revert acc. induction b as [|c b IH]; intros acc; simpl; [by rewrite app_nil_r|].
  case_decide; [destruct n as [|[|n]]; done || lia|].
  rewrite IH. by rewrite reverse_cons, <- app_assoc.
Qed.

Lemma string4_no c z : v4char c = false -> c ∉ to_bytes (string4 z).
Proof. intros Hc. apply (not_v4char c); [done | apply string4_chars]. Qed.

Lemma digits_no c s : isDigit c = false -> Forall (fun c => isDigit c = true) s -> c ∉ s.
Proof.
  intros Hc Hs Hin%list_elem_of_In. rewrite List.Forall_forall in Hs. specialize (Hs c Hin). congruence.
Qed.

Lemma upper_no c a b : isUpper a -> isUpper b -> ~ isUpper c -> c ∉ [a; b].
Proof. intros ?? Hc. rewrite !not_elem_of_cons. split_and!; [congruence.. | by apply not_elem_of_nil]. Qed.

Lemma SplitN_asn_line e :
  asnEntry_wf e ->
  SplitN (asn_line e) tab 5 = [string4 (ae_lo e); string4 (ae_hi e); Itoa (ae_asn e);
                               of_bytes [ae_c1 e; ae_c2 e]; ae_name e].
Proof.
  intros (_ & _ & _ & Hn & (H1 & H2 & _) & _). unfold SplitN, asn_line, tabText.
  rewrite !to_bytes_app, !to_of_bytes. cbn [app].
  assert (~ isUpper tab) as Ht by (unfold isUpper; change (bz tab) with 9; lia).
  rewrite !splitN_first by first
    [ simpl; lia | by apply upper_no | by apply string4_no | apply digits_no; [done|]; apply Itoa_digits; lia].
  cbn [pred]. pose proof (splitN_first 2 tab [] [ae_c1 e; ae_c2 e] (to_bytes (ae_name e))) as Ecc.
  cbn [app pred] in Ecc. rewrite Ecc by (lia || by apply upper_no).
  rewrite splitN_last by (simpl; lia). rewrite !fmap_cons, reverse_nil. cbn [app fmap list_fmap].
  by rewrite !of_to_bytes.
Qed.

Lemma Split_cc_line e :
  ccEntry_wf e ->
  Split (cc_line e) comma = [string4 (ce_lo e); string4 (ce_hi e); of_bytes [ce_c1 e; ce_c2 e]].
Proof.
  intros (_ & _ & _ & H1 & H2 & _). unfold Split, cc_line. change "," with (of_bytes [comma]).
  rewrite !to_bytes_app, !to_of_bytes. cbn [app].
  assert (~ isUpper comma) as Ht by (unfold isUpper; change (bz comma) with 44; lia).
  rewrite !Split_first by by apply string4_no. rewrite Split_last by by apply upper_no.
  rewrite !fmap_cons, reverse_nil. cbn [app fmap list_fmap]. by rewrite !of_to_bytes.
Qed.

Lemma trimCR_id s : Forall (fun c => bz c <> 13) (to_bytes s) -> trimCR s = s.
Proof.
  intros Hs. unfold trimCR. assert (forall l, Forall (fun c => bz c <> 13) l ->
    drop_while (fun c => bz c =? 13) l = l) as Hd.
  { intros l Hl. destruct Hl as [|c l Hc Hl]; [done|]. simpl. by rewrite (proj2 (Z.eqb_neq _ _)). }
  rewrite Hd; [by rewrite reverse_involutive, of_to_bytes|].
  rewrite List.Forall_forall in *. intros c Hc. apply Hs.
  apply list_elem_of_In, elem_of_reverse. by apply list_elem_of_In.
Qed.

Lemma not13_digits s : Forall (fun c => isDigit c = true) s -> Forall (fun c => bz c <> 13) s.
Proof.
  apply List.Forall_impl. intros c. unfold isDigit, within. rewrite andb_true_iff, !Z.leb_le. lia.
Qed.
Lemma not13_string4 z : Forall (fun c => bz c <> 13) (to_bytes (string4 z)).
Proof.
  eapply List.Forall_impl; [|apply string4_chars]. intros c. unfold v4char, isDigit, within.
  rewrite orb_true_iff, andb_true_iff, !Z.leb_le, bool_decide_eq_true. intros [?| ->]; [lia|done].
Qed.

(** A line that starts with an address is neither blank nor a comment. *)
Lemma skipLine_string4 z s : skipLine (string4 z +:+ s) = false.
Proof.
  unfold skipLine. rewrite to_bytes_app. pose proof (string4_chars z) as Hc.
  destruct (to_bytes (string4 z)) as [|c r] eqn:E.
  - exfalso. unfold string4 in E. rewrite !to_bytes_app in E. apply (f_equal length) in E.
    change (to_bytes ".") with [dot] in E. rewrite !length_app in E. simpl in E. lia.
  - apply List.Forall_cons_iff in Hc as [Hc _]. simpl. apply Z.eqb_neq. intros E13.
    unfold v4char, isDigit, within in Hc. rewrite orb_true_iff, andb_true_iff, !Z.leb_le, bool_decide_eq_true in Hc.
    destruct Hc as [?| ->]; [lia|done].
Qed.

Lemma ParseUint32_Itoa n : 0 <= n < 2 ^ 32 -> ParseUint32 (Itoa n) = Some n.
Proof.
  intros Hn. unfold ParseUint32. destruct (Itoa_digits n) as (E & _ & Hne); [lia|].
  rewrite decide_False by done. rewrite E. simpl. by rewrite (proj2 (Z.ltb_lt _ _)) by lia.
Qed.

Lemma table_add_v4 t lo hi v :
  lo <= hi -> table_add t (V4 lo) (V4 hi) v = (t <| v4 := v4 t ++ [mkV4 lo hi v] |>, true).
Proof.
  intros Hle. unfold table_add. change (Unmap (V4 lo)) with (V4 lo). change (Unmap (V4 hi)) with (V4 hi).
  cbn [Is4]. rewrite bool_decide_true by done. cbn [negb orb].
  unfold Addr_Less, Addr_Compare. cbn [BitLen addr_val]. rewrite Z.compare_refl.
  destruct (Z.compare_spec hi lo) as [->|?|?]; [|lia|]; reflexivity.
Qed.

Definition packed (a b : byte) : Z := Z.lor (Z.shiftl (bz a) 8) (bz b).

(** What one good line adds. *)
Definition withASN (d : DB) (e : asnEntry) : DB :=
  let d := d <| asn := (asn d) <| v4 := v4 (asn d) ++ [mkV4 (ae_lo e) (ae_hi e) (ae_asn e)] |> |> in
  match asNames d !! ae_asn e with
  | Some _ => d
  | None => d <| asNames := <[ae_asn e := clean (ae_name e)]> (asNames d) |>
              <| asCountry := <[ae_asn e := packed (ae_c1 e) (ae_c2 e)]> (asCountry d) |>
  end.
Definition withCC (d : DB) (e : ccEntry) : DB :=
  d <| country := (country d) <| v4 := v4 (country d) ++ [mkV4 (ce_lo e) (ce_hi e) (packed (ce_c1 e) (ce_c2 e))] |> |>.

Lemma addASN_line d e : asnEntry_wf e -> addASN d (asn_line e) = (withASN d e, (true, true)).
Proof.
  intros Hwf. unfold addASN. rewrite (SplitN_asn_line e Hwf).
  destruct Hwf as (Hlo & Hle & Hhi & Hn & Hcc & _).
  rewrite !ParseAddr_v4, ParseUint32_Itoa by lia. rewrite (proj2 (Z.eqb_neq _ _)) by lia.
  rewrite table_add_v4 by done. cbn [negb]. unfold withASN, packed. rewrite packCC_ok by done.
  simpl. by destruct (asNames d !! ae_asn e).
Qed.

Lemma addCountry_line d e : ccEntry_wf e -> addCountry d (cc_line e) = (withCC d e, (true, true)).
Proof.
  intros Hwf. unfold addCountry. rewrite (Split_cc_line e Hwf). destruct Hwf as (Hlo & Hle & Hhi & Hcc).
  rewrite !ParseAddr_v4 by lia. rewrite packCC_ok by done. cbn [negb].
  by rewrite table_add_v4.
Qed.

Lemma not13_upper a b : isUpper a -> isUpper b -> Forall (fun c => bz c <> 13) [a; b].
Proof. unfold isUpper. intros. repeat constructor; lia. Qed.

Lemma readLine_asn d kept skipped e :
  asnEntry_wf e ->
  readLine addASN (d, (kept, skipped)) (asn_line e) = (withASN d e, (kept + 1, skipped)).
Proof.
  intros Hwf. unfold readLine. assert (trimCR (asn_line e) = asn_line e) as ->.
  { apply trimCR_id. destruct Hwf as (_ & _ & _ & Hn & (H1 & H2 & _) & Hname).
    unfold asn_line, tabText. rewrite !to_bytes_app, !to_of_bytes.
    assert (Forall (fun c => bz c <> 13) [tab]) by (by repeat constructor).
    repeat apply Forall_app_2; try done; try apply not13_string4.
    - apply not13_digits, Itoa_digits. lia.
    - by apply not13_upper. }
  unfold asn_line at 1. rewrite skipLine_string4, addASN_line by done. done.
Qed.

Lemma readLine_cc d kept skipped e :
  ccEntry_wf e ->
  readLine addCountry (d, (kept, skipped)) (cc_line e) = (withCC d e, (kept + 1, skipped)).
Proof.
  intros Hwf. unfold readLine. assert (trimCR (cc_line e) = cc_line e) as ->.
  { apply trimCR_id. destruct Hwf as (_ & _ & _ & H1 & H2 & _).
    unfold cc_line. change "," with (of_bytes [comma]). rewrite !to_bytes_app, !to_of_bytes.
    assert (Forall (fun c => bz c <> 13) [comma]) by (by repeat constructor).
    repeat apply Forall_app_2; try done; try apply not13_string4. by apply not13_upper. }
  unfold cc_line at 1. rewrite skipLine_string4, addCountry_line by done. done.
Qed.

Lemma readFile_asn d es :
  Forall asnEntry_wf es ->
  readFile d (Lines (map asn_line es)) addASN = inl (foldl withASN d es, (len es, 0)).
Proof.
  intros Hes. unfold readFile. f_equal. change (len es) with (0 + len es). generalize 0 at 1 3 as k.
  revert d. induction Hes as [|e es He Hes IH]; intros d k; [by rewrite Z.add_0_r|].
  cbn [map foldl]. rewrite readLine_asn by done. rewrite IH, len_cons. do 2 f_equal. lia.
Qed.

Lemma readFile_cc d es :
  Forall ccEntry_wf es ->
  readFile d (Lines (map cc_line es)) addCountry = inl (foldl withCC d es, (len es, 0)).
Proof.
  intros Hes. unfold readFile. f_equal. change (len es) with (0 + len es). generalize 0 at 1 3 as k.
  revert d. induction Hes as [|e es He Hes IH]; intros d k; [by rewrite Z.add_0_r|].
  cbn [map foldl]. rewrite readLine_cc by done. rewrite IH, len_cons. do 2 f_equal. lia.
Qed.

(** ** What the loaded database holds *)

Definition asnRange (e : asnEntry) : v4Range := mkV4 (ae_lo e) (ae_hi e) (ae_asn e).
Definition ccRange (e : ccEntry) : v4Range := mkV4 (ce_lo e) (ce_hi e) (packed (ce_c1 e) (ce_c2 e)).

(** The names and countries recorded from the entries [es] seen so far. *)
Definition names_of (d : DB) (es : list asnEntry) : Prop :=
  forall n, asNames d !! n = (fun e => clean (ae_name e)) <$> firstOf es n /\
            asCountry d !! n = (fun e => packed (ae_c1 e) (ae_c2 e)) <$> firstOf es n.

Lemma firstOf_app es e n :
  firstOf (es ++ [e]) n = match firstOf es n with Some e0 => Some e0 | None => if ae_asn e =? n then Some e else None end.
Proof. induction es as [|e1 es IH]; simpl; [done|]. by destruct (ae_asn e1 =? n). Qed.

Lemma withASN_names d es e : names_of d es -> names_of (withASN d e) (es ++ [e]).
Proof.
  intros Hd n. rewrite firstOf_app. unfold withASN. simpl. destruct (Hd (ae_asn e)) as [E1 E2].
  destruct (Hd n) as [En1 En2]. rewrite E1.
  destruct (firstOf es (ae_asn e)) as [e0|] eqn:Ef; simpl.
  - rewrite En1, En2. destruct (firstOf es n) eqn:Efn; [done|].
    destruct (Z.eqb_spec (ae_asn e) n) as [<-|]; [congruence|done].
  - destruct (Z.eqb_spec (ae_asn e) n) as [<-|Hne].
    + rewrite Ef, !lookup_insert_eq. done.
    + rewrite !lookup_insert_ne by done. rewrite En1, En2. by destruct (firstOf es n).
Qed.

Lemma fold_withASN es : forall es0 d,
  names_of d es0 ->
  let d' := foldl withASN d es in
  v4 (asn d') = v4 (asn d) ++ map asnRange es /\ v6 (asn d') = v6 (asn d) /\
  country d' = country d /\ names_of d' (es0 ++ es).
Proof.
  induction es as [|e es IH]; intros es0 d Hd; simpl; [by rewrite !app_nil_r|].
  destruct (IH (es0 ++ [e]) (withASN d e)) as (H4 & H6 & Hc & Hn); [by apply withASN_names|].
  rewrite <- app_assoc in Hn. simpl in Hn.
  assert (v4 (asn (withASN d e)) = v4 (asn d) ++ [asnRange e] /\ v6 (asn (withASN d e)) = v6 (asn d) /\
    country (withASN d e) = country d) as (E4 & E6 & Ec).
  { unfold withASN. simpl. by destruct (asNames d !! ae_asn e). }
  rewrite H4, H6, Hc, E4, E6, Ec, <- app_assoc. done.
Qed.

Lemma fold_withCC cs : forall d,
  let d' := foldl withCC d cs in
  v4 (country d') = v4 (country d) ++ map ccRange cs /\ v6 (country d') = v6 (country d) /\
  asn d' = asn d /\ asNames d' = asNames d /\ asCountry d' = asCountry d.
Proof.
  induction cs as [|e cs IH]; intros d; simpl; [by rewrite app_nil_r|].
  destruct (IH (withCC d e)) as (H4 & H6 & Ha & Hn & Hc).
  rewrite H4, H6, Ha, Hn, Hc. simpl. by rewrite <- app_assoc.
Qed.

(** [find] on a sorted table of disjoint IPv4 ranges. *)
Lemma find_v4 t z :
  v6 t = [] -> disjoint start end_ (v4 t) -> is_u32 z ->
  find (table_sort t) (V4 z) =
  Ret (match List.find (fun r => (start r <=? z) && (z <=? end_ r)) (v4 t) with
       | Some r => (val r, true) | None => (0, false) end).
Proof.
  intros E6 Hd Hz.
  assert (table_ok t) as Hok.
  { split; [done|]. rewrite E6. split; [|done]. split; [done|]. by intros i j r r' Hi. }
  destruct (wp_inv _ _ (find_wp t (V4 z) Hok Hz)) as ([v ok] & E & Hv). rewrite E. f_equal.
  unfold holds in Hv. change (Unmap (V4 z)) with (V4 z) in Hv.
  destruct (List.find _ (v4 t)) as [r|] eqn:Ef.
  - apply find_some in Ef as [Hin Hr]. apply andb_true_iff in Hr as [H1%Z.leb_le H2%Z.leb_le].
    apply list_elem_of_In in Hin. destruct ok.
    + destruct Hv as (r' & Hr' & [H1' H2'] & <-). f_equal.
      apply list_elem_of_lookup in Hin as [i Hi], Hr' as [j Hj].
      destruct (decide (i = j)) as [->|Hij]; [congruence|].
      destruct (proj2 Hd _ _ _ _ Hi Hj Hij); lia.
    + exfalso. destruct Hv as [_ Hv]. apply (Hv (val r)). exists r. by split_and!.
  - destruct ok; [|by destruct Hv as [-> _]]. exfalso. destruct Hv as (r & Hr & [H1 H2] & _).
    apply list_elem_of_In in Hr. pose proof (find_none _ _ Ef r Hr) as H. simpl in H.
    rewrite andb_false_iff, !Z.leb_gt in H. lia.
Qed.

Lemma disjoint_map {A B} (f : A -> B) (lo hi : B -> Z) l :
  disjoint (fun x => lo (f x)) (fun x => hi (f x)) l -> disjoint lo hi (map f l).
Proof.
  intros [Hle Hd]. split; [by apply Forall_map|].
  intros i j r r' Hi Hj Hij. change (map f l) with (f <$> l) in *.
  rewrite list_lookup_fmap in Hi, Hj. apply fmap_Some in Hi as (x & Hi & ->), Hj as (y & Hj & ->).
  by apply (Hd i j).
Qed.

Lemma find_map {A B} (f : A -> B) (p : B -> bool) l :
  List.find p (map f l) = f <$> List.find (fun x => p (f x)) l.
Proof. induction l as [|x l IH]; simpl; [done|]. by destruct (p (f x)). Qed.

(** The databases mean what their files say: for files of IPv4 lines in
    the published formats, in any order, whose ranges do not overlap, loading
    succeeds with nothing skipped, and looking an address up gives exactly the
    AS number of the one line whose range holds it, the name and registration
    country of the line that first mentions that AS, and the country of the
    country file's line in preference to it; and nothing for an address no
    line holds. *)
Theorem load_lookup es cs :
  es <> [] -> cs <> [] -> Forall asnEntry_wf es -> Forall ccEntry_wf cs ->
  disjoint ae_lo ae_hi es -> disjoint ce_lo ce_hi cs ->
  exists d, Load (Some (Lines (map asn_line es))) (Some (Lines (map cc_line cs))) = inl d /\
    Loaded (Some d) = (len es, len cs) /\ SkippedASN d = 0 /\ SkippedCountry d = 0 /\
    forall z, is_u32 z -> Lookup (Some d) (V4 z) = Ret (expectedInfo es cs z).
Proof.
  intros Hes Hcs Hewf Hcwf Hde Hdc.
  unfold Load, loadASN. rewrite readFile_asn by done.
  destruct (Z.eqb_spec (len es) 0) as [E0|_]; [by destruct es|].
  unfold loadCountry. rewrite readFile_cc by done.
  destruct (Z.eqb_spec (len cs) 0) as [E0|_]; [by destruct cs|].
  set (d1 := (foldl withASN emptyDB es) <| SkippedASN := 0 |>).
  destruct (fold_withASN es [] emptyDB) as (H4 & H6 & Hc & Hn); [done|].
  destruct (fold_withCC cs d1) as (C4 & C6 & Ca & Cn & Cc).
  set (d2 := foldl withCC d1 cs) in *.
  assert (SkippedASN d2 = 0) as Hs.
  { subst d2. clear. assert (SkippedASN d1 = 0) as H by done. revert H. generalize d1.
    induction cs as [|c cs IH]; intros d H; [done|]. by apply IH. }
  eexists. split; [reflexivity|]. simpl in *.
  rewrite Hc in C4, C6. rewrite <- Ca in H4, H6. simpl in H4, H6, C4, C6.
  split; [|split; [done|]; split; [done|]].
  { unfold table_len. destruct (table_sort_perm (asn d2)) as [P4 P6].
    destruct (table_sort_perm (country d2)) as [Q4 Q6].
    unfold len. rewrite P4, P6, Q4, Q6, H4, H6, C4, C6. simpl. rewrite !length_map, !Z.add_0_r. done. }
  intros z Hz.
  assert (disjoint start end_ (v4 (asn d2))) as D4 by (rewrite H4; by apply (disjoint_map asnRange)).
  assert (disjoint start end_ (v4 (country d2))) as D4' by (rewrite C4; by apply (disjoint_map ccRange)).
  rewrite (find_v4 (asn d2) z), (find_v4 (country d2) z), !bind_ret by done.
  rewrite H4, C4, !find_map. unfold expectedInfo, asnOf, ccOf. simpl.
  assert (forall o : option ccEntry, (o = ccOf cs z) -> forall c, o = Some c -> unpackCC (packed (ce_c1 c) (ce_c2 c)) = of_bytes [ce_c1 c; ce_c2 c]) as Hcc.
  { intros o -> c (Hin & _)%find_some. rewrite List.Forall_forall in Hcwf. apply unpackCC_packed, Hcwf, Hin. }
  unfold ccOf in Hcc. specialize (Hcc _ eq_refl).
  destruct (List.find _ es) as [e|] eqn:Ee.
  - simpl. assert (exists e0, firstOf es (ae_asn e) = Some e0) as [e0 Ef].
    { destruct (firstOf es (ae_asn e)) eqn:Ef; [by eauto|]. exfalso. apply find_some in Ee as [Hin _].
      pose proof (find_none _ _ Ef e Hin) as Hx. simpl in Hx. by rewrite Z.eqb_refl in Hx. }
    rewrite Ef. unfold nameOf. rewrite Cn, Cc. destruct (Hn (ae_asn e)) as [N1 N2]. simpl in N1, N2.
    subst d1. simpl. rewrite N1, N2, Ef. simpl.
    pose proof (unpackCC_packed (ae_c1 e0) (ae_c2 e0)) as Ep. fold (packed (ae_c1 e0) (ae_c2 e0)) in Ep.
    rewrite Ep.
    + destruct (List.find _ cs) as [c|]; simpl; [by rewrite (Hcc c) | done].
    + apply find_some in Ef as [Hin _]. rewrite List.Forall_forall in Hewf. apply Hewf, Hin.
  - simpl. destruct (List.find _ cs) as [c|]; simpl; [by rewrite (Hcc c) | done].
Qed.

(** Reloading never empties the enrichment: a pass that fails, or that finds
    nothing changed, keeps the database in use, and a pass that succeeds
    installs the one it loaded. *)
Lemma watchStep_spec last db sig result :
  let st' := watchStep (last, db) (sig, result) in
  (db <> None -> snd st' <> None) /\
  (forall e, result = inr e -> st' = (last, db)) /\
  (forall d, result = inl d -> last <> Some sig -> st' = (Some sig, Some d)).
Proof.
  unfold watchStep. case_bool_decide as Hl; destruct result as [d|e]; simpl; split_and!; naive_solver.
Qed.

(** * Witnesses *)

Definition sampleASN : list asnEntry :=
  [mkAsnEntry 16777472 16777727 13335 (zb 85) (zb 83) "CLOUDFLARENET";
   mkAsnEntry 134744064 134744319 15169 (zb 85) (zb 83) "GOOGLE"].
Definition sampleCC : list ccEntry := [mkCcEntry 16777216 16777727 (zb 65) (zb 85)].

Lemma sample_disjoint :
  disjoint ae_lo ae_hi sampleASN /\ disjoint ce_lo ce_hi sampleCC.
Proof.
  split; (split; [repeat constructor; simpl; lia|]);
    intros i j r r' Hi Hj Hij.
  - destruct i as [|[|i]], j as [|[|j]]; simplify_eq/=; unfold apart; simpl; lia.
  - destruct i as [|i], j as [|j]; simplify_eq/=.
Qed.

Lemma find_correct_witness :
  let t := mkTable (map asnRange sampleASN) [] in
  table_ok t /\ Addr_wf (V6 (65535 * 2 ^ 32 + 16777500) "") /\
  wp (find (table_sort t) (V6 (65535 * 2 ^ 32 + 16777500) "")) (fun '(v, ok) =>
    if ok : bool then holds t (V6 (65535 * 2 ^ 32 + 16777500) "") v
    else v = 0 /\ forall v', ~ holds t (V6 (65535 * 2 ^ 32 + 16777500) "") v').
Proof.
  intros t. assert (table_ok t) as Ht.
  { split; [apply (disjoint_map asnRange), sample_disjoint|]. split; [|constructor].
    split; [constructor|]. intros i j r r' Hi. discriminate. }
  assert (Addr_wf (V6 (65535 * 2 ^ 32 + 16777500) "")) as Ha by (unfold Addr_wf; lia).
  split; [exact Ht|]. split; [exact Ha|]. apply (find_correct t _ Ht Ha).
Defined.

Lemma load_lookup_witness :
  exists d, Load (Some (Lines (map asn_line sampleASN))) (Some (Lines (map cc_line sampleCC))) = inl d /\
    Lookup (Some d) (V4 16777500) = Ret (mkInfo 13335 "CLOUDFLARENET" "AU").
Proof.
  destruct (load_lookup sampleASN sampleCC) as (d & E & _ & _ & _ & H).
  - discriminate.
  - discriminate.
  - repeat constructor; simpl; unfold isUpper; try (vm_compute; done); try lia;
      first [left; vm_compute; discriminate | vm_compute; discriminate].
  - repeat constructor; simpl; unfold isUpper; try (vm_compute; done); try lia;
      first [left; vm_compute; discriminate | vm_compute; discriminate].
  - apply sample_disjoint.
  - apply sample_disjoint.
  - exists d. split; [exact E|]. etransitivity; [apply H; unfold is_u32; lia|]. vm_compute. reflexivity.
Defined.
