(* ===== verification/Alerts.v ===== *)
(** Package alerting/domain (alert.go) and the repositories of
    alerting/adapters/postgres (store.go): rules, alert instances, their
    fingerprint, and the table the instances are kept in.

    The statements of store.go are modelled by what they do to the table
    [alerting.alert_instances], a list of rows; its unique index on the live
    rows of a rule and fingerprint is part of [Fire]. *)
From Stdlib Require Import ZArith Lia.
From stdpp Require Import base list gmap strings numbers sorting.
From S2P Require Import Prelude GoText.

Abbreviation labels := (gmap string string).

(** [m[k]] of a Go map of strings: "" when the key is missing. *)
Definition label (ls : labels) (k : string) : string := default "" (ls !! k).

Inductive AlertState : Type := StateFiring | StateAcked | StateResolved | StateFlapping.
#[export] Instance AlertState_eq_dec : EqDecision AlertState.
Proof. solve_decision. Defined.

Record Rule : Type := mkRule {
  r_ID : string; r_Name : string; r_Kind : string; r_Severity : string; r_Expr : string;
  r_Annotations : labels; r_Enabled : bool; r_Builtin : bool
}.

(** [Value] is the bit pattern of a float64: nothing is computed from it. *)
Record Instance_ : Type := mkInstance {
  ID : string; RuleID : string; RuleName : string; Fingerprint_ : string;
  State : AlertState; Severity : string; DeviceID : string; InterfaceID_ : string;
  Labels : labels; Value : Z; FiredAt : Time; AckedAt : option Time;
  AckedBy : string; AckComment : string; ResolvedAt : option Time; FlapCount : Z
}.
#[export] Instance Instance_eq_dec : EqDecision Instance_.
Proof. solve_decision. Defined.
#[export] Instance eta_Instance : Eta Instance_ := fun i =>
  mkInstance (ID i) (RuleID i) (RuleName i) (Fingerprint_ i) (State i) (Severity i) (DeviceID i)
    (InterfaceID_ i) (Labels i) (Value i) (FiredAt i) (AckedAt i) (AckedBy i) (AckComment i)
    (ResolvedAt i) (FlapCount i).

Definition FlapWindow : Duration := 15 * Minute.
Definition FlapThreshold : Z := 3.

(** ** Fingerprint *)

Definition keyLe (a b : string * string) : Prop := str_lt b.1 a.1 = false.
#[export] Instance keyLe_dec : RelDecision keyLe.
Proof. intros a b. unfold keyLe. apply _. Defined.

(** The labels but for the metric's name, sorted by key. *)
Definition sortedLabels (ls : labels) : list (string * string) :=
  merge_sort keyLe (map_to_list (delete "__name__" ls)).

(** What is hashed: the rule, then each key after a 0 byte and its value
    after a 1 byte. *)
Definition pairBytes (kv : string * string) : bytes :=
  zb 0 :: to_bytes kv.1 ++ zb 1 :: to_bytes kv.2.
Definition fingerprintInput (ruleID : string) (ls : labels) : bytes :=
  to_bytes ruleID ++ concat (map pairBytes (sortedLabels ls)).

(** [sha256] is a parameter: the claims hold for any hash. *)
Definition Fingerprint (sha256 : bytes -> bytes) (ruleID : string) (ls : labels) : string :=
  of_bytes (take 32 (to_bytes (hex_bytes (sha256 (fingerprintInput ruleID ls))))).

(** ** The table *)

Abbreviation Table := (list Instance_).

Definition isLive (i : Instance_) : Prop := State i <> StateResolved.
#[export] Instance isLive_dec i : Decision (isLive i).
Proof. unfold isLive. apply _. Defined.

Definition sameSeries (ruleID fp : string) (i : Instance_) : Prop := RuleID i = ruleID /\ Fingerprint_ i = fp.
#[export] Instance sameSeries_dec r fp i : Decision (sameSeries r fp i).
Proof. unfold sameSeries. apply _. Defined.

Definition pg_LiveByRule (t : Table) (ruleID : string) : list Instance_ :=
  filter (fun i => RuleID i = ruleID /\ isLive i) t.

(** Newest first; [LIMIT 1]. *)
Definition newer (a b : Instance_) : Prop := default zeroTime (ResolvedAt b) <= default zeroTime (ResolvedAt a).
#[export] Instance newer_dec : RelDecision newer.
Proof. intros a b. unfold newer. apply _. Defined.
Definition resolvedSince (since : Time) (i : Instance_) : bool :=
  match ResolvedAt i with Some at_ => since <=? at_ | None => false end.
Definition pg_RecentResolved (t : Table) (ruleID fp : string) (since : Time) : option Instance_ :=
  head (merge_sort newer (filter (fun i =>
    sameSeries ruleID fp i /\ State i = StateResolved /\ resolvedSince since i) t)).

(** The row [Fire] inserts: the columns it names, the others at their
    defaults. The insert is refused where a live row of the rule has the
    fingerprint, or the id is taken. The references to the device, the
    interface and the rule are not followed. *)
Definition firedRow (i : Instance_) : Instance_ :=
  i <| State := StateFiring |> <| AckedAt := None |> <| AckedBy := "" |> <| AckComment := "" |>
    <| ResolvedAt := None |>.
Definition pg_Fire (t : Table) (i : Instance_) : option Table :=
  if decide (Exists (fun j => sameSeries (RuleID i) (Fingerprint_ i) j /\ isLive j) t \/
             Exists (fun j => ID j = ID i) t)
  then None else Some (t ++ [firedRow i]).

Definition pg_update (t : Table) (where_ : Instance_ -> bool) (f : Instance_ -> Instance_) : Table :=
  map (fun i => if where_ i then f i else i) t.

Definition pg_Resolve (t : Table) (id : string) (at_ : Time) : Table :=
  pg_update t (fun i => bool_decide (ID i = id /\ isLive i))
    (fun i => i <| State := StateResolved |> <| ResolvedAt := Some at_ |>).

Definition pg_SetFlapping (t : Table) (id : string) : Table :=
  pg_update t (fun i => bool_decide (ID i = id)) (fun i => i <| State := StateFlapping |>).

(** [Ack] and [Unack]: [None] is the conflict error, for no row affected. *)
Definition ackable (id : string) (i : Instance_) : bool :=
  bool_decide (ID i = id) && bool_decide (State i = StateFiring \/ State i = StateFlapping).
Definition pg_Ack (t : Table) (id user comment : string) (now : Time) : option Table :=
  if existsb (ackable id) t then
    Some (pg_update t (ackable id)
      (fun i => i <| State := StateAcked |> <| AckedAt := Some now |> <| AckedBy := user |>
                  <| AckComment := comment |>))
  else None.

Definition acked (id : string) (i : Instance_) : bool :=
  bool_decide (ID i = id) && bool_decide (State i = StateAcked).
Definition pg_Unack (t : Table) (id : string) : option Table :=
  if existsb (acked id) t then
    Some (pg_update t (acked id)
      (fun i => i <| State := StateFiring |> <| AckedAt := None |> <| AckedBy := "" |>
                  <| AckComment := "" |>))
  else None.

(** [DeleteRule], its part on this table. *)
Definition pg_DeleteInstances (t : Table) (ruleID : string) : Table :=
  filter (fun i => RuleID i <> ruleID) t.

(** [Silenced]: the active silences are their scopes; one that could not be
    decoded is skipped ([None]). *)
Definition scopeMatches (ls : labels) (scope : labels) : bool :=
  negb (bool_decide (scope = ∅)) &&
  forallb (fun kv => bool_decide (label ls kv.1 = kv.2)) (map_to_list scope).
Definition pg_Silenced (silences : list (option labels)) (ls : labels) : bool :=
  existsb (fun o => match o with Some scope => scopeMatches ls scope | None => false end) silences.

(** * The table *)

(** A row of the rule is live under the fingerprint. *)
Definition liveFp (ruleID : string) (t : Table) (fp : string) : Prop :=
  exists i, i ∈ t /\ sameSeries ruleID fp i /\ isLive i.

(** The primary key and the unique index on live rows. *)
Definition table_ok (t : Table) : Prop :=
  NoDup (map ID t) /\
  forall i j, i ∈ t -> j ∈ t -> isLive i -> isLive j ->
    RuleID i = RuleID j -> Fingerprint_ i = Fingerprint_ j -> i = j.

Lemma ids_inj t i j : NoDup (map ID t) -> i ∈ t -> j ∈ t -> ID i = ID j -> i = j.
Proof.
  intros Hnd (m & Hm)%list_elem_of_lookup (n & Hn)%list_elem_of_lookup E.
  assert (m = n) as ->; [|congruence]. change (map ID t) with (ID <$> t) in Hnd.
  eapply NoDup_lookup; [exact Hnd | by rewrite list_lookup_fmap, Hm |].
  rewrite list_lookup_fmap, Hn. simpl. by rewrite E.
Qed.

(** [Fire] appends its row, where no live row has the series and the id is
    new. *)
Lemma pg_Fire_Some t i :
  ~ liveFp (RuleID i) t (Fingerprint_ i) -> (forall j, j ∈ t -> ID j <> ID i) ->
  pg_Fire t i = Some (t ++ [firedRow i]).
Proof.
  intros Hl Hid. unfold pg_Fire. rewrite decide_False; [done|].
  intros [(j & Hj & Hs & Hlj)%Exists_exists|(j & Hj & E)%Exists_exists].
  - apply Hl. by exists j.
  - by apply (Hid j).
Qed.

Lemma pg_Fire_inv t i t' : pg_Fire t i = Some t' -> t' = t ++ [firedRow i].
Proof. unfold pg_Fire. case_decide; [done|]. by intros [= <-]. Qed.

Lemma table_ok_snoc t i :
  table_ok t -> ~ liveFp (RuleID i) t (Fingerprint_ i) -> (forall j, j ∈ t -> ID j <> ID i) ->
  table_ok (t ++ [i]).
Proof.
  intros [Hnd Hu] Hl Hid. split.
  - rewrite map_app. apply NoDup_app. split; [done|]. split; [|apply NoDup_singleton].
    intros x (j & -> & Hj)%list_elem_of_fmap. cbn [map]. rewrite list_elem_of_singleton. by apply Hid.
  - intros a b Ha Hb La Lb. rewrite elem_of_app, list_elem_of_singleton in Ha. rewrite elem_of_app, list_elem_of_singleton in Hb.
    destruct Ha as [Ha| ->], Hb as [Hb| ->]; [by apply Hu | | |done].
    + intros E1 E2. exfalso. apply Hl. exists a. split; [done|]. by split.
    + intros E1 E2. exfalso. apply Hl. exists b. split; [done|]. split; [|done]. split; symmetry; done.
Qed.

(** An update of one row by its id. *)
Lemma pg_update_id t id f i :
  NoDup (map ID t) -> i ∈ t -> ID i = id ->
  forall g, (g i = true) -> (forall j, g j = true -> ID j = id) ->
  pg_update t g f = map (fun j => if decide (j = i) then f j else j) t.
Proof.
  intros Hnd Hi <- g Hg Hid. unfold pg_update. apply map_ext_in. intros j Hj%list_elem_of_In.
  destruct (decide (j = i)) as [->|Hne]; [by rewrite Hg|].
  destruct (g j) eqn:E; [|done]. exfalso. apply Hne. apply (ids_inj t); auto.
Qed.
