(* ===== verification/Alerting.v ===== *)
(** Package alerting/app, file evaluator.go: the rule evaluation cycle.

    The evaluator talks to its collaborators through interfaces; here they
    are the operations of [AlertWorld], over an abstract world [W] that holds
    the alert table, and the promises its claims need of them are the laws of
    [WorldLaws] and [Reliable]. AlertStore.v has the world of store.go, for
    which the laws are proved. *)
From Stdlib Require Import ZArith Lia.
From stdpp Require Import base list gmap strings numbers sorting.
From S2P Require Import Prelude GoText World Alerts.

(** What a [MetricsReader] returns. *)
Record Series : Type := mkSeries { s_Labels : labels; s_Value : Z }.

Record InterfaceInfo : Type := mkInterfaceInfo { if_Name : string; if_Alias : string; EverUp : bool }.
Definition zeroInfo : InterfaceInfo := mkInterfaceInfo "" "" false.
Abbreviation Ifaces := (gmap string (gmap string InterfaceInfo)).

(** The collaborators of an [Evaluator]. An error is [None] or [false]; an
    optional one that is not wired is told by its flag. *)
Class AlertWorld (W : Type) : Type := {
  EnabledRules : M W (option (list Rule));
  Query : string -> M W (option (list Series));
  LiveByRule : string -> M W (option (list Instance_));
  RecentResolved : string -> string -> Time -> M W (option Instance_);
  Fire : Instance_ -> M W bool;
  Resolve : string -> Time -> M W bool;
  SetFlapping : string -> M W bool;
  AppendEvent : string -> string -> M W unit;
  hasSilences : bool; Silenced : labels -> M W (option bool);
  hasPublish : bool; Publish : string -> Instance_ -> Rule -> M W unit;
  hasIfaces : bool; InterfaceID : string -> string -> M W string;
  Interfaces : string -> M W (gmap string InterfaceInfo);
  hasExporters : bool; DeviceByExporter : string -> M W (string * string);
  NewID : M W string;
  Now : M W Time;
  (** The order in which Go happens to range over a map of live alerts. *)
  rangeOrder : gmap string Instance_ -> list (string * Instance_);
  sha256 : bytes -> bytes
}.

(** [parentInterface]: what is before the last dot, if anything is. *)
Fixpoint beforeLastDot (b : bytes) : option bytes :=
  match b with
  | [] => None
  | c :: b => match beforeLastDot b with
              | Some p => Some (c :: p)
              | None => if decide (c = zb 46) then Some [] else None
              end
  end.
Definition parentInterface (name : string) : string :=
  of_bytes (default [] (beforeLastDot (to_bytes name))).

(** [ifaces[dev][idx]], and whether there is such an entry. *)
Definition ifaceInfo (ifaces : Ifaces) (dev idx : string) : option InterfaceInfo :=
  m ← ifaces !! dev; m !! idx.
Definition isFiring (firing : gmap string (gset string)) (dev name : string) : bool :=
  bool_decide (name ∈ default ∅ (firing !! dev)).

Section evaluator.
Context {W : Type} `{AlertWorld W}.
Abbreviation M := (M W).

(** ** suppressNoise *)

(** The first loop: one lookup per device, and the names that are firing. *)
Definition collectSeries (st : Ifaces * gmap string (gset string)) (s : Series)
    : M (Ifaces * gmap string (gset string)) :=
  let '(ifaces, firing) := st in
  let dev := label (s_Labels s) "device_id" in
  let idx := label (s_Labels s) "if_index" in
  if decide (dev = "" \/ idx = "") then mret st else
  '(ifaces, firing) ←
    (match ifaces !! dev with
     | Some _ => mret (ifaces, firing)
     | None => m ← Interfaces dev; mret (<[dev := m]> ifaces, <[dev := ∅]> firing)
     end);
  let n := if_Name (default zeroInfo (ifaceInfo ifaces dev idx)) in
  mret (ifaces, if decide (n = "") then firing
                else <[dev := {[n]} ∪ default ∅ (firing !! dev)]> firing).

Fixpoint collectAll (st : Ifaces * gmap string (gset string)) (series : list Series)
    : M (Ifaces * gmap string (gset string)) :=
  match series with
  | [] => mret st
  | s :: series => st ← collectSeries st s; collectAll st series
  end.

(** The test of the second loop. *)
Definition keepSeries (ifaces : Ifaces) (firing : gmap string (gset string)) (s : Series) : bool :=
  let dev := label (s_Labels s) "device_id" in
  let idx := label (s_Labels s) "if_index" in
  let info := default zeroInfo (ifaceInfo ifaces dev idx) in
  let known := bool_decide (is_Some (ifaceInfo ifaces dev idx)) in
  if negb (bool_decide (if_Name info = "")) && isFiring firing dev (parentInterface (if_Name info)) then false
  else if known && negb (EverUp info) then false
  else true.

Definition suppressNoise (series : list Series) : M (list Series * Ifaces) :=
  if negb hasIfaces then mret (series, ∅) else
  '(ifaces, firing) ← collectAll (∅, ∅) series;
  mret (filter (fun s => keepSeries ifaces firing s) series, ifaces).

(** ** notify *)

Definition notify (event : string) (inst : Instance_) (rule : Rule) : M unit :=
  if decide (State inst = StateFlapping /\ event = "alert.fired") then mret tt else
  silenced ← (if hasSilences then Silenced (Labels inst) else mret None);
  match silenced with
  | Some true => AppendEvent (ID inst) "silenced"
  | _ => if hasPublish then Publish event inst rule else mret tt
  end.

(** ** evalRule *)

(** [enrich]: a label for readability, added to a copy. *)
Definition enrich (k v : string) (inst : Instance_) : Instance_ :=
  if decide (v = "") then inst else inst <| Labels := <[k := v]> (Labels inst) |>.

Definition enrichInterface (s : Series) (ifaces : Ifaces) (inst : Instance_) : M Instance_ :=
  let idx := label (s_Labels s) "if_index" in
  if hasIfaces && negb (bool_decide (idx = "")) && negb (bool_decide (DeviceID inst = "")) then
    iface ← InterfaceID (DeviceID inst) idx;
    let inst := inst <| InterfaceID_ := iface |> in
    let info := default zeroInfo (ifaceInfo ifaces (DeviceID inst) idx) in
    mret (enrich "if_alias" (if_Alias info) (enrich "if_name" (if_Name info) inst))
  else mret inst.

Definition enrichExporter (s : Series) (inst : Instance_) : M Instance_ :=
  let exporter := label (s_Labels s) "exporter" in
  if negb (bool_decide (exporter = "")) && bool_decide (DeviceID inst = "") then
    '(id, devName) ← (if hasExporters then DeviceByExporter exporter else mret ("", ""));
    let inst := if decide (id = "") then inst else inst <| DeviceID := id |> in
    let name := if decide (id = "" \/ devName = "") then exporter else devName in
    mret (enrich "device" name inst)
  else mret inst.

Definition newInstance (rule : Rule) (now : Time) (s : Series) (fp id : string) (flapCount : Z) : Instance_ :=
  mkInstance id (r_ID rule) (r_Name rule) fp StateFiring (r_Severity rule)
    (label (s_Labels s) "device_id") "" (s_Labels s) (s_Value s) now None "" "" None flapCount.

(** The alert of a series that was not live. *)
Definition fireSeries (rule : Rule) (now : Time) (ifaces : Ifaces) (s : Series) (fp : string) : M unit :=
  prev ← RecentResolved (r_ID rule) fp (time_Add now (- FlapWindow));
  let flapCount := match prev with Some p => FlapCount p + 1 | None => 0 end in
  id ← NewID;
  inst ← enrichInterface s ifaces (newInstance rule now s fp id flapCount);
  inst ← enrichExporter s inst;
  ok ← Fire inst;
  if negb (ok : bool) then mret tt else
  '(inst, event) ←
    (if FlapThreshold <=? flapCount then
       ok ← SetFlapping (ID inst);
       mret (if ok : bool then (inst <| State := StateFlapping |>, "flap_start") else (inst, "fired"))
     else mret (inst, "fired"));
  _ ← AppendEvent (ID inst) event;
  notify "alert.fired" inst rule.

(** The loop over the series: [matched] is the set of fingerprints seen. *)
Fixpoint fireLoop (rule : Rule) (now : Time) (ifaces : Ifaces) (liveByFP : gmap string Instance_)
    (series : list Series) (matched : gset string) : M (gset string) :=
  match series with
  | [] => mret matched
  | s :: series =>
      let fp := Fingerprint sha256 (r_ID rule) (s_Labels s) in
      if decide (fp ∈ matched) then fireLoop rule now ifaces liveByFP series matched else
      let matched := {[fp]} ∪ matched in
      _ ← (if decide (is_Some (liveByFP !! fp)) then mret tt else fireSeries rule now ifaces s fp);
      fireLoop rule now ifaces liveByFP series matched
  end.

(** One live alert that is no longer matched. *)
Definition resolveInstance (rule : Rule) (now : Time) (inst : Instance_) : M unit :=
  ok ← Resolve (ID inst) now;
  if negb (ok : bool) then mret tt else
  _ ← AppendEvent (ID inst) "resolved";
  notify "alert.resolved" (inst <| State := StateResolved |>) rule.

Fixpoint resolveLoop (rule : Rule) (now : Time) (matched : gset string)
    (live : list (string * Instance_)) : M unit :=
  match live with
  | [] => mret tt
  | (fp, inst) :: live =>
      _ ← (if decide (fp ∈ matched) then mret tt else resolveInstance rule now inst);
      resolveLoop rule now matched live
  end.

Definition liveMap (live : list Instance_) : gmap string Instance_ :=
  foldl (fun m i => <[Fingerprint_ i := i]> m) ∅ live.

(** The result is whether the error is nil. *)
Definition evalRule (rule : Rule) : M bool :=
  o ← Query (r_Expr rule);
  match o with
  | None => mret false
  | Some series =>
      '(series, ifaces) ← suppressNoise series;
      o ← LiveByRule (r_ID rule);
      match o with
      | None => mret false
      | Some live =>
          now ← Now;
          matched ← fireLoop rule now ifaces (liveMap live) series ∅;
          _ ← resolveLoop rule now matched (rangeOrder (liveMap live));
          mret true
      end
  end.

Fixpoint evalRules (rules : list Rule) : M unit :=
  match rules with
  | [] => mret tt
  | rule :: rules =>
      _ ← (if decide (r_Expr rule = "") then mret true else evalRule rule);
      evalRules rules
  end.

Definition Cycle : M unit :=
  o ← EnabledRules;
  match o with None => mret tt | Some rules => evalRules rules end.
End evaluator.

(** * Suppression *)

Definition s_dev (s : Series) : string := label (s_Labels s) "device_id".
Definition s_idx (s : Series) : string := label (s_Labels s) "if_index".

Lemma beforeLastDot_spec b p :
  beforeLastDot b = Some p -> exists t, b = p ++ zb 46 :: t /\ zb 46 ∉ t.
Proof.
  revert p. induction b as [|c b IH]; intros p; simpl; [done|].
  destruct (beforeLastDot b) as [q|] eqn:E.
  - intros [= <-]. destruct (IH q eq_refl) as (t & -> & Ht). by exists t.
  - case_decide as Hc; [|done]. intros [= <-]. exists b. split; [by rewrite Hc|].
    clear -E. induction b as [|d b IH]; [by apply not_elem_of_nil|]. simpl in E.
    destruct (beforeLastDot b); [done|]. case_decide; [done|].
    rewrite not_elem_of_cons. split; [congruence | by apply IH].
Qed.

(** A parent is a proper dotted prefix. *)
Definition ancestor (p n : string) : Prop := exists t, to_bytes n = to_bytes p ++ zb 46 :: t.

Lemma to_bytes_inj a b : to_bytes a = to_bytes b -> a = b.
Proof. intros E. by rewrite <- (of_to_bytes a), E, of_to_bytes. Qed.

Lemma parentInterface_ancestor n : parentInterface n <> "" -> ancestor (parentInterface n) n.
Proof.
  unfold parentInterface. destruct (beforeLastDot (to_bytes n)) as [p|] eqn:E; simpl.
  - intros _. destruct (beforeLastDot_spec _ _ E) as (t & Et & _). exists t. by rewrite to_of_bytes.
  - by intros [].
Qed.

Lemma ancestor_trans a b c : ancestor a b -> ancestor b c -> ancestor a c.
Proof. intros [t Ht] [u Hu]. exists (t ++ zb 46 :: u). by rewrite Hu, Ht, <- app_assoc. Qed.

Lemma ancestor_shorter a b : ancestor a b -> slen a < slen b.
Proof. intros [t Ht]. unfold slen. rewrite Ht. len_lia. Qed.

Section suppression.
Context {W : Type} `{AlertWorld W}.
(** A resolver that answers from a fixed inventory; no interface has an empty
    index. *)
Context (inventory : string -> gmap string InterfaceInfo).
Context (w : W) (Hinv : forall dev, Interfaces dev w = (inventory dev, w)).
Context (Hidx : forall dev, inventory dev !! "" = None).
Context (Hwired : hasIfaces = true).

Definition infoOf (s : Series) : option InterfaceInfo :=
  if decide (s_dev s = "") then None else inventory (s_dev s) !! s_idx s.
Definition nameOfSeries (s : Series) : string := if_Name (default zeroInfo (infoOf s)).

(** The two causes the code suppresses for. *)
Definition dependent (series : list Series) (s : Series) : Prop :=
  nameOfSeries s <> "" /\ exists s', s' ∈ series /\ s_dev s' = s_dev s /\
    nameOfSeries s' <> "" /\ nameOfSeries s' = parentInterface (nameOfSeries s).
Definition neverInService (s : Series) : Prop := exists info, infoOf s = Some info /\ EverUp info = false.

(** What the first loop has gathered from the series it has passed. *)
Record collected (done_ : list Series) (ifaces : Ifaces) (firing : gmap string (gset string)) : Prop := mkCollected {
  co_ifaces : forall dev m, ifaces !! dev = Some m -> m = inventory dev /\ dev <> "";
  co_fetched : forall s, s ∈ done_ -> s_dev s <> "" -> s_idx s <> "" -> is_Some (ifaces !! s_dev s);
  co_firing : forall dev name, isFiring firing dev name = true <->
    name <> "" /\ exists s, s ∈ done_ /\ s_dev s = dev /\ nameOfSeries s = name
}.

Lemma infoOf_noidx s : s_idx s = "" -> infoOf s = None.
Proof. intros E. unfold infoOf. case_decide; [done|]. by rewrite E, Hidx. Qed.

Lemma isFiring_spec firing dev name :
  isFiring firing dev name = true <-> name ∈ default ∅ (firing !! dev).
Proof. unfold isFiring. apply bool_decide_eq_true. Qed.

Lemma collectSeries_spec done_ ifaces firing s :
  collected done_ ifaces firing ->
  exists ifaces' firing', collectSeries (ifaces, firing) s w = ((ifaces', firing'), w) /\
    collected (done_ ++ [s]) ifaces' firing'.
Proof.
  intros [Hi Hf Hn]. unfold collectSeries. fold (s_dev s) (s_idx s).
  destruct (decide (s_dev s = "" \/ s_idx s = "")) as [Hskip|Hgo].
  { exists ifaces, firing. split; [done|]. assert (nameOfSeries s = "") as E.
    { unfold nameOfSeries. destruct Hskip as [E|E]; [|by rewrite infoOf_noidx].
      unfold infoOf. by rewrite decide_True. }
    constructor; [done| |].
    - intros s'. rewrite elem_of_app, list_elem_of_singleton. intros [?| ->]; [by apply Hf | tauto].
    - intros dev name. rewrite Hn. setoid_rewrite elem_of_app. setoid_rewrite list_elem_of_singleton.
      split; intros [Hne (s' & Hs & ? & ?)]; split; try done; [by eauto|].
      destruct Hs as [?| ->]; [by eauto|]. congruence. }
  set (fetch := match ifaces !! s_dev s with Some _ => _ | None => _ end).
  assert (exists ifaces' firing', fetch w = ((ifaces', firing'), w) /\
    ifaces' !! s_dev s = Some (inventory (s_dev s)) /\
    (forall dev m, ifaces' !! dev = Some m -> m = inventory dev /\ dev <> "") /\
    (forall s', s' ∈ done_ -> s_dev s' <> "" -> s_idx s' <> "" -> is_Some (ifaces' !! s_dev s')) /\
    (forall dev name, isFiring firing' dev name = isFiring firing dev name)) as (ifaces' & firing' & Efetch & Hd & Hi' & Hf' & Hn').
  { subst fetch. destruct (ifaces !! s_dev s) as [m|] eqn:E.
    - exists ifaces, firing. split; [done|]. destruct (Hi _ _ E) as [-> _]. by split_and!.
    - exists (<[s_dev s := inventory (s_dev s)]> ifaces), (<[s_dev s := ∅]> firing).
      split; [unfold mbind, M_bind; by rewrite Hinv|]. split; [by rewrite lookup_insert_eq|]. split_and!.
      + intros dev m. destruct (decide (dev = s_dev s)) as [->|Hne];
          [rewrite lookup_insert_eq; intros [= <-]; tauto | rewrite lookup_insert_ne by done; apply Hi].
      + intros s' H1 H2 H3. destruct (decide (s_dev s' = s_dev s)) as [->|Hne];
          [rewrite lookup_insert_eq; by eauto | rewrite lookup_insert_ne by done; by apply Hf].
      + intros dev name. apply eq_true_iff_eq. rewrite Hn, isFiring_spec.
        destruct (decide (dev = s_dev s)) as [->|Hne].
        * rewrite lookup_insert_eq. simpl. split; [set_solver|]. intros [Hne (s' & Hs' & Es & En)].
          exfalso. assert (s_idx s' <> "") as Hi2.
          { intros E2. unfold nameOfSeries in En. rewrite infoOf_noidx in En by done. simpl in En. congruence. }
          destruct (Hf s' Hs') as [m Hm]; [rewrite Es; tauto | done | congruence].
        * rewrite lookup_insert_ne by done. by rewrite <- isFiring_spec, Hn. }
  unfold mbind at 1, M_bind at 1. rewrite Efetch. cbv beta iota zeta.
  assert (default zeroInfo (ifaceInfo ifaces' (s_dev s) (s_idx s)) = default zeroInfo (infoOf s)) as ->.
  { unfold ifaceInfo, infoOf. rewrite Hd, decide_False by tauto. done. }
  fold (nameOfSeries s). eexists _, _. split; [reflexivity|]. constructor; [done| |].
  - intros s'. rewrite elem_of_app, list_elem_of_singleton. intros [?| ->] ? ?; [by apply Hf' | by eauto].
  - intros dev name. setoid_rewrite elem_of_app. setoid_rewrite list_elem_of_singleton.
    destruct (decide (nameOfSeries s = "")) as [E|E].
    + rewrite Hn', Hn. split; intros [Hne (s' & Hs & ? & ?)]; split; try done; [by eauto|].
      destruct Hs as [?| ->]; [by eauto | congruence].
    + rewrite isFiring_spec. destruct (decide (dev = s_dev s)) as [->|Hne].
      * rewrite lookup_insert_eq. simpl. rewrite elem_of_union, elem_of_singleton, <- isFiring_spec, Hn', Hn.
        split; [intros [->|[? (s' & ? & ? & ?)]]; split; eauto | intros [? (s' & [?| ->] & ? & ?)]; eauto 6].
      * rewrite lookup_insert_ne by done. rewrite <- isFiring_spec, Hn', Hn.
        split; intros [? (s' & Hs & ? & ?)]; split; try done; [by eauto|].
        destruct Hs as [?| ->]; [by eauto | congruence].
Qed.

Lemma collectAll_spec series done_ ifaces firing :
  collected done_ ifaces firing ->
  exists ifaces' firing', collectAll (ifaces, firing) series w = ((ifaces', firing'), w) /\
    collected (done_ ++ series) ifaces' firing'.
Proof.
  revert done_ ifaces firing. induction series as [|s series IH]; intros done_ ifaces firing Hc.
  - rewrite app_nil_r. by exists ifaces, firing.
  - destruct (collectSeries_spec done_ ifaces firing s Hc) as (i1 & f1 & E1 & H1).
    destruct (IH _ _ _ H1) as (i2 & f2 & E2 & H2). exists i2, f2.
    cbn [collectAll]. unfold mbind, M_bind in *. rewrite E1, E2. split; [done|].
    by rewrite <- app_assoc in H2.
Qed.

Lemma collected_nil : collected [] ∅ ∅.
Proof.
  constructor; [by intros dev m | by intros s ?%elem_of_nil|].
  intros dev name. rewrite isFiring_spec, lookup_empty. simpl.
  split; [set_solver | intros [_ (s & ?%elem_of_nil & _)]; done].
Qed.

Lemma collected_info series ifaces firing s :
  collected series ifaces firing -> s ∈ series -> ifaceInfo ifaces (s_dev s) (s_idx s) = infoOf s.
Proof.
  intros [Hi Hf _] Hs. unfold ifaceInfo, infoOf. case_decide as Hd.
  - destruct (ifaces !! s_dev s) as [m|] eqn:E; [|done]. by destruct (Hi _ _ E) as [_ []].
  - destruct (decide (s_idx s = "")) as [E|E].
    + rewrite E, Hidx. destruct (ifaces !! s_dev s) as [m|] eqn:Em; [|done].
      destruct (Hi _ _ Em) as [-> _]. simpl. apply Hidx.
    + destruct (Hf s Hs Hd E) as [m Hm]. rewrite Hm. destruct (Hi _ _ Hm) as [-> _]. done.
Qed.

Lemma keepSeries_spec series ifaces firing s :
  collected series ifaces firing -> s ∈ series ->
  keepSeries ifaces firing s = true <-> ~ dependent series s /\ ~ neverInService s.
Proof.
  intros Hc Hs. unfold keepSeries. fold (s_dev s) (s_idx s).
  rewrite (collected_info _ _ _ _ Hc Hs). fold (nameOfSeries s).
  assert (negb (bool_decide (nameOfSeries s = "")) && isFiring firing (s_dev s) (parentInterface (nameOfSeries s)) = true
    <-> dependent series s) as Hdep.
  { rewrite andb_true_iff, negb_true_iff, bool_decide_eq_false, (co_firing _ _ _ Hc). unfold dependent.
    split; [intros (? & ? & s' & ? & ? & ?) | intros (? & s' & ? & ? & ? & ?)]; split; try done.
    - exists s'. split_and!; try done. congruence.
    - split; [congruence|]. by exists s'. }
  assert (bool_decide (is_Some (infoOf s)) && negb (EverUp (default zeroInfo (infoOf s))) = true
    <-> neverInService s) as Hnev.
  { rewrite andb_true_iff, negb_true_iff, bool_decide_eq_true. unfold neverInService.
    split; [intros [[i Hi] E]; rewrite Hi in E; by exists i | intros (i & Hi & E); rewrite Hi; by eauto]. }
  set (d := _ && isFiring _ _ _) in *. set (v := _ && negb (EverUp _)) in *.
  rewrite <- Hdep, <- Hnev. destruct d, v; naive_solver.
Qed.

(** Whatever is suppressed as a dependent has an ancestor on its device that
    fires and is not one itself. *)
Lemma root_cause series s :
  dependent series s ->
  exists r, r ∈ series /\ s_dev r = s_dev s /\ ancestor (nameOfSeries r) (nameOfSeries s) /\
    ~ dependent series r.
Proof.
  remember (length (to_bytes (nameOfSeries s))) as n eqn:En. revert s En.
  induction (Nat.lt_wf_0 n) as [n _ IH]. intros s -> (Hne & s' & Hs' & Hd & Hn' & Hp).
  assert (ancestor (nameOfSeries s') (nameOfSeries s)) as Ha.
  { rewrite Hp. apply parentInterface_ancestor. congruence. }
  assert (~ dependent series s' \/ dependent series s') as [Hnd|Hdep].
  { destruct (Exists_dec (fun x => s_dev x = s_dev s' /\ nameOfSeries x <> "" /\
      nameOfSeries x = parentInterface (nameOfSeries s')) series) as [Hex|Hex].
    - right. split; [done|]. apply Exists_exists in Hex as (x & Hx & ? & ? & ?). by exists x.
    - left. intros (_ & x & Hx & ? & ? & ?). apply Hex, Exists_exists. by exists x. }
  - by exists s'.
  - apply ancestor_shorter in Ha as Hlt. unfold slen, len in Hlt.
    destruct (IH (length (to_bytes (nameOfSeries s')))) with (s := s') as (r & Hr & Hrd & Hra & Hrn); [lia|done|done|].
    exists r. split_and!; [done | congruence | by eapply ancestor_trans | done].
Qed.

(** Suppression drops exactly what describes no fault of its own: with an
    inventory wired in, a rule's series pass through in order, unchanged,
    except those whose parent interface fires too and those of an interface
    known never to have been in service; and for each dropped as a dependent
    there is an interface up its dotted name, on the same device, that fires
    and is not a dependent. A series without device or index always passes. *)
Theorem suppressNoise_spec series :
  exists out ifaces, suppressNoise series w = ((out, ifaces), w) /\
    out `sublist_of` series /\
    (forall s, s ∈ series -> s ∈ out <-> ~ dependent series s /\ ~ neverInService s) /\
    (forall s, dependent series s -> exists r, r ∈ series /\ s_dev r = s_dev s /\
       ancestor (nameOfSeries r) (nameOfSeries s) /\ ~ dependent series r) /\
    (forall s, s ∈ series -> s_dev s = "" \/ s_idx s = "" -> s ∈ out).
Proof.
  destruct (collectAll_spec series [] ∅ ∅ collected_nil) as (ifaces & firing & E & Hc). simpl in Hc.
  assert (forall s, s ∈ series -> s ∈ filter (fun s => keepSeries ifaces firing s) series <->
    ~ dependent series s /\ ~ neverInService s) as Hin.
  { intros s Hs. rewrite <- (keepSeries_spec _ _ _ _ Hc Hs), list_elem_of_filter.
    split; [by intros [? _]; destruct (keepSeries _ _ _) | intros ->; done]. }
  exists (filter (fun s => keepSeries ifaces firing s) series), ifaces.
  split; [|split; [apply sublist_filter | split; [exact Hin | split; [by apply root_cause|]]]].
  - unfold suppressNoise. rewrite Hwired. cbn [negb]. unfold mbind, M_bind. by rewrite E.
  - intros s Hs Hno. apply Hin; [done|].
    assert (infoOf s = None) as Ei.
    { destruct Hno as [E0|E0]; [unfold infoOf; by rewrite decide_True | by apply infoOf_noidx]. }
    unfold dependent, neverInService, nameOfSeries. rewrite Ei. simpl.
    split; [by intros [[] _] | by intros (? & ? & _)].
Qed.
End suppression.

(** * The table after a cycle *)

(** What the evaluator is promised: which table the world holds, that only
    the three writes change it and how, that new ids are new. *)
Class WorldLaws (W : Type) `{AlertWorld W} : Type := {
  table : W -> Table;
  law_query expr w : table (snd (Query expr w)) = table w;
  law_live ruleID w : table (snd (LiveByRule ruleID w)) = table w /\
    forall l, fst (LiveByRule ruleID w) = Some l -> l = pg_LiveByRule (table w) ruleID;
  law_recent ruleID fp since w : table (snd (RecentResolved ruleID fp since w)) = table w;
  law_fire i w : let '(ok, w') := Fire i w in
    if ok : bool then pg_Fire (table w) i = Some (table w') else table w' = table w;
  law_resolve id at_ w : let '(ok, w') := Resolve id at_ w in
    table w' = if ok : bool then pg_Resolve (table w) id at_ else table w;
  law_flap id w : let '(ok, w') := SetFlapping id w in
    table w' = if ok : bool then pg_SetFlapping (table w) id else table w;
  law_event id e w : table (snd (AppendEvent id e w)) = table w;
  law_silenced ls w : table (snd (Silenced ls w)) = table w;
  law_publish e i r w : table (snd (Publish e i r w)) = table w;
  law_ifid dev idx w : table (snd (InterfaceID dev idx w)) = table w;
  law_ifaces dev w : table (snd (Interfaces dev w)) = table w;
  law_exporter a w : table (snd (DeviceByExporter a w)) = table w;
  law_id w : table (snd (NewID w)) = table w /\
    forall i, i ∈ table w -> ID i <> fst (NewID w);
  law_now w : table (snd (Now w)) = table w;
  law_range m : rangeOrder m ≡ₚ map_to_list m
}.

(** Nothing fails but what must: the queries answer, a row that breaks no
    constraint goes in, a resolve goes through. *)
Class Reliable (W : Type) `{WorldLaws W} : Prop := {
  rel_query expr w : fst (Query expr w) <> None;
  rel_live ruleID w : fst (LiveByRule ruleID w) <> None;
  rel_fire i w : pg_Fire (table w) i <> None -> fst (Fire i w) = true;
  rel_resolve id at_ w : fst (Resolve id at_ w) = true
}.

Section lifecycle.
Context {W : Type} `{Reliable W}.

(** [m] leaves the table alone. *)
Definition quiet {A} (m : World.M W A) : Prop := forall w, table (snd (m w)) = table w.

Lemma quiet_ret {A} (a : A) : quiet (mret a).
Proof. done. Qed.
Lemma quiet_bind {A B} (m : World.M W A) (k : A -> World.M W B) :
  quiet m -> (forall a, quiet (k a)) -> quiet (m ≫= k).
Proof.
  intros Hm Hk w. unfold mbind, M_bind. specialize (Hm w). destruct (m w) as [a w']. simpl in Hm.
  by rewrite Hk.
Qed.
Lemma quiet_if {A} (b : bool) (m1 m2 : World.M W A) : quiet m1 -> quiet m2 -> quiet (if b then m1 else m2).
Proof. by destruct b. Qed.

Lemma quiet_notify e i r : quiet (notify e i r).
Proof.
  unfold notify. case_decide; [apply quiet_ret|]. apply quiet_bind.
  - apply quiet_if; [intros w; apply law_silenced | apply quiet_ret].
  - intros [[]|]; [intros w; apply law_event | | ];
      (apply quiet_if; [intros w; apply law_publish | apply quiet_ret]).
Qed.

Lemma quiet_enrichInterface s ifaces i : quiet (enrichInterface s ifaces i).
Proof.
  unfold enrichInterface. apply quiet_if; [|apply quiet_ret].
  apply quiet_bind; [intros w; apply law_ifid | intros a; apply quiet_ret].
Qed.

Lemma quiet_enrichExporter s i : quiet (enrichExporter s i).
Proof.
  unfold enrichExporter. apply quiet_if; [|apply quiet_ret]. apply quiet_bind.
  - apply quiet_if; [intros w; apply law_exporter | apply quiet_ret].
  - intros []. apply quiet_ret.
Qed.

Lemma quiet_collectSeries st s : quiet (collectSeries st s).
Proof.
  unfold collectSeries. destruct st as [ifaces firing]. case_decide; [apply quiet_ret|].
  apply quiet_bind.
  - case_match; [apply quiet_ret|]. apply quiet_bind; [intros w; apply law_ifaces | intros m; apply quiet_ret].
  - intros []. apply quiet_ret.
Qed.

Lemma quiet_collectAll series : forall st, quiet (collectAll st series).
Proof.
  induction series as [|s series IH]; intros st; [apply quiet_ret|].
  apply quiet_bind; [apply quiet_collectSeries | apply IH].
Qed.

Lemma quiet_suppressNoise series : quiet (suppressNoise series).
Proof.
  unfold suppressNoise. apply quiet_if; [apply quiet_ret|].
  apply quiet_bind; [apply quiet_collectAll | intros []; apply quiet_ret].
Qed.

(** Enrichment touches labels and links only. *)
Definition alertCore (i : Instance_) : Instance_ :=
  i <| Labels := ∅ |> <| DeviceID := "" |> <| InterfaceID_ := "" |>.
Definition sameAlert (i j : Instance_) : Prop := alertCore i = alertCore j.

Lemma sameAlert_fields i j : sameAlert i j ->
  ID i = ID j /\ RuleID i = RuleID j /\ Fingerprint_ i = Fingerprint_ j /\ State i = State j /\
  FiredAt i = FiredAt j /\ FlapCount i = FlapCount j /\ AckedAt i = AckedAt j /\
  AckedBy i = AckedBy j /\ AckComment i = AckComment j /\ ResolvedAt i = ResolvedAt j.
Proof.
  intros E. split_and!;
    [ exact (f_equal ID E)
    | exact (f_equal RuleID E)
    | exact (f_equal Fingerprint_ E)
    | exact (f_equal State E)
    | exact (f_equal FiredAt E)
    | exact (f_equal FlapCount E)
    | exact (f_equal AckedAt E)
    | exact (f_equal AckedBy E)
    | exact (f_equal AckComment E)
    | exact (f_equal ResolvedAt E) ].
Qed.

Lemma enrich_same k v i : sameAlert (enrich k v i) i.
Proof. unfold enrich. by case_decide. Qed.

Lemma sameAlert_trans i j k : sameAlert i j -> sameAlert j k -> sameAlert i k.
Proof. unfold sameAlert. congruence. Qed.

Lemma enrichInterface_same s ifaces i w : sameAlert (fst (enrichInterface s ifaces i w)) i.
Proof.
  unfold enrichInterface. destruct (_ && _); [|done]. unfold mbind, M_bind.
  destruct (InterfaceID _ _ w) as [f w']. simpl.
  eapply sameAlert_trans; [apply enrich_same|]. eapply sameAlert_trans; [apply enrich_same|]. done.
Qed.

Lemma enrichExporter_same s i w : sameAlert (fst (enrichExporter s i w)) i.
Proof.
  unfold enrichExporter. destruct (_ && _); [|done]. unfold mbind, M_bind.
  match goal with |- context [let '(_, _) := ?m in _] => destruct m as [[d n] w'] end. simpl.
  eapply sameAlert_trans; [apply enrich_same|]. by case_decide.
Qed.

(** A row a series of the rule has just fired. *)
Definition freshRow (rule : Rule) (now : Time) (fp : string) (row : Instance_) : Prop :=
  sameSeries (r_ID rule) fp row /\ (State row = StateFiring \/ State row = StateFlapping) /\
  FiredAt row = now /\ ResolvedAt row = None.

Lemma freshRow_flapping rule now fp row :
  freshRow rule now fp row -> freshRow rule now fp (row <| State := StateFlapping |>).
Proof. destruct row. unfold freshRow, sameSeries. simpl. intros ([? ?] & _ & ? & ?).
  by split_and!; [| |right| |]. Qed.

Lemma freshRow_live rule now fp row : freshRow rule now fp row -> isLive row.
Proof. unfold freshRow, isLive. intros (_ & [-> | ->] & _); done. Qed.

Lemma setFlapping_snoc t row :
  (forall j, j ∈ t -> ID j <> ID row) ->
  pg_SetFlapping (t ++ [row]) (ID row) = t ++ [row <| State := StateFlapping |>].
Proof.
  intros Hid. unfold pg_SetFlapping, pg_update. rewrite map_app. f_equal.
  - rewrite <- (map_id t) at 2. apply map_ext_in. intros j Hj%list_elem_of_In.
    by rewrite bool_decide_false by (by apply Hid).
  - simpl. by rewrite bool_decide_true.
Qed.

Lemma fireSeries_table rule now ifaces s fp w :
  table_ok (table w) -> ~ liveFp (r_ID rule) (table w) fp ->
  exists row, table (snd (fireSeries rule now ifaces s fp w)) = table w ++ [row] /\
    freshRow rule now fp row /\ table_ok (table w ++ [row]).
Proof.
  intros Hok Hnl. unfold fireSeries. rewrite bind_snd.
  set (prev := fst (RecentResolved _ _ _ w)). pose proof (law_recent (r_ID rule) fp (time_Add now (- FlapWindow)) w) as E1.
  set (w1 := snd (RecentResolved _ _ _ w)) in *. cbv zeta. set (flaps := match prev with Some p => _ | None => _ end).
  rewrite bind_snd. destruct (law_id w1) as [E2 Hid]. set (id := fst (NewID w1)) in *. set (w2 := snd (NewID w1)) in *.
  rewrite bind_snd. set (m3 := enrichInterface _ _ _).
  pose proof (quiet_enrichInterface s ifaces (newInstance rule now s fp id flaps) w2 : table (snd (m3 w2)) = _) as E3.
  pose proof (enrichInterface_same s ifaces (newInstance rule now s fp id flaps) w2 : sameAlert (fst (m3 w2)) _) as S3.
  set (i3 := fst (m3 w2)) in *. set (w3 := snd (m3 w2)) in *.
  rewrite bind_snd. pose proof (quiet_enrichExporter s i3 w3) as E4. pose proof (enrichExporter_same s i3 w3) as S4.
  set (i4 := fst (enrichExporter s i3 w3)) in *. set (w4 := snd (enrichExporter s i3 w3)) in *.
  assert (sameAlert i4 (newInstance rule now s fp id flaps)) as S by (by eapply sameAlert_trans).
  apply sameAlert_fields in S as (Sid & Srule & Sfp & Sst & Sat & _). simpl in Sid, Srule, Sfp, Sst, Sat.
  assert (table w4 = table w) as Et by congruence.
  assert (forall j, j ∈ table w -> ID j <> ID i4) as Hfresh.
  { intros j Hj. rewrite Sid. apply Hid. by rewrite E1. }
  assert (~ liveFp (RuleID i4) (table w) (Fingerprint_ i4)) as Hnl' by (by rewrite Srule, Sfp).
  pose proof (pg_Fire_Some _ _ Hnl' Hfresh) as Hfire.
  rewrite bind_snd. pose proof (rel_fire i4 w4) as Hrel. rewrite Et, Hfire in Hrel. specialize (Hrel ltac:(done)).
  pose proof (law_fire i4 w4) as Hlaw. destruct (Fire i4 w4) as [ok w5]. simpl in Hrel. subst ok. cbn [fst snd negb].
  rewrite Et, Hfire in Hlaw. injection Hlaw as E5.
  assert (freshRow rule now fp (firedRow i4)) as Hrow.
  { split; [by split|]. simpl. by split_and!; [left| |]. }
  assert (table_ok (table w ++ [firedRow i4])) as Hok5 by (by apply table_ok_snoc).
  rewrite bind_snd. set (m6 := if FlapThreshold <=? flaps then _ else _).
  assert (exists row, table (snd (m6 w5)) = table w ++ [row] /\ freshRow rule now fp row /\
    table_ok (table w ++ [row])) as (row & E6 & Hrow6 & Hok6).
  { subst m6. destruct (FlapThreshold <=? flaps); [|by exists (firedRow i4)].
    rewrite bind_snd. pose proof (law_flap (ID i4) w5) as Hflap. destruct (SetFlapping (ID i4) w5) as [ok w6].
    cbn [fst snd] in *. destruct ok; simpl.
    - rewrite <- E5 in Hflap. change (ID i4) with (ID (firedRow i4)) in Hflap.
      rewrite setFlapping_snoc in Hflap by done. eexists. split; [exact Hflap|]. split.
      + by apply freshRow_flapping.
      + by apply table_ok_snoc.
    - exists (firedRow i4). split; [congruence|]. done. }
  exists row. split; [|done]. destruct (m6 w5) as [[i6 e] w6]. cbn [fst snd] in *.
  rewrite bind_snd, quiet_notify, law_event. done.
Qed.

Definition fpOf (rule : Rule) (s : Series) : string := Fingerprint sha256 (r_ID rule) (s_Labels s).

(** The table while the series are gone through: the rows there were, then
    one fresh row per fingerprint that was not live. *)
Record firing_inv (rule : Rule) (now : Time) (t0 : Table) (matched : gset string) (w : W) (new : list Instance_)
    : Prop := mkFiringInv {
  fi_ok : table_ok (table w);
  fi_table : table w = t0 ++ new;
  fi_new : forall row, row ∈ new -> exists fp, freshRow rule now fp row /\ fp ∈ matched /\ ~ liveFp (r_ID rule) t0 fp;
  fi_matched : forall fp, fp ∈ matched -> liveFp (r_ID rule) (table w) fp;
  fi_live : forall fp, liveFp (r_ID rule) (table w) fp -> liveFp (r_ID rule) t0 fp \/ fp ∈ matched
}.

Lemma liveFp_app r t1 t2 fp : liveFp r (t1 ++ t2) fp <-> liveFp r t1 fp \/ liveFp r t2 fp.
Proof. unfold liveFp. setoid_rewrite elem_of_app. naive_solver. Qed.

Lemma fireLoop_table rule now ifaces m t0 series : forall matched w new,
  (forall fp, is_Some (m !! fp) <-> liveFp (r_ID rule) t0 fp) ->
  firing_inv rule now t0 matched w new ->
  let r := fireLoop rule now ifaces m series matched w in
  fst r = matched ∪ list_to_set (map (fpOf rule) series) /\
  exists new', firing_inv rule now t0 (fst r) (snd r) new'.
Proof.
  induction series as [|s series IH]; intros matched w new Hm Hinv.
  { simpl. split; [set_solver|]. by exists new. }
  cbn [fireLoop]. cbv zeta. fold (fpOf rule s). set (fp := fpOf rule s). case_decide as Hin.
  { destruct (IH matched w new Hm Hinv) as [E ?]. split; [|done]. rewrite E.
    cbn [map list_to_set]. fold fp. set_solver. }
  assert (exists new1 w1, snd ((if decide (is_Some (m !! fp)) then mret tt
      else fireSeries rule now ifaces s fp) w) = w1 /\ firing_inv rule now t0 ({[fp]} ∪ matched) w1 new1)
    as (new1 & w1 & Ew & Hinv1).
  { destruct Hinv as [Hok Ht Hnew Hmat Hl]. case_decide as Hlive.
    - exists new, w. split; [done|]. apply Hm in Hlive. constructor; [done..| | |].
      + intros row Hr. destruct (Hnew row Hr) as (f & ? & ? & ?). exists f. set_solver.
      + intros f [->%elem_of_singleton|Hf]%elem_of_union; [|by apply Hmat].
        rewrite Ht. apply liveFp_app. by left.
      + intros f Hf. destruct (Hl f Hf); set_solver.
    - assert (~ liveFp (r_ID rule) (table w) fp) as Hnl.
      { intros Hf. destruct (Hl fp Hf) as [Hf0|]; [by apply Hm in Hf0 | done]. }
      destruct (fireSeries_table rule now ifaces s fp w Hok Hnl) as (row & Et & Hrow & Hok1).
      exists (new ++ [row]), (snd (fireSeries rule now ifaces s fp w)). split; [done|].
      constructor.
      + by rewrite Et.
      + by rewrite Et, Ht, <- app_assoc.
      + intros r. rewrite elem_of_app, list_elem_of_singleton. intros [Hr| ->].
        * destruct (Hnew r Hr) as (f & ? & ? & ?). exists f. set_solver.
        * exists fp. split; [done|]. split; [set_solver|]. intros Hf. apply Hnl.
          rewrite Ht. apply liveFp_app. by left.
      + intros f Hf. rewrite Et. apply liveFp_app. apply elem_of_union in Hf as [->%elem_of_singleton|Hf].
        * right. exists row. split; [by apply list_elem_of_singleton|].
          split; [by destruct Hrow | by eapply freshRow_live].
        * left. by apply Hmat.
      + intros f. rewrite Et, liveFp_app. intros [Hf|(r & Hr & Hs & _)].
        * destruct (Hl f Hf); set_solver.
        * apply list_elem_of_singleton in Hr as ->. right. destruct Hrow as ([_ E1] & _), Hs as [_ E2]. set_solver. }
  rewrite bind_fst, bind_snd, Ew. destruct (IH _ w1 new1 Hm Hinv1) as [E ?]. split; [|done]. rewrite E.
  cbn [map list_to_set]. fold fp. set_solver.
Qed.

(** ** Resolving *)

Definition resolved (now : Time) (i : Instance_) : Instance_ :=
  i <| State := StateResolved |> <| ResolvedAt := Some now |>.

(** The table with the rows of the given ids resolved. *)
Definition resolveIds (now : Time) (ids : list string) (t : Table) : Table :=
  map (fun i => if decide (ID i ∈ ids /\ isLive i) then resolved now i else i) t.

Lemma resolveIds_app now ids id t :
  pg_Resolve (resolveIds now ids t) id now = resolveIds now (ids ++ [id]) t.
Proof.
  unfold pg_Resolve, pg_update, resolveIds. rewrite map_map. apply map_ext. intros i.
  destruct (decide (ID i ∈ ids /\ isLive i)) as [[Hin Hl]|Hn].
  - rewrite bool_decide_false by (intros [_ []]; done). rewrite decide_True; [done|].
    split; [apply elem_of_app; by left | done].
  - destruct (decide (ID i = id /\ isLive i)) as [[E Hl]|Hn'].
    + rewrite bool_decide_true by done. rewrite decide_True; [done|].
      split; [apply elem_of_app; right; by apply list_elem_of_singleton | done].
    + rewrite bool_decide_false by done. rewrite decide_False; [done|].
      rewrite elem_of_app, list_elem_of_singleton. tauto.
Qed.

Lemma resolveLoop_table rule now matched live : forall ids t w,
  table w = resolveIds now ids t ->
  table (snd (resolveLoop rule now matched live w))
  = resolveIds now (ids ++ map (fun fi => ID fi.2) (filter (fun fi => fi.1 ∉ matched) live)) t.
Proof.
  induction live as [|[fp inst] live IH]; intros ids t w Ht; [by rewrite app_nil_r|].
  cbn [resolveLoop]. rewrite bind_snd, filter_cons. simpl fst.
  destruct (decide (fp ∈ matched)) as [Hin|Hnin].
  - rewrite decide_False by (intros Hn; done). by apply IH.
  - rewrite decide_True by done. cbn [map]. simpl snd at 3.
    rewrite (IH (ids ++ [ID inst]) t); [by rewrite <- app_assoc|].
    unfold resolveInstance. rewrite bind_snd. pose proof (law_resolve (ID inst) now w) as Hlaw.
    pose proof (rel_resolve (ID inst) now w) as Hrel. destruct (Resolve (ID inst) now w) as [ok w1].
    simpl in Hrel. subst ok. cbn [fst snd negb]. rewrite bind_snd, quiet_notify, law_event, Hlaw, Ht.
    apply resolveIds_app.
Qed.

Lemma liveMap_lookup l fp i :
  (forall i j, i ∈ l -> j ∈ l -> Fingerprint_ i = Fingerprint_ j -> i = j) ->
  liveMap l !! fp = Some i <-> i ∈ l /\ Fingerprint_ i = fp.
Proof.
  unfold liveMap. induction l as [|x l IH] using rev_ind; intros Hu.
  - simpl. rewrite lookup_empty. split; [done | by intros [?%elem_of_nil _]].
  - rewrite foldl_snoc, elem_of_app, list_elem_of_singleton.
    assert (forall i j, i ∈ l -> j ∈ l -> Fingerprint_ i = Fingerprint_ j -> i = j) as Hu'.
    { intros a b Ha Hb. apply Hu; apply elem_of_app; by left. }
    destruct (decide (Fingerprint_ x = fp)) as [E|E].
    + rewrite <- E, lookup_insert_eq. split.
      * intros [= <-]. split; [by right | done].
      * intros [[Hi| ->] Ei]; [|done]. f_equal. symmetry. apply Hu; [by apply elem_of_app; left | | done].
        apply elem_of_app. right. by apply list_elem_of_singleton.
    + rewrite lookup_insert_ne by done. rewrite IH by done. split; [by intros [? ?]; auto|].
      intros [[Hi| ->] Ei]; [done|]. congruence.
Qed.

Lemma elem_of_live t r i : i ∈ pg_LiveByRule t r <-> i ∈ t /\ RuleID i = r /\ isLive i.
Proof. unfold pg_LiveByRule. rewrite list_elem_of_filter. tauto. Qed.

(** The series of a rule that are left after suppression. *)
Definition surviving (rule : Rule) (w : W) : option (list Series) :=
  match Query (r_Expr rule) w with
  | (Some series, w1) => Some (fst (fst (suppressNoise series w1)))
  | (None, _) => None
  end.

(** What the evaluation does to a row that was there before. *)
Definition settle (rule : Rule) (fps : list string) (now : Time) (i : Instance_) : Instance_ :=
  if decide (RuleID i = r_ID rule /\ isLive i /\ Fingerprint_ i ∉ fps) then resolved now i else i.

(** The ids resolved are those of the live rows not matched. *)
Lemma unmatched_ids t r (matched : gset string) id :
  table_ok t ->
  id ∈ map (fun fi => ID fi.2) (filter (fun fi => fi.1 ∉ matched) (rangeOrder (liveMap (pg_LiveByRule t r)))) <->
  exists i, i ∈ t /\ RuleID i = r /\ isLive i /\ (Fingerprint_ i ∉ matched) /\ ID i = id.
Proof.
  intros [_ Hu]. change (map ?f ?l) with (f <$> l). rewrite list_elem_of_fmap.
  assert (forall i j, i ∈ pg_LiveByRule t r -> j ∈ pg_LiveByRule t r -> Fingerprint_ i = Fingerprint_ j -> i = j) as Hu'.
  { intros i j (?&?&?)%elem_of_live (?&?&?)%elem_of_live. apply Hu; congruence. }
  split.
  - intros ([fp i] & -> & Hi). apply list_elem_of_filter in Hi as [Hm Hi]. simpl in *.
    rewrite law_range in Hi. apply elem_of_map_to_list, liveMap_lookup in Hi as [Hl <-]; [|done].
    apply elem_of_live in Hl as (?&?&?). by exists i.
  - intros (i & Hi & Hr & Hl & Hm & <-). exists (Fingerprint_ i, i). split; [done|].
    apply list_elem_of_filter. split; [done|]. rewrite law_range. apply elem_of_map_to_list, liveMap_lookup; [done|].
    split; [|done]. by apply elem_of_live.
Qed.

Lemma resolveIds_ok now ids t : table_ok t -> table_ok (resolveIds now ids t).
Proof.
  intros [Hnd Hu]. unfold resolveIds. split.
  - rewrite map_map. erewrite map_ext; [exact Hnd|]. intros i. by case_decide.
  - assert (forall i, i ∈ map (fun i => if decide (ID i ∈ ids /\ isLive i) then resolved now i else i) t ->
      isLive i -> i ∈ t) as Hin.
    { change (map ?f ?l) with (f <$> l). intros i (j & -> & Hj)%list_elem_of_fmap. by case_decide. }
    intros i j Hi Hj Li Lj. apply Hu; auto.
Qed.

(** C3. One evaluation of a rule brings its alerts in line with its series:
    when the store and the metrics backend answer, the evaluation succeeds,
    and afterwards the live alerts of the rule are exactly the fingerprints of
    the series left after suppression. Rows of the rule that no longer match
    are resolved, stamped with the evaluation's time; every other row there was
    (still matching, acknowledged, resolved before, or of another rule) is
    untouched; and each new row is a fresh alert of a fingerprint that was not
    live, no series firing twice and no unique index ever in the way. *)
Theorem evalRule_exact rule w :
  table_ok (table w) ->
  exists series now new,
    surviving rule w = Some series /\ fst (evalRule rule w) = true /\
    let fps := map (fpOf rule) series in
    let t' := table (snd (evalRule rule w)) in
    (forall fp, liveFp (r_ID rule) t' fp <-> fp ∈ fps) /\
    t' = map (settle rule fps now) (table w) ++ new /\
    (forall row, row ∈ new -> exists fp, freshRow rule now fp row /\ fp ∈ fps /\
       ~ liveFp (r_ID rule) (table w) fp) /\
    table_ok t'.
Proof.
  intros Hok. unfold surviving, evalRule. rewrite bind_fst, bind_snd.
  pose proof (rel_query (r_Expr rule) w) as Hq. pose proof (law_query (r_Expr rule) w) as E1.
  destruct (Query (r_Expr rule) w) as [[series0|] w1]; [|done]. cbn [fst snd] in *.
  rewrite bind_fst, bind_snd. pose proof (quiet_suppressNoise series0 w1) as E2.
  destruct (suppressNoise series0 w1) as [[series ifaces] w2]. cbn [fst snd] in *.
  rewrite bind_fst, bind_snd. pose proof (rel_live (r_ID rule) w2) as Hl. destruct (law_live (r_ID rule) w2) as [E3 Hlive].
  destruct (LiveByRule (r_ID rule) w2) as [[live|] w3]; [|done]. cbn [fst snd] in *. clear Hq Hl.
  specialize (Hlive live eq_refl). rewrite bind_fst, bind_snd. pose proof (law_now w3) as E4.
  destruct (Now w3) as [now w4]. cbn [fst snd] in *.
  assert (table w4 = table w) as Et by congruence. assert (live = pg_LiveByRule (table w) (r_ID rule)) as -> by congruence.
  clear Hlive E1 E2 E3 E4. set (t0 := table w) in *.
  assert (forall fp, is_Some (liveMap (pg_LiveByRule t0 (r_ID rule)) !! fp) <-> liveFp (r_ID rule) t0 fp) as Hm.
  { destruct Hok as [_ Hu].
    assert (forall i j, i ∈ pg_LiveByRule t0 (r_ID rule) -> j ∈ pg_LiveByRule t0 (r_ID rule) ->
      Fingerprint_ i = Fingerprint_ j -> i = j) as Hu'.
    { intros i j (?&?&?)%elem_of_live (?&?&?)%elem_of_live. apply Hu; congruence. }
    intros fp. split.
    - intros [i Hi]. apply liveMap_lookup in Hi as [(?&?&?)%elem_of_live <-]; [|done]. by exists i.
    - intros (i & Hi & [Hr Hf] & Hli). exists i. apply liveMap_lookup; [done|]. split; [by apply elem_of_live | done]. }
  assert (firing_inv rule now t0 ∅ w4 []) as Hinv0.
  { constructor; rewrite ?Et, ?app_nil_r; try done; [by intros ? ?%elem_of_nil | by left]. }
  pose proof (fireLoop_table rule now ifaces _ t0 series ∅ w4 [] Hm Hinv0) as [Ematched (new & Hinv)].
  rewrite bind_fst, bind_snd. set (matched := fst (fireLoop _ _ _ _ _ _ w4)) in *.
  set (w5 := snd (fireLoop _ _ _ _ _ _ w4)) in *. destruct Hinv as [Hok5 Ht5 Hnew Hmat Hlive5].
  rewrite bind_fst, bind_snd. set (ids := map (fun fi => ID fi.2) (filter (fun fi => fi.1 ∉ matched)
    (rangeOrder (liveMap (pg_LiveByRule t0 (r_ID rule)))))).
  assert (table (snd (resolveLoop rule now matched (rangeOrder (liveMap (pg_LiveByRule t0 (r_ID rule)))) w5))
    = resolveIds now ids (table w5)) as Efinal.
  { rewrite (resolveLoop_table rule now matched _ [] (table w5)); [done|].
    unfold resolveIds. rewrite <- (map_id (table w5)) at 1. apply map_ext. intros i.
    rewrite decide_False; [done|]. by intros [?%elem_of_nil _]. }
  set (w6 := snd (resolveLoop _ _ _ _ w5)) in *. cbn [fst snd mret M_ret].
  assert (forall fp, fp ∈ matched <-> fp ∈ map (fpOf rule) series) as Hfps.
  { intros fp. rewrite Ematched. set_solver. }
  exists series, now, new. split; [done|]. split; [done|]. cbv zeta.
  change (snd (@mret _ (M_ret W) bool true w6)) with w6. rewrite Efinal, Ht5.

  assert (resolveIds now ids (t0 ++ new) = map (settle rule (map (fpOf rule) series) now) t0 ++ new) as Er.
  { unfold resolveIds. rewrite map_app. rewrite Ht5 in Hok5. destruct Hok5 as [Hnd5 _].
    assert (forall id, id ∈ ids <-> exists i, i ∈ t0 /\ RuleID i = r_ID rule /\ isLive i /\
      (Fingerprint_ i ∉ matched) /\ ID i = id) as Hids by (intros id; by apply unmatched_ids).
    f_equal.
    - apply map_ext_in. intros i Hi%list_elem_of_In. unfold settle.
      assert (ID i ∈ ids /\ isLive i <-> RuleID i = r_ID rule /\ isLive i /\ Fingerprint_ i ∉ map (fpOf rule) series) as Hiff.
      { rewrite Hids. setoid_rewrite Hfps. split.
        - intros [(j & Hj & Hr & Hl & Hf & E) Hli]. assert (j = i) as -> by (apply (ids_inj t0); [by destruct Hok | done..]). done.
        - intros (Hr & Hl & Hf). split; [by exists i | done]. }
      destruct (decide (ID i ∈ ids /\ isLive i)), (decide (RuleID i = r_ID rule /\ _)); tauto.
    - rewrite <- (map_id new) at 2. apply map_ext_in. intros i Hi%list_elem_of_In. rewrite decide_False; [done|].
      rewrite Hids. intros [(j & Hj & _ & _ & _ & E) _]. rewrite map_app in Hnd5.
      apply NoDup_app in Hnd5 as (_ & Hd & _). apply (Hd (ID i)); [rewrite <- E|];
        change (map ID ?l) with (ID <$> l); by apply list_elem_of_fmap_2. }
  rewrite Er. split; [|split; [done|split]].
  - intros fp. rewrite liveFp_app. split.
    + intros [(i & Hi & [Hr Hf] & Hl)|(i & Hi & [Hr Hf] & Hl)].
      * change (map ?f ?l) with (f <$> l) in Hi. apply list_elem_of_fmap in Hi as (j & -> & Hj).
        unfold settle in *. case_decide as Hc; [done|]. destruct (decide (fp ∈ map (fpOf rule) series)); [done|].
        exfalso. apply Hc. by rewrite Hf.
      * destruct (Hnew i Hi) as (f & ([_ Ef] & _) & Hin & _). apply Hfps. congruence.
    + intros Hfp. pose proof (Hmat fp (proj2 (Hfps fp) Hfp)) as Hlf. rewrite Ht5 in Hlf. apply liveFp_app in Hlf.
      destruct Hlf as [(i & Hi & [Hr Hf] & Hl)|?]; [left|by right]. exists i. split; [|done].
      change (map ?f ?l) with (f <$> l). apply list_elem_of_fmap. exists i. split; [|done].
      unfold settle. rewrite decide_False; [done|]. rewrite Hf. by intros (_ & _ & []).
  - intros row Hr. destruct (Hnew row Hr) as (f & Hfresh & Hin & Hnl). exists f. by rewrite <- Hfps.
  - rewrite <- Er, <- Ht5. by apply resolveIds_ok.
Qed.
End lifecycle.
