(* ===== verification/AlertStore.v ===== *)
(** The evaluator of alerting/app at work on the store of
    alerting/adapters/postgres: the world of store.go discharges the laws
    evaluator.go relies on, and what is recorded and announced beside the
    table is stated of it. *)
From Stdlib Require Import ZArith Lia.
From stdpp Require Import base list gmap strings numbers sorting.
From S2P Require Import Prelude GoText World Alerts Alerting.

(** * The world of store.go

    The alert table and what is written beside it; the rules, the metrics, the
    inventory, the silences and the clock are what the outside says they are.
    Every collaborator is wired in. *)
Record PgWorld : Type := mkPgWorld {
  w_table : Table; w_events : list (string * string); w_published : list (string * Instance_);
  w_rules : list Rule; w_series : string -> list Series;
  w_inventory : string -> gmap string InterfaceInfo; w_ifids : string -> string -> string;
  w_exporters : string -> string * string; w_silences : list (option labels); w_clock : Time
}.
#[export] Instance eta_PgWorld : Eta PgWorld := fun w =>
  mkPgWorld (w_table w) (w_events w) (w_published w) (w_rules w) (w_series w) (w_inventory w)
    (w_ifids w) (w_exporters w) (w_silences w) (w_clock w).

Section pg.
Context (sha : bytes -> bytes).

(** A new id: here, one longer than any in use. *)
Definition idLength (i : Instance_) : nat := length (to_bytes (ID i)).
Definition freshID (w : PgWorld) : string :=
  of_bytes (replicate (S (foldr (fun i n => Nat.max (idLength i) n) O (w_table w))) (zb 97)).

Lemma freshID_fresh w i : i ∈ w_table w -> ID i <> freshID w.
Proof.
  intros Hi E. assert (idLength i <= foldr (fun i n => Nat.max (idLength i) n) O (w_table w))%nat as Hle.
  { induction (w_table w) as [|j t IH]; [by apply elem_of_nil in Hi|]. simpl.
    apply elem_of_cons in Hi as [->|Hi]; [lia|]. specialize (IH Hi). lia. }
  unfold idLength at 1 in Hle. rewrite E in Hle. unfold freshID in Hle.
  rewrite to_of_bytes, length_replicate in Hle. lia.
Qed.

#[local] Instance PgAlertWorld : AlertWorld PgWorld := {
  EnabledRules w := (Some (w_rules w), w);
  Query expr w := (Some (w_series w expr), w);
  LiveByRule ruleID w := (Some (pg_LiveByRule (w_table w) ruleID), w);
  RecentResolved ruleID fp since w := (pg_RecentResolved (w_table w) ruleID fp since, w);
  Fire i w := match pg_Fire (w_table w) i with
              | Some t => (true, w <| w_table := t |>) | None => (false, w) end;
  Resolve id at_ w := (true, w <| w_table := pg_Resolve (w_table w) id at_ |>);
  SetFlapping id w := (true, w <| w_table := pg_SetFlapping (w_table w) id |>);
  AppendEvent id e w := (tt, w <| w_events := w_events w ++ [(id, e)] |>);
  hasSilences := true; Silenced ls w := (Some (pg_Silenced (w_silences w) ls), w);
  hasPublish := true; Publish e i _ w := (tt, w <| w_published := w_published w ++ [(e, i)] |>);
  hasIfaces := true; InterfaceID dev idx w := (w_ifids w dev idx, w);
  Interfaces dev w := (w_inventory w dev, w);
  hasExporters := true; DeviceByExporter a w := (w_exporters w a, w);
  NewID w := (freshID w, w);
  Now w := (w_clock w, w);
  rangeOrder := map_to_list;
  sha256 := sha
}.

#[local] Instance PgWorldLaws : WorldLaws PgWorld.
Proof.
  refine {| table := w_table |}; try done.
  - intros ruleID w. split; [done|]. by intros l [= <-].
  - intros i w. simpl. by destruct (pg_Fire (w_table w) i).
  - intros w. split; [done|]. intros i Hi E. by apply (freshID_fresh w i).
Defined.

#[local] Instance PgReliable : Reliable PgWorld.
Proof.
  constructor; try done. intros i w Hf. simpl in *. by destruct (pg_Fire (w_table w) i).
Qed.

(** The flap policy: a series that fires again within fifteen minutes of
    its last resolution carries that alert's flap count plus one, and one that
    does not starts at zero. Below three flaps the alert is recorded as
    "fired" and announced, once, unless a silence covers its labels, which is
    recorded instead; from the third flap on it is recorded as "flap_start",
    its row is flapping, and nothing is announced. *)
Theorem flap_policy rule now ifaces s fp (w : PgWorld) :
  table_ok (w_table w) -> ~ liveFp (r_ID rule) (w_table w) fp ->
  let flaps := match pg_RecentResolved (w_table w) (r_ID rule) fp (now - FlapWindow) with
               | Some p => FlapCount p + 1 | None => 0 end in
  let w' := snd (fireSeries rule now ifaces s fp w) in
  exists row, w_table w' = w_table w ++ [row] /\ FlapCount row = flaps /\
    State row = (if FlapThreshold <=? flaps then StateFlapping else StateFiring) /\
    let silent := pg_Silenced (w_silences w) (Labels row) in
    w_published w' = w_published w ++
      (if (FlapThreshold <=? flaps) || silent then [] else [("alert.fired", row)]) /\
    w_events w' = w_events w ++ [(ID row, if FlapThreshold <=? flaps then "flap_start" else "fired")] ++
      (if negb (FlapThreshold <=? flaps) && silent then [(ID row, "silenced")] else []).
Proof.
  intros Hok Hnl flaps w'. subst w'. unfold fireSeries. rewrite bind_snd. cbn [RecentResolved PgAlertWorld fst snd].
  unfold time_Add. replace (now + - FlapWindow) with (now - FlapWindow) by lia. fold flaps.
  rewrite bind_snd. cbn [NewID PgAlertWorld fst snd]. rewrite bind_snd.
  set (i0 := newInstance rule now s fp (freshID w) flaps).
  assert (forall m : World.M PgWorld Instance_, m = enrichInterface s ifaces i0 -> snd (m w) = w) as H1.
  { intros m ->. unfold enrichInterface. by destruct (_ && _). }
  specialize (H1 _ eq_refl). pose proof (enrichInterface_same s ifaces i0 w) as S1.
  set (i1 := fst (enrichInterface s ifaces i0 w)) in *. rewrite H1, bind_snd.
  assert (snd (enrichExporter s i1 w) = w) as H2.
  { unfold enrichExporter. destruct (_ && _); [|done]. unfold mbind, M_bind. simpl. by destruct (w_exporters w _). }
  pose proof (enrichExporter_same s i1 w) as S2. set (i2 := fst (enrichExporter s i1 w)) in *. rewrite H2, bind_snd.
  assert (sameAlert i2 i0) as S by (by eapply sameAlert_trans). clearbody i2. clear S2.
  apply sameAlert_fields in S as (Sid & Srule & Sfp & Sst & Sat & Sfl & Sack & Sby & Scom & Sres).
  simpl in Sid, Srule, Sfp, Sst, Sat, Sfl, Sack, Sby, Scom, Sres.
  assert (pg_Fire (w_table w) i2 = Some (w_table w ++ [firedRow i2])) as Hfire.
  { apply pg_Fire_Some; [by rewrite Srule, Sfp|]. intros j Hj. rewrite Sid. by apply freshID_fresh. }
  simpl. rewrite Hfire. simpl.
  assert (forall j, j ∈ w_table w -> ID j <> ID (firedRow i2)) as Hfresh.
  { intros j Hj. simpl. rewrite Sid. by apply freshID_fresh. }
  destruct (FlapThreshold <=? flaps) eqn:Ef; simpl.
  - exists ((firedRow i2) <| State := StateFlapping |>). split_and!; try done.
    + change (ID i2) with (ID (firedRow i2)). exact (setFlapping_snoc (w_table w) (firedRow i2) Hfresh).
    + by rewrite app_nil_r.
  - assert (firedRow i2 = i2) as Erow by (destruct i2; unfold firedRow; simpl in *; by subst).
    rewrite Erow. unfold notify, mbind, M_bind, mret, M_ret. simpl.
    rewrite decide_False by (intros [E _]; congruence). simpl.
    exists i2. destruct (pg_Silenced (w_silences w) (Labels i2)) eqn:Es; simpl;
      split_and!; try done; by rewrite ?app_nil_r, <- ?app_assoc.
Qed.
End pg.

(** ** At work *)

Definition anyHash (b : bytes) : bytes := b.
Definition aRule : Rule := mkRule "r1" "link down" "threshold" "critical" "if_oper_status == 2" ∅ true true.
Definition onPort (dev idx : string) : Series := mkSeries (list_to_map [("device_id", dev); ("if_index", idx)]) 1.
Definition port (name : string) (ever : bool) : InterfaceInfo := mkInterfaceInfo name "" ever.
Definition aRow (id fp : string) (st : AlertState) (at_ : option Time) (flaps : Z) : Instance_ :=
  mkInstance id "r1" "link down" fp st "critical" "d1" "" ∅ 1 0 None "" "" at_ flaps.
Definition aPgWorld (t : Table) (inv : gmap string InterfaceInfo) (series : list Series) (sil : list (option labels))
    : PgWorld :=
  mkPgWorld t [] [] [aRule] (fun _ => series) (fun dev => if decide (dev = "d1") then inv else ∅)
    (fun _ _ => "") (fun _ => ("", "")) sil (1000 * Minute).
Definition aInventory : gmap string InterfaceInfo :=
  list_to_map [("1", port "ae0" true); ("2", port "ae0.10" true); ("3", port "ge-0/0/1" false)].

(** A trunk and its subinterface go down while an acknowledged alert's
    condition ends. *)
Definition trunkDown : PgWorld :=
  aPgWorld [aRow "a" "gone" StateAcked None 0] aInventory [onPort "d1" "1"; onPort "d1" "2"] [].
Lemma trunkDown_ok : table_ok (w_table trunkDown).
Proof. split; [by decide_by_compute|]. by intros i j ->%list_elem_of_singleton ->%list_elem_of_singleton. Qed.

Lemma evalRule_exact_witness :
  table_ok (w_table trunkDown) /\
  @surviving _ (PgAlertWorld anyHash) aRule trunkDown = Some [onPort "d1" "1"] /\
  fst (@evalRule _ (PgAlertWorld anyHash) aRule trunkDown) = true /\
  map State (w_table (snd (@evalRule _ (PgAlertWorld anyHash) aRule trunkDown))) = [StateResolved; StateFiring].
Proof.
  split; [exact trunkDown_ok|].
  destruct (@evalRule_exact _ (PgAlertWorld anyHash) (PgWorldLaws anyHash) (PgReliable anyHash) aRule
    trunkDown trunkDown_ok) as (series & now & new & Es & Hret & _).
  split; [by vm_compute|]. split; [exact Hret|]. by vm_compute.
Defined.

Lemma suppressNoise_spec_witness :
  let inv dev := if decide (dev = "d1") then aInventory else ∅ in
  (forall dev, inv dev !! "" = None) /\
  exists out ifaces, @suppressNoise _ (PgAlertWorld anyHash)
      [onPort "d1" "1"; onPort "d1" "2"; onPort "d1" "3"; onPort "d2" "3"] trunkDown = ((out, ifaces), trunkDown) /\
    out = [onPort "d1" "1"; onPort "d2" "3"].
Proof.
  intros inv. assert (forall dev, inv dev !! "" = None) as Hidx by (intros dev; subst inv; simpl; by case_decide).
  split; [exact Hidx|].
  destruct (@suppressNoise_spec _ (PgAlertWorld anyHash) inv trunkDown (fun _ => eq_refl) Hidx eq_refl
    [onPort "d1" "1"; onPort "d1" "2"; onPort "d1" "3"; onPort "d2" "3"]) as (out & ifaces & E & _).
  exists out, ifaces. split; [exact E|]. vm_compute in E. by injection E.
Defined.

(** Twice flapped, resolved a minute ago, firing again. *)
Definition flapper : PgWorld :=
  aPgWorld [aRow "a" (Fingerprint anyHash "r1" (s_Labels (onPort "d1" "1"))) StateResolved (Some (999 * Minute)) 2]
    aInventory [] [].

Lemma flap_policy_witness :
  let fp := Fingerprint anyHash "r1" (s_Labels (onPort "d1" "1")) in
  table_ok (w_table flapper) /\ ~ liveFp "r1" (w_table flapper) fp /\
  exists row, w_table (snd (@fireSeries _ (PgAlertWorld anyHash) aRule (1000 * Minute) ∅ (onPort "d1" "1") fp flapper))
    = w_table flapper ++ [row] /\ State row = StateFlapping.
Proof.
  intros fp. assert (table_ok (w_table flapper)) as Hok.
  { split; [by decide_by_compute|]. by intros i j ->%list_elem_of_singleton ->%list_elem_of_singleton. }
  assert (~ liveFp "r1" (w_table flapper) fp) as Hnl.
  { intros (i & ->%list_elem_of_singleton & _ & Hl). by apply Hl. }
  split; [exact Hok|]. split; [exact Hnl|].
  destruct (flap_policy anyHash aRule (1000 * Minute) ∅ (onPort "d1" "1") fp flapper Hok Hnl)
    as (row & Et & _ & Es & _).
  exists row. split; [exact Et|]. rewrite Es. by vm_compute.
Defined.

(** A trunk never seen in service hides the fault of a subinterface that has
    been: the trunk is dropped as never in service, the child as its
    dependent, and nothing alerts. *)
Definition darkTrunk : gmap string InterfaceInfo :=
  list_to_map [("1", port "ae0" false); ("2", port "ae0.10" true)].
Lemma hidden_fault :
  @surviving _ (PgAlertWorld anyHash) aRule (aPgWorld [] darkTrunk [onPort "d1" "1"; onPort "d1" "2"] []) = Some [].
Proof. by vm_compute. Qed.

(** A flapping alert's resolution is announced, though its firing was not. *)
Lemma flapping_resolution_announced :
  map fst (w_published (snd (@evalRule _ (PgAlertWorld anyHash) aRule
    (aPgWorld [aRow "a" "gone" StateFlapping None 3] ∅ [] [])))) = ["alert.resolved"].
Proof. by vm_compute. Qed.
