(* ===== verification/Notify.v ===== *)
(** Package notify/app (dispatch.go): routing alert events to channels, each
    delivery retried by [Do]. *)
From Stdlib Require Import ZArith Lia.
From stdpp Require Import base list gmap strings numbers.
From S2P Require Import Prelude World Errx Retry Wire.

(** A JSON value, the [any] of a channel's configuration. *)
Inductive Json : Type :=
  | JNull | JBool (b : bool) | JNumber (bits : Z) | JString (s : string)
  | JArray (l : list Json) | JObject (l : list (string * Json)).

Record Channel : Type := mkChannel {
  ch_ID : string; ch_Name : string; ch_Kind : string; ch_Config : list (string * Json);
  ch_Secret : gmap string string
}.

(** What [Record] is told of one delivery. *)
Record DeliveryRecord : Type := mkDeliveryRecord {
  dr_Alert : string; dr_Channel : string; dr_Event : string; dr_Status : string;
  dr_Attempts : Z; dr_LastErr : string
}.

(** The collaborators of a [Dispatcher]. A nil slice of channels is [None]. *)
Class NotifyWorld (W : Type) : Type := {
  EnabledChannels : M W (option (list Channel) + Err);
  hasSender : string -> bool; Send : Channel -> AlertEvent -> M W (option Err);
  hasDelivery : bool; RecordDelivery : DeliveryRecord -> M W unit;
  NotifyWait : Duration -> M W (option Err);
  NotifyNow : M W Time
}.

Record Dispatcher : Type := mkDispatcher { cache : option (list Channel); cacheAt : Time }.

Definition deliveryPolicy : Policy := mkPolicy 5 (2 * Second) (60 * Second).

Section dispatcher.
Context {W : Type} `{NotifyWorld W}.

Definition channels (d : Dispatcher) : M W ((option (list Channel) + Err) * Dispatcher) :=
  now ← NotifyNow;
  if (time_Sub now (cacheAt d) <? Minute) && bool_decide (is_Some (cache d)) then mret (inl (cache d), d) else
  r ← EnabledChannels;
  match r with
  | inr e => mret (inr (kindError KindTransient (ErrWrap "channels" e)), d)
  | inl chs => now ← NotifyNow; mret (inl chs, mkDispatcher chs now)
  end.

(** The retried call: it counts its attempts. *)
Definition sendCounting (ch : Channel) (ev : AlertEvent) : M (W * Z) (option Err) := counting (Send ch ev).

Definition deliver (fuel : nat) (ev : AlertEvent) (ch : Channel) : M W (outcome unit) :=
  if negb (hasSender (ch_Kind ch)) then mret (Ret tt) else fun w =>
  match Do (sendCounting ch ev) (fun d => lifted (NotifyWait d)) deliveryPolicy fuel (w, 0) with
  | (Ret err, (w, attempts)) =>
      let status := match err with None => "ok" | Some _ => "failed" end in
      let lastErr := match err with None => "" | Some e => Err_Error e end in
      (if hasDelivery then
         _ ← RecordDelivery (mkDeliveryRecord (ev_AlertID ev) (ch_ID ch) (ev_Event ev) status attempts lastErr);
         mret (Ret tt)
       else mret (Ret tt)) w
  | (Panic, (w, _)) => (Panic, w)
  | (OutOfFuel, (w, _)) => (OutOfFuel, w)
  end.

Fixpoint deliverAll (fuel : nat) (ev : AlertEvent) (chs : list Channel) : M W (outcome unit) :=
  match chs with
  | [] => mret (Ret tt)
  | ch :: chs => _ ←? deliver fuel ev ch; deliverAll fuel ev chs
  end.

Definition Handle (fuel : nat) (d : Dispatcher) (ev : AlertEvent) : M W (outcome Dispatcher) :=
  if bool_decide (ev_Severity ev = "info") then mret (Ret d) else
  '(r, d) ← channels d;
  match r with
  | inr _ => mret (Ret d)
  | inl chs => _ ←? deliverAll fuel ev (default [] chs); mret (Ret d)
  end.
End dispatcher.

(** ** Delivery logs *)

Abbreviation SendLog := (list (string * option Err)).

(** A world that remembers what was sent, and the records written. *)
Class NotifyLaws (W : Type) `{NotifyWorld W} : Type := {
  sends : W -> SendLog; records : W -> list DeliveryRecord;
  law_send ch ev w : sends (snd (Send ch ev w)) = sends w ++ [(ch_ID ch, fst (Send ch ev w))] /\
    records (snd (Send ch ev w)) = records w;
  law_wait d w : sends (snd (NotifyWait d w)) = sends w /\ records (snd (NotifyWait d w)) = records w;
  law_record r w : sends (snd (RecordDelivery r w)) = sends w /\
    records (snd (RecordDelivery r w)) = records w ++ [r];
  law_now w : sends (snd (NotifyNow w)) = sends w /\ records (snd (NotifyNow w)) = records w;
  law_channels w : sends (snd (EnabledChannels w)) = sends w /\ records (snd (EnabledChannels w)) = records w
}.

Section deliveries.
Context {W : Type} `{NotifyLaws W}.
Context (ev : AlertEvent).

(** One delivery: transient failures, then a last attempt, at most five in
    all; the record counts them and tells how the last one ended. *)
Definition delivery (ch : Channel) (log : SendLog) (r : DeliveryRecord) : Prop :=
  exists failed last_, log = map (fun e => (ch_ID ch, Some e)) failed ++ [(ch_ID ch, last_)] /\
    Forall (fun e => retryable (Some e) = true) failed /\ len log <= 5 /\
    dr_Alert r = ev_AlertID ev /\ dr_Channel r = ch_ID ch /\ dr_Event r = ev_Event ev /\
    dr_Attempts r = len log /\ dr_Status r = match last_ with None => "ok" | Some _ => "failed" end.

Let fn ch := sendCounting (W := W) ch ev.
Let wait (d : Duration) := lifted (NotifyWait (W := W) d).

Lemma sendCounting_spec ch s r s' :
  fn ch s = (r, s') -> sends s'.1 = sends s.1 ++ [(ch_ID ch, r)] /\ records s'.1 = records s.1 /\ s'.2 = s.2 + 1.
Proof.
  unfold fn, sendCounting, counting. destruct (law_send ch ev s.1) as [E1 E2].
  destruct (Send ch ev s.1) as [a w]. by intros [= <- <-].
Qed.

Lemma waiting_spec d s r s' :
  wait d s = (r, s') -> sends s'.1 = sends s.1 /\ records s'.1 = records s.1 /\ s'.2 = s.2.
Proof.
  unfold wait, lifted. destruct (law_wait d s.1) as [E1 E2]. destruct (NotifyWait d s.1) as [a w].
  by intros [= <- <-].
Qed.

Lemma retries_log ch s l s' :
  retries (fn ch) wait s l s' ->
  exists failed, length failed = length l /\ Forall (fun e => retryable (Some e) = true) failed /\
    sends s'.1 = sends s.1 ++ map (fun e => (ch_ID ch, Some e)) failed /\
    records s'.1 = records s.1 /\ s'.2 = s.2 + len l.
Proof.
  induction 1 as [s|s e s1 d s2 l s' Hf Hr Hw _ IH].
  { exists []. rewrite len_nil, Z.add_0_r. simpl. by rewrite app_nil_r. }
  apply sendCounting_spec in Hf as (E1 & E2 & E3). apply waiting_spec in Hw as (F1 & F2 & F3).
  destruct IH as (failed & Hl & Hall & G1 & G2 & G3). exists (e :: failed). split; [simpl; congruence|].
  split; [by constructor|]. rewrite G1, F1, E1, <- app_assoc. split; [done|]. split; [congruence|].
  rewrite len_cons. lia.
Qed.

Lemma length_delays p n d : length (delays p n d) = n.
Proof. revert d. induction n as [|n IH]; intros d; simpl; [done | by rewrite IH]. Qed.

Lemma deliver_spec ch w :
  hasDelivery = true ->
  exists w', deliver 5 ev ch w = (Ret tt, w') /\
    if hasSender (ch_Kind ch) then
      exists log r, delivery ch log r /\ sends w' = sends w ++ log /\ records w' = records w ++ [r]
    else w' = w.
Proof.
  intros Hd. unfold deliver. destruct (hasSender (ch_Kind ch)); simpl; [|by exists w].
  destruct (Do_terminates (fn ch) wait deliveryPolicy (w, 0) eq_refl) as (n & sl & r & s' & E & Hn & Ht & He).
  change (Do (sendCounting ch ev) _ deliveryPolicy 5 (w, 0)) with (Do (fn ch) wait deliveryPolicy 5 (w, 0)).
  change (Z.to_nat (MaxAttempts deliveryPolicy)) with 5%nat in E. simpl in Hn. rewrite E. destruct s' as [w' k].
  apply retries_log in Ht as (failed & Hlen & Hall & E1 & E2 & E3). rewrite length_delays in Hlen.
  unfold len in E3. rewrite length_delays in E3. simpl in E1, E2, E3.
  assert (exists last_, sends w' = (sends w ++ map (fun e => (ch_ID ch, Some e)) failed) ++ [(ch_ID ch, last_)] /\
    records w' = records w /\ k = Z.of_nat n + 1 /\ (last_ = None <-> r = None)) as (last_ & F1 & F2 & F3 & F4).
  { destruct He as [[Hf _]|[(Hf & _)|(e & w1 & c & Hf & _ & _ & Hw & ->)]].
    1,2: apply sendCounting_spec in Hf as (G1 & G2 & G3); simpl in *; exists r; rewrite G1, E1; split_and!; [done|congruence|lia|done..].
    apply sendCounting_spec in Hf as (G1 & G2 & G3). apply waiting_spec in Hw as (K1 & K2 & K3). simpl in *.
    exists (Some e). rewrite K1, G1, E1. split_and!; [done|congruence|lia|done]. }
  rewrite Hd. set (rec := mkDeliveryRecord _ _ _ _ _ _). rewrite (bind_eq _ _ _ _ _ (surjective_pairing _)).
  destruct (law_record rec w') as [L1 L2]. eexists. split; [done|].
  exists (map (fun e => (ch_ID ch, Some e)) failed ++ [(ch_ID ch, last_)]), rec.
  rewrite L1, L2, F1, F2, <- app_assoc. split; [|done]. exists failed, last_.
  assert (len (map (fun e => (ch_ID ch, Some e)) failed ++ [(ch_ID ch, last_)]) = Z.of_nat n + 1) as Hlog.
  { unfold len. rewrite length_app, length_map. simpl. lia. }
  rewrite Hlog. split_and!; try done; [lia|]. simpl. destruct last_, r; naive_solver.
Qed.

Lemma deliverAll_spec chs : forall w,
  hasDelivery = true ->
  exists w' l, deliverAll 5 ev chs w = (Ret tt, w') /\
    map (fun t => t.1.1) l = filter (fun ch => hasSender (ch_Kind ch)) chs /\
    Forall (fun t => delivery t.1.1 t.1.2 t.2) l /\
    sends w' = sends w ++ concat (map (fun t => t.1.2) l) /\ records w' = records w ++ map snd l.
Proof.
  induction chs as [|ch chs IH]; intros w Hd; cbn [deliverAll].
  { exists w, []. simpl. by rewrite !app_nil_r. }
  destruct (deliver_spec ch w Hd) as (w1 & E & H1). rewrite (obind_ret _ _ _ _ _ E).
  destruct (IH w1 Hd) as (w2 & l & E2 & Hl & Hall & S2 & R2). rewrite filter_cons.
  destruct (hasSender (ch_Kind ch)) eqn:Es.
  - destruct H1 as (log & r & Hdel & S1 & R1). exists w2, ((ch, log, r) :: l). rewrite decide_True by done.
    split; [done|]. split; [simpl; by rewrite Hl|]. split; [by constructor|]. simpl.
    by rewrite S2, R2, S1, R1, <- !app_assoc.
  - subst w1. exists w2, l. rewrite decide_False by (by intros []). done.
Qed.

(** Every alert event is delivered to every channel, or recorded as not
    delivered: for an event that is not informational, and once the channels
    are known, [Handle] makes one delivery to each channel with a sender, in
    order, of at most five attempts, all but the last of which failed
    transiently, and writes one record of each, with the number of attempts
    and the outcome of the last. No failure of a channel keeps the event from
    the next one. An informational event is sent nowhere. *)
Theorem Handle_delivers d w :
  hasDelivery = true ->
  exists w' d', Handle 5 d ev w = (Ret d', w') /\
    let r := fst (fst (channels d w)) in
    if bool_decide (ev_Severity ev = "info") then w' = w /\ d' = d else
    match r with
    | inr _ => sends w' = sends w /\ records w' = records w
    | inl chs => exists l, map (fun t => t.1.1) l = filter (fun ch => hasSender (ch_Kind ch)) (default [] chs) /\
        Forall (fun t => delivery t.1.1 t.1.2 t.2) l /\
        sends w' = sends w ++ concat (map (fun t => t.1.2) l) /\ records w' = records w ++ map snd l
    end.
Proof.
  intros Hd. unfold Handle. destruct (bool_decide (ev_Severity ev = "info")); [by exists w, d|].
  assert (sends (snd (channels d w)) = sends w /\ records (snd (channels d w)) = records w) as [E1 E2].
  { unfold channels. rewrite bind_snd. destruct (law_now w) as [N1 N2].
    destruct (_ && _); [done|]. rewrite bind_snd. destruct (law_channels (snd (NotifyNow w))) as [C1 C2].
    destruct (EnabledChannels (snd (NotifyNow w))) as [[chs|e] w1]; simpl in *; [|by rewrite C1, C2, N1, N2].
    rewrite bind_snd. destruct (law_now w1) as [M1 M2]. simpl. by rewrite M1, M2, C1, C2, N1, N2. }
  destruct (channels d w) as [[r d'] w1] eqn:Ec. rewrite (bind_eq _ _ _ _ _ Ec). simpl in E1, E2.
  destruct r as [chs|e]; simpl; [|by exists w1, d'].
  destruct (deliverAll_spec (default [] chs) w1 Hd) as (w2 & l & E & Hl & Hall & S & R).
  exists w2, d'. rewrite (obind_ret _ _ _ _ _ E). split; [done|]. exists l. by rewrite S, R, E1, E2.
Qed.
End deliveries.

(** ** At work *)

Section example.
(** A channel answers from a script; a wait is never cut short. *)
Record LogWorld : Type := mkLogWorld {
  script : list (option Err); lw_sends : SendLog; lw_records : list DeliveryRecord
}.
Definition twoChannels : list Channel :=
  [mkChannel "c1" "ops" "email" [] ∅; mkChannel "c2" "fax" "fax" [] ∅; mkChannel "c3" "chat" "slack" [] ∅].
#[local] Instance LogNotifyWorld : NotifyWorld LogWorld := {
  EnabledChannels w := (inl (Some twoChannels), w);
  hasSender k := negb (bool_decide (k = "fax"));
  Send ch _ w := (default None (head (script w)),
    mkLogWorld (tail (script w)) (lw_sends w ++ [(ch_ID ch, default None (head (script w)))]) (lw_records w));
  hasDelivery := true;
  RecordDelivery r w := (tt, mkLogWorld (script w) (lw_sends w) (lw_records w ++ [r]));
  NotifyWait _ w := (None, w); NotifyNow w := (0, w)
}.
#[local] Instance LogNotifyLaws : NotifyLaws LogWorld.
Proof. refine {| sends := lw_sends; records := lw_records |}; done. Defined.

Definition anEvent : AlertEvent := mkAlertEvent "alert.fired" "al1" "r1" "" "critical" "firing" "" ∅ 0 0 "" "".
Definition busy : Err := New KindTransient "busy".
Definition refused_ : Err := New KindInvalid "bad address".

(** The mail server is busy twice; the chat refuses. *)
Lemma Handle_delivers_witness :
  hasDelivery (W := LogWorld) = true /\
  exists w' d', Handle 5 (mkDispatcher None zeroTime) anEvent (mkLogWorld [Some busy; Some busy; None; Some refused_] [] [])
      = (Ret d', w') /\
    map (fun r => (dr_Channel r, dr_Status r, dr_Attempts r)) (lw_records w') = [("c1", "ok", 3); ("c3", "failed", 1)].
Proof.
  split; [done|].
  destruct (@Handle_delivers LogWorld LogNotifyWorld LogNotifyLaws anEvent (mkDispatcher None zeroTime)
    (mkLogWorld [Some busy; Some busy; None; Some refused_] [] []) eq_refl) as (w' & d' & E & _).
  exists w', d'. split; [exact E|]. vm_compute in E. injection E as _ Ew. rewrite <- Ew. by vm_compute.
Defined.
End example.
