(* ===== verification/Ingest.v ===== *)
(** Package metrics/app (ingest.go): enriching metric batches with the labels
    of their devices and writing them out, at least once. *)
From Stdlib Require Import ZArith Lia.
From stdpp Require Import base list gmap strings numbers.
From S2P Require Import Prelude GoText World Errx Retry Wire.

Record DeviceLabels : Type := mkDeviceLabels { dl_Device : string; dl_Site : string; dl_Vendor : string }.

Record EnrichedSample : Type := mkEnrichedSample {
  es_Name : string; es_Labels : gmap string string; es_TSMillis : Z; es_Value : Z
}.

(** The collaborators of an [Ingester] and of the delivery it handles. *)
Class IngestWorld (W : Type) : Type := {
  Snapshot : M W (option (gmap string DeviceLabels));
  WriteSeries : list EnrichedSample -> M W (option Err);
  IngestWait : Duration -> M W (option Err);
  Ack : M W unit; Nack : bool -> M W unit; Reject : bool -> M W unit
}.

(** [v[:120]]: the first 120 bytes. *)
Definition sanitizeLabel (v : string) : string :=
  if 120 <? slen v then of_bytes (take 120 (to_bytes v)) else v.

(** One sample with its device's labels. The loop over the sample's own labels
    writes each key once, so its order does not matter. *)
Definition enrichSample (snap : gmap string DeviceLabels) (s : Sample) : EnrichedSample :=
  let labels := (sanitizeLabel <$> sm_Labels s) ∪ {["device_id" := sm_DeviceID s]} in
  let labels := match snap !! sm_DeviceID s with
    | Some dl =>
        let labels := <["site" := dl_Site dl]> (<["device" := dl_Device dl]> labels) in
        if decide (dl_Vendor dl = "") then labels else <["vendor" := dl_Vendor dl]> labels
    | None => labels
    end in
  mkEnrichedSample (sm_Name s) labels (sm_TSMillis s) (sm_Value s).

Definition writePolicy : Policy := mkPolicy 10 (250 * Millisecond) (30 * Second).

Section ingester.
Context {W : Type} `{IngestWorld W}.

(** [refresh]: the snapshot afterwards. *)
Definition refresh (snap : gmap string DeviceLabels) : M W (gmap string DeviceLabels * bool) :=
  o ← Snapshot; mret (match o with Some snap => (snap, true) | None => (snap, false) end).

(** [handle]: the delivery's body as [json.Unmarshal] left it, [None] for
    malformed. *)
Definition handle (fuel : nat) (snap : gmap string DeviceLabels) (body : option MetricBatch) : M W (outcome unit) :=
  match body with
  | None => _ ← Reject false; mret (Ret tt)
  | Some batch =>
      let enriched := map (enrichSample snap) (mb_Samples batch) in
      err ←? Do (WriteSeries enriched) IngestWait writePolicy fuel;
      match err with
      | Some _ => _ ← Nack (bool_decide (kindOf err = KindTransient)); mret (Ret tt)
      | None => _ ← Ack; mret (Ret tt)
      end
  end.

(** A batch is settled exactly once, and acknowledged only when it has been
    written: [handle] ends after at most ten writes of the whole enriched
    batch, all but the last failing transiently; it acknowledges when the last
    write succeeded, and otherwise hands the batch back, to be queued again if
    the error it ended on is transient. *)
Theorem handle_at_least_once snap batch w :
  let enriched := map (enrichSample snap) (mb_Samples batch) in
  exists n wl w', (n < 10)%nat /\
    retries (WriteSeries enriched) IngestWait w (delays writePolicy n (250 * Millisecond)) wl /\
    ((WriteSeries enriched wl = (None, w') /\ handle 10 snap (Some batch) w = (Ret tt, snd (Ack w'))) \/
     (exists e, handle 10 snap (Some batch) w
          = (Ret tt, snd (Nack (bool_decide (kindOf (Some e) = KindTransient)) w')) /\
        (WriteSeries enriched wl = (Some e, w') \/
         exists e' w1 d, WriteSeries enriched wl = (Some e', w1) /\ IngestWait d w1 = (Some e, w')))).
Proof.
  intros enriched. unfold handle. fold enriched.
  destruct (Do_terminates (WriteSeries enriched) IngestWait writePolicy w eq_refl) as (n & wl & r & w' & E & Hn & Ht & He).
  change (Z.to_nat (MaxAttempts writePolicy)) with 10%nat in E. simpl in Hn.
  exists n, wl, w'. split; [lia|]. split; [exact Ht|]. rewrite (obind_ret _ _ _ _ _ E).
  assert (forall b, (_ ← Nack b; mret (Ret tt)) w' = (Ret tt, snd (Nack b w'))) as HN.
  { intros b. unfold mbind, M_bind. by destruct (Nack b w') as [[] ?]. }
  assert ((_ ← Ack; mret (Ret tt)) w' = (Ret tt, snd (Ack w'))) as HA.
  { unfold mbind, M_bind. by destruct (Ack w') as [[] ?]. }
  destruct He as [[Hf _]|[(Hf & Hr & _)|(e & w1 & c & Hf & _ & _ & Hw & ->)]].
  - destruct r as [e|]; [right; exists e; rewrite HN; by split; [|left] | left; by rewrite HA].
  - destruct r as [e|]; [right; exists e; rewrite HN; by split; [|left] | left; by rewrite HA].
  - right. exists c. rewrite HN. split; [done|]. right. eauto 6.
Qed.
End ingester.

(** ** Labels *)

Lemma sanitizeLabel_bound v : slen (sanitizeLabel v) <= 120.
Proof.
  unfold sanitizeLabel. destruct (Z.ltb_spec 120 (slen v)) as [Hlt|Hge]; [|done].
  rewrite slen_of_bytes. unfold len. rewrite length_take. lia.
Qed.

(** What a series is labelled with: the device, site and vendor the inventory
    knows replace whatever the sample says of them, every other label is the
    sample's own cut to 120 bytes, and [device_id] is the sample's device
    unless the sample has a label of that name. *)
Theorem enriched_labels snap s :
  let ls := es_Labels (enrichSample snap s) in
  let own k := sanitizeLabel <$> sm_Labels s !! k in
  (forall k, k <> "device_id" -> k <> "device" -> k <> "site" -> k <> "vendor" -> ls !! k = own k) /\
  ls !! "device_id" = Some (default (sm_DeviceID s) (own "device_id")) /\
  match snap !! sm_DeviceID s with
  | Some dl => ls !! "device" = Some (dl_Device dl) /\ ls !! "site" = Some (dl_Site dl) /\
      (dl_Vendor dl <> "" -> ls !! "vendor" = Some (dl_Vendor dl)) /\
      (dl_Vendor dl = "" -> ls !! "vendor" = own "vendor")
  | None => ls !! "device" = own "device" /\ ls !! "site" = own "site" /\ ls !! "vendor" = own "vendor"
  end.
Proof.
  set (base := (sanitizeLabel <$> sm_Labels s) ∪ {["device_id" := sm_DeviceID s]} : gmap string string).
  assert (forall k, k <> "device_id" -> base !! k = sanitizeLabel <$> sm_Labels s !! k) as Hb.
  { intros k Hk. unfold base. rewrite lookup_union, lookup_fmap, lookup_singleton_ne by done. by destruct (sm_Labels s !! k). }
  assert (base !! "device_id" = Some (default (sm_DeviceID s) (sanitizeLabel <$> sm_Labels s !! "device_id"))) as Hd.
  { unfold base. rewrite lookup_union, lookup_fmap, lookup_singleton_eq. by destruct (sm_Labels s !! _). }
  cbv zeta. unfold enrichSample. simpl. fold base. destruct (snap !! sm_DeviceID s) as [dl|]; [|split_and!; [..|by rewrite Hb|by rewrite Hb|by rewrite Hb]; auto].
  case_decide; simpl; split_and!; intros; rewrite ?lookup_insert_ne by done; rewrite ?lookup_insert_eq;
    solve [done | by rewrite Hb | congruence].
Qed.

(** ** At work *)

Section example.
Record QueueWorld : Type := mkQueueWorld { q_script : list (option Err); q_done : bool; q_settled : list string }.
#[local] Instance QueueIngestWorld : IngestWorld QueueWorld := {
  Snapshot w := (Some ∅, w);
  WriteSeries _ w := (default None (head (q_script w)), mkQueueWorld (tail (q_script w)) (q_done w) (q_settled w));
  IngestWait _ w := (if q_done w then Some (ErrText "context canceled") else None, w);
  Ack w := (tt, mkQueueWorld (q_script w) (q_done w) (q_settled w ++ ["ack"]));
  Nack b w := (tt, mkQueueWorld (q_script w) (q_done w) (q_settled w ++ [if b : bool then "requeue" else "drop"]));
  Reject _ w := (tt, mkQueueWorld (q_script w) (q_done w) (q_settled w ++ ["reject"]))
}.

(** A batch caught in a retry when the service is told to stop is not queued
    again: the context's error is not a transient one. *)
Lemma cancelled_batch_dropped :
  q_settled (snd (handle 10 ∅ (Some (mkMetricBatch "p" "s" []))
    (mkQueueWorld [Some (New KindTransient "unreachable")] true []))) = ["drop"].
Proof. by vm_compute. Qed.

(** A sample that carries a [device_id] label is filed under it. *)
Lemma device_id_overridden :
  es_Labels (enrichSample ∅ (mkSample "d1" "m" {["device_id" := "d2"]} 0 0)) !! "device_id" = Some "d2".
Proof. by vm_compute. Qed.
End example.
