(* ===== verification/Lockout.v ===== *)
(** Package iam/adapters/lockout: throttling of failed logins, in memory and
    in Redis.

    The mutex of [Memory] is held for the whole of each operation, so an
    operation is one transition, at one reading of the clock. Redis is a
    collaborator: [RedisWorld] has the commands used, [RedisLaws] what they are
    documented to do with a counter that expires. *)
From Stdlib Require Import ZArith Lia.
From stdpp Require Import base list gmap strings numbers.
From S2P Require Import Prelude World Errx.

Definition Threshold : Z := 5.
Definition Window : Duration := 15 * Minute.

(** ** Memory *)

Record entry : Type := mkEntry { count : Z; until : Time }.
Abbreviation Memory := (gmap string entry).

Definition NewMemory : Memory := ∅.

(** [get]: the entry, and the map with it in. *)
Definition Memory_get (m : Memory) (now : Time) (k : string) : entry * Memory :=
  match m !! k with
  | Some e => if until e <? now then let e := mkEntry 0 (time_Add now Window) in (e, <[k := e]> m) else (e, m)
  | None => let e := mkEntry 0 (time_Add now Window) in (e, <[k := e]> m)
  end.

Definition Memory_Locked (m : Memory) (now : Time) (k : string) : bool :=
  match m !! k with Some e => (now <? until e) && (Threshold <=? count e) | None => false end.

Definition Memory_RecordFailure (m : Memory) (now : Time) (k : string) : bool * Memory :=
  let '(e, m) := Memory_get m now k in
  let e := mkEntry (count e + 1) (time_Add now Window) in
  (count e =? Threshold, <[k := e]> m).

Definition Memory_Reset (m : Memory) (k : string) : Memory := delete k m.

(** ** Redis *)

(** A reply of [Get(...).Int()]: a number, [redis.Nil], or an error. *)
Inductive IntReply : Type := IntValue (n : Z) | RedisNil | RedisError (e : Err).

Class RedisWorld (W : Type) : Type := {
  GetInt : string -> M W IntReply;
  IncrExpire : string -> Duration -> M W (Z + Err);
  Del : string -> M W (option Err)
}.

Definition key (k : string) : string := "lockout:" +:+ k.

Section redis.
Context {W : Type} `{RedisWorld W}.

Definition Redis_Locked (k : string) : M W (bool * option Err) :=
  r ← GetInt (key k);
  mret match r with
       | RedisNil => (false, None)
       | IntValue n => (Threshold <=? n, None)
       | RedisError e => (false, Some e)
       end.

Definition Redis_RecordFailure (k : string) : M W (bool * option Err) :=
  r ← IncrExpire (key k) Window;
  mret match r with inl n => (n =? Threshold, None) | inr e => (false, Some e) end.

Definition Redis_Reset (k : string) : M W (option Err) := Del (key k).
End redis.

(** * The policy *)

(** What can happen to one key. *)
Inductive event : Type := Failed (at_ : Time) | Succeeded.

Definition play (m : Memory) (k : string) (e : event) : Memory :=
  match e with
  | Failed at_ => snd (Memory_RecordFailure m at_ k)
  | Succeeded => Memory_Reset m k
  end.

(** The failures that count: those since the last success with no more than
    the window between one and the next, newest first. *)
Fixpoint streak (h : list event) (acc : list Time) : list Time :=
  match h with
  | [] => acc
  | Failed at_ :: h => streak h (match acc with
      | last :: _ => if time_Add last Window <? at_ then [at_] else at_ :: acc
      | [] => [at_] end)
  | Succeeded :: h => streak h []
  end.

(** The keys are independent: what is done to the others is any map that
    keeps this one's entry. *)
Definition entryOf (ts : list Time) : option entry :=
  match ts with [] => None | last :: _ => Some (mkEntry (len ts) (time_Add last Window)) end.

Lemma Memory_RecordFailure_spec m at_ k ts :
  m !! k = entryOf ts ->
  let ts' := streak [Failed at_] ts in
  snd (Memory_RecordFailure m at_ k) !! k = entryOf ts' /\
  fst (Memory_RecordFailure m at_ k) = (len ts' =? Threshold).
Proof.
  intros E. unfold Memory_RecordFailure, Memory_get. rewrite E.
  destruct ts as [|last ts]; cbn [entryOf streak]; [split; [apply lookup_insert_eq | done]|].
  cbn [until]. destruct (_ <? at_); cbn [fst snd count entryOf]; (split; [rewrite lookup_insert_eq|]); [done|done| |].
  all: by rewrite (len_cons at_), Z.add_comm.
Qed.

Lemma streak_app h1 h2 acc : streak (h1 ++ h2) acc = streak h2 (streak h1 acc).
Proof. revert acc. induction h1 as [|[at_|] h1 IH]; intros acc; simpl; [done|apply IH..]. Qed.

Lemma play_spec h k : forall m ts, m !! k = entryOf ts ->
  fold_left (fun m e => play m k e) h m !! k = entryOf (streak h ts).
Proof.
  induction h as [|[at_|] h IH]; intros m ts E; simpl; [done| |].
  - apply IH. by apply Memory_RecordFailure_spec.
  - apply IH. unfold Memory_Reset. by rewrite lookup_delete_eq.
Qed.

Lemma play_other h k k' m : k' <> k -> fold_left (fun m e => play m k e) h m !! k' = m !! k'.
Proof.
  intros Hne. revert m. induction h as [|e h IH]; intros m; simpl; [done|]. rewrite IH.
  destruct e as [at_|]; simpl; unfold Memory_Reset; [|by rewrite lookup_delete_ne].
  unfold Memory_RecordFailure, Memory_get.
  destruct (m !! k) as [e|]; [destruct (until e <? at_)|]; simpl; by rewrite !lookup_insert_ne by done.
Qed.

Lemma Locked_entry m k ts now :
  m !! k = entryOf ts ->
  Memory_Locked m now k = true <->
  5 <= len ts /\ exists last, head ts = Some last /\ now < last + 15 * Minute.
Proof.
  intros E. unfold Memory_Locked. rewrite E.
  destruct ts as [|last ts]; simpl; [by split; [|intros [Hlen _]; rewrite len_nil in Hlen; lia]|].
  rewrite andb_true_iff, Z.ltb_lt, Z.leb_le. unfold Threshold, Window, time_Add.
  split; [intros [? ?]; split; [done|by exists last] | by intros [? (l & [= <-] & ?)]].
Qed.

(** A key is locked exactly while its last failure is less than the window
    ago and it is the fifth or a later one of a streak: failures since the
    last success, none more than the window after the one before it. What
    happens to other keys has no bearing on it. *)
Theorem lock_policy m k h now :
  m !! k = None ->
  let m' := fold_left (fun m e => play m k e) h m in
  (Memory_Locked m' now k = true <->
     5 <= len (streak h []) /\ exists last, head (streak h []) = Some last /\ now < last + 15 * Minute) /\
  (forall k', k' <> k -> Memory_Locked m' now k' = Memory_Locked m now k').
Proof.
  intros E m'. split.
  - apply Locked_entry. by apply (play_spec h k m []).
  - intros k' Hne. unfold Memory_Locked, m'. by rewrite play_other.
Qed.

(** ** The two stores agree *)

(** What Redis is documented to do: a counter is there until its time to live
    has passed, [INCR] counts from nothing as from zero, [EXPIRE] starts the
    time to live over. [live w t k] is what a read at [t] would see. *)
Class RedisLaws (W : Type) `{RedisWorld W} : Type := {
  clock : W -> Time; live : W -> Time -> string -> option Z;
  law_get k w : GetInt k w = (match live w (clock w) k with Some n => IntValue n | None => RedisNil end, w);
  law_incr k ttl w : exists w', IncrExpire k ttl w = (inl (default 0 (live w (clock w) k) + 1), w') /\
    clock w' = clock w /\
    (forall t, live w' t k = if t <? clock w + ttl then Some (default 0 (live w (clock w) k) + 1) else None) /\
    (forall t k', k' <> k -> live w' t k' = live w t k');
  law_del k w : exists w', Del k w = (None, w') /\ clock w' = clock w /\
    (forall t, live w' t k = None) /\ (forall t k', k' <> k -> live w' t k' = live w t k')
}.

Section agree.
Context {W : Type} `{RedisLaws W}.

(** Redis shows the count of every entry until its time, and nothing else. *)
Definition agree (m : Memory) (w : W) : Prop :=
  forall k t, live w t (key k) =
    match m !! k with Some e => if t <? until e then Some (count e) else None | None => None end.

(** The clock is not at the very end of an entry's window, where [Memory]
    still counts on but no longer locks. *)
Definition off_edge (m : Memory) (now : Time) (k : string) : Prop :=
  forall e, m !! k = Some e -> until e <> now.

Lemma key_inj a b : key a = key b -> a = b.
Proof. apply (inj (String.append "lockout:")). Qed.

(** [Memory] implements the contract of [Redis]: in agreeing states the two
    give the same answers to [Locked] and [RecordFailure], without error, and
    every operation leaves them agreeing. *)
Theorem memory_refines_redis m w k :
  agree m w -> off_edge m (clock w) k ->
  Redis_Locked k w = ((Memory_Locked m (clock w) k, None), w) /\
  (exists w', Redis_RecordFailure k w = ((fst (Memory_RecordFailure m (clock w) k), None), w') /\
     agree (snd (Memory_RecordFailure m (clock w) k)) w') /\
  (exists w', Redis_Reset k w = (None, w') /\ agree (Memory_Reset m k) w').
Proof.
  intros Ha He. split; [|split].
  - unfold Redis_Locked. rewrite (bind_eq _ _ _ _ _ (law_get (key k) w)), Ha. unfold Memory_Locked.
    destruct (m !! k) as [e|]; [|done]. by destruct (clock w <? until e).
  - unfold Redis_RecordFailure. destruct (law_incr (key k) Window w) as (w' & E & Hc & Hl & Ho).
    rewrite (bind_eq _ _ _ _ _ E). exists w'.
    assert (default 0 (live w (clock w) (key k)) = count (fst (Memory_get m (clock w) k))) as Ecount.
    { rewrite Ha. unfold Memory_get. destruct (m !! k) as [e|] eqn:Ek; [|done]. specialize (He e Ek).
      destruct (Z.ltb_spec (clock w) (until e)), (Z.ltb_spec (until e) (clock w)); simpl; [lia|done|done|lia]. }
    rewrite Ecount in *. unfold Memory_RecordFailure.
    assert (forall k', k' <> k -> snd (Memory_get m (clock w) k) !! k' = m !! k') as Hget.
    { intros k' Hne. unfold Memory_get. destruct (m !! k) as [e|]; [destruct (_ <? _)|]; simpl;
        by rewrite ?lookup_insert_ne by done. }
    destruct (Memory_get m (clock w) k) as [e m1]. simpl in *. split; [done|]. intros k' t.
    destruct (decide (k' = k)) as [->|Hne].
    + rewrite lookup_insert_eq, Hl. done.
    + rewrite lookup_insert_ne, Ho by (try done; by intros E'%key_inj). by rewrite Hget, Ha.
  - unfold Redis_Reset. destruct (law_del (key k) w) as (w' & E & Hc & Hl & Ho). exists w'. split; [done|].
    intros k' t. unfold Memory_Reset. destruct (decide (k' = k)) as [->|Hne].
    + by rewrite lookup_delete_eq, Hl.
    + rewrite lookup_delete_ne, Ho by (try done; by intros E'%key_inj). apply Ha.
Qed.
End agree.

(** ** A store of counters that expire *)

Section example.
Record TTLStore : Type := mkTTL { ttl_clock : Time; ttl_data : gmap string (Z * Time) }.
Definition ttl_live (w : TTLStore) (t : Time) (k : string) : option Z :=
  match ttl_data w !! k with Some (n, d) => if t <? d then Some n else None | None => None end.
#[local] Instance TTLRedis : RedisWorld TTLStore := {
  GetInt k w := (match ttl_live w (ttl_clock w) k with Some n => IntValue n | None => RedisNil end, w);
  IncrExpire k ttl w :=
    let n := default 0 (ttl_live w (ttl_clock w) k) + 1 in
    (inl n, mkTTL (ttl_clock w) (<[k := (n, ttl_clock w + ttl)]> (ttl_data w)));
  Del k w := (None, mkTTL (ttl_clock w) (delete k (ttl_data w)))
}.
#[local] Instance TTLRedisLaws : RedisLaws TTLStore.
Proof.
  refine {| clock := ttl_clock; live := ttl_live |}; [done| |].
  - intros k ttl w. eexists. split; [done|]. split; [done|]. unfold ttl_live. simpl.
    split; [intros t; by rewrite lookup_insert_eq | intros t k' Hne; by rewrite lookup_insert_ne by done].
  - intros k w. eexists. split; [done|]. split; [done|]. unfold ttl_live. simpl.
    split; [intros t; by rewrite lookup_delete_eq | intros t k' Hne; by rewrite lookup_delete_ne by done].
Defined.

Lemma memory_refines_redis_witness :
  agree (<["bob" := mkEntry 4 Minute]> ∅) (mkTTL 0 {["lockout:bob" := (4, Minute)]}) /\
  exists w', Redis_RecordFailure "bob" (mkTTL 0 {["lockout:bob" := (4, Minute)]}) = ((true, None), w').
Proof.
  assert (agree (<["bob" := mkEntry 4 Minute]> ∅) (mkTTL 0 {["lockout:bob" := (4, Minute)]})) as Ha.
  { intros k t. simpl. unfold ttl_live. simpl. destruct (decide (k = "bob")) as [->|Hne].
    - by rewrite lookup_insert_eq, lookup_singleton_eq.
    - rewrite lookup_insert_ne, lookup_singleton_ne by (try done; intros E; by apply (key_inj "bob" k) in E). done. }
  split; [exact Ha|].
  destruct (memory_refines_redis _ _ "bob" Ha) as (_ & (w' & E & _) & _).
  { intros e He. rewrite lookup_insert_eq in He. injection He as <-. done. }
  exists w'. rewrite E. by vm_compute.
Defined.

Lemma lock_policy_witness :
  NewMemory !! "bob" = None /\
  Memory_Locked (fold_left (fun m e => play m "bob" e)
    [Failed 0; Failed Second; Succeeded; Failed Minute; Failed Minute; Failed Minute; Failed Minute; Failed (2 * Minute)]
    NewMemory) (16 * Minute) "bob" = true.
Proof.
  split; [done|].
  apply (lock_policy NewMemory "bob" [Failed 0; Failed Second; Succeeded; Failed Minute; Failed Minute; Failed Minute;
    Failed Minute; Failed (2 * Minute)] (16 * Minute) eq_refl).
  split; [by vm_compute|]. exists (2 * Minute). split; [done | by vm_compute].
Defined.
End example.
