(* ===== verification/Auth.v ===== *)
(** Packages iam/domain (user.go) and iam/app (auth.go): login, refresh,
    logout and bootstrap.

    The service works on its collaborators through [AuthWorld]; AuthStore.v
    has the world of lockout.Memory and the tables of iam/adapters/postgres. *)
From Stdlib Require Import ZArith Lia.
From stdpp Require Import base list gmap strings numbers.
From S2P Require Import Prelude GoText World Errx.

(** ** Domain *)

Inductive UserStatus : Type := UserActive | UserLocked | UserDeactivated.
#[export] Instance UserStatus_eq_dec : EqDecision UserStatus.
Proof. solve_decision. Defined.

Record User : Type := mkUser {
  u_ID : string; u_TenantID : string; u_Username : string; u_Email : string; u_PasswordHash : string;
  u_DisplayName : string; u_Status : UserStatus; u_PasswordChangeRequired : bool; u_LastLoginAt : option Time
}.
Definition CanLogin (u : User) : bool := bool_decide (u_Status u = UserActive).

Record RefreshToken : Type := mkRefreshToken {
  t_ID : string; t_UserID : string; t_TokenHash : string; t_FamilyID : string;
  t_IssuedAt : Time; t_ExpiresAt : Time; t_RotatedAt : option Time; t_RevokedAt : option Time
}.
#[export] Instance eta_RefreshToken : Eta RefreshToken := fun t =>
  mkRefreshToken (t_ID t) (t_UserID t) (t_TokenHash t) (t_FamilyID t) (t_IssuedAt t) (t_ExpiresAt t)
    (t_RotatedAt t) (t_RevokedAt t).

Definition Usable (t : RefreshToken) (now : Time) : bool :=
  bool_decide (t_RotatedAt t = None) && bool_decide (t_RevokedAt t = None) && (now <? t_ExpiresAt t).
Definition Compromised (t : RefreshToken) : bool :=
  bool_decide (t_RotatedAt t <> None) || bool_decide (t_RevokedAt t <> None).

(** ** The service *)

Definition refreshTTL : Duration := 30 * 24 * Hour.
Definition defaultTenant : string := "t_default".

Record ClientMeta : Type := mkClientMeta { cm_SourceIP : string; cm_UserAgent : string; cm_TraceID : string }.

(** An audit event, its detail the one value each event here carries. *)
Record AuditEvent : Type := mkAuditEvent {
  ae_ActorKind : string; ae_ActorID : string; ae_Action : string; ae_Resource : string;
  ae_Detail : string; ae_Meta : ClientMeta
}.

Record LoginResult : Type := mkLoginResult {
  AccessToken : string; ExpiresIn : Z; RefreshPlain : string; lr_User : User; Roles : list string;
  PasswordChangeRequired : bool
}.

Class AuthWorld (W : Type) : Type := {
  GetByUsername : string -> M W (User + Err);
  GetByID : string -> M W (User + Err);
  RoleNames : string -> M W (list string + Err);
  Create : User -> list string -> M W (option Err);
  Count : M W (Z + Err);
  RecordLogin : string -> Time -> M W (option Err);
  Insert : RefreshToken -> M W (option Err);
  GetByHash : string -> M W (RefreshToken + Err);
  MarkRotated : string -> Time -> M W (option Err);
  Revoke : string -> Time -> M W (option Err);
  RevokeFamily : string -> Time -> M W (option Err);
  Locked : string -> M W (bool + Err);
  RecordFailure : string -> M W (bool * option Err);
  Reset : string -> M W (option Err);
  VerifyPassword : string -> string -> bool + Err;
  HashPassword : string -> M W (string + Err);
  Issue : string -> string -> string -> list string -> M W (string + Err);
  TTLSeconds : Z;
  RandomText : nat -> M W (string + Err);
  NewID : string -> M W string;
  Audit : AuditEvent -> M W unit;
  AuthNow : M W Time;
  sha256 : bytes -> bytes
}.

Definition errBadCredentials : Err := New KindUnauthorized "invalid credentials".
Definition ErrLocked : Err := New KindForbidden "account temporarily locked".

Section service.
Context {W : Type} `{AuthWorld W}.
Abbreviation M := (M W).

Definition hashToken (plain : string) : string := hex_bytes (sha256 (to_bytes plain)).

Definition userEvent (meta : ClientMeta) (action actorID detail : string) : M unit :=
  Audit (mkAuditEvent "user" actorID action "" detail meta).

Definition newRefreshToken (userID familyID : string) : M ((string * RefreshToken) + Err) :=
  r ← RandomText 32;
  match r with
  | inr e => mret (inr e)
  | inl plain =>
      now ← AuthNow; id ← NewID "rt";
      mret (inl (plain, mkRefreshToken id userID (hashToken plain) familyID now (time_Add now refreshTTL) None None))
  end.

(** The end of every login that presents bad credentials. *)
Definition refuseLogin (username : string) (meta : ClientMeta) : M (LoginResult + Err) :=
  '(nowLocked, lerr) ← RecordFailure username;
  _ ← userEvent meta (if nowLocked : bool then "auth.login.lockout" else "auth.login.failure") "" username;
  mret (inr errBadCredentials).

(** The end of a login whose credentials are good. *)
Definition admit_ (u : User) (username : string) (meta : ClientMeta) : M (LoginResult + Err) :=
  _ ← Reset username;
  r ← RoleNames (u_ID u);
  match r with
  | inr e => mret (inr e)
  | inl roles =>
      r ← Issue (u_ID u) (u_Username u) (u_TenantID u) roles;
      match r with
      | inr e => mret (inr (kindError KindInternal (ErrWrap "issue access token" e)))
      | inl access =>
          fam ← NewID "fam"; r ← newRefreshToken (u_ID u) fam;
          match r with
          | inr e => mret (inr e)
          | inl (refreshPlain, tok) =>
              r ← Insert tok;
              match r with
              | Some e => mret (inr e)
              | None =>
                  now ← AuthNow; _ ← RecordLogin (u_ID u) now;
                  _ ← userEvent meta "auth.login.success" (u_ID u) username;
                  mret (inl (mkLoginResult access TTLSeconds refreshPlain u roles (u_PasswordChangeRequired u)))
              end
          end
      end
  end.

(** [Login]; the dummy verification of an unknown user costs time and nothing
    else. *)
Definition Login (username password : string) (meta : ClientMeta) : M (LoginResult + Err) :=
  r ← Locked username;
  match r with
  | inr e => mret (inr e)
  | inl true => _ ← userEvent meta "auth.login.locked_attempt" "" username; mret (inr ErrLocked)
  | inl false =>
      r ← GetByUsername username;
      match r with
      | inr e => if decide (kindOf (Some e) = KindNotFound) then refuseLogin username meta else mret (inr e)
      | inl u =>
          match VerifyPassword password (u_PasswordHash u) with
          | inr e => mret (inr (kindError KindInternal (ErrWrap "verify password" e)))
          | inl verified => if negb verified || negb (CanLogin u) then refuseLogin username meta
                            else admit_ u username meta
          end
      end
  end.

(** [Refresh] up to where it starts to write: the token to rotate, its user
    and roles, or the answer. *)
Definition refreshCheck (refreshPlain : string) (meta : ClientMeta)
    : M ((RefreshToken * User * list string * Time) + Err) :=
  r ← GetByHash (hashToken refreshPlain);
  match r with
  | inr e => mret (inr (if decide (kindOf (Some e) = KindNotFound) then errBadCredentials else e))
  | inl t =>
      now ← AuthNow;
      if Compromised t then
        _ ← RevokeFamily (t_FamilyID t) now;
        _ ← userEvent meta "auth.token.reuse" (t_UserID t) (t_FamilyID t);
        mret (inr errBadCredentials)
      else if negb (Usable t now) then mret (inr errBadCredentials)
      else
        r ← GetByID (t_UserID t);
        match r with
        | inr _ => mret (inr errBadCredentials)
        | inl u =>
            if negb (CanLogin u) then mret (inr errBadCredentials) else
            r ← RoleNames (u_ID u);
            mret match r with inr e => inr e | inl roles => inl (t, u, roles, now) end
        end
  end.

(** The rest of [Refresh]. *)
Definition refreshIssue (t : RefreshToken) (u : User) (roles : list string) (now : Time) (meta : ClientMeta)
    : M (LoginResult + Err) :=
  r ← MarkRotated (t_ID t) now;
  match r with
  | Some e => mret (inr e)
  | None =>
      r ← newRefreshToken (u_ID u) (t_FamilyID t);
      match r with
      | inr e => mret (inr e)
      | inl (plain, tok) =>
          r ← Insert tok;
          match r with
          | Some e => mret (inr e)
          | None =>
              r ← Issue (u_ID u) (u_Username u) (u_TenantID u) roles;
              match r with
              | inr e => mret (inr (kindError KindInternal (ErrWrap "issue access token" e)))
              | inl access =>
                  _ ← userEvent meta "auth.token.refresh" (u_ID u) "";
                  mret (inl (mkLoginResult access TTLSeconds plain u roles (u_PasswordChangeRequired u)))
              end
          end
      end
  end.

Definition Refresh (refreshPlain : string) (meta : ClientMeta) : M (LoginResult + Err) :=
  r ← refreshCheck refreshPlain meta;
  match r with inr e => mret (inr e) | inl (t, u, roles, now) => refreshIssue t u roles now meta end.

Definition Logout (refreshPlain : string) (meta : ClientMeta) : M unit :=
  r ← GetByHash (hashToken refreshPlain);
  match r with
  | inr _ => mret tt
  | inl t => now ← AuthNow; _ ← Revoke (t_ID t) now; userEvent meta "auth.logout" (t_UserID t) ""
  end.

(** [Bootstrap]: the generated password, "" for none. *)
Definition Bootstrap (envPassword : string) : M (string + Err) :=
  r ← Count;
  match r with
  | inr e => mret (inr e)
  | inl n =>
      if 0 <? n then mret (inl "") else
      r ← (if decide (envPassword = "") then RandomText 18 else mret (inl envPassword));
      match r with
      | inr e => mret (inr e)
      | inl password =>
          r ← HashPassword password;
          match r with
          | inr e => mret (inr e)
          | inl hash =>
              id ← NewID "u";
              let u := mkUser id defaultTenant "admin" "admin@localhost.invalid" hash "Administrator" UserActive true None in
              r ← Create u ["role_admin"];
              match r with
              | Some e => mret (inr e)
              | None =>
                  _ ← Audit (mkAuditEvent "system" "" "user.bootstrap" id "admin" (mkClientMeta "" "" ""));
                  mret (inl (if decide (envPassword = "") then password else ""))
              end
          end
      end
  end.
End service.
