(* ===== verification/AuthStore.v ===== *)
(** The login service at work: the tables of iam/adapters/postgres (repos.go),
    the in-memory lockout, and what holds over any sequence of requests.

    The column [username] is a citext: it is compared after [fold]. In [run] a
    request is served to its end before the next; in [exec] refreshes interleave
    statement by statement. *)
From Stdlib Require Import ZArith Lia.
From stdpp Require Import base list gmap strings numbers sorting.
From S2P Require Import Prelude GoText World Errx Lockout Auth.

Abbreviation Tokens := (list RefreshToken).

(** ** The statements of repos.go on iam.refresh_tokens *)

Definition tk_Insert (ts : Tokens) (t : RefreshToken) : option Tokens :=
  if decide (Exists (fun r => t_ID r = t_ID t \/ t_TokenHash r = t_TokenHash t) ts) then None
  else Some (ts ++ [t <| t_RotatedAt := None |> <| t_RevokedAt := None |>]).
Definition tk_GetByHash (ts : Tokens) (hash : string) : option RefreshToken :=
  head (filter (fun t => t_TokenHash t = hash) ts).
Definition tk_MarkRotated (ts : Tokens) (id : string) (at_ : Time) : Tokens :=
  map (fun t => if decide (t_ID t = id) then t <| t_RotatedAt := Some at_ |> else t) ts.
Definition tk_Revoke (ts : Tokens) (id : string) (at_ : Time) : Tokens :=
  map (fun t => if decide (t_ID t = id /\ t_RevokedAt t = None) then t <| t_RevokedAt := Some at_ |> else t) ts.
Definition tk_RevokeFamily (ts : Tokens) (fam : string) (at_ : Time) : Tokens :=
  map (fun t => if decide (t_FamilyID t = fam /\ t_RevokedAt t = None) then t <| t_RevokedAt := Some at_ |> else t) ts.

(** ** The world *)

Record AuthStore : Type := mkAuthStore {
  as_users : list User; as_roles : string -> list string; as_tokens : Tokens; as_lock : Memory;
  as_clock : Time; as_audit : list AuditEvent; as_drawn : Z
}.
#[export] Instance eta_AuthStore : Eta AuthStore := fun w =>
  mkAuthStore (as_users w) (as_roles w) (as_tokens w) (as_lock w) (as_clock w) (as_audit w) (as_drawn w).

(** An id longer than any in the table. *)
Definition idWidth (t : RefreshToken) : nat := Nat.max (length (to_bytes (t_ID t))) (length (to_bytes (t_FamilyID t))).
Definition freshTokenID (ts : Tokens) : string :=
  of_bytes (replicate (S (foldr (fun t n => Nat.max (idWidth t) n) O ts)) (zb 97)).

Section store.
Context (fold : string -> string) (sha : bytes -> bytes).
Context (verify : string -> string -> bool + Err) (text : Z -> string).

Definition find_user (P : User -> Prop) `{forall u, Decision (P u)} (w : AuthStore) : User + Err :=
  match head (filter P (as_users w)) with Some u => inl u | None => inr (New KindNotFound "user not found") end.

#[local] Instance StoreAuthWorld : AuthWorld AuthStore := {
  GetByUsername name w := (find_user (fun u => fold (u_Username u) = fold name) w, w);
  GetByID id w := (find_user (fun u => u_ID u = id) w, w);
  RoleNames id w := (inl (as_roles w id), w);
  Create u _ w := (None, w <| as_users := as_users w ++ [u] |>);
  Count w := (inl (len (as_users w)), w);
  RecordLogin _ _ w := (None, w);
  Insert t w := match tk_Insert (as_tokens w) t with
    | Some ts => (None, w <| as_tokens := ts |>)
    | None => (Some (kindError KindTransient (ErrWrap "insert refresh token" (ErrText "duplicate key"))), w) end;
  GetByHash h w := (match tk_GetByHash (as_tokens w) h with
    | Some t => inl t | None => inr (New KindNotFound "refresh token not found") end, w);
  MarkRotated id at_ w := (None, w <| as_tokens := tk_MarkRotated (as_tokens w) id at_ |>);
  Revoke id at_ w := (None, w <| as_tokens := tk_Revoke (as_tokens w) id at_ |>);
  RevokeFamily fam at_ w := (None, w <| as_tokens := tk_RevokeFamily (as_tokens w) fam at_ |>);
  Locked k w := (inl (Memory_Locked (as_lock w) (as_clock w) k), w);
  RecordFailure k w :=
    let '(locked, m) := Memory_RecordFailure (as_lock w) (as_clock w) k in ((locked, None), w <| as_lock := m |>);
  Reset k w := (None, w <| as_lock := Memory_Reset (as_lock w) k |>);
  VerifyPassword := verify;
  HashPassword p w := (inl p, w);
  Issue _ _ _ _ w := (inl "jwt", w);
  TTLSeconds := 900;
  RandomText _ w := (inl (text (as_drawn w)), w <| as_drawn := as_drawn w + 1 |>);
  NewID prefix w := (freshTokenID (as_tokens w), w);
  Audit e w := (tt, w <| as_audit := as_audit w ++ [e] |>);
  AuthNow w := (as_clock w, w);
  sha256 := sha
}.

(** What the service is asked, each request at its time. *)
Inductive request : Type :=
  | RLogin (username password : string)
  | RRefresh (plain : string)
  | RLogout (plain : string).

Definition noMeta : ClientMeta := mkClientMeta "" "" "".
Definition answer (rq : request) : M AuthStore (option (LoginResult + Err)) :=
  match rq with
  | RLogin username password => r ← Login username password noMeta; mret (Some r)
  | RRefresh plain => r ← Refresh plain noMeta; mret (Some r)
  | RLogout plain => _ ← Logout plain noMeta; mret None
  end.
Definition step (w : AuthStore) (rq : Time * request) : option (LoginResult + Err) * AuthStore :=
  answer rq.2 (w <| as_clock := rq.1 |>).
Definition run (w : AuthStore) (rqs : list (Time * request)) : AuthStore :=
  fold_left (fun w rq => snd (step w rq)) rqs w.

(** ** Throttling *)

(** Whether the credentials are good; [None] when the stored hash cannot be
    read. *)
Definition credentials (w : AuthStore) (username password : string) : option bool :=
  match find_user (fun u => fold (u_Username u) = fold username) w with
  | inr _ => Some false
  | inl u => match verify password (u_PasswordHash u) with inl v => Some (v && CanLogin u) | inr _ => None end
  end.

(** What a request does to the failures counted under the spelling [k]. *)
Definition lockEvent (k : string) (w : AuthStore) (rq : Time * request) : list event :=
  match rq.2 with
  | RLogin username password =>
      if decide (username = k) then
        if Memory_Locked (as_lock w) rq.1 k then []
        else match credentials w username password with
             | Some true => [Succeeded] | Some false => [Failed rq.1] | None => []
             end
      else []
  | _ => []
  end.
Fixpoint history (k : string) (w : AuthStore) (rqs : list (Time * request)) : list event :=
  match rqs with
  | [] => []
  | rq :: rqs => lockEvent k w rq ++ history k (snd (step w rq)) rqs
  end.

Definition sameLock (w w' : AuthStore) : Prop := as_lock w = as_lock w'.
#[local] Instance sameLock_preorder : PreOrder sameLock.
Proof. split; [done | intros ? ? ?; unfold sameLock; congruence]. Qed.

Lemma Insert_lock t : moves sameLock (Insert t).
Proof. intros w. simpl. by destruct (tk_Insert _ _). Qed.
#[local] Hint Resolve Insert_lock : moves.
#[local] Hint Extern 3 (moves _ _) => (intros ?; done) : moves.

Lemma newRefreshToken_lock u fam : moves sameLock (newRefreshToken u fam).
Proof. unfold newRefreshToken. solve_moves. Qed.
#[local] Hint Resolve newRefreshToken_lock : moves.

Lemma Refresh_lock plain meta : moves sameLock (Refresh plain meta).
Proof. unfold Refresh, refreshCheck, refreshIssue, userEvent. solve_moves. Qed.
Lemma Logout_lock plain meta : moves sameLock (Logout plain meta).
Proof. unfold Logout, userEvent. solve_moves. Qed.

Lemma refuseLogin_lock username meta w :
  as_lock (snd (refuseLogin username meta w)) = snd (Memory_RecordFailure (as_lock w) (as_clock w) username).
Proof.
  unfold refuseLogin, userEvent, mbind, M_bind. simpl.
  by destruct (Memory_RecordFailure (as_lock w) (as_clock w) username) as [locked m].
Qed.
Lemma admit_lock u username meta w :
  as_lock (snd (admit_ u username meta w)) = Memory_Reset (as_lock w) username.
Proof.
  unfold admit_. rewrite bind_snd. cbn [Reset StoreAuthWorld fst snd]. set (w1 := w <| as_lock := _ |>).
  match goal with |- as_lock (snd (?m _)) = _ => assert (moves sameLock m) as Hm end.
  { unfold userEvent. solve_moves. }
  symmetry. exact (Hm w1).
Qed.

(** What a login does to the lockout is what its event does. *)
Lemma Login_lock username password meta w :
  as_lock (snd (Login username password meta w)) =
  fold_left (fun m e => play m username e) (lockEvent username w (as_clock w, RLogin username password)) (as_lock w).
Proof.
  unfold Login, lockEvent, credentials. rewrite bind_snd. cbn [Locked StoreAuthWorld fst snd].
  rewrite decide_True by done. destruct (Memory_Locked (as_lock w) (as_clock w) username); [done|].
  rewrite bind_snd. cbn [GetByUsername VerifyPassword StoreAuthWorld fst snd].
  unfold find_user. destruct (head _) as [u|]; [|by rewrite decide_True, refuseLogin_lock by done].
  destruct (verify password (u_PasswordHash u)) as [v|e]; [|done].
  destruct v, (CanLogin u); simpl; by rewrite ?refuseLogin_lock, ?admit_lock.
Qed.

Lemma step_lock k w rq : as_lock (snd (step w rq)) !! k = fold_left (fun m e => play m k e) (lockEvent k w rq) (as_lock w) !! k.
Proof.
  destruct rq as [t [username password|plain|plain]]; unfold step, answer; cbn [fst snd];
    rewrite bind_snd; cbn [mret M_ret snd]; set (w1 := w <| as_clock := t |>).
  - rewrite Login_lock. change (as_lock w1) with (as_lock w). change (as_clock w1) with t.
    unfold lockEvent. cbn [fst snd]. rewrite decide_True by done.
    destruct (decide (username = k)) as [->|Hne]; [done|]. by rewrite play_other.
  - by rewrite <- (Refresh_lock plain noMeta w1).
  - by rewrite <- (Logout_lock plain noMeta w1).
Qed.

Lemma run_lock k rqs : forall w ts, as_lock w !! k = entryOf ts ->
  as_lock (run w rqs) !! k = entryOf (streak (history k w rqs) ts).
Proof.
  induction rqs as [|rq rqs IH]; intros w ts E; [done|]. cbn [run history fold_left].
  rewrite streak_app. apply IH. rewrite step_lock. by apply play_spec.
Qed.

Lemma refuseLogin_answer username meta w : fst (refuseLogin username meta w) = inr errBadCredentials.
Proof.
  unfold refuseLogin. rewrite bind_fst. destruct (fst (RecordFailure username w)) as [b e].
  by rewrite bind_fst.
Qed.

Lemma admit_answer u username meta w :
  match fst (admit_ u username meta w) with inl _ => True | inr e => kindOf (Some e) = KindTransient end.
Proof.
  unfold admit_, newRefreshToken, userEvent, mbind, M_bind. simpl. by destruct (tk_Insert _ _).
Qed.

(** Locked or not is what decides the locked answer. *)
Lemma Login_answer username password meta w :
  fst (Login username password meta w) = inr ErrLocked <-> Memory_Locked (as_lock w) (as_clock w) username = true.
Proof.
  unfold Login. rewrite bind_fst. cbn [Locked StoreAuthWorld fst snd].
  destruct (Memory_Locked (as_lock w) (as_clock w) username); [by rewrite bind_fst|]. split; [|done].
  rewrite bind_fst. cbn [GetByUsername VerifyPassword StoreAuthWorld fst snd].
  unfold find_user. destruct (head _) as [u|]; [|by rewrite decide_True, refuseLogin_answer by done].
  destruct (verify password (u_PasswordHash u)) as [v|e]; [|done].
  destruct (negb v || negb (CanLogin u)); [by rewrite refuseLogin_answer|].
  pose proof (admit_answer u username meta w) as Ha. intros E. by rewrite E in Ha.
Qed.

(** C13. Five bad guesses at an account close it: at any time, after any requests
    of any kind for any accounts, a login under a spelling is turned away
    unheard, with the right password as with a wrong one, exactly when the
    spelling's last refused login is less than a quarter of an hour ago and
    ends a streak of at least five: refused logins since the last good one,
    none more than a quarter of an hour after the one before. *)
Theorem login_throttled w rqs k password t :
  as_lock w !! k = None ->
  let ts := streak (history k w rqs) [] in
  fst (step (run w rqs) (t, RLogin k password)) = Some (inr ErrLocked) <->
  5 <= len ts /\ exists last, head ts = Some last /\ t < last + 15 * Minute.
Proof.
  intros E ts. pose proof (run_lock k rqs w [] E) as El. fold ts in El. set (w' := run w rqs) in *.
  rewrite <- (Locked_entry _ _ _ _ El). unfold step, answer. cbn [fst snd]. rewrite bind_fst.
  cbn [mret M_ret fst]. pose proof (Login_answer k password noMeta (w' <| as_clock := t |>)) as Ha.
  change (as_lock (w' <| as_clock := t |>)) with (as_lock w') in Ha. change (as_clock (w' <| as_clock := t |>)) with t in Ha.
  rewrite <- Ha. split; intros Hr; [by injection Hr | f_equal; exact Hr].
Qed.

(** A refused login tells nothing about why: for an unknown account, a wrong
    password and an account that may not log in, the answer, the lockout, the
    audit trail and everything else are the same, and do not depend on the
    password. *)
Theorem refusals_alike username p1 p2 meta w1 w2 :
  credentials w1 username p1 = Some false -> credentials w2 username p2 = Some false ->
  Memory_Locked (as_lock w1) (as_clock w1) username = false ->
  as_lock w1 = as_lock w2 -> as_clock w1 = as_clock w2 -> as_audit w1 = as_audit w2 ->
  as_tokens w1 = as_tokens w2 ->
  let r1 := Login username p1 meta w1 in let r2 := Login username p2 meta w2 in
  fst r1 = inr errBadCredentials /\ fst r1 = fst r2 /\ as_lock (snd r1) = as_lock (snd r2) /\
  as_audit (snd r1) = as_audit (snd r2) /\ as_tokens (snd r1) = as_tokens (snd r2).
Proof.
  assert (forall p w, credentials w username p = Some false ->
    Memory_Locked (as_lock w) (as_clock w) username = false ->
    Login username p meta w = refuseLogin username meta w) as Hrefuse.
  { intros p w. unfold credentials, Login, mbind, M_bind. intros Hc Hl.
    cbn [Locked GetByUsername VerifyPassword StoreAuthWorld]. rewrite Hl.
    destruct (find_user _ w) as [u|e] eqn:Eu.
    - destruct (verify p (u_PasswordHash u)) as [v|]; [|done]. injection Hc as Hc. by destruct v, (CanLogin u).
    - unfold find_user in Eu. destruct (head _); [done|]. injection Eu as <-. by rewrite decide_True. }
  intros H1 H2 Hl El Ec Ea Et. cbv zeta. rewrite !Hrefuse by (try done; by rewrite <- El, <- Ec).
  unfold refuseLogin, userEvent, mbind, M_bind. simpl. rewrite <- El, <- Ec.
  destruct (Memory_RecordFailure (as_lock w1) (as_clock w1) username) as [b m]. simpl. by rewrite Ea.
Qed.

(** ** Refresh tokens *)

(** A token that could still be exchanged, but for its age. *)
Definition held (t : RefreshToken) : Prop := t_RotatedAt t = None /\ t_RevokedAt t = None.

(** Rows keep who they are, and what is spent stays spent. *)
Definition grows (ts ts' : Tokens) : Prop :=
  forall t, t ∈ ts -> exists t', t' ∈ ts' /\ t_ID t' = t_ID t /\ t_TokenHash t' = t_TokenHash t /\
    t_FamilyID t' = t_FamilyID t /\ t_UserID t' = t_UserID t /\ (held t' -> held t).
#[local] Instance grows_preorder : PreOrder grows.
Proof.
  split; [intros ts t Ht; by exists t|]. intros a b c Hab Hbc t Ht. destruct (Hab t Ht) as (u & Hu & ? & ? & ? & ? & ?).
  destruct (Hbc u Hu) as (v & Hv & ? & ? & ? & ? & ?). exists v. split_and!; [done|congruence..|auto].
Qed.

Lemma grows_map (f : RefreshToken -> RefreshToken) ts :
  (forall t, t_ID (f t) = t_ID t /\ t_TokenHash (f t) = t_TokenHash t /\ t_FamilyID (f t) = t_FamilyID t /\
     t_UserID (f t) = t_UserID t /\ (held (f t) -> held t)) -> grows ts (map f ts).
Proof. intros Hf t Ht. exists (f t). split; [|apply Hf]. change (map f ts) with (f <$> ts). by apply list_elem_of_fmap_2. Qed.

Ltac solve_update := apply grows_map; intros t; destruct t; unfold held; case_decide; simpl; naive_solver.
Lemma grows_MarkRotated ts id at_ : grows ts (tk_MarkRotated ts id at_).
Proof. solve_update. Qed.
Lemma grows_Revoke ts id at_ : grows ts (tk_Revoke ts id at_).
Proof. solve_update. Qed.
Lemma grows_RevokeFamily ts fam at_ : grows ts (tk_RevokeFamily ts fam at_).
Proof. solve_update. Qed.

Definition growsW (w w' : AuthStore) : Prop := grows (as_tokens w) (as_tokens w').
#[local] Instance growsW_preorder : PreOrder growsW.
Proof. split; [intros w; unfold growsW; reflexivity | intros a b c; unfold growsW; apply transitivity]. Qed.

Lemma Insert_grows t : moves growsW (Insert t).
Proof.
  intros w. unfold growsW. simpl. unfold tk_Insert. case_decide; [reflexivity|]. simpl.
  intros r Hr. exists r. split; [by apply elem_of_app; left | done].
Qed.
Lemma MarkRotated_grows id at_ : moves growsW (MarkRotated id at_).
Proof. intros w. apply grows_MarkRotated. Qed.
Lemma Revoke_grows id at_ : moves growsW (Revoke id at_).
Proof. intros w. apply grows_Revoke. Qed.
Lemma RevokeFamily_grows fam at_ : moves growsW (RevokeFamily fam at_).
Proof. intros w. apply grows_RevokeFamily. Qed.
Lemma RecordFailure_grows k : moves growsW (RecordFailure k).
Proof. intros w. unfold growsW. simpl. by destruct (Memory_RecordFailure _ _ _). Qed.
#[local] Hint Resolve Insert_grows MarkRotated_grows Revoke_grows RevokeFamily_grows RecordFailure_grows : moves.
#[local] Hint Extern 4 (moves growsW _) => (intros ?; unfold growsW; reflexivity) : moves.

Lemma newRefreshToken_grows u fam : moves growsW (newRefreshToken u fam).
Proof. unfold newRefreshToken. solve_moves. Qed.
#[local] Hint Resolve newRefreshToken_grows : moves.

Lemma answer_grows rq : moves growsW (answer rq).
Proof.
  unfold answer, Login, refuseLogin, admit_, Refresh, refreshCheck, refreshIssue, Logout, userEvent. solve_moves.
Qed.

Lemma run_grows rqs w : growsW w (run w rqs).
Proof.
  revert w. induction rqs as [|rq rqs IH]; intros w; [reflexivity|]. cbn [run fold_left].
  transitivity (snd (step w rq)); [|apply IH]. set (w1 := w <| as_clock := rq.1 |>).
  change (growsW w1 (snd (answer rq.2 w1))). exact (answer_grows rq.2 w1).
Qed.

(** *** What a refresh does to the table *)

Lemma Refresh_cases plain meta w :
  let r := Refresh plain meta w in let ts := as_tokens w in let now := as_clock w in
  match tk_GetByHash ts (hashToken plain) with
  | None => fst r = inr errBadCredentials /\ as_tokens (snd r) = ts
  | Some t =>
      if Compromised t then
        fst r = inr errBadCredentials /\ as_tokens (snd r) = tk_RevokeFamily ts (t_FamilyID t) now
      else (fst r = inr errBadCredentials /\ as_tokens (snd r) = ts) \/
        (Usable t now = true /\ exists tok, t_FamilyID tok = t_FamilyID t /\ held tok /\
           match tk_Insert (tk_MarkRotated ts (t_ID t) now) tok with
           | Some ts2 => as_tokens (snd r) = ts2 /\
               exists res, fst r = inl res /\ t_TokenHash tok = hashToken (RefreshPlain res)
           | None => as_tokens (snd r) = tk_MarkRotated ts (t_ID t) now /\ exists e, fst r = inr e
           end)
  end.
Proof.
  unfold Refresh, refreshCheck, refreshIssue, newRefreshToken, userEvent, mbind, M_bind. cbv zeta. simpl.
  destruct (tk_GetByHash _ _) as [t|]; [|by rewrite decide_True].
  destruct (Compromised t); [done|]. destruct (Usable t (as_clock w)) eqn:Eu; [|by left].
  simpl. destruct (find_user _ w) as [u|]; [|by left]. destruct (CanLogin u); [|by left]. right. split; [done|].
  simpl. match goal with |- context [tk_Insert ?ts ?tok] => exists tok; destruct (tk_Insert ts tok) end; simpl; (split; [done|split; [by split|split; [done|by eexists]]]).
Qed.

(** *** One token of a family can be held *)

Definition tokens_ok (ts : Tokens) : Prop :=
  NoDup (map t_ID ts) /\ NoDup (map t_TokenHash ts) /\
  forall a b, a ∈ ts -> b ∈ ts -> held a -> held b -> t_FamilyID a = t_FamilyID b -> a = b.

(** An update that keeps the keys and holds nothing anew. *)
Definition spends (f : RefreshToken -> RefreshToken) : Prop :=
  forall t, t_ID (f t) = t_ID t /\ t_TokenHash (f t) = t_TokenHash t /\ t_FamilyID (f t) = t_FamilyID t /\
    (held (f t) -> held t).

Lemma tokens_ok_map f ts : spends f -> tokens_ok ts -> tokens_ok (map f ts).
Proof.
  intros Hf (Hi & Hh & Hu). unfold tokens_ok. rewrite !map_map.
  rewrite (map_ext (fun t => t_ID (f t)) t_ID), (map_ext (fun t => t_TokenHash (f t)) t_TokenHash) by (intros t; apply Hf).
  split; [done|]. split; [done|]. change (map f ts) with (f <$> ts).
  intros a b (a0 & -> & Ha)%list_elem_of_fmap (b0 & -> & Hb)%list_elem_of_fmap Ka Kb Ef.
  destruct (Hf a0) as (_ & _ & Ea & Ga), (Hf b0) as (_ & _ & Eb & Gb). f_equal. apply Hu; auto. congruence.
Qed.

Ltac solve_spends := intros t; destruct t; unfold held; case_decide; simpl; naive_solver.
Lemma spends_MarkRotated id at_ : spends (fun t => if decide (t_ID t = id) then t <| t_RotatedAt := Some at_ |> else t).
Proof. solve_spends. Qed.
Lemma spends_Revoke id at_ :
  spends (fun t => if decide (t_ID t = id /\ t_RevokedAt t = None) then t <| t_RevokedAt := Some at_ |> else t).
Proof. solve_spends. Qed.
Lemma spends_RevokeFamily fam at_ :
  spends (fun t => if decide (t_FamilyID t = fam /\ t_RevokedAt t = None) then t <| t_RevokedAt := Some at_ |> else t).
Proof. solve_spends. Qed.

Lemma tokens_ok_Insert ts t ts' :
  tokens_ok ts -> tk_Insert ts t = Some ts' ->
  (forall r, r ∈ ts -> held r -> t_FamilyID r <> t_FamilyID t) -> tokens_ok ts'.
Proof.
  intros (Hi & Hh & Hu) Hins Hfam. unfold tk_Insert in Hins. case_decide as Hn; [done|].
  assert (forall r, r ∈ ts -> t_ID r <> t_ID t /\ t_TokenHash r <> t_TokenHash t) as Hnew.
  { intros r Hr. split; intros E; apply Hn, Exists_exists; exists r; tauto. }
  injection Hins as <-. unfold tokens_ok. rewrite !map_app. cbn [map]. split_and!.
  1,2: apply NoDup_app; split; [done|]; split; [|apply NoDup_singleton];
    intros x (r & -> & Hr)%list_elem_of_fmap; rewrite list_elem_of_singleton; by apply Hnew.
  set (t0 := t <| t_RotatedAt := None |> <| t_RevokedAt := None |>).
  assert (t_FamilyID t0 = t_FamilyID t) as Ef by done.
  intros a b Ha Hb Ka Kb E. rewrite elem_of_app, list_elem_of_singleton in Ha, Hb.
  destruct Ha as [Ha| ->], Hb as [Hb| ->]; [by apply Hu| | |done]; exfalso.
  - exact (Hfam a Ha Ka (eq_trans E Ef)).
  - exact (Hfam b Hb Kb (eq_trans (eq_sym E) Ef)).
Qed.

Lemma tk_GetByHash_spec ts h t : tk_GetByHash ts h = Some t -> t ∈ ts /\ t_TokenHash t = h.
Proof.
  unfold tk_GetByHash. intros E. assert (t ∈ filter (fun t => t_TokenHash t = h) ts) as Hin.
  { destruct (filter _ ts); [done|]. injection E as ->. by left. }
  by apply list_elem_of_filter in Hin as [? ?].
Qed.

Lemma by_hash_of ts a b : NoDup (map t_TokenHash ts) -> a ∈ ts -> b ∈ ts -> t_TokenHash a = t_TokenHash b -> a = b.
Proof.
  intros Hh (m & Hm)%list_elem_of_lookup (n & Hn)%list_elem_of_lookup E.
  assert (m = n) as ->; [|congruence]. eapply (NoDup_lookup (t_TokenHash <$> ts)); [exact Hh | by rewrite list_lookup_fmap, Hm |].
  rewrite list_lookup_fmap, Hn. simpl. by rewrite E.
Qed.

Lemma by_hash ts a b : tokens_ok ts -> a ∈ ts -> b ∈ ts -> t_TokenHash a = t_TokenHash b -> a = b.
Proof. intros (_ & Hh & _). by apply by_hash_of. Qed.

Lemma tk_GetByHash_Some ts t : tokens_ok ts -> t ∈ ts -> tk_GetByHash ts (t_TokenHash t) = Some t.
Proof.
  intros Hok Ht. unfold tk_GetByHash. destruct (filter _ ts) as [|u l] eqn:E.
  - assert (t ∈ filter (fun r => t_TokenHash r = t_TokenHash t) ts) as Hin by (by apply list_elem_of_filter).
    rewrite E in Hin. by apply elem_of_nil in Hin.
  - assert (u ∈ filter (fun r => t_TokenHash r = t_TokenHash t) ts) as Hin by (rewrite E; by left).
    apply list_elem_of_filter in Hin as [Eu Hu]. simpl. f_equal. by apply (by_hash ts).
Qed.

Lemma Compromised_spec t : Compromised t = false <-> held t.
Proof.
  unfold Compromised, held. rewrite orb_false_iff, !bool_decide_eq_false.
  split; intros [? ?]; split; try (by apply dec_stable); by intros [].
Qed.

Lemma tk_MarkRotated_spent ts t at_ :
  tokens_ok ts -> t ∈ ts -> held t ->
  forall r, r ∈ tk_MarkRotated ts (t_ID t) at_ -> held r -> t_FamilyID r <> t_FamilyID t.
Proof.
  intros (Hi & _ & Hu) Ht Hh r Hr Kr Ef. unfold tk_MarkRotated in Hr. change (map ?f ts) with (f <$> ts) in Hr.
  apply list_elem_of_fmap in Hr as (r0 & -> & Hr). case_decide as E.
  - by destruct Kr.
  - apply E. f_equal. by apply Hu.
Qed.

Lemma tk_RevokeFamily_spent ts fam at_ r : r ∈ tk_RevokeFamily ts fam at_ -> held r -> t_FamilyID r <> fam.
Proof.
  unfold tk_RevokeFamily. change (map ?f ts) with (f <$> ts). intros (r0 & -> & Hr)%list_elem_of_fmap [Ka Kb] Ef.
  case_decide as E; [done|]. by apply E.
Qed.

Lemma freshTokenID_fresh ts r : r ∈ ts -> t_ID r <> freshTokenID ts /\ t_FamilyID r <> freshTokenID ts.
Proof.
  intros Hr. assert (idWidth r <= foldr (fun t n => Nat.max (idWidth t) n) O ts)%nat as Hle.
  { induction ts as [|t ts IH]; [by apply elem_of_nil in Hr|]. simpl.
    apply elem_of_cons in Hr as [->|Hr]; [lia|]. specialize (IH Hr). lia. }
  unfold idWidth at 1 in Hle. unfold freshTokenID. split; intros E; rewrite E, to_of_bytes, length_replicate in Hle; lia.
Qed.

Lemma Login_tokens username password meta w :
  tokens_ok (as_tokens w) -> tokens_ok (as_tokens (snd (Login username password meta w))).
Proof.
  intros Hok. unfold Login, admit_, refuseLogin, newRefreshToken, userEvent, mbind, M_bind. simpl.
  destruct (Memory_Locked _ _ _); [done|].
  unfold find_user. destruct (head _) as [u|]; simpl; [|by destruct (Memory_RecordFailure _ _ _)].
  destruct (verify password (u_PasswordHash u)) as [v|]; [|done].
  destruct (negb v || negb (CanLogin u)); [by destruct (Memory_RecordFailure _ _ _)|]. simpl.
  destruct (tk_Insert (as_tokens w) _) as [ts'|] eqn:E; [|done]. simpl.
  eapply tokens_ok_Insert; [exact Hok | exact E|]. intros r Hr' _. simpl. by apply freshTokenID_fresh.
Qed.

Lemma Refresh_tokens plain meta w :
  tokens_ok (as_tokens w) -> tokens_ok (as_tokens (snd (Refresh plain meta w))).
Proof.
  intros Hok. pose proof (Refresh_cases plain meta w) as Hc. cbv zeta in Hc.
  destruct (tk_GetByHash _ _) as [t|] eqn:Eg; [|destruct Hc as [_ ->]; done].
  apply tk_GetByHash_spec in Eg as [Ht _]. destruct (Compromised t) eqn:Ec.
  - destruct Hc as [_ ->]. apply tokens_ok_map; [apply spends_RevokeFamily | done].
  - apply Compromised_spec in Ec. destruct Hc as [[_ ->]|(_ & tok & Ef & _ & Hc)]; [done|].
    assert (tokens_ok (tk_MarkRotated (as_tokens w) (t_ID t) (as_clock w))) as Hok1
      by (apply tokens_ok_map; [apply spends_MarkRotated | done]).
    destruct (tk_Insert _ _) as [ts2|] eqn:Ei; destruct Hc as [-> _]; [|done].
    eapply tokens_ok_Insert; [exact Hok1 | exact Ei|]. rewrite Ef. by apply tk_MarkRotated_spent.
Qed.

Lemma Logout_tokens plain meta w :
  tokens_ok (as_tokens w) -> tokens_ok (as_tokens (snd (Logout plain meta w))).
Proof.
  intros Hok. unfold Logout, userEvent, mbind, M_bind. simpl. destruct (tk_GetByHash _ _) as [t|]; [|done]. simpl.
  apply tokens_ok_map; [apply spends_Revoke | done].
Qed.

Lemma run_tokens rqs w : tokens_ok (as_tokens w) -> tokens_ok (as_tokens (run w rqs)).
Proof.
  revert w. induction rqs as [|rq rqs IH]; intros w Hok; [done|]. cbn [run fold_left]. apply IH.
  unfold step, answer. destruct rq as [t [username password|plain|plain]]; cbn [fst snd]; rewrite bind_snd.
  - by apply Login_tokens.
  - by apply Refresh_tokens.
  - by apply Logout_tokens.
Qed.

Lemma step_refresh w now plain :
  step w (now, RRefresh plain) =
  (Some (fst (Refresh plain noMeta (w <| as_clock := now |>))), snd (Refresh plain noMeta (w <| as_clock := now |>))).
Proof. unfold step, answer, mbind, M_bind. cbn [fst snd]. by destruct (Refresh _ _ _). Qed.

Lemma tk_Insert_inv ts t ts' :
  tk_Insert ts t = Some ts' -> ts' = ts ++ [t <| t_RotatedAt := None |> <| t_RevokedAt := None |>].
Proof. unfold tk_Insert. case_decide; [done|]. by intros [= <-]. Qed.

(** A spent token presented again. *)
Lemma Refresh_spent w t plain :
  tokens_ok (as_tokens w) -> t ∈ as_tokens w -> t_TokenHash t = hashToken plain -> ~ held t ->
  fst (Refresh plain noMeta w) = inr errBadCredentials /\
  forall r, r ∈ as_tokens (snd (Refresh plain noMeta w)) -> held r -> t_FamilyID r <> t_FamilyID t.
Proof.
  intros Hok Ht Eh Hs. pose proof (Refresh_cases plain noMeta w) as Hc. cbv zeta in Hc.
  rewrite <- Eh, (tk_GetByHash_Some _ _ Hok Ht) in Hc. destruct (Compromised t) eqn:Ec.
  - destruct Hc as [Hr Ht3]. split; [exact Hr|]. rewrite Ht3. intros r. apply tk_RevokeFamily_spent.
  - by apply Compromised_spec in Ec.
Qed.

(** A family of refresh tokens has at most one that can be exchanged, whatever
    is asked of the service in whatever order; ids and hashes stay unique. *)
Theorem family_invariant w rqs :
  tokens_ok (as_tokens w) -> tokens_ok (as_tokens (run w rqs)).
Proof. apply run_tokens. Qed.

(** Requests served one after another: after a refresh that succeeds, its token
    is spent and the new one is the only one of the family that can be
    exchanged; and presenting the old one again, at any later time and after any
    requests in between, is refused and leaves no token of the family that can
    be exchanged. *)
Theorem refresh_in_turn w now plain res rqs later :
  tokens_ok (as_tokens w) -> fst (step w (now, RRefresh plain)) = Some (inl res) ->
  let w1 := snd (step w (now, RRefresh plain)) in
  let w2 := run w1 rqs in
  let w3 := snd (step w2 (later, RRefresh plain)) in
  exists fam,
    (exists new, new ∈ as_tokens w1 /\ t_TokenHash new = hashToken (RefreshPlain res) /\ t_FamilyID new = fam /\
       forall r, r ∈ as_tokens w1 -> held r -> t_FamilyID r = fam -> r = new) /\
    fst (step w2 (later, RRefresh plain)) = Some (inr errBadCredentials) /\
    forall r, r ∈ as_tokens w3 -> held r -> t_FamilyID r <> fam.
Proof.
  intros Hok Hr w1 w2 w3. unfold w1, w3 in *. clear w1 w3. unfold w2. clear w2. rewrite !step_refresh in *.
  cbn [fst snd] in *. set (w0 := w <| as_clock := now |>) in *.
  pose proof (Refresh_cases plain noMeta w0) as Hc. cbv zeta in Hc.
  injection Hr as Hr. set (w1 := snd (Refresh plain noMeta w0)) in *.
  destruct (tk_GetByHash _ _) as [t|] eqn:Eg; [|destruct Hc as [E _]; congruence].
  apply tk_GetByHash_spec in Eg as [Ht Eh]. destruct (Compromised t) eqn:Ec; [destruct Hc as [E _]; congruence|].
  apply Compromised_spec in Ec. destruct Hc as [[E _]|(_ & tok & Ef & _ & Hc)]; [congruence|].
  destruct (tk_Insert _ _) as [ts2|] eqn:Ei; [|destruct Hc as [_ [e E]]; congruence].
  destruct Hc as [E1 (res' & Er & Etok)]. assert (res' = res) as -> by congruence. apply tk_Insert_inv in Ei.
  exists (t_FamilyID t). split; [|].
  - set (new := tok <| t_RotatedAt := None |> <| t_RevokedAt := None |>) in *. exists new.
    rewrite E1, Ei. split; [apply elem_of_app; right; by apply list_elem_of_singleton|]. split; [done|]. split; [done|].
    intros r [Hr1|Hr1]%elem_of_app Hh Efam; [|by apply list_elem_of_singleton in Hr1].
    exfalso. by apply (tk_MarkRotated_spent (as_tokens w0) t (as_clock w0) Hok Ht Ec r Hr1 Hh).
  - set (t' := t <| t_RotatedAt := Some (as_clock w0) |>).
    assert (t' ∈ as_tokens w1) as Ht'.
    { rewrite E1, Ei. apply elem_of_app. left. unfold tk_MarkRotated. change (map ?f ?l) with (f <$> l).
      apply list_elem_of_fmap. exists t. by rewrite decide_True. }
    destruct (run_grows rqs w1 t' Ht') as (t2 & Ht2 & _ & Eh2 & Ef2 & _ & Hh2).
    set (w2 := (run w1 rqs) <| as_clock := later |>).
    assert (tokens_ok (as_tokens w2)) as Hok2 by (apply run_tokens; unfold w1; by apply Refresh_tokens).
    destruct (Refresh_spent w2 t2 plain Hok2 Ht2) as [Hrefused Hnone].
    { by rewrite Eh2. }
    { intros Hh. by destruct (Hh2 Hh). }
    split; [by rewrite Hrefused|]. intros r Hr2 Hh. rewrite <- (Ef2 : t_FamilyID t2 = t_FamilyID t). by apply Hnone.
Qed.

(** ** Refreshes at once *)

(** A refresh between two of its statements: what it has read, and when. *)
Inductive flight : Type :=
  | Asked
  | Revoking (t : RefreshToken) (now : Time)
  | Looking (t : RefreshToken) (now : Time)
  | Rostering (t : RefreshToken) (u : User) (now : Time)
  | Marking (t : RefreshToken) (u : User) (roles : list string) (now : Time)
  | Issuing (t : RefreshToken) (u : User) (roles : list string)
  | Answered (r : LoginResult + Err).

(** [Refresh] to its next statement, and that statement. *)
Definition advance (plain : string) (f : flight) : M AuthStore flight :=
  match f with
  | Asked =>
      r ← GetByHash (hashToken plain);
      match r with
      | inr e => mret (Answered (inr (if decide (kindOf (Some e) = KindNotFound) then errBadCredentials else e)))
      | inl t =>
          now ← AuthNow;
          mret (if Compromised t then Revoking t now else if negb (Usable t now) then Answered (inr errBadCredentials) else Looking t now)
      end
  | Revoking t now =>
      _ ← RevokeFamily (t_FamilyID t) now;
      _ ← userEvent noMeta "auth.token.reuse" (t_UserID t) (t_FamilyID t);
      mret (Answered (inr errBadCredentials))
  | Looking t now =>
      r ← GetByID (t_UserID t);
      mret match r with
      | inr _ => Answered (inr errBadCredentials)
      | inl u => if negb (CanLogin u) then Answered (inr errBadCredentials) else Rostering t u now
      end
  | Rostering t u now =>
      r ← RoleNames (u_ID u);
      mret match r with inr e => Answered (inr e) | inl roles => Marking t u roles now end
  | Marking t u roles now =>
      r ← MarkRotated (t_ID t) now;
      mret match r with Some e => Answered (inr e) | None => Issuing t u roles end
  | Issuing t u roles =>
      r ← newRefreshToken (u_ID u) (t_FamilyID t);
      match r with
      | inr e => mret (Answered (inr e))
      | inl (plain, tok) =>
          r ← Insert tok;
          match r with
          | Some e => mret (Answered (inr e))
          | None =>
              r ← Issue (u_ID u) (u_Username u) (u_TenantID u) roles;
              match r with
              | inr e => mret (Answered (inr (kindError KindInternal (ErrWrap "issue access token" e))))
              | inl access =>
                  _ ← userEvent noMeta "auth.token.refresh" (u_ID u) "";
                  mret (Answered (inl (mkLoginResult access TTLSeconds plain u roles (u_PasswordChangeRequired u))))
              end
          end
      end
  | Answered r => mret (Answered r)
  end.

Fixpoint advances (n : nat) (plain : string) (f : flight) : M AuthStore flight :=
  match n with O => mret f | S n => f ← advance plain f; advances n plain f end.

(** Taken to its end with nobody in between, it is [Refresh]. *)
Lemma advances_alone plain w :
  advances 6 plain Asked w = (Answered (fst (Refresh plain noMeta w)), snd (Refresh plain noMeta w)).
Proof.
  unfold Refresh, refreshCheck, refreshIssue, newRefreshToken, userEvent, mbind, M_bind. simpl.
  unfold mbind, M_bind. simpl. destruct (tk_GetByHash _ _) as [t|]; simpl; [|done].
  destruct (Compromised t); simpl; [done|]. destruct (Usable t _); simpl; [|done].
  destruct (find_user _ w) as [u|]; simpl; [|done]. destruct (CanLogin u); simpl; [|done].
  unfold newRefreshToken, mbind, M_bind. simpl. by destruct (tk_Insert _ _).
Qed.

(** The service with the refreshes begun so far, in the order they came. A login
    writes one row and a logout marks one by its id, so that either is served
    whole at its statement. *)
Record Service : Type := mkService { sv_store : AuthStore; sv_flights : list (string * flight) }.

Inductive turn : Type :=
  | Begin (plain : string)
  | Advance (i : nat)
  | ServeLogin (username password : string)
  | ServeLogout (plain : string).

Definition exec1 (s : Service) (t : Time * turn) : Service :=
  let w := (sv_store s) <| as_clock := t.1 |> in
  match t.2 with
  | Begin plain => mkService w (sv_flights s ++ [(plain, Asked)])
  | Advance i =>
      match sv_flights s !! i with
      | Some (plain, f) => let '(f, w) := advance plain f w in mkService w (<[i := (plain, f)]> (sv_flights s))
      | None => mkService w (sv_flights s)
      end
  | ServeLogin username password => mkService (snd (Login username password noMeta w)) (sv_flights s)
  | ServeLogout plain => mkService (snd (Logout plain noMeta w)) (sv_flights s)
  end.
Definition exec (s : Service) (ts : list (Time * turn)) : Service := fold_left exec1 ts s.

(** What any action of the service does to the table: rows keep who they are,
    and no two have one hash. *)
Definition kept (w w' : AuthStore) : Prop :=
  grows (as_tokens w) (as_tokens w') /\ (NoDup (map t_TokenHash (as_tokens w)) -> NoDup (map t_TokenHash (as_tokens w'))).
#[local] Instance kept_preorder : PreOrder kept.
Proof. split; [intros w; split; [reflexivity|done]|]. intros a b c [G1 H1] [G2 H2]. split; [by etrans|auto]. Qed.

Lemma kept_map (w w' : AuthStore) f : as_tokens w' = map f (as_tokens w) ->
  (forall t, t_TokenHash (f t) = t_TokenHash t) -> grows (as_tokens w) (as_tokens w') -> kept w w'.
Proof. intros E Hf Hg. split; [done|]. rewrite E, map_map. by rewrite (map_ext _ t_TokenHash Hf). Qed.

Lemma Insert_kept t : moves kept (Insert t).
Proof.
  intros w. split; [apply Insert_grows|]. simpl. destruct (tk_Insert _ _) as [ts|] eqn:E; [|done]. simpl. unfold tk_Insert in E. case_decide as Hn; [done|].
  injection E as <-. intros Hd. rewrite map_app. apply NoDup_app. split; [done|]. split; [|apply NoDup_singleton].
  intros x Hx Hx2. apply list_elem_of_singleton in Hx2 as ->. change (map ?f ?l) with (f <$> l) in Hx. apply list_elem_of_fmap in Hx as (r & E & Hr).
  apply Hn, Exists_exists. exists r. split; [done|]. right. by rewrite <- E.
Qed.
Lemma MarkRotated_kept id at_ : moves kept (MarkRotated id at_).
Proof. intros w. eapply kept_map; [done|intros t; simpl; by case_decide|apply MarkRotated_grows]. Qed.
Lemma Revoke_kept id at_ : moves kept (Revoke id at_).
Proof. intros w. eapply kept_map; [done|intros t; simpl; by case_decide|apply Revoke_grows]. Qed.
Lemma RevokeFamily_kept fam at_ : moves kept (RevokeFamily fam at_).
Proof. intros w. eapply kept_map; [done|intros t; simpl; by case_decide|apply RevokeFamily_grows]. Qed.
Lemma RecordFailure_kept k : moves kept (RecordFailure k).
Proof. intros w. split; [apply RecordFailure_grows|]. simpl. by destruct (Memory_RecordFailure _ _ _). Qed.
#[local] Hint Resolve Insert_kept MarkRotated_kept Revoke_kept RevokeFamily_kept RecordFailure_kept : moves.
#[local] Hint Extern 4 (moves kept _) => (intros ?; reflexivity) : moves.

Lemma newRefreshToken_kept u fam : moves kept (newRefreshToken u fam).
Proof. unfold newRefreshToken. solve_moves. Qed.
#[local] Hint Resolve newRefreshToken_kept : moves.

Lemma advance_kept plain f : moves kept (advance plain f).
Proof. destruct f; cbn [advance]; unfold userEvent; solve_moves. Qed.
Lemma Login_kept username password : moves kept (Login username password noMeta).
Proof. unfold Login, refuseLogin, admit_, userEvent. solve_moves. Qed.
Lemma Logout_kept plain : moves kept (Logout plain noMeta).
Proof. unfold Logout, userEvent. solve_moves. Qed.

Lemma exec1_kept s t : kept (sv_store s) (sv_store (exec1 s t)).
Proof.
  destruct t as [now tn]. unfold exec1. set (w := (sv_store s) <| as_clock := now |>). change (kept w (sv_store (exec1 s (now, tn)))). unfold exec1. cbv zeta. cbn [fst snd]. fold w.
  destruct tn as [plain|i|username password|plain]; cbn [fst snd sv_store].
  - reflexivity.
  - destruct (sv_flights s !! i) as [[plain f]|]; [|reflexivity]. pose proof (advance_kept plain f w) as H. by destruct (advance plain f w).
  - apply Login_kept.
  - apply Logout_kept.
Qed.

Lemma exec_kept ts : forall s, kept (sv_store s) (sv_store (exec s ts)).
Proof. induction ts as [|t ts IH]; intros s; [reflexivity|]. etrans; [apply exec1_kept|apply IH]. Qed.
Lemma exec_app s ts1 ts2 : exec s (ts1 ++ ts2) = exec (exec s ts1) ts2.
Proof. apply fold_left_app. Qed.

(** The row of a token that was read, as it stands now. *)
Definition rowOf (ts : Tokens) (t r : RefreshToken) : Prop :=
  r ∈ ts /\ t_ID r = t_ID t /\ t_TokenHash r = t_TokenHash t /\ t_FamilyID r = t_FamilyID t.
Definition known (ts : Tokens) (t : RefreshToken) : Prop := exists r, rowOf ts t r.
Definition spent (ts : Tokens) (t : RefreshToken) : Prop := exists r, rowOf ts t r /\ ~ held r.

Lemma known_grows ts ts' t : grows ts ts' -> known ts t -> known ts' t.
Proof. intros G (r & Hr & E1 & E2 & E3). destruct (G r Hr) as (r' & Hr' & F1 & F2 & F3 & _). exists r'. split; [done|]. split_and!; congruence. Qed.
Lemma spent_grows ts ts' t : grows ts ts' -> spent ts t -> spent ts' t.
Proof.
  intros G (r & (Hr & E1 & E2 & E3) & Hs). destruct (G r Hr) as (r' & Hr' & F1 & F2 & F3 & _ & Hh). exists r'. split; [split; [done|split_and!; congruence]|auto].
Qed.

Lemma known_row ts t : t ∈ ts -> known ts t.
Proof. intros H. exists t. by split_and!. Qed.

(** What a refresh of [plain] holds of the table, by where it is. *)
Definition flight_ok (ts : Tokens) (plain : string) (f : flight) : Prop :=
  match f with
  | Asked | Revoking _ _ | Answered (inr _) => True
  | Looking t _ | Rostering t _ _ | Marking t _ _ _ => t_TokenHash t = hashToken plain /\ known ts t
  | Issuing t _ _ => t_TokenHash t = hashToken plain /\ spent ts t
  | Answered (inl res) => exists t new, t_TokenHash t = hashToken plain /\ spent ts t /\
      known ts new /\ t_TokenHash new = hashToken (RefreshPlain res) /\ t_FamilyID new = t_FamilyID t
  end.

Lemma flight_ok_grows ts ts' plain f : grows ts ts' -> flight_ok ts plain f -> flight_ok ts' plain f.
Proof.
  intros G. destruct f as [|t n|t n|t u n|t u r n|t u r|[res|e]]; cbn [flight_ok]; try done;
    try (intros [? ?]; split; [done|]; first [by eapply known_grows | by eapply spent_grows]).
  intros (t & new & H1 & H2 & H3 & H4). exists t, new. split; [done|]. split; [by eapply spent_grows|]. split; [by eapply known_grows|done].
Qed.

Lemma MarkRotated_spent ts t at_ : known ts t -> spent (tk_MarkRotated ts (t_ID t) at_) t.
Proof.
  intros (r & Hr & E1 & E2 & E3). exists (r <| t_RotatedAt := Some at_ |>). split; [|by intros []].
  split; [|done]. unfold tk_MarkRotated. change (map ?f ts) with (f <$> ts). apply list_elem_of_fmap. exists r. by rewrite decide_True.
Qed.

Lemma advance_ok plain f w : flight_ok (as_tokens w) plain f ->
  let r := advance plain f w in flight_ok (as_tokens (snd r)) plain (fst r).
Proof.
  intros Hf. cbv zeta. destruct f as [|t n|t n|t u n|t u rs n|t u rs|r]; cbn [advance]; rewrite ?bind_fst, ?bind_snd.
  - simpl. destruct (tk_GetByHash _ _) as [t|] eqn:E; [|done]. apply tk_GetByHash_spec in E as [Ht Eh]. unfold mbind, M_bind. simpl.
    destruct (Compromised t); [done|]. destruct (Usable t (as_clock w)); [|done]. simpl. split; [done|by apply known_row].
  - done.
  - simpl. destruct (find_user _ w) as [u|]; [|done]. by destruct (CanLogin u).
  - simpl. done.
  - simpl. destruct Hf as [Hh Hk]. split; [done|]. by apply MarkRotated_spent.
  - destruct Hf as [Hh Hk]. unfold newRefreshToken, userEvent, mbind, M_bind. simpl. destruct (tk_Insert _ _) as [ts|] eqn:E; [|done]. simpl.
    set (tok := mkRefreshToken _ _ _ _ _ _ _ _) in E. exists t, tok. split; [done|]. apply tk_Insert_inv in E as ->. split; [|split; [|done]].
    + eapply spent_grows; [|exact Hk]. intros r Hr. exists r. by split_and!; [apply elem_of_app; left|..].
    + apply known_row, elem_of_app. right. by apply list_elem_of_singleton.
  - done.
Qed.

(** A flight keeps its place and its token. *)
Lemma exec1_flight s t i plain f : sv_flights s !! i = Some (plain, f) ->
  exists f', sv_flights (exec1 s t) !! i = Some (plain, f') /\
    (f' = f \/ t.2 = Advance i /\ f' = fst (advance plain f ((sv_store s) <| as_clock := t.1 |>))).
Proof.
  intros E. destruct t as [now [p|k|username password|p]]; unfold exec1; cbv zeta; cbn [fst snd sv_flights]; try (exists f; by auto).
  - exists f. split; [by apply lookup_app_l_Some|by left].
  - destruct (sv_flights s !! k) as [[p g]|] eqn:Ek; [|exists f; by auto]. destruct (advance p g _) as [g' w'] eqn:Ea. cbn [sv_flights].
    destruct (decide (k = i)) as [->|Hne].
    + rewrite E in Ek. injection Ek as <- <-. exists g'. rewrite list_lookup_insert_eq by (by eapply lookup_lt_Some). split; [done|]. right. by rewrite Ea.
    + exists f. rewrite list_lookup_insert_ne by done. by auto.
Qed.

Lemma exec_flight ts i plain : forall s f, sv_flights s !! i = Some (plain, f) -> flight_ok (as_tokens (sv_store s)) plain f ->
  exists f', sv_flights (exec s ts) !! i = Some (plain, f') /\ flight_ok (as_tokens (sv_store (exec s ts))) plain f'.
Proof.
  induction ts as [|t ts IH]; intros s f E Hf; [by exists f|]. destruct (exec1_flight s t i plain f E) as (f' & E' & Hc). apply (IH (exec1 s t) f' E').
  destruct Hc as [->|[Et ->]]; [by eapply flight_ok_grows; [apply exec1_kept|]|].
  set (w := (sv_store s) <| as_clock := t.1 |>). assert (flight_ok (as_tokens w) plain f) as Hw by exact Hf. apply advance_ok in Hw. cbv zeta in Hw.
  replace (sv_store (exec1 s t)) with (snd (advance plain f w)); [done|].
  unfold exec1. rewrite Et, E. fold w. by destruct (advance _ _ _).
Qed.

(** A refresh that asks after the token is spent. *)
Definition refusing (fam plain : string) (f : flight) : Prop :=
  match f with Asked => True | Revoking t _ => t_FamilyID t = fam | Answered r => r = inr errBadCredentials | _ => False end.

Lemma GetByHash_spent ts t : NoDup (map t_TokenHash ts) -> spent ts t ->
  exists r, tk_GetByHash ts (t_TokenHash t) = Some r /\ Compromised r = true /\ t_FamilyID r = t_FamilyID t.
Proof.
  intros Hd (r & (Hr & _ & Eh & Ef) & Hs). destruct (tk_GetByHash ts (t_TokenHash t)) as [r'|] eqn:E.
  - apply tk_GetByHash_spec in E as [Hr' Eh']. assert (r' = r) as -> by (apply (by_hash_of ts); congruence).
    exists r. split; [done|]. split; [|done]. destruct (Compromised r) eqn:Ec; [done|]. by apply Compromised_spec in Ec.
  - exfalso. unfold tk_GetByHash in E. assert (r ∈ filter (fun x => t_TokenHash x = t_TokenHash t) ts) as Hin by (by apply list_elem_of_filter).
    destruct (filter _ ts); [by apply elem_of_nil in Hin|done].
Qed.

Lemma advance_refusing plain t f w : NoDup (map t_TokenHash (as_tokens w)) -> spent (as_tokens w) t -> t_TokenHash t = hashToken plain ->
  refusing (t_FamilyID t) plain f -> match f with Asked => True | _ => fst (advance plain f w) = Answered (inr errBadCredentials) end /\
  match f with Asked => exists r now, fst (advance plain f w) = Revoking r now /\ t_FamilyID r = t_FamilyID t | _ => True end.
Proof.
  intros Hd Hs Eh Hf. destruct f as [|r n| | | | |r]; try done; [|by cbn in Hf; subst r]. split; [done|].
  destruct (GetByHash_spent _ _ Hd Hs) as (r & E & Hc & Ef). cbn [advance]. rewrite bind_fst. simpl. rewrite <- Eh, E. unfold mbind, M_bind. simpl. rewrite Hc.
  by exists r, (as_clock w).
Qed.

Lemma exec1_advance s now i plain f : sv_flights s !! i = Some (plain, f) ->
  let r := advance plain f ((sv_store s) <| as_clock := now |>) in
  exec1 s (now, Advance i) = mkService (snd r) (<[i := (plain, fst r)]> (sv_flights s)).
Proof. intros E. unfold exec1. cbv zeta. cbn [fst snd]. rewrite E. by destruct (advance _ _ _). Qed.

(** Of the refreshes of [plain] from the [n]th on. *)
Definition late (n : nat) (t : RefreshToken) (plain : string) (s : Service) : Prop :=
  NoDup (map t_TokenHash (as_tokens (sv_store s))) /\ spent (as_tokens (sv_store s)) t /\
  forall j f, (n <= j)%nat -> sv_flights s !! j = Some (plain, f) -> refusing (t_FamilyID t) plain f.

Lemma late_exec1 n t plain s tn : t_TokenHash t = hashToken plain -> late n t plain s -> late n t plain (exec1 s tn).
Proof.
  intros Eh (Hd & Hs & Hr). destruct (exec1_kept s tn) as [G K]. split; [by apply K|]. split; [by eapply spent_grows|].
  intros j f Hj E. destruct (sv_flights s !! j) as [[p g]|] eqn:Ej.
  - destruct (exec1_flight s tn j p g Ej) as (f' & E' & Hc). rewrite E in E'. injection E' as <- <-. specialize (Hr j g Hj Ej).
    destruct Hc as [->|[_ ->]]; [done|]. set (w := (sv_store s) <| as_clock := tn.1 |>).
    destruct (advance_refusing plain t g w) as [H1 H2]; try done. destruct g; try done; try (by rewrite H1).
    destruct H2 as (r & m & -> & Ef). done.
  - destruct tn as [now [p|k|username password|p]]; unfold exec1 in E; cbv zeta in E; cbn [fst snd sv_flights] in E; try congruence.
    + apply lookup_app_Some in E as [E|[_ E]]; [congruence|]. apply list_lookup_singleton_Some in E as [_ E]. by injection E as _ <-.
    + destruct (sv_flights s !! k) as [[p g]|] eqn:Ek; [|cbn [sv_flights] in E; congruence]. destruct (advance _ _ _) as [g' w']. cbn [sv_flights] in E.
      assert (j <> k) by congruence. rewrite list_lookup_insert_ne in E by done. congruence.
Qed.

Lemma late_exec n t plain ts : forall s, t_TokenHash t = hashToken plain -> late n t plain s -> late n t plain (exec s ts).
Proof. induction ts as [|tn ts IH]; intros s Eh Hl; [done|]. apply IH; [done|]. by apply late_exec1. Qed.

(** Two more statements of its own at most, and it is refused. *)
Lemma late_refused n t plain s j f n1 n2 : t_TokenHash t = hashToken plain -> late n t plain s -> (n <= j)%nat -> sv_flights s !! j = Some (plain, f) ->
  sv_flights (exec s [(n1, Advance j); (n2, Advance j)]) !! j = Some (plain, Answered (inr errBadCredentials)).
Proof.
  intros Eh Hl Hj E. cbn [exec fold_left]. pose proof Hl as (Hd & Hs & Hr).
  pose proof (late_exec1 n t plain s (n1, Advance j) Eh Hl) as Hl1. rewrite (exec1_advance s n1 j plain f E) in *. cbv zeta in *.
  set (w := (sv_store s) <| as_clock := n1 |>) in *. set (s1 := mkService _ _) in *.
  assert (sv_flights s1 !! j = Some (plain, fst (advance plain f w))) as E1 by (cbn; rewrite list_lookup_insert_eq; [done|by eapply lookup_lt_Some]).
  rewrite (exec1_advance s1 n2 j plain _ E1). cbn [sv_flights]. rewrite list_lookup_insert_eq by (by eapply lookup_lt_Some). do 2 f_equal.
  destruct (advance_refusing plain t f w) as [H1 H2]; [done|done|done|by eapply Hr|]. destruct f as [| | | | | |r]; try (by rewrite H1).
  destruct H2 as (r & m & -> & Ef). done.
Qed.

(** *** A family with no token left *)

(** The family of the token a refresh has read and not yet exchanged. *)
Definition inHand (f : flight) : option string :=
  match f with
  | Looking t _ | Rostering t _ _ | Marking t _ _ _ | Issuing t _ _ => Some (t_FamilyID t)
  | _ => None
  end.
Definition nobody (fam : string) (s : Service) : Prop := forall k p f, sv_flights s !! k = Some (p, f) -> inHand f <> Some fam.

Definition gone (fam : string) (ts : Tokens) : Prop :=
  (exists r, r ∈ ts /\ t_FamilyID r = fam) /\ forall r, r ∈ ts -> held r -> t_FamilyID r <> fam.

Lemma gone_map fam f ts : spends f -> gone fam ts -> gone fam (map f ts).
Proof.
  intros Hf [(r & Hr & Ef) Hg]. change (map f ts) with (f <$> ts). split.
  - exists (f r). split; [by apply list_elem_of_fmap_2|]. destruct (Hf r) as (_ & _ & -> & _). done.
  - intros x (y & -> & Hy)%list_elem_of_fmap Hh. destruct (Hf y) as (_ & _ & -> & Hg'). apply Hg; auto.
Qed.

Lemma gone_Insert fam ts t ts' : gone fam ts -> t_FamilyID t <> fam -> tk_Insert ts t = Some ts' -> gone fam ts'.
Proof.
  intros [(r & Hr & Ef) Hg] Hne ->%tk_Insert_inv. split; [exists r; split; [apply elem_of_app; by left|done]|].
  intros x [Hx|Hx]%elem_of_app Hh; [by apply Hg|]. by apply list_elem_of_singleton in Hx as ->.
Qed.

Lemma gone_Login fam username password w : gone fam (as_tokens w) -> gone fam (as_tokens (snd (Login username password noMeta w))).
Proof.
  intros Hg. unfold Login, admit_, refuseLogin, newRefreshToken, userEvent, mbind, M_bind. simpl.
  destruct (Memory_Locked _ _ _); [done|].
  unfold find_user. destruct (head _) as [u|]; simpl; [|by destruct (Memory_RecordFailure _ _ _)].
  destruct (verify password (u_PasswordHash u)) as [v|]; [|done].
  destruct (negb v || negb (CanLogin u)); [by destruct (Memory_RecordFailure _ _ _)|]. simpl.
  destruct (tk_Insert (as_tokens w) _) as [ts'|] eqn:E; [|done]. simpl.
  eapply gone_Insert; [exact Hg| |exact E]. simpl. destruct Hg as [(r & Hr & <-) _]. intros Ef. by apply (freshTokenID_fresh _ _ Hr).
Qed.

Lemma gone_Logout fam plain w : gone fam (as_tokens w) -> gone fam (as_tokens (snd (Logout plain noMeta w))).
Proof.
  intros Hg. unfold Logout, userEvent, mbind, M_bind. simpl. destruct (tk_GetByHash _ _) as [t|]; [|done]. simpl. apply gone_map; [apply spends_Revoke|done].
Qed.

Lemma gone_advance fam plain f w : gone fam (as_tokens w) -> inHand f <> Some fam ->
  gone fam (as_tokens (snd (advance plain f w))) /\ inHand (fst (advance plain f w)) <> Some fam.
Proof.
  intros Hg Hn. destruct f as [|t n|t n|t u n|t u rs n|t u rs|r]; cbn [advance]; rewrite ?bind_fst, ?bind_snd.
  - simpl. destruct (tk_GetByHash _ _) as [t|] eqn:E; [|done]. apply tk_GetByHash_spec in E as [Ht Eh]. unfold mbind, M_bind. simpl.
    split; [done|]. destruct (Compromised t) eqn:Ec; [done|]. apply Compromised_spec in Ec. destruct (Usable t (as_clock w)); [|done].
    cbn. intros [= Ef]. by apply (proj2 Hg t Ht Ec).
  - unfold userEvent. simpl. split; [|done]. apply gone_map; [apply spends_RevokeFamily|done].
  - simpl. destruct (find_user _ w) as [u|]; [|done]. by destruct (CanLogin u).
  - simpl. done.
  - simpl. split; [|done]. apply gone_map; [apply spends_MarkRotated|done].
  - unfold newRefreshToken, userEvent, mbind, M_bind. simpl. destruct (tk_Insert _ _) as [ts|] eqn:E; [|done]. simpl. split; [|done].
    eapply gone_Insert; [exact Hg| |exact E]. simpl. intros Ef. apply Hn. cbn. by f_equal.
  - done.
Qed.

Lemma gone_exec1 fam s t : gone fam (as_tokens (sv_store s)) -> nobody fam s ->
  gone fam (as_tokens (sv_store (exec1 s t))) /\ nobody fam (exec1 s t).
Proof.
  intros Hg Hn. destruct t as [now [p|k|username password|p]]; unfold exec1; cbv zeta; cbn [fst snd].
  - split; [exact Hg|]. intros k p' f. cbn [sv_flights]. intros [H|[_ H]]%lookup_app_Some; [by eapply Hn|].
    apply list_lookup_singleton_Some in H as [_ [= _ <-]]. done.
  - destruct (sv_flights s !! k) as [[p f]|] eqn:Ek; [|done]. set (w := (sv_store s) <| as_clock := now |>).
    destruct (gone_advance fam p f w Hg (Hn k p f Ek)) as [H1 H2]. destruct (advance p f w) as [f' w']. split; [exact H1|].
    intros j p' g. cbn [sv_flights]. destruct (decide (k = j)) as [->|Hne].
    + rewrite list_lookup_insert_eq by (by eapply lookup_lt_Some). by intros [= _ <-].
    + rewrite list_lookup_insert_ne by done. apply Hn.
  - split; [by apply gone_Login|exact Hn].
  - split; [by apply gone_Logout|exact Hn].
Qed.

Lemma gone_exec fam ts : forall s, gone fam (as_tokens (sv_store s)) -> nobody fam s -> gone fam (as_tokens (sv_store (exec s ts))).
Proof.
  induction ts as [|t ts IH]; intros s Hg Hn; [done|]. destruct (gone_exec1 fam s t Hg Hn) as [H1 H2]. by apply IH.
Qed.

Lemma tk_RevokeFamily_gone ts fam at_ : (exists r, r ∈ ts /\ t_FamilyID r = fam) -> gone fam (tk_RevokeFamily ts fam at_).
Proof.
  intros (r & Hr & Ef). split; [|intros x; apply tk_RevokeFamily_spent].
  unfold tk_RevokeFamily. change (map ?f ts) with (f <$> ts). eexists. split; [by apply list_elem_of_fmap_2|]. by case_decide.
Qed.

(** C12. Refreshes, logins and logouts interleave as they like, each refresh a
    statement at a time. Once a refresh of [plain] has answered with tokens, the
    token of [plain] is spent, and every refresh of it that begins after that is
    refused, within two statements of its own. Such a refresh, when it comes to
    revoke the family, leaves no token of it that can be exchanged, then or ever
    after, unless another refresh of the family has its token in hand at that
    moment. (Two refreshes that read the token before either marks it both
    succeed: that is [concurrent_refreshes_fork].) *)
Theorem refresh_single_use s ts1 i plain res :
  NoDup (map t_TokenHash (as_tokens (sv_store s))) ->
  sv_flights s !! i = Some (plain, Asked) ->
  let s1 := exec s ts1 in sv_flights s1 !! i = Some (plain, Answered (inl res)) ->
  exists t new, t ∈ as_tokens (sv_store s1) /\ t_TokenHash t = hashToken plain /\ ~ held t /\
    new ∈ as_tokens (sv_store s1) /\ t_TokenHash new = hashToken (RefreshPlain res) /\ t_FamilyID new = t_FamilyID t /\
    forall ts2 j f, let s2 := exec s1 ts2 in
      (length (sv_flights s1) <= j)%nat -> sv_flights s2 !! j = Some (plain, f) ->
      (forall n1 n2, sv_flights (exec s2 [(n1, Advance j); (n2, Advance j)]) !! j = Some (plain, Answered (inr errBadCredentials))) /\
      forall r now n ts3, f = Revoking r now -> nobody (t_FamilyID t) s2 ->
        forall x, x ∈ as_tokens (sv_store (exec s2 ((n, Advance j) :: ts3))) -> held x -> t_FamilyID x <> t_FamilyID t.
Proof.
  intros Hd E s1 E1. destruct (exec_flight ts1 i plain s Asked E I) as (f' & E' & Hf). fold s1 in E', Hf. rewrite E1 in E'. injection E' as <-.
  destruct Hf as (t0 & new0 & Eh & (t & (Ht & Et1 & Et2 & Et3) & Hs) & (new & Hn & En1 & En2 & En3) & Ehn & Efn).
  exists t, new. split; [done|]. split; [congruence|]. split; [done|]. split; [done|]. split; [congruence|]. split; [congruence|].
  assert (late (length (sv_flights s1)) t plain s1) as Hl1.
  { split; [by apply (exec_kept ts1 s)|]. split; [by exists t; split_and!|]. intros j f Hj Ej. apply lookup_lt_Some in Ej. lia. }
  intros ts2 j f s2 Hj Ej. assert (t_TokenHash t = hashToken plain) as Eh' by congruence.
  pose proof (late_exec _ t plain ts2 s1 Eh' Hl1) as Hl2. fold s2 in Hl2. split; [intros n1 n2; by eapply late_refused|].
  intros r now n ts3 -> Hnob. pose proof Hl2 as (_ & (row & (Hrow & _ & _ & Ef) & _) & Hr). specialize (Hr j _ Hj Ej). cbn [refusing] in Hr.
  change (exec s2 ((n, Advance j) :: ts3)) with (exec (exec1 s2 (n, Advance j)) ts3).
  assert (gone (t_FamilyID t) (as_tokens (sv_store (exec1 s2 (n, Advance j)))) /\ nobody (t_FamilyID t) (exec1 s2 (n, Advance j))) as [Hg Hnob'].
  { rewrite (exec1_advance s2 n j plain _ Ej). cbv zeta. cbn [sv_store]. split.
    - cbn. rewrite <- Hr. apply tk_RevokeFamily_gone. exists row. split; [done|congruence].
    - intros k p g. cbn [sv_flights]. destruct (decide (j = k)) as [->|Hne].
      + rewrite list_lookup_insert_eq by (by eapply lookup_lt_Some). by intros [= _ <-].
      + rewrite list_lookup_insert_ne by done. apply Hnob. }
  apply (gone_exec _ ts3 _ Hg Hnob').
Qed.
End store.

(** ** At work *)

Definition lowerByte (c : byte) : byte := if within 65 (bz c) 90 then zb (bz c + 32) else c.
Definition lowercase (s : string) : string := of_bytes (map lowerByte (to_bytes s)).
Definition noHash (b : bytes) : bytes := b.
Definition sameText (password hash : string) : bool + Err := inl (bool_decide (password = hash)).
Definition numbered (n : Z) : string := "tok" +:+ Itoa n.
Definition anAdmin : User := mkUser "u1" "t" "admin" "" "secret" "" UserActive false None.
Definition aStore : AuthStore := mkAuthStore [anAdmin] (fun _ => ["admin"]) [] NewMemory 0 [] 0.

Abbreviation aStep := (step lowercase noHash sameText numbered).
Abbreviation aRun := (run lowercase noHash sameText numbered).

Definition guesses (name : string) (n : nat) : list (Time * request) :=
  replicate n (Minute, RLogin name "guess").

(** Locked out after five guesses, the right password included... *)
Lemma login_throttled_witness :
  as_lock aStore !! "admin" = None /\
  fst (aStep (aRun aStore (guesses "admin" 5)) (2 * Minute, RLogin "admin" "secret")) = Some (inr ErrLocked).
Proof.
  split; [done|].
  apply (login_throttled lowercase noHash sameText numbered aStore (guesses "admin" 5) "admin" "secret" (2 * Minute) eq_refl).
  split; [by vm_compute|]. exists Minute. by vm_compute.
Defined.

(** ... but only under the spelling that was guessed: the account answers to
    any other, as [username] is compared without regard to case. *)
Lemma lockout_case_bypass :
  exists res, fst (aStep (aRun aStore (guesses "admin" 5)) (2 * Minute, RLogin "ADMIN" "secret")) = Some (inl res) /\
    u_ID (lr_User res) = "u1".
Proof. eexists. by vm_compute. Qed.

Definition loggedIn : AuthStore := snd (aStep aStore (0, RLogin "admin" "secret")).
Lemma loggedIn_ok : tokens_ok (as_tokens loggedIn).
Proof.
  split; [by decide_by_compute|]. split; [by decide_by_compute|].
  intros a b. vm_compute. by intros ->%list_elem_of_singleton ->%list_elem_of_singleton.
Qed.

Lemma family_invariant_witness :
  tokens_ok (as_tokens loggedIn) /\
  tokens_ok (as_tokens (aRun loggedIn [(Minute, RRefresh "tok0"); (Minute, RRefresh "tok1")])).
Proof. split; [exact loggedIn_ok|]. by apply (family_invariant lowercase noHash sameText numbered), loggedIn_ok. Defined.

Lemma refresh_in_turn_witness :
  let w1 := snd (aStep loggedIn (Minute, RRefresh "tok0")) in
  exists res, fst (aStep loggedIn (Minute, RRefresh "tok0")) = Some (inl res) /\
    fst (aStep (aRun w1 [(Minute, RLogin "admin" "guess")]) (2 * Minute, RRefresh "tok0")) = Some (inr errBadCredentials).
Proof.
  intros w1. assert (exists res, fst (aStep loggedIn (Minute, RRefresh "tok0")) = Some (inl res)) as [res E]
    by (eexists; by vm_compute).
  exists res. split; [exact E|].
  destruct (refresh_in_turn lowercase noHash sameText numbered loggedIn Minute "tok0" res
    [(Minute, RLogin "admin" "guess")] (2 * Minute) loggedIn_ok E) as (fam & _ & E2 & _). exact E2.
Defined.

Abbreviation aExec := (exec lowercase noHash sameText numbered).
Definition oneAsked : Service := mkService loggedIn [("tok0", Asked)].
Definition afterOne : Service := aExec oneAsked (replicate 5 (Minute, Advance 0)).

(** The old token is presented again while the new one is used: refused, and
    when it comes to revoke the family nothing is left of it. *)
Lemma refresh_single_use_witness : exists res t r now,
  sv_flights afterOne !! 0%nat = Some ("tok0", Answered (inl res)) /\
  let s2 := aExec afterOne [(2 * Minute, Begin "tok0"); (2 * Minute, Advance 1)] in
  sv_flights s2 !! 1%nat = Some ("tok0", Revoking r now) /\
  sv_flights (aExec s2 [(2 * Minute, Advance 1); (2 * Minute, Advance 1)]) !! 1%nat = Some ("tok0", Answered (inr errBadCredentials)) /\
  forall x, x ∈ as_tokens (sv_store (aExec s2 [(2 * Minute, Advance 1); (3 * Minute, ServeLogin "admin" "secret")])) -> held x -> t_FamilyID x <> t_FamilyID t.
Proof.
  assert (exists res, sv_flights afterOne !! 0%nat = Some ("tok0", Answered (inl res))) as [res E1] by (eexists; by vm_compute).
  assert (exists r now, sv_flights (aExec afterOne [(2 * Minute, Begin "tok0"); (2 * Minute, Advance 1)]) !! 1%nat = Some ("tok0", Revoking r now))
    as (r & now & E2) by (do 2 eexists; by vm_compute).
  destruct (refresh_single_use lowercase noHash sameText numbered oneAsked (replicate 5 (Minute, Advance 0)) 0 "tok0" res
    (proj1 (proj2 loggedIn_ok)) eq_refl E1) as (t & new & _ & _ & _ & _ & _ & _ & H).
  destruct (H [(2 * Minute, Begin "tok0"); (2 * Minute, Advance 1)] 1%nat (Revoking r now)) as [H1 H2]; [vm_compute; lia|exact E2|].
  exists res, t, r, now. split; [exact E1|]. split; [exact E2|]. split; [apply H1|]. apply (H2 r now); [done|].
  intros [|[|k]] p f; vm_compute; by intros [= <- <-].
Defined.

Lemma refusals_alike_witness :
  let w2 := aStore <| as_users := [] |> in
  credentials lowercase sameText aStore "admin" "guess" = Some false /\
  credentials lowercase sameText w2 "admin" "secret" = Some false /\
  fst (@Login AuthStore (StoreAuthWorld lowercase noHash sameText numbered) "admin" "guess" noMeta aStore)
  = fst (@Login AuthStore (StoreAuthWorld lowercase noHash sameText numbered) "admin" "secret" noMeta w2).
Proof.
  intros w2. split; [by vm_compute|]. split; [by vm_compute|].
  apply (refusals_alike lowercase noHash sameText numbered "admin" "guess" "secret" noMeta aStore w2); by vm_compute.
Defined.

(** Two refreshes of one token at once: when both have read its row before
    either writes, both succeed, and the family has two tokens that can be
    exchanged. *)
Definition twoRefreshes : Service :=
  aExec (mkService loggedIn [("tok0", Asked); ("tok0", Asked)])
    ((fun i => (Minute, Advance i)) <$> [0; 1; 0; 1; 0; 1; 0; 1; 0; 1]%nat).
Lemma concurrent_refreshes_fork :
  (exists ra rb, map snd (sv_flights twoRefreshes) = [Answered (inl ra); Answered (inl rb)]) /\
  exists a b, a ∈ as_tokens (sv_store twoRefreshes) /\ b ∈ as_tokens (sv_store twoRefreshes) /\
    held a /\ held b /\ t_FamilyID a = t_FamilyID b /\ a <> b.
Proof.
  split; [do 2 eexists; by vm_compute|].
  assert (exists x a b, as_tokens (sv_store twoRefreshes) = [x; a; b] /\ held a /\ held b /\
    t_FamilyID a = t_FamilyID b /\ a <> b) as (x & a & b & -> & ? & ? & ? & ?).
  { do 3 eexists. by vm_compute. }
  exists a, b. split_and!; try done; set_solver.
Qed.
