(* ===== verification/ApiTokens.v ===== *)
(** Permissions and personal API tokens: platform/authz, the claims and the
    verifier chain of platform/authn, the gates of platform/httpx (authmw.go),
    and iam/app (apitokens.go). Signing and checking a JWT is a collaborator,
    as is the table of tokens. *)
From Stdlib Require Import ZArith Lia.
From stdpp Require Import base list gmap strings numbers sorting.
From S2P Require Import Prelude GoText World Errx Auth.

(** ** authz *)

Definition All : list string :=
  ["devices:read"; "devices:write"; "devices:admin"; "metrics:read"; "maps:read"; "maps:write";
   "alerts:read"; "alerts:ack"; "alerts:admin"; "credentials:read"; "credentials:write";
   "platform:read"; "platform:write"; "users:read"; "users:write"; "settings:write";
   "audit:read"; "exports:run"].

(** The cached permissions of a [PGChecker], role by role. *)
Abbreviation Perms := (gmap string (gset string)).

(** The rows of iam.roles, their permissions decoded or not: the cache [load]
    builds of them, unless one cannot be decoded. *)
Fixpoint loadRows (rows : list (string * option (list string))) (next : Perms) : option Perms :=
  match rows with
  | [] => Some next
  | (_, None) :: _ => None
  | (name, Some l) :: rows => loadRows rows (<[name := list_to_set l]> next)
  end.
(** [load]: the cache afterwards, and whether it was loaded. *)
Definition load (perms : Perms) (rows : option (list (string * option (list string)))) : Perms * bool :=
  match rows with
  | None => (perms, false)
  | Some rows => match loadRows rows ∅ with Some next => (next, true) | None => (perms, false) end
  end.

Fixpoint Has (perms : Perms) (roles : list string) (perm : string) : bool :=
  match roles with
  | [] => false
  | r :: roles =>
      match perms !! r with
      | None => Has perms roles perm
      | Some set => if bool_decide ("*" ∈ set) || bool_decide (perm ∈ set) then true else Has perms roles perm
      end
  end.

(** ** Claims *)

Record Claims : Type := mkClaims {
  c_Subject : string; c_Username : string; c_Roles : list string; c_Tenant : string;
  c_APITokenID : string; c_Scopes : option (list string)
}.
Definition Allows (c : Claims) (perm : string) : bool :=
  match c_Scopes c with None => true | Some scopes => bool_decide (perm ∈ scopes) end.
Definition Interactive (c : Claims) : bool := bool_decide (c_APITokenID c = "").

(** ** API tokens *)

Record APIToken : Type := mkAPIToken {
  k_ID : string; k_UserID : string; k_Name : string; k_TokenHash : string; k_Scopes : list string;
  k_ExpiresAt : option Time; k_LastUsedAt : option Time; k_RevokedAt : option Time; k_CreatedAt : Time
}.
Definition tokenUsable (t : APIToken) (now : Time) : bool :=
  bool_decide (k_RevokedAt t = None) && match k_ExpiresAt t with None => true | Some e => now <? e end.

Record TokenOwner : Type := mkTokenOwner {
  o_Username : string; o_TenantID : string; o_Status : UserStatus; o_Roles : list string
}.

Class TokenWorld (W : Type) : Type := {
  InsertAPIToken : APIToken -> M W (option Err);
  RevokeAPIToken : string -> string -> Time -> M W (option Err);
  Lookup : string -> M W ((APIToken * TokenOwner) + Err);
  Touch : string -> Time -> M W (option Err);
  RandomToken : M W (string + Err);
  TokenID : M W string;
  TokenAudit : AuditEvent -> M W unit;
  TokenNow : M W Time;
  VerifyJWT : string -> M W (Claims + Err);
  tokenSha256 : bytes -> bytes;
  permsOf : W -> Perms
}.

Definition APITokenPrefix : string := "nv_".
Definition IsAPIToken (raw : string) : bool := HasPrefix raw APITokenPrefix.

Section tokens.
Context {W : Type} `{TokenWorld W}.
Abbreviation M := (M W).

Definition HashAPIToken (plain : string) : string := hex_bytes (tokenSha256 (to_bytes plain)).

Definition NewAPIToken : M ((string * string) + Err) :=
  r ← RandomToken;
  mret match r with inr e => inr e | inl text => let plain := APITokenPrefix +:+ text in inl (plain, HashAPIToken plain) end.

(** The loop over the scopes asked for: each at its first mention. *)
Fixpoint checkScopes (perms : Perms) (roles asked : list string) (seen : list string) : list string + Err :=
  match asked with
  | [] => inl seen
  | sc :: asked =>
      if negb (bool_decide (sc ∈ All)) then inr (New KindInvalid ("unknown scope " +:+ sc))
      else if negb (Has perms roles sc) then inr (New KindInvalid ("scope " +:+ sc +:+ " is not one of your permissions"))
      else checkScopes perms roles asked (if decide (sc ∈ seen) then seen else seen ++ [sc])
  end.

Definition CreateToken (caller : Claims) (name0 : string) (asked : list string) (expires : option Time) (meta : ClientMeta)
    : M ((APIToken * string) + Err) :=
  let name := TrimSpace name0 in
  if bool_decide (name = "") || (100 <? slen name) then
    mret (inr (New KindInvalid "name is required (at most 100 characters)"))
  else if bool_decide (asked = []) then mret (inr (New KindInvalid "at least one scope is required"))
  else fun w =>
    (match checkScopes (permsOf w) (c_Roles caller) asked [] with
     | inr e => mret (inr e)
     | inl scopes =>
         now ← TokenNow;
         if match expires with Some e => e <=? now | None => false end
         then mret (inr (New KindInvalid "expires_at must be in the future")) else
         r ← NewAPIToken;
         match r with
         | inr e => mret (inr (kindError KindInternal (ErrWrap "generate api token" e)))
         | inl (plain, hash) =>
             id ← TokenID;
             let t := mkAPIToken id (c_Subject caller) name hash scopes expires None None now in
             r ← InsertAPIToken t;
             match r with
             | Some e => mret (inr e)
             | None =>
                 _ ← TokenAudit (mkAuditEvent "user" (c_Subject caller) "api_token.create" id name meta);
                 mret (inl (t, plain))
             end
         end
     end) w.

Definition RevokeToken (userID tokenID : string) (meta : ClientMeta) : M (option Err) :=
  now ← TokenNow; r ← RevokeAPIToken userID tokenID now;
  match r with
  | Some e => mret (Some e)
  | None => _ ← TokenAudit (mkAuditEvent "user" userID "api_token.revoke" tokenID "" meta); mret None
  end.

Definition denied : Err := New KindUnauthorized "invalid api token".

Definition VerifyToken (raw : string) : M (Claims + Err) :=
  r ← Lookup (HashAPIToken raw);
  match r with
  | inr e => mret (inr (if decide (kindOf (Some e) = KindNotFound) then denied else e))
  | inl (t, owner) =>
      now ← TokenNow;
      if negb (tokenUsable t now) || negb (bool_decide (o_Status owner = UserActive)) then mret (inr denied) else
      _ ← Touch (k_ID t) now;
      mret (inl (mkClaims (k_UserID t) (o_Username owner) (o_Roles owner) (o_TenantID owner) (k_ID t) (Some (k_Scopes t))))
  end.

(** [Chain.Verify], with an API verifier wired in. *)
Definition ChainVerify (raw : string) : M (Claims + Err) :=
  if IsAPIToken raw then VerifyToken raw else VerifyJWT raw.

(** ** The gates *)

(** [RequireAuth]: the bearer value of an Authorization header. *)
Definition bearer (header : string) : option string :=
  if (slen header <=? slen "Bearer ") || negb (HasPrefix header "Bearer ") then None
  else Some (of_bytes (drop 7 (to_bytes header))).

(** [RequirePerm]. *)
Definition permit (perm : string) (c : Claims) : M (Claims + Err) := fun w =>
  (if negb (Has (permsOf w) (c_Roles c) perm) || negb (Allows c perm)
   then inr (New KindForbidden ("missing permission: " +:+ perm)) else inl c, w).

(** A request through [RequireAuth] and [RequirePerm]: the claims the handler
    runs with, or the error written. *)
Definition gate (perm : string) (header : string) : M (Claims + Err) :=
  match bearer header with
  | None => mret (inr (New KindUnauthorized "missing bearer token"))
  | Some raw =>
      r ← ChainVerify raw;
      match r with inr e => mret (inr e) | inl c => permit perm c end
  end.
End tokens.

(** * Permissions *)

(** A role's permissions. *)
Definition grants (perms : Perms) (role perm : string) : Prop :=
  exists set, perms !! role = Some set /\ ("*" ∈ set \/ perm ∈ set).

Lemma Has_spec perms roles perm : Has perms roles perm = true <-> exists r, r ∈ roles /\ grants perms r perm.
Proof.
  induction roles as [|r roles IH]; simpl; [split; [done | by intros (? & ?%elem_of_nil & _)]|].
  setoid_rewrite elem_of_cons. unfold grants in *. destruct (perms !! r) as [set|] eqn:E.
  - destruct (bool_decide ("*" ∈ set)) eqn:E1; [apply bool_decide_eq_true in E1|apply bool_decide_eq_false in E1; simpl;
      destruct (bool_decide (perm ∈ set)) eqn:E2; [apply bool_decide_eq_true in E2|apply bool_decide_eq_false in E2]].
    1,2: split; [intros _; exists r; split; [by left|]; exists set; tauto | done].
    rewrite IH. split; [intros (x & ? & ?); exists x; tauto|].
    intros (x & [-> |Hx] & set' & E' & Hs); [|by exists x; split; [|exists set']]. assert (set' = set) as -> by congruence. tauto.
  - rewrite IH. split; [intros (x & ? & ?); exists x; tauto|].
    intros (x & [-> |Hx] & set' & E' & Hs); [congruence|]. exists x. split; [done|]. by exists set'.
Qed.

Section authority.
Context {W : Type} `{TokenWorld W}.

Lemma checkScopes_spec perms roles asked : forall seen scopes,
  checkScopes perms roles asked seen = inl scopes ->
  (forall sc, sc ∈ scopes <-> sc ∈ seen \/ sc ∈ asked) /\ (NoDup seen -> NoDup scopes) /\
  Forall (fun sc => sc ∈ All /\ Has perms roles sc = true) asked.
Proof.
  induction asked as [|sc asked IH]; intros seen scopes; simpl.
  { intros [= ->]. split; [|by split]. intros s. rewrite elem_of_nil. tauto. }
  destruct (bool_decide (sc ∈ All)) eqn:E1; [|done]. destruct (Has perms roles sc) eqn:E2; [|done]. simpl.
  apply bool_decide_eq_true in E1. intros Hc. destruct (IH _ _ Hc) as (Hin & Hnd & Hall).
  split; [|split; [|by constructor]].
  - intros s. rewrite Hin, elem_of_cons. case_decide as Hs; [|rewrite elem_of_app, list_elem_of_singleton]; [|tauto].
    split; [tauto|]. intros [?|[->|?]]; tauto.
  - intros Hseen. apply Hnd. case_decide as Hs; [done|]. apply NoDup_app. split; [done|]. split; [|apply NoDup_singleton].
    intros x Hx ->%list_elem_of_singleton. done.
Qed.

Lemma checkScopes_refuses perms roles asked : forall seen e, checkScopes perms roles asked seen = inr e ->
  (exists msg, e = New KindInvalid msg) /\ exists sc, sc ∈ asked /\ (sc ∉ All \/ Has perms roles sc = false).
Proof.
  induction asked as [|sc asked IH]; intros seen e; simpl; [done|].
  case_bool_decide as E1; simpl; [|intros [= <-]; split; [by eexists|]; exists sc; split; [by left|by left]].
  destruct (Has perms roles sc) eqn:E2; simpl; [|intros [= <-]; split; [by eexists|]; exists sc; split; [by left|by right]].
  intros (Hk & sc' & Hin & Hn)%IH. split; [done|]. exists sc'. split; [by right|done].
Qed.

(** What may be asked for: a name, at least one scope, each a permission of the
    vocabulary that a role of the caller grants, and an expiry yet to come. *)
Definition grantable (perms : Perms) (caller : Claims) (name : string) (asked : list string) (expires : option Time) (now : Time) : Prop :=
  0 < slen (TrimSpace name) <= 100 /\ asked <> [] /\
  (forall sc, sc ∈ asked -> sc ∈ All /\ exists r, r ∈ c_Roles caller /\ grants perms r sc) /\
  (forall e, expires = Some e -> now < e).

(** C38. A token that is made is a narrowed copy of its owner: it is made and
    stored just when what was asked for may be, and it bears the name, the
    expiry and the scopes asked for, each scope once. Anything else is refused
    as invalid before anything is drawn or stored; what may be asked for is
    refused only by the generator or by the table. *)
Theorem created_token_narrowed caller name asked expires meta w :
  let now := (TokenNow w).1 in
  let ok := grantable (permsOf w) caller name asked expires now in
  let '(r, w') := CreateToken caller name asked expires meta w in
  match r with
  | inl (t, plain) => ok /\
      k_UserID t = c_Subject caller /\ k_Name t = TrimSpace name /\ k_ExpiresAt t = expires /\ k_CreatedAt t = now /\
      NoDup (k_Scopes t) /\ (forall sc, sc ∈ k_Scopes t <-> sc ∈ asked) /\
      k_TokenHash t = HashAPIToken plain /\ IsAPIToken plain = true /\ tokenUsable t now = true /\
      exists before after, InsertAPIToken t before = (None, after)
  | inr e =>
      ~ ok /\ (exists msg, e = New KindInvalid msg) /\ (w' = w \/ w' = (TokenNow w).2) \/
      ok /\ ((exists before after t, InsertAPIToken t before = (Some e, after)) \/
             (exists before after err, RandomToken before = (inr err, after) /\ e = kindError KindInternal (ErrWrap "generate api token" err)))
  end.
Proof.
  cbv zeta. unfold CreateToken, grantable. set (nm := TrimSpace name). pose proof (len_nonneg (to_bytes nm)) as Hpos. fold (slen nm) in Hpos.
  case_bool_decide as En; cbn [orb].
  { left. apply slen_zero in En. split; [lia|]. split; [by eexists|by left]. }
  assert (slen nm <> 0) as En' by (by rewrite slen_zero). destruct (Z.ltb_spec 100 (slen nm)) as [|Hlen]; cbn [orb].
  { left. split; [lia|]. split; [by eexists|by left]. }
  case_bool_decide as Ea; [left; split; [tauto|]; split; [by eexists|by left]|].
  destruct (checkScopes _ _ _ _) as [scopes|e] eqn:Es.
  2: { apply checkScopes_refuses in Es as (Hk & sc & Hin & Hn). left. split; [|split; [done|by left]]. intros (_ & _ & Hall & _).
       destruct (Hall sc Hin) as [? Hh%Has_spec]. destruct Hn; [done|congruence]. }
  apply checkScopes_spec in Es as (Hin & Hnd & Hall). specialize (Hnd ltac:(constructor)).
  unfold mbind, M_bind. destruct (TokenNow w) as [now w1]. cbn [fst snd].
  destruct (match expires with Some e => _ | None => _ end) eqn:Ee.
  { left. split; [|split; [by eexists|by right]]. intros (_ & _ & _ & He). destruct expires as [x|]; [|done]. specialize (He x eq_refl). apply Z.leb_le in Ee. lia. }
  assert (grantable (permsOf w) caller name asked expires now) as Hok.
  { split_and!; [fold nm; lia|fold nm; lia|done| |].
    - intros sc Hsc. rewrite List.Forall_forall in Hall. destruct (Hall sc) as [? Hh]; [by apply list_elem_of_In|]. split; [done|]. by apply Has_spec.
    - intros x ->. by apply Z.leb_gt in Ee. }
  unfold NewAPIToken, mbind, M_bind. destruct (RandomToken w1) as [[text|e] w2] eqn:Er; simpl; [|right; split; [exact Hok|]; right; by exists w1, w2, e].
  destruct (TokenID w2) as [id w3]. destruct (InsertAPIToken _ w3) as [[e|] w4] eqn:Ei; simpl; [right; split; [exact Hok|]; left; by eexists w3, w4, _|].
  destruct (TokenAudit _ w4) as [[] w5]. simpl. split; [exact Hok|]. split_and!; try done.
  - intros sc. rewrite Hin, elem_of_nil. tauto.
  - unfold IsAPIToken, HasPrefix, APITokenPrefix. simpl. by destruct text.
  - unfold tokenUsable. cbn [k_RevokedAt k_ExpiresAt]. rewrite bool_decide_true by done. destruct expires as [x|]; [|done]. apply Z.leb_gt in Ee. by apply Z.ltb_lt.
  - by exists w3, w4.
Qed.

(** C11. A request that comes in with an API token reaches a handler only with both
    keys: the token exists, is neither revoked nor expired, its owner is
    active, the permission is one of its scopes, and the owner's roles of this
    moment grant it. *)
Theorem token_authority perm raw w c w' :
  IsAPIToken raw = true -> gate perm ("Bearer " +:+ raw) w = (inl c, w') ->
  exists t owner w1 now, Lookup (HashAPIToken raw) w = (inl (t, owner), w1) /\ fst (TokenNow w1) = now /\
    tokenUsable t now = true /\ o_Status owner = UserActive /\ perm ∈ k_Scopes t /\
    (exists r, r ∈ o_Roles owner /\ grants (permsOf w') r perm) /\
    c_Subject c = k_UserID t /\ Interactive c = bool_decide (k_ID t = "").
Proof.
  intros Hapi. unfold gate.
  assert (bearer ("Bearer " +:+ raw) = Some raw) as ->.
  { unfold bearer. assert (slen ("Bearer " +:+ raw) = 7 + slen raw) as E by (unfold slen; rewrite to_bytes_app; by rewrite len_app).
    rewrite E. assert (0 < slen raw) as Hpos.
    { destruct (to_bytes raw) eqn:E'; unfold slen; rewrite E'; [|len_lia]. exfalso.
      assert (raw = "") as -> by (by rewrite <- (of_to_bytes raw), E'). done. }
    change (slen "Bearer ") with 7. destruct (Z.leb_spec (7 + slen raw) 7); [lia|].
    assert (HasPrefix ("Bearer " +:+ raw) "Bearer " = true) as ->.
    { unfold HasPrefix. simpl. by destruct raw. }
    cbn [orb negb]. f_equal. rewrite to_bytes_app. exact (of_to_bytes raw). }
  unfold ChainVerify. rewrite Hapi. unfold VerifyToken, permit, mbind, M_bind.
  destruct (Lookup (HashAPIToken raw) w) as [[[t owner]|e] w1] eqn:El; [|done].
  destruct (TokenNow w1) as [now w2] eqn:En. destruct (tokenUsable t now) eqn:Eu; [|done].
  destruct (bool_decide (o_Status owner = UserActive)) eqn:Es; [|done]. apply bool_decide_eq_true in Es. simpl.
  destruct (Touch (k_ID t) now w2) as [r w3]. simpl.
  destruct (Has (permsOf w3) (o_Roles owner) perm) eqn:Eh; [|done]. unfold Allows. simpl.
  destruct (bool_decide (perm ∈ k_Scopes t)) eqn:Ep; [|done]. intros [= <- <-]. apply bool_decide_eq_true in Ep.
  apply Has_spec in Eh. exists t, owner, w1, now. rewrite En. by split_and!.
Qed.
End authority.

(** ** At work *)

Section example.
Record TokenStore : Type := mkTokenStore {
  ts_tokens : list APIToken; ts_owner : TokenOwner; ts_perms : Perms; ts_clock : Time
}.
#[local] Instance StoreTokenWorld : TokenWorld TokenStore := {
  InsertAPIToken t w := (None, mkTokenStore (ts_tokens w ++ [t]) (ts_owner w) (ts_perms w) (ts_clock w));
  RevokeAPIToken _ _ _ w := (None, w);
  Lookup h w := (match head (filter (fun t => k_TokenHash t = h) (ts_tokens w)) with
    | Some t => inl (t, ts_owner w) | None => inr (New KindNotFound "api token not found") end, w);
  Touch _ _ w := (None, w); RandomToken w := (inl "random", w); TokenID w := ("tok1", w);
  TokenAudit _ w := (tt, w); TokenNow w := (ts_clock w, w);
  VerifyJWT _ w := (inr (New KindUnauthorized "authn: token"), w);
  tokenSha256 b := b; permsOf := ts_perms
}.

Definition operator_ : Claims := mkClaims "u1" "ann" ["operator"] "t" "" None.
Definition aTokenStore : TokenStore :=
  mkTokenStore [] (mkTokenOwner "ann" "t" UserActive ["operator"])
    {["operator" := {["maps:read"; "alerts:ack"; "devices:read"]}]} 0.
Definition noMeta : ClientMeta := mkClientMeta "" "" "".
Definition asked_ : list string := ["maps:read"; "alerts:ack"; "maps:read"].
Definition made : ((APIToken * string) + Err) * TokenStore :=
  CreateToken operator_ "ci" asked_ (Some Hour) noMeta aTokenStore.

Lemma created_token_narrowed_witness :
  exists t plain w', made = (inl (t, plain), w') /\ NoDup (k_Scopes t) /\ k_Scopes t = ["maps:read"; "alerts:ack"].
Proof.
  pose proof (created_token_narrowed operator_ "ci" asked_ (Some Hour) noMeta aTokenStore) as Hc. cbv zeta in Hc. fold made in Hc.
  destruct made as [[[t plain]|e] w'] eqn:E; [|by vm_compute in E]. exists t, plain, w'. split; [done|].
  split; [apply Hc|]. vm_compute in E. by injection E as <- <- <-.
Defined.
(** One scope too many. *)
Example not_granted : exists e w', CreateToken operator_ "ci" ["maps:read"; "users:admin"] None noMeta aTokenStore = (inr e, w') /\ ts_tokens w' = [].
Proof. eexists _, _. split; [by vm_compute|done]. Qed.

Lemma token_authority_witness :
  let w := snd made in
  IsAPIToken "nv_random" = true /\
  exists c w', gate "alerts:ack" "Bearer nv_random" w = (inl c, w') /\ Interactive c = false /\
    fst (gate "devices:read" "Bearer nv_random" w) = inr (New KindForbidden "missing permission: devices:read").
Proof.
  intros w. split; [done|]. destruct (gate "alerts:ack" "Bearer nv_random" w) as [[c|e] w'] eqn:E; [|by vm_compute in E].
  exists c, w'. split; [done|].
  destruct (token_authority "alerts:ack" "nv_random" w c w' eq_refl E) as (t & o & w1 & now & El & _ & _ & _ & _ & _ & _ & ->).
  split; [|by vm_compute]. vm_compute in El. by injection El as <- _ _.
Defined.
End example.
