(* ===== verification/Sync.v ===== *)
(** Package inventory/app (sync.go): reconciling what a device reports with
    what is stored of it, and the statements of inventory/adapters/postgres
    (sync.go) that apply the difference to the table of interfaces.

    [strings.ToLower] and the printing of a time are parameters: nothing is
    asked of them. *)
From Stdlib Require Import ZArith Lia.
From stdpp Require Import base list gmap strings numbers sorting.
From S2P Require Import Prelude GoText World Errx Wire.

Definition RemoveAfterMisses : Z := 3.

Record IfState : Type := mkIfState {
  i_ID : string; i_IfIndex : Z; i_Name : string; i_Alias : string; i_Descr : string; i_IfType : Z;
  i_MTU : Z; i_SpeedBPS : Z; i_PhysAddress : string; i_AdminStatus : Z; i_OperStatus : Z;
  i_State : string; i_MissStreak : Z
}.
#[export] Instance IfState_eq_dec : EqDecision IfState.
Proof. solve_decision. Defined.
#[export] Instance eta_IfState : Eta IfState := fun i =>
  mkIfState (i_ID i) (i_IfIndex i) (i_Name i) (i_Alias i) (i_Descr i) (i_IfType i) (i_MTU i) (i_SpeedBPS i)
    (i_PhysAddress i) (i_AdminStatus i) (i_OperStatus i) (i_State i) (i_MissStreak i).

Record DeviceState : Type := mkDeviceState {
  d_DeviceID : string; d_ConnectorID : string; d_SysName : string; d_SysDescr : string; d_SysObjectID : string;
  d_SysLocation : string; d_SysContact : string; d_Vendor : string; d_Model : string; d_Serial : string;
  d_OSVersion : string; d_UptimeBasis : option Time; d_Interfaces : list IfState
}.

Record FieldChange : Type := mkFieldChange {
  ObjectKind : string; ObjectID : string; Field : string; Old : string; New_ : string; ChangeKind : string
}.

Record IfUpsert : Type := mkIfUpsert { ExistingID : string; Rec : SyncInterface }.

Record DiffResult : Type := mkDiffResult {
  DeviceFields : gmap string string; NewUptime : option Time; Rebooted : bool; Upserts : list IfUpsert;
  MissingIDs : list string; StreakIDs : list string; RemovedIDs : list string; RestoredIDs : list string;
  Changes : list FieldChange
}.
#[export] Instance eta_DiffResult : Eta DiffResult := fun r =>
  mkDiffResult (DeviceFields r) (NewUptime r) (Rebooted r) (Upserts r) (MissingIDs r) (StreakIDs r)
    (RemovedIDs r) (RestoredIDs r) (Changes r).
Definition emptyDiff : DiffResult := mkDiffResult ∅ None false [] [] [] [] [] [].

Definition orKeep (current reported : string) : string := if decide (reported = "") then current else reported.
Definition changeKind (old : string) : string := if decide (old = "") then "created" else "updated".
Definition absDur (d : Duration) : Duration := if d <? 0 then int64 (- d) else d.

Section diff.
Context (ToLower : string -> string) (RFC3339 : Time -> string).
Context (rangeOrder : gmap string IfState -> list (string * IfState)).

(** ** The device's own fields *)

Definition devFields (cur : DeviceState) (snap : SyncSnapshot) : list (string * string * string) :=
  [("sys_name", d_SysName cur, sn_SysName snap);
   ("sys_descr", d_SysDescr cur, sn_SysDescr snap);
   ("sys_object_id", d_SysObjectID cur, sn_SysObjectID snap);
   ("sys_location", d_SysLocation cur, sn_SysLocation snap);
   ("sys_contact", d_SysContact cur, sn_SysContact snap);
   ("vendor", d_Vendor cur, orKeep (d_Vendor cur) (sn_Vendor snap));
   ("model", d_Model cur, orKeep (d_Model cur) (sn_Model snap));
   ("serial_number", d_Serial cur, orKeep (d_Serial cur) (sn_Serial snap));
   ("os_version", d_OSVersion cur, orKeep (d_OSVersion cur) (sn_OSVersion snap))].

Definition diffField (dev : string) (res : DiffResult) (f : string * string * string) : DiffResult :=
  let '(col, old, new) := f in
  if decide (new = old) then res else
  res <| DeviceFields := <[col := new]> (DeviceFields res) |>
      <| Changes := Changes res ++ [mkFieldChange "device" dev col old new (changeKind old)] |>.

Definition bootTime (snap : SyncSnapshot) (collectedAt : Time) : Time :=
  time_Add collectedAt (int64 (- int64 (int64 (sn_UptimeS snap) * Second))).

Definition diffUptime (cur : DeviceState) (snap : SyncSnapshot) (collectedAt : Time) (res : DiffResult) : DiffResult :=
  let boot := bootTime snap collectedAt in
  match d_UptimeBasis cur with
  | None => res <| NewUptime := Some boot |>
  | Some basis =>
      if 5 * Minute <? absDur (time_Sub boot basis) then
        let res := res <| NewUptime := Some boot |> in
        if basis <? boot then
          res <| Rebooted := true |>
              <| Changes := Changes res ++
                   [mkFieldChange "device" (d_DeviceID cur) "uptime" (RFC3339 basis) (RFC3339 boot) "status"] |>
        else res
      else res
  end.

(** ** Matching interfaces *)

Definition idxNameKey (idx : Z) (name : string) : string := Itoa idx +:+ "/" +:+ name.
Definition physKey (phys : string) (ifType : Z) : string := ToLower phys +:+ "/" +:+ Itoa ifType.

Record Index : Type := mkIndex {
  unmatched0 : gmap string IfState; byIdxName : gmap string IfState; byName : gmap string IfState;
  byPhys : gmap string IfState
}.

Definition indexOne (ix : Index) (i : IfState) : Index :=
  if decide (i_State i = "removed") then ix else
  mkIndex (<[i_ID i := i]> (unmatched0 ix))
    (<[idxNameKey (i_IfIndex i) (i_Name i) := i]> (byIdxName ix))
    (if decide (i_Name i = "") then byName ix else <[i_Name i := i]> (byName ix))
    (if decide (i_PhysAddress i = "") then byPhys ix
     else <[physKey (i_PhysAddress i) (i_IfType i) := i]> (byPhys ix)).
Definition indexInterfaces (l : list IfState) : Index := foldl indexOne (mkIndex ∅ ∅ ∅ ∅) l.

(** A hit that is still unmatched. *)
Definition fresh (unmatched : gmap string IfState) (hit : option IfState) : option IfState :=
  m ← hit; if decide (is_Some (unmatched !! i_ID m)) then Some m else None.

Definition matchRec (ix : Index) (unmatched : gmap string IfState) (rec : SyncInterface) : option IfState :=
  match fresh unmatched (byIdxName ix !! idxNameKey (si_IfIndex rec) (si_Name rec)) with
  | Some m => Some m
  | None =>
      match (if decide (si_Name rec = "") then None else fresh unmatched (byName ix !! si_Name rec)) with
      | Some m => Some m
      | None => if decide (si_PhysAddress rec = "") then None
                else fresh unmatched (byPhys ix !! physKey (si_PhysAddress rec) (si_IfType rec))
      end
  end.

(** ** One reported interface *)

Definition ifChange (id field old new kind : string) : FieldChange := mkFieldChange "interface" id field old new kind.

Definition ifFields (m : IfState) (rec : SyncInterface) : list (string * string * string) :=
  [("name", i_Name m, si_Name rec); ("alias", i_Alias m, si_Alias rec);
   ("speed_bps", Itoa (i_SpeedBPS m), Itoa (si_SpeedBPS rec)); ("mtu", Itoa (i_MTU m), Itoa (si_MTU rec))].

Definition matchedChanges (m : IfState) (rec : SyncInterface) : list FieldChange :=
  (if decide (i_State m = "missing") then [ifChange (i_ID m) "state" "missing" "present" "status"] else []) ++
  (if decide (si_IfIndex rec = i_IfIndex m) then []
   else [ifChange (i_ID m) "if_index" (Itoa (i_IfIndex m)) (Itoa (si_IfIndex rec)) "updated"]) ++
  concat (map (fun '(f, old, new) => if decide (old = new) then [] else [ifChange (i_ID m) f old new "updated"])
    (ifFields m rec)).

Definition diffRecord (ix : Index) (st : gmap string IfState * DiffResult) (rec : SyncInterface)
    : gmap string IfState * DiffResult :=
  let '(unmatched, res) := st in
  match matchRec ix unmatched rec with
  | None =>
      (unmatched, res <| Upserts := Upserts res ++ [mkIfUpsert "" rec] |>
        <| Changes := Changes res ++
             [ifChange ("ifindex:" +:+ Itoa (si_IfIndex rec)) "interface" "" (si_Name rec) "created"] |>)
  | Some m =>
      (delete (i_ID m) unmatched,
       res <| Upserts := Upserts res ++ [mkIfUpsert (i_ID m) rec] |>
           <| RestoredIDs := RestoredIDs res ++ (if decide (i_State m = "missing") then [i_ID m] else []) |>
           <| Changes := Changes res ++ matchedChanges m rec |>)
  end.

(** ** One interface that was not reported *)

Definition diffAbsent (res : DiffResult) (im : string * IfState) : DiffResult :=
  let '(id, m) := im in
  if decide (i_State m = "present") then
    res <| MissingIDs := MissingIDs res ++ [id] |>
        <| Changes := Changes res ++ [ifChange id "state" "present" "missing" "status"] |>
  else if RemoveAfterMisses <=? i_MissStreak m + 1 then
    res <| RemovedIDs := RemovedIDs res ++ [id] |>
        <| Changes := Changes res ++ [ifChange id "state" "missing" "removed" "removed"] |>
  else res <| StreakIDs := StreakIDs res ++ [id] |>.

Definition Diff (cur : DeviceState) (snap : SyncSnapshot) (collectedAt : Time) : DiffResult :=
  let res := foldl (diffField (d_DeviceID cur)) emptyDiff (devFields cur snap) in
  let res := diffUptime cur snap collectedAt res in
  let ix := indexInterfaces (d_Interfaces cur) in
  let '(unmatched, res) := foldl (diffRecord ix) (unmatched0 ix, res) (sn_Interfaces snap) in
  foldl diffAbsent res (rangeOrder unmatched).

(** ** The service *)

Record SyncRunRecord : Type := mkSyncRunRecord {
  run_ID : string; run_Trigger : string; run_StartedAt : Time; run_Status : string; run_Error : string
}.

Definition orDefault (v def : string) : string := if decide (v = "") then def else v.

Class SyncWorld (W : Type) : Type := {
  LoadState : string -> M W (DeviceState + Err);
  Apply : string -> DiffResult -> list SyncAdjacency -> SyncRunRecord -> M W (Z + Err);
  RecordFailedRun : string -> SyncRunRecord -> M W (option Err);
  WithLock : string -> M W (option Err) -> M W (option Err);
  hasMatch : bool; Match : string -> string -> string;
  SyncAudit : string -> string -> M W unit
}.

(** [rematch]: the connector moved to, "" for none, and the difference with
    the move in it. *)
Definition rematch {W} `{SyncWorld W} (cur : DeviceState) (snap : SyncSnapshot) (diff : DiffResult) : string * DiffResult :=
  if negb hasMatch || negb (bool_decide (d_ConnectorID cur = "generic")) || bool_decide (sn_SysObjectID snap = "")
  then ("", diff)
  else
    let m := Match (sn_SysObjectID snap) (sn_SysDescr snap) in
    if bool_decide (m = "") || bool_decide (m = d_ConnectorID cur) then ("", diff) else
    (m, diff <| DeviceFields := <["connector_id" := m]> (DeviceFields diff) |>
             <| Changes := Changes diff ++
                  [mkFieldChange "device" (d_DeviceID cur) "connector_id" (d_ConnectorID cur) m "updated"] |>).

Definition applyResult {W} `{SyncWorld W} (res : SyncResult) (snap : SyncSnapshot) (run : SyncRunRecord) : M W (option Err) :=
  r ← LoadState (sr_DeviceID res);
  match r with
  | inr e => mret (if decide (kindOf (Some e) = KindNotFound) then None else Some e)
  | inl cur =>
      let '(matched, diff) := rematch cur snap (Diff cur snap (sr_CollectedAt res)) in
      r ← Apply (sr_DeviceID res) diff (sn_Adjacencies snap) run;
      match r with
      | inr e => mret (Some e)
      | inl n =>
          _ ← (if decide (matched = "") then mret tt else SyncAudit "device.connector_matched" (sr_DeviceID res));
          _ ← (if 0 <? n then SyncAudit "sync.completed" (sr_DeviceID res) else mret tt);
          mret None
      end
  end.

Definition HandleResult {W} `{SyncWorld W} (res : SyncResult) (runID : string) : M W (option Err) :=
  let run := mkSyncRunRecord runID (orDefault (sr_Trigger res) "scheduled") (sr_CollectedAt res) "ok" "" in
  match sr_Snapshot res with
  | Some snap =>
      if decide (sr_Error res = "") then WithLock (sr_DeviceID res) (applyResult res snap run)
      else RecordFailedRun (sr_DeviceID res)
             (mkSyncRunRecord runID (orDefault (sr_Trigger res) "scheduled") (sr_CollectedAt res) "failed" (sr_Error res))
  | None => RecordFailedRun (sr_DeviceID res)
      (mkSyncRunRecord runID (orDefault (sr_Trigger res) "scheduled") (sr_CollectedAt res) "failed" (sr_Error res))
  end.

(** * Every interface is accounted for *)

Context (range_perm : forall m, rangeOrder m ≡ₚ map_to_list m).

Definition known (i : IfState) : Prop := i_State i <> "removed".
#[local] Instance known_dec i : Decision (known i).
Proof. unfold known. apply _. Defined.

Lemma indexInterfaces_snoc l i : indexInterfaces (l ++ [i]) = indexOne (indexInterfaces l) i.
Proof. unfold indexInterfaces. by rewrite foldl_snoc. Qed.

Lemma indexInterfaces_unmatched l :
  NoDup (map i_ID l) ->
  map_to_list (unmatched0 (indexInterfaces l)) ≡ₚ map (fun i => (i_ID i, i)) (filter known l).
Proof.
  induction l as [|i l IH] using rev_ind; intros Hnd; [done|].
  rewrite map_app in Hnd. apply NoDup_app in Hnd as (Hnd & Hd & _). specialize (IH Hnd).
  rewrite indexInterfaces_snoc, filter_app, map_app. unfold indexOne.
  rewrite filter_cons, filter_nil. destruct (decide (i_State i = "removed")) as [Hs|Hs].
  - rewrite decide_False by (intros Hk; by apply Hk). simpl. by rewrite app_nil_r.
  - rewrite (decide_True (P := known i)) by exact Hs. cbn [unmatched0 map]. rewrite map_to_list_insert.
    + rewrite IH. by rewrite Permutation_app_comm.
    + apply eq_None_not_Some. intros [x Hx]. apply elem_of_map_to_list in Hx. rewrite IH in Hx.
      change (map ?f ?l) with (f <$> l) in Hx. apply list_elem_of_fmap in Hx as (j & Ej & Hj).
      apply list_elem_of_filter in Hj as [_ Hj]. injection Ej as Ei _. apply (Hd (i_ID j)); [|rewrite <- Ei; by left].
      change (map i_ID l) with (i_ID <$> l). by apply list_elem_of_fmap_2.
Qed.

Lemma indexInterfaces_In l : forall k m,
  (byIdxName (indexInterfaces l) !! k = Some m -> m ∈ filter known l /\ k = idxNameKey (i_IfIndex m) (i_Name m)) /\
  (byName (indexInterfaces l) !! k = Some m -> m ∈ filter known l /\ k = i_Name m /\ i_Name m <> "") /\
  (byPhys (indexInterfaces l) !! k = Some m ->
     m ∈ filter known l /\ k = physKey (i_PhysAddress m) (i_IfType m) /\ i_PhysAddress m <> "").
Proof.
  induction l as [|i l IH] using rev_ind; intros k m; [by split_and!|].
  rewrite indexInterfaces_snoc, filter_app, filter_cons, filter_nil. setoid_rewrite elem_of_app. unfold indexOne.
  destruct (IH k m) as (H1 & H2 & H3). destruct (decide (i_State i = "removed")) as [Hs|Hs].
  { rewrite decide_False by (intros Hk; by apply Hk). cbn [byIdxName byName byPhys]. tauto. }
  rewrite (decide_True (P := known i)) by exact Hs. setoid_rewrite list_elem_of_singleton. cbn [byIdxName byName byPhys]. split_and!.
  - rewrite lookup_insert_Some. intros [[<- <-]|[_ Hl]]; [by split; [right|] | tauto].
  - case_decide; [tauto|]. rewrite lookup_insert_Some. intros [[<- <-]|[_ Hl]]; [by split; [right|] | tauto].
  - case_decide; [tauto|]. rewrite lookup_insert_Some. intros [[<- <-]|[_ Hl]]; [by split; [right|] | tauto].
Qed.

(** Why a record and a stored interface are taken for the same. *)
Definition sameInterface (rec : SyncInterface) (m : IfState) : Prop :=
  idxNameKey (si_IfIndex rec) (si_Name rec) = idxNameKey (i_IfIndex m) (i_Name m) \/
  (si_Name rec <> "" /\ si_Name rec = i_Name m) \/
  (si_PhysAddress rec <> "" /\ physKey (si_PhysAddress rec) (si_IfType rec) = physKey (i_PhysAddress m) (i_IfType m)).

Lemma fresh_Some unmatched hit m : fresh unmatched hit = Some m -> hit = Some m /\ is_Some (unmatched !! i_ID m).
Proof. unfold fresh. destruct hit as [x|]; simpl; [|done]. case_decide; [|done]. by intros [= <-]. Qed.

Lemma matchRec_Some l unmatched rec m :
  matchRec (indexInterfaces l) unmatched rec = Some m ->
  m ∈ filter known l /\ is_Some (unmatched !! i_ID m) /\ sameInterface rec m.
Proof.
  unfold matchRec, sameInterface.
  destruct (fresh _ (byIdxName _ !! _)) as [x|] eqn:E1.
  { intros [= ->]. apply fresh_Some in E1 as [E1 ?]. apply indexInterfaces_In in E1 as [? ->]. split_and!; auto. }
  case_decide as Hn.
  - case_decide as Hp; [done|]. intros E3. apply fresh_Some in E3 as [E3 ?].
    apply indexInterfaces_In in E3 as (? & E & ?). split_and!; auto.
  - destruct (fresh _ (byName _ !! _)) as [x|] eqn:E2.
    { intros [= ->]. apply fresh_Some in E2 as [E2 ?]. apply indexInterfaces_In in E2 as (? & E & ?). split_and!; auto. }
    case_decide as Hp; [done|]. intros E3. apply fresh_Some in E3 as [E3 ?].
    apply indexInterfaces_In in E3 as (? & E & ?). split_and!; auto.
Qed.

Definition matchedIDs (r : DiffResult) : list string := filter (fun id => id <> "") (map ExistingID (Upserts r)).

(** The lists of what was absent. *)
Definition absentIDs (r : DiffResult) : list string := MissingIDs r ++ StreakIDs r ++ RemovedIDs r.

Definition keysOf (un : gmap string IfState) : list string := map fst (map_to_list un).

Lemma keysOf_delete un id : is_Some (un !! id) -> keysOf un ≡ₚ id :: keysOf (delete id un).
Proof. intros [x Hx]. unfold keysOf. by rewrite <- (map_to_list_delete un id x Hx). Qed.

Lemma matchedIDs_snoc r r' u :
  Upserts r' = Upserts r ++ [u] ->
  matchedIDs r' = matchedIDs r ++ (if decide (ExistingID u = "") then [] else [ExistingID u]).
Proof.
  intros E. unfold matchedIDs. rewrite E, map_app, filter_app. f_equal. cbn [map]. rewrite filter_cons, filter_nil.
  by do 2 case_decide.
Qed.

Lemma records_account l recs : forall un res,
  (forall m, m ∈ filter known l -> i_ID m <> "") ->
  let st := foldl (diffRecord (indexInterfaces l)) (un, res) recs in
  st.1 ⊆ un /\ map Rec (Upserts st.2) = map Rec (Upserts res) ++ recs /\
  matchedIDs st.2 ++ keysOf st.1 ≡ₚ matchedIDs res ++ keysOf un /\ absentIDs st.2 = absentIDs res.
Proof.
  induction recs as [|rec recs IH]; intros un res Hid; [by rewrite app_nil_r|]. cbn [foldl].
  destruct (diffRecord (indexInterfaces l) (un, res) rec) as [un1 res1] eqn:E.
  destruct (IH un1 res1 Hid) as (H1 & H2 & H3 & H4).
  assert (un1 ⊆ un /\ map Rec (Upserts res1) = map Rec (Upserts res) ++ [rec] /\
    matchedIDs res1 ++ keysOf un1 ≡ₚ matchedIDs res ++ keysOf un /\ absentIDs res1 = absentIDs res) as (G1 & G2 & G3 & G4).
  { unfold diffRecord in E. destruct (matchRec _ un rec) as [m|] eqn:Em; injection E as <- <-.
    - apply matchRec_Some in Em as (Hin & Hun & _). split; [apply delete_subseteq|].
      split; [simpl; by rewrite map_app|]. split; [|done].
      rewrite (matchedIDs_snoc res _ (mkIfUpsert (i_ID m) rec)) by done. cbn [ExistingID]. rewrite decide_False by (by apply Hid).
      rewrite (keysOf_delete un (i_ID m) Hun). by rewrite <- app_assoc.
    - split; [done|]. split; [simpl; by rewrite map_app|]. split; [|done].
      rewrite (matchedIDs_snoc res _ (mkIfUpsert "" rec)) by done. by rewrite app_nil_r. }
  cbv zeta in *. destruct (foldl _ (un1, res1) recs) as [un' res']. cbn [fst snd] in *. split; [by etrans|]. split.
  - by rewrite H2, G2, <- app_assoc.
  - split; [by rewrite H3, G3 | congruence].
Qed.

Definition matchOf (l : list IfState) (u : IfUpsert) : Prop :=
  ExistingID u = "" \/ exists m, m ∈ filter known l /\ i_ID m = ExistingID u /\ sameInterface (Rec u) m.

Lemma records_match l recs : forall un res,
  Forall (matchOf l) (Upserts res) ->
  Forall (matchOf l) (Upserts (foldl (diffRecord (indexInterfaces l)) (un, res) recs).2).
Proof.
  induction recs as [|rec recs IH]; intros un res Hall; [done|]. cbn [foldl].
  destruct (diffRecord _ (un, res) rec) as [un1 res1] eqn:E. apply IH. unfold diffRecord in E.
  destruct (matchRec _ un rec) as [m|] eqn:Em; injection E as <- <-; simpl; apply List.Forall_app; split; try done;
    constructor; try done; [|by left]. apply matchRec_Some in Em as (? & _ & ?). right. by exists m.
Qed.

(** Where an absent interface goes. *)
Definition absentIn (id : string) (m : IfState) (r : DiffResult) : Prop :=
  if decide (i_State m = "present") then id ∈ MissingIDs r
  else if RemoveAfterMisses <=? i_MissStreak m + 1 then id ∈ RemovedIDs r else id ∈ StreakIDs r.

Lemma absent_account L : forall res,
  let r := foldl diffAbsent res L in
  absentIDs r ≡ₚ absentIDs res ++ map fst L /\ Upserts r = Upserts res /\
  (forall id m, absentIn id m res -> absentIn id m r) /\ (forall id m, (id, m) ∈ L -> absentIn id m r).
Proof.
  induction L as [|[id m] L IH]; intros res.
  { simpl. rewrite app_nil_r. split_and!; try done. by intros ? ? ?%elem_of_nil. }
  cbn [foldl]. destruct (IH (diffAbsent res (id, m))) as (H1 & H2 & H3 & H4). cbv zeta in *.
  assert (absentIDs (diffAbsent res (id, m)) ≡ₚ absentIDs res ++ [id] /\ Upserts (diffAbsent res (id, m)) = Upserts res /\
    absentIn id m (diffAbsent res (id, m)) /\ (forall i n, absentIn i n res -> absentIn i n (diffAbsent res (id, m))))
    as (G1 & G2 & G3 & G4).
  { unfold diffAbsent, absentIDs, absentIn. case_decide; [|destruct (_ <=? _)]; simpl; split_and!; try done.
    all: try solve_Permutation. all: try (intros i n; case_decide; [|destruct (_ <=? _)]; rewrite ?elem_of_app; tauto).
    all: rewrite elem_of_app; right; by left. }
  split; [rewrite H1, G1; cbn [map fst]; by rewrite <- app_assoc|]. split; [congruence|]. split; [auto|].
  intros i n [[= -> ->]|Hin]%elem_of_cons; auto.
Qed.

Lemma device_part cur snap at_ :
  let res := diffUptime cur snap at_ (foldl (diffField (d_DeviceID cur)) emptyDiff (devFields cur snap)) in
  Upserts res = [] /\ absentIDs res = [].
Proof.
  cbv zeta. assert (forall fs r, Upserts r = [] /\ absentIDs r = [] ->
    Upserts (foldl (diffField (d_DeviceID cur)) r fs) = [] /\ absentIDs (foldl (diffField (d_DeviceID cur)) r fs) = []) as Hf.
  { induction fs as [|[[col old] new] fs IH]; intros r Hr; [done|]. cbn [foldl]. apply IH. unfold diffField. by case_decide. }
  destruct (Hf (devFields cur snap) emptyDiff) as [E1 E2]; [done|].
  unfold diffUptime. destruct (d_UptimeBasis cur) as [b|]; [|done]. destruct (_ <? _); [|done]. by destruct (b <? _).
Qed.

Lemma Diff_accounted cur snap at_ :
  NoDup (map i_ID (d_Interfaces cur)) -> (forall m, m ∈ d_Interfaces cur -> i_ID m <> "") ->
  let r := Diff cur snap at_ in let stored := filter known (d_Interfaces cur) in
  map Rec (Upserts r) = sn_Interfaces snap /\
  matchedIDs r ++ MissingIDs r ++ StreakIDs r ++ RemovedIDs r ≡ₚ map i_ID stored /\
  (forall m, m ∈ stored -> i_ID m ∈ matchedIDs r \/ absentIn (i_ID m) m r) /\
  Forall (matchOf (d_Interfaces cur)) (Upserts r).
Proof.
  intros Hnd Hid. unfold Diff. destruct (device_part cur snap at_) as [E1 E2]. cbv zeta in *.
  set (res0 := diffUptime cur snap at_ _) in *. set (l := d_Interfaces cur) in *.
  assert (forall m, m ∈ filter known l -> i_ID m <> "") as Hid' by (intros m [_ Hm]%list_elem_of_filter; auto).
  destruct (records_account l (sn_Interfaces snap) (unmatched0 (indexInterfaces l)) res0 Hid') as (H1 & H2 & H3 & H4).
  assert (Forall (matchOf l) (Upserts res0)) as Hm0 by (by rewrite E1).
  pose proof (records_match l (sn_Interfaces snap) (unmatched0 (indexInterfaces l)) res0 Hm0) as Hmatch.
  cbv zeta in *. destruct (foldl _ (unmatched0 (indexInterfaces l), res0) (sn_Interfaces snap)) as [un res]. cbn [fst snd] in *.
  destruct (absent_account (rangeOrder un) res) as (K1 & K2 & K3 & K4). cbv zeta in *.
  set (r := foldl diffAbsent res (rangeOrder un)) in *.
  assert (matchedIDs r = matchedIDs res) as Em by (unfold matchedIDs; by rewrite K2).
  assert (matchedIDs res ++ keysOf un ≡ₚ map i_ID (filter known l)) as Hall.
  { rewrite H3. unfold matchedIDs. rewrite E1. cbn [map]. rewrite filter_nil. unfold keysOf.
    rewrite (indexInterfaces_unmatched l Hnd), map_map. done. }
  split; [by rewrite K2, H2, E1|]. split.
  - rewrite Em. change (MissingIDs r ++ StreakIDs r ++ RemovedIDs r) with (absentIDs r). rewrite K1, H4, E2.
    rewrite (range_perm un). exact Hall.
  - split; [|by rewrite K2]. intros m Hm. destruct (decide (i_ID m ∈ matchedIDs r)) as [|Hn]; [by left|]. right. rewrite Em in Hn.
    apply K4. rewrite range_perm. apply elem_of_map_to_list.
    assert (i_ID m ∈ matchedIDs res ++ keysOf un) as Hin.
    { rewrite Hall. change (map i_ID ?x) with (i_ID <$> x). by apply list_elem_of_fmap_2. }
    apply elem_of_app in Hin as [?|Hin]; [done|]. unfold keysOf in Hin. change (map fst ?x) with (fst <$> x) in Hin.
    apply list_elem_of_fmap in Hin as ([id m'] & E & Hin). simpl in E. apply elem_of_map_to_list in Hin. rewrite <- E in Hin.
    enough (m' = m) as <- by done. pose proof (lookup_weaken _ _ _ _ Hin H1) as Hin0. apply elem_of_map_to_list in Hin0.
    rewrite (indexInterfaces_unmatched l Hnd) in Hin0. change (map ?f ?x) with (f <$> x) in Hin0.
    apply list_elem_of_fmap in Hin0 as (j & Ej & Hj). injection Ej as Eid ->.
    apply list_elem_of_filter in Hj as [_ Hj], Hm as [_ Hm].
    apply list_elem_of_lookup in Hj as [a Ha], Hm as [b Hb]. assert (a = b) as ->; [|congruence].
    eapply (NoDup_lookup (i_ID <$> l)); [exact Hnd | rewrite list_lookup_fmap, Ha; reflexivity |].
    rewrite list_lookup_fmap, Hb. simpl. by rewrite Eid.
Qed.

(** Every interface, stored or reported, is accounted for once: the updates
    list the reported interfaces in order; each stored one that has not been
    removed is either the match of exactly one of them or on exactly one of
    the lists of the absent, the one its state and its misses so far call for;
    and a match is between two that share an index and a name, a name, or a
    hardware address and a type. *)
Theorem diff_accounts cur snap at_ :
  NoDup (map i_ID (d_Interfaces cur)) -> (forall m, m ∈ d_Interfaces cur -> i_ID m <> "") ->
  let r := Diff cur snap at_ in let stored := filter known (d_Interfaces cur) in
  map Rec (Upserts r) = sn_Interfaces snap /\
  matchedIDs r ++ MissingIDs r ++ StreakIDs r ++ RemovedIDs r ≡ₚ map i_ID stored /\
  (forall m, m ∈ stored -> i_ID m ∈ matchedIDs r \/ absentIn (i_ID m) m r) /\
  Forall (matchOf (d_Interfaces cur)) (Upserts r).
Proof. intros Hnd Hid. by apply Diff_accounted. Qed.
End diff.

(** ** A worked report *)

Definition demoIf (id name mac : string) (idx : Z) : IfState :=
  mkIfState id idx name "" "" 6 1500 1000000000 mac 1 1 "present" 0.
Definition demoRec (name mac : string) (idx : Z) : SyncInterface :=
  mkSyncInterface idx name "" "" 6 1500 1000000000 mac 1 1.
Definition demoDevice (ifs : list IfState) : DeviceState :=
  mkDeviceState "dev1" "generic" "sw1" "" "" "" "" "" "" "" "" None ifs.
Definition demoSnap (recs : list SyncInterface) : SyncSnapshot :=
  mkSyncSnapshot "sw1" "" "" "" "" 0 "" "" "" "" recs [].
Definition demoDiff : DeviceState -> SyncSnapshot -> Time -> DiffResult := Diff (fun s => s) (fun _ => "") map_to_list.

(** Two interfaces swap their indexes, a third is gone. *)
Lemma diff_accounts_witness :
  let cur := demoDevice [demoIf "ifA" "eth0" "" 1; demoIf "ifB" "eth1" "" 2; demoIf "ifC" "eth2" "" 3] in
  let r := demoDiff cur (demoSnap [demoRec "eth1" "" 1; demoRec "eth0" "" 2]) 0 in
  map Rec (Upserts r) = [demoRec "eth1" "" 1; demoRec "eth0" "" 2] /\
  matchedIDs r ++ MissingIDs r ++ StreakIDs r ++ RemovedIDs r ≡ₚ ["ifA"; "ifB"; "ifC"] /\
  matchedIDs r = ["ifB"; "ifA"].
Proof.
  cbv zeta. set (cur := demoDevice _). set (snap := demoSnap _).
  destruct (diff_accounts (fun s => s) (fun _ => "") map_to_list (fun _ => Permutation_refl _) cur snap 0) as (H1 & H2 & _).
  - by apply (bool_decide_unpack _); vm_compute.
  - by intros m [->|[->|[->|[]%elem_of_nil]%elem_of_cons]%elem_of_cons]%elem_of_cons.
  - split; [exact H1|]. split; [exact H2|]. by vm_compute.
Defined.

(** A new interface with the hardware address of a stored one, reported ahead
    of it, takes its identity: the stored interface, whose index and name
    have not changed, is recorded as new. *)
Example identity_stolen :
  let cur := demoDevice [demoIf "ifA" "eth0" "00:11:22:33:44:55" 2] in
  let r := demoDiff cur (demoSnap [demoRec "br0" "00:11:22:33:44:55" 1; demoRec "eth0" "00:11:22:33:44:55" 2]) 0 in
  map (fun u => (ExistingID u, si_Name (Rec u))) (Upserts r) = [("ifA", "br0"); ("", "eth0")].
Proof. by vm_compute. Qed.
