(* ===== verification/SyncStore.v ===== *)
(** The table of interfaces of one device, and what inventory/adapters/postgres
    (sync.go) does to it: the three ordered steps that apply a difference, and
    the life of an interface over repeated syncs.

    The unique index of the table holds among the present rows. New ids come
    from a supply; the cast to [macaddr] is the database's. *)
From Stdlib Require Import ZArith Lia.
From stdpp Require Import base list gmap strings numbers sorting.
From S2P Require Import Prelude GoText World Errx Wire Sync.

Record IfRow : Type := mkIfRow { row : IfState; EverUp : bool }.
#[export] Instance eta_IfRow : Eta IfRow := fun r => mkIfRow (row r) (EverUp r).

Abbreviation Rows := (list IfRow).
Definition rowID (r : IfRow) : string := i_ID (row r).
Definition present (r : IfRow) : Prop := i_State (row r) = "present".
#[export] Instance present_dec r : Decision (present r).
Proof. unfold present. apply _. Defined.

(** [LoadState], its part on this table. *)
Definition loadInterfaces (rows : Rows) : list IfState := map row rows.

Definition updateWhere (P : IfRow -> Prop) `{forall r, Decision (P r)} (f : IfState -> IfState) (rows : Rows) : Rows :=
  map (fun r => if decide (P r) then mkIfRow (f (row r)) (EverUp r) else r) rows.

(** Step 1: what vanished. *)
Definition retire (res : DiffResult) (rows : Rows) : Rows :=
  let rows := updateWhere (fun r => rowID r ∈ MissingIDs res)
                (fun i => i <| i_State := "missing" |> <| i_MissStreak := 1 |>) rows in
  let rows := updateWhere (fun r => rowID r ∈ StreakIDs res)
                (fun i => i <| i_MissStreak := i_MissStreak i + 1 |>) rows in
  updateWhere (fun r => rowID r ∈ RemovedIDs res) (fun i => i <| i_State := "removed" |>) rows.

(** Step 2: the rows being reassigned, parked at the negative of their index.
    No row in use has a negative index, so the unique index is not in the way
    and the statement is written without it; the writes that follow have it. *)
Definition park (res : DiffResult) (rows : Rows) : Rows :=
  updateWhere (fun r => rowID r ∈ matchedIDs res /\ 0 < i_IfIndex (row r))
    (fun i => i <| i_IfIndex := - i_IfIndex i |>) rows.

Section apply.
Context (macaddr : string -> option string) (newID : nat -> string).

(** A reported hardware address as the column holds it. *)
Definition castMac (p : string) : option string := if decide (p = "") then Some "" else macaddr p.

Definition reported (id : string) (rec : SyncInterface) (mac : string) : IfState :=
  mkIfState id (si_IfIndex rec) (si_Name rec) (si_Alias rec) (si_Descr rec) (si_IfType rec) (si_MTU rec)
    (si_SpeedBPS rec) mac (si_AdminStatus rec) (si_OperStatus rec) "present" 0.

Definition isUp (rec : SyncInterface) : bool := si_OperStatus rec =? 1.

(** Another present row holds the index. *)
Definition conflict (id : string) (idx : Z) (rows : Rows) : Prop :=
  Exists (fun r => present r /\ i_IfIndex (row r) = idx /\ rowID r <> id) rows.

(** Step 3: [None] is the transaction rolled back. *)
Definition writeOne (rows : Rows) (n : nat) (u : IfUpsert) : option (Rows * nat) :=
  let rec := Rec u in
  mac ← castMac (si_PhysAddress rec);
  if decide (ExistingID u = "") then
    if decide (Exists (fun r => present r /\ i_IfIndex (row r) = si_IfIndex rec) rows) then
      Some (map (fun r => if decide (present r /\ i_IfIndex (row r) = si_IfIndex rec)
        then mkIfRow ((row r) <| i_Name := si_Name rec |> <| i_Alias := si_Alias rec |> <| i_State := "present" |>
                        <| i_MissStreak := 0 |>) (EverUp r || isUp rec)
        else r) rows, S n)
    else Some (rows ++ [mkIfRow (reported (newID n) rec mac) (isUp rec)], S n)
  else if decide (conflict (ExistingID u) (si_IfIndex rec) rows) then None
  else Some (map (fun r => if decide (rowID r = ExistingID u)
                           then mkIfRow (reported (rowID r) rec mac) (EverUp r || isUp rec) else r) rows, n).

Fixpoint writeAll (rows : Rows) (n : nat) (us : list IfUpsert) : option (Rows * nat) :=
  match us with
  | [] => Some (rows, n)
  | u :: us => '(rows, n) ← writeOne rows n u; writeAll rows n us
  end.

Definition applyInterfaces (rows : Rows) (n : nat) (res : DiffResult) : option (Rows * nat) :=
  writeAll (park res (retire res rows)) n (Upserts res).

(** * Applying a difference *)

Lemma updateWhere_In P `{forall r, Decision (P r)} f rows r :
  r ∈ updateWhere P f rows -> exists r0, r0 ∈ rows /\
    r = if decide (P r0) then mkIfRow (f (row r0)) (EverUp r0) else r0.
Proof.
  unfold updateWhere. change (map ?g rows) with (g <$> rows).
  intros (r0 & -> & Hr)%list_elem_of_fmap. by exists r0.
Qed.

Lemma updateWhere_IDs P `{forall r, Decision (P r)} f rows :
  (forall i, i_ID (f i) = i_ID i) -> map rowID (updateWhere P f rows) = map rowID rows.
Proof.
  intros Hf. unfold updateWhere. rewrite map_map. apply map_ext. intros r. case_decide; [|done].
  unfold rowID. simpl. apply Hf.
Qed.

Lemma IDs_prepared res rows : map rowID (park res (retire res rows)) = map rowID rows.
Proof. unfold park, retire. by rewrite !updateWhere_IDs. Qed.

Lemma prepared_row res rows r : r ∈ park res (retire res rows) -> exists r0, r0 ∈ rows /\ rowID r0 = rowID r.
Proof.
  intros Hr. assert (rowID r ∈ map rowID rows) as Hin.
  { rewrite <- (IDs_prepared res). change (map rowID ?x) with (rowID <$> x). by apply list_elem_of_fmap_2. }
  change (map rowID ?x) with (rowID <$> x) in Hin. apply list_elem_of_fmap in Hin as (r0 & E & Hr0). by exists r0.
Qed.

(** A present row after the first two steps was present before, was not put
    on the missing list, and is parked if it is matched. *)
Lemma prepared_In res rows r :
  r ∈ park res (retire res rows) -> present r ->
  exists r0, r0 ∈ rows /\ present r0 /\ rowID r0 = rowID r /\ (rowID r0 ∉ MissingIDs res) /\
    i_IfIndex (row r) = if decide (rowID r0 ∈ matchedIDs res /\ 0 < i_IfIndex (row r0)) then - i_IfIndex (row r0)
                        else i_IfIndex (row r0).
Proof.
  unfold park, retire. intros (r3 & Hr3 & ->)%updateWhere_In Hp.
  apply updateWhere_In in Hr3 as (r2 & (r1 & (r0 & Hr0 & E1)%updateWhere_In & E2)%updateWhere_In & E3).
  exists r0. split; [done|]. unfold present, rowID in *.
  destruct (decide (i_ID (row r0) ∈ MissingIDs res)) as [Hm|Hm];
  destruct (decide (i_ID (row r1) ∈ StreakIDs res)) as [Hs|Hs];
  destruct (decide (i_ID (row r2) ∈ RemovedIDs res)) as [Hd|Hd]; subst; simpl in *;
  case_decide; simpl in *; try done; split_and!; try done; case_decide; tauto.
Qed.

Definition written (rec : SyncInterface) (r : IfRow) : Prop :=
  exists mac, castMac (si_PhysAddress rec) = Some mac /\ row r = reported (rowID r) rec mac.

Lemma written_present rec r : written rec r -> present r /\ i_IfIndex (row r) = si_IfIndex rec.
Proof. intros (mac & _ & E). unfold present. by rewrite E. Qed.

(** Half way through step 3. *)
Record writing (rows : Rows) (n : nat) (done_ : list SyncInterface) (todo : list IfUpsert) : Prop := mkWriting {
  w_ids : NoDup (map rowID rows);
  w_index : forall r, r ∈ rows -> present r ->
    i_IfIndex (row r) ∈ map si_IfIndex done_ \/ (i_IfIndex (row r) < 0 /\ rowID r ∈ map ExistingID todo);
  w_unique : forall a b, a ∈ rows -> b ∈ rows -> present a -> present b ->
    i_IfIndex (row a) = i_IfIndex (row b) -> rowID a = rowID b;
  w_fresh : forall k r, (n <= k)%nat -> r ∈ rows -> rowID r <> newID k;
  w_done : forall rec, rec ∈ done_ -> exists r, r ∈ rows /\ written rec r /\ rowID r ∉ map ExistingID todo;
  w_todo : forall u, u ∈ todo -> ExistingID u = "" \/ ExistingID u ∈ map rowID rows
}.

Lemma write_insert rows n done_ todo rec mac :
  (forall i j, newID i = newID j -> i = j) -> (forall k, newID k <> "") ->
  writing rows n done_ (mkIfUpsert "" rec :: todo) ->
  castMac (si_PhysAddress rec) = Some mac -> 0 < si_IfIndex rec -> (si_IfIndex rec ∉ map si_IfIndex done_) ->
  (forall r, r ∈ rows -> rowID r <> "") ->
  writing (rows ++ [mkIfRow (reported (newID n) rec mac) (isUp rec)]) (S n) (done_ ++ [rec]) todo.
Proof.
  intros Hinj Hne [Hids Hidx Huniq Hfresh Hdone Htodo] Hmac Hpos Hnew Hrows. set (new := mkIfRow _ _).
  assert (forall r, r ∈ rows -> present r -> i_IfIndex (row r) <> si_IfIndex rec) as Hfree.
  { intros r Hr Hp E. destruct (Hidx r Hr Hp) as [Hin|[? _]]; [by rewrite E in Hin | lia]. }
  constructor.
  - rewrite map_app. apply NoDup_app. split; [done|]. split; [|apply NoDup_singleton].
    intros id (r & E & Hr)%list_elem_of_fmap E'%list_elem_of_singleton. apply (Hfresh n r); [done..|].
    by rewrite <- E, E'.
  - intros r. rewrite elem_of_app, list_elem_of_singleton. intros [Hr| ->] Hp; rewrite map_app, elem_of_app.
    + destruct (Hidx r Hr Hp) as [?|[? Hin]]; [by left; left|]. right. split; [done|].
      cbn [map] in Hin. apply elem_of_cons in Hin as [E|?]; [|done]. by destruct (Hrows r Hr).
    + left. right. by left.
  - intros a b. rewrite !elem_of_app, !list_elem_of_singleton. intros [Ha| ->] [Hb| ->] Pa Pb E; [by apply Huniq| | |done].
    + by destruct (Hfree a Ha Pa).
    + by destruct (Hfree b Hb Pb).
  - intros k r Hk. rewrite elem_of_app, list_elem_of_singleton. intros [Hr| ->]; [apply Hfresh; [lia|done]|].
    intros E. apply Hinj in E. lia.
  - intros rec'. rewrite elem_of_app, list_elem_of_singleton. intros [Hr| ->].
    + destruct (Hdone rec' Hr) as (r & Hin & Hw & Hn). exists r. split; [by apply elem_of_app; left|]. split; [done|].
      cbn [map] in Hn. by apply not_elem_of_cons in Hn as [_ ?].
    + exists new. split; [apply elem_of_app; right; by left|]. split; [by exists mac|].
      intros (u & E & Hu)%list_elem_of_fmap. destruct (Htodo u) as [E0|Hin]; [by right| |].
      * by destruct (Hne n); rewrite <- E0, <- E.
      * change (map rowID rows) with (rowID <$> rows) in Hin. apply list_elem_of_fmap in Hin as (r & Er & Hr).
        apply (Hfresh n r); [lia|done|]. by rewrite <- Er, <- E.
  - intros u Hu. destruct (Htodo u) as [?|?]; [by right|by left|]. right. rewrite map_app. apply elem_of_app. by left.
Qed.

Lemma write_update rows n done_ todo id rec mac :
  id <> "" -> writing rows n done_ (mkIfUpsert id rec :: todo) ->
  castMac (si_PhysAddress rec) = Some mac -> 0 < si_IfIndex rec -> (si_IfIndex rec ∉ map si_IfIndex done_) ->
  (id ∉ map ExistingID todo) ->
  writing (map (fun r => if decide (rowID r = id) then mkIfRow (reported (rowID r) rec mac) (EverUp r || isUp rec) else r) rows)
    n (done_ ++ [rec]) todo /\ ~ conflict id (si_IfIndex rec) rows.
Proof.
  intros Hne [Hids Hidx Huniq Hfresh Hdone Htodo] Hmac Hpos Hnew Hnid.
  set (f r := if decide (rowID r = id) then mkIfRow (reported (rowID r) rec mac) (EverUp r || isUp rec) else r).
  assert (forall r, r ∈ rows -> present r -> i_IfIndex (row r) <> si_IfIndex rec) as Hfree.
  { intros r Hr Hp E. destruct (Hidx r Hr Hp) as [Hin|[? _]]; [by rewrite E in Hin | lia]. }
  assert (forall r, rowID (f r) = rowID r) as Hfid by (intros r; unfold f; by case_decide).
  assert (forall r, r ∈ map f rows <-> exists r0, r = f r0 /\ r0 ∈ rows) as Hin by (intros r; apply list_elem_of_fmap).
  split; [|intros (r & Hr & Hp & E & _)%Exists_exists; by apply (Hfree r)]. constructor.
  - rewrite map_map. by rewrite (map_ext _ rowID).
  - intros r (r0 & -> & Hr)%Hin Hp. rewrite map_app, elem_of_app, Hfid. unfold f in *. case_decide as Ei.
    + left. right. by left.
    + destruct (Hidx r0 Hr Hp) as [?|[? Hi]]; [by left; left|]. right. split; [done|].
      cbn [map] in Hi. apply elem_of_cons in Hi as [E|?]; [by destruct Ei|done].
  - intros a b (a0 & -> & Ha)%Hin (b0 & -> & Hb)%Hin. rewrite !Hfid. unfold f.
    case_decide as Ea; case_decide as Eb; intros Pa Pb E; [congruence| | |by apply Huniq].
    + by destruct (Hfree b0 Hb Pb).
    + by destruct (Hfree a0 Ha Pa).
  - intros k r Hk (r0 & -> & Hr)%Hin. rewrite Hfid. by apply Hfresh.
  - intros rec'. rewrite elem_of_app, list_elem_of_singleton. intros [Hr| ->].
    + destruct (Hdone rec' Hr) as (r & Hr0 & Hw & Hn). cbn [map ExistingID] in Hn. apply not_elem_of_cons in Hn as [Hn1 Hn2].
      exists r. split; [apply Hin; exists r; split; [unfold f; by rewrite decide_False|done]|]. done.
    + destruct (Htodo (mkIfUpsert id rec)) as [?|Hi]; [by left|done|]. cbn [ExistingID] in Hi.
      change (map rowID rows) with (rowID <$> rows) in Hi. apply list_elem_of_fmap in Hi as (r & E & Hr).
      exists (f r). split; [apply Hin; by exists r|]. rewrite Hfid. split; [|by rewrite <- E].
      unfold written. rewrite Hfid. exists mac. split; [done|]. unfold f. by rewrite decide_True.
  - intros u Hu. destruct (Htodo u) as [?|Hi]; [by right|by left|]. right. rewrite map_map. by rewrite (map_ext _ rowID).
Qed.

Lemma writeAll_spec todo : forall rows n done_,
  (forall i j, newID i = newID j -> i = j) -> (forall k, newID k <> "") ->
  writing rows n done_ todo -> (forall r, r ∈ rows -> rowID r <> "") ->
  Forall (fun u => is_Some (castMac (si_PhysAddress (Rec u))) /\ 0 < si_IfIndex (Rec u)) todo ->
  NoDup (map si_IfIndex done_ ++ map (fun u => si_IfIndex (Rec u)) todo) ->
  NoDup (filter (fun id => id <> "") (map ExistingID todo)) ->
  exists rows' n', writeAll rows n todo = Some (rows', n') /\ writing rows' n' (done_ ++ map Rec todo) [].
Proof.
  induction todo as [|[id rec] todo IH]; intros rows n done_ Hinj Hne Hw Hrows Hok Hnd Hids.
  { exists rows, n. by rewrite app_nil_r. }
  apply List.Forall_cons_iff in Hok as [[[mac Hmac] Hpos] Hok]. cbn [Rec] in *. cbn [writeAll]. unfold writeOne.
  cbn [Rec ExistingID]. rewrite Hmac. cbn [mbind option_bind].
  assert (si_IfIndex rec ∉ map si_IfIndex done_) as Hnew.
  { apply NoDup_app in Hnd as (_ & Hd & _). intros Hin. apply (Hd _ Hin). by left. }
  assert (NoDup (map si_IfIndex (done_ ++ [rec]) ++ map (fun u => si_IfIndex (Rec u)) todo)) as Hnd'
    by (rewrite map_app, <- app_assoc; exact Hnd).
  destruct (decide (id = "")) as [->|Hid].
  - assert (~ Exists (fun r => present r /\ i_IfIndex (row r) = si_IfIndex rec) rows) as Hnone.
    { intros (r & Hr & Hp & E)%Exists_exists. destruct (w_index _ _ _ _ Hw r Hr Hp) as [Hin|[? _]]; [by rewrite E in Hin|lia]. }
    rewrite decide_False by done. cbn [mbind option_bind].
    apply (write_insert _ _ _ _ rec mac Hinj Hne) in Hw; [|done..].
    destruct (IH _ (S n) (done_ ++ [rec]) Hinj Hne Hw) as (rows' & n' & E & Hw'); try done.
    { intros r. rewrite elem_of_app, list_elem_of_singleton. intros [?| ->]; [by apply Hrows | apply Hne]. }
    exists rows', n'. split; [done|]. by rewrite <- app_assoc in Hw'.
  - cbn [map] in Hids. rewrite filter_cons, decide_True in Hids by done. apply NoDup_cons in Hids as [Hnid Hids].
    assert (id ∉ map ExistingID todo) as Hnid' by (intros Hin; apply Hnid; by apply list_elem_of_filter).
    apply (write_update _ _ _ _ id rec mac Hid) in Hw as [Hw Hc]; [|done..].
    rewrite decide_False by exact Hc. cbn [mbind option_bind].
    destruct (IH _ n (done_ ++ [rec]) Hinj Hne Hw) as (rows' & n' & E & Hw'); try done.
    { intros r (r0 & -> & Hr)%list_elem_of_fmap. case_decide; by apply (Hrows r0). }
    exists rows', n'. split; [done|]. by rewrite <- app_assoc in Hw'.
Qed.

(** No row is ever without an id. *)
Lemma writeAll_some us : (forall k, newID k <> "") -> forall rows n rows' n',
  (forall r, r ∈ rows -> rowID r <> "") -> writeAll rows n us = Some (rows', n') ->
  forall r, r ∈ rows' -> rowID r <> "".
Proof.
  intros Hne. induction us as [|u us IH]; intros rows n rows' n' Hrows; cbn [writeAll]; [by intros [= <- <-]|].
  destruct (writeOne rows n u) as [[rows1 n1]|] eqn:E; [|done]. cbn [mbind option_bind]. apply IH.
  unfold writeOne in E. destruct (castMac _) as [mac|]; [|done]. cbn [mbind option_bind] in E.
  destruct (decide (ExistingID u = "")); [destruct (decide (Exists _ _))|destruct (decide (conflict _ _ _)); [done|]];
    injection E as <- <-; intros r.
  - intros (r0 & -> & Hr)%list_elem_of_fmap. case_decide; by apply (Hrows r0).
  - rewrite elem_of_app, list_elem_of_singleton. intros [?| ->]; [by apply Hrows | apply Hne].
  - intros (r0 & -> & Hr)%list_elem_of_fmap. case_decide; by apply (Hrows r0).
Qed.

(** ** The three steps together *)

(** The table between syncs, with the ids from [n] on still unused. *)
Definition rows_ok (rows : Rows) (n : nat) : Prop :=
  NoDup (map rowID rows) /\ (forall r, r ∈ rows -> rowID r <> "") /\
  (forall r, r ∈ rows -> present r -> 0 < i_IfIndex (row r)) /\
  (forall a b, a ∈ rows -> b ∈ rows -> present a -> present b ->
     i_IfIndex (row a) = i_IfIndex (row b) -> rowID a = rowID b) /\
  (forall k r, (n <= k)%nat -> r ∈ rows -> rowID r <> newID k).

(** A report the table can hold. *)
Definition report_ok (snap : SyncSnapshot) : Prop :=
  NoDup (map si_IfIndex (sn_Interfaces snap)) /\
  forall rec, rec ∈ sn_Interfaces snap -> 0 < si_IfIndex rec /\ is_Some (castMac (si_PhysAddress rec)).

Context (ToLower : string -> string) (RFC3339 : Time -> string).
Context (rangeOrder : gmap string IfState -> list (string * IfState)).
Context (range_perm : forall m, rangeOrder m ≡ₚ map_to_list m).
Context (newID_inj : forall i j, newID i = newID j -> i = j) (newID_some : forall k, newID k <> "").
Let diff := Diff ToLower RFC3339 rangeOrder.

Lemma NoDup_known l : NoDup (map i_ID l) -> NoDup (map i_ID (filter known l)).
Proof.
  intros Hnd. eapply sublist_NoDup; [exact Hnd|]. clear. induction l as [|i l IH]; [done|].
  rewrite filter_cons. cbn [map]. case_decide; [by apply sublist_skip | by apply sublist_cons].
Qed.

Lemma matched_NoDup rows n cur snap at_ :
  rows_ok rows n -> d_Interfaces cur = loadInterfaces rows ->
  NoDup (matchedIDs (diff cur snap at_)) /\
  (forall u, u ∈ Upserts (diff cur snap at_) -> ExistingID u = "" \/ ExistingID u ∈ map rowID rows) /\
  (forall r, r ∈ rows -> present r -> (rowID r ∉ MissingIDs (diff cur snap at_)) -> rowID r ∈ matchedIDs (diff cur snap at_)).
Proof.
  intros (Hnd & Hne & _) E. assert (map i_ID (d_Interfaces cur) = map rowID rows) as Eids.
  { rewrite E. unfold loadInterfaces. by rewrite map_map. }
  assert (forall m, m ∈ d_Interfaces cur -> i_ID m <> "") as Hid.
  { rewrite E. intros m (r & -> & Hr)%list_elem_of_fmap. by apply (Hne r). }
  destruct (Diff_accounted ToLower RFC3339 rangeOrder range_perm cur snap at_) as (_ & Hperm & Hall & Hmatch);
    [by rewrite Eids | done |]. cbv zeta in *. fold diff in Hperm, Hall, Hmatch.
  assert (forall m, m ∈ filter known (d_Interfaces cur) -> i_ID m ∈ map rowID rows) as Hsub.
  { intros m [_ Hm]%list_elem_of_filter. rewrite <- Eids. change (map i_ID ?x) with (i_ID <$> x).
    by apply list_elem_of_fmap_2. }
  split; [|split].
  - assert (NoDup (map i_ID (filter known (d_Interfaces cur)))) as Hnd2.
    { apply NoDup_known. by rewrite Eids. }
    rewrite <- Hperm in Hnd2. by apply NoDup_app in Hnd2 as [? _].
  - intros u Hu. rewrite List.Forall_forall in Hmatch. destruct (Hmatch u) as [?|(m & Hm & <- & _)]; [by apply list_elem_of_In| |]; auto.
  - intros r Hr Hp Hn. destruct (Hall (row r)) as [?|Ha]; [|done|].
    + apply list_elem_of_filter. split; [unfold known; unfold present in Hp; by rewrite Hp|].
      rewrite E. unfold loadInterfaces. change (map row ?x) with (row <$> x). by apply list_elem_of_fmap_2.
    + unfold absentIn in Ha. rewrite decide_True in Ha by exact Hp. done.
Qed.

Lemma writing_start rows n cur snap at_ :
  rows_ok rows n -> d_Interfaces cur = loadInterfaces rows ->
  let res := diff cur snap at_ in
  writing (park res (retire res rows)) n [] (Upserts res).
Proof.
  intros Hok E res. destruct (matched_NoDup rows n cur snap at_ Hok E) as (Hm & Htodo & Hpres). fold res in Hm, Htodo, Hpres.
  destruct Hok as (Hnd & Hne & Hpos & Huniq & Hfresh).
  assert (forall r, r ∈ park res (retire res rows) -> present r ->
    exists r0, r0 ∈ rows /\ present r0 /\ rowID r0 = rowID r /\ rowID r0 ∈ matchedIDs res /\
      i_IfIndex (row r) = - i_IfIndex (row r0) /\ 0 < i_IfIndex (row r0)) as Hprep.
  { intros r Hr Hp. destruct (prepared_In res rows r Hr Hp) as (r0 & Hr0 & Hp0 & Eid & Hn & Ei).
    pose proof (Hpres r0 Hr0 Hp0 Hn) as Hin. pose proof (Hpos r0 Hr0 Hp0). exists r0. rewrite decide_True in Ei by done.
    by split_and!. }
  constructor.
  - by rewrite IDs_prepared.
  - intros r Hr Hp. right. destruct (Hprep r Hr Hp) as (r0 & _ & _ & Eid & Hin & Ei & H0). split; [lia|].
    rewrite <- Eid. unfold matchedIDs in Hin. by apply list_elem_of_filter in Hin as [_ ?].
  - intros a b Ha Hb Pa Pb Ei. destruct (Hprep a Ha Pa) as (a0 & Ha0 & Pa0 & <- & _ & Ea & _).
    destruct (Hprep b Hb Pb) as (b0 & Hb0 & Pb0 & <- & _ & Eb & _). apply Huniq; try done. lia.
  - intros k r Hk Hr. destruct (prepared_row _ rows r Hr) as (r0 & Hr0 & <-). by apply Hfresh.
  - by intros rec ?%elem_of_nil.
  - intros u Hu. rewrite IDs_prepared. by apply Htodo.
Qed.

Lemma apply_spec rows n cur snap at_ :
  rows_ok rows n -> report_ok snap -> d_Interfaces cur = loadInterfaces rows ->
  let res := diff cur snap at_ in
  exists rows' n', applyInterfaces rows n res = Some (rows', n') /\ writing rows' n' (sn_Interfaces snap) [].
Proof.
  intros Hok [Hndx Hrep] E res.
  pose proof (writing_start rows n cur snap at_ Hok E) as Hw. fold res in Hw.
  destruct (matched_NoDup rows n cur snap at_ Hok E) as (Hm & _ & _). fold res in Hm.
  destruct Hok as (Hnd & Hne & _).
  assert (map Rec (Upserts res) = sn_Interfaces snap) as Erec.
  { apply (Diff_accounted ToLower RFC3339 rangeOrder range_perm cur snap at_).
    - rewrite E. unfold loadInterfaces. by rewrite map_map.
    - rewrite E. intros m (r & -> & Hr)%list_elem_of_fmap. by apply (Hne r). }
  destruct (writeAll_spec (Upserts res) (park res (retire res rows)) n [] newID_inj newID_some Hw) as (rows' & n' & Ew & Hw').
  - intros r Hr. destruct (prepared_row _ rows r Hr) as (r0 & Hr0 & <-). by apply Hne.
  - rewrite List.Forall_forall. intros u Hu%list_elem_of_In. destruct (Hrep (Rec u)) as [? ?]; [|done].
    rewrite <- Erec. change (map Rec ?x) with (Rec <$> x). by apply list_elem_of_fmap_2.
  - cbn [map app]. rewrite <- (map_map Rec si_IfIndex), Erec. exact Hndx.
  - exact Hm.
  - exists rows', n'. split; [exact Ew|]. by rewrite Erec in Hw'.
Qed.

Lemma apply_reindexed rows n cur snap at_ :
  rows_ok rows n -> report_ok snap -> d_Interfaces cur = loadInterfaces rows ->
  exists rows' n', applyInterfaces rows n (diff cur snap at_) = Some (rows', n') /\ rows_ok rows' n' /\
    (forall idx, idx ∈ map si_IfIndex (sn_Interfaces snap) <-> exists r, r ∈ rows' /\ present r /\ i_IfIndex (row r) = idx) /\
    (forall rec, rec ∈ sn_Interfaces snap -> exists r, r ∈ rows' /\ written rec r).
Proof.
  intros Hok Hrep E. destruct (apply_spec rows n cur snap at_ Hok Hrep E) as (rows' & n' & Ew & [W1 W2 W3 W4 W5 _]).
  cbv zeta in *. exists rows', n'. split; [exact Ew|].
  assert (forall r, r ∈ rows' -> present r -> i_IfIndex (row r) ∈ map si_IfIndex (sn_Interfaces snap)) as Hidx.
  { intros r Hr Hp. destruct (W2 r Hr Hp) as [?|[_ ?%elem_of_nil]]; done. }
  assert (forall rec, rec ∈ sn_Interfaces snap -> exists r, r ∈ rows' /\ written rec r) as Hwritten.
  { intros rec Hrec. destruct (W5 rec Hrec) as (r & ? & ? & _). by exists r. }
  split; [|split; [|exact Hwritten]].
  - split_and!; [exact W1 | | | exact W3 | exact W4].
    { eapply (writeAll_some _ newID_some); [|exact Ew]. intros r Hr.
      destruct Hok as (_ & Hne & _). destruct (prepared_row _ rows r Hr) as (r0 & Hr0 & <-). by apply Hne. }
    intros r Hr Hp. pose proof (Hidx r Hr Hp) as Hin. change (map si_IfIndex ?x) with (si_IfIndex <$> x) in Hin.
    apply list_elem_of_fmap in Hin as (rec & -> & Hrec). by apply Hrep.
  - intros idx. split.
    + change (map si_IfIndex ?x) with (si_IfIndex <$> x). intros (rec & -> & Hrec)%list_elem_of_fmap.
      destruct (Hwritten rec Hrec) as (r & Hr & Hw). exists r. apply written_present in Hw as [? ?]. done.
    + intros (r & Hr & Hp & <-). by apply Hidx.
Qed.

(** C4. A device may renumber its interfaces in any way, swaps and cycles
    included: whatever it reports with distinct positive indexes, the three
    steps apply it without ever touching the unique index, and afterwards the
    present rows are exactly the reported interfaces, one each, with the
    fields reported. *)
Theorem apply_reindexes rows n cur snap at_ :
  rows_ok rows n -> report_ok snap -> d_Interfaces cur = loadInterfaces rows ->
  exists rows' n', applyInterfaces rows n (diff cur snap at_) = Some (rows', n') /\ rows_ok rows' n' /\
    (forall idx, idx ∈ map si_IfIndex (sn_Interfaces snap) <-> exists r, r ∈ rows' /\ present r /\ i_IfIndex (row r) = idx) /\
    (forall rec, rec ∈ sn_Interfaces snap -> exists r, r ∈ rows' /\ written rec r).
Proof. apply apply_reindexed. Qed.

(** ** The life of an interface that is gone *)

(** One sync of the table. *)
Definition synced (snap : SyncSnapshot) (rows : Rows) (n : nat) (rows' : Rows) (n' : nat) : Prop :=
  exists cur at_, d_Interfaces cur = loadInterfaces rows /\ applyInterfaces rows n (diff cur snap at_) = Some (rows', n').

Definition unmentioned (i : IfState) (snap : SyncSnapshot) : Prop :=
  forall rec, rec ∈ sn_Interfaces snap -> ~ sameInterface ToLower rec i.

(** What a sync makes of an interface it does not mention. *)
Definition aged (i : IfState) : IfState :=
  if decide (i_State i = "present") then i <| i_State := "missing" |> <| i_MissStreak := 1 |>
  else if RemoveAfterMisses <=? i_MissStreak i + 1 then i <| i_State := "removed" |>
  else i <| i_MissStreak := i_MissStreak i + 1 |>.

Lemma writeAll_keeps us : forall rows n rows' n' r,
  writeAll rows n us = Some (rows', n') -> r ∈ rows -> ~ present r -> (rowID r ∉ map ExistingID us) -> r ∈ rows'.
Proof.
  induction us as [|u us IH]; intros rows n rows' n' r; cbn [writeAll]; [by intros [= <- <-]|].
  destruct (writeOne rows n u) as [[rows1 n1]|] eqn:E; [|done]. cbn [mbind option_bind map]. intros Ew Hr Hp Hn.
  apply not_elem_of_cons in Hn as [Hn1 Hn2]. apply (IH _ _ _ _ r Ew); [|done..].
  unfold writeOne in E. destruct (castMac _) as [mac|]; [|done]. cbn [mbind option_bind] in E.
  destruct (decide (ExistingID u = "")); [destruct (decide (Exists _ _))|destruct (decide (conflict _ _ _)); [done|]];
    injection E as <- <-.
  - apply list_elem_of_fmap. exists r. split; [|done]. rewrite decide_False; [done|]. by intros [? _].
  - apply elem_of_app. by left.
  - apply list_elem_of_fmap. exists r. split; [|done]. by rewrite decide_False.
Qed.

Lemma rowID_inj rows a b : NoDup (map rowID rows) -> a ∈ rows -> b ∈ rows -> rowID a = rowID b -> a = b.
Proof.
  intros Hnd [i Hi]%list_elem_of_lookup [j Hj]%list_elem_of_lookup E. assert (i = j) as ->; [|congruence].
  eapply (NoDup_lookup (rowID <$> rows)); [exact Hnd | by rewrite list_lookup_fmap, Hi |].
  rewrite list_lookup_fmap, Hj. simpl. by rewrite E.
Qed.

Lemma elem_of_updateWhere P `{forall r, Decision (P r)} f rows r :
  r ∈ rows -> (if decide (P r) then mkIfRow (f (row r)) (EverUp r) else r) ∈ updateWhere P f rows.
Proof. intros Hr. unfold updateWhere. apply list_elem_of_fmap. by exists r. Qed.

(** One sync ages the row of an interface it does not mention, and changes
    nothing else of it. *)
Lemma absent_ages rows n snap rows' n' r :
  rows_ok rows n -> synced snap rows n rows' n' -> r ∈ rows -> i_State (row r) <> "removed" ->
  unmentioned (row r) snap -> mkIfRow (aged (row r)) (EverUp r) ∈ rows'.
Proof.
  intros Hok (cur & at_ & E & Ew) Hr Hknown Hun. set (res := diff cur snap at_) in *.
  pose proof Hok as (Hnd & Hne & _).
  assert (map i_ID (d_Interfaces cur) = map rowID rows) as Eids by (rewrite E; unfold loadInterfaces; by rewrite map_map).
  destruct (Diff_accounted ToLower RFC3339 rangeOrder range_perm cur snap at_) as (Erec & Hperm & Hall & Hmatch).
  { by rewrite Eids. }
  { rewrite E. intros m (r0 & -> & Hr0)%list_elem_of_fmap. by apply (Hne r0). }
  cbv zeta in *. fold diff in Erec, Hperm, Hall, Hmatch. fold res in Erec, Hperm, Hall, Hmatch.
  assert (row r ∈ filter known (d_Interfaces cur)) as Hin.
  { apply list_elem_of_filter. split; [done|]. rewrite E. unfold loadInterfaces. apply list_elem_of_fmap. by exists r. }
  assert (rowID r ∉ map ExistingID (Upserts res)) as Hnu.
  { intros (u & Eu & Hu)%list_elem_of_fmap. rewrite List.Forall_forall in Hmatch.
    destruct (Hmatch u) as [E0|(m & Hm & Em & Hs)]; [by apply list_elem_of_In| |].
    - apply (Hne r Hr). by rewrite Eu.
    - apply list_elem_of_filter in Hm as [_ Hm]. rewrite E in Hm. unfold loadInterfaces in Hm.
      apply list_elem_of_fmap in Hm as (r1 & -> & Hr1). assert (r1 = r) as ->.
      { apply (rowID_inj rows); try done. by rewrite Eu. }
      apply (Hun (Rec u)); [|done]. rewrite <- Erec. apply list_elem_of_fmap. by exists u. }
  assert (rowID r ∉ matchedIDs res) as Hnm by (unfold matchedIDs; intros [_ ?]%list_elem_of_filter; done).
  destruct (Hall (row r) Hin) as [?|Ha]; [done|].
  assert (NoDup (MissingIDs res ++ StreakIDs res ++ RemovedIDs res)) as Hd.
  { assert (NoDup (map i_ID (filter known (d_Interfaces cur)))) as Hnd2.
    { apply NoDup_known. by rewrite Eids. }
    rewrite <- Hperm in Hnd2. by apply NoDup_app in Hnd2 as (_ & _ & ?). }
  apply NoDup_app in Hd as (_ & Hd1 & Hd). apply NoDup_app in Hd as (_ & Hd2 & _).
  setoid_rewrite elem_of_app in Hd1.
  assert (mkIfRow (aged (row r)) (EverUp r) ∈ park res (retire res rows)) as Hprep.
  { pose proof (elem_of_updateWhere (fun r => rowID r ∈ MissingIDs res)
      (fun i => i <| i_State := "missing" |> <| i_MissStreak := 1 |>) rows r Hr) as H1.
    apply (elem_of_updateWhere (fun r => rowID r ∈ StreakIDs res) (fun i => i <| i_MissStreak := i_MissStreak i + 1 |>)) in H1.
    apply (elem_of_updateWhere (fun r => rowID r ∈ RemovedIDs res) (fun i => i <| i_State := "removed" |>)) in H1.
    apply (elem_of_updateWhere (fun r => rowID r ∈ matchedIDs res /\ 0 < i_IfIndex (row r))
      (fun i => i <| i_IfIndex := - i_IfIndex i |>)) in H1.
    unfold park, retire. revert H1. clear -Ha Hnm Hd1 Hd2. unfold rowID, aged, absentIn in *. destruct r as [i ever].
    cbn [row EverUp] in *.
    destruct (decide (i_State i = "present")) as [Es|Es];
      [|destruct (RemoveAfterMisses <=? i_MissStreak i + 1)]; intros H1.
    - assert ((i_ID i ∉ StreakIDs res) /\ (i_ID i ∉ RemovedIDs res)) as [N1 N2] by (specialize (Hd1 _ Ha); tauto).
      repeat (first [rewrite (decide_True (P := _ ∈ MissingIDs res)) in H1 by done
                    |rewrite (decide_False (P := _ ∈ StreakIDs res)) in H1 by done
                    |rewrite (decide_False (P := _ ∈ RemovedIDs res)) in H1 by done]; simpl in H1).
      by rewrite decide_False in H1 by (intros [? _]; done).
    - assert ((i_ID i ∉ StreakIDs res) /\ (i_ID i ∉ MissingIDs res)) as [N1 N2].
      { split; intros ?; [by apply (Hd2 (i_ID i))|]. destruct (Hd1 (i_ID i)); tauto. }
      repeat (first [rewrite (decide_False (P := _ ∈ MissingIDs res)) in H1 by done
                    |rewrite (decide_False (P := _ ∈ StreakIDs res)) in H1 by done
                    |rewrite (decide_True (P := _ ∈ RemovedIDs res)) in H1 by done]; simpl in H1).
      by rewrite decide_False in H1 by (intros [? _]; done).
    - assert ((i_ID i ∉ RemovedIDs res) /\ (i_ID i ∉ MissingIDs res)) as [N1 N2].
      { split; intros ?; [by apply (Hd2 (i_ID i))|]. destruct (Hd1 (i_ID i)); tauto. }
      repeat (first [rewrite (decide_False (P := _ ∈ MissingIDs res)) in H1 by done
                    |rewrite (decide_True (P := _ ∈ StreakIDs res)) in H1 by done
                    |rewrite (decide_False (P := _ ∈ RemovedIDs res)) in H1 by done]; simpl in H1).
      by rewrite decide_False in H1 by (intros [? _]; done). }
  eapply writeAll_keeps; [exact Ew | exact Hprep | |].
  - unfold present, aged. simpl. case_decide; [done|]. by destruct (_ <=? _).
  - unfold rowID, aged in *. simpl. case_decide; [done|]. by destruct (_ <=? _).
Qed.

Lemma unmentioned_aged i snap : unmentioned i snap -> unmentioned (aged i) snap.
Proof.
  intros Hun rec Hrec Hs. apply (Hun rec Hrec). revert Hs. unfold aged, sameInterface.
  destruct (decide _); [done|]. by destruct (_ <=? _).
Qed.

(** One sync of a good report, with the ageing of the row of [i]. *)
Lemma sync_ages rows n cur snap at_ i ever :
  rows_ok rows n -> report_ok snap -> d_Interfaces cur = loadInterfaces rows ->
  mkIfRow i ever ∈ rows -> i_State i <> "removed" -> unmentioned i snap ->
  exists rows' n', applyInterfaces rows n (diff cur snap at_) = Some (rows', n') /\ rows_ok rows' n' /\
    mkIfRow (aged i) ever ∈ rows'.
Proof.
  intros Hok Hrep E Hr Hs Hun. destruct (apply_reindexed rows n cur snap at_ Hok Hrep E) as (rows' & n' & Ew & Hok' & _).
  exists rows', n'. split; [exact Ew|]. split; [exact Hok'|].
  apply (absent_ages rows n snap rows' n' (mkIfRow i ever)); try done. by exists cur, at_.
Qed.

(** An interface that three syncs in a row do not report is removed by the
    third and no sooner: the first makes it missing, the second counts, the
    third removes it; its index, name and history are kept on its row. *)
Theorem three_misses_remove (load : Rows -> DeviceState) rows n i ever s1 s2 s3 t1 t2 t3 :
  (forall rows, d_Interfaces (load rows) = loadInterfaces rows) ->
  rows_ok rows n -> Forall report_ok [s1; s2; s3] -> Forall (unmentioned i) [s1; s2; s3] ->
  mkIfRow i ever ∈ rows -> i_State i = "present" ->
  exists rows1 n1 rows2 n2 rows3 n3,
    applyInterfaces rows n (diff (load rows) s1 t1) = Some (rows1, n1) /\
    mkIfRow (i <| i_State := "missing" |> <| i_MissStreak := 1 |>) ever ∈ rows1 /\
    applyInterfaces rows1 n1 (diff (load rows1) s2 t2) = Some (rows2, n2) /\
    mkIfRow (i <| i_State := "missing" |> <| i_MissStreak := 2 |>) ever ∈ rows2 /\
    applyInterfaces rows2 n2 (diff (load rows2) s3 t3) = Some (rows3, n3) /\
    mkIfRow (i <| i_State := "removed" |> <| i_MissStreak := 2 |>) ever ∈ rows3.
Proof.
  intros Hload Hok Hrep Hun Hr Hs. apply List.Forall_cons_iff in Hrep as [P1 Hrep], Hun as [U1 Hun].
  apply List.Forall_cons_iff in Hrep as [P2 Hrep], Hun as [U2 Hun]. apply List.Forall_cons_iff in Hrep as [P3 _], Hun as [U3 _].
  destruct (sync_ages rows n (load rows) s1 t1 i ever) as (rows1 & n1 & E1 & Hok1 & H1); try done; [by rewrite Hs|].
  apply unmentioned_aged in U2, U3. unfold aged in H1, U2, U3. rewrite decide_True in H1, U2, U3 by done.
  destruct (sync_ages rows1 n1 (load rows1) s2 t2 _ ever Hok1 P2 (Hload _) H1) as (rows2 & n2 & E2 & Hok2 & H2); try done.
  apply unmentioned_aged in U3. unfold aged in H2, U3. simpl in H2, U3.
  destruct (sync_ages rows2 n2 (load rows2) s3 t3 _ ever Hok2 P3 (Hload _) H2) as (rows3 & n3 & E3 & _ & H3); try done.
  unfold aged in H3. simpl in H3. exists rows1, n1, rows2, n2, rows3, n3. by split_and!.
Qed.
End apply.

(** ** A worked table *)

Definition demoID (k : nat) : string := "if-" +:+ Itoa (Z.of_nat k).

Lemma demoID_inj i j : demoID i = demoID j -> i = j.
Proof. unfold demoID. intros E. apply (inj (String.append "if-")) in E. apply Itoa_inj in E. lia. Qed.

Lemma demoID_other k s : String.get 0 s <> String.get 0 "i" -> s <> demoID k.
Proof. intros Hs ->. by apply Hs. Qed.

Definition demoRows : Rows :=
  [mkIfRow (demoIf "A" "eth0" "" 1) true; mkIfRow (demoIf "B" "eth1" "" 2) true].

Lemma demoRows_ok : rows_ok demoID demoRows 0.
Proof.
  split_and!.
  - by apply (bool_decide_unpack _); vm_compute.
  - intros r [->|[->|[]%elem_of_nil]%elem_of_cons]%elem_of_cons; done.
  - intros r [->|[->|[]%elem_of_nil]%elem_of_cons]%elem_of_cons; done.
  - intros a b [->|[->|[]%elem_of_nil]%elem_of_cons]%elem_of_cons [->|[->|[]%elem_of_nil]%elem_of_cons]%elem_of_cons; done.
  - intros k r _ [->|[->|[]%elem_of_nil]%elem_of_cons]%elem_of_cons; by apply demoID_other.
Qed.

Lemma demoReport_ok recs :
  NoDup (map si_IfIndex recs) -> Forall (fun r => 0 < si_IfIndex r /\ si_PhysAddress r = "") recs ->
  report_ok Some (demoSnap recs).
Proof.
  intros Hnd Hall. split; [exact Hnd|]. intros rec Hrec. rewrite List.Forall_forall in Hall.
  destruct (Hall rec) as [? ->]; [by apply list_elem_of_In|]. split; [done|]. by eexists.
Qed.

Definition demoLoad (rows : Rows) : DeviceState := demoDevice (loadInterfaces rows).
Definition demoSync (rows : Rows) (n : nat) (recs : list SyncInterface) : option (Rows * nat) :=
  applyInterfaces Some demoID rows n (demoDiff (demoLoad rows) (demoSnap recs) 0).

(** The two interfaces of the table swap their indexes. *)
Lemma apply_reindexes_witness :
  let recs := [demoRec "eth1" "" 1; demoRec "eth0" "" 2] in
  exists rows' n', demoSync demoRows 0 recs = Some (rows', n') /\ rows_ok demoID rows' n' /\
    map (fun r => (rowID r, i_IfIndex (row r))) rows' = [("A", 2); ("B", 1)].
Proof.
  cbv zeta. destruct (apply_reindexes Some demoID (fun s => s) (fun _ => "") map_to_list (fun _ => Permutation_refl _)
    demoID_inj ltac:(done) demoRows 0 (demoLoad demoRows) (demoSnap [demoRec "eth1" "" 1; demoRec "eth0" "" 2]) 0)
    as (rows' & n' & E & Hok & _).
  - exact demoRows_ok.
  - apply demoReport_ok; [by apply (bool_decide_unpack _); vm_compute | by repeat constructor].
  - done.
  - exists rows', n'. split; [exact E|]. split; [exact Hok|]. vm_compute in E. by injection E as <- _.
Defined.

(** [eth0] is pulled out for three syncs. *)
Lemma three_misses_remove_witness :
  let recs := [demoRec "eth1" "" 2] in
  exists rows1 n1 rows2 n2 rows3 n3,
    demoSync demoRows 0 recs = Some (rows1, n1) /\ demoSync rows1 n1 recs = Some (rows2, n2) /\
    demoSync rows2 n2 recs = Some (rows3, n3) /\
    map (fun r => (rowID r, i_State (row r))) rows2 = [("A", "missing"); ("B", "present")] /\
    map (fun r => (rowID r, i_State (row r))) rows3 = [("A", "removed"); ("B", "present")].
Proof.
  cbv zeta. set (snap := demoSnap [demoRec "eth1" "" 2]).
  assert (report_ok Some snap) as Hrep
    by (apply demoReport_ok; [by apply (bool_decide_unpack _); vm_compute | by repeat constructor]).
  assert (unmentioned (fun s => s) (demoIf "A" "eth0" "" 1) snap) as Hun.
  { intros rec [->|[]%elem_of_nil]%elem_of_cons [Hs|[[_ Hs]|[Hs _]]]; [by vm_compute in Hs | done..]. }
  destruct (three_misses_remove Some demoID (fun s => s) (fun _ => "") map_to_list (fun _ => Permutation_refl _)
    demoID_inj ltac:(done) demoLoad demoRows 0 (demoIf "A" "eth0" "" 1) true snap snap snap 0 0 0)
    as (rows1 & n1 & rows2 & n2 & rows3 & n3 & E1 & _ & E2 & _ & E3 & _); [done|exact demoRows_ok|by repeat apply List.Forall_cons..|by left|done|].
  exists rows1, n1, rows2, n2, rows3, n3. split; [exact E1|]. split; [exact E2|]. split; [exact E3|].
  vm_compute in E1. injection E1 as <- <-. vm_compute in E2. injection E2 as <- <-. vm_compute in E3. by injection E3 as <- <-.
Defined.
