(* ===== verification/GoSort.v ===== *)
(** [sort.Strings] and its kind: sorting by a total order gives one answer,
    whatever order the elements came in, and the stable sort used here is as
    good as the one Go picks. *)
From Stdlib Require Import ZArith Lia.
From stdpp Require Import base list strings pretty numbers sorting.
From S2P Require Import Prelude GoText.

Lemma filter_sorted {A} (R : relation A) (P : A -> Prop) `{!forall x, Decision (P x)} l : StronglySorted R l -> StronglySorted R (filter P l).
Proof.
  induction 1 as [|x l Hl IH Hx]; [constructor|]. rewrite filter_cons. case_decide; [|done]. constructor; [done|].
  rewrite Forall_forall in *. intros y Hy%list_elem_of_filter. apply Hx. tauto.
Qed.

Section total.
Context {A : Type} (R : relation A) `{forall x y, Decision (R x y)} `{!Transitive R} `{!Total R} `{!AntiSymm (=) R}.

Lemma merge_sort_unique l l' : l ≡ₚ l' -> merge_sort R l = merge_sort R l'.
Proof.
  intros E. apply (StronglySorted_unique R); [by apply StronglySorted_merge_sort.. |].
  by rewrite !merge_sort_Permutation.
Qed.

Lemma elem_of_merge_sort l x : x ∈ merge_sort R l <-> x ∈ l.
Proof. by rewrite merge_sort_Permutation. Qed.

Lemma NoDup_merge_sort l : NoDup l -> NoDup (merge_sort R l).
Proof. by rewrite merge_sort_Permutation. Qed.

Lemma merge_sort_sorted l : StronglySorted R l -> merge_sort R l = l.
Proof.
  intros Hs. apply (StronglySorted_unique R); [by apply StronglySorted_merge_sort | done | apply merge_sort_Permutation].
Qed.
End total.

(** ** Strings, byte by byte *)

Definition str_le (a b : string) : Prop := str_lt b a = false.
#[export] Instance str_le_dec a b : Decision (str_le a b).
Proof. unfold str_le. apply _. Defined.
#[export] Instance str_le_trans : Transitive str_le.
Proof. intros a b c. unfold str_le. apply str_not_lt_trans. Qed.
#[export] Instance str_le_total : Total str_le.
Proof. intros a b. unfold str_le. destruct (str_lt b a) eqn:E; [right; by apply str_lt_asym | by left]. Qed.
#[export] Instance str_le_antisym : AntiSymm (=) str_le.
Proof. intros a b H1 H2. by apply str_lt_total. Qed.

Definition sort_Strings (l : list string) : list string := merge_sort str_le l.

(** ** Pairs of strings, the first first *)

Definition pair_le (a b : string * string) : Prop :=
  if decide (a.1 = b.1) then str_le a.2 b.2 else str_lt a.1 b.1 = true.
#[export] Instance pair_le_dec a b : Decision (pair_le a b).
Proof. unfold pair_le. destruct (decide _); apply _. Defined.
#[export] Instance pair_le_trans : Transitive pair_le.
Proof.
  intros [a1 a2] [b1 b2] [c1 c2]. unfold pair_le. cbn [fst snd].
  destruct (decide (a1 = b1)) as [->|], (decide (b1 = c1)) as [->|]; try case_decide; try done; try congruence.
  - apply str_le_trans.
  - subst. intros H1 H2. apply str_lt_asym in H2. congruence.
  - apply str_lt_trans.
Qed.
#[export] Instance pair_le_total : Total pair_le.
Proof.
  intros [a1 a2] [b1 b2]. unfold pair_le. cbn [fst snd]. destruct (decide (a1 = b1)) as [->|Hn].
  - rewrite decide_True by done. apply str_le_total.
  - rewrite decide_False by done. destruct (str_lt a1 b1) eqn:E; [by left|]. right.
    destruct (str_lt b1 a1) eqn:E'; [done|]. destruct Hn. by apply str_lt_total.
Qed.
#[export] Instance pair_le_antisym : AntiSymm (=) pair_le.
Proof.
  intros [a1 a2] [b1 b2]. unfold pair_le. cbn [fst snd]. destruct (decide (a1 = b1)) as [->|Hn].
  - rewrite decide_True by done. intros H1 H2. f_equal. by apply str_le_antisym.
  - rewrite decide_False by done. intros H1 H2. apply str_lt_asym in H1. congruence.
Qed.

(** ** Numbers of one length, as text *)

Lemma str_lt_app p a b : str_lt (p +:+ a) (p +:+ b) = str_lt a b.
Proof.
  unfold str_lt. induction p as [|c p IH]; [done|]. change (String c p +:+ a) with (String c (p +:+ a)). change (String c p +:+ b) with (String c (p +:+ b)).
  cbn [String.compare]. by rewrite (proj2 (Ascii_compare_eq c c) eq_refl).
Qed.

Lemma append_assoc a b c : (a +:+ b) +:+ c = a +:+ (b +:+ c).
Proof. induction a as [|x a IH]; [done|]. change (String x ((a +:+ b) +:+ c) = String x (a +:+ (b +:+ c))). by rewrite IH. Qed.

Lemma pretty_N_go_app x : forall s, pretty_N_go x s = pretty_N_go x "" +:+ s.
Proof.
  induction (N.lt_wf_0 x) as [x _ IH]. intros s. destruct (decide (x = 0)%N) as [->|Hx]; [by rewrite !pretty_N_go_0|].
  rewrite (pretty_N_go_step x s), (pretty_N_go_step x "") by lia.
  assert (x / 10 < x)%N as Hlt by (apply N.div_lt; lia). rewrite (IH _ Hlt (String _ s)), (IH _ Hlt (String _ "")).
  by rewrite append_assoc.
Qed.

Lemma digit_lt x y s t : (x < y)%N -> (y < 10)%N -> str_lt (String (pretty_N_char x) s) (String (pretty_N_char y) t) = true.
Proof.
  intros Hxy Hy. unfold str_lt. cbn [String.compare]. assert (Ascii.compare (pretty_N_char x) (pretty_N_char y) = Lt) as ->; [|done].
  assert (Forall (fun b => Forall (fun a => (a < b)%nat ->
      Ascii.compare (pretty_N_char (N.of_nat a)) (pretty_N_char (N.of_nat b)) = Lt) (seq 0 10)) (seq 0 10)) as Hall
    by decide_by_compute.
  rewrite List.Forall_forall in Hall. specialize (Hall (N.to_nat y)). rewrite List.Forall_forall in Hall.
  specialize (Hall ltac:(apply List.in_seq; lia) (N.to_nat x)). rewrite !N2Nat.id in Hall. apply Hall; [apply List.in_seq|]; lia.
Qed.

Lemma pretty_N_go_lt k : forall x y s t, (10 ^ k <= x)%N -> (x < y)%N -> (y < 10 ^ (k + 1))%N ->
  str_lt (pretty_N_go x s) (pretty_N_go y t) = true.
Proof.
  induction k as [|k IH] using N.peano_ind; intros x y s t Hx Hxy Hy.
  - rewrite (pretty_N_go_step x), (pretty_N_go_step y) by lia. simpl in Hx, Hy. change (10 ^ (0 + 1))%N with 10%N in Hy.
    rewrite !N.div_small, !pretty_N_go_0, !N.mod_small by lia. by apply digit_lt.
  - assert (0 < x)%N by (pose proof (N.pow_nonzero 10 (N.succ k)); lia).
    rewrite (pretty_N_go_step x), (pretty_N_go_step y) by lia.
    rewrite N.pow_succ_r' in Hx. replace (N.succ k + 1)%N with (N.succ (k + 1)) in Hy by lia. rewrite N.pow_succ_r' in Hy.
    assert (10 ^ k <= x / 10)%N by (apply N.div_le_lower_bound; lia).
    assert (y / 10 < 10 ^ (k + 1))%N by (apply N.Div0.div_lt_upper_bound; lia).
    destruct (decide (x / 10 = y / 10)%N) as [E|Hn].
    + rewrite E. rewrite (pretty_N_go_app _ (String _ s)), (pretty_N_go_app _ (String _ t)), str_lt_app.
      apply digit_lt; [|apply N.mod_lt; lia]. pose proof (N.div_mod x 10). pose proof (N.div_mod y 10). lia.
    + apply IH; [done| |done]. assert (x / 10 <= y / 10)%N by (apply N.Div0.div_le_mono; lia). lia.
Qed.

Lemma Itoa_pos a : Itoa (Z.pos a) = pretty_N_go (N.pos a) "".
Proof. reflexivity. Qed.

(** Numbers of [k+1] digits are ordered as their texts are, whatever follows. *)
Lemma Itoa_lt k a b s t : 10 ^ Z.of_nat k <= a -> a < b -> b < 10 ^ (Z.of_nat k + 1) -> str_lt (Itoa a +:+ s) (Itoa b +:+ t) = true.
Proof.
  intros Ha Hab Hb. assert (0 < 10 ^ Z.of_nat k) by (apply Z.pow_pos_nonneg; lia).
  destruct a as [|a|a], b as [|b|b]; try lia. rewrite !Itoa_pos, <- !pretty_N_go_app. apply (pretty_N_go_lt (N.of_nat k)); try lia.
Qed.
