(* ===== verification/MapDoc.v ===== *)
(** Package maps (store.go): the weathermap document and what makes one
    drawable. Coordinates are the bit patterns of float64 values; nothing here
    computes with them. The quoting of [%q] is a parameter of the messages. *)
From Stdlib Require Import ZArith Lia.
From stdpp Require Import base list gmap strings numbers sorting.
From S2P Require Import Prelude GoText Errx.

Record Endpoint : Type := mkEndpoint { ep_DeviceID : string; ep_IfIndex : Z }.
#[export] Instance Endpoint_eq_dec : EqDecision Endpoint.
Proof. solve_decision. Defined.

Record Node : Type := mkNode {
  n_ID : string; n_Kind : string; n_DeviceID : string; n_SiteID : string; n_Text : string; n_Label : string;
  n_X : Z; n_Y : Z
}.
#[export] Instance Node_eq_dec : EqDecision Node.
Proof. solve_decision. Defined.

Record Link : Type := mkLink {
  l_ID : string; l_From : string; l_To : string; l_FromHandle : string; l_ToHandle : string;
  l_AEndpoint : option Endpoint; l_BEndpoint : option Endpoint; l_BandwidthBPS : Z
}.
#[export] Instance Link_eq_dec : EqDecision Link.
Proof. solve_decision. Defined.
#[export] Instance eta_Link : Eta Link := fun l =>
  mkLink (l_ID l) (l_From l) (l_To l) (l_FromHandle l) (l_ToHandle l) (l_AEndpoint l) (l_BEndpoint l) (l_BandwidthBPS l).

(** [Definition] in the source, without the free-form [Options]. A nil slice and an empty one are both the
    empty list, so [normalize] has nothing to do here. *)
Record MapDef : Type := mkMapDef { d_Schema : string; d_Name : string; d_Nodes : list Node; d_Links : list Link }.
#[export] Instance MapDef_eq_dec : EqDecision MapDef.
Proof. solve_decision. Defined.
#[export] Instance eta_MapDef : Eta MapDef := fun d => mkMapDef (d_Schema d) (d_Name d) (d_Nodes d) (d_Links d).

Definition mapSchema : string := "netinv.map/1".

Definition NodeKinds : gset string := {["device"; "site"; "cloud"; "label"]}.

Section validate.
Context (Quote : string -> string).

Fixpoint checkNodes (ids : gset string) (ns : list Node) : gset string + Err :=
  match ns with
  | [] => inl ids
  | n :: ns =>
      if decide (n_ID n = "") then inr (New KindInvalid "every node needs an id")
      else if decide (n_ID n ∈ ids) then inr (New KindInvalid ("duplicate node id " +:+ Quote (n_ID n)))
      else if decide (n_Kind n ∈ NodeKinds) then
        if decide (n_Kind n = "device" /\ n_DeviceID n = "")
        then inr (New KindInvalid ("device node " +:+ Quote (n_ID n) +:+ " has no device"))
        else checkNodes ({[n_ID n]} ∪ ids) ns
      else inr (New KindInvalid ("node " +:+ Quote (n_ID n) +:+ " has unknown kind " +:+ Quote (n_Kind n) +:+
                                 " — expected device, site, cloud or label"))
  end.

Fixpoint checkLinks (ids : gset string) (ls : list Link) : option Err :=
  match ls with
  | [] => None
  | l :: ls =>
      if decide (l_ID l = "") then Some (New KindInvalid "every link needs an id")
      else if decide (l_From l ∈ ids /\ l_To l ∈ ids) then checkLinks ids ls
      else Some (New KindInvalid ("link " +:+ Quote (l_ID l) +:+ " joins a node that is not on the map"))
  end.

Definition Validate (d : MapDef) : option Err :=
  match checkNodes ∅ (d_Nodes d) with
  | inr e => Some e
  | inl ids => checkLinks ids (d_Links d)
  end.

(** * What a valid document is *)

Definition node_ok (n : Node) : Prop :=
  n_ID n <> "" /\ n_Kind n ∈ NodeKinds /\ (n_Kind n = "device" -> n_DeviceID n <> "").

Definition drawable (d : MapDef) : Prop :=
  Forall node_ok (d_Nodes d) /\ NoDup (map n_ID (d_Nodes d)) /\
  Forall (fun l => l_ID l <> "" /\ l_From l ∈ map n_ID (d_Nodes d) /\ l_To l ∈ map n_ID (d_Nodes d)) (d_Links d).

Lemma checkNodes_ok ns : forall ids,
  match checkNodes ids ns with
  | inl ids' => Forall node_ok ns /\ NoDup (map n_ID ns) /\ (forall i, i ∈ ids -> i ∉ map n_ID ns) /\
                (forall i, i ∈ ids' <-> i ∈ ids \/ i ∈ map n_ID ns)
  | inr e => kindOf (Some e) = KindInvalid /\
             ~ (Forall node_ok ns /\ NoDup (map n_ID ns) /\ (forall i, i ∈ ids -> i ∉ map n_ID ns))
  end.
Proof.
  induction ns as [|n ns IH]; intros ids; cbn [checkNodes map].
  { split_and!; [constructor|constructor|by intros i _ ?%elem_of_nil|]. intros i. rewrite elem_of_nil. tauto. }
  destruct (decide (n_ID n = "")) as [E|Hid].
  { split; [done|]. intros (Hall & _). apply List.Forall_cons_iff in Hall as [(? & _) _]. done. }
  destruct (decide (n_ID n ∈ ids)) as [Hd|Hd].
  { split; [done|]. intros (_ & _ & Hf). apply (Hf _ Hd). by left. }
  destruct (decide (n_Kind n ∈ NodeKinds)) as [Hk|Hk];
    [|split; [done|]; intros (Hall & _); apply List.Forall_cons_iff in Hall as [(_ & ? & _) _]; done].
  destruct (decide (n_Kind n = "device" /\ n_DeviceID n = "")) as [[Hk1 Hk2]|Hdev].
  { split; [done|]. intros (Hall & _). apply List.Forall_cons_iff in Hall as [(_ & _ & Hx) _]. by apply Hx. }
  assert (node_ok n) as Hn by (split_and!; [done..|]; intros Hx Hy; by apply Hdev).
  specialize (IH ({[n_ID n]} ∪ ids)). destruct (checkNodes _ ns) as [ids'|e].
  - destruct IH as (H1 & H2 & H3 & H4). split_and!.
    + by constructor.
    + constructor; [|done]. apply H3. set_solver.
    + intros i Hi [->|Hin]%elem_of_cons; [done|]. apply (H3 i); set_solver.
    + intros i. rewrite H4, elem_of_cons. set_solver.
  - destruct IH as [He Hx]. split; [done|]. intros (Hall & Hnd & Hf). apply Hx.
    apply List.Forall_cons_iff in Hall as [_ ?]. apply NoDup_cons in Hnd as [? ?]. split_and!; [done..|].
    intros i [->%elem_of_singleton|Hi]%elem_of_union; [done|]. intros Hin. apply (Hf i Hi). by right.
Qed.

Lemma checkLinks_ok ids ls :
  match checkLinks ids ls with
  | None => Forall (fun l => l_ID l <> "" /\ l_From l ∈ ids /\ l_To l ∈ ids) ls
  | Some e => kindOf (Some e) = KindInvalid /\ ~ Forall (fun l => l_ID l <> "" /\ l_From l ∈ ids /\ l_To l ∈ ids) ls
  end.
Proof.
  induction ls as [|l ls IH]; cbn [checkLinks]; [constructor|].
  destruct (decide (l_ID l = "")) as [E|Hid].
  { split; [done|]. intros [(? & _) _]%List.Forall_cons_iff. done. }
  destruct (decide (l_From l ∈ ids /\ l_To l ∈ ids)) as [[Ha Hb]|Hd].
  - destruct (checkLinks ids ls); [|by constructor]. destruct IH as [? Hx]. split; [done|]. intros [_ ?]%List.Forall_cons_iff. by apply Hx.
  - split; [done|]. intros [(_ & ? & ?) _]%List.Forall_cons_iff. by apply Hd.
Qed.

(** [Validate] accepts exactly the documents that can be drawn, and refuses
    the others as the client's mistake. *)
Lemma Validate_drawable d :
  (Validate d = None <-> drawable d) /\ (forall e, Validate d = Some e -> kindOf (Some e) = KindInvalid).
Proof.
  unfold Validate, drawable. pose proof (checkNodes_ok (d_Nodes d) ∅) as Hn.
  destruct (checkNodes ∅ (d_Nodes d)) as [ids|e].
  - destruct Hn as (H1 & H2 & _ & H4). pose proof (checkLinks_ok ids (d_Links d)) as Hl.
    assert (forall i, i ∈ ids <-> i ∈ map n_ID (d_Nodes d)) as Hids by (intros i; rewrite H4; set_solver).
    destruct (checkLinks ids (d_Links d)) as [e|].
    + destruct Hl as [He Hx]. split; [|by intros ? [= <-]]. split; [done|]. intros (_ & _ & H3). destruct Hx.
      eapply List.Forall_impl; [|exact H3]. intros l. cbv beta. by rewrite !Hids.
    + split; [|done]. split; [|done]. intros _. split_and!; [done..|]. eapply List.Forall_impl; [|exact Hl]. intros l. cbv beta. by rewrite <- !Hids.
  - destruct Hn as [He Hx]. split; [|by intros ? [= <-]]. split; [done|]. intros (H1 & H2 & _). destruct Hx. split_and!; [done..|].
    by intros i ?%not_elem_of_empty.
Qed.
End validate.

(** Suggestions for links, observed or inferred. *)
Record Suggestion : Type := mkSuggestion {
  s_ADeviceID : string; s_ADevice : string; s_AIfIndex : Z; s_AIfName : string;
  s_BDeviceID : string; s_BDevice : string; s_BIfIndex : Z; s_BIfName : string;
  s_BSysName : string; s_BPort : string; s_Source : string; s_Confidence : string; s_Evidence : string
}.
#[export] Instance Suggestion_eq_dec : EqDecision Suggestion.
Proof. solve_decision. Defined.

(** [pairKey]: two device ids in order, and whether they were turned round. *)
Definition pairKey (x y : string) : string * string * bool :=
  if str_lt y x then (y, x, true) else (x, y, false).
