(* ===== verification/Topology.v ===== *)
(** Package maps (generate.go): a map drawn from the adjacencies between
    devices.

    The two maps the code ranges over come in any order; what it does with
    them does not depend on it. The placing of the nodes is trigonometry on
    floats and a parameter. *)
From Stdlib Require Import ZArith Lia.
From stdpp Require Import base list gmap strings numbers sorting.
From S2P Require Import Prelude GoText GoSort Errx MapDoc.

Record topoEdge : Type := mkTopoEdge { aDeviceID : string; bDeviceID : string; aIfIndex : Z; bIfIndex : Z }.
#[export] Instance eta_topoEdge : Eta topoEdge := fun e =>
  mkTopoEdge (aDeviceID e) (bDeviceID e) (aIfIndex e) (bIfIndex e).

Abbreviation Edges := (gmap (string * string) topoEdge).
Abbreviation Names := (gmap string string).

Definition addSuggestion (st : Edges * Names) (s : Suggestion) : Edges * Names :=
  if decide (s_ADeviceID s = "" \/ s_BDeviceID s = "") then st
  else if decide (s_ADeviceID s = s_BDeviceID s) then st
  else
    let '(edges, names) := st in
    let names := <[s_ADeviceID s := s_ADevice s]> names in
    let names := if decide (s_BDevice s = "") then names else <[s_BDeviceID s := s_BDevice s]> names in
    let '(lo, hi, flipped) := pairKey (s_ADeviceID s) (s_BDeviceID s) in
    let e := default (mkTopoEdge lo hi 0 0) (edges !! (lo, hi)) in
    let e := if negb flipped then (if 0 <? s_AIfIndex s then e <| aIfIndex := s_AIfIndex s |> else e)
             else if 0 <? s_AIfIndex s then e <| bIfIndex := s_AIfIndex s |> else e in
    (<[(lo, hi) := e]> edges, names).

Section build.
Context (layoutPosition : Z -> Z -> Z * Z).
Context (rangeNames : Names -> list (string * string)) (rangeEdges : Edges -> list ((string * string) * topoEdge)).

Definition nodeID (i : nat) : string := "n" +:+ Itoa (Z.of_nat i + 1).
Definition linkID (i : nat) : string := "l" +:+ Itoa (Z.of_nat i + 1).

Definition placeNode (names : Names) (n : Z) (i : nat) (did : string) : Node :=
  let '(x, y) := layoutPosition (Z.of_nat i) n in
  mkNode (nodeID i) "device" did "" "" (default "" (names !! did)) x y.

Definition bindEnd (dev : string) (ifIndex : Z) : option Endpoint :=
  if 0 <? ifIndex then Some (mkEndpoint dev ifIndex) else None.

Definition drawLink (nodeOf : gmap string string) (edges : Edges) (i : nat) (k : string * string) : Link :=
  let e := default (mkTopoEdge "" "" 0 0) (edges !! k) in
  mkLink (linkID i) (default "" (nodeOf !! aDeviceID e)) (default "" (nodeOf !! bDeviceID e)) "" ""
    (bindEnd (aDeviceID e) (aIfIndex e)) (bindEnd (bDeviceID e) (bIfIndex e)) 0.

Definition BuildTopologyDefinition (name : string) (sugs : list Suggestion) : MapDef :=
  let '(edges, names) := foldl addSuggestion (∅, ∅) sugs in
  let deviceIDs := sort_Strings (map fst (rangeNames names)) in
  let nodes := imap (placeNode names (len deviceIDs)) deviceIDs in
  let nodeOf := list_to_map (imap (fun i did => (did, nodeID i)) deviceIDs) in
  let keys := merge_sort pair_le (map fst (rangeEdges edges)) in
  mkMapDef mapSchema name nodes (imap (drawLink nodeOf edges) keys).
End build.

(** * What the suggestions say *)

(** Between two different devices that are managed. *)
Definition managed (s : Suggestion) : Prop :=
  s_ADeviceID s <> "" /\ s_BDeviceID s <> "" /\ s_ADeviceID s <> s_BDeviceID s.
#[export] Instance managed_dec s : Decision (managed s).
Proof. unfold managed. apply _. Defined.

(** [s] tells the port of [a] towards [b]. *)
Definition tellsPort (a b : string) (s : Suggestion) : Prop :=
  managed s /\ s_ADeviceID s = a /\ s_BDeviceID s = b /\ 0 < s_AIfIndex s.
#[export] Instance tellsPort_dec a b s : Decision (tellsPort a b s).
Proof. unfold tellsPort. apply _. Defined.

(** The port of [a] towards [b] that was told last, 0 for none. *)
Definition portTowards (a b : string) (sugs : list Suggestion) : Z :=
  foldl (fun p s => if decide (tellsPort a b s) then s_AIfIndex s else p) 0 sugs.

Definition joinsPair (a b : string) (s : Suggestion) : Prop :=
  managed s /\ ((s_ADeviceID s = a /\ s_BDeviceID s = b) \/ (s_ADeviceID s = b /\ s_BDeviceID s = a)).
#[export] Instance joinsPair_dec a b s : Decision (joinsPair a b s).
Proof. unfold joinsPair. apply _. Defined.

(** The name a device has by the end. *)
Definition nameIn (d : string) (sugs : list Suggestion) : option string :=
  foldl (fun n s => if decide (managed s) then
                      if decide (s_BDeviceID s = d /\ s_BDevice s <> "") then Some (s_BDevice s)
                      else if decide (s_ADeviceID s = d) then Some (s_ADevice s) else n
                    else n) None sugs.

Lemma addSuggestion_managed st s :
  addSuggestion st s =
  if decide (managed s) then
    let '(edges, names) := st in
    let '(lo, hi, flipped) := pairKey (s_ADeviceID s) (s_BDeviceID s) in
    let e := default (mkTopoEdge lo hi 0 0) (edges !! (lo, hi)) in
    (<[(lo, hi) := if 0 <? s_AIfIndex s
                   then if flipped : bool then e <| bIfIndex := s_AIfIndex s |> else e <| aIfIndex := s_AIfIndex s |>
                   else e]> edges,
     let names := <[s_ADeviceID s := s_ADevice s]> names in
     if decide (s_BDevice s = "") then names else <[s_BDeviceID s := s_BDevice s]> names)
  else st.
Proof.
  unfold addSuggestion, managed. destruct (decide (_ \/ _)) as [H1|H1]; [rewrite decide_False by tauto; done|].
  destruct (decide (_ = _)) as [H2|H2]; [rewrite decide_False by tauto; done|]. rewrite decide_True by tauto.
  destruct st as [edges names]. destruct (pairKey _ _) as [[lo hi] []]; by destruct (0 <? _).
Qed.

Lemma names_nameIn sugs d : (foldl addSuggestion (∅, ∅) sugs).2 !! d = nameIn d sugs.
Proof.
  induction sugs as [|s sugs IH] using rev_ind; [done|]. unfold nameIn in *. rewrite !foldl_snoc, addSuggestion_managed, <- IH.
  destruct (decide (managed s)); [|done]. destruct (foldl _ _ sugs) as [edges names]. destruct (pairKey _ _) as [[lo hi] f]. cbn [snd].
  destruct (decide (s_BDevice s = "")) as [E|E].
  - rewrite decide_False by tauto. rewrite lookup_insert. by case_decide.
  - rewrite lookup_insert. destruct (decide (s_BDeviceID s = d)); [by rewrite decide_True|].
    rewrite decide_False by tauto. rewrite lookup_insert. by case_decide.
Qed.

Lemma pairKey_spec x y : x <> y ->
  (str_lt x y = true /\ pairKey x y = (x, y, false)) \/ (str_lt y x = true /\ pairKey x y = (y, x, true)).
Proof.
  intros Hn. unfold pairKey. destruct (str_lt y x) eqn:E; [by right|]. left. split; [|done].
  destruct (str_lt x y) eqn:E'; [done|]. destruct Hn. by apply str_lt_total.
Qed.

Lemma portTowards_snoc a b sugs s :
  portTowards a b (sugs ++ [s]) =
  if decide (tellsPort a b s) then s_AIfIndex s else portTowards a b sugs.
Proof. unfold portTowards. by rewrite foldl_snoc. Qed.

Lemma portTowards_none a b sugs : ~ Exists (joinsPair a b) sugs -> portTowards a b sugs = 0 /\ portTowards b a sugs = 0.
Proof.
  induction sugs as [|s sugs IH] using rev_ind; [done|]. intros Hn. rewrite !portTowards_snoc.
  rewrite Exists_app, Exists_cons, Exists_nil in Hn. destruct IH as [E1 E2]; [tauto|].
  rewrite !decide_False; [done|..]; unfold tellsPort; intros (? & ? & ? & _); apply Hn; right; left; split; auto.
Qed.

(** An edge for each pair that a suggestion joins, with the port of each end. *)
Lemma edges_spec sugs a b :
  (foldl addSuggestion (∅, ∅) sugs).1 !! (a, b) =
  if decide (str_lt a b = true /\ Exists (joinsPair a b) sugs)
  then Some (mkTopoEdge a b (portTowards a b sugs) (portTowards b a sugs)) else None.
Proof.
  revert a b. induction sugs as [|s sugs IH] using rev_ind; intros a b.
  { rewrite decide_False; [done|]. by intros [_ ?%Exists_nil]. }
  rewrite foldl_snoc, addSuggestion_managed, !portTowards_snoc.
  assert (Exists (joinsPair a b) (sugs ++ [s]) <-> Exists (joinsPair a b) sugs \/ joinsPair a b s) as Hex
    by (rewrite Exists_app, Exists_cons, Exists_nil; tauto).
  destruct (decide (managed s)) as [Hm|Hm].
  2: { rewrite !(decide_False (P := tellsPort _ _ s)) by (intros [? _]; done). rewrite IH.
       apply decide_ext. rewrite Hex. unfold joinsPair at 3. tauto. }
  assert (forall a b, str_lt a b = true -> default (mkTopoEdge a b 0 0) ((foldl addSuggestion (∅, ∅) sugs).1 !! (a, b)) =
    mkTopoEdge a b (portTowards a b sugs) (portTowards b a sugs)) as Hdef.
  { intros x y Hxy. rewrite IH. destruct (decide _) as [?|Hn]; [done|].
    destruct (portTowards_none x y sugs) as [-> ->]; [|done]. intros ?. by apply Hn. }
  specialize (IH a b). destruct (foldl addSuggestion (∅, ∅) sugs) as [edges names]. cbn [fst snd] in *.
  pose proof Hm as (_ & _ & Hne). unfold tellsPort.
  assert (str_lt a b = true -> str_lt b a = true -> False) as Hasym by (intros ? ?%str_lt_asym; congruence).
  destruct (pairKey_spec _ _ Hne) as [[Hlt E]|[Hlt E]]; rewrite E; cbn [fst snd]; rewrite lookup_insert, Hdef by done;
    (destruct (decide (_ = (a, b))) as [[= <- <-]|Hab];
     [rewrite decide_True by (split; [done|]; apply Hex; right; split; [done|]; auto)
     |rewrite IH; assert (str_lt a b = true -> ~ joinsPair a b s) as Hnj by
        (intros Hlt' [_ [[<- <-]|[<- <-]]]; by auto)]).
  - rewrite (decide_False (P := managed s /\ s_ADeviceID s = s_BDeviceID s /\ _)) by (intros (_ & ? & _); done).
    destruct (0 <? s_AIfIndex s) eqn:E0; [rewrite decide_True by (split_and!; auto; lia); done|].
    rewrite decide_False; [done|]. intros (_ & _ & _ & ?). lia.
  - destruct (decide (str_lt a b = true /\ Exists (joinsPair a b) (sugs ++ [s]))) as [[Hl Hx]|Hx].
    + rewrite !(decide_False (P := managed s /\ _)). rewrite decide_True; [done|]. split; [done|]. apply Hex in Hx as [?|?]; [done|]. by destruct (Hnj Hl).
      all: intros (_ & ? & ? & _); apply (Hnj Hl); split; auto.
    + rewrite decide_False; [done|]. intros [? ?]. apply Hx. split; [done|]. apply Hex. by left.
  - rewrite (decide_False (P := managed s /\ s_ADeviceID s = s_BDeviceID s /\ _)) by (intros (_ & ? & _); done).
    destruct (0 <? s_AIfIndex s) eqn:E0; [rewrite decide_True by (split_and!; auto; lia); done|].
    rewrite decide_False; [done|]. intros (_ & _ & _ & ?). lia.
  - destruct (decide (str_lt a b = true /\ Exists (joinsPair a b) (sugs ++ [s]))) as [[Hl Hx]|Hx].
    + rewrite !(decide_False (P := managed s /\ _)). rewrite decide_True; [done|]. split; [done|]. apply Hex in Hx as [?|?]; [done|]. by destruct (Hnj Hl).
      all: intros (_ & ? & ? & _); apply (Hnj Hl); split; auto.
    + rewrite decide_False; [done|]. intros [? ?]. apply Hx. split; [done|]. apply Hex. by left.
Qed.

Lemma nameIn_some d sugs :
  is_Some (nameIn d sugs) <->
  Exists (fun s => managed s /\ (s_ADeviceID s = d \/ (s_BDeviceID s = d /\ s_BDevice s <> ""))) sugs.
Proof.
  induction sugs as [|s sugs IH] using rev_ind; [unfold nameIn; simpl; rewrite Exists_nil; by split; [intros [? ?]|]|].
  unfold nameIn in *. rewrite foldl_snoc, Exists_app, Exists_cons, Exists_nil, <- IH.
  destruct (decide (managed s)) as [Hm|Hm]; [|tauto].
  destruct (decide (_ /\ _)) as [?|?]; [split; [intros _; tauto | by eexists]|].
  destruct (decide (_ = d)) as [?|?]; [split; [intros _; tauto | by eexists]|]. tauto.
Qed.

(** * The map that is drawn *)

(** A node of the map stands for a device. *)
Definition standsFor (d : MapDef) (nid dev : string) : Prop :=
  exists n, n ∈ d_Nodes d /\ n_ID n = nid /\ n_DeviceID n = dev.
Definition linkBetween (d : MapDef) (a b : string) (l : Link) : Prop :=
  standsFor d (l_From l) a /\ standsFor d (l_To l) b.

Lemma nodeID_inj i j : nodeID i = nodeID j -> i = j.
Proof. unfold nodeID. intros E%(inj (String.append "n"))%Itoa_inj. lia. Qed.

Lemma imap_fmap_nodes {A B C} (f : nat -> A -> B) (g : B -> C) (h : nat -> A -> C) (l : list A) :
  (forall i a, g (f i a) = h i a) -> g <$> imap f l = imap h l.
Proof. intros E. rewrite fmap_imap. apply imap_ext. intros i a _. apply E. Qed.

Lemma imap_id {A} (l : list A) : imap (fun _ a => a) l = l.
Proof. rewrite <- (list_fmap_id l) at 2. symmetry. rewrite <- imap_const. by apply imap_ext. Qed.

Lemma nodeOf_lookup ds i did :
  NoDup ds -> ds !! i = Some did ->
  (list_to_map (imap (fun i did => (did, nodeID i)) ds) : gmap string string) !! did = Some (nodeID i).
Proof.
  intros Hnd Hi. apply elem_of_list_to_map_1.
  - rewrite (imap_fmap_nodes _ fst (fun _ d => d)) by done. by rewrite imap_id.
  - apply list_elem_of_lookup. exists i. rewrite list_lookup_imap, Hi. done.
Qed.

Section drawn.
Context (layoutPosition : Z -> Z -> Z * Z).
Context (rangeNames : Names -> list (string * string)) (rangeEdges : Edges -> list ((string * string) * topoEdge)).
Context (names_perm : forall m, rangeNames m ≡ₚ map_to_list m) (edges_perm : forall m, rangeEdges m ≡ₚ map_to_list m).
Let Build := BuildTopologyDefinition layoutPosition rangeNames rangeEdges.

(** The devices on the map and the pairs joined, in their order. *)
Definition devicesOf (sugs : list Suggestion) : list string :=
  sort_Strings (map fst (map_to_list (foldl addSuggestion (∅, ∅) sugs).2)).
Definition pairsOf (sugs : list Suggestion) : list (string * string) :=
  merge_sort pair_le (map fst (map_to_list (foldl addSuggestion (∅, ∅) sugs).1)).

Lemma Build_eq name sugs :
  Build name sugs =
  mkMapDef mapSchema name
    (imap (placeNode layoutPosition (foldl addSuggestion (∅, ∅) sugs).2 (len (devicesOf sugs))) (devicesOf sugs))
    (imap (drawLink (list_to_map (imap (fun i did => (did, nodeID i)) (devicesOf sugs))) (foldl addSuggestion (∅, ∅) sugs).1)
       (pairsOf sugs)).
Proof.
  unfold Build, BuildTopologyDefinition, devicesOf, pairsOf. destruct (foldl _ _ sugs) as [edges names]. cbn [fst snd].
  assert (sort_Strings (map fst (rangeNames names)) = sort_Strings (map fst (map_to_list names))) as ->
    by (apply merge_sort_unique; [apply _..|]; by rewrite names_perm).
  assert (merge_sort pair_le (map fst (rangeEdges edges)) = merge_sort pair_le (map fst (map_to_list edges))) as ->
    by (apply merge_sort_unique; [apply _..|]; by rewrite edges_perm).
  done.
Qed.

Lemma devicesOf_NoDup sugs : NoDup (devicesOf sugs).
Proof. apply NoDup_merge_sort, NoDup_fst_map_to_list. Qed.

Lemma elem_of_devicesOf sugs d : d ∈ devicesOf sugs <-> is_Some (nameIn d sugs).
Proof.
  unfold devicesOf, sort_Strings. rewrite elem_of_merge_sort, <- names_nameIn.
  change (map fst ?x) with (x.*1). rewrite list_elem_of_fmap. split.
  - intros ([d' n] & E & H%elem_of_map_to_list). simpl in E. subst d'. by exists n.
  - intros [n H%elem_of_map_to_list]. by exists (d, n).
Qed.

Lemma pairsOf_NoDup sugs : NoDup (pairsOf sugs).
Proof. apply NoDup_merge_sort, NoDup_fst_map_to_list. Qed.

Lemma elem_of_pairsOf sugs a b : (a, b) ∈ pairsOf sugs <-> str_lt a b = true /\ Exists (joinsPair a b) sugs.
Proof.
  unfold pairsOf. rewrite elem_of_merge_sort. change (map fst ?x) with (x.*1). rewrite list_elem_of_fmap. split.
  - intros ([p e] & E & H%elem_of_map_to_list). simpl in E. subst p. rewrite edges_spec in H. by case_decide.
  - intros H. exists ((a, b), mkTopoEdge a b (portTowards a b sugs) (portTowards b a sugs)). split; [done|].
    apply elem_of_map_to_list. rewrite edges_spec. by rewrite decide_True.
Qed.

(** [d] is named: it tells of itself, or another suggestion names it. *)
Definition namedBy (d : string) (s : Suggestion) : Prop :=
  managed s /\ (s_ADeviceID s = d \/ (s_BDeviceID s = d /\ s_BDevice s <> "")).

Lemma elem_of_devices_named sugs d : d ∈ devicesOf sugs <-> Exists (namedBy d) sugs.
Proof. by rewrite elem_of_devicesOf, nameIn_some. Qed.

Lemma pair_managed sugs a b : (a, b) ∈ pairsOf sugs -> exists s, s ∈ sugs /\ managed s /\
  ((s_ADeviceID s = a /\ s_BDeviceID s = b) \/ (s_ADeviceID s = b /\ s_BDeviceID s = a)).
Proof. intros [_ (s & Hs & Hm & Hab)%Exists_exists]%elem_of_pairsOf. by exists s. Qed.

(** The nodes of the map. *)
Lemma Build_nodes name sugs :
  map n_DeviceID (d_Nodes (Build name sugs)) = devicesOf sugs /\
  map n_ID (d_Nodes (Build name sugs)) = imap (fun i _ => nodeID i) (devicesOf sugs) /\
  Forall (fun n => n_Kind n = "device") (d_Nodes (Build name sugs)) /\
  (forall i d, devicesOf sugs !! i = Some d -> standsFor (Build name sugs) (nodeID i) d).
Proof.
  rewrite Build_eq. cbn [d_Nodes]. set (f := placeNode _ _ _).
  assert (forall i d, n_DeviceID (f i d) = d /\ n_ID (f i d) = nodeID i /\ n_Kind (f i d) = "device") as Hf.
  { intros i d. unfold f, placeNode. by destruct (layoutPosition _ _). }
  change (map ?g (imap f ?l)) with (g <$> imap f l). split_and!.
  - rewrite (imap_fmap_nodes f n_DeviceID (fun _ d => d)) by apply Hf. apply imap_id.
  - apply imap_fmap_nodes. apply Hf.
  - apply List.Forall_forall. intros n [i Hi]%list_elem_of_In%list_elem_of_lookup.
    apply list_lookup_imap_Some in Hi as (d & _ & ->). apply Hf.
  - intros i d Hi. exists (f i d). unfold d_Nodes. split; [|by split; apply Hf]. apply list_elem_of_lookup. exists i.
    by rewrite list_lookup_imap, Hi.
Qed.

Lemma nodeOf_missing ds did : did ∉ ds -> (list_to_map (imap (fun i did => (did, nodeID i)) ds) : gmap string string) !! did = None.
Proof.
  intros Hn. apply not_elem_of_list_to_map_1. rewrite (imap_fmap_nodes _ fst (fun _ d => d)) by done. by rewrite imap_id.
Qed.

Lemma Build_link name sugs i a b :
  pairsOf sugs !! i = Some (a, b) ->
  exists l, d_Links (Build name sugs) !! i = Some l /\ l_ID l = linkID i /\
    (if decide (a ∈ devicesOf sugs) then standsFor (Build name sugs) (l_From l) a else l_From l = "") /\
    (if decide (b ∈ devicesOf sugs) then standsFor (Build name sugs) (l_To l) b else l_To l = "") /\
    l_AEndpoint l = bindEnd a (portTowards a b sugs) /\ l_BEndpoint l = bindEnd b (portTowards b a sugs).
Proof.
  intros Hi. pose proof (list_elem_of_lookup_2 _ _ _ Hi) as Hin. apply elem_of_pairsOf in Hin as Hp.
  destruct (Build_nodes name sugs) as (_ & _ & _ & Hst). rewrite Build_eq in *. cbn [d_Links].
  rewrite list_lookup_imap, Hi. eexists. split; [done|]. unfold drawLink. rewrite edges_spec, decide_True by done. cbn.
  assert (forall x, if decide (x ∈ devicesOf sugs) then standsFor (mkMapDef mapSchema name
      (imap (placeNode layoutPosition (foldl addSuggestion (∅, ∅) sugs).2 (len (devicesOf sugs))) (devicesOf sugs))
      (imap (drawLink (list_to_map (imap (fun i did => (did, nodeID i)) (devicesOf sugs))) (foldl addSuggestion (∅, ∅) sugs).1) (pairsOf sugs)))
      (default "" ((list_to_map (imap (fun i did => (did, nodeID i)) (devicesOf sugs)) : gmap string string) !! x)) x
    else default "" ((list_to_map (imap (fun i did => (did, nodeID i)) (devicesOf sugs)) : gmap string string) !! x) = "") as Hx.
  { intros x. case_decide as Hd; [|by rewrite nodeOf_missing]. apply list_elem_of_lookup in Hd as [j Hj].
    rewrite (nodeOf_lookup _ j x) by (try apply devicesOf_NoDup; done). by apply Hst. }
  split_and!; done || apply Hx.
Qed.

(** The map can be saved just when every device it joins has a name. *)
Lemma Build_drawable name sugs :
  drawable (Build name sugs) <-> forall a b, (a, b) ∈ pairsOf sugs -> a ∈ devicesOf sugs /\ b ∈ devicesOf sugs.
Proof.
  destruct (Build_nodes name sugs) as (Hd & Hi & Hk & _).
  assert (forall nid x, standsFor (Build name sugs) nid x -> nid ∈ map n_ID (d_Nodes (Build name sugs))) as Hstand
    by (intros nid x (n & Hn & <- & _); by apply list_elem_of_fmap_2).
  assert ("" ∉ map n_ID (d_Nodes (Build name sugs))) as Hblank.
  { rewrite Hi. intros [j Hj]%list_elem_of_lookup. by apply list_lookup_imap_Some in Hj as (? & _ & ?). }
  split.
  - intros (_ & _ & Hl) a b [i Hab]%list_elem_of_lookup. destruct (Build_link name sugs i a b Hab) as (l & El & _ & Ha & Hb & _).
    rewrite List.Forall_forall in Hl. destruct (Hl l) as (_ & Hf & Ht); [apply list_elem_of_In; by eapply list_elem_of_lookup_2|].
    split; [destruct (decide (a ∈ devicesOf sugs)) as [?|_]; [done|]; by rewrite Ha in Hf | destruct (decide (b ∈ devicesOf sugs)) as [?|_]; [done|]; by rewrite Hb in Ht].
  - intros Hall. split_and!.
    + apply List.Forall_forall. intros n Hin%list_elem_of_In. rewrite List.Forall_forall in Hk.
      pose proof (Hk n (proj1 (list_elem_of_In _ _) Hin)) as Ek. split_and!.
      * assert (n_ID n ∈ map n_ID (d_Nodes (Build name sugs))) as Hx by (by apply list_elem_of_fmap_2). by intros E; rewrite E in Hx.
      * rewrite Ek. set_solver.
      * intros _. assert (n_DeviceID n ∈ devicesOf sugs) as Hx by (rewrite <- Hd; by apply list_elem_of_fmap_2).
        apply elem_of_devices_named, Exists_exists in Hx as (s & _ & (? & ? & _) & [<-|[<- _]]); done.
    + rewrite Hi. apply NoDup_alt. intros i j x (? & _ & ->)%list_lookup_imap_Some (? & _ & E)%list_lookup_imap_Some. by apply nodeID_inj.
    + apply List.Forall_forall. intros l [i Hl]%list_elem_of_In%list_elem_of_lookup. pose proof Hl as Hl'.
      rewrite Build_eq in Hl'. apply list_lookup_imap_Some in Hl' as ([a b] & Hp & _).
      destruct (Build_link name sugs i a b Hp) as (l' & E & El & Ha & Hb & _). assert (l' = l) as -> by congruence.
      destruct (Hall a b) as [Ia Ib]; [by eapply list_elem_of_lookup_2|]. rewrite decide_True in Ha by done; rewrite decide_True in Hb by done.
      rewrite El. split_and!; [done|by eapply Hstand|by eapply Hstand].
Qed.

(** The suggestions, each with another port for its far device. *)
Definition withFarPort (f : Suggestion -> Z) (s : Suggestion) : Suggestion :=
  mkSuggestion (s_ADeviceID s) (s_ADevice s) (s_AIfIndex s) (s_AIfName s) (s_BDeviceID s) (s_BDevice s) (f s) (s_BIfName s)
    (s_BSysName s) (s_BPort s) (s_Source s) (s_Confidence s) (s_Evidence s).

Lemma foldl_far f sugs : forall st, foldl addSuggestion st (map (withFarPort f) sugs) = foldl addSuggestion st sugs.
Proof. induction sugs as [|s sugs IH]; intros st; [done|]. apply (IH (addSuggestion st s)). Qed.

(** C19. The map drawn from suggestions has one node for each device that a
    suggestion between two managed devices has as its first, or names as its
    far one, in the order of the ids; and one link for each two devices joined
    in either direction. Each end of a link is bound to the port last told by a
    suggestion that has the end's own device as its first, and left unbound when
    none tells one: the port a suggestion carries for its far device is never
    looked at, whatever it is, so that a suggestion that knows both ports binds
    one end ([both_ends_half_bound] in Describe.v). The map can be saved just
    when every far device is named by some suggestion. *)
Theorem topology_drawn Quote name sugs :
  let d := Build name sugs in
  map n_DeviceID (d_Nodes d) = devicesOf sugs /\ StronglySorted str_le (devicesOf sugs) /\ NoDup (devicesOf sugs) /\
  (forall x, x ∈ devicesOf sugs <->
    Exists (fun s => managed s /\ (s_ADeviceID s = x \/ (s_BDeviceID s = x /\ s_BDevice s <> ""))) sugs) /\
  length (d_Links d) = length (pairsOf sugs) /\ NoDup (pairsOf sugs) /\
  (forall a b, (a, b) ∈ pairsOf sugs <-> str_lt a b = true /\ Exists (joinsPair a b) sugs) /\
  (forall i a b, pairsOf sugs !! i = Some (a, b) -> exists l, d_Links d !! i = Some l /\
    (Validate Quote d = None -> linkBetween d a b l) /\
    l_AEndpoint l = bindEnd a (portTowards a b sugs) /\ l_BEndpoint l = bindEnd b (portTowards b a sugs)) /\
  (forall f, Build name (map (withFarPort f) sugs) = d) /\
  (Validate Quote d = None <-> Forall (fun s => managed s -> Exists (namedBy (s_BDeviceID s)) sugs) sugs).
Proof.
  cbv zeta. assert (Validate Quote (Build name sugs) = None <-> forall a b, (a, b) ∈ pairsOf sugs -> a ∈ devicesOf sugs /\ b ∈ devicesOf sugs) as Hv
    by (rewrite (proj1 (Validate_drawable Quote _)); apply Build_drawable).
  split_and!.
  - apply Build_nodes.
  - apply StronglySorted_merge_sort; apply _.
  - apply devicesOf_NoDup.
  - intros x. by apply elem_of_devices_named.
  - rewrite Build_eq. cbn [d_Links]. by rewrite length_imap.
  - apply pairsOf_NoDup.
  - apply elem_of_pairsOf.
  - intros i a b Hi. destruct (Build_link name sugs i a b Hi) as (l & E & _ & Ha & Hb & EA & EB). exists l. split; [done|]. split; [|done].
    intros H. destruct (proj1 Hv H a b) as [Ia Ib]; [by eapply list_elem_of_lookup_2|]. rewrite decide_True in Ha by done; rewrite decide_True in Hb by done. by split.
  - intros f. unfold Build, BuildTopologyDefinition. by rewrite foldl_far.
  - rewrite Hv, List.Forall_forall. split.
    + intros H s Hs%list_elem_of_In Hm. apply elem_of_devices_named. pose proof Hm as (_ & _ & Hne).
      assert (forall x y, str_lt x y = true -> joinsPair x y s -> x ∈ devicesOf sugs /\ y ∈ devicesOf sugs) as Hp.
      { intros x y Hlt Hj. apply H, elem_of_pairsOf. split; [done|]. apply Exists_exists. by exists s. }
      destruct (pairKey_spec _ _ Hne) as [[Hlt _]|[Hlt _]]; [apply (Hp _ _ Hlt)|apply (Hp _ _ Hlt)]; (split; [done|]); auto.
    + intros H a b (s & Hs & Hm & Hab)%pair_managed. rewrite !elem_of_devices_named.
      assert (Exists (namedBy (s_ADeviceID s)) sugs) as HA by (apply Exists_exists; exists s; split; [done|]; split; auto).
      assert (Exists (namedBy (s_BDeviceID s)) sugs) as HB by (apply H; [by apply list_elem_of_In|done]).
      by destruct Hab as [[<- <-]|[<- <-]].
Qed.
End drawn.

(** * Drawing the same estate again *)

Definition givesName (d n : string) (s : Suggestion) : Prop :=
  managed s /\ ((s_ADeviceID s = d /\ s_ADevice s = n) \/ (s_BDeviceID s = d /\ s_BDevice s = n /\ n <> "")).

(** No two suggestions disagree on a name or on the port of one device towards
    another. *)
Definition consistent (sugs : list Suggestion) : Prop :=
  (forall a b s s', s ∈ sugs -> s' ∈ sugs -> tellsPort a b s -> tellsPort a b s' -> s_AIfIndex s = s_AIfIndex s') /\
  (forall d n n' s s', s ∈ sugs -> s' ∈ sugs -> givesName d n s -> givesName d n' s' -> n = n').

Lemma portTowards_cases a b sugs :
  (exists s, s ∈ sugs /\ tellsPort a b s /\ portTowards a b sugs = s_AIfIndex s) \/
  ((forall s, s ∈ sugs -> ~ tellsPort a b s) /\ portTowards a b sugs = 0).
Proof.
  induction sugs as [|s sugs IH] using rev_ind; [right; split; [by intros s ?%elem_of_nil|done]|].
  rewrite portTowards_snoc. case_decide as Ht.
  - left. exists s. split; [|done]. apply elem_of_app. right. by left.
  - destruct IH as [(s' & Hs & Ht' & E)|[Hn E]].
    + left. exists s'. split; [|done]. apply elem_of_app. by left.
    + right. split; [|done]. intros s' [?| ->%list_elem_of_singleton]%elem_of_app; auto.
Qed.

Lemma nameIn_given d n sugs : nameIn d sugs = Some n -> exists s, s ∈ sugs /\ givesName d n s.
Proof.
  unfold nameIn. induction sugs as [|s sugs IH] using rev_ind; [done|]. rewrite foldl_snoc. setoid_rewrite elem_of_app.
  setoid_rewrite list_elem_of_singleton.
  assert (foldl (fun m s => if decide (managed s) then
      if decide (s_BDeviceID s = d /\ s_BDevice s <> "") then Some (s_BDevice s)
      else if decide (s_ADeviceID s = d) then Some (s_ADevice s) else m else m) None sugs = Some n ->
      exists s0, (s0 ∈ sugs \/ s0 = s) /\ givesName d n s0) as Hold.
  { intros (s0 & ? & ?)%IH. exists s0. auto. }
  destruct (decide (managed s)) as [Hm|]; [|apply Hold].
  destruct (decide (_ /\ _)) as [[? ?]|?]; [intros [= <-]; exists s; split; [by right|]; split; [done|]; by right|].
  destruct (decide (_ = d)); [intros [= <-]; exists s; split; [by right|]; split; [done|]; by left | apply Hold].
Qed.

Lemma maps_stable sugs sugs' :
  consistent sugs -> sugs ≡ₚ sugs' -> foldl addSuggestion (∅, ∅) sugs = foldl addSuggestion (∅, ∅) sugs'.
Proof.
  intros [Hport Hname] E. apply injective_projections.
  - apply map_eq. intros [a b]. rewrite !edges_spec.
    assert (forall a b, portTowards a b sugs = portTowards a b sugs') as Hp.
    { intros x y. destruct (portTowards_cases x y sugs) as [(s & Hs & Ht & ->)|[Hn ->]],
        (portTowards_cases x y sugs') as [(s' & Hs' & Ht' & ->)|[Hn' ->]]; try done.
      - apply (Hport x y); try done. by rewrite E.
      - by destruct (Hn' s); [rewrite <- E|].
      - by destruct (Hn s'); [rewrite E|]. }
    rewrite !Hp. apply decide_ext. by rewrite E.
  - apply map_eq. intros d. rewrite !names_nameIn.
    assert (is_Some (nameIn d sugs) <-> is_Some (nameIn d sugs')) as Hs.
    { rewrite !nameIn_some. by rewrite E. }
    destruct (nameIn d sugs) as [n|] eqn:En, (nameIn d sugs') as [n'|] eqn:En'; [|by destruct Hs as [[? ?] _]|by destruct Hs as [_ [? ?]]|done].
    apply nameIn_given in En as (s & Hin & Hg), En' as (s' & Hin' & Hg'). f_equal.
    apply (Hname d n n' s s'); try done. by rewrite E.
Qed.

(** Drawing the same estate again gives the same document, ids included,
    whatever order its adjacencies are told in and whatever order the maps are
    ranged over, as long as the adjacencies do not disagree. *)
Theorem drawn_again layout rangeNames rangeEdges rangeNames' rangeEdges' name sugs sugs' :
  (forall m, rangeNames m ≡ₚ map_to_list m) -> (forall m, rangeEdges m ≡ₚ map_to_list m) ->
  (forall m, rangeNames' m ≡ₚ map_to_list m) -> (forall m, rangeEdges' m ≡ₚ map_to_list m) ->
  consistent sugs -> sugs ≡ₚ sugs' ->
  BuildTopologyDefinition layout rangeNames rangeEdges name sugs =
  BuildTopologyDefinition layout rangeNames' rangeEdges' name sugs'.
Proof.
  intros N E N' E' Hc Hp. rewrite (Build_eq layout rangeNames rangeEdges N E), (Build_eq layout rangeNames' rangeEdges' N' E').
  unfold devicesOf, pairsOf. by rewrite (maps_stable sugs sugs' Hc Hp).
Qed.

(** ** A worked estate *)

Definition demoSug (a aname : string) (port : Z) (b bname : string) : Suggestion :=
  mkSuggestion a aname port "" b bname 0 "" "" "" "lldp" "" "".
Definition demoEstate : list Suggestion := [demoSug "d_b" "core-b" 7 "d_a" "core-a"; demoSug "d_a" "core-a" 3 "d_b" "core-b"].
Definition demoDraw : string -> list Suggestion -> MapDef := BuildTopologyDefinition (fun _ _ => (0, 0)) map_to_list map_to_list.

Lemma demoEstate_consistent : consistent demoEstate.
Proof.
  split.
  - intros a b s s' [->|[->|[]%elem_of_nil]%elem_of_cons]%elem_of_cons [->|[->|[]%elem_of_nil]%elem_of_cons]%elem_of_cons;
      unfold tellsPort; simpl; intros (_ & <- & <- & _) (_ & ? & ? & _); done.
  - intros d n n' s s' [->|[->|[]%elem_of_nil]%elem_of_cons]%elem_of_cons [->|[->|[]%elem_of_nil]%elem_of_cons]%elem_of_cons;
      unfold givesName; simpl; intros [_ Hn] [_ Hn']; naive_solver.
Qed.

(** The two ends of one wire, each telling its own port; and a far device that
    nothing names, whose map cannot be saved. *)
Lemma topology_drawn_witness :
  (let d := demoDraw "m" demoEstate in
   Validate (fun s => s) d = None /\ map n_DeviceID (d_Nodes d) = ["d_a"; "d_b"] /\
   map (fun l => (l_From l, l_To l, l_AEndpoint l, l_BEndpoint l)) (d_Links d) =
     [("n1", "n2", Some (mkEndpoint "d_a" 3), Some (mkEndpoint "d_b" 7))]) /\
  Validate (fun s => s) (demoDraw "m" [demoSug "d_a" "core-a" 3 "d_b" ""]) <> None.
Proof.
  assert (forall sugs, Validate (fun s => s) (demoDraw "m" sugs) = None <-> Forall (fun s => managed s -> Exists (namedBy (s_BDeviceID s)) sugs) sugs) as Hv
    by (intros sugs; apply (topology_drawn (fun _ _ => (0, 0)) map_to_list map_to_list (fun _ => Permutation_refl _) (fun _ => Permutation_refl _) (fun s => s) "m" sugs)).
  split.
  2: { intros H%Hv. apply Forall_cons in H as [H _]. specialize (H ltac:(by split_and!)).
       apply Exists_cons in H as [[_ [E|[_ E]]]|H]; [done|done|by apply Exists_nil in H]. }
  cbv zeta. split; [|split; by vm_compute]. apply Hv. unfold demoEstate. apply Forall_cons. split; [|apply Forall_cons; split; [|constructor]]; intros _.
  - apply Exists_cons. left. split; [by split_and!|]. right. done.
  - apply Exists_cons. left. split; [by split_and!|]. by left.
Defined.

Lemma drawn_again_witness : demoDraw "m" demoEstate = demoDraw "m" (reverse demoEstate).
Proof.
  apply (drawn_again (fun _ _ => (0, 0)) map_to_list map_to_list map_to_list map_to_list); try done.
  - exact demoEstate_consistent.
  - apply Permutation_sym, reverse_Permutation.
Defined.
