(* ===== verification/Describe.v ===== *)
(** Package maps (describe.go): links suggested by what is written on the
    ports.

    Maps are ranged over in any order, and [sort.Slice] may leave ties in any
    order: here they keep the order they came in, which is itself any order.
    [strings.ToLower] is a parameter; nothing is asked of it. *)
From Stdlib Require Import ZArith Lia.
From stdpp Require Import base list gmap strings numbers sorting.
From S2P Require Import Prelude GoText GoSort MapDoc Topology.

Record DeviceRef : Type := mkDeviceRef { dr_ID : string; dr_Name : string; dr_SysName : string }.
Record IfaceRef : Type := mkIfaceRef {
  ir_DeviceID : string; ir_IfIndex : Z; ir_Name : string; ir_Alias : string; ir_Descr : string
}.
Record side : Type := mkSide { sd_ifIndex : Z; sd_ifName : string; sd_evidence : string }.
Abbreviation Claims := (gmap string (gmap string side)).

Definition minKeyLen : Z := 3.

Definition blank : byte := zb 32.
Definition letterOrDigit (c : byte) : bool := within 97 (bz c) 122 || within 48 (bz c) 57.

(** A rune outside ASCII is several bytes and becomes as many blanks, where
    the code writes one; [strings.Fields] does not count them. *)
Definition reduce (b : bytes) : bytes := map (fun c => if letterOrDigit c then c else blank) b.

(** [strings.Fields] of a text whose only white space is the blank. *)
Fixpoint fieldsLoop (acc b : bytes) : list bytes :=
  match b with
  | [] => if decide (acc = []) then [] else [reverse acc]
  | c :: b =>
      if decide (c = blank) then (if decide (acc = []) then fieldsLoop [] b else reverse acc :: fieldsLoop [] b)
      else fieldsLoop (c :: acc) b
  end.
Definition Fields (b : bytes) : list bytes := fieldsLoop [] b.

(** [strings.Cut(s, ".")]: what is before the first dot, if there is one. *)
Definition cutDot (s : string) : option string :=
  match Split s (zb 46) with host :: _ :: _ => Some host | _ => None end.

Definition containsSeq (haystack needle : list string) : bool :=
  if bool_decide (needle = []) || (len haystack <? len needle) then false
  else existsb (fun i => bool_decide (take (length needle) (drop i haystack) = needle))
         (seq 0 (S (length haystack - length needle))).

Section describe.
Context (ToLower : string -> string).

Definition normalise (s : string) : list string := map of_bytes (Fields (reduce (to_bytes (ToLower s)))).

Definition addKey (st : gset string * list (list string)) (s : string) : gset string * list (list string) :=
  let '(seen, out) := st in
  let toks := normalise s in
  if decide (toks = []) then st else
  let k := Join toks " " in
  if decide (k ∈ seen) then st else ({[k]} ∪ seen, out ++ [toks]).

Definition deviceKeys (d : DeviceRef) : list (list string) :=
  let st := addKey (addKey (∅, []) (dr_Name d)) (dr_SysName d) in
  (match cutDot (dr_SysName d) with Some host => addKey st host | None => st end).2.

Record best : Type := mkBest { bestID : string; bestLen : Z; tied : bool }.

Definition tryKey (text : list string) (id : string) (b : best) (key : list string) : best :=
  let joined := Join key "" in
  if (slen joined <? minKeyLen) && negb (bool_decide (length text = length key) && containsSeq text key) then b
  else if negb (containsSeq text key) then b
  else if bestLen b <? slen joined then mkBest id (slen joined) false
  else if (slen joined =? bestLen b) && negb (bool_decide (id = bestID b)) then mkBest (bestID b) (bestLen b) true
  else b.

Definition tryDevice (text : list string) (exclude : string) (b : best) (d : DeviceRef) : best :=
  if decide (dr_ID d = exclude) then b else foldl (tryKey text (dr_ID d)) b (deviceKeys d).

(** [None] where the code returns [false]. *)
Definition matchDevice (text : list string) (devices : list DeviceRef) (exclude : string) : option string :=
  let b := foldl (tryDevice text exclude) (mkBest "" 0 false) devices in
  if bool_decide (bestID b = "") || tied b then None else Some (bestID b).

(** ** Claims *)

Definition claimText (i : IfaceRef) : string := TrimSpace (ir_Alias i +:+ " " +:+ ir_Descr i).

Definition addClaim (devices : list DeviceRef) (claims : Claims) (i : IfaceRef) : Claims :=
  let text := claimText i in
  let toks := normalise text in
  if decide (toks = []) then claims else
  match matchDevice toks devices (ir_DeviceID i) with
  | None => claims
  | Some peer =>
      let mine := default ∅ (claims !! ir_DeviceID i) in
      <[ir_DeviceID i := match mine !! peer with
                         | Some _ => mine
                         | None => <[peer := mkSide (ir_IfIndex i) (ir_Name i) (TrimSpace text)]> mine
                         end]> claims
  end.

Definition claimsOf (devices : list DeviceRef) (ifaces : list IfaceRef) : Claims := foldl (addClaim devices) ∅ ifaces.

Definition claim (claims : Claims) (a b : string) : option side := peers ← claims !! a; peers !! b.

(** ** Suggestions *)

Definition nameOfDevice (byID : gmap string DeviceRef) (id : string) : string :=
  match byID !! id with Some d => dr_Name d | None => "" end.

Definition evidenceOf (byID : gmap string DeviceRef) (id : string) (s : side) : string :=
  nameOfDevice byID id +:+ " " +:+ sd_ifName s +:+ ": " +:+ sd_evidence s.

Definition suggest (byID : gmap string DeviceRef) (claims : Claims) (a b : string) (aSide : side) : Suggestion :=
  match claim claims b a with
  | Some bSide =>
      mkSuggestion a (nameOfDevice byID a) (sd_ifIndex aSide) (sd_ifName aSide)
        b (nameOfDevice byID b) (sd_ifIndex bSide) (sd_ifName bSide) "" "" "description" "both-ends"
        (evidenceOf byID a aSide +:+ "  |  " +:+ evidenceOf byID b bSide)
  | None =>
      mkSuggestion a (nameOfDevice byID a) (sd_ifIndex aSide) (sd_ifName aSide)
        b (nameOfDevice byID b) 0 "" "" "" "description" "one-end" (evidenceOf byID a aSide)
  end.

Definition addPeer (byID : gmap string DeviceRef) (claims : Claims) (a : string)
    (st : gset (string * string) * list Suggestion) (p : string * side) : gset (string * string) * list Suggestion :=
  let '(done_, out) := st in
  let k := (pairKey a p.1).1 in
  if decide (k ∈ done_) then st else ({[k]} ∪ done_, out ++ [suggest byID claims a p.1 p.2]).

Definition bothEnds (s : Suggestion) : bool := bool_decide (s_Confidence s = "both-ends").

Definition sugLess (a b : Suggestion) : bool :=
  if negb (eqb (bothEnds a) (bothEnds b)) then bothEnds a
  else if negb (bool_decide (s_ADevice a = s_ADevice b)) then str_lt (s_ADevice a) (s_ADevice b)
  else str_lt (s_BDevice a) (s_BDevice b).
Definition sugLe (a b : Suggestion) : Prop := sugLess b a = false.
#[export] Instance sugLe_dec a b : Decision (sugLe a b).
Proof. unfold sugLe. apply _. Defined.

Context (rangeClaims : Claims -> list (string * gmap string side)) (rangePeers : gmap string side -> list (string * side)).

Definition SuggestFromDescriptions (devices : list DeviceRef) (ifaces : list IfaceRef) : list Suggestion :=
  let byID := foldl (fun m d => <[dr_ID d := d]> m) ∅ devices in
  let claims := claimsOf devices ifaces in
  let '(_, out) := foldl (fun st '(a, peers) => foldl (addPeer byID claims a) st (rangePeers peers))
                     (∅, []) (rangeClaims claims) in
  merge_sort sugLe out.

(** * What a description names *)

(** The text names a key of this many characters. *)
Definition keyHits (text : list string) (key : list string) : bool :=
  containsSeq text key && ((minKeyLen <=? slen (Join key "")) || bool_decide (length text = length key)).

Definition deviceHits (text : list string) (exclude : string) (d : DeviceRef) : list (string * Z) :=
  if decide (dr_ID d = exclude) then []
  else map (fun key => (dr_ID d, slen (Join key ""))) (filter (fun key => keyHits text key = true) (deviceKeys d)).

(** Each device the text names, with the length of the name. *)
Definition hits (text : list string) (devices : list DeviceRef) (exclude : string) : list (string * Z) :=
  concat (map (deviceHits text exclude) devices).

Definition tryHit (b : best) (h : string * Z) : best :=
  if bestLen b <? h.2 then mkBest h.1 h.2 false
  else if (h.2 =? bestLen b) && negb (bool_decide (h.1 = bestID b)) then mkBest (bestID b) (bestLen b) true
  else b.

Lemma tryKey_hit text id b key :
  tryKey text id b key = if keyHits text key then tryHit b (id, slen (Join key "")) else b.
Proof.
  unfold tryKey, keyHits, tryHit. cbn [fst snd]. destruct (containsSeq text key); simpl; [|by destruct (_ && _)].
  rewrite andb_true_r. destruct (slen _ <? minKeyLen) eqn:E1, (bool_decide (length text = length key)) eqn:E2; simpl.
  - by rewrite orb_true_r.
  - by rewrite (proj2 (Z.leb_gt _ _)) by lia.
  - by rewrite orb_true_r.
  - by rewrite (proj2 (Z.leb_le _ _)) by lia.
Qed.

Lemma tryDevice_hits text exclude b d : tryDevice text exclude b d = foldl tryHit b (deviceHits text exclude d).
Proof.
  unfold tryDevice, deviceHits. case_decide; [done|]. revert b. induction (deviceKeys d) as [|key keys IH]; intros b; [done|].
  cbn [foldl]. rewrite tryKey_hit, IH, filter_cons. destruct (keyHits text key); [by rewrite decide_True | by rewrite decide_False].
Qed.

Lemma matchDevice_hits text devices exclude :
  matchDevice text devices exclude =
  let b := foldl tryHit (mkBest "" 0 false) (hits text devices exclude) in
  if bool_decide (bestID b = "") || tied b then None else Some (bestID b).
Proof.
  unfold matchDevice, hits.
  enough (forall b, foldl (tryDevice text exclude) b devices = foldl tryHit b (concat (map (deviceHits text exclude) devices))) as Hf
    by (by rewrite Hf).
  induction devices as [|d devices IH]; intros b; [done|]. cbn [foldl map concat]. by rewrite foldl_app, tryDevice_hits, IH.
Qed.

Lemma fieldsLoop_ne b : forall acc t, t ∈ fieldsLoop acc b -> t <> [].
Proof.
  induction b as [|c b IH]; intros acc t; cbn [fieldsLoop].
  - case_decide; [by intros ?%elem_of_nil|]. intros ->%list_elem_of_singleton E. by apply (f_equal reverse) in E; rewrite reverse_involutive in E.
  - case_decide; [case_decide|]; [apply IH| |apply IH]. intros [->|Hin]%elem_of_cons; [|by eapply IH].
    intros E. by apply (f_equal reverse) in E; rewrite reverse_involutive in E.
Qed.

Lemma slen_Join_pos t l sep : t <> "" -> 0 < slen (Join (t :: l) sep).
Proof.
  intros Ht. unfold slen. assert (0 < len (to_bytes t)) as Hpos.
  { destruct (to_bytes t) as [|c b] eqn:E; [|rewrite len_cons; pose proof (len_nonneg b); lia].
    destruct Ht. rewrite <- (of_to_bytes t), E. done. }
  destruct l; cbn [Join]; [done|]. rewrite to_bytes_app, len_app. match goal with |- 0 < _ + len ?x => pose proof (len_nonneg x) end. lia.
Qed.

Lemma normalise_pos s key : normalise s = key -> key <> [] -> 0 < slen (Join key "").
Proof.
  intros <- Hne. unfold normalise in *. destruct (Fields _) as [|t ts] eqn:E; [done|]. cbn [map]. apply slen_Join_pos.
  intros Ht. apply (fieldsLoop_ne (reduce (to_bytes (ToLower s))) [] t); [unfold Fields in E; rewrite E; by left|].
  by apply (f_equal to_bytes) in Ht; rewrite to_of_bytes in Ht.
Qed.

Lemma addKey_In st s key : key ∈ (addKey st s).2 -> key ∈ st.2 \/ (key = normalise s /\ key <> []).
Proof.
  unfold addKey. destruct st as [seen out]. case_decide; [by left|]. case_decide; [by left|]. cbn [snd].
  rewrite elem_of_app, list_elem_of_singleton. intros [?| ->]; [by left | by right].
Qed.

Lemma deviceKeys_pos d key : key ∈ deviceKeys d -> 0 < slen (Join key "").
Proof.
  unfold deviceKeys. assert (forall key, key ∈ (addKey (addKey (∅, []) (dr_Name d)) (dr_SysName d)).2 -> 0 < slen (Join key "")) as H2.
  { intros k [[Hk%elem_of_nil|[-> ?]]%addKey_In|[-> ?]]%addKey_In; [done|by eapply normalise_pos..]. }
  destruct (cutDot _); [|apply H2]. intros [?|[-> ?]]%addKey_In; [by apply H2|by eapply normalise_pos].
Qed.

Lemma hits_pos text devices exclude h : h ∈ hits text devices exclude -> 0 < h.2 /\ h.1 <> exclude.
Proof.
  unfold hits. rewrite list_elem_of_In, List.in_concat. intros (l & (d & <- & _)%List.in_map_iff & Hh%list_elem_of_In). revert Hh. unfold deviceHits.
  case_decide as He; [by intros ?%elem_of_nil|]. intros (key & -> & [_ Hk]%list_elem_of_filter)%list_elem_of_fmap.
  split; [by eapply deviceKeys_pos | done].
Qed.

Lemma tryHit_best H :
  Forall (fun h => 0 < h.2) H ->
  let b := foldl tryHit (mkBest "" 0 false) H in
  (H = [] /\ b = mkBest "" 0 false) \/
  ((bestID b, bestLen b) ∈ H /\ (forall h, h ∈ H -> h.2 <= bestLen b) /\
   (tied b = true <-> exists h, h ∈ H /\ h.2 = bestLen b /\ h.1 <> bestID b)).
Proof.
  induction H as [|h H IH] using rev_ind; intros Hpos; [by left|]. apply List.Forall_app in Hpos as [Hpos Hh].
  apply List.Forall_cons_iff in Hh as [Hh _]. specialize (IH Hpos). cbv zeta in *. right. rewrite foldl_snoc.
  set (b := foldl tryHit _ H) in *. unfold tryHit. setoid_rewrite elem_of_app. setoid_rewrite list_elem_of_singleton.
  destruct (bestLen b <? h.2) eqn:E1; cbn [bestID bestLen tied].
  - split; [right; by destruct h|]. split.
    + intros h' [Hin| ->]; [|done]. destruct IH as [[-> _]|(_ & Hle & _)]; [by apply elem_of_nil in Hin|]. apply Hle in Hin. lia.
    + split; [done|]. intros (h' & [Hin| ->] & E & Hn); [|done].
      destruct IH as [[-> _]|(_ & Hle & _)]; [by apply elem_of_nil in Hin|]. apply Hle in Hin. lia.
  - destruct IH as [[_ Hb]|(Hin & Hle & Htied)]; [rewrite Hb in E1; simpl in E1; lia|].
    destruct ((h.2 =? bestLen b) && negb (bool_decide (h.1 = bestID b))) eqn:E2; cbn [bestID bestLen tied].
    + apply andb_true_iff in E2 as [E2 E3]. apply negb_true_iff, bool_decide_eq_false in E3. split; [by left|]. split.
      * intros h' [?| ->]; [auto | lia].
      * split; [intros _|done]. exists h. split; [by right|]. split; [lia|done].
    + split; [by left|]. split; [intros h' [?| ->]; [auto|lia]|]. rewrite Htied. split.
      * intros (h' & ? & ? & ?). exists h'. auto.
      * intros (h' & [?| ->] & E & Hn); [by exists h'|]. apply andb_false_iff in E2 as [E2|E2]; [lia|].
        apply negb_false_iff, bool_decide_eq_true in E2. done.
Qed.

Lemma matchDevice_exact text devices exclude id :
  matchDevice text devices exclude = Some id <->
  id <> "" /\ exists n, (id, n) ∈ hits text devices exclude /\
    forall h, h ∈ hits text devices exclude -> h.2 < n \/ h = (id, n).
Proof.
  rewrite matchDevice_hits. pose proof (tryHit_best (hits text devices exclude)) as Hb. cbv zeta in *.
  destruct Hb as [[E ->]|(Hin & Hle & Htied)].
  { apply List.Forall_forall. intros h Hh%list_elem_of_In. by apply hits_pos in Hh as [? _]. }
  { simpl. split; [done|]. intros (_ & n & Hn & _). rewrite E in Hn. by apply elem_of_nil in Hn. }
  set (b := foldl tryHit _ _) in *. set (H := hits text devices exclude) in *. split.
  - case_bool_decide as E0; [done|]. destruct (tied b) eqn:Et; [done|]. intros [= <-]. split; [done|].
    exists (bestLen b). split; [done|]. intros h Hh. destruct (decide (h.2 = bestLen b)) as [E|Hn]; [|left; apply Hle in Hh; lia].
    right. destruct h as [i n]. simpl in *. subst n. f_equal. destruct (decide (i = bestID b)) as [|Hne]; [done|].
    assert (false = true) as [=]. apply Htied. by exists (i, bestLen b).
  - intros (Hne & n & Hn & Hall). destruct (Hall _ Hin) as [Hlt|[= E1 E2]]; [apply Hle in Hn; simpl in *; lia|].
    rewrite bool_decide_eq_false_2 by congruence. destruct (tied b) eqn:Et; [|simpl; congruence].
    destruct (proj1 Htied eq_refl) as ([i m] & Hh & E & Hn'). destruct (Hall _ Hh) as [?|[= -> _]]; [simpl in *; lia|]. simpl in *. congruence.
Qed.

(** A port's text names a device exactly when one device, other than the
    port's own, has a name in it that is longer than every other device's. So
    the order of the inventory does not matter. *)
Theorem matchDevice_spec text devices exclude id :
  (matchDevice text devices exclude = Some id <->
   id <> "" /\ exists n, (id, n) ∈ hits text devices exclude /\
     forall h, h ∈ hits text devices exclude -> h.2 < n \/ h = (id, n)) /\
  (matchDevice text devices exclude = Some id -> id <> exclude) /\
  (forall devices', devices ≡ₚ devices' -> matchDevice text devices' exclude = matchDevice text devices exclude).
Proof.
  split; [apply matchDevice_exact|]. split.
  - intros (_ & n & Hin & _)%matchDevice_exact. by apply hits_pos in Hin as [_ ?].
  - intros devices' E. apply option_eq. intros i. rewrite !matchDevice_exact. unfold hits.
    assert (forall h, h ∈ concat (map (deviceHits text exclude) devices') <-> h ∈ concat (map (deviceHits text exclude) devices)) as Hh
      by (intros h; by rewrite E).
    setoid_rewrite Hh. done.
Qed.

(** * What is suggested *)

Lemma sugLe_spec a b :
  sugLe a b <->
  (bothEnds a = true /\ bothEnds b = false) \/ (bothEnds a = bothEnds b /\ pair_le (s_ADevice a, s_BDevice a) (s_ADevice b, s_BDevice b)).
Proof.
  unfold sugLe, sugLess, pair_le, str_le. cbn [fst snd].
  destruct (bothEnds a), (bothEnds b); simpl; try (split; [naive_solver|naive_solver]).
  all: case_bool_decide as E; simpl; [rewrite decide_True by done; naive_solver | rewrite decide_False by done].
  all: assert (str_lt (s_ADevice b) (s_ADevice a) = false <-> str_lt (s_ADevice a) (s_ADevice b) = true) as ->; [|naive_solver].
  all: split; [|apply str_lt_asym]; intros H; destruct (str_lt (s_ADevice a) (s_ADevice b)) eqn:E'; [done|].
  all: by destruct E; apply str_lt_total.
Qed.

#[local] Instance sugLe_trans : Transitive sugLe.
Proof.
  intros a b c. rewrite !sugLe_spec. intros [[? ?]|[-> ?]] [[? ?]|[? ?]]; [congruence|left; by split; congruence|by left|].
  right. split; [done|]. by etrans.
Qed.
#[local] Instance sugLe_total : Total sugLe.
Proof.
  intros a b. rewrite !sugLe_spec. destruct (bothEnds a), (bothEnds b); auto.
  all: destruct (total pair_le (s_ADevice a, s_BDevice a) (s_ADevice b, s_BDevice b)); auto.
Qed.

(** [i] is a port of [a] whose text names [b]. *)
Definition describes (devices : list DeviceRef) (a b : string) (i : IfaceRef) : Prop :=
  ir_DeviceID i = a /\ normalise (claimText i) <> [] /\ matchDevice (normalise (claimText i)) devices a = Some b.
#[local] Instance describes_dec devices a b i : Decision (describes devices a b i).
Proof. unfold describes. apply _. Defined.

Definition sideOf (i : IfaceRef) : side := mkSide (ir_IfIndex i) (ir_Name i) (TrimSpace (claimText i)).

(** The first port of [a] whose text names [b], in the order of the ports. *)
Lemma claimsOf_first devices ifaces a b :
  claim (claimsOf devices ifaces) a b = sideOf <$> head (filter (describes devices a b) ifaces).
Proof.
  unfold claimsOf. induction ifaces as [|i ifaces IH] using rev_ind; [done|].
  rewrite foldl_snoc, filter_app, filter_cons, filter_nil. set (claims := foldl _ ∅ ifaces) in *.
  assert (forall l : list IfaceRef, head (l ++ (if decide (describes devices a b i) then [i] else [])) =
    match head l with Some x => Some x | None => if decide (describes devices a b i) then Some i else None end) as ->
    by (intros [|x l]; [by case_decide|done]).
  unfold addClaim. destruct (decide (normalise (claimText i) = [])) as [Et|Et].
  { rewrite (decide_False (P := describes devices a b i)) by (intros (_ & ? & _); done). rewrite IH. by destruct (head _). }
  destruct (matchDevice _ devices (ir_DeviceID i)) as [peer|] eqn:Em.
  2: { rewrite (decide_False (P := describes devices a b i)) by (intros (<- & _ & ?); congruence). rewrite IH. by destruct (head _). }
  unfold claim in *. rewrite lookup_insert. destruct (decide (ir_DeviceID i = a)) as [<-|Ha].
  - cbn [mbind option_bind]. assert (default ∅ (claims !! ir_DeviceID i) !! b = sideOf <$> head (filter (describes devices (ir_DeviceID i) b) ifaces)) as Hd
      by (rewrite <- IH; by destruct (claims !! ir_DeviceID i)).
    destruct (decide (peer = b)) as [->|Hb].
    + rewrite (decide_True (P := describes _ _ _ i)) by done. destruct (default ∅ _ !! b) as [sd|] eqn:Ed.
      * rewrite Ed, Hd. by destruct (head _).
      * rewrite lookup_insert, decide_True by done. by destruct (head _).
    + rewrite (decide_False (P := describes _ _ _ i)) by (intros (_ & _ & ?); congruence).
      transitivity (default ∅ (claims !! ir_DeviceID i) !! b); [|rewrite Hd; by destruct (head _)].
      destruct (default ∅ _ !! peer); [done|]. by rewrite lookup_insert, decide_False.
  - rewrite (decide_False (P := describes _ _ _ i)) by (intros (? & _); done). rewrite IH. by destruct (head _).
Qed.

Lemma claim_distinct devices ifaces a b p : claim (claimsOf devices ifaces) a b = Some p -> a <> b.
Proof.
  rewrite claimsOf_first. destruct (head _) as [i|] eqn:E; [|done]. intros _. apply head_Some_elem_of in E.
  apply list_elem_of_filter in E as [(_ & _ & (_ & n & Hn & _)%matchDevice_exact) _]. apply hits_pos in Hn as [_ ?]. auto.
Qed.

Lemma pairKey_eq a b c d : (pairKey a b).1 = (pairKey c d).1 -> (a = c /\ b = d) \/ (a = d /\ b = c).
Proof. unfold pairKey. destruct (str_lt b a), (str_lt d c); cbn [fst]; intros [= -> ->]; auto. Qed.

Lemma pairKey_comm a b : (pairKey a b).1 = (pairKey b a).1.
Proof.
  unfold pairKey. destruct (str_lt b a) eqn:E1; [by rewrite (str_lt_asym _ _ E1)|].
  destruct (str_lt a b) eqn:E2; [done|]. by rewrite (str_lt_total a b).
Qed.

Definition ends (s : Suggestion) : string * string := (pairKey (s_ADeviceID s) (s_BDeviceID s)).1.

(** The claims in the order they are come by. *)
Definition claimList (claims : Claims) : list (string * (string * side)) :=
  concat (map (fun '(a, peers) => map (fun p => (a, p)) (rangePeers peers)) (rangeClaims claims)).

Lemma suggest_ends byID claims a b p : s_ADeviceID (suggest byID claims a b p) = a /\ s_BDeviceID (suggest byID claims a b p) = b.
Proof. unfold suggest. by destruct (claim claims b a). Qed.

Lemma addPeer_fold byID claims L :
  let '(done_, out) := foldl (fun st '(a, p) => addPeer byID claims a st p) (∅, []) L in
  (forall k, k ∈ done_ <-> k ∈ map ends out) /\ NoDup (map ends out) /\
  (forall a p, (a, p) ∈ L -> (pairKey a p.1).1 ∈ done_) /\
  (forall s, s ∈ out -> exists a b p, (a, (b, p)) ∈ L /\ s = suggest byID claims a b p).
Proof.
  induction L as [|[a p] L IH] using rev_ind.
  { split_and!; [set_solver|constructor|by intros ? ? ?%elem_of_nil|by intros ? ?%elem_of_nil]. }
  rewrite foldl_snoc. destruct (foldl _ (∅, []) L) as [done_ out]. destruct IH as (H1 & H2 & H3 & H4). unfold addPeer.
  assert (forall x, x ∈ L ++ [(a, p)] <-> x ∈ L \/ x = (a, p)) as HL by (intros x; by rewrite elem_of_app, list_elem_of_singleton).
  destruct (decide ((pairKey a p.1).1 ∈ done_)) as [Hd|Hd].
  - split_and!; [done|done| |].
    + by intros a' p' [?|[= -> ->]]%HL; [apply H3|].
    + intros s (a' & b & q & ? & ->)%H4. exists a', b, q. split; [apply HL; by left|done].
  - destruct (suggest_ends byID claims a p.1 p.2) as [EA EB].
    assert (ends (suggest byID claims a p.1 p.2) = (pairKey a p.1).1) as Ee by (unfold ends; by rewrite EA, EB).
    split_and!.
    + intros k. rewrite map_app, elem_of_app, elem_of_union, elem_of_singleton, H1. cbn [map]. rewrite list_elem_of_singleton, Ee. tauto.
    + rewrite map_app. apply NoDup_app. split; [done|]. split; [|apply NoDup_singleton].
      intros k Hk. cbn [map]. rewrite list_elem_of_singleton, Ee. intros ->. apply Hd. by apply H1.
    + intros a' p' [Hin|[= -> ->]]%HL; [|set_solver]. apply elem_of_union. right. by apply H3.
    + intros s [(a' & b & q & ? & ->)%H4| ->%list_elem_of_singleton]%elem_of_app.
      * exists a', b, q. split; [apply HL; by left|done].
      * exists a, p.1, p.2. split; [apply HL; right; by destruct p|done].
Qed.

Context (claims_perm : forall m, rangeClaims m ≡ₚ map_to_list m) (peers_perm : forall m, rangePeers m ≡ₚ map_to_list m).

Lemma elem_of_claimList claims a b p : (a, (b, p)) ∈ claimList claims <-> claim claims a b = Some p.
Proof.
  unfold claimList, claim. rewrite list_elem_of_In, List.in_concat. split.
  - intros (l & ([a' peers] & <- & Hin)%List.in_map_iff & (q & [= -> ->] & Hq)%List.in_map_iff).
    apply list_elem_of_In in Hin, Hq. rewrite claims_perm in Hin. rewrite peers_perm in Hq.
    apply elem_of_map_to_list in Hin, Hq. by rewrite Hin.
  - destruct (claims !! a) as [peers|] eqn:Ea; [|done]. cbn [mbind option_bind]. intros Hb.
    eexists. split; [apply List.in_map_iff; exists (a, peers); split; [reflexivity|]|].
    + apply list_elem_of_In. rewrite claims_perm. by apply elem_of_map_to_list.
    + apply List.in_map_iff. exists (b, p). split; [done|]. apply list_elem_of_In. rewrite peers_perm. by apply elem_of_map_to_list.
Qed.

Lemma foldl_claims byID claims l st :
  foldl (fun st '(a, peers) => foldl (addPeer byID claims a) st (rangePeers peers)) st l =
  foldl (fun st '(a, p) => addPeer byID claims a st p) st
    (concat (map (fun '(a, peers) => map (fun p => (a, p)) (rangePeers peers)) l)).
Proof.
  revert st. induction l as [|[a peers] l IH]; intros st; [done|]. cbn [foldl map concat]. rewrite IH, foldl_app. f_equal.
  clear. revert st. induction (rangePeers peers) as [|p ps IH]; intros st; [done|]. cbn [foldl map]. apply IH.
Qed.

(** Two devices are suggested as linked exactly when a port of one names the
    other, and once only; the suggestion bears the port that names, and when
    the other's ports name the first as well it says so and bears that port
    too; those come first, then the order is by name. *)
Theorem suggestions_exact devices ifaces :
  let out := SuggestFromDescriptions devices ifaces in
  let port a b := head (filter (describes devices a b) ifaces) in
  NoDup (map ends out) /\ StronglySorted sugLe out /\
  (forall a b, (pairKey a b).1 ∈ map ends out <-> is_Some (port a b) \/ is_Some (port b a)) /\
  (forall s, s ∈ out ->
     exists i, port (s_ADeviceID s) (s_BDeviceID s) = Some i /\ s_AIfIndex s = ir_IfIndex i /\ s_AIfName s = ir_Name i /\
     match port (s_BDeviceID s) (s_ADeviceID s) with
     | Some j => s_Confidence s = "both-ends" /\ s_BIfIndex s = ir_IfIndex j /\ s_BIfName s = ir_Name j
     | None => s_Confidence s = "one-end" /\ s_BIfIndex s = 0 /\ s_BIfName s = ""
     end).
Proof.
  cbv zeta. unfold SuggestFromDescriptions. set (byID := foldl _ _ devices). set (claims := claimsOf devices ifaces).
  rewrite foldl_claims. fold (claimList claims).
  pose proof (addPeer_fold byID claims (claimList claims)) as Hf.
  destruct (foldl _ (∅, []) (claimList claims)) as [done_ out]. destruct Hf as (H1 & H2 & H3 & H4).
  assert (map ends (merge_sort sugLe out) ≡ₚ map ends out) as Ep by (by rewrite merge_sort_Permutation).
  split; [by rewrite Ep|]. split; [by apply StronglySorted_merge_sort; apply _|]. split.
  - intros a b. rewrite Ep, <- H1.
    assert (forall a b p, claim claims a b = Some p -> (pairKey a b).1 ∈ done_) as Hin.
    { intros x y p Hp. apply (H3 x (y, p)). by apply elem_of_claimList. }
    assert (forall a b, is_Some (head (filter (describes devices a b) ifaces)) <-> is_Some (claim claims a b)) as Hport.
    { intros x y. unfold claims. rewrite claimsOf_first. by rewrite fmap_is_Some. }
    rewrite !Hport. split; [|intros [[p Hp]|[p Hp]]; [by eapply Hin|rewrite pairKey_comm; by eapply Hin]].
    intros Hk. apply H1 in Hk. change (map ends out) with (ends <$> out) in Hk. apply list_elem_of_fmap in Hk as (s & E & Hs).
    apply H4 in Hs as (x & y & p & Hp%elem_of_claimList & ->). unfold ends in E.
    destruct (suggest_ends byID claims x y p) as [EA EB]. rewrite EA, EB in E.
    apply pairKey_eq in E as [[-> ->]|[-> ->]]; [left|right]; by eexists.
  - intros s Hs. rewrite elem_of_merge_sort in Hs. apply H4 in Hs as (a & b & p & Hp%elem_of_claimList & ->).
    destruct (suggest_ends byID claims a b p) as [EA EB]. rewrite EA, EB. pose proof Hp as Hp'.
    unfold claims in Hp'. rewrite claimsOf_first in Hp'. destruct (head (filter (describes devices a b) ifaces)) as [i|]; [|done].
    injection Hp' as <-. exists i. split; [done|]. unfold suggest, claims. rewrite claimsOf_first.
    by destruct (head (filter (describes devices b a) ifaces)).
Qed.
End describe.

(** ** A worked estate *)

Definition asciiLower (s : string) : string :=
  of_bytes (map (fun c => if within 65 (bz c) 90 then zb (bz c + 32) else c) (to_bytes s)).
Definition demoDevices : list DeviceRef := [mkDeviceRef "dA" "core-a" ""; mkDeviceRef "dB" "core-b" ""].
Definition demoPorts : list IfaceRef :=
  [mkIfaceRef "dA" 3 "Gi0/3" "to CORE-B" ""; mkIfaceRef "dB" 7 "Gi0/7" "uplink core a" ""].
Definition demoSuggest (rangeClaims : Claims -> list (string * gmap string side)) : list Suggestion :=
  SuggestFromDescriptions asciiLower rangeClaims map_to_list demoDevices demoPorts.

(** Which of two devices that name each other is the suggestion's first
    depends on the order a map is ranged over. *)
Example orientation_unstable :
  map s_ADeviceID (demoSuggest map_to_list) <> map s_ADeviceID (demoSuggest (fun m => reverse (map_to_list m))).
Proof. by vm_compute. Qed.

(** The map drawn from such a suggestion binds one end only, though both
    ports are known, and which end it is depends on that order too. *)
Example both_ends_half_bound :
  let drawn r := map (fun l => (l_AEndpoint l, l_BEndpoint l)) (d_Links (demoDraw "m" (demoSuggest r))) in
  map s_Confidence (demoSuggest map_to_list) = ["both-ends"] /\
  map (fun s => (s_AIfIndex s, s_BIfIndex s)) (demoSuggest map_to_list) ∈ [[(3, 7)]; [(7, 3)]] /\
  drawn map_to_list ∈ [[(Some (mkEndpoint "dA" 3), None)]; [(None, Some (mkEndpoint "dB" 7))]] /\
  drawn map_to_list <> drawn (fun m => reverse (map_to_list m)).
Proof. cbv zeta. split_and!; try (by vm_compute); apply (bool_decide_unpack _); by vm_compute. Qed.

(** The longer of two names in a text wins; two of one length leave it open. *)
Lemma matchDevice_spec_witness :
  let devices := [mkDeviceRef "d1" "core-sw" ""; mkDeviceRef "d2" "core-sw-01" ""; mkDeviceRef "d3" "core-sw-02" ""] in
  let text := normalise asciiLower "to CORE-SW-01 (Gi0/1)" in
  matchDevice asciiLower text (reverse devices) "dX" = matchDevice asciiLower text devices "dX" /\
  matchDevice asciiLower text devices "dX" = Some "d2" /\
  matchDevice asciiLower (normalise asciiLower "core-sw-01 core-sw-02") devices "dX" = None.
Proof.
  cbv zeta. split; [|split; by vm_compute].
  apply (matchDevice_spec asciiLower _ [mkDeviceRef "d1" "core-sw" ""; mkDeviceRef "d2" "core-sw-01" ""; mkDeviceRef "d3" "core-sw-02" ""] "dX" "d2").
  apply Permutation_sym, reverse_Permutation.
Defined.

Lemma suggestions_exact_witness :
  let out := demoSuggest map_to_list in
  NoDup (map ends out) /\ ("dA", "dB") ∈ map ends out /\ map s_Confidence out = ["both-ends"].
Proof.
  cbv zeta. destruct (suggestions_exact asciiLower map_to_list map_to_list (fun _ => Permutation_refl _) (fun _ => Permutation_refl _)
    demoDevices demoPorts) as (H1 & _ & H2 & _).
  split; [exact H1|]. split; [|by vm_compute]. apply (H2 "dA" "dB"). left. vm_compute. by eexists.
Defined.
