(* ===== verification/MapStore.v ===== *)
(** Package maps (store.go): the revisions of one map, and publishing.

    A stored document is the document: encoding it and decoding it again is the
    JSON library's. The statements reach the database; what they can report is
    that a row is missing or a key taken. The code looks at the two ends of a
    link in either order, here at the first end first: which of two ends that
    cannot be resolved is named in the error is all that depends on it. *)
From Stdlib Require Import ZArith Lia.
From stdpp Require Import base list gmap strings numbers sorting.
From S2P Require Import Prelude GoText GoSort Errx MapDoc.

Record Revision : Type := mkRevision { rv_rev : Z; rv_state : string; rv_definition : MapDef }.
#[export] Instance Revision_eq_dec : EqDecision Revision.
Proof. solve_decision. Defined.
#[export] Instance eta_Revision : Eta Revision := fun r => mkRevision (rv_rev r) (rv_state r) (rv_definition r).

(** The row of a map, its revisions and its links: each link key with the ids
    of the interfaces at its ends, "" for null. *)
Record MapRows : Type := mkMapRows {
  mp_revisions : list Revision; mp_published : Z; mp_links : gmap string (string * string)
}.
#[export] Instance eta_MapRows : Eta MapRows := fun m => mkMapRows (mp_revisions m) (mp_published m) (mp_links m).

(** What publishing reads of an interface. *)
Record IfaceRow : Type := mkIfaceRow { if_id : string; if_device : string; if_index : Z; if_state : string }.

Definition isDraft (r : Revision) : Prop := rv_state r = "draft".
#[export] Instance isDraft_dec r : Decision (isDraft r).
Proof. unfold isDraft. apply _. Defined.

Definition Create (name : string) : MapRows :=
  mkMapRows [mkRevision 1 "draft" (mkMapDef mapSchema "" [] [])] 0 ∅.

(** [ORDER BY rev DESC LIMIT 1]. *)
Definition newer (best : option Revision) (r : Revision) : option Revision :=
  match best with
  | Some b => if rv_rev b <? rv_rev r then Some r else best
  | None => Some r
  end.
Definition newestDraft (revs : list Revision) : option Revision := foldl newer None (filter isDraft revs).

(** [Load] of "draft", and of anything else. *)
Definition loadDraft (m : MapRows) : Revision + Err :=
  match newestDraft (mp_revisions m) with
  | Some r => inl r
  | None => inr (New KindNotFound "map revision not found")
  end.
Definition Load (m : MapRows) (which : string) : Revision + Err :=
  if decide (which = "draft") then loadDraft m else
  match list_find (fun r => rv_rev r = mp_published m) (mp_revisions m) with
  | Some (_, r) => inl r
  | None => loadDraft m
  end.

Definition maxRev (revs : list Revision) : Z := foldl Z.max 0 (map rv_rev revs).

Section store.
Context (Quote : string -> string).

Definition SaveDraft (m : MapRows) (def : MapDef) : MapRows * option Err :=
  match Validate Quote def with
  | Some e => (m, Some e)
  | None =>
      let def := def <| d_Schema := mapSchema |> in
      match newestDraft (mp_revisions m) with
      | Some d =>
          (m <| mp_revisions := map (fun r => if decide (isDraft r /\ rv_rev r = rv_rev d)
                                              then r <| rv_definition := def |> else r) (mp_revisions m) |>, None)
      | None =>
          (m <| mp_revisions := mp_revisions m ++ [mkRevision (maxRev (mp_revisions m) + 1) "draft" def] |>, None)
      end
  end.

(** [linkBindings]: "" where the map has no entry. *)
Definition linkBindings (m : MapRows) (key side : string) : string :=
  match mp_links m !! key with
  | Some (a, b) => if decide (side = "a") then a else b
  | None => ""
  end.

Record binding : Type := mkBinding { b_linkKey : string; b_ifID : string; b_side : string }.

Definition live (i : IfaceRow) : Prop := if_state i <> "removed".
#[local] Instance live_dec i : Decision (live i).
Proof. unfold live. apply _. Defined.

(** One end of a link: the end as it is now, and what it is bound to. *)
Definition resolveEnd (ifs : list IfaceRow) (prior : string -> string -> string) (key side : string) (ep : Endpoint)
    : (Endpoint * binding) + Err :=
  let byIndex :=
    match list_find (fun i => if_device i = ep_DeviceID ep /\ if_index i = ep_IfIndex ep /\ live i) ifs with
    | Some (_, i) => inl (ep, mkBinding key (if_id i) side)
    | None => inr (New KindInvalid ("link " +:+ key +:+ ": " +:+ side +:+ " endpoint (device " +:+ ep_DeviceID ep +:+
                                    " if " +:+ Itoa (ep_IfIndex ep) +:+ ") does not resolve"))
    end in
  if decide (prior key side = "") then byIndex else
  match list_find (fun i => if_id i = prior key side /\ live i) ifs with
  | Some (_, i) => inl (mkEndpoint (if_device i) (if_index i), mkBinding key (prior key side) side)
  | None => byIndex
  end.

Definition resolveSide (ifs : list IfaceRow) (prior : string -> string -> string) (key side : string) (ep : option Endpoint)
    : (option Endpoint * list binding) + Err :=
  match ep with
  | None => inl (None, [])
  | Some ep =>
      match resolveEnd ifs prior key side ep with
      | inl (ep, b) => inl (Some ep, [b])
      | inr e => inr e
      end
  end.

Definition resolveLink (ifs : list IfaceRow) (prior : string -> string -> string) (l : Link) : (Link * list binding) + Err :=
  match resolveSide ifs prior (l_ID l) "a" (l_AEndpoint l) with
  | inr e => inr e
  | inl (a, ba) =>
      match resolveSide ifs prior (l_ID l) "b" (l_BEndpoint l) with
      | inr e => inr e
      | inl (b, bb) => inl (l <| l_AEndpoint := a |> <| l_BEndpoint := b |>, ba ++ bb)
      end
  end.

Fixpoint resolveLinks (ifs : list IfaceRow) (prior : string -> string -> string) (ls : list Link)
    : (list Link * list binding) + Err :=
  match ls with
  | [] => inl ([], [])
  | l :: ls =>
      match resolveLink ifs prior l with
      | inr e => inr e
      | inl (l, bs) =>
          match resolveLinks ifs prior ls with
          | inr e => inr e
          | inl (ls, bs') => inl (l :: ls, bs ++ bs')
          end
      end
  end.

(** The rows of [map_links] from the bindings; the last of two for one end
    stands. *)
Definition addBinding (links : gmap string (string * string)) (b : binding) : gmap string (string * string) :=
  let '(a_, b_) := default ("", "") (links !! b_linkKey b) in
  <[b_linkKey b := if decide (b_side b = "a") then (b_ifID b, b_) else (a_, b_ifID b)]> links.
Definition byLink (bs : list binding) : gmap string (string * string) := foldl addBinding ∅ bs.

Definition Publish (m : MapRows) (ifs : list IfaceRow) : MapRows * (Z + Err) :=
  match loadDraft m with
  | inr e => (m, inr e)
  | inl d =>
      let def := rv_definition d in
      match resolveLinks ifs (linkBindings m) (d_Links def) with
      | inr e => (m, inr e)
      | inl (ls, bs) =>
          let def := def <| d_Links := ls |> in
          let rev := rv_rev d in
          (* the primary key of the new draft *)
          if decide (rev + 1 ∈ map rv_rev (mp_revisions m))
          then (m, inr (kindError KindTransient (ErrWrap "publish" (ErrText "duplicate key")))) else
          (mkMapRows
             (map (fun r => if decide (rv_rev r = rev) then mkRevision rev "published" def else r) (mp_revisions m)
              ++ [mkRevision (rev + 1) "draft" def])
             rev (byLink bs), inl rev)
      end
  end.

(** * The life of a map *)

Inductive op : Type := OpSave (def : MapDef) | OpPublish (ifs : list IfaceRow).
Definition step (m : MapRows) (o : op) : MapRows :=
  match o with OpSave def => (SaveDraft m def).1 | OpPublish ifs => (Publish m ifs).1 end.
Definition run (m : MapRows) (os : list op) : MapRows := foldl step m os.

(** One draft, newer than every other revision; what is published is a
    revision that was. *)
Definition revisions_ok (m : MapRows) : Prop :=
  NoDup (map rv_rev (mp_revisions m)) /\
  (exists d, filter isDraft (mp_revisions m) = [d] /\ Forall (fun r => 1 <= rv_rev r <= rv_rev d) (mp_revisions m)) /\
  (mp_published m = 0 \/ exists r, r ∈ mp_revisions m /\ rv_rev r = mp_published m /\ rv_state r = "published").

Lemma Create_ok name : revisions_ok (Create name).
Proof.
  split; [apply NoDup_singleton|]. split; [|by left]. eexists. split; [reflexivity|]. by repeat constructor.
Qed.

Lemma one_draft m : revisions_ok m ->
  exists d, newestDraft (mp_revisions m) = Some d /\ d ∈ mp_revisions m /\ isDraft d /\
    filter isDraft (mp_revisions m) = [d] /\ Forall (fun r => 1 <= rv_rev r <= rv_rev d) (mp_revisions m).
Proof.
  intros (_ & (d & E & Hall) & _). exists d. unfold newestDraft. rewrite E. split; [done|].
  assert (d ∈ filter isDraft (mp_revisions m)) as [? ?]%list_elem_of_filter by (rewrite E; by left). by split_and!.
Qed.

Lemma filter_map_draft (f : Revision -> Revision) l :
  (forall r, isDraft (f r) <-> isDraft r) -> filter isDraft (map f l) = map f (filter isDraft l).
Proof.
  intros Hf. induction l as [|r l IH]; [done|]. cbn [map]. rewrite !filter_cons, IH. specialize (Hf r). do 2 case_decide; tauto.
Qed.

Lemma SaveDraft_ok m def : revisions_ok m -> revisions_ok (SaveDraft m def).1.
Proof.
  intros Hok. unfold SaveDraft. destruct (Validate Quote def); [done|]. destruct (one_draft m Hok) as (d & -> & Hd & Hdr & Hf & Hall).
  destruct Hok as (Hnd & _ & Hpub). cbn [fst]. set (f r := if decide (isDraft r /\ rv_rev r = rv_rev d) then _ else r).
  assert (forall r, rv_rev (f r) = rv_rev r /\ rv_state (f r) = rv_state r) as Hfr by (intros r; unfold f; by case_decide).
  unfold revisions_ok. cbn [mp_revisions mp_published set]. split; [|split].
  - rewrite map_map. by rewrite (map_ext _ rv_rev) by apply Hfr.
  - exists (f d). rewrite filter_map_draft by (intros r; unfold isDraft; destruct (Hfr r) as [_ ->]; done). rewrite Hf.
    split; [done|]. apply List.Forall_forall. intros r (r0 & <- & Hr0)%List.in_map_iff. rewrite List.Forall_forall in Hall.
    destruct (Hfr r0) as [-> _], (Hfr d) as [-> _]. by apply Hall.
  - destruct Hpub as [?|(r & Hr & E & Es)]; [by left|]. right. exists (f r). destruct (Hfr r) as [-> ->].
    split; [|done]. by apply (list_elem_of_fmap_2 f).
Qed.

Lemma NoDup_last_rev revs rev : Forall (fun r => 1 <= rv_rev r <= rev) revs -> rev + 1 ∉ map rv_rev revs.
Proof. intros Hall (r & E & Hr)%list_elem_of_fmap. rewrite List.Forall_forall in Hall. apply list_elem_of_In, Hall in Hr. lia. Qed.

(** Publishing either reports an end that does not resolve and changes
    nothing, or does all of it. *)
Lemma Publish_cases m ifs : revisions_ok m ->
  exists d, loadDraft m = inl d /\
  match resolveLinks ifs (linkBindings m) (d_Links (rv_definition d)) with
  | inr e => Publish m ifs = (m, inr e)
  | inl (ls, bs) =>
      let def := (rv_definition d) <| d_Links := ls |> in
      exists m', Publish m ifs = (m', inl (rv_rev d)) /\ revisions_ok m' /\ mp_links m' = byLink bs /\
        mp_published m' = rv_rev d /\ mp_published m < mp_published m' /\
        loadDraft m' = inl (mkRevision (rv_rev d + 1) "draft" def) /\
        Load m' "published" = inl (mkRevision (rv_rev d) "published" def)
  end.
Proof.
  intros Hok. destruct (one_draft m Hok) as (d & E & Hd & Hdr & Hf & Hall). exists d.
  unfold Publish, loadDraft. rewrite E. split; [done|]. destruct (resolveLinks _ _ _) as [[ls bs]|e]; [|done].
  cbv zeta. rewrite decide_False by (by apply NoDup_last_rev). set (def := _ <| d_Links := ls |>).
  set (f r := if decide (rv_rev r = rv_rev d) then mkRevision (rv_rev d) "published" def else r).
  eexists. split; [reflexivity|]. destruct Hok as (Hnd & _ & Hpub).
  assert (forall r, rv_rev (f r) = rv_rev r) as Hfr by (intros r; unfold f; by case_decide).
  assert (forall r, r ∈ mp_revisions m -> rv_rev r = rv_rev d -> r = d) as Hinj.
  { intros r [i Hi]%list_elem_of_lookup Er. apply list_elem_of_lookup in Hd as [j Hj]. assert (i = j) as ->; [|congruence].
    eapply (NoDup_lookup (rv_rev <$> mp_revisions m)); [exact Hnd | by rewrite list_lookup_fmap, Hi |].
    rewrite list_lookup_fmap, Hj. simpl. by rewrite Er. }
  assert (filter isDraft (map f (mp_revisions m)) = []) as Hnone.
  { apply list_filter_none. intros r (r0 & -> & Hr0)%list_elem_of_fmap Hdraft. unfold f in Hdraft. case_decide as Er; [done|].
    assert (r0 ∈ filter isDraft (mp_revisions m)) as Hin by (by apply list_elem_of_filter). rewrite Hf in Hin.
    by apply list_elem_of_singleton in Hin as ->. }
  assert (newestDraft (map f (mp_revisions m) ++ [mkRevision (rv_rev d + 1) "draft" def]) = Some (mkRevision (rv_rev d + 1) "draft" def)) as Hnew
    by (unfold newestDraft; by rewrite filter_app, Hnone).
  cbn [mp_revisions mp_published mp_links]. split_and!; try done.
  - unfold revisions_ok. cbn [mp_revisions mp_published]. split; [|split].
    + rewrite map_app, map_map, (map_ext _ rv_rev) by done. apply NoDup_app. split; [done|]. split; [|apply NoDup_singleton].
      intros x Hx ->%list_elem_of_singleton. by apply (NoDup_last_rev _ _ Hall).
    + eexists. rewrite filter_app, Hnone. split; [reflexivity|]. cbn [rv_rev]. apply List.Forall_app. rewrite List.Forall_forall in Hall. split.
      * apply List.Forall_forall. intros r (r0 & <- & Hr0)%List.in_map_iff. rewrite Hfr. apply Hall in Hr0. lia.
      * repeat constructor; [|simpl; lia]. apply list_elem_of_In, Hall in Hd. simpl. lia.
    + right. exists (f d). rewrite Hfr. split; [apply elem_of_app; left; by apply (list_elem_of_fmap_2 f)|]. split; [done|].
      unfold f. by rewrite decide_True.
  - rewrite List.Forall_forall in Hall. destruct Hpub as [->|(r & Hr & <- & Es)].
    + apply list_elem_of_In, Hall in Hd. lia.
    + pose proof (Hall r (proj1 (list_elem_of_In _ _) Hr)). assert (rv_rev r <> rv_rev d); [|lia].
      intros Er. apply Hinj in Er; [|done]. subst r. unfold isDraft in Hdr. congruence.
  - by rewrite Hnew.
  - unfold Load. rewrite decide_False by done. cbn [mp_published mp_revisions].
    destruct (list_find _ _) as [[i r]|] eqn:Ef.
    + apply list_find_Some in Ef as (Hi & Er & _). f_equal. apply list_elem_of_lookup_2, elem_of_app in Hi as [Hi|Hi].
      * apply list_elem_of_fmap in Hi as (r0 & -> & Hr0). rewrite Hfr in Er. apply Hinj in Er; [|done]. subst r0. unfold f. by rewrite decide_True.
      * apply list_elem_of_singleton in Hi. subst r. simpl in Er. lia.
    + exfalso. apply list_find_None in Ef. rewrite List.Forall_forall in Ef. apply (Ef (f d)); [|by rewrite Hfr].
      apply List.in_or_app. left. apply List.in_map. by apply list_elem_of_In.
Qed.

Lemma resolveEnd_refuses ifs prior key side ep e : resolveEnd ifs prior key side ep = inr e -> kindOf (Some e) = KindInvalid.
Proof.
  unfold resolveEnd. intros E. assert (exists msg, e = New KindInvalid msg) as [msg ->]; [|done].
  revert E. case_decide; destruct (list_find _ ifs) as [[? ?]|]; try done; try (intros [= <-]; by eexists).
  destruct (list_find _ ifs) as [[? ?]|]; [done|]. intros [= <-]. by eexists.
Qed.

Lemma resolveLinks_refuses ifs prior ls e : resolveLinks ifs prior ls = inr e -> kindOf (Some e) = KindInvalid.
Proof.
  induction ls as [|l ls IH]; cbn [resolveLinks]; [done|]. unfold resolveLink, resolveSide.
  destruct (l_AEndpoint l) as [epa|]; [destruct (resolveEnd ifs prior (l_ID l) "a" epa) as [[? ?]|e1] eqn:E1; [|intros [= <-]; by eapply resolveEnd_refuses]|];
  (destruct (l_BEndpoint l) as [epb|]; [destruct (resolveEnd ifs prior (l_ID l) "b" epb) as [[? ?]|e2] eqn:E2; [|intros [= <-]; by eapply resolveEnd_refuses]|]);
  (destruct (resolveLinks ifs prior ls) as [[? ?]|e3]; [done|intros [= <-]; by apply IH]).
Qed.

Lemma run_ok os : forall m, revisions_ok m -> revisions_ok (run m os).
Proof.
  induction os as [|o os IH]; intros m Hok; [done|]. apply IH. destruct o as [def|ifs]; cbn [step]; [by apply SaveDraft_ok|].
  destruct (Publish_cases m ifs Hok) as (d & _ & Hc). destruct (resolveLinks _ _ _) as [[ls bs]|e]; [|by rewrite Hc].
  destruct Hc as (m' & -> & ? & _). done.
Qed.

(** Whatever is saved and published, a map has one draft, newer than all that
    was published, so that publishing never finds a number taken: it refuses a
    link that does not resolve and changes nothing, or publishes the draft
    under a number above every one before, shows it, and opens the next draft
    as a copy. *)
Theorem map_life name os ifs :
  let m := run (Create name) os in
  revisions_ok m /\
  match Publish m ifs with
  | (m', inr e) => m' = m /\ kindOf (Some e) = KindInvalid
  | (m', inl rev) =>
      exists def, mp_published m < rev /\ mp_published m' = rev /\ revisions_ok m' /\
        (exists d, loadDraft m = inl d /\ rv_rev d = rev /\ d_Nodes def = d_Nodes (rv_definition d)) /\
        Load m' "published" = inl (mkRevision rev "published" def) /\
        loadDraft m' = inl (mkRevision (rev + 1) "draft" def)
  end.
Proof.
  cbv zeta. pose proof (run_ok os _ (Create_ok name)) as Hok. split; [done|].
  destruct (Publish_cases _ ifs Hok) as (d & Hd & Hc). destruct (resolveLinks _ _ _) as [[ls bs]|e] eqn:Er.
  - destruct Hc as (m' & -> & ? & _ & Ep & ? & ? & ?). exists ((rv_definition d) <| d_Links := ls |>).
    split; [by rewrite <- Ep|]. split; [done|]. split; [done|]. split; [by exists d|]. done.
  - rewrite Hc. split; [done|]. by eapply resolveLinks_refuses.
Qed.

(** * Publishing again after interfaces were renumbered *)

Definition lookupSide (links : gmap string (string * string)) (key side : string) : string :=
  match links !! key with Some (a, b) => if decide (side = "a") then a else b | None => "" end.

(** An end stands for a live interface, and that is what it is bound to. *)
Definition endBound (ifs : list IfaceRow) (key side : string) (ep : option Endpoint) (bs : list binding) : Prop :=
  match ep with
  | None => bs = []
  | Some ep => exists i, i ∈ ifs /\ live i /\ if_device i = ep_DeviceID ep /\ if_index i = ep_IfIndex ep /\
                 bs = [mkBinding key (if_id i) side]
  end.
Definition linkBound (ifs : list IfaceRow) (l : Link) (bs : list binding) : Prop :=
  exists ba bb, bs = ba ++ bb /\ endBound ifs (l_ID l) "a" (l_AEndpoint l) ba /\ endBound ifs (l_ID l) "b" (l_BEndpoint l) bb.

Lemma resolveSide_bound ifs prior key side ep ep' bs :
  resolveSide ifs prior key side ep = inl (ep', bs) -> endBound ifs key side ep' bs.
Proof.
  unfold resolveSide. destruct ep as [ep|]; [|by intros [= <- <-]].
  destruct (resolveEnd ifs prior key side ep) as [[ep1 b]|] eqn:E; [|done]. intros [= <- <-]. revert E. unfold resolveEnd.
  assert (match list_find (fun i => if_device i = ep_DeviceID ep /\ if_index i = ep_IfIndex ep /\ live i) ifs with
          | Some (_, i) => inl (ep, mkBinding key (if_id i) side)
          | None => inr (New KindInvalid ("link " +:+ key +:+ ": " +:+ side +:+ " endpoint (device " +:+ ep_DeviceID ep +:+
                                    " if " +:+ Itoa (ep_IfIndex ep) +:+ ") does not resolve"))
          end = inl (ep1, b) -> endBound ifs key side (Some ep1) [b]) as Hidx.
  { destruct (list_find _ ifs) as [[n i]|] eqn:Ef; [|done]. intros [= <- <-].
    apply list_find_Some in Ef as (Hi & (E1 & E2 & E3) & _). exists i. split; [by eapply list_elem_of_lookup_2|]. by split_and!. }
  case_decide; [done|]. destruct (list_find (fun i => if_id i = _ /\ _) ifs) as [[n i]|] eqn:Ef; [|done]. intros [= <- <-].
  apply list_find_Some in Ef as (Hi & [E1 E2] & _). exists i. split; [by eapply list_elem_of_lookup_2|]. split_and!; try done. by rewrite E1.
Qed.

Lemma resolveLinks_bound ifs prior ls : forall ls' bs,
  resolveLinks ifs prior ls = inl (ls', bs) ->
  map l_ID ls' = map l_ID ls /\ exists bss, bs = concat bss /\ Forall2 (linkBound ifs) ls' bss.
Proof.
  induction ls as [|l ls IH]; intros ls' bs; cbn [resolveLinks].
  { intros [= <- <-]. split; [done|]. exists []. by split; [|constructor]. }
  unfold resolveLink. destruct (resolveSide ifs prior (l_ID l) "a" (l_AEndpoint l)) as [[a ba]|] eqn:Ea; [|done].
  destruct (resolveSide ifs prior (l_ID l) "b" (l_BEndpoint l)) as [[b bb]|] eqn:Eb; [|done].
  destruct (resolveLinks ifs prior ls) as [[ls1 bs1]|]; [|done]. intros [= <- <-].
  destruct (IH _ _ eq_refl) as (E & bss & -> & Hall). cbn [map]. split; [by rewrite E|]. exists ((ba ++ bb) :: bss).
  split; [done|]. constructor; [|done]. exists ba, bb. split; [done|]. by split; eapply resolveSide_bound.
Qed.

Lemma lookup_addBinding links b key side :
  lookupSide (addBinding links b) key side =
  if decide (b_linkKey b = key /\ bool_decide (b_side b = "a") = bool_decide (side = "a")) then b_ifID b else lookupSide links key side.
Proof.
  unfold addBinding, lookupSide. destruct (default ("", "") (links !! b_linkKey b)) as [a_ b_] eqn:Ed. rewrite lookup_insert.
  destruct (decide (b_linkKey b = key)) as [<-|Hn]; [|by rewrite decide_False by tauto].
  assert (forall x, match links !! b_linkKey b with Some (a, b) => if decide (x = "a") then a else b | None => "" end =
    (if decide (x = "a") then a_ else b_)) as Hl.
  { intros x. destruct (links !! b_linkKey b) as [[? ?]|]; simpl in Ed; injection Ed as <- <-; [done|]. by case_decide. }
  rewrite Hl. destruct (decide (b_side b = "a")) as [E1|E1], (decide (side = "a")) as [E2|E2];
    rewrite ?(bool_decide_eq_true_2 _ E1), ?(bool_decide_eq_false_2 _ E1), ?(bool_decide_eq_true_2 _ E2), ?(bool_decide_eq_false_2 _ E2);
    first [by rewrite decide_True | by rewrite decide_False by (intros [_ ?]; done)].
Qed.

Definition bindingKey (b : binding) : string * bool := (b_linkKey b, bool_decide (b_side b = "a")).

Lemma lookup_byLink bs b : NoDup (map bindingKey bs) -> b ∈ bs -> lookupSide (byLink bs) (b_linkKey b) (b_side b) = b_ifID b.
Proof.
  unfold byLink. induction bs as [|c bs IH] using rev_ind; intros Hnd; [by intros ?%elem_of_nil|].
  rewrite map_app in Hnd. apply NoDup_app in Hnd as (Hnd & Hd & _). rewrite foldl_snoc, lookup_addBinding.
  intros [Hb| ->%list_elem_of_singleton]%elem_of_app; [|by rewrite decide_True].
  rewrite decide_False; [by apply IH|]. intros [E1 E2]. apply (Hd (bindingKey b)); [by apply (list_elem_of_fmap_2 bindingKey)|].
  apply list_elem_of_singleton. unfold bindingKey. by rewrite E1, E2.
Qed.

Lemma linkBound_keys ifs l bs b : linkBound ifs l bs -> b ∈ bs -> b_linkKey b = l_ID l /\ exists i, i ∈ ifs /\ live i /\ if_id i = b_ifID b.
Proof.
  intros (ba & bb & -> & Ha & Hb) [Hin|Hin]%elem_of_app.
  - destruct (l_AEndpoint l); [destruct Ha as (i & ? & ? & _ & _ & ->)|simpl in Ha; subst ba; by apply elem_of_nil in Hin].
    apply list_elem_of_singleton in Hin as ->. split; [done|]. by exists i.
  - destruct (l_BEndpoint l); [destruct Hb as (i & ? & ? & _ & _ & ->)|simpl in Hb; subst bb; by apply elem_of_nil in Hin].
    apply list_elem_of_singleton in Hin as ->. split; [done|]. by exists i.
Qed.

Lemma linkBound_NoDup ifs l bs : linkBound ifs l bs -> NoDup (map bindingKey bs).
Proof.
  intros (ba & bb & -> & Ha & Hb). destruct (l_AEndpoint l); [destruct Ha as (i & _ & _ & _ & _ & ->)|simpl in Ha; subst ba];
    (destruct (l_BEndpoint l); [destruct Hb as (j & _ & _ & _ & _ & ->)|simpl in Hb; subst bb]); simpl; try apply NoDup_singleton; try apply NoDup_nil; try done.
  apply NoDup_cons. split; [|apply NoDup_singleton]. by intros [=]%list_elem_of_singleton.
Qed.

Lemma bound_keys_NoDup ifs ls bss :
  Forall2 (linkBound ifs) ls bss -> NoDup (map l_ID ls) -> NoDup (map bindingKey (concat bss)).
Proof.
  induction 1 as [|l bs ls bss Hl Hall IH]; intros Hnd; [apply NoDup_nil_2|]. cbn [map concat] in *.
  apply NoDup_cons in Hnd as [Hn Hnd]. rewrite map_app. apply NoDup_app. split; [by eapply linkBound_NoDup|]. split; [|by apply IH].
  intros k (b & -> & Hb)%list_elem_of_fmap (c & Ek & Hc)%list_elem_of_fmap. apply Hn.
  destruct (linkBound_keys _ _ _ _ Hl Hb) as [E _]. injection Ek as Ek _. rewrite <- E, Ek. clear -Hall Hc.
  induction Hall as [|l' bs' ls bss Hl Hall IH]; [by apply elem_of_nil in Hc|]. cbn [map concat] in *.
  apply elem_of_app in Hc as [Hc|Hc]; [destruct (linkBound_keys _ _ _ _ Hl Hc) as [-> _]; by left | right; by apply IH].
Qed.

(** [ifs'] is the table later: every live interface is still live, wherever
    it is now. *)
Definition later (ifs ifs' : list IfaceRow) : Prop :=
  forall i, i ∈ ifs -> live i -> exists i', i' ∈ ifs' /\ live i' /\ if_id i' = if_id i.

Lemma resolveSide_again ifs ifs' prior key side ep bs :
  later ifs ifs' -> endBound ifs key side ep bs ->
  (forall b, b ∈ bs -> prior (b_linkKey b) (b_side b) = b_ifID b /\ b_ifID b <> "") ->
  exists ep', resolveSide ifs' prior key side ep = inl (ep', bs) /\ endBound ifs' key side ep' bs.
Proof.
  intros Hl Hb Hp. unfold resolveSide. destruct ep as [ep|]; [|exists None; simpl in Hb; by subst bs].
  destruct Hb as (i & Hi & Hlive & _ & _ & ->). destruct (Hp (mkBinding key (if_id i) side)) as [Ep Hne]; [by left|]. simpl in Ep, Hne.
  unfold resolveEnd. rewrite Ep, decide_False by done. destruct (list_find (fun i0 => if_id i0 = if_id i /\ live i0) ifs') as [[n i']|] eqn:Ef.
  - apply list_find_Some in Ef as (Hi' & [E1 E2] & _). eexists. split; [reflexivity|]. exists i'.
    split; [by eapply list_elem_of_lookup_2|]. split_and!; try done. by rewrite E1.
  - exfalso. destruct (Hl i Hi Hlive) as (i' & Hi' & Hlive' & E). apply list_find_None in Ef. rewrite List.Forall_forall in Ef.
    apply (Ef i'); [by apply list_elem_of_In|done].
Qed.

Lemma resolveLinks_again ifs ifs' prior ls bss :
  later ifs ifs' -> Forall2 (linkBound ifs) ls bss ->
  (forall b, b ∈ concat bss -> prior (b_linkKey b) (b_side b) = b_ifID b /\ b_ifID b <> "") ->
  exists ls', resolveLinks ifs' prior ls = inl (ls', concat bss) /\ Forall2 (linkBound ifs') ls' bss.
Proof.
  intros Hl. induction 1 as [|l bs ls bss (ba & bb & -> & Ha & Hb) Hall IH]; intros Hp; cbn [resolveLinks concat] in *; [by exists []|].
  assert (forall b, b ∈ ba ++ bb -> prior (b_linkKey b) (b_side b) = b_ifID b /\ b_ifID b <> "") as Hp1
    by (intros b ?; apply Hp, elem_of_app; by left).
  destruct (resolveSide_again ifs ifs' prior _ _ _ _ Hl Ha) as (a' & Ea & Ha'); [intros b ?; apply Hp1, elem_of_app; by left|].
  destruct (resolveSide_again ifs ifs' prior _ _ _ _ Hl Hb) as (b' & Eb & Hb'); [intros b ?; apply Hp1, elem_of_app; by right|].
  destruct IH as (ls' & E & Hall'); [intros b ?; apply Hp, elem_of_app; by right|].
  unfold resolveLink. rewrite Ea, Eb, E. eexists. split; [reflexivity|]. constructor; [|done]. by exists ba, bb.
Qed.

Lemma linkBindings_lookup m : linkBindings m = lookupSide (mp_links m).
Proof. done. Qed.

(** C20. A map that was published, every link with a key of its own, can be
    published again as it is whatever interfaces were renumbered or moved
    since, as long as they are not removed: each end stays bound to the same
    interface, and the document is brought to where that interface is now. *)
Theorem republish_follows m ifs m1 rev ifs' :
  revisions_ok m -> Publish m ifs = (m1, inl rev) ->
  (forall d, loadDraft m = inl d -> NoDup (map l_ID (d_Links (rv_definition d)))) ->
  (forall i, i ∈ ifs -> live i -> if_id i <> "") -> later ifs ifs' ->
  exists m2 def, Publish m1 ifs' = (m2, inl (rev + 1)) /\ mp_links m2 = mp_links m1 /\
    Load m2 "published" = inl (mkRevision (rev + 1) "published" def) /\
    forall l side ep, l ∈ d_Links def -> (side = "a" /\ l_AEndpoint l = Some ep) \/ (side = "b" /\ l_BEndpoint l = Some ep) ->
      exists i, i ∈ ifs' /\ live i /\ ep = mkEndpoint (if_device i) (if_index i) /\ linkBindings m1 (l_ID l) side = if_id i.
Proof.
  intros Hok Epub Hkeys Hids Hlater. destruct (Publish_cases m ifs Hok) as (d & Hd & Hc). specialize (Hkeys d Hd).
  destruct (resolveLinks ifs _ _) as [[ls bs]|e] eqn:Er; [|congruence].
  destruct Hc as (m' & Em & Hok1 & El & Ep & _ & Hd1 & _). rewrite Em in Epub. injection Epub as -> <-.
  destruct (resolveLinks_bound _ _ _ _ _ Er) as (Ek & bss & -> & Hall). rewrite <- Ek in Hkeys.
  pose proof (bound_keys_NoDup _ _ _ Hall Hkeys) as Hnd.
  assert (forall b, b ∈ concat bss -> linkBindings m1 (b_linkKey b) (b_side b) = b_ifID b /\ b_ifID b <> "") as Hprior.
  { intros b Hb. rewrite linkBindings_lookup, El. split; [by apply lookup_byLink|].
    apply list_elem_of_In, List.in_concat in Hb as (bs & Hbs%list_elem_of_In & Hb%list_elem_of_In).
    apply list_elem_of_lookup in Hbs as [n Hn]. destruct (Forall2_lookup_r _ _ _ _ _ Hall Hn) as (l & _ & Hl).
    destruct (linkBound_keys _ _ _ _ Hl Hb) as (_ & i & Hi & Hlive & <-). by apply Hids. }
  destruct (resolveLinks_again _ _ _ _ _ Hlater Hall Hprior) as (ls2 & Er2 & Hall2).
  destruct (Publish_cases m1 ifs' Hok1) as (d1 & Hd1' & Hc2). rewrite Hd1 in Hd1'. injection Hd1' as <-. cbn [rv_definition rv_rev d_Links set] in Hc2.
  rewrite Er2 in Hc2. cbv zeta in Hc2.
  destruct Hc2 as (m2 & E2 & _ & El2 & _ & _ & _ & Hload). exists m2. eexists. split; [exact E2|]. split; [by rewrite El2, El|].
  split; [exact Hload|]. intros l side ep Hl Hside. simpl in Hl. apply list_elem_of_lookup in Hl as [n Hn].
  destruct (Forall2_lookup_l _ _ _ _ _ Hall2 Hn) as (bs & Hbs & ba & bb & -> & Ha & Hb).
  assert (forall b, b ∈ ba ++ bb -> linkBindings m1 (b_linkKey b) (b_side b) = b_ifID b) as Hp.
  { intros b Hin. apply Hprior. apply list_elem_of_In, List.in_concat. exists (ba ++ bb). split; apply list_elem_of_In; [by eapply list_elem_of_lookup_2|done]. }
  destruct Hside as [[-> Eep]|[-> Eep]]; [rewrite Eep in Ha; destruct Ha as (i & Hi & Hlive & E1 & E3 & ->)|
    rewrite Eep in Hb; destruct Hb as (i & Hi & Hlive & E1 & E3 & ->)]; exists i; (split; [done|]); (split; [done|]);
    (split; [destruct ep; simpl in *; by rewrite E1, E3|]).
  - apply (Hp (mkBinding (l_ID l) (if_id i) "a")), elem_of_app. left. by left.
  - apply (Hp (mkBinding (l_ID l) (if_id i) "b")), elem_of_app. right. by left.
Qed.
End store.

(** ** A worked map *)

Definition demoDoc (keys : list (string * Z)) : MapDef :=
  mkMapDef mapSchema "m"
    [mkNode "n1" "device" "d1" "" "" "a" 0 0; mkNode "n2" "cloud" "" "" "" "isp" 0 0]
    (map (fun '(k, idx) => mkLink k "n1" "n2" "" "" (Some (mkEndpoint "d1" idx)) None 0) keys).
Definition demoMap (keys : list (string * Z)) : MapRows := run (fun s => s) (Create "m") [OpSave (demoDoc keys)].
Definition demoIfs : list IfaceRow := [mkIfaceRow "if1" "d1" 1 "present"; mkIfaceRow "if2" "d1" 2 "present"].
(** The two interfaces have changed places. *)
Definition demoSwapped : list IfaceRow := [mkIfaceRow "if1" "d1" 2 "present"; mkIfaceRow "if2" "d1" 1 "present"].

Lemma republish_follows_witness :
  let m1 := (Publish (demoMap [("l1", 1); ("l2", 2)]) demoIfs).1 in
  exists m2 def, Publish m1 demoSwapped = (m2, inl 2) /\ mp_links m2 = mp_links m1 /\
    Load m2 "published" = inl (mkRevision 2 "published" def) /\
    map l_AEndpoint (d_Links def) = [Some (mkEndpoint "d1" 2); Some (mkEndpoint "d1" 1)].
Proof.
  cbv zeta. destruct (republish_follows (fun s => s) (demoMap [("l1", 1); ("l2", 2)]) demoIfs
    (Publish (demoMap [("l1", 1); ("l2", 2)]) demoIfs).1 1 demoSwapped) as (m2 & def & E1 & E2 & E3 & _).
  - apply run_ok, (Create_ok "m").
  - by vm_compute.
  - intros d. vm_compute. intros [= <-]. by apply (bool_decide_unpack _); vm_compute.
  - intros i [->|[->|[]%elem_of_nil]%elem_of_cons]%elem_of_cons _; done.
  - intros i [->|[->|[]%elem_of_nil]%elem_of_cons]%elem_of_cons _;
      [exists (mkIfaceRow "if1" "d1" 2 "present")|exists (mkIfaceRow "if2" "d1" 1 "present")]; unfold demoSwapped; split_and!; try done; set_solver.
  - exists m2, def. split; [exact E1|]. split; [exact E2|]. split; [exact E3|].
    vm_compute in E1. injection E1 as <-. vm_compute in E3. by injection E3 as <-.
Defined.

(** Two links with one key are accepted and share one binding: publishing
    again, with no interface renumbered, moves the first to the interface of
    the second. *)
Example duplicate_links_rewired :
  let m1 := (Publish (demoMap [("l1", 1); ("l1", 2)]) demoIfs).1 in
  let m2 := (Publish m1 demoIfs).1 in
  let ends m := match Load m "published" with inl r => map l_AEndpoint (d_Links (rv_definition r)) | inr _ => [] end in
  Validate (fun s => s) (demoDoc [("l1", 1); ("l1", 2)]) = None /\
  ends m1 = [Some (mkEndpoint "d1" 1); Some (mkEndpoint "d1" 2)] /\
  ends m2 = [Some (mkEndpoint "d1" 2); Some (mkEndpoint "d1" 2)].
Proof. by vm_compute. Qed.

(** An index names a present interface and one that is missing: which one a
    new link is bound to depends on the order of the rows. *)
Example missing_interface_bound :
  let ifs := [mkIfaceRow "gone" "d1" 1 "missing"; mkIfaceRow "here" "d1" 1 "present"] in
  mp_links (Publish (demoMap [("l1", 1)]) ifs).1 !! "l1" = Some ("gone", "") /\
  mp_links (Publish (demoMap [("l1", 1)]) (reverse ifs)).1 !! "l1" = Some ("here", "").
Proof. by vm_compute. Qed.
