(* ===== verification/Buffer.v ===== *)
(** Package collection/pollerrt (buffer.go): the bounded overflow store for
    batches while the link is down.

    The directory is a map from names to contents. The JSON codec is the
    library's: [Marshal] refuses what has no JSON form.

    [Put] holds the mutex throughout and is one step. [Drain] is called from
    one loop and takes the mutex only to look at the directory: it reads the
    oldest file, sends the batch and removes the file without it, so a [Put],
    which may drop that very file, comes between any two of these. [drainStep]
    is one of them, [Drain] a run that nothing comes between. A step of it that
    falls inside a [Put] reads or removes one file and has the effect it has
    before or after that [Put]. *)
From Stdlib Require Import ZArith Lia.
From stdpp Require Import base list gmap strings pretty numbers sorting.
From S2P Require Import Prelude GoText GoSort Errx Wire.

(** Between 2001 and 2286 a time in nanoseconds has nineteen digits. *)
Definition nineteen (t : Time) : Prop := 10 ^ 18 <= t < 10 ^ 19.

Definition batchName (now : Time) : string := Itoa now +:+ ".batch".

Lemma batchName_lt a b : nineteen a -> nineteen b -> a < b -> str_lt (batchName a) (batchName b) = true.
Proof. unfold nineteen. intros [Ha _] [_ Hb] Hab. by apply (Itoa_lt 18). Qed.

Record DiskBuffer : Type := mkDiskBuffer { b_files : gmap string bytes; b_MaxBytes : Z; b_dropped : Z }.
#[export] Instance eta_DiskBuffer : Eta DiskBuffer := fun b => mkDiskBuffer (b_files b) (b_MaxBytes b) (b_dropped b).

Definition NewDiskBuffer (files : gmap string bytes) : DiskBuffer := mkDiskBuffer files (Z.shiftl 64 20) 0.

(** [filepath.Ext(name) == ".batch"]: no dot follows that one. *)
Definition HasSuffix (s p : string) : bool :=
  bool_decide (drop (length (to_bytes s) - length (to_bytes p)) (to_bytes s) = to_bytes p).
Definition batchExt (f : string * bytes) : bool := HasSuffix f.1 ".batch".

Definition nameLe (f g : string * bytes) : Prop := str_le f.1 g.1.
#[export] Instance nameLe_dec f g : Decision (nameLe f g).
Proof. unfold nameLe. apply _. Defined.
#[export] Instance nameLe_trans : Transitive nameLe.
Proof. intros f g h. unfold nameLe. apply str_le_trans. Qed.
#[export] Instance nameLe_total : Total nameLe.
Proof. intros f g. unfold nameLe. apply str_le_total. Qed.

Definition sizeOf (files : list (string * bytes)) : Z := foldr (fun f n => len f.2 + n) 0 files.

(** The files oldest first; [sizeOf] is the total that goes with them. *)
Definition inventory (b : DiskBuffer) : list (string * bytes) :=
  merge_sort nameLe (filter (fun f => batchExt f = true) (map_to_list (b_files b))).

Definition Depth (b : DiskBuffer) : Z * Z := (len (inventory b), sizeOf (inventory b)).

Fixpoint enforceLoop (files : list (string * bytes)) (total : Z) (b : DiskBuffer) : DiskBuffer :=
  match files with
  | [] => b
  | f :: files =>
      if total <=? b_MaxBytes b then b
      else enforceLoop files (total - len f.2) (b <| b_files := delete f.1 (b_files b) |> <| b_dropped := b_dropped b + 1 |>)
  end.
Definition enforceCap (b : DiskBuffer) : DiskBuffer := enforceLoop (inventory b) (sizeOf (inventory b)) b.

Section buffer.
Context (Marshal : MetricBatch -> option bytes) (Unmarshal : bytes -> option MetricBatch).

(** What writing a file comes to: done, or failed with a part of it left
    behind or not. *)
Inductive writing : Type := Written | WriteFailed (left_ : option bytes).

(** [Put] at a moment; whether there was no error. *)
Definition Put (b : DiskBuffer) (now : Time) (disk : writing) (batch : MetricBatch) : DiskBuffer * bool :=
  match Marshal batch with
  | None => (b, false)
  | Some raw =>
      match disk with
      | Written => (enforceCap (b <| b_files := <[batchName now := raw]> (b_files b) |>), true)
      | WriteFailed (Some part) => (b <| b_files := <[batchName now := part]> (b_files b) |>, false)
      | WriteFailed None => (b, false)
      end
  end.

(** The surroundings of one [Drain]: which files can be read and removed,
    whether the context is done at the nth look, whether the nth batch sent is
    accepted. *)
Record surroundings : Type := mkSurroundings {
  readable : string -> bool; removable : string -> bool; cancelled : nat -> bool; accepts : nat -> MetricBatch -> bool
}.

Definition removeFile (env : surroundings) (b : DiskBuffer) (name : string) : DiskBuffer :=
  if removable env name then b <| b_files := delete name (b_files b) |> else b.

Fixpoint drainLoop (fuel : nat) (env : surroundings) (k : nat) (b : DiskBuffer) (sent : list MetricBatch)
    : outcome (DiskBuffer * list MetricBatch) :=
  match fuel with
  | O => OutOfFuel
  | S fuel =>
      if cancelled env (2 * k) then Ret (b, sent) else
      match inventory b with
      | [] => Ret (b, sent)
      | (name, raw) :: _ =>
          if negb (readable env name) then drainLoop fuel env (S k) (removeFile env b name) sent else
          match Unmarshal raw with
          | None => drainLoop fuel env (S k) (removeFile env b name) sent
          | Some batch =>
              if negb (accepts env k batch) then Ret (b, sent) else
              let b := removeFile env b name in
              if cancelled env (2 * k + 1) then Ret (b, sent ++ [batch])
              else drainLoop fuel env (S k) b (sent ++ [batch])
          end
      end
  end.

(** [Drain]: the buffer afterwards and the batches replayed, whose number it
    returns. *)
Definition Drain (fuel : nat) (env : surroundings) (b : DiskBuffer) : outcome (DiskBuffer * list MetricBatch) :=
  drainLoop fuel env 0 b [].

(** ** Draining, step by step *)

(** Where [Drain] is: not called, about to look, with the oldest file named,
    with its batch read, with its batch sent. *)
Inductive draining : Type :=
  | Idle | Looking | Looked (name : string) | Holding (name : string) (batch : MetricBatch) | Replayed (name : string).

(** What a step meets. *)
Record drainMeets : Type := mkDrainMeets { dm_cancelled : bool; dm_readable : bool; dm_removable : bool; dm_accepts : bool }.

Definition removed (e : drainMeets) (b : DiskBuffer) (name : string) : DiskBuffer :=
  if dm_removable e then b <| b_files := delete name (b_files b) |> else b.

Definition drainStep (e : drainMeets) (b : DiskBuffer) (d : draining) : DiskBuffer * draining * list MetricBatch :=
  match d with
  | Idle => (b, Looking, [])
  | Looking =>
      if dm_cancelled e then (b, Idle, []) else
      match inventory b with [] => (b, Idle, []) | f :: _ => (b, Looked f.1, []) end
  | Looked name =>
      match (if dm_readable e then b_files b !! name else None) with
      | None => (removed e b name, Looking, [])
      | Some raw =>
          match Unmarshal raw with
          | None => (removed e b name, Looking, [])
          | Some batch => (b, Holding name batch, [])
          end
      end
  | Holding name batch => if dm_accepts e then (b, Replayed name, [batch]) else (b, Idle, [])
  | Replayed name => (removed e b name, if dm_cancelled e then Idle else Looking, [])
  end.

(** Steps that nothing comes between. *)
Fixpoint drainSteps (es : list drainMeets) (b : DiskBuffer) (d : draining) (sent : list MetricBatch) : DiskBuffer * draining * list MetricBatch :=
  match es with
  | [] => (b, d, sent)
  | e :: es => let '(b, d, more) := drainStep e b d in drainSteps es b d (sent ++ more)
  end.

(** * The inventory *)

Lemma inventory_perm b : inventory b ≡ₚ filter (fun f => batchExt f = true) (map_to_list (b_files b)).
Proof. apply merge_sort_Permutation. Qed.

Lemma NoDup_fst_filter {A B} (P : A * B -> Prop) `{forall x, Decision (P x)} (l : list (A * B)) : NoDup l.*1 -> NoDup (filter P l).*1.
Proof.
  intros Hnd. eapply sublist_NoDup; [exact Hnd|]. apply fmap_sublist, sublist_filter.
Qed.

Lemma inventory_NoDup b : NoDup (inventory b).*1.
Proof. rewrite inventory_perm. apply NoDup_fst_filter, NoDup_fst_map_to_list. Qed.

(** A sorted list of the batch files is the inventory. *)
Lemma inventory_unique b l :
  StronglySorted nameLe l -> l ≡ₚ filter (fun f => batchExt f = true) (map_to_list (b_files b)) -> inventory b = l.
Proof.
  intros Hs Hp. apply (StronglySorted_unique_strong nameLe).
  - intros f g Hf Hg. unfold nameLe. intros H1 H2. pose proof (str_le_antisym _ _ H1 H2) as E.
    rewrite inventory_perm in Hf. rewrite Hp in Hg. apply list_elem_of_filter in Hf as [_ Hf], Hg as [_ Hg].
    destruct f as [n r], g as [n' r']. simpl in E. subst n'. apply elem_of_map_to_list in Hf, Hg. congruence.
  - apply StronglySorted_merge_sort; apply _.
  - done.
  - by rewrite inventory_perm, Hp.
Qed.

Lemma inventory_delete b f F : inventory b = f :: F -> inventory (b <| b_files := delete f.1 (b_files b) |>) = F.
Proof.
  intros E. pose proof (inventory_perm b) as Hp. rewrite E in Hp.
  assert (StronglySorted nameLe (f :: F)) as Hs by (rewrite <- E; apply StronglySorted_merge_sort; apply _).
  apply inventory_unique; [by inversion Hs|]. simpl.
  assert (f ∈ filter (fun f => batchExt f = true) (map_to_list (b_files b))) as [Hext Hin]%list_elem_of_filter by (rewrite <- Hp; by left).
  destruct f as [n r]. apply elem_of_map_to_list in Hin. rewrite <- (map_to_list_delete _ n r) in Hp by done.
  rewrite filter_cons, decide_True in Hp by done. by apply Permutation_cons_inv in Hp.
Qed.

Lemma batchExt_name now raw : batchExt (batchName now, raw) = true.
Proof.
  unfold batchExt, HasSuffix, batchName. cbn [fst]. apply bool_decide_eq_true. rewrite to_bytes_app, length_app.
  by rewrite Nat.add_sub, drop_app_length.
Qed.

Lemma inventory_insert b now raw :
  (forall f, f ∈ inventory b -> str_lt f.1 (batchName now) = true) -> b_files b !! batchName now = None ->
  inventory (b <| b_files := <[batchName now := raw]> (b_files b) |>) = inventory b ++ [(batchName now, raw)].
Proof.
  intros Hlt Hnew. apply inventory_unique.
  - assert (StronglySorted nameLe (inventory b)) as Hs by (apply StronglySorted_merge_sort; apply _).
    induction Hs as [|f l Hs IH Hall]; simpl; [by repeat constructor|]. constructor; [apply IH; intros g ?; apply Hlt; by right|].
    apply List.Forall_app. split; [done|]. repeat constructor. unfold nameLe, str_le. simpl. apply str_lt_asym, Hlt. by left.
  - simpl. rewrite map_to_list_insert by done. rewrite filter_cons, decide_True, inventory_perm; [by rewrite Permutation_app_comm|]. apply batchExt_name.
Qed.

(** ** The cap *)

(** What is left of the files when the oldest are dropped until the rest fits. *)
Fixpoint fitting (cap : Z) (files : list (string * bytes)) : list (string * bytes) :=
  match files with
  | [] => []
  | f :: files' => if sizeOf files <=? cap then files else fitting cap files'
  end.

Lemma enforceLoop_spec files : forall b,
  inventory b = files ->
  let b' := enforceLoop files (sizeOf files) b in
  inventory b' = fitting (b_MaxBytes b) files /\ b_MaxBytes b' = b_MaxBytes b /\
  b_dropped b' = b_dropped b + (len files - len (fitting (b_MaxBytes b) files)).
Proof.
  induction files as [|f files IH]; intros b E; cbn [enforceLoop fitting]; [split_and!; [done|done|simpl; lia]|].
  destruct (sizeOf (f :: files) <=? b_MaxBytes b); [split_and!; [done|done|lia]|].
  replace (sizeOf (f :: files) - len f.2) with (sizeOf files) by (simpl; lia).
  destruct (IH (b <| b_files := delete f.1 (b_files b) |> <| b_dropped := b_dropped b + 1 |>)) as (H1 & H2 & H3).
  { by apply (inventory_delete b) in E. }
  cbv zeta in *. split_and!; [exact H1 | exact H2 |]. rewrite H3, len_cons. simpl. lia.
Qed.

Lemma fitting_suffix cap files :
  exists n, fitting cap files = drop n files /\ (n <= length files)%nat /\
    (fitting cap files = [] \/ sizeOf (fitting cap files) <= cap) /\ (forall k, (k < n)%nat -> cap < sizeOf (drop k files)).
Proof.
  induction files as [|f files IH]; cbn [fitting]; [exists O; split_and!; [done|done|by left|lia]|].
  destruct (sizeOf (f :: files) <=? cap) eqn:Ec; [exists O; split_and!; [done|lia|right; lia|lia]|].
  destruct IH as (n & E & Hn & Hfit & Hmin). exists (S n). split_and!; [done|simpl; lia|done|].
  intros [|k] Hk; [simpl drop; lia|]. apply Hmin. lia.
Qed.

(** A batch is put behind all that is there, and then the oldest files are
    dropped, no more of them than the cap demands, each counted. *)
Lemma Put_spec b now batch raw :
  Marshal batch = Some raw -> 0 <= b_MaxBytes b ->
  (forall f, f ∈ inventory b -> str_lt f.1 (batchName now) = true) -> b_files b !! batchName now = None ->
  exists b' n, Put b now Written batch = (b', true) /\ b_MaxBytes b' = b_MaxBytes b /\
    let files := inventory b ++ [(batchName now, raw)] in
    (n <= length files)%nat /\ inventory b' = drop n files /\ sizeOf (inventory b') <= b_MaxBytes b /\
    (forall k, (k < n)%nat -> b_MaxBytes b < sizeOf (drop k files)) /\ b_dropped b' = b_dropped b + Z.of_nat n.
Proof.
  intros Em Hcap Hlt Hnew. unfold Put. rewrite Em. pose proof (inventory_insert b now raw Hlt Hnew) as Ei.
  set (b1 := b <| b_files := _ |>) in *. unfold enforceCap. rewrite Ei.
  destruct (enforceLoop_spec _ b1 Ei) as (H1 & H2 & H3). cbv zeta in *.
  destruct (fitting_suffix (b_MaxBytes b1) (inventory b ++ [(batchName now, raw)])) as (n & E & Hn & Hfit & Hmin).
  eexists _, n. split; [reflexivity|]. split; [exact H2|]. split; [exact Hn|]. split; [by rewrite H1|]. split.
  { rewrite H1. destruct Hfit as [->|?]; [done|done]. }
  split; [exact Hmin|]. rewrite H3, E. unfold len. rewrite length_drop. simpl b_dropped. lia.
Qed.

(** Putting a batch: it goes behind all that is there, the buffer comes to
    hold no more than its cap, and what it dropped for that are the oldest
    files, none of which it could have kept. *)
Theorem put_drops_oldest b now batch raw :
  Marshal batch = Some raw -> 0 <= b_MaxBytes b ->
  (forall f, f ∈ inventory b -> str_lt f.1 (batchName now) = true) -> b_files b !! batchName now = None ->
  exists b' n, Put b now Written batch = (b', true) /\ b_MaxBytes b' = b_MaxBytes b /\
    let files := inventory b ++ [(batchName now, raw)] in
    (n <= length files)%nat /\ inventory b' = drop n files /\ sizeOf (inventory b') <= b_MaxBytes b /\
    (forall k, (k < n)%nat -> b_MaxBytes b < sizeOf (drop k files)) /\ b_dropped b' = b_dropped b + Z.of_nat n.
Proof. apply Put_spec. Qed.

(** ** Draining *)

(** What a file holds for the replay: nothing if it cannot be read or
    decoded. *)
Definition held (env : surroundings) (f : string * bytes) : option MetricBatch :=
  if readable env f.1 then Unmarshal f.2 else None.

(** Why draining [files] stops with the first [n] of them gone. *)
Definition stopsAfter (env : surroundings) (k n : nat) (files : list (string * bytes)) : Prop :=
  n = length files \/ cancelled env (2 * (k + n)) = true \/
  (exists m, n = S m /\ cancelled env (2 * (k + m) + 1) = true) \/
  (exists f batch, files !! n = Some f /\ held env f = Some batch /\ accepts env (k + n) batch = false).

Lemma removeFile_inventory env b f F :
  (forall name, removable env name = true) -> inventory b = f :: F -> inventory (removeFile env b f.1) = F.
Proof. intros Hr E. unfold removeFile. rewrite Hr. by apply inventory_delete. Qed.

Lemma drainLoop_spec env : (forall name, removable env name = true) ->
  forall files fuel k b sent, (length files < fuel)%nat -> inventory b = files ->
  exists b' n, drainLoop fuel env k b sent = Ret (b', sent ++ omap (held env) (take n files)) /\
    (n <= length files)%nat /\ inventory b' = drop n files /\ stopsAfter env k n files.
Proof.
  intros Hr. induction files as [|[name raw] files IH]; intros [|fuel] k b sent Hf Ei; simpl in Hf; try lia; cbn [drainLoop]; rewrite Ei.
  { exists b, O. split; [destruct (cancelled _ _); simpl; by rewrite app_nil_r|]. split_and!; [lia|done|by left]. }
  destruct (cancelled env (2 * k)) eqn:Ec.
  { exists b, O. split; [simpl; by rewrite app_nil_r|]. split_and!; [lia|done|]. right. left. by rewrite Nat.add_0_r. }
  pose proof (removeFile_inventory env b (name, raw) files Hr Ei) as Ei'. cbn [fst] in Ei'.
  assert (forall sent', held env (name, raw) = None -> sent' = sent ->
    exists b' n, drainLoop fuel env (S k) (removeFile env b name) sent' = Ret (b', sent ++ omap (held env) (take n ((name, raw) :: files))) /\
      (n <= length ((name, raw) :: files))%nat /\ inventory b' = drop n ((name, raw) :: files) /\ stopsAfter env k n ((name, raw) :: files))
    as Hskip.
  { intros sent' Hh ->. destruct (IH fuel (S k) (removeFile env b name) sent ltac:(lia) Ei') as (b' & n & E & Hn & Hd & Hst).
    exists b', (S n). split; [cbn [take]; cbn [omap list_omap]; rewrite Hh; exact E|]. split_and!; [simpl; lia|exact Hd|].
    unfold stopsAfter in *. replace (k + S n)%nat with (S k + n)%nat by lia. cbn [length]. destruct Hst as [->|[?|[(m & -> & ?)|?]]]; auto.
    right. right. left. exists (S m). split; [done|]. by replace (k + S m)%nat with (S k + m)%nat by lia. }
  destruct (readable env name) eqn:Er; cbn [negb]; [|apply Hskip; [unfold held; cbn [fst]; by rewrite Er|done]].
  destruct (Unmarshal raw) as [batch|] eqn:Eu; [|apply Hskip; [unfold held; cbn [fst snd]; by rewrite Er|done]].
  assert (held env (name, raw) = Some batch) as Hh by (unfold held; cbn [fst snd]; by rewrite Er).
  destruct (accepts env k batch) eqn:Ea; cbn [negb].
  2: { exists b, O. split; [simpl; by rewrite app_nil_r|]. split_and!; [lia|done|]. right. right. right. exists (name, raw), batch. by rewrite Nat.add_0_r. }
  destruct (cancelled env (2 * k + 1)) eqn:Ec'.
  { exists (removeFile env b name), 1%nat. split; [cbn [take omap list_omap]; by rewrite Hh|]. split_and!; [simpl; lia|exact Ei'|].
    right. right. left. exists O. by rewrite Nat.add_0_r. }
  destruct (IH fuel (S k) (removeFile env b name) (sent ++ [batch]) ltac:(lia) Ei') as (b' & n & E & Hn & Hd & Hst).
  exists b', (S n). split; [cbn [take]; cbn [omap list_omap]; rewrite Hh, E; by rewrite <- app_assoc|]. split_and!; [simpl; lia|exact Hd|].
  unfold stopsAfter in *. replace (k + S n)%nat with (S k + n)%nat by lia. cbn [length]. destruct Hst as [->|[?|[(m & -> & ?)|?]]]; auto.
  right. right. left. exists (S m). split; [done|]. by replace (k + S m)%nat with (S k + m)%nat by lia.
Qed.

(** Left to itself, draining a directory whose files can be removed comes to
    an end, one look at most for each file. It goes through the files oldest first; what it
    replays are the batches of the files that are gone, in order, those that
    cannot be read or decoded apart; and it stops at the end, at the first
    batch that is not accepted, whose file stays, or when it is cancelled. *)
Theorem drain_fifo env b :
  (forall name, removable env name = true) ->
  exists b' n, Drain (S (length (inventory b))) env b = Ret (b', omap (held env) (take n (inventory b))) /\
    (n <= length (inventory b))%nat /\ inventory b' = drop n (inventory b) /\ stopsAfter env 0 n (inventory b).
Proof. intros Hr. by destruct (drainLoop_spec env Hr (inventory b) (S (length (inventory b))) 0 b []) as (b' & n & ?); [lia|done|exists b', n]. Qed.

(** ** What the operations keep *)

Lemma elem_of_inventory b f : f ∈ inventory b <-> batchExt f = true /\ b_files b !! f.1 = Some f.2.
Proof. rewrite inventory_perm, list_elem_of_filter. destruct f as [n r]. by rewrite elem_of_map_to_list. Qed.

Lemma enforceLoop_keeps fs : forall total b, b_files (enforceLoop fs total b) ⊆ b_files b.
Proof.
  induction fs as [|f fs IH]; intros total b; cbn [enforceLoop]; [done|]. destruct (_ <=? _); [done|].
  etrans; [apply IH|]. apply delete_subseteq.
Qed.

(** Each file that goes is counted. *)
Lemma enforceLoop_counts fs : forall total b,
  b_dropped b <= b_dropped (enforceLoop fs total b) /\
  (forall n raw, b_files b !! n = Some raw -> b_files (enforceLoop fs total b) !! n = None -> b_dropped b < b_dropped (enforceLoop fs total b)).
Proof.
  induction fs as [|f fs IH]; intros total b; cbn [enforceLoop]; [split; [lia|congruence]|]. destruct (_ <=? _); [split; [lia|congruence]|].
  set (b1 := b <| b_files := _ |> <| b_dropped := _ |>). destruct (IH (total - len f.2) b1) as [H _].
  assert (b_dropped b1 = b_dropped b + 1) by done. split; [lia|]. intros n raw _ _. lia.
Qed.

Lemma enforceCap_keeps b : b_files (enforceCap b) ⊆ b_files b.
Proof. apply enforceLoop_keeps. Qed.

Lemma drainLoop_keeps env fuel : forall k b sent b' sent',
  drainLoop fuel env k b sent = Ret (b', sent') ->
  b_files b' ⊆ b_files b /\ b_MaxBytes b' = b_MaxBytes b /\ b_dropped b' = b_dropped b.
Proof.
  assert (forall b name, b_files (removeFile env b name) ⊆ b_files b /\ b_MaxBytes (removeFile env b name) = b_MaxBytes b /\
    b_dropped (removeFile env b name) = b_dropped b) as Hrm.
  { intros b name. unfold removeFile. destruct (removable env name); [|done]. split; [apply delete_subseteq|done]. }
  induction fuel as [|fuel IH]; intros k b sent b' sent'; [done|]. cbn [drainLoop].
  destruct (cancelled env _); [by intros [= <- <-]|]. destruct (inventory b) as [|[name raw] fs]; [by intros [= <- <-]|].
  assert (forall sent0, drainLoop fuel env (S k) (removeFile env b name) sent0 = Ret (b', sent') ->
    b_files b' ⊆ b_files b /\ b_MaxBytes b' = b_MaxBytes b /\ b_dropped b' = b_dropped b) as Hgo.
  { intros sent0 (H1 & H2 & H3)%IH. destruct (Hrm b name) as (K1 & K2 & K3). split_and!; [by etrans|congruence..]. }
  destruct (readable env name); cbn [negb]; [|apply Hgo]. destruct (Unmarshal raw) as [batch|]; [|apply Hgo].
  destruct (accepts env k batch); cbn [negb]; [|by intros [= <- <-]]. cbv zeta.
  destruct (cancelled env _); [|apply Hgo]. intros [= <- <-]. apply Hrm.
Qed.

(** What [Drain] does is a run of its steps. *)
Lemma drain_by_steps env fuel : forall k b sent b' sent',
  drainLoop fuel env k b sent = Ret (b', sent') -> exists es, drainSteps es b Looking sent = (b', Idle, sent').
Proof.
  induction fuel as [|fuel IH]; intros k b sent b' sent'; [done|]. cbn [drainLoop].
  destruct (cancelled env (2 * k)) eqn:Ec; [intros [= <- <-]; exists [mkDrainMeets true true true true]; cbn; by rewrite app_nil_r|].
  destruct (inventory b) as [|[name raw] F] eqn:Ei.
  { intros [= <- <-]. exists [mkDrainMeets false true true true]. cbn. by rewrite Ei, app_nil_r. }
  assert (b_files b !! name = Some raw) as Hl.
  { assert ((name, raw) ∈ inventory b) as Hin by (rewrite Ei; by left). rewrite inventory_perm in Hin.
    apply list_elem_of_filter in Hin as [_ Hin]. by apply elem_of_map_to_list in Hin. }
  set (look := mkDrainMeets false true true true).
  assert (forall es, drainSteps (look :: es) b Looking sent = drainSteps es b (Looked name) sent) as Hlook
    by (intros es; cbn; rewrite Ei, app_nil_r; done).
  assert (removeFile env b name = removed (mkDrainMeets (cancelled env (2 * k + 1)) (readable env name) (removable env name) true) b name) as Erm by done.
  destruct (readable env name) eqn:Er; cbn [negb]; last first.
  { intros (es & E)%IH. exists (look :: mkDrainMeets (cancelled env (2 * k + 1)) false (removable env name) true :: es).
    rewrite Hlook. cbn [drainSteps drainStep dm_readable]. by rewrite app_nil_r, <- E. }
  destruct (Unmarshal raw) as [batch|] eqn:Eu; last first.
  { intros (es & E)%IH. exists (look :: mkDrainMeets (cancelled env (2 * k + 1)) true (removable env name) true :: es).
    rewrite Hlook. cbn [drainSteps drainStep dm_readable]. rewrite Hl, Eu. by rewrite app_nil_r, <- E. }
  destruct (accepts env k batch) eqn:Ea; cbn [negb]; last first.
  { intros [= <- <-]. exists [look; look; mkDrainMeets false true true false]. rewrite Hlook. cbn [drainSteps drainStep dm_readable look].
    rewrite Hl, Eu. cbn. by rewrite !app_nil_r. }
  set (last := mkDrainMeets (cancelled env (2 * k + 1)) true (removable env name) true).
  assert (forall es, drainSteps (look :: look :: look :: last :: es) b Looking sent =
    drainSteps es (removeFile env b name) (if cancelled env (2 * k + 1) then Idle else Looking) (sent ++ [batch])) as Hall.
  { intros es. rewrite Hlook. cbn [drainSteps drainStep dm_readable look]. rewrite Hl, Eu. cbn. by rewrite !app_nil_r. }
  destruct (cancelled env (2 * k + 1)).
  - intros [= <- <-]. exists [look; look; look; last]. by rewrite Hall.
  - intros (es & E)%IH. exists (look :: look :: look :: last :: es). by rewrite Hall.
Qed.

(** ** A backlog *)

Fixpoint putAll (b : DiskBuffer) (l : list (Time * MetricBatch)) : DiskBuffer :=
  match l with [] => b | (now, batch) :: l => putAll (Put b now Written batch).1 l end.

Definition files (l : list (Time * MetricBatch)) : list (string * bytes) :=
  omap (fun '(now, batch) => raw ← Marshal batch; Some (batchName now, raw)) l.

Lemma sizeOf_app f g : sizeOf (f ++ g) = sizeOf f + sizeOf g.
Proof. induction f as [|x f IH]; simpl; [done|]. rewrite IH. lia. Qed.

Lemma sizeOf_nonneg f : 0 <= sizeOf f.
Proof. induction f as [|x f IH]; simpl; [done|]. pose proof (len_nonneg x.2). lia. Qed.

(** The clock of one run: later than the files that are there, and on. *)
Definition clocked (b : DiskBuffer) (l : list (Time * MetricBatch)) : Prop :=
  Forall (fun p => nineteen p.1 /\ forall f, f ∈ inventory b -> str_lt f.1 (batchName p.1) = true) l /\
  StronglySorted (fun p q => p.1 < q.1) l.

Lemma putAll_fits l : forall b,
  (forall n r, b_files b !! n = Some r -> (n, r) ∈ inventory b) -> clocked b l ->
  Forall (fun p => is_Some (Marshal p.2)) l -> sizeOf (inventory b) + sizeOf (files l) <= b_MaxBytes b ->
  inventory (putAll b l) = inventory b ++ files l /\ b_dropped (putAll b l) = b_dropped b.
Proof.
  induction l as [|[now batch] l IH]; intros b Hall [Hclock Hs] Hm Hfit; cbn [putAll]; [by rewrite app_nil_r|].
  apply List.Forall_cons_iff in Hclock as [[Hn Hlt] Hclock], Hm as [[raw Hraw] Hm]. inversion Hs as [|? ? Hs' Hlater]; subst.
  cbn [fst snd] in *.
  assert (files ((now, batch) :: l) = (batchName now, raw) :: files l) as Ef by (unfold files; cbn [omap list_omap]; by rewrite Hraw).
  rewrite Ef in *. change (sizeOf ((batchName now, raw) :: files l)) with (len raw + sizeOf (files l)) in Hfit.
  assert (b_files b !! batchName now = None) as Hnew.
  { destruct (b_files b !! batchName now) as [r|] eqn:E; [|done]. apply Hall, Hlt in E. cbn [fst] in E. by rewrite str_lt_irrefl in E. }
  pose proof (inventory_insert b now raw Hlt Hnew) as Ei. set (b1 := b <| b_files := _ |>) in *.
  pose proof (sizeOf_nonneg (files l)) as Hnn.
  assert ((Put b now Written batch).1 = b1) as Eput.
  { unfold Put. rewrite Hraw. cbn [fst]. unfold enforceCap. fold b1. rewrite Ei.
    assert (sizeOf (inventory b ++ [(batchName now, raw)]) <= b_MaxBytes b1) as Hc
      by (change (b_MaxBytes b1) with (b_MaxBytes b); rewrite sizeOf_app; simpl; lia).
    destruct (inventory b ++ [(batchName now, raw)]) eqn:El; cbn [enforceLoop]; [done|]. by rewrite (proj2 (Z.leb_le _ _) Hc). }
  rewrite Eput. destruct (IH b1) as [E1 E2].
  - intros n r Hl. rewrite Ei, elem_of_app, list_elem_of_singleton. simpl in Hl. apply lookup_insert_Some in Hl as [[<- <-]|[_ Hl]]; [by right|].
    left. by apply Hall.
  - split; [|done]. rewrite List.Forall_forall in Hclock, Hlater |- *. intros p Hp. destruct (Hclock p Hp) as [Hn' Hlt'].
    split; [done|]. intros f. rewrite Ei, elem_of_app, list_elem_of_singleton. intros [?| ->]; [by apply Hlt'|]. cbn [fst].
    apply batchName_lt; [done..|]. by apply Hlater.
  - done.
  - rewrite Ei, sizeOf_app. change (b_MaxBytes b1) with (b_MaxBytes b). simpl. lia.
  - rewrite E1, E2, Ei. split; [by rewrite <- app_assoc|done].
Qed.

Definition calm : surroundings := mkSurroundings (fun _ => true) (fun _ => true) (fun _ => false) (fun _ _ => true).

(** What is put while the link is down is replayed when it is up again, every
    batch once and in the order they were put, if it fits under the cap, the
    clock goes forward and the codec gives back what it was given. *)
Theorem backlog_replayed l :
  StronglySorted (fun p q => p.1 < q.1) l -> Forall (fun p => nineteen p.1) l ->
  Forall (fun p => exists raw, Marshal p.2 = Some raw /\ Unmarshal raw = Some p.2) l ->
  sizeOf (files l) <= Z.shiftl 64 20 ->
  exists b', Drain (S (length l)) calm (putAll (NewDiskBuffer ∅) l) = Ret (b', map snd l) /\ inventory b' = [] /\
    b_dropped (putAll (NewDiskBuffer ∅) l) = 0.
Proof.
  intros Hs Hn Hcodec Hfit. assert (inventory (NewDiskBuffer ∅) = []) as E0 by done.
  destruct (putAll_fits l (NewDiskBuffer ∅)) as [E Ed].
  - intros n r. simpl. by rewrite lookup_empty.
  - split; [|done]. eapply List.Forall_impl; [|exact Hn]. intros p ?. split; [done|]. rewrite E0. by intros f ?%elem_of_nil.
  - eapply List.Forall_impl; [|exact Hcodec]. intros p (raw & ? & _). by exists raw.
  - rewrite E0. exact Hfit.
  - rewrite E0 in E. simpl in E.
    assert (omap (held calm) (files l) = map snd l /\ length (files l) = length l) as [Eo El].
    { unfold files. clear -Hcodec. induction Hcodec as [|[now batch] l (raw & E1 & E2) _ [IH1 IH2]]; [done|]. cbn [omap list_omap snd] in *.
      rewrite E1. cbn [mbind option_bind omap list_omap map length]. unfold held at 1. simpl. rewrite E2, IH1, IH2. done. }
    destruct (drainLoop_spec calm (fun _ => eq_refl) (files l) (S (length l)) 0 (putAll (NewDiskBuffer ∅) l) []) as (b' & n & Er & Hle & Hd & Hst); [lia|done|].
    assert (n = length (files l)) as ->.
    { destruct Hst as [?|[[=]|[(? & _ & [=])|(? & ? & _ & _ & [=])]]]. done. }
    exists b'. unfold Drain. rewrite Er, firstn_all. simpl. rewrite Eo. split; [done|]. split; [|done]. rewrite Hd. apply drop_ge. lia.
Qed.

(** ** A file that can be neither used nor removed *)

(** The oldest file of such a buffer, or any one that is corrupt in a directory
    that has become read-only, keeps [Drain] looking at it for as long as the
    context lasts, without the pause it makes between two batches. *)
Lemma drain_spins env b f F : forall fuel k sent,
  inventory b = f :: F -> held env f = None -> removable env f.1 = false -> (forall n, cancelled env n = false) ->
  drainLoop fuel env k b sent = OutOfFuel.
Proof.
  induction fuel as [|fuel IH]; intros k sent Ei Hh Hr Hc; [done|]. cbn [drainLoop]. rewrite Hc, Ei. destruct f as [name raw].
  unfold held, removeFile in *. cbn [fst snd] in *. rewrite Hr. destruct (readable env name); cbn [negb]; [rewrite Hh|]; by apply IH.
Qed.
End buffer.

(** ** A worked outage *)

Definition demoMarshal (b : MetricBatch) : option bytes := Some (to_bytes (mb_PollerID b)).
Definition demoUnmarshal (raw : bytes) : option MetricBatch := Some (mkMetricBatch (of_bytes raw) "" []).
Definition demoBatch (id : string) : MetricBatch := mkMetricBatch id "" [].
Definition demoBacklog : list (Time * MetricBatch) :=
  [(1700000000000000001, demoBatch "one"); (1700000000000000009, demoBatch "two"); (1700000000000000010, demoBatch "three")].

Lemma backlog_replayed_witness :
  exists b', Drain demoUnmarshal 4 calm (putAll demoMarshal (NewDiskBuffer ∅) demoBacklog) =
    Ret (b', [demoBatch "one"; demoBatch "two"; demoBatch "three"]) /\ inventory b' = [].
Proof.
  destruct (backlog_replayed demoMarshal demoUnmarshal demoBacklog) as (b' & E & Ei & _).
  - repeat constructor; simpl; lia.
  - repeat constructor; simpl; unfold nineteen; lia.
  - repeat apply List.Forall_cons; try (eexists; by split); constructor.
  - by vm_compute.
  - change (S (length demoBacklog)) with 4%nat in E. cbn [demoBacklog map snd] in E. exists b'. split; [exact E|exact Ei].
Defined.

Lemma put_drops_oldest_witness :
  let b := putAll demoMarshal (mkDiskBuffer ∅ 8 0) (take 2 demoBacklog) in
  exists b' n, Put demoMarshal b 1700000000000000010 Written (demoBatch "three") = (b', true) /\
    sizeOf (inventory b') <= b_MaxBytes b /\ inventory b' = drop n (inventory b ++ [(batchName 1700000000000000010, to_bytes "three")]) /\
    b_dropped b' = b_dropped b + Z.of_nat n.
Proof.
  cbv zeta. destruct (put_drops_oldest demoMarshal (putAll demoMarshal (mkDiskBuffer ∅ 8 0) (take 2 demoBacklog)) 1700000000000000010 (demoBatch "three")
    (to_bytes "three")) as (b' & n & E & _ & _ & Ei & Hs & _ & Hd).
  - by vm_compute.
  - vm_compute. by intros [=].
  - intros f Hf. assert (Forall (fun f : string * bytes => str_lt f.1 (batchName 1700000000000000010) = true)
      (inventory (putAll demoMarshal (mkDiskBuffer ∅ 8 0) (take 2 demoBacklog)))) as Hall by decide_by_compute.
    rewrite List.Forall_forall in Hall. by apply Hall, list_elem_of_In.
  - by vm_compute.
  - exists b', n. split; [exact E|]. split; [exact Hs|]. split; [exact Ei|exact Hd].
Defined.

(** A buffer of eight bytes: the third batch pushes the first out. *)
Example third_pushes_first :
  let b := putAll demoMarshal (mkDiskBuffer ∅ 8 0) demoBacklog in
  map fst (inventory b) = ["1700000000000000009.batch"; "1700000000000000010.batch"] /\ b_dropped b = 1.
Proof. by vm_compute. Qed.

(** The broker takes the first batch and refuses the second. *)
Lemma drain_fifo_witness :
  let b := putAll demoMarshal (NewDiskBuffer ∅) demoBacklog in
  let env := mkSurroundings (fun _ => true) (fun _ => true) (fun _ => false) (fun k _ => Nat.eqb k 0) in
  exists b', Drain demoUnmarshal 4 env b = Ret (b', [demoBatch "one"]) /\ inventory b' = drop 1 (inventory b).
Proof.
  cbv zeta. set (b := putAll _ _ _). set (env := mkSurroundings _ _ _ _).
  destruct (drain_fifo demoUnmarshal env b (fun _ => eq_refl)) as (b' & n & E & _ & Hd & _).
  change (S (length (inventory b))) with 4%nat in E.
  assert (Drain demoUnmarshal 4 env b = Ret (b <| b_files := delete "1700000000000000001.batch" (b_files b) |>, [demoBatch "one"])) as E'
    by (by vm_compute).
  exists (b <| b_files := delete "1700000000000000001.batch" (b_files b) |>). split; [exact E'|]. by vm_compute.
Defined.
