(* ===== verification/Poller.v ===== *)
(** Package collection/pollerrt (runtime.go): what a poller does with the
    samples it collects, and which sites it serves.

    The workers share the pending batch under a mutex. A flush takes it, lets
    go of the mutex while it publishes, and takes the mutex again if it has to
    put it back: taking and finishing are two steps, and other steps come
    between them. The broker is the world's. Running a job is in Execute.v. *)
From Stdlib Require Import ZArith Lia.
From stdpp Require Import base list gmap strings numbers sorting.
From S2P Require Import Prelude GoText GoSort World Errx Wire Buffer.

(** ** Sites *)

Definition AllSitesToken : string := "*".

Definition sites (SiteIDs : list string) (SiteID : string) : list string :=
  if decide (SiteIDs = []) then (if decide (SiteID = "") then [] else [SiteID]) else SiteIDs.
Definition allSites (SiteIDs : list string) (SiteID : string) : bool :=
  bool_decide (sites SiteIDs SiteID = [AllSitesToken]).

Definition wantSite (running : gset string) (st : gset string * list string) (s : string) : gset string * list string :=
  let '(want, start) := st in
  if decide (s = "") then st else ({[s]} ∪ want, if decide (s ∈ running) then start else start ++ [s]).

(** [reconcileSites], on the sites that have a consumer. *)
Definition reconcileSites (running : gset string) (desired : list string) : list string * list string :=
  let '(want, start) := foldl (wantSite running) (∅, []) desired in
  (sort_Strings start, sort_Strings (filter (fun s => s ∉ want) (elements running))).

(** The consumers there are, the latest first, and the sites [followSites] has
    a function to cancel for: the one of the site's latest consumer. *)
Record Following : Type := mkFollowing { fo_running : gset string; fo_consumers : list string }.

Fixpoint cancel (s : string) (consumers : list string) : list string :=
  match consumers with
  | [] => []
  | c :: rest => if decide (c = s) then rest else c :: cancel s rest
  end.

Definition announced (f : Following) (desired : list string) : Following :=
  let '(start, stop) := reconcileSites (fo_running f) desired in
  let f := foldl (fun f s => mkFollowing (fo_running f ∖ {[s]}) (cancel s (fo_consumers f))) f stop in
  foldl (fun f s => mkFollowing ({[s]} ∪ fo_running f) (s :: fo_consumers f)) f start.

(** ** The pending batch *)

Definition batchFlushSize : Z := 500.

(** [rt_inflight]: the batches taken by a flush that has not finished;
    [rt_drain]: how far the drain loop is. *)
Record Runtime : Type := mkRuntime {
  rt_PollerID : string; rt_SiteID : string; rt_batch : list Sample; rt_inflight : list (list Sample);
  rt_Batches : Z; rt_Buffer : option DiskBuffer; rt_drain : draining
}.
#[export] Instance eta_Runtime : Eta Runtime := fun r =>
  mkRuntime (rt_PollerID r) (rt_SiteID r) (rt_batch r) (rt_inflight r) (rt_Batches r) (rt_Buffer r) (rt_drain r).

(** [flush], up to the call of the broker. *)
Definition takeBatch (r : Runtime) : Runtime :=
  if decide (rt_batch r = []) then r
  else r <| rt_inflight := rt_inflight r ++ [rt_batch r] |> <| rt_batch := [] |>.

(** [append], while it holds the mutex; whether it goes on to [flush]. *)
Definition append (r : Runtime) (samples : list Sample) : Runtime * bool :=
  if decide (samples = []) then (r, false) else
  let r := r <| rt_batch := rt_batch r ++ samples |> in
  (r, batchFlushSize <=? len (rt_batch r)).

Section runtime.
Context (Marshal : MetricBatch -> option bytes) (Unmarshal : bytes -> option MetricBatch).

(** What a flush meets: whether the broker confirms, and the time and the
    disk if it comes to spilling. *)
Record meets : Type := mkMeets { confirms : bool; at_ : Time; disk : writing }.

(** [PublishJSON]: no error. *)
Definition publishes (e : meets) (batch : MetricBatch) : bool := bool_decide (is_Some (Marshal batch)) && confirms e.

(** The rest of [flush], for the batch taken [k]th; with the batches the broker
    confirmed. *)
Definition finish (r : Runtime) (k : nat) (e : meets) : Runtime * list MetricBatch :=
  match rt_inflight r !! k with
  | None => (r, [])
  | Some out =>
      let r := r <| rt_inflight := delete k (rt_inflight r) |> in
      let batch := mkMetricBatch (rt_PollerID r) (rt_SiteID r) out in
      let requeued r := (r <| rt_batch := out ++ rt_batch r |>, []) in
      if publishes e batch then (r <| rt_Batches := rt_Batches r + 1 |>, [batch])
      else
        match rt_Buffer r with
        | Some b =>
            let '(b, ok) := Put Marshal b (at_ e) (disk e) batch in
            let r := r <| rt_Buffer := Some b |> in
            if ok : bool then (r, []) else requeued r
        | None => requeued r
        end
  end.

(** A flush begins on the timer, when the poller stops, or when an append has
    filled the batch; in the last case other turns may have come between. The
    drain loop takes one step at a time. *)
Inductive turn : Type :=
  | TurnAppend (samples : list Sample)
  | TurnFlush
  | TurnFinish (k : nat) (e : meets)
  | TurnDrain (e : drainMeets).

Definition takeTurn (r : Runtime) (t : turn) : Runtime * list MetricBatch :=
  match t with
  | TurnAppend samples => ((append r samples).1, [])
  | TurnFlush => (takeBatch r, [])
  | TurnFinish k e => finish r k e
  | TurnDrain e =>
      match rt_Buffer r with
      | None => (r, [])
      | Some b => let '(b, d, sent) := drainStep Unmarshal e b (rt_drain r) in (r <| rt_Buffer := Some b |> <| rt_drain := d |>, sent)
      end
  end.

(** Any turns in any order, with all that the broker confirmed. *)
Fixpoint takeTurns (r : Runtime) (log : list MetricBatch) (ts : list turn) : Runtime * list MetricBatch :=
  match ts with
  | [] => (r, log)
  | t :: ts => let '(r, sent) := takeTurn r t in takeTurns r (log ++ sent) ts
  end.

(** * No sample is lost *)

Definition samplesOf (l : list MetricBatch) : list Sample := concat (map mb_Samples l).

Lemma samplesOf_app l l' : samplesOf (l ++ l') = samplesOf l ++ samplesOf l'.
Proof. unfold samplesOf. by rewrite map_app, concat_app. Qed.

Definition stored (fs : list (string * bytes)) : list Sample := samplesOf (omap (fun f => Unmarshal f.2) fs).

Lemma stored_app l l' : stored (l ++ l') = stored l ++ stored l'.
Proof. unfold stored. by rewrite omap_app, samplesOf_app. Qed.
#[local] Instance stored_perm : Proper ((≡ₚ) ==> (≡ₚ)) stored.
Proof. intros l l' E. unfold stored, samplesOf. by rewrite E. Qed.

(** The files but the one the drain loop has in hand. *)
Definition rest (d : draining) (fs : list (string * bytes)) : list (string * bytes) :=
  match d with Holding n _ | Replayed n => filter (fun f => f.1 <> n) fs | _ => fs end.
Definition inHand (d : draining) : list Sample := match d with Holding _ batch => mb_Samples batch | _ => [] end.

Definition onDisk (r : Runtime) : list Sample :=
  match rt_Buffer r with Some b => stored (rest (rt_drain r) (inventory b)) ++ inHand (rt_drain r) | None => [] end.
Definition droppedFiles (r : Runtime) : Z := match rt_Buffer r with Some b => b_dropped b | None => 0 end.

(** Where the samples are that are still the poller's: in the files, in the
    hands of the drain loop - whose file may have been dropped meanwhile - and
    in the batches. A file whose batch was just sent is not counted: it is
    about to go. *)
Definition kept (r : Runtime) : list Sample := onDisk r ++ rt_batch r ++ concat (rt_inflight r).

Definition handed (t : turn) : list Sample := match t with TurnAppend samples => samples | _ => [] end.

(** A turn after [now]: the clock has gone on when a batch is spilled, and a
    file that was written in part cannot be decoded. *)
Definition fair (now : Time) (t : turn) : Prop :=
  match t with
  | TurnFinish k e => now < at_ e /\ nineteen (at_ e) /\ (forall part, disk e = WriteFailed (Some part) -> Unmarshal part = None)
  | _ => True
  end.
Definition after (now : Time) (t : turn) : Time := match t with TurnFinish _ e => at_ e | _ => now end.
Fixpoint fairTurns (now : Time) (ts : list turn) : Prop :=
  match ts with [] => True | t :: ts => fair now t /\ fairTurns (after now t) ts end.

(** The file of a drain step could be read; it could be removed. *)
Definition reads (t : turn) : Prop := match t with TurnDrain e => dm_readable e = true | _ => True end.
Definition removes (t : turn) : Prop := match t with TurnDrain e => dm_removable e = true | _ => True end.

(** The files are named by times up to [now], the one in the drain loop's hands
    too; while it is there it holds the batch in hand, and when it is gone the
    cap has dropped it. *)
Definition timed (now : Time) (n : string) : Prop := exists t, n = batchName t /\ nineteen t /\ t <= now.
Definition drain_ok (now : Time) (b : DiskBuffer) (d : draining) : Prop :=
  match d with
  | Idle | Looking => True
  | Looked n | Replayed n => timed now n
  | Holding n batch =>
      timed now n /\ (forall raw, b_files b !! n = Some raw -> Unmarshal raw = Some batch) /\ (b_files b !! n = None -> 0 < b_dropped b)
  end.
Definition good (now : Time) (b : DiskBuffer) (d : draining) : Prop :=
  0 <= b_MaxBytes b /\ 0 <= b_dropped b /\ (forall n raw, b_files b !! n = Some raw -> timed now n) /\ drain_ok now b d.
Definition named_by (now : Time) (r : Runtime) : Prop :=
  match rt_Buffer r with Some b => good now b (rt_drain r) | None => True end.

(** ** Samples up to what JSON does to them *)

(** JSON writes invalid UTF-8 as the replacement character: what is decoded is
    what was encoded, but for [clean]. *)
Context (clean : Sample -> Sample).
Definition same (l l' : list Sample) : Prop := map clean l ≡ₚ map clean l'.
#[local] Instance same_equivalence : Equivalence same.
Proof. split; unfold same; [by intros l|by intros l l'|by intros l l' l'' -> ->]. Qed.
#[local] Instance same_app : Proper (same ==> same ==> same) app.
Proof. unfold same. intros l1 l1' E1 l2 l2' E2. by rewrite !map_app, E1, E2. Qed.
#[local] Instance perm_same : subrelation (≡ₚ) same.
Proof. unfold same. by intros l l' ->. Qed.
Lemma same_perm l l' : l ≡ₚ l' -> same l l'.
Proof. apply perm_same. Qed.

Definition codec : Prop := forall b raw, Marshal b = Some raw ->
  exists b', Unmarshal raw = Some b' /\ map clean (mb_Samples b') = map clean (mb_Samples b).

Lemma concat_delete {A} (l : list (list A)) k x : l !! k = Some x -> concat l ≡ₚ x ++ concat (delete k l).
Proof.
  intros Hk. rewrite <- (take_drop_middle l k x Hk) at 1. rewrite delete_take_drop, !concat_app. simpl. solve_Permutation.
Qed.

Lemma takeBatch_kept r : kept (takeBatch r) ≡ₚ kept r.
Proof.
  unfold takeBatch, kept, onDisk. case_decide as E; [done|]. simpl. rewrite concat_app. simpl. rewrite app_nil_r.
  apply Permutation_app_head. by rewrite Permutation_app_comm.
Qed.

(** ** Files *)

Lemma rest_app d l l' : rest d (l ++ l') = rest d l ++ rest d l'.
Proof. destruct d; cbn [rest]; [done..|by rewrite filter_app|by rewrite filter_app]. Qed.
Lemma timed_later now now' n : timed now n -> now <= now' -> timed now' n.
Proof. intros (t & -> & ? & ?) ?. exists t. split; [done|]. split; [done|lia]. Qed.
Lemma timed_ext now n raw : timed now n -> batchExt (n, raw) = true.
Proof. intros (t & -> & _). apply batchExt_name. Qed.

Lemma newName b now : (forall n raw, b_files b !! n = Some raw -> exists t, n = batchName t /\ nineteen t /\ t < now) -> nineteen now ->
  (forall f, f ∈ inventory b -> str_lt f.1 (batchName now) = true) /\ b_files b !! batchName now = None.
Proof.
  intros Hn Hnow.
  assert (forall n raw, b_files b !! n = Some raw -> str_lt n (batchName now) = true) as Hlt.
  { intros n raw (t & -> & ? & ?)%Hn. by apply batchName_lt. }
  split; [intros f [_ Hf]%elem_of_inventory; by eapply Hlt|].
  destruct (b_files b !! batchName now) as [raw|] eqn:E; [|done]. apply Hlt in E. by rewrite str_lt_irrefl in E.
Qed.
Lemma later_name now now' n : timed now n -> now < now' -> nineteen now' -> n <> batchName now'.
Proof. intros (t & -> & ? & ?) Hlt H19 E. pose proof (batchName_lt t now' ltac:(done) H19 ltac:(lia)) as Hl. by rewrite E, str_lt_irrefl in Hl. Qed.

(** The inventory without one file is the inventory of the others. *)
Lemma inventory_without b n : inventory (b <| b_files := delete n (b_files b) |>) = filter (fun f => f.1 <> n) (inventory b).
Proof.
  apply inventory_unique; [apply filter_sorted, StronglySorted_merge_sort; apply _|]. cbn [b_files set eta_DiskBuffer].
  apply NoDup_Permutation.
  - apply NoDup_filter, (NoDup_fmap_1 fst), inventory_NoDup.
  - apply NoDup_filter, NoDup_map_to_list.
  - intros [m raw]. rewrite !list_elem_of_filter, elem_of_inventory, elem_of_map_to_list. cbn. rewrite lookup_delete_Some. naive_solver.
Qed.
Lemma filter_absent b n : b_files b !! n = None -> filter (fun f : string * bytes => f.1 <> n) (inventory b) = inventory b.
Proof. intros Hn. apply list_filter_all. intros f [_ Hf]%elem_of_inventory E. rewrite E in Hf. congruence. Qed.
Lemma inventory_split b n raw : b_files b !! n = Some raw -> batchExt (n, raw) = true ->
  inventory b ≡ₚ (n, raw) :: filter (fun f => f.1 <> n) (inventory b).
Proof.
  intros Hl He. apply NoDup_Permutation.
  - apply (NoDup_fmap_1 fst), inventory_NoDup.
  - constructor; [intros [Hn _]%list_elem_of_filter; by apply Hn|apply NoDup_filter, (NoDup_fmap_1 fst), inventory_NoDup].
  - intros [m raw']. rewrite elem_of_cons, list_elem_of_filter, elem_of_inventory. cbn. destruct (decide (m = n)) as [->|]; naive_solver.
Qed.
Lemma stored_one n raw batch : Unmarshal raw = Some batch -> stored [(n, raw)] = mb_Samples batch.
Proof. intros E. unfold stored, samplesOf. cbn. rewrite E. cbn. by rewrite app_nil_r. Qed.
Lemma stored_none n raw : Unmarshal raw = None -> stored [(n, raw)] = [].
Proof. intros E. unfold stored, samplesOf. cbn. by rewrite E. Qed.
Lemma drain_ok_later now now' b d : drain_ok now b d -> now <= now' -> drain_ok now' b d.
Proof.
  destruct d; cbn; try done; try (intros; by eapply timed_later). intros (H1 & H2) ?. split; [by eapply timed_later|done].
Qed.
(** Files are put under new names and dropped with a count: the drain loop's
    hand stays right. *)
Lemma drain_ok_put now b b' d new :
  drain_ok now b d -> b_dropped b <= b_dropped b' -> 0 <= b_dropped b -> (forall n, timed now n -> n <> new) ->
  (forall n raw, n <> new -> b_files b' !! n = Some raw -> b_files b !! n = Some raw) ->
  (forall n raw, b_files b !! n = Some raw -> b_files b' !! n = None -> b_dropped b < b_dropped b') -> drain_ok now b' d.
Proof.
  intros Hd Hle H0 Hnew Hkeep Hdrop. destruct d as [| |n|n batch|n]; cbn in *; try done. destruct Hd as (Ht & Hraw & Hgone).
  split; [done|]. split; [intros raw Hl; apply Hraw, Hkeep; auto|]. intros Hn'.
  destruct (b_files b !! n) as [raw|] eqn:E; [specialize (Hdrop n raw E Hn'); lia|]. specialize (Hgone eq_refl). lia.
Qed.

(** Spilling a batch: it is on the disk or still in hand, and what the cap
    pushed out is all that is gone. *)
Lemma Put_stored b d now e batch b' ok :
  codec -> good now b d -> now < at_ e -> nineteen (at_ e) -> (forall part, disk e = WriteFailed (Some part) -> Unmarshal part = None) ->
  Put Marshal b (at_ e) (disk e) batch = (b', ok) ->
  exists lost, same (stored (rest d (inventory b)) ++ (if ok then mb_Samples batch else [])) (stored (rest d (inventory b')) ++ lost) /\
    b_dropped b <= b_dropped b' /\ (b_dropped b' = 0 -> lost = []) /\ good (at_ e) b' d.
Proof.
  intros Hcodec (Hcap & H0 & Hn & Hd) Hnow H19 Hpart Eput.
  destruct (newName b (at_ e)) as [Hlt Hnew]; [intros n raw (t & ? & ? & ?)%Hn; exists t; split_and!; [done..|lia] | done |].
  assert (forall n, timed now n -> n <> batchName (at_ e)) as Hother by (intros n Ht; by apply (later_name now)).
  assert (forall n raw part, <[batchName (at_ e) := part]> (b_files b) !! n = Some raw -> timed (at_ e) n) as Hn'.
  { intros n raw part [[<- _]|[_ Ht%Hn]]%lookup_insert_Some; [exists (at_ e); split; [done|]; split; [done|lia]|apply (timed_later now); [done|lia]]. }
  assert (forall part, rest d [(batchName (at_ e), part)] = [(batchName (at_ e), part)]) as Hrest.
  { intros part. destruct d as [| |n|n ?|n]; cbn [rest]; try done; (rewrite filter_cons_True; [done|]); cbn; intros <-;
      [by apply (Hother (batchName (at_ e)) (proj1 Hd))|by apply (Hother (batchName (at_ e)) Hd)]. }
  assert (good (at_ e) b d) as Hgood.
  { split; [done|]. split; [done|]. split; [intros n raw Ht%Hn; eapply timed_later; [done|lia]|apply (drain_ok_later now); [done|lia]]. }
  unfold Put in Eput. destruct (Marshal batch) as [raw|] eqn:Em; last first.
  { injection Eput as <- <-. exists []. split_and!; [done|lia|done|done]. }
  destruct (disk e) as [|[part|]] eqn:Ed; [|injection Eput as Eb <-|injection Eput as <- <-; exists []; split_and!; [done|lia|done|done]].
  - destruct (Put_spec Marshal b (at_ e) batch raw Em Hcap Hlt Hnew) as (b2 & n & E2 & Emax & Hle & Einv & _ & _ & Edrop).
    unfold Put in E2. rewrite Em in E2. rewrite E2 in Eput. injection Eput as -> <-. injection E2 as Eb2.
    destruct (Hcodec batch raw Em) as (batch' & Eu & Ec).
    assert (same (stored [(batchName (at_ e), raw)]) (mb_Samples batch)) as Hone.
    { rewrite (stored_one _ raw batch') by done. unfold same. by rewrite Ec. }
    exists (stored (rest d (take n (inventory b ++ [(batchName (at_ e), raw)])))). split_and!.
    + rewrite <- Hone, Einv, <- (Hrest raw), <- stored_app, <- rest_app. apply same_perm. rewrite (Hrest raw).
      rewrite <- (take_drop n (inventory b ++ [(batchName (at_ e), raw)])) at 1. rewrite rest_app, stored_app. apply Permutation_app_comm.
    + lia.
    + intros E. assert (n = O) as -> by lia. cbn [take]. by destruct d.
    + split; [by rewrite Emax|]. split; [lia|]. split.
      * intros m r0 Hl. apply (Hn' m r0 raw). rewrite <- Eb2 in Hl. by apply (lookup_weaken _ _ _ _ Hl), enforceCap_keeps.
      * apply (drain_ok_later now); [|lia]. apply (drain_ok_put now b _ d (batchName (at_ e))); [done|lia|done|done| |].
        -- intros m r0 Hm Hl. rewrite <- Eb2 in Hl. pose proof (lookup_weaken _ _ _ _ Hl (enforceCap_keeps _)) as Hk. cbn in Hk. by apply lookup_insert_Some in Hk as [[? _]|[_ ?]].
        -- intros m r0 Hl Hgone. rewrite <- Eb2 in Hgone |- *. unfold enforceCap in *.
           destruct (enforceLoop_counts (inventory (b <| b_files := <[batchName (at_ e) := raw]> (b_files b) |>))
             (sizeOf (inventory (b <| b_files := <[batchName (at_ e) := raw]> (b_files b) |>))) (b <| b_files := <[batchName (at_ e) := raw]> (b_files b) |>)) as [_ Hc].
           apply (Hc m r0); [|done]. cbn. rewrite lookup_insert_ne; [done|]. intros <-. congruence.
  - assert (inventory b' = inventory b ++ [(batchName (at_ e), part)]) as Ei by (rewrite <- Eb; by apply inventory_insert).
    exists []. rewrite Ei, rest_app, Hrest, stored_app, (stored_none _ part), !app_nil_r by (by apply Hpart). rewrite <- Eb.
    split_and!; [done|cbn; lia|done|]. split; [done|]. split; [done|]. split; [intros n r0 Hl; by apply (Hn' n r0 part)|].
    apply (drain_ok_later now); [|lia]. apply (drain_ok_put now b _ d (batchName (at_ e))); [done|cbn; lia|done|done| |].
    + intros m r0 Hm Hl. cbn in Hl. by rewrite lookup_insert_ne in Hl.
    + intros m r0 Hl Hgone. cbn in Hgone. apply lookup_insert_None in Hgone as [? _]. congruence.
Qed.

Lemma finish_kept r k e now r' sent :
  codec -> named_by now r -> fair now (TurnFinish k e) -> finish r k e = (r', sent) ->
  exists lost, same (kept r) (samplesOf sent ++ kept r' ++ lost) /\ (droppedFiles r' = 0 -> lost = []) /\
    droppedFiles r <= droppedFiles r' /\ named_by (at_ e) r'.
Proof.
  intros Hcodec Hnamed (Hlt & H19 & Hpart) E. unfold finish in E.
  assert (named_by (at_ e) r) as Hnamed'.
  { unfold named_by in *. destruct (rt_Buffer r); [|done]. destruct Hnamed as (? & ? & Hn & Hd). split; [done|]. split; [done|].
    split; [intros n raw Ht%Hn; eapply timed_later; [done|lia]|apply (drain_ok_later now); [done|lia]]. }
  destruct (rt_inflight r !! k) as [out|] eqn:Ek; [|injection E as <- <-; exists []; split_and!; [by rewrite app_nil_r|done|lia|done]].
  pose proof (concat_delete _ _ _ Ek) as Hc. set (batch := mkMetricBatch _ _ out) in *.
  destruct (publishes e batch).
  { injection E as <- <-. exists []. unfold kept, onDisk, droppedFiles, named_by, samplesOf in *. simpl. rewrite !app_nil_r.
    split_and!; [|done|lia|done]. apply same_perm. rewrite Hc. solve_Permutation. }
  cbn [rt_Buffer set] in E. destruct (rt_Buffer r) as [b|] eqn:Eb.
  2: { injection E as <- <-. exists []. unfold kept, onDisk, droppedFiles, named_by, samplesOf in *. simpl. rewrite Eb in *. simpl.
       rewrite !app_nil_r. split_and!; [|done|lia|done]. apply same_perm. rewrite Hc. solve_Permutation. }
  destruct (Put Marshal b (at_ e) (disk e) batch) as [b' ok] eqn:Ep. unfold named_by in Hnamed. rewrite Eb in Hnamed.
  destruct (Put_stored b (rt_drain r) now e batch b' ok Hcodec Hnamed Hlt H19 Hpart Ep) as (lost & Hst & Hd & Hz & Hg).
  exists lost. unfold kept, onDisk, droppedFiles, named_by. rewrite Eb. set (hand := inHand (rt_drain r)).
  destruct ok; injection E as <- <-; cbn [rt_Buffer rt_drain rt_batch rt_inflight set eta_Runtime]; fold hand.
  - split_and!; [|done|done|done].
    transitivity ((stored (rest (rt_drain r) (inventory b)) ++ mb_Samples batch) ++ hand ++ rt_batch r ++ concat (delete k (rt_inflight r)));
      [apply same_perm; rewrite Hc; cbn [mb_Samples batch]; solve_Permutation|]. rewrite Hst. apply same_perm. cbn. solve_Permutation.
  - split_and!; [|done|done|done]. rewrite app_nil_r in Hst.
    transitivity (stored (rest (rt_drain r) (inventory b)) ++ out ++ hand ++ rt_batch r ++ concat (delete k (rt_inflight r)));
      [apply same_perm; rewrite Hc; solve_Permutation|]. rewrite Hst. apply same_perm. cbn. solve_Permutation.
Qed.

(** ** Draining while batches are put *)

Lemma good_removed now b n e d : good now b d -> d = Idle \/ d = Looking -> good now (removed e b n) d.
Proof.
  intros (H1 & H2 & H3 & _) Hd. unfold removed. destruct (dm_removable e); split_and!; try done; try (by destruct Hd as [->| ->]).
  intros m raw Hl. cbn in Hl. apply lookup_delete_Some in Hl as [_ Hl]. by eapply H3.
Qed.

Lemma drain_kept e b d now b' d' sent : good now b d -> drainStep Unmarshal e b d = (b', d', sent) ->
  exists lost again,
    (stored (rest d (inventory b)) ++ inHand d) ++ again ≡ₚ samplesOf sent ++ (stored (rest d' (inventory b')) ++ inHand d') ++ lost /\
    b_dropped b' = b_dropped b /\ (b_dropped b' = 0 -> dm_readable e = true -> lost = []) /\ (dm_removable e = true -> again = []) /\ good now b' d'.
Proof.
  intros Hg. pose proof Hg as (Hm & H0 & Hn & Hd).
  assert (forall d, d = Idle \/ d = Looking -> good now b d) as Hidle by (intros d0 [->| ->]; by split_and!).
  assert (forall n, b_dropped (removed e b n) = b_dropped b) as Hdr by (intros n; unfold removed; by destruct (dm_removable e)).
  assert (forall n d, d = Idle \/ d = Looking -> good now (removed e b n) d) as Hrm by (intros n d0 Hd0; apply good_removed; auto).
  assert (forall d0, d0 = Idle \/ d0 = Looking -> forall fs, rest d0 fs = fs /\ inHand d0 = []) as Hfree by (by intros d0 [->| ->]).
  assert (forall n raw, b_files b !! n = Some raw ->
    stored (inventory b) ≡ₚ stored [(n, raw)] ++ stored (filter (fun f => f.1 <> n) (inventory b))) as Hsplit.
  { intros n raw Hl. rewrite (inventory_split b n raw) at 1 by (done || by eapply timed_ext, Hn). by rewrite <- stored_app. }
  destruct d as [| |n|n batch|n]; cbn [drainStep].
  - intros [= <- <- <-]. exists [], []. cbn. rewrite !app_nil_r. split_and!; try done; auto.
  - destruct (dm_cancelled e); [|destruct (inventory b) as [|f F] eqn:Ei]; intros [= <- <- <-]; exists [], []; cbn; rewrite !app_nil_r;
      split_and!; try done; try (by rewrite Ei); try (split_and!; try done; cbn).
    assert (f ∈ inventory b) as [_ Hf]%elem_of_inventory by (rewrite Ei; by left). by eapply Hn.
  - cbn in Hd. destruct (dm_readable e) eqn:Er.
    + destruct (b_files b !! n) as [raw|] eqn:El; last first.
      { intros [= <- <- <-]. exists [], []. rewrite Hdr. cbn. rewrite !app_nil_r. split_and!; try done; auto.
        unfold removed. destruct (dm_removable e); [|done]. by rewrite inventory_without, filter_absent. }
      destruct (Unmarshal raw) as [batch|] eqn:Eu; intros [= <- <- <-]; exists [], []; cbn; rewrite !app_nil_r.
      * split_and!; auto; [|split_and!; try done; cbn; split_and!; [done|intros raw'; rewrite El; by intros [= <-]|by rewrite El]].
        rewrite (Hsplit n raw El), (stored_one n raw batch Eu). apply Permutation_app_comm.
      * rewrite Hdr. split_and!; try done; auto. unfold removed. destruct (dm_removable e); [|done].
        rewrite inventory_without, (Hsplit n raw El). by rewrite (stored_none n raw Eu).
    + intros [= <- <- <-]. rewrite Hdr. pose proof (Hrm n Looking (or_intror eq_refl)) as Hg'. unfold removed in *. destruct (dm_removable e); [destruct (b_files b !! n) as [raw|] eqn:El|].
      * exists (stored [(n, raw)]), []. cbn [rest inHand samplesOf map concat app]. rewrite inventory_without, (Hsplit n raw El), !app_nil_r.
        split_and!; try done; auto; try apply Permutation_app_comm.
      * exists [], []. cbn [rest inHand samplesOf map concat app]. rewrite !app_nil_r, inventory_without, filter_absent by done. split_and!; try done; auto.
      * exists [], []. cbn. rewrite !app_nil_r. split_and!; try done; auto.
  - cbn in Hd. destruct Hd as (Ht & Hraw & Hgone). destruct (dm_accepts e); intros [= <- <- <-].
    + exists [], []. cbn. rewrite !app_nil_r. split_and!; try done; auto; try apply Permutation_app_comm.
    + destruct (b_files b !! n) as [raw|] eqn:El.
      * exists [], []. cbn. rewrite !app_nil_r. split_and!; try done; auto. rewrite (Hsplit n raw El), (stored_one n raw batch (Hraw raw eq_refl)). apply Permutation_app_comm.
      * exists (mb_Samples batch), []. cbn. rewrite !app_nil_r, filter_absent by done. split_and!; try done; auto. intros E. specialize (Hgone eq_refl). lia.
  - intros [= <- <- <-]. rewrite Hdr. set (d' := if dm_cancelled e then Idle else Looking).
    assert (d' = Idle \/ d' = Looking) as Hd' by (unfold d'; destruct (dm_cancelled e); auto).
    destruct (Hfree d' Hd' (inventory (removed e b n))) as [-> ->]. pose proof (Hrm n d' Hd') as Hg'. unfold removed in *. destruct (dm_removable e) eqn:Em.
    + exists [], []. cbn [rest inHand samplesOf map concat app]. rewrite !app_nil_r, inventory_without. split_and!; try done; auto.
    + destruct (b_files b !! n) as [raw|] eqn:El.
      * exists [], (stored [(n, raw)]). cbn. rewrite !app_nil_r, (Hsplit n raw El). split_and!; try done; auto; try apply Permutation_app_comm.
      * exists [], []. cbn. rewrite !app_nil_r, filter_absent by done. split_and!; try done; auto.
Qed.

Lemma turn_kept r t now : codec -> named_by now r -> fair now t ->
  let '(r', sent) := takeTurn r t in
  exists lost again, same (handed t ++ kept r ++ again) (samplesOf sent ++ kept r' ++ lost) /\ droppedFiles r <= droppedFiles r' /\
    (droppedFiles r' = 0 -> reads t -> lost = []) /\ (removes t -> again = []) /\ named_by (after now t) r'.
Proof.
  intros Hcodec Hn Hfair.
  assert (forall r, droppedFiles (takeBatch r) = droppedFiles r /\ (named_by now r -> named_by now (takeBatch r))) as Htake.
  { intros r0. unfold takeBatch, droppedFiles, named_by. by case_decide. }
  destruct t as [samples| |k e|e]; cbn [takeTurn handed after reads removes].
  - exists [], []. rewrite !app_nil_r. unfold append. case_decide as Es; [by subst samples|].
    split_and!; [apply same_perm; unfold kept, onDisk; simpl; solve_Permutation|done|done|done|done].
  - exists [], []. destruct (Htake r) as [-> Hn']. rewrite !app_nil_r. split_and!; [by rewrite takeBatch_kept|lia|done|done|auto].
  - destruct (finish r k e) as [r' sent] eqn:E. destruct (finish_kept r k e now r' sent Hcodec Hn Hfair E) as (lost & ? & ? & ? & ?).
    exists lost, []. rewrite app_nil_r. by split_and!; auto.
  - unfold named_by in Hn. destruct (rt_Buffer r) as [b|] eqn:Eb; [|exists [], []; rewrite !app_nil_r; split_and!; try done; unfold named_by; by rewrite Eb].
    destruct (drainStep Unmarshal e b (rt_drain r)) as [[b' d'] sent] eqn:E.
    destruct (drain_kept e b (rt_drain r) now b' d' sent Hn E) as (lost & again & Hp & Hd & Hz & Ha & Hg).
    exists lost, again. unfold kept, onDisk, droppedFiles, named_by. rewrite Eb. cbn [rt_Buffer rt_drain rt_batch rt_inflight set eta_Runtime].
    split_and!; auto; [|lia]. apply same_perm. set (m := rt_batch r ++ concat (rt_inflight r)).
    transitivity (((stored (rest (rt_drain r) (inventory b)) ++ inHand (rt_drain r)) ++ again) ++ m); [solve_Permutation|]. rewrite Hp. solve_Permutation.
Qed.

Lemma turns_kept ts : codec -> forall r log now, named_by now r -> fairTurns now ts ->
  let '(r', log') := takeTurns r log ts in
  exists sent lost again, log' = log ++ sent /\ same (concat (map handed ts) ++ kept r ++ again) (samplesOf sent ++ kept r' ++ lost) /\
    droppedFiles r <= droppedFiles r' /\ (droppedFiles r' = 0 -> Forall reads ts -> lost = []) /\ (Forall removes ts -> again = []).
Proof.
  intros Hcodec. induction ts as [|t ts IH]; intros r log now Hn Hfair; cbn [takeTurns fairTurns map concat] in *.
  { exists [], [], []. rewrite !app_nil_r. by split_and!. }
  destruct Hfair as [Hf Hfair]. pose proof (turn_kept r t now Hcodec Hn Hf) as Ht. destruct (takeTurn r t) as [r1 sent1].
  destruct Ht as (lost1 & again1 & H1 & Hd1 & Hz1 & Ha1 & Hn1). specialize (IH r1 (log ++ sent1) (after now t) Hn1 Hfair).
  destruct (takeTurns r1 (log ++ sent1) ts) as [r' log']. destruct IH as (sent2 & lost2 & again2 & -> & H2 & Hd2 & Hz2 & Ha2).
  assert (0 <= droppedFiles r) as H0 by (unfold named_by, droppedFiles in *; destruct (rt_Buffer r); [apply Hn|done]).
  exists (sent1 ++ sent2), (lost1 ++ lost2), (again1 ++ again2). split_and!.
  - by rewrite app_assoc.
  - transitivity ((handed t ++ kept r ++ again1) ++ concat (map handed ts) ++ again2); [apply same_perm; solve_Permutation|]. rewrite H1.
    transitivity ((concat (map handed ts) ++ kept r1 ++ again2) ++ samplesOf sent1 ++ lost1); [apply same_perm; solve_Permutation|]. rewrite H2.
    apply same_perm. rewrite samplesOf_app. solve_Permutation.
  - lia.
  - intros E [Hr Hrs]%Forall_cons. rewrite Hz1, Hz2 by (done || lia). done.
  - intros [Hr Hrs]%Forall_cons. by rewrite Ha1, Ha2.
Qed.


(** * One sample that cannot be encoded *)

Definition poisons (x : Sample) : Prop := forall b, x ∈ mb_Samples b -> Marshal b = None.

(** From then on, on a poller that flushes one batch at a time, nothing is
    published or spilled any more, and every sample that is collected stays in
    memory. *)
Lemma poison_stops x r e :
  poisons x -> x ∈ rt_batch r -> rt_inflight r = [] ->
  let '(r', sent) := finish (takeBatch r) 0 e in
  sent = [] /\ rt_batch r' = rt_batch r /\ rt_inflight r' = [] /\ onDisk r' = onDisk r /\ droppedFiles r' = droppedFiles r.
Proof.
  intros Hp Hx Hi. unfold takeBatch. rewrite decide_False by (intros E; rewrite E in Hx; by apply elem_of_nil in Hx).
  unfold finish. simpl. rewrite Hi. simpl. unfold publishes.
  assert (forall p s, Marshal (mkMetricBatch p s (rt_batch r)) = None) as Hm by (intros p s; by apply Hp).
  rewrite Hm. simpl. unfold onDisk, droppedFiles. destruct (rt_Buffer r) as [b|] eqn:Eb.
  - unfold Put. rewrite Hm. simpl. by rewrite app_nil_r.
  - simpl. by rewrite app_nil_r.
Qed.
End runtime.

(** * Serving what is announced *)

Lemma wantSite_fold running desired :
  foldl (wantSite running) (∅, []) desired =
  (list_to_set (filter (fun s => s <> "") desired), filter (fun s => s <> "" /\ s ∉ running) desired).
Proof.
  induction desired as [|s desired IH] using rev_ind; [done|]. rewrite foldl_snoc, IH. unfold wantSite. rewrite !filter_app, !filter_cons, !filter_nil.
  destruct (decide (s = "")) as [->|Hs].
  - rewrite (decide_False (P := "" <> "")) by (intros H; by apply H). rewrite decide_False by (intros [H _]; by apply H). by rewrite !app_nil_r.
  - rewrite (decide_True (P := s <> "")) by done. f_equal; [set_solver|]. destruct (decide (s ∈ running)) as [Hr|Hr].
    + rewrite decide_False by (intros [_ ?]; done). by rewrite app_nil_r.
    + by rewrite decide_True.
Qed.

Lemma cancel_unique s l : NoDup l -> cancel s l = filter (fun c => c <> s) l.
Proof.
  induction 1 as [|c l Hc Hl IH]; [done|]. cbn [cancel]. rewrite filter_cons. destruct (decide (c = s)) as [->|Hne].
  - rewrite decide_False by (intros H; by apply H). symmetry. apply list_filter_all. by intros c Hin ->.
  - by rewrite decide_True, IH.
Qed.

Lemma stop_fold stop : forall f, NoDup (fo_consumers f) ->
  let f' := foldl (fun f s => mkFollowing (fo_running f ∖ {[s]}) (cancel s (fo_consumers f))) f stop in
  fo_running f' = fo_running f ∖ list_to_set stop /\ fo_consumers f' = filter (fun c => c ∉ stop) (fo_consumers f).
Proof.
  induction stop as [|s stop IH]; intros f Hnd; cbv zeta; cbn [foldl].
  { split; [set_solver|]. symmetry. apply list_filter_all. intros c _ ?%elem_of_nil. done. }
  destruct (IH (mkFollowing (fo_running f ∖ {[s]}) (cancel s (fo_consumers f)))) as [-> ->]; cbn [fo_running fo_consumers];
    rewrite cancel_unique by done; [by apply NoDup_filter|].
  split; [set_solver|]. rewrite list_filter_filter. apply list_filter_iff. intros c. set_solver.
Qed.

Lemma start_fold start : forall f,
  let f' := foldl (fun f s => mkFollowing ({[s]} ∪ fo_running f) (s :: fo_consumers f)) f start in
  fo_running f' = fo_running f ∪ list_to_set start /\ fo_consumers f' = reverse start ++ fo_consumers f.
Proof.
  induction start as [|s start IH]; intros f; cbv zeta; cbn [foldl]; [split; [set_solver|done]|].
  destruct (IH (mkFollowing ({[s]} ∪ fo_running f) (s :: fo_consumers f))) as [-> ->]. cbn [fo_running fo_consumers].
  split; [set_solver|by rewrite reverse_cons, <- app_assoc].
Qed.

Lemma announced_serves f desired :
  fo_consumers f ≡ₚ elements (fo_running f) -> NoDup desired ->
  let f' := announced f desired in
  fo_running f' = list_to_set (filter (fun s => s <> "") desired) /\ fo_consumers f' ≡ₚ elements (fo_running f').
Proof.
  intros Hc Hnd. cbv zeta. unfold announced, reconcileSites. rewrite wantSite_fold.
  set (W := list_to_set (filter (fun s => s <> "") desired) : gset string).
  set (start := filter (fun s => s <> "" /\ s ∉ fo_running f) desired).
  set (stop := filter (fun s => s ∉ W) (elements (fo_running f))).
  assert (NoDup (fo_consumers f)) as Hnc by (rewrite Hc; apply NoDup_elements).
  destruct (stop_fold (sort_Strings stop) f Hnc) as [E1 E2]. cbv zeta in *. set (f1 := foldl _ f (sort_Strings stop)) in *.
  destruct (start_fold (sort_Strings start) f1) as [-> ->]. rewrite E1, E2.
  assert (forall l s, s ∈ sort_Strings l <-> s ∈ l) as Hsort by (intros l s; apply elem_of_merge_sort).
  assert (fo_running f ∖ list_to_set (sort_Strings stop) ∪ list_to_set (sort_Strings start) = W) as ->.
  { apply set_eq. intros s. rewrite elem_of_union, elem_of_difference, !elem_of_list_to_set, !Hsort. unfold stop, start, W.
    rewrite !list_elem_of_filter, elem_of_elements, !elem_of_list_to_set, !list_elem_of_filter.
    destruct (decide (s ∈ fo_running f)), (decide (s = "")), (decide (s ∈ desired)); tauto. }
  split; [done|]. apply NoDup_Permutation.
  - apply NoDup_app. split; [by rewrite reverse_Permutation; apply NoDup_merge_sort, NoDup_filter|]. split; [|by apply NoDup_filter].
    intros s Hs [_ Hr]%list_elem_of_filter. rewrite Hc, elem_of_elements in Hr. rewrite elem_of_reverse, Hsort in Hs.
    unfold start in Hs. by apply list_elem_of_filter in Hs as [[_ ?] _].
  - apply NoDup_elements.
  - intros s. rewrite elem_of_app, elem_of_reverse, list_elem_of_filter, Hc, !elem_of_elements, !Hsort. unfold stop, start, W.
    rewrite !list_elem_of_filter, elem_of_elements, !elem_of_list_to_set, !list_elem_of_filter.
    destruct (decide (s ∈ fo_running f)), (decide (s = "")), (decide (s ∈ desired)); tauto.
Qed.

(** A poller that follows the announcements consumes, after each of them, the
    queue of every announced site once and no other, as long as no
    announcement names a site twice. *)
Theorem serves_announced (history : list (list string)) desired :
  Forall NoDup (history ++ [desired]) ->
  let f := foldl announced (mkFollowing ∅ []) (history ++ [desired]) in
  fo_consumers f ≡ₚ filter (fun s => s <> "") desired /\ fo_running f = list_to_set (filter (fun s => s <> "") desired).
Proof.
  intros [Hh Hd]%List.Forall_app. apply List.Forall_cons_iff in Hd as [Hd _]. cbv zeta. rewrite foldl_snoc.
  assert (fo_consumers (foldl announced (mkFollowing ∅ []) history) ≡ₚ elements (fo_running (foldl announced (mkFollowing ∅ []) history))) as Hc.
  { induction history as [|d history IH] using rev_ind; [done|]. rewrite foldl_snoc. apply List.Forall_app in Hh as [Hh Hd'].
    apply List.Forall_cons_iff in Hd' as [Hd' _]. by apply announced_serves; [apply IH|]. }
  destruct (announced_serves _ desired Hc Hd) as [E1 E2]. cbv zeta in *. split; [|exact E1]. rewrite E2, E1.
  apply elements_list_to_set. by apply NoDup_filter.
Qed.

Lemma serves_announced_witness :
  fo_consumers (foldl announced (mkFollowing ∅ []) [["lab"; "hq"]; ["hq"; "dc"]]) ≡ₚ ["hq"; "dc"].
Proof. apply (serves_announced [["lab"; "hq"]] ["hq"; "dc"]). repeat constructor; set_solver. Defined.

(** Named twice, a site gets two consumers, of which only one can be stopped
    again. *)
Example announced_twice : fo_consumers (foldl announced (mkFollowing ∅ []) [["hq"; "hq"]; []]) = ["hq"].
Proof. by vm_compute. Qed.

(** ** A worked outage *)

Definition demoSample (ts : Z) : Sample := mkSample "d1" "netinv_uptime" {["family" := "system"]} ts 7.
Definition demoFlush (ts : Z) : MetricBatch := mkMetricBatch "p1" "hq" [demoSample ts].

(** A codec of two batches. *)
Definition demoMarshal (b : MetricBatch) : option bytes :=
  if decide (b = demoFlush 1) then Some (to_bytes "first") else if decide (b = demoFlush 2) then Some (to_bytes "second") else None.
Definition demoUnmarshal (raw : bytes) : option MetricBatch :=
  if decide (raw = to_bytes "first") then Some (demoFlush 1) else if decide (raw = to_bytes "second") then Some (demoFlush 2) else None.

(** A step of the drain loop that nothing goes wrong with. *)
Definition smooth : drainMeets := mkDrainMeets false true true true.

(** The first batch is taken while the link is down and spilled; while it is
    replayed the second one is taken and spilled, between the sending of the
    file and its removal. *)
Definition outageTurns : list turn :=
  [TurnAppend [demoSample 1]; TurnFlush; TurnFinish 0 (mkMeets false 1700000000000000001 Written);
   TurnDrain smooth; TurnDrain smooth; TurnDrain smooth; TurnDrain smooth;
   TurnAppend [demoSample 2]; TurnFlush; TurnFinish 0 (mkMeets false 1700000000000000002 Written);
   TurnDrain smooth; TurnDrain smooth].


Example outage_log :
  (takeTurns demoMarshal demoUnmarshal (mkRuntime "p1" "hq" [] [] 0 (Some (NewDiskBuffer ∅)) Idle) [] outageTurns).2 = [demoFlush 1].
Proof. by vm_compute. Qed.
