(* ===== verification/Float64.v ===== *)
(** Go's float64: IEEE 754 binary64, rounding to nearest even, as the Standard
    Library's [SpecFloat] computes it. NaNs are one value. *)
From Stdlib Require Import ZArith Lia.
From Stdlib Require Import SpecFloat.
From stdpp Require Import base numbers.
From S2P Require Import Prelude.

Definition float64 : Type := spec_float.

#[export] Instance float64_eq_dec : EqDecision float64.
Proof. solve_decision. Defined.

(** float64(i) of an integer. *)
Definition float_of (z : Z) : float64 := binary_normalize 53 1024 z 0 false.
Definition fadd : float64 -> float64 -> float64 := SFadd 53 1024.
Definition fsub : float64 -> float64 -> float64 := SFsub 53 1024.
Definition fmul : float64 -> float64 -> float64 := SFmul 53 1024.
Definition fdiv : float64 -> float64 -> float64 := SFdiv 53 1024.
Definition flt (x y : float64) : bool := SFltb x y.
Definition fle (x y : float64) : bool := SFleb x y.
Definition feq (x y : float64) : bool := SFeqb x y.

(** int64(x): the integer part. What it is of a value that does not fit, the
    language leaves to the machine: here, as on amd64, the least integer. *)
Definition int_of (x : float64) : Z :=
  let whole :=
    match x with
    | S754_zero _ => Some 0
    | S754_finite s m e =>
        let a := if 0 <=? e then Z.pos m * 2 ^ e else Z.pos m / 2 ^ (- e) in Some (if s then - a else a)
    | _ => None
    end in
  match whole with
  | Some z => if (- 2 ^ 63 <=? z) && (z <? 2 ^ 63) then z else - 2 ^ 63
  | None => - 2 ^ 63
  end.

(** [time.Duration.Seconds]. *)
Definition Seconds_float (d : Duration) : float64 :=
  fadd (float_of (Z.quot d Second)) (fdiv (float_of (Z.rem d Second)) (float_of Second)).

Example float_of_third : fmul (fdiv (float_of 1) (float_of 3)) (float_of 3) = float_of 1.
Proof. reflexivity. Qed.
Example int_of_trunc : int_of (fdiv (float_of (-7)) (float_of 2)) = -3.
Proof. reflexivity. Qed.
Example seconds_half : fmul (Seconds_float (1500 * Millisecond)) (float_of 2) = float_of 3.
Proof. reflexivity. Qed.
