(* ===== verification/TrapNames.v ===== *)
(** Package events (names.go, names_vendor.go): the symbolic names of trap OIDs.

    The keys of a Go map literal are distinct, so a table is the list of its
    entries. *)
From Stdlib Require Import ZArith Lia.
From stdpp Require Import base list strings numbers sorting.
From S2P Require Import Prelude GoText GoSort.

(** ** The tables *)

Definition trapNames : list (string * string) :=
  [("1.3.6.1.6.3.1.1.5.1", "coldStart");
   ("1.3.6.1.6.3.1.1.5.2", "warmStart");
   ("1.3.6.1.6.3.1.1.5.3", "linkDown");
   ("1.3.6.1.6.3.1.1.5.4", "linkUp");
   ("1.3.6.1.6.3.1.1.5.5", "authenticationFailure");
   ("1.3.6.1.6.3.1.1.5.6", "egpNeighborLoss");
   ("1.3.6.1.2.1.15.0.1", "bgpEstablishedNotification");
   ("1.3.6.1.2.1.15.0.2", "bgpBackwardTransNotification");
   ("1.3.6.1.2.1.15.7.1", "bgpEstablished");
   ("1.3.6.1.2.1.15.7.2", "bgpBackwardTransition");
   ("1.3.6.1.2.1.47.2.0.1", "entConfigChange")].

Definition fortinetCoreTraps : list (string * string) :=
  [("1.3.6.1.4.1.12356.100.1.3.0.101", "fnTrapCpuThreshold");
   ("1.3.6.1.4.1.12356.100.1.3.0.102", "fnTrapMemThreshold");
   ("1.3.6.1.4.1.12356.100.1.3.0.103", "fnTrapLogDiskThreshold");
   ("1.3.6.1.4.1.12356.100.1.3.0.104", "fnTrapTempHigh");
   ("1.3.6.1.4.1.12356.100.1.3.0.105", "fnTrapVoltageOutOfRange");
   ("1.3.6.1.4.1.12356.100.1.3.0.106", "fnTrapPowerSupply");
   ("1.3.6.1.4.1.12356.100.1.3.0.107", "fnTrapAmcIfBypassMode");
   ("1.3.6.1.4.1.12356.100.1.3.0.108", "fnTrapFanFailure");
   ("1.3.6.1.4.1.12356.100.1.3.0.109", "fnTrapIfEnterBypassMode");
   ("1.3.6.1.4.1.12356.100.1.3.0.110", "fnTrapIfExitBypassMode");
   ("1.3.6.1.4.1.12356.100.1.3.0.111", "fnTrapSecurityLevelChange");
   ("1.3.6.1.4.1.12356.100.1.3.0.201", "fnTrapIpChange");
   ("1.3.6.1.4.1.12356.100.1.3.0.999", "fnTrapTest")].

Definition fortigateTraps : list (string * string) :=
  [("1.3.6.1.4.1.12356.101.2.0.301", "fgTrapVpnTunUp");
   ("1.3.6.1.4.1.12356.101.2.0.302", "fgTrapVpnTunDown");
   ("1.3.6.1.4.1.12356.101.2.0.401", "fgTrapHaSwitch");
   ("1.3.6.1.4.1.12356.101.2.0.402", "fgTrapHaStateChange");
   ("1.3.6.1.4.1.12356.101.2.0.403", "fgTrapHaHBFail");
   ("1.3.6.1.4.1.12356.101.2.0.404", "fgTrapHaMemberDown");
   ("1.3.6.1.4.1.12356.101.2.0.405", "fgTrapHaMemberUp");
   ("1.3.6.1.4.1.12356.101.2.0.503", "fgTrapIpsSignature");
   ("1.3.6.1.4.1.12356.101.2.0.504", "fgTrapIpsAnomaly");
   ("1.3.6.1.4.1.12356.101.2.0.505", "fgTrapIpsPkgUpdate");
   ("1.3.6.1.4.1.12356.101.2.0.506", "fgTrapIpsFailOpen");
   ("1.3.6.1.4.1.12356.101.2.0.601", "fgTrapAvVirus");
   ("1.3.6.1.4.1.12356.101.2.0.602", "fgTrapAvOversize");
   ("1.3.6.1.4.1.12356.101.2.0.603", "fgTrapAvPattern");
   ("1.3.6.1.4.1.12356.101.2.0.604", "fgTrapAvFragmented");
   ("1.3.6.1.4.1.12356.101.2.0.605", "fgTrapAvEnterConserve");
   ("1.3.6.1.4.1.12356.101.2.0.606", "fgTrapAvBypass");
   ("1.3.6.1.4.1.12356.101.2.0.607", "fgTrapAvOversizePass");
   ("1.3.6.1.4.1.12356.101.2.0.608", "fgTrapAvOversizeBlock");
   ("1.3.6.1.4.1.12356.101.2.0.701", "fgTrapFazDisconnect");
   ("1.3.6.1.4.1.12356.101.2.0.702", "fgTrapFaz");
   ("1.3.6.1.4.1.12356.101.2.0.801", "fgTrapWcApUp");
   ("1.3.6.1.4.1.12356.101.2.0.802", "fgTrapWcApDown");
   ("1.3.6.1.4.1.12356.101.2.0.901", "fgTrapFcSwUp");
   ("1.3.6.1.4.1.12356.101.2.0.902", "fgTrapFcSwDown");
   ("1.3.6.1.4.1.12356.101.6.0.1000", "fgFmTrapDeployComplete");
   ("1.3.6.1.4.1.12356.101.6.0.1002", "fgFmTrapDeployInProgress");
   ("1.3.6.1.4.1.12356.101.6.0.1003", "fgFmTrapConfChange");
   ("1.3.6.1.4.1.12356.101.6.0.1004", "fgFmTrapIfChange");
   ("1.3.6.1.4.1.12356.101.2.0.1101", "fgTrapServerLoadBalanceRealServerDown");
   ("1.3.6.1.4.1.12356.101.2.0.1102", "fgTrapPerCpuHigh");
   ("1.3.6.1.4.1.12356.101.2.0.1201", "fgTrapDeviceNew");
   ("1.3.6.1.4.1.12356.101.2.0.1301", "fgTrapDhcp");
   ("1.3.6.1.4.1.12356.101.2.0.1401", "fgTrapPoolUsage");
   ("1.3.6.1.4.1.12356.101.2.0.1501", "fgTrapSlbc");
   ("1.3.6.1.4.1.12356.101.2.0.1601", "fgTrapInterface");
   ("1.3.6.1.4.1.12356.101.2.0.1701", "fgTrapDio")].

Definition panTraps : list (string * string) :=
  [("1.3.6.1.4.1.25461.2.1.3.2.0.2", "panConfigTrap");
   ("1.3.6.1.4.1.25461.2.1.3.2.0.3", "panTrafficTrap");
   ("1.3.6.1.4.1.25461.2.1.3.2.0.4", "panThreatTrap");
   ("1.3.6.1.4.1.25461.2.1.3.2.0.5", "panHipMatchTrap");
   ("1.3.6.1.4.1.25461.2.1.3.2.0.6", "panGtpTrap");
   ("1.3.6.1.4.1.25461.2.1.3.2.0.7", "panUseridTrap");
   ("1.3.6.1.4.1.25461.2.1.3.2.0.8", "panAuthTrap");
   ("1.3.6.1.4.1.25461.2.1.3.2.0.9", "panSctpTrap");
   ("1.3.6.1.4.1.25461.2.1.3.2.0.10", "panCorrTrap");
   ("1.3.6.1.4.1.25461.2.1.3.2.0.11", "panIpTagTrap");
   ("1.3.6.1.4.1.25461.2.1.3.2.0.12", "panGlobalprotectTrap");
   ("1.3.6.1.4.1.25461.2.1.3.2.0.100", "panCryptoCertExpiryTrap");
   ("1.3.6.1.4.1.25461.2.1.3.2.0.101", "panCryptoMkeyExpiryTrap");
   ("1.3.6.1.4.1.25461.2.1.3.2.0.102", "panCryptoMkeyExpiryReminderTrap");
   ("1.3.6.1.4.1.25461.2.1.3.2.0.103", "panCryptoHSMStateChangeTrap");
   ("1.3.6.1.4.1.25461.2.1.3.2.0.104", "panCryptoPrivateKeyExportTrap");
   ("1.3.6.1.4.1.25461.2.1.3.2.0.105", "panCryptoDeployMkeyChangeTrap");
   ("1.3.6.1.4.1.25461.2.1.3.2.0.106", "panCryptoMkeyChangeTrap");
   ("1.3.6.1.4.1.25461.2.1.3.2.0.200", "panDHCPLeaseStartTrap");
   ("1.3.6.1.4.1.25461.2.1.3.2.0.201", "panDHCPLeaseEndTrap");
   ("1.3.6.1.4.1.25461.2.1.3.2.0.202", "panDHCPServerOnTrap");
   ("1.3.6.1.4.1.25461.2.1.3.2.0.203", "panDHCPServerAutoProbeOnTrap");
   ("1.3.6.1.4.1.25461.2.1.3.2.0.204", "panDHCPServerAutoProbeOffTrap");
   ("1.3.6.1.4.1.25461.2.1.3.2.0.205", "panDHCPServerNoFreeIpTrap");
   ("1.3.6.1.4.1.25461.2.1.3.2.0.206", "panDHCPIpAlreadyInUseTrap");
   ("1.3.6.1.4.1.25461.2.1.3.2.0.207", "panDHCPRelayOnTrap");
   ("1.3.6.1.4.1.25461.2.1.3.2.0.208", "panDHCPRelayOffTrap");
   ("1.3.6.1.4.1.25461.2.1.3.2.0.209", "panDHCPRelay6OnTrap");
   ("1.3.6.1.4.1.25461.2.1.3.2.0.210", "panDHCPRelay6OffTrap");
   ("1.3.6.1.4.1.25461.2.1.3.2.0.211", "panDHCPIfUpdateFailTrap");
   ("1.3.6.1.4.1.25461.2.1.3.2.0.212", "panDHCPIfUpdateOkTrap");
   ("1.3.6.1.4.1.25461.2.1.3.2.0.213", "panDHCPIfClearTrap");
   ("1.3.6.1.4.1.25461.2.1.3.2.0.214", "panDHCPIfRenewTriggerTrap");
   ("1.3.6.1.4.1.25461.2.1.3.2.0.215", "panDHCPIfReleaseTriggerTrap");
   ("1.3.6.1.4.1.25461.2.1.3.2.0.216", "panDHCPIfRcvNakTrap");
   ("1.3.6.1.4.1.25461.2.1.3.2.0.217", "panDHCPIfInheritTrap");
   ("1.3.6.1.4.1.25461.2.1.3.2.0.218", "panDHCPIfDuplicateIpIntfTrap");
   ("1.3.6.1.4.1.25461.2.1.3.2.0.219", "panDHCPIfDuplicateIpRemoteTrap");
   ("1.3.6.1.4.1.25461.2.1.3.2.0.300", "panDNSProxyCacheClearedTrap");
   ("1.3.6.1.4.1.25461.2.1.3.2.0.301", "panDNSProxyResolveFailTrap");
   ("1.3.6.1.4.1.25461.2.1.3.2.0.302", "panDNSProxyObjectEnableTrap");
   ("1.3.6.1.4.1.25461.2.1.3.2.0.303", "panDNSProxyIfAddTrap");
   ("1.3.6.1.4.1.25461.2.1.3.2.0.304", "panDNSProxyIfDelTrap");
   ("1.3.6.1.4.1.25461.2.1.3.2.0.305", "panDNSProxyIfInheritTrap");
   ("1.3.6.1.4.1.25461.2.1.3.2.0.500", "panDOSDosRuleChangedTrap");
   ("1.3.6.1.4.1.25461.2.1.3.2.0.600", "panGeneralGeneralTrap");
   ("1.3.6.1.4.1.25461.2.1.3.2.0.601", "panGeneralSystemStartTrap");
   ("1.3.6.1.4.1.25461.2.1.3.2.0.602", "panGeneralSystemShutdownTrap");
   ("1.3.6.1.4.1.25461.2.1.3.2.0.603", "panGeneralAuthFailTrap");
   ("1.3.6.1.4.1.25461.2.1.3.2.0.604", "panGeneralAuthSuccessTrap");
   ("1.3.6.1.4.1.25461.2.1.3.2.0.605", "panGeneralTacLoginTrap");
   ("1.3.6.1.4.1.25461.2.1.3.2.0.606", "panGeneralAuthServerDownTrap");
   ("1.3.6.1.4.1.25461.2.1.3.2.0.607", "panGeneralAdminDiscardTrap");
   ("1.3.6.1.4.1.25461.2.1.3.2.0.608", "panGeneralBootstrapFailureTrap");
   ("1.3.6.1.4.1.25461.2.1.3.2.0.700", "panGlobalprotectgatewayRegistSuccTrap");
   ("1.3.6.1.4.1.25461.2.1.3.2.0.701", "panGlobalprotectgatewayRegistFailTrap");
   ("1.3.6.1.4.1.25461.2.1.3.2.0.702", "panGlobalprotectgatewayLogoutSuccTrap");
   ("1.3.6.1.4.1.25461.2.1.3.2.0.703", "panGlobalprotectgatewayLogoutFailTrap");
   ("1.3.6.1.4.1.25461.2.1.3.2.0.704", "panGlobalProtectGatewayConfigSuccTrap");
   ("1.3.6.1.4.1.25461.2.1.3.2.0.705", "panGlobalProtectGatewayConfigFailTrap");
   ("1.3.6.1.4.1.25461.2.1.3.2.0.706", "panGlobalProtectGatewayConfigReleaseTrap");
   ("1.3.6.1.4.1.25461.2.1.3.2.0.707", "panGlobalProtectGatewaySwitchSuccTrap");
   ("1.3.6.1.4.1.25461.2.1.3.2.0.708", "panGlobalProtectGatewaySwitchFailTrap");
   ("1.3.6.1.4.1.25461.2.1.3.2.0.709", "panGlobalProtectGatewayAuthSuccTrap");
   ("1.3.6.1.4.1.25461.2.1.3.2.0.710", "panGlobalProtectGatewayAuthFailTrap");
   ("1.3.6.1.4.1.25461.2.1.3.2.0.711", "panGlobalProtectGatewayAgentMsgTrap");
   ("1.3.6.1.4.1.25461.2.1.3.2.0.712", "panGlobalProtectGatewayInvalidLicenseTrap");
   ("1.3.6.1.4.1.25461.2.1.3.2.0.713", "panGlobalProtectGatewayInheritanceTrap");
   ("1.3.6.1.4.1.25461.2.1.3.2.0.714", "panGlobalProtectPortalConfigSuccTrap");
   ("1.3.6.1.4.1.25461.2.1.3.2.0.715", "panGlobalProtectPortalConfigFailTrap");
   ("1.3.6.1.4.1.25461.2.1.3.2.0.716", "panGlobalProtectPortalAuthSuccTrap");
   ("1.3.6.1.4.1.25461.2.1.3.2.0.717", "panGlobalProtectPortalAuthFailTrap");
   ("1.3.6.1.4.1.25461.2.1.3.2.0.718", "panGlobalprotectgatewaySatauthSuccTrap");
   ("1.3.6.1.4.1.25461.2.1.3.2.0.719", "panGlobalprotectgatewaySatauthFailTrap");
   ("1.3.6.1.4.1.25461.2.1.3.2.0.720", "panGlobalprotectgatewayRouteAddFailTrap");
   ("1.3.6.1.4.1.25461.2.1.3.2.0.721", "panGlobalprotectgatewayRouteResetFailTrap");
   ("1.3.6.1.4.1.25461.2.1.3.2.0.722", "panGlobalprotectgatewayTunUpTrap");
   ("1.3.6.1.4.1.25461.2.1.3.2.0.723", "panGlobalprotectgatewayTunDownTrap");
   ("1.3.6.1.4.1.25461.2.1.3.2.0.724", "panGlobalprotectgatewayDupSubnetsTrap");
   ("1.3.6.1.4.1.25461.2.1.3.2.0.725", "panGlobalprotectgatewayDeniedRoutesTrap");
   ("1.3.6.1.4.1.25461.2.1.3.2.0.726", "panGlobalprotectgatewayTunMonDownTrap");
   ("1.3.6.1.4.1.25461.2.1.3.2.0.727", "panGlobalprotectgatewayTunMonUpTrap");
   ("1.3.6.1.4.1.25461.2.1.3.2.0.728", "panGlobalprotectportalSatconfigSuccTrap");
   ("1.3.6.1.4.1.25461.2.1.3.2.0.729", "panGlobalprotectportalSatconfigFailTrap");
   ("1.3.6.1.4.1.25461.2.1.3.2.0.730", "panGlobalprotectportalSatauthSuccTrap");
   ("1.3.6.1.4.1.25461.2.1.3.2.0.731", "panGlobalprotectportalSatauthFailTrap");
   ("1.3.6.1.4.1.25461.2.1.3.2.0.732", "panGlobalprotectportalSatcertSuccTrap");
   ("1.3.6.1.4.1.25461.2.1.3.2.0.733", "panGlobalprotectportalSatcertFailTrap");
   ("1.3.6.1.4.1.25461.2.1.3.2.0.734", "panGlobalprotectgatewayTunHardlifetimeExpiredTrap");
   ("1.3.6.1.4.1.25461.2.1.3.2.0.735", "panGlobalprotectgatewayTunDpInstallErrTrap");
   ("1.3.6.1.4.1.25461.2.1.3.2.0.736", "panGlobalprotectportalGenportalcookieSuccTrap");
   ("1.3.6.1.4.1.25461.2.1.3.2.0.737", "panGlobalprotectportalGenportalcookieFailTrap");
   ("1.3.6.1.4.1.25461.2.1.3.2.0.738", "panGlobalprotectgatewayFramedIpSuccTrap");
   ("1.3.6.1.4.1.25461.2.1.3.2.0.739", "panGlobalprotectgatewayFramedIpFailTrap");
   ("1.3.6.1.4.1.25461.2.1.3.2.0.740", "panGlobalprotectgatewayGencookieSuccTrap");
   ("1.3.6.1.4.1.25461.2.1.3.2.0.741", "panGlobalprotectgatewayGencookieFailTrap");
   ("1.3.6.1.4.1.25461.2.1.3.2.0.742", "panGlobalprotectgatewayFramedIpv6SuccTrap");
   ("1.3.6.1.4.1.25461.2.1.3.2.0.743", "panGlobalprotectgatewayFramedIpv6FailTrap");
   ("1.3.6.1.4.1.25461.2.1.3.2.0.744", "panGlobalprotectportalLogoutSuccTrap");
   ("1.3.6.1.4.1.25461.2.1.3.2.0.745", "panGlobalprotectportalLogoutFailTrap");
   ("1.3.6.1.4.1.25461.2.1.3.2.0.800", "panHAPreemptTrap");
   ("1.3.6.1.4.1.25461.2.1.3.2.0.801", "panHAStateChangeTrap");
   ("1.3.6.1.4.1.25461.2.1.3.2.0.802", "panHAStateOverrideTrap");
   ("1.3.6.1.4.1.25461.2.1.3.2.0.803", "panHADataplaneDownTrap");
   ("1.3.6.1.4.1.25461.2.1.3.2.0.804", "panHAPolicyPushFailTrap");
   ("1.3.6.1.4.1.25461.2.1.3.2.0.805", "panHAHa1LinkChangeTrap");
   ("1.3.6.1.4.1.25461.2.1.3.2.0.806", "panHAHa2LinkChangeTrap");
   ("1.3.6.1.4.1.25461.2.1.3.2.0.807", "panHAConnectChangeTrap");
   ("1.3.6.1.4.1.25461.2.1.3.2.0.808", "panHAPathMonitorDownTrap");
   ("1.3.6.1.4.1.25461.2.1.3.2.0.809", "panHALinkMonitorDownTrap");
   ("1.3.6.1.4.1.25461.2.1.3.2.0.810", "panHAHa3LinkChangeTrap");
   ("1.3.6.1.4.1.25461.2.1.3.2.0.811", "panHAPathMonitorUpTrap");
   ("1.3.6.1.4.1.25461.2.1.3.2.0.812", "panHALinkMonitorUpTrap");
   ("1.3.6.1.4.1.25461.2.1.3.2.0.813", "panHAPeerSyncFailureTrap");
   ("1.3.6.1.4.1.25461.2.1.3.2.0.814", "panHAConfigFailureTrap");
   ("1.3.6.1.4.1.25461.2.1.3.2.0.815", "panHAConfigNotSynchTrap");
   ("1.3.6.1.4.1.25461.2.1.3.2.0.816", "panHAPeerErrorTrap");
   ("1.3.6.1.4.1.25461.2.1.3.2.0.817", "panHAPre13Trap");
   ("1.3.6.1.4.1.25461.2.1.3.2.0.818", "panHAPre20Trap");
   ("1.3.6.1.4.1.25461.2.1.3.2.0.819", "panHAPeerVersionMatchTrap");
   ("1.3.6.1.4.1.25461.2.1.3.2.0.820", "panHAPeerVersionSupportedTrap");
   ("1.3.6.1.4.1.25461.2.1.3.2.0.821", "panHAPeerVersionUnsupportedTrap");
   ("1.3.6.1.4.1.25461.2.1.3.2.0.822", "panHAPeerVersionDegradedTrap");
   ("1.3.6.1.4.1.25461.2.1.3.2.0.823", "panHAPeerCompatMismatchTrap");
   ("1.3.6.1.4.1.25461.2.1.3.2.0.824", "panHAPeerCompatMatchTrap");
   ("1.3.6.1.4.1.25461.2.1.3.2.0.825", "panHAPeerCompatFailTrap");
   ("1.3.6.1.4.1.25461.2.1.3.2.0.826", "panHAPeerSplitBrainTrap");
   ("1.3.6.1.4.1.25461.2.1.3.2.0.827", "panHASplitBrainTrap");
   ("1.3.6.1.4.1.25461.2.1.3.2.0.828", "panHAPreemptLoopTrap");
   ("1.3.6.1.4.1.25461.2.1.3.2.0.829", "panHANonFunctionalLoopTrap");
   ("1.3.6.1.4.1.25461.2.1.3.2.0.830", "panHAPeerShutdownTrap");
   ("1.3.6.1.4.1.25461.2.1.3.2.0.831", "panHANfsPanlogsFailTrap");
   ("1.3.6.1.4.1.25461.2.1.3.2.0.832", "panHAInternalHaErrorTrap");
   ("1.3.6.1.4.1.25461.2.1.3.2.0.833", "panHASystemFailureTrap");
   ("1.3.6.1.4.1.25461.2.1.3.2.0.834", "panHAHa2KeepAliveTrap");
   ("1.3.6.1.4.1.25461.2.1.3.2.0.835", "panHASlotFailureTrap");
   ("1.3.6.1.4.1.25461.2.1.3.2.0.836", "panHASlotMismatchTrap");
   ("1.3.6.1.4.1.25461.2.1.3.2.0.837", "panHASlotControlFailureTrap");
   ("1.3.6.1.4.1.25461.2.1.3.2.0.838", "panHASlotControlEventTrap");
   ("1.3.6.1.4.1.25461.2.1.3.2.0.839", "panHASessionSynchTrap");
   ("1.3.6.1.4.1.25461.2.1.3.2.0.840", "panHAVmAwsInterfaceTrap");
   ("1.3.6.1.4.1.25461.2.1.3.2.0.900", "panHWDiskErrorsTrap");
   ("1.3.6.1.4.1.25461.2.1.3.2.0.901", "panHWSlotUpTrap");
   ("1.3.6.1.4.1.25461.2.1.3.2.0.902", "panHWInsufficientPowerTrap");
   ("1.3.6.1.4.1.25461.2.1.3.2.0.903", "panHWSlotUnsupportedTrap");
   ("1.3.6.1.4.1.25461.2.1.3.2.0.904", "panHWSlotStartingTrap");
   ("1.3.6.1.4.1.25461.2.1.3.2.0.905", "panHWSlotStoppingTrap");
   ("1.3.6.1.4.1.25461.2.1.3.2.0.906", "panHWSlotFailureTrap");
   ("1.3.6.1.4.1.25461.2.1.3.2.0.907", "panHWSlotPoweroffTrap");
   ("1.3.6.1.4.1.25461.2.1.3.2.0.908", "panHWSlotAdminpoweroffTrap");
   ("1.3.6.1.4.1.25461.2.1.3.2.0.909", "panHWSlotInsertedTrap");
   ("1.3.6.1.4.1.25461.2.1.3.2.0.910", "panHWSlotRemovedTrap");
   ("1.3.6.1.4.1.25461.2.1.3.2.0.911", "panHWPsInsertedTrap");
   ("1.3.6.1.4.1.25461.2.1.3.2.0.912", "panHWPsRemovedTrap");
   ("1.3.6.1.4.1.25461.2.1.3.2.0.913", "panHWPsFailureTrap");
   ("1.3.6.1.4.1.25461.2.1.3.2.0.914", "panHWFanInsertedTrap");
   ("1.3.6.1.4.1.25461.2.1.3.2.0.915", "panHWFanRemovedTrap");
   ("1.3.6.1.4.1.25461.2.1.3.2.0.916", "panHWFanFailureTrap");
   ("1.3.6.1.4.1.25461.2.1.3.2.0.917", "panHWBootstrapImageErrorTrap");
   ("1.3.6.1.4.1.25461.2.1.3.2.0.918", "panHWBootstrapConfigNotFoundTrap");
   ("1.3.6.1.4.1.25461.2.1.3.2.0.919", "panHWBadParamsBootstrapConfigTrap");
   ("1.3.6.1.4.1.25461.2.1.3.2.0.920", "panHWMediaSanityFailureTrap");
   ("1.3.6.1.4.1.25461.2.1.3.2.0.921", "panHWUsbMediaPrepSuccessTrap");
   ("1.3.6.1.4.1.25461.2.1.3.2.0.922", "panHWBootstrapSuccessTrap");
   ("1.3.6.1.4.1.25461.2.1.3.2.0.923", "panHWBootstrapLicenseFailureTrap");
   ("1.3.6.1.4.1.25461.2.1.3.2.0.924", "panHWBootstrapContentFailureTrap");
   ("1.3.6.1.4.1.25461.2.1.3.2.0.925", "panHWBootstrapMediaDetectTrap");
   ("1.3.6.1.4.1.25461.2.1.3.2.0.926", "panHWBootstrapMediaSanityTrap");
   ("1.3.6.1.4.1.25461.2.1.3.2.0.927", "panHWBootstrapImageUpgradeTrap");
   ("1.3.6.1.4.1.25461.2.1.3.2.0.928", "panHWBootstrapOpCmdTrap");
   ("1.3.6.1.4.1.25461.2.1.3.2.0.1000", "panNTDPRestartTrap");
   ("1.3.6.1.4.1.25461.2.1.3.2.0.1001", "panNTDPTimeLearnTrap");
   ("1.3.6.1.4.1.25461.2.1.3.2.0.1002", "panNTDPSyncTrap");
   ("1.3.6.1.4.1.25461.2.1.3.2.0.1003", "panNTDPAuthTrap");
   ("1.3.6.1.4.1.25461.2.1.3.2.0.1100", "panPBFNhUpTrap");
   ("1.3.6.1.4.1.25461.2.1.3.2.0.1101", "panPBFNhDownTrap");
   ("1.3.6.1.4.1.25461.2.1.3.2.0.1200", "panPORTLinkChangeTrap");
   ("1.3.6.1.4.1.25461.2.1.3.2.0.1201", "panPORTNonqualSfpTrap");
   ("1.3.6.1.4.1.25461.2.1.3.2.0.1202", "panPORTNonqualSfpPlusTrap");
   ("1.3.6.1.4.1.25461.2.1.3.2.0.1203", "panPORTNonqualXfpTrap");
   ("1.3.6.1.4.1.25461.2.1.3.2.0.1204", "panPORTNonsuppForcedTrap");
   ("1.3.6.1.4.1.25461.2.1.3.2.0.1205", "panPORTInvalidModuleTrap");
   ("1.3.6.1.4.1.25461.2.1.3.2.0.1206", "panPORTSdwanLinkChangeTrap");
   ("1.3.6.1.4.1.25461.2.1.3.2.0.1300", "panPPPOEInitiateTrap");
   ("1.3.6.1.4.1.25461.2.1.3.2.0.1301", "panPPPOEConnectTrap");
   ("1.3.6.1.4.1.25461.2.1.3.2.0.1302", "panPPPOEConnectFailTrap");
   ("1.3.6.1.4.1.25461.2.1.3.2.0.1303", "panPPPOETerminateTrap");
   ("1.3.6.1.4.1.25461.2.1.3.2.0.1304", "panPPPOEIfUpdateFailTrap");
   ("1.3.6.1.4.1.25461.2.1.3.2.0.1400", "panRASRasmgrConfigP1SuccessTrap");
   ("1.3.6.1.4.1.25461.2.1.3.2.0.1401", "panRASRasmgrConfigP1FailedTrap");
   ("1.3.6.1.4.1.25461.2.1.3.2.0.1402", "panRASRasmgrConfigP1AbortTrap");
   ("1.3.6.1.4.1.25461.2.1.3.2.0.1403", "panRASRasmgrConfigP2SuccessTrap");
   ("1.3.6.1.4.1.25461.2.1.3.2.0.1404", "panRASRasmgrConfigP2FailedTrap");
   ("1.3.6.1.4.1.25461.2.1.3.2.0.1405", "panRASRasmgrDaemonStartTrap");
   ("1.3.6.1.4.1.25461.2.1.3.2.0.1406", "panRASRasmgrDaemonExitTrap");
   ("1.3.6.1.4.1.25461.2.1.3.2.0.1407", "panRASRasmgrDaemonInitTrap");
   ("1.3.6.1.4.1.25461.2.1.3.2.0.1408", "panRASRasmgrFlowFullSyncStartTrap");
   ("1.3.6.1.4.1.25461.2.1.3.2.0.1409", "panRASRasmgrFlowFullSyncAbortTrap");
   ("1.3.6.1.4.1.25461.2.1.3.2.0.1410", "panRASRasmgrFlowFullSyncDoneTrap");
   ("1.3.6.1.4.1.25461.2.1.3.2.0.1411", "panRASRasmgrHaFullSyncStartTrap");
   ("1.3.6.1.4.1.25461.2.1.3.2.0.1412", "panRASRasmgrHaFullSyncAbortTrap");
   ("1.3.6.1.4.1.25461.2.1.3.2.0.1413", "panRASRasmgrHaFullSyncDoneTrap");
   ("1.3.6.1.4.1.25461.2.1.3.2.0.1500", "panROUTINGRoutedConfigP1SuccessTrap");
   ("1.3.6.1.4.1.25461.2.1.3.2.0.1501", "panROUTINGRoutedConfigP1FailedTrap");
   ("1.3.6.1.4.1.25461.2.1.3.2.0.1502", "panROUTINGRoutedConfigP1AbortTrap");
   ("1.3.6.1.4.1.25461.2.1.3.2.0.1503", "panROUTINGRoutedConfigP2SuccessTrap");
   ("1.3.6.1.4.1.25461.2.1.3.2.0.1504", "panROUTINGRoutedConfigP2FailedTrap");
   ("1.3.6.1.4.1.25461.2.1.3.2.0.1505", "panROUTINGRoutedDaemonStartTrap");
   ("1.3.6.1.4.1.25461.2.1.3.2.0.1506", "panROUTINGRoutedDaemonExitTrap");
   ("1.3.6.1.4.1.25461.2.1.3.2.0.1507", "panROUTINGRoutedDaemonInitTrap");
   ("1.3.6.1.4.1.25461.2.1.3.2.0.1508", "panROUTINGRoutedFibSyncPeerBackupTrap");
   ("1.3.6.1.4.1.25461.2.1.3.2.0.1509", "panROUTINGRoutedFibSyncSelfMasterTrap");
   ("1.3.6.1.4.1.25461.2.1.3.2.0.1510", "panROUTINGRoutedRTMBadRouteTrap");
   ("1.3.6.1.4.1.25461.2.1.3.2.0.1511", "panROUTINGRoutedOSPFLSAChksumFailedTrap");
   ("1.3.6.1.4.1.25461.2.1.3.2.0.1512", "panROUTINGRoutedOSPFLSAChksumInvalidTrap");
   ("1.3.6.1.4.1.25461.2.1.3.2.0.1513", "panROUTINGRoutedOSPFAuthtypeBadTrap");
   ("1.3.6.1.4.1.25461.2.1.3.2.0.1514", "panROUTINGRoutedOSPFPasswordBadTrap");
   ("1.3.6.1.4.1.25461.2.1.3.2.0.1515", "panROUTINGRoutedOSPFChksumBadTrap");
   ("1.3.6.1.4.1.25461.2.1.3.2.0.1516", "panROUTINGRoutedOSPFSequenceBadTrap");
   ("1.3.6.1.4.1.25461.2.1.3.2.0.1517", "panROUTINGRoutedOSPFMd5chksumBadTrap");
   ("1.3.6.1.4.1.25461.2.1.3.2.0.1518", "panROUTINGRoutedOSPFMd5lengthBadTrap");
   ("1.3.6.1.4.1.25461.2.1.3.2.0.1519", "panROUTINGRoutedOSPFHelloHelloIntvalBadTrap");
   ("1.3.6.1.4.1.25461.2.1.3.2.0.1520", "panROUTINGRoutedOSPFHelloDeadIntvalBadTrap");
   ("1.3.6.1.4.1.25461.2.1.3.2.0.1521", "panROUTINGRoutedOSPFHelloNetmaskBadTrap");
   ("1.3.6.1.4.1.25461.2.1.3.2.0.1522", "panROUTINGRoutedOSPFHelloAreaTypeBadTrap");
   ("1.3.6.1.4.1.25461.2.1.3.2.0.1523", "panROUTINGRoutedOSPFNeighbor2dirTrap");
   ("1.3.6.1.4.1.25461.2.1.3.2.0.1524", "panROUTINGRoutedOSPFNeighborFullTrap");
   ("1.3.6.1.4.1.25461.2.1.3.2.0.1525", "panROUTINGRoutedOSPFNeighborDownTrap");
   ("1.3.6.1.4.1.25461.2.1.3.2.0.1526", "panROUTINGRoutedRIPPeerAddTrap");
   ("1.3.6.1.4.1.25461.2.1.3.2.0.1527", "panROUTINGRoutedRIPPeerDelTrap");
   ("1.3.6.1.4.1.25461.2.1.3.2.0.1528", "panROUTINGRoutedRIPAuthtypeBadTrap");
   ("1.3.6.1.4.1.25461.2.1.3.2.0.1529", "panROUTINGRoutedRIPAuthFailedTrap");
   ("1.3.6.1.4.1.25461.2.1.3.2.0.1530", "panROUTINGRoutedRIPMd5lengthBadTrap");
   ("1.3.6.1.4.1.25461.2.1.3.2.0.1531", "panROUTINGRoutedBGPPeerEnterEstablishedTrap");
   ("1.3.6.1.4.1.25461.2.1.3.2.0.1532", "panROUTINGRoutedBGPPeerLeftEstablishedTrap");
   ("1.3.6.1.4.1.25461.2.1.3.2.0.1533", "panROUTINGRoutedBGPPeerFailedTrap");
   ("1.3.6.1.4.1.25461.2.1.3.2.0.1534", "panROUTINGRoutedBGPPeerRestartedTrap");
   ("1.3.6.1.4.1.25461.2.1.3.2.0.1535", "panROUTINGRoutedBGPPeerRestartFailedTrap");
   ("1.3.6.1.4.1.25461.2.1.3.2.0.1536", "panROUTINGRoutedBGPRefreshSentTrap");
   ("1.3.6.1.4.1.25461.2.1.3.2.0.1537", "panROUTINGRoutedBGPRibinRecalcTrap");
   ("1.3.6.1.4.1.25461.2.1.3.2.0.1538", "panROUTINGRoutedPIMInterfaceStateChangedTrap");
   ("1.3.6.1.4.1.25461.2.1.3.2.0.1539", "panROUTINGRoutedPIMNewDrElectedTrap");
   ("1.3.6.1.4.1.25461.2.1.3.2.0.1540", "panROUTINGRoutedPIMNeighborDiscoveredTrap");
   ("1.3.6.1.4.1.25461.2.1.3.2.0.1541", "panROUTINGRoutedPIMNeighborDisappearedTrap");
   ("1.3.6.1.4.1.25461.2.1.3.2.0.1542", "panROUTINGRoutedIGMPWrongVersionTrap");
   ("1.3.6.1.4.1.25461.2.1.3.2.0.1543", "panROUTINGRoutedGenericEventTrap");
   ("1.3.6.1.4.1.25461.2.1.3.2.0.1544", "panROUTINGRoutedOSPFStartGracefulRestartTrap");
   ("1.3.6.1.4.1.25461.2.1.3.2.0.1545", "panROUTINGRoutedOSPFStoppedGracefulRestartTrap");
   ("1.3.6.1.4.1.25461.2.1.3.2.0.1546", "panROUTINGRoutedOSPFStartHelperNodeTrap");
   ("1.3.6.1.4.1.25461.2.1.3.2.0.1547", "panROUTINGRoutedOSPFStopHelperModeTrap");
   ("1.3.6.1.4.1.25461.2.1.3.2.0.1548", "panROUTINGRoutedOSPFNotHelpTrap");
   ("1.3.6.1.4.1.25461.2.1.3.2.0.1549", "panROUTINGRoutedECMPTrap");
   ("1.3.6.1.4.1.25461.2.1.3.2.0.1550", "panROUTINGRoutedBGPPeerMpExtensionNegotiateTrap");
   ("1.3.6.1.4.1.25461.2.1.3.2.0.1551", "panROUTINGPathMonitorFailureTrap");
   ("1.3.6.1.4.1.25461.2.1.3.2.0.1552", "panROUTINGPathMonitorRecoveryTrap");
   ("1.3.6.1.4.1.25461.2.1.3.2.0.1600", "panSSLVPNSslvpnRegistSuccTrap");
   ("1.3.6.1.4.1.25461.2.1.3.2.0.1601", "panSSLVPNSslvpnRegistFailTrap");
   ("1.3.6.1.4.1.25461.2.1.3.2.0.1602", "panSSLVPNSslvpnLogoutSuccTrap");
   ("1.3.6.1.4.1.25461.2.1.3.2.0.1603", "panSSLVPNSslvpnLogoutFailTrap");
   ("1.3.6.1.4.1.25461.2.1.3.2.0.1604", "panSSLVPNSslvpnConfigSuccTrap");
   ("1.3.6.1.4.1.25461.2.1.3.2.0.1605", "panSSLVPNSslvpnConfigFailTrap");
   ("1.3.6.1.4.1.25461.2.1.3.2.0.1606", "panSSLVPNSslvpnConfigReleaseTrap");
   ("1.3.6.1.4.1.25461.2.1.3.2.0.1607", "panSSLVPNSslvpnSwitchSuccTrap");
   ("1.3.6.1.4.1.25461.2.1.3.2.0.1608", "panSSLVPNSslvpnSwitchFailTrap");
   ("1.3.6.1.4.1.25461.2.1.3.2.0.1609", "panSSLVPNSslvpnAuthSuccTrap");
   ("1.3.6.1.4.1.25461.2.1.3.2.0.1610", "panSSLVPNSslvpnAuthFailTrap");
   ("1.3.6.1.4.1.25461.2.1.3.2.0.1700", "panVPNIkeConfigP1SuccessTrap");
   ("1.3.6.1.4.1.25461.2.1.3.2.0.1701", "panVPNIkeConfigP1FailedTrap");
   ("1.3.6.1.4.1.25461.2.1.3.2.0.1702", "panVPNIkeConfigP1AbortTrap");
   ("1.3.6.1.4.1.25461.2.1.3.2.0.1703", "panVPNIkeConfigP2SuccessTrap");
   ("1.3.6.1.4.1.25461.2.1.3.2.0.1704", "panVPNIkeConfigP2FailedTrap");
   ("1.3.6.1.4.1.25461.2.1.3.2.0.1705", "panVPNIkeDaemonStartTrap");
   ("1.3.6.1.4.1.25461.2.1.3.2.0.1706", "panVPNIkeDaemonExitTrap");
   ("1.3.6.1.4.1.25461.2.1.3.2.0.1707", "panVPNIkeDaemonInitTrap");
   ("1.3.6.1.4.1.25461.2.1.3.2.0.1708", "panVPNIkeNegoP1StartTrap");
   ("1.3.6.1.4.1.25461.2.1.3.2.0.1709", "panVPNIkeNegoP1FailTrap");
   ("1.3.6.1.4.1.25461.2.1.3.2.0.1710", "panVPNIkeNegoP1SuccTrap");
   ("1.3.6.1.4.1.25461.2.1.3.2.0.1711", "panVPNIkeNegoP1ExpireTrap");
   ("1.3.6.1.4.1.25461.2.1.3.2.0.1712", "panVPNIkeNegoP1DeleteTrap");
   ("1.3.6.1.4.1.25461.2.1.3.2.0.1713", "panVPNIkeNegoP1DpdDnTrap");
   ("1.3.6.1.4.1.25461.2.1.3.2.0.1714", "panVPNIkeNegoP1PskIdtypeTrap");
   ("1.3.6.1.4.1.25461.2.1.3.2.0.1715", "panVPNIkeNegoP1FailPskTrap");
   ("1.3.6.1.4.1.25461.2.1.3.2.0.1716", "panVPNIkeNegoP1FailCommonTrap");
   ("1.3.6.1.4.1.25461.2.1.3.2.0.1717", "panVPNIkeNegoP2StartTrap");
   ("1.3.6.1.4.1.25461.2.1.3.2.0.1718", "panVPNIkeNegoP2FailTrap");
   ("1.3.6.1.4.1.25461.2.1.3.2.0.1719", "panVPNIkeNegoP2SuccTrap");
   ("1.3.6.1.4.1.25461.2.1.3.2.0.1720", "panVPNIkeNegoP2StaleP1Trap");
   ("1.3.6.1.4.1.25461.2.1.3.2.0.1721", "panVPNIkeNegoP2DupRekeyTrap");
   ("1.3.6.1.4.1.25461.2.1.3.2.0.1722", "panVPNIkeNegoP2SimulContTrap");
   ("1.3.6.1.4.1.25461.2.1.3.2.0.1723", "panVPNIkeNegoP2SimulFailTrap");
   ("1.3.6.1.4.1.25461.2.1.3.2.0.1724", "panVPNIkeNegoP2SimulDelayTrap");
   ("1.3.6.1.4.1.25461.2.1.3.2.0.1725", "panVPNIkeNegoP2NoP1Trap");
   ("1.3.6.1.4.1.25461.2.1.3.2.0.1726", "panVPNIkeNegoP2P1NotReadyTrap");
   ("1.3.6.1.4.1.25461.2.1.3.2.0.1727", "panVPNIkeNegoP2ProxyIdBadTrap");
   ("1.3.6.1.4.1.25461.2.1.3.2.0.1728", "panVPNIkeNegoP2ProposalBadTrap");
   ("1.3.6.1.4.1.25461.2.1.3.2.0.1729", "panVPNIpsecKeyInstallTrap");
   ("1.3.6.1.4.1.25461.2.1.3.2.0.1730", "panVPNIpsecKeyDeleteTrap");
   ("1.3.6.1.4.1.25461.2.1.3.2.0.1731", "panVPNIpsecKeyExpireTrap");
   ("1.3.6.1.4.1.25461.2.1.3.2.0.1732", "panVPNIkeRecvNotifyTrap");
   ("1.3.6.1.4.1.25461.2.1.3.2.0.1733", "panVPNIkeRecvP1DeleteTrap");
   ("1.3.6.1.4.1.25461.2.1.3.2.0.1734", "panVPNIkeRecvP2DeleteTrap");
   ("1.3.6.1.4.1.25461.2.1.3.2.0.1735", "panVPNIkeSendNotifyTrap");
   ("1.3.6.1.4.1.25461.2.1.3.2.0.1736", "panVPNIkeSendP1DeleteTrap");
   ("1.3.6.1.4.1.25461.2.1.3.2.0.1737", "panVPNIkeSendP2DeleteTrap");
   ("1.3.6.1.4.1.25461.2.1.3.2.0.1738", "panVPNIkev2NegoIkeStartTrap");
   ("1.3.6.1.4.1.25461.2.1.3.2.0.1739", "panVPNIkev2NegoIkeFailTrap");
   ("1.3.6.1.4.1.25461.2.1.3.2.0.1740", "panVPNIkev2NegoIkeSuccTrap");
   ("1.3.6.1.4.1.25461.2.1.3.2.0.1741", "panVPNIkev2NegoIkeExpireTrap");
   ("1.3.6.1.4.1.25461.2.1.3.2.0.1742", "panVPNIkev2NegoIkeDeleteTrap");
   ("1.3.6.1.4.1.25461.2.1.3.2.0.1743", "panVPNIkev2NegoChildStartTrap");
   ("1.3.6.1.4.1.25461.2.1.3.2.0.1744", "panVPNIkev2NegoChildFailTrap");
   ("1.3.6.1.4.1.25461.2.1.3.2.0.1745", "panVPNIkev2NegoChildSuccTrap");
   ("1.3.6.1.4.1.25461.2.1.3.2.0.1746", "panVPNTunnelStatusUpTrap");
   ("1.3.6.1.4.1.25461.2.1.3.2.0.1747", "panVPNTunnelStatusDownTrap");
   ("1.3.6.1.4.1.25461.2.1.3.2.0.1748", "panVPNKeymgrDaemonStartTrap");
   ("1.3.6.1.4.1.25461.2.1.3.2.0.1749", "panVPNKeymgrDaemonExitTrap");
   ("1.3.6.1.4.1.25461.2.1.3.2.0.1750", "panVPNKeymgrDaemonInitTrap");
   ("1.3.6.1.4.1.25461.2.1.3.2.0.1751", "panVPNKeymgrFlowFullSyncStartTrap");
   ("1.3.6.1.4.1.25461.2.1.3.2.0.1752", "panVPNKeymgrFlowFullSyncAbortTrap");
   ("1.3.6.1.4.1.25461.2.1.3.2.0.1753", "panVPNKeymgrFlowFullSyncDoneTrap");
   ("1.3.6.1.4.1.25461.2.1.3.2.0.1754", "panVPNKeymgrIkeFullSyncStartTrap");
   ("1.3.6.1.4.1.25461.2.1.3.2.0.1755", "panVPNKeymgrIkeFullSyncAbortTrap");
   ("1.3.6.1.4.1.25461.2.1.3.2.0.1756", "panVPNKeymgrIkeFullSyncDoneTrap");
   ("1.3.6.1.4.1.25461.2.1.3.2.0.1757", "panVPNKeymgrHaFullSyncStartTrap");
   ("1.3.6.1.4.1.25461.2.1.3.2.0.1758", "panVPNKeymgrHaFullSyncAbortTrap");
   ("1.3.6.1.4.1.25461.2.1.3.2.0.1759", "panVPNKeymgrHaFullSyncDoneTrap");
   ("1.3.6.1.4.1.25461.2.1.3.2.0.1760", "panVPNIkeGenericEventTrap");
   ("1.3.6.1.4.1.25461.2.1.3.2.0.1761", "panVPNKeymgrGenericEventTrap");
   ("1.3.6.1.4.1.25461.2.1.3.2.0.1762", "panVPNIkeNegoP1FailCertTrap");
   ("1.3.6.1.4.1.25461.2.1.3.2.0.1763", "panVPNIkeNegoP1CertIdMismatchTrap");
   ("1.3.6.1.4.1.25461.2.1.3.2.0.1764", "panVPNIkeNegoP1CertSuccTrap");
   ("1.3.6.1.4.1.25461.2.1.3.2.0.1765", "panVPNIkev2NegoIkeDpdDnTrap");
   ("1.3.6.1.4.1.25461.2.1.3.2.0.1766", "panVPNIkev2NegoPskIdtypeTrap");
   ("1.3.6.1.4.1.25461.2.1.3.2.0.1767", "panVPNIkev2NegoFailPskTrap");
   ("1.3.6.1.4.1.25461.2.1.3.2.0.1768", "panVPNIkev2NegoFailCommonTrap");
   ("1.3.6.1.4.1.25461.2.1.3.2.0.1769", "panVPNIkev2NegoFailCertTrap");
   ("1.3.6.1.4.1.25461.2.1.3.2.0.1770", "panVPNIkev2NegoCertIdMismatchTrap");
   ("1.3.6.1.4.1.25461.2.1.3.2.0.1771", "panVPNIkev2NegoCertSuccTrap");
   ("1.3.6.1.4.1.25461.2.1.3.2.0.1772", "panVPNIkev2NegoUseV1Trap");
   ("1.3.6.1.4.1.25461.2.1.3.2.0.1773", "panVPNIkev2NegoStaleP1Trap");
   ("1.3.6.1.4.1.25461.2.1.3.2.0.1774", "panVPNIkev2NegoStaleP2Trap");
   ("1.3.6.1.4.1.25461.2.1.3.2.0.1775", "panVPNIkev2NegoChildDupRekeyTrap");
   ("1.3.6.1.4.1.25461.2.1.3.2.0.1776", "panVPNIkev2NegoChildSimulContTrap");
   ("1.3.6.1.4.1.25461.2.1.3.2.0.1777", "panVPNIkev2NegoChildSimulFailTrap");
   ("1.3.6.1.4.1.25461.2.1.3.2.0.1778", "panVPNIkev2NegoChildSimulDelayTrap");
   ("1.3.6.1.4.1.25461.2.1.3.2.0.1779", "panVPNIkev2NegoChildNoP1Trap");
   ("1.3.6.1.4.1.25461.2.1.3.2.0.1780", "panVPNIkev2NegoChildP1NotReadyTrap");
   ("1.3.6.1.4.1.25461.2.1.3.2.0.1781", "panVPNIkev2NegoChildTsBadTrap");
   ("1.3.6.1.4.1.25461.2.1.3.2.0.1782", "panVPNIkev2NegoChildProposalBadTrap");
   ("1.3.6.1.4.1.25461.2.1.3.2.0.1783", "panVPNIkev2RecvNotifyTrap");
   ("1.3.6.1.4.1.25461.2.1.3.2.0.1784", "panVPNIkev2RecvP1DeleteTrap");
   ("1.3.6.1.4.1.25461.2.1.3.2.0.1785", "panVPNIkev2RecvP2DeleteTrap");
   ("1.3.6.1.4.1.25461.2.1.3.2.0.1786", "panVPNIkev2SendNotifyTrap");
   ("1.3.6.1.4.1.25461.2.1.3.2.0.1787", "panVPNIkev2SendP1DeleteTrap");
   ("1.3.6.1.4.1.25461.2.1.3.2.0.1788", "panVPNIkev2SendP2DeleteTrap");
   ("1.3.6.1.4.1.25461.2.1.3.2.0.1789", "panVPNSdwanTunnelStatusUpTrap");
   ("1.3.6.1.4.1.25461.2.1.3.2.0.1790", "panVPNSdwanTunnelStatusDownTrap");
   ("1.3.6.1.4.1.25461.2.1.3.2.0.1800", "panSATDSatdConfigP1SuccessTrap");
   ("1.3.6.1.4.1.25461.2.1.3.2.0.1801", "panSATDSatdConfigP1FailedTrap");
   ("1.3.6.1.4.1.25461.2.1.3.2.0.1802", "panSATDSatdConfigP1AbortTrap");
   ("1.3.6.1.4.1.25461.2.1.3.2.0.1803", "panSATDSatdConfigP2SuccessTrap");
   ("1.3.6.1.4.1.25461.2.1.3.2.0.1804", "panSATDSatdConfigP2FailedTrap");
   ("1.3.6.1.4.1.25461.2.1.3.2.0.1805", "panSATDSatdDaemonStartTrap");
   ("1.3.6.1.4.1.25461.2.1.3.2.0.1806", "panSATDSatdDaemonExitTrap");
   ("1.3.6.1.4.1.25461.2.1.3.2.0.1807", "panSATDSatdDaemonInitTrap");
   ("1.3.6.1.4.1.25461.2.1.3.2.0.1808", "panSATDSatdTunUpTrap");
   ("1.3.6.1.4.1.25461.2.1.3.2.0.1809", "panSATDSatdTunDownTrap");
   ("1.3.6.1.4.1.25461.2.1.3.2.0.1810", "panSATDSatdDupSubnetsTrap");
   ("1.3.6.1.4.1.25461.2.1.3.2.0.1811", "panSATDSatdDeniedRoutesTrap");
   ("1.3.6.1.4.1.25461.2.1.3.2.0.1812", "panSATDSatdPortalGatewayDuplicateTrap");
   ("1.3.6.1.4.1.25461.2.1.3.2.0.1813", "panSATDSatdFlowFullSyncStartTrap");
   ("1.3.6.1.4.1.25461.2.1.3.2.0.1814", "panSATDSatdFlowFullSyncAbortTrap");
   ("1.3.6.1.4.1.25461.2.1.3.2.0.1815", "panSATDSatdFlowFullSyncDoneTrap");
   ("1.3.6.1.4.1.25461.2.1.3.2.0.1816", "panSATDSatdHaFullSyncStartTrap");
   ("1.3.6.1.4.1.25461.2.1.3.2.0.1817", "panSATDSatdHaFullSyncAbortTrap");
   ("1.3.6.1.4.1.25461.2.1.3.2.0.1818", "panSATDSatdHaFullSyncDoneTrap");
   ("1.3.6.1.4.1.25461.2.1.3.2.0.1819", "panSATDSatdIpAssignFailTrap");
   ("1.3.6.1.4.1.25461.2.1.3.2.0.1820", "panSATDSatdIpResetFailTrap");
   ("1.3.6.1.4.1.25461.2.1.3.2.0.1821", "panSATDSatdTunMonDownTrap");
   ("1.3.6.1.4.1.25461.2.1.3.2.0.1822", "panSATDSatdTunMonUpTrap");
   ("1.3.6.1.4.1.25461.2.1.3.2.0.1823", "panSATDSatdTunSoftlifetimeExpiredTrap");
   ("1.3.6.1.4.1.25461.2.1.3.2.0.1824", "panSATDSatdTunHardlifetimeExpiredTrap");
   ("1.3.6.1.4.1.25461.2.1.3.2.0.1825", "panSATDSatdAccRouteUpdFailTrap");
   ("1.3.6.1.4.1.25461.2.1.3.2.0.1826", "panSATDSatdNhUpdFailTrap");
   ("1.3.6.1.4.1.25461.2.1.3.2.0.1827", "panSATDSatdTunDpInstallErrTrap");
   ("1.3.6.1.4.1.25461.2.1.3.2.0.1828", "panSATDSatdGatewayConnectStartedTrap");
   ("1.3.6.1.4.1.25461.2.1.3.2.0.1829", "panSATDSatdPortalConnectStartedTrap");
   ("1.3.6.1.4.1.25461.2.1.3.2.0.1830", "panSATDSatdGatewayConnectFailedTrap");
   ("1.3.6.1.4.1.25461.2.1.3.2.0.1831", "panSATDSatdPortalConnectFailedTrap");
   ("1.3.6.1.4.1.25461.2.1.3.2.0.1832", "panSATDSatdGenericEventTrap");
   ("1.3.6.1.4.1.25461.2.1.3.2.0.1900", "panSSLMGRSslmgrConfigP1SuccessTrap");
   ("1.3.6.1.4.1.25461.2.1.3.2.0.1901", "panSSLMGRSslmgrConfigP1FailedTrap");
   ("1.3.6.1.4.1.25461.2.1.3.2.0.1902", "panSSLMGRSslmgrConfigP1AbortTrap");
   ("1.3.6.1.4.1.25461.2.1.3.2.0.1903", "panSSLMGRSslmgrConfigP2SuccessTrap");
   ("1.3.6.1.4.1.25461.2.1.3.2.0.1904", "panSSLMGRSslmgrConfigP2FailedTrap");
   ("1.3.6.1.4.1.25461.2.1.3.2.0.1905", "panSSLMGRSslmgrDaemonStartTrap");
   ("1.3.6.1.4.1.25461.2.1.3.2.0.1906", "panSSLMGRSslmgrDaemonExitTrap");
   ("1.3.6.1.4.1.25461.2.1.3.2.0.1907", "panSSLMGRSslmgrCertGenSuccessTrap");
   ("1.3.6.1.4.1.25461.2.1.3.2.0.1908", "panSSLMGRSslmgrCertGenFailedTrap");
   ("1.3.6.1.4.1.25461.2.1.3.2.0.1909", "panSSLMGRSslmgrCertStatusDeletedTrap");
   ("1.3.6.1.4.1.25461.2.1.3.2.0.1910", "panSSLMGRSslmgrCertStatusRevokedTrap");
   ("1.3.6.1.4.1.25461.2.1.3.2.0.1911", "panSSLMGRSslmgrSatelliteInfoInsertedTrap");
   ("1.3.6.1.4.1.25461.2.1.3.2.0.1912", "panSSLMGRSslmgrSatelliteInfoUpdatedTrap");
   ("1.3.6.1.4.1.25461.2.1.3.2.0.1913", "panSSLMGRSslmgrSatelliteInfoDeletedTrap");
   ("1.3.6.1.4.1.25461.2.1.3.2.0.1914", "panSSLMGRSslmgrCertOcspVerifyFailedTrap");
   ("1.3.6.1.4.1.25461.2.1.3.2.0.1915", "panSSLMGRSslmgrCertCrlVerifyFailedTrap");
   ("1.3.6.1.4.1.25461.2.1.3.2.0.1916", "panSSLMGRSslmgrHaFullSyncTrap");
   ("1.3.6.1.4.1.25461.2.1.3.2.0.1917", "panSSLMGRSslmgrHaNotFullSyncTrap");
   ("1.3.6.1.4.1.25461.2.1.3.2.0.1918", "panSSLMGRSslmgrGenericEventTrap");
   ("1.3.6.1.4.1.25461.2.1.3.2.0.1919", "panSSLMGRSslmgrScepCertSuccessTrap");
   ("1.3.6.1.4.1.25461.2.1.3.2.0.1920", "panSSLMGRSslmgrScepCertFailedTrap");
   ("1.3.6.1.4.1.25461.2.1.3.2.0.1921", "panSSLMGRSslmgrScepCaCertSuccessTrap");
   ("1.3.6.1.4.1.25461.2.1.3.2.0.1922", "panSSLMGRSslmgrScepCaCertFailedTrap");
   ("1.3.6.1.4.1.25461.2.1.3.2.0.1923", "panSSLMGRCaSessionEstablishmentSuccessTrap");
   ("1.3.6.1.4.1.25461.2.1.3.2.0.1924", "panSSLMGRCaSessionEstablishmentFailedTrap");
   ("1.3.6.1.4.1.25461.2.1.3.2.0.2000", "panURLNoUrlDatabaseTrap");
   ("1.3.6.1.4.1.25461.2.1.3.2.0.2001", "panURLInvalidLicenseTrap");
   ("1.3.6.1.4.1.25461.2.1.3.2.0.2002", "panURLFailedToLockUpdateTrap");
   ("1.3.6.1.4.1.25461.2.1.3.2.0.2003", "panURLConnectionSuccessTrap");
   ("1.3.6.1.4.1.25461.2.1.3.2.0.2004", "panURLConnectionFailureTrap");
   ("1.3.6.1.4.1.25461.2.1.3.2.0.2005", "panURLServerIsDownTrap");
   ("1.3.6.1.4.1.25461.2.1.3.2.0.2006", "panURLProxyConnectionFailureTrap");
   ("1.3.6.1.4.1.25461.2.1.3.2.0.2007", "panURLReceiveDataFailureTrap");
   ("1.3.6.1.4.1.25461.2.1.3.2.0.2008", "panURLDynamicUrlConnectionDownTrap");
   ("1.3.6.1.4.1.25461.2.1.3.2.0.2009", "panURLDownloadingUrlDatabaseTrap");
   ("1.3.6.1.4.1.25461.2.1.3.2.0.2010", "panURLDownloadUrlDatabaseSuccessTrap");
   ("1.3.6.1.4.1.25461.2.1.3.2.0.2011", "panURLUpgradeUrlDatabaseSuccessTrap");
   ("1.3.6.1.4.1.25461.2.1.3.2.0.2012", "panURLRevertUrlDatabaseSuccessTrap");
   ("1.3.6.1.4.1.25461.2.1.3.2.0.2013", "panURLUrlDatabaseIsLatestTrap");
   ("1.3.6.1.4.1.25461.2.1.3.2.0.2014", "panURLUrlDownloadFailureTrap");
   ("1.3.6.1.4.1.25461.2.1.3.2.0.2015", "panURLUrlCloudConnectionFailureTrap");
   ("1.3.6.1.4.1.25461.2.1.3.2.0.2016", "panURLUrlCloudConnectionSuccessTrap");
   ("1.3.6.1.4.1.25461.2.1.3.2.0.2017", "panURLUrlBackupSeedSuccessTrap");
   ("1.3.6.1.4.1.25461.2.1.3.2.0.2018", "panURLUrlBackupSeedFailureTrap");
   ("1.3.6.1.4.1.25461.2.1.3.2.0.2019", "panURLCloudElectionTrap");
   ("1.3.6.1.4.1.25461.2.1.3.2.0.2020", "panURLCloudProcessStartsTrap");
   ("1.3.6.1.4.1.25461.2.1.3.2.0.2021", "panURLCloudProcessStoppedTrap");
   ("1.3.6.1.4.1.25461.2.1.3.2.0.2022", "panURLUpdateVersionFailureTrap");
   ("1.3.6.1.4.1.25461.2.1.3.2.0.2023", "panURLErrorMsgFromCloudTrap");
   ("1.3.6.1.4.1.25461.2.1.3.2.0.2024", "panURLTestASiteTrap");
   ("1.3.6.1.4.1.25461.2.1.3.2.0.2025", "panURLUrlEngineStoppedTrap");
   ("1.3.6.1.4.1.25461.2.1.3.2.0.2026", "panURLUrlEngineStartsTrap");
   ("1.3.6.1.4.1.25461.2.1.3.2.0.2027", "panURLStartupFailureTrap");
   ("1.3.6.1.4.1.25461.2.1.3.2.0.2028", "panURLHaSyncFailureTrap");
   ("1.3.6.1.4.1.25461.2.1.3.2.0.2029", "panURLHaSyncSuccessTrap");
   ("1.3.6.1.4.1.25461.2.1.3.2.0.2030", "panURLSaveMpCacheToDiscFailureTrap");
   ("1.3.6.1.4.1.25461.2.1.3.2.0.2031", "panURLSaveMpCacheToDiscSuccessTrap");
   ("1.3.6.1.4.1.25461.2.1.3.2.0.2032", "panURLRfsProcessStartsTrap");
   ("1.3.6.1.4.1.25461.2.1.3.2.0.2033", "panURLRfsProcessStoppedTrap");
   ("1.3.6.1.4.1.25461.2.1.3.2.0.2034", "panURLRfsProcessFailureTrap");
   ("1.3.6.1.4.1.25461.2.1.3.2.0.2035", "panURLRequestToCloudFailureTrap");
   ("1.3.6.1.4.1.25461.2.1.3.2.0.2036", "panURLStartsFromEmptySeedTrap");
   ("1.3.6.1.4.1.25461.2.1.3.2.0.2037", "panURLLoadSuccessTrap");
   ("1.3.6.1.4.1.25461.2.1.3.2.0.2038", "panURLFailedToLockDownloadTrap");
   ("1.3.6.1.4.1.25461.2.1.3.2.0.2039", "panURLEngineStartupFailureTrap");
   ("1.3.6.1.4.1.25461.2.1.3.2.0.2040", "panURLSeedOutOfSyncTrap");
   ("1.3.6.1.4.1.25461.2.1.3.2.0.2041", "panURLStartsFromBackupSeedTrap");
   ("1.3.6.1.4.1.25461.2.1.3.2.0.2042", "panURLStartsFromDownloadSeedTrap");
   ("1.3.6.1.4.1.25461.2.1.3.2.0.2043", "panURLBackupSeedErrorTrap");
   ("1.3.6.1.4.1.25461.2.1.3.2.0.2044", "panURLDownloadSeedErrorTrap");
   ("1.3.6.1.4.1.25461.2.1.3.2.0.2300", "panUSERIDConnectAgentTrap");
   ("1.3.6.1.4.1.25461.2.1.3.2.0.2301", "panUSERIDDisconnectAgentTrap");
   ("1.3.6.1.4.1.25461.2.1.3.2.0.2302", "panUSERIDAgentEventTrap");
   ("1.3.6.1.4.1.25461.2.1.3.2.0.2303", "panUSERIDConnectAgentFailureTrap");
   ("1.3.6.1.4.1.25461.2.1.3.2.0.2304", "panUSERIDAgentVersionMismatchTrap");
   ("1.3.6.1.4.1.25461.2.1.3.2.0.2305", "panUSERIDAgentStatusFailureTrap");
   ("1.3.6.1.4.1.25461.2.1.3.2.0.2306", "panUSERIDAgentReadLogErrorTrap");
   ("1.3.6.1.4.1.25461.2.1.3.2.0.2307", "panUSERIDAgentGetDomainErrorTrap");
   ("1.3.6.1.4.1.25461.2.1.3.2.0.2308", "panUSERIDAgentGetUsersErrorTrap");
   ("1.3.6.1.4.1.25461.2.1.3.2.0.2309", "panUSERIDAgentGetGroupsErrorTrap");
   ("1.3.6.1.4.1.25461.2.1.3.2.0.2310", "panUSERIDAgentGetConfigErrorTrap");
   ("1.3.6.1.4.1.25461.2.1.3.2.0.2311", "panUSERIDAgentNoDomainTrap");
   ("1.3.6.1.4.1.25461.2.1.3.2.0.2312", "panUSERIDAgentNoAllowlistTrap");
   ("1.3.6.1.4.1.25461.2.1.3.2.0.2313", "panUSERIDConnectLdapSeverTrap");
   ("1.3.6.1.4.1.25461.2.1.3.2.0.2314", "panUSERIDConnectLdapSeverFailureTrap");
   ("1.3.6.1.4.1.25461.2.1.3.2.0.2315", "panUSERIDGetLdapDataFailureTrap");
   ("1.3.6.1.4.1.25461.2.1.3.2.0.2316", "panUSERIDHAQueueFullTrap");
   ("1.3.6.1.4.1.25461.2.1.3.2.0.2317", "panUSERIDConnectClientTrap");
   ("1.3.6.1.4.1.25461.2.1.3.2.0.2318", "panUSERIDDisconnectClientTrap");
   ("1.3.6.1.4.1.25461.2.1.3.2.0.2319", "panUSERIDConnectServerMonitorTrap");
   ("1.3.6.1.4.1.25461.2.1.3.2.0.2320", "panUSERIDConnectServerMonitorFailureTrap");
   ("1.3.6.1.4.1.25461.2.1.3.2.0.2321", "panUSERIDConnectVmInfoSourceTrap");
   ("1.3.6.1.4.1.25461.2.1.3.2.0.2322", "panUSERIDDisconnectVmInfoSourceTrap");
   ("1.3.6.1.4.1.25461.2.1.3.2.0.2323", "panUSERIDConnectVmInfoSourceFailureTrap");
   ("1.3.6.1.4.1.25461.2.1.3.2.0.2324", "panUSERIDRegisteredIpUpdateFailureTrap");
   ("1.3.6.1.4.1.25461.2.1.3.2.0.2325", "panUSERIDConnectSyslogTrap");
   ("1.3.6.1.4.1.25461.2.1.3.2.0.2326", "panUSERIDDisconnectSyslogTrap");
   ("1.3.6.1.4.1.25461.2.1.3.2.0.2327", "panUSERIDUserGroupCountTrap");
   ("1.3.6.1.4.1.25461.2.1.3.2.0.2328", "panUSERIDUserCountTrap");
   ("1.3.6.1.4.1.25461.2.1.3.2.0.2329", "panUSERIDGlobalprotectgatewayInvalidLicenseTrap");
   ("1.3.6.1.4.1.25461.2.1.3.2.0.2400", "panNATFallbackReportTrap");
   ("1.3.6.1.4.1.25461.2.1.3.2.0.2500", "panSYSLOGNGSyslogConnStatusTrap");
   ("1.3.6.1.4.1.25461.2.1.3.2.0.2600", "panLACPLostConnectivityTrap");
   ("1.3.6.1.4.1.25461.2.1.3.2.0.2601", "panLACPUnresponsiveTrap");
   ("1.3.6.1.4.1.25461.2.1.3.2.0.2602", "panLACPNegoFailTrap");
   ("1.3.6.1.4.1.25461.2.1.3.2.0.2603", "panLACPSpeedDuplexTrap");
   ("1.3.6.1.4.1.25461.2.1.3.2.0.2604", "panLACPLinkDownTrap");
   ("1.3.6.1.4.1.25461.2.1.3.2.0.2605", "panLACPLacpDownTrap");
   ("1.3.6.1.4.1.25461.2.1.3.2.0.2606", "panLACPLacpUpTrap");
   ("1.3.6.1.4.1.25461.2.1.3.2.0.2700", "panFIPSFipsSelftestUnknownTrap");
   ("1.3.6.1.4.1.25461.2.1.3.2.0.2701", "panFIPSFipsSelftestTimeoutTrap");
   ("1.3.6.1.4.1.25461.2.1.3.2.0.2702", "panFIPSFipsSelftestIntegTrap");
   ("1.3.6.1.4.1.25461.2.1.3.2.0.2703", "panFIPSFipsSelftestCoreTrap");
   ("1.3.6.1.4.1.25461.2.1.3.2.0.2704", "panFIPSFipsSelftestAesTrap");
   ("1.3.6.1.4.1.25461.2.1.3.2.0.2705", "panFIPSFipsSelftestDesTrap");
   ("1.3.6.1.4.1.25461.2.1.3.2.0.2706", "panFIPSFipsSelftestDsaTrap");
   ("1.3.6.1.4.1.25461.2.1.3.2.0.2707", "panFIPSFipsSelftestRsaTrap");
   ("1.3.6.1.4.1.25461.2.1.3.2.0.2708", "panFIPSFipsSelftestHmacTrap");
   ("1.3.6.1.4.1.25461.2.1.3.2.0.2709", "panFIPSFipsSelftestShaTrap");
   ("1.3.6.1.4.1.25461.2.1.3.2.0.2710", "panFIPSFipsSelftestDrngTrap");
   ("1.3.6.1.4.1.25461.2.1.3.2.0.2711", "panFIPSFipsSelftestNdrngTrap");
   ("1.3.6.1.4.1.25461.2.1.3.2.0.2712", "panFIPSFipsSelftestDhParameterTrap");
   ("1.3.6.1.4.1.25461.2.1.3.2.0.2713", "panFIPSFipsSelftestDhTrap");
   ("1.3.6.1.4.1.25461.2.1.3.2.0.2714", "panFIPSFipsFirmwareIntegrityTrap");
   ("1.3.6.1.4.1.25461.2.1.3.2.0.2715", "panFIPSFipsContinuousRngTrap");
   ("1.3.6.1.4.1.25461.2.1.3.2.0.2716", "panFIPSFipsRsaPairwiseConsistencyTrap");
   ("1.3.6.1.4.1.25461.2.1.3.2.0.2717", "panFIPSFipsSelftestSoftwareLoadTrap");
   ("1.3.6.1.4.1.25461.2.1.3.2.0.2718", "panFIPSFipsSelftestTrap");
   ("1.3.6.1.4.1.25461.2.1.3.2.0.2719", "panFIPSFipsSelftestHsmTrap");
   ("1.3.6.1.4.1.25461.2.1.3.2.0.2720", "panFIPSFipsZeroizationTrap");
   ("1.3.6.1.4.1.25461.2.1.3.2.0.2721", "panFIPSFipsKeyTrap");
   ("1.3.6.1.4.1.25461.2.1.3.2.0.2722", "panFIPSFipsCipherTrap");
   ("1.3.6.1.4.1.25461.2.1.3.2.0.2723", "panFIPSFipsReplayTrap");
   ("1.3.6.1.4.1.25461.2.1.3.2.0.2724", "panFIPSFipsSslHandshakeTrap");
   ("1.3.6.1.4.1.25461.2.1.3.2.0.2725", "panFIPSFipsContinuousNdrngTrap");
   ("1.3.6.1.4.1.25461.2.1.3.2.0.2726", "panFIPSFipsSelftestCmacTrap");
   ("1.3.6.1.4.1.25461.2.1.3.2.0.2727", "panFIPSFipsSelftestDrbgTrap");
   ("1.3.6.1.4.1.25461.2.1.3.2.0.2728", "panFIPSFipsSelftestEcdsaTrap");
   ("1.3.6.1.4.1.25461.2.1.3.2.0.2729", "panFIPSFipsSelftestEcdhTrap");
   ("1.3.6.1.4.1.25461.2.1.3.2.0.2800", "panMDMExceedLicenseTrap");
   ("1.3.6.1.4.1.25461.2.1.3.2.0.2801", "panMDMConnectToApnsTrap");
   ("1.3.6.1.4.1.25461.2.1.3.2.0.2802", "panMDMConnectToApnsFailureTrap");
   ("1.3.6.1.4.1.25461.2.1.3.2.0.2803", "panMDMConnectToGcmTrap");
   ("1.3.6.1.4.1.25461.2.1.3.2.0.2804", "panMDMConnectToGcmFailureTrap");
   ("1.3.6.1.4.1.25461.2.1.3.2.0.2805", "panMDMGatewayConnectedTrap");
   ("1.3.6.1.4.1.25461.2.1.3.2.0.2806", "panMDMGatewayDisconnectedTrap");
   ("1.3.6.1.4.1.25461.2.1.3.2.0.2807", "panMDMInstallAppContentTrap");
   ("1.3.6.1.4.1.25461.2.1.3.2.0.2808", "panMDMInstallAppContentFailureTrap");
   ("1.3.6.1.4.1.25461.2.1.3.2.0.2809", "panMDMGetScepOtpFailureTrap");
   ("1.3.6.1.4.1.25461.2.1.3.2.0.2810", "panMDMSendMsgToCloudFailureTrap");
   ("1.3.6.1.4.1.25461.2.1.3.2.0.2811", "panMDMConnectToItunesFailureTrap");
   ("1.3.6.1.4.1.25461.2.1.3.2.0.2812", "panMDMConnectToAppleVppFailureTrap");
   ("1.3.6.1.4.1.25461.2.1.3.2.0.2900", "panRAIDDiskNotDetectedTrap");
   ("1.3.6.1.4.1.25461.2.1.3.2.0.2901", "panRAIDPairDetectedTrap");
   ("1.3.6.1.4.1.25461.2.1.3.2.0.2902", "panRAIDRebuildingTrap");
   ("1.3.6.1.4.1.25461.2.1.3.2.0.2903", "panRAIDRebuild20Trap");
   ("1.3.6.1.4.1.25461.2.1.3.2.0.2904", "panRAIDRebuild40Trap");
   ("1.3.6.1.4.1.25461.2.1.3.2.0.2905", "panRAIDRebuild60Trap");
   ("1.3.6.1.4.1.25461.2.1.3.2.0.2906", "panRAIDRebuild80Trap");
   ("1.3.6.1.4.1.25461.2.1.3.2.0.2907", "panRAIDRebuildDoneTrap");
   ("1.3.6.1.4.1.25461.2.1.3.2.0.2908", "panRAIDDiskActiveTrap");
   ("1.3.6.1.4.1.25461.2.1.3.2.0.2909", "panRAIDDiskFaultyTrap");
   ("1.3.6.1.4.1.25461.2.1.3.2.0.2910", "panRAIDDiskFailedTrap");
   ("1.3.6.1.4.1.25461.2.1.3.2.0.2911", "panRAIDSpareMissingTrap");
   ("1.3.6.1.4.1.25461.2.1.3.2.0.2912", "panRAIDSpareMovedTrap");
   ("1.3.6.1.4.1.25461.2.1.3.2.0.2913", "panRAIDPairDegradedTrap");
   ("1.3.6.1.4.1.25461.2.1.3.2.0.2914", "panRAIDPairDisappearedTrap");
   ("1.3.6.1.4.1.25461.2.1.3.2.0.2915", "panRAIDDiskRemovedTrap");
   ("1.3.6.1.4.1.25461.2.1.3.2.0.2916", "panRAIDFsckStartTrap");
   ("1.3.6.1.4.1.25461.2.1.3.2.0.2917", "panRAIDFsckEndTrap");
   ("1.3.6.1.4.1.25461.2.1.3.2.0.2918", "panRAIDFsckFailedTrap");
   ("1.3.6.1.4.1.25461.2.1.3.2.0.2919", "panRAIDMountFailedTrap");
   ("1.3.6.1.4.1.25461.2.1.3.2.0.2920", "panRAIDRebuildFailedTrap");
   ("1.3.6.1.4.1.25461.2.1.3.2.0.3000", "panVMDvfInitSucceedTrap");
   ("1.3.6.1.4.1.25461.2.1.3.2.0.3001", "panVMDvfInitFailTrap");
   ("1.3.6.1.4.1.25461.2.1.3.2.0.3100", "panSSHSshSessionEstablishedTrap");
   ("1.3.6.1.4.1.25461.2.1.3.2.0.3101", "panSSHSshSessionTerminatedTrap");
   ("1.3.6.1.4.1.25461.2.1.3.2.0.3102", "panSSHSshSessionEstablishmentFailedTrap");
   ("1.3.6.1.4.1.25461.2.1.3.2.0.3103", "panSSHSshSessionDisconnectedTrap");
   ("1.3.6.1.4.1.25461.2.1.3.2.0.3104", "panSSHSshConnectionTrap");
   ("1.3.6.1.4.1.25461.2.1.3.2.0.3200", "panTLSTlsSessionEstablishedTrap");
   ("1.3.6.1.4.1.25461.2.1.3.2.0.3201", "panTLSTlsSessionTerminatedTrap");
   ("1.3.6.1.4.1.25461.2.1.3.2.0.3202", "panTLSTlsSessionEstablishmentFailedTrap");
   ("1.3.6.1.4.1.25461.2.1.3.2.0.3203", "panTLSTlsSessionDisconnectedTrap");
   ("1.3.6.1.4.1.25461.2.1.3.2.0.3204", "panTLSTlsEdlAuthFailureTrap");
   ("1.3.6.1.4.1.25461.2.1.3.2.0.3205", "panTLSTlsX509ServerIdentFailedTrap");
   ("1.3.6.1.4.1.25461.2.1.3.2.0.3206", "panTLSTlsX509ValidationFailedTrap");
   ("1.3.6.1.4.1.25461.2.1.3.2.0.3207", "panTLSTlsX509EkuServerAuthFailedTrap");
   ("1.3.6.1.4.1.25461.2.1.3.2.0.3208", "panTLSTlsX509ClientIdentFailedTrap");
   ("1.3.6.1.4.1.25461.2.1.3.2.0.3209", "panTLSTlsX509EkuClientAuthFailedTrap");
   ("1.3.6.1.4.1.25461.2.1.3.2.0.3210", "panTLSTlsX509EkuClientAuthSuccessTrap");
   ("1.3.6.1.4.1.25461.2.1.3.2.0.3211", "panTLSPanoramaAuthFailureTrap");
   ("1.3.6.1.4.1.25461.2.1.3.2.0.3212", "panTLSPanoramaAuthSuccessTrap");
   ("1.3.6.1.4.1.25461.2.1.3.2.0.3213", "panTLSPanosAuthFailureTrap");
   ("1.3.6.1.4.1.25461.2.1.3.2.0.3214", "panTLSPanosAuthSuccessTrap");
   ("1.3.6.1.4.1.25461.2.1.3.2.0.3215", "panTLSTlsX509EkuCodeSigningExtCheckFailedTrap");
   ("1.3.6.1.4.1.25461.2.1.3.2.0.3216", "panTLSTlsX509OcspCrlCheckFailedTrap");
   ("1.3.6.1.4.1.25461.2.1.3.2.0.3217", "panTLSTlsX509UntrustedCertIssuerFoundTrap");
   ("1.3.6.1.4.1.25461.2.1.3.2.0.3218", "panTLSMfaAuthFailureTrap");
   ("1.3.6.1.4.1.25461.2.1.3.2.0.3219", "panTLSCertificateRenewalTrap");
   ("1.3.6.1.4.1.25461.2.1.3.2.0.3220", "panTLSCertificateExpiredTrap");
   ("1.3.6.1.4.1.25461.2.1.3.2.0.3300", "panLLDPRxErrorTrap");
   ("1.3.6.1.4.1.25461.2.1.3.2.0.3301", "panLLDPMibChangedTrap");
   ("1.3.6.1.4.1.25461.2.1.3.2.0.3302", "panLLDPTooManyNeighborsTrap");
   ("1.3.6.1.4.1.25461.2.1.3.2.0.3303", "panLLDPTooManyNeighborsTimerClearedTrap");
   ("1.3.6.1.4.1.25461.2.1.3.2.0.3304", "panLLDPOtherTrap");
   ("1.3.6.1.4.1.25461.2.1.3.2.0.3305", "panLLDPTxErrorTrap");
   ("1.3.6.1.4.1.25461.2.1.3.2.0.3400", "panFBWildfireWrongCloudTypeTrap");
   ("1.3.6.1.4.1.25461.2.1.3.2.0.3401", "panFBWildfireDisabledByCloudTrap");
   ("1.3.6.1.4.1.25461.2.1.3.2.0.3402", "panFBWildfireNoPolicyTrap");
   ("1.3.6.1.4.1.25461.2.1.3.2.0.3403", "panFBWildfireNoLicenseTrap");
   ("1.3.6.1.4.1.25461.2.1.3.2.0.3404", "panFBWildfireInvalidCloudInfoTrap");
   ("1.3.6.1.4.1.25461.2.1.3.2.0.3500", "panBFDExpiredTimeTrap");
   ("1.3.6.1.4.1.25461.2.1.3.2.0.3501", "panBFDNeighborDownTrap");
   ("1.3.6.1.4.1.25461.2.1.3.2.0.3502", "panBFDForwardPlaneResetTrap");
   ("1.3.6.1.4.1.25461.2.1.3.2.0.3503", "panBFDAdminDownTrap");
   ("1.3.6.1.4.1.25461.2.1.3.2.0.3504", "panBFDSessionStateChangeTrap");
   ("1.3.6.1.4.1.25461.2.1.3.2.0.3600", "panAUTHGeneralTrap");
   ("1.3.6.1.4.1.25461.2.1.3.2.0.3601", "panAUTHAuthServerDownTrap");
   ("1.3.6.1.4.1.25461.2.1.3.2.0.3602", "panAUTHCreateAdminAcctErrorTrap");
   ("1.3.6.1.4.1.25461.2.1.3.2.0.3603", "panAUTHAuthFailTrap");
   ("1.3.6.1.4.1.25461.2.1.3.2.0.3604", "panAUTHAuthSuccessTrap");
   ("1.3.6.1.4.1.25461.2.1.3.2.0.3605", "panAUTHSamlClientRedirectTrap");
   ("1.3.6.1.4.1.25461.2.1.3.2.0.3606", "panAUTHSamlIdpActivityTrap");
   ("1.3.6.1.4.1.25461.2.1.3.2.0.3607", "panAUTHSamlCertificateWarningTrap");
   ("1.3.6.1.4.1.25461.2.1.3.2.0.3608", "panAUTHSamlCertificateErrorTrap");
   ("1.3.6.1.4.1.25461.2.1.3.2.0.3609", "panAUTHSamlMessageParseErrorTrap");
   ("1.3.6.1.4.1.25461.2.1.3.2.0.3610", "panAUTHSamlOutOfBandMessageTrap");
   ("1.3.6.1.4.1.25461.2.1.3.2.0.3611", "panAUTHSamlSignatureValidatedTrap");
   ("1.3.6.1.4.1.25461.2.1.3.2.0.3612", "panAUTHEdlCliAuthFailureTrap");
   ("1.3.6.1.4.1.25461.2.1.3.2.0.3613", "panAUTHLogoutSuccessTrap");
   ("1.3.6.1.4.1.25461.2.1.3.2.0.3614", "panAUTHLogoutFailedTrap");
   ("1.3.6.1.4.1.25461.2.1.3.2.0.3615", "panAUTHIdpInitiatedLogOutSuccessTrap");
   ("1.3.6.1.4.1.25461.2.1.3.2.0.3616", "panAUTHSpInitiatedLogOutSuccessTrap");
   ("1.3.6.1.4.1.25461.2.1.3.2.0.3617", "panAUTHUserPasswordChangeSuccessTrap");
   ("1.3.6.1.4.1.25461.2.1.3.2.0.3618", "panAUTHUserPasswordChangeFailedTrap");
   ("1.3.6.1.4.1.25461.2.1.3.2.0.3700", "panCLUSTERDClusterDaemonInitTrap");
   ("1.3.6.1.4.1.25461.2.1.3.2.0.3701", "panCLUSTERDClusterDaemonStartTrap");
   ("1.3.6.1.4.1.25461.2.1.3.2.0.3702", "panCLUSTERDClusterDaemonExitTrap");
   ("1.3.6.1.4.1.25461.2.1.3.2.0.3703", "panCLUSTERDClusterDaemonCfgTrap");
   ("1.3.6.1.4.1.25461.2.1.3.2.0.3704", "panCLUSTERDClusterDaemonCfgGiveupTrap");
   ("1.3.6.1.4.1.25461.2.1.3.2.0.3705", "panCLUSTERDClusterHaSyncPeerBackupTrap");
   ("1.3.6.1.4.1.25461.2.1.3.2.0.3706", "panCLUSTERDClusterHaSyncSelfMasterTrap");
   ("1.3.6.1.4.1.25461.2.1.3.2.0.3707", "panCLUSTERDClusterConfigP1SuccessTrap");
   ("1.3.6.1.4.1.25461.2.1.3.2.0.3708", "panCLUSTERDClusterConfigP1FailedTrap");
   ("1.3.6.1.4.1.25461.2.1.3.2.0.3709", "panCLUSTERDClusterConfigP1AbortTrap");
   ("1.3.6.1.4.1.25461.2.1.3.2.0.3710", "panCLUSTERDClusterConfigP2SuccessTrap");
   ("1.3.6.1.4.1.25461.2.1.3.2.0.3711", "panCLUSTERDClusterConfigP2FailedTrap");
   ("1.3.6.1.4.1.25461.2.1.3.2.0.3712", "panCLUSTERDClusterEngineControllerTrap");
   ("1.3.6.1.4.1.25461.2.1.3.2.0.3713", "panCLUSTERDClusterEngineServerTrap");
   ("1.3.6.1.4.1.25461.2.1.3.2.0.3714", "panCLUSTERDClusterEngineWorkerTrap");
   ("1.3.6.1.4.1.25461.2.1.3.2.0.3715", "panCLUSTERDClusterEngineReloadTrap");
   ("1.3.6.1.4.1.25461.2.1.3.2.0.3716", "panCLUSTERDClusterEngineRestartTrap");
   ("1.3.6.1.4.1.25461.2.1.3.2.0.3717", "panCLUSTERDClusterEngineShutdownTrap");
   ("1.3.6.1.4.1.25461.2.1.3.2.0.3718", "panCLUSTERDClusterSelfJoinTrap");
   ("1.3.6.1.4.1.25461.2.1.3.2.0.3719", "panCLUSTERDClusterSelfDownTrap");
   ("1.3.6.1.4.1.25461.2.1.3.2.0.3720", "panCLUSTERDClusterSelfLeaveTrap");
   ("1.3.6.1.4.1.25461.2.1.3.2.0.3721", "panCLUSTERDClusterOtherJoinTrap");
   ("1.3.6.1.4.1.25461.2.1.3.2.0.3722", "panCLUSTERDClusterOtherDownTrap");
   ("1.3.6.1.4.1.25461.2.1.3.2.0.3723", "panCLUSTERDClusterOtherLeaveTrap");
   ("1.3.6.1.4.1.25461.2.1.3.2.0.3800", "panIPV6NDIpv6DisabledTrap");
   ("1.3.6.1.4.1.25461.2.1.3.2.0.3801", "panIPV6NDDuplicatedIPv6AddressFoundTrap");
   ("1.3.6.1.4.1.25461.2.1.3.2.0.3802", "panIPV6NDInconsistentRaMessageReceivedTrap");
   ("1.3.6.1.4.1.25461.2.1.3.2.0.3900", "panDYNAMICUPDATESPaloAltoNetworksMessageTrap");
   ("1.3.6.1.4.1.25461.2.1.3.2.0.4000", "panUUIDPolicyRuleUuidModifiedTrap");
   ("1.3.6.1.4.1.25461.2.1.3.2.0.4100", "panGRETunnelStatusUpTrap");
   ("1.3.6.1.4.1.25461.2.1.3.2.0.4101", "panGRETunnelStatusDownTrap");
   ("1.3.6.1.4.1.25461.2.1.3.2.0.4102", "panGRETunnelRecurRoutingTrap");
   ("1.3.6.1.4.1.25461.2.1.3.2.0.4200", "panPANOCHECKPanoramaCheckSkipTrap");
   ("1.3.6.1.4.1.25461.2.1.3.2.0.4201", "panPANOCHECKPanoramaCheckAutoDisabledTrap");
   ("1.3.6.1.4.1.25461.2.1.3.2.0.4202", "panPANOCHECKPanoramaCheckAutoRevertTrap");
   ("1.3.6.1.4.1.25461.2.1.3.2.0.4203", "panPANOCHECKPanoramaCheckTestTrap");
   ("1.3.6.1.4.1.25461.2.1.3.2.0.4300", "panSDWANSdwanVifStatusUpTrap");
   ("1.3.6.1.4.1.25461.2.1.3.2.0.4301", "panSDWANSdwanVifStatusDownTrap")].

Definition vendorTrapNames : list (string * string) := fortinetCoreTraps ++ fortigateTraps ++ panTraps.

Fixpoint nameIn (table : list (string * string)) (oid : string) : option string :=
  match table with
  | [] => None
  | (k, n) :: table => if decide (k = oid) then Some n else nameIn table oid
  end.

Definition TrapName (oid : string) : string :=
  match nameIn trapNames oid with
  | Some n => n
  | None => default "" (nameIn vendorTrapNames oid)
  end.

(** * What the tables hold *)

Definition allNames : list (string * string) := trapNames ++ vendorTrapNames.

Fixpoint increasing (l : list string) : bool :=
  match l with
  | a :: l => match l with b :: _ => str_lt a b && increasing l | [] => true end
  | [] => true
  end.

Lemma increasing_head a l : increasing (a :: l) = true -> increasing l = true /\ Forall (fun b => str_lt a b = true) l.
Proof.
  revert a. induction l as [|b l IH]; intros a; [done|]. change (increasing (a :: b :: l)) with (str_lt a b && increasing (b :: l)).
  intros [Hab Hl]%andb_prop. split; [done|]. constructor; [done|]. destruct (IH b Hl) as [_ Hb].
  eapply Forall_impl; [exact Hb|]. intros c. by apply str_lt_trans.
Qed.

Lemma increasing_NoDup l : increasing l = true -> NoDup l.
Proof.
  induction l as [|a l IH]; [constructor|]. intros [Hl Ha]%increasing_head. constructor; [|by apply IH].
  intros Hin. rewrite Forall_forall in Ha. apply Ha in Hin. by rewrite str_lt_irrefl in Hin.
Qed.

Lemma sorted_NoDup l : increasing (sort_Strings l) = true -> NoDup l.
Proof. intros H%increasing_NoDup. unfold sort_Strings in H. by rewrite (merge_sort_Permutation str_le l) in H. Qed.

Lemma names_distinct : NoDup allNames.*2.
Proof. apply sorted_NoDup. vm_compute. reflexivity. Qed.

Lemma oids_distinct : NoDup allNames.*1.
Proof. apply sorted_NoDup. vm_compute. reflexivity. Qed.

(** An OID is digits and dots; no name is. *)
Definition oidChar (c : byte) : bool := within 48 (bz c) 57 || (bz c =? 46).
Definition numeric (s : string) : bool := forallb oidChar (to_bytes s).

Lemma names_not_numeric : forallb (fun n => negb (numeric n)) allNames.*2 = true.
Proof. vm_compute. reflexivity. Qed.

Lemma oids_numeric : forallb numeric allNames.*1 = true.
Proof. vm_compute. reflexivity. Qed.

Lemma nameIn_Some table oid n : nameIn table oid = Some n -> (oid, n) ∈ table.
Proof.
  induction table as [|[k m] table IH]; cbn [nameIn]; [done|]. case_decide as E; [intros [= <-]; subst k; constructor|].
  intros H. constructor. by apply IH.
Qed.

Lemma TrapName_entry oid : TrapName oid = "" \/ (oid, TrapName oid) ∈ allNames.
Proof.
  unfold TrapName. destruct (nameIn trapNames oid) eqn:E; [right; apply elem_of_app; left; by apply nameIn_Some|].
  destruct (nameIn vendorTrapNames oid) eqn:E'; [right; apply elem_of_app; right; by apply nameIn_Some|by left].
Qed.

Lemma NoDup_snd_inj {A B} (l : list (A * B)) a a' b : NoDup l.*2 -> (a, b) ∈ l -> (a', b) ∈ l -> a = a'.
Proof.
  induction l as [|[x y] l IH]; intros Hnd H H'; [by apply elem_of_nil in H|].
  rewrite fmap_cons in Hnd. apply NoDup_cons in Hnd as [Hy Hnd].
  apply elem_of_cons in H as [E|H], H' as [E'|H'].
  - congruence.
  - destruct Hy. by apply (list_elem_of_fmap_2' snd l (a', b)); [|injection E].
  - destruct Hy. by apply (list_elem_of_fmap_2' snd l (a, b)); [|injection E'].
  - by apply IH.
Qed.

Lemma TrapName_inj oid oid' : TrapName oid <> "" -> TrapName oid = TrapName oid' -> oid = oid'.
Proof.
  intros Hne E. destruct (TrapName_entry oid) as [?|H]; [done|]. destruct (TrapName_entry oid') as [?|H']; [congruence|].
  rewrite <- E in H'. by apply (NoDup_snd_inj _ _ _ _ names_distinct H H').
Qed.

Lemma TrapName_not_numeric oid : TrapName oid <> "" -> numeric (TrapName oid) = false.
Proof.
  intros Hne. destruct (TrapName_entry oid) as [?|H]; [done|]. pose proof names_not_numeric as Hall.
  rewrite forallb_forall in Hall. apply negb_true_iff, Hall, list_elem_of_In. by apply (list_elem_of_fmap_2' snd _ _ _ H).
Qed.

Lemma nameIn_complete table oid n : NoDup table.*1 -> (oid, n) ∈ table -> nameIn table oid = Some n.
Proof.
  induction table as [|[k m] table IH]; intros Hnd H; [by apply elem_of_nil in H|]. rewrite fmap_cons in Hnd. apply NoDup_cons in Hnd as [Hk Hnd].
  cbn [nameIn]. apply elem_of_cons in H as [E|H]; [injection E as -> ->; by rewrite decide_True|].
  rewrite decide_False; [by apply IH|]. intros ->. destruct Hk. by apply (list_elem_of_fmap_2' fst table (oid, n)).
Qed.

(** The vendors' table hides no entry behind the standard one. *)
Lemma TrapName_complete oid n : (oid, n) ∈ allNames -> TrapName oid = n.
Proof.
  intros H. pose proof oids_distinct as Hnd. unfold allNames in Hnd, H. rewrite fmap_app in Hnd. apply NoDup_app in Hnd as (H1 & Hd & H2).
  unfold TrapName. apply elem_of_app in H as [H|H]; [by rewrite (nameIn_complete _ _ _ H1 H)|].
  destruct (nameIn trapNames oid) as [m|] eqn:E; [|by rewrite (nameIn_complete _ _ _ H2 H)].
  apply nameIn_Some in E. destruct (Hd oid); [by apply (list_elem_of_fmap_2' fst trapNames (oid, m))|
    by apply (list_elem_of_fmap_2' fst vendorTrapNames (oid, n))].
Qed.
