(* ===== verification/Trap.v ===== *)
(** Package events (trap.go): decoding one SNMP notification.

    The BER decoding of a message is the gosnmp library's: [UnmarshalTrap] is a
    parameter, and what it says of a value's type and of a number's text is
    part of what it returns. *)
From Stdlib Require Import ZArith Lia.
From stdpp Require Import base list strings numbers sorting.
From S2P Require Import Prelude GoText Netip NetipParse TrapNames.

Definition MaxVarbinds : Z := 64.
Definition MaxValueBytes : Z := 512.

Definition oidSnmpTrapOID : string := "1.3.6.1.6.3.1.1.4.1.0".
Definition oidSysUpTime : string := "1.3.6.1.2.1.1.3.0".
Definition oidIfTableColumn : string := "1.3.6.1.2.1.2.2.1.".
Definition oidSnmpTraps : string := "1.3.6.1.6.3.1.1.5.".

(** ** What the library decodes *)

Inductive PDUType : Type := PDUTrap | PDUSNMPv2Trap | PDUInformRequest | PDUGetResponse | PDUOther.
#[export] Instance PDUType_eq_dec : EqDecision PDUType.
Proof. solve_decision. Defined.

(** The Go value of a variable: [VOther] is what [fmt.Sprint] prints of a number. *)
Inductive value : Type := VBytes (b : bytes) | VString (s : string) | VNil | VOther (text : string).

Record SnmpPDU : Type := mkSnmpPDU { pdu_Name : string; pdu_Type : string; pdu_Value : value }.

Record SnmpPacket : Type := mkSnmpPacket {
  p_PDUType : PDUType; Community : string; Enterprise : string; GenericTrap : Z; SpecificTrap : Z;
  AgentAddress : string; Variables : list SnmpPDU; p_Error : Z; p_ErrorIndex : Z
}.
#[export] Instance eta_SnmpPacket : Eta SnmpPacket := fun p =>
  mkSnmpPacket (p_PDUType p) (Community p) (Enterprise p) (GenericTrap p) (SpecificTrap p) (AgentAddress p) (Variables p)
    (p_Error p) (p_ErrorIndex p).

(** ** A decoded notification *)

Record Varbind : Type := mkVarbind { vb_OID : string; vb_Type : string; vb_Value : string }.
#[export] Instance eta_Varbind : Eta Varbind := fun v => mkVarbind (vb_OID v) (vb_Type v) (vb_Value v).

Record Trap : Type := mkTrap {
  At : Time; Source : Addr; Agent : Addr; tr_Version : string; Inform : bool; TrapOID : string; Name : string;
  IfIndex : string; Varbinds : list Varbind; DeviceID : string; packet : option SnmpPacket
}.
#[export] Instance eta_Trap : Eta Trap := fun t =>
  mkTrap (At t) (Source t) (Agent t) (tr_Version t) (Inform t) (TrapOID t) (Name t) (IfIndex t) (Varbinds t) (DeviceID t) (packet t).

Definition Label (t : Trap) : string := if decide (Name t <> "") then Name t else TrapOID t.

Inductive trapError : Type := ErrUnsupportedVersion | ErrNotATrap | ErrNotSNMP | ErrUnmarshal | ErrNoTrapOID.

(** ** Reading *)

Definition PeekVersion (b : bytes) : outcome Z :=
  if len b <? 2 then Ret (-1) else
  b0 ← index b 0;
  if negb (bz b0 =? 48) then Ret (-1) else
  b1 ← index b 1;
  let i := if negb (Z.land (bz b1) 128 =? 0) then 2 + Z.land (bz b1) 127 else 2 in
  if len b <? i + 3 then Ret (-1) else
  t ← index b i;
  if negb (bz t =? 2) then Ret (-1) else
  l ← index b (i + 1);
  if negb (bz l =? 1) then Ret (-1) else
  v ← index b (i + 2);
  Ret (bz v).

(** [strings.TrimPrefix]. *)
Definition TrimPrefix (s p : string) : string :=
  if HasPrefix s p then of_bytes (drop (length (to_bytes p)) (to_bytes s)) else s.

Definition v1TrapOID (enterprise : string) (generic specific : Z) : string :=
  let enterprise := TrimPrefix enterprise "." in
  if (0 <=? generic) && (generic <? 6) then oidSnmpTraps +:+ Itoa (generic + 1)
  else enterprise +:+ ".0." +:+ Itoa specific.

(** The rune of a chunk, as [range] gives it: an invalid byte is U+FFFD. *)
Definition rangeRune (rc : option Z * bytes) : Z := default 65533 rc.1.
Definition printable (b : bytes) : bool :=
  forallb (fun rc => let c := rangeRune rc in negb ((c <? 32) && negb (c =? 9) && negb (c =? 10) && negb (c =? 13))) (runes b).

Definition digits : bytes := to_bytes "0123456789ABCDEF".

Fixpoint hexFrom (i : Z) (b : bytes) : outcome bytes :=
  match b with
  | [] => Ret []
  | c :: b =>
      hi ← index digits (Z.shiftr (bz c) 4);
      lo ← index digits (Z.land (bz c) 15);
      rest ← hexFrom (i + 1) b;
      Ret ((if 0 <? i then [space] else []) ++ hi :: lo :: rest)
  end.
Definition hexString (b : bytes) : outcome bytes := hexFrom 0 b.

(** U+2026. *)
Definition ellipsis : bytes := [zb 226; zb 128; zb 166].

Definition valueText (v : value) : outcome bytes :=
  match v with
  | VBytes x => if utf8_Valid x && printable x then Ret x else hexString x
  | VString x => Ret (to_bytes (TrimPrefix x "."))
  | VNil => Ret []
  | VOther text => Ret (to_bytes text)
  end.

Definition render (name : string) (v : SnmpPDU) : outcome Varbind :=
  text ← valueText (pdu_Value v);
  cut ← (if MaxValueBytes <? len text then head ← slice text 0 MaxValueBytes; Ret (head ++ ellipsis) else Ret text);
  Ret (mkVarbind name (pdu_Type v) (of_bytes cut)).

(** One turn of the loop over the variables. *)
Definition addVariable (t : Trap) (v : SnmpPDU) : outcome Trap :=
  let name := TrimPrefix (pdu_Name v) "." in
  let c2 := bool_decide (tr_Version t = "2c") in
  if c2 && bool_decide (name = oidSnmpTrapOID) then
    Ret (match pdu_Value v with VString s => t <| TrapOID := TrimPrefix s "." |> | _ => t end)
  else if c2 && bool_decide (name = oidSysUpTime) then Ret t
  else
    let t :=
      if bool_decide (IfIndex t = "") && HasPrefix name oidIfTableColumn then
        match cut_last (to_bytes name) dot with
        | Some (before, after) => if decide (before = []) then t else t <| IfIndex := of_bytes after |>
        | None => t
        end
      else t in
    if len (Varbinds t) <? MaxVarbinds then
      vb ← render name v;
      Ret (t <| Varbinds := Varbinds t ++ [vb] |>)
    else Ret t.

Fixpoint addVariables (t : Trap) (vs : list SnmpPDU) : outcome Trap :=
  match vs with
  | [] => Ret t
  | v :: vs => t ← addVariable t v; addVariables t vs
  end.

Section decoding.
Context (UnmarshalTrap : bytes -> option SnmpPacket) (MarshalMsg : SnmpPacket -> option bytes).

(** What the type of the PDU says, before the variables. *)
Definition header (p : SnmpPacket) (src : Addr) (at_ : Time) : option Trap :=
  let t := mkTrap at_ src AddrZero "" false "" "" "" [] "" (Some p) in
  match p_PDUType p with
  | PDUTrap =>
      let t := t <| tr_Version := "1" |> <| TrapOID := v1TrapOID (Enterprise p) (GenericTrap p) (SpecificTrap p) |> in
      match ParseAddr (AgentAddress p) with
      | Some a => Some (if IsUnspecified a then t else t <| Agent := a |>)
      | None => Some t
      end
  | PDUSNMPv2Trap => Some (t <| tr_Version := "2c" |> <| Inform := false |>)
  | PDUInformRequest => Some (t <| tr_Version := "2c" |> <| Inform := true |>)
  | _ => None
  end.

Definition Decode (b : bytes) (src : Addr) (at_ : Time) : outcome (Trap * string + trapError) :=
  v ← PeekVersion b;
  if v =? 3 then Ret (inr ErrUnsupportedVersion) else
  if negb ((v =? 0) || (v =? 1)) then Ret (inr ErrNotSNMP) else
  match UnmarshalTrap b with
  | None => Ret (inr ErrUnmarshal)
  | Some p =>
      match header p src at_ with
      | None => Ret (inr ErrNotATrap)
      | Some t =>
          t ← addVariables t (Variables p);
          if decide (TrapOID t = "") then Ret (inr ErrNoTrapOID)
          else Ret (inl (t <| Name := TrapName (TrapOID t) |>, Community p))
      end
  end.

(** [Ack]: [None] for a trap, and when the library cannot encode the answer. *)
Definition Ack (t : Trap) : option bytes :=
  if negb (Inform t) then None else
  p ← packet t;
  MarshalMsg (p <| p_PDUType := PDUGetResponse |> <| p_Error := 0 |> <| p_ErrorIndex := 0 |>).
End decoding.

(** * Reading never fails out of bounds *)

Lemma PeekVersion_spec b : exists v, PeekVersion b = Ret v /\ -1 <= v < 256.
Proof.
  enough (wp (PeekVersion b) (fun v => -1 <= v < 256)) as (v & ? & ?)%wp_inv by eauto.
  unfold PeekVersion. wp_step; [apply wp_ret; lia|]. apply Z.ltb_ge in E.
  apply wp_bind, wp_index; [lia|]. intros b0 _. wp_step; [apply wp_ret; lia|].
  apply wp_bind, wp_index; [lia|]. intros b1 _.
  set (i := if negb _ then _ else _). assert (2 <= i) as Hi.
  { unfold i. case_match; [|lia]. assert (0 <= Z.land (bz b1) 127) by (apply Z.land_nonneg; by right). lia. }
  wp_step; [apply wp_ret; lia|]. apply Z.ltb_ge in E1.
  apply wp_bind, wp_index; [lia|]. intros t _. wp_step; [apply wp_ret; lia|].
  apply wp_bind, wp_index; [lia|]. intros l _. wp_step; [apply wp_ret; lia|].
  apply wp_bind, wp_index; [lia|]. intros v _. apply wp_ret. pose proof (bz_bounds v). lia.
Qed.

Lemma digits_index d : 0 <= d < 16 -> exists c, index digits d = Ret c.
Proof. intros Hd. destruct (index_ret digits d Hd) as (c & E & _). by exists c. Qed.

Lemma hexFrom_ret b : forall i, exists out, hexFrom i b = Ret out.
Proof.
  induction b as [|c b IH]; intros i; cbn [hexFrom]; [by eexists|]. pose proof (bz_bounds c).
  destruct (digits_index (Z.shiftr (bz c) 4)) as [hi ->].
  { rewrite Z.shiftr_div_pow2 by lia. change (2 ^ 4) with 16. split; [apply Z.div_pos; lia|apply Z.div_lt_upper_bound; lia]. }
  destruct (digits_index (Z.land (bz c) 15)) as [lo ->].
  { change 15 with (Z.ones 4). rewrite land_low by lia. apply Z.mod_pos_bound. lia. }
  cbn [mbind outcome_bind]. destruct (IH (i + 1)) as [out ->]. by eexists.
Qed.

Lemma valueText_ret v : exists text, valueText v = Ret text.
Proof. destruct v; cbn [valueText]; eauto. destruct (_ && _); [eauto|]. apply hexFrom_ret. Qed.

(** The text of a value, cut at the limit with a mark where it was cut. *)
Definition shortened (text : bytes) : bytes :=
  if MaxValueBytes <? len text then take (Z.to_nat MaxValueBytes) text ++ ellipsis else text.

Lemma render_ret name v : exists text, valueText (pdu_Value v) = Ret text /\
  render name v = Ret (mkVarbind name (pdu_Type v) (of_bytes (shortened text))).
Proof.
  destruct (valueText_ret (pdu_Value v)) as [text E]. exists text. split; [done|]. unfold render, shortened. rewrite E. cbn [mbind outcome_bind].
  destruct (MaxValueBytes <? len text) eqn:El; [|done]. apply Z.ltb_lt in El.
  rewrite slice_ret by (unfold MaxValueBytes in *; lia). done.
Qed.

Lemma len_shortened text : len (shortened text) <= MaxValueBytes + 3.
Proof.
  unfold shortened. destruct (_ <? _) eqn:E.
  - rewrite len_app. change (len ellipsis) with 3. unfold len. rewrite length_take. unfold MaxValueBytes. lia.
  - apply Z.ltb_ge in E. lia.
Qed.

(** * What a notification is made of *)

Definition nameOf (v : SnmpPDU) : string := TrimPrefix (pdu_Name v) ".".

(** The variables that are shown: all of a v1 trap's, and of a v2c one's those
    that are not its OID or the agent's uptime. *)
Definition shown (version : string) (vs : list SnmpPDU) : list SnmpPDU :=
  if decide (version = "2c") then filter (fun v => nameOf v <> oidSnmpTrapOID /\ nameOf v <> oidSysUpTime) vs else vs.

(** The OIDs a v2c notification says it is. *)
Definition announcedOIDs (version : string) (vs : list SnmpPDU) : list string :=
  if decide (version = "2c")
  then omap (fun v => if decide (nameOf v = oidSnmpTrapOID) then match pdu_Value v with VString s => Some (TrimPrefix s ".") | _ => None end else None) vs
  else [].

(** The interface a variable is about. *)
Definition portOf (v : SnmpPDU) : option string :=
  if HasPrefix (nameOf v) oidIfTableColumn then
    match cut_last (to_bytes (nameOf v)) dot with
    | Some (before, after) => if decide (before = [] \/ after = []) then None else Some (of_bytes after)
    | None => None
    end
  else None.

Definition rendered (v : SnmpPDU) (vb : Varbind) : Prop := render (nameOf v) v = Ret vb.

Record collected (t : Trap) (vs : list SnmpPDU) (t' : Trap) : Prop := mkCollected {
  col_oid : TrapOID t' = default (TrapOID t) (last (announcedOIDs (tr_Version t) vs));
  col_port : IfIndex t' = (if decide (IfIndex t = "") then default "" (head (omap portOf (shown (tr_Version t) vs))) else IfIndex t);
  col_binds : exists vbs, Varbinds t' = Varbinds t ++ vbs /\
    Forall2 rendered (take (Z.to_nat (MaxVarbinds - len (Varbinds t))) (shown (tr_Version t) vs)) vbs;
  col_rest : t' = t <| TrapOID := TrapOID t' |> <| IfIndex := IfIndex t' |> <| Varbinds := Varbinds t' |>
}.

Lemma of_bytes_nil b : of_bytes b = "" <-> b = [].
Proof. split; [|by intros ->]. intros E. apply (inj of_bytes). by rewrite E. Qed.

(** One variable that is shown. *)
Definition showVariable (t : Trap) (v : SnmpPDU) : outcome Trap :=
  let t := if bool_decide (IfIndex t = "") then t <| IfIndex := default "" (portOf v) |> else t in
  if len (Varbinds t) <? MaxVarbinds then vb ← render (nameOf v) v; Ret (t <| Varbinds := Varbinds t ++ [vb] |>) else Ret t.

Lemma addVariable_eq t v : addVariable t v =
  if decide (tr_Version t = "2c") then
    if decide (nameOf v = oidSnmpTrapOID) then
      Ret (match pdu_Value v with VString s => t <| TrapOID := TrimPrefix s "." |> | _ => t end)
    else if decide (nameOf v = oidSysUpTime) then Ret t else showVariable t v
  else showVariable t v.
Proof.
  assert ((let t := if bool_decide (IfIndex t = "") && HasPrefix (nameOf v) oidIfTableColumn then
        match cut_last (to_bytes (nameOf v)) dot with
        | Some (before, after) => if decide (before = []) then t else t <| IfIndex := of_bytes after |>
        | None => t
        end
      else t in
    if len (Varbinds t) <? MaxVarbinds then vb ← render (nameOf v) v; Ret (t <| Varbinds := Varbinds t ++ [vb] |>) else Ret t)
    = showVariable t v) as E.
  { unfold showVariable, portOf. case_bool_decide as Ei; [|done]. simpl andb.
    assert (t = t <| IfIndex := "" |>) as Et by (destruct t; simpl in *; congruence).
    destruct (HasPrefix _ _); [|simpl default; by rewrite <- Et].
    destruct (cut_last _ _) as [[before after]|]; [|simpl default; by rewrite <- Et].
    destruct (decide (before = [])) as [->|Hb]; [rewrite decide_True by (by left); simpl default; by rewrite <- Et|].
    destruct (decide (after = [])) as [->|Ha]; [by rewrite decide_True by (by right)|].
    by rewrite decide_False by (by intros [?|?]). }
  unfold addVariable. cbv zeta in *. fold (nameOf v). rewrite E.
  repeat (case_bool_decide || case_decide); simpl andb; cbn iota; try done.
Qed.

Lemma showVariable_ret t v : exists vbs, Forall2 rendered (take (Z.to_nat (MaxVarbinds - len (Varbinds t))) [v]) vbs /\
  showVariable t v = Ret (t <| IfIndex := if decide (IfIndex t = "") then default "" (portOf v) else IfIndex t |>
                            <| Varbinds := Varbinds t ++ vbs |>).
Proof.
  unfold showVariable. set (t1 := if bool_decide _ then _ else _).
  assert (t1 = t <| IfIndex := if decide (IfIndex t = "") then default "" (portOf v) else IfIndex t |>) as ->.
  { unfold t1. case_bool_decide; case_decide; try done. by destruct t. }
  cbn [Varbinds set]. destruct (render_ret (nameOf v) v) as (text & _ & E).
  change (Varbinds (t <| IfIndex := _ |>)) with (Varbinds t).
  destruct (len (Varbinds t) <? MaxVarbinds) eqn:El.
  - apply Z.ltb_lt in El. exists [mkVarbind (nameOf v) (pdu_Type v) (of_bytes (shortened text))]. rewrite E. cbn [mbind outcome_bind].
    split; [|done]. replace (Z.to_nat _) with (S (Z.to_nat (MaxVarbinds - len (Varbinds t) - 1))) by lia. simpl. rewrite take_nil. by repeat constructor.
  - apply Z.ltb_ge in El. exists []. replace (Z.to_nat _) with O by lia. split; [constructor|]. rewrite app_nil_r. by destruct t.
Qed.

Lemma portOf_ne v o : portOf v = Some o -> o <> "".
Proof.
  unfold portOf. destruct (HasPrefix _ _); [|done]. destruct (cut_last _ _) as [[before after]|]; [|done].
  case_decide as Hd; [done|]. intros [= <-] ->%of_bytes_nil. tauto.
Qed.

Lemma collected_trans t v vs t1 t2 : collected t [v] t1 -> collected t1 vs t2 -> collected t (v :: vs) t2.
Proof.
  intros [O1 P1 (b1 & B1 & F1) R1] [O2 P2 (b2 & B2 & F2) R2].
  assert (tr_Version t1 = tr_Version t) as Ev by (rewrite R1; by destruct t). rewrite Ev in *.
  assert (forall ver, shown ver (v :: vs) = shown ver [v] ++ shown ver vs) as Es.
  { intros ver. unfold shown. destruct (decide (ver = "2c")); [|done]. by rewrite <- filter_app. }
  assert (forall ver, announcedOIDs ver (v :: vs) = announcedOIDs ver [v] ++ announcedOIDs ver vs) as Ea.
  { intros ver. unfold announcedOIDs. destruct (decide (ver = "2c")); [|done]. by rewrite <- omap_app. }
  split.
  - rewrite O2, Ea, last_app, O1. by destruct (last (announcedOIDs (tr_Version t) vs)).
  - rewrite P2, P1, Es, omap_app, head_app. destruct (decide (IfIndex t = "")) as [Ht|Ht]; [|by rewrite decide_False].
    assert (forall l o, head (omap portOf l) = Some o -> o <> "") as Hne.
    { intros l o Ho. assert (o ∈ omap portOf l) as (w & _ & Ew)%list_elem_of_omap by (destruct (omap portOf l); [done|injection Ho as ->; constructor]).
      by apply portOf_ne in Ew. }
    destruct (head (omap portOf (shown (tr_Version t) [v]))) as [o|] eqn:Eo; simpl; [|done]. apply Hne in Eo. by rewrite decide_False.
  - exists (b1 ++ b2). split; [by rewrite B2, B1, <- app_assoc|]. rewrite Es, take_app. apply Forall2_app; [done|].
    assert (length b1 = length (take (Z.to_nat (MaxVarbinds - len (Varbinds t))) (shown (tr_Version t) [v]))) as Elen by (by apply Forall2_length in F1).
    rewrite length_take in Elen.
    assert (Z.to_nat (MaxVarbinds - len (Varbinds t)) - length (shown (tr_Version t) [v]) = Z.to_nat (MaxVarbinds - len (Varbinds t1)) \/
      Z.to_nat (MaxVarbinds - len (Varbinds t)) - length (shown (tr_Version t) [v]) = 0 /\ Z.to_nat (MaxVarbinds - len (Varbinds t1)) = 0)%nat as [->|[E1 E2]].
    { rewrite B1, len_app. unfold len in *. rewrite Elen. lia. }
    + done.
    + rewrite E1. rewrite E2 in F2. done.
  - rewrite R2, R1. by destruct t.
Qed.

Lemma shown_one ver v : shown ver [v] =
  if decide (ver = "2c" /\ (nameOf v = oidSnmpTrapOID \/ nameOf v = oidSysUpTime)) then [] else [v].
Proof. unfold shown. rewrite filter_cons, filter_nil. repeat case_decide; tauto. Qed.

Lemma announced_one ver v : announcedOIDs ver [v] =
  if decide (ver = "2c" /\ nameOf v = oidSnmpTrapOID) then match pdu_Value v with VString s => [TrimPrefix s "."] | _ => [] end else [].
Proof. unfold announcedOIDs. cbn [omap list_omap]. repeat case_decide; try tauto. by destruct (pdu_Value v). Qed.

Lemma collected_skip t v : shown (tr_Version t) [v] = [] ->
  collected t [v] (t <| TrapOID := default (TrapOID t) (last (announcedOIDs (tr_Version t) [v])) |>).
Proof.
  intros Es. split; rewrite ?Es; [done|simpl; by case_decide|exists []; by rewrite app_nil_r, take_nil|by destruct t].
Qed.

Lemma collected_show t v : shown (tr_Version t) [v] = [v] -> announcedOIDs (tr_Version t) [v] = [] ->
  exists t', showVariable t v = Ret t' /\ collected t [v] t'.
Proof.
  intros Es Ea. destruct (showVariable_ret t v) as (vbs & Hf & E). eexists. split; [exact E|].
  split; rewrite ?Es, ?Ea; [by destruct t| |by exists vbs|by destruct t]. simpl. by destruct (portOf v).
Qed.

Lemma addVariable_collected t v : exists t', addVariable t v = Ret t' /\ collected t [v] t'.
Proof.
  rewrite addVariable_eq. pose proof (collected_skip t v) as Hskip. pose proof (collected_show t v) as Hshow.
  rewrite shown_one, announced_one in *.
  destruct (decide (tr_Version t = "2c")) as [Ev|Ev].
  2: { rewrite !decide_False in Hshow by tauto. by apply Hshow. }
  destruct (decide (nameOf v = oidSnmpTrapOID)) as [E1|E1].
  - rewrite !decide_True in Hskip by tauto. specialize (Hskip eq_refl). eexists. split; [done|].
    destruct (pdu_Value v) as [b|s| |n]; [|exact Hskip| |]; by destruct t.
  - rewrite (decide_False (P := _ /\ nameOf v = oidSnmpTrapOID)) in * by tauto.
    destruct (decide (nameOf v = oidSysUpTime)) as [E2|E2].
    + rewrite decide_True in Hskip by tauto. exists t. split; [done|]. specialize (Hskip eq_refl). by destruct t.
    + rewrite decide_False in Hshow by tauto. by apply Hshow.
Qed.

Lemma addVariables_collected vs : forall t, exists t', addVariables t vs = Ret t' /\ collected t vs t'.
Proof.
  induction vs as [|v vs IH]; intros t; cbn [addVariables].
  - exists t. split; [done|]. assert (shown (tr_Version t) [] = [] /\ announcedOIDs (tr_Version t) [] = []) as [Es Ea].
    { unfold shown, announcedOIDs. by case_decide. }
    split; rewrite ?Es, ?Ea; [done|simpl; by case_decide|exists []; by rewrite app_nil_r, take_nil|by destruct t].
  - destruct (addVariable_collected t v) as (t1 & -> & H1). cbn [mbind outcome_bind]. destruct (IH t1) as (t2 & E & H2).
    exists t2. split; [done|]. by apply collected_trans with t1.
Qed.

(** * What is decoded *)

Section decoded.
Context (UnmarshalTrap : bytes -> option SnmpPacket).
Abbreviation Decode := (Decode UnmarshalTrap).

(** A notification, as its packet and its header make it. *)
Definition decodedAs (b : bytes) (src : Addr) (at_ : Time) (p : SnmpPacket) (t : Trap) : Prop :=
  (PeekVersion b = Ret 0 \/ PeekVersion b = Ret 1) /\ UnmarshalTrap b = Some p /\
  exists t0 t1, header p src at_ = Some t0 /\ collected t0 (Variables p) t1 /\ TrapOID t1 <> "" /\
    t = t1 <| Name := TrapName (TrapOID t1) |>.

Lemma Decode_cases b src at_ : exists r, Decode b src at_ = Ret r /\
  match r with
  | inl (t, community) => exists p, decodedAs b src at_ p t /\ community = Community p
  | inr ErrUnsupportedVersion => PeekVersion b = Ret 3
  | inr _ => PeekVersion b <> Ret 3
  end.
Proof.
  unfold Decode. destruct (PeekVersion_spec b) as (v & Ev & Hv). unfold decodedAs. rewrite Ev. cbn [mbind outcome_bind].
  destruct (Z.eqb_spec v 3) as [->|H3]; [by eexists|]. assert (Ret v <> Ret 3) as H3' by congruence.
  destruct ((v =? 0) || (v =? 1)) eqn:E01; cbn [negb]; [|by exists (inr ErrNotSNMP)].
  assert (v = 0 \/ v = 1) as H01 by lia.
  destruct (UnmarshalTrap b) as [p|]; [|by exists (inr ErrUnmarshal)].
  destruct (header p src at_) as [t0|] eqn:Eh; [|by exists (inr ErrNotATrap)].
  destruct (addVariables_collected (Variables p) t0) as (t1 & -> & Hc). cbn [mbind outcome_bind].
  case_decide as Ho; [by exists (inr ErrNoTrapOID)|]. eexists. split; [done|]. exists p. split; [|done].
  split; [by destruct H01 as [->| ->]; auto|]. split; [done|]. exists t0, t1. rewrite Eh. by split_and!.
Qed.

Lemma Decode_inl b src at_ t community : Decode b src at_ = Ret (inl (t, community)) ->
  exists p, decodedAs b src at_ p t /\ community = Community p.
Proof. intros E. destruct (Decode_cases b src at_) as (r & E' & H). rewrite E in E'. by injection E' as <-. Qed.

Lemma header_fields p src at_ t : header p src at_ = Some t ->
  Source t = src /\ At t = at_ /\ DeviceID t = "" /\ Varbinds t = [] /\ IfIndex t = "" /\ packet t = Some p /\
  (tr_Version t = "1" /\ Inform t = false /\ p_PDUType p = PDUTrap /\ TrapOID t = v1TrapOID (Enterprise p) (GenericTrap p) (SpecificTrap p) \/
   tr_Version t = "2c" /\ Inform t = bool_decide (p_PDUType p = PDUInformRequest) /\ p_PDUType p <> PDUTrap /\ TrapOID t = "").
Proof.
  unfold header. destruct (p_PDUType p); try done; [|intros [= <-]; split_and!; try done; right; by split_and!..].
  intros H. assert (exists ag, t = mkTrap at_ src ag "1" false (v1TrapOID (Enterprise p) (GenericTrap p) (SpecificTrap p)) "" "" [] "" (Some p)) as [ag ->].
  { destruct (ParseAddr _); [destruct (IsUnspecified _)|]; injection H as <-; by eexists. }
  split_and!; try done. left. by split_and!.
Qed.

(** Every datagram is decoded or refused without an access out of range. What
    is decoded is a v1 trap, or a v2c trap or inform, of the sender and the
    moment it came at, with an OID and no device; it carries at most
    [MaxVarbinds] values, none longer than [MaxValueBytes] and the mark of the
    cut. An SNMPv3 message is told from one that cannot be read. *)
Theorem Decode_bounded b src at_ : exists r, Decode b src at_ = Ret r /\
  (r = inr ErrUnsupportedVersion <-> PeekVersion b = Ret 3) /\
  forall t community, r = inl (t, community) ->
    Source t = src /\ At t = at_ /\ DeviceID t = "" /\ TrapOID t <> "" /\
    (tr_Version t = "1" /\ Inform t = false \/ tr_Version t = "2c") /\
    len (Varbinds t) <= MaxVarbinds /\ Forall (fun vb => slen (vb_Value vb) <= MaxValueBytes + 3) (Varbinds t).
Proof.
  destruct (Decode_cases b src at_) as (r & E & Hr). exists r. split; [done|]. split.
  { destruct r as [[t c]|[]]; try (by split); split; try done. destruct Hr as (p & ([?|?] & _) & _); congruence. }
  intros t community ->. destruct Hr as (p & (_ & _ & t0 & t1 & Hh & [_ _ (vbs & Hb & Hf) Hrest] & Ho & ->) & _).
  destruct (header_fields _ _ _ _ Hh) as (H1 & H2 & H3 & H4 & _ & _ & H5).
  rewrite H4 in Hb, Hf. change (len []) with 0 in Hf. simpl in Hb. rewrite Hrest. cbn [Source At DeviceID TrapOID tr_Version Inform Varbinds set].
  split_and!; [done|done|done|exact Ho|naive_solver| |]; rewrite Hb.
  - apply Forall2_length in Hf. rewrite length_take in Hf. unfold len, MaxVarbinds in *. lia.
  - apply Forall_forall. intros vb Hin. apply list_elem_of_lookup in Hin as [i Hi]. destruct (Forall2_lookup_r _ _ _ _ _ Hf Hi) as (v & _ & Hv).
    unfold rendered in Hv. destruct (render_ret (nameOf v) v) as (text & _ & Et). rewrite Et in Hv. injection Hv as <-. cbn [vb_Value].
    rewrite slen_of_bytes. apply len_shortened.
Qed.

Lemma label_exact_of b b' src src' at_ at_' t t' c c' :
  Decode b src at_ = Ret (inl (t, c)) -> Decode b' src' at_' = Ret (inl (t', c')) ->
  numeric (TrapOID t) = true -> numeric (TrapOID t') = true ->
  Label t = Label t' <-> TrapOID t = TrapOID t'.
Proof.
  intros (p & (_ & _ & t0 & t1 & _ & _ & Ho & ->) & _)%Decode_inl (p' & (_ & _ & t0' & t1' & _ & _ & Ho' & ->) & _)%Decode_inl.
  cbn [TrapOID set]. intros Hn Hn'. unfold Label. cbn [Name TrapOID set]. split; [|by intros ->].
  destruct (decide (TrapName (TrapOID t1) <> "")) as [Hd|Hd], (decide (TrapName (TrapOID t1') <> "")) as [Hd'|Hd']; intros E.
  - by apply TrapName_inj.
  - apply TrapName_not_numeric in Hd. congruence.
  - apply TrapName_not_numeric in Hd'. congruence.
  - done.
Qed.

(** Two notifications go by one label exactly when they are of one kind,
    whatever the version that carries them: no two OIDs share a name, and no
    name could be taken for an OID. *)
Theorem label_exact b b' src src' at_ at_' t t' c c' :
  Decode b src at_ = Ret (inl (t, c)) -> Decode b' src' at_' = Ret (inl (t', c')) ->
  numeric (TrapOID t) = true -> numeric (TrapOID t') = true ->
  Label t = Label t' <-> TrapOID t = TrapOID t'.
Proof. apply label_exact_of. Qed.

Definition genericNames : list string :=
  ["coldStart"; "warmStart"; "linkDown"; "linkUp"; "authenticationFailure"; "egpNeighborLoss"].

Lemma generic_oid g enterprise specific : 0 <= g < 6 ->
  let oid := v1TrapOID enterprise g specific in
  oid = oidSnmpTraps +:+ Itoa (g + 1) /\ numeric oid = true /\ TrapName oid <> "" /\ genericNames !! Z.to_nat g = Some (TrapName oid).
Proof.
  intros Hg. cbv zeta. assert (v1TrapOID enterprise g specific = oidSnmpTraps +:+ Itoa (g + 1)) as ->.
  { unfold v1TrapOID. replace (_ && _) with true; [done|]. symmetry. apply andb_true_intro. lia. }
  split; [done|]. assert (g = 0 \/ g = 1 \/ g = 2 \/ g = 3 \/ g = 4 \/ g = 5) as H by lia.
  repeat destruct H as [->|H]; [..|rewrite H]; by vm_compute.
Qed.

(** A generic v1 trap goes by the name of the standard notification it stands
    for, and a v2c notification goes by the same exactly when the OID it
    announces last is that notification's. *)
Theorem v1_as_v2c b b' src src' at_ at_' t t' c c' p p' oid :
  Decode b src at_ = Ret (inl (t, c)) -> UnmarshalTrap b = Some p -> p_PDUType p = PDUTrap -> 0 <= GenericTrap p < 6 ->
  Decode b' src' at_' = Ret (inl (t', c')) -> UnmarshalTrap b' = Some p' -> p_PDUType p' <> PDUTrap ->
  last (announcedOIDs "2c" (Variables p')) = Some oid -> numeric oid = true ->
  genericNames !! Z.to_nat (GenericTrap p) = Some (Label t) /\
  (Label t' = Label t <-> oid = oidSnmpTraps +:+ Itoa (GenericTrap p + 1)).
Proof.
  intros E Ep Hp Hg E' Ep' Hp' Hlast Hn.
  destruct (Decode_inl _ _ _ _ _ E) as (q & (_ & Eq & t0 & t1 & Hh & [Ho _ _ Hrest] & _ & Et) & _).
  destruct (Decode_inl _ _ _ _ _ E') as (q' & (_ & Eq' & t0' & t1' & Hh' & [Ho' _ _ _] & _ & Et') & _).
  rewrite Ep in Eq. injection Eq as <-. rewrite Ep' in Eq'. injection Eq' as <-.
  destruct (header_fields _ _ _ _ Hh) as (_ & _ & _ & _ & _ & _ & [(Hv & _ & _ & Hoid)|(_ & _ & ? & _)]); [|done].
  destruct (header_fields _ _ _ _ Hh') as (_ & _ & _ & _ & _ & _ & [(_ & _ & ? & _)|(Hv' & _ & _ & _)]); [done|].
  rewrite Hv in Ho. rewrite Hv', Hlast in Ho'. simpl in Ho, Ho'. rewrite Hoid in Ho.
  destruct (generic_oid (GenericTrap p) (Enterprise p) (SpecificTrap p) Hg) as (Eoid & Hnum & Hne & Hname). cbv zeta in *.
  assert (TrapOID t = v1TrapOID (Enterprise p) (GenericTrap p) (SpecificTrap p) /\ TrapOID t' = oid) as [Hot Hot'] by (subst t t'; by split).
  split.
  - rewrite Hname. f_equal. subst t. unfold Label. cbn [Name TrapOID set]. rewrite Ho. by rewrite decide_True.
  - pose proof (label_exact_of _ _ _ _ _ _ _ _ _ _ E' E) as Hl. rewrite Hot, Hot', Eoid in Hl. apply Hl; [done|]. by rewrite <- Eoid.
Qed.
End decoded.

(** ** Two versions of one event *)

Definition v1Datagram : bytes := zb <$> [48; 3; 2; 1; 0].
Definition v2Datagram : bytes := zb <$> [48; 3; 2; 1; 1].
Definition v1Packet : SnmpPacket :=
  mkSnmpPacket PDUTrap "public" ".1.3.6.1.4.1.9" 2 0 "10.0.0.1"
    [mkSnmpPDU ".1.3.6.1.2.1.2.2.1.1.7" "Integer" (VOther "7")] 0 0.
Definition v2Packet : SnmpPacket :=
  mkSnmpPacket PDUInformRequest "public" "" 0 0 ""
    [mkSnmpPDU ".1.3.6.1.2.1.1.3.0" "TimeTicks" (VOther "4711");
     mkSnmpPDU ".1.3.6.1.6.3.1.1.4.1.0" "ObjectIdentifier" (VString ".1.3.6.1.6.3.1.1.5.3");
     mkSnmpPDU ".1.3.6.1.2.1.2.2.1.2.7" "OctetString" (VBytes (to_bytes "eth7"))] 0 0.
Definition demoUnmarshalTrap (b : bytes) : option SnmpPacket :=
  if decide (b = v1Datagram) then Some v1Packet else if decide (b = v2Datagram) then Some v2Packet else None.

Definition v1Trap : Trap :=
  mkTrap 5 (V4 1) (V4 167772161) "1" false "1.3.6.1.6.3.1.1.5.3" "linkDown" "7"
    [mkVarbind "1.3.6.1.2.1.2.2.1.1.7" "Integer" "7"] "" (Some v1Packet).
Definition v2Trap : Trap :=
  mkTrap 6 (V4 2) AddrZero "2c" true "1.3.6.1.6.3.1.1.5.3" "linkDown" "7"
    [mkVarbind "1.3.6.1.2.1.2.2.1.2.7" "OctetString" "eth7"] "" (Some v2Packet).

Lemma v1_decoded : Decode demoUnmarshalTrap v1Datagram (V4 1) 5 = Ret (inl (v1Trap, "public")).
Proof. vm_compute. reflexivity. Qed.
Lemma v2_decoded : Decode demoUnmarshalTrap v2Datagram (V4 2) 6 = Ret (inl (v2Trap, "public")).
Proof. vm_compute. reflexivity. Qed.

Lemma label_exact_witness : Label v1Trap = Label v2Trap <-> TrapOID v1Trap = TrapOID v2Trap.
Proof.
  apply (label_exact demoUnmarshalTrap v1Datagram v2Datagram (V4 1) (V4 2) 5 6 v1Trap v2Trap "public" "public" v1_decoded v2_decoded); reflexivity.
Defined.

Lemma v1_as_v2c_witness :
  genericNames !! 2%nat = Some (Label v1Trap) /\ (Label v2Trap = Label v1Trap <-> "1.3.6.1.6.3.1.1.5.3" = oidSnmpTraps +:+ Itoa 3).
Proof.
  apply (v1_as_v2c demoUnmarshalTrap v1Datagram v2Datagram (V4 1) (V4 2) 5 6 v1Trap v2Trap "public" "public" v1Packet v2Packet
    "1.3.6.1.6.3.1.1.5.3" v1_decoded); [reflexivity|reflexivity|split; [by intros [=]|done]|exact v2_decoded|reflexivity|by intros [=]|reflexivity|reflexivity].
Defined.

(** A text is cut between bytes: one that is UTF-8 need not be after the cut. *)
Example cut_in_rune :
  let text := replicate 511 (zb 97) ++ [zb 195; zb 164; zb 98] in
  utf8_Valid text = true /\ valueText (VBytes text) = Ret text /\ utf8_Valid (shortened text) = false.
Proof. by vm_compute. Qed.
