(* ===== verification/TrapListener.v ===== *)
(** Package events (listener.go) and the address index of
    events/adapters/postgres (store.go): from a datagram to the event store and
    the metric.

    [Handle], [write] and the turns of [writeLoop] and [statsLoop] are taken one
    at a time, in any order. The sockets, the library's BER codec and the
    outcome of the store and the broker are given from outside. *)
From Stdlib Require Import ZArith Lia.
From Stdlib Require Import SpecFloat.
From stdpp Require Import base list gmap strings numbers relations sorting.
From S2P Require Import Prelude GoText Netip NetipParse Wire Float64 TrapNames Trap.

Definition MetricName : string := "netinv_snmp_trap".

(** ** Addresses *)

(** [net.Addr]; [text_] is what [netip.ParseAddrPort] makes of its text. *)
Inductive NetAddr : Type := UDPAddr (IP : bytes) (text_ : option Addr) | OtherAddr (text_ : option Addr).

Definition addrOf (a : NetAddr) : Addr :=
  let parsed o := match o with Some ip => Unmap ip | None => AddrZero end in
  match a with
  | UDPAddr IP text_ => let '(ip, ok) := AddrFromSlice IP in if ok : bool then Unmap ip else parsed text_
  | OtherAddr text_ => parsed text_
  end.

Inductive allowError : Type := ErrAddr (part : string) | ErrPrefix (part : string).

(** [Prefix.Masked]. *)
Definition Masked (p : Prefix) : Prefix := default (mkPrefix AddrZero (-1)) (Addr_Prefix (pip p) (pbits p)).

Definition parseAllowPart (part : string) : Prefix + allowError :=
  if negb (bool_decide (slash ∈ to_bytes part)) then
    match ParseAddr part with Some a => inl (PrefixFrom a (BitLen a)) | None => inr (ErrAddr part) end
  else match ParsePrefix part with Some p => inl (Masked p) | None => inr (ErrPrefix part) end.

Fixpoint parseAllowParts (parts : list string) (out : list Prefix) : list Prefix + allowError :=
  match parts with
  | [] => inl out
  | part :: parts =>
      let part := TrimSpace part in
      if decide (part = "") then parseAllowParts parts out
      else match parseAllowPart part with inl p => parseAllowParts parts (out ++ [p]) | inr e => inr e end
  end.
Definition ParseAllow (s : string) : list Prefix + allowError := parseAllowParts (Split s comma) [].

(** ** Token buckets *)

Record bucket : Type := mkBucket { tokens : float64; last_ : Time }.
Record limiter : Type := mkLimiter { rate : float64; burst : float64; buckets : gmap Addr bucket }.
#[export] Instance eta_limiter : Eta limiter := fun l => mkLimiter (rate l) (burst l) (buckets l).

Definition newLimiter (rate burst : float64) : limiter := mkLimiter rate burst ∅.

(** What [allow] makes of one bucket. *)
Definition take_token (rate burst : float64) (b : option bucket) (now : Time) : bucket * bool :=
  let b := default (mkBucket burst now) b in
  let tokens := fadd (tokens b) (fmul (Seconds_float (time_Sub now (last_ b))) rate) in
  let tokens := if flt burst tokens then burst else tokens in
  if flt tokens (float_of 1) then (mkBucket tokens now, false) else (mkBucket (fsub tokens (float_of 1)) now, true).

Definition allow (l : limiter) (a : Addr) (now : Time) : limiter * bool :=
  let '(b, ok) := take_token (rate l) (burst l) (buckets l !! a) now in
  (l <| buckets := <[a := b]> (buckets l) |>, ok).

Definition idle (l : limiter) : Duration := int64 (int_of (fmul (fdiv (burst l) (rate l)) (float_of Second)) + Minute).

Definition sweep (l : limiter) (now : Time) : limiter :=
  l <| buckets := filter (fun p : Addr * bucket => time_Sub now (last_ p.2) <= idle l) (buckets l) |>.

(** ** The labels of the metric *)

Record labelCap : Type := mkLabelCap { lc_max : Z; lc_seen : gmap string (gset string) }.
#[export] Instance eta_labelCap : Eta labelCap := fun c => mkLabelCap (lc_max c) (lc_seen c).

Definition label (c : labelCap) (device trap : string) : labelCap * string :=
  let m := default ∅ (lc_seen c !! device) in
  let c := c <| lc_seen := <[device := m]> (lc_seen c) |> in
  if bool_decide (trap ∈ m) then (c, trap)
  else if lc_max c <=? Z.of_nat (size m) then (c, "other")
  else (c <| lc_seen := <[device := {[trap]} ∪ m]> (lc_seen c) |>, trap).

(** ** The listener *)

Record counters : Type := mkCounters {
  received : Z; stored : Z; refused : Z; badCommunity : Z; unsupported : Z; malformed : Z;
  rateLimited : Z; queueFull : Z; unknownSource : Z; informsAcked : Z
}.
#[export] Instance eta_counters : Eta counters := fun s =>
  mkCounters (received s) (stored s) (refused s) (badCommunity s) (unsupported s) (malformed s)
    (rateLimited s) (queueFull s) (unknownSource s) (informsAcked s).
Definition zeroCounters : counters := mkCounters 0 0 0 0 0 0 0 0 0 0.

Definition queueCap : Z := 10000.

(** [batch] and [prev] are the variables of [writeLoop] and [statsLoop]. *)
Record Listener : Type := mkListener {
  Allow : list Prefix; Communities : gset string; l_limiter : limiter; l_labels : labelCap;
  queue : list Trap; stats : counters; batch : list Trap; prev : counters
}.
#[export] Instance eta_Listener : Eta Listener := fun l =>
  mkListener (Allow l) (Communities l) (l_limiter l) (l_labels l) (queue l) (stats l) (batch l) (prev l).

Definition positive_or (x d : float64) : float64 := if fle x (float_of 0) then d else x.

(** [defaults], for a listener that is about to run. *)
Definition defaults (Allow : list Prefix) (Communities : gset string) (PerSourceRate PerSourceBurst : float64)
    (MaxTrapLabelsPerDevice : Z) : Listener :=
  mkListener Allow Communities
    (newLimiter (positive_or PerSourceRate (float_of 20)) (positive_or PerSourceBurst (float_of 200)))
    (mkLabelCap (if MaxTrapLabelsPerDevice <=? 0 then 100 else MaxTrapLabelsPerDevice) ∅)
    [] zeroCounters [] zeroCounters.

Definition bump (f : counters -> counters) (l : Listener) : Listener := l <| stats := f (stats l) |>.
Definition addReceived (s : counters) : counters := s <| received := uint64 (received s + 1) |>.
Definition addStored (n : Z) (s : counters) : counters := s <| stored := uint64 (stored s + n) |>.
Definition addRefused (s : counters) : counters := s <| refused := uint64 (refused s + 1) |>.
Definition addBadCommunity (s : counters) : counters := s <| badCommunity := uint64 (badCommunity s + 1) |>.
Definition addUnsupported (s : counters) : counters := s <| unsupported := uint64 (unsupported s + 1) |>.
Definition addMalformed (s : counters) : counters := s <| malformed := uint64 (malformed s + 1) |>.
Definition addRateLimited (s : counters) : counters := s <| rateLimited := uint64 (rateLimited s + 1) |>.
Definition addQueueFull (s : counters) : counters := s <| queueFull := uint64 (queueFull s + 1) |>.
Definition addUnknownSource (s : counters) : counters := s <| unknownSource := uint64 (unknownSource s + 1) |>.
Definition addInformsAcked (s : counters) : counters := s <| informsAcked := uint64 (informsAcked s + 1) |>.

Definition allowed (l : Listener) (a : Addr) : bool :=
  match Allow l with [] => true | ps => existsb (fun p => Contains p a) ps end.

(** [l.Communities[community]] where any is set. *)
Definition communityOK (l : Listener) (community : string) : bool :=
  bool_decide (Communities l = ∅) || bool_decide (community ∈ Communities l).

(** The device of a notification, if there is a resolver. *)
Definition resolved (resolve : option (Addr -> string)) (t : Trap) (src : Addr) : Trap :=
  match resolve with
  | None => t
  | Some DeviceByAddr =>
      let t := t <| DeviceID := DeviceByAddr src |> in
      if bool_decide (DeviceID t = "") && IsValid (Agent t) then t <| DeviceID := DeviceByAddr (Agent t) |> else t
  end.

Section listener.
Context (UnmarshalTrap : bytes -> option SnmpPacket) (MarshalMsg : SnmpPacket -> option bytes).

Definition Handle (l : Listener) (b : bytes) (from : NetAddr) (at_ : Time) (resolve : option (Addr -> string))
    : outcome (Listener * option bytes) :=
  let l := bump addReceived l in
  let src := addrOf from in
  if negb (allowed l src) then Ret (bump addRefused l, None) else
  d ← Decode UnmarshalTrap b src at_;
  match d with
  | inr ErrUnsupportedVersion => Ret (bump addUnsupported l, None)
  | inr _ => Ret (bump addMalformed l, None)
  | inl (t, community) =>
      if negb (communityOK l community) then Ret (bump addBadCommunity l, None) else
      let '(lim, ok) := allow (l_limiter l) src at_ in
      let l := l <| l_limiter := lim |> in
      if negb (ok : bool) then Ret (bump addRateLimited l, None) else
      let t := resolved resolve t src in
      let l := if decide (DeviceID t = "") then bump addUnknownSource l else l in
      let ack := Ack MarshalMsg t in
      if len (queue l) <? queueCap then Ret (l <| queue := queue l ++ [t] |>, ack)
      else Ret (bump addQueueFull l, ack)
  end.

(** One turn of [serve]: [sent] is whether the answer could be written. *)
Definition serveOne (l : Listener) (b : bytes) (from : NetAddr) (at_ : Time) (resolve : option (Addr -> string)) (sent : bool)
    : outcome Listener :=
  '(l, ack) ← Handle l b from at_ resolve;
  Ret (match ack with Some _ => if sent then bump addInformsAcked l else l | None => l end).

(** float64(1). *)
Definition oneBits : Z := 4607182418800017408.

Definition sampleOf (labels : labelCap) (t : Trap) : labelCap * option Sample :=
  if decide (DeviceID t = "") then (labels, None) else
  let '(labels, trap) := label labels (DeviceID t) (Label t) in
  let m : gmap string string := {["trap" := trap]} in
  let m := if decide (IfIndex t <> "") then <["if_index" := IfIndex t]> m else m in
  (labels, Some (mkSample (DeviceID t) MetricName m (At t / Millisecond) oneBits)).

Fixpoint samplesOf (labels : labelCap) (batch : list Trap) : labelCap * list Sample :=
  match batch with
  | [] => (labels, [])
  | t :: batch =>
      let '(labels, s) := sampleOf labels t in
      let '(labels, ss) := samplesOf labels batch in
      (labels, match s with Some s => s :: ss | None => ss end)
  end.

(** One [write]: the batch, what the store said of it ([None] where there is no
    store) and the samples handed to the broker. *)
Record written : Type := mkWritten { w_batch : list Trap; w_store : option bool; w_samples : list Sample }.

(** [store]: whether there is one, and takes the batch; [publish]: whether there
    is a publisher. A batch the store refuses is logged and not kept; what the
    publisher says changes nothing. *)
Definition write (l : Listener) (store : option bool) (publish : bool) (b : list Trap) : Listener * written :=
  let l := match store with Some true => bump (addStored (len b)) l | _ => l end in
  if negb publish then (l, mkWritten b store []) else
  let '(labels, samples) := samplesOf (l_labels l) b in
  (l <| l_labels := labels |>, mkWritten b store samples).

Definition flush (l : Listener) (store : option bool) (publish : bool) : Listener * list written :=
  if decide (batch l = []) then (l, []) else
  let '(l, w) := write l store publish (batch l) in (l <| batch := [] |>, [w]).

(** The turns of the loops. *)
Inductive turn : Type :=
  | Datagram (b : bytes) (from : NetAddr) (at_ : Time) (resolve : option (Addr -> string)) (sent : bool)
  | Dequeue (store : option bool) (publish : bool)
  | FlushTick (store : option bool) (publish : bool)
  | StatsTick (now : Time)
  | Shutdown (store : option bool) (publish : bool).

Definition step (l : Listener) (t : turn) : outcome (Listener * list written) :=
  match t with
  | Datagram b from at_ resolve sent => l ← serveOne l b from at_ resolve sent; Ret (l, [])
  | Dequeue store publish =>
      match queue l with
      | [] => Ret (l, [])
      | t :: q =>
          let l := l <| queue := q |> <| batch := batch l ++ [t] |> in
          Ret (if 500 <=? len (batch l) then flush l store publish else (l, []))
      end
  | FlushTick store publish => Ret (flush l store publish)
  | StatsTick now =>
      if received (stats l) =? received (prev l) then Ret (l, [])
      else Ret (l <| prev := stats l |> <| l_limiter := sweep (l_limiter l) now |>, [])
  | Shutdown store publish => Ret (flush (l <| queue := [] |> <| batch := batch l ++ queue l |>) store publish)
  end.

Fixpoint run (l : Listener) (ts : list turn) : outcome (Listener * list written) :=
  match ts with
  | [] => Ret (l, [])
  | t :: ts => '(l, out) ← step l t; '(l, outs) ← run l ts; Ret (l, out ++ outs)
  end.
End listener.

(** ** The index of device addresses *)

(** [Refresh]: the rows come with management addresses first; a row is a device
    and the text of an address. *)
Fixpoint indexRows (m : gmap Addr string) (rows : list (string * string)) : gmap Addr string :=
  match rows with
  | [] => m
  | (id, addr) :: rows =>
      match ParseAddr addr with
      | None => indexRows m rows
      | Some a => let a := Unmap a in indexRows (match m !! a with Some _ => m | None => <[a := id]> m end) rows
      end
  end.
Definition Refresh (managed claimed : list (string * string)) : gmap Addr string := indexRows ∅ (managed ++ claimed).
Definition DeviceByAddr (m : gmap Addr string) (a : Addr) : string := default "" (m !! Unmap a).

(** * Accounting *)

Section accounting.
Context (UnmarshalTrap : bytes -> option SnmpPacket) (MarshalMsg : SnmpPacket -> option bytes).
Abbreviation Handle := (Handle UnmarshalTrap MarshalMsg).
Abbreviation step := (step UnmarshalTrap MarshalMsg).
Abbreviation run := (run UnmarshalTrap MarshalMsg).

(** What the listener is to make of a datagram, and for which of the reasons it
    keeps a count of. *)
Inductive reason : Type := NotAllowed | OtherVersion | Garbled | WrongCommunity | TooFast.
#[export] Instance reason_eq_dec : EqDecision reason.
Proof. solve_decision. Defined.

(** [Dropped]: admitted, and acknowledged, with no room in the queue. *)
Inductive fate : Type := Turned (r : reason) | Dropped (t : Trap) | Queued (t : Trap).

(** Where the listener is to let a datagram in: from a network of the list and
    with a community of the set, where there is a list and a set. *)
Definition fromAllowed (Allow : list Prefix) (src : Addr) : Prop := Allow = [] \/ Exists (fun p => Contains p src = true) Allow.
Definition ofCommunity (Communities : gset string) (community : string) : Prop := Communities = ∅ \/ community ∈ Communities.
#[export] Instance fromAllowed_dec Allow src : Decision (fromAllowed Allow src).
Proof. unfold fromAllowed. apply _. Defined.
#[export] Instance ofCommunity_dec Communities community : Decision (ofCommunity Communities community).
Proof. unfold ofCommunity. apply _. Defined.

(** The device at the source, or failing that at the address the agent gives. *)
Definition attributed (resolve : option (Addr -> string)) (src : Addr) (t : Trap) : Trap :=
  match resolve with
  | None => t
  | Some at_ => t <| DeviceID := if decide (at_ src <> "" \/ IsValid (Agent t) = false) then at_ src else at_ (Agent t) |>
  end.

(** The reasons in their order, the first that holds being the one counted. The
    sender's rate is charged for what got past the others. *)
Definition judge (Allow : list Prefix) (Communities : gset string) (lim : limiter) (room : bool)
    (b : bytes) (from : NetAddr) (at_ : Time) (resolve : option (Addr -> string)) : limiter * fate :=
  let src := addrOf from in
  if decide (fromAllowed Allow src) then
    match Decode UnmarshalTrap b src at_ with
    | Ret (inl (t, community)) =>
        if decide (ofCommunity Communities community) then
          let '(lim, inRate) := allow lim src at_ in
          let t := attributed resolve src t in
          (lim, if negb inRate then Turned TooFast else if room then Queued t else Dropped t)
        else (lim, Turned WrongCommunity)
    | Ret (inr ErrUnsupportedVersion) => (lim, Turned OtherVersion)
    | _ => (lim, Turned Garbled)
    end
  else (lim, Turned NotAllowed).

(** The intake seen from outside: the rates, how many notifications wait, how
    many datagrams came since the last minute that saw any. *)
Record intake : Type := mkIntake { i_limiter : limiter; waiting : Z; since : Z }.

Definition fates1 (Allow : list Prefix) (Communities : gset string) (i : intake) (t : turn) : intake * list fate :=
  match t with
  | Datagram b from at_ resolve _ =>
      let '(lim, f) := judge Allow Communities (i_limiter i) (waiting i <? 10000) b from at_ resolve in
      (mkIntake lim (match f with Queued _ => waiting i + 1 | _ => waiting i end) (since i + 1), [f])
  | Dequeue _ _ => (mkIntake (i_limiter i) (Z.max 0 (waiting i - 1)) (since i), [])
  | FlushTick _ _ => (i, [])
  | StatsTick now => (if uint64 (since i) =? 0 then i else mkIntake (sweep (i_limiter i) now) (waiting i) 0, [])
  | Shutdown _ _ => (mkIntake (i_limiter i) 0 (since i), [])
  end.
Fixpoint fates (Allow : list Prefix) (Communities : gset string) (i : intake) (ts : list turn) : list fate :=
  match ts with
  | [] => []
  | t :: ts => let '(i, fs) := fates1 Allow Communities i t in fs ++ fates Allow Communities i ts
  end.

(** How many datagrams met a fate. *)
Definition count (P : fate -> bool) (fs : list fate) : Z := len (List.filter P fs).
Definition turned (r : reason) (f : fate) : bool := match f with Turned r' => bool_decide (r = r') | _ => false end.
Definition dropped (f : fate) : bool := match f with Dropped _ => true | _ => false end.
Definition unknown (f : fate) : bool := match f with Dropped t | Queued t => bool_decide (DeviceID t = "") | _ => false end.
Definition queuedOf (f : fate) : option Trap := match f with Queued t => Some t | _ => None end.

(** What the store took. *)
Definition taken (outs : list written) : list Trap :=
  concat (map (fun w => match w_store w with Some true => w_batch w | _ => [] end) outs).

(** Every counter of the intake after the datagrams [fs] and the writes [out]. *)
Record tallied (s s' : counters) (fs : list fate) (out : list written) : Prop := mkTallied {
  ta_received : received s' = uint64 (received s + len fs);
  ta_refused : refused s' = uint64 (refused s + count (turned NotAllowed) fs);
  ta_unsupported : unsupported s' = uint64 (unsupported s + count (turned OtherVersion) fs);
  ta_malformed : malformed s' = uint64 (malformed s + count (turned Garbled) fs);
  ta_community : badCommunity s' = uint64 (badCommunity s + count (turned WrongCommunity) fs);
  ta_rate : rateLimited s' = uint64 (rateLimited s + count (turned TooFast) fs);
  ta_full : queueFull s' = uint64 (queueFull s + count dropped fs);
  ta_unknown : unknownSource s' = uint64 (unknownSource s + count unknown fs);
  ta_stored : stored s' = uint64 (stored s + len (taken out))
}.

(** The counters are counters. *)
Record counting (s : counters) : Prop := mkCounting {
  co_received : is_u64 (received s); co_refused : is_u64 (refused s); co_unsupported : is_u64 (unsupported s);
  co_malformed : is_u64 (malformed s); co_community : is_u64 (badCommunity s); co_rate : is_u64 (rateLimited s);
  co_full : is_u64 (queueFull s); co_unknown : is_u64 (unknownSource s); co_stored : is_u64 (stored s)
}.

Lemma tallied_counting s s' fs out : tallied s s' fs out -> counting s'.
Proof. intros []. split; by (match goal with E : ?x = uint64 _ |- is_u64 ?x => rewrite E end; apply uint64_u64). Qed.

Lemma tallied_none s : counting s -> tallied s s [] [].
Proof. intros []. split; cbn; rewrite Z.add_0_r, uint64_small; done. Qed.

Lemma count_app P fs1 fs2 : count P (fs1 ++ fs2) = count P fs1 + count P fs2.
Proof. unfold count. by rewrite List.filter_app, len_app. Qed.
Lemma taken_app o1 o2 : taken (o1 ++ o2) = taken o1 ++ taken o2.
Proof. unfold taken. by rewrite map_app, concat_app. Qed.

Lemma tallied_trans s1 s2 s3 fs1 fs2 o1 o2 : tallied s1 s2 fs1 o1 -> tallied s2 s3 fs2 o2 -> tallied s1 s3 (fs1 ++ fs2) (o1 ++ o2).
Proof.
  intros [] []. split; rewrite ?count_app, ?taken_app, ?len_app, Z.add_assoc;
    match goal with E : ?x = uint64 _ |- ?x = _ => rewrite E end;
    match goal with E : ?x = uint64 _ |- context [uint64 (?x + _)] => rewrite E end; apply uint64_add_l.
Qed.

(** The listener [l] is where [i] says the intake is. *)
Record tracks (Allow_ : list Prefix) (Communities_ : gset string) (l : Listener) (i : intake) : Prop := mkTracks {
  tr_allow : Allow l = Allow_; tr_comm : Communities l = Communities_;
  tr_limiter : l_limiter l = i_limiter i; tr_waiting : len (queue l) = waiting i;
  tr_since : received (stats l) = uint64 (received (prev l) + since i); tr_prev : is_u64 (received (prev l));
  tr_counting : counting (stats l)
}.

(** One turn, or several: [fs] is what became of the datagrams. *)
Record accounts (l l' : Listener) (out : list written) (fs : list fate) : Prop := mkAccounts {
  ac_fifo : concat (map w_batch out) ++ batch l' ++ queue l' = batch l ++ queue l ++ omap queuedOf fs;
  ac_counters : tallied (stats l) (stats l') fs out;
  ac_room : len (queue l) <= queueCap -> len (queue l') <= queueCap;
  ac_batch : len (batch l) < 500 -> len (batch l') < 500
}.

Lemma allowed_iff l a : allowed l a = bool_decide (fromAllowed (Allow l) a).
Proof.
  unfold allowed, fromAllowed. destruct (Allow l) as [|p ps] eqn:E; [symmetry; apply bool_decide_eq_true_2; by left|].
  apply eq_bool_prop_intro. rewrite <- E, bool_decide_spec, Is_true_true, existsb_exists, Exists_exists.
  setoid_rewrite list_elem_of_In. rewrite E. naive_solver.
Qed.
Lemma communityOK_iff l c : communityOK l c = bool_decide (ofCommunity (Communities l) c).
Proof. unfold communityOK, ofCommunity. symmetry. apply bool_decide_or. Qed.

Lemma resolved_attributed resolve t src : resolved resolve t src = attributed resolve src t.
Proof.
  unfold resolved, attributed. destruct resolve as [f|]; [|done]. cbv zeta. cbn [DeviceID Agent set].
  case_bool_decide as Hd; case_decide as Hc; destruct (IsValid _) eqn:Ev; cbn [andb]; try done; try (by destruct Hc as [|]); by exfalso; apply Hc; auto.
Qed.

(** The room matters only to a notification that was let in. *)
Lemma judge_room A C lim room room' b from at_ resolve :
  judge A C lim room' b from at_ resolve =
    let '(lim', f) := judge A C lim room b from at_ resolve in
    (lim', match f with Turned r => Turned r | Dropped t | Queued t => if room' then Queued t else Dropped t end).
Proof.
  unfold judge. case_decide; [|done]. destruct (Decode _ _ _ _) as [[[t c]|[]]| |]; try done. case_decide; [|done].
  destruct (allow _ _ _) as [lim' []]; [|done]. by destruct room.
Qed.

Ltac tally H := intros []; split; cbn; unfold count; cbn; rewrite ?(bool_decide_eq_true_2 _ H), ?(bool_decide_eq_false_2 _ H), ?Z.add_0_r, ?uint64_small by done; done.

(** What [Handle] does, by what is to become of the datagram. *)
Lemma Handle_cases l b from at_ resolve : exists l' ack, Handle l b from at_ resolve = Ret (l', ack) /\
  let '(lim, f) := judge (Allow l) (Communities l) (l_limiter l) (len (queue l) <? queueCap) b from at_ resolve in
  ack = match f with Queued t | Dropped t => Ack MarshalMsg t | Turned _ => None end /\
  l_limiter l' = lim /\ Allow l' = Allow l /\ Communities l' = Communities l /\ batch l' = batch l /\ prev l' = prev l /\
  queue l' = queue l ++ option_list (queuedOf f) /\ (counting (stats l) -> tallied (stats l) (stats l') [f] []).
Proof.
  unfold TrapListener.Handle, judge. cbv zeta. rewrite allowed_iff. change (Allow (bump addReceived l)) with (Allow l).
  destruct (decide (fromAllowed (Allow l) (addrOf from))) as [Ha|Ha].
  2: { rewrite bool_decide_eq_false_2 by done. cbn [negb]. do 2 eexists. split; [done|]. split_and!; try done; [by rewrite app_nil_r|]. tally I. }
  rewrite bool_decide_eq_true_2 by done. cbn [negb].
  destruct (Decode_cases UnmarshalTrap b (addrOf from) at_) as (r & -> & _). cbn [mbind outcome_bind].
  destruct r as [[t community]|e].
  2: { destruct e; do 2 eexists; (split; [done|]); (split_and!; try done; [by rewrite app_nil_r|]); tally I. }
  rewrite communityOK_iff. change (Communities (bump addReceived l)) with (Communities l).
  destruct (decide (ofCommunity (Communities l) community)) as [Hc|Hc].
  2: { rewrite bool_decide_eq_false_2 by done. cbn [negb]. do 2 eexists. split; [done|]. split_and!; try done; [by rewrite app_nil_r|]. tally I. }
  rewrite bool_decide_eq_true_2 by done. cbn [negb].
  change (l_limiter (bump addReceived l)) with (l_limiter l). destruct (allow (l_limiter l) (addrOf from) at_) as [lim ok].
  destruct ok; cbn [negb].
  2: { do 2 eexists. split; [done|]. split_and!; try done; [by rewrite app_nil_r|]. tally I. }
  rewrite resolved_attributed. generalize (attributed resolve (addrOf from) t). intros tr. destruct (decide (DeviceID tr = "")) as [Hd|Hd].
  - change (queue (bump addUnknownSource _)) with (queue l).
    destruct (len (queue l) <? queueCap); do 2 eexists; (split; [done|]); split_and!; try done; try (by cbn; rewrite app_nil_r); tally Hd.
  - change (queue ((bump addReceived l) <| l_limiter := lim |>)) with (queue l).
    destruct (len (queue l) <? queueCap); do 2 eexists; (split; [done|]); split_and!; try done; try (by cbn; rewrite app_nil_r); tally Hd.
Qed.

Lemma tallied_acked s : counting s -> tallied s (addInformsAcked s) [] [].
Proof. intros []. split; cbn; rewrite Z.add_0_r, uint64_small; done. Qed.

Lemma serveOne_accounts A C l i b from at_ resolve sent : tracks A C l i ->
  let '(i', fs) := fates1 A C i (Datagram b from at_ resolve sent) in
  exists l', serveOne UnmarshalTrap MarshalMsg l b from at_ resolve sent = Ret l' /\ tracks A C l' i' /\ accounts l l' [] fs.
Proof.
  intros [HA HC Hl Hw Hs Hp Hc]. cbn [fates1]. unfold serveOne. destruct (Handle_cases l b from at_ resolve) as (l1 & ack & -> & H). cbn [mbind outcome_bind].
  unfold queueCap in H. rewrite HA, HC, Hl, Hw in H. destruct (judge _ _ _ _ _ _ _ _) as [lim f] eqn:Ej. destruct H as (_ & Hl1 & HA1 & HC1 & Hb1 & Hp1 & Hq1 & Ht1).
  set (l' := match ack with Some _ => _ | None => _ end). exists l'. split; [done|].
  assert (queue l' = queue l1 /\ batch l' = batch l1 /\ prev l' = prev l1 /\ Allow l' = Allow l1 /\ Communities l' = Communities l1 /\
    l_limiter l' = l_limiter l1 /\ tallied (stats l1) (stats l') [] []) as (Eq & Eb & Ep & EA & EC & El & Et).
  { specialize (Ht1 Hc). apply tallied_counting in Ht1. unfold l'. destruct ack as [a|]; [destruct sent|]; split_and!; try done; first [by apply tallied_none | by apply tallied_acked]. }
  pose proof (tallied_trans _ _ _ _ _ _ _ (Ht1 Hc) Et) as Ht. rewrite app_nil_r in Ht.
  split; [|split].
  - split; cbn [i_limiter waiting since]; try congruence.
    + rewrite Eq, Hq1, len_app, Hw. destruct f; unfold len; cbn; lia.
    + rewrite (ta_received _ _ _ _ Ht), Ep, Hp1, Hs, uint64_add_l, <- Z.add_assoc. done.
    + by apply tallied_counting in Ht.
  - rewrite Eb, Eq, Hb1, Hq1. destruct f; cbn [omap list_omap queuedOf option_list]; by rewrite ?app_nil_r.
  - done.
  - intros Hle. rewrite Eq, Hq1, len_app. destruct f; [unfold len in *; cbn; lia..|].
    assert ((waiting i <? 10000) = true) as Hroom; [|apply Z.ltb_lt in Hroom; rewrite Hw; unfold queueCap, len; cbn; lia].
    revert Ej. unfold judge. case_decide; [|done]. destruct (Decode _ _ _ _) as [[[t' c]|[]]| |]; try done. case_decide; [|done].
    destruct (allow _ _ _) as [lim' []]; [|done]. by destruct (_ <? _).
  - by rewrite Eb, Hb1.
Qed.

Lemma write_keeps l store publish b : exists labels,
  write l store publish b =
    ((match store with Some true => bump (addStored (len b)) l | _ => l end) <| l_labels := labels |>,
     mkWritten b store (if publish then (samplesOf (l_labels l) b).2 else [])).
Proof.
  unfold write. set (l1 := match store with Some true => _ | _ => l end).
  assert (l_labels l1 = l_labels l) as El by (unfold l1; by destruct store as [[]|]). rewrite El. destruct publish; cbn [negb].
  - destruct (samplesOf _ _) as [labels ss]. by exists labels.
  - exists (l_labels l). rewrite <- El. by destruct l1.
Qed.

Lemma flush_accounts l store publish : counting (stats l) -> exists l' out, flush l store publish = (l', out) /\
  Allow l' = Allow l /\ Communities l' = Communities l /\ l_limiter l' = l_limiter l /\ prev l' = prev l /\ queue l' = queue l /\ batch l' = [] /\
  concat (map w_batch out) = batch l /\ tallied (stats l) (stats l') [] out.
Proof.
  intros Hc. unfold flush. case_decide as Eb; [exists l, []; rewrite Eb; split_and!; try done; by apply tallied_none|].
  destruct (write_keeps l store publish (batch l)) as (labels & ->). do 2 eexists. split; [done|].
  split_and!; [by destruct store as [[]|] ..|by cbn; rewrite app_nil_r|].
  destruct Hc. split; unfold taken, count; destruct store as [[]|]; cbn; rewrite ?app_nil_r, ?Z.add_0_r, ?uint64_small by done; done.
Qed.

(** A turn that is not a datagram: what it keeps of the queue is what waits. *)
Lemma quiet_turn A C l l' out i i' : tracks A C l i ->
  Allow l' = Allow l -> Communities l' = Communities l -> l_limiter l' = i_limiter i' -> len (queue l') = waiting i' ->
  received (stats l) = uint64 (received (prev l') + since i') -> is_u64 (received (prev l')) ->
  concat (map w_batch out) ++ batch l' ++ queue l' = batch l ++ queue l -> tallied (stats l) (stats l') [] out ->
  len (queue l') <= len (queue l) -> (len (batch l) < 500 -> len (batch l') < 500) ->
  tracks A C l' i' /\ accounts l l' out [].
Proof.
  intros [] H1 H2 H3 H4 H5 H6 H7 H8 H9 H10. split.
  - split; try congruence; [|by apply tallied_counting in H8].
    rewrite (ta_received _ _ _ _ H8), Z.add_0_r, uint64_small by apply tr_counting0. done.
  - split; [by rewrite app_nil_r|done|lia|done].
Qed.

(** A turn that may end in a flush of [l1]. *)
Lemma flush_turn A C l l1 i i' store publish : tracks A C l i ->
  Allow l1 = Allow l -> Communities l1 = Communities l -> l_limiter l1 = i_limiter i' -> len (queue l1) = waiting i' ->
  received (stats l) = uint64 (received (prev l1) + since i') -> is_u64 (received (prev l1)) ->
  batch l1 ++ queue l1 = batch l ++ queue l -> stats l1 = stats l -> len (queue l1) <= len (queue l) ->
  exists l' out, flush l1 store publish = (l', out) /\ tracks A C l' i' /\ accounts l l' out [].
Proof.
  intros Htr H1 H2 H3 H4 H5 H6 H7 H8 H9. pose proof (tr_counting _ _ _ _ Htr) as Hc. rewrite <- H8 in Hc.
  destruct (flush_accounts l1 store publish Hc) as (l' & out & E & F1 & F2 & F3 & F4 & F5 & F6 & F7 & F8). exists l', out. split; [done|].
  apply quiet_turn with i; rewrite ?F1, ?F2, ?F3, ?F4, ?F5, ?F6, ?F7; rewrite <- ?H8; try congruence; done.
Qed.

Lemma step_accounts A C l i t : tracks A C l i ->
  let '(i', fs) := fates1 A C i t in exists l' out, step l t = Ret (l', out) /\ tracks A C l' i' /\ accounts l l' out fs.
Proof.
  intros Htr. destruct t as [b from at_ resolve sent|store publish|store publish|now|store publish].
  { pose proof (serveOne_accounts A C l i b from at_ resolve sent Htr) as H. destruct (fates1 _ _ _ _) as [i' fs]. destruct H as (l' & E & H).
    exists l', []. cbn [TrapListener.step]. by rewrite E. }
  all: pose proof Htr as [HA HC Hl Hw Hs Hp Hc]; cbn [TrapListener.step fates1].
  - destruct (queue l) as [|t q] eqn:Eq.
    { exists l, []. split; [done|]. apply quiet_turn with i; try done; [by rewrite <- Hw, Eq|by apply tallied_none]. }
    set (l1 := l <| queue := q |> <| batch := batch l ++ [t] |>). set (i' := mkIntake _ _ _).
    assert (len q = waiting i') as Hq by (cbn; rewrite <- Hw; len_lia). assert (batch l1 ++ queue l1 = batch l ++ queue l) as Eb by (cbn; by rewrite Eq, <- app_assoc).
    assert (len (queue l1) <= len (queue l)) as Hle by (rewrite Eq; cbn [queue set l1]; len_lia).
    destruct (500 <=? len (batch l1)) eqn:E5.
    + destruct (flush_turn A C l l1 i i' store publish) as (l' & out & E & H); [done..|]. exists l', out. by rewrite E.
    + exists l1, []. split; [done|]. apply Z.leb_gt in E5. apply quiet_turn with i; try done. by apply tallied_none.
  - destruct (flush_turn A C l l i i store publish) as (l' & out & E & H); [done..|]. exists l', out. by rewrite E.
  - assert ((received (stats l) =? received (prev l)) = (uint64 (since i) =? 0)) as ->.
    { rewrite Hs. apply eq_bool_prop_intro. rewrite !Is_true_true, !Z.eqb_eq. unfold is_u64, uint64 in *.
      set (M := 2 ^ 64) in *. split; intros E.
      - rewrite <- (Z.mod_small (received (prev l)) M) in E at 2 by done. replace (since i) with (received (prev l) + since i - received (prev l)) by lia.
        rewrite Zminus_mod, E, <- Zminus_mod, Z.sub_diag. done.
      - rewrite <- Z.add_mod_idemp_r, E, Z.add_0_r by done. by apply Z.mod_small. }
    destruct (_ =? _); (do 2 eexists; split; [done|]); apply quiet_turn with i; try done; try (by apply tallied_none).
    + cbn. by rewrite Hl.
    + cbn. apply Hc.
  - destruct (flush_turn A C l (l <| queue := [] |> <| batch := batch l ++ queue l |>) i (mkIntake (i_limiter i) 0 (since i)) store publish)
      as (l' & out & E & H); try done; [cbn; by rewrite app_nil_r|apply len_nonneg|]. exists l', out. by rewrite E.
Qed.

Lemma run_accounts A C ts : forall l i, tracks A C l i -> exists l' outs,
  run l ts = Ret (l', outs) /\ accounts l l' outs (fates A C i ts).
Proof.
  induction ts as [|t ts IH]; intros l i Htr; cbn [TrapListener.run fates].
  { exists l, []. split; [done|]. apply (quiet_turn A C l l [] i i); try apply Htr; try done. apply tallied_none, Htr. }
  pose proof (step_accounts A C l i t Htr) as H. destruct (fates1 A C i t) as [i1 fs]. destruct H as (l1 & out & -> & Htr1 & [F1 T1 R1 B1]).
  destruct (IH l1 i1 Htr1) as (l2 & outs & E2 & [F2 T2 R2 B2]). cbn [mbind outcome_bind]. rewrite E2. cbn [mbind outcome_bind].
  exists l2, (out ++ outs). split; [done|]. split; [|by apply tallied_trans with (stats l1)|auto|auto].
  rewrite map_app, concat_app, <- app_assoc, F2, omap_app. rewrite !app_assoc. f_equal. rewrite <- app_assoc, F1. by rewrite !app_assoc.
Qed.

(** C7. However datagrams, the writer's turns and the tickers fall, a listener
    never fails, and what becomes of each datagram is what [judge] says: let in
    from a network of the list, readable, with a community of the set, within
    its sender's rate, and with room in the queue, tried in that order. Each
    counter of a reason counts the datagrams turned away for that reason; the
    notifications queued are handed to the store once, in the order they came,
    or are still with the listener, which counts as stored those of the batches
    the store took (those of a batch it refused are gone). *)
Theorem intake_accounted Allow Communities PerSourceRate PerSourceBurst max ts :
  let l0 := defaults Allow Communities PerSourceRate PerSourceBurst max in
  let fs := fates Allow Communities (mkIntake (l_limiter l0) 0 0) ts in
  exists l outs, run l0 ts = Ret (l, outs) /\
    concat (map w_batch outs) ++ batch l ++ queue l = omap queuedOf fs /\
    received (stats l) = uint64 (len fs) /\
    refused (stats l) = uint64 (count (turned NotAllowed) fs) /\
    unsupported (stats l) = uint64 (count (turned OtherVersion) fs) /\
    malformed (stats l) = uint64 (count (turned Garbled) fs) /\
    badCommunity (stats l) = uint64 (count (turned WrongCommunity) fs) /\
    rateLimited (stats l) = uint64 (count (turned TooFast) fs) /\
    queueFull (stats l) = uint64 (count dropped fs) /\
    unknownSource (stats l) = uint64 (count unknown fs) /\
    stored (stats l) = uint64 (len (taken outs)) /\
    len (queue l) <= 10000 /\ len (batch l) < 500.
Proof.
  cbv zeta. set (l0 := defaults _ _ _ _ _). destruct (run_accounts Allow Communities ts l0 (mkIntake (l_limiter l0) 0 0)) as (l & outs & E & [F T R B]); [by split|].
  exists l, outs. split; [exact E|]. split; [exact F|]. destruct T. split_and!; try done; [by apply R|by apply B].
Qed.

(** An inform is acknowledged exactly when its notification is admitted, a full
    queue notwithstanding: what is acknowledged has an accepted source and
    community and kept its sender's rate, and all such are. *)
Theorem informs_acked l b from at_ resolve room : exists l' ack, Handle l b from at_ resolve = Ret (l', ack) /\
  ack = match (judge (Allow l) (Communities l) (l_limiter l) room b from at_ resolve).2 with
        | Queued t | Dropped t => Ack MarshalMsg t
        | Turned _ => None
        end.
Proof.
  destruct (Handle_cases l b from at_ resolve) as (l' & ack & E & H). exists l', ack. split; [done|].
  rewrite (judge_room _ _ _ (len (queue l) <? queueCap)). destruct (judge _ _ _ _ _ _ _ _) as [lim f]. destruct H as [-> _]. by destruct f, room.
Qed.
End accounting.

(** * One source's rate is its own *)

Inductive limiterCall : Type := CallAllow (a : Addr) (now : Time) | CallSweep (now : Time).

(** The answers of a sequence of calls, each with its source. *)
Fixpoint answers (l : limiter) (cs : list limiterCall) : list (Addr * bool) :=
  match cs with
  | [] => []
  | CallAllow a now :: cs => let '(l, ok) := allow l a now in (a, ok) :: answers l cs
  | CallSweep now :: cs => answers (sweep l now) cs
  end.

Definition concerns (a : Addr) (c : limiterCall) : Prop := match c with CallAllow a' _ => a' = a | CallSweep _ => True end.
#[export] Instance concerns_dec a c : Decision (concerns a c).
Proof. destruct c; simpl; apply _. Defined.

Lemma sweep_lookup l now a : buckets (sweep l now) !! a =
  (b ← buckets l !! a; if time_Sub now (last_ b) <=? idle l then Some b else None).
Proof.
  unfold sweep. cbn [buckets set]. rewrite map_lookup_filter. destruct (buckets l !! a) as [b|]; [|done]. simpl.
  destruct (Z.leb_spec (time_Sub now (last_ b)) (idle l)); [by rewrite option_guard_True|rewrite option_guard_False by (simpl; lia); done].
Qed.

Lemma answers_of a cs : forall l l', rate l = rate l' -> burst l = burst l' -> buckets l !! a = buckets l' !! a ->
  filter (fun p => p.1 = a) (answers l cs) = answers l' (filter (concerns a) cs).
Proof.
  induction cs as [|[a' now|now] cs IH]; intros l l' Hr Hb Ha; [done| |]; rewrite filter_cons.
  - cbn [answers]. unfold allow. destruct (decide (a' = a)) as [->|Hne].
    + rewrite decide_True by done. cbn [answers]. unfold allow. rewrite <- Hr, <- Hb, <- Ha.
      destruct (take_token (rate l) (burst l) (buckets l !! a) now) as [b ok]. rewrite filter_cons, decide_True by done. f_equal.
      apply IH; [done|done|]. simpl. by rewrite !lookup_insert_eq.
    + rewrite decide_False by done. destruct (take_token (rate l) (burst l) (buckets l !! a') now) as [b ok].
      rewrite filter_cons, decide_False by done. apply IH; [done|done|]. simpl. by rewrite lookup_insert_ne.
  - rewrite decide_True by done. cbn [answers]. apply IH; [done|done|]. rewrite !sweep_lookup, Ha. unfold idle. by rewrite Hr, Hb.
Qed.

(** What the limiter answers one source depends on nothing that any other
    source sent, whatever the rates and the sweeps. *)
Theorem limiter_isolated rate burst a cs :
  filter (fun p => p.1 = a) (answers (newLimiter rate burst) cs) = answers (newLimiter rate burst) (filter (concerns a) cs).
Proof. by apply answers_of. Qed.

(** A burst of the default settings: of the datagrams of one moment, two
    hundred are let through. *)
Example burst_of_200 :
  map snd (answers (newLimiter (float_of 20) (float_of 200)) (replicate 203 (CallAllow (V4 1) 0))) =
  replicate 200 true ++ replicate 3 false.
Proof. vm_compute. reflexivity. Qed.

(** A second later there are twenty more. *)
Example refill_of_20 :
  len (filter (fun p => p.2 = true) (answers (newLimiter (float_of 20) (float_of 200))
    (replicate 203 (CallAllow (V4 1) 0) ++ replicate 30 (CallAllow (V4 1) Second)))) = 220.
Proof. vm_compute. reflexivity. Qed.

(** * How many series a sender can make *)

(** Within the cap, and what was given out is remembered. *)
Definition labels_ok (c : labelCap) : Prop := forall d m, lc_seen c !! d = Some m -> Z.of_nat (size m) <= Z.max 0 (lc_max c).
Definition labels_of (c : labelCap) (d : string) : gset string := default ∅ (lc_seen c !! d).
Definition remembers (c c' : labelCap) : Prop := lc_max c' = lc_max c /\ forall d, labels_of c d ⊆ labels_of c' d.

Lemma label_spec c d t : labels_ok c ->
  let '(c', r) := label c d t in labels_ok c' /\ remembers c c' /\ (r = t /\ t ∈ labels_of c' d \/ r = "other") /\ (t ∈ labels_of c d -> r = t).
Proof.
  intros Hok. unfold label. set (m := default ∅ (lc_seen c !! d)). set (c1 := c <| lc_seen := <[d := m]> (lc_seen c) |>).
  assert (forall d', labels_of c1 d' = labels_of c d') as Hsame.
  { intros d'. unfold labels_of, c1. cbn [lc_seen set]. destruct (decide (d = d')) as [->|]; [by rewrite lookup_insert_eq|by rewrite lookup_insert_ne]. }
  assert (Z.of_nat (size m) <= Z.max 0 (lc_max c)) as Hm.
  { unfold m. destruct (lc_seen c !! d) as [m'|] eqn:E; [by apply Hok in E|]. change (Z.of_nat (size (∅ : gset string)) <= Z.max 0 (lc_max c)); rewrite size_empty; lia. }
  assert (forall s, Z.of_nat (size s) <= Z.max 0 (lc_max c) -> labels_ok (c <| lc_seen := <[d := s]> (lc_seen c) |>)) as Hset.
  { intros s Hs d' m'. cbn [lc_seen lc_max set]. intros [[<- <-]|[_ H]]%lookup_insert_Some; [done|by apply Hok in H]. }
  assert (remembers c c1) as Hrem by (split; [done|intros d'; by rewrite Hsame]).
  case_bool_decide as Hin.
  { split; [by apply Hset|]. split; [done|]. split; [left; split; [done|by rewrite Hsame]|done]. }
  destruct (_ <=? _) eqn:E.
  { split; [by apply Hset|]. split; [done|]. split; [by right|done]. }
  apply Z.leb_gt in E.
  assert (c1 <| lc_seen := <[d := {[t]} ∪ m]> (lc_seen c1) |> = c <| lc_seen := <[d := {[t]} ∪ m]> (lc_seen c) |>) as ->
    by (unfold c1; cbn [lc_seen set]; by rewrite insert_insert_eq).
  assert (forall d', labels_of (c <| lc_seen := <[d := {[t]} ∪ m]> (lc_seen c) |>) d' = if decide (d = d') then {[t]} ∪ m else labels_of c d') as Hnew.
  { intros d'. unfold labels_of. cbn [lc_seen set]. case_decide as Hd; [subst d'; by rewrite lookup_insert_eq|by rewrite lookup_insert_ne]. }
  split; [|split; [split; [done|]|split; [left; split; [done|]|done]]].
  - apply Hset. cbn [lc_max set c1] in E. rewrite size_union by set_solver. rewrite size_singleton. change (lc_max c1) with (lc_max c) in E. lia.
  - intros d'. rewrite Hnew. case_decide as Hd; [subst d'; unfold labels_of; fold m; set_solver|done].
  - rewrite Hnew, decide_True by done. set_solver.
Qed.

Lemma remembers_refl c : remembers c c.
Proof. by split. Qed.
Lemma remembers_trans c1 c2 c3 : remembers c1 c2 -> remembers c2 c3 -> remembers c1 c3.
Proof. intros [? H] [? H']. split; [congruence|]. intros d. etrans; [apply H|apply H']. Qed.

(** A sample of a device is labelled within what the device was given. *)
Definition labelled (c : labelCap) (s : Sample) : Prop :=
  sm_DeviceID s <> "" /\ exists t, sm_Labels s !! "trap" = Some t /\ (t ∈ labels_of c (sm_DeviceID s) \/ t = "other").

Lemma labelled_mono c c' s : remembers c c' -> labelled c s -> labelled c' s.
Proof. intros [_ H] (Hd & t & E & Ht). split; [done|]. exists t. split; [done|]. destruct Ht as [Ht|Ht]; [left; by apply H|by right]. Qed.

Lemma samplesOf_labelled b : forall c, labels_ok c ->
  let '(c', ss) := samplesOf c b in labels_ok c' /\ remembers c c' /\ Forall (labelled c') ss.
Proof.
  induction b as [|t b IH]; intros c Hok; cbn [samplesOf]; [by split_and!|]. unfold sampleOf. case_decide as Hd.
  { specialize (IH c Hok). destruct (samplesOf c b) as [c' ss]. done. }
  pose proof (label_spec c (DeviceID t) (Label t) Hok) as Hl. destruct (label c (DeviceID t) (Label t)) as [c1 r]. destruct Hl as (Hok1 & Hr1 & Hlab & _).
  specialize (IH c1 Hok1). destruct (samplesOf c1 b) as [c2 ss]. destruct IH as (Hok2 & Hr2 & Hss).
  split; [done|]. split; [by apply remembers_trans with c1|]. constructor; [|done]. split; [done|]. exists r. cbn [sm_Labels sm_DeviceID]. split.
  - case_decide; [rewrite lookup_insert_ne by done|]; apply lookup_singleton_eq.
  - destruct Hlab as [[-> Hin]| ->]; [left|by right]. by apply Hr2.
Qed.

Section series.
Context (UnmarshalTrap : bytes -> option SnmpPacket) (MarshalMsg : SnmpPacket -> option bytes).
Abbreviation step := (step UnmarshalTrap MarshalMsg).
Abbreviation run := (run UnmarshalTrap MarshalMsg).

Definition samplesIn (outs : list written) : list Sample := concat (map w_samples outs).

Lemma flush_labelled l store publish : labels_ok (l_labels l) ->
  let '(l', out) := flush l store publish in
  labels_ok (l_labels l') /\ remembers (l_labels l) (l_labels l') /\ Forall (labelled (l_labels l')) (samplesIn out).
Proof.
  intros Hok. unfold flush. case_decide; [by split_and!|]. unfold write. set (l1 := match store with Some true => _ | _ => l end).
  assert (l_labels l1 = l_labels l) as El by (unfold l1; by destruct store as [[]|]).
  destruct publish; cbn [negb]; [|cbn [l_labels set]; rewrite El; by split_and!].
  pose proof (samplesOf_labelled (batch l) (l_labels l1)) as Hs. rewrite El in Hs |- *. specialize (Hs Hok).
  destruct (samplesOf (l_labels l) (batch l)) as [labels ss]. unfold samplesIn. simpl. by rewrite app_nil_r.
Qed.

Lemma serveOne_labels l b from at_ resolve sent l' : serveOne UnmarshalTrap MarshalMsg l b from at_ resolve sent = Ret l' -> l_labels l' = l_labels l.
Proof.
  unfold serveOne. destruct (Handle UnmarshalTrap MarshalMsg l b from at_ resolve) as [[l1 ack]| |] eqn:E; [|done|done]. cbn [mbind outcome_bind].
  assert (l_labels l1 = l_labels l) as E1.
  { revert E. unfold Handle. destruct (allowed _ _); cbn [negb]; [|by intros [= <- _]].
    destruct (Decode _ _ _ _) as [[[t c]|e]| |]; [|by destruct e; intros [= <- _]|done|done]. cbn [mbind outcome_bind].
    destruct (communityOK _ _); cbn [negb]; [|by intros [= <- _]]. destruct (allow _ _ _) as [lim ok]. destruct ok; cbn [negb]; [|by intros [= <- _]].
    set (l2 := if decide _ then _ else _). assert (l_labels l2 = l_labels l) as E2 by (unfold l2; by case_decide).
    destruct (_ <? _); intros [= <- _]; exact E2. }
  intros [= <-]. destruct ack; [destruct sent|]; exact E1.
Qed.

Lemma step_labelled l t l' out : labels_ok (l_labels l) -> step l t = Ret (l', out) ->
  labels_ok (l_labels l') /\ remembers (l_labels l) (l_labels l') /\ Forall (labelled (l_labels l')) (samplesIn out).
Proof.
  intros Hok. assert (forall l0, l_labels l0 = l_labels l -> labels_ok (l_labels l0) /\ remembers (l_labels l) (l_labels l0) /\ Forall (labelled (l_labels l0)) (samplesIn []))
    as Hsame by (intros l0 ->; by split_and!).
  assert (forall l0 store publish, l_labels l0 = l_labels l -> flush l0 store publish = (l', out) ->
    labels_ok (l_labels l') /\ remembers (l_labels l) (l_labels l') /\ Forall (labelled (l_labels l')) (samplesIn out)) as Hflush.
  { intros l0 store publish E Ef. pose proof (flush_labelled l0 store publish) as H. rewrite Ef, E in H. by apply H. }
  destruct t as [b from at_ resolve sent|store publish|store publish|now|store publish]; cbn [TrapListener.step].
  - destruct (serveOne _ _ _ _ _ _ _ _) as [l1| |] eqn:E; [|done|done]. cbn [mbind outcome_bind]. intros [= <- <-]. apply serveOne_labels in E. by apply Hsame.
  - destruct (queue l); [intros [= <- <-]; by apply Hsame|]. destruct (_ <=? _); [intros [= E]|intros [= <- <-]; by apply Hsame]. by apply Hflush in E.
  - intros [= E]. by apply Hflush in E.
  - destruct (_ =? _); intros [= <- <-]; by apply Hsame.
  - intros [= E]. by apply Hflush in E.
Qed.

Lemma run_labelled ts : forall l l' outs, labels_ok (l_labels l) -> run l ts = Ret (l', outs) ->
  labels_ok (l_labels l') /\ remembers (l_labels l) (l_labels l') /\ Forall (labelled (l_labels l')) (samplesIn outs).
Proof.
  induction ts as [|t ts IH]; intros l l' outs Hok; cbn [TrapListener.run]; [intros [= <- <-]; by split_and!|].
  destruct (step l t) as [[l1 out]| |] eqn:E1; [|done|done]. cbn [mbind outcome_bind].
  destruct (run l1 ts) as [[l2 outs2]| |] eqn:E2; [|done|done]. cbn [mbind outcome_bind]. intros [= <- <-].
  destruct (step_labelled _ _ _ _ Hok E1) as (Hok1 & Hr1 & Hs1). destruct (IH _ _ _ Hok1 E2) as (Hok2 & Hr2 & Hs2).
  split; [done|]. split; [by apply remembers_trans with (l_labels l1)|]. unfold samplesIn. rewrite map_app, concat_app.
  apply Forall_app. split; [|done]. eapply Forall_impl; [exact Hs1|]. intros s. by apply labelled_mono.
Qed.

(** Only devices make series, and no sender can make a device go by more
    labels than the cap, and the one for the rest, however long it sends. *)
Theorem labels_bounded Allow Communities PerSourceRate PerSourceBurst max ts l outs :
  run (defaults Allow Communities PerSourceRate PerSourceBurst max) ts = Ret (l, outs) ->
  exists given : string -> gset string, (forall d, Z.of_nat (size (given d)) <= if max <=? 0 then 100 else max) /\
    Forall (fun s => sm_DeviceID s <> "" /\
      exists t, sm_Labels s !! "trap" = Some t /\ (t ∈ given (sm_DeviceID s) \/ t = "other")) (samplesIn outs).
Proof.
  intros E. set (l0 := defaults _ _ _ _ _) in E.
  destruct (run_labelled ts l0 l outs) as (Hok & [Hmax _] & Hs); [by intros d m|done|]. exists (labels_of (l_labels l)). split.
  - intros d. unfold labels_of. destruct (lc_seen (l_labels l) !! d) as [m|] eqn:Em.
    + apply Hok in Em. rewrite Hmax in Em. cbn [l0 defaults l_labels lc_max] in Em. simpl. destruct (max <=? 0) eqn:E0; lia.
    + change (Z.of_nat (size (∅ : gset string)) <= if max <=? 0 then 100 else max). rewrite size_empty. destruct (max <=? 0) eqn:E0; lia.
  - exact Hs.
Qed.
End series.

(** * The index of addresses *)

Lemma indexRows_kept rows : forall m a id, m !! a = Some id -> indexRows m rows !! a = Some id.
Proof.
  induction rows as [|[id' text] rows IH]; intros m a id H; cbn [indexRows]; [done|]. destruct (ParseAddr text) as [a'|]; [|by apply IH].
  apply IH. destruct (m !! Unmap a') eqn:E; [done|]. rewrite lookup_insert_ne; [done|congruence].
Qed.

Lemma indexRows_spec rows : forall m a, indexRows m rows !! a =
  match m !! a with
  | Some id => Some id
  | None => head (omap (fun r : string * string => a' ← ParseAddr r.2; if decide (Unmap a' = a) then Some r.1 else None) rows)
  end.
Proof.
  induction rows as [|[id text] rows IH]; intros m a; cbn [indexRows omap list_omap]; [by destruct (m !! a)|].
  simpl. destruct (ParseAddr text) as [a'|]; [|apply IH]. cbn [mbind option_bind]. rewrite IH.
  destruct (decide (Unmap a' = a)) as [->|Hne].
  - destruct (m !! a) eqn:E; [by rewrite E|]. by rewrite lookup_insert_eq.
  - destruct (m !! Unmap a') eqn:E; [done|]. by rewrite lookup_insert_ne.
Qed.

(** An address belongs to the first device that says it is managed there, and
    only when there is none to the first that claims to export from it: no
    claim moves a device's own address to another. *)
Theorem managed_address_wins managed claimed a :
  let owner rows := head (omap (fun r : string * string => a' ← ParseAddr r.2; if decide (Unmap a' = Unmap a) then Some r.1 else None) rows) in
  DeviceByAddr (Refresh managed claimed) a =
    match owner managed with Some id => id | None => default "" (owner claimed) end.
Proof.
  cbv zeta. unfold DeviceByAddr, Refresh. rewrite indexRows_spec, lookup_empty, omap_app, head_app. by destruct (head (omap _ managed)).
Qed.

(** * Worked examples *)

Definition demoTurns : list turn :=
  [Datagram v1Datagram (UDPAddr (put_be 4 1) None) 5 (Some (fun _ => "d7")) true;
   Datagram v2Datagram (UDPAddr (put_be 4 2) None) 6 None true;
   Datagram [] (UDPAddr (put_be 4 2) None) 6 None true;
   Dequeue (Some true) true; StatsTick 7; FlushTick (Some true) true].

Definition demoMarshalMsg (p : SnmpPacket) : option bytes := Some [zb 1].

Example demo_run : exists l,
  run demoUnmarshalTrap demoMarshalMsg (defaults [] ∅ (float_of 0) (float_of 0) 0) demoTurns =
    Ret (l, [mkWritten [v1Trap <| DeviceID := "d7" |>] (Some true)
      [mkSample "d7" MetricName {["trap" := "linkDown"; "if_index" := "7"]} 0 oneBits]]) /\
  queue l = [v2Trap] /\ stats l = mkCounters 3 1 0 0 0 1 0 0 1 1.
Proof. eexists. split; [vm_compute; reflexivity|]. by split. Qed.

Lemma labels_bounded_witness : exists l outs given,
  run demoUnmarshalTrap demoMarshalMsg (defaults [] ∅ (float_of 0) (float_of 0) 1) demoTurns = Ret (l, outs) /\
  (forall d, Z.of_nat (size ((given : string -> gset string) d)) <= 1) /\
  Forall (fun s => sm_DeviceID s <> "" /\
    exists t, sm_Labels s !! "trap" = Some t /\ (t ∈ given (sm_DeviceID s) \/ t = "other")) (samplesIn outs).
Proof.
  destruct (run_accounts demoUnmarshalTrap demoMarshalMsg [] ∅ demoTurns (defaults [] ∅ (float_of 0) (float_of 0) 1)
    (mkIntake (newLimiter (float_of 20) (float_of 200)) 0 0)) as (l & outs & E & _); [by split|].
  destruct (labels_bounded demoUnmarshalTrap demoMarshalMsg [] ∅ (float_of 0) (float_of 0) 1 demoTurns l outs E) as (given & H1 & H2).
  exists l, outs, given. split; [exact E|]. split; [exact H1|exact H2].
Defined.

(** The cap is on the label alone. A sender that names a new interface each
    time makes a new series each time. *)
Definition portTrap (port : Z) : Trap :=
  mkTrap 0 (V4 1) AddrZero "2c" false "1.3.6.1.6.3.1.1.5.3" "linkDown" (Itoa port) [] "d1" None.
Example ports_uncapped :
  let '(c, samples) := samplesOf (mkLabelCap 1 ∅) (portTrap <$> upto 50) in
  size (labels_of c "d1") = 1%nat /\ size (list_to_set (C := gset (gmap string string)) (map sm_Labels samples)) = 50%nat.
Proof. vm_compute. by split. Qed.
