(* ===== verification/Scheduler.v ===== *)
(** Packages collection/domain (job.go, poller.go), collection/app
    (scheduler.go) and collection/adapters/postgres (schedule.go): which polls
    are due, and handing them to the pollers of their sites.

    The table is the rows of the join the statement reads; claiming is one
    statement, so it is one step. What the collaborators of a tick answer is
    given as its surroundings, and what the tick does to them is its output. *)
From Stdlib Require Import ZArith Lia.
From stdpp Require Import base list gmap strings numbers sorting.
From S2P Require Import Prelude GoText GoSort Wire.

Record DueSchedule : Type := mkDueSchedule {
  ScheduleID : Z; ds_DeviceID : string; ds_SiteID : string; Family : string; MgmtIP : string; Port : Z;
  ConnectorID : string; CredentialID : string; IntervalS : Z; TimeoutMS : Z; Retries : Z
}.

#[export] Instance DueSchedule_eq_dec : EqDecision DueSchedule.
Proof. solve_decision. Defined.

Record SiteQueueState : Type := mkSiteQueueState { Consumers : Z; Queued : Z }.

(** ** The table *)

Record ScheduleRow : Type := mkScheduleRow {
  r_due : DueSchedule; r_enabled : bool; r_status : string; r_next : Time; r_last : option Time
}.
#[export] Instance ScheduleRow_eq_dec : EqDecision ScheduleRow.
Proof. solve_decision. Defined.
#[export] Instance eta_ScheduleRow : Eta ScheduleRow := fun r =>
  mkScheduleRow (r_due r) (r_enabled r) (r_status r) (r_next r) (r_last r).

Definition r_id (r : ScheduleRow) : Z := ScheduleID (r_due r).

Definition claimable (now : Time) (r : ScheduleRow) : bool :=
  r_enabled r && (r_next r <=? now) && bool_decide (r_status r ∈ ["pending"; "active"; "unreachable"]).

Definition next_le (r r' : ScheduleRow) : Prop := r_next r <= r_next r'.
#[export] Instance next_le_dec r r' : Decision (next_le r r').
Proof. unfold next_le. apply _. Defined.
#[export] Instance next_le_trans : Transitive next_le.
Proof. intros r s t. unfold next_le. lia. Qed.
#[export] Instance next_le_total : Total next_le.
Proof. intros r s. unfold next_le. lia. Qed.

(** The rows a claim takes, oldest first. *)
Definition taken (now : Time) (limit : nat) (table : list ScheduleRow) : list ScheduleRow :=
  take limit (merge_sort next_le (filter (fun r => claimable now r = true) table)).

Definition advance (now : Time) (jitter : Z -> Duration) (r : ScheduleRow) : ScheduleRow :=
  r <| r_next := now + IntervalS (r_due r) * Second + jitter (r_id r) |> <| r_last := Some now |>.

(** [Due]: [jitter] is the random part of the next moment of each row. *)
Definition Due (now : Time) (limit : nat) (jitter : Z -> Duration) (table : list ScheduleRow) : list ScheduleRow * list DueSchedule :=
  let ids := map r_id (taken now limit table) in
  (map (fun r => if decide (r_id r ∈ ids) then advance now jitter r else r) table, map r_due (taken now limit table)).

(** ** A tick *)

Definition siteQueueRecheck : Duration := Minute.
Definition siteAnnounce : Duration := 15 * Second.

Record Scheduler : Type := mkScheduler {
  lastQueueCheck : gmap string Time; lastAnnounce : Time; hadConsumers : gmap string bool
}.
#[export] Instance eta_Scheduler : Eta Scheduler := fun s =>
  mkScheduler (lastQueueCheck s) (lastAnnounce s) (hadConsumers s).

Definition newScheduler : Scheduler := mkScheduler ∅ zeroTime ∅.

Inductive action : Type :=
  | PublishSites (sites : list string)
  | EnsureSiteQueue (site : string)
  | RecordSiteQueue (site : string) (st : SiteQueueState)
  | LogNoPoller (site : string) (queued : Z)
  | LogConsumerAgain (site : string)
  | Publish (site : string) (job : PollJob)
  | Failed (d : DueSchedule).

(** What the collaborators answer, for the [k]th of the due polls. *)
Record surroundings : Type := mkSurroundings {
  TryAcquire : bool; start : Time; hasSites : bool; ActiveSites : option (list string);
  hasSiteHealth : bool; clockAt : nat -> Time; clockAfter : nat -> Time; Ensure : nat -> option SiteQueueState;
  Resolve : nat -> option SNMPCred; newID : nat -> string; confirms : nat -> bool
}.

Definition noteSiteQueue (hasSiteHealth : bool) (s : Scheduler) (site : string) (st : SiteQueueState) : Scheduler * list action :=
  let record := if hasSiteHealth then [RecordSiteQueue site st] else [] in
  let served := 0 <? Consumers st in
  let prev := hadConsumers s !! site in
  let s := s <| hadConsumers := <[site := served]> (hadConsumers s) |> in
  if bool_decide (prev = Some served) then (s, record)
  else if negb served then (s, record ++ [LogNoPoller site (Queued st)])
  else if bool_decide (is_Some prev) then (s, record ++ [LogConsumerAgain site]) else (s, record).

Definition jobOf (env : surroundings) (k : nat) (d : DueSchedule) (cred : SNMPCred) : PollJob :=
  mkPollJob (newID env k) (ds_DeviceID d) (ds_SiteID d) (Family d) "" (MgmtIP d) (Port d) (ConnectorID d) cred (start env)
    (IntervalS d) (TimeoutMS d) (Retries d).

(** The queue of the site of a due poll: [false] when it cannot be declared. *)
Definition checkQueue (env : surroundings) (k : nat) (s : Scheduler) (site : string) : Scheduler * list action * bool :=
  if siteQueueRecheck <=? time_Sub (clockAt env k) (default zeroTime (lastQueueCheck s !! site)) then
    match Ensure env k with
    | None => (s, [EnsureSiteQueue site], false)
    | Some st =>
        let s := s <| lastQueueCheck := <[site := clockAfter env k]> (lastQueueCheck s) |> in
        let '(s, out) := noteSiteQueue (hasSiteHealth env) s site st in
        (s, EnsureSiteQueue site :: out, true)
    end
  else (s, [], true).

(** One due poll; whether it was published. *)
Definition dispatch (env : surroundings) (k : nat) (s : Scheduler) (d : DueSchedule) : Scheduler * list action * bool :=
  let '(s, out, declared) := checkQueue env k s (ds_SiteID d) in
  if negb (declared : bool) then (s, out ++ [Failed d], false) else
  match Resolve env k with
  | None => (s, out ++ [Failed d], false)
  | Some cred =>
      if confirms env k then (s, out ++ [Publish (ds_SiteID d) (jobOf env k d cred)], true) else (s, out ++ [Failed d], false)
  end.

Fixpoint dispatchAll (env : surroundings) (k : nat) (s : Scheduler) (due : list DueSchedule) : Scheduler * list action * (Z * Z) :=
  match due with
  | [] => (s, [], (0, 0))
  | d :: due =>
      let '(s, out, ok) := dispatch env k s d in
      let '(s, outs, (published, failed)) := dispatchAll env (S k) s due in
      (s, out ++ outs, if ok : bool then (published + 1, failed) else (published, failed + 1))
  end.

Definition announce (env : surroundings) (s : Scheduler) : Scheduler * list action :=
  if hasSites env && (siteAnnounce <=? time_Sub (start env) (lastAnnounce s)) then
    (s <| lastAnnounce := start env |>, match ActiveSites env with Some sites => [PublishSites sites] | None => [] end)
  else (s, []).

(** What a tick did: what it asked of others, and what it counted. *)
Record ticked : Type := mkTicked { tk_actions : list action; tk_published : Z; tk_failed : Z }.

(** A scan that fails may have failed after its statement took effect. *)
Inductive scan : Type := Scanned | ScanFailed (claimed : bool).

(** A tick after the ticker has fired. *)
Definition tick (env : surroundings) (sc : scan) (limit : nat) (jitter : Z -> Duration) (st : Scheduler * list ScheduleRow)
    : Scheduler * list ScheduleRow * ticked :=
  let '(s, table) := st in
  if negb (TryAcquire env) then (s, table, mkTicked [] 0 0) else
  let '(s, out) := announce env s in
  let '(claimed, due) := Due (start env) limit jitter table in
  match sc with
  | ScanFailed took => (s, if took : bool then claimed else table, mkTicked out 0 0)
  | Scanned =>
      let '(s, outs, (published, failed)) := dispatchAll env 0 s due in
      (s, claimed, mkTicked (out ++ outs) published failed)
  end.

(** * Claims *)

Lemma taken_claimable now limit table r : r ∈ taken now limit table -> r ∈ table /\ claimable now r = true.
Proof.
  intros H. apply (sublist_subseteq _ _ (sublist_take _ _)) in H. apply elem_of_merge_sort in H. by apply list_elem_of_filter in H as [? ?].
Qed.

(** A row as one claim leaves it. *)
Definition claimed (now : Time) (limit : nat) (jitter : Z -> Duration) (table : list ScheduleRow) (r : ScheduleRow) : ScheduleRow :=
  if decide (r_id r ∈ map r_id (taken now limit table)) then advance now jitter r else r.

Lemma Due_eq now limit jitter table :
  Due now limit jitter table = (map (claimed now limit jitter table) table, map r_due (taken now limit table)).
Proof. done. Qed.

Lemma claimed_id now limit jitter table r : r_id (claimed now limit jitter table r) = r_id r.
Proof. unfold claimed. by case_decide. Qed.

Definition keyed (table : list ScheduleRow) : Prop := NoDup (map r_id table).

Lemma Due_keyed now limit jitter table : keyed table -> keyed (Due now limit jitter table).1.
Proof.
  unfold keyed. rewrite Due_eq. cbn [fst]. rewrite map_map.
  by rewrite (map_ext (fun r => r_id (claimed now limit jitter table r)) r_id) by (intros; apply claimed_id).
Qed.

Lemma keyed_inj table r r' : keyed table -> r ∈ table -> r' ∈ table -> r_id r = r_id r' -> r = r'.
Proof.
  unfold keyed. induction table as [|x table IH]; intros Hnd H H'; [by apply elem_of_nil in H|]. simpl in Hnd. apply NoDup_cons in Hnd as [Hx Hnd].
  assert (forall y, y ∈ table -> r_id y <> r_id x) as Hne.
  { intros y Hy E. apply Hx. rewrite <- E. apply list_elem_of_In, in_map, list_elem_of_In, Hy. }
  apply elem_of_cons in H as [->|H], H' as [->|H']; [done| | |by apply IH].
  - intros E. by destruct (Hne _ H').
  - intros E. by destruct (Hne _ H).
Qed.

Lemma taken_ids now limit table r : keyed table -> r ∈ table -> r_id r ∈ map r_id (taken now limit table) <-> r ∈ taken now limit table.
Proof.
  intros Hk Hr. rewrite !list_elem_of_In, in_map_iff. setoid_rewrite <- list_elem_of_In. split.
  - intros (r' & E & H). destruct (taken_claimable _ _ _ _ H) as [H' _]. by rewrite (keyed_inj _ _ _ Hk Hr H' (eq_sym E)).
  - intros H. by exists r.
Qed.

(** ** No poll is booked twice *)

(** The next claim of a row is no sooner than this after its last. *)
Definition spaced (r : ScheduleRow) : Prop := forall t, r_last r = Some t -> 19 * (IntervalS (r_due r) * Second) <= 20 * (r_next r - t).

(** A number of claims, each with its moment, limit and jitter. *)
Record claim : Type := mkClaim { cl_at : Time; cl_limit : nat; cl_jitter : Z -> Duration }.

Fixpoint claims (table : list ScheduleRow) (cs : list claim) : list ScheduleRow * list (Time * list DueSchedule) :=
  match cs with
  | [] => (table, [])
  | c :: cs =>
      let '(table, due) := Due (cl_at c) (cl_limit c) (cl_jitter c) table in
      let '(table, rest) := claims table cs in (table, (cl_at c, due) :: rest)
  end.

(** When a row was claimed, by the log. *)
Definition claimedAt (id : Z) (log : list (Time * list DueSchedule)) : list Time :=
  map fst (filter (fun e => id ∈ map ScheduleID e.2) log).

Lemma Due_row now limit jitter table r : keyed table -> r ∈ table ->
  exists r', r' ∈ (Due now limit jitter table).1 /\ r_id r' = r_id r /\ r_due r' = r_due r /\
    let ids := map ScheduleID (Due now limit jitter table).2 in
    ((r_id r ∈ ids /\ claimable now r = true /\ r' = advance now jitter r) \/ ((r_id r ∉ ids) /\ r' = r)).
Proof.
  intros Hk Hr. rewrite Due_eq. cbn [fst snd]. rewrite map_map. exists (claimed now limit jitter table r).
  split; [apply list_elem_of_In, in_map, list_elem_of_In, Hr|]. split; [apply claimed_id|]. split; [unfold claimed; by case_decide|].
  unfold claimed. case_decide as H; [left|by right]. split; [done|]. split; [|done].
  apply taken_ids in H; [|done|done]. by apply taken_claimable in H as [_ ?].
Qed.

Fixpoint gaps (d : Duration) (l : list Time) : Prop :=
  match l with a :: l => (match l with b :: _ => 19 * d <= 20 * (b - a) | [] => True end) /\ gaps d l | [] => True end.

Lemma claims_spaced cs : forall table r, keyed table -> r ∈ table -> spaced r ->
  Forall (fun c => - (IntervalS (r_due r) * Second) <= 20 * cl_jitter c (r_id r)) cs ->
  let times := claimedAt (r_id r) (claims table cs).2 in
  gaps (IntervalS (r_due r) * Second) times /\ (forall t t', r_last r = Some t -> head times = Some t' -> 19 * (IntervalS (r_due r) * Second) <= 20 * (t' - t)).
Proof.
  induction cs as [|c cs IH]; intros table r Hk Hr Hs Hj; cbv zeta; cbn [claims]; [by split|]. apply Forall_cons in Hj as [Hj Hjs].
  destruct (Due_row (cl_at c) (cl_limit c) (cl_jitter c) table r Hk Hr) as (r' & Hr' & Eid & Edue & Hcase).
  pose proof (Due_keyed (cl_at c) (cl_limit c) (cl_jitter c) table Hk) as Hk'.
  destruct (Due (cl_at c) (cl_limit c) (cl_jitter c) table) as [table' due]. cbn [fst snd] in *.
  specialize (IH table' r' Hk' Hr'). rewrite Eid, Edue in IH.
  destruct (claims table' cs) as [table'' log]. cbn [snd] in *. unfold claimedAt. rewrite filter_cons. cbn [snd].
  destruct Hcase as [(Hin & Hc & ->)|[Hnin ->]].
  - rewrite decide_True by done. cbn [map fst head].
    assert (spaced (advance (cl_at c) (cl_jitter c) r)) as Hs'.
    { intros t [= <-]. cbn [r_due r_next set advance]. lia. }
    destruct (IH Hs' Hjs) as [Hg Hh]. split.
    + split; [|exact Hg]. fold (claimedAt (r_id r) log). destruct (claimedAt (r_id r) log) as [|b l] eqn:El; [done|]. by apply (Hh (cl_at c) b).
    + intros t t' Ht [= <-]. specialize (Hs t Ht). unfold claimable in Hc. apply andb_prop in Hc as [[_ Hc%Z.leb_le]%andb_prop _]. lia.
  - rewrite decide_False by done. by apply IH.
Qed.

(** However often and by however many schedulers a table is claimed from, two
    claims of one poll are at least nineteen twentieths of its interval
    apart. *)
Theorem no_double_booking table cs r :
  keyed table -> r ∈ table -> r_last r = None ->
  Forall (fun c => - (IntervalS (r_due r) * Second) <= 20 * cl_jitter c (r_id r)) cs ->
  gaps (IntervalS (r_due r) * Second) (claimedAt (r_id r) (claims table cs).2).
Proof.
  intros Hk Hr Hl Hj. apply (claims_spaced cs table r Hk Hr).
  - intros t. by rewrite Hl.
  - done.
Qed.

(** ** No poll starves *)

Definition aheadOf (x r : ScheduleRow) : Prop := r_id r <> r_id x /\ r_next r <= r_next x.
#[export] Instance aheadOf_dec x r : Decision (aheadOf x r).
Proof. unfold aheadOf. apply _. Defined.

(** A row that could have been claimed and was not was passed by as many as the
    limit, all of them older. *)
Lemma passed_over now limit table x : keyed table -> x ∈ table -> claimable now x = true -> x ∉ taken now limit table ->
  length (taken now limit table) = limit /\ NoDup (taken now limit table) /\ Forall (fun r => r ∈ table /\ aheadOf x r) (taken now limit table).
Proof.
  intros Hk Hx Hc Hn. unfold taken in *. set (l := merge_sort next_le _) in *.
  assert (x ∈ l) as Hl by (apply elem_of_merge_sort, list_elem_of_filter; done).
  assert (x ∈ drop limit l) as Hd by (rewrite <- (take_drop limit l) in Hl; apply elem_of_app in Hl as [?|?]; done).
  assert (limit < length l)%nat as Hlen.
  { destruct (decide (limit < length l)%nat); [done|]. rewrite drop_ge in Hd by lia. by apply elem_of_nil in Hd. }
  assert (NoDup (take limit l)) as Hnd.
  { eapply sublist_NoDup; [|apply sublist_take]. apply NoDup_merge_sort, NoDup_filter. unfold keyed in Hk. by apply NoDup_fmap_1 in Hk. }
  split; [rewrite length_take; lia|]. split; [done|].
  apply Forall_forall. intros r Hr. assert (r ∈ taken now limit table) as [Hr1 Hr2]%taken_claimable by done. split; [done|]. split.
  - intros E. apply Hn. by rewrite <- (keyed_inj _ _ _ Hk Hr1 Hx E).
  - assert (StronglySorted next_le l) as Hs by (apply StronglySorted_merge_sort; apply _). rewrite <- (take_drop limit l) in Hs.
    apply StronglySorted_app_1_elem_of with (x1 := r) (x2 := x) in Hs; done.
Qed.

(** Every interval is positive, and jitter takes less than all of it. *)
Definition advances (table : list ScheduleRow) (c : claim) : Prop :=
  Forall (fun r => 0 < IntervalS (r_due r) * Second + cl_jitter c (r_id r)) table.

Lemma aheadOf_shrinks c table x : keyed table -> x ∈ table -> claimable (cl_at c) x = true -> advances table c ->
  x ∉ taken (cl_at c) (cl_limit c) table ->
  (length (filter (aheadOf x) (Due (cl_at c) (cl_limit c) (cl_jitter c) table).1) + cl_limit c <= length (filter (aheadOf x) table))%nat.
Proof.
  intros Hk Hx Hc Hadv Hn. destruct (passed_over _ _ _ _ Hk Hx Hc Hn) as (Hlen & Hnd & Hall). rewrite Due_eq. cbn [fst].
  set (T := taken _ _ _) in *.
  assert (r_next x <= cl_at c) as Hnext by (unfold claimable in Hc; apply andb_prop in Hc as [[_ ?%Z.leb_le]%andb_prop _]; done).
  assert (forall l, (forall r, r ∈ l -> r ∈ table) -> length (filter (aheadOf x) (map (claimed (cl_at c) (cl_limit c) (cl_jitter c) table) l)) =
    length (filter (fun r => r ∉ T) (filter (aheadOf x) l))) as Hmap.
  { induction l as [|r l IH]; intros Hsub; [done|]. cbn [map]. rewrite !filter_cons.
    assert (r ∈ table) as Hr by (apply Hsub; constructor).
    pose proof (taken_ids (cl_at c) (cl_limit c) table r Hk Hr) as Hids. fold T in Hids.
    assert (claimed (cl_at c) (cl_limit c) (cl_jitter c) table r = if decide (r ∈ T) then advance (cl_at c) (cl_jitter c) r else r) as ->
      by (unfold claimed; fold T; do 2 case_decide; tauto).
    destruct (decide (r ∈ T)) as [Hin|Hin].
    - rewrite decide_False.
      + destruct (decide (aheadOf x r)); [rewrite filter_cons, decide_False by tauto|]; apply IH; intros; apply Hsub; by constructor.
      + intros [_ Hle]. unfold advance in Hle. cbn [r_next r_due set] in Hle. unfold advances in Hadv. rewrite Forall_forall in Hadv. specialize (Hadv r Hr). lia.
    - destruct (decide (aheadOf x r)); [rewrite filter_cons, decide_True by tauto; simpl; f_equal|]; apply IH; intros; apply Hsub; by constructor. }
  rewrite Hmap by done. rewrite <- Hlen.
  assert (T ⊆+ filter (fun r => r ∈ T) (filter (aheadOf x) table)) as Hle%submseteq_length.
  { apply NoDup_submseteq; [done|]. intros r Hr. rewrite Forall_forall in Hall. destruct (Hall r Hr). rewrite !list_elem_of_filter. done. }
  assert (forall l, length (filter (fun r => r ∉ T) l) + length (filter (fun r => r ∈ T) l) = length l)%nat as Hsum.
  { induction l as [|r l IH]; [done|]. rewrite !filter_cons. destruct (decide (r ∈ T)); [rewrite decide_False by tauto|rewrite decide_True by tauto]; simpl; lia. }
  specialize (Hsum (filter (aheadOf x) table)). lia.
Qed.

Lemma Due_unclaimed now limit jitter table x : x ∈ table -> keyed table -> x ∉ taken now limit table -> x ∈ (Due now limit jitter table).1.
Proof.
  intros Hx Hk Hn. rewrite Due_eq. cbn [fst]. assert (claimed now limit jitter table x = x) as <-.
  { unfold claimed. rewrite decide_False; [done|]. by rewrite taken_ids. }
  apply list_elem_of_In, in_map, list_elem_of_In, Hx.
Qed.

Lemma claims_reach L x cs : forall table, keyed table -> x ∈ table ->
  Forall (fun c => cl_limit c = L /\ claimable (cl_at c) x = true /\ forall id d, d ∈ map r_due table -> ScheduleID d = id ->
    0 < IntervalS d * Second + cl_jitter c id) cs ->
  (length (filter (aheadOf x) table) < L * length cs)%nat -> claimedAt (r_id x) (claims table cs).2 <> [].
Proof.
  induction cs as [|c cs IH]; intros table Hk Hx Hall Hlt; [simpl in Hlt; lia|]. apply Forall_cons in Hall as [(HL & Hc & Hj) Hall]. cbn [claims].
  assert (advances table c) as Hadv.
  { apply Forall_forall. intros r Hr. apply (Hj (r_id r) (r_due r)); [|done]. apply list_elem_of_In, in_map, list_elem_of_In, Hr. }
  pose proof (Due_keyed (cl_at c) (cl_limit c) (cl_jitter c) table Hk) as Hk'.
  pose proof (aheadOf_shrinks c table x Hk Hx Hc Hadv) as Hshrink.
  pose proof (Due_unclaimed (cl_at c) (cl_limit c) (cl_jitter c) table x Hx Hk) as Hstay.
  assert (map r_due (Due (cl_at c) (cl_limit c) (cl_jitter c) table).1 = map r_due table) as Edue.
  { rewrite Due_eq. cbn [fst]. rewrite map_map. apply map_ext. intros r. unfold claimed. by case_decide. }
  assert ((Due (cl_at c) (cl_limit c) (cl_jitter c) table).2 = map r_due (taken (cl_at c) (cl_limit c) table)) as Et by done.
  destruct (Due (cl_at c) (cl_limit c) (cl_jitter c) table) as [table' due]. cbn [fst snd] in *.
  specialize (IH table' Hk'). destruct (claims table' cs) as [table'' log]. cbn [snd] in *.
  unfold claimedAt. rewrite filter_cons. cbn [snd]. case_decide as Hd; [done|].
  assert (x ∉ taken (cl_at c) (cl_limit c) table) as Hn.
  { intros Hin. apply Hd. rewrite Et, map_map. apply list_elem_of_In, (in_map (fun r => ScheduleID (r_due r))), list_elem_of_In, Hin. }
  apply IH; [by apply Hstay|by rewrite Edue|]. specialize (Hshrink Hn). simpl in Hlt. lia.
Qed.

(** C29. A poll that is due is claimed as soon as the scans have made room for the
    older ones: with no more than [L] of them ahead for each scan but the last,
    it is among those the scans take. *)
Theorem no_starvation L table x cs :
  keyed table -> x ∈ table ->
  Forall (fun c => cl_limit c = L /\ claimable (cl_at c) x = true) cs ->
  Forall (fun c => Forall (fun r => 0 < IntervalS (r_due r) * Second + cl_jitter c (r_id r)) table) cs ->
  (length (filter (aheadOf x) table) < L * length cs)%nat ->
  claimedAt (r_id x) (claims table cs).2 <> [].
Proof.
  intros Hk Hx Hall Hadv Hlt. apply (claims_reach L x cs table Hk Hx); [|done].
  rewrite Forall_forall in Hall, Hadv |- *. intros c Hc. destruct (Hall c Hc) as [? ?]. split; [done|]. split; [done|].
  intros id d Hd <-. apply list_elem_of_In, in_map_iff in Hd as (r & <- & Hr%list_elem_of_In). specialize (Hadv c Hc). rewrite Forall_forall in Hadv. by apply Hadv.
Qed.

(** * Dispatching *)

(** What became of a due poll. *)
Definition settled (a : action) : option (string * string * string) :=
  match a with
  | Publish site job => Some (site, j_DeviceID job, j_Family job)
  | Failed d => Some (ds_SiteID d, ds_DeviceID d, Family d)
  | _ => None
  end.
Definition isPublish (a : action) : Prop := match a with Publish _ _ => True | _ => False end.
#[export] Instance isPublish_dec a : Decision (isPublish a).
Proof. destruct a; simpl; apply _. Defined.

Definition poll (d : DueSchedule) : string * string * string := (ds_SiteID d, ds_DeviceID d, Family d).

(** The actions of a check are about the queue, and settle nothing. *)
Lemma checkQueue_quiet env k s site : let '(s', out, ok) := checkQueue env k s site in
  omap settled out = [] /\ filter isPublish out = [] /\ lastAnnounce s' = lastAnnounce s.
Proof.
  unfold checkQueue. destruct (_ <=? _); [|done]. destruct (Ensure env k) as [st|]; [|done]. unfold noteSiteQueue.
  destruct (hasSiteHealth env); case_bool_decide; [done| |done|]; destruct (negb _); try done; case_bool_decide; done.
Qed.

Lemma dispatch_settles env k s d : let '(s', out, ok) := dispatch env k s d in
  omap settled out = [poll d] /\ len (filter isPublish out) = (if ok then 1 else 0) /\
  Forall (fun a => match a with Publish site job => j_SiteID job = site | _ => True end) (filter isPublish out).
Proof.
  unfold dispatch. pose proof (checkQueue_quiet env k s (ds_SiteID d)) as Hq. destruct (checkQueue env k s (ds_SiteID d)) as [[s1 out] ok].
  destruct Hq as (Hs & Hp & _).
  assert (forall a, omap settled (out ++ [a]) = option_list (settled a) /\ filter isPublish (out ++ [a]) = if decide (isPublish a) then [a] else []) as Happ.
  { intros a. rewrite omap_app, filter_app, Hs, Hp. split; [simpl; by destruct (settled a)|]. by rewrite filter_cons, filter_nil. }
  destruct ok; cbn [negb]; [destruct (Resolve env k); [destruct (confirms env k)|]|].
  all: match goal with |- context [omap settled (_ ++ [?a])] => destruct (Happ a) as [-> ->] end; simpl; split_and!; try done; by repeat constructor.
Qed.

Lemma dispatchAll_settles env due : forall k s, let '(s', out, (published, failed)) := dispatchAll env k s due in
  omap settled out = map poll due /\ published + failed = len due /\ len (filter isPublish out) = published /\
  Forall (fun a => match a with Publish site job => j_SiteID job = site | _ => True end) (filter isPublish out).
Proof.
  induction due as [|d due IH]; intros k s; cbn [dispatchAll]; [by split_and!|].
  pose proof (dispatch_settles env k s d) as Hd. destruct (dispatch env k s d) as [[s1 out] ok]. destruct Hd as (Hs & Hp & Hf).
  specialize (IH (S k) s1). destruct (dispatchAll env (S k) s1 due) as [[s2 outs] [published failed]]. destruct IH as (Hs' & Hc' & Hp' & Hf').
  destruct ok; rewrite omap_app, filter_app, Hs, Hs', len_app, len_cons; (split; [done|]); split; try lia; (split; [lia|]); by apply Forall_app.
Qed.

(** Every poll that a tick claims is settled, once and in order: its job goes to
    the queue of its own site or it is counted as failed. A standby asks for
    nothing and claims nothing. *)
Theorem tick_settles env limit jitter s table :
  let '(s', table', t) := tick env Scanned limit jitter (s, table) in
  if TryAcquire env then
    let due := (Due (start env) limit jitter table).2 in
    omap settled (tk_actions t) = map poll due /\ tk_published t + tk_failed t = len due /\
    len (filter isPublish (tk_actions t)) = tk_published t /\
    Forall (fun a => match a with Publish site job => j_SiteID job = site | _ => True end) (filter isPublish (tk_actions t))
  else s' = s /\ table' = table /\ t = mkTicked [] 0 0.
Proof.
  unfold tick. destruct (TryAcquire env); cbn [negb]; [|done].
  assert (let '(s1, out) := announce env s in omap settled out = [] /\ filter isPublish out = []) as Ha.
  { unfold announce. destruct (_ && _); [|done]. by destruct (ActiveSites env). }
  destruct (announce env s) as [s1 out]. destruct Ha as [Ha1 Ha2]. destruct (Due (start env) limit jitter table) as [table1 due].
  pose proof (dispatchAll_settles env due 0 s1) as Hd. destruct (dispatchAll env 0 s1 due) as [[s2 outs] [published failed]].
  cbn [tk_actions tk_published tk_failed snd]. by rewrite omap_app, filter_app, Ha1, Ha2.
Qed.

(** ** Over many ticks *)

Record turn : Type := mkTurn { tn_env : surroundings; tn_scan : scan; tn_limit : nat; tn_jitter : Z -> Duration }.

Fixpoint ticks (st : Scheduler * list ScheduleRow) (ts : list turn) : Scheduler * list ScheduleRow * list action :=
  match ts with
  | [] => (st, [])
  | t :: ts =>
      let '(s, table, out) := tick (tn_env t) (tn_scan t) (tn_limit t) (tn_jitter t) st in
      let '(st, rest) := ticks (s, table) ts in (st, tk_actions out ++ rest)
  end.

(** The log about one site, read from left to right: a complaint comes when
    none is standing, and is withdrawn when one is. [None] if not. *)
Fixpoint replay (site : string) (standing : bool) (log : list action) : option bool :=
  match log with
  | [] => Some standing
  | LogNoPoller s _ :: log => if decide (s = site) then (if standing then None else replay site true log) else replay site standing log
  | LogConsumerAgain s :: log => if decide (s = site) then (if standing then replay site false log else None) else replay site standing log
  | _ :: log => replay site standing log
  end.

Lemma replay_app site log log' : forall b, replay site b (log ++ log') = (b' ← replay site b log; replay site b' log').
Proof.
  induction log as [|a log IH]; intros b; [done|]. destruct a; cbn [app replay]; try apply IH; case_decide; try apply IH; destruct b; try done; apply IH.
Qed.

(** The site is known to be without a poller. *)
Definition unserved (s : Scheduler) (site : string) : bool := bool_decide (hadConsumers s !! site = Some false).

(** The queue of every site that was checked has been declared. *)
Definition declared (log : list action) (s : Scheduler) : Prop :=
  forall site t, lastQueueCheck s !! site = Some t -> EnsureSiteQueue site ∈ log.

(** Before every job a declaration of its queue. *)
Fixpoint declaredFirst (seen : list action) (log : list action) : Prop :=
  match log with
  | [] => True
  | a :: log => (match a with Publish site _ => EnsureSiteQueue site ∈ seen | _ => True end) /\ declaredFirst (seen ++ [a]) log
  end.

Lemma declaredFirst_app log log' : forall seen, declaredFirst seen (log ++ log') <-> declaredFirst seen log /\ declaredFirst (seen ++ log) log'.
Proof.
  induction log as [|a log IH]; intros seen; cbn [app declaredFirst]; [rewrite app_nil_r; tauto|]. rewrite IH, <- app_assoc. simpl. tauto.
Qed.

(** What one step of a scheduler adds to a log. *)
Record logged (before : list action) (s : Scheduler) (out : list action) (s' : Scheduler) : Prop := mkLogged {
  lg_declared : declared before s -> declared (before ++ out) s' /\ declaredFirst before out;
  lg_replay : forall site, replay site (unserved s site) out = Some (unserved s' site)
}.

Lemma logged_nil before s s' : lastQueueCheck s' = lastQueueCheck s -> hadConsumers s' = hadConsumers s -> logged before s [] s'.
Proof. intros E1 E2. split; [unfold declared; rewrite E1, app_nil_r; by intros|intros site; unfold unserved; by rewrite E2]. Qed.

Lemma logged_trans before s out s' out' s'' : logged before s out s' -> logged (before ++ out) s' out' s'' -> logged before s (out ++ out') s''.
Proof.
  intros [D1 R1] [D2 R2]. split.
  - intros [H1 H2]%D1. apply D2 in H1 as [H3 H4]. rewrite <- app_assoc in H3. split; [done|]. by apply declaredFirst_app.
  - intros site. rewrite replay_app, R1. apply R2.
Qed.

Lemma noteSiteQueue_logged before h s site st : let '(s', out) := noteSiteQueue h s site st in logged before s out s'.
Proof.
  unfold noteSiteQueue. set (record := if h then _ else _). set (s' := s <| hadConsumers := _ |>).
  assert (forall x, declared x s -> declared x s') as Hd by done.
  assert (forall out, Forall (fun a => ~ isPublish a) out -> forall seen, declaredFirst seen out) as Hnp.
  { induction 1 as [|a out Ha _ IH]; intros seen; [done|]. split; [by destruct a|apply IH]. }
  assert (forall out, Forall (fun a => ~ isPublish a) out -> (forall site', replay site' (unserved s site') out = Some (unserved s' site')) -> logged before s out s') as Hout.
  { intros out Ho Hr. split; [|done]. intros Hdecl. split; [intros site' t Ht; apply elem_of_app; left; by apply (Hdecl site' t)|by apply Hnp]. }
  assert (forall site' b out, replay site' b (record ++ out) = replay site' b out) as Hrec by (intros; unfold record; by destruct h).
  assert (Forall (fun a => ~ isPublish a) record) as Hrecp by (unfold record; destruct h; repeat constructor; by intros []).
  assert (forall site', unserved s' site' = if decide (site = site') then negb (0 <? Consumers st) else unserved s site') as Hun.
  { intros site'. unfold unserved, s'. cbn [hadConsumers set]. case_decide as E; [subst site'; rewrite lookup_insert_eq|by rewrite lookup_insert_ne].
    destruct (0 <? Consumers st); by vm_compute. }
  case_bool_decide as Hprev; [|destruct (negb (0 <? Consumers st)) eqn:Es; [|case_bool_decide as Hp]].
  - apply Hout; [done|]. intros site'. specialize (Hrec site' (unserved s site') []). rewrite app_nil_r in Hrec. rewrite Hrec, Hun. cbn [replay].
    case_decide as E; [|done]. subst site'. unfold unserved. rewrite Hprev. f_equal. by destruct (0 <? Consumers st).
  - apply Hout; [apply Forall_app; split; [done|]; repeat constructor; by intros []|]. intros site'. rewrite Hrec, Hun. cbn [replay]. case_decide as E; [|done].
    subst site'. assert (unserved s site = false) as ->; [|done]. apply bool_decide_eq_false_2. apply negb_true_iff in Es. by rewrite Es in Hprev.
  - apply Hout; [apply Forall_app; split; [done|]; repeat constructor; by intros []|]. intros site'. rewrite Hrec, Hun. cbn [replay]. case_decide as E; [|done].
    subst site'. assert (unserved s site = true) as ->; [|done]. apply bool_decide_eq_true_2. apply negb_false_iff in Es. rewrite Es in Hprev.
    destruct (hadConsumers s !! site) as [[]|]; [done|done|by destruct Hp].
  - apply Hout; [done|]. intros site'. specialize (Hrec site' (unserved s site') []). rewrite app_nil_r in Hrec. rewrite Hrec, Hun. cbn [replay].
    case_decide as E; [|done]. subst site'. f_equal. apply bool_decide_eq_false_2. intros E. apply Hp. by rewrite E.
Qed.

Lemma checkQueue_logged before env k s site : let '(s', out, ok) := checkQueue env k s site in
  logged before s out s' /\
  (zeroTime + Minute <= clockAt env k -> ok = true -> declared before s -> EnsureSiteQueue site ∈ before ++ out).
Proof.
  unfold checkQueue. destruct (siteQueueRecheck <=? _) eqn:Ec.
  - assert (logged before s [EnsureSiteQueue site] s) as H0.
    { split; [|done]. intros Hd. split; [intros site' t Ht; apply elem_of_app; left; by apply (Hd site' t)|done]. }
    destruct (Ensure env k) as [st|]; [|by split].
    set (s1 := s <| lastQueueCheck := _ |>).
    assert (logged before s [EnsureSiteQueue site] s1) as H1.
    { split; [|done]. intros Hd. split; [|done]. intros site' t. unfold s1. cbn [lastQueueCheck set]. intros [[<- _]|[_ Ht]]%lookup_insert_Some.
      - apply elem_of_app. right. constructor.
      - apply elem_of_app. left. by apply (Hd site' t). }
    pose proof (noteSiteQueue_logged (before ++ [EnsureSiteQueue site]) (hasSiteHealth env) s1 site st) as Hn.
    destruct (noteSiteQueue _ s1 site st) as [s2 out]. split.
    + change (EnsureSiteQueue site :: out) with ([EnsureSiteQueue site] ++ out). by apply logged_trans with s1.
    + intros _ _ _. apply elem_of_app. right. constructor.
  - split; [by apply logged_nil|]. intros Hclock _ Hd. rewrite app_nil_r. apply Z.leb_gt in Ec.
    destruct (lastQueueCheck s !! site) as [t|] eqn:Et; [by apply (Hd site t)|]. exfalso. cbn [default] in Ec.
    unfold siteQueueRecheck, time_Sub, maxDuration, minDuration, zeroTime, Minute, Second in *. simpl in Ec. lia.
Qed.

Lemma logged_quiet before s a : ~ isPublish a -> (forall site b, replay site b [a] = Some b) -> logged before s [a] s.
Proof.
  intros Hp Hr. split; [|intros site; apply Hr]. intros Hd. split; [|split; [by destruct a|done]].
  intros site t Ht. apply elem_of_app. left. by apply (Hd site t).
Qed.

Lemma dispatch_logged before env k s d : zeroTime + Minute <= clockAt env k -> declared before s ->
  let '(s', out, ok) := dispatch env k s d in logged before s out s'.
Proof.
  intros Hclock Hdecl. unfold dispatch. pose proof (checkQueue_logged before env k s (ds_SiteID d)) as Hq.
  destruct (checkQueue env k s (ds_SiteID d)) as [[s1 out] ok]. destruct Hq as [Hl Hin].
  assert (logged before s (out ++ [Failed d]) s1) as Hfail by (eapply logged_trans; [exact Hl|]; apply logged_quiet; [by intros []|done]).
  destruct ok; cbn [negb]; [|done]. destruct (Resolve env k) as [cred|]; [|done]. destruct (confirms env k); [|done].
  eapply logged_trans; [exact Hl|]. split; [|done]. intros Hd'. split; [|split; [by apply Hin|done]].
  intros site t Ht. apply elem_of_app. left. by apply (Hd' site t).
Qed.

Lemma dispatchAll_logged env due : (forall k, zeroTime + Minute <= clockAt env k) -> forall k s before, declared before s ->
  let '(s', out, _) := dispatchAll env k s due in logged before s out s'.
Proof.
  intros Hclock. induction due as [|d due IH]; intros k s before Hd; cbn [dispatchAll]; [by apply logged_nil|].
  pose proof (dispatch_logged before env k s d (Hclock k) Hd) as H1. destruct (dispatch env k s d) as [[s1 out] ok].
  destruct (lg_declared _ _ _ _ H1 Hd) as [Hd1 _]. specialize (IH (S k) s1 (before ++ out) Hd1).
  destruct (dispatchAll env (S k) s1 due) as [[s2 outs] [published failed]]. by apply logged_trans with s1.
Qed.

Lemma tick_logged before t s table : (forall k, zeroTime + Minute <= clockAt (tn_env t) k) -> declared before s ->
  let '(s', _, out) := tick (tn_env t) (tn_scan t) (tn_limit t) (tn_jitter t) (s, table) in logged before s (tk_actions out) s'.
Proof.
  intros Hclock Hd. unfold tick. destruct (TryAcquire (tn_env t)); cbn [negb]; [|by apply logged_nil].
  assert (let '(s1, out) := announce (tn_env t) s in logged before s out s1) as Ha.
  { unfold announce. destruct (_ && _); [|by apply logged_nil]. destruct (ActiveSites (tn_env t)); [|by apply logged_nil].
    pose proof (logged_quiet before s (PublishSites l)) as H. destruct H as [H1 H2]; [by intros []|done|]. by split. }
  destruct (announce (tn_env t) s) as [s1 out]. destruct (lg_declared _ _ _ _ Ha Hd) as [Hd1 _].
  destruct (Due _ _ _ table) as [table1 due]. destruct (tn_scan t); [|done].
  pose proof (dispatchAll_logged (tn_env t) due Hclock 0 s1 (before ++ out) Hd1) as Hd2.
  destruct (dispatchAll (tn_env t) 0 s1 due) as [[s2 outs] [published failed]]. by apply logged_trans with s1.
Qed.

Lemma ticks_logged ts : Forall (fun t => forall k, zeroTime + Minute <= clockAt (tn_env t) k) ts -> forall s table before, declared before s ->
  let '(s', _, log) := ticks (s, table) ts in logged before s log s'.
Proof.
  induction 1 as [|t ts Ht Hts IH]; intros s table before Hd; cbn [ticks]; [by apply logged_nil|].
  pose proof (tick_logged before t s table Ht Hd) as H1. destruct (tick _ _ _ _ (s, table)) as [[s1 table1] out].
  destruct (lg_declared _ _ _ _ H1 Hd) as [Hd1 _]. specialize (IH s1 table1 (before ++ tk_actions out) Hd1).
  destruct (ticks (s1, table1) ts) as [[s2 table2] log]. by apply logged_trans with s1.
Qed.

(** Over any number of ticks no job is sent to a queue that was not declared
    before, and of each site the log complains that no poller reads its queue
    once when that begins and says once when it ends: a complaint stands
    exactly when the site had no consumer when its queue was last looked at. *)
Theorem sites_watched ts table :
  Forall (fun t => forall k, zeroTime + Minute <= clockAt (tn_env t) k) ts ->
  let '(s, _, log) := ticks (newScheduler, table) ts in
  declaredFirst [] log /\ forall site, replay site false log = Some (bool_decide (hadConsumers s !! site = Some false)).
Proof.
  intros Hts. assert (declared [] newScheduler) as Hd by (intros site t; unfold newScheduler; cbn [lastQueueCheck]; by rewrite lookup_empty).
  pose proof (ticks_logged ts Hts newScheduler table [] Hd) as Hl. destruct (ticks (newScheduler, table) ts) as [[s table'] log].
  destruct Hl as [H1 H2]. split; [by apply H1|]. intros site. specialize (H2 site).
  assert (unserved newScheduler site = false) as E by (apply bool_decide_eq_false_2; unfold newScheduler; cbn [hadConsumers]; by rewrite lookup_empty).
  by rewrite E in H2.
Qed.

(** ** A worked day *)

Definition demoDue (id : Z) (site : string) : DueSchedule := mkDueSchedule id ("d" +:+ Itoa id) site "traffic" "10.0.0.1" 161 "generic" "c1" 60 2000 1.
Definition demoRow (id : Z) (site : string) (next : Time) : ScheduleRow := mkScheduleRow (demoDue id site) true "active" next None.
Definition demoTable : list ScheduleRow := [demoRow 1 "hq" 30; demoRow 2 "lab" 10; demoRow 3 "hq" 20].
Definition demoEnv (now : Time) (consumers : Z) : surroundings :=
  mkSurroundings true now true (Some ["hq"; "lab"]) false (fun _ => now) (fun _ => now) (fun _ => Some (mkSiteQueueState consumers 4))
    (fun _ => Some (mkSNMPCred "2c" "public" "" "" "" "" "" "")) (fun _ => "job") (fun k => Nat.eqb k 0).
Definition demoTurns : list turn :=
  [mkTurn (demoEnv 100 0) Scanned 2 (fun _ => 0); mkTurn (demoEnv (70 * Second) 1) Scanned 9 (fun _ => 0)].

Example demo_day : let '(_, _, log) := ticks (newScheduler, demoTable) demoTurns in
  omap settled log = [("lab", "d2", "traffic"); ("hq", "d3", "traffic"); ("hq", "d1", "traffic"); ("hq", "d3", "traffic"); ("lab", "d2", "traffic")] /\
  filter (fun a => match a with LogNoPoller _ _ | LogConsumerAgain _ => true | _ => false end = true) log =
    [LogNoPoller "lab" 4; LogNoPoller "hq" 4; LogConsumerAgain "hq"; LogConsumerAgain "lab"].
Proof. vm_compute. by split. Qed.

Lemma sites_watched_witness : let '(s, _, log) := ticks (newScheduler, demoTable) demoTurns in
  declaredFirst [] log /\ forall site, replay site false log = Some (bool_decide (hadConsumers s !! site = Some false)).
Proof.
  apply (sites_watched demoTurns demoTable). repeat apply List.Forall_cons; [..|apply List.Forall_nil]; intros k;
    unfold demoEnv, tn_env, clockAt, zeroTime, Minute, Second; lia.
Defined.

Definition demoClaims : list claim := [mkClaim 100 2 (fun _ => 0); mkClaim (70 * Second) 2 (fun _ => - 1); mkClaim (140 * Second) 2 (fun _ => 0)].

Lemma demo_keyed : keyed demoTable.
Proof. decide_by_compute. Qed.

Lemma no_double_booking_witness :
  gaps (60 * Second) (claimedAt 2 (claims demoTable demoClaims).2) /\ claimedAt 2 (claims demoTable demoClaims).2 = [100; 140 * Second].
Proof.
  split; [|by vm_compute]. apply (no_double_booking demoTable demoClaims (demoRow 2 "lab" 10) demo_keyed).
  - right. left.
  - reflexivity.
  - repeat apply List.Forall_cons; [..|apply List.Forall_nil]; vm_compute; by intros [=].
Defined.

Lemma no_starvation_witness : claimedAt 1 (claims demoTable (take 2 demoClaims)).2 <> [].
Proof.
  apply (no_starvation 2 demoTable (demoRow 1 "hq" 30) (take 2 demoClaims) demo_keyed).
  - left.
  - repeat apply List.Forall_cons; [..|apply List.Forall_nil]; by vm_compute.
  - repeat apply List.Forall_cons; [..|apply List.Forall_nil]; repeat apply List.Forall_cons; first [apply List.Forall_nil | by vm_compute].
  - vm_compute. lia.
Defined.
