(* ===== verification/Polling.v ===== *)
(** Package platform/polling (polling.go): the cadence of the fleet as one
    setting.

    The tables are lists of rows with a key each. [Set] is one transaction:
    where the database fails, nothing of it is left. *)
From Stdlib Require Import ZArith Lia.
From stdpp Require Import base list gmap strings numbers sorting.
From S2P Require Import Prelude GoText Errx.

Record Profile : Type := mkProfile {
  pf_id : string; pf_default : bool; pf_traffic : Z; pf_health : Z; pf_icmp : Z; pf_sync : Z
}.
#[export] Instance eta_Profile : Eta Profile := fun p =>
  mkProfile (pf_id p) (pf_default p) (pf_traffic p) (pf_health p) (pf_icmp p) (pf_sync p).

(** A row of polling_schedule. *)
Record Slot : Type := mkSlot { sl_device : string; sl_family : string; sl_interval : Z; sl_next : Time }.
#[export] Instance eta_Slot : Eta Slot := fun s => mkSlot (sl_device s) (sl_family s) (sl_interval s) (sl_next s).

(** [profileOf]: the profile of each device. *)
Record DB : Type := mkDB { profiles : list Profile; profileOf : gmap string string; slots : list Slot }.
#[export] Instance eta_DB : Eta DB := fun d => mkDB (profiles d) (profileOf d) (slots d).

Record Settings : Type := mkSettings {
  TrafficIntervalS : Z; HealthIntervalS : Z; ICMPIntervalS : Z; SyncIntervalS : Z; st_Allowed : list Z; Devices : Z
}.

Definition Allowed : list Z := [60; 300; 600; 900].
Definition allowedInterval (v : Z) : bool := existsb (fun a => a =? v) Allowed.

(** The profile both statements choose: a default one, or else [pp_default]. *)
Definition chosen (d : DB) : option Profile :=
  match filter (fun p => pf_default p = true) (profiles d) with
  | p :: _ => Some p
  | [] => head (filter (fun p => pf_id p = "pp_default") (profiles d))
  end.

(** What the database says where it fails. *)
Definition failed (what : string) : Err := default (New KindTransient what) (Wrap KindTransient (Some (ErrText "database")) what).

(** [fails]: the number of the statement that fails, if one does. *)
Definition Get (fails : bool) (d : DB) : Settings + Err :=
  match (if fails then None else chosen d) with
  | None => inr (failed "load polling profile")
  | Some p =>
      inl (mkSettings (pf_traffic p) (pf_health p) (pf_icmp p) (pf_sync p) Allowed
             (Z.of_nat (size (filter (fun e : string * string => e.2 = pf_id p) (profileOf d)))))
  end.

Definition reschedule (d : DB) (profile : string) (traffic health : Z) (s : Slot) : Slot :=
  if decide (profileOf d !! sl_device s = Some profile) then
    if decide (sl_family s = "traffic") then s <| sl_interval := traffic |>
    else if decide (sl_family s = "health") then s <| sl_interval := health |> else s
  else s.

Definition Set_ (fails : option nat) (d : DB) (trafficS : Z) : DB * (Settings + Err) :=
  if negb (allowedInterval trafficS) then (d, inr (New KindInvalid "traffic_interval_s must be one of [60 300 600 900]")) else
  let stops k := bool_decide (fails = Some k) in
  if stops 0%nat then (d, inr (failed "begin")) else
  match (if stops 1%nat then None else chosen d) with
  | None => (d, inr (failed "load polling profile"))
  | Some p =>
      let healthS := if pf_health p <? trafficS then trafficS else pf_health p in
      if stops 2%nat then (d, inr (failed "update profile")) else
      let update q := if decide (pf_id q = pf_id p) then q <| pf_traffic := trafficS |> <| pf_health := healthS |> else q in
      let d' := d <| profiles := map update (profiles d) |> in
      if stops 3%nat then (d, inr (failed "reschedule devices")) else
      let d' := d' <| slots := map (reschedule d (pf_id p) trafficS healthS) (slots d) |> in
      if stops 4%nat then (d, inr (failed "commit")) else (d', Get (stops 5%nat) d')
  end.

Definition Describe (seconds : Z) : string :=
  let d := int64 (int64 seconds * Second) in
  if d <? Minute then Itoa seconds +:+ "s" else Itoa (Z.quot seconds 60) +:+ " min".

(** * The setting and what is scheduled *)

(** The schedule does what the settings of its device's profile say. *)
Definition follows (d : DB) (p : Profile) : Prop :=
  forall s, s ∈ slots d -> profileOf d !! sl_device s = Some (pf_id p) ->
    (sl_family s = "traffic" -> sl_interval s = pf_traffic p) /\ (sl_family s = "health" -> sl_interval s = pf_health p).

Lemma filter_map_commute {A} (P : A -> Prop) `{forall x, Decision (P x)} (f : A -> A) l :
  (forall x, P (f x) <-> P x) -> filter P (map f l) = map f (filter P l).
Proof.
  intros Hf. induction l as [|x l IH]; [done|]. cbn [map]. rewrite !filter_cons, IH.
  destruct (decide (P x)); [rewrite decide_True by (by apply Hf) | rewrite decide_False by (by rewrite Hf)]; done.
Qed.

Lemma chosen_in d p : chosen d = Some p -> p ∈ profiles d.
Proof.
  unfold chosen. destruct (filter _ (profiles d)) as [|q l] eqn:E.
  - destruct (filter (fun p => pf_id p = "pp_default") (profiles d)) as [|q l] eqn:E'; [done|]. intros [= ->].
    assert (p ∈ p :: l) as H by constructor. rewrite <- E' in H. by apply list_elem_of_filter in H as [_ ?].
  - intros [= ->]. assert (p ∈ p :: l) as H by constructor. rewrite <- E in H. by apply list_elem_of_filter in H as [_ ?].
Qed.

Lemma chosen_map d f : (forall q, pf_id (f q) = pf_id q /\ pf_default (f q) = pf_default q) ->
  chosen (d <| profiles := map f (profiles d) |>) = f <$> chosen d.
Proof.
  intros Hf. unfold chosen. cbn [profiles set].
  rewrite !filter_map_commute by (intros q; destruct (Hf q) as [E1 E2]; by rewrite ?E1, ?E2).
  destruct (filter (fun p => pf_default p = true) (profiles d)); [|done]. by destruct (filter (fun p => pf_id p = "pp_default") (profiles d)).
Qed.

Lemma Set_spec_of fails d trafficS : let '(d', r) := Set_ fails d trafficS in
  (d' = d /\ (exists e, r = inr e /\ (allowedInterval trafficS = false <-> kindOf (Some e) = KindInvalid))) \/
  (allowedInterval trafficS = true /\ exists p, chosen d = Some p /\
    let health := Z.max (pf_health p) trafficS in
    let p' := p <| pf_traffic := trafficS |> <| pf_health := health |> in
    chosen d' = Some p' /\ follows d' p' /\ r = Get (bool_decide (fails = Some 5%nat)) d' /\ profileOf d' = profileOf d /\
    Forall2 (fun q q' => pf_id q' = pf_id q /\ (pf_id q <> pf_id p -> q' = q)) (profiles d) (profiles d') /\
    Forall2 (fun s s' => sl_device s' = sl_device s /\ sl_family s' = sl_family s /\ sl_next s' = sl_next s /\
      (profileOf d !! sl_device s <> Some (pf_id p) \/ (sl_family s <> "traffic" /\ sl_family s <> "health") -> s' = s)) (slots d) (slots d')).
Proof.
  unfold Set_. assert (forall what, kindOf (Some (failed what)) = KindTransient) as Hfail by done.
  destruct (allowedInterval trafficS) eqn:Ea; cbn [negb]; [|left; split; [done|]; by eexists].
  assert (forall what, exists e, inr (A := Settings) (failed what) = inr e /\ (true = false <-> kindOf (Some e) = KindInvalid)) as Hf.
  { intros what. eexists. split; [done|]. by rewrite Hfail. }
  destruct (bool_decide (fails = Some 0%nat)); [left; by split|].
  destruct (bool_decide (fails = Some 1%nat)); [left; by split|]. destruct (chosen d) as [p|] eqn:Ep; [|left; by split].
  destruct (bool_decide (fails = Some 2%nat)); [left; by split|]. destruct (bool_decide (fails = Some 3%nat)); [left; by split|].
  destruct (bool_decide (fails = Some 4%nat)); [left; by split|]. right. split; [done|]. exists p. split; [done|]. cbv zeta.
  assert ((if pf_health p <? trafficS then trafficS else pf_health p) = Z.max (pf_health p) trafficS) as -> by (destruct (Z.ltb_spec (pf_health p) trafficS); lia).
  set (health := Z.max (pf_health p) trafficS). set (f := fun q => if decide (pf_id q = pf_id p) then _ else q).
  assert (forall q, pf_id (f q) = pf_id q /\ pf_default (f q) = pf_default q) as Hid by (intros q; unfold f; by case_decide).
  split; [|split; [|split; [done|split; [done|split]]]].
  - pose proof (chosen_map d f Hid) as Hc. rewrite Ep in Hc. etrans; [exact Hc|]. simpl. unfold f. by rewrite decide_True.
  - intros s' (s & <- & Hs)%list_elem_of_In%in_map_iff. cbn [profileOf set]. unfold reschedule. destruct (decide (profileOf d !! sl_device s = Some (pf_id p))) as [Hp|Hp].
    + intros _. do 2 (case_decide; [cbn [sl_family sl_interval pf_traffic pf_health set]; split; congruence|]). by split.
    + intros Hp'. by destruct Hp.
  - cbn [profiles set]. apply Forall2_fmap_r, Forall_Forall2_diag, Forall_forall. intros q _. simpl. unfold f. case_decide; [by split|by split].
  - cbn [slots set]. apply Forall2_fmap_r, Forall_Forall2_diag, Forall_forall. intros s _. simpl. unfold reschedule.
    repeat case_decide; split_and!; try done; intros [?|[? ?]]; done.
Qed.

(** A cadence that is set is what is reported and what is scheduled, whatever
    was there before: every device of the profile collects traffic at it and
    health no more often, and nothing else changes, not when anything is next
    due. Where it is refused or the database fails, nothing changes at all. *)
Theorem Set_spec fails d trafficS : let '(d', r) := Set_ fails d trafficS in
  (d' = d /\ (exists e, r = inr e /\ (allowedInterval trafficS = false <-> kindOf (Some e) = KindInvalid))) \/
  (allowedInterval trafficS = true /\ exists p, chosen d = Some p /\
    let health := Z.max (pf_health p) trafficS in
    let p' := p <| pf_traffic := trafficS |> <| pf_health := health |> in
    chosen d' = Some p' /\ follows d' p' /\ r = Get (bool_decide (fails = Some 5%nat)) d' /\ profileOf d' = profileOf d /\
    Forall2 (fun q q' => pf_id q' = pf_id q /\ (pf_id q <> pf_id p -> q' = q)) (profiles d) (profiles d') /\
    Forall2 (fun s s' => sl_device s' = sl_device s /\ sl_family s' = sl_family s /\ sl_next s' = sl_next s /\
      (profileOf d !! sl_device s <> Some (pf_id p) \/ (sl_family s <> "traffic" /\ sl_family s <> "health") -> s' = s)) (slots d) (slots d')).
Proof. apply Set_spec_of. Qed.

(** The settings agree with the schedule, and health is no more often than
    traffic. *)
Definition settled (d : DB) : Prop := exists p, chosen d = Some p /\ follows d p /\ pf_traffic p <= pf_health p.

(** Once a cadence has been set the two stay in step, whatever is asked for
    next and wherever the database fails. *)
Theorem stays_settled fails d trafficS : let '(d', r) := Set_ fails d trafficS in
  (settled d -> settled d') /\ (forall s, r = inl s -> settled d' /\ TrafficIntervalS s = trafficS /\ trafficS <= HealthIntervalS s).
Proof.
  pose proof (Set_spec_of fails d trafficS) as H. destruct (Set_ fails d trafficS) as [d' r]. destruct H as [[-> (e & -> & _)]|(_ & p & _ & Hc & Hf & Hr & _)]; [done|].
  assert (settled d') as Hs by (eexists; split; [exact Hc|]; split; [exact Hf|]; simpl; lia).
  split; [done|]. intros s ->. split; [done|]. unfold Get in Hr. destruct (bool_decide _); [done|]. rewrite Hc in Hr. injection Hr as ->. simpl. lia.
Qed.

(** ** Slower and back again *)

Definition demoDB : DB := mkDB [mkProfile "pp_default" true 60 300 30 21600] {["d1" := "pp_default"]}
  [mkSlot "d1" "traffic" 60 7; mkSlot "d1" "health" 300 8; mkSlot "d1" "icmp" 30 9; mkSlot "d2" "traffic" 60 10].

(** What health was slowed to, it keeps. *)
Example slower_and_back :
  (Set_ None (Set_ None demoDB 900).1 60).1 = demoDB <| profiles := [mkProfile "pp_default" true 60 900 30 21600] |>
    <| slots := [mkSlot "d1" "traffic" 60 7; mkSlot "d1" "health" 900 8; mkSlot "d1" "icmp" 30 9; mkSlot "d2" "traffic" 60 10] |> /\
  Describe 900 = "15 min".
Proof. vm_compute. by split. Qed.
