(* ===== verification/FlowWriter.v ===== *)
(** Package flowstore (writer.go): the queue of single flows in front of
    ClickHouse.

    [Add] and [flush] share the queue under a mutex, which [flush] lets go of
    while it sends: what it does is taken in four kinds of turns, and flows are
    added between any two of them. The layout of a time is a parameter. *)
From Stdlib Require Import ZArith Lia.
From stdpp Require Import base list gmap strings numbers sorting.
From S2P Require Import Prelude GoText Netip NetipParse FlowTypes Geo.

(** ** Rows *)

Record row : Type := mkRow {
  rw_Received : string; rw_TimeStart : string; rw_TimeEnd : string; rw_Exporter : string; rw_Type : string;
  rw_Sampling : Z; rw_InIf : Z; rw_OutIf : Z; rw_SrcAddr : string; rw_DstAddr : string; rw_SrcPort : Z; rw_DstPort : Z;
  rw_Proto : Z; rw_TOS : Z; rw_TCPFlags : Z; rw_SrcAS : Z; rw_DstAS : Z; rw_SrcASName : string; rw_DstASName : string;
  rw_SrcCountry : string; rw_DstCountry : string; rw_SrcMask : Z; rw_DstMask : Z; rw_SrcMAC : Z; rw_DstMAC : Z;
  rw_SrcVLAN : Z; rw_DstVLAN : Z; rw_NextHop : string; rw_BGPNextHop : string; rw_Direction : Z; rw_ICMPType : Z;
  rw_AppID : string; rw_AppName : string; rw_NATSrcAddr : string; rw_NATDstAddr : string; rw_NATSrcPort : Z; rw_NATDstPort : Z;
  rw_FWEvent : Z; rw_User : string; rw_Bytes : Z; rw_Packets : Z
}.
#[export] Instance row_eq_dec : EqDecision row.
Proof. solve_decision. Defined.

Definition chAddr (a : Addr) : string := if negb (IsValid a) then "::" else Addr_String (Unmap a).

Section rows.
Context (Format : Time -> string).

Definition chTimeOrZero (t : Time) : string := if IsZero t then "1970-01-01 00:00:00.000" else Format t.

Definition toRow (now : Time) (exporter : Addr) (r : Record) (g : option DB) : outcome row :=
  let base srcAS dstAS srcName dstName srcCC dstCC :=
    mkRow (Format now) (chTimeOrZero (Start r)) (chTimeOrZero (End r)) (chAddr exporter) (Type_ r)
      (Z.max (SamplingRate r) 1) (InputIf r) (OutputIf r) (chAddr (SrcAddr r)) (chAddr (DstAddr r)) (SrcPort r) (DstPort r)
      (Protocol r) (TOS r) (TCPFlags r) srcAS dstAS srcName dstName srcCC dstCC (SrcMask r) (DstMask r) (SrcMAC r) (DstMAC r)
      (SrcVLAN r) (DstVLAN r) (chAddr (NextHop r)) (chAddr (BGPNextHop r)) (Direction r) (ICMPType r)
      (AppID r) (AppName r) (chAddr (NATSrcAddr r)) (chAddr (NATDstAddr r)) (NATSrcPort r) (NATDstPort r)
      (FWEvent r) (User r) (Bytes r) (Packets r) in
  match g with
  | None => Ret (base (SrcAS r) (DstAS r) "" "" "" "")
  | Some _ =>
      src ← Lookup g (SrcAddr r);
      dst ← Lookup g (DstAddr r);
      let srcAS := if SrcAS r =? 0 then i_ASN src else SrcAS r in
      let dstAS := if DstAS r =? 0 then i_ASN dst else DstAS r in
      Ret (base srcAS dstAS (ASName g srcAS) (ASName g dstAS) (i_Country src) (i_Country dst))
  end.

Fixpoint toRows (now : Time) (exporter : Addr) (rs : list Record) (g : option DB) : outcome (list row) :=
  match rs with
  | [] => Ret []
  | r :: rs => x ← toRow now exporter r g; xs ← toRows now exporter rs g; Ret (x :: xs)
  end.
End rows.

(** ** The queue *)

Record batch : Type := mkBatch { token : string; rows : list row }.

Definition DefaultMaxQueued : Z := 1000000.
Definition batchRows : Z := 100000.

(** [flushing]: the batches a flush has yet to send, and how many it has sent. *)
Record Writer : Type := mkWriter {
  MaxQueued : Z; pending : list row; retry : list batch; queued : Z; seq : Z;
  written : Z; w_dropped : Z; w_failed : Z; flushing : option (list batch * nat)
}.
#[export] Instance eta_Writer : Eta Writer := fun w =>
  mkWriter (MaxQueued w) (pending w) (retry w) (queued w) (seq w) (written w) (w_dropped w) (w_failed w) (flushing w).
Definition newWriter (MaxQueued : Z) : Writer := mkWriter MaxQueued [] [] 0 0 0 0 0 None.

Definition bound (w : Writer) : Z := if MaxQueued w <=? 0 then DefaultMaxQueued else MaxQueued w.

(** [Add], while it holds the mutex. *)
Definition enqueue (w : Writer) (rs : list row) : Writer :=
  let room := bound w - queued w in
  let '(w, rs) :=
    if room <? len rs then
      let room := if room <? 0 then 0 else room in
      (w <| w_dropped := uint64 (w_dropped w + uint64 (len rs - room)) |>, sub rs 0 room)
    else (w, rs) in
  w <| pending := pending w ++ rs |> <| queued := queued w + len rs |>.

Definition Add (Format : Time -> string) (w : Writer) (p : option Packet) (now : Time) (g : option DB) : outcome Writer :=
  match p with
  | None => Ret w
  | Some p =>
      if decide (Records p = []) then Ret w else
      rs ← toRows Format now (ExporterIP p) (Records p) g;
      Ret (enqueue w rs)
  end.

Definition tokenOf (now : Time) (seq : Z) : string := "netinv-" +:+ Itoa now +:+ "-" +:+ Itoa seq.

(** The loop of [flush] that forms batches; the fuel is the number of rows. *)
Fixpoint formBatches (fuel : nat) (now : nat -> Time) (k : nat) (w : Writer) : Writer :=
  match fuel with
  | O => w
  | S fuel =>
      match pending w with
      | [] => w
      | _ =>
          let n := Z.to_nat (Z.min (len (pending w)) batchRows) in
          let s := uint64 (seq w + 1) in
          formBatches fuel now (S k)
            (w <| seq := s |> <| retry := retry w ++ [mkBatch (tokenOf (now k) s) (take n (pending w))] |>
               <| pending := drop n (pending w) |>)
      end
  end.

Inductive result : Type := Accepted | Lost | Refused.

(** A turn of the writer: [Lost] is an insert that took effect and whose answer
    did not come back. *)
Inductive turn : Type :=
  | TurnAdd (rs : list row)
  | TurnForm (now : nat -> Time)
  | TurnSend (res : result)
  | TurnSettle.

Definition step (w : Writer) (t : turn) : Writer :=
  match t, flushing w with
  | TurnAdd rs, _ => enqueue w rs
  | TurnForm now, None =>
      let w := formBatches (length (pending w)) now 0 w in w <| flushing := Some (retry w, 0%nat) |>
  | TurnSend res, Some (b :: todo, sent) =>
      match res with
      | Accepted => w <| written := uint64 (written w + len (rows b)) |> <| flushing := Some (todo, S sent) |>
      | _ => w <| w_failed := uint64 (w_failed w + 1) |> <| flushing := Some ([], sent) |>
      end
  | TurnSettle, Some ([], sent) =>
      w <| queued := queued w - len (concat (map rows (take sent (retry w)))) |>
        <| retry := drop sent (retry w) |> <| flushing := None |>
  | _, _ => w
  end.

(** ** The table of flows

    ClickHouse is outside: what the writer relies on is that an insert whose
    token the table still remembers changes nothing, that any other adds its
    rows, and that the token of the last insert is remembered. The window of
    remembered tokens may be as short as that. *)
Class FlowTable (T : Type) : Type := {
  held : T -> list row;
  knows : T -> string -> bool;
  insert_ : T -> batch -> T
}.

Class FlowTableLaws (T : Type) `{FlowTable T} : Prop := {
  insert_known : forall tb b, knows tb (token b) = true -> insert_ tb b = tb;
  insert_new : forall tb b, knows tb (token b) = false -> held (insert_ tb b) = held tb ++ rows b;
  knows_last : forall tb b, knows (insert_ tb b) (token b) = true;
  knows_only : forall tb b t, knows (insert_ tb b) t = true -> t = token b \/ knows tb t = true
}.

Section table.
Context {T : Type} `{FlowTable T}.

(** What a turn does to the table. *)
Definition effect (w : Writer) (t : turn) (tb : T) : T :=
  match t, flushing w with
  | TurnSend Accepted, Some (b :: _, _) | TurnSend Lost, Some (b :: _, _) => insert_ tb b
  | _, _ => tb
  end.

Fixpoint run (w : Writer) (tb : T) (ts : list turn) : Writer * T :=
  match ts with
  | [] => (w, tb)
  | t :: ts => run (step w t) (effect w t tb) ts
  end.
End table.

(** * Properties *)

(** The rows offered in a sequence of turns, and those the queue had room for. *)
Definition offered (ts : list turn) : Z :=
  foldr (fun t n => match t with TurnAdd rs => len rs | _ => 0 end + n) 0 ts.

Definition admitted (w : Writer) (t : turn) : list row :=
  match t with TurnAdd rs => take (Z.to_nat (bound w - queued w)) rs | _ => [] end.

Fixpoint accepted (w : Writer) (ts : list turn) : list row :=
  match ts with
  | [] => []
  | t :: ts => admitted w t ++ accepted (step w t) ts
  end.

Definition flat (bs : list batch) : list row := concat (map rows bs).

Lemma flat_app b1 b2 : flat (b1 ++ b2) = flat b1 ++ flat b2.
Proof. unfold flat. by rewrite map_app, concat_app. Qed.

Lemma flat_one b : flat [b] = rows b.
Proof. apply app_nil_r. Qed.
#[local] Arguments flat : simpl never.

(** ** The queue *)

Lemma enqueue_spec w rs :
  let a := admitted w (TurnAdd rs) in
  enqueue w rs = w <| w_dropped := w_dropped (enqueue w rs) |> <| pending := pending w ++ a |> <| queued := queued w + len a |>
  /\ (forall d, w_dropped w = uint64 d -> w_dropped (enqueue w rs) = uint64 (d + (len rs - len a)))
  /\ (queued w <= bound w -> queued w + len a <= bound w).
Proof.
  cbn [admitted]. unfold enqueue, len. split; [|split; [|rewrite length_take; lia]];
    destruct (Z.ltb_spec (bound w - queued w) (Z.of_nat (length rs))) as [Hr|Hr]; cbn.
  1, 3: unfold sub; rewrite ?drop_0, ?Z.sub_0_r;
    set (r := if bound w - queued w <? 0 then 0 else bound w - queued w);
    assert (Z.to_nat r = Z.to_nat (bound w - queued w)) as <- by (subst r; case_match; lia);
    assert (0 <= r <= Z.of_nat (length rs)) by (subst r; case_match; lia); clearbody r.
  - done.
  - intros d ->. rewrite length_take, Nat.min_l, Z2Nat.id by lia. unfold uint64. by rewrite <- Zplus_mod.
  - rewrite take_ge by lia. by destruct w.
  - intros d ->. rewrite take_ge by lia. f_equal. lia.
Qed.

Lemma bound_enqueue w rs : bound (enqueue w rs) = bound w.
Proof. unfold enqueue. by repeat case_match; simplify_eq. Qed.

(** ** Tokens *)

Lemma tokenOf_inj n s n' s' : 0 <= s -> 0 <= s' -> tokenOf n s = tokenOf n' s' -> s = s'.
Proof.
  intros Hs Hs' E. unfold tokenOf in E. apply (inj (String.append "netinv-")) in E.
  apply (f_equal to_bytes) in E. rewrite !to_bytes_app in E. change (to_bytes "-") with [Byte.x2d] in E.
  assert (Hno : forall z, 0 <= z -> Byte.x2d ∉ to_bytes (Itoa z)).
  { intros z Hz Hin. destruct (Itoa_digits z Hz) as (_ & Hd & _). rewrite Forall_forall in Hd. by apply Hd in Hin. }
  apply (f_equal (fun b => cut_last b Byte.x2d)) in E. cbn [app] in E.
  rewrite !cut_last_app in E by auto. injection E as _ E.
  apply (f_equal of_bytes) in E. rewrite !of_to_bytes in E. by apply Itoa_inj.
Qed.

(** Batches numbered one after another from [i + 1]. *)
Definition numbered (i : Z) (bs : list batch) : Prop :=
  forall k b, bs !! k = Some b -> exists now, token b = tokenOf now (i + Z.of_nat k + 1).

Lemma numbered_snoc i bs b now :
  numbered i bs -> token b = tokenOf now (i + len bs + 1) -> numbered i (bs ++ [b]).
Proof.
  intros Hn Hb k b'. rewrite lookup_app_Some. intros [Hk|[Hk E]]; [by eapply Hn|].
  apply list_lookup_singleton_Some in E as [E ->]. exists now. rewrite Hb. unfold len. do 2 f_equal. lia.
Qed.

Lemma numbered_fresh bs k b :
  numbered 0 bs -> bs !! k = Some b -> token b ∉ map token (take k bs).
Proof.
  intros Hn Hb (b' & E & Hin)%list_elem_of_fmap. apply list_elem_of_lookup in Hin as (j & Hj).
  apply lookup_take_Some in Hj as [Hj Hlt]. destruct (Hn k b Hb) as [n1 E1], (Hn j b' Hj) as [n2 E2].
  rewrite E1, E2 in E. apply tokenOf_inj in E; unfold len in *; lia.
Qed.

(** ** Forming batches *)

Lemma formBatches_spec fuel now : forall k w,
  (length (pending w) <= fuel)%nat -> 0 <= seq w -> seq w + len (pending w) < 2 ^ 64 ->
  exists bs, formBatches fuel now k w = w <| seq := seq w + len bs |> <| retry := retry w ++ bs |> <| pending := [] |>
  /\ flat bs = pending w /\ numbered (seq w) bs /\ Forall (fun b => rows b <> []) bs.
Proof.
  induction fuel as [|fuel IH]; intros k w Hf Hs Hw; cbn [formBatches].
  { destruct (pending w) eqn:E; [|simpl in Hf; lia]. exists []. rewrite app_nil_r, Z.add_0_r. destruct w; simpl in *; by subst. }
  destruct (pending w) as [|x p] eqn:E.
  { exists []. rewrite app_nil_r, Z.add_0_r. destruct w; simpl in *; by subst. }
  rewrite <- E in *. assert (0 < length (pending w))%nat by (rewrite E; simpl; lia).
  set (n := Z.to_nat (Z.min (len (pending w)) batchRows)). assert (0 < n <= length (pending w))%nat by (unfold n, len, batchRows; lia). clearbody n.
  assert (uint64 (seq w + 1) = seq w + 1) as Hseq by (unfold uint64, len in *; apply Z.mod_small; lia).
  rewrite Hseq. set (b := mkBatch _ _).
  edestruct (IH (S k)) as (bs & Ef & Hfl & Hnum & Hne); [..|rewrite Ef].
  { cbn. rewrite length_drop. lia. } { cbn. lia. } { cbn. unfold len in *. rewrite length_drop. lia. }
  exists (b :: bs). split; [|split; [|split]].
  - cbn. rewrite len_cons, <- app_assoc. cbn [app]. f_equal. lia.
  - unfold flat in *. cbn [map concat]. rewrite Hfl. cbn. apply take_drop.
  - intros [|j] b' Hb'; cbn in Hb'.
    + injection Hb' as <-. exists (now k). cbn. f_equal. lia.
    + apply Hnum in Hb' as [n' ->]. exists n'. cbn. f_equal. lia.
  - constructor; [|done]. cbn. intros E'%(f_equal length). rewrite length_take in E'. cbn in E'. lia.
Qed.

(** ** Exactly once *)

Section exactly_once.
Context {T : Type} `{FlowTableLaws T}.
Implicit Types (w : Writer) (tb : T) (acc : list row) (done : list batch).

Definition sentOf (w : Writer) : nat := match flushing w with Some (_, s) => s | None => 0 end.

(** The batches the table has: those let go of, those the flush has sent, and
    [seen] of the next, whose answer was lost. *)
Definition landed (done : list batch) (seen : nat) (w : Writer) : list batch :=
  done ++ take (sentOf w + seen) (retry w).

Record inv (w : Writer) (tb : T) (acc : list row) (done : list batch) (seen : nat) : Prop := {
  inv_acc : acc = flat (done ++ retry w) ++ pending w;
  inv_held : held tb = flat (landed done seen w);
  inv_todo : match flushing w with Some (todo, s) => (s <= length (retry w))%nat /\ (todo = [] \/ todo = drop s (retry w)) | None => True end;
  inv_only t : knows tb t = true -> t ∈ map token (landed done seen w);
  inv_seen : (seen <= 1)%nat /\ (seen = 1%nat -> exists b, retry w !! sentOf w = Some b /\ knows tb (token b) = true);
  inv_numbered : numbered 0 (done ++ retry w) /\ seq w = len (done ++ retry w);
  inv_rows : Forall (fun b => rows b <> []) (done ++ retry w);
  inv_queued : queued w = len (flat (retry w)) + len (pending w) /\ queued w <= bound w;
  inv_written : written w = uint64 (len (flat (landed done 0 w)))
}.

Lemma rows_len (bs : list batch) : Forall (fun b => rows b <> []) bs -> len bs <= len (flat bs).
Proof.
  induction 1 as [|b bs Hb _ IH]; [done|]. unfold flat in *. cbn [map concat].
  rewrite len_cons, len_app. destruct (rows b); [done|]. rewrite len_cons. pose proof (len_nonneg l). lia.
Qed.

Lemma inv_lookup w tb acc done seen b :
  inv w tb acc done seen -> retry w !! sentOf w = Some b -> (seen = 0)%nat -> knows tb (token b) = false.
Proof.
  intros Hi Hb ->. apply not_true_is_false. intros Hk%(inv_only _ _ _ _ _ Hi).
  revert Hk. unfold landed. rewrite Nat.add_0_r.
  replace (done ++ take (sentOf w) (retry w)) with (take (length done + sentOf w) (done ++ retry w)).
  - apply numbered_fresh; [apply Hi|]. rewrite lookup_app_r by lia. by rewrite Nat.add_sub', Hb.
  - rewrite take_app_ge by lia. by rewrite Nat.add_sub'.
Qed.

(** An insert takes effect at most once. *)
Lemma insert_once w tb acc done seen b :
  inv w tb acc done seen -> retry w !! sentOf w = Some b ->
  let tb' := insert_ tb b in
  held tb' = flat (landed done 1 w) /\ knows tb' (token b) = true
  /\ (forall t, knows tb' t = true -> t ∈ map token (landed done 1 w)).
Proof.
  intros Hi Hb. cbn zeta. split; [|split; [apply knows_last|]].
  - destruct (inv_seen _ _ _ _ _ Hi) as [Hs Hs1]. destruct seen as [|[|]]; [| |lia].
    + rewrite insert_new by (by eapply inv_lookup). rewrite (inv_held _ _ _ _ _ Hi). unfold landed.
      rewrite Nat.add_0_r, Nat.add_1_r, (take_S_r _ _ _ Hb), app_assoc, (flat_app _ [b]), flat_one. done.
    + destruct Hs1 as (b' & Hb' & Hk); [done|]. rewrite Hb in Hb'. injection Hb' as <-.
      rewrite insert_known by done. apply Hi.
  - intros t [->|Hk]%knows_only; unfold landed; rewrite Nat.add_1_r, (take_S_r _ _ _ Hb), app_assoc, map_app, elem_of_app.
    + right. by apply list_elem_of_singleton.
    + apply (inv_only _ _ _ _ _ Hi) in Hk. destruct (inv_seen _ _ _ _ _ Hi) as [Hs _].
      destruct seen as [|[|]]; [| |lia]; unfold landed in Hk.
      * left. by rewrite Nat.add_0_r in Hk.
      * by rewrite Nat.add_1_r, (take_S_r _ _ _ Hb), app_assoc, map_app, elem_of_app in Hk.
Qed.

Lemma landed_same done seen w w' :
  retry w' = retry w -> flushing w' = flushing w -> landed done seen w' = landed done seen w.
Proof. intros E1 E2. unfold landed, sentOf. by rewrite E1, E2. Qed.

Lemma landed_form done seen w w' bs :
  flushing w = None -> (seen = 1%nat -> exists b, retry w !! 0%nat = Some b /\ True) -> (seen <= 1)%nat ->
  retry w' = retry w ++ bs -> sentOf w' = 0%nat -> landed done seen w' = landed done seen w.
Proof.
  intros E Hs Hle Hr E'. unfold landed. rewrite Hr, E'. unfold sentOf. rewrite E. cbn.
  destruct seen as [|[|]]; [done| |lia]. destruct Hs as (b & Hb & _); [done|].
  rewrite take_app_le; [done|]. apply lookup_lt_Some in Hb. lia.
Qed.

Lemma step_add w tb acc done seen rs :
  inv w tb acc done seen -> inv (enqueue w rs) tb (acc ++ admitted w (TurnAdd rs)) done seen.
Proof.
  intros []. destruct (enqueue_spec w rs) as (E & _ & Hb). pose proof (bound_enqueue w rs) as Eb.
  revert E Eb Hb. generalize (w_dropped (enqueue w rs)), (admitted w (TurnAdd rs)). intros d a E Eb Hb.
  split; rewrite ?Eb, ?E; cbn; try done.
  - by rewrite inv_acc0, app_assoc.
  - rewrite len_app. lia.
Qed.

Lemma step_form w tb acc done seen now :
  inv w tb acc done seen -> len acc < 2 ^ 64 -> flushing w = None ->
  inv (step w (TurnForm now)) tb acc done seen.
Proof.
  intros [] Hlen Ef. cbn [step]. rewrite Ef. destruct inv_numbered0 as [Hnum Hseq].
  pose proof (rows_len _ inv_rows0) as Hrl. rewrite inv_acc0, len_app in Hlen.
  pose proof (len_nonneg (done ++ retry w)).
  destruct (formBatches_spec (length (pending w)) now 0 w) as (bs & -> & Hfl & Hnb & Hne); [lia|lia|lia|].
  cbn. assert (forall k, (k <= seen)%nat -> forall w', retry w' = retry w ++ bs -> sentOf w' = 0%nat ->
    landed done k w' = landed done k w) as Hl.
  { intros k Hk w' Hr Hs'. eapply landed_form; eauto; [|lia]. intros ->. destruct inv_seen0 as [Hs1 Hs2].
    unfold sentOf in Hs2. rewrite Ef in Hs2. destruct Hs2 as (b & ? & _); [lia|]. eauto. }
  split; cbn; try done.
  - by rewrite inv_acc0, app_nil_r, app_assoc, (flat_app _ bs), Hfl.
  - rewrite inv_held0. f_equal. symmetry. by apply Hl.
  - split; [lia|]. by right.
  - intros t Ht%inv_only0. by rewrite (Hl seen) by (done || lia).
  - destruct inv_seen0 as [Hs1 Hs2]. split; [done|]. intros Hs. destruct (Hs2 Hs) as (b & Hb & Hk).
    exists b. split; [|done]. unfold sentOf in *. cbn. rewrite Ef in Hb. by apply lookup_app_l_Some.
  - rewrite app_assoc. split; [|rewrite len_app; lia]. intros k b [Hk|[Hk Hb]]%lookup_app_Some; [by apply Hnum|].
    destruct (Hnb _ _ Hb) as [n ->]. exists n. f_equal. unfold len in *. lia.
  - rewrite app_assoc. by apply Forall_app.
  - rewrite len_nil, flat_app, len_app, Hfl. unfold bound in *. cbn. lia.
  - rewrite inv_written0. do 3 f_equal. symmetry. apply Hl; [lia|done|done].
Qed.

Lemma step_send w tb acc done seen b todo s :
  inv w tb acc done seen -> flushing w = Some (b :: todo, s) ->
  inv (w <| written := uint64 (written w + len (rows b)) |> <| flushing := Some (todo, S s) |>) (insert_ tb b) acc done 0
  /\ inv (w <| w_failed := uint64 (w_failed w + 1) |> <| flushing := Some ([], s) |>) (insert_ tb b) acc done 1
  /\ inv (w <| w_failed := uint64 (w_failed w + 1) |> <| flushing := Some ([], s) |>) tb acc done seen.
Proof.
  intros Hi Ef. pose proof (inv_todo _ _ _ _ _ Hi) as Ht. rewrite Ef in Ht. destruct Ht as [Hs [?|Ht]]; [done|].
  assert (sentOf w = s) as Es by (unfold sentOf; by rewrite Ef).
  assert (retry w !! s = Some b /\ todo = drop (S s) (retry w)) as [Hb Htodo].
  { split; [by rewrite <- (Nat.add_0_r s), <- lookup_drop, <- Ht|].
    by rewrite <- Nat.add_1_r, <- drop_drop, <- Ht. }
  rewrite <- Es in Hb. destruct (insert_once _ _ _ _ _ _ Hi Hb) as (Hh & Hk & Ho).
  assert (landed done 1 w = landed done 0 w ++ [b]) as Hl.
  { unfold landed. by rewrite Nat.add_1_r, Nat.add_0_r, (take_S_r _ _ _ Hb), app_assoc. }
  apply lookup_lt_Some in Hb as Hlt. destruct Hi.
  split; [|split]; split; cbn; try done.
  - rewrite Hh. unfold landed, sentOf. cbn. rewrite Ef. do 3 f_equal. lia.
  - rewrite <- Es. split; [lia|]. right. by rewrite Es.
  - intros t Ht'%Ho. revert Ht'. unfold landed, sentOf. cbn. rewrite Ef. by rewrite Nat.add_1_r, Nat.add_0_r.
  - split; [lia|done].
  - rewrite inv_written0. unfold landed, sentOf in *. cbn. rewrite Ef in *. rewrite Nat.add_1_r in Hl.
    rewrite Nat.add_0_r in *. rewrite Hl, (flat_app _ [b]), len_app, flat_one.
    unfold uint64. by rewrite Zplus_mod_idemp_l.
  - rewrite Hh. unfold landed, sentOf. cbn. by rewrite Ef.
  - split; [lia|]. by left.
  - intros t Ht'%Ho. revert Ht'. unfold landed, sentOf. cbn. by rewrite Ef.
  - split; [lia|]. intros _. exists b. split; [|done]. rewrite <- Hb. unfold sentOf. cbn. by rewrite Ef.
  - unfold landed, sentOf in *. cbn. by rewrite Ef in *.
  - unfold landed, sentOf in *. cbn. by rewrite Ef in *.
  - split; [lia|]. by left.
  - unfold landed, sentOf in *. cbn. by rewrite Ef in *.
  - unfold sentOf in *. cbn. by rewrite Ef in *.
  - unfold landed, sentOf in *. cbn. by rewrite Ef in *.
Qed.

Lemma step_settle w tb acc done seen s :
  inv w tb acc done seen -> flushing w = Some ([], s) ->
  inv (step w TurnSettle) tb acc (done ++ take s (retry w)) seen.
Proof.
  intros [] Ef. cbn [step]. rewrite Ef. rewrite Ef in inv_todo0. destruct inv_todo0 as [Hs _].
  assert (sentOf w = s) as Es by (unfold sentOf; by rewrite Ef).
  assert ((done ++ take s (retry w)) ++ drop s (retry w) = done ++ retry w) as Ed by (by rewrite <- app_assoc, take_drop).
  assert (forall k w', retry w' = drop s (retry w) -> sentOf w' = 0%nat ->
    landed (done ++ take s (retry w)) k w' = landed done k w) as Hl.
  { intros k w' E1 E2. unfold landed. rewrite E1, E2, Es. cbn. rewrite <- app_assoc. f_equal.
    rewrite <- (take_drop s (take (s + k) (retry w))), take_take, skipn_firstn_comm. by rewrite Nat.min_l, Nat.add_sub' by lia. }
  split; cbn; rewrite ?Ed; try done.
  - rewrite inv_held0. f_equal. symmetry. by apply Hl.
  - intros t Ht%inv_only0. by rewrite Hl.
  - destruct inv_seen0 as [H1 H2]. split; [done|]. intros Hs1. destruct (H2 Hs1) as (b & Hb & Hk).
    exists b. split; [|done]. unfold sentOf. cbn. rewrite lookup_drop, Nat.add_0_r. by rewrite <- Es.
  - destruct inv_queued0 as [Hq Hle]. unfold bound in *. cbn.
    change (concat (map rows (take s (retry w)))) with (flat (take s (retry w))).
    rewrite <- (take_drop s (retry w)), flat_app, len_app in Hq at 1.
    pose proof (len_nonneg (flat (take s (retry w)))). lia.
  - rewrite inv_written0. do 3 f_equal. symmetry. by apply Hl.
Qed.

Lemma inv_step w tb acc done seen t :
  inv w tb acc done seen -> len acc < 2 ^ 64 ->
  exists done' seen', inv (step w t) (effect w t tb) (acc ++ admitted w t) done' seen'.
Proof.
  intros Hi Hlen. destruct t as [rs|now|res|].
  - exists done, seen. cbn. by apply step_add.
  - exists done, seen. cbn [admitted effect]. rewrite app_nil_r. destruct (flushing w) eqn:Ef.
    + cbn [step]. by rewrite Ef.
    + by apply step_form.
  - cbn [admitted]. rewrite app_nil_r. cbn [step effect]. destruct (flushing w) as [[[|b todo] s]|] eqn:Ef;
      try by (exists done, seen; destruct res).
    destruct (step_send _ _ _ _ _ _ _ _ Hi Ef) as (Ha & Hl & Hr). destruct res; eauto.
  - cbn [admitted effect]. rewrite app_nil_r. destruct (flushing w) as [[[|b todo] s]|] eqn:Ef.
    + exists (done ++ take s (retry w)), seen. by apply step_settle.
    + exists done, seen. cbn [step]. by rewrite Ef.
    + exists done, seen. cbn [step]. by rewrite Ef.
Qed.

Lemma run_inv ts : forall w tb acc done seen,
  inv w tb acc done seen -> len acc + len (accepted w ts) < 2 ^ 64 ->
  exists done' seen', inv (fst (run w tb ts)) (snd (run w tb ts)) (acc ++ accepted w ts) done' seen'.
Proof.
  induction ts as [|t ts IH]; intros w tb acc done seen Hi Hlen.
  { rewrite app_nil_r. eauto. }
  cbn [accepted run] in *. rewrite len_app in Hlen. pose proof (len_nonneg (accepted (step w t) ts)).
  pose proof (len_nonneg (admitted w t)).
  destruct (inv_step _ _ _ _ _ t Hi) as (done1 & seen1 & Hi1); [lia|].
  apply IH in Hi1 as (done2 & seen2 & Hi2); [|rewrite len_app; lia].
  exists done2, seen2. by rewrite <- app_assoc in Hi2.
Qed.
End exactly_once.

Lemma accepted_le ts : forall w, 0 <= len (accepted w ts) <= offered ts.
Proof.
  induction ts as [|t ts IH]; intros w; [done|]. cbn [accepted offered foldr]. rewrite len_app.
  specialize (IH (step w t)). pose proof (len_nonneg (admitted w t)).
  assert (len (admitted w t) <= match t with TurnAdd rs => len rs | _ => 0 end); [|unfold offered in *; lia].
  destruct t; cbn; try done. unfold len. rewrite length_take. lia.
Qed.

Lemma formBatches_dropped now fuel : forall k w, w_dropped (formBatches fuel now k w) = w_dropped w.
Proof. induction fuel as [|fuel IH]; intros k w; cbn [formBatches]; [done|]. case_match; [done|]. by rewrite IH. Qed.

Lemma step_dropped w t d :
  w_dropped w = uint64 d ->
  w_dropped (step w t) = uint64 (d + (match t with TurnAdd rs => len rs | _ => 0 end - len (admitted w t))).
Proof.
  intros E. destruct t as [rs|now|res|]; cbn [step admitted]; rewrite ?len_nil, ?Z.add_0_r.
  { by apply enqueue_spec. }
  all: repeat (case_match; simplify_eq; cbn; rewrite ?formBatches_dropped); by rewrite ?Z.sub_0_r, ?Z.add_0_r.
Qed.

Section theorems.
Context {T : Type} `{FlowTableLaws T}.

Lemma run_dropped ts : forall w (tb : T) d, w_dropped w = uint64 d ->
  w_dropped (fst (run w tb ts)) = uint64 (d + (offered ts - len (accepted w ts))).
Proof.
  induction ts as [|t ts IH]; intros w tb d E; cbn [run]; [cbn; by rewrite E, Z.add_0_r|].
  rewrite (IH _ _ _ (step_dropped _ t _ E)). cbn [accepted offered foldr]. rewrite len_app. f_equal.
  unfold offered. lia.
Qed.

Lemma exactly_once_of (empty : T) (max : Z) (ts : list turn) :
  held empty = [] -> (forall t, knows empty t = false) -> offered ts < 2 ^ 64 ->
  let '(w, tb) := run (newWriter max) empty ts in
  exists gone missing sure,
    accepted (newWriter max) ts = gone ++ flat (retry w) ++ pending w
    /\ accepted (newWriter max) ts = held tb ++ missing
    /\ gone `prefix_of` sure /\ sure `prefix_of` held tb /\ written w = len sure
    /\ queued w = len (flat (retry w) ++ pending w) /\ queued w <= bound w
    /\ w_dropped w = offered ts - len (accepted (newWriter max) ts).
Proof.
  intros He Hk Hlen. pose proof (accepted_le ts (newWriter max)) as Hacc.
  assert (inv (newWriter max) empty [] [] 0) as Hi.
  { split; cbn; try done.
    - intros t. by rewrite Hk.
    - split; [lia|done].
    - split; [|unfold bound, DefaultMaxQueued; cbn; case_match; lia]. done. }
  apply (run_inv ts) in Hi as (done & seen & Hi); [|cbn; rewrite len_nil; lia]. cbn [app] in Hi.
  pose proof (run_dropped ts (newWriter max) empty 0 eq_refl) as Hd.
  destruct (run _ _ _) as [w tb]. cbn [fst snd] in *. destruct Hi as [Ha Hh _ _ _ _ _ [Hq Hb] Hw].
  assert (landed done seen w = landed done 0 w ++ take seen (drop (sentOf w) (retry w))) as Hl.
  { unfold landed. rewrite <- app_assoc, Nat.add_0_r. f_equal.
    rewrite <- (take_drop (sentOf w) (take (sentOf w + seen) (retry w))), take_take, skipn_firstn_comm.
    by rewrite Nat.min_l, Nat.add_sub' by lia. }
  assert (flat done ++ flat (retry w) = flat (landed done seen w) ++ flat (drop (sentOf w + seen) (retry w))) as Hs.
  { rewrite <- !flat_app. unfold landed. by rewrite <- app_assoc, take_drop. }
  exists (flat done), (flat (drop (sentOf w + seen) (retry w)) ++ pending w), (flat (landed done 0 w)).
  assert (accepted (newWriter max) ts = held tb ++ flat (drop (sentOf w + seen) (retry w)) ++ pending w) as Hm.
  { by rewrite Ha, flat_app, Hs, Hh, <- app_assoc. }
  repeat split.
  - by rewrite Ha, flat_app, <- app_assoc.
  - done.
  - unfold landed. rewrite flat_app. apply prefix_app_r. done.
  - rewrite Hh, Hl, (flat_app (landed done 0 w)). apply prefix_app_r. done.
  - rewrite Hw. unfold uint64. apply Z.mod_small. rewrite Hm, Hh, Hl, flat_app, !len_app in Hacc.
    pose proof (len_nonneg (flat (landed done 0 w))). pose proof (len_nonneg (flat (take seen (drop (sentOf w) (retry w))))).
    pose proof (len_nonneg (flat (drop (sentOf w + seen) (retry w)))). pose proof (len_nonneg (pending w)). lia.
  - by rewrite len_app.
  - done.
  - rewrite Hd. unfold uint64. apply Z.mod_small. lia.
Qed.

Lemma run_app ts1 : forall ts2 w (tb : T), run w tb (ts1 ++ ts2) = run (fst (run w tb ts1)) (snd (run w tb ts1)) ts2.
Proof. induction ts1 as [|t ts1 IH]; intros ts2 w tb; [done|]. cbn. apply IH. Qed.

Lemma accepted_app ts1 : forall ts2 w (tb : T),
  accepted w (ts1 ++ ts2) = accepted w ts1 ++ accepted (fst (run w tb ts1)) ts2.
Proof.
  induction ts1 as [|t ts1 IH]; intros ts2 w tb; [done|]. cbn [app accepted run].
  by rewrite (IH ts2 _ (effect w t tb)), app_assoc.
Qed.

Lemma offered_app ts1 ts2 : offered (ts1 ++ ts2) = offered ts1 + offered ts2.
Proof. induction ts1 as [|t ts1 IH]; [done|]. cbn [app offered foldr]. unfold offered in *. lia. Qed.

Lemma formBatches_pending now fuel : forall k w, (length (pending w) <= fuel)%nat -> pending (formBatches fuel now k w) = [].
Proof.
  induction fuel as [|fuel IH]; intros k w Hf; cbn [formBatches]; [destruct (pending w); [done|simpl in Hf; lia]|].
  destruct (pending w) as [|x p] eqn:E; [done|]. apply IH. cbn -[take drop Z.to_nat]. rewrite length_drop.
  assert (0 < Z.to_nat (Z.min (len (x :: p)) batchRows))%nat by (rewrite len_cons; unfold batchRows; pose proof (len_nonneg p); lia).
  cbn in *. lia.
Qed.

Lemma formBatches_prefix now fuel : forall k w, retry w `prefix_of` retry (formBatches fuel now k w).
Proof.
  induction fuel as [|fuel IH]; intros k w; cbn [formBatches]; [done|]. case_match; [done|].
  etransitivity; [|apply IH]. by apply prefix_app_r.
Qed.

Lemma run_sends todo : forall w (tb : T) s, flushing w = Some (todo, s) ->
  let w' := fst (run w tb (replicate (length todo) (TurnSend Accepted))) in
  flushing w' = Some ([], (s + length todo)%nat) /\ retry w' = retry w /\ pending w' = pending w.
Proof.
  induction todo as [|b todo IH]; intros w tb s E; cbn [length replicate run].
  { cbn. by rewrite E, Nat.add_0_r. }
  destruct (IH (step w (TurnSend Accepted)) (effect w (TurnSend Accepted) tb) (S s)) as (E1 & E2 & E3).
  { cbn. by rewrite E. }
  cbn zeta. rewrite E1, E2, E3. cbn. rewrite E. cbn. split; [do 2 f_equal; lia|done].
Qed.

(** The turns of a flush whose inserts are all taken. *)
Definition goodFlush (now : nat -> Time) (w : Writer) : list turn :=
  TurnForm now :: replicate (length (retry (step w (TurnForm now)))) (TurnSend Accepted) ++ [TurnSettle].

Lemma goodFlush_empties now w (tb : T) :
  flushing w = None ->
  let w' := fst (run w tb (goodFlush now w)) in retry w' = [] /\ pending w' = [].
Proof.
  intros E. unfold goodFlush. cbn [run]. rewrite run_app.
  set (w1 := step w (TurnForm now)).
  assert (flushing w1 = Some (retry w1, 0%nat) /\ pending w1 = []) as [E1 Ep].
  { subst w1. cbn [step]. rewrite E. split; [done|]. by apply formBatches_pending. }
  destruct (run_sends (retry w1) w1 (effect w (TurnForm now) tb) 0 E1) as (F & R & P).
  revert F R P. generalize (run w1 (effect w (TurnForm now) tb) (replicate (length (retry w1)) (TurnSend Accepted))).
  intros [w2 tb2]. cbn [fst snd]. intros F R P. cbn [run fst step]. rewrite F. cbn. by rewrite R, P, drop_all.
Qed.
End theorems.

Section claims.
Context {T : Type} `{FlowTableLaws T}.

(** C6. However flows are added between the turns of the flushes, and whichever
    inserts ClickHouse takes, refuses, or takes without the answer coming back:
    the table holds the first of the accepted flows, each once and in order;
    what it does not hold is still queued, and what was reported written is in
    the table; the queue counts what it holds and stays within its bound; and
    every flow offered was accepted or is counted as dropped. *)
Theorem exactly_once (empty : T) (max : Z) (ts : list turn) :
  held empty = [] -> (forall t, knows empty t = false) -> offered ts < 2 ^ 64 ->
  let '(w, tb) := run (newWriter max) empty ts in
  exists gone missing sure,
    accepted (newWriter max) ts = gone ++ flat (retry w) ++ pending w
    /\ accepted (newWriter max) ts = held tb ++ missing
    /\ gone `prefix_of` sure /\ sure `prefix_of` held tb /\ written w = len sure
    /\ queued w = len (flat (retry w) ++ pending w) /\ queued w <= bound w
    /\ w_dropped w = offered ts - len (accepted (newWriter max) ts).
Proof. apply exactly_once_of. Qed.

(** Whatever happened before, the next flush whose inserts are all taken
    leaves every flow accepted so far in the table, once and in order, and the
    queue empty: no flow is given up on. *)
Theorem flush_lands (empty : T) (max : Z) (ts : list turn) (now : nat -> Time) :
  held empty = [] -> (forall t, knows empty t = false) -> offered ts < 2 ^ 64 ->
  let w := fst (run (newWriter max) empty ts) in
  flushing w = None ->
  let '(w', tb') := run (newWriter max) empty (ts ++ goodFlush now w) in
  held tb' = accepted (newWriter max) ts /\ queued w' = 0.
Proof.
  intros He Hk Hlen w E. set (g := goodFlush now w).
  assert (offered g = 0) as Hg.
  { subst g. unfold goodFlush. generalize (length (retry (step w (TurnForm now)))). intros n.
    change (offered (replicate n (TurnSend Accepted) ++ [TurnSettle]) = 0). by induction n. }
  assert (accepted w g = []) as Ha.
  { pose proof (accepted_le g w) as Hl. rewrite Hg in Hl. unfold len in Hl. apply length_zero_iff_nil. lia. }
  pose proof (goodFlush_empties now w (snd (run (newWriter max) empty ts)) E) as Hempty.
  pose proof (exactly_once_of empty max (ts ++ g) He Hk) as Hx.
  rewrite offered_app, Hg, Z.add_0_r in Hx. specialize (Hx Hlen).
  rewrite (accepted_app ts g _ empty) in Hx. fold w in Hx. rewrite Ha, app_nil_r in Hx.
  rewrite run_app in *. fold w in Hx |- *. subst g. destruct (run w _ _) as [w' tb'].
  cbn [fst] in Hempty. destruct Hempty as [Er Ep]. rewrite Er, Ep in Hx.
  destruct Hx as (gone & missing & sure & E1 & E2 & P1 & P2 & _ & Hq & _ & _).
  cbn in E1. rewrite app_nil_r in E1. split; [|by rewrite Hq].
  pose proof (transitivity P1 P2) as [k Hp]. rewrite <- E1 in Hp. rewrite E2 in Hp at 1.
  rewrite <- app_assoc in Hp. apply (f_equal length) in Hp. rewrite !length_app in Hp.
  rewrite E2. destruct missing; [by rewrite app_nil_r|]. simpl in Hp. lia.
Qed.

(** While ClickHouse refuses the batch at the head of the queue nothing moves:
    neither it nor anything behind it reaches the table or leaves the queue. *)
Lemma refused_blocks ts : forall w (tb : T),
  Forall (fun t => forall r, t = TurnSend r -> r = Refused) ts -> sentOf w = 0%nat ->
  snd (run w tb ts) = tb /\ retry w `prefix_of` retry (fst (run w tb ts)).
Proof.
  induction ts as [|t ts IH]; intros w tb Ht Hs; [done|]. apply Forall_cons in Ht as [Ht Hts]. cbn [run].
  assert (effect w t tb = tb /\ sentOf (step w t) = 0%nat /\ retry w `prefix_of` retry (step w t)) as (-> & Hs' & Hp).
  { revert Hs. unfold sentOf. destruct t as [rs|now|r|]; cbn [effect step].
    - destruct (enqueue_spec w rs) as [E _]. rewrite E. done.
    - destruct (flushing w) as [[todo s]|] eqn:Ef; [rewrite Ef; intros E; by repeat split|]. cbn. intros _. split; [done|]. split; [done|]. apply formBatches_prefix.
    - rewrite (Ht r eq_refl). destruct (flushing w) as [[[|b todo] s]|] eqn:Ef; cbn; rewrite ?Ef; intros E; by repeat split.
    - destruct (flushing w) as [[[|b todo] s]|] eqn:Ef; cbn; rewrite ?Ef; intros E; try by repeat split.
      by rewrite E, drop_0. }
  destruct (IH (step w t) tb Hts Hs') as [-> Hp2]. split; [done|]. by etransitivity.
Qed.
End claims.

(** What the exporter says of the autonomous systems stands; the databases fill
    in where it says nothing, and name the system the row ends up with. *)
Lemma toRow_as Format now e r db rw :
  toRow Format now e r (Some db) = Ret rw ->
  exists src dst, Lookup (Some db) (SrcAddr r) = Ret src /\ Lookup (Some db) (DstAddr r) = Ret dst
  /\ (SrcAS r <> 0 -> rw_SrcAS rw = SrcAS r) /\ (SrcAS r = 0 -> rw_SrcAS rw = i_ASN src)
  /\ (DstAS r <> 0 -> rw_DstAS rw = DstAS r) /\ (DstAS r = 0 -> rw_DstAS rw = i_ASN dst)
  /\ rw_SrcASName rw = ASName (Some db) (rw_SrcAS rw) /\ rw_DstASName rw = ASName (Some db) (rw_DstAS rw)
  /\ 1 <= rw_Sampling rw.
Proof.
  cbn [toRow]. destruct (Lookup (Some db) (SrcAddr r)) as [src| |]; [|done|done].
  cbn [mbind outcome_bind]. destruct (Lookup (Some db) (DstAddr r)) as [dst| |]; [|done|done].
  cbn [mbind outcome_bind]. intros [= <-]. exists src, dst. cbn.
  destruct (Z.eqb_spec (SrcAS r) 0), (Z.eqb_spec (DstAS r) 0); repeat split; try done; lia.
Qed.

(** ** Witnesses *)

(** A table that remembers every token. *)
Definition listTable : Type := list string * list row.
#[export] Instance FlowTable_list : FlowTable listTable := {
  held := snd;
  knows tb t := bool_decide (t ∈ tb.1);
  insert_ tb b := if decide (token b ∈ tb.1) then tb else (token b :: tb.1, tb.2 ++ rows b)
}.
#[export] Instance FlowTable_list_laws : FlowTableLaws listTable.
Proof.
  split; cbn.
  - intros tb b Hk%bool_decide_eq_true. by rewrite decide_True.
  - intros tb b Hk%bool_decide_eq_false. by rewrite decide_False.
  - intros tb b. apply bool_decide_eq_true. case_decide; [done|]. cbn. set_solver.
  - intros tb b t Ht%bool_decide_eq_true. rewrite bool_decide_eq_true. case_decide; [by right|]. cbn in Ht. set_solver.
Qed.

Definition demoRow (port : Z) : row :=
  mkRow "" "" "" "::" "netflow5" 1 0 0 "::" "::" port 53 17 0 0 0 0 "" "" "" "" 0 0 0 0 0 0 "::" "::" 0 0 "" "" "::" "::" 0 0 0 "" 0 0.

(** Two flows; the answer to their insert is lost while a third arrives; a
    fourth finds a queue of three full; the second flush ends it. *)
Definition demo_turns : list turn :=
  [TurnAdd [demoRow 1; demoRow 2]; TurnForm (fun _ => 1000); TurnSend Lost; TurnAdd [demoRow 3; demoRow 4]; TurnSettle].

Lemma exactly_once_witness :
  let '(w, tb) := run (T := listTable) (newWriter 3) ([], []) demo_turns in
  exists gone missing sure,
    accepted (newWriter 3) demo_turns = gone ++ flat (retry w) ++ pending w
    /\ accepted (newWriter 3) demo_turns = held tb ++ missing
    /\ gone `prefix_of` sure /\ sure `prefix_of` held tb /\ written w = len sure
    /\ queued w = len (flat (retry w) ++ pending w) /\ queued w <= bound w
    /\ w_dropped w = offered demo_turns - len (accepted (newWriter 3) demo_turns).
Proof. apply (exactly_once (T := listTable) ([], []) 3 demo_turns); [done|done|vm_compute; done]. Defined.

Lemma flush_lands_witness :
  let w := fst (run (T := listTable) (newWriter 3) ([], []) demo_turns) in
  let '(w', tb') := run (T := listTable) (newWriter 3) ([], []) (demo_turns ++ goodFlush (fun _ => 2000) w) in
  held tb' = accepted (newWriter 3) demo_turns /\ queued w' = 0.
Proof. apply (flush_lands (T := listTable) ([], []) 3 demo_turns (fun _ => 2000)); [done|done|vm_compute; done|vm_compute; done]. Defined.

Example demo_flush :
  let '(w, tb) := run (T := listTable) (newWriter 3) ([], []) demo_turns in
  let '(w', tb') := run w tb (goodFlush (fun _ => 2000) w) in
  held tb = [demoRow 1; demoRow 2] /\ written w = 0 /\ w_dropped w = 1 /\ w_failed w = 1
  /\ held tb' = [demoRow 1; demoRow 2; demoRow 3] /\ tb'.1 = ["netinv-2000-2"; "netinv-1000-1"] /\ written w' = 3.
Proof. vm_compute. done. Qed.
