(* ===== verification/FlowSQL.v ===== *)
(** Package flowstore (query.go): how a request of the flow explorer becomes
    SQL, and what is made of ClickHouse's answers.

    A request names columns and carries values. The names are looked up in
    [Fields]; the values travel beside the text, as parameters of it. The
    layouts of a time, [%q], and the case mappings are parameters. *)
From Stdlib Require Import ZArith Lia.
From stdpp Require Import base list gmap strings numbers sorting.
From S2P Require Import Prelude GoText GoSort Netip NetipParse FlowTypes Geo FlowWriter Float64.

(** ** Numbers and text *)

(** [strconv.ParseUint(s, 10, bits)]: the number, and whether there was no
    error; out of range the number is the largest. *)
Fixpoint parseDigits (max : Z) (b : bytes) (v : Z) : Z * bool :=
  match b with
  | [] => (v, true)
  | c :: b =>
      if negb (isDigit c) then (0, false) else
      let v := v * 10 + (bz c - 48) in
      if max <? v then (max, false) else parseDigits max b v
  end.
Definition ParseUint (s : string) (bits : Z) : Z * bool :=
  match to_bytes s with [] => (0, false) | b => parseDigits (2 ^ bits - 1) b 0 end.

Definition itoa (i : nat) : string := Itoa (Z.of_nat i).

Definition Contains_byte (s : string) (c : byte) : bool := bool_decide (c ∈ to_bytes s).

(** [strings.Cut] at a byte. *)
Definition Cut (s : string) (c : byte) : option (string * string) :=
  match index_byte (to_bytes s) c with
  | Some i => Some (of_bytes (take i (to_bytes s)), of_bytes (drop (S i) (to_bytes s)))
  | None => None
  end.

(** A value of a row of ClickHouse's JSON, numbers kept as they are written. *)
Inductive json : Type :=
  | Number (s : string)
  | Str (s : string)
  | Other (shown : string).

Definition parseUint (v : option json) : Z :=
  match v with
  | Some (Number n) => fst (ParseUint n 64)
  | Some (Str n) => fst (ParseUint n 64)
  | _ => 0
  end.

Definition Sprint (v : option json) : string :=
  match v with Some (Number s) | Some (Str s) | Some (Other s) => s | None => "<nil>" end.

(** A row of an answer, by column. *)
Abbreviation jrow := (gmap string json).

(** ** The vocabulary *)

Record Field : Type := mkField {
  fd_Name : string; fd_Label : string; fd_Kind : string; Rollup : bool; Grp : bool; col : string; any : list string; nm : string
}.

Definition zeroField : Field := mkField "" "" "" false false "" [] "".

Definition addrOut (c : string) : string := "replaceRegexpOne(toString(" +:+ c +:+ "), '^::ffff:', '')".

Definition Fields : list Field := [
  mkField "exporter" "Exporter" "exporter" true true "exporter" [] "";
  mkField "in_if" "Input interface" "iface" true true "in_if" [] "";
  mkField "out_if" "Output interface" "iface" true true "out_if" [] "";
  mkField "src_addr" "Source address" "addr" true true "src_addr" [] "";
  mkField "dst_addr" "Destination address" "addr" true true "dst_addr" [] "";
  mkField "src_port" "Source port" "port" true true "src_port" [] "";
  mkField "dst_port" "Destination port" "port" true true "dst_port" [] "";
  mkField "proto" "Protocol" "proto" true true "proto" [] "";
  mkField "dscp" "DSCP" "dscp" true true "bitShiftRight(tos, 2)" [] "";
  mkField "src_as" "Source AS" "as" true true "src_as" [] "src_as_name";
  mkField "dst_as" "Destination AS" "as" true true "dst_as" [] "dst_as_name";
  mkField "src_country" "Source country" "country" true true "src_country" [] "";
  mkField "dst_country" "Destination country" "country" true true "dst_country" [] "";
  mkField "src_vlan" "Source VLAN" "number" true true "src_vlan" [] "";
  mkField "dst_vlan" "Destination VLAN" "number" true true "dst_vlan" [] "";
  mkField "direction" "Direction" "direction" true true "direction" [] "";
  mkField "app_id" "Application ID" "text" true true "app_id" [] "";
  mkField "app_name" "Application" "text" true true "app_name" [] "";
  mkField "type" "Export format" "text" true true "type" [] "";
  mkField "tcp_flags" "TCP flags" "flags" false true "tcp_flags" [] "";
  mkField "src_mac" "Source MAC" "mac" false true "src_mac" [] "";
  mkField "dst_mac" "Destination MAC" "mac" false true "dst_mac" [] "";
  mkField "next_hop" "Next hop" "addr" false true "next_hop" [] "";
  mkField "icmp_type" "ICMP type/code" "number" false true "icmp_type" [] "";
  mkField "nat_src_addr" "NAT source address" "addr" false true "nat_src_addr" [] "";
  mkField "nat_dst_addr" "NAT destination address" "addr" false true "nat_dst_addr" [] "";
  mkField "nat_src_port" "NAT source port" "port" false true "nat_src_port" [] "";
  mkField "nat_dst_port" "NAT destination port" "port" false true "nat_dst_port" [] "";
  mkField "fw_event" "Firewall event" "number" false true "fw_event" [] "";
  mkField "user" "User" "text" false true "user" [] "";
  mkField "addr" "Address (either end)" "addr" true false "" ["src_addr"; "dst_addr"] "";
  mkField "port" "Port (either end)" "port" true false "" ["src_port"; "dst_port"] "";
  mkField "as" "AS (either end)" "as" true false "" ["src_as"; "dst_as"] "";
  mkField "country" "Country (either end)" "country" true false "" ["src_country"; "dst_country"] "";
  mkField "vlan" "VLAN (either end)" "number" true false "" ["src_vlan"; "dst_vlan"] ""].

Definition fieldByName : gmap string Field := foldl (fun m f => <[fd_Name f := f]> m) ∅ Fields.

Definition LookupField (name : string) : option Field := fieldByName !! name.

(** Reading the map where the name may be missing gives the zero field. *)
Definition field (name : string) : Field := default zeroField (fieldByName !! name).

(** ** Requests *)

Record Filter : Type := mkFilter { fl_Field : string; Negate : bool; Values : list string }.

Record Query : Type := mkQuery {
  From_ : Time; To_ : Time; Filters : list Filter; GroupBy : list string; Metric : string; q_Limit : Z;
  Exporters : option (list Addr); RawCutoff : Time
}.
#[export] Instance eta_Query : Eta Query := fun q =>
  mkQuery (From_ q) (To_ q) (Filters q) (GroupBy q) (Metric q) (q_Limit q) (Exporters q) (RawCutoff q).

Inductive Table : Type := TableRaw | TableRollup.
#[export] Instance Table_eq_dec : EqDecision Table.
Proof. solve_decision. Defined.
Definition tableName (t : Table) : string := match t with TableRaw => "flows" | TableRollup => "flows_1h" end.

(** A refusal, with its message. *)
Abbreviation answer A := (A + string)%type.
Abbreviation bad := (@inr _ string).

Definition MaxGroupBy : Z := 4.
Definition MaxFilters : Z := 20.
Definition MaxValues : Z := 100.
Definition MaxLimit : Z := 100.

Record built : Type := mkBuilt {
  table : Table; tcol : string; where_ : string; keys : list string; gkeys : list string;
  params : gmap string string; metric : string; count_ : string
}.
#[export] Instance eta_built : Eta built := fun b =>
  mkBuilt (table b) (tcol b) (where_ b) (keys b) (gkeys b) (params b) (metric b) (count_ b).

Definition As16 (a : Addr) : Z := match a with V4 z => 65535 * 2 ^ 32 + z | V6 z _ => z | AddrZero => 0 end.

(** [netip.Prefix.Masked]. *)
Definition Masked (p : Prefix) : Prefix := default (mkPrefix AddrZero (-1)) (Addr_Prefix (pip p) (pbits p)).

(** The loop that sets the bits of the host part, from the one at [bits]. *)
Definition setBits (bits lo : Z) : Z :=
  foldl (fun hi i => Z.lor hi (Z.shiftl 1 (127 - (bits + Z.of_nat i)))) lo (List.seq 0 (Z.to_nat (128 - bits))).

Definition prefixRange (p : Prefix) : string * string :=
  let a := pip p in
  let bits := if Is4 a then pbits p + 96 else pbits p in
  let lo := As16 a in
  (Addr_String (V6 lo ""), Addr_String (V6 (setBits bits lo) "")).

Definition groupExprOf (outExpr : Field -> string) (f : Field) : string :=
  if bool_decide (fd_Kind f = "as") then col f else outExpr f.

Definition outExpr (f : Field) : string :=
  if bool_decide (fd_Kind f ∈ ["addr"; "exporter"]) then addrOut (col f)
  else if bool_decide (fd_Kind f = "mac") then "MACNumToString(" +:+ col f +:+ ")"
  else if bool_decide (fd_Kind f = "iface") then "concat(" +:+ addrOut "exporter" +:+ ", '|', toString(" +:+ col f +:+ "))"
  else if bool_decide (fd_Kind f = "as") && negb (bool_decide (nm f = "")) then
    "concat(toString(" +:+ col f +:+ "), if(any(" +:+ nm f +:+ ") = '', '', concat(' ', any(" +:+ nm f +:+ "))))"
  else "toString(" +:+ col f +:+ ")".

Definition groupExpr : Field -> string := groupExprOf outExpr.

Section texts.
Context (FormatSec FormatMilli RFC3339 : Time -> string) (Quote ToUpper ToLower : string -> string).

Definition chooseTable (q : Query) : answer Table :=
  let note need n := let f := field n in if negb (Rollup f) then fd_Label f else need in
  let needRaw := foldl note "" (GroupBy q) in
  let needRaw := foldl (fun need fl => note need (fl_Field fl)) needRaw (Filters q) in
  if negb (IsZero (RawCutoff q)) && (From_ q <? RawCutoff q) then
    if negb (bool_decide (needRaw = "")) then
      bad (needRaw +:+ " is kept only in raw flows, which start at " +:+ RFC3339 (RawCutoff q) +:+ "; narrow the time range or drop it")
    else inl TableRollup
  else if bool_decide (needRaw = "") && (7 * 24 * Hour <? time_Sub (To_ q) (From_ q)) then inl TableRollup
  else inl TableRaw.

Definition protoNumber (f : Field) (v : string) : string :=
  if negb (bool_decide (fd_Kind f = "proto")) then v else
  let l := ToLower v in
  if bool_decide (l = "icmp") then "1" else if bool_decide (l = "tcp") then "6" else if bool_decide (l = "udp") then "17"
  else if bool_decide (l = "gre") then "47" else if bool_decide (l = "esp") then "50"
  else if bool_decide (l ∈ ["icmpv6"; "ipv6-icmp"]) then "58" else if bool_decide (l = "ospf") then "89"
  else if bool_decide (l = "sctp") then "132" else v.

Definition bar : byte := zb 124.

(** [cond]: the condition, and the parameters it brings. *)
Definition number (f : Field) (col k v : string) : answer (string * list (string * string)) :=
  match ParseUint (protoNumber f v) 64 with
  | (n, true) => inl (col +:+ " = {" +:+ k +:+ ":UInt64}", [(k, Itoa n)])
  | _ => bad (fd_Label f +:+ ": " +:+ Quote v +:+ " is not a number")
  end.

Definition cond (f : Field) (col k v : string) : answer (string * list (string * string)) :=
  let kind := fd_Kind f in
  if bool_decide (kind ∈ ["addr"; "exporter"]) then
    let refused := bad (fd_Label f +:+ ": " +:+ Quote v +:+ " is not an address or prefix") in
    if Contains_byte v slash then
      match ParsePrefix v with
      | None => refused
      | Some p =>
          let '(lo, hi) := prefixRange (Masked p) in
          inl (col +:+ " BETWEEN {" +:+ k +:+ "lo:IPv6} AND {" +:+ k +:+ "hi:IPv6}", [(k +:+ "lo", lo); (k +:+ "hi", hi)])
      end
    else match ParseAddr v with
         | None => refused
         | Some a => inl (col +:+ " = {" +:+ k +:+ ":IPv6}", [(k, chAddr a)])
         end
  else if bool_decide (kind = "mac") then inl (col +:+ " = MACStringToNum({" +:+ k +:+ ":String})", [(k, v)])
  else if bool_decide (kind = "iface") then
    match Cut v bar with
    | Some (addr, idx) =>
        match ParseAddr addr, ParseUint idx 32 with
        | Some a, (n, true) =>
            inl ("(exporter = {" +:+ k +:+ "e:IPv6} AND " +:+ col +:+ " = {" +:+ k +:+ ":UInt64})", [(k +:+ "e", chAddr a); (k, Itoa n)])
        | _, _ => bad (fd_Label f +:+ ": " +:+ Quote v +:+ " is not address|ifIndex")
        end
    | None =>
        match ParseUint v 32 with
        | (n, true) => inl (col +:+ " = {" +:+ k +:+ ":UInt64}", [(k, Itoa n)])
        | _ => bad (fd_Label f +:+ ": " +:+ Quote v +:+ " is not an ifIndex")
        end
    end
  else if bool_decide (kind ∈ ["text"; "country"]) then
    let v := if bool_decide (kind = "country") then ToUpper v else v in
    inl (col +:+ " = {" +:+ k +:+ ":String}", [(k, v)])
  else if bool_decide (kind = "direction") then
    let l := ToLower v in
    if bool_decide (l ∈ ["ingress"; "1"]) then number f col k "1"
    else if bool_decide (l ∈ ["egress"; "2"]) then number f col k "2"
    else if bool_decide (l ∈ ["unknown"; "0"]) then number f col k "0"
    else bad "direction must be ingress, egress or unknown"
  else number f col k v.

(** The conditions of one value, one for each column. *)
Fixpoint columns (f : Field) (several : bool) (k : string) (ci : nat) (cols : list string) (v : string)
    : answer (list string * list (string * string)) :=
  match cols with
  | [] => inl ([], [])
  | c :: cols =>
      let kk := if several then k +:+ "_" +:+ itoa ci else k in
      match cond f c kk v with
      | inr e => bad e
      | inl (text, ps) =>
          match columns f several k (S ci) cols v with
          | inr e => bad e
          | inl (texts, pss) => inl (text :: texts, ps ++ pss)
          end
      end
  end.

Definition filterKey (i j : nat) : string := "f" +:+ itoa i +:+ "_" +:+ itoa j.

Fixpoint values (f : Field) (cols : list string) (i j : nat) (vs : list string) : answer (list string * list (string * string)) :=
  match vs with
  | [] => inl ([], [])
  | v :: vs =>
      match columns f (1 <? len cols) (filterKey i j) 0%nat cols (TrimSpace v) with
      | inr e => bad e
      | inl (texts, ps) =>
          match values f cols i (S j) vs with
          | inr e => bad e
          | inl (textss, pss) => inl (texts ++ textss, ps ++ pss)
          end
      end
  end.

Definition columnsOf (f : Field) : list string := match any f with [] => [col f] | cols => cols end.

Definition filter_ (i : nat) (fl : Filter) : answer (string * list (string * string)) :=
  match fieldByName !! fl_Field fl with
  | None => bad ("cannot filter by " +:+ Quote (fl_Field fl))
  | Some f =>
      if bool_decide (Values fl = []) then bad ("filter on " +:+ fd_Label f +:+ " has no value") else
      if MaxValues <? len (Values fl) then bad ("at most " +:+ Itoa MaxValues +:+ " values per filter") else
      match values f (columnsOf f) i 0%nat (Values fl) with
      | inr e => bad e
      | inl (ors, ps) =>
          let expr := "(" +:+ Join ors " OR " +:+ ")" in
          inl (if Negate fl then "NOT " +:+ expr else expr, ps)
      end
  end.

Fixpoint filters (i : nat) (fls : list Filter) : answer (list string * list (string * string)) :=
  match fls with
  | [] => inl ([], [])
  | fl :: fls =>
      match filter_ i fl with
      | inr e => bad e
      | inl (c, ps) =>
          match filters (S i) fls with
          | inr e => bad e
          | inl (cs, pss) => inl (c :: cs, ps ++ pss)
          end
      end
  end.

(** The window: its condition and its bounds. *)
Definition timeCond (t : Table) (q : Query) : string * list (string * string) :=
  match t with
  | TableRollup => ("hour >= toStartOfHour({from:DateTime('UTC')}) AND hour < {to:DateTime('UTC')}",
      [("from", FormatSec (From_ q)); ("to", FormatSec (To_ q))])
  | TableRaw => ("received >= {from:DateTime64(3, 'UTC')} AND received < {to:DateTime64(3, 'UTC')}",
      [("from", FormatMilli (From_ q)); ("to", FormatMilli (To_ q))])
  end.

Definition exporterKey (i : nat) : string := "e" +:+ itoa i.

Definition exporterCond (exporters : option (list Addr)) : list string * list (string * string) :=
  match exporters with
  | None => ([], [])
  | Some [] => (["0"], [])
  | Some addrs =>
      (["exporter IN (" +:+ Join (imap (fun i _ => "{" +:+ exporterKey i +:+ ":IPv6}") addrs) ", " +:+ ")"],
       imap (fun i a => (exporterKey i, chAddr a)) addrs)
  end.

Definition refusedGroup (n : string) : bool := match fieldByName !! n with Some f => negb (Grp f) | None => true end.

(** Writing parameters one after another: the last of a key stays. *)
Definition setParams (m : gmap string string) (ps : list (string * string)) : gmap string string :=
  foldl (fun m kv => <[kv.1 := kv.2]> m) m ps.

Definition compile (q : Query) : answer built :=
  if negb (From_ q <? To_ q) then bad "'to' must be after 'from'" else
  if MaxGroupBy <? len (GroupBy q) then bad ("at most " +:+ Itoa MaxGroupBy +:+ " group-by fields") else
  if MaxFilters <? len (Filters q) then bad ("at most " +:+ Itoa MaxFilters +:+ " filters") else
  match List.find refusedGroup (GroupBy q) with
  | Some n => bad ("cannot group by " +:+ Quote n)
  | None =>
      match chooseTable q with
      | inr e => bad e
      | inl t =>
          let '(tcol, count) := match t with TableRollup => ("hour", "sum(flows)") | TableRaw => ("received", "count()") end in
          match (if bool_decide (Metric q ∈ [""; "bytes"]) then Some "sum(bytes)"
                 else if bool_decide (Metric q = "packets") then Some "sum(packets)"
                 else if bool_decide (Metric q = "flows") then Some count else None) with
          | None => bad "metric must be bytes, packets or flows"
          | Some metric =>
              let '(tc, tps) := timeCond t q in
              let '(ecs, eps) := exporterCond (Exporters q) in
              match filters 0%nat (Filters q) with
              | inr e => bad e
              | inl (fcs, fps) =>
                  inl (mkBuilt t tcol (Join (tc :: ecs ++ fcs) " AND ")
                    (imap (fun i n => outExpr (field n) +:+ " AS k" +:+ itoa i) (GroupBy q))
                    (imap (fun i n => groupExpr (field n) +:+ " AS g" +:+ itoa i) (GroupBy q))
                    (setParams ∅ (tps ++ eps ++ fps)) metric count)
              end
          end
      end
  end.

(** ** Running them *)

Definition Database : string := "netinv_flow".

Definition steps : list Duration := [Minute; 5 * Minute; 15 * Minute; Hour; 3 * Hour; 6 * Hour; 24 * Hour].

Definition Step (t : Table) (from to : Time) : Duration :=
  let want := Z.quot (time_Sub to from) 150 in
  default (24 * Hour) (List.find (fun s => negb (bool_decide (t = TableRollup) && (s <? Hour)) && (want <=? s)) steps).

Record Group : Type := mkGroup { g_Keys : list string; g_Bytes : Z; g_Packets : Z; g_Flows : Z }.
Record Series : Type := mkSeries { sr_Step : Z; Times : list Z; Total : list float64; Lines : list (list float64) }.
#[export] Instance eta_Series : Eta Series := fun s => mkSeries (sr_Step s) (Times s) (Total s) (Lines s).
Record Result : Type := mkResult { res_Table : Table; Groups : list Group; res_Total : Group; res_Series : Series }.

Inductive fault : Type := Refused (msg : string) | StoreFailed (call : nat).

(** What ClickHouse answers the [k]th statement. *)
Context (Select : nat -> string -> gmap string string -> option (list jrow)).

Definition select (k : nat) (sql : string) (ps : gmap string string) : list jrow + fault :=
  match Select k sql ps with Some rows => inl rows | None => inr (StoreFailed k) end.

Definition groupOf (ks : list string) (r : jrow) : Group :=
  mkGroup ks (parseUint (r !! "m_bytes")) (parseUint (r !! "m_packets")) (parseUint (r !! "m_flows")).

Definition orderAlias (metric : string) : string :=
  if bool_decide (metric = "packets") then "m_packets" else if bool_decide (metric = "flows") then "m_flows" else "m_bytes".

Definition rate (v : Z) (metric : string) (step : Duration) : float64 :=
  let per := fdiv (float_of v) (Seconds_float step) in
  if bool_decide (metric ∈ [""; "bytes"]) then fmul per (float_of 8) else per.

(** [strings.LastIndex]. *)
Fixpoint LastIndex (s pat : bytes) (i : nat) : option nat :=
  match s with
  | [] => if decide (pat = []) then Some i else None
  | c :: s' =>
      match LastIndex s' pat (S i) with
      | Some j => Some j
      | None => if decide (take (length pat) s = pat) then Some i else None
      end
  end.

Definition as_ : bytes := to_bytes " AS ".

(** [k[:strings.LastIndex(k, " AS ")]]. *)
Definition withoutAlias (k : string) : outcome string :=
  b ← slice (to_bytes k) 0 (match LastIndex (to_bytes k) as_ 0 with Some i => Z.of_nat i | None => -1 end);
  Ret (of_bytes b).

Fixpoint withoutAliases (ks : list string) : outcome (list string) :=
  match ks with
  | [] => Ret []
  | k :: ks => e ← withoutAlias k; es ← withoutAliases ks; Ret (e :: es)
  end.

Definition tupleOf (ks : list string) : outcome string := es ← withoutAliases ks; Ret (Join es ", ").

Definition zeroByte : string := String.String Ascii.zero "".

Definition gAlias (i : nat) : string := "g" +:+ itoa i.
Definition kAlias (i : nat) : string := "k" +:+ itoa i.
Definition gAliases (n : nat) : list string := map gAlias (List.seq 0 n).
Definition kAliases (n : nat) : list string := map kAlias (List.seq 0 n).

Definition keyOf (n : nat) (r : jrow) : string := Join (map (fun a => Sprint (r !! a)) (gAliases n)) zeroByte.

(** The rows of the ranking: the groups, and where each is by its key. *)
Fixpoint topGroups (n : nat) (rows : list jrow) (groups : list Group) (idx : gmap string nat) : list Group * gmap string nat :=
  match rows with
  | [] => (groups, idx)
  | r :: rows =>
      topGroups n rows (groups ++ [groupOf (map (fun a => Sprint (r !! a)) (kAliases n)) r])
        (<[keyOf n r := length groups]> idx)
  end.

(** The rows of the totals: the axis, the total at each, and where each time is. *)
Fixpoint totals (metric : string) (step : Duration) (rows : list jrow) (s : Series) (idx : gmap Z nat) : Series * gmap Z nat :=
  match rows with
  | [] => (s, idx)
  | r :: rows =>
      let t := int64 (parseUint (r !! "t")) in
      totals metric step rows
        (s <| Times := Times s ++ [t] |> <| Total := Total s ++ [rate (parseUint (r !! "m_v")) metric step] |>)
        (<[t := length (Times s)]> idx)
  end.

(** [lines[gi][ti] = x]. *)
Definition setLine (lines : list (list float64)) (gi ti : nat) (x : float64) : outcome (list (list float64)) :=
  line ← index lines (Z.of_nat gi);
  _ ← index line (Z.of_nat ti);
  Ret (<[gi := <[ti := x]> line]> lines).

Fixpoint fillLines (n : nat) (metric : string) (step : Duration) (gidx : gmap string nat) (tidx : gmap Z nat)
    (rows : list jrow) (lines : list (list float64)) : outcome (list (list float64)) :=
  match rows with
  | [] => Ret lines
  | r :: rows =>
      lines ← match gidx !! keyOf n r, tidx !! int64 (parseUint (r !! "t")) with
              | Some gi, Some ti => setLine lines gi ti (rate (parseUint (r !! "m_v")) metric step)
              | _, _ => Ret lines
              end;
      fillLines n metric step gidx tidx rows lines
  end.

Definition totalSQL (b : built) : string :=
  "SELECT sum(bytes) AS m_bytes, sum(packets) AS m_packets, " +:+ count_ b +:+ " AS m_flows FROM " +:+
  Database +:+ "." +:+ tableName (table b) +:+ " WHERE " +:+ where_ b.

Definition topSQL (b : built) (metric : string) (limit : Z) : string :=
  "SELECT " +:+ Join (gkeys b) ", " +:+ ", " +:+ Join (keys b) ", " +:+ ", sum(bytes) AS m_bytes, sum(packets) AS m_packets, " +:+
  count_ b +:+ " AS m_flows FROM " +:+ Database +:+ "." +:+ tableName (table b) +:+ " WHERE " +:+ where_ b +:+ " GROUP BY " +:+
  Join (gAliases (length (keys b))) ", " +:+ " ORDER BY " +:+ orderAlias metric +:+ " DESC LIMIT " +:+ Itoa limit.

Definition bucketSQL (b : built) (step : Z) : string :=
  "toUnixTimestamp(toStartOfInterval(" +:+ tcol b +:+ ", INTERVAL " +:+ Itoa step +:+ " SECOND)) AS t".

Definition timesSQL (b : built) (step : Z) : string :=
  "SELECT " +:+ bucketSQL b step +:+ ", " +:+ metric b +:+ " AS m_v FROM " +:+ Database +:+ "." +:+ tableName (table b) +:+
  " WHERE " +:+ where_ b +:+ " GROUP BY t ORDER BY t".

Definition linesSQL (b : built) (step : Z) (top tuple : string) : string :=
  let al := Join (gAliases (length (keys b))) ", " in
  "SELECT " +:+ bucketSQL b step +:+ ", " +:+ Join (gkeys b) ", " +:+ ", " +:+ metric b +:+ " AS m_v FROM " +:+ Database +:+ "." +:+
  tableName (table b) +:+ " WHERE " +:+ where_ b +:+ " AND (" +:+ tuple +:+ ") IN (SELECT " +:+ al +:+ " FROM (" +:+ top +:+ ")) GROUP BY t, " +:+ al.

Definition Explore (q : Query) : outcome (Result + fault) :=
  match compile q with
  | inr msg => Ret (inr (Refused msg))
  | inl b =>
      let limit := if (q_Limit q <=? 0) || (MaxLimit <? q_Limit q) then 10 else q_Limit q in
      match select 0 (totalSQL b) (params b) with
      | inr e => Ret (inr e)
      | inl tot =>
          let total := match tot with [r] => groupOf [] r | _ => mkGroup [] 0 0 0 end in
          let n := length (keys b) in
          let top := topSQL b (Metric q) limit in
          match (if bool_decide (keys b = []) then inl [] else select 1 top (params b)) with
          | inr e => Ret (inr e)
          | inl rows =>
              let '(groups, gidx) := topGroups n rows [] ∅ in
              let step := Step (table b) (From_ q) (To_ q) in
              let stepS := Z.quot step Second in
              match select 2 (timesSQL b stepS) (params b) with
              | inr e => Ret (inr e)
              | inl trows =>
                  let '(series, tidx) := totals (Metric q) step trows (mkSeries stepS [] [] []) ∅ in
                  if bool_decide (groups = []) then Ret (inl (mkResult (table b) groups total series)) else
                  let blank := replicate (length groups) (replicate (length (Times series)) (float_of 0)) in
                  tuple ← tupleOf (gkeys b);
                  match select 3 (linesSQL b stepS top tuple) (params b) with
                  | inr e => Ret (inr e)
                  | inl srows =>
                      lines ← fillLines n (Metric q) step gidx tidx srows blank;
                      Ret (inl (mkResult (table b) groups total (series <| Lines := lines |>)))
                  end
              end
          end
      end
  end.

Definition recordCols : list string := [
  "toUnixTimestamp64Milli(received) AS received"; "toUnixTimestamp64Milli(time_start) AS time_start";
  "toUnixTimestamp64Milli(time_end) AS time_end"; addrOut "exporter" +:+ " AS exporter"; "type"; "sampling"; "in_if"; "out_if";
  addrOut "src_addr" +:+ " AS src_addr"; addrOut "dst_addr" +:+ " AS dst_addr"; "src_port"; "dst_port"; "proto";
  "bitShiftRight(tos, 2) AS dscp"; "tcp_flags"; "src_as"; "dst_as"; "src_as_name"; "dst_as_name"; "src_country"; "dst_country";
  "MACNumToString(src_mac) AS src_mac"; "MACNumToString(dst_mac) AS dst_mac"; "src_vlan"; "dst_vlan";
  addrOut "next_hop" +:+ " AS next_hop"; "direction"; "icmp_type"; "app_id"; "app_name";
  addrOut "nat_src_addr" +:+ " AS nat_src_addr"; addrOut "nat_dst_addr" +:+ " AS nat_dst_addr"; "nat_src_port"; "nat_dst_port";
  "fw_event"; "user"; "bytes"; "packets"].

(** The query of [Records] as it is compiled: an hour long, so that the raw
    table is chosen; [Records] sets the end again in the parameters. *)
Definition recordsQuery (q : Query) : Query :=
  let q := q <| GroupBy := [] |> in
  let q := if negb (IsZero (RawCutoff q)) && (From_ q <? RawCutoff q) then q <| From_ := RawCutoff q |> else q in
  q <| RawCutoff := zeroTime |>.

Definition recordsSQL (b : built) (order : string) (limit : Z) : string :=
  "SELECT " +:+ Join recordCols ", " +:+ " FROM " +:+ Database +:+ ".flows WHERE " +:+ where_ b +:+ " ORDER BY " +:+ order +:+
  " LIMIT " +:+ Itoa limit.

Definition Records (q : Query) (OrderBy : string) : list jrow + fault :=
  if negb (IsZero (RawCutoff q)) && (To_ q <? RawCutoff q) then
    inr (Refused ("individual flows are kept for the raw retention only; nothing before " +:+ RFC3339 (RawCutoff q)))
  else
    let qq := recordsQuery q in
    match compile (qq <| To_ := time_Add (From_ qq) Hour |>) with
    | inr msg => inr (Refused msg)
    | inl b =>
        let b := b <| params := <["to" := FormatMilli (To_ qq)]> (params b) |> in
        let limit := if (q_Limit q <=? 0) || (1000 <? q_Limit q) then 200 else q_Limit q in
        let order := if bool_decide (OrderBy = "bytes") then "bytes DESC" else "received DESC" in
        select 0 (recordsSQL b order limit) (params b)
    end.

Record Status : Type := mkStatus {
  st_Rows : Z; BytesOnDisk : Z; Oldest : option Time; Newest : option Time; RollupRows : Z; Written : Z; st_Dropped : Z;
  st_Queued : Z; GeoASN : Z; GeoCountry : Z; ReportedAt : option Time
}.
#[export] Instance eta_Status : Eta Status := fun s =>
  mkStatus (st_Rows s) (BytesOnDisk s) (Oldest s) (Newest s) (RollupRows s) (Written s) (st_Dropped s) (st_Queued s) (GeoASN s)
    (GeoCountry s) (ReportedAt s).

Definition sized (s : Status) (p : jrow) : Status :=
  let s := match p !! "table" with
           | Some (Str "flows") => s <| st_Rows := parseUint (p !! "rows") |>
           | Some (Str "flows_1h") => s <| RollupRows := parseUint (p !! "rows") |>
           | _ => s
           end in
  s <| BytesOnDisk := uint64 (BytesOnDisk s + parseUint (p !! "bytes")) |>.

Definition unixOf (v : option json) : Time := time_Unix (int64 (parseUint v)) 0.

Definition ReadStatus : Status + fault :=
  match select 0 "SELECT table, sum(rows) AS rows, sum(bytes_on_disk) AS bytes
		FROM system.parts WHERE database = {db:String} AND active GROUP BY table"
          {["db" := Database]} with
  | inr e => inr e
  | inl parts =>
      let st := foldl sized (mkStatus 0 0 None None 0 0 0 0 0 0 None) parts in
      let st :=
        if 0 <? st_Rows st then
          match select 1 ("SELECT toUnixTimestamp(min(received)) AS lo, toUnixTimestamp(max(received)) AS hi FROM " +:+ Database +:+ ".flows") ∅ with
          | inl [r] => st <| Oldest := Some (unixOf (r !! "lo")) |> <| Newest := Some (unixOf (r !! "hi")) |>
          | _ => st
          end
        else st in
      match select 2 ("SELECT toUnixTimestamp(at) AS at, written, dropped, queued, geo_asn, geo_country
		FROM " +:+ Database +:+ ".collector_status ORDER BY at DESC LIMIT 1") ∅ with
      | inl [r] =>
          inl (st <| ReportedAt := Some (unixOf (r !! "at")) |> <| Written := parseUint (r !! "written") |>
                  <| st_Dropped := parseUint (r !! "dropped") |> <| st_Queued := parseUint (r !! "queued") |>
                  <| GeoASN := parseUint (r !! "geo_asn") |> <| GeoCountry := parseUint (r !! "geo_country") |>)
      | _ => inl st
      end
  end.
End texts.

(** * Properties *)

(** ** The text holds no value *)

(** What the text of a condition shows of its value: for an address whether it
    is a prefix, for an interface whether it names its exporter. *)
Definition form (f : Field) (v : string) : bool :=
  if bool_decide (fd_Kind f ∈ ["addr"; "exporter"]) then Contains_byte v slash
  else if bool_decide (fd_Kind f = "iface") then bool_decide (is_Some (Cut v bar)) else false.

Definition sameFilter (fl fl' : Filter) : Prop :=
  fl_Field fl = fl_Field fl' /\ Negate fl = Negate fl' /\
  Forall2 (fun v v' => form (field (fl_Field fl)) (TrimSpace v) = form (field (fl_Field fl)) (TrimSpace v')) (Values fl) (Values fl').

(** Requests that differ in values only: filters on the same fields, negated
    alike, with as many values of the same forms; the same grouping and metric;
    as many exporters. *)
Record sameShape (q q' : Query) : Prop := {
  same_filters : Forall2 sameFilter (Filters q) (Filters q');
  same_groups : GroupBy q = GroupBy q';
  same_metric : Metric q = Metric q';
  same_exporters : length <$> Exporters q = length <$> Exporters q'
}.

Section texts_proofs.
Context (FormatSec FormatMilli RFC3339 : Time -> string) (Quote ToUpper ToLower : string -> string).
Abbreviation cond := (cond Quote ToUpper ToLower).
Abbreviation columns := (columns Quote ToUpper ToLower).
Abbreviation values := (values Quote ToUpper ToLower).
Abbreviation filter_ := (filter_ Quote ToUpper ToLower).
Abbreviation filters := (filters Quote ToUpper ToLower).
Abbreviation compile := (compile FormatSec FormatMilli RFC3339 Quote ToUpper ToLower).
Abbreviation number := (number Quote ToLower).

(** The text of a condition, from the form of its value. *)
Definition condText (f : Field) (c k : string) (fm : bool) : string :=
  let kind := fd_Kind f in
  if bool_decide (kind ∈ ["addr"; "exporter"]) then
    if fm then c +:+ " BETWEEN {" +:+ k +:+ "lo:IPv6} AND {" +:+ k +:+ "hi:IPv6}" else c +:+ " = {" +:+ k +:+ ":IPv6}"
  else if bool_decide (kind = "mac") then c +:+ " = MACStringToNum({" +:+ k +:+ ":String})"
  else if bool_decide (kind = "iface") then
    if fm then "(exporter = {" +:+ k +:+ "e:IPv6} AND " +:+ c +:+ " = {" +:+ k +:+ ":UInt64})" else c +:+ " = {" +:+ k +:+ ":UInt64}"
  else if bool_decide (kind ∈ ["text"; "country"]) then c +:+ " = {" +:+ k +:+ ":String}"
  else c +:+ " = {" +:+ k +:+ ":UInt64}".

Lemma number_text f c k v t ps : number f c k v = inl (t, ps) -> t = c +:+ " = {" +:+ k +:+ ":UInt64}" /\ map fst ps = [k].
Proof. unfold FlowSQL.number. repeat case_match; intros; by simplify_eq. Qed.

Lemma cond_text f c k v t ps :
  cond f c k v = inl (t, ps) ->
  t = condText f c k (form f v) /\ (map fst ps = [k] \/ map fst ps = [k +:+ "lo"; k +:+ "hi"] \/ map fst ps = [k +:+ "e"; k]).
Proof.
  unfold FlowSQL.cond, condText, form. intros E.
  repeat (case_match; simplify_eq; cbn); try (apply number_text in E as [-> ->]); auto.
  all: match goal with H : Cut _ _ = _, H' : bool_decide (is_Some (Cut _ _)) = _ |- _ => rewrite H in H'; by vm_compute in H' end.
Qed.

Lemma columns_text f several k cols : forall ci v v' ts ps ts' ps',
  columns f several k ci cols v = inl (ts, ps) -> columns f several k ci cols v' = inl (ts', ps') ->
  form f v = form f v' -> ts = ts'.
Proof.
  induction cols as [|c cols IH]; intros ci v v' ts ps ts' ps'; cbn [FlowSQL.columns].
  { intros [= <- _] [= <- _]. done. }
  destruct (cond f c _ v) as [[t1 p1]|] eqn:E1; [|done]. destruct (columns _ _ _ _ _ v) as [[ts1 ps1]|] eqn:R1; [|done].
  destruct (cond f c _ v') as [[t2 p2]|] eqn:E2; [|done]. destruct (columns _ _ _ _ _ v') as [[ts2 ps2]|] eqn:R2; [|done].
  intros [= <- <-] [= <- <-] Hf. apply cond_text in E1 as [-> _], E2 as [-> _]. rewrite Hf. f_equal. by eapply IH.
Qed.

Lemma values_text f cols i vs vs' :
  Forall2 (fun v v' => form f (TrimSpace v) = form f (TrimSpace v')) vs vs' ->
  forall j ts ps ts' ps', values f cols i j vs = inl (ts, ps) -> values f cols i j vs' = inl (ts', ps') -> ts = ts'.
Proof.
  induction 1 as [|v v' vs vs' Hv _ IH]; intros j ts ps ts' ps'; cbn [FlowSQL.values].
  { intros [= <- _] [= <- _]. done. }
  destruct (columns _ _ _ _ _ (TrimSpace v)) as [[t1 p1]|] eqn:E1; [|done]. destruct (values _ _ _ _ vs) as [[ts1 ps1]|] eqn:R1; [|done].
  destruct (columns _ _ _ _ _ (TrimSpace v')) as [[t2 p2]|] eqn:E2; [|done]. destruct (values _ _ _ _ vs') as [[ts2 ps2]|] eqn:R2; [|done].
  intros [= <- <-] [= <- <-]. rewrite (columns_text _ _ _ _ _ _ _ _ _ _ _ E1 E2 Hv). f_equal. by eapply IH.
Qed.

Lemma filter_text i fl fl' t ps t' ps' :
  sameFilter fl fl' -> filter_ i fl = inl (t, ps) -> filter_ i fl' = inl (t', ps') -> t = t'.
Proof.
  intros (Hf & Hn & Hv). unfold FlowSQL.filter_. rewrite <- Hf, <- Hn. unfold field in Hv.
  destruct (fieldByName !! fl_Field fl) as [f|] eqn:E; [|done]. cbn in Hv.
  do 2 (case_match; [done|]).
  destruct (values f _ i 0%nat (Values fl)) as [[ors pss]|] eqn:E1; [|done]. intros [= <- <-].
  do 2 (case_match; [done|]).
  destruct (values f _ i 0%nat (Values fl')) as [[ors' pss']|] eqn:E2; [|done]. intros [= <- <-].
  by rewrite (values_text _ _ _ _ _ Hv _ _ _ _ _ E1 E2).
Qed.

Lemma filters_text fls fls' : Forall2 sameFilter fls fls' -> forall i ts ps ts' ps',
  filters i fls = inl (ts, ps) -> filters i fls' = inl (ts', ps') -> ts = ts'.
Proof.
  induction 1 as [|fl fl' fls fls' Hs _ IH]; intros i ts ps ts' ps'; cbn [FlowSQL.filters].
  { intros [= <- _] [= <- _]. done. }
  destruct (filter_ i fl) as [[t1 p1]|] eqn:E1; [|done]. destruct (filters _ fls) as [[ts1 ps1]|] eqn:R1; [|done].
  destruct (filter_ i fl') as [[t2 p2]|] eqn:E2; [|done]. destruct (filters _ fls') as [[ts2 ps2]|] eqn:R2; [|done].
  intros [= <- <-] [= <- <-]. rewrite (filter_text _ _ _ _ _ _ _ Hs E1 E2). f_equal. by eapply IH.
Qed.

Lemma exporterCond_text e e' : length <$> e = length <$> e' -> fst (exporterCond e) = fst (exporterCond e').
Proof.
  destruct e as [l|], e' as [l'|]; try done. cbn [fmap option_fmap option_map]. intros [= E].
  destruct l as [|a l], l' as [|a' l']; try done. cbn [exporterCond fst]. do 4 f_equal. revert E. generalize (a :: l) as x, (a' :: l') as x'.
  intros x x' E. apply list_eq. intros i. rewrite !list_lookup_imap.
  destruct (x !! i) eqn:E1, (x' !! i) eqn:E2; cbn; try done.
  - apply lookup_lt_Some in E1. apply lookup_ge_None in E2. lia.
  - apply lookup_lt_Some in E2. apply lookup_ge_None in E1. lia.
Qed.

Definition countOf (t : Table) : string := match t with TableRollup => "sum(flows)" | TableRaw => "count()" end.
Definition metricOf (t : Table) (m : string) : option string :=
  if bool_decide (m ∈ [""; "bytes"]) then Some "sum(bytes)" else if bool_decide (m = "packets") then Some "sum(packets)"
  else if bool_decide (m = "flows") then Some (countOf t) else None.

Record compiled (q : Query) (b : built) (fcs : list string) (fps : list (string * string)) : Prop := {
  cp_window : From_ q < To_ q;
  cp_bounds : len (GroupBy q) <= MaxGroupBy /\ len (Filters q) <= MaxFilters;
  cp_groups : List.find refusedGroup (GroupBy q) = None;
  cp_table : chooseTable RFC3339 q = inl (table b);
  cp_filters : filters 0%nat (Filters q) = inl (fcs, fps);
  cp_where : where_ b = Join (fst (timeCond FormatSec FormatMilli (table b) q) :: fst (exporterCond (Exporters q)) ++ fcs) " AND ";
  cp_keys : keys b = imap (fun i n => outExpr (field n) +:+ " AS k" +:+ itoa i) (GroupBy q);
  cp_gkeys : gkeys b = imap (fun i n => groupExpr (field n) +:+ " AS g" +:+ itoa i) (GroupBy q);
  cp_params : params b = setParams ∅ (snd (timeCond FormatSec FormatMilli (table b) q) ++ snd (exporterCond (Exporters q)) ++ fps);
  cp_metric : metricOf (table b) (Metric q) = Some (metric b);
  cp_columns : tcol b = match table b with TableRollup => "hour" | TableRaw => "received" end /\ count_ b = countOf (table b)
}.

Lemma compile_inv q b : compile q = inl b -> exists fcs fps, compiled q b fcs fps.
Proof.
  unfold FlowSQL.compile. destruct (negb (From_ q <? To_ q)) eqn:E1; [done|]. destruct (Z.ltb_spec MaxGroupBy (len (GroupBy q))); [done|].
  destruct (Z.ltb_spec MaxFilters (len (Filters q))); [done|]. destruct (List.find refusedGroup (GroupBy q)) eqn:E4; [done|].
  destruct (chooseTable RFC3339 q) as [t|] eqn:E5; [|done].
  assert (forall x, (let '(tcol, count) := match t with TableRollup => ("hour", "sum(flows)") | TableRaw => ("received", "count()") end in x tcol count)
    = x (match t with TableRollup => "hour" | TableRaw => "received" end) (countOf t) :> (built + string)) as -> by (by destruct t).
  change (if bool_decide (Metric q ∈ _) then _ else _) with (metricOf t (Metric q)).
  destruct (metricOf t (Metric q)) as [m|] eqn:Em; [|done].
  destruct (timeCond FormatSec FormatMilli t q) as [tc tps] eqn:Et. destruct (exporterCond (Exporters q)) as [ecs eps] eqn:Ee.
  destruct (filters 0%nat (Filters q)) as [[fcs fps]|] eqn:Ef; [|done]. intros [= <-].
  exists fcs, fps. split; cbn; rewrite ?Et, ?Ee; try done; lia.
Qed.

(** C8. Requests that differ in values only, and are answered from the same
    table, become the same text: a value reaches ClickHouse as a parameter and
    in no other way. *)
Theorem values_are_parameters q q' b b' :
  compile q = inl b -> compile q' = inl b' -> sameShape q q' -> table b = table b' ->
  where_ b = where_ b' /\ keys b = keys b' /\ gkeys b = gkeys b' /\ tcol b = tcol b' /\ metric b = metric b' /\ count_ b = count_ b'.
Proof.
  intros (fcs & fps & C)%compile_inv (fcs' & fps' & C')%compile_inv [Hf Hg Hm He] Ht.
  assert (fcs = fcs') as <-.
  { eapply filters_text; [done|apply (cp_filters _ _ _ _ C)|apply (cp_filters _ _ _ _ C')]. }
  destruct C as [_ _ _ _ _ Cw Ck Cg _ Cm [Cc Cn]], C' as [_ _ _ _ _ Cw' Ck' Cg' _ Cm' [Cc' Cn']].
  rewrite Cw, Cw', Ck, Ck', Cg, Cg', Cc, Cc', Cn, Cn', <- Ht, <- Hg, (exporterCond_text _ _ He). rewrite <- Ht, <- Hm, Cm in Cm'.
  injection Cm' as <-. repeat split. by destruct (table b).
Qed.

(** ** Every placeholder has its own parameter *)

(** Text that does not go on with a digit. *)
Definition fresh (r : string) : Prop := match to_bytes r with c :: _ => isDigit c = false | [] => True end.

Lemma digits_split (d d' r r' : bytes) :
  Forall (fun c => isDigit c = true) d -> Forall (fun c => isDigit c = true) d' ->
  match r with c :: _ => isDigit c = false | [] => True end -> match r' with c :: _ => isDigit c = false | [] => True end ->
  d ++ r = d' ++ r' -> d = d' /\ r = r'.
Proof.
  intros Hd. revert d'. induction Hd as [|c d Hc _ IH]; intros d' Hd' Hr Hr' E.
  - destruct Hd' as [|c' d' Hc' _]; [done|]. cbn in E. subst r. by rewrite Hc' in Hr.
  - destruct Hd' as [|c' d' Hc' Hd']; cbn in E.
    + subst r'. by rewrite Hc in Hr'.
    + injection E as <- E. by destruct (IH d' Hd' Hr Hr' E) as [-> ->].
Qed.

Lemma itoa_split i i' r r' : fresh r -> fresh r' -> itoa i +:+ r = itoa i' +:+ r' -> i = i' /\ r = r'.
Proof.
  intros Hr Hr' E%(f_equal to_bytes). rewrite !to_bytes_app in E.
  apply digits_split in E as [E1 E2]; try done; try (apply Itoa_digits; lia).
  apply (f_equal of_bytes) in E1, E2. rewrite !of_to_bytes in E1, E2. apply Itoa_inj in E1. split; [lia|done].
Qed.

Lemma fresh_under r : fresh ("_" +:+ r).
Proof. done. Qed.
#[local] Hint Resolve fresh_under : core.

Lemma filterKey_split i j i' j' r r' :
  fresh r -> fresh r' -> filterKey i j +:+ r = filterKey i' j' +:+ r' -> i = i' /\ j = j' /\ r = r'.
Proof.
  unfold filterKey. rewrite !append_assoc. intros Hr Hr' E.
  apply (inj (String.append "f")) in E. apply itoa_split in E as [-> E]; [|done..].
  apply (inj (String.append "_")) in E. by apply itoa_split in E as [-> ->].
Qed.

Definition suffixes : list string := [""; "lo"; "hi"; "e"].
Lemma suffix_fresh x : x ∈ suffixes -> fresh x.
Proof. unfold suffixes. rewrite !elem_of_cons. intros [->|[->|[->|[->|[]%elem_of_nil]]]]; done. Qed.

(** The parameters a condition brings are named after it. *)
Lemma cond_keys f c k v t ps :
  cond f c k v = inl (t, ps) -> NoDup (map fst ps) /\ forall k', k' ∈ map fst ps -> exists x, x ∈ suffixes /\ k' = k +:+ x.
Proof.
  assert (k = k +:+ "") as Hk.
  { clear. induction k as [|a k IH]; [done|]. change (String.String a k = String.String a (k +:+ "")). by f_equal. }
  intros [_ H]%cond_text. assert (exists xs, map fst ps = map (String.append k) xs /\ NoDup xs /\ xs ⊆ suffixes) as (xs & -> & Hnd & Hs).
  { destruct H as [H|[H|H]]; rewrite H.
    - exists [""]. split; [cbn; by f_equal|]. split; [apply NoDup_singleton|]. unfold suffixes. set_solver.
    - exists ["lo"; "hi"]. split; [done|]. split; [|unfold suffixes; set_solver].
      apply NoDup_cons. split; [by rewrite list_elem_of_singleton|apply NoDup_singleton].
    - exists ["e"; ""]. split; [cbn; by rewrite <- Hk|]. split; [|unfold suffixes; set_solver].
      apply NoDup_cons. split; [by rewrite list_elem_of_singleton|apply NoDup_singleton]. }
  split; [by apply NoDup_fmap_2; [apply _|]|].
  intros k' (x & -> & Hx)%list_elem_of_fmap. exists x. split; [by apply Hs|done].
Qed.

(** A parameter of the [j]th value of the [i]th filter. *)
Definition owned (i j : nat) (k : string) : Prop := exists r, fresh r /\ k = filterKey i j +:+ r.

Lemma owned_inj i j i' j' k : owned i j k -> owned i' j' k -> i = i' /\ j = j'.
Proof. intros (r & Hr & ->) (r' & Hr' & E). by apply filterKey_split in E as (-> & -> & _). Qed.

Lemma columns_keys f several i j cols : several = true \/ (length cols <= 1)%nat -> forall ci v ts ps,
  columns f several (filterKey i j) ci cols v = inl (ts, ps) ->
  NoDup (map fst ps) /\ (forall k, k ∈ map fst ps -> owned i j k) /\
  (several = true -> forall k, k ∈ map fst ps -> exists ci' x, (ci <= ci')%nat /\ x ∈ suffixes /\ k = filterKey i j +:+ ("_" +:+ itoa ci' +:+ x)).
Proof.
  intros Hs. induction cols as [|c cols IH]; intros ci v ts ps; cbn [FlowSQL.columns].
  { intros [= <- <-]. cbn. split; [apply NoDup_nil_2|]. split; [|intros _]; intros k []%elem_of_nil. }
  destruct (cond f c _ v) as [[t1 p1]|] eqn:E1; [|done]. destruct (columns _ _ _ _ cols v) as [[ts1 ps1]|] eqn:R1; [|done].
  intros [= <- <-]. rewrite map_app. apply cond_keys in E1 as [Hn1 Hk1].
  destruct several.
  - destruct (IH (or_introl eq_refl) _ _ _ _ R1) as (Hn2 & Ho2 & Hk2). specialize (Hk2 eq_refl).
    assert (forall k, k ∈ map fst p1 -> exists x, x ∈ suffixes /\ k = filterKey i j +:+ ("_" +:+ itoa ci +:+ x)) as Hk1'.
    { intros k (x & Hx & ->)%Hk1. exists x. split; [done|]. by rewrite !append_assoc. }
    split; [|split; [|intros _]].
    + apply NoDup_app. split; [done|]. split; [|done]. intros k (x & Hx & ->)%Hk1' (ci' & x' & Hc & Hx' & E)%Hk2.
      apply filterKey_split in E as (_ & _ & E); [|done..]. apply (inj (String.append "_")) in E.
      apply itoa_split in E as [-> _]; [lia|by apply suffix_fresh..].
    + intros k [Hk|Hk]%elem_of_app; [|by apply Ho2]. apply Hk1' in Hk as (x & Hx & ->). eexists. split; [|done]. done.
    + intros k [Hk|Hk]%elem_of_app.
      * apply Hk1' in Hk as (x & Hx & ->). exists ci, x. done.
      * apply Hk2 in Hk as (ci' & x & Hc & Hx & ->). exists ci', x. split; [lia|done].
  - destruct Hs as [|Hs]; [done|]. destruct cols; [|cbn in Hs; lia]. cbn in R1. injection R1 as <- <-.
    cbn [map]. rewrite !app_nil_r. split; [done|]. split; [|done].
    intros k (x & Hx & ->)%Hk1. exists x. split; [by apply suffix_fresh|done].
Qed.

Lemma values_keys f cols i vs : forall j ts ps, values f cols i j vs = inl (ts, ps) ->
  NoDup (map fst ps) /\ forall k, k ∈ map fst ps -> exists j', (j <= j')%nat /\ owned i j' k.
Proof.
  induction vs as [|v vs IH]; intros j ts ps; cbn [FlowSQL.values].
  { intros [= <- <-]. cbn. split; [apply NoDup_nil_2|]. intros k []%elem_of_nil. }
  destruct (columns _ _ _ _ _ (TrimSpace v)) as [[t1 p1]|] eqn:E1; [|done]. destruct (values _ _ _ _ vs) as [[ts1 ps1]|] eqn:R1; [|done].
  intros [= <- <-]. apply columns_keys in E1 as (Hn1 & Ho1 & _).
  2: { destruct (Z.ltb_spec 1 (len cols)); [by left|right]. unfold len in *. lia. }
  destruct (IH _ _ _ R1) as [Hn2 Ho2]. rewrite map_app. split.
  - apply NoDup_app. split; [done|]. split; [|done]. intros k Hk (j' & Hj & Ho)%Ho2. apply Ho1 in Hk.
    destruct (owned_inj _ _ _ _ _ Hk Ho). lia.
  - intros k [Hk|Hk]%elem_of_app; [exists j; split; [lia|by apply Ho1]|].
    apply Ho2 in Hk as (j' & Hj & Ho). exists j'. split; [lia|done].
Qed.

Lemma filters_keys fls : forall i ts ps, filters i fls = inl (ts, ps) ->
  NoDup (map fst ps) /\ forall k, k ∈ map fst ps -> exists i' j, (i <= i')%nat /\ owned i' j k.
Proof.
  induction fls as [|fl fls IH]; intros i ts ps; cbn [FlowSQL.filters].
  { intros [= <- <-]. cbn. split; [apply NoDup_nil_2|]. intros k []%elem_of_nil. }
  destruct (filter_ i fl) as [[t1 p1]|] eqn:E1; [|done]. destruct (filters _ fls) as [[ts1 ps1]|] eqn:R1; [|done].
  intros [= <- <-]. unfold FlowSQL.filter_ in E1. destruct (fieldByName !! _) as [f|]; [|done].
  do 2 (case_match; [done|]). destruct (values f _ i 0%nat _) as [[ors pss]|] eqn:Ev; [|done]. injection E1 as _ <-.
  apply values_keys in Ev as [Hn1 Ho1]. destruct (IH _ _ _ R1) as [Hn2 Ho2]. rewrite map_app. split.
  - apply NoDup_app. split; [done|]. split; [|done]. intros k (j & _ & Hk)%Ho1 (i' & j' & Hi & Ho)%Ho2.
    destruct (owned_inj _ _ _ _ _ Hk Ho). lia.
  - intros k [Hk|Hk]%elem_of_app.
    + apply Ho1 in Hk as (j & _ & Ho). exists i, j. done.
    + apply Ho2 in Hk as (i' & j & Hi & Ho). exists i', j. split; [lia|done].
Qed.

Lemma setParams_lookup ps : forall m k x, NoDup (map fst ps) -> (k, x) ∈ ps -> setParams m ps !! k = Some x.
Proof.
  assert (forall ps m k, k ∉ map fst ps -> setParams m ps !! k = m !! k) as Hn.
  { clear. induction ps as [|[k' x'] ps IH]; intros m k Hk; [done|]. cbn in Hk. apply not_elem_of_cons in Hk as [Hk Hps].
    unfold setParams in *. cbn. rewrite IH by done. by apply lookup_insert_ne. }
  induction ps as [|[k' x'] ps IH]; intros m k x Hnd Hin; [by apply elem_of_nil in Hin|].
  cbn [map fst] in Hnd. apply NoDup_cons in Hnd as [Hk' Hnd]. apply elem_of_cons in Hin as [[= -> ->]|Hin].
  - unfold setParams. cbn. fold (setParams (<[k' := x']> m) ps). rewrite Hn by done. apply lookup_insert_eq.
  - unfold setParams. cbn. fold (setParams (<[k' := x']> m) ps). by apply IH.
Qed.

Lemma subseteq_app_l {A} (l l1 l2 : list A) : l ⊆ l1 -> l ⊆ l1 ++ l2.
Proof. intros H x Hx. apply elem_of_app. auto. Qed.
Lemma subseteq_app_r {A} (l l1 l2 : list A) : l ⊆ l2 -> l ⊆ l1 ++ l2.
Proof. intros H x Hx. apply elem_of_app. auto. Qed.

Lemma columns_in f several k cols : forall ci0 v ts ps ci c,
  columns f several k ci0 cols v = inl (ts, ps) -> cols !! ci = Some c ->
  exists t ps', cond f c (if several then k +:+ "_" +:+ itoa (ci0 + ci) else k) v = inl (t, ps') /\ ps' ⊆ ps /\ t ∈ ts.
Proof.
  induction cols as [|c0 cols IH]; intros ci0 v ts ps ci c; cbn [FlowSQL.columns]; [done|].
  destruct (cond f c0 _ v) as [[t1 p1]|] eqn:E1; [|done]. destruct (columns _ _ _ _ cols v) as [[ts1 ps1]|] eqn:R1; [|done].
  intros [= <- <-]. destruct ci as [|ci]; cbn [lookup list_lookup].
  - intros [= <-]. rewrite Nat.add_0_r. exists t1, p1. split; [done|]. split; [by apply subseteq_app_l|]. apply list_elem_of_here.
  - intros Hc. destruct (IH _ _ _ _ _ _ R1 Hc) as (t & ps' & E & Hs & Ht). rewrite <- Nat.add_succ_comm in *.
    exists t, ps'. split; [done|]. split; [by apply subseteq_app_r|]. by apply list_elem_of_further.
Qed.

Lemma values_in f cols i vs : forall j0 ts ps j v ci c, values f cols i j0 vs = inl (ts, ps) -> vs !! j = Some v -> cols !! ci = Some c ->
  exists t ps', cond f c (if 1 <? len cols then filterKey i (j0 + j) +:+ "_" +:+ itoa ci else filterKey i (j0 + j)) (TrimSpace v) = inl (t, ps')
    /\ ps' ⊆ ps /\ t ∈ ts.
Proof.
  induction vs as [|v0 vs IH]; intros j0 ts ps j v ci c; cbn [FlowSQL.values]; [done|].
  destruct (columns _ _ _ _ _ (TrimSpace v0)) as [[t1 p1]|] eqn:E1; [|done]. destruct (values _ _ _ _ vs) as [[ts1 ps1]|] eqn:R1; [|done].
  intros [= <- <-]. destruct j as [|j]; cbn [lookup list_lookup].
  - intros [= <-] Hc. destruct (columns_in _ _ _ _ _ _ _ _ _ _ E1 Hc) as (t & ps' & E & Hs & Ht). rewrite Nat.add_0_r.
    exists t, ps'. split; [done|]. split; [by apply subseteq_app_l|]. apply elem_of_app. by left.
  - intros Hv Hc. destruct (IH _ _ _ _ _ _ _ R1 Hv Hc) as (t & ps' & E & Hs & Ht). rewrite <- Nat.add_succ_comm.
    exists t, ps'. split; [done|]. split; [by apply subseteq_app_r|]. apply elem_of_app. by right.
Qed.

(** The name of the placeholder of a value, in the condition on one column. *)
Definition placeholder (f : Field) (i j ci : nat) : string :=
  if 1 <? len (columnsOf f) then filterKey i j +:+ "_" +:+ itoa ci else filterKey i j.

Lemma filters_in fls : forall i0 ts ps i fl f j v ci c, filters i0 fls = inl (ts, ps) -> fls !! i = Some fl ->
  fieldByName !! fl_Field fl = Some f -> Values fl !! j = Some v -> columnsOf f !! ci = Some c ->
  exists t ps', cond f c (placeholder f (i0 + i) j ci) (TrimSpace v) = inl (t, ps') /\ ps' ⊆ ps.
Proof.
  induction fls as [|fl0 fls IH]; intros i0 ts ps i fl f j v ci c; cbn [FlowSQL.filters]; [done|].
  destruct (filter_ i0 fl0) as [[t1 p1]|] eqn:E1; [|done]. destruct (filters _ fls) as [[ts1 ps1]|] eqn:R1; [|done].
  intros [= <- <-]. destruct i as [|i]; cbn [lookup list_lookup].
  - intros [= <-] Hf Hv Hc. unfold FlowSQL.filter_ in E1. rewrite Hf in E1.
    do 2 (case_match; [done|]). destruct (values f _ i0 0%nat _) as [[ors pss]|] eqn:Ev; [|done]. injection E1 as _ <-.
    destruct (values_in _ _ _ _ _ _ _ _ _ _ _ Ev Hv Hc) as (t & ps' & E & Hs & _). rewrite Nat.add_0_r.
    exists t, ps'. split; [done|]. by apply subseteq_app_l.
  - intros Hfl Hf Hv Hc. destruct (IH _ _ _ _ _ _ _ _ _ _ R1 Hfl Hf Hv Hc) as (t & ps' & E & Hs).
    rewrite <- Nat.add_succ_comm. exists t, ps'. split; [done|]. by apply subseteq_app_r.
Qed.

Lemma exporter_keys e : NoDup (map fst (snd (exporterCond e))) /\
  forall k, k ∈ map fst (snd (exporterCond e)) -> exists r, k = "e" +:+ r.
Proof.
  destruct e as [[|a l]|]; cbn; try (split; [apply NoDup_nil_2|intros k []%elem_of_nil]).
  change (exporterKey 0 :: _) with (map fst (imap (fun i a => (exporterKey i, chAddr a)) (a :: l))). generalize (a :: l). clear. intros l.
  split.
  - apply NoDup_alt. intros i j k. rewrite !list_lookup_fmap, !list_lookup_imap. destruct (l !! i), (l !! j); cbn; try done.
    intros [= <-] E%(inj Some). unfold exporterKey in E. apply (inj (String.append "e")) in E. apply Itoa_inj in E. lia.
  - intros k (kv & -> & (i & a & -> & _)%elem_of_lookup_imap_1)%list_elem_of_fmap. by exists (itoa i).
Qed.

Lemma window_keys t q k x : (k, x) ∈ snd (timeCond FormatSec FormatMilli t q) -> k = "from" \/ k = "to".
Proof. destruct t; cbn; rewrite !elem_of_cons, elem_of_nil; intros [[= -> _]|[[= -> _]|[]]]; auto. Qed.

Lemma compiled_keys q b fcs fps : compiled q b fcs fps ->
  NoDup (map fst (snd (timeCond FormatSec FormatMilli (table b) q) ++ snd (exporterCond (Exporters q)) ++ fps)).
Proof.
  intros C. destruct (filters_keys _ _ _ _ (cp_filters _ _ _ _ C)) as [Hn Ho]. destruct (exporter_keys (Exporters q)) as [Hne He].
  assert (forall k, k ∈ map fst fps -> exists r c, k = "f" +:+ String.String c r /\ isDigit (Ascii.byte_of_ascii c) = true) as Hf.
  { intros k (i & j & _ & r & _ & ->)%Ho. unfold filterKey. destruct (Itoa_digits (Z.of_nat i)) as (_ & Hd & Hne'); [lia|].
    unfold itoa. destruct (Itoa (Z.of_nat i)) as [|c s]; [done|]. apply Forall_cons in Hd as [Hd _].
    eexists _, c. split; [|done]. rewrite <- !append_assoc. reflexivity. }
  rewrite !map_app. apply NoDup_app. split; [|split; [|apply NoDup_app; split; [done|split; [|done]]]].
  - destruct (table b); cbn; (apply NoDup_cons; split; [by rewrite list_elem_of_singleton|apply NoDup_singleton]).
  - intros k ([k' x] & -> & Hk)%list_elem_of_fmap Hin. cbn in Hin. apply window_keys in Hk.
    apply elem_of_app in Hin as [(r & E)%He|(r & c & E & Hc)%Hf]; destruct Hk as [-> | ->]; try done. injection E as <- _. done.
  - intros k (r & ->)%He (r' & c & E & _)%Hf. done.
Qed.

(** Every placeholder of the text has the parameter that belongs to it: the
    bounds of the window, the address of each exporter, and for each value of
    each filter, on each column it is compared with, exactly what its condition
    reads; no parameter overwrites another, however many filters and values. *)
Theorem params_own q b :
  compile q = inl b ->
  (forall k x, (k, x) ∈ snd (timeCond FormatSec FormatMilli (table b) q) -> params b !! k = Some x)
  /\ (forall l i a, Exporters q = Some l -> l !! i = Some a -> params b !! exporterKey i = Some (chAddr a))
  /\ forall i fl f j v ci c,
      Filters q !! i = Some fl -> fieldByName !! fl_Field fl = Some f -> Values fl !! j = Some v -> columnsOf f !! ci = Some c ->
      exists t ps, cond f c (placeholder f i j ci) (TrimSpace v) = inl (t, ps) /\ forall k x, (k, x) ∈ ps -> params b !! k = Some x.
Proof.
  intros (fcs & fps & C)%compile_inv. pose proof (compiled_keys _ _ _ _ C) as Hn. rewrite (cp_params _ _ _ _ C).
  split; [|split].
  - intros k x Hin. apply setParams_lookup; [done|]. apply elem_of_app. by left.
  - intros l i a El Ha. apply setParams_lookup; [done|]. apply elem_of_app. right. apply elem_of_app. left.
    rewrite El. destruct l as [|a' l]; [done|]. cbn [exporterCond snd]. apply (elem_of_lookup_imap_2 (fun i a => (exporterKey i, chAddr a))). done.
  - intros i fl f j v ci c Hfl Hf Hv Hc.
    destruct (filters_in _ _ _ _ _ _ _ _ _ _ _ (cp_filters _ _ _ _ C) Hfl Hf Hv Hc) as (t & ps & E & Hs).
    exists t, ps. split; [done|]. intros k x Hin. apply setParams_lookup; [done|]. apply elem_of_app. right. apply elem_of_app. right. by apply Hs.
Qed.
End texts_proofs.

(** ** Prefixes *)

Lemma setBits_testbit bits lo m k : 0 <= k -> 0 <= bits -> bits + Z.of_nat m <= 128 ->
  Z.testbit (foldl (fun hi i => Z.lor hi (Z.shiftl 1 (127 - (bits + Z.of_nat i)))) lo (List.seq 0 m)) k
  = Z.testbit lo k || ((127 - bits - Z.of_nat m <? k) && (k <=? 127 - bits)).
Proof.
  intros Hk Hb. induction m as [|m IH]; intros Hm.
  - cbn [List.seq foldl]. destruct (Z.testbit lo k); [done|]. cbn [orb].
    destruct (Z.ltb_spec (127 - bits - Z.of_nat 0) k), (Z.leb_spec k (127 - bits)); try done; lia.
  - rewrite seq_S, foldl_app. cbn [foldl Nat.add]. rewrite Z.lor_spec, IH by lia. rewrite Z.shiftl_spec by lia.
    change 1 with (2 ^ 0). rewrite Z.pow2_bits_eqb by lia. destruct (Z.testbit lo k); [done|]. cbn [orb].
    destruct (Z.ltb_spec (127 - bits - Z.of_nat m) k), (Z.leb_spec k (127 - bits)),
      (Z.ltb_spec (127 - bits - Z.of_nat (S m)) k), (Z.eqb_spec 0 (k - (127 - (bits + Z.of_nat m)))); try done; lia.
Qed.

Lemma setBits_ones bits lo : 0 <= bits <= 128 -> setBits bits lo = Z.lor lo (Z.ones (128 - bits)).
Proof.
  intros Hb. apply Z.bits_inj'. intros k Hk. unfold setBits. rewrite setBits_testbit, Z.lor_spec by lia. f_equal.
  destruct (Z.ltb_spec k (128 - bits)).
  - rewrite Z.ones_spec_low by lia. apply andb_true_iff. split; [apply Z.ltb_lt|apply Z.leb_le]; lia.
  - rewrite Z.ones_spec_high by lia. apply andb_false_iff. right. apply Z.leb_gt. lia.
Qed.

(** The range of a block that starts at a multiple of its size. *)
Lemma block_range bits m x : 0 <= bits <= 128 -> let n := 128 - bits in
  m * 2 ^ n <= x <= setBits bits (m * 2 ^ n) <-> x / 2 ^ n = m.
Proof.
  intros Hb n. rewrite setBits_ones by done. fold n. assert (0 <= n) by lia. pose proof (Z.pow_pos_nonneg 2 n).
  assert (Z.lor (m * 2 ^ n) (Z.ones n) = m * 2 ^ n + 2 ^ n - 1) as ->.
  { pose proof (Z.add_lor_land (m * 2 ^ n) (Z.ones n)) as E. rewrite Z.land_ones, Z_mod_mult in E by done.
    rewrite Z.ones_equiv in *. lia. }
  pose proof (Z.div_mod x (2 ^ n)). pose proof (Z.mod_pos_bound x (2 ^ n)). split; intros; nia.
Qed.

Lemma Masked_in ip bits : IsValid ip = true -> 0 <= bits <= BitLen ip ->
  Masked (mkPrefix ip bits) =
  mkPrefix match ip with V4 z => V4 (mask_val z 32 bits) | V6 z _ => V6 (mask_val z 128 bits) "" | AddrZero => AddrZero end bits.
Proof.
  intros Hv Hb. unfold Masked, Addr_Prefix, PrefixFrom. cbn [pip pbits].
  destruct (Z.ltb_spec bits 0); [lia|]. destruct ip as [|z|z zone]; [done|..]; cbn [BitLen] in Hb.
  - destruct (Z.ltb_spec 32 bits); [lia|]. cbn [default BitLen]. 
    change (IsValid (V4 _)) with true. by rewrite (proj2 (Z.leb_le 0 bits)), (proj2 (Z.leb_le bits 32)) by lia.
  - destruct (Z.ltb_spec 128 bits); [lia|]. cbn [default BitLen].
    change (IsValid (V6 _ _)) with true. by rewrite (proj2 (Z.leb_le 0 bits)), (proj2 (Z.leb_le bits 128)) by lia.
Qed.

Lemma prefix_range_of p a :
  Addr_wf (pip p) -> Addr_wf a -> IsValid (pip p) = true -> 0 <= pbits p <= BitLen (pip p) ->
  Zone a = "" -> Unmap a = a -> IsValid a = true -> Is4 (pip p) = true \/ Is4 a = false ->
  exists lo hi, prefixRange (Masked p) = (Addr_String (V6 lo ""), Addr_String (V6 hi "")) /\ (Contains p a = true <-> lo <= As16 a <= hi).
Proof.
  destruct p as [ip bits]. cbn [pip pbits]. intros Hp Ha Hv Hb Hz Hu Hva H4.
  destruct ip as [|z|z zone]; [done| |].
  - change (BitLen (V4 z)) with 32 in Hb.
    assert (Masked (mkPrefix (V4 z) bits) = mkPrefix (V4 (mask_val z 32 bits)) bits) as ->.
    { apply Masked_in; [done|cbn; lia]. }
    unfold prefixRange. cbn [pip pbits Is4 As16]. do 2 eexists. split; [done|].
    unfold mask_val. rewrite Z.shiftl_mul_pow2, Z.shiftr_div_pow2 by lia.
    set (n := 32 - bits). assert (0 < 2 ^ n /\ 0 < 2 ^ bits) as [Hpn Hpb] by (split; apply Z.pow_pos_nonneg; lia).
    assert (2 ^ 32 = 2 ^ bits * 2 ^ n) as Epow by (rewrite <- Z.pow_add_r by lia; f_equal; lia).
    replace (65535 * 2 ^ 32 + z / 2 ^ n * 2 ^ n) with ((65535 * 2 ^ bits + z / 2 ^ n) * 2 ^ n) by lia.
    replace n with (128 - (bits + 96)) by lia. rewrite block_range by lia. replace (128 - (bits + 96)) with n by lia.
    unfold Contains. cbn [pip pbits]. rewrite Hz, Hva, (proj2 (Z.leb_le 0 bits)) by lia. rewrite bool_decide_true by done. cbn [andb].
    destruct a as [|za|za zo]; [done| |].
    + change (BitLen (V4 za)) with 32. change (BitLen (V4 z)) with 32. cbn [addr_val As16]. rewrite !Z.shiftr_div_pow2 by lia. fold n.
      change (32 =? 32) with true. cbn [andb]. rewrite Z.eqb_eq.
      replace (65535 * 2 ^ 32 + za) with (za + 65535 * 2 ^ bits * 2 ^ n) by lia. rewrite Z_div_plus by lia. lia.
    + change (BitLen (V4 z) =? BitLen (V6 za zo)) with false. cbn [andb As16]. split; [done|]. intros E. exfalso.
      unfold Unmap, Is4In6 in Hu. unfold Addr_wf in Hp. assert (za / 2 ^ 32 = 65535) as Em.
      { rewrite Epow, Z.mul_comm, <- Z.div_div by lia. rewrite E.
        rewrite Z.add_comm, Z_div_plus by lia.
        rewrite Z.div_div, <- Z.mul_comm, <- Epow, Z.div_small by lia. done. }
      by rewrite Em in Hu.
  - change (BitLen (V6 z zone)) with 128 in Hb. destruct H4 as [H4|H4]; [done|].
    assert (Masked (mkPrefix (V6 z zone) bits) = mkPrefix (V6 (mask_val z 128 bits) "") bits) as ->.
    { apply Masked_in; [done|cbn; lia]. }
    unfold prefixRange. cbn [pip pbits Is4 As16]. do 2 eexists. split; [done|].
    unfold mask_val. rewrite Z.shiftl_mul_pow2, Z.shiftr_div_pow2 by lia. rewrite block_range by lia.
    unfold Contains. cbn [pip pbits]. rewrite Hz, Hva, (proj2 (Z.leb_le 0 bits)) by lia. rewrite bool_decide_true by done. cbn [andb].
    destruct a as [|za|za zo]; [done|done|]. change (BitLen (V6 za zo)) with 128. change (BitLen (V6 z zone)) with 128.
    cbn [addr_val As16]. rewrite !Z.shiftr_div_pow2 by lia. change (128 =? 128) with true. cbn [andb]. by rewrite Z.eqb_eq.
Qed.

(** The range an address is compared with holds exactly the addresses of
    the prefix, as the columns store them: an IPv4 address is one of its IPv4
    prefix and of no IPv6 address besides. *)
Theorem prefix_range p a :
  Addr_wf (pip p) -> Addr_wf a -> IsValid (pip p) = true -> 0 <= pbits p <= BitLen (pip p) ->
  Zone a = "" -> Unmap a = a -> IsValid a = true -> Is4 (pip p) = true \/ Is4 a = false ->
  exists lo hi, prefixRange (Masked p) = (Addr_String (V6 lo ""), Addr_String (V6 hi "")) /\ (Contains p a = true <-> lo <= As16 a <= hi).
Proof. apply prefix_range_of. Qed.

(** ** The table *)

Lemma named_in (l : list Field) n f : forall m : gmap string Field,
  foldl (fun m f => <[fd_Name f := f]> m) m l !! n = Some f -> (f ∈ l /\ fd_Name f = n) \/ m !! n = Some f.
Proof.
  induction l as [|g l IH]; intros m; cbn [foldl]; [by right|]. intros [[Hin Hn]|Hm]%IH; [left; split; [by apply list_elem_of_further|done]|].
  destruct (decide (fd_Name g = n)) as [<-|Hne]; [|right; by rewrite lookup_insert_ne in Hm].
  rewrite lookup_insert_eq in Hm. injection Hm as <-. left. split; [apply list_elem_of_here|done].
Qed.

Lemma fieldByName_in n f : fieldByName !! n = Some f -> f ∈ Fields /\ fd_Name f = n.
Proof. intros [H|H]%named_in; [done|]. by rewrite lookup_empty in H. Qed.

Lemma labelled n f : fieldByName !! n = Some f -> fd_Label f <> "".
Proof.
  intros [Hin _]%fieldByName_in. revert f Hin. apply Forall_forall. unfold Fields. repeat (apply Forall_cons; split; [done|]). by apply Forall_nil.
Qed.

Lemma note_rollup {A} (name : A -> string) (l : list A) : forall need,
  Forall (fun x => is_Some (fieldByName !! name x)) l ->
  foldl (fun need x => if negb (Rollup (field (name x))) then fd_Label (field (name x)) else need) need l = "" ->
  need = "" /\ Forall (fun x => Rollup (field (name x)) = true) l.
Proof.
  induction l as [|x l IH]; intros need Hl; cbn [foldl]; [done|]. apply Forall_cons in Hl as [[f Hf] Hl].
  intros [Hn Hr]%IH; [|done]. assert (field (name x) = f) as Ef by (unfold field; by rewrite Hf).
  rewrite Ef in Hn. case_match eqn:Er; [by destruct (labelled _ _ Hf)|].
  split; [done|]. apply Forall_cons. rewrite Ef. apply negb_false_iff in Er. done.
Qed.

Lemma find_None {A} (f : A -> bool) l : List.find f l = None -> Forall (fun x => f x = false) l.
Proof. intros H. apply Forall_forall. intros x Hx%list_elem_of_In. by apply (List.find_none f l). Qed.

Section tables.
Context (FormatSec FormatMilli RFC3339 : Time -> string) (Quote ToUpper ToLower : string -> string).
Abbreviation compile := (compile FormatSec FormatMilli RFC3339 Quote ToUpper ToLower).
Abbreviation compiled := (compiled FormatSec FormatMilli RFC3339 Quote ToUpper ToLower).

Lemma filters_known fls : forall i ts ps, filters Quote ToUpper ToLower i fls = inl (ts, ps) ->
  Forall (fun fl => is_Some (fieldByName !! fl_Field fl)) fls.
Proof.
  induction fls as [|fl fls IH]; intros i ts ps; cbn [filters]; [done|].
  destruct (filter_ _ _ _ i fl) as [[t1 p1]|] eqn:E1; [|done]. destruct (filters _ _ _ _ fls) as [[ts1 ps1]|] eqn:R1; [|done].
  intros _. apply Forall_cons. split; [|by eapply IH]. revert E1. unfold filter_. by destruct (fieldByName !! _).
Qed.

Lemma table_fits_of q b fcs fps : compiled q b fcs fps ->
  match table b with
  | TableRollup => Forall (fun n => Rollup (field n) = true) (GroupBy q) /\ Forall (fun fl => Rollup (field (fl_Field fl)) = true) (Filters q)
  | TableRaw => IsZero (RawCutoff q) = true \/ RawCutoff q <= From_ q
  end.
Proof.
  intros C. pose proof (cp_table _ _ _ _ _ _ _ _ _ _ C) as Ht.
  assert (Forall (fun n => is_Some (fieldByName !! n)) (GroupBy q)) as Hg.
  { pose proof (find_None _ _ (cp_groups _ _ _ _ _ _ _ _ _ _ C)) as H. eapply Forall_impl; [done|].
    intros n. unfold refusedGroup. by destruct (fieldByName !! n). }
  pose proof (filters_known _ _ _ _ (cp_filters _ _ _ _ _ _ _ _ _ _ C)) as Hf.
  unfold chooseTable in Ht. set (need := foldl _ (foldl _ "" (GroupBy q)) (Filters q)) in Ht.
  assert (need = "" -> Forall (fun n => Rollup (field n) = true) (GroupBy q) /\ Forall (fun fl => Rollup (field (fl_Field fl)) = true) (Filters q)) as Hneed.
  { intros E. destruct (note_rollup fl_Field (Filters q) _ Hf E) as [E' Hr]. split; [|done].
    by destruct (note_rollup (fun n => n) (GroupBy q) _ Hg E') as [_ ?]. }
  clearbody need. destruct (negb (IsZero (RawCutoff q)) && (From_ q <? RawCutoff q)) eqn:Ec.
  - destruct (bool_decide (need = "")) eqn:En; cbn in Ht; [|done]. injection Ht as <-. apply bool_decide_eq_true in En. by apply Hneed.
  - destruct (bool_decide (need = "") && _) eqn:Ew.
    + injection Ht as <-. apply andb_true_iff in Ew as [En%bool_decide_eq_true _]. by apply Hneed.
    + injection Ht as <-. apply andb_false_iff in Ec as [Ec|Ec].
      * left. by destruct (IsZero (RawCutoff q)).
      * right. by apply Z.ltb_ge in Ec.
Qed.

(** A query is answered from a table that can answer it: the hourly one
    only if it keeps every field the query names, the raw one only if it still
    holds the beginning of the window. *)
Theorem table_fits q b :
  compile q = inl b ->
  match table b with
  | TableRollup => Forall (fun n => Rollup (field n) = true) (GroupBy q) /\ Forall (fun fl => Rollup (field (fl_Field fl)) = true) (Filters q)
  | TableRaw => IsZero (RawCutoff q) = true \/ RawCutoff q <= From_ q
  end.
Proof. intros (fcs & fps & C)%compile_inv. by eapply table_fits_of. Qed.

Lemma chooseTable_raw q : IsZero (RawCutoff q) = true -> time_Sub (To_ q) (From_ q) <= 7 * 24 * Hour ->
  chooseTable RFC3339 q = inl TableRaw.
Proof. intros Hz Hw. unfold chooseTable. rewrite Hz. cbn [negb andb]. by rewrite (proj2 (Z.ltb_ge _ _) Hw), andb_false_r. Qed.

(** Individual flows are read from the raw table, from no earlier than it
    reaches and up to the end asked for. *)
Lemma records_raw (q : Query) b :
  let qq := recordsQuery q in
  compile (qq <| To_ := time_Add (From_ qq) Hour |>) = inl b ->
  table b = TableRaw /\ From_ q <= From_ qq /\ (IsZero (RawCutoff q) = false -> RawCutoff q <= From_ qq)
  /\ params b !! "from" = Some (FormatMilli (From_ qq)).
Proof.
  intros qq H. pose proof H as (fcs & fps & C)%compile_inv.
  assert (table b = TableRaw) as Ht.
  { pose proof (cp_table _ _ _ _ _ _ _ _ _ _ C) as Ht. rewrite chooseTable_raw in Ht; [congruence|done|].
    cbn [To_ From_]. unfold time_Sub, time_Add, minDuration, maxDuration, Hour, Minute, Second. cbn. lia. }
  split; [done|]. assert (From_ q <= From_ qq /\ (IsZero (RawCutoff q) = false -> RawCutoff q <= From_ qq)) as [H1 H2].
  { subst qq. unfold recordsQuery. cbn. destruct (IsZero (RawCutoff q)); cbn; [split; [lia|done]|].
    destruct (Z.ltb_spec (From_ q) (RawCutoff q)); cbn; lia. }
  split; [done|]. split; [done|]. apply (params_own _ _ _ _ _ _ _ _ H). rewrite Ht. cbn. apply list_elem_of_here.
Qed.
End tables.

(** The resolution of the chart: no finer than the table, and of at most about
    150 points when the window is not longer than 150 days. *)
Lemma Step_spec t from to :
  In (Step t from to) steps /\ (t = TableRollup -> Hour <= Step t from to)
  /\ (0 <= time_Sub to from <= 150 * 24 * Hour -> time_Sub to from < 150 * (Step t from to + 1)).
Proof.
  unfold Step. destruct (List.find _ steps) as [s|] eqn:E; cbn [from_option].
  - apply List.find_some in E as [Hin H]. apply andb_true_iff in H as [H1 H2%Z.leb_le].
    split; [done|]. split.
    + intros ->. rewrite bool_decide_true in H1 by done. cbn in H1. apply negb_true_iff, Z.ltb_ge in H1. done.
    + intros Hd. rewrite Z.quot_div_nonneg in H2 by lia. unfold id. pose proof (Z.div_mod (time_Sub to from) 150 ltac:(lia)). pose proof (Z.mod_pos_bound (time_Sub to from) 150 ltac:(lia)). lia.
  - split; [cbn; tauto|]. split; [intros _; by vm_compute|]. intros Hd. exfalso.
    pose proof (List.find_none _ _ E (24 * Hour)) as H. assert (In (24 * Hour) steps) as Hin by (cbn; tauto). specialize (H Hin).
    apply andb_false_iff in H as [H|H].
    + destruct t; vm_compute in H; done.
    + apply Z.leb_gt in H. rewrite Z.quot_div_nonneg in H by lia. unfold Hour, Minute, Second in *.
      pose proof (Z.div_le_upper_bound (time_Sub to from) 150 (24 * (60 * (60 * 10 ^ 9)))). lia.
Qed.

(** ** The explorer *)

Lemma LastIndex_no s i : zb 32 ∉ s -> LastIndex s as_ i = None.
Proof.
  revert i. induction s as [|c s IH]; intros i; [done|]. rewrite not_elem_of_cons. intros [Hc Hs]. cbn [LastIndex].
  rewrite IH by done. rewrite decide_False; [done|]. intros E. apply Hc. by injection E.
Qed.

Lemma LastIndex_alias e tl i : zb 32 ∉ tl -> (exists c r, tl = c :: r /\ c <> zb 65) -> LastIndex (e ++ as_ ++ tl) as_ i = Some (i + length e)%nat.
Proof.
  intros Hs (c & r & -> & Hc). revert i. induction e as [|x e IH]; intros i.
  - assert (LastIndex (zb 32 :: c :: r) as_ (S (S (S i))) = None) as H3.
    { cbn [LastIndex]. pose proof (LastIndex_no (c :: r) (S (S (S (S i)))) Hs) as H. cbn [LastIndex] in H. rewrite H.
      rewrite decide_False; [done|]. intros E. apply Hc. by injection E. }
    change as_ with [zb 32; zb 65; zb 83; zb 32] at 1. cbn [app]. cbn [LastIndex] in H3 |- *. rewrite H3.
    rewrite !decide_False by (intros E; by vm_compute in E). rewrite decide_True by done. f_equal. cbn. lia.
  - cbn [app LastIndex]. rewrite IH. f_equal. cbn. lia.
Qed.

Lemma withoutAlias_group e i : withoutAlias (e +:+ " AS g" +:+ itoa i) = Ret e.
Proof.
  unfold withoutAlias. destruct (Itoa_digits (Z.of_nat i)) as (_ & Hd & _); [lia|].
  assert (to_bytes (e +:+ " AS g" +:+ itoa i) = to_bytes e ++ as_ ++ (zb 103 :: to_bytes (itoa i))) as ->.
  { rewrite !to_bytes_app. reflexivity. }
  rewrite LastIndex_alias.
  - rewrite slice_ret; [|lia|lia|unfold len; rewrite length_app; lia].
    cbn [mbind outcome_bind]. f_equal. rewrite <- (app_nil_l (to_bytes e ++ _)). rewrite sub_app_exact; [apply of_to_bytes|done|unfold len; lia].
  - apply not_elem_of_cons. split; [done|]. intros Hin. rewrite Forall_forall in Hd. by apply Hd in Hin.
  - by eexists _, _.
Qed.

Lemma tupleOf_groups ns : tupleOf (imap (fun i n => groupExpr (field n) +:+ " AS g" +:+ itoa i) ns)
  = Ret (Join (map (fun n => groupExpr (field n)) ns) ", ").
Proof.
  unfold tupleOf. assert (forall k, withoutAliases (imap (fun i n => groupExpr (field n) +:+ " AS g" +:+ itoa (k + i)) ns)
    = Ret (map (fun n => groupExpr (field n)) ns)) as H.
  { induction ns as [|n ns IH]; intros k; [done|]. rewrite imap_cons. cbn [withoutAliases map]. rewrite withoutAlias_group. cbn [mbind outcome_bind].
    rewrite (imap_ext _ (fun i n => groupExpr (field n) +:+ " AS g" +:+ itoa (S k + i))); [by rewrite IH|].
    intros i n' _. cbn. by rewrite Nat.add_succ_r. }
  specialize (H 0%nat). cbn [Nat.add] in H. by rewrite H.
Qed.

(** Every position a key is found at is a position of the list. *)
Definition within_ {K} `{Countable K} (idx : gmap K nat) (n : nat) : Prop := forall k i, idx !! k = Some i -> (i < n)%nat.

Lemma topGroups_idx n rows : forall gs idx, within_ idx (length gs) ->
  within_ (topGroups n rows gs idx).2 (length (topGroups n rows gs idx).1).
Proof.
  induction rows as [|r rows IH]; intros gs idx Hi; [done|]. cbn [topGroups]. apply IH. rewrite length_app. intros k i.
  destruct (decide (k = keyOf n r)) as [-> |]; [rewrite lookup_insert_eq; intros [= <-]; cbn; lia|].
  rewrite lookup_insert_ne by done. intros Hk%Hi. lia.
Qed.

Lemma totals_idx m step rows : forall s idx, within_ idx (length (Times s)) -> length (Total s) = length (Times s) ->
  let '(s', idx') := totals m step rows s idx in within_ idx' (length (Times s')) /\ length (Total s') = length (Times s').
Proof.
  induction rows as [|r rows IH]; intros s idx Hi Ht; [done|]. cbn [totals]. apply IH; cbn; rewrite ?length_app; [|cbn; lia].
  intros k i. destruct (decide (k = int64 (parseUint (r !! "t")))) as [-> |]; [rewrite lookup_insert_eq; intros [= <-]; cbn; lia|].
  rewrite lookup_insert_ne by done. intros Hk%Hi. lia.
Qed.

Definition rect (g t : nat) (lines : list (list float64)) : Prop := length lines = g /\ Forall (fun l => length l = t) lines.

Lemma setLine_rect g t lines gi ti x : rect g t lines -> (gi < g)%nat -> (ti < t)%nat ->
  exists lines', setLine lines gi ti x = Ret lines' /\ rect g t lines' /\ (lines' !! gi) ≫= (.!! ti) = Some x.
Proof.
  intros [Hg Ht] Hgi Hti. unfold setLine. destruct (lookup_lt_is_Some_2 lines gi) as [line El]; [lia|].
  assert (length line = t) as Hlt by (by eapply Forall_lookup in Ht).
  destruct (lookup_lt_is_Some_2 line ti) as [y Ey]; [lia|].
  rewrite (index_lookup _ _ line) by (rewrite ?Nat2Z.id; (done || lia)). cbn [mbind outcome_bind].
  rewrite (index_lookup _ _ y) by (rewrite ?Nat2Z.id; (done || lia)). cbn [mbind outcome_bind].
  eexists. split; [done|]. split.
  - split; [by rewrite length_insert|]. apply Forall_insert; [done|by rewrite length_insert].
  - rewrite list_lookup_insert_eq by lia. cbn. apply list_lookup_insert_eq. lia.
Qed.

Lemma fillLines_rect n m step gidx tidx g t rows : within_ gidx g -> within_ tidx t -> forall lines, rect g t lines ->
  exists lines', fillLines n m step gidx tidx rows lines = Ret lines' /\ rect g t lines'.
Proof.
  intros Hg Ht. induction rows as [|r rows IH]; intros lines Hr; cbn [fillLines]; [by eexists|].
  destruct (gidx !! _) as [gi|] eqn:Eg; [|by apply IH]. destruct (tidx !! _) as [ti|] eqn:Et; [|by apply IH].
  destruct (setLine_rect g t lines gi ti (rate (parseUint (r !! "m_v")) m step) Hr) as (l' & -> & Hr' & _); [by eapply Hg|by eapply Ht|].
  by apply IH.
Qed.

Section explore.
Context (FormatSec FormatMilli RFC3339 : Time -> string) (Quote ToUpper ToLower : string -> string).
Context (Select : nat -> string -> gmap string string -> option (list jrow)).
Abbreviation compile := (compile FormatSec FormatMilli RFC3339 Quote ToUpper ToLower).
Abbreviation Explore := (Explore FormatSec FormatMilli RFC3339 Quote ToUpper ToLower Select).

(** C39. Whatever is asked and whatever ClickHouse answers, the explorer
    returns: a refusal, a failure of the store, or a result whose lines are one
    for each group and whose points are one for each time of its axis. A
    refused request is not sent. *)
Theorem explore_total q :
  wp (Explore q) (fun r =>
    match r with
    | inl res => let s := res_Series res in
        length (Total s) = length (Times s) /\ Forall (fun l => length l = length (Times s)) (Lines s)
        /\ length (Lines s) = length (Groups res) /\ exists b, compile q = inl b /\ table b = res_Table res
    | inr (Refused msg) => compile q = inr msg
    | inr (StoreFailed k) => exists b sql, compile q = inl b /\ Select k sql (params b) = None
    end).
Proof.
  unfold FlowSQL.Explore. destruct (compile q) as [b|msg] eqn:E; [|done].
  unfold select. destruct (Select 0%nat _ _) as [tot|] eqn:E0; [|by repeat eexists].
  set (rows := if bool_decide (keys b = []) then inl [] else _).
  assert (match rows with inl _ => True | inr (StoreFailed k) => exists sql, Select k sql (params b) = None | inr _ => False end) as Hrows.
  { subst rows. case_bool_decide; [done|]. destruct (Select 1%nat _ _) eqn:E1; [done|]. by eexists. }
  destruct rows as [rows|[msg|k]]; [|done|destruct Hrows; by repeat eexists]. clear Hrows.
  pose proof (topGroups_idx (length (keys b)) rows [] ∅) as Hg. destruct (topGroups _ rows [] ∅) as [groups gidx]. cbn [fst snd] in Hg.
  destruct (Select 2%nat _ _) as [trows|] eqn:E2; [|by repeat eexists].
  set (st := Step _ _ _).
  pose proof (totals_idx (Metric q) st trows (mkSeries (Z.quot st Second) [] [] []) ∅) as Ht.
  assert (Lines (totals (Metric q) st trows (mkSeries (Z.quot st Second) [] [] []) ∅).1 = []) as Hl.
  { clear. generalize (∅ : gmap Z nat). assert (Lines (mkSeries (Z.quot st Second) [] [] []) = []) as H by done. revert H.
    generalize (mkSeries (Z.quot st Second) [] [] []). induction trows as [|r trows IH]; intros s Hs idx; [done|]. cbn [totals]. by apply IH. }
  destruct (totals _ st trows _ ∅) as [series tidx]. cbn [fst] in Hl.
  destruct Ht as [Htw Htl]; [intros k i Hk; by rewrite lookup_empty in Hk|done|].
  case_bool_decide as Eg.
  { subst groups. apply wp_ret. cbn. rewrite Hl. split; [done|]. split; [by apply Forall_nil|]. split; [done|]. by exists b. }
  apply compile_inv in E as Hc. destruct Hc as (fcs & fps & C). rewrite (cp_gkeys _ _ _ _ _ _ _ _ _ _ C), tupleOf_groups. cbn [mbind outcome_bind].
  destruct (Select 3%nat _ _) as [srows|] eqn:E3; [|by repeat eexists].
  destruct (fillLines_rect (length (keys b)) (Metric q) st gidx tidx (length groups) (length (Times series)) srows) with (lines :=
    replicate (length groups) (replicate (length (Times series)) (float_of 0))) as (lines & -> & Hlen & Hall); try done.
  { apply Hg. intros k i Hk. by rewrite lookup_empty in Hk. }
  { split; [by rewrite length_replicate|]. apply Forall_replicate. by rewrite length_replicate. }
  cbn [mbind outcome_bind]. apply wp_ret. cbn. split; [done|]. split; [done|]. split; [done|]. by exists b.
Qed.
End explore.

(** ** Witnesses *)

Definition demoTime (t : Time) : string := Itoa (t / Second).
Definition demoQuote (s : string) : string := "'" +:+ s +:+ "'".
Definition demoCompile : Query -> answer built := compile demoTime demoTime demoTime demoQuote (fun s => s) (fun s => s).

(** A user and a prefix, over an hour, by source and interface. *)
Definition demoQuery (user net : string) : Query :=
  mkQuery 0 Hour [mkFilter "user" false [user; "ann"]; mkFilter "addr" true [net]] ["src_addr"; "in_if"] "bytes" 10 (Some [V4 1]) zeroTime.

Example demo_where : where_ <$> match demoCompile (demoQuery "x' OR 1=1 --" "10.0.0.0/8") with inl b => Some b | _ => None end
  = Some ("received >= {from:DateTime64(3, 'UTC')} AND received < {to:DateTime64(3, 'UTC')} AND exporter IN ({e0:IPv6})" +:+
    " AND (user = {f0_0:String} OR user = {f0_1:String})" +:+
    " AND NOT (src_addr BETWEEN {f1_0_0lo:IPv6} AND {f1_0_0hi:IPv6} OR dst_addr BETWEEN {f1_0_1lo:IPv6} AND {f1_0_1hi:IPv6})").
Proof. vm_compute. reflexivity. Qed.

Lemma values_are_parameters_witness : exists b b',
  demoCompile (demoQuery "x' OR 1=1 --" "10.0.0.0/8") = inl b /\ demoCompile (demoQuery "bob" "::/0") = inl b' /\
  (where_ b = where_ b' /\ keys b = keys b' /\ gkeys b = gkeys b' /\ tcol b = tcol b' /\ metric b = metric b' /\ count_ b = count_ b').
Proof.
  eexists _, _. split; [vm_compute; reflexivity|]. split; [vm_compute; reflexivity|].
  eapply (values_are_parameters demoTime demoTime demoTime demoQuote (fun s => s) (fun s => s)
    (demoQuery "x' OR 1=1 --" "10.0.0.0/8") (demoQuery "bob" "::/0")); [vm_compute; reflexivity|vm_compute; reflexivity| |vm_compute; reflexivity].
  split; [|done|done|done]. unfold demoQuery. cbn [Filters]. repeat constructor.
Defined.

Lemma params_own_witness : exists b, demoCompile (demoQuery "bob" "10.0.0.0/8") = inl b /\
  ((forall k x, (k, x) ∈ snd (timeCond demoTime demoTime (table b) (demoQuery "bob" "10.0.0.0/8")) -> params b !! k = Some x)
  /\ (forall l i a, Exporters (demoQuery "bob" "10.0.0.0/8") = Some l -> l !! i = Some a -> params b !! exporterKey i = Some (chAddr a))
  /\ forall i fl f j v ci c,
      Filters (demoQuery "bob" "10.0.0.0/8") !! i = Some fl -> fieldByName !! fl_Field fl = Some f -> Values fl !! j = Some v -> columnsOf f !! ci = Some c ->
      exists t ps, cond demoQuote (fun s => s) (fun s => s) f c (placeholder f i j ci) (TrimSpace v) = inl (t, ps) /\ forall k x, (k, x) ∈ ps -> params b !! k = Some x).
Proof.
  eexists. split; [vm_compute; reflexivity|].
  apply (params_own demoTime demoTime demoTime demoQuote (fun s => s) (fun s => s) (demoQuery "bob" "10.0.0.0/8")). vm_compute. reflexivity.
Defined.

(** The cases of the repository's own test. *)
Example prefix_range_v4 : prefixRange (mkPrefix (V4 (10 * 2 ^ 24 + 2 ^ 16)) 16) = ("::ffff:10.1.0.0", "::ffff:10.1.255.255").
Proof. vm_compute. reflexivity. Qed.
Example prefix_range_v6 : option_map prefixRange (ParsePrefix "2001:db8::/32") = Some ("2001:db8::", "2001:db8:ffff:ffff:ffff:ffff:ffff:ffff").
Proof. vm_compute. reflexivity. Qed.

Lemma prefix_range_witness : exists lo hi,
  prefixRange (Masked (mkPrefix (V4 (10 * 2 ^ 24 + 5)) 8)) = (Addr_String (V6 lo ""), Addr_String (V6 hi ""))
  /\ (Contains (mkPrefix (V4 (10 * 2 ^ 24 + 5)) 8) (V4 (11 * 2 ^ 24)) = true <-> lo <= As16 (V4 (11 * 2 ^ 24)) <= hi).
Proof. apply prefix_range; [unfold Addr_wf, pip; lia|unfold Addr_wf; lia|done|unfold pip, pbits, BitLen; lia|done|done|done|by left]. Defined.

Lemma table_fits_witness : exists b, demoCompile (demoQuery "bob" "10.0.0.0/8") = inl b /\
  match table b with
  | TableRollup => Forall (fun n => Rollup (field n) = true) (GroupBy (demoQuery "bob" "10.0.0.0/8"))
      /\ Forall (fun fl => Rollup (field (fl_Field fl)) = true) (Filters (demoQuery "bob" "10.0.0.0/8"))
  | TableRaw => IsZero (RawCutoff (demoQuery "bob" "10.0.0.0/8")) = true \/ RawCutoff (demoQuery "bob" "10.0.0.0/8") <= From_ (demoQuery "bob" "10.0.0.0/8")
  end.
Proof.
  eexists. split; [vm_compute; reflexivity|].
  apply (table_fits demoTime demoTime demoTime demoQuote (fun s => s) (fun s => s) (demoQuery "bob" "10.0.0.0/8")). vm_compute. reflexivity.
Defined.

(** A window that ends before it begins is refused by the explorer, and
    answered with nothing by the list of flows. *)
Example reversed_window : let q := mkQuery Hour 0 [] [] "" 0 None zeroTime in
  demoCompile q = bad "'to' must be after 'from'"
  /\ Records demoTime demoTime demoTime demoQuote (fun s => s) (fun s => s) (fun _ _ _ => Some []) q "" = inl [].
Proof. vm_compute. done. Qed.
