(* ===== verification/FlowQuery.v ===== *)
(** Package flowquery (service.go, store.go, and the request of explore.go):
    from an API filter to the addresses, the metrics selector and the queries
    of an answer.

    The metrics store, the address book and the text of a duration or a date
    are parameters. What a selector means is read back with [readSelector]. *)
From Stdlib Require Import ZArith Lia.
From stdpp Require Import base list gmap strings numbers sorting.
From S2P Require Import Prelude GoText GoSort Netip NetipParse Errx FlowTypes Float64 Aggregate.

(** ** Addresses and devices *)

Record Attribution : Type := mkAttribution { Addr_ : string; at_DeviceID : string; at_DeviceName : string; at_SiteID : string; Claimed : bool }.

Definition normAddr (s : string) : string := match ParseAddr s with Some a => Addr_String (Unmap a) | None => s end.

Definition newIndex (book : list Attribution) : gmap string Attribution :=
  foldl (fun x a => match x !! normAddr (Addr_ a) with Some _ => x | None => <[normAddr (Addr_ a) := a]> x end) ∅ book.

(** ** Filters and selectors *)

Record Filter : Type := mkFilter {
  Dimension_ : string; f_From : Time; f_To : Time; DeviceID : string; SiteID : string; f_Exporters : list string; f_IfIndex : string
}.

Definition interval : Duration := Minute.
Definition DefaultLimit : Z := 25.
Definition MaxLimit : Z := 100.
Definition DefaultSeries : Z := 10.
Definition MaxSeries : Z := 50.
Definition maxPoints : Z := 1440.

Definition errNoAddresses : Err := New KindNotFound "no device matches the filter".

Definition backslash : byte := zb 92.
Definition dquote : byte := zb 34.
Definition pipe : byte := zb 124.

Definition ReplaceByte (c : byte) (by_ : bytes) (b : bytes) : bytes := concat (map (fun x => if decide (x = c) then by_ else [x]) b).

Definition quote (s : string) : string :=
  let b := ReplaceByte backslash [backslash; backslash] (to_bytes s) in
  let b := ReplaceByte dquote [backslash; dquote] b in
  of_bytes ([dquote] ++ b ++ [dquote]).

(** [regexp.QuoteMeta]. *)
Definition metas : bytes := to_bytes "\.+*?()|[]{}^$".
Definition QuoteMeta (s : string) : string :=
  of_bytes (concat (map (fun c => if bool_decide (c ∈ metas) then [backslash; c] else [c]) (to_bytes s))).

(** [strings.TrimSuffix(sel, "}")]. *)
Definition trimBrace (s : string) : string :=
  of_bytes (match reverse (to_bytes s) with c :: r => if decide (c = zb 125) then reverse r else to_bytes s | [] => [] end).

Definition withValues (sel : string) (values : list string) : string :=
  trimBrace sel +:+ ",value=~" +:+ quote (Join (map QuoteMeta values) "|") +:+ "}".

Definition window (f : Filter) : string :=
  let w := time_Sub (f_To f) (f_From f) in
  "[" +:+ Itoa (int_of (Seconds_float (if w <? interval then interval else w))) +:+ "s]".

Definition Dimensions : list string :=
  [DimTalker; DimConversation; DimApplication; DimProtocol; DimDSCP; DimAS; DimSubnet; DimTCPFlags].

Definition validDimension (d : string) : option Err :=
  if bool_decide (d ∈ Dimensions) then None
  else Some (New KindInvalid ("dimension must be one of " +:+ Join Dimensions ", ")).

Definition Step (from to : Time) (asked : Duration) : Duration :=
  let floor := Z.quot (time_Sub to from) maxPoints in
  let step := if asked <? floor then floor else asked in
  let n := Z.quot (int64 (step + interval - 1)) interval in
  (if n <? 1 then 1 else n) * interval.

(** The selector of addresses, a dimension and an interface. *)
Definition selector (addrs : list string) (dim ifIndex : string) : string :=
  let parts := match addrs with
    | [] => []
    | [a] => ["exporter=" +:+ quote a]
    | _ => ["exporter=~" +:+ quote (Join (map QuoteMeta addrs) "|")]
    end in
  let parts := if decide (dim = "") then parts else parts ++ ["dimension=" +:+ quote dim] in
  let parts := if decide (ifIndex = "") then parts else parts ++ ["if_index=" +:+ quote ifIndex] in
  "{" +:+ Join parts "," +:+ "}".

(** The keys of [want], in whatever order: they are sorted next. *)
Definition wanted (exporters : list string) : gset string := list_to_set (map normAddr exporters).

(** The loop over the addresses of a scoped filter, with those seen. *)
Fixpoint scopedAddrs (f : Filter) (idx : gmap string Attribution) (seen : gset string) (book : list Attribution) : list string :=
  match book with
  | [] => []
  | a :: book =>
      if negb (bool_decide (DeviceID f = "")) && negb (bool_decide (at_DeviceID a = DeviceID f)) then scopedAddrs f idx seen book
      else if negb (bool_decide (SiteID f = "")) && negb (bool_decide (at_SiteID a = SiteID f)) then scopedAddrs f idx seen book
      else
        let k := normAddr (Addr_ a) in
        if negb (bool_decide (at_DeviceID <$> idx !! k = Some (at_DeviceID a))) || bool_decide (k ∈ seen) then scopedAddrs f idx seen book
        else k :: scopedAddrs f idx ({[k]} ∪ seen) book
  end.

(** The addresses a filter covers, before they are sorted. *)
Definition covered (f : Filter) (idx : gmap string Attribution) (book : list Attribution) : list string + Err :=
  let scoped := negb (bool_decide (DeviceID f = "")) || negb (bool_decide (SiteID f = "")) in
  let addrs := if scoped then scopedAddrs f idx ∅ book else [] in
  if scoped && bool_decide (addrs = []) then inr errNoAddresses
  else if bool_decide (f_Exporters f = []) then inl addrs
  else if scoped then
    let kept := filter (fun a => a ∈ wanted (f_Exporters f)) addrs in
    if bool_decide (kept = []) then inr errNoAddresses else inl kept
  else inl (elements (wanted (f_Exporters f))).

Record Sample : Type := mkSample { Labels : gmap string string; Value_ : float64 }.
Record Point : Type := mkPoint { p_T : Z; p_V : float64 }.
Record RawSeries : Type := mkRawSeries { rs_Labels : gmap string string; rs_Points : list Point }.

Definition label (l : gmap string string) (k : string) : string := default "" (l !! k).

Record Exporter : Type := mkExporter { x_Exporter : string; x_DeviceID : string; x_DeviceName : string }.
Record TopRow : Type := mkTopRow {
  r_Value : string; r_Bytes : float64; r_Packets : float64; BitsPerSecond : float64; Share : float64; r_Sampled : bool; r_Exporters : list Exporter
}.
#[export] Instance eta_TopRow : Eta TopRow := fun r =>
  mkTopRow (r_Value r) (r_Bytes r) (r_Packets r) (BitsPerSecond r) (Share r) (r_Sampled r) (r_Exporters r).
Record TopResult : Type := mkTopResult {
  t_Dimension : string; t_From : Time; t_To : Time; t_Exporters : list string; TotalBytes : float64; TotalPackets : float64; Data : list TopRow
}.
#[export] Instance eta_TopResult : Eta TopResult := fun r =>
  mkTopResult (t_Dimension r) (t_From r) (t_To r) (t_Exporters r) (TotalBytes r) (TotalPackets r) (Data r).

Definition attribute (idx : gmap string Attribution) (addr : string) : Exporter :=
  match idx !! normAddr addr with
  | Some a => mkExporter addr (at_DeviceID a) (at_DeviceName a)
  | None => mkExporter addr "" ""
  end.

Definition exporter_le (a b : Exporter) : Prop := str_le (x_Exporter a) (x_Exporter b).
#[export] Instance exporter_le_dec a b : Decision (exporter_le a b).
Proof. unfold exporter_le. apply _. Defined.

(** [b] does not go before [a] in the ranking. *)
Definition rank_le (a b : TopRow) : Prop :=
  (if negb (feq (r_Bytes b) (r_Bytes a)) then flt (r_Bytes a) (r_Bytes b) else str_lt (r_Value b) (r_Value a)) = false.
#[export] Instance rank_le_dec a b : Decision (rank_le a b).
Proof. unfold rank_le. apply _. Defined.

Definition float0 : float64 := float_of 0.
Definition newRow (v : string) : TopRow := mkTopRow v float0 float0 float0 float0 false [].

(** A sample of the bytes of a value, by exporter. *)
Definition addBytes (idx : gmap string Attribution) (rows : gmap string TopRow) (smp : Sample) : gmap string TopRow :=
  match rows !! label (Labels smp) "value" with
  | None => rows
  | Some r =>
      let e := label (Labels smp) "exporter" in
      let r := r <| r_Bytes := fadd (r_Bytes r) (Value_ smp) |>
                 <| r_Sampled := r_Sampled r || bool_decide (label (Labels smp) "sampled" = "true") |> in
      let r := if decide (e ∈ map x_Exporter (r_Exporters r)) then r else r <| r_Exporters := r_Exporters r ++ [attribute idx e] |> in
      <[label (Labels smp) "value" := r]> rows
  end.

Definition addPackets (rows : gmap string TopRow) (smp : Sample) : gmap string TopRow :=
  match rows !! label (Labels smp) "value" with
  | None => rows
  | Some r => <[label (Labels smp) "value" := r <| r_Packets := fadd (r_Packets r) (Value_ smp) |>]> rows
  end.

Definition finishRow (secs total : float64) (r : TopRow) : TopRow :=
  r <| r_Exporters := merge_sort exporter_le (r_Exporters r) |>
    <| BitsPerSecond := fdiv (fmul (r_Bytes r) (float_of 8)) secs |> <| Share := fdiv (r_Bytes r) total |>.

Definition MetricBytes : string := "netinv_flow_bytes".
Definition MetricPackets : string := "netinv_flow_packets".

Definition totalExpr (metric sel w : string) : string := "sum(sum_over_time(" +:+ metric +:+ sel +:+ w +:+ "))".
Definition topExpr (limit : Z) (sel w : string) : string :=
  "topk(" +:+ Itoa limit +:+ ", sum by (value) (sum_over_time(" +:+ MetricBytes +:+ sel +:+ w +:+ ")))".
Definition detailExpr (metric sel w : string) (values : list string) : string :=
  "sum by (value, exporter, sampled) (sum_over_time(" +:+ metric +:+ withValues sel values +:+ w +:+ "))".
Definition rateExpr (by_ sel : string) (st : Z) : string :=
  "sum " +:+ by_ +:+ " (sum_over_time(" +:+ MetricBytes +:+ sel +:+ "[" +:+ Itoa st +:+ "s])) * 8 / " +:+ Itoa st.

Record SeriesLine : Type := mkSeriesLine { l_Value : string; l_Points : list Point }.
Record SeriesResult : Type := mkSeriesResult {
  s_Dimension : string; s_From : Time; s_To : Time; StepS : Z; Unit_ : string; s_Exporters : list string;
  s_Total : list Point; s_Data : list SeriesLine
}.

Record ExporterRow : Type := mkExporterRow { er_Exporter : Exporter; er_SiteID : string; er_Claimed : bool; er_Bytes : float64; er_Sampled : bool }.
#[export] Instance eta_ExporterRow : Eta ExporterRow := fun r =>
  mkExporterRow (er_Exporter r) (er_SiteID r) (er_Claimed r) (er_Bytes r) (er_Sampled r).

Definition bytes_ge (a b : ExporterRow) : Prop := flt (er_Bytes a) (er_Bytes b) = false.
#[export] Instance bytes_ge_dec a b : Decision (bytes_ge a b).
Proof. unfold bytes_ge. apply _. Defined.

Definition addExporter (idx : gmap string Attribution) (rows : gmap string ExporterRow) (smp : Sample) : gmap string ExporterRow :=
  let e := normAddr (label (Labels smp) "exporter") in
  let r := match rows !! e with
    | Some r => r
    | None =>
        let r := mkExporterRow (attribute idx e) "" false float0 false in
        match idx !! e with Some a => r <| er_SiteID := at_SiteID a |> <| er_Claimed := Claimed a |> | None => r end
    end in
  <[e := r <| er_Bytes := fadd (er_Bytes r) (Value_ smp) |>
           <| er_Sampled := er_Sampled r || bool_decide (label (Labels smp) "sampled" = "true") |>]> rows.

(** ** The service *)

Section service.
Context (MaxRange : Duration) (DurString : Duration -> string) (Addresses : list Attribution + Err).
(** The answers of the metrics store: to the [k]th query of a call. *)
Context (QueryAt : nat -> string -> Time -> list Sample + Err).
Context (QueryRange : nat -> string -> Time -> Time -> Duration -> list RawSeries + Err).

Definition checkWindow (from to : Time) : option Err :=
  if negb (from <? to) then Some (New KindInvalid "'from' must be before 'to'")
  else if (0 <? MaxRange) && (MaxRange <? time_Sub to from) then
    Some (New KindInvalid ("window exceeds retention (" +:+ DurString MaxRange +:+ ")"))
  else None.

Definition resolve (f : Filter) : string * list string * gmap string Attribution + Err :=
  match checkWindow (f_From f) (f_To f) with
  | Some e => inr e
  | None =>
      if negb (bool_decide (f_IfIndex f = "")) && bool_decide (DeviceID f = "") && bool_decide (f_Exporters f = []) then
        inr (New KindInvalid "if_index needs a device or exporter")
      else
        match Addresses with
        | inr e => inr e
        | inl book =>
            let idx := newIndex book in
            match covered f idx book with
            | inr e => inr e
            | inl addrs =>
                let addrs := sort_Strings addrs in
                inl (selector addrs (Dimension_ f) (f_IfIndex f), addrs, idx)
            end
        end
  end.

Definition first (out : list Sample) : float64 := match out with s :: _ => Value_ s | [] => float0 end.

Definition top (f : Filter) (limit : Z) : TopResult * string + Err :=
  match validDimension (Dimension_ f) with
  | Some e => inr e
  | None =>
      match resolve f with
      | inr e => inr e
      | inl (sel, addrs, idx) =>
          let w := window f in
          match QueryAt 0 (totalExpr MetricBytes sel w) (f_To f) with
          | inr e => inr e
          | inl tb =>
          match QueryAt 1 (totalExpr MetricPackets sel w) (f_To f) with
          | inr e => inr e
          | inl tp =>
              let res := mkTopResult (Dimension_ f) (f_From f) (f_To f) addrs (first tb) (first tp) [] in
              if feq (first tb) float0 then inl (res, sel) else
              match QueryAt 2 (topExpr limit sel w) (f_To f) with
              | inr e => inr e
              | inl [] => inl (res, sel)
              | inl ranked =>
                  let values := map (fun t => label (Labels t) "value") ranked in
                  match QueryAt 3 (detailExpr MetricBytes sel w values) (f_To f) with
                  | inr e => inr e
                  | inl bytesBy =>
                  match QueryAt 4 (detailExpr MetricPackets sel w values) (f_To f) with
                  | inr e => inr e
                  | inl pktsBy =>
                      let rows := list_to_map (map (fun v => (v, newRow v)) values) in
                      let rows := foldl addPackets (foldl (addBytes idx) rows bytesBy) pktsBy in
                      let secs := Seconds_float (time_Sub (f_To f) (f_From f)) in
                      let data := map (fun v => finishRow secs (first tb) (default (newRow v) (rows !! v))) values in
                      inl (res <| Data := merge_sort rank_le data |>, sel)
                  end end
              end
          end end
      end
  end.

Definition Top (f : Filter) (limit : Z) : TopResult + Err :=
  match top f limit with inl (res, _) => inl res | inr e => inr e end.

Definition Series (f : Filter) (limit : Z) (asked : Duration) : SeriesResult + Err :=
  match top f limit with
  | inr e => inr e
  | inl (t, sel) =>
      let step := Step (f_From f) (f_To f) asked in
      let st := int_of (Seconds_float step) in
      let res := mkSeriesResult (Dimension_ f) (f_From f) (f_To f) st "bits_per_second" (t_Exporters t) in
      match Data t with
      | [] => inl (res [] [])
      | data =>
          let values := map r_Value data in
          match QueryRange 0 (rateExpr "by (value)" (withValues sel values) st) (f_From f) (f_To f) step with
          | inr e => inr e
          | inl lines =>
          match QueryRange 1 (rateExpr "" sel st) (f_From f) (f_To f) step with
          | inr e => inr e
          | inl total =>
              let byValue := foldl (fun m l => <[label (rs_Labels l) "value" := rs_Points l]> m) (∅ : gmap string (list Point)) lines in
              inl (res (match total with l :: _ => rs_Points l | [] => [] end)
                (map (fun v => mkSeriesLine v (default [] (byValue !! v))) values))
          end end
      end
  end.

(** [Exporters]; [order] is the order in which the rows come out of the map. *)
Definition Exporters (order : list ExporterRow -> list ExporterRow) (from to : Time) : list ExporterRow + Err :=
  match checkWindow from to with
  | Some e => inr e
  | None =>
      match Addresses with
      | inr e => inr e
      | inl book =>
          let idx := newIndex book in
          let f := mkFilter "" from to "" "" [] "" in
          match QueryAt 0 ("sum by (exporter, sampled) (sum_over_time(" +:+ MetricBytes +:+ "{dimension=" +:+ quote "application" +:+ "}" +:+ window f +:+ "))") to with
          | inr e => inr e
          | inl samples => inl (merge_sort bytes_ge (order (map snd (map_to_list (foldl (addExporter idx) ∅ samples)))))
          end
      end
  end.
End service.

(** * Properties *)

(** ** What a filter covers *)

Definition scoped (f : Filter) : Prop := DeviceID f <> "" \/ SiteID f <> "".

(** An attribution the device and the site of a filter let through. *)
Definition inScope (f : Filter) (a : Attribution) : Prop :=
  (DeviceID f = "" \/ at_DeviceID a = DeviceID f) /\ (SiteID f = "" \/ at_SiteID a = SiteID f).

(** The device an address counts for. *)
Definition ownerOf (idx : gmap string Attribution) (k : string) : option string := at_DeviceID <$> idx !! k.

Definition claimedBy (f : Filter) (idx : gmap string Attribution) (book : list Attribution) (k : string) : Prop :=
  exists a, a ∈ book /\ normAddr (Addr_ a) = k /\ inScope f a /\ ownerOf idx k = Some (at_DeviceID a).

(** The addresses a filter means. *)
Definition covers (f : Filter) (book : list Attribution) (k : string) : Prop :=
  (scoped f -> claimedBy f (newIndex book) book k) /\ (f_Exporters f <> [] -> k ∈ map normAddr (f_Exporters f))
  /\ (scoped f \/ f_Exporters f <> []).

Lemma claimedBy_cons f idx a book k : claimedBy f idx (a :: book) k <->
  (normAddr (Addr_ a) = k /\ inScope f a /\ ownerOf idx k = Some (at_DeviceID a)) \/ claimedBy f idx book k.
Proof.
  unfold claimedBy. split.
  - intros (x & [->|Hx]%elem_of_cons & H); [by left|right; by exists x].
  - intros [H|(x & Hx & H)]; [exists a; split; [apply list_elem_of_here|done]|exists x; split; [by apply list_elem_of_further|done]].
Qed.

Lemma scopedAddrs_spec f idx book : forall seen,
  NoDup (scopedAddrs f idx seen book) /\ forall k, k ∈ scopedAddrs f idx seen book <-> (k ∉ seen) /\ claimedBy f idx book k.
Proof.
  induction book as [|a book IH]; intros seen; cbn [scopedAddrs].
  { split; [apply NoDup_nil_2|]. intros k. split; [intros []%elem_of_nil|]. intros [_ (x & []%elem_of_nil & _)]. }
  set (k0 := normAddr (Addr_ a)).
  assert (forall l, (~ (inScope f a /\ ownerOf idx k0 = Some (at_DeviceID a)) \/ k0 ∈ seen) ->
    (NoDup l /\ forall k, k ∈ l <-> (k ∉ seen) /\ claimedBy f idx book k) ->
    NoDup l /\ forall k, k ∈ l <-> (k ∉ seen) /\ claimedBy f idx (a :: book) k) as Hskip.
  { intros l Hno [Hn Hl]. split; [done|]. intros k. rewrite Hl, claimedBy_cons. split; [tauto|].
    intros [Hk [(<- & Hs & Ho)|Hc]]; [|done]. destruct Hno as [Hno|Hno]; [by destruct Hno|done]. }
  destruct (bool_decide_reflect (DeviceID f = "")) as [Ed|Ed], (bool_decide_reflect (at_DeviceID a = DeviceID f)) as [Ed'|Ed'];
    cbn [negb andb]; try (apply Hskip; [|by apply IH]; left; unfold inScope; tauto).
  all: destruct (bool_decide_reflect (SiteID f = "")) as [Es|Es], (bool_decide_reflect (at_SiteID a = SiteID f)) as [Es'|Es'];
    cbn [negb andb]; try (apply Hskip; [|by apply IH]; left; unfold inScope; tauto).
  all: destruct (bool_decide_reflect (at_DeviceID <$> idx !! k0 = Some (at_DeviceID a))) as [Eo|Eo]; cbn [negb orb];
    [|apply Hskip; [left; unfold ownerOf; tauto|by apply IH]].
  all: destruct (bool_decide_reflect (k0 ∈ seen)) as [Ek|Ek]; [apply Hskip; [by right|by apply IH]|].
  all: destruct (IH ({[k0]} ∪ seen)) as [Hn Hl]; split; [apply NoDup_cons; split; [rewrite Hl; set_solver|done]|].
  all: intros k; rewrite elem_of_cons, Hl, claimedBy_cons, not_elem_of_union, not_elem_of_singleton; split;
    [intros [->|[[Hk1 Hk2] Hc]]; [split; [done|left; unfold inScope, ownerOf; tauto]|tauto]|].
  all: intros [Hk [(<- & _)|Hc]]; [by left|destruct (decide (k = k0)); [by left|right; tauto]].
Qed.

Lemma wanted_spec es k : k ∈ wanted es <-> k ∈ map normAddr es.
Proof. unfold wanted. apply elem_of_list_to_set. Qed.

Lemma covered_spec f book addrs : covered f (newIndex book) book = inl addrs ->
  NoDup addrs /\ (forall k, k ∈ addrs <-> covers f book k) /\ (addrs = [] -> ~ scoped f /\ f_Exporters f = []).
Proof.
  unfold covered, covers. destruct (scopedAddrs_spec f (newIndex book) book ∅) as [Hn Hl].
  set (sc := negb (bool_decide (DeviceID f = "")) || negb (bool_decide (SiteID f = ""))).
  assert (sc = true <-> scoped f) as Hsc.
  { unfold sc, scoped. rewrite orb_true_iff, !negb_true_iff, !bool_decide_eq_false. done. }
  destruct sc; cbn [andb].
  - assert (scoped f) as Hs by (by apply Hsc). case_bool_decide as En; [done|].
    case_bool_decide as Ee.
    + intros [= <-]. split; [done|]. split; [|done]. intros k. rewrite Hl, Ee. pose proof (not_elem_of_empty (C := gset string) k). split; [|tauto].
      intros [_ Hc]. split; [done|]. split; [done|by left].
    + set (kept := filter _ _). case_bool_decide as Ek; [done|]. intros [= <-]. split; [by apply NoDup_filter|]. split; [|done].
      intros k. unfold kept. rewrite list_elem_of_filter, wanted_spec, Hl. pose proof (not_elem_of_empty (C := gset string) k). split; [|tauto].
      intros [Hw [_ Hc]]. split; [done|]. split; [done|by left].
  - assert (~ scoped f) as Hs by (rewrite <- Hsc; done). case_bool_decide as Ee.
    + intros [= <-]. split; [apply NoDup_nil_2|]. split; [|done]. intros k. split; [intros []%elem_of_nil|]. intros (_ & _ & [?|?]); done.
    + intros [= <-]. split; [apply NoDup_elements|]. split.
      * intros k. rewrite elem_of_elements, wanted_spec. split; [|intros (_ & H & _); by apply H]. intros H. split; [done|]. split; [done|by right].
      * intros E. exfalso. destruct (f_Exporters f) as [|e es]; [done|].
        assert (normAddr e ∈ elements (wanted (e :: es))) as Hin by (apply elem_of_elements, wanted_spec, list_elem_of_here).
        rewrite E in Hin. by apply elem_of_nil in Hin.
Qed.

Section resolve_proofs.
Context (MaxRange : Duration) (DurString : Duration -> string) (book : list Attribution).
Abbreviation resolve := (resolve MaxRange DurString (inl book)).

Lemma resolve_inv f sel addrs idx : resolve f = inl (sel, addrs, idx) ->
  idx = newIndex book /\ (exists l, covered f idx book = inl l /\ addrs = sort_Strings l) /\ sel = selector addrs (Dimension_ f) (f_IfIndex f)
  /\ checkWindow MaxRange DurString (f_From f) (f_To f) = None.
Proof.
  unfold FlowQuery.resolve. destruct (checkWindow _ _ _ _); [done|]. case_match; [done|].
  destruct (covered f (newIndex book) book) as [l|] eqn:E; [|done]. intros [= <- <- <-]. split; [done|]. split; [by exists l|done].
Qed.

Lemma resolve_covers_of f sel addrs idx : resolve f = inl (sel, addrs, idx) ->
  NoDup addrs /\ StronglySorted str_le addrs /\ (forall k, k ∈ addrs <-> covers f book k) /\ (addrs = [] <-> ~ scoped f /\ f_Exporters f = []).
Proof.
  intros (-> & (l & Hc & ->) & _)%resolve_inv. destruct (covered_spec _ _ _ Hc) as (Hn & Hl & He). unfold sort_Strings.
  split; [by apply NoDup_merge_sort|]. split; [by apply (StronglySorted_merge_sort str_le)|].
  assert (forall k, k ∈ merge_sort str_le l <-> covers f book k) as Hk by (intros k; by rewrite elem_of_merge_sort, Hl). split; [done|].
  split.
  - intros E. apply He. apply Permutation_nil_r. rewrite <- (merge_sort_Permutation str_le l). by rewrite E.
  - intros [Hs Hx]. destruct (merge_sort str_le l) as [|k ks] eqn:E; [done|]. destruct (proj1 (Hk k)) as (_ & _ & [?|?]); [apply list_elem_of_here|done|done].
Qed.

(** A filter that resolves covers exactly the addresses it means, each
    once: those whose device, as the index has it, the device and the site of
    the filter let through, and of them, or of all, those it names. A filter
    that narrows never resolves to the whole fleet. *)
Theorem resolve_covers f sel addrs idx : resolve f = inl (sel, addrs, idx) ->
  NoDup addrs /\ StronglySorted str_le addrs /\ (forall k, k ∈ addrs <-> covers f book k) /\ (addrs = [] <-> ~ scoped f /\ f_Exporters f = []).
Proof. apply resolve_covers_of. Qed.

(** Two devices never share an address: whatever flow the one is answered
    with, the other is not, and the results name the device asked for. *)
Theorem devices_disjoint f sel addrs idx f' sel' addrs' idx' k :
  resolve f = inl (sel, addrs, idx) -> resolve f' = inl (sel', addrs', idx') ->
  DeviceID f <> "" -> DeviceID f' <> "" -> DeviceID f <> DeviceID f' -> k ∈ addrs ->
  (k ∉ addrs') /\ ownerOf idx k = Some (DeviceID f).
Proof.
  intros H H' Hd Hd' Hne Hk. destruct (resolve_covers_of _ _ _ _ H) as (_ & _ & Hc & _), (resolve_covers_of _ _ _ _ H') as (_ & _ & Hc' & _).
  destruct (resolve_inv _ _ _ _ H) as (-> & _).
  assert (forall g, DeviceID g <> "" -> covers g book k -> ownerOf (newIndex book) k = Some (DeviceID g)) as Ho.
  { intros g Hg (Hs & _). destruct Hs as (a & _ & _ & [[?|Ea] _] & Eo); [by left|done|]. by rewrite Eo, Ea. }
  apply Hc in Hk. apply Ho in Hk; [|done]. split; [|done]. intros Hk'%Hc'%Ho; [|done]. congruence.
Qed.
End resolve_proofs.

(** ** Selectors, read back

    A selector is braces around matchers, a name, [=] or [=~], and a literal
    in double quotes in which a backslash gives the next character. After [=~]
    the literal is a regular expression: of those, alternatives of plain
    characters are read, a character with a meaning of its own only after a
    backslash. *)

Fixpoint readLiteral (b acc : bytes) : option (bytes * bytes) :=
  match b with
  | [] => None
  | c :: b =>
      if decide (c = dquote) then Some (reverse acc, b)
      else if decide (c = backslash) then
        match b with [] => None | c' :: b' => if decide (c' = backslash \/ c' = dquote) then readLiteral b' (c' :: acc) else None end
      else readLiteral b (c :: acc)
  end.

Fixpoint readAlternatives (b acc : bytes) : option (list bytes) :=
  match b with
  | [] => Some [reverse acc]
  | c :: b =>
      if decide (c = backslash) then
        match b with [] => None | c' :: b' => if decide (c' ∈ metas) then readAlternatives b' (c' :: acc) else None end
      else if decide (c = pipe) then l ← readAlternatives b []; Some (reverse acc :: l)
      else if decide (c ∈ metas) then None
      else readAlternatives b (c :: acc)
  end.

Fixpoint readName (b acc : bytes) : option (bytes * bytes) :=
  match b with [] => None | c :: b => if decide (c = zb 61) then Some (reverse acc, b) else readName b (c :: acc) end.

(** A matcher: the label, and the values it lets through. *)
Definition readMatcher (b : bytes) : option ((string * list string) * bytes) :=
  '(name, b) ← readName b [];
  match b with
  | c :: b' =>
      if decide (c = zb 126) then
        match b' with
        | q :: b' => if decide (q = dquote) then '(lit, b) ← readLiteral b' []; alts ← readAlternatives lit []; Some ((of_bytes name, map of_bytes alts), b) else None
        | [] => None
        end
      else if decide (c = dquote) then '(lit, b) ← readLiteral b' []; Some ((of_bytes name, [of_bytes lit]), b) else None
  | [] => None
  end.

(** Matchers, separated by commas, up to the closing brace; the fuel is the
    length of the text. *)
Fixpoint readMatchers (fuel : nat) (b : bytes) : option (list (string * list string)) :=
  match fuel with
  | O => None
  | S fuel =>
      '(m, b) ← readMatcher b;
      match b with
      | c :: b => if decide (c = comma) then ms ← readMatchers fuel b; Some (m :: ms) else if decide (c = zb 125) then (if decide (b = []) then Some [m] else None) else None
      | [] => None
      end
  end.

Definition readSelector (s : string) : option (list (string * list string)) :=
  match to_bytes s with
  | c :: b => if decide (c = zb 123) then (if decide (b = [zb 125]) then Some [] else readMatchers (length b) b) else None
  | [] => None
  end.

(** [quote], a character at a time. *)
Definition escaped (b : bytes) : bytes :=
  concat (map (fun c => if decide (c = backslash \/ c = dquote) then [backslash; c] else [c]) b).

Lemma quote_escaped s : to_bytes (quote s) = dquote :: escaped (to_bytes s) ++ [dquote].
Proof.
  unfold quote. rewrite to_of_bytes. cbn [app]. f_equal. f_equal. unfold ReplaceByte, escaped.
  induction (to_bytes s) as [|c b IH]; [done|]. cbn [map concat]. rewrite map_app, concat_app, IH. f_equal.
  destruct (decide (c = backslash)) as [->|Hc]; [by vm_compute|]. destruct (decide (c = backslash \/ c = dquote)) as [Ho|Ho].
  - destruct Ho as [Ho| ->]; [done|]. by vm_compute.
  - cbn [map concat app]. rewrite decide_False; [done|]. tauto.
Qed.

Lemma readLiteral_escaped b rest : forall acc, readLiteral (escaped b ++ dquote :: rest) acc = Some (reverse acc ++ b, rest).
Proof.
  induction b as [|c b IH]; intros acc; cbn [escaped map concat app].
  - cbn [readLiteral]. rewrite decide_True by done. by rewrite app_nil_r.
  - fold (escaped b). destruct (decide (c = backslash \/ c = dquote)) as [Ho|Ho]; cbn [app].
    + cbn [readLiteral]. rewrite decide_False by done. rewrite decide_True by done. rewrite decide_True by done. rewrite IH, reverse_cons, <- app_assoc. done.
    + cbn [readLiteral]. rewrite decide_False by tauto. rewrite decide_False by tauto. rewrite IH, reverse_cons, <- app_assoc. done.
Qed.

Lemma meta_facts : backslash ∈ metas /\ pipe ∈ metas /\ backslash <> pipe.
Proof. split; [|split]; [apply (bool_decide_unpack _); by vm_compute..|done]. Qed.

Lemma readAlternatives_meta s tl : forall acc,
  readAlternatives (to_bytes (QuoteMeta s) ++ tl) acc = readAlternatives tl (reverse (to_bytes s) ++ acc).
Proof.
  destruct meta_facts as (Hbs & Hp & _). unfold QuoteMeta. rewrite to_of_bytes. induction (to_bytes s) as [|c b IH]; intros acc; [done|].
  cbn [map concat]. rewrite reverse_cons, <- (app_assoc (reverse b)). cbn [app]. destruct (bool_decide_reflect (c ∈ metas)) as [Hm|Hm]; cbn [app readAlternatives].
  - rewrite decide_True by done. rewrite decide_True by done. apply IH.
  - rewrite !decide_False by (try done; intros ->; done). apply IH.
Qed.

Lemma readAlternatives_Join vs : vs <> [] -> readAlternatives (to_bytes (Join (map QuoteMeta vs) "|")) [] = Some (map to_bytes vs).
Proof.
  destruct meta_facts as (_ & _ & Hbp). induction vs as [|v vs IH]; [done|]. intros _. destruct vs as [|v' vs].
  - cbn [map Join]. rewrite <- (app_nil_r (to_bytes (QuoteMeta v))), readAlternatives_meta. cbn [readAlternatives]. by rewrite app_nil_r, reverse_involutive.
  - change (Join (map QuoteMeta (v :: v' :: vs)) "|") with (QuoteMeta v +:+ ("|" +:+ Join (map QuoteMeta (v' :: vs)) "|")).
    rewrite !to_bytes_app, readAlternatives_meta. change (to_bytes "|") with [pipe]. cbn [app readAlternatives].
    rewrite decide_False by done. rewrite decide_True by done. rewrite IH by done. cbn [mbind option_bind]. by rewrite app_nil_r, reverse_involutive.
Qed.

(** A part of a selector, as it is written and as it reads. *)
Definition plainName (s : string) : bool := bool_decide (zb 61 ∉ to_bytes s).

Lemma readName_app n b : zb 61 ∉ n -> forall acc, readName (n ++ zb 61 :: b) acc = Some (reverse acc ++ n, b).
Proof.
  induction n as [|c n IH]; intros Hn acc; cbn [app readName]; [rewrite decide_True by done; by rewrite app_nil_r|].
  apply not_elem_of_cons in Hn as [Hc Hn]. rewrite decide_False by congruence. rewrite IH by done. by rewrite reverse_cons, <- app_assoc.
Qed.

Lemma readName_eq n b : zb 61 ∉ n -> readName (n ++ zb 61 :: b) [] = Some (n, b).
Proof. intros Hn. by rewrite readName_app. Qed.
Lemma readLiteral_eq b rest : readLiteral (escaped b ++ dquote :: rest) [] = Some (b, rest).
Proof. by rewrite readLiteral_escaped. Qed.

Lemma readMatcher_eq name v rest : zb 61 ∉ to_bytes name ->
  readMatcher (to_bytes (name +:+ "=" +:+ quote v) ++ rest) = Some ((name, [v]), rest).
Proof.
  intros Hn. unfold readMatcher. rewrite !to_bytes_app, quote_escaped, <- !app_assoc. change (to_bytes "=") with [zb 61]. cbn [app].
  rewrite readName_eq by done. cbn [mbind option_bind]. rewrite decide_False by done. rewrite decide_True by done.
  rewrite <- app_assoc. cbn [app]. rewrite readLiteral_eq. cbn [mbind option_bind]. by rewrite !of_to_bytes.
Qed.

Lemma readMatcher_re name vs rest : zb 61 ∉ to_bytes name -> vs <> [] ->
  readMatcher (to_bytes (name +:+ "=~" +:+ quote (Join (map QuoteMeta vs) "|")) ++ rest) = Some ((name, vs), rest).
Proof.
  intros Hn Hvs. unfold readMatcher. rewrite !to_bytes_app, quote_escaped, <- !app_assoc. change (to_bytes "=~") with [zb 61; zb 126]. cbn [app].
  rewrite readName_eq by done. cbn [mbind option_bind]. rewrite !decide_True by done.
  rewrite <- app_assoc. cbn [app]. rewrite readLiteral_eq. cbn [mbind option_bind]. rewrite readAlternatives_Join by done.
  cbn [mbind option_bind]. rewrite of_to_bytes. do 3 f_equal. rewrite map_map. rewrite <- (map_id vs) at 2. apply map_ext. intros x. apply of_to_bytes.
Qed.

(** A text that reads as one matcher, whatever follows it. *)
Definition reads (part : string) (m : string * list string) : Prop :=
  forall rest, readMatcher (to_bytes part ++ rest) = Some (m, rest).

Lemma readMatchers_Join parts ms : Forall2 reads parts ms -> parts <> [] -> forall fuel,
  (length parts <= fuel)%nat -> readMatchers fuel (to_bytes (Join parts ",") ++ [zb 125]) = Some ms.
Proof.
  induction 1 as [|p m parts ms Hp Hps IH]; [done|]. intros _ [|fuel] Hf; [cbn in Hf; lia|]. destruct Hps as [|p' m' parts ms Hp' Hps].
  - cbn [Join readMatchers]. rewrite Hp. cbn [mbind option_bind]. rewrite decide_False by done. by rewrite !decide_True by done.
  - change (Join (p :: p' :: parts) ",") with (p +:+ ("," +:+ Join (p' :: parts) ",")). rewrite !to_bytes_app, <- !app_assoc.
    cbn [readMatchers]. rewrite Hp. change (to_bytes ",") with [comma]. cbn [app mbind option_bind]. rewrite decide_True by done.
    rewrite IH; [done|done|cbn in *; lia].
Qed.

Lemma length_Join parts : Forall (fun p => to_bytes p <> []) parts -> (length parts <= length (to_bytes (Join parts ",")))%nat.
Proof.
  induction 1 as [|p parts Hp Hps IH]; [cbn; lia|]. destruct parts as [|p' parts].
  - cbn [Join length]. destruct (to_bytes p); [done|]. cbn. lia.
  - change (Join (p :: p' :: parts) ",") with (p +:+ ("," +:+ Join (p' :: parts) ",")). rewrite !to_bytes_app, !length_app. cbn in *.
    destruct (to_bytes p); [done|]. cbn. lia.
Qed.

Lemma reads_nonempty p m : reads p m -> to_bytes p <> [].
Proof. intros H E. specialize (H []). rewrite E in H. done. Qed.

Lemma readSelector_parts parts ms : Forall2 reads parts ms -> readSelector ("{" +:+ Join parts "," +:+ "}") = Some ms.
Proof.
  intros H. unfold readSelector. rewrite !to_bytes_app. change (to_bytes "{") with [zb 123]. cbn [app]. rewrite decide_True by done.
  change (to_bytes "}") with [zb 125]. destruct H as [|p m parts ms Hp Hps]; [by rewrite decide_True|].
  assert (to_bytes (Join (p :: parts) ",") <> []) as Hne.
  { intros E. pose proof (length_Join (p :: parts)) as Hl. rewrite E in Hl. cbn in Hl. assert (S (length parts) <= 0)%nat; [apply Hl|lia].
    apply Forall_cons. split; [by eapply reads_nonempty|]. clear -Hps. induction Hps; constructor; [by eapply reads_nonempty|done]. }
  rewrite decide_False.
  2: { intros E. destruct (to_bytes (Join (p :: parts) ",")) as [|x l]; [done|]. injection E as -> E. by apply app_eq_nil in E as [_ ?]. }
  apply readMatchers_Join; [by constructor|done|]. rewrite length_app. cbn [length].
  pose proof (length_Join (p :: parts)) as Hl. rewrite Nat.add_1_r. apply Nat.le_le_succ_r, Hl.
  apply Forall_cons. split; [by eapply reads_nonempty|]. clear -Hps. induction Hps; constructor; [by eapply reads_nonempty|done].
Qed.

Definition partsOf (addrs : list string) (dim ifIndex : string) : list string :=
  match addrs with [] => [] | [a] => ["exporter=" +:+ quote a] | _ => ["exporter=~" +:+ quote (Join (map QuoteMeta addrs) "|")] end
  ++ (if decide (dim = "") then [] else ["dimension=" +:+ quote dim]) ++ (if decide (ifIndex = "") then [] else ["if_index=" +:+ quote ifIndex]).

(** What the selector is meant to select. *)
Definition matchers (addrs : list string) (dim ifIndex : string) : list (string * list string) :=
  (if decide (addrs = []) then [] else [("exporter", addrs)])
  ++ (if decide (dim = "") then [] else [("dimension", [dim])]) ++ (if decide (ifIndex = "") then [] else [("if_index", [ifIndex])]).

Lemma selector_parts addrs dim ifIndex : selector addrs dim ifIndex = "{" +:+ Join (partsOf addrs dim ifIndex) "," +:+ "}".
Proof. unfold selector, partsOf. do 2 case_decide; rewrite ?app_nil_r, <- ?app_assoc; done. Qed.

Lemma reads_eq name v : zb 61 ∉ to_bytes name -> reads (name +:+ "=" +:+ quote v) (name, [v]).
Proof. intros Hn rest. by apply readMatcher_eq. Qed.
Lemma reads_re name vs : zb 61 ∉ to_bytes name -> vs <> [] -> reads (name +:+ "=~" +:+ quote (Join (map QuoteMeta vs) "|")) (name, vs).
Proof. intros Hn Hvs rest. by apply readMatcher_re. Qed.

Lemma no_equals s : bool_decide (zb 61 ∉ to_bytes s) = true -> zb 61 ∉ to_bytes s.
Proof. apply bool_decide_eq_true_1. Qed.

Lemma partsOf_read addrs dim ifIndex : Forall2 reads (partsOf addrs dim ifIndex) (matchers addrs dim ifIndex).
Proof.
  unfold partsOf, matchers. apply Forall2_app; [|apply Forall2_app].
  - destruct addrs as [|a [|a' addrs]]; [constructor|..]; rewrite decide_False by done; constructor; try constructor.
    + apply (reads_eq "exporter"), no_equals. by vm_compute.
    + apply (reads_re "exporter"); [|done]. apply no_equals. by vm_compute.
  - case_decide; constructor; try constructor. apply (reads_eq "dimension"), no_equals. by vm_compute.
  - case_decide; constructor; try constructor. apply (reads_eq "if_index"), no_equals. by vm_compute.
Qed.

(** C34. Whatever the addresses, names and values are made of, quotes,
    backslashes and the characters of regular expressions among them, the text
    of a selector reads back as the matchers it was made from, and no more. *)
Theorem selector_exact addrs dim ifIndex values :
  readSelector (selector addrs dim ifIndex) = Some (matchers addrs dim ifIndex)
  /\ (matchers addrs dim ifIndex <> [] -> values <> [] ->
      readSelector (withValues (selector addrs dim ifIndex) values) = Some (matchers addrs dim ifIndex ++ [("value", values)])).
Proof.
  rewrite selector_parts. pose proof (partsOf_read addrs dim ifIndex) as Hp. split; [by apply readSelector_parts|].
  intros Hm Hv. set (parts := partsOf addrs dim ifIndex) in *. assert (parts <> []) as Hne.
  { intros E. rewrite E in Hp. by apply Forall2_nil_inv_l in Hp. }
  set (value := "value=~" +:+ quote (Join (map QuoteMeta values) "|")).
  assert (withValues ("{" +:+ Join parts "," +:+ "}") values = "{" +:+ Join (parts ++ [value]) "," +:+ "}") as ->.
  { assert (trimBrace ("{" +:+ Join parts "," +:+ "}") = "{" +:+ Join parts ",") as E.
    { unfold trimBrace. rewrite <- append_assoc, to_bytes_app. change (to_bytes "}") with [zb 125]. rewrite reverse_app.
      change (reverse [zb 125]) with [zb 125]. cbn [app]. rewrite decide_True by done. by rewrite reverse_involutive, of_to_bytes. }
    unfold withValues. rewrite E. assert (Join (parts ++ [value]) "," = Join parts "," +:+ "," +:+ value) as ->; [|subst value; by rewrite !append_assoc].
    clear -Hne. induction parts as [|p parts IH]; [done|]. destruct parts as [|p' parts]; [done|]. cbn [app] in *.
    change (p +:+ ("," +:+ Join (p' :: (parts ++ [value])) ",") = (p +:+ ("," +:+ Join (p' :: parts) ",")) +:+ ("," +:+ value)).
    rewrite IH by done. by rewrite !append_assoc. }
  apply readSelector_parts. apply Forall2_app; [done|]. constructor; [|constructor]. apply (reads_re "value"); [|done]. apply no_equals. by vm_compute.
Qed.

(** ** Steps *)

(** The step of a chart is a whole number of intervals and at least one, no
    shorter than asked for, and coarse enough for [maxPoints] over the window;
    an interval less would not do. *)
Theorem step_fits from to asked :
  from < to -> asked <= maxDuration - interval ->
  let s := Step from to asked in let d := time_Sub to from in
  interval <= s /\ asked <= s /\ s mod interval = 0 /\ d < maxPoints * (s + 1)
  /\ (interval < s -> s - interval < asked \/ (s - interval) * maxPoints < d).
Proof.
  intros Hw Ha. cbn zeta. unfold Step. set (d := time_Sub to from).
  assert (0 <= d <= maxDuration) as Hd by (unfold d, time_Sub, maxDuration, minDuration; lia). clearbody d.
  rewrite (Z.quot_div_nonneg d maxPoints) by (unfold maxPoints; lia).
  pose proof (Z.div_mod d maxPoints ltac:(done)) as Ed. pose proof (Z.mod_pos_bound d maxPoints ltac:(done)) as Em.
  set (fl := d / maxPoints) in *. assert (0 <= fl <= maxDuration / maxPoints) as Hfl.
  { unfold fl. split; [apply Z.div_pos; unfold maxPoints; lia|apply Z.div_le_mono; unfold maxPoints; lia]. }
  change (maxDuration / maxPoints) with 6405119470038038 in Hfl.
  set (st := if asked <? fl then fl else asked).
  assert (asked <= st /\ fl <= st /\ (st = asked \/ st = fl)) as (H1 & H2 & H3) by (unfold st; destruct (Z.ltb_spec asked fl); lia).
  clearbody st fl. unfold interval, maxDuration, maxPoints, Minute, Second in *.
  assert (int64 (st + 60 * 10 ^ 9 - 1) = st + 60 * 10 ^ 9 - 1) as ->.
  { apply signed_small; [done|]. lia. }
  rewrite Z.quot_div_nonneg by lia. pose proof (Z.div_mod (st + 60 * 10 ^ 9 - 1) (60 * 10 ^ 9) ltac:(done)) as En.
  pose proof (Z.mod_pos_bound (st + 60 * 10 ^ 9 - 1) (60 * 10 ^ 9) ltac:(done)) as Enb.
  set (n := (st + 60 * 10 ^ 9 - 1) / (60 * 10 ^ 9)) in *. set (r := (st + 60 * 10 ^ 9 - 1) mod (60 * 10 ^ 9)) in *. clearbody n r.
  assert (0 <= n) by lia. destruct (Z.ltb_spec n 1).
  - assert (n = 0) as -> by lia. repeat split; lia.
  - repeat split; try lia. apply Z_mod_mult.
Qed.

(** ** The ranking *)

Definition sampleOf (smps : list Sample) (v e : string) : Prop :=
  exists smp, smp ∈ smps /\ label (Labels smp) "value" = v /\ label (Labels smp) "exporter" = e.

(** What holds of a row while the samples are added up. *)
Record rowOk (idx : gmap string Attribution) (smps : list Sample) (v : string) (r : TopRow) : Prop := {
  ro_value : r_Value r = v;
  ro_once : NoDup (map x_Exporter (r_Exporters r));
  ro_named : Forall (fun x => x = attribute idx (x_Exporter x)) (r_Exporters r);
  ro_sent e : e ∈ map x_Exporter (r_Exporters r) <-> sampleOf smps v e
}.

Definition rowsOk idx smps (rows : gmap string TopRow) : Prop := forall v r, rows !! v = Some r -> rowOk idx smps v r.

Lemma x_Exporter_attribute idx e : x_Exporter (attribute idx e) = e.
Proof. unfold attribute. by case_match. Qed.

Lemma sampleOf_snoc smps smp v e : sampleOf (smps ++ [smp]) v e <->
  sampleOf smps v e \/ (label (Labels smp) "value" = v /\ label (Labels smp) "exporter" = e).
Proof.
  unfold sampleOf. split.
  - intros (x & [Hx|Hx%list_elem_of_singleton]%elem_of_app & H); [left; by exists x|right; by subst].
  - intros [(x & Hx & H)|H]; [exists x; split; [apply elem_of_app; by left|done]|].
    exists smp. split; [apply elem_of_app; right; by apply list_elem_of_singleton|done].
Qed.

Lemma addBytes_ok idx smps rows smp : rowsOk idx smps rows -> rowsOk idx (smps ++ [smp]) (addBytes idx rows smp).
Proof.
  intros Hr v r. unfold addBytes. set (v0 := label (Labels smp) "value"). set (e0 := label (Labels smp) "exporter").
  destruct (rows !! v0) as [r0|] eqn:E0.
  - destruct (decide (v = v0)) as [->|Hne].
    + rewrite lookup_insert_eq. intros [= <-]. destruct (Hr _ _ E0) as [Hv Hn Ha Hs]. case_decide as Hin; cbn in Hin.
      * split; cbn; [done..|]. intros e. rewrite sampleOf_snoc, Hs. fold v0 e0. split; [tauto|]. intros [?|[_ <-]]; [done|by apply Hs].
      * split; cbn; [done| | |].
        -- rewrite map_app. apply NoDup_app. split; [done|]. split; [|apply NoDup_singleton].
           intros e He ->%list_elem_of_singleton. by rewrite x_Exporter_attribute in He.
        -- apply Forall_app. split; [done|]. constructor; [by rewrite x_Exporter_attribute|constructor].
        -- intros e. rewrite map_app, elem_of_app, sampleOf_snoc, Hs. fold v0 e0. cbn [map]. rewrite list_elem_of_singleton, x_Exporter_attribute.
           split; [intros [?| ->]; [by left|by right]|intros [?|[_ <-]]; [by left|by right]].
    + rewrite lookup_insert_ne by done. intros E. destruct (Hr _ _ E) as [Hv Hn Ha Hs]. split; [done..|].
      intros e. rewrite sampleOf_snoc, Hs. fold v0. split; [tauto|]. intros [?|[? _]]; [done|congruence].
  - intros E. destruct (Hr _ _ E) as [Hv Hn Ha Hs]. split; [done..|]. intros e. rewrite sampleOf_snoc, Hs. fold v0.
    split; [tauto|]. intros [?|[<- _]]; [done|congruence].
Qed.

Lemma addBytes_all idx smps : forall done_ rows, rowsOk idx done_ rows -> rowsOk idx (done_ ++ smps) (foldl (addBytes idx) rows smps).
Proof.
  induction smps as [|smp smps IH]; intros done_ rows Hr; [by rewrite app_nil_r|]. cbn [foldl].
  replace (done_ ++ smp :: smps) with ((done_ ++ [smp]) ++ smps) by (by rewrite <- app_assoc). by apply IH, addBytes_ok.
Qed.

Lemma addPackets_all idx smps pk : forall rows, rowsOk idx smps rows -> rowsOk idx smps (foldl addPackets rows pk).
Proof.
  induction pk as [|smp pk IH]; intros rows Hr; [done|]. cbn [foldl]. apply IH. intros v r. unfold addPackets.
  destruct (rows !! label (Labels smp) "value") as [r0|] eqn:E0; [|apply Hr].
  destruct (decide (v = label (Labels smp) "value")) as [->|Hne]; [|rewrite lookup_insert_ne by done; apply Hr].
  rewrite lookup_insert_eq. intros [= <-]. destruct (Hr _ _ E0). by split.
Qed.

Lemma newRows_ok idx values : rowsOk idx [] (list_to_map (map (fun v => (v, newRow v)) values)).
Proof.
  intros v r E%elem_of_list_to_map_2. apply list_elem_of_fmap in E as (v' & [= -> ->] & _). split; cbn; [done|apply NoDup_nil_2|constructor|].
  intros e. split; [intros []%elem_of_nil|]. intros (smp & []%elem_of_nil & _).
Qed.

Section ranking.
Context (MaxRange : Duration) (DurString : Duration -> string) (Addresses : list Attribution + Err).
Context (QueryAt : nat -> string -> Time -> list Sample + Err).

(** A ranking has a row for each value the store ranked and no other; a row
    lists the exporters the store has bytes of its value from, each once, in
    order, and each with the device the index gives its address. *)
Theorem top_rows f limit res sel :
  top MaxRange DurString Addresses QueryAt f limit = inl (res, sel) -> Data res <> [] ->
  exists ranked bytesBy addrs idx, resolve MaxRange DurString Addresses f = inl (sel, addrs, idx)
    /\ QueryAt 2%nat (topExpr limit sel (window f)) (f_To f) = inl ranked
    /\ QueryAt 3%nat (detailExpr MetricBytes sel (window f) (map (fun t => label (Labels t) "value") ranked)) (f_To f) = inl bytesBy
    /\ map r_Value (Data res) ≡ₚ map (fun t => label (Labels t) "value") ranked
    /\ Forall (fun r => NoDup (map x_Exporter (r_Exporters r)) /\ Forall (fun x => x = attribute idx (x_Exporter x)) (r_Exporters r)
         /\ forall e, e ∈ map x_Exporter (r_Exporters r) <-> sampleOf bytesBy (r_Value r) e) (Data res).
Proof.
  unfold top. destruct (validDimension _); [done|]. destruct (resolve _ _ _ f) as [[[sel' addrs] idx]|] eqn:Er; [|done].
  destruct (QueryAt 0%nat _ _) as [tb|]; [|done]. destruct (QueryAt 1%nat _ _) as [tp|]; [|done].
  destruct (feq _ _); [by intros [= <- <-]|]. destruct (QueryAt 2%nat _ _) as [[|t ranked]|] eqn:E2; [by intros [= <- <-]| |done].
  remember (map _ (t :: ranked)) as values eqn:Ev. destruct (QueryAt 3%nat _ _) as [bytesBy|] eqn:E3; [|done].
  destruct (QueryAt 4%nat _ _) as [pktsBy|] eqn:E4; [|done]. intros [= <- <-] _. cbn [Data set].
  exists (t :: ranked), bytesBy, addrs, idx. rewrite <- Ev. clear Ev. split; [done|]. split; [done|]. split; [done|].
  set (rows := foldl addPackets _ pktsBy).
  assert (rowsOk idx bytesBy rows) as Hrows.
  { apply addPackets_all. apply (addBytes_all idx bytesBy []). apply newRows_ok. }
  assert (forall v, v ∈ values -> is_Some (rows !! v)) as Hdom.
  { intros v Hv. assert (dom rows = list_to_set values) as Hd; [|apply elem_of_dom; rewrite Hd; by apply elem_of_list_to_set].
    unfold rows. clear. assert (forall pk rows, dom (foldl addPackets rows pk) = dom rows) as ->.
    { induction pk as [|smp pk IH]; intros rows; [done|]. cbn [foldl]. rewrite IH. unfold addPackets. case_match eqn:E; [|done].
      rewrite dom_insert_lookup_L; [done|]. by eexists. }
    assert (forall bs rows, dom (foldl (addBytes idx) rows bs) = dom rows) as ->.
    { induction bs as [|smp bs IH]; intros rows; [done|]. cbn [foldl]. rewrite IH. unfold addBytes. case_match eqn:E; [|done].
      rewrite dom_insert_lookup_L; [done|]. by eexists. }
    rewrite dom_list_to_map_L, map_map. cbn. by rewrite map_id. }
  assert (forall v, v ∈ values -> rowOk idx bytesBy v (default (newRow v) (rows !! v))) as Hok.
  { intros v Hv. destruct (Hdom v Hv) as [r E]. rewrite E. by apply Hrows. }
  set (data := map _ values). split.
  - rewrite (merge_sort_Permutation rank_le data). unfold data. rewrite map_map. cbn [r_Value finishRow set].
    match goal with |- ?l ≡ₚ _ => assert (l = values) as ->; [|done] end. rewrite <- (map_id values) at 2. apply map_ext_in. intros v Hv%list_elem_of_In. by destruct (Hok v Hv).
  - apply Forall_forall. intros r Hr. assert (r ∈ data) as Hd by (by rewrite <- (merge_sort_Permutation rank_le data)).
    apply list_elem_of_fmap in Hd as (v & -> & Hv). destruct (Hok v Hv) as [Hv' Hn Ha Hs]. cbn [r_Value r_Exporters finishRow set].
    set (xs := r_Exporters _) in *. assert (merge_sort exporter_le xs ≡ₚ xs) as Hp by apply merge_sort_Permutation.
    split; [by rewrite Hp|]. split; [by rewrite Hp|]. intros e. rewrite Hv', <- Hs. by rewrite Hp.
Qed.
End ranking.

(** ** Witnesses *)

Definition demoBook : list Attribution := [
  mkAttribution "10.0.0.1" "d1" "core" "s1" false;
  mkAttribution "10.0.0.2" "d2" "edge" "s1" false;
  mkAttribution "::ffff:10.0.0.1" "d2" "edge" "s1" true;
  mkAttribution "192.0.2.7" "d2" "edge" "s1" true].

Definition demoFilter (device : string) (exporters : list string) : Filter := mkFilter "talker" 0 Hour device "" exporters "".

Definition demoSelector (matcher : string) : string := "{exporter=" +:+ matcher +:+ ",dimension=" +:+ quote "talker" +:+ "}".

(** The claim of [d2] on the address [d1] is managed at is void. *)
Example demo_resolve : resolve 0 Itoa (inl demoBook) (demoFilter "d2" [])
  = inl (demoSelector ("~" +:+ quote "10\.0\.0\.2|192\.0\.2\.7"), ["10.0.0.2"; "192.0.2.7"], newIndex demoBook).
Proof. vm_compute. reflexivity. Qed.

Lemma resolve_covers_witness : let f := demoFilter "d2" ["192.0.2.7"] in
  resolve 0 Itoa (inl demoBook) f = inl (demoSelector (quote "192.0.2.7"), ["192.0.2.7"], newIndex demoBook) /\
  (NoDup ["192.0.2.7"] /\ StronglySorted str_le ["192.0.2.7"] /\ (forall k, k ∈ ["192.0.2.7"] <-> covers f demoBook k)
   /\ (["192.0.2.7"] = [] <-> ~ scoped f /\ f_Exporters f = [])).
Proof.
  split; [vm_compute; reflexivity|].
  apply (resolve_covers 0 Itoa demoBook (demoFilter "d2" ["192.0.2.7"]) (demoSelector (quote "192.0.2.7")) _ (newIndex demoBook)). vm_compute. reflexivity.
Defined.

Lemma devices_disjoint_witness :
  resolve 0 Itoa (inl demoBook) (demoFilter "d1" []) = inl (demoSelector (quote "10.0.0.1"), ["10.0.0.1"], newIndex demoBook)
  /\ (("192.0.2.7" ∉ ["10.0.0.1"]) /\ ownerOf (newIndex demoBook) "192.0.2.7" = Some "d2").
Proof.
  split; [vm_compute; reflexivity|].
  apply (devices_disjoint 0 Itoa demoBook (demoFilter "d2" []) (demoSelector ("~" +:+ quote "10\.0\.0\.2|192\.0\.2\.7")) ["10.0.0.2"; "192.0.2.7"] (newIndex demoBook)
    (demoFilter "d1" []) (demoSelector (quote "10.0.0.1")) ["10.0.0.1"] (newIndex demoBook)); [vm_compute; reflexivity|vm_compute; reflexivity|done|done|done|].
  apply list_elem_of_further, list_elem_of_here.
Defined.

Lemma step_fits_witness : let s := Step 0 (30 * 24 * Hour) Minute in let d := time_Sub (30 * 24 * Hour) 0 in
  interval <= s /\ Minute <= s /\ s mod interval = 0 /\ d < maxPoints * (s + 1)
  /\ (interval < s -> s - interval < Minute \/ (s - interval) * maxPoints < d).
Proof. apply (step_fits 0 (30 * 24 * Hour) Minute); vm_compute; done. Defined.

(** A step of nearly as long as a duration can be wraps around and becomes the
    shortest, whatever the window. *)
Example step_wraps : Step 0 (365 * 24 * Hour) (9223372036 * Second) = Minute
  /\ maxPoints * (300 * Minute) < time_Sub (365 * 24 * Hour) 0.
Proof. vm_compute. done. Qed.

(** A store in which one exporter sent 600 bytes of one value in the last
    minute. *)
Definition demoStore (k : nat) (expr : string) (at_ : Time) : list Sample + Err :=
  inl [mkSample {["value" := "a"; "exporter" := "10.0.0.1"]} (float_of 600)].

(** Over ten seconds the sum is taken over a minute, and divided by ten. *)
Example short_window : let f := mkFilter "talker" 0 (10 * Second) "" "" [] "" in
  window f = "[60s]" /\ match top 0 Itoa (inl demoBook) demoStore f 10 with
  | inl (res, _) => map r_Bytes (Data res) = [float_of 600] /\ map BitsPerSecond (Data res) = [float_of 480]
  | inr _ => False
  end.
Proof. vm_compute. done. Qed.

Lemma top_rows_witness : exists res sel, top 0 Itoa (inl demoBook) demoStore (demoFilter "" []) 10 = inl (res, sel) /\
  exists ranked bytesBy addrs idx, resolve 0 Itoa (inl demoBook) (demoFilter "" []) = inl (sel, addrs, idx)
    /\ demoStore 2%nat (topExpr 10 sel (window (demoFilter "" []))) (f_To (demoFilter "" [])) = inl ranked
    /\ demoStore 3%nat (detailExpr MetricBytes sel (window (demoFilter "" [])) (map (fun t => label (Labels t) "value") ranked)) (f_To (demoFilter "" [])) = inl bytesBy
    /\ map r_Value (Data res) ≡ₚ map (fun t => label (Labels t) "value") ranked
    /\ Forall (fun r => NoDup (map x_Exporter (r_Exporters r)) /\ Forall (fun x => x = attribute idx (x_Exporter x)) (r_Exporters r)
         /\ forall e, e ∈ map x_Exporter (r_Exporters r) <-> sampleOf bytesBy (r_Value r) e) (Data res).
Proof.
  eexists _, _. split; [vm_compute; reflexivity|].
  eapply (top_rows 0 Itoa (inl demoBook) demoStore (demoFilter "" []) 10); [vm_compute; reflexivity|done].
Defined.

(** Addresses and values that try to leave their literal. *)
Lemma selector_exact_witness :
  readSelector (withValues (selector ["10.0.0.1"; "10.0.0.2"] ("ta" +:+ of_bytes [dquote] +:+ "lker") "") ["a|b.*"; "}" +:+ of_bytes [dquote; backslash]])
  = Some [("exporter", ["10.0.0.1"; "10.0.0.2"]); ("dimension", ["ta" +:+ of_bytes [dquote] +:+ "lker"]); ("value", ["a|b.*"; "}" +:+ of_bytes [dquote; backslash]])].
Proof.
  destruct (selector_exact ["10.0.0.1"; "10.0.0.2"] ("ta" +:+ of_bytes [dquote] +:+ "lker") "" ["a|b.*"; "}" +:+ of_bytes [dquote; backslash]]) as [_ H].
  apply H; done.
Defined.
