(* ===== verification/FlowExplore.v ===== *)
(** Package flowquery (explore.go): the explorer's requests, from the body to
    the query of the flow store, and the names its answers are shown with.

    The body is taken decoded; the parsing of a date is a parameter. *)
From Stdlib Require Import ZArith Lia.
From stdpp Require Import base list gmap strings numbers sorting.
From S2P Require Import Prelude GoText Netip NetipParse Errx FlowTypes FlowWriter FlowSQL FlowQuery.

Record exploreRequest : Type := mkRequest {
  in_From : string; in_To : string; in_Filters : list FlowSQL.Filter; in_GroupBy : list string; in_Metric : string; in_Limit : Z;
  in_OrderBy : string; Devices : list string; Sites : list string
}.

(** [Configured]: the store has an address. *)
Record Explorer : Type := mkExplorer { Configured : bool; RawDays : Z; RollupDays : Z }.

(** [strconv.ParseInt(s, 10, 64)], as [Atoi]. *)
Definition ParseInt (s : string) : option Z := Atoi s.

Section parse.
Context (ParseRFC3339 : string -> option Time).

Definition parseAt (s : string) (def : Time) : option Time :=
  if bool_decide (s = "") then Some def else
  match ParseRFC3339 s with
  | Some t => Some t
  | None => n ← ParseInt s; Some (time_Unix n 0)
  end.

Definition wantDevice (inp : exploreRequest) (a : Attribution) : bool :=
  bool_decide (("d:" +:+ at_DeviceID a) ∈ map (String.append "d:") (Devices inp) ++ map (String.append "s:") (Sites inp))
  || bool_decide (("s:" +:+ at_SiteID a) ∈ map (String.append "d:") (Devices inp) ++ map (String.append "s:") (Sites inp)).

(** The exporters of a request: [None] when it names neither devices nor sites.
    [order] is the order in which the addresses come out of the map. *)
Definition exportersOf (order : list (string * Attribution) -> list (string * Attribution)) (inp : exploreRequest)
    (byAddr : gmap string Attribution) : option (list Addr) :=
  if bool_decide (Devices inp = []) && bool_decide (Sites inp = []) then None else
  Some (omap (fun ka => if wantDevice inp ka.2 then ParseAddr ka.1 else None) (order (map_to_list byAddr))).

Definition parse (order : list (string * Attribution) -> list (string * Attribution)) (e : Explorer) (now : Time) (body : option exploreRequest)
    (Addresses : list Attribution + Err) : exploreRequest * FlowSQL.Query * gmap string Attribution + Err :=
  if negb (Configured e) then inr (New KindNotFound "raw flow storage is not configured (NETINV_FLOW_CH_URL)") else
  match body with
  | None => inr (New KindInvalid "body must be a JSON explorer query")
  | Some inp =>
      match parseAt (in_To inp) now with
      | None => inr (New KindInvalid "bad 'to': want RFC3339 or a unix timestamp")
      | Some to =>
      match parseAt (in_From inp) (time_Add to (- Hour)) with
      | None => inr (New KindInvalid "bad 'from': want RFC3339 or a unix timestamp")
      | Some from =>
          let max := int64 (RollupDays e * (24 * Hour)) in
          if (0 <? max) && (max <? time_Sub to from) then
            inr (New KindInvalid ("the window is longer than the " +:+ Itoa (RollupDays e) +:+ "-day rollup retention"))
          else
            let cutoff := if 0 <? RawDays e then time_Add now (- int64 (RawDays e * (24 * Hour))) else zeroTime in
            match Addresses with
            | inr err => inr err
            | inl book =>
                let byAddr := newIndex book in
                inl (inp, mkQuery from to (in_Filters inp) (in_GroupBy inp) (in_Metric inp) (in_Limit inp) (exportersOf order inp byAddr) cutoff, byAddr)
            end
      end end
  end.
End parse.

(** ** Names *)

Record ExporterLabel : Type := mkExporterLabel { lb_DeviceID : string; lb_DeviceName : string }.
#[export] Instance ExporterLabel_eq_dec : EqDecision ExporterLabel.
Proof. solve_decision. Defined.

(** The labels of the exporters, the devices they name, and the keys of the
    interfaces seen. *)
Record Labels : Type := mkLabels { lb_Exporters : gmap string ExporterLabel; lb_Devices : gset string; ifKeys : list string }.
#[export] Instance eta_Labels : Eta Labels := fun l => mkLabels (lb_Exporters l) (lb_Devices l) (ifKeys l).

Definition note (book : gmap string Attribution) (l : Labels) (addr : string) : Labels :=
  match lb_Exporters l !! addr with
  | Some _ => l
  | None =>
      match book !! normAddr addr with
      | Some att => l <| lb_Exporters := <[addr := mkExporterLabel (at_DeviceID att) (at_DeviceName att)]> (lb_Exporters l) |>
                      <| lb_Devices := {[at_DeviceID att]} ∪ lb_Devices l |>
      | None => l
      end
  end.

(** One key of a group, under the field it was grouped by. *)
Definition noteKey (book : gmap string Attribution) (l : Labels) (n key : string) : Labels :=
  if bool_decide (n = "exporter") then note book l key
  else if bool_decide (n ∈ ["in_if"; "out_if"]) then
    match Cut key bar with
    | Some (addr, _) => (note book l addr) <| ifKeys := ifKeys l ++ [key] |>
    | None => l
    end
  else l.

(** The loop over the groups; a group has a key for each field. *)
Fixpoint noteGroup (book : gmap string Attribution) (l : Labels) (ns keys : list string) : outcome Labels :=
  match ns, keys with
  | [], _ => Ret l
  | n :: ns, k :: keys => noteGroup book (noteKey book l n k) ns keys
  | n :: ns, [] => if bool_decide (n ∈ ["exporter"; "in_if"; "out_if"]) then Panic else noteGroup book l ns []
  end.

Fixpoint noteGroups (book : gmap string Attribution) (l : Labels) (ns : list string) (groups : list Group) : outcome Labels :=
  match groups with
  | [] => Ret l
  | g :: groups => l ← noteGroup book l ns (g_Keys g); noteGroups book l ns groups
  end.

(** The name of an interface key, from the interfaces of the devices. *)
Definition interfaceName (names : gmap string (gmap Z string)) (l : Labels) (key : string) : option string :=
  match Cut key bar with
  | Some (addr, idx) =>
      match ParseUint idx 32 with
      | (n, true) => m ← names !! (match lb_Exporters l !! addr with Some e => lb_DeviceID e | None => "" end); m !! n
      | _ => None
      end
  | None => None
  end.

Definition nameInterfaces (names : gmap string (gmap Z string)) (l : Labels) : gmap string string :=
  foldl (fun m k => match interfaceName names l k with Some n => <[k := n]> m | None => m end) ∅ (ifKeys l).

(** [storeErr]: [body] is what the store answered when the fault is its own. *)
Definition storeErr (unknownTable : bool) (f : fault) : Err :=
  match f with
  | Refused msg => New KindInvalid msg
  | StoreFailed _ =>
      if unknownTable then New KindTransient "raw flow storage has no tables yet — the collector creates them when it first reaches ClickHouse"
      else default (New KindTransient "flow store query failed") (Wrap KindTransient (Some (ErrText "clickhouse")) "flow store query failed")
  end.

(** * Properties *)

Section claims.
Context (ParseRFC3339 : string -> option Time) (order : list (string * Attribution) -> list (string * Attribution)).
Hypothesis order_perm : forall l, order l ≡ₚ l.

Lemma wantDevice_spec inp a : wantDevice inp a = true <-> at_DeviceID a ∈ Devices inp \/ at_SiteID a ∈ Sites inp.
Proof.
  unfold wantDevice. rewrite orb_true_iff, !bool_decide_eq_true, !elem_of_app, !list_elem_of_fmap. split.
  - intros [[(x & E & H)|(x & E & H)]|[(x & E & H)|(x & E & H)]]; try discriminate; apply (inj (String.append _)) in E; subst x; auto.
  - intros [H|H]; [left; left; by eexists|right; right; by eexists].
Qed.

Lemma exportersOf_spec inp byAddr l a : exportersOf order inp byAddr = Some l ->
  a ∈ l <-> exists k att, byAddr !! k = Some att /\ ParseAddr k = Some a /\ (at_DeviceID att ∈ Devices inp \/ at_SiteID att ∈ Sites inp).
Proof.
  unfold exportersOf. case_match; [done|]. intros [= <-]. rewrite list_elem_of_omap. split.
  - intros ([k att] & Hin & E). rewrite order_perm in Hin. apply elem_of_map_to_list in Hin. cbn in E.
    destruct (wantDevice inp att) eqn:Ew; [|done]. exists k, att. by rewrite <- wantDevice_spec.
  - intros (k & att & Hk & E & Hw). exists (k, att). rewrite order_perm. split; [by apply elem_of_map_to_list|]. cbn.
    apply wantDevice_spec in Hw. by rewrite Hw.
Qed.

Lemma parse_inv e now body Addresses inp q byAddr : parse ParseRFC3339 order e now body Addresses = inl (inp, q, byAddr) ->
  body = Some inp /\ (exists book, Addresses = inl book /\ byAddr = newIndex book) /\ Filters q = in_Filters inp /\ GroupBy q = in_GroupBy inp
  /\ FlowSQL.Exporters q = exportersOf order inp byAddr
  /\ (0 < int64 (RollupDays e * (24 * Hour)) -> time_Sub (To_ q) (From_ q) <= int64 (RollupDays e * (24 * Hour))).
Proof.
  unfold parse. case_match; [done|]. destruct body as [inp'|]; [|done]. destruct (parseAt _ (in_To inp') now) as [to|]; [|done].
  destruct (parseAt _ (in_From inp') _) as [from|]; [|done]. set (max := int64 _).
  destruct ((0 <? max) && (max <? time_Sub to from)) eqn:Ew; [done|]. destruct Addresses as [book|]; [|done]. intros [= <- <- <-].
  split; [done|]. split; [by exists book|]. do 3 (split; [done|]). cbn [To_ From_]. intros Hm.
  apply andb_false_iff in Ew as [Ew%Z.ltb_ge|Ew%Z.ltb_ge]; lia.
Qed.

(** What a query restricted to [l] is to say of the exporter: it is one of the
    addresses of the parameters e0, e1, ...; with none, nothing holds. *)
Definition scopeClause (l : list Addr) : string :=
  match l with
  | [] => "0"
  | _ => "exporter IN (" +:+ Join ((fun i => "{e" +:+ itoa i +:+ ":IPv6}") <$> List.seq 0 (length l)) ", " +:+ ")"
  end.

(** A condition that is a conjunct of its own, whatever stands in its brackets. *)
Definition bracketed (c : string) : Prop := exists ors, c = "(" +:+ ors +:+ ")" \/ c = "NOT (" +:+ ors +:+ ")".

Lemma filters_bracketed Quote ToUpper ToLower fls : forall i cs ps, filters Quote ToUpper ToLower i fls = inl (cs, ps) ->
  length cs = length fls /\ Forall bracketed cs.
Proof.
  induction fls as [|fl fls IH]; intros i cs ps; cbn [filters]; [by intros [= <- <-]|].
  destruct (filter_ _ _ _ i fl) as [[c p]|] eqn:Ef; [|done]. destruct (filters _ _ _ (S i) fls) as [[cs' ps']|] eqn:E; [|done].
  intros [= <- <-]. apply IH in E as [E1 E2]. split; [by cbn; f_equal|]. constructor; [|done].
  revert Ef. unfold filter_. repeat (case_match; try done). all: intros [= <- <-]; eexists; first [by right | by left].
Qed.

Lemma exporterCond_clause l : fst (exporterCond l) = scopeClause <$> option_list l.
Proof.
  destruct l as [[|a l]|]; try done.
  assert (forall (l : list Addr), imap (fun i _ => "{" +:+ exporterKey i +:+ ":IPv6}") l = (fun i => "{e" +:+ itoa i +:+ ":IPv6}") <$> List.seq 0 (length l)) as E.
  { clear. intros l. apply list_eq. intros i. rewrite list_lookup_imap, list_lookup_fmap. destruct (l !! i) as [x|] eqn:E.
    - apply lookup_lt_Some in E. by rewrite lookup_seq_lt.
    - apply lookup_ge_None in E. by rewrite lookup_seq_ge. }
  change (["exporter IN (" +:+ Join (imap (fun i _ => "{" +:+ exporterKey i +:+ ":IPv6}") (a :: l)) ", " +:+ ")"] = [scopeClause (a :: l)]).
  by rewrite E.
Qed.

(** C9. A request that names devices or sites is answered from their exporters
    alone. The condition of its query is the window, one clause on the exporter
    and a condition for each filter, each in brackets of its own and all joined
    by AND. The clause is exactly that the exporter is one of the parameters e0,
    e1, ..., whose values are the addresses whose device, as the index has it,
    is named or stands in a named site; when there are none it is 0, and no
    flow matches. A request that names neither has no such clause. *)
Theorem explore_scoped FormatSec FormatMilli RFC3339 Quote ToUpper ToLower e now body Addresses inp q byAddr b :
  parse ParseRFC3339 order e now body Addresses = inl (inp, q, byAddr) ->
  compile FormatSec FormatMilli RFC3339 Quote ToUpper ToLower q = inl b ->
  exists window scope conds, where_ b = Join (window :: scope ++ conds) " AND "
  /\ (window = "received >= {from:DateTime64(3, 'UTC')} AND received < {to:DateTime64(3, 'UTC')}"
      \/ window = "hour >= toStartOfHour({from:DateTime('UTC')}) AND hour < {to:DateTime('UTC')}")
  /\ length conds = length (in_Filters inp) /\ Forall bracketed conds
  /\ if decide (Devices inp = [] /\ Sites inp = []) then scope = [] else
     exists l, scope = [scopeClause l]
     /\ (forall a, a ∈ l <-> exists k att, byAddr !! k = Some att /\ ParseAddr k = Some a /\ (at_DeviceID att ∈ Devices inp \/ at_SiteID att ∈ Sites inp))
     /\ (forall i a, l !! i = Some a -> params b !! ("e" +:+ itoa i) = Some (chAddr a)).
Proof.
  intros Hp Hc. destruct (parse_inv _ _ _ _ _ _ _ Hp) as (_ & _ & Hf & _ & He & _).
  pose proof Hc as (fcs & fps & C)%compile_inv. destruct (filters_bracketed _ _ _ _ _ _ _ (cp_filters _ _ _ _ _ _ _ _ _ _ C)) as [Hl Hb].
  exists (fst (timeCond FormatSec FormatMilli (table b) q)), (scopeClause <$> option_list (FlowSQL.Exporters q)), fcs.
  rewrite <- exporterCond_clause. split; [apply (cp_where _ _ _ _ _ _ _ _ _ _ C)|]. split; [destruct (table b); auto|].
  split; [by rewrite Hl, Hf|]. split; [done|]. rewrite exporterCond_clause. destruct (FlowSQL.Exporters q) as [l|] eqn:El.
  - rewrite decide_False.
    + exists l. split; [done|]. split; [intros a; apply exportersOf_spec; by symmetry|].
      intros i a Ha. destruct (params_own _ _ _ _ _ _ _ _ Hc) as (_ & Hx & _). by eapply Hx.
    + revert He. unfold exportersOf. by destruct (Devices inp), (Sites inp); intros H [].
  - rewrite decide_True; [done|]. revert He. unfold exportersOf. destruct (Devices inp), (Sites inp); done.
Qed.

(** Naming never fails on a group as the store's answers make them. *)
Lemma noteGroup_total book ns : forall l keys, length keys = length ns -> exists l', noteGroup book l ns keys = Ret l'.
Proof. induction ns as [|n ns IH]; intros l [|k keys] Hl; try done; [by eexists|]. cbn [noteGroup]. apply IH. by injection Hl. Qed.

(** Every label names the device of the index. *)
Definition labelsOk (book : gmap string Attribution) (l : Labels) : Prop := forall a y, lb_Exporters l !! a = Some y ->
  exists att, book !! normAddr a = Some att /\ y = mkExporterLabel (at_DeviceID att) (at_DeviceName att).

Lemma note_ok book l addr : labelsOk book l -> labelsOk book (note book l addr).
Proof.
  intros Hl a y. unfold note. destruct (lb_Exporters l !! addr); [apply Hl|].
  destruct (book !! normAddr addr) as [att|] eqn:Eb; [|apply Hl]. cbn. destruct (decide (a = addr)) as [->|Hne].
  - rewrite lookup_insert_eq. intros [= <-]. by exists att.
  - rewrite lookup_insert_ne by done. apply Hl.
Qed.

Lemma noteGroup_ok book ns : forall l keys l', labelsOk book l -> noteGroup book l ns keys = Ret l' -> labelsOk book l'.
Proof.
  induction ns as [|n ns IH]; intros l keys l' Hl; [by intros [= <-]|]. destruct keys as [|k keys]; cbn [noteGroup].
  - case_match; [done|]. by apply IH.
  - apply IH. unfold noteKey. repeat case_match; try done; by apply note_ok.
Qed.

Lemma noteGroups_ok book ns groups : Forall (fun g => length (g_Keys g) = length ns) groups -> forall l, labelsOk book l ->
  exists l', noteGroups book l ns groups = Ret l' /\ labelsOk book l'.
Proof.
  induction 1 as [|g groups Hg _ IH]; intros l Hl; [by exists l|]. cbn [noteGroups].
  destruct (noteGroup_total book ns l (g_Keys g) Hg) as [l1 E]. rewrite E. cbn [mbind outcome_bind]. apply IH. by eapply noteGroup_ok.
Qed.
End claims.

(** ** A witness *)

Definition demoRequest (devices sites : list string) : exploreRequest := mkRequest "" "3600" [] ["exporter"] "" 0 "" devices sites.
Definition demoParse (devices sites : list string) : exploreRequest * FlowSQL.Query * gmap string Attribution + Err :=
  parse (fun _ => None) (fun l => l) (mkExplorer true 7 90) (2 * Hour) (Some (demoRequest devices sites)) (inl demoBook).

Definition demoScoped : FlowSQL.Query := mkQuery 0 Hour [] ["exporter"] "" 0 (Some [V4 167772161]) (2 * Hour - 7 * 24 * Hour).

Lemma explore_scoped_witness :
  demoParse ["d1"] [] = inl (demoRequest ["d1"] [], demoScoped, newIndex demoBook) /\
  exists b, demoCompile demoScoped = inl b /\
  exists window scope conds, where_ b = Join (window :: scope ++ conds) " AND "
  /\ (window = "received >= {from:DateTime64(3, 'UTC')} AND received < {to:DateTime64(3, 'UTC')}"
      \/ window = "hour >= toStartOfHour({from:DateTime('UTC')}) AND hour < {to:DateTime('UTC')}")
  /\ length conds = 0%nat /\ Forall bracketed conds
  /\ exists l, scope = [scopeClause l]
     /\ (forall a, a ∈ l <-> exists k att, newIndex demoBook !! k = Some att /\ ParseAddr k = Some a
          /\ (at_DeviceID att ∈ Devices (demoRequest ["d1"] []) \/ at_SiteID att ∈ Sites (demoRequest ["d1"] [])))
     /\ (forall i a, l !! i = Some a -> params b !! ("e" +:+ itoa i) = Some (chAddr a)).
Proof.
  split; [vm_compute; reflexivity|]. eexists. split; [vm_compute; reflexivity|].
  eapply (explore_scoped (fun _ => None) (fun l => l) (fun l => Permutation_refl l) demoTime demoTime demoTime demoQuote (fun s => s) (fun s => s)
    (mkExplorer true 7 90) (2 * Hour) (Some (demoRequest ["d1"] [])) (inl demoBook) (demoRequest ["d1"] []) demoScoped (newIndex demoBook));
    vm_compute; reflexivity.
Defined.
