(* ===== verification/Users.v ===== *)
(** Packages iam/app (users.go) and iam/adapters/postgres (admin.go): the
    management of accounts, and what it does to the sessions of the login
    service.

    The service works on its collaborators through [UserWorld]; [UserStore] is
    the world of the tables, that of AuthStore.v with the table of roles. *)
From Stdlib Require Import ZArith Lia.
From stdpp Require Import base list gmap strings numbers sorting.
From S2P Require Import Prelude GoText GoSort World Errx Lockout Auth AuthStore.

(** ** Checks *)

Definition lowerOrDigit (c : byte) : bool := within 97 (bz c) 122 || within 48 (bz c) 57.

(** [usernameRe]. *)
Definition usernameOk (s : string) : bool :=
  match to_bytes s with
  | [] => false
  | c :: b =>
      lowerOrDigit c && (1 <=? len b) && (len b <=? 62)
      && forallb (fun c => lowerOrDigit c || bool_decide (bz c ∈ [46; 95; 45])) b
  end.

Definition ValidatePassword (pw : string) : option Err :=
  if slen pw <? 12 then Some (New KindInvalid "password must be at least 12 characters") else None.

Record CreateUserCmd : Type := mkCreateUserCmd {
  cu_Username : string; cu_Email : string; cu_DisplayName : string; cu_RoleIDs : list string; cu_TempPassword : string;
  cu_Actor : string; cu_Meta : ClientMeta
}.

Class UserWorld (W : Type) `{AuthWorld W} : Type := {
  SetStatus : string -> UserStatus -> M W (option Err);
  SetPassword : string -> string -> bool -> M W (option Err);
  SetRolesRepo : string -> list string -> string -> M W (option Err);
  RoleIDsExist : list string -> M W (bool + Err);
  RevokeAllForUser : string -> Time -> M W (option Err)
}.

Section service.
Context {W : Type} `{UserWorld W}.
Abbreviation M := (M W).

Definition accountEvent (meta : ClientMeta) (action actor resource detail : string) : M unit :=
  Audit (mkAuditEvent "user" actor action resource detail meta).

(** The password of a new account: generated, or as given. *)
Definition tempPassword (given : string) : M (string + Err) :=
  if bool_decide (given = "") then RandomText 15
  else mret match ValidatePassword given with Some e => inr e | None => inl given end.

Definition CreateUser (cmd : CreateUserCmd) : M ((User * string) + Err) :=
  if negb (usernameOk (cu_Username cmd)) then mret (inr (New KindInvalid "invalid username (lowercase, 2-63 chars, [a-z0-9._-])"))
  else if bool_decide (cu_Email cmd = "") || bool_decide (cu_DisplayName cmd = "") then
    mret (inr (New KindInvalid "email and display_name are required"))
  else if bool_decide (cu_RoleIDs cmd = []) then mret (inr (New KindInvalid "at least one role is required"))
  else
    r ← RoleIDsExist (cu_RoleIDs cmd);
    match r with
    | inr e => mret (inr e)
    | inl false => mret (inr (New KindInvalid "unknown role id"))
    | inl true =>
        r ← tempPassword (cu_TempPassword cmd);
        match r with
        | inr e => mret (inr e)
        | inl pw =>
            r ← HashPassword pw;
            match r with
            | inr e => mret (inr (kindError KindInternal (ErrWrap "hash password" e)))
            | inl hash =>
                id ← NewID "u";
                let u := mkUser id defaultTenant (cu_Username cmd) (cu_Email cmd) hash (cu_DisplayName cmd) UserActive true None in
                r ← Create u (cu_RoleIDs cmd);
                match r with
                | Some e => mret (inr e)
                | None =>
                    _ ← accountEvent (cu_Meta cmd) "user.create" (cu_Actor cmd) id (cu_Username cmd);
                    mret (inl (u, pw))
                end
            end
        end
    end.

Definition SetRoles (userID : string) (roleIDs : list string) (actor : string) (meta : ClientMeta) : M (option Err) :=
  r ← RoleIDsExist roleIDs;
  match r with
  | inr e => mret (Some e)
  | inl false => mret (Some (New KindInvalid "unknown role id"))
  | inl true =>
      r ← RoleNames userID;
      match r with
      | inr e => mret (Some e)
      | inl before =>
          r ← SetRolesRepo userID roleIDs actor;
          match r with
          | Some e => mret (Some e)
          | None =>
              r ← RoleNames userID;
              let after := match r with inl names => names | inr _ => [] end in
              _ ← accountEvent meta "user.roles.set" actor userID (Join before "," +:+ " -> " +:+ Join after ",");
              mret None
          end
      end
  end.

(** A failure to revoke is logged and goes unanswered. *)
Definition Deactivate (userID actor : string) (meta : ClientMeta) : M (option Err) :=
  if bool_decide (userID = actor) then mret (Some (New KindInvalid "cannot deactivate your own account")) else
  r ← SetStatus userID UserDeactivated;
  match r with
  | Some e => mret (Some e)
  | None =>
      now ← AuthNow; _ ← RevokeAllForUser userID now;
      _ ← accountEvent meta "user.deactivate" actor userID "";
      mret None
  end.

Definition Activate (userID actor : string) (meta : ClientMeta) : M (option Err) :=
  r ← SetStatus userID UserActive;
  match r with
  | Some e => mret (Some e)
  | None => _ ← accountEvent meta "user.activate" actor userID ""; mret None
  end.

Definition ResetPassword (userID actor : string) (meta : ClientMeta) : M (string + Err) :=
  r ← RandomText 15;
  match r with
  | inr e => mret (inr e)
  | inl pw =>
      r ← HashPassword pw;
      match r with
      | inr e => mret (inr e)
      | inl hash =>
          r ← SetPassword userID hash true;
          match r with
          | Some e => mret (inr e)
          | None =>
              now ← AuthNow; _ ← RevokeAllForUser userID now;
              _ ← accountEvent meta "user.password.reset" actor userID "";
              mret (inl pw)
          end
      end
  end.

Definition ChangeOwnPassword (userID oldPw newPw : string) (meta : ClientMeta) : M (option Err) :=
  match ValidatePassword newPw with
  | Some e => mret (Some e)
  | None =>
      r ← GetByID userID;
      match r with
      | inr e => mret (Some e)
      | inl u =>
          match VerifyPassword oldPw (u_PasswordHash u) with
          | inr e => mret (Some (kindError KindInternal (ErrWrap "verify password" e)))
          | inl false => mret (Some (New KindUnauthorized "current password incorrect"))
          | inl true =>
              r ← HashPassword newPw;
              match r with
              | inr e => mret (Some e)
              | inl hash =>
                  r ← SetPassword userID hash false;
                  match r with
                  | Some e => mret (Some e)
                  | None => _ ← accountEvent meta "user.password.change" userID userID ""; mret None
                  end
              end
          end
      end
  end.
End service.

(** ** The tables *)

(** [us_table]: the roles, by id and name. *)
Record UserStore : Type := mkUserStore { us_auth : AuthStore; us_table : list (string * string) }.
#[export] Instance eta_UserStore : Eta UserStore := fun w => mkUserStore (us_auth w) (us_table w).

Definition onAuth {A} (m : M AuthStore A) : M UserStore A := fun w => let '(a, s) := m (us_auth w) in (a, w <| us_auth := s |>).

Definition setStatus (id : string) (st : UserStatus) (u : User) : User :=
  if decide (u_ID u = id) then mkUser (u_ID u) (u_TenantID u) (u_Username u) (u_Email u) (u_PasswordHash u) (u_DisplayName u) st
    (u_PasswordChangeRequired u) (u_LastLoginAt u) else u.
Definition setPassword (id hash : string) (change : bool) (u : User) : User :=
  if decide (u_ID u = id) then mkUser (u_ID u) (u_TenantID u) (u_Username u) (u_Email u) hash (u_DisplayName u) (u_Status u)
    change (u_LastLoginAt u) else u.

(** An update of the row of a user, and the error when there is none. *)
Definition updateUser (id : string) (f : User -> User) : M AuthStore (option Err) := fun s =>
  if decide (id ∈ map u_ID (as_users s)) then (None, s <| as_users := map f (as_users s) |>)
  else (Some (New KindNotFound "user not found"), s).

Definition revokeAll (userID : string) (at_ : Time) (ts : Tokens) : Tokens :=
  map (fun t => if decide (t_UserID t = userID /\ t_RevokedAt t = None) then t <| t_RevokedAt := Some at_ |> else t) ts.

Definition roleNamesOf (table : list (string * string)) (ids : list string) : list string :=
  sort_Strings (map snd (filter (fun r => r.1 ∈ ids) table)).

Definition grantRoles (userID : string) (names : list string) (roles : string -> list string) (id : string) : list string :=
  if decide (id = userID) then names else roles id.

Section store.
Context (fold : string -> string) (sha : bytes -> bytes).
Context (verify : string -> string -> bool + Err) (hash : string -> string) (text : Z -> string).

#[local] Instance TablesAuth : AuthWorld AuthStore := StoreAuthWorld fold sha verify text.

#[local] Instance UserStoreAuth : AuthWorld UserStore := {
  GetByUsername name := onAuth (GetByUsername name);
  GetByID id := onAuth (GetByID id);
  RoleNames id := onAuth (RoleNames id);
  (** The insert of a user and the roles, with the constraints of the table. *)
  Create u ids w :=
    if decide (Exists (fun x => u_ID x = u_ID u \/ fold (u_Username x) = fold (u_Username u) \/ fold (u_Email x) = fold (u_Email u)) (as_users (us_auth w)))
    then (Some (kindError KindConflict (ErrWrap "insert user" (ErrText "duplicate key"))), w)
    else (None, w <| us_auth := (us_auth w) <| as_users := as_users (us_auth w) ++ [u] |>
                      <| as_roles := grantRoles (u_ID u) (roleNamesOf (us_table w) ids) (as_roles (us_auth w)) |> |>);
  Count := onAuth Count;
  RecordLogin id at_ := onAuth (RecordLogin id at_);
  Insert t := onAuth (Insert t);
  GetByHash h := onAuth (GetByHash h);
  MarkRotated id at_ := onAuth (MarkRotated id at_);
  Revoke id at_ := onAuth (Revoke id at_);
  RevokeFamily fam at_ := onAuth (RevokeFamily fam at_);
  Locked k := onAuth (Locked k);
  RecordFailure k := onAuth (RecordFailure k);
  Reset k := onAuth (Reset k);
  VerifyPassword := verify;
  HashPassword p w := (inl (hash p), w);
  Issue a b c d := onAuth (Issue a b c d);
  TTLSeconds := 900;
  RandomText n := onAuth (RandomText n);
  NewID p := onAuth (NewID p);
  Audit e := onAuth (Audit e);
  AuthNow := onAuth AuthNow;
  sha256 := sha
}.

#[local] Instance UserStoreWorld : UserWorld UserStore := {
  SetStatus id st := onAuth (updateUser id (setStatus id st));
  SetPassword id h change := onAuth (updateUser id (setPassword id h change));
  SetRolesRepo userID ids _ w :=
    if decide (userID ∈ map u_ID (as_users (us_auth w)) \/ ids = [])
    then (None, w <| us_auth := (us_auth w) <| as_roles := grantRoles userID (roleNamesOf (us_table w) ids) (as_roles (us_auth w)) |> |>)
    else (Some (kindError KindInvalid (ErrWrap "grant role" (ErrText "foreign key"))), w);
  RoleIDsExist ids w := (inl (bool_decide (len (filter (fun r => r.1 ∈ ids) (us_table w)) = len ids)), w);
  RevokeAllForUser id at_ := onAuth (fun s => (None, s <| as_tokens := revokeAll id at_ (as_tokens s) |>))
}.

(** What the two services are asked. *)
Inductive userRequest : Type :=
  | UAuth (rq : request)
  | UCreate (cmd : CreateUserCmd)
  | UDeactivate (userID actor : string)
  | UActivate (userID actor : string)
  | USetRoles (userID : string) (roleIDs : list string) (actor : string)
  | UReset (userID actor : string)
  | UChange (userID oldPw newPw : string).

(** The answer to a request that may log a user in. *)
Definition userAnswer (rq : userRequest) : M UserStore (option (LoginResult + Err)) :=
  match rq with
  | UAuth (RLogin username password) => r ← Login username password noMeta; mret (Some r)
  | UAuth (RRefresh plain) => r ← Refresh plain noMeta; mret (Some r)
  | UAuth (RLogout plain) => _ ← Logout plain noMeta; mret None
  | UCreate cmd => _ ← CreateUser cmd; mret None
  | UDeactivate id actor => _ ← Deactivate id actor noMeta; mret None
  | UActivate id actor => _ ← Activate id actor noMeta; mret None
  | USetRoles id ids actor => _ ← SetRoles id ids actor noMeta; mret None
  | UReset id actor => _ ← ResetPassword id actor noMeta; mret None
  | UChange id o n => _ ← ChangeOwnPassword id o n noMeta; mret None
  end.

Definition at_time (w : UserStore) (t : Time) : UserStore := w <| us_auth := (us_auth w) <| as_clock := t |> |>.
Definition userStep (w : UserStore) (rq : Time * userRequest) : option (LoginResult + Err) * UserStore := userAnswer rq.2 (at_time w rq.1).
Fixpoint userRun (w : UserStore) (rqs : list (Time * userRequest)) : list (option (LoginResult + Err)) * UserStore :=
  match rqs with
  | [] => ([], w)
  | rq :: rqs => let '(a, w) := userStep w rq in let '(out, w) := userRun w rqs in (a :: out, w)
  end.

(** * Properties *)

Definition usersOf (w : UserStore) : list User := as_users (us_auth w).
Definition tokensOf (w : UserStore) : Tokens := as_tokens (us_auth w).

(** [id] is a user who may not log in. *)
Definition shutOut (id : string) (w : UserStore) : Prop :=
  id ∈ map u_ID (usersOf w) /\ Forall (fun x => u_ID x = id -> CanLogin x = false) (usersOf w).
Definition keepsOut (id : string) (w w' : UserStore) : Prop := shutOut id w -> shutOut id w'.
#[local] Instance keepsOut_preorder id : PreOrder (keepsOut id).
Proof. split; unfold keepsOut; [by intros ?|intros a b c; auto]. Qed.

Lemma keepsOut_same {A} id (m : M UserStore A) : (forall w, usersOf (snd (m w)) = usersOf w) -> moves (keepsOut id) m.
Proof. intros Hm w [H1 H2]. unfold shutOut. by rewrite !(Hm w). Qed.

Lemma onAuth_users {A} (m : M AuthStore A) w : usersOf (snd (onAuth m w)) = as_users (snd (m (us_auth w))).
Proof. unfold onAuth, usersOf. by destruct (m (us_auth w)). Qed.

#[local] Hint Extern 3 (moves (keepsOut _) _) => (apply keepsOut_same; intros ?; done) : moves.

Lemma Insert_out id t : moves (keepsOut id) (Insert t).
Proof. apply keepsOut_same. intros w. cbn -[onAuth]. rewrite onAuth_users. cbn. by case_match. Qed.
Lemma RecordFailure_out id k : moves (keepsOut id) (RecordFailure k).
Proof. apply keepsOut_same. intros w. cbn -[onAuth]. rewrite onAuth_users. cbn. by case_match. Qed.
Lemma GetByHash_out id h : moves (keepsOut id) (GetByHash h).
Proof. apply keepsOut_same. intros w. cbn -[onAuth]. by rewrite onAuth_users. Qed.
#[local] Hint Resolve Insert_out RecordFailure_out GetByHash_out : moves.

Lemma Create_out id u ids : moves (keepsOut id) (Create u ids).
Proof.
  intros w [Hin Hall]. simpl. case_decide as Hd; [done|]. unfold shutOut, usersOf. cbn. split.
  - rewrite map_app. apply elem_of_app. by left.
  - apply Forall_app. split; [done|]. constructor; [|constructor]. intros E. destruct Hd.
    apply list_elem_of_fmap in Hin as (x & -> & Hx). apply Exists_exists. exists x. split; [done|]. by left.
Qed.

Lemma updateUser_out id id' f :
  (forall u, u_ID (f u) = u_ID u) -> (forall u, u_ID u = id -> CanLogin u = false -> CanLogin (f u) = false) -> moves (keepsOut id) (onAuth (updateUser id' f)).
Proof.
  intros Hid Hf w [Hin Hall]. unfold onAuth, updateUser. case_decide; [|done]. unfold shutOut, usersOf. cbn. split.
  - rewrite map_map. by rewrite (map_ext (fun x => u_ID (f x)) u_ID).
  - apply Forall_fmap. eapply Forall_impl; [done|]. intros x Hx E. cbn in *. rewrite Hid in E. apply Hf; auto.
Qed.

Lemma SetStatus_out id id' st : id' <> id \/ st <> UserActive -> moves (keepsOut id) (SetStatus id' st).
Proof.
  intros Hne. apply updateUser_out; intros u; unfold setStatus; case_decide; try done. intros E _. unfold CanLogin. cbn.
  apply bool_decide_eq_false. destruct Hne; congruence.
Qed.
Lemma SetPassword_out id id' h c : moves (keepsOut id) (SetPassword id' h c).
Proof. apply updateUser_out; intros u; unfold setPassword; by case_decide. Qed.
Lemma SetRolesRepo_out id id' ids a : moves (keepsOut id) (SetRolesRepo id' ids a).
Proof. apply keepsOut_same. intros w. simpl. by case_decide. Qed.
#[local] Hint Resolve Create_out SetPassword_out SetRolesRepo_out : moves.
#[local] Hint Extern 2 (moves (keepsOut _) (SetStatus _ _)) => (apply SetStatus_out; first [by right | by left]) : moves.

(** Everything but activating the user keeps him out. *)
Lemma userAnswer_out id rq : (forall actor, rq <> UActivate id actor) -> moves (keepsOut id) (userAnswer rq).
Proof.
  intros Hne. destruct rq as [[username password|plain|plain]|cmd|id' actor|id' actor|id' ids actor|id' actor|id' o n]; unfold userAnswer.
  - unfold Login, refuseLogin, admit_, newRefreshToken, userEvent. solve_moves.
  - unfold Refresh, refreshCheck, refreshIssue, newRefreshToken, userEvent. solve_moves.
  - unfold Logout, userEvent. solve_moves.
  - unfold CreateUser, tempPassword, accountEvent. solve_moves.
  - unfold Deactivate, accountEvent. solve_moves.
  - assert (id' <> id) by (intros ->; by destruct (Hne actor)). unfold Activate, accountEvent. solve_moves.
  - unfold SetRoles, accountEvent. solve_moves.
  - unfold ResetPassword, accountEvent. solve_moves.
  - unfold ChangeOwnPassword, accountEvent. solve_moves.
Qed.

Lemma find_user_in (P : User -> Prop) `{forall u, Decision (P u)} w u : find_user P w = inl u -> u ∈ as_users w.
Proof.
  unfold find_user. destruct (head _) as [x|] eqn:E; [|done]. intros [= ->].
  apply head_Some in E as [l E]. assert (u ∈ filter P (as_users w)) as Hu by (rewrite E; set_solver).
  by apply list_elem_of_filter in Hu as [_ Hu].
Qed.

(** A login or refresh that succeeds is that of a user of the table who may
    log in. *)
Definition admitted (w : UserStore) (r : LoginResult + Err) : Prop :=
  match r with inl res => lr_User res ∈ usersOf w /\ CanLogin (lr_User res) = true | inr _ => True end.

Lemma admit_admitted u username meta w w0 :
  u ∈ usersOf w0 -> CanLogin u = true -> admitted w0 (fst (admit_ u username meta w)).
Proof.
  intros Hu Hc. unfold admit_, newRefreshToken, userEvent, mbind, M_bind. cbn -[tk_Insert].
  unfold onAuth at 1. repeat (case_match; simplify_eq/=; try done).
Qed.

Lemma Login_admitted username password meta w : admitted w (fst (Login username password meta w)).
Proof.
  unfold Login. rewrite bind_fst. cbn -[admit_ refuseLogin onAuth]. unfold onAuth. cbn -[admit_ refuseLogin].
  destruct (Memory_Locked _ _ _); [done|]. rewrite bind_fst. cbn -[admit_ refuseLogin].
  assert (forall w', admitted w (fst (refuseLogin username meta w'))) as Hr.
  { intros w'. unfold refuseLogin, userEvent, mbind, M_bind. cbn. by repeat case_match. }
  destruct (find_user _ _) as [u|e] eqn:Ef; [|case_decide; [apply Hr|done]]. apply find_user_in in Ef.
  destruct (verify password (u_PasswordHash u)) as [v|]; [|done].
  destruct (negb v || negb (CanLogin u)) eqn:E; [apply Hr|]. apply admit_admitted; [done|].
  apply orb_false_iff in E as [_ E]. by apply negb_false_iff.
Qed.

Lemma Refresh_admitted plain meta w : admitted w (fst (Refresh plain meta w)).
Proof.
  unfold Refresh, refreshCheck. rewrite !bind_fst, !bind_snd. cbn -[refreshIssue onAuth]. unfold onAuth. cbn -[refreshIssue].
  destruct (tk_GetByHash _ _) as [t|]; [|done]. rewrite !bind_fst, !bind_snd. cbn -[refreshIssue].
  destruct (Compromised t); [done|]. destruct (Usable t _); [|done]. cbn -[refreshIssue]. rewrite !bind_fst, !bind_snd. cbn -[refreshIssue].
  destruct (find_user _ _) as [u|e] eqn:Ef; [|done]. apply find_user_in in Ef.
  destruct (CanLogin u) eqn:Ec; [|done]. cbn -[refreshIssue].
  unfold refreshIssue, newRefreshToken, userEvent, mbind, M_bind. cbn. repeat (case_match; simplify_eq/=; try done).
Qed.

(** A request of which the answer is not that [id] is logged in. *)
Definition keptOut (id : string) (a : option (LoginResult + Err)) : Prop :=
  match a with Some (inl res) => u_ID (lr_User res) <> id | _ => True end.

Lemma userAnswer_refused id rq w : shutOut id w -> keptOut id (fst (userAnswer rq w)).
Proof.
  intros [_ Hall]. assert (forall r, admitted w r -> keptOut id (Some r)) as Hk.
  { intros [res|e]; [|done]. intros [Hin Hc] Hid. rewrite Forall_forall in Hall. specialize (Hall _ Hin Hid). congruence. }
  destruct rq as [[username password|plain|plain]|cmd|id' actor|id' actor|id' ids actor|id' actor|id' o n]; unfold userAnswer;
    rewrite bind_fst; try exact I.
  - apply Hk, Login_admitted.
  - apply Hk, Refresh_admitted.
Qed.

Lemma userRun_refused id rqs : Forall (fun rq => forall actor, rq.2 <> UActivate id actor) rqs ->
  forall w, shutOut id w -> Forall (keptOut id) (fst (userRun w rqs)).
Proof.
  induction 1 as [|[t rq] rqs Hne _ IH]; intros w Hw; [constructor|].
  cbn [userRun]. destruct (userStep w (t, rq)) as [a w'] eqn:E. destruct (userRun w' rqs) as [out w''] eqn:E'. cbn.
  unfold userStep in E. cbn in E. assert (shutOut id (at_time w t)) as Ht by exact Hw. constructor.
  - pose proof (userAnswer_refused id rq _ Ht) as Hr. by rewrite E in Hr.
  - specialize (IH w'). rewrite E' in IH. apply IH. pose proof (userAnswer_out id rq Hne _ Ht) as Ho. by rewrite E in Ho.
Qed.

Lemma Deactivate_out userID actor meta w : fst (Deactivate userID actor meta w) = None -> shutOut userID (snd (Deactivate userID actor meta w)).
Proof.
  unfold Deactivate. case_bool_decide; [done|]. rewrite bind_fst, bind_snd.
  destruct (fst (SetStatus _ _ _)) as [e|] eqn:E; [done|]. intros _.
  match goal with |- shutOut _ (snd (?m _)) => assert (moves (keepsOut userID) m) as Hm by (unfold accountEvent; solve_moves) end.
  apply Hm. revert E. cbn. unfold onAuth, updateUser. case_decide as Hin; [|done]. intros _. unfold shutOut, usersOf. cbn. split.
  - rewrite map_map. rewrite (map_ext _ u_ID); [done|]. intros u. unfold setStatus. by case_decide.
  - apply Forall_fmap, Forall_forall. intros u _. cbn. unfold setStatus. case_decide; [done|]. intros ?; congruence.
Qed.

(** C14. A user who is deactivated is logged in by nothing: once [Deactivate]
    has answered without an error, no login and no refresh yields him,
    whatever is asked of the two services and in whatever order, until
    somebody activates him; the tokens he holds are of no use. *)
Theorem deactivated_out w userID actor meta rqs :
  fst (Deactivate userID actor meta w) = None ->
  Forall (fun rq => forall by_, rq.2 <> UActivate userID by_) rqs ->
  Forall (keptOut userID) (fst (userRun (snd (Deactivate userID actor meta w)) rqs)).
Proof. intros Hd Hne. by apply userRun_refused, Deactivate_out. Qed.

(** ** Sessions ended *)

Definition heldBy (id : string) (w : UserStore) : list RefreshToken := filter (fun t => t_UserID t = id /\ held t) (tokensOf w).

Lemma revokeAll_none id at_ ts : filter (fun t => t_UserID t = id /\ held t) (revokeAll id at_ ts) = [].
Proof.
  induction ts as [|t ts IH]; [done|]. unfold revokeAll in *. cbn [map]. rewrite filter_cons, IH. case_decide as Hd; [|done].
  exfalso. destruct Hd as [Hid Hh]. case_decide as Hc; destruct Hh as [H1 H2]; cbn in *; [done|]. by apply Hc.
Qed.

(** A reset ends the sessions of the user: when [ResetPassword] answers
    with a password, it is the one the user's hash now comes from, he has to
    change it, and of his refresh tokens none can be exchanged any more. *)
Theorem reset_ends_sessions w userID actor meta pw :
  fst (ResetPassword userID actor meta w) = inl pw ->
  let w' := snd (ResetPassword userID actor meta w) in
  heldBy userID w' = [] /\
  Forall (fun u => u_ID u = userID -> u_PasswordHash u = hash pw /\ u_PasswordChangeRequired u = true) (usersOf w') /\
  map u_ID (usersOf w') = map u_ID (usersOf w).
Proof.
  unfold ResetPassword, accountEvent, mbind, M_bind. cbn. unfold onAuth, updateUser. cbn. case_decide; [|done]. cbn. intros [= <-].
  split; [apply revokeAll_none|]. unfold usersOf. cbn. split.
  - apply Forall_fmap, Forall_forall. intros u _. cbn. unfold setPassword. case_decide; [done|]. intros ?; congruence.
  - rewrite map_map. apply map_ext. intros u. unfold setPassword. by case_decide.
Qed.

(** A user changes his password only with the present one, and the new
    one has the length: in every other case the answer is an error and
    nothing is changed. *)
Theorem change_needs_present w userID old new meta :
  (fst (ChangeOwnPassword userID old new meta w) = None /\ ValidatePassword new = None /\
   exists u, u ∈ usersOf w /\ u_ID u = userID /\ verify old (u_PasswordHash u) = inl true)
  \/ ((exists e, fst (ChangeOwnPassword userID old new meta w) = Some e) /\ snd (ChangeOwnPassword userID old new meta w) = w).
Proof.
  unfold ChangeOwnPassword. destruct (ValidatePassword new) as [e|] eqn:Ev; [right; split; [by exists e|done]|].
  rewrite bind_fst, bind_snd. cbn -[SetPassword accountEvent onAuth]. unfold onAuth at 1 3. cbn -[SetPassword accountEvent].
  destruct (find_user _ _) as [u|e] eqn:Ef; cbn -[SetPassword accountEvent].
  2: { right. split; [by eexists|]. by destruct w. }
  assert (u_ID u = userID) as Hid.
  { unfold find_user in Ef. destruct (head _) as [x|] eqn:Eh; [|done]. injection Ef as ->. apply head_Some in Eh as [l Eh].
    assert (u ∈ filter (fun u => u_ID u = userID) (as_users (us_auth w))) as Hu by (rewrite Eh; set_solver).
    by apply list_elem_of_filter in Hu as [Hu _]. }
  apply find_user_in in Ef.
  destruct (verify old (u_PasswordHash u)) as [[]|e] eqn:Ep; [|right; split; [by eexists|by destruct w]..].
  left. unfold accountEvent, mbind, M_bind. cbn. unfold onAuth, updateUser. cbn. rewrite decide_True; [|rewrite <- Hid; apply list_elem_of_fmap; by exists u].
  cbn. split_and!; [done..|]. by exists u.
Qed.
End store.

(** ** At work *)

Definition aUserStore : UserStore := mkUserStore (loggedIn <| as_users := [anAdmin; mkUser "u2" "t" "boss" "" "b" "" UserActive false None] |>) [("role_admin", "admin"); ("role_viewer", "viewer")].
Abbreviation demoWorld := (UserStoreWorld lowercase noHash sameText id numbered).
Abbreviation demoAuth := (UserStoreAuth lowercase noHash sameText id numbered).

Lemma deactivated_out_witness :
  fst (@Deactivate _ demoAuth demoWorld "u1" "u2" noMeta aUserStore) = None /\
  Forall (keptOut "u1") (fst (userRun lowercase noHash sameText id numbered (snd (@Deactivate _ demoAuth demoWorld "u1" "u2" noMeta aUserStore))
    [(Minute, UAuth (RLogin "admin" "secret")); (Minute, UAuth (RRefresh "tok0")); (Minute, UReset "u1" "u2")])).
Proof.
  split; [by vm_compute|].
  apply (deactivated_out lowercase noHash sameText id numbered aUserStore "u1" "u2" noMeta); [by vm_compute|].
  repeat constructor; by intros ?.
Defined.

Lemma reset_ends_sessions_witness :
  fst (@ResetPassword _ demoAuth demoWorld "u1" "u2" noMeta aUserStore) = inl "tok1" /\
  length (heldBy "u1" aUserStore) = 1%nat /\
  heldBy "u1" (snd (@ResetPassword _ demoAuth demoWorld "u1" "u2" noMeta aUserStore)) = [].
Proof.
  split; [by vm_compute|]. split; [by vm_compute|].
  apply (reset_ends_sessions lowercase noHash sameText id numbered aUserStore "u1" "u2" noMeta "tok1"). by vm_compute.
Defined.

(** The length of a password is that of its UTF-8: six letters of two bytes
    each are taken for twelve characters. *)
Example six_letters : ValidatePassword (of_bytes (concat (replicate 6 [zb 208; zb 177]))) = None.
Proof. by vm_compute. Qed.

(** A role that is named twice is a role that does not exist. *)
Example role_twice : fst (@SetRoles _ demoAuth demoWorld "u1" ["role_admin"; "role_admin"] "u2" noMeta aUserStore) =
  Some (New KindInvalid "unknown role id").
Proof. by vm_compute. Qed.

(** The token of a user who is deactivated is revoked; before, it was good. *)
Example deactivate_demo :
  let w := snd (@Deactivate _ demoAuth demoWorld "u1" "u2" noMeta aUserStore) in
  heldBy "u1" w = [] /\ length (fst (userRun lowercase noHash sameText id numbered aUserStore [(Minute, UAuth (RRefresh "tok0"))])) = 1%nat.
Proof. by vm_compute. Qed.
