(* ===== verification/Sdk.v ===== *)
(** Package connectors/sdk: what a connector works with. The values of SNMP
    variables, samples and snapshots, the registry of connectors and the
    choice among them, and the walk of a table column.

    A session with a device is the class [Session] over a world; the clock is
    its too, as a sample bears the time it was made at. *)
From Stdlib Require Import ZArith Lia.
From stdpp Require Import base list gmap strings pretty numbers sorting.
From S2P Require Import Prelude GoText NetipParse World Errx Float64.

(** ** Strings *)

(** [strings.CutPrefix]. *)
Fixpoint CutPrefix (s p : string) : option string :=
  match p, s with
  | "", _ => Some s
  | String c p, String d s => if decide (c = d) then CutPrefix s p else None
  | String _ _, "" => None
  end.
Definition TrimPrefix (s p : string) : string := default s (CutPrefix s p).

(** [strings.Contains]. *)
Fixpoint Contains_str (s p : string) : bool :=
  HasPrefix s p || match s with "" => false | String _ s => Contains_str s p end.

(** [z, _ := strconv.Atoi(s)]: 0 of what is no number, the nearest integer of
    what is out of range. *)
Definition AtoiValue (s : string) : Z :=
  match Atoi s with
  | Some z => z
  | None =>
      let '(neg, ds) := match to_bytes s with
        | c :: b => if bz c =? 45 then (true, b) else if bz c =? 43 then (false, b) else (false, c :: b)
        | [] => (false, []) end in
      if bool_decide (ds = []) then 0 else
      match digitsVal ds 0 with Some _ => if neg : bool then - 2 ^ 63 else 2 ^ 63 - 1 | None => 0 end
  end.

(** ** Values and samples *)

(** [Var.Value]: an integer of any of Go's types, a float64, a string, bytes,
    or something else, as [%v] shows it. *)
Inductive Value : Type :=
  | VInt (z : Z)
  | VFloat (f : float64)
  | VString (s : string)
  | VBytes (b : bytes)
  | VOther (shown : string).

Record Var : Type := mkVar { OID : string; Value_ : Value }.

(** [Num]; [toFloat] of the generic connector is the same code. *)
Definition Num (v : Value) : option float64 :=
  match v with VInt z => Some (float_of z) | VFloat f => Some f | _ => None end.
Definition Str (v : Value) : option string :=
  match v with VString s => Some s | VBytes b => Some (of_bytes b) | _ => None end.

Record Sample : Type := mkSample { s_Name : string; s_Labels : gmap string string; s_Value : float64; s_At : Time }.

Record InterfaceRecord : Type := mkInterfaceRecord {
  ir_IfIndex : Z; ir_Name : string; ir_Alias : string; ir_Descr : string; ir_IfType : Z; ir_MTU : Z; ir_SpeedBPS : Z;
  ir_PhysAddress : string; ir_AdminStatus : Z; ir_OperStatus : Z
}.
#[export] Instance eta_InterfaceRecord : Eta InterfaceRecord := fun r =>
  mkInterfaceRecord (ir_IfIndex r) (ir_Name r) (ir_Alias r) (ir_Descr r) (ir_IfType r) (ir_MTU r) (ir_SpeedBPS r)
    (ir_PhysAddress r) (ir_AdminStatus r) (ir_OperStatus r).

Record InventorySnapshot : Type := mkInventorySnapshot {
  sn_SysName : string; sn_SysDescr : string; sn_SysObjectID : string; sn_SysLocation : string; sn_SysContact : string;
  sn_UptimeS : Z; sn_Vendor : string; sn_Model : string; sn_Serial : string; sn_OSVersion : string;
  sn_Interfaces : list InterfaceRecord
}.
#[export] Instance eta_InventorySnapshot : Eta InventorySnapshot := fun r =>
  mkInventorySnapshot (sn_SysName r) (sn_SysDescr r) (sn_SysObjectID r) (sn_SysLocation r) (sn_SysContact r)
    (sn_UptimeS r) (sn_Vendor r) (sn_Model r) (sn_Serial r) (sn_OSVersion r) (sn_Interfaces r).

Record Adjacency : Type := mkAdjacency {
  ad_LocalIfIndex : Z; ad_RemoteSysName : string; ad_RemotePortID : string; ad_RemoteChassis : string; ad_Protocol : string
}.
#[export] Instance eta_Adjacency : Eta Adjacency := fun r =>
  mkAdjacency (ad_LocalIfIndex r) (ad_RemoteSysName r) (ad_RemotePortID r) (ad_RemoteChassis r) (ad_Protocol r).

(** ** Sessions *)

Class Session (W : Type) : Type := {
  sGet : list string -> M W (list Var * option Err);
  sWalk : string -> M W (list Var * option Err);
  sNow : M W Time
}.

(** A range over a map: its entries, in an order that is left open. *)
Class MapRange : Type := {
  range : forall {K V} `{Countable K}, gmap K V -> list (K * V);
  range_perm : forall {K V} `{Countable K} (m : gmap K V), range m ≡ₚ map_to_list m
}.
Definition anyRange : MapRange := {| range := fun K V _ _ m => map_to_list m; range_perm := fun K V _ _ m => Permutation_refl _ |}.

Section column.
Context {W : Type} `{Session W}.

Fixpoint eachM {A St} (f : St -> A -> M W St) (st : St) (l : list A) : M W St :=
  match l with [] => mret st | x :: l => st ← f st x; eachM f st l end.

(** [WalkColumn]; the variables its callback changes are [st]. *)
Definition WalkColumn {St} (columnOID : string) (fn : St -> string -> Value -> M W St) (st : St) : M W St :=
  '(vars, err) ← sWalk columnOID;
  match err with
  | Some _ => mret st
  | None =>
      eachM (fun st v => match CutPrefix (OID v) (columnOID +:+ ".") with Some idx => fn st idx (Value_ v) | None => mret st end) st vars
  end.

Definition GaugeSample (name : string) (labels : gmap string string) (value : float64) : M W Sample :=
  now ← sNow; mret (mkSample name labels value now).

(** [out = append(out, GaugeSample(...))]. *)
Definition gauge (out : list Sample) (name : string) (labels : gmap string string) (value : float64) : M W (list Sample) :=
  s ← GaugeSample name labels value; mret (out ++ [s]).
End column.

(** ** Connectors *)

Record SysInfo : Type := mkSysInfo { SysObjectID : string; SysDescr : string }.
Inductive Capability : Type := CapInventory | CapInterfaces | CapHealth | CapTopology.
#[export] Instance Capability_eq_dec : EqDecision Capability.
Proof. solve_decision. Defined.

Record Connector : Type := mkConnector { c_ID : string; SysObjectIDPrefixes : list string; Match : SysInfo -> Z; Capabilities : list Capability }.

Abbreviation Registry := (gmap string Connector).

(** [Register]: a second connector of one id is a programming error. *)
Definition Register (registry : Registry) (c : Connector) : outcome Registry :=
  if bool_decide (is_Some (registry !! c_ID c)) then Panic else Ret (<[c_ID c := c]> registry).
Definition ByID (registry : Registry) (id : string) : option Connector := registry !! id.

Fixpoint RegisterAll (registry : Registry) (cs : list Connector) : outcome Registry :=
  match cs with [] => Ret registry | c :: cs => registry ← Register registry c; RegisterAll registry cs end.

Definition better (sys : SysInfo) (best : option Connector * Z) (c : Connector) : option Connector * Z :=
  if best.2 <? Match c sys then (Some c, Match c sys) else best.
Definition BestMatch `{MapRange} (registry : Registry) (sys : SysInfo) : option Connector * Z :=
  foldl (fun best e => better sys best e.2) (None, 0) (range registry).

(** [AddCaps] appends to a copy of [base]. *)
Definition AddCaps (base extra : list Capability) : list Capability :=
  foldl (fun out c => if decide (c ∈ out) then out else out ++ [c]) base extra.

Definition PrefixScore (sys : SysInfo) (prefixes : list string) : Z :=
  foldl (fun best p => if negb (bool_decide (p = "")) && HasPrefix (SysObjectID sys) p && (best <? slen p) then slen p else best) 0 prefixes.

(** * Properties *)

Lemma CutPrefix_nil s : CutPrefix s "" = Some s.
Proof. by destruct s. Qed.
Lemma CutPrefix_spec s p r : CutPrefix s p = Some r <-> s = p +:+ r.
Proof.
  revert s. induction p as [|c p IH]; intros s.
  { rewrite CutPrefix_nil. change ("" +:+ r) with r. split; congruence. }
  change (String c p +:+ r) with (String c (p +:+ r)).
  destruct s as [|d s]; cbn [CutPrefix]; [done|]. case_decide as E; [subst; rewrite IH; split; congruence|]. split; [done|congruence].
Qed.
Lemma CutPrefix_app p r : CutPrefix (p +:+ r) p = Some r.
Proof. by apply CutPrefix_spec. Qed.
Lemma HasPrefix_CutPrefix s p : HasPrefix s p = bool_decide (is_Some (CutPrefix s p)).
Proof.
  unfold HasPrefix. revert s. induction p as [|c p IH]; intros s.
  { rewrite CutPrefix_nil, bool_decide_true by done. by destruct s. }
  destruct s as [|d s]; cbn [CutPrefix String.prefix]; [by rewrite bool_decide_false by by intros []|].
  destruct (Ascii.ascii_dec c d) as [->|Hne]; [by rewrite decide_True|].
  rewrite decide_False by done. by rewrite bool_decide_false by by intros [].
Qed.
#[export] Instance append_inj p : Inj (=) (=) (String.append p).
Proof. intros a b E. induction p as [|c p IH]; [done|]. injection E. auto. Qed.

Section map_range.
Context `{MapRange} {K V : Type} `{Countable K}.
Implicit Types (m : gmap K V).

Lemma elem_of_range m k v : (k, v) ∈ range m <-> m !! k = Some v.
Proof. rewrite range_perm. apply elem_of_map_to_list. Qed.
Lemma NoDup_range_fst m : NoDup (range m).*1.
Proof. rewrite range_perm. apply NoDup_fst_map_to_list. Qed.
Lemma range_empty : range (∅ : gmap K V) = [].
Proof. apply Permutation_nil. by rewrite range_perm, map_to_list_empty. Qed.
End map_range.

(** ** The choice of a connector *)

Lemma better_max sys l best :
  0 <= best.2 -> (match best.1 with Some c => Match c sys = best.2 | None => best.2 = 0 end) ->
  let r := foldl (fun best (e : string * Connector) => better sys best e.2) best l in
  best.2 <= r.2 /\ Forall (fun e => Match e.2 sys <= r.2) l /\
  (r = best \/ exists id c, (id, c) ∈ l /\ r = (Some c, Match c sys) /\ best.2 < Match c sys).
Proof.
  revert best. induction l as [|[id c] l IH]; intros best H0 Hb; cbn; [split; [lia|]; split; [constructor|by left]|].
  assert (better sys best c = if best.2 <? Match c sys then (Some c, Match c sys) else best) as Eb by done.
  destruct (Z.ltb_spec best.2 (Match c sys)) as [Hlt|Hle]; rewrite Eb.
  - destruct (IH (Some c, Match c sys)) as (H1 & H2 & H3); cbn; [lia|done|]. cbn in *. split; [lia|]. split; [by constructor|].
    right. destruct H3 as [->|(id' & c' & Hin & -> & Hlt')]; [exists id, c|exists id', c']; split_and!; try done; try set_solver; lia.
  - destruct (IH best H0 Hb) as (H1 & H2 & H3). split; [done|]. split; [constructor; [cbn; lia|done]|].
    destruct H3 as [->|(id' & c' & Hin & -> & Hlt')]; [by left|]. right. exists id', c'. split_and!; [set_solver|done..].
Qed.

(** The connector chosen is one that no other outscores, in whatever order the
    registry is gone through; none is chosen only when none scores. *)
Lemma BestMatch_of `{MapRange} registry sys :
  match BestMatch registry sys with
  | (Some c, score) => (exists id, registry !! id = Some c) /\ score = Match c sys /\ 0 < score /\
      map_Forall (fun _ c' => Match c' sys <= score) registry
  | (None, score) => score = 0 /\ map_Forall (fun _ c' => Match c' sys <= 0) registry
  end.
Proof.
  unfold BestMatch. destruct (better_max sys (range registry) (None, 0)) as (H1 & H2 & H3); [done..|]. cbn in *.
  assert (forall s, Forall (fun e : string * Connector => Match e.2 sys <= s) (range registry) -> map_Forall (fun _ c' => Match c' sys <= s) registry) as Hall.
  { intros s Hs id c Hc. rewrite Forall_forall in Hs. by apply (Hs (id, c)), elem_of_range. }
  destruct (foldl _ _ _) as [best score]. cbn in *. destruct H3 as [[= -> ->]|(id & c & Hin & [= -> ->] & Hlt)].
  - split; [done|]. by apply Hall.
  - split; [exists id; by apply elem_of_range|]. split_and!; [done|lia|by apply Hall].
Qed.

Lemma AddCaps_spec base extra : NoDup base -> NoDup (AddCaps base extra) /\ base `prefix_of` AddCaps base extra /\
  forall c, c ∈ AddCaps base extra <-> c ∈ base \/ c ∈ extra.
Proof.
  unfold AddCaps. revert base. induction extra as [|c extra IH]; intros base Hb; cbn.
  { split; [done|]. split; [done|]. set_solver. }
  case_decide as Hc.
  - destruct (IH base Hb) as (H1 & H2 & H3). split; [done|]. split; [done|]. intros c'. rewrite H3. set_solver.
  - destruct (IH (base ++ [c])) as (H1 & H2 & H3); [apply NoDup_app; split; [done|]; split; [set_solver|apply NoDup_singleton]|].
    split; [done|]. split; [etrans; [|done]; by apply prefix_app_r|]. intros c'. rewrite H3. set_solver.
Qed.


Lemma HasPrefix_spec s p : HasPrefix s p = true <-> exists r, s = p +:+ r.
Proof.
  rewrite HasPrefix_CutPrefix, bool_decide_eq_true. split; intros [r Hr]; exists r; by apply CutPrefix_spec.
Qed.
(** Of two prefixes of a string one is a prefix of the other. *)
Lemma prefixes_nested s p q : HasPrefix s p = true -> HasPrefix s q = true -> HasPrefix p q || HasPrefix q p = true.
Proof.
  intros [r ->]%HasPrefix_spec [r' E]%HasPrefix_spec. revert q E. induction p as [|c p IH]; intros q E.
  { apply orb_true_iff. right. apply HasPrefix_spec. by exists q. }
  destruct q as [|d q].
  { apply orb_true_iff. left. apply HasPrefix_spec. by exists (String c p). }
  injection E as -> E. specialize (IH q E). apply orb_true_iff in IH. apply orb_true_iff.
  destruct IH as [[t ->]%HasPrefix_spec|[t ->]%HasPrefix_spec]; [left|right]; apply HasPrefix_spec; by exists t.
Qed.

Lemma PrefixScore_from sys ps : forall best, 0 <= best ->
  let n := foldl (fun best p => if negb (bool_decide (p = "")) && HasPrefix (SysObjectID sys) p && (best <? slen p) then slen p else best) best ps in
  best <= n /\ (n = best \/ exists p, p ∈ ps /\ HasPrefix (SysObjectID sys) p = true /\ n = slen p) /\
  forall p, p ∈ ps -> p <> "" -> HasPrefix (SysObjectID sys) p = true -> slen p <= n.
Proof.
  induction ps as [|p ps IH]; intros best Hb; cbn [foldl]; [split; [lia|]; split; [by left|]; by intros ? ?%elem_of_nil|].
  destruct (_ && _) eqn:E.
  - apply andb_true_iff in E as [[E1 E2]%andb_true_iff E3%Z.ltb_lt]. destruct (IH (slen p)) as (H1 & H2 & H3); [lia|].
    split; [lia|]. split.
    + right. destruct H2 as [H2|(q & Hq & Hp & H2)]; [exists p|exists q]; (split; [set_solver|done]).
    + intros q [->|Hq]%elem_of_cons Hne Hp; [done|by apply H3].
  - destruct (IH best Hb) as (H1 & H2 & H3). split; [done|]. split.
    + destruct H2 as [H2|(q & Hq & Hp & H2)]; [by left|right; exists q; split; [set_solver|done]].
    + intros q [->|Hq]%elem_of_cons Hne Hp; [|by apply H3]. rewrite bool_decide_false, Hp in E by done. cbn in E. apply Z.ltb_ge in E. lia.
Qed.

(** The length of the longest prefix there is, or 0. *)
Lemma PrefixScore_spec sys ps : Forall (fun p => p <> "") ps ->
  (PrefixScore sys ps = 0 /\ forall p, p ∈ ps -> HasPrefix (SysObjectID sys) p = false) \/
  exists p, p ∈ ps /\ HasPrefix (SysObjectID sys) p = true /\ PrefixScore sys ps = slen p /\ 0 < slen p /\
    forall q, q ∈ ps -> HasPrefix (SysObjectID sys) q = true -> slen q <= slen p.
Proof.
  intros Hne. rewrite Forall_forall in Hne. destruct (PrefixScore_from sys ps 0) as (H1 & H2 & H3); [done|]. fold (PrefixScore sys ps) in *.
  assert (forall p, p <> "" -> 0 < slen p) as Hpos.
  { intros p Hp. unfold slen. destruct (to_bytes p) as [|c b] eqn:E; [|rewrite len_cons; pose_len b; lia].
    destruct Hp. by rewrite <- (of_to_bytes p), E. }
  destruct H2 as [H2|(p & Hp & Hm & H2)].
  - left. split; [done|]. intros p Hp. destruct (HasPrefix _ _) eqn:E; [|done]. specialize (H3 p Hp (Hne p Hp) E). specialize (Hpos p (Hne p Hp)). lia.
  - right. exists p. split_and!; [done..|by apply Hpos, Hne|]. intros q Hq Hmq. rewrite <- H2. apply H3; [done|by apply Hne|done].
Qed.

(** ** What a collection can answer *)

Definition always {W A} (m : M W A) (Q : A -> Prop) : Prop := forall w, Q (fst (m w)).

Section always.
Context {W : Type} `{Session W}.

Lemma always_ret {A} (a : A) (Q : A -> Prop) : Q a -> always (mret a : M W A) Q.
Proof. by intros HQ w. Qed.
Lemma always_bind {A B} (m : M W A) (k : A -> M W B) (P : A -> Prop) (Q : B -> Prop) :
  always m P -> (forall a, P a -> always (k a) Q) -> always (m ≫= k) Q.
Proof. intros Hm Hk w. rewrite bind_fst. apply Hk, Hm. Qed.
Lemma always_any {A} (m : M W A) : always m (fun _ => True).
Proof. done. Qed.
Lemma eachM_always {A St} (f : St -> A -> M W St) (P : St -> Prop) l :
  (forall st x, x ∈ l -> P st -> always (f st x) P) -> forall st, P st -> always (eachM f st l) P.
Proof.
  intros Hf. induction l as [|x l IH]; intros st Hst; cbn [eachM]; [by apply always_ret|].
  eapply always_bind; [apply Hf; [by left|done]|]. intros st' Hst'. apply IH; [|done]. intros st2 y Hy. apply Hf. by right.
Qed.
Lemma WalkColumn_always {St} oid (fn : St -> string -> Value -> M W St) (P : St -> Prop) st :
  P st -> (forall st idx v, P st -> always (fn st idx v) P) -> always (WalkColumn oid fn st) P.
Proof.
  intros Hst Hfn. unfold WalkColumn. eapply always_bind; [apply always_any|]. intros [vars [e|]] _; [by apply always_ret|].
  apply eachM_always; [|done]. intros st' v _ Hst'. destruct (CutPrefix _ _); [by apply Hfn|by apply always_ret].
Qed.
Lemma gauge_always (Q : Sample -> Prop) out name labels value :
  Forall Q out -> (forall t, Q (mkSample name labels value t)) -> always (gauge out name labels value : M W _) (Forall Q).
Proof.
  intros Hout HQ. unfold gauge, GaugeSample. apply (always_bind _ _ Q).
  - eapply always_bind; [apply always_any|]. intros now _. by apply always_ret.
  - intros s Hs. apply always_ret, Forall_app. split; [done|]. by constructor.
Qed.
End always.
