(* ===== verification/Generic.v ===== *)
(** Package connectors/generic: the connector every device answers to. Its
    interface counters with the repair of partial walks, the inventory
    snapshot, the neighbours, and the health of net-snmp agents. *)
From Stdlib Require Import ZArith Lia.
From stdpp Require Import base list gmap strings pretty numbers sorting.
From S2P Require Import Prelude GoText NetipParse World Errx Float64 Sdk.

Definition oidSysDescr : string := ".1.3.6.1.2.1.1.1.0".
Definition oidSysObjectID : string := ".1.3.6.1.2.1.1.2.0".
Definition oidSysUpTime : string := ".1.3.6.1.2.1.1.3.0".
Definition oidSysContact : string := ".1.3.6.1.2.1.1.4.0".
Definition oidSysName : string := ".1.3.6.1.2.1.1.5.0".
Definition oidSysLocation : string := ".1.3.6.1.2.1.1.6.0".
Definition oidIfTable : string := ".1.3.6.1.2.1.2.2.1".
Definition oidIfXTable : string := ".1.3.6.1.2.1.31.1.1.1".
Definition oidLldpRemTable : string := ".1.0.8802.1.1.2.1.4.1.1".

Record colMap : Type := mkColMap { table : string; column : Z; metric : string; hc : bool }.

Definition trafficCols : list colMap := [
  mkColMap oidIfXTable 6 "netinv_if_in_octets_total" true;
  mkColMap oidIfXTable 10 "netinv_if_out_octets_total" true;
  mkColMap oidIfTable 10 "netinv_if_in_octets_total" false;
  mkColMap oidIfTable 16 "netinv_if_out_octets_total" false;
  mkColMap oidIfXTable 7 "netinv_if_in_ucast_pkts_total" true;
  mkColMap oidIfXTable 11 "netinv_if_out_ucast_pkts_total" true;
  mkColMap oidIfTable 14 "netinv_if_in_errors_total" false;
  mkColMap oidIfTable 20 "netinv_if_out_errors_total" false;
  mkColMap oidIfTable 13 "netinv_if_in_discards_total" false;
  mkColMap oidIfTable 19 "netinv_if_out_discards_total" false;
  mkColMap oidIfTable 7 "netinv_if_admin_status" false;
  mkColMap oidIfTable 8 "netinv_if_oper_status" false
].

Definition colPrefix (cm : colMap) : string := table cm +:+ "." +:+ Itoa (column cm) +:+ ".".

(** [strings.SplitN(s, sep, 2)], when it has two parts. *)
Fixpoint cut_bytes (sep : byte) (acc b : bytes) : option (bytes * bytes) :=
  match b with
  | [] => None
  | c :: b => if decide (c = sep) then Some (reverse acc, b) else cut_bytes sep (c :: acc) b
  end.
Definition SplitN2 (s : string) (sep : byte) : option (string * string) :=
  p ← cut_bytes sep [] (to_bytes s); Some (of_bytes p.1, of_bytes p.2).

Definition splitCol (oid table : string) : option (Z * Z) :=
  rest ← CutPrefix oid (table +:+ ".");
  p ← SplitN2 rest dot;
  col ← Atoi p.1; idx ← Atoi p.2; Some (col, idx).

Definition toFloat (v : Value) : option float64 := Num v.

Definition probeBatch : Z := 24.
Definition maxProbeVarbinds : Z := 600.

Abbreviation Table := (gmap string Value).

(** The variables of a walk by their OIDs. *)
Definition byOID (vars : list Var) : Table := foldl (fun m v => <[OID v := Value_ v]> m) ∅ vars.

Definition ifSample (now : Time) (name ifIndex : string) (val : float64) : Sample := mkSample name {["if_index" := ifIndex]} val now.

Definition pick (ifT ifX : Table) (table : string) : Table := if bool_decide (table = oidIfXTable) then ifX else ifT.

Section generic.
Context `{MapRange}.

(** ** The walk of the counters *)

Definition seenKey (metric ifIndex : string) : string := metric +:+ "/" +:+ ifIndex.

(** What an entry of a column gives: the interface and its counter. *)
Definition taken (cm : colMap) (hcSeen : gset string) (oid : string) (v : Value) : option (string * float64) :=
  ifIndex ← CutPrefix oid (colPrefix cm);
  if bool_decide (seenKey (metric cm) ifIndex ∈ hcSeen) && negb (hc cm) then None else
  val ← toFloat v; Some (ifIndex, val).
Definition claim (cm : colMap) (ifIndex : string) (hcSeen : gset string) : gset string :=
  if hc cm then {[seenKey (metric cm) ifIndex]} ∪ hcSeen else hcSeen.

(** [hcSeen] and the samples, after an entry. *)
Definition columnEntry (now : Time) (cm : colMap) (st : gset string * list Sample) (e : string * Value) : gset string * list Sample :=
  match taken cm st.1 e.1 e.2 with
  | None => st
  | Some (ifIndex, val) => (claim cm ifIndex st.1, st.2 ++ [ifSample now (metric cm) ifIndex val])
  end.
Definition columnLoop (now : Time) (ifT ifX : Table) (st : gset string * list Sample) (cm : colMap) : gset string * list Sample :=
  foldl (columnEntry now cm) st (range (pick ifT ifX (table cm))).
Definition trafficLoop (now : Time) (ifT ifX : Table) : gset string * list Sample :=
  foldl (columnLoop now ifT ifX) (∅, []) trafficCols.

(** ** The repair of a partial walk *)

(** The interfaces named anywhere in ifTable, in the order of their indexes:
    what is sorted is the text of numbers, and the comparison is that of the
    numbers. *)
Definition idxStep (ifT_oid : string) (idxs : list Z) : list Z :=
  match splitCol ifT_oid oidIfTable with
  | None => idxs
  | Some (_, idx) => if bool_decide (idx ∈ idxs) then idxs else idxs ++ [idx]
  end.
Definition indexes (ifT : Table) : list Z := merge_sort Z.le (foldl (fun idxs e => idxStep e.1 idxs) [] (range ifT)).

Definition present (have : Table) (prefix : string) : Z := len (filter (fun e => HasPrefix e.1 prefix) (range have)).

Definition missingOf (have : Table) (hcSeen : gset string) (cm : colMap) (idxs : list Z) : list string :=
  map (fun idx => colPrefix cm +:+ Itoa idx)
    (filter (fun idx => have !! (colPrefix cm +:+ Itoa idx) = None /\ ~ (seenKey (metric cm) (Itoa idx) ∈ hcSeen /\ hc cm = false)) idxs).

(** [hcSeen], the samples, the count of repairs and the budget. *)
Record repair : Type := mkRepair { rp_seen : gset string; rp_samples : list Sample; rp_repaired : Z; rp_budget : Z }.
#[export] Instance eta_repair : Eta repair := fun r => mkRepair (rp_seen r) (rp_samples r) (rp_repaired r) (rp_budget r).

Definition repairEntry (now : Time) (cm : colMap) (r : repair) (v : Var) : repair :=
  match taken cm (rp_seen r) (OID v) (Value_ v) with
  | None => r
  | Some (idx, val) =>
      mkRepair (claim cm idx (rp_seen r)) (rp_samples r ++ [ifSample now (metric cm) idx val]) (rp_repaired r + 1) (rp_budget r)
  end.

Section session.
Context {W : Type} `{Session W}.
Abbreviation M := (M W).

Definition walk (root : string) : M (Table + Err) :=
  '(vars, err) ← sWalk root;
  mret match err with Some e => inr e | None => inl (byOID vars) end.

(** The probes of a column: [fuel] bounds the batches, of which each takes
    something off [missing]. A probe that fails ends the column. *)
Fixpoint probeLoop (fuel : nat) (now : Time) (cm : colMap) (missing : list string) (r : repair) : M (outcome repair) :=
  match fuel with
  | O => mret OutOfFuel
  | S fuel =>
      if bool_decide (missing = []) || (rp_budget r <=? 0) then mret (Ret r) else
      let chunk := take (Z.to_nat probeBatch) missing in
      let chunk := if rp_budget r <? len chunk then take (Z.to_nat (rp_budget r)) chunk else chunk in
      let r := r <| rp_budget := rp_budget r - len chunk |> in
      '(vars, err) ← sGet chunk;
      match err with
      | Some _ => mret (Ret r)
      | None => probeLoop fuel now cm (drop (Z.to_nat probeBatch) missing) (foldl (repairEntry now cm) r vars)
      end
  end.

Fixpoint repairLoop (now : Time) (ifT ifX : Table) (idxs : list Z) (cols : list colMap) (r : repair) : M (outcome repair) :=
  match cols with
  | [] => mret (Ret r)
  | cm :: cols =>
      if rp_budget r <=? 0 then mret (Ret r) else
      let have := pick ifT ifX (table cm) in
      let n := present have (colPrefix cm) in
      if (n =? 0) || (len idxs <=? n) then repairLoop now ifT ifX idxs cols r else
      let missing := missingOf have (rp_seen r) cm idxs in
      r ←? probeLoop (S (length missing)) now cm missing r;
      repairLoop now ifT ifX idxs cols r
  end.

(** The count of repairs and the samples. *)
Definition fillCounterGaps (ifT ifX : Table) (hcSeen : gset string) (now : Time) (samples : list Sample) : M (outcome (Z * list Sample)) :=
  let idxs := indexes ifT in
  if bool_decide (idxs = []) then mret (Ret (0, samples)) else
  r ←? repairLoop now ifT ifX idxs trafficCols (mkRepair hcSeen samples 0 maxProbeVarbinds);
  mret (Ret (rp_repaired r, rp_samples r)).

(** ** Speeds *)

Definition positive (v : Value) : option float64 := f ← toFloat v; if flt (float_of 0) f then Some f else None.

Definition speedStep (prefix : string) (scale : float64 -> float64) (m : gmap string float64) (e : string * Value) : gmap string float64 :=
  match CutPrefix e.1 prefix with
  | None => m
  | Some idx => match positive e.2 with Some val => <[idx := scale val]> m | None => m end
  end.
Definition lowPrefix : string := oidIfTable +:+ ".5.".
Definition highPrefix : string := oidIfXTable +:+ ".15.".
Definition speeds (ifT ifX : Table) : gmap string float64 :=
  foldl (speedStep highPrefix (fun val => fmul val (float_of 1000000)))
    (foldl (speedStep lowPrefix (fun val => val)) ∅ (range ifT)) (range ifX).

Definition CollectInterfaces : M (outcome (list Sample + Err)) :=
  now ← sNow;
  r ← walk oidIfTable;
  match r with
  | inr e => mret (Ret (inr (ErrWrap "generic: ifTable walk" e)))
  | inl ifT =>
      r ← walk oidIfXTable;
      let ifX := match r with inl m => m | inr _ => ∅ end in
      let '(hcSeen, samples) := trafficLoop now ifT ifX in
      rs ←? fillCounterGaps ifT ifX hcSeen now samples;
      mret (Ret (inl (rs.2 ++ [mkSample "netinv_if_counters_repaired" ∅ (float_of rs.1) now]
        ++ map (fun e => ifSample now "netinv_if_speed_bps" e.1 e.2) (range (speeds ifT ifX)))))
  end.
End session.

(** ** The inventory *)

Section inventory.
Context (showFloat : float64 -> string).

(** [toString]: [%v] of a value that is no text. *)
Definition toString (v : Value) : string :=
  match v with VString s => s | VBytes b => of_bytes b | VInt z => Itoa z | VFloat f => showFloat f | VOther shown => shown end.

Definition emptySnapshot : InventorySnapshot := mkInventorySnapshot "" "" "" "" "" 0 "" "" "" "" [].

Definition sysStep (snap : InventorySnapshot) (v : Var) : InventorySnapshot :=
  let sv := toString (Value_ v) in
  if bool_decide (OID v = oidSysName) then snap <| sn_SysName := sv |>
  else if bool_decide (OID v = oidSysDescr) then snap <| sn_SysDescr := sv |>
  else if bool_decide (OID v = oidSysObjectID) then snap <| sn_SysObjectID := sv |>
  else if bool_decide (OID v = oidSysLocation) then snap <| sn_SysLocation := sv |>
  else if bool_decide (OID v = oidSysContact) then snap <| sn_SysContact := sv |>
  else if bool_decide (OID v = oidSysUpTime) then
    match toFloat (Value_ v) with Some f => snap <| sn_UptimeS := int_of (fdiv f (float_of 100)) |> | None => snap end
  else snap.

Definition newRecord (idx : Z) : InterfaceRecord := mkInterfaceRecord idx "" "" "" 0 0 0 "" 0 0.

(** A number into a field, when it is one. *)
Definition numInto (v : Value) (put : Z -> InterfaceRecord) (r : InterfaceRecord) : InterfaceRecord :=
  match toFloat v with Some f => put (int_of f) | None => r end.
Definition ifTColumn (col : Z) (v : Value) (r : InterfaceRecord) : InterfaceRecord :=
  if col =? 2 then r <| ir_Descr := toString v |>
  else if col =? 3 then numInto v (fun z => r <| ir_IfType := z |>) r
  else if col =? 4 then numInto v (fun z => r <| ir_MTU := z |>) r
  else if col =? 5 then numInto v (fun z => r <| ir_SpeedBPS := z |>) r
  else if col =? 7 then numInto v (fun z => r <| ir_AdminStatus := z |>) r
  else if col =? 8 then numInto v (fun z => r <| ir_OperStatus := z |>) r
  else r.
Definition ifXColumn (col : Z) (v : Value) (r : InterfaceRecord) : InterfaceRecord :=
  if col =? 1 then r <| ir_Name := toString v |>
  else if col =? 15 then
    match positive v with Some f => r <| ir_SpeedBPS := int64 (int_of f * 1000000) |> | None => r end
  else if col =? 18 then r <| ir_Alias := toString v |>
  else r.

(** A variable of a table: its record is there from now on. *)
Definition tableStep (root : string) (put : Z -> Value -> InterfaceRecord -> InterfaceRecord) (byIndex : gmap Z InterfaceRecord) (v : Var)
    : gmap Z InterfaceRecord :=
  match splitCol (OID v) root with
  | None => byIndex
  | Some (col, idx) => <[idx := put col (Value_ v) (default (newRecord idx) (byIndex !! idx))]> byIndex
  end.
Definition nameOf (r : InterfaceRecord) : InterfaceRecord := if bool_decide (ir_Name r = "") then r <| ir_Name := ir_Descr r |> else r.

Definition CollectInventory {W} `{Session W} : M W (InventorySnapshot + Err) :=
  '(vars, err) ← sGet [oidSysName; oidSysDescr; oidSysObjectID; oidSysLocation; oidSysContact; oidSysUpTime];
  match err with
  | Some e => mret (inr (ErrWrap "generic: system group" e))
  | None =>
      let snap := foldl sysStep emptySnapshot vars in
      '(ifT, err) ← sWalk oidIfTable;
      match err with
      | Some e => mret (inr (ErrWrap "generic: ifTable walk" e))
      | None =>
          '(ifX, _) ← sWalk oidIfXTable;
          let byIndex := foldl (tableStep oidIfXTable ifXColumn) (foldl (tableStep oidIfTable ifTColumn) ∅ ifT) ifX in
          mret (inl (snap <| sn_Interfaces := map (fun e => nameOf e.2) (range byIndex) |>))
      end
  end.

(** ** The neighbours *)

Definition lldpStep (adj : gmap (Z * Z) Adjacency) (v : Var) : gmap (Z * Z) Adjacency :=
  match CutPrefix (OID v) (oidLldpRemTable +:+ ".") with
  | None => adj
  | Some rest =>
      match Split rest dot with
      | [col; _; port; rem] =>
          let col := AtoiValue col in let port := AtoiValue port in let rem := AtoiValue rem in
          let a := default (mkAdjacency port "" "" "" "lldp") (adj !! (port, rem)) in
          if col =? 5 then <[(port, rem) := a <| ad_RemoteChassis := toString (Value_ v) |>]> adj
          else if col =? 7 then <[(port, rem) := a <| ad_RemotePortID := toString (Value_ v) |>]> adj
          else if col =? 9 then <[(port, rem) := a <| ad_RemoteSysName := toString (Value_ v) |>]> adj
          else adj
      | _ => adj
      end
  end.

(** A device without the table has no neighbours; it is not a failure. *)
Definition CollectTopology {W} `{Session W} : M W (list Adjacency) :=
  '(vars, err) ← sWalk oidLldpRemTable;
  mret match err with Some _ => [] | None => map snd (range (foldl lldpStep ∅ vars)) end.

(** ** The health of a net-snmp agent *)

Context (ParseFloat : string -> option float64).

Definition oidLaLoad : string := ".1.3.6.1.4.1.2021.10.1.3".
Definition oidMemTotalReal : string := ".1.3.6.1.4.1.2021.4.5.0".
Definition oidMemAvailReal : string := ".1.3.6.1.4.1.2021.4.6.0".
Definition oidMemBuffer : string := ".1.3.6.1.4.1.2021.4.14.0".
Definition oidMemCached : string := ".1.3.6.1.4.1.2021.4.15.0".
Definition oidSsCpuIdle : string := ".1.3.6.1.4.1.2021.11.11.0".
Definition oidLmTempName : string := ".1.3.6.1.4.1.2021.13.16.2.1.2".
Definition oidLmTempValue : string := ".1.3.6.1.4.1.2021.13.16.2.1.3".

(** The numbers among scalars, under their OIDs without the leading dot. *)
Definition norm (oid : string) : string := TrimPrefix oid ".".
Definition scalarNums (vars : list Var) : gmap string float64 :=
  foldl (fun m v => match Num (Value_ v) with Some f => <[norm (OID v) := f]> m | None => m end) ∅ vars.

(** What of a memory is in use, in KB: buffers and cache are not counted,
    unless that leaves less than nothing. *)
Definition memUsed (total free buffers cached : float64) : float64 :=
  let used := fsub (fsub (fsub total free) buffers) cached in
  if flt used (float_of 0) then fsub total free else used.

Definition period (idx : string) : option string :=
  if bool_decide (idx = "1") then Some "1m" else if bool_decide (idx = "2") then Some "5m" else if bool_decide (idx = "3") then Some "15m" else None.

(** A temperature in thousandths of a degree; slots without a sensor read 0. *)
Definition plausibleMilli (f : float64) : bool := negb (fle f (float_of 0) || flt (float_of 200000) f).

Definition memGauges {W} `{Session W} (out : list Sample) (total used : float64) : M W (list Sample) :=
  out ← gauge out "netinv_device_memory_total_bytes" ∅ (fmul total (float_of 1024));
  out ← gauge out "netinv_device_memory_used_bytes" ∅ (fmul used (float_of 1024));
  gauge out "netinv_device_memory_percent" ∅ (fdiv (fmul (float_of 100) used) total).

Definition CollectHealth {W} `{Session W} : M W (list Sample) :=
  '(scalars, _) ← sGet [oidMemTotalReal; oidMemAvailReal; oidMemBuffer; oidMemCached; oidSsCpuIdle];
  let val := scalarNums scalars in
  let get := fun oid => val !! norm oid in
  out ← match get oidSsCpuIdle with
        | Some idle => gauge [] "netinv_device_cpu_percent" ∅ (fsub (float_of 100) idle) | None => mret [] end;
  out ← match get oidMemTotalReal with
        | Some total =>
            if flt (float_of 0) total then
              let zero := default (float_of 0) in
              memGauges out total (memUsed total (zero (get oidMemAvailReal)) (zero (get oidMemBuffer)) (zero (get oidMemCached)))
            else mret out
        | None => mret out end;
  out ← WalkColumn oidLaLoad (fun out idx v =>
          match period idx with
          | None => mret out
          | Some p => match ParseFloat (TrimSpace (toString v)) with
                      | Some f => gauge out "netinv_device_load_average" {["period" := p]} f | None => mret out end
          end) out;
  names ← WalkColumn oidLmTempName (fun names idx v =>
          let n := toString v in
          mret (if negb (bool_decide (n = "")) && (slen n <=? 40) then <[idx := n]> names else names)) (∅ : gmap string string);
  WalkColumn oidLmTempValue (fun out idx v =>
          match Num v with
          | Some f =>
              if plausibleMilli f then
                let sensor := default "" (names !! idx) in
                let sensor := if bool_decide (sensor = "") then idx else sensor in
                gauge out "netinv_sensor_temperature_celsius" {["sensor" := sensor]} (fdiv f (float_of 1000))
              else mret out
          | None => mret out
          end) out.
End inventory.

(** * Properties *)

(** ** Columns *)

Lemma sep_inj {A} (c : A) l1 l2 k1 k2 : c ∉ l1 -> c ∉ l2 -> l1 ++ c :: k1 = l2 ++ c :: k2 -> l1 = l2 /\ k1 = k2.
Proof.
  revert l2. induction l1 as [|a l1 IH]; intros [|b l2] H1 H2 E; cbn in E; injection E; intros; subst.
  - done.
  - destruct H2. by left.
  - destruct H1. by left.
  - by destruct (IH l2) as [-> ->]; [set_solver..|].
Qed.

Definition metrics : list string := map metric trafficCols.
Lemma metrics_plain m : m ∈ metrics -> slash ∉ to_bytes m.
Proof. intros Hm. assert (Forall (fun m => slash ∉ to_bytes m) metrics) as Hall by decide_by_compute. by eapply Forall_forall in Hall. Qed.

Lemma seenKey_inj m m' a b : m ∈ metrics -> m' ∈ metrics -> seenKey m a = seenKey m' b -> m = m' /\ a = b.
Proof.
  intros Hm%metrics_plain Hm'%metrics_plain E. apply (f_equal to_bytes) in E. unfold seenKey in E. rewrite !to_bytes_app in E.
  apply sep_inj in E as [E1 E2]; [|done..]. apply (f_equal of_bytes) in E1, E2. by rewrite !of_to_bytes in E1, E2.
Qed.

(** The counter of an interface in a column, when there is one that can be
    read. *)
Definition counter (have : Table) (cm : colMap) (idx : string) : option float64 := v ← have !! (colPrefix cm +:+ idx); toFloat v.

Lemma elem_of_taken cm seen (have : Table) idx val :
  (idx, val) ∈ omap (fun e => taken cm seen e.1 e.2) (range have) <->
  counter have cm idx = Some val /\ (seenKey (metric cm) idx ∈ seen -> hc cm = true).
Proof.
  rewrite list_elem_of_omap. unfold taken, counter. split.
  - intros ([oid v] & Hin%elem_of_range & Ht). cbn in Ht. apply bind_Some in Ht as (i & Hi & Ht).
    destruct (_ && _) eqn:E; [done|]. apply bind_Some in Ht as (val' & Hv & [= -> ->]). apply CutPrefix_spec in Hi as ->.
    rewrite Hin. split; [done|]. intros Hs. rewrite bool_decide_true in E by done. by destruct (hc cm).
  - intros [(v & Hv & Ht)%bind_Some Hs]. exists (colPrefix cm +:+ idx, v). split; [by apply elem_of_range|]. cbn.
    rewrite CutPrefix_app. cbn. destruct (_ && _) eqn:E; [|by rewrite Ht].
    apply andb_true_iff in E as [E1%bool_decide_eq_true E2]. by rewrite (Hs E1) in E2.
Qed.

Lemma NoDup_taken cm seen (have : Table) : NoDup (omap (fun e => taken cm seen e.1 e.2) (range have)).*1.
Proof.
  pose proof (NoDup_range_fst have) as Hnd. induction (range have) as [|[oid v] l IH]; [constructor|].
  apply NoDup_cons in Hnd as [Hn Hnd]. cbn [omap list_omap fst snd].
  destruct (taken cm seen oid v) as [[i val]|] eqn:E; [|by apply IH].
  constructor; [|by apply IH]. intros ([i' val'] & Ei & Hin)%list_elem_of_fmap. cbn in Ei. subst i'.
  apply list_elem_of_omap in Hin as ([oid' v'] & Hin & E').
  cbn [fst snd] in *. unfold taken in E, E'. apply bind_Some in E as (j & Hj%CutPrefix_spec & E), E' as (j' & Hj'%CutPrefix_spec & E').
  destruct (_ && _) in E; [done|]. destruct (_ && _) in E'; [done|].
  apply bind_Some in E as (? & _ & [= -> ->]), E' as (? & _ & [= -> ->]). subst. apply Hn, list_elem_of_fmap. by exists (colPrefix cm +:+ i, v').
Qed.

(** In one column no entry bears on another. *)
Lemma columnEntries now cm l : forall seen seen0 out, (hc cm = false -> seen = seen0) ->
  (foldl (columnEntry now cm) (seen, out) l).2 = out ++ map (fun p => ifSample now (metric cm) p.1 p.2) (omap (fun e => taken cm seen0 e.1 e.2) l) /\
  (forall key, key ∈ (foldl (columnEntry now cm) (seen, out) l).1 <->
     key ∈ seen \/ hc cm = true /\ exists idx, key = seenKey (metric cm) idx /\ idx ∈ (omap (fun e => taken cm seen0 e.1 e.2) l).*1).
Proof.
  induction l as [|[oid v] l IH]; intros seen seen0 out Hs.
  { cbn. rewrite app_nil_r. split; [done|]. set_solver. }
  assert (taken cm seen oid v = taken cm seen0 oid v) as Et.
  { unfold taken. destruct (CutPrefix _ _) as [i|]; [|done]. cbn. destruct (hc cm); [by rewrite !andb_false_r|]. by rewrite Hs. }
  cbn [foldl omap list_omap fst snd]. unfold columnEntry at 2 4. cbn [fst snd]. rewrite Et. destruct (taken cm seen0 oid v) as [[i val]|]; [|by apply IH].
  destruct (IH (claim cm i seen) seen0 (out ++ [ifSample now (metric cm) i val])) as [IH1 IH2].
  { intros Hh. unfold claim. rewrite Hh. auto. }
  split; [rewrite IH1; cbn; by rewrite <- app_assoc|]. intros key. rewrite IH2. unfold claim. cbn. destruct (hc cm); [set_solver|]. naive_solver.
Qed.

Definition inCols (ifT ifX : Table) (cm : colMap) (idx : string) : option float64 := counter (pick ifT ifX (table cm)) cm idx.

(** The counter of a 32-bit column counts only where no 64-bit one can be
    read. *)
Definition counts (cols : list colMap) (ifT ifX : Table) (cm : colMap) (idx : string) (val : float64) : Prop :=
  cm ∈ cols /\ inCols ifT ifX cm idx = Some val /\
  (hc cm = false -> Forall (fun cm' => hc cm' = true -> metric cm' = metric cm -> inCols ifT ifX cm' idx = None) cols).

(** Columns of 64 bits before those of 32; one of each kind to a metric. *)
Definition hcFirst (cols : list colMap) : Prop :=
  NoDup (map (fun cm => (metric cm, hc cm)) cols) /\
  forall pre cm post, cols = pre ++ cm :: post -> hc cm = true -> Forall (fun cm' => hc cm' = false -> metric cm' <> metric cm) pre.

Lemma columnLoop_spec now ifT ifX st cm :
  let news := omap (fun e => taken cm st.1 e.1 e.2) (range (pick ifT ifX (table cm))) in
  (columnLoop now ifT ifX st cm).2 = st.2 ++ map (fun p => ifSample now (metric cm) p.1 p.2) news /\
  forall key, key ∈ (columnLoop now ifT ifX st cm).1 <->
    key ∈ st.1 \/ hc cm = true /\ exists idx, key = seenKey (metric cm) idx /\ is_Some (inCols ifT ifX cm idx).
Proof.
  destruct st as [seen out]. unfold columnLoop.
  destruct (columnEntries now cm (range (pick ifT ifX (table cm))) seen seen out ltac:(done)) as [E1 E2].
  split; [exact E1|]. intros key. rewrite E2. cbn. split.
  - intros [Hk|(Hh & idx & -> & ([i val] & -> & Hin)%list_elem_of_fmap)]; [by left|]. right. split; [done|].
    apply elem_of_taken in Hin as [Hin _]. exists i. split; [done|]. by exists val.
  - intros [Hk|(Hh & idx & -> & [val Hin])]; [by left|]. right. split; [done|]. exists idx. split; [done|].
    apply list_elem_of_fmap. exists (idx, val). split; [done|]. by apply elem_of_taken.
Qed.

Definition series (s : Sample) : string * gmap string string := (s_Name s, s_Labels s).

Lemma series_inj now m m' i i' v v' : series (ifSample now m i v) = series (ifSample now m' i' v') -> m = m' /\ i = i'.
Proof.
  intros E. split; [exact (f_equal fst E)|]. apply (f_equal (fun p => p.2 !! "if_index")) in E. cbn in E.
  rewrite !lookup_singleton_eq in E. congruence.
Qed.

(** What the walk of some columns leaves. *)
Record walked (now : Time) (ifT ifX : Table) (cols : list colMap) (st : gset string * list Sample) : Prop := mkWalked {
  wk_seen : forall key, key ∈ st.1 <->
    exists cm idx, cm ∈ cols /\ hc cm = true /\ key = seenKey (metric cm) idx /\ is_Some (inCols ifT ifX cm idx);
  wk_samples : forall s, s ∈ st.2 <-> exists cm idx val, counts cols ifT ifX cm idx val /\ s = ifSample now (metric cm) idx val;
  wk_once : NoDup (map series st.2)
}.

Lemma hcFirst_app cols cm : hcFirst (cols ++ [cm]) -> hcFirst cols /\
  (hc cm = true -> Forall (fun cm' => hc cm' = false -> metric cm' <> metric cm) cols) /\
  (forall cm', cm' ∈ cols -> metric cm' = metric cm -> hc cm' <> hc cm).
Proof.
  intros [H1 H2]. rewrite map_app in H1. apply NoDup_app in H1 as (H1 & H1' & _). split; [split; [done|]|split].
  - intros pre c post -> Hh. apply (H2 pre c (post ++ [cm])); [|done]. by rewrite <- app_assoc.
  - intros Hh. by apply (H2 cols cm []).
  - intros c Hc Hm Hh. apply (H1' (metric cm, hc cm)); [|set_solver]. apply list_elem_of_fmap. exists c. by rewrite <- Hm, <- Hh.
Qed.

Lemma counts_snoc ifT ifX cols cm idx val : hcFirst (cols ++ [cm]) -> forall c,
  counts (cols ++ [cm]) ifT ifX c idx val <-> counts cols ifT ifX c idx val \/
    c = cm /\ inCols ifT ifX cm idx = Some val /\
    (hc cm = false -> Forall (fun cm' => hc cm' = true -> metric cm' = metric cm -> inCols ifT ifX cm' idx = None) cols).
Proof.
  intros Hf c. destruct (hcFirst_app _ _ Hf) as (_ & Hh & Hd). unfold counts. rewrite elem_of_app, list_elem_of_singleton, Forall_app, Forall_singleton.
  split.
  - intros ([Hc|Hc] & Hi & Hn); [left|right; subst c]; split_and!; try done; intros E; by destruct (Hn E).
  - intros [(Hc & Hi & Hn)|(-> & Hi & Hn)].
    + split; [by left|]. split; [done|]. intros E. split; [by apply Hn|]. intros E' Em. exfalso.
      specialize (Hh E'). rewrite Forall_forall in Hh. by apply (Hh c Hc E).
    + split; [by right|]. split; [done|]. intros E. split; [by apply Hn|congruence].
Qed.

Lemma columnLoop_walked now ifT ifX cols cm st :
  hcFirst (cols ++ [cm]) -> Forall (fun c => metric c ∈ metrics) (cols ++ [cm]) ->
  walked now ifT ifX cols st -> walked now ifT ifX (cols ++ [cm]) (columnLoop now ifT ifX st cm).
Proof.
  intros Hf Hm [Hs Ho Hn]. destruct (columnLoop_spec now ifT ifX st cm) as [E1 E2]. destruct (hcFirst_app _ _ Hf) as (_ & Hh & Hd).
  apply Forall_app in Hm as [Hm Hm']. apply Forall_cons in Hm' as [Hm' _].
  assert (forall idx, seenKey (metric cm) idx ∈ st.1 <-> exists c, c ∈ cols /\ hc c = true /\ metric c = metric cm /\ is_Some (inCols ifT ifX c idx)) as Hk.
  { intros idx. rewrite Hs. split.
    - intros (c & i & Hc & Hhc & Ek & Hi). assert (metric c ∈ metrics) as Hm2 by (rewrite Forall_forall in Hm; by apply Hm).
      destruct (seenKey_inj _ _ _ _ Hm' Hm2 Ek) as [Ek' ->]. by exists c.
    - intros (c & Hc & Hhc & Em & Hi). exists c, idx. by rewrite Em. }
  split.
  - intros key. rewrite E2, Hs. split.
    + intros [(c & idx & Hc & Hk')|(Hhc & idx & Hk')]; [exists c, idx; split; [set_solver|done]|exists cm, idx; split; [set_solver|done]].
    + intros (c & idx & [Hc|Hc%list_elem_of_singleton]%elem_of_app & Hhc & Hk'); [left; by exists c, idx|right; subst c; split; [done|by exists idx]].
  - intros s. rewrite E1, elem_of_app, Ho. setoid_rewrite (counts_snoc ifT ifX cols cm); [|done]. split.
    + intros [(c & idx & val & Hc & ->)|([idx val] & -> & Hin)%list_elem_of_fmap]; [exists c, idx, val; by auto|].
      apply elem_of_taken in Hin as [Hin Hh']. exists cm, idx, val. split; [right|done]. split_and!; [done..|].
      intros E. apply Forall_forall. intros c Hc E' Em. destruct (inCols ifT ifX c idx) eqn:Ei; [|done]. exfalso.
      rewrite Hh' in E; [done|]. apply Hk. by exists c.
    + intros (c & idx & val & [Hc|(-> & Hin & Hno)] & ->); [left; by exists c, idx, val|]. right. apply list_elem_of_fmap.
      exists (idx, val). split; [done|]. apply elem_of_taken. split; [done|]. intros (c & Hc & E' & Em & [x Hx])%Hk.
      destruct (hc cm) eqn:E; [done|]. specialize (Hno eq_refl). rewrite Forall_forall in Hno. rewrite (Hno c Hc E' Em) in Hx. done.
  - rewrite E1, map_app. apply NoDup_app. split; [done|]. split.
    + intros x (s & -> & (c & idx & val & Hc & ->)%Ho)%list_elem_of_fmap. intros (s & Es & ([idx' val'] & -> & Hin)%list_elem_of_fmap)%list_elem_of_fmap.
      apply series_inj in Es as [Em ->]. destruct Hc as (Hc & Hi & Hno). apply elem_of_taken in Hin as [Hin Hh'].
      specialize (Hd c Hc Em). destruct (hc cm) eqn:E.
      * specialize (Hh eq_refl). rewrite Forall_forall in Hh. apply (Hh c Hc); [by destruct (hc c)|done].
      * enough (seenKey (metric cm) idx' ∈ st.1) as Hin' by (specialize (Hh' Hin'); congruence).
        apply Hk. exists c. split_and!; [done|by destruct (hc c)|done|by eexists].
    + rewrite map_map. clear E1 E2. pose proof (NoDup_taken cm st.1 (pick ifT ifX (table cm))) as Hnd.
      induction (omap _ _) as [|[i v] l IH]; [constructor|]. cbn in *. apply NoDup_cons in Hnd as [Hni Hnd]. constructor; [|by apply IH].
      intros ([i' v'] & Es & Hin)%list_elem_of_fmap. apply series_inj in Es as [_ ->]. apply Hni, list_elem_of_fmap. by exists (i', v').
Qed.

Lemma hcFirst_trafficCols : hcFirst trafficCols.
Proof.
  split; [decide_by_compute|]. intros pre cm post E Hh.
  set (before := fun n cm => forallb (fun c => hc c || negb (bool_decide (metric c = metric cm))) (take n trafficCols)).
  assert (Forall (fun n => from_option (fun cm => hc cm = true -> before n cm = true) True (trafficCols !! n)) (seq 0 12)) as Hall.
  { repeat constructor; intros; vm_compute; reflexivity || discriminate. }
  assert (length trafficCols = length pre + S (length post))%nat as El by (rewrite E, length_app; done). cbn in El.
  assert (length pre ∈ seq 0 12) as Hin by (apply elem_of_seq; lia). rewrite Forall_forall in Hall. specialize (Hall _ Hin).
  rewrite E, list_lookup_middle in Hall by done. cbn in Hall. specialize (Hall Hh). unfold before in Hall.
  rewrite E, take_app_length in Hall. apply Forall_forall. intros c Hc Hf Em. rewrite forallb_forall in Hall.
  specialize (Hall c (proj1 (list_elem_of_In _ _) Hc)). rewrite Hf, Em, bool_decide_true in Hall by done. done.
Qed.

Lemma walked_trafficLoop now ifT ifX : walked now ifT ifX trafficCols (trafficLoop now ifT ifX).
Proof.
  assert (forall cols, hcFirst cols -> Forall (fun c => metric c ∈ metrics) cols -> walked now ifT ifX cols (foldl (columnLoop now ifT ifX) (∅, []) cols)) as Hall.
  { intros cols. induction cols as [|cm cols IH] using rev_ind; intros Hf Hm.
    - split; [|intros s; split; [by intros ?%elem_of_nil|]|constructor]; [intros key; split; [set_solver|]|].
      + intros (cm & idx & Hc & _). by apply elem_of_nil in Hc.
      + intros (cm & idx & val & [Hc _] & _). by apply elem_of_nil in Hc.
    - rewrite foldl_app. apply columnLoop_walked; [done..|]. apply IH; [by eapply hcFirst_app|by apply Forall_app in Hm as [? _]]. }
  apply Hall; [apply hcFirst_trafficCols|]. decide_by_compute.
Qed.

(** The counters of a walk: an interface has at most one sample of a
    metric, that of the 64-bit column where it can be read, and else that of
    the 32-bit one; every counter that can be read is there. *)
Theorem counters_once now ifT ifX :
  NoDup (map series (trafficLoop now ifT ifX).2) /\
  forall s, s ∈ (trafficLoop now ifT ifX).2 <->
    exists cm idx val, counts trafficCols ifT ifX cm idx val /\ s = ifSample now (metric cm) idx val.
Proof. destruct (walked_trafficLoop now ifT ifX). done. Qed.

(** ** Probes *)

Lemma repairEntry_budget now cm r v : rp_budget (repairEntry now cm r v) = rp_budget r.
Proof. unfold repairEntry. by destruct (taken _ _ _ _) as [[]|]. Qed.
Lemma repairEntries_budget now cm vars r : rp_budget (foldl (repairEntry now cm) r vars) = rp_budget r.
Proof. revert r. induction vars as [|v vars IH]; intros r; [done|]. cbn [foldl]. by rewrite IH, repairEntry_budget. Qed.

Definition varbinds (log : list (list string)) : Z := foldr (fun c n => len c + n) 0 log.
Lemma varbinds_app a b : varbinds (a ++ b) = varbinds a + varbinds b.
Proof. induction a as [|c a IH]; cbn in *; [done|]. unfold varbinds in *. lia. Qed.
Definition goodProbe (c : list string) : Prop := c <> [] /\ len c <= probeBatch.

Section probes.
Context {W : Type} `{Session W}.

(** The session, with the probes it is asked for on record. *)
#[local] Instance recording : Session (W * list (list string)) := {
  sGet oids := fun s => let '(r, w) := sGet oids s.1 in (r, (w, s.2 ++ [oids]));
  sWalk root := fun s => let '(r, w) := sWalk root s.1 in (r, (w, s.2));
  sNow := fun s => let '(r, w) := sNow s.1 in (r, (w, s.2))
}.

Lemma probeLoop_bounded fuel now cm : forall missing r s, (length missing < fuel)%nat -> 0 <= rp_budget r ->
  exists r' w log, probeLoop fuel now cm missing r s = (Ret r', (w, s.2 ++ log)) /\ Forall goodProbe log /\
    rp_budget r' = rp_budget r - varbinds log /\ 0 <= rp_budget r'.
Proof.
  induction fuel as [|fuel IH]; intros missing r s Hf Hb; [lia|]. cbn [probeLoop].
  destruct (bool_decide (missing = [])) eqn:E1; [|destruct (Z.leb_spec (rp_budget r) 0) as [E2|E2]]; cbn [orb];
    try (exists r, s.1, []; rewrite app_nil_r; destruct s; split_and!; [done|constructor|cbn; lia|lia]).
  apply bool_decide_eq_false in E1. set (chunk := if rp_budget r <? _ then _ else _).
  assert (goodProbe chunk /\ len chunk <= rp_budget r) as [Hg Hc].
  { assert (0 < len missing) by (destruct missing; [done|rewrite len_cons; pose_len missing; lia]). unfold goodProbe, chunk, probeBatch, len in *.
    assert (forall l : list string, length l <> O -> l <> []) as Hne by (by intros [|]).
    match goal with |- context [rp_budget r <? ?n] => destruct (Z.ltb_spec (rp_budget r) n) as [E|E] end;
      rewrite ?length_take in *; (split; [split; [apply Hne; rewrite ?length_take|]|]); rewrite ?length_take; lia. }
  unfold mbind, M_bind. cbn [sGet recording]. destruct (sGet chunk s.1) as [[vars err] w]. cbn [fst snd].
  destruct err as [e|].
  - eexists _, w, [chunk]. split_and!; [done|by apply Forall_cons; split|cbn; lia|cbn; lia].
  - edestruct (IH (drop (Z.to_nat probeBatch) missing) (foldl (repairEntry now cm) (r <| rp_budget := rp_budget r - len chunk |>) vars) (w, s.2 ++ [chunk]))
      as (r' & w' & log & E & Hl & Hr & Hr').
    { rewrite length_drop. assert (length missing <> 0)%nat by (by destruct missing). unfold probeBatch. lia. }
    { rewrite repairEntries_budget. cbn. lia. }
    exists r', w', (chunk :: log). rewrite E. cbn [snd]. rewrite <- app_assoc. split_and!; [done|by apply Forall_cons; split|change (varbinds (chunk :: log)) with (len chunk + varbinds log); rewrite Hr, repairEntries_budget; cbn [rp_budget set eta]; cbn; lia|done].
Qed.

Lemma repairLoop_bounded now ifT ifX idxs : forall cols r s, 0 <= rp_budget r ->
  exists r' w log, repairLoop now ifT ifX idxs cols r s = (Ret r', (w, s.2 ++ log)) /\ Forall goodProbe log /\
    rp_budget r' = rp_budget r - varbinds log /\ 0 <= rp_budget r'.
Proof.
  induction cols as [|cm cols IH]; intros r s Hb; cbn [repairLoop].
  { exists r, s.1, []. rewrite app_nil_r. destruct s. split_and!; [done|constructor|cbn; lia|done]. }
  destruct (rp_budget r <=? 0).
  { exists r, s.1, []. rewrite app_nil_r. destruct s. split_and!; [done|constructor|cbn; lia|done]. }
  destruct (_ || _); [by apply IH|].
  edestruct (probeLoop_bounded (S (length (missingOf (pick ifT ifX (table cm)) (rp_seen r) cm idxs))) now cm) as (r1 & w1 & log1 & E1 & H1 & H2 & H3); [|exact Hb|].
  { apply Nat.lt_succ_diag_r. }
  rewrite (obind_ret _ _ _ _ _ E1). edestruct (IH r1 (w1, s.2 ++ log1)) as (r2 & w2 & log2 & E2 & H4 & H5 & H6); [done|].
  exists r2, w2, (log1 ++ log2). rewrite E2. cbn [snd]. rewrite <- app_assoc. split_and!; [done|by apply Forall_app|rewrite varbinds_app; lia|done].
Qed.

(** C40. The repair of a walk is bounded: whatever the device answers, a
    collection comes to its end having asked for at most 600 variables, in
    probes of at most 24, none of them empty. *)
Theorem probes_bounded (w : W) :
  let '(res, s) := CollectInterfaces (w, []) in
  (exists r, res = Ret r) /\ Forall goodProbe s.2 /\ varbinds s.2 <= maxProbeVarbinds.
Proof.
  unfold CollectInterfaces, walk, mbind, M_bind. cbn -[trafficLoop fillCounterGaps].
  destruct (sNow w) as [now w1]. cbn -[trafficLoop fillCounterGaps]. destruct (sWalk oidIfTable w1) as [[vars [e|]] w2]; cbn -[trafficLoop fillCounterGaps].
  { split; [by eexists|]. split; [constructor|done]. }
  destruct (sWalk oidIfXTable w2) as [[varsX errX] w3]; cbn -[trafficLoop fillCounterGaps]. destruct (trafficLoop _ _ _) as [seen samples].
  set (ifX := match _ with inl m => m | inr _ => ∅ end). unfold fillCounterGaps. unfold obind at 1. unfold mbind, M_bind.
  case_bool_decide; [cbn; split; [by eexists|]; split; [constructor|done]|].
  edestruct (repairLoop_bounded now (byOID vars) ifX (indexes (byOID vars)) trafficCols (mkRepair seen samples 0 maxProbeVarbinds) (w3, [])) as (r' & w' & log & E & Hl & Hb & Hb').
  { done. }
  rewrite (obind_ret _ _ _ _ _ E). cbn [rp_budget] in Hb. split; [by eexists|]. split; [done|]. cbn [snd app mret M_ret]. lia.
Qed.

(** A column that a walk left out altogether, or went through. *)
Definition settled (ifT ifX : Table) (cm : colMap) : Prop :=
  let n := present (pick ifT ifX (table cm)) (colPrefix cm) in n = 0 \/ len (indexes ifT) <= n.

(** A device whose columns are whole or absent is not asked for anything
    more: the repair leaves the samples, and the session, as they are. *)
Theorem healthy_silent ifT ifX hcSeen now samples (w : W) :
  Forall (settled ifT ifX) trafficCols -> fillCounterGaps ifT ifX hcSeen now samples w = (Ret (0, samples), w).
Proof.
  intros Hs. unfold fillCounterGaps. case_bool_decide; [done|].
  enough (forall r, 0 < rp_budget r -> repairLoop now ifT ifX (indexes ifT) trafficCols r w = (Ret r, w)) as Hr.
  { by rewrite (obind_ret _ _ _ _ _ (Hr (mkRepair hcSeen samples 0 maxProbeVarbinds) eq_refl)). }
  intros r Hb. induction Hs as [|cm cols [Hc|Hc] _ IH]; cbn [repairLoop]; [done|..]; rewrite (proj2 (Z.leb_gt _ _) Hb).
  - rewrite Hc. exact IH.
  - rewrite (proj2 (Z.leb_le _ _) Hc), orb_true_r. exact IH.
Qed.

End probes.

(** ** The repair of an agent that answers *)

Section honest.
Context {W : Type} `{Session W}.
Context (answer : string -> Value).
Hypothesis honest : forall oids (w : W), fst (sGet oids w) = (map (fun o => mkVar o (answer o)) oids, None).

Definition backed (r : repair) : Prop :=
  forall m idx, m ∈ metrics -> seenKey m idx ∈ rp_seen r -> exists now val, ifSample now m idx val ∈ rp_samples r.

Lemma repairEntry_mono now cm r v s : s ∈ rp_samples r -> s ∈ rp_samples (repairEntry now cm r v).
Proof. unfold repairEntry. destruct (taken _ _ _ _) as [[]|]; [|done]. cbn. set_solver. Qed.
Lemma repairEntries_mono now cm vars r s : s ∈ rp_samples r -> s ∈ rp_samples (foldl (repairEntry now cm) r vars).
Proof. revert r. induction vars as [|v vars IH]; intros r Hs; [done|]. cbn. by apply IH, repairEntry_mono. Qed.

Lemma repairEntry_backed now cm r v : metric cm ∈ metrics -> backed r -> backed (repairEntry now cm r v).
Proof.
  intros Hm Hr m idx Hm' Hk. unfold repairEntry in *. destruct (taken _ _ _ _) as [[i val]|]; [|by apply Hr].
  cbn in *. unfold claim in Hk. destruct (hc cm).
  - apply elem_of_union in Hk as [Hk%elem_of_singleton|Hk].
    + apply seenKey_inj in Hk as [-> ->]; [|done..]. exists now, val. set_solver.
    + destruct (Hr m idx Hm' Hk) as (t & x & Hx). exists t, x. set_solver.
  - destruct (Hr m idx Hm' Hk) as (t & x & Hx). exists t, x. set_solver.
Qed.
Lemma repairEntries_backed now cm vars r : metric cm ∈ metrics -> backed r -> backed (foldl (repairEntry now cm) r vars).
Proof. intros Hm. revert r. induction vars as [|v vars IH]; intros r Hr; [done|]. cbn. by apply IH, repairEntry_backed. Qed.

(** A counter that is answered is there in the end. *)
Lemma repairEntries_there now cm vars r idx val v : metric cm ∈ metrics -> backed r ->
  mkVar (colPrefix cm +:+ idx) v ∈ vars -> toFloat v = Some val ->
  exists t x, ifSample t (metric cm) idx x ∈ rp_samples (foldl (repairEntry now cm) r vars).
Proof.
  intros Hm. revert r. induction vars as [|v' vars IH]; intros r Hr Hin Hv; [by apply elem_of_nil in Hin|].
  cbn. apply elem_of_cons in Hin as [<-|Hin]; [|by apply IH; [by apply repairEntry_backed|..]].
  enough (exists t x, ifSample t (metric cm) idx x ∈ rp_samples (repairEntry now cm r (mkVar (colPrefix cm +:+ idx) v))) as (t & x & Hx).
  { exists t, x. by apply repairEntries_mono. }
  unfold repairEntry, taken. cbn [OID Value_]. rewrite CutPrefix_app. cbn. case_bool_decide as Hk; cbn.
  - destruct (hc cm); cbn; [|by apply Hr]. rewrite Hv. cbn. exists now, val. set_solver.
  - rewrite Hv. cbn. exists now, val. set_solver.
Qed.

Lemma probeLoop_honest fuel now cm : forall missing r w, (length missing < fuel)%nat -> len missing <= rp_budget r ->
  fst (probeLoop fuel now cm missing r w) =
  Ret ((foldl (repairEntry now cm) r (map (fun o => mkVar o (answer o)) missing)) <| rp_budget := rp_budget r - len missing |>).
Proof.
  induction fuel as [|fuel IH]; intros missing r w Hf Hb; [lia|]. cbn [probeLoop].
  destruct (bool_decide (missing = [])) eqn:E1.
  { apply bool_decide_eq_true in E1 as ->. cbn. destruct r. cbn. by rewrite Z.sub_0_r. }
  apply bool_decide_eq_false in E1. assert (0 < len missing) by (destruct missing; [done|rewrite len_cons; pose_len missing; lia]).
  rewrite (proj2 (Z.leb_gt _ _)) by lia. cbn [orb]. assert (len (take (Z.to_nat probeBatch) missing) <= len missing) by (unfold len; rewrite length_take; lia).
  rewrite (proj2 (Z.ltb_ge _ _)) by lia. rewrite bind_fst. set (chunk := take _ missing) in *.
  rewrite honest. cbn [fst snd].
  assert (len missing = len chunk + len (drop (Z.to_nat probeBatch) missing)) as El by (rewrite <- (take_drop (Z.to_nat probeBatch) missing) at 1; apply len_app).
  rewrite IH.
  - rewrite repairEntries_budget. change (rp_budget (r <| rp_budget := rp_budget r - len chunk |>)) with (rp_budget r - len chunk). f_equal.
    rewrite El. set (rest := drop _ missing).
    assert (map (fun o => mkVar o (answer o)) missing = map (fun o => mkVar o (answer o)) chunk ++ map (fun o => mkVar o (answer o)) rest) as ->
      by (rewrite <- map_app; unfold chunk, rest; by rewrite take_drop).
    rewrite foldl_app.
    assert (forall vars r b, foldl (repairEntry now cm) (r <| rp_budget := b |>) vars = (foldl (repairEntry now cm) r vars) <| rp_budget := b |>) as Hbud.
    { clear. induction vars as [|v vars IH]; intros r b; [done|]. cbn [foldl]. rewrite <- IH. f_equal. unfold repairEntry. cbn. by destruct (taken _ _ _ _) as [[]|]. }
    rewrite !Hbud. cbn. f_equal. lia.
  - rewrite length_drop. assert (length missing <> 0)%nat by (by destruct missing). unfold probeBatch. lia.
  - rewrite repairEntries_budget. cbn. lia.
Qed.

(** An interface that a column left out of a partial walk, and whose counter
    the device has. *)
Definition gap (ifT ifX : Table) (cm : colMap) (idx : Z) : Prop :=
  idx ∈ indexes ifT /\ ~ settled ifT ifX cm /\ pick ifT ifX (table cm) !! (colPrefix cm +:+ Itoa idx) = None /\
  is_Some (toFloat (answer (colPrefix cm +:+ Itoa idx))).

Lemma missingOf_len have seen cm idxs : len (missingOf have seen cm idxs) <= len idxs.
Proof. unfold missingOf, len. rewrite length_map. apply Nat2Z.inj_le, length_filter. Qed.

Lemma repairLoop_honest now ifT ifX : forall cols r w, backed r -> Forall (fun cm => metric cm ∈ metrics) cols ->
  indexes ifT <> [] -> len cols * len (indexes ifT) <= rp_budget r ->
  exists r' w', repairLoop now ifT ifX (indexes ifT) cols r w = (Ret r', w') /\ (forall s, s ∈ rp_samples r -> s ∈ rp_samples r') /\
    forall cm idx, cm ∈ cols -> gap ifT ifX cm idx -> exists t x, ifSample t (metric cm) (Itoa idx) x ∈ rp_samples r'.
Proof.
  induction cols as [|cm cols IH]; intros r w Hr Hm Hi Hb.
  { exists r, w. split_and!; [done..|]. by intros ? ? ?%elem_of_nil. }
  apply Forall_cons in Hm as [Hm Hms]. rewrite len_cons in Hb. pose_len cols.
  assert (0 < len (indexes ifT)) by (destruct (indexes ifT); [done|rewrite len_cons; pose_len l; lia]).
  cbn [repairLoop]. rewrite (proj2 (Z.leb_gt _ _)) by nia.
  destruct (_ || _) eqn:Es.
  { destruct (IH r w) as (r' & w' & E & Hmono & Hgap); [done..|nia|]. exists r', w'. split_and!; [done..|].
    intros cm' idx [->|Hc]%elem_of_cons Hg; [|by apply Hgap]. exfalso. destruct Hg as (_ & Hns & _). apply Hns.
    unfold settled. apply orb_true_iff in Es as [Es%Z.eqb_eq|Es%Z.leb_le]; auto. }
  set (missing := missingOf _ _ _ _). pose proof (missingOf_len (pick ifT ifX (table cm)) (rp_seen r) cm (indexes ifT)) as Hlen. fold missing in Hlen.
  destruct (probeLoop (S (length missing)) now cm missing r w) as [o w1] eqn:Ep.
  pose proof (probeLoop_honest (S (length missing)) now cm missing r w (Nat.lt_succ_diag_r _) ltac:(nia)) as Eo. rewrite Ep in Eo. cbn [fst] in Eo.
  subst o. rewrite (obind_ret _ _ _ _ _ Ep). set (r1 := foldl _ r _) in *. set (r2 := r1 <| rp_budget := _ |>).
  destruct (IH r2 w1) as (r' & w' & E & Hmono & Hgap); try done.
  { intros m idx. apply (repairEntries_backed now cm _ r Hm Hr m idx). }
  { cbn. nia. }
  exists r', w'. split; [exact E|]. split.
  { intros s Hs. apply Hmono. by apply repairEntries_mono. }
  intros cm' idx [->|Hc]%elem_of_cons Hg; [|by apply Hgap]. destruct Hg as (Hi' & _ & Hnone & [val Hv]).
  enough (exists t x, ifSample t (metric cm) (Itoa idx) x ∈ rp_samples r1) as (t & x & Hx) by (exists t, x; by apply Hmono).
  destruct (decide (seenKey (metric cm) (Itoa idx) ∈ rp_seen r /\ hc cm = false)) as [[Hk _]|Hn].
  - destruct (Hr _ _ Hm Hk) as (t & x & Hx). exists t, x. by apply repairEntries_mono.
  - apply (repairEntries_there now cm _ r (Itoa idx) val (answer (colPrefix cm +:+ Itoa idx)) Hm Hr); [|done].
    apply list_elem_of_fmap. exists (colPrefix cm +:+ Itoa idx). split; [done|]. apply list_elem_of_fmap. exists idx. split; [done|].
    by apply list_elem_of_filter.
Qed.

(** A walk that stops short does not cost an interface its graphs: when
    the device answers for the counters one by one, and has at most fifty
    interfaces, each of them ends up with a sample of every metric that any
    interface was walked for, where the device has the counter. *)
Theorem gaps_filled now ifT ifX w cm idx :
  len (indexes ifT) <= 50 -> cm ∈ trafficCols -> gap ifT ifX cm idx ->
  exists n out w', fillCounterGaps ifT ifX (trafficLoop now ifT ifX).1 now (trafficLoop now ifT ifX).2 w = (Ret (n, out), w') /\
    exists t x, ifSample t (metric cm) (Itoa idx) x ∈ out.
Proof.
  intros Hlen Hc Hg. unfold fillCounterGaps.
  assert (indexes ifT <> []) as Hne by (destruct Hg as [Hg _]; intros E; rewrite E in Hg; by apply elem_of_nil in Hg).
  rewrite bool_decide_false by done. set (r := mkRepair _ _ _ _).
  destruct (walked_trafficLoop now ifT ifX) as [Hs Ho _].
  destruct (repairLoop_honest now ifT ifX trafficCols r w) as (r' & w' & E & _ & Hgap); [|decide_by_compute|done|change (12 * len (indexes ifT) <= 600); lia|].
  { intros m i Hm Hk. cbn in Hk. apply Hs in Hk as (c & j & Hc' & Hh & Ek & [val Hv]).
    assert (metric c ∈ metrics) as Hm2 by (apply list_elem_of_fmap; by exists c).
    destruct (seenKey_inj _ _ _ _ Hm Hm2 Ek) as [-> ->]. exists now, val. apply Ho. exists c, j, val. split; [|done].
    split_and!; [done..|congruence]. }
  rewrite (obind_ret _ _ _ _ _ E). eexists _, _, w'. split; [done|]. by apply Hgap.
Qed.
End honest.
End generic.

(** ** Speeds *)

Section speeds.
Context `{MapRange}.

Definition speedAt (have : Table) (prefix idx : string) : option float64 := v ← have !! (prefix +:+ idx); positive v.

Lemma speedStep_other prefix scale l idx : forall m,
  (forall v, (prefix +:+ idx, v) ∈ l -> positive v = None) -> foldl (speedStep prefix scale) m l !! idx = m !! idx.
Proof.
  induction l as [|[oid v] l IH]; intros m Hl; [done|]. cbn [foldl]. rewrite IH by (intros; apply Hl; set_solver).
  unfold speedStep. cbn [fst snd]. destruct (CutPrefix oid prefix) as [i|] eqn:E; [|done]. apply CutPrefix_spec in E as ->.
  destruct (positive v) eqn:Ep; [|done]. apply lookup_insert_ne. intros ->. rewrite (Hl v) in Ep; [done|]. by left.
Qed.
Lemma speedStep_here prefix scale l idx v f : forall m, NoDup l.*1 -> (prefix +:+ idx, v) ∈ l -> positive v = Some f ->
  foldl (speedStep prefix scale) m l !! idx = Some (scale f).
Proof.
  induction l as [|[oid v'] l IH]; intros m Hn Hin Hv; [by apply elem_of_nil in Hin|]. cbn [foldl]. apply NoDup_cons in Hn as [Hni Hn].
  apply elem_of_cons in Hin as [[= <- <-]|Hin]; [|by apply IH].
  rewrite speedStep_other.
  - unfold speedStep. cbn [fst snd]. rewrite CutPrefix_app, Hv. by rewrite lookup_insert_eq.
  - intros v2 Hin. exfalso. apply Hni, list_elem_of_fmap. by exists (prefix +:+ idx, v2).
Qed.

Lemma speedFold prefix scale (have : Table) m idx :
  foldl (speedStep prefix scale) m (range have) !! idx =
  match speedAt have prefix idx with Some f => Some (scale f) | None => m !! idx end.
Proof.
  destruct (speedAt have prefix idx) as [f|] eqn:E; unfold speedAt in E.
  - apply bind_Some in E as (v & Hv & Hp). apply (speedStep_here _ _ _ _ v); [apply NoDup_range_fst|by apply elem_of_range|done].
  - apply speedStep_other. intros v Hin%elem_of_range. by rewrite Hin in E.
Qed.

(** The speed of an interface is what ifHighSpeed says, in millions, when
    it says anything above zero, and else what ifSpeed says; one that neither
    tells has no speed, rather than a speed of zero. *)
Theorem speed_preferred ifT ifX idx :
  speeds ifT ifX !! idx =
  match speedAt ifX highPrefix idx with
  | Some f => Some (fmul f (float_of 1000000))
  | None => speedAt ifT lowPrefix idx
  end.
Proof.
  unfold speeds. rewrite !speedFold. destruct (speedAt ifX highPrefix idx); [done|]. rewrite lookup_empty.
  by destruct (speedAt ifT lowPrefix idx).
Qed.
End speeds.

(** ** The inventory *)

Section records.
Context `{MapRange} (showFloat : float64 -> string).

Definition indexed (m : gmap Z InterfaceRecord) : Prop := map_Forall (fun idx r => ir_IfIndex r = idx) m.

Lemma ifTColumn_index col v r : ir_IfIndex (ifTColumn showFloat col v r) = ir_IfIndex r.
Proof. unfold ifTColumn, numInto. by repeat case_match. Qed.
Lemma ifXColumn_index col v r : ir_IfIndex (ifXColumn showFloat col v r) = ir_IfIndex r.
Proof. unfold ifXColumn. by repeat case_match. Qed.

Definition named (root : string) (idx : Z) (v : Var) : Prop := exists col, splitCol (OID v) root = Some (col, idx).

Lemma tableFold root put vars : (forall col v r, ir_IfIndex (put col v r) = ir_IfIndex r) -> forall m, indexed m ->
  indexed (foldl (tableStep root put) m vars) /\
  forall idx, is_Some (foldl (tableStep root put) m vars !! idx) <-> is_Some (m !! idx) \/ Exists (named root idx) vars.
Proof.
  intros Hput. induction vars as [|v vars IH]; intros m Hm; cbn [foldl].
  { split; [done|]. intros idx. rewrite Exists_nil. naive_solver. }
  assert (indexed (tableStep root put m v)) as Hm'.
  { unfold tableStep. destruct (splitCol _ _) as [[col i]|]; [|done]. apply map_Forall_insert_2; [|done].
    rewrite Hput. destruct (m !! i) as [r|] eqn:E; [by apply (Hm i r)|done]. }
  destruct (IH _ Hm') as [H1 H2]. split; [done|]. intros idx. rewrite H2, Exists_cons. unfold tableStep, named at 2.
  destruct (splitCol (OID v) root) as [[col i]|] eqn:E; [|naive_solver].
  destruct (decide (i = idx)) as [->|Hne]; [rewrite lookup_insert_eq|rewrite lookup_insert_ne by done]; naive_solver.
Qed.

Context {W : Type} `{Session W}.

Definition sysGroup : list string := [oidSysName; oidSysDescr; oidSysObjectID; oidSysLocation; oidSysContact; oidSysUpTime].

(** The inventory of a device: each interface that either table names is
    there once, whatever order the answers come in and however often an index
    is named, and none but those; nothing is without a name that has a
    description. An ifXTable that cannot be walked leaves the rest. *)
Theorem inventory_indexes vars ifT ifX err w w1 w2 w3 :
  sGet sysGroup w = ((vars, None), w1) -> sWalk oidIfTable w1 = ((ifT, None), w2) -> sWalk oidIfXTable w2 = ((ifX, err), w3) ->
  exists snap, CollectInventory showFloat w = (inl snap, w3) /\ NoDup (map ir_IfIndex (sn_Interfaces snap)) /\
    (forall idx, idx ∈ map ir_IfIndex (sn_Interfaces snap) <-> Exists (named oidIfTable idx) ifT \/ Exists (named oidIfXTable idx) ifX) /\
    Forall (fun r => ir_Name r = "" -> ir_Descr r = "") (sn_Interfaces snap).
Proof.
  intros Eg E1 E2. unfold CollectInventory, mbind, M_bind. fold sysGroup. rewrite Eg, E1, E2. eexists. split; [done|]. cbn [sn_Interfaces set eta].
  destruct (tableFold oidIfTable (ifTColumn showFloat) ifT ifTColumn_index ∅) as [H1 H1']; [apply map_Forall_empty|].
  destruct (tableFold oidIfXTable (ifXColumn showFloat) ifX ifXColumn_index _ H1) as [H2 H2'].
  set (m := foldl _ _ ifX) in *.
  assert (map ir_IfIndex (map (fun e => nameOf e.2) (range m)) = (range m).*1) as Ei.
  { rewrite map_map. apply list_fmap_ext. intros i [idx r] Hl. cbn. apply list_elem_of_lookup_2, elem_of_range in Hl.
    rewrite <- (H2 idx r Hl). unfold nameOf. by case_bool_decide. }
  cbn. fold m. rewrite Ei. split; [apply NoDup_range_fst|]. split.
  - intros idx. rewrite list_elem_of_fmap. etrans; [|etrans; [apply (H2' idx)|rewrite (H1' idx), lookup_empty; naive_solver]].
    split; [intros ([idx' r] & -> & Hin%elem_of_range); by exists r|intros [r Hr]; exists (idx, r); split; [done|by apply elem_of_range]].
  - apply Forall_fmap, Forall_forall. intros [idx r] _. cbn. unfold nameOf. by case_bool_decide.
Qed.
End records.

(** ** At work *)

Section demo.
Context (data : list Var) (walkable : string -> bool).
Definition answerOf (oid : string) : Value :=
  match list_find (fun v => OID v = oid) data with Some (_, v) => Value_ v | None => VOther "<nil>" end.
Definition walkOf (root : string) : list Var := filter (fun v => HasPrefix (OID v) (root +:+ ".") = true /\ walkable (OID v) = true) data.
(** A device that answers every question and walks what it walks. *)
Definition demoSession : Session unit := {|
  sGet oids w := ((map (fun o => mkVar o (answerOf o)) oids, None), w);
  sWalk root w := ((walkOf root, None), w);
  sNow w := (Second, w)
|}.
End demo.

(** Three interfaces with status, 32-bit and 64-bit counters. *)
Definition gateway : list Var :=
  concat (map (fun i => [
    mkVar (oidIfTable +:+ ".2." +:+ Itoa i) (VString ("eth" +:+ Itoa i));
    mkVar (oidIfTable +:+ ".7." +:+ Itoa i) (VInt 1);
    mkVar (oidIfTable +:+ ".10." +:+ Itoa i) (VInt (2000 + i));
    mkVar (oidIfXTable +:+ ".6." +:+ Itoa i) (VInt (5000000000 + i))]) [1; 2; 3]).
(** Of a 64-bit column, the walk of the agent finds the first interface. *)
Definition brokenWalk (oid : string) : bool := negb (HasPrefix oid (oidIfXTable +:+ ".6.")) || bool_decide (oid = oidIfXTable +:+ ".6.1").
Definition wholeWalk (oid : string) : bool := true.

Abbreviation broken := (demoSession gateway brokenWalk).
Abbreviation whole := (demoSession gateway wholeWalk).
Definition octetsOf (idx : string) (out : list Sample) : list float64 :=
  map s_Value (filter (fun s => s_Name s = "netinv_if_in_octets_total" /\ s_Labels s !! "if_index" = Some idx) out).
Definition samplesOf (o : outcome (list Sample + Err)) : list Sample := match o with Ret (inl out) => out | _ => [] end.

(** A device that walks everything: the 64-bit counter and no other. *)
Example whole_demo : octetsOf "2" (samplesOf (fst (@CollectInterfaces anyRange _ whole tt))) = [float_of 5000000002].
Proof. by vm_compute. Qed.

(** The repair does not know what the walk has already given: of an interface
    that was walked in the 32-bit column and is missing in the 64-bit one,
    both counters are reported, under one name and at one time. *)
Lemma counter_twice :
  octetsOf "2" (samplesOf (fst (@CollectInterfaces anyRange _ broken tt))) = [float_of 2002; float_of 5000000002].
Proof. by vm_compute. Qed.

Definition gatewayT : Table := byOID (walkOf gateway brokenWalk oidIfTable).
Definition gatewayX : Table := byOID (walkOf gateway brokenWalk oidIfXTable).

Lemma gaps_filled_witness :
  gap (H := anyRange) (answerOf gateway) gatewayT gatewayX (mkColMap oidIfXTable 6 "netinv_if_in_octets_total" true) 3 /\
  exists n out w', @fillCounterGaps anyRange unit broken gatewayT gatewayX (@trafficLoop anyRange Second gatewayT gatewayX).1 Second
      (@trafficLoop anyRange Second gatewayT gatewayX).2 tt = (Ret (n, out), w') /\
    exists t x, ifSample t "netinv_if_in_octets_total" "3" x ∈ out.
Proof.
  assert (gap (H := anyRange) (answerOf gateway) gatewayT gatewayX (mkColMap oidIfXTable 6 "netinv_if_in_octets_total" true) 3) as Hg.
  { split; [decide_by_compute|]. split; [vm_compute; intros [E|E]; [done|by apply E]|]. split; [by vm_compute|exists (float_of 5000000003); by vm_compute]. }
  split; [exact Hg|].
  apply (@gaps_filled anyRange unit broken (answerOf gateway) ltac:(done) Second gatewayT gatewayX tt
    (mkColMap oidIfXTable 6 "netinv_if_in_octets_total" true) 3); [by vm_compute|by left|exact Hg].
Defined.

Definition wholeT : Table := byOID (walkOf gateway wholeWalk oidIfTable).
Definition wholeX : Table := byOID (walkOf gateway wholeWalk oidIfXTable).
Lemma healthy_silent_witness :
  Forall (@settled anyRange wholeT wholeX) trafficCols /\
  @fillCounterGaps anyRange unit whole wholeT wholeX ∅ Second [] tt = (Ret (0, []), tt).
Proof.
  assert (Forall (@settled anyRange wholeT wholeX) trafficCols) as Hs.
  { repeat (constructor; [vm_compute; first [by left | by right]|]). constructor. }
  split; [exact Hs|]. by apply (@healthy_silent anyRange unit whole).
Defined.

Definition noFloat (f : float64) : string := "".
Lemma inventory_indexes_witness :
  exists snap, @CollectInventory anyRange noFloat unit broken tt = (inl snap, tt) /\ NoDup (map ir_IfIndex (sn_Interfaces snap)).
Proof.
  destruct (@inventory_indexes anyRange noFloat unit broken (map (fun o => mkVar o (answerOf gateway o)) sysGroup)
    (walkOf gateway brokenWalk oidIfTable) (walkOf gateway brokenWalk oidIfXTable) None tt tt tt tt eq_refl eq_refl eq_refl)
    as (snap & E & Hn & _). exists snap. split; [exact E|exact Hn].
Defined.
Example inventory_demo :
  match fst (@CollectInventory anyRange noFloat unit broken tt) with
  | inl snap => merge_sort Z.le (map ir_IfIndex (sn_Interfaces snap)) = [1; 2; 3] /\ "eth2" ∈ map ir_Name (sn_Interfaces snap)
  | inr _ => False
  end.
Proof. vm_compute. split; [done|]. right. by left. Qed.
