(* ===== verification/Vendors.v ===== *)
(** Packages connectors/<vendor> and connectors/registry: the connectors of
    the vendors, which are the generic one with an identity and a health of
    their own, and the registry that chooses among them.

    [ToLower] and [EqualFold] of package strings are parameters. *)
From Stdlib Require Import ZArith Lia.
From stdpp Require Import base list gmap strings pretty numbers sorting.
From S2P Require Import Prelude GoText NetipParse World Errx Float64 Sdk Generic.

Section vendors.
Context `{MapRange} (ToLower : string -> string) (EqualFold : string -> string -> bool) (showFloat : float64 -> string).

(** ** Identity *)

Definition baseCaps : list Capability := [CapInventory; CapInterfaces; CapTopology; CapHealth].

Definition Base : Connector := mkConnector "generic" [] (fun _ => 1) baseCaps.

(** A connector that is known by its prefixes. *)
Definition byPrefix (id : string) (prefixes : list string) (caps : list Capability) : Connector :=
  mkConnector id prefixes (fun sys => PrefixScore sys prefixes) caps.

Definition cisco : Connector := byPrefix "cisco-ios" [".1.3.6.1.4.1.9."] (AddCaps baseCaps [CapHealth]).
Definition fortinet : Connector := byPrefix "fortinet-fortios" [".1.3.6.1.4.1.12356."] (AddCaps baseCaps [CapHealth]).
Definition paloalto : Connector := byPrefix "paloalto-panos" [".1.3.6.1.4.1.25461."] (AddCaps baseCaps [CapHealth]).
Definition juniper : Connector := byPrefix "juniper-junos" [".1.3.6.1.4.1.2636."] (AddCaps baseCaps [CapHealth]).
Definition huawei : Connector := byPrefix "huawei-vrp" [".1.3.6.1.4.1.2011."] (AddCaps baseCaps [CapHealth]).
Definition zte : Connector := byPrefix "zte-zxr" [".1.3.6.1.4.1.3902."] baseCaps.

Definition ruckusMatch (sys : SysInfo) : Z :=
  let s := PrefixScore sys [".1.3.6.1.4.1.25053"] in
  if 0 <? s then s else if Contains_str (ToLower (SysDescr sys)) "ruckus" then 5 else 0.
Definition ruckus : Connector := mkConnector "ruckus" [".1.3.6.1.4.1.25053"] ruckusMatch (AddCaps baseCaps [CapHealth]).

Definition ubiquitiPrefixes : list string := [".1.3.6.1.4.1.41112."; ".1.3.6.1.4.1.10002."].
Definition ubiquitiMatch (sys : SysInfo) : Z :=
  let s := PrefixScore sys ubiquitiPrefixes in
  if 0 <? s then s
  else if existsb (fun hint => Contains_str (ToLower (SysDescr sys)) hint) ["ubiquiti"; "unifi"; "udm-pro"; "edgeos"; "airos"] then 5 else 0.
Definition ubiquiti : Connector := mkConnector "ubiquiti" ubiquitiPrefixes ubiquitiMatch baseCaps.

(** The imports of package registry, each of which registers its connector. *)
Definition allConnectors : list Connector := [cisco; fortinet; Base; huawei; juniper; paloalto; ruckus; ubiquiti; zte].

(** ** Health *)

Context {W : Type} `{Session W}.
Abbreviation M := (M W).

(** A column into a map. *)
Definition numCol (oid : string) : M (gmap string float64) :=
  WalkColumn oid (fun m idx v => mret match Num v with Some f => <[idx := f]> m | None => m end) ∅.

(** A column into gauges, one to a row that [keep]s. *)
Definition gaugeCol (oid name : string) (label : string -> gmap string string) (keep : float64 -> bool) (out : list Sample) : M (list Sample) :=
  WalkColumn oid (fun out idx v =>
    match Num v with Some f => if keep f then gauge out name (label idx) f else mret out | None => mret out end) out.
Definition whatever (f : float64) : bool := true.
Definition above0 (f : float64) : bool := flt (float_of 0) f.

(** The greatest number of a column, from 0 up. *)
Definition maxCol (oid : string) : M float64 :=
  WalkColumn oid (fun m _ v => mret match Num v with Some f => if flt m f then f else m | None => m end) (float_of 0).

(** *** Cisco *)

Definition oidCpmCPU5min : string := ".1.3.6.1.4.1.9.9.109.1.1.1.1.8".
Definition oidCpmCPUPhys : string := ".1.3.6.1.4.1.9.9.109.1.1.1.1.2".
Definition oidEntPhysName : string := ".1.3.6.1.2.1.47.1.1.1.1.7".
Definition oidMemPoolUsed : string := ".1.3.6.1.4.1.9.9.48.1.1.1.5".
Definition oidMemPoolFree : string := ".1.3.6.1.4.1.9.9.48.1.1.1.6".
Definition oidEnvTempVal : string := ".1.3.6.1.4.1.9.9.13.1.3.1.3".
Definition oidEnvFanState : string := ".1.3.6.1.4.1.9.9.13.1.4.1.3".
Definition oidEnvPSUState : string := ".1.3.6.1.4.1.9.9.13.1.5.1.3".

(** The processors by the entities they belong to. *)
Definition ciscoPhys : M (gmap string string) :=
  WalkColumn oidCpmCPUPhys (fun m idx v => mret match Num v with Some f => if above0 f then <[idx := Itoa (int_of f)]> m else m | None => m end) ∅.
Definition ciscoNames (physIdx : gmap string string) : M (gmap string string) :=
  if bool_decide (physIdx = ∅) then mret ∅ else
  WalkColumn oidEntPhysName (fun m idx v =>
    mret match Str v with Some name => if bool_decide (TrimSpace name = "") then m else <[idx := TrimSpace name]> m | None => m end) ∅.
Definition ciscoCPULabel (physIdx entName : gmap string string) (idx : string) : string :=
  let name := default "" (entName !! default "" (physIdx !! idx)) in if bool_decide (name = "") then idx else name.

Definition memoryGauges (used total : float64) (out : list Sample) : M (list Sample) :=
  if above0 total then
    out ← gauge out "netinv_device_memory_used_bytes" ∅ used;
    out ← gauge out "netinv_device_memory_total_bytes" ∅ total;
    gauge out "netinv_device_memory_percent" ∅ (fdiv (fmul (float_of 100) used) total)
  else mret out.

Definition poolStep (free : gmap string float64) (t : float64 * float64) (e : string * float64) : float64 * float64 :=
  (fadd t.1 e.2, fadd t.2 (fadd e.2 (default (float_of 0) (free !! e.1)))).

(** The two status columns are a map of the code: either may come first. *)
Definition statusCols : gmap string string :=
  {[oidEnvFanState := "netinv_sensor_fan_status"; oidEnvPSUState := "netinv_sensor_psu_status"]}.

Definition ciscoHealth : M (list Sample) :=
  physIdx ← ciscoPhys;
  entName ← ciscoNames physIdx;
  out ← gaugeCol oidCpmCPU5min "netinv_device_cpu_percent" (fun idx => {["cpu" := ciscoCPULabel physIdx entName idx]}) whatever [];
  used ← numCol oidMemPoolUsed;
  free ← numCol oidMemPoolFree;
  let '(totalUsed, totalBytes) := foldl (poolStep free) (float_of 0, float_of 0) (range used) in
  out ← memoryGauges totalUsed totalBytes out;
  out ← gaugeCol oidEnvTempVal "netinv_sensor_temperature_celsius" (fun idx => {["sensor" := idx]}) whatever out;
  eachM (fun out (e : string * string) => gaugeCol e.1 e.2 (fun idx => {["sensor" := idx]}) whatever out) out (range statusCols).

(** *** Fortinet *)

Definition oidFnSysSerial : string := ".1.3.6.1.4.1.12356.100.1.1.1.0".
Definition oidFgSysVersion : string := ".1.3.6.1.4.1.12356.101.4.1.1.0".
Definition oidFgSysCPUUsage : string := ".1.3.6.1.4.1.12356.101.4.1.3.0".
Definition oidFgSysMemUsage : string := ".1.3.6.1.4.1.12356.101.4.1.4.0".
Definition oidFgSysMemCapacity : string := ".1.3.6.1.4.1.12356.101.4.1.5.0".
Definition oidFgSysSesCount : string := ".1.3.6.1.4.1.12356.101.4.1.8.0".
Definition oidFgSysSesRate1 : string := ".1.3.6.1.4.1.12356.101.4.1.11.0".
Definition oidFgHwSensorName : string := ".1.3.6.1.4.1.12356.101.4.3.2.1.2".
Definition oidFgHwSensorValue : string := ".1.3.6.1.4.1.12356.101.4.3.2.1.3".

(** [toStr] of the vendors: text without the blanks around it. *)
Definition toStr (v : Value) : string := match Str v with Some s => TrimSpace s | None => "" end.

Definition looksLikeFan (name : string) : bool := Contains_str (ToLower name) "fan".
Definition looksLikeVoltage (name : string) : bool :=
  let n := ToLower name in Contains_str n "vcc" || Contains_str n "volt" || HasPrefix n "+" || Contains_str n "vin".
Definition plausibleC (f : float64) : bool := flt (float_of (-50)) f && flt f (float_of 200).

(** A gauge of a scalar that was answered. *)
Definition gaugeOf (vals : gmap string float64) (oid name : string) (out : list Sample) : M (list Sample) :=
  match vals !! norm oid with Some f => gauge out name ∅ f | None => mret out end.

Definition fortinetMemory (vals : gmap string float64) (out : list Sample) : M (list Sample) :=
  match vals !! norm oidFgSysMemCapacity with
  | Some capKB =>
      if above0 capKB then
        let total := fmul capKB (float_of 1024) in
        out ← gauge out "netinv_device_memory_total_bytes" ∅ total;
        match vals !! norm oidFgSysMemUsage with
        | Some memPct => gauge out "netinv_device_memory_used_bytes" ∅ (fdiv (fmul total memPct) (float_of 100))
        | None => mret out
        end
      else mret out
  | None => mret out
  end.

(** A reading: a fan, a voltage, of which nothing is made, or a temperature. *)
Definition fortinetSensor (names : gmap string string) (out : list Sample) (idx : string) (v : Value) : M (list Sample) :=
  match Num v with
  | None => mret out
  | Some f =>
      let name := default "" (names !! idx) in
      let name := if bool_decide (name = "") then idx else name in
      if looksLikeFan name then gauge out "netinv_sensor_fan_rpm" {["sensor" := name]} f
      else if looksLikeVoltage name then mret out
      else if plausibleC f then gauge out "netinv_sensor_temperature_celsius" {["sensor" := name]} f
      else mret out
  end.

Definition fortinetHealth : M (list Sample) :=
  '(scalars, _) ← sGet [oidFgSysCPUUsage; oidFgSysMemUsage; oidFgSysMemCapacity; oidFgSysSesCount; oidFgSysSesRate1];
  let vals := scalarNums scalars in
  out ← gaugeOf vals oidFgSysCPUUsage "netinv_device_cpu_percent" [];
  out ← gaugeOf vals oidFgSysMemUsage "netinv_device_memory_percent" out;
  out ← fortinetMemory vals out;
  out ← gaugeOf vals oidFgSysSesCount "netinv_firewall_session_count" out;
  out ← gaugeOf vals oidFgSysSesRate1 "netinv_firewall_session_setup_rate" out;
  names ← WalkColumn oidFgHwSensorName (fun names idx v => mret (if bool_decide (toStr v = "") then names else <[idx := toStr v]> names)) (∅ : gmap string string);
  WalkColumn oidFgHwSensorValue (fortinetSensor names) out.

(** A snapshot with what the vendor knows of itself. *)
Definition fortinetIdent (snap : InventorySnapshot) (v : Var) : InventorySnapshot :=
  let val := toStr (Value_ v) in
  if bool_decide (val = "") then snap
  else if bool_decide (norm (OID v) = norm oidFnSysSerial) then snap <| sn_Serial := val |>
  else if bool_decide (norm (OID v) = norm oidFgSysVersion) then snap <| sn_OSVersion := val |>
  else snap.
Definition fortinetInventory : M (InventorySnapshot + Err) :=
  r ← CollectInventory showFloat;
  match r with
  | inr e => mret (inr e)
  | inl snap =>
      '(ident, _) ← sGet [oidFnSysSerial; oidFgSysVersion];
      mret (inl (foldl fortinetIdent (snap <| sn_Vendor := "Fortinet" |>) ident))
  end.

(** *** Palo Alto *)

Definition oidPanSwVersion : string := ".1.3.6.1.4.1.25461.2.1.2.1.1.0".
Definition oidPanHwVersion : string := ".1.3.6.1.4.1.25461.2.1.2.1.2.0".
Definition oidPanSerial : string := ".1.3.6.1.4.1.25461.2.1.2.1.3.0".
Definition oidPanSessionMax : string := ".1.3.6.1.4.1.25461.2.1.2.3.2.0".
Definition oidPanSessionActive : string := ".1.3.6.1.4.1.25461.2.1.2.3.3.0".
Definition oidHrProcessorLoad : string := ".1.3.6.1.2.1.25.3.3.1.2".
Definition oidHrStorageType : string := ".1.3.6.1.2.1.25.2.3.1.2".
Definition oidHrStorageDescr : string := ".1.3.6.1.2.1.25.2.3.1.3".
Definition oidHrStorageUnits : string := ".1.3.6.1.2.1.25.2.3.1.4".
Definition oidHrStorageSize : string := ".1.3.6.1.2.1.25.2.3.1.5".
Definition oidHrStorageUsed : string := ".1.3.6.1.2.1.25.2.3.1.6".

Definition textCol (oid : string) : M (gmap string string) :=
  WalkColumn oid (fun m idx v => mret (<[idx := toStr v]> m)) ∅.

(** [strings.HasSuffix]. *)
Fixpoint HasSuffix_str (s p : string) : bool := bool_decide (s = p) || match s with "" => false | String _ s => HasSuffix_str s p end.

(** A row of the storage table that is the memory. *)
Definition isRAM (types descr : gmap string string) (idx : string) : bool :=
  HasSuffix_str (norm (default "" (types !! idx))) "25.2.1.2" || EqualFold (default "" (descr !! idx)) "Physical memory".

(** The first such row a range over the sizes comes to. *)
Fixpoint ramRow (types descr : gmap string string) (rows : list (string * float64)) : option (string * float64) :=
  match rows with
  | [] => None
  | (idx, total) :: rows => if negb (isRAM types descr idx) || fle total (float_of 0) then ramRow types descr rows else Some (idx, total)
  end.

Definition memoryFromHostResources (out : list Sample) : M (list Sample) :=
  types ← textCol oidHrStorageType; descr ← textCol oidHrStorageDescr;
  units ← numCol oidHrStorageUnits; size ← numCol oidHrStorageSize; used ← numCol oidHrStorageUsed;
  match ramRow types descr (range size) with
  | None => mret out
  | Some (idx, total) =>
      let unit := default (float_of 0) (units !! idx) in
      let unit := if fle unit (float_of 0) then float_of 1 else unit in
      let totalBytes := fmul total unit in let usedBytes := fmul (default (float_of 0) (used !! idx)) unit in
      out ← gauge out "netinv_device_memory_total_bytes" ∅ totalBytes;
      out ← gauge out "netinv_device_memory_used_bytes" ∅ usedBytes;
      gauge out "netinv_device_memory_percent" ∅ (fdiv (fmul (float_of 100) usedBytes) totalBytes)
  end.

Definition paloaltoHealth : M (list Sample) :=
  '(sess, _) ← sGet [oidPanSessionActive; oidPanSessionMax];
  let vals := scalarNums sess in
  out ← gaugeOf vals oidPanSessionActive "netinv_firewall_session_count" [];
  out ← match vals !! norm oidPanSessionMax with
        | Some m => if above0 m then gauge out "netinv_firewall_session_max" ∅ m else mret out | None => mret out end;
  out ← gaugeCol oidHrProcessorLoad "netinv_device_cpu_percent" (fun idx => {["cpu" := idx]}) whatever out;
  memoryFromHostResources out.

Definition paloaltoIdent (snap : InventorySnapshot) (v : Var) : InventorySnapshot :=
  let val := toStr (Value_ v) in
  if bool_decide (val = "") then snap
  else if bool_decide (norm (OID v) = norm oidPanSerial) then snap <| sn_Serial := val |>
  else if bool_decide (norm (OID v) = norm oidPanSwVersion) then snap <| sn_OSVersion := val |>
  else if bool_decide (norm (OID v) = norm oidPanHwVersion) then
    if bool_decide (sn_Model snap = "") then snap <| sn_Model := val |> else snap
  else snap.
Definition paloaltoInventory : M (InventorySnapshot + Err) :=
  r ← CollectInventory showFloat;
  match r with
  | inr e => mret (inr e)
  | inl snap =>
      '(ident, _) ← sGet [oidPanSerial; oidPanSwVersion; oidPanHwVersion];
      mret (inl (foldl paloaltoIdent (snap <| sn_Vendor := "Palo Alto Networks" |>) ident))
  end.

(** *** Juniper and Huawei *)

Definition oidJnxOperatingDescr : string := ".1.3.6.1.4.1.2636.3.1.13.1.5".
Definition oidJnxOperatingTemp : string := ".1.3.6.1.4.1.2636.3.1.13.1.7".
Definition oidJnxOperatingCPU : string := ".1.3.6.1.4.1.2636.3.1.13.1.8".
Definition oidJnxOperatingBuffer : string := ".1.3.6.1.4.1.2636.3.1.13.1.11".

Definition juniperLabel (names : gmap string string) (key idx : string) : gmap string string :=
  let n := default "" (names !! idx) in if bool_decide (n = "") then {[key := idx]} else {[key := n]}.
Definition maxMemory (oid : string) (out : list Sample) : M (list Sample) :=
  maxMem ← maxCol oid;
  if above0 maxMem then gauge out "netinv_device_memory_percent" ∅ maxMem else mret out.
Definition juniperHealth : M (list Sample) :=
  names ← WalkColumn oidJnxOperatingDescr (fun names idx v =>
    mret match Str v with Some s => if slen s <? 64 then <[idx := s]> names else names | None => names end) (∅ : gmap string string);
  out ← gaugeCol oidJnxOperatingCPU "netinv_device_cpu_percent" (juniperLabel names "cpu") above0 [];
  out ← gaugeCol oidJnxOperatingTemp "netinv_sensor_temperature_celsius" (juniperLabel names "sensor") above0 out;
  maxMemory oidJnxOperatingBuffer out.

Definition oidHwEntityCPU : string := ".1.3.6.1.4.1.2011.5.25.31.1.1.1.1.5".
Definition oidHwEntityMem : string := ".1.3.6.1.4.1.2011.5.25.31.1.1.1.1.7".
Definition oidHwEntityTemp : string := ".1.3.6.1.4.1.2011.5.25.31.1.1.1.1.11".
Definition huaweiHealth : M (list Sample) :=
  out ← gaugeCol oidHwEntityCPU "netinv_device_cpu_percent" (fun idx => {["cpu" := idx]}) above0 [];
  out ← maxMemory oidHwEntityMem out;
  gaugeCol oidHwEntityTemp "netinv_sensor_temperature_celsius" (fun idx => {["sensor" := idx]})
    (fun f => above0 f && flt f (float_of 200)) out.

(** *** Ruckus *)

Definition oidSystemName : string := ".1.3.6.1.4.1.25053.1.15.1.1.1.1.1.0".
Definition oidSystemModel : string := ".1.3.6.1.4.1.25053.1.15.1.1.1.1.9.0".
Definition oidSystemSerial : string := ".1.3.6.1.4.1.25053.1.15.1.1.1.1.15.0".
Definition oidSystemVersion : string := ".1.3.6.1.4.1.25053.1.15.1.1.1.1.18.0".
Definition oidStatsNumAP : string := ".1.3.6.1.4.1.25053.1.15.1.1.1.15.1.0".
Definition oidStatsNumClient : string := ".1.3.6.1.4.1.25053.1.15.1.1.1.15.2.0".
Definition apTable : string := ".1.3.6.1.4.1.25053.1.15.2.1.1.2.1.1".

(** [toStr] of this connector keeps the blanks. *)
Definition ruckusStr (v : Value) : string := default "" (Str v).

Definition ruckusScalar (out : list Sample) (v : Var) : M (list Sample) :=
  match Num (Value_ v) with
  | None => mret out
  | Some f =>
      if bool_decide (norm (OID v) = norm oidStatsNumAP) then gauge out "netinv_wireless_ap_count" ∅ f
      else if bool_decide (norm (OID v) = norm oidStatsNumClient) then gauge out "netinv_wireless_client_count" ∅ f
      else mret out
  end.
(** The access points that answered, those that are up among them: the column
    of the status. The column of the models is walked, and left unused. *)
Definition apCount (c : float64 * float64) (idx : string) (v : Value) : M (float64 * float64) :=
  mret match Num v with
       | None => c
       | Some f => (if feq f (float_of 1) then fadd c.1 (float_of 1) else c.1, fadd c.2 (float_of 1))
       end.
Definition ruckusHealth : M (list Sample) :=
  '(scalars, _) ← sGet [oidStatsNumAP; oidStatsNumClient];
  out ← eachM ruckusScalar [] scalars;
  _ ← WalkColumn (apTable +:+ ".4") (fun models idx v => mret (<[idx := ruckusStr v]> models)) (∅ : gmap string string);
  '(up, total) ← WalkColumn (apTable +:+ ".3") apCount (float_of 0, float_of 0);
  if above0 total then
    out ← gauge out "netinv_wireless_ap_up_count" ∅ up;
    gauge out "netinv_wireless_ap_total" ∅ total
  else mret out.

Definition ruckusIdent (snap : InventorySnapshot) (v : Var) : InventorySnapshot :=
  let val := ruckusStr (Value_ v) in
  if bool_decide (val = "") then snap
  else if bool_decide (norm (OID v) = norm oidSystemModel) then snap <| sn_Model := val |>
  else if bool_decide (norm (OID v) = norm oidSystemSerial) then snap <| sn_Serial := val |>
  else if bool_decide (norm (OID v) = norm oidSystemVersion) then snap <| sn_OSVersion := val |>
  else if bool_decide (norm (OID v) = norm oidSystemName) then
    if bool_decide (sn_SysName snap = "") then snap <| sn_SysName := val |> else snap
  else snap.
Definition ruckusInventory : M (InventorySnapshot + Err) :=
  r ← CollectInventory showFloat;
  match r with
  | inr e => mret (inr e)
  | inl snap =>
      '(ident, _) ← sGet [oidSystemModel; oidSystemSerial; oidSystemVersion; oidSystemName];
      mret (inl (foldl ruckusIdent (snap <| sn_Vendor := "Ruckus" |>) ident))
  end.

(** ** Dispatch: the health of a connector that does not define one is that of
    the generic connector it embeds. *)
Context (ParseFloat : string -> option float64).

Definition healthOf (id : string) : M (list Sample) :=
  if bool_decide (id = "cisco-ios") then ciscoHealth
  else if bool_decide (id = "fortinet-fortios") then fortinetHealth
  else if bool_decide (id = "paloalto-panos") then paloaltoHealth
  else if bool_decide (id = "juniper-junos") then juniperHealth
  else if bool_decide (id = "huawei-vrp") then huaweiHealth
  else if bool_decide (id = "ruckus") then ruckusHealth
  else CollectHealth showFloat ParseFloat.
Definition inventoryOf (id : string) : M (InventorySnapshot + Err) :=
  if bool_decide (id = "fortinet-fortios") then fortinetInventory
  else if bool_decide (id = "paloalto-panos") then paloaltoInventory
  else if bool_decide (id = "ruckus") then ruckusInventory
  else CollectInventory showFloat.
End vendors.

(** * Properties *)

(** ** The registry *)

Lemma RegisterAll_spec cs : forall r, NoDup (map c_ID cs) -> Forall (fun c => r !! c_ID c = None) cs ->
  exists r', RegisterAll r cs = Ret r' /\ forall id c, r' !! id = Some c <-> r !! id = Some c \/ c ∈ cs /\ c_ID c = id.
Proof.
  induction cs as [|c cs IH]; intros r Hn Hf; cbn [RegisterAll].
  { exists r. split; [done|]. intros id c. set_solver. }
  apply Forall_cons in Hf as [Hc Hf]. apply NoDup_cons in Hn as [Hni Hn]. unfold Register. rewrite Hc, bool_decide_false by by intros [].
  destruct (IH (<[c_ID c := c]> r) Hn) as (r' & E & Hr').
  { rewrite Forall_forall in *. intros c' Hc'. rewrite lookup_insert_ne; [by apply Hf|]. intros Ei. apply Hni. rewrite Ei. by apply list_elem_of_fmap_2. }
  exists r'. split; [exact E|]. intros id c'. rewrite Hr'. destruct (decide (c_ID c = id)) as [<-|Hne].
  - rewrite lookup_insert_eq, Hc. split; [intros [[= <-]|[? ?]]; [right; set_solver|right; set_solver]|].
    intros [?|[[->|Hin]%elem_of_cons Ei]]; [done|by left|by right].
  - rewrite lookup_insert_ne by done. split; [intros [?|[? ?]]; [by left|right; set_solver]|].
    intros [?|[[->|Hin]%elem_of_cons Ei]]; [by left|done|by right].
Qed.

Section match_.
Context `{MapRange} (ToLower : string -> string).
Abbreviation allConnectors := (allConnectors ToLower).

(** The prefixes of all connectors, with the connector's id. *)
Definition prefixTable : list (string * string) := concat (map (fun c => map (fun p => (c_ID c, p)) (SysObjectIDPrefixes c)) (Vendors.allConnectors (fun s => s))).

Lemma prefixTable_elem c p : c ∈ allConnectors -> p ∈ SysObjectIDPrefixes c -> (c_ID c, p) ∈ prefixTable.
Proof.
  intros Hc Hp. unfold prefixTable. apply list_elem_of_In, in_concat.
  exists (map (fun p => (c_ID c, p)) (SysObjectIDPrefixes c)). split; [|by apply list_elem_of_In, list_elem_of_fmap_2].
  apply list_elem_of_In. revert Hc. clear. unfold Vendors.allConnectors. intros Hc.
  repeat (apply elem_of_cons in Hc as [->|Hc]; [cbn; set_solver|]). by apply elem_of_nil in Hc.
Qed.

(** No prefix is a prefix of another; each is longer than the score of a hint. *)
Lemma prefixTable_apart : Forall (fun e => 5 < slen e.2 /\ Forall (fun e' => HasPrefix e.2 e'.2 = true -> e = e') prefixTable) prefixTable.
Proof. vm_compute. repeat first [constructor | intros ?; congruence]. Qed.

Lemma Match_cases c sys : c ∈ allConnectors ->
  (Match c sys <= 5 /\ forall p, p ∈ SysObjectIDPrefixes c -> HasPrefix (SysObjectID sys) p = false) \/
  exists p, p ∈ SysObjectIDPrefixes c /\ HasPrefix (SysObjectID sys) p = true /\ Match c sys = slen p.
Proof.
  intros Hc. assert (Forall (fun p => p <> "") (SysObjectIDPrefixes c)) as Hne.
  { unfold Vendors.allConnectors in Hc. repeat (apply elem_of_cons in Hc as [->|Hc]; [by repeat constructor|]). by apply elem_of_nil in Hc. }
  pose proof (PrefixScore_spec sys _ Hne) as Hs.
  assert (Match c sys = PrefixScore sys (SysObjectIDPrefixes c) \/ PrefixScore sys (SysObjectIDPrefixes c) <= 0 /\ 0 <= Match c sys <= 5) as Hm.
  { clear Hs Hne. unfold Vendors.allConnectors in Hc.
    repeat (apply elem_of_cons in Hc as [->|Hc]; [first [by left | right; cbn; lia | cbn; unfold ruckusMatch, ubiquitiMatch;
      match goal with |- context [0 <? ?x] => destruct (Z.ltb_spec 0 x) end; [by left|right; split; [done|]; by case_match]]|]).
    by apply elem_of_nil in Hc. }
  destruct Hs as [[Hs Hno]|(p & Hp & Hpre & Hs & Hpos & _)]; [left|right].
  - split; [lia|done].
  - exists p. split_and!; [done..|lia].
Qed.

(** The choice of a connector: the connectors register without a clash,
    and a device whose sysObjectID begins with a prefix of one of them gets
    that connector, whatever its description says and in whatever order the
    registry is gone through. *)
Theorem vendor_chosen : exists registry, RegisterAll ∅ allConnectors = Ret registry /\
  forall sys c p, c ∈ allConnectors -> p ∈ SysObjectIDPrefixes c -> HasPrefix (SysObjectID sys) p = true ->
    BestMatch registry sys = (Some c, slen p).
Proof.
  destruct (RegisterAll_spec allConnectors ∅) as (r & E & Hr).
  { decide_by_compute. }
  { apply Forall_forall. intros. apply lookup_empty. }
  exists r. split; [exact E|]. intros sys c p Hc Hp Hpre.
  assert (forall id c', r !! id = Some c' -> c' ∈ allConnectors /\ c_ID c' = id) as Hin.
  { intros id c' [Hl|Hl]%Hr; [by rewrite lookup_empty in Hl|done]. }
  pose proof prefixTable_apart as Ht. rewrite Forall_forall in Ht.
  assert (forall c' q, c' ∈ allConnectors -> q ∈ SysObjectIDPrefixes c' -> HasPrefix (SysObjectID sys) q = true -> (c_ID c', q) = (c_ID c, p)) as Huniq.
  { intros c' q Hc' Hq Hpq. destruct (Ht _ (prefixTable_elem _ _ Hc' Hq)) as [_ H1], (Ht _ (prefixTable_elem _ _ Hc Hp)) as [_ H2].
    rewrite Forall_forall in H1, H2. pose proof (prefixes_nested _ _ _ Hpq Hpre) as Hn. apply orb_true_iff in Hn as [Hn|Hn].
    - by apply (H1 (c_ID c, p)); [apply prefixTable_elem|].
    - symmetry. by apply (H2 (c_ID c', q)); [apply prefixTable_elem|]. }
  assert (Match c sys = slen p /\ 5 < slen p) as [Hm H5].
  { destruct (Ht _ (prefixTable_elem _ _ Hc Hp)) as [H5 _]. cbn in H5. split; [|done].
    destruct (Match_cases c sys Hc) as [[_ Hno]|(q & Hq & Hpq & ->)]; [by rewrite (Hno p Hp) in Hpre|]. by injection (Huniq c q Hc Hq Hpq) as ->. }
  pose proof (BestMatch_of r sys) as Hb.
  assert (r !! c_ID c = Some c) as Hl by (apply Hr; by right).
  destruct (BestMatch r sys) as [[c'|] score]; cbn in Hb.
  - destruct Hb as ([id Hl'] & -> & _ & Hmax). specialize (Hmax _ _ Hl). cbn in Hmax. apply Hin in Hl' as [Hc' <-].
    destruct (Match_cases c' sys Hc') as [[Hle _]|(q & Hq & Hpq & Hs)]; [lia|]. injection (Huniq c' q Hc' Hq Hpq) as Ei ->.
    assert (r !! c_ID c' = Some c') as Hl' by (apply Hr; by right). rewrite Ei in Hl'. rewrite Hl' in Hl. injection Hl as ->. by rewrite Hm.
  - destruct Hb as [_ Hmax]. specialize (Hmax _ _ Hl). cbn in Hmax. lia.
Qed.
End match_.

(** ** Health *)

Definition keysOf (s : Sample) : list string := (map_to_list (s_Labels s)).*1.

(** A specification, read off the connectors: the series each reports, with
    the labels it gives them. It is per connector: the same metric may have a
    label with one and none with another. *)
Definition catalogue (id : string) : list (string * list string) :=
  if bool_decide (id = "cisco-ios") then
    [("netinv_device_cpu_percent", ["cpu"]); ("netinv_device_memory_used_bytes", []); ("netinv_device_memory_total_bytes", []);
     ("netinv_device_memory_percent", []); ("netinv_sensor_temperature_celsius", ["sensor"]);
     ("netinv_sensor_fan_status", ["sensor"]); ("netinv_sensor_psu_status", ["sensor"])]
  else if bool_decide (id = "fortinet-fortios") then
    [("netinv_device_cpu_percent", []); ("netinv_device_memory_percent", []); ("netinv_device_memory_total_bytes", []);
     ("netinv_device_memory_used_bytes", []); ("netinv_firewall_session_count", []); ("netinv_firewall_session_setup_rate", []);
     ("netinv_sensor_fan_rpm", ["sensor"]); ("netinv_sensor_temperature_celsius", ["sensor"])]
  else if bool_decide (id = "paloalto-panos") then
    [("netinv_firewall_session_count", []); ("netinv_firewall_session_max", []); ("netinv_device_cpu_percent", ["cpu"]);
     ("netinv_device_memory_total_bytes", []); ("netinv_device_memory_used_bytes", []); ("netinv_device_memory_percent", [])]
  else if bool_decide (id = "juniper-junos") || bool_decide (id = "huawei-vrp") then
    [("netinv_device_cpu_percent", ["cpu"]); ("netinv_sensor_temperature_celsius", ["sensor"]); ("netinv_device_memory_percent", [])]
  else if bool_decide (id = "ruckus") then
    [("netinv_wireless_ap_count", []); ("netinv_wireless_client_count", []); ("netinv_wireless_ap_up_count", []); ("netinv_wireless_ap_total", [])]
  else
    [("netinv_device_cpu_percent", []); ("netinv_device_memory_total_bytes", []); ("netinv_device_memory_used_bytes", []);
     ("netinv_device_memory_percent", []); ("netinv_device_load_average", ["period"]); ("netinv_sensor_temperature_celsius", ["sensor"])].

Definition catalogued (cat : list (string * list string)) (s : Sample) : Prop := (s_Name s, keysOf s) ∈ cat.

Ltac in_catalogue := intros ?; unfold catalogued, keysOf; cbn [s_Name s_Labels]; rewrite ?map_to_list_empty, ?map_to_list_singleton; cbn [fmap list_fmap fst]; set_solver.

Section health.
Context `{MapRange} (ToLower : string -> string) (EqualFold : string -> string -> bool) (showFloat : float64 -> string)
  (ParseFloat : string -> option float64) {W : Type} `{Session W}.
Implicit Types (out : list Sample).

Lemma gaugeCol_always cat oid name label keep out :
  Forall (catalogued cat) out -> (forall idx v t, catalogued cat (mkSample name (label idx) v t)) ->
  always (gaugeCol oid name label keep out : M W _) (Forall (catalogued cat)).
Proof.
  intros Hout Hc. apply WalkColumn_always; [done|]. intros st idx v Hst. destruct (Num v); [|by apply always_ret].
  destruct (keep _); [|by apply always_ret]. apply gauge_always; [done|]. intros t. apply Hc.
Qed.
Lemma gaugeOf_always cat vals oid name out :
  Forall (catalogued cat) out -> (name, []) ∈ cat -> always (gaugeOf vals oid name out : M W _) (Forall (catalogued cat)).
Proof.
  intros Hout Hc. unfold gaugeOf. destruct (vals !! _); [|by apply always_ret]. apply gauge_always; [done|]. intros t.
  unfold catalogued, keysOf. cbn. by rewrite map_to_list_empty.
Qed.

(** Splits a collection into its calls. *)
Ltac solve_catalogued :=
  repeat lazymatch goal with
  | |- always (mret _) (Forall _) => apply always_ret; first [done | constructor]
  | |- always (gauge _ _ _ _) _ => apply gauge_always; [first [done | constructor] | in_catalogue]
  | |- always (gaugeOf _ _ _ _) _ => apply gaugeOf_always; [first [done | constructor] | set_solver]
  | |- always (gaugeCol _ _ _ _ _) _ => apply gaugeCol_always;
      [first [done | constructor] | intros ? ?; unfold juniperLabel; try case_bool_decide; in_catalogue]
  | |- always (memoryGauges _ _ _) _ => unfold memoryGauges
  | |- always (maxMemory _ _) _ => unfold maxMemory
  | |- always (WalkColumn _ _ _) (Forall _) => apply WalkColumn_always; [first [done | constructor] | intros ? ? ? ?]
  | |- always (eachM _ _ _) (Forall _) => apply eachM_always; [intros ? ? ? ? | first [done | constructor]]
  | |- always (@mbind _ _ (list Sample) _ _ _) (Forall (catalogued ?cat)) => apply (always_bind _ _ (Forall (catalogued cat))); [|intros ? ?]
  | |- always (_ ≫= _) _ => eapply always_bind; [apply always_any | intros ? _]
  | |- always (match ?x with _ => _ end) _ => destruct x
  end.

Definition catalog_ok (id : string) : Prop :=
  always (healthOf ToLower EqualFold showFloat ParseFloat id : M W _) (Forall (catalogued (catalogue id))).

Ltac start_catalog health :=
  lazymatch goal with |- catalog_ok ?id =>
    unfold catalog_ok;
    let c := eval vm_compute in (catalogue id) in change (catalogue id) with c;
    assert (healthOf ToLower EqualFold showFloat ParseFloat id = health) as -> by done
  end.
Lemma fortinet_ok : catalog_ok "fortinet-fortios".
Proof. start_catalog (fortinetHealth (W := W) ToLower). unfold fortinetHealth, fortinetMemory, fortinetSensor. solve_catalogued. Qed.
Lemma paloalto_ok : catalog_ok "paloalto-panos".
Proof. start_catalog (paloaltoHealth (W := W) EqualFold). unfold paloaltoHealth, memoryFromHostResources. solve_catalogued. Qed.
Lemma juniper_ok : catalog_ok "juniper-junos".
Proof. start_catalog (juniperHealth (W := W)). unfold juniperHealth. solve_catalogued. Qed.
Lemma huawei_ok : catalog_ok "huawei-vrp".
Proof. start_catalog (huaweiHealth (W := W)). unfold huaweiHealth. solve_catalogued. Qed.
Lemma ruckus_ok : catalog_ok "ruckus".
Proof. start_catalog (ruckusHealth (W := W)). unfold ruckusHealth, ruckusScalar. solve_catalogued. Qed.
Lemma cisco_ok : catalog_ok "cisco-ios".
Proof.
  start_catalog (ciscoHealth (W := W)). unfold ciscoHealth. solve_catalogued.
  match goal with Hr : _ ∈ range statusCols |- _ => rename Hr into Hx end. destruct x as [oid name].
  apply elem_of_range in Hx. assert (name ∈ ["netinv_sensor_fan_status"; "netinv_sensor_psu_status"]) as Hn.
  { unfold statusCols in Hx. destruct (decide (oid = oidEnvFanState)) as [->|]; [rewrite lookup_insert_eq in Hx; injection Hx as <-; set_solver|].
    rewrite lookup_insert_ne in Hx by done. apply lookup_singleton_Some in Hx as [_ <-]. set_solver. }
  cbn [fst snd]. apply gaugeCol_always; [done|]. intros ? ?; in_catalogue.
Qed.
Lemma generic_ok id : id ∈ ["generic"; "ubiquiti"; "zte-zxr"] -> catalog_ok id.
Proof.
  intros Hid. repeat (apply elem_of_cons in Hid as [->|Hid];
    [start_catalog (CollectHealth (W := W) showFloat ParseFloat); unfold CollectHealth, memGauges; solve_catalogued|]).
  by apply elem_of_nil in Hid.
Qed.

(** What the connectors report of a device's health: whatever the device
    answers, every sample of a collection is one of the series of that
    connector's list, with just the label the list gives it, and a name is in
    the list of a connector once. *)
Theorem health_catalogued id : id ∈ map c_ID (allConnectors ToLower) -> catalog_ok id /\ NoDup (catalogue id).*1.
Proof.
  intros Hid. cbn in Hid. repeat (apply elem_of_cons in Hid as [->|Hid];
    [split; [first [apply cisco_ok | apply fortinet_ok | apply paloalto_ok | apply juniper_ok | apply huawei_ok | apply ruckus_ok
       | apply generic_ok; set_solver] | decide_by_compute]|]).
  by apply elem_of_nil in Hid.
Qed.
End health.

(** ** At work *)

Definition asIs (s : string) : string := s.
Lemma vendor_chosen_witness :
  exists registry, RegisterAll ∅ (allConnectors asIs) = Ret registry /\
    @BestMatch anyRange registry (mkSysInfo ".1.3.6.1.4.1.12356.101.1.1" "a ruckus of a unifi") = (Some fortinet, 19).
Proof.
  destruct (@vendor_chosen anyRange asIs) as (registry & E & Hr). exists registry. split; [exact E|].
  apply (Hr (mkSysInfo ".1.3.6.1.4.1.12356.101.1.1" "a ruckus of a unifi") fortinet ".1.3.6.1.4.1.12356."); [set_solver|set_solver|done].
Defined.
Lemma health_catalogued_witness :
  "cisco-ios" ∈ map c_ID (allConnectors asIs) /\
  @catalog_ok anyRange asIs (fun _ _ => false) noFloat (fun _ => None) unit whole "cisco-ios".
Proof.
  assert ("cisco-ios" ∈ map c_ID (allConnectors asIs)) as Hin by (cbn; set_solver).
  split; [exact Hin|]. exact (proj1 (@health_catalogued anyRange asIs (fun _ _ => false) noFloat (fun _ => None) unit whole "cisco-ios" Hin)).
Defined.

(** A range that goes the other way. *)
Definition backwards : MapRange.
Proof. refine {| range := fun K V _ _ m => reverse (map_to_list m) |}. intros. apply reverse_Permutation. Defined.

(** A description with the hints of two vendors, of a device whose
    sysObjectID is nobody's: the choice is that of the order of the range. *)
Lemma hint_tie :
  let sys := mkSysInfo ".1.3.6.1.4.1.8072.3.2.10" "unifi behind ruckus" in
  match RegisterAll ∅ (allConnectors asIs) with
  | Ret r => option_map c_ID (fst (@BestMatch anyRange r sys)) <> option_map c_ID (fst (@BestMatch backwards r sys))
  | _ => False
  end.
Proof. by vm_compute. Qed.
