(* ===== verification/Circuits.v ===== *)
(** Package inventory/adapters/postgres (interfacematch.go, interfacetags.go):
    which customer an interface is for, assigned by a rule over descriptions
    or by a list.

    The tables are those of the inventory; a statement is a function of them,
    and a transaction that fails leaves them as they were. [lower], [ILIKE]
    and the collation of the database, [strings.EqualFold], [strings.ToLower]
    and [%q] are parameters. *)
From Stdlib Require Import ZArith Lia.
From stdpp Require Import base list gmap strings pretty numbers sorting.
From S2P Require Import Prelude GoText NetipParse World Errx.

(** ** The tables *)

Record InvDevice : Type := mkInvDevice {
  iv_ID : string; iv_Name : string; iv_IP : string; iv_Status : string; iv_SysName : string; iv_Serial : string;
  iv_SiteID : string; iv_Tags : list string; iv_Alt : list string; iv_Notes : string; iv_Created : Time
}.
#[export] Instance eta_InvDevice : Eta InvDevice := fun d =>
  mkInvDevice (iv_ID d) (iv_Name d) (iv_IP d) (iv_Status d) (iv_SysName d) (iv_Serial d) (iv_SiteID d) (iv_Tags d) (iv_Alt d) (iv_Notes d) (iv_Created d).
(** [if_Customer] is null or a text. *)
Record Iface : Type := mkIface {
  if_ID : string; if_Device : string; if_Index : Z; if_Name : string; if_Alias : string; if_Descr : string;
  if_Customer : option string; if_Tags : list string; if_State : string
}.
#[export] Instance eta_Iface : Eta Iface := fun i =>
  mkIface (if_ID i) (if_Device i) (if_Index i) (if_Name i) (if_Alias i) (if_Descr i) (if_Customer i) (if_Tags i) (if_State i).
#[export] Instance Iface_eq_dec : EqDecision Iface.
Proof. solve_decision. Defined.
#[export] Instance InvDevice_eq_dec : EqDecision InvDevice.
Proof. solve_decision. Defined.
Record Inv : Type := mkInv { in_devices : list InvDevice; in_ifaces : list Iface; in_schedules : list (string * bool) }.
#[export] Instance eta_Inv : Eta Inv := fun t => mkInv (in_devices t) (in_ifaces t) (in_schedules t).

(** Interfaces with their devices. *)
Definition joined (t : Inv) : list (Iface * InvDevice) :=
  concat (map (fun i => map (fun d => (i, d)) (filter (fun d => iv_ID d = if_Device i) (in_devices t))) (in_ifaces t)).
Definition live (r : Iface * InvDevice) : Prop := if_State r.1 <> "removed" /\ iv_Status r.2 <> "retired".
#[export] Instance live_dec r : Decision (live r).
Proof. unfold live. apply _. Defined.

Definition ClearToken : string := "-".
Definition nullIfClear (v : string) : option string := if bool_decide (v = ClearToken) then None else Some v.

(** An update of the interfaces [ids]: the customer when there is one to
    write, the tags when they are to be. *)
Definition assign (customer : string) (tags : option (list string)) (i : Iface) : Iface :=
  let i := if bool_decide (customer = "") then i else i <| if_Customer := nullIfClear customer |> in
  match tags with Some ts => i <| if_Tags := ts |> | None => i end.
Definition updateIfaces (ids : list string) (f : Iface -> Iface) (t : Inv) : Inv :=
  t <| in_ifaces := map (fun i => if decide (if_ID i ∈ ids) then f i else i) (in_ifaces t) |>.
Definition affected (ids : list string) (t : Inv) : Z := len (filter (fun i => if_ID i ∈ ids) (in_ifaces t)).

(** ** A rule *)

Record MatchCondition : Type := mkMatchCondition { mc_Field : string; mc_Op : string; mc_Value : string }.
Record MatchRule : Type := mkMatchRule {
  ru_Conditions : list MatchCondition; ru_Field : string; ru_Op : string; ru_Value : string;
  ru_Customer : string; ru_Tags : list string; ru_SetTags : bool; ru_Overwrite : bool; ru_Apply : bool
}.
#[export] Instance eta_MatchRule : Eta MatchRule := fun r =>
  mkMatchRule (ru_Conditions r) (ru_Field r) (ru_Op r) (ru_Value r) (ru_Customer r) (ru_Tags r) (ru_SetTags r) (ru_Overwrite r) (ru_Apply r).
Record MatchPreviewRow : Type := mkMatchPreviewRow {
  pr_Device : string; pr_IfIndex : Z; pr_Name : string; pr_Alias : string; pr_Descr : string; pr_Customer : string
}.
Record MatchResult : Type := mkMatchResult {
  mr_Matched : Z; mr_Updated : Z; mr_DryRun : bool; mr_Skipped : list string; mr_Sample : list MatchPreviewRow
}.
#[export] Instance eta_MatchResult : Eta MatchResult := fun r =>
  mkMatchResult (mr_Matched r) (mr_Updated r) (mr_DryRun r) (mr_Skipped r) (mr_Sample r).

Definition matchSampleCap : Z := 25.
Definition maxConditions : Z := 8.

Inductive column : Type := ColAlias | ColDescr | ColName.
Definition column_text (c : column) : string :=
  match c with ColAlias => "coalesce(i.alias,'')" | ColDescr => "coalesce(i.descr,'')" | ColName => "coalesce(i.name,'')" end.
Definition column_of (c : column) (i : Iface) : string :=
  match c with ColAlias => if_Alias i | ColDescr => if_Descr i | ColName => if_Name i end.
Definition matchableCols (field : string) : option column :=
  if bool_decide (field = "alias") then Some ColAlias else if bool_decide (field = "descr") then Some ColDescr
  else if bool_decide (field = "name") then Some ColName else None.

Definition backslash : byte := zb 92.
Definition underscore : byte := zb 95.
Definition percentSign : byte := zb 37.
Definition escapeByte (c : byte) : bytes :=
  if decide (c = backslash) then [backslash; backslash] else if decide (c = underscore) then [backslash; underscore] else [c].
Definition escapeLike (b : bytes) : bytes := concat (map escapeByte b).
Definition likePattern (s : string) : string :=
  let esc := escapeLike (to_bytes s) in
  if bool_decide (percentSign ∈ esc) then of_bytes esc else of_bytes ([percentSign] ++ esc ++ [percentSign]).
Definition onlyWildcards (s : string) : bool := forallb (fun c => bool_decide (bz c ∈ [37; 95; 32; 9])) (to_bytes s).

(** A predicate of the query: columns, operator, and the number and value of
    its argument. *)
Record Clause : Type := mkClause { cl_cols : list column; cl_like : bool; cl_n : Z; cl_arg : string }.
Definition Clause_text (c : Clause) : string :=
  let ph := "$" +:+ Itoa (cl_n c) in
  let pred := fun col => if cl_like c then column_text col +:+ " ILIKE " +:+ ph +:+ " ESCAPE '" +:+ of_bytes [backslash] +:+ "'"
    else "lower(" +:+ column_text col +:+ ") = lower(" +:+ ph +:+ ")" in
  "(" +:+ Join (map pred (cl_cols c)) " OR " +:+ ")".

Section rule.
Context (ToLower lower Quote : string -> string) (EqualFold ILIKE : string -> string -> bool).
Context (by_name : list (Iface * InvDevice) -> list (Iface * InvDevice)).

Definition condClause (c : MatchCondition) (argN : Z) : Clause + Err :=
  let field := ToLower (TrimSpace (mc_Field c)) in
  let field := if bool_decide (field = "") then "alias" else field in
  let op := ToLower (TrimSpace (mc_Op c)) in
  let op := if bool_decide (op = "") then "like" else op in
  let value := TrimSpace (mc_Value c) in
  if bool_decide (value = "") then inr (New KindInvalid "every condition needs a value") else
  match (if bool_decide (field = "any") then Some [ColAlias; ColDescr; ColName] else col ← matchableCols field; Some [col]) with
  | None => inr (New KindInvalid ("unknown field " +:+ Quote (mc_Field c) +:+ ": use alias, descr, name or any"))
  | Some cols =>
      if bool_decide (op = "eq") then inl (mkClause cols false argN value)
      else if bool_decide (op ∈ ["like"; "contains"]) then
        if onlyWildcards value then inr (New KindInvalid "a value of only wildcards would match every interface in the fleet")
        else inl (mkClause cols true argN (likePattern value))
      else inr (New KindInvalid ("unknown op " +:+ Quote (mc_Op c) +:+ ": use eq or like"))
  end.

Fixpoint condClauses (n : Z) (conds : list MatchCondition) : list Clause + Err :=
  match conds with
  | [] => inl []
  | c :: conds =>
      match condClause c n with
      | inr e => inr e
      | inl cl => match condClauses (n + 1) conds with inr e => inr e | inl cls => inl (cl :: cls) end
      end
  end.

(** Whether an interface satisfies a predicate. *)
Definition clauseHolds (i : Iface) (c : Clause) : Prop :=
  Exists (fun col => if cl_like c then ILIKE (column_of col i) (cl_arg c) = true else lower (column_of col i) = lower (cl_arg c)) (cl_cols c).
#[export] Instance clauseHolds_dec i c : Decision (clauseHolds i c).
Proof.
  unfold clauseHolds. apply Exists_dec. intros col. destruct (cl_like c); apply _.
Defined.

Definition selected (cls : list Clause) (t : Inv) : list (Iface * InvDevice) :=
  by_name (filter (fun r => live r /\ Forall (clauseHolds r.1) cls) (joined t)).

Definition previewRow (r : Iface * InvDevice) : MatchPreviewRow :=
  mkMatchPreviewRow (iv_Name r.2) (if_Index r.1) (if_Name r.1) (if_Alias r.1) (if_Descr r.1) (default "" (if_Customer r.1)).

(** Held by someone else, and not to be taken. *)
Definition held (rule : MatchRule) (i : Iface) : bool :=
  let target := TrimSpace (ru_Customer rule) in let customer := default "" (if_Customer i) in
  negb (ru_Overwrite rule) && negb (bool_decide (target = "")) && negb (bool_decide (target = ClearToken))
  && negb (bool_decide (customer = "")) && negb (EqualFold customer target).

Definition rowStep (rule : MatchRule) (st : MatchResult * list string) (r : Iface * InvDevice) : MatchResult * list string :=
  let '(res, ids) := st in
  let res := res <| mr_Matched := mr_Matched res + 1 |> in
  let res := if len (mr_Sample res) <? matchSampleCap then res <| mr_Sample := mr_Sample res ++ [previewRow r] |> else res in
  if held rule r.1 then
    (res <| mr_Skipped := mr_Skipped res ++ [iv_Name r.2 +:+ "/" +:+ if_Name r.1 +:+ " (held by " +:+ default "" (if_Customer r.1) +:+ ")"] |>, ids)
  else (res, ids ++ [if_ID r.1]).

Definition conditions (rule : MatchRule) : list MatchCondition :=
  if bool_decide (ru_Conditions rule = []) then [mkMatchCondition (ru_Field rule) (ru_Op rule) (ru_Value rule)] else ru_Conditions rule.

(** The predicates of a rule, or why it is refused. *)
Definition ruleClauses (rule : MatchRule) : list Clause + Err :=
  if bool_decide (ru_Customer rule = "") && negb (ru_SetTags rule) then
    inr (New KindInvalid "nothing to assign: give a customer or tags")
  else if maxConditions <? len (conditions rule) then inr (New KindInvalid "a rule takes at most 8 conditions")
  else condClauses 1 (conditions rule).

Definition ruleTags (rule : MatchRule) : option (list string) := if ru_SetTags rule then Some (ru_Tags rule) else None.

Definition AssignByMatch (rule : MatchRule) : M Inv (MatchResult * option Err) := fun t =>
  let res := mkMatchResult 0 0 (negb (ru_Apply rule)) [] [] in
  match ruleClauses rule with
  | inr e => ((res, Some e), t)
  | inl cls =>
      let '(res, ids) := foldl (rowStep rule) (res, []) (selected cls t) in
      if negb (ru_Apply rule) || bool_decide (ids = []) then ((res, None), t) else
      ((res <| mr_Updated := affected ids t |>, None), updateIfaces ids (assign (ru_Customer rule) (ruleTags rule)) t)
  end.
End rule.

(** ** A list *)

Record TagAssignment : Type := mkTagAssignment {
  ta_Device : string; ta_Interface : string; ta_Customer : string; ta_Tags : list string; ta_SetTags : bool
}.
Record TagResult : Type := mkTagResult { tr_Matched : Z; tr_Updated : Z; tr_Unmatched : list string; tr_Ambiguous : list string }.
#[export] Instance eta_TagResult : Eta TagResult := fun r => mkTagResult (tr_Matched r) (tr_Updated r) (tr_Unmatched r) (tr_Ambiguous r).
Record CustomerCount : Type := mkCustomerCount { cc_Customer : string; cc_Interfaces : Z }.

Section tags.
Context (lower : string -> string).

Definition findInterfaceIDs (t : Inv) (device iface : string) : list string :=
  let ifIndex := match Atoi iface with Some n => n | None => -1 end in
  map (fun r => if_ID r.1)
    (filter (fun r => live r /\ (lower (iv_Name r.2) = lower device \/ iv_IP r.2 = device)
       /\ (lower (if_Name r.1) = lower iface \/ if_Index r.1 = ifIndex)) (joined t)).

Definition tagRow (st : TagResult * Inv) (a : TagAssignment) : TagResult * Inv :=
  let '(res, t) := st in
  let dev := TrimSpace (ta_Device a) in let iface := TrimSpace (ta_Interface a) in
  if bool_decide (dev = "") || bool_decide (iface = "") then
    (res <| tr_Unmatched := tr_Unmatched res ++ [dev +:+ "/" +:+ iface +:+ " (device and interface are both required)"] |>, t)
  else
    match findInterfaceIDs t dev iface with
    | [] => (res <| tr_Unmatched := tr_Unmatched res ++ [dev +:+ "/" +:+ iface] |>, t)
    | [id] =>
        let res := res <| tr_Matched := tr_Matched res + 1 |> in
        if bool_decide (ta_Customer a = "") && negb (ta_SetTags a) then (res, t) else
        let tags := if ta_SetTags a then Some (ta_Tags a) else None in
        (res <| tr_Updated := tr_Updated res + affected [id] t |>, updateIfaces [id] (assign (ta_Customer a) tags) t)
    | _ => (res <| tr_Ambiguous := tr_Ambiguous res ++ [dev +:+ "/" +:+ iface] |>, t)
    end.
Definition ApplyTags (rows : list TagAssignment) : M Inv TagResult := fun t => foldl tagRow (mkTagResult 0 0 [] [], t) rows.

(** [GROUP BY i.customer ORDER BY i.customer]: [groups] are the customers
    there are, in the order of the collation. *)
Definition customerRows (t : Inv) : list string :=
  omap (fun r => c ← if_Customer r.1; if bool_decide (c = "") then None else Some c) (filter live (joined t)).
Definition Customers (order : list string -> list string) (t : Inv) : list CustomerCount :=
  map (fun c => mkCustomerCount c (len (filter (fun x => x = c) (customerRows t)))) (order (remove_dups (customerRows t))).
End tags.

(** * Properties *)

(** ** What a rule selects *)

Section like.
Context (same : byte -> byte -> Prop).

(** The documented meaning of a pattern, with the backslash as its escape:
    [same] is the comparison of characters. *)
Inductive likes : bytes -> bytes -> Prop :=
  | likes_nil : likes [] []
  | likes_percent p a b : likes p b -> likes (percentSign :: p) (a ++ b)
  | likes_any p d t : likes p t -> likes (underscore :: p) (d :: t)
  | likes_escape c d p t : same c d -> likes p t -> likes (backslash :: c :: p) (d :: t)
  | likes_char c d p t : c ∉ [percentSign; underscore; backslash] -> same c d -> likes p t -> likes (c :: p) (d :: t).

(** The pieces of a text, in order, the first at its start and the last at its
    end. *)
Fixpoint shaped (pieces : list bytes) (t : bytes) : Prop :=
  match pieces with
  | [] => False
  | [p] => Forall2 same p t
  | p :: pieces => exists a b c, t = a ++ b ++ c /\ Forall2 same p a /\ shaped pieces c
  end.

Lemma escapeLike_app a b : escapeLike (a ++ b) = escapeLike a ++ escapeLike b.
Proof. unfold escapeLike. by rewrite map_app, concat_app. Qed.
Lemma escapeLike_cons c b : escapeLike (c :: b) = escapeByte c ++ escapeLike b.
Proof. done. Qed.

Lemma likes_percent_inv p t : likes (percentSign :: p) t <-> exists a b, t = a ++ b /\ likes p b.
Proof.
  split.
  - inversion 1; subst; [by do 2 eexists|]. exfalso. set_solver.
  - intros (a & b & -> & Hb). by apply likes_percent.
Qed.

(** A piece stands for itself. *)
Lemma likes_piece p rest t : percentSign ∉ p -> likes (escapeLike p ++ rest) t <-> exists a c, t = a ++ c /\ Forall2 same p a /\ likes rest c.
Proof.
  revert t. induction p as [|x p IH]; intros t Hp.
  { cbn. split; [intros Ht; by exists [], t|intros (a & c & -> & ->%Forall2_nil_inv_l & Hc); done]. }
  rewrite escapeLike_cons. apply not_elem_of_cons in Hp as [Hx Hp].
  assert (likes (escapeByte x ++ escapeLike p ++ rest) t <-> exists d t', t = d :: t' /\ same x d /\ likes (escapeLike p ++ rest) t') as E.
  { unfold escapeByte. repeat case_decide; cbn [app].
    - subst x. split; [inversion 1; subst; [by do 2 eexists|exfalso; set_solver]|intros (d & t' & -> & ? & ?); by apply likes_escape].
    - subst x. split; [inversion 1; subst; [by do 2 eexists|exfalso; set_solver]|intros (d & t' & -> & ? & ?); by apply likes_escape].
    - split; [inversion 1; subst; try done; by do 2 eexists|intros (d & t' & -> & ? & ?); apply likes_char; set_solver]. }
  rewrite <- app_assoc, E. split.
  - intros (d & t' & -> & Hd & (a & c & -> & Ha & Hc)%IH); [|done]. exists (d :: a), c. split; [done|]. split; [by constructor|done].
  - intros (a & c & -> & (d & a' & Hd & Ha & ->)%Forall2_cons_inv_l & Hc). exists d, (a' ++ c). split; [done|]. split; [done|].
    apply IH; [done|]. by exists a', c.
Qed.
Lemma likes_last p t : percentSign ∉ p -> likes (escapeLike p) t <-> Forall2 same p t.
Proof.
  intros Hp. rewrite <- (app_nil_r (escapeLike p)), likes_piece by done. split.
  - intros (a & c & -> & Ha & Hc). inversion Hc; subst. by rewrite app_nil_r.
  - intros Ht. exists t, []. rewrite app_nil_r. split; [done|]. split; [done|constructor].
Qed.

Lemma split_bytes_ne sep acc b : split_bytes sep acc b <> [].
Proof. revert acc. induction b as [|c b IH]; intros acc; cbn; [done|]. case_decide; [done|apply IH]. Qed.
Lemma likes_pieces s t : likes (escapeLike s) t <-> shaped (split_bytes percentSign [] s) t.
Proof.
  remember (length s) as n eqn:En. revert s t En. induction n as [n IH] using lt_wf_ind. intros s t ->.
  destruct (decide (percentSign ∈ s)) as [Hin|Hn].
  - apply list_elem_of_split_l in Hin as (p & rest & -> & Hp). rewrite Split_first by done. cbn [reverse app].
    rewrite escapeLike_app, escapeLike_cons, likes_piece by done. change (escapeByte percentSign) with [percentSign]. cbn [app].
    setoid_rewrite likes_percent_inv. specialize (IH (length rest) ltac:(rewrite length_app; cbn; lia) rest).
    setoid_rewrite IH; [|done]. destruct (split_bytes percentSign [] rest) as [|q qs] eqn:E.
    { by apply split_bytes_ne in E. }
    rewrite reverse_nil. cbn [app shaped]. split.
    + intros (a & c & -> & Ha & b & c' & -> & Hc). by exists a, b, c'.
    + intros (a & b & c & -> & Ha & Hc). exists a, (b ++ c). split; [done|]. split; [done|]. by exists b, c.
  - rewrite Split_last by done. rewrite reverse_nil. cbn [app shaped]. by apply likes_last.
Qed.
End like.

(** What the database says of [ILIKE ... ESCAPE '\']. *)
Class LikeLaws (same : byte -> byte -> Prop) (ILIKE : string -> string -> bool) : Prop :=
  like_doc : forall v p, ILIKE v p = true <-> likes same (to_bytes p) (to_bytes v).

(** What an operator's text stands for: every character of it stands for
    itself, the underscore and the backslash included, and only the percent
    sign for anything; a text without one may stand anywhere in the
    description, a text with one is the whole of it. *)
Theorem like_means same ILIKE `{!LikeLaws same ILIKE} s v :
  ILIKE v (likePattern s) = true <->
  shaped same (if bool_decide (percentSign ∈ to_bytes s) then split_bytes percentSign [] (to_bytes s) else [[]; to_bytes s; []]) (to_bytes v).
Proof.
  rewrite like_doc. unfold likePattern. set (b := to_bytes s).
  assert (forall b, percentSign ∈ escapeLike b <-> percentSign ∈ b) as Hin.
  { intros l. induction l as [|c l IH]; [done|]. rewrite escapeLike_cons, elem_of_app, elem_of_cons, IH. unfold escapeByte.
    repeat case_decide; subst; set_solver. }
  case_bool_decide as H1; rewrite Hin in H1; [rewrite (bool_decide_true _ H1)|rewrite (bool_decide_false _ H1)]; rewrite to_of_bytes.
  - apply likes_pieces.
  - cbn [app]. rewrite likes_percent_inv. cbn [shaped]. split.
    + intros (x & y & -> & Hy). apply likes_piece in Hy as (a & c & -> & Ha & Hc); [|done].
      apply (likes_percent_inv same []) in Hc as (b1 & c1 & -> & Hc). inversion Hc; subst.
      exists [], x, (a ++ b1 ++ []). split; [done|]. split; [constructor|]. exists a, b1, []. split_and!; [done..|constructor].
    + intros (a & x & c & -> & ->%Forall2_nil_inv_l & a' & y & c' & -> & Ha & ->%Forall2_nil_inv_l).
      exists x, (a' ++ y ++ []). split; [done|]. apply likes_piece; [done|]. exists a', (y ++ []). split_and!; [done..|].
      apply likes_percent. constructor.
Qed.

Lemma NoDup_map_inj {A B} (f : A -> B) l a b : NoDup (map f l) -> a ∈ l -> b ∈ l -> f a = f b -> a = b.
Proof.
  induction l as [|x l IH]; intros Hn Ha Hb E; [by apply elem_of_nil in Ha|]. apply NoDup_cons in Hn as [Hx Hn].
  apply elem_of_cons in Ha as [->|Ha]; apply elem_of_cons in Hb as [->|Hb]; [done|..|by apply IH]; destruct Hx.
  - rewrite E. by apply list_elem_of_fmap_2.
  - rewrite <- E. by apply list_elem_of_fmap_2.
Qed.

Section rule_facts.
Context (ToLower lower Quote : string -> string) (EqualFold ILIKE : string -> string -> bool).
Context (by_name : list (Iface * InvDevice) -> list (Iface * InvDevice)).
Hypothesis by_name_perm : forall l, by_name l ≡ₚ l.
Abbreviation AssignByMatch := (AssignByMatch ToLower lower Quote EqualFold ILIKE by_name).
Abbreviation selected := (selected lower ILIKE by_name).
Abbreviation held := (held EqualFold).
Abbreviation condClauses := (condClauses ToLower Quote).

(** What the rows add up to. *)
Lemma rowStep_spec rule res ids row : let r := rowStep EqualFold rule (res, ids) row in
  r.2 = ids ++ (if held rule row.1 then [] else [if_ID row.1]) /\ mr_Matched r.1 = mr_Matched res + 1 /\ mr_Updated r.1 = mr_Updated res /\
  len (mr_Skipped r.1) = len (mr_Skipped res) + (if held rule row.1 then 1 else 0).
Proof. unfold rowStep. destruct (held rule row.1), (_ <? _); cbn; rewrite ?app_nil_r, ?len_app; cbn; split_and!; first [done | lia]. Qed.
Lemma rows_spec rule rows : forall res ids,
  let r := foldl (rowStep EqualFold rule) (res, ids) rows in
  r.2 = ids ++ map (fun r => if_ID r.1) (filter (fun r => held rule r.1 = false) rows) /\
  mr_Matched r.1 = mr_Matched res + len rows /\ mr_Updated r.1 = mr_Updated res /\
  len (mr_Skipped r.1) = len (mr_Skipped res) + len (filter (fun r => held rule r.1 = true) rows).
Proof.
  induction rows as [|row rows IH]; intros res ids; cbn [foldl].
  { cbn [filter list_filter map fst snd]. rewrite app_nil_r, len_nil. split_and!; [done|lia|done|lia]. }
  pose proof (rowStep_spec rule res ids row) as Hs. destruct (rowStep EqualFold rule (res, ids) row) as [res' ids'].
  cbn [fst snd] in Hs. destruct Hs as (-> & H1 & H2 & H3). specialize (IH res' (ids ++ if held rule row.1 then [] else [if_ID row.1])). cbv zeta in IH.
  destruct IH as (-> & -> & -> & ->). rewrite len_cons, !filter_cons.
  destruct (held rule row.1); repeat case_decide; try done; cbn [app map] in *; rewrite ?len_cons, ?app_nil_r, <- ?app_assoc; split_and!; try done; try lia.
Qed.

Lemma rowStep_dry rule rule' rows b : (forall i, held rule' i = held rule i) -> forall res ids,
  foldl (rowStep EqualFold rule') (res <| mr_DryRun := b |>, ids) rows =
  ((foldl (rowStep EqualFold rule) (res, ids) rows).1 <| mr_DryRun := b |>, (foldl (rowStep EqualFold rule) (res, ids) rows).2).
Proof.
  intros Hh. induction rows as [|row rows IH]; intros res ids; cbn [foldl]; [done|].
  replace (rowStep EqualFold rule' (res <| mr_DryRun := b |>, ids) row)
    with ((rowStep EqualFold rule (res, ids) row).1 <| mr_DryRun := b |>, (rowStep EqualFold rule (res, ids) row).2).
  - rewrite IH. by destruct (rowStep EqualFold rule (res, ids) row).
  - unfold rowStep. rewrite Hh. cbn. by repeat case_match.
Qed.

(** What is previewed is what is done: a preview changes nothing, and the
    same rule applied to the same tables selects, skips and shows the same
    interfaces and fails when the preview did. *)
Theorem preview_true rule t :
  let p := AssignByMatch (rule <| ru_Apply := false |>) t in
  let a := AssignByMatch (rule <| ru_Apply := true |>) t in
  p.2 = t /\ mr_Updated p.1.1 = 0 /\ p.1.2 = a.1.2 /\ mr_Matched p.1.1 = mr_Matched a.1.1 /\
  mr_Skipped p.1.1 = mr_Skipped a.1.1 /\ mr_Sample p.1.1 = mr_Sample a.1.1.
Proof.
  intros p a. unfold p, a, Circuits.AssignByMatch. clear p a.
  set (rule0 := rule <| ru_Apply := false |>). set (rule1 := rule <| ru_Apply := true |>).
  change (ruleClauses ToLower Quote rule0) with (ruleClauses ToLower Quote rule1).
  destruct (ruleClauses ToLower Quote rule1) as [cls|e]; [|by split_and!].
  change (negb (ru_Apply rule0)) with true. change (negb (ru_Apply rule1)) with false.
  set (res := mkMatchResult 0 0 false [] []). change (mkMatchResult 0 0 true [] []) with (res <| mr_DryRun := true |>).
  destruct (foldl (rowStep EqualFold rule0) (res <| mr_DryRun := true |>, []) (selected cls t)) as [res0 ids0] eqn:E0.
  pose proof (eq_trans (eq_sym E0) (rowStep_dry rule1 rule0 (selected cls t) true (fun i => eq_refl) res [])) as E1. clear E0.
  injection E1 as -> ->.
  destruct (rows_spec rule1 (selected cls t) res []) as (_ & _ & Hu & _).
  destruct (foldl (rowStep EqualFold rule1) (res, []) (selected cls t)) as [res' ids]. cbn in *.
  case_bool_decide; by split_and!.
Qed.

Lemma elem_of_joined t i d : (i, d) ∈ joined t <-> i ∈ in_ifaces t /\ d ∈ in_devices t /\ iv_ID d = if_Device i.
Proof.
  unfold joined. rewrite list_elem_of_In, in_concat. setoid_rewrite <- list_elem_of_In. split.
  - intros (l & (i' & -> & Hi)%list_elem_of_fmap & (d' & [= -> ->] & [Hd' Hd]%list_elem_of_filter)%list_elem_of_fmap). done.
  - intros (Hi & Hd & E). eexists. split; [by apply list_elem_of_fmap; exists i|]. apply list_elem_of_fmap. exists d. split; [done|].
    by apply list_elem_of_filter.
Qed.

(** ** What a rule writes *)

(** A condition, as it is meant: the field or, for [any], one of three, has
    the text in it or is the text, by the database's comparison. *)
Definition fields (c : MatchCondition) : list column :=
  let field := ToLower (TrimSpace (mc_Field c)) in
  if bool_decide (field = "any") then [ColAlias; ColDescr; ColName]
  else if bool_decide (field = "descr") then [ColDescr] else if bool_decide (field = "name") then [ColName] else [ColAlias].
Definition satisfied (i : Iface) (c : MatchCondition) : Prop :=
  Exists (fun col =>
    if bool_decide (ToLower (TrimSpace (mc_Op c)) = "eq") then lower (column_of col i) = lower (TrimSpace (mc_Value c))
    else ILIKE (column_of col i) (likePattern (TrimSpace (mc_Value c))) = true) (fields c).

Lemma condClause_means c n cl i : condClause ToLower Quote c n = inl cl -> clauseHolds lower ILIKE i cl <-> satisfied i c.
Proof.
  unfold condClause, satisfied, fields, matchableCols. generalize (ToLower (TrimSpace (mc_Field c))) as field, (ToLower (TrimSpace (mc_Op c))) as op.
  intros field op. case_bool_decide; [done|]. destruct (decide (field = "")) as [->|Hf]; [|rewrite (bool_decide_false (field = "")) by done];
    (destruct (decide (op = "")) as [->|Ho]; [|rewrite (bool_decide_false (op = "")) by done]); cbn [mbind option_bind];
    repeat (case_bool_decide; subst; cbn [mbind option_bind]; try done); repeat (case_match; try done); intros [= <-]; done.
Qed.
Lemma condClauses_mean conds : forall n cls i, condClauses n conds = inl cls -> Forall (clauseHolds lower ILIKE i) cls <-> Forall (satisfied i) conds.
Proof.
  induction conds as [|c conds IH]; intros n cls i; cbn [Circuits.condClauses]; [by intros [= <-]|].
  destruct (condClause ToLower Quote c n) as [cl|e] eqn:Ec; [|done]. destruct (condClauses (n + 1) conds) as [cls'|e] eqn:E; [|done].
  intros [= <-]. rewrite !Forall_cons. by rewrite (condClause_means _ _ _ _ Ec), (IH _ _ _ E).
Qed.
Lemma ruleClauses_mean rule cls i : ruleClauses ToLower Quote rule = inl cls -> Forall (clauseHolds lower ILIKE i) cls <-> Forall (satisfied i) (conditions rule).
Proof. unfold ruleClauses. destruct (_ && _); [done|]. destruct (_ <? _); [done|]. apply condClauses_mean. Qed.

(** Somebody else has the interface, by name. *)
Definition othersPort (rule : MatchRule) (i : Iface) : Prop :=
  exists c, if_Customer i = Some c /\ c <> "" /\ EqualFold c (TrimSpace (ru_Customer rule)) = false.
(** The rule is one that leaves to others what they have: it is not to
    overwrite, not to clear, and names a customer that is not a blank. *)
Definition yields (rule : MatchRule) : Prop :=
  ru_Overwrite rule = false /\ TrimSpace (ru_Customer rule) <> "" /\ TrimSpace (ru_Customer rule) <> "-".

Lemma held_spec rule i : held rule i = true <-> yields rule /\ othersPort rule i.
Proof.
  unfold Circuits.held, yields, othersPort, ClearToken. rewrite !andb_true_iff, !negb_true_iff, !bool_decide_eq_false. split.
  - intros [[[[? ?] ?] Hc] ?]. split; [done|]. destruct (if_Customer i) as [c|]; [by exists c|done].
  - intros [(? & ? & ?) (c & -> & ? & ?)]. by split_and!.
Qed.

(** The interfaces a rule takes. *)
Definition taken_by (rule : MatchRule) (t : Inv) (i : Iface) : Prop :=
  if_State i <> "removed" /\ (exists d, d ∈ in_devices t /\ iv_ID d = if_Device i /\ iv_Status d <> "retired") /\
  Forall (satisfied i) (conditions rule) /\ ~ (yields rule /\ othersPort rule i).

(** An interface as the rule leaves it: the customer is written as it was
    given, a lone dash for none, and not at all when it is empty; the tags are
    written when they are to be. *)
Definition as_ruled (rule : MatchRule) (i : Iface) : Iface :=
  mkIface (if_ID i) (if_Device i) (if_Index i) (if_Name i) (if_Alias i) (if_Descr i)
    (if decide (ru_Customer rule = "") then if_Customer i else if decide (ru_Customer rule = "-") then None else Some (ru_Customer rule))
    (if ru_SetTags rule then ru_Tags rule else if_Tags i) (if_State i).
Lemma assign_ruled rule i : assign (ru_Customer rule) (ruleTags rule) i = as_ruled rule i.
Proof.
  unfold assign, as_ruled, ruleTags, nullIfClear, ClearToken. destruct i.
  repeat case_bool_decide; repeat case_decide; destruct (ru_SetTags rule); congruence || done.
Qed.

Lemma selected_ids rule cls t ids i : NoDup (map if_ID (in_ifaces t)) -> ruleClauses ToLower Quote rule = inl cls ->
  ids = map (fun r : Iface * InvDevice => if_ID r.1) (filter (fun r => held rule r.1 = false) (selected cls t)) ->
  i ∈ in_ifaces t -> if_ID i ∈ ids <-> taken_by rule t i.
Proof.
  intros Hn Hc -> Hi. rewrite list_elem_of_fmap. pose proof (ruleClauses_mean rule cls i Hc) as Hm. pose proof (held_spec rule i) as Hh.
  assert (held rule i = false <-> ~ (yields rule /\ othersPort rule i)) as Hh' by (rewrite <- Hh; by destruct (held rule i)). clear Hh. split.
  - intros ([i' d] & E & [Hh Hs]%list_elem_of_filter). cbn in *. unfold Circuits.selected in Hs. rewrite by_name_perm in Hs.
    apply list_elem_of_filter in Hs as [[[Hl1 Hl2] Hcl] [Hi' [Hd Ed]]%elem_of_joined].
    assert (i' = i) as -> by (eapply (NoDup_map_inj if_ID); done). unfold taken_by. rewrite <- Hm, <- Hh'. split_and!; [done|by exists d|done..].
  - intros (Hl & (d & Hd & Ed & Hr) & Hcl%Hm & Hh%Hh'). exists (i, d). split; [done|]. apply list_elem_of_filter. split; [done|].
    unfold Circuits.selected. rewrite by_name_perm. apply list_elem_of_filter. split; [done|]. by apply elem_of_joined.
Qed.

(** C35. What a rule does. One that is refused changes nothing, nor does a
    preview. Applied, it leaves its customer and tags on just the interfaces
    that are live, satisfy every condition and are not another customer's, and
    on nothing else, and counts them; another customer's is taken only by a
    rule that is to overwrite, to clear, or whose customer is a blank. *)
Theorem assign_exact rule t : NoDup (map if_ID (in_ifaces t)) ->
  let '((res, err), t') := AssignByMatch rule t in
  match ruleClauses ToLower Quote rule with
  | inr e => err = Some e /\ t' = t
  | inl _ =>
      err = None /\ in_devices t' = in_devices t /\ in_schedules t' = in_schedules t /\
      Forall2 (fun i i' => (ru_Apply rule = true /\ taken_by rule t i -> i' = as_ruled rule i) /\
                           (ru_Apply rule = false \/ ~ taken_by rule t i -> i' = i)) (in_ifaces t) (in_ifaces t') /\
      (if ru_Apply rule then exists took, NoDup took /\ (forall i, i ∈ took <-> i ∈ in_ifaces t /\ taken_by rule t i) /\ mr_Updated res = len took
       else mr_Updated res = 0)
  end.
Proof.
  intros Hn. unfold Circuits.AssignByMatch. destruct (ruleClauses ToLower Quote rule) as [cls|e] eqn:Hc; [|done].
  set (res := mkMatchResult 0 0 _ [] []). destruct (rows_spec rule (selected cls t) res []) as (Hids & _ & Hu & _).
  destruct (foldl (rowStep EqualFold rule) (res, []) (selected cls t)) as [res' ids]. cbn in Hids, Hu.
  pose proof (fun i => selected_ids rule cls t ids i Hn Hc Hids) as Hin. clear Hids.
  assert (forall l : list Iface, Forall2 (fun i i' => i' = i) l l) as Hsame by (induction l; by constructor).
  destruct (ru_Apply rule); cbn [negb orb].
  2: { split_and!; [done..| |done]. eapply Forall2_impl; [apply Hsame|]. intros i i' ->. split; [by intros [? _]|done]. }
  pose proof (NoDup_fmap_1 if_ID (in_ifaces t) Hn) as Hn'. case_bool_decide as Hids0.
  - assert (forall i, i ∈ in_ifaces t -> ~ taken_by rule t i) as Hnone.
    { intros i Hi Ht%Hin; [|done]. subst ids. by apply elem_of_nil in Ht. }
    split_and!; [done..| |].
    + apply Forall2_same_length_lookup_2; [done|]. intros k i i' H1 H2. assert (i' = i) as -> by congruence.
      split; [|done]. intros [_ Ht]. apply list_elem_of_lookup_2 in H1. by apply Hnone in Ht.
    + exists []. split_and!; [constructor| |done]. intros i. split; [by intros ?%elem_of_nil|]. intros [Hi Ht]. by apply Hnone in Ht.
  - split_and!; [done..| |].
    + cbn. apply Forall2_fmap_r. apply Forall2_same_length_lookup_2; [done|]. intros k i i' H1 H2. assert (i' = i) as -> by congruence.
      apply list_elem_of_lookup_2 in H1. cbn. rewrite <- (Hin i H1). case_decide; split; [|naive_solver|naive_solver|done]. intros _. apply assign_ruled.
    + exists (filter (fun i => if_ID i ∈ ids) (in_ifaces t)). split_and!; [by apply NoDup_filter| |done]. intros i. rewrite list_elem_of_filter.
      split; intros [H1 H2]; (split; [|]); try done; by apply Hin.
Qed.
End rule_facts.

(** ** What a list does *)

Section list_facts.
Context (lower : string -> string).
Abbreviation findInterfaceIDs := (findInterfaceIDs lower).
Abbreviation ApplyTags := (ApplyTags lower).
Abbreviation tagRow := (tagRow lower).

(** A change of an interface: its customer, its tags, either, both or none. *)
Abbreviation change := (option (option string) * option (list string))%type.
Definition changed (c : change) (i : Iface) : Iface :=
  let i := match c.1 with Some customer => i <| if_Customer := customer |> | None => i end in
  match c.2 with Some ts => i <| if_Tags := ts |> | None => i end.
Definition over (c : change) (d : change) : change :=
  (match d.1 with Some x => Some x | None => c.1 end, match d.2 with Some x => Some x | None => c.2 end).
Definition rowChange (a : TagAssignment) : change :=
  (if bool_decide (ta_Customer a = "") then None else Some (nullIfClear (ta_Customer a)),
   if ta_SetTags a then Some (ta_Tags a) else None).

Lemma assign_changed a i : assign (ta_Customer a) (if ta_SetTags a then Some (ta_Tags a) else None) i = changed (rowChange a) i.
Proof. unfold assign, changed, rowChange. cbn. by case_bool_decide. Qed.
Lemma changed_over c d i : changed d (changed c i) = changed (over c d) i.
Proof. unfold changed, over. destruct c as [[?|] [?|]], d as [[?|] [?|]]; done. Qed.
Lemma changed_none i : changed (None, None) i = i.
Proof. done. Qed.
Lemma over_idem c : over c c = c.
Proof. by destruct c as [[?|] [?|]]. Qed.

(** The interface a row is about, when it is one. *)
Definition rowTarget (t : Inv) (a : TagAssignment) : option string :=
  let dev := TrimSpace (ta_Device a) in let iface := TrimSpace (ta_Interface a) in
  if bool_decide (dev = "") || bool_decide (iface = "") then None else
  match findInterfaceIDs t dev iface with [id] => Some id | _ => None end.

(** What a list changes of an interface: the rows that are about it, a later
    one over an earlier. *)
Definition listChange (t : Inv) (rows : list TagAssignment) (id : string) : change :=
  foldl (fun c a => if decide (rowTarget t a = Some id) then over c (rowChange a) else c) (None, None) rows.

Definition changedBy (f : string -> change) (t : Inv) : Inv := t <| in_ifaces := map (fun i => changed (f (if_ID i)) i) (in_ifaces t) |>.

Lemma changed_key c i : if_ID (changed c i) = if_ID i /\ if_Device (changed c i) = if_Device i /\ if_Name (changed c i) = if_Name i /\
  if_Index (changed c i) = if_Index i /\ if_State (changed c i) = if_State i.
Proof. unfold changed. by destruct c as [[?|] [?|]]. Qed.

(** Rows are resolved by what no row changes. *)
Lemma find_changed f t d i : findInterfaceIDs (changedBy f t) d i = findInterfaceIDs t d i.
Proof.
  unfold Circuits.findInterfaceIDs. assert (joined (changedBy f t) = map (fun r => (changed (f (if_ID r.1)) r.1, r.2)) (joined t)) as ->.
  { unfold joined, changedBy. cbn. rewrite map_map, concat_map, map_map. f_equal. apply map_ext. intros j.
    destruct (changed_key (f (if_ID j)) j) as (_ & -> & _). by rewrite map_map. }
  induction (joined t) as [|[j dv] l IH]; [done|]. cbn [map]. rewrite !filter_cons. cbn [fst snd].
  destruct (changed_key (f (if_ID j)) j) as (E1 & E2 & E3 & E4 & E5). 
  case_decide as Hd1; case_decide as Hd2; try (exfalso; unfold live in *; cbn [fst snd] in *; rewrite E3, E4, E5 in *; tauto).
  - cbn [map fst snd]. rewrite E1. f_equal. apply IH.
  - apply IH.
Qed.
Lemma target_changed f t a : rowTarget (changedBy f t) a = rowTarget t a.
Proof. unfold rowTarget. by rewrite find_changed. Qed.

Lemma tagRow_changed f t a res :
  (tagRow (res, changedBy f t) a).2 = changedBy (fun id => if decide (rowTarget t a = Some id) then over (f id) (rowChange a) else f id) t.
Proof.
  assert (forall g, (forall id, g id = f id) -> changedBy f t = changedBy g t) as Hsame.
  { intros g Hg. unfold changedBy. destruct t. cbn. f_equal. apply map_ext. intros i. by rewrite Hg. }
  unfold tagRow, Circuits.tagRow. rewrite find_changed. unfold rowTarget.
  destruct (_ || _); [apply Hsame; intros id; by rewrite decide_False|].
  destruct (findInterfaceIDs t _ _) as [|id [|id2 ids]]; [apply Hsame; intros ?; by rewrite decide_False| |apply Hsame; intros ?; by rewrite decide_False].
  destruct (bool_decide (ta_Customer a = "") && negb (ta_SetTags a)) eqn:E.
  - apply andb_true_iff in E as [E1 E2%negb_true_iff]. apply Hsame. intros id'. destruct (decide (Some id = Some id')); [|done].
    assert (rowChange a = (None, None)) as -> by (unfold rowChange; by rewrite E1, E2). by destruct (f id') as [[?|] [?|]].
  - cbn. unfold updateIfaces, changedBy. destruct t. cbn. f_equal. rewrite map_map. apply map_ext. intros i. destruct (changed_key (f (if_ID i)) i) as (-> & _).
    rewrite assign_changed, changed_over. destruct (decide (if_ID i = id)) as [<-|Hne].
    + rewrite decide_True by (by left). by rewrite decide_True.
    + rewrite decide_False by set_solver. rewrite decide_False; [done|congruence].
Qed.

Lemma fold_changed rows t : forall f res,
  (foldl tagRow (res, changedBy f t) rows).2 =
  changedBy (fun id => foldl (fun c a => if decide (rowTarget t a = Some id) then over c (rowChange a) else c) (f id) rows) t.
Proof.
  induction rows as [|a rows IH]; intros f res; cbn [foldl]; [done|].
  pose proof (tagRow_changed f t a res) as E. destruct (tagRow (res, changedBy f t) a) as [res' t']. cbn in E. subst t'. by rewrite IH.
Qed.
Lemma changedBy_none t : changedBy (fun _ => (None, None)) t = t.
Proof. unfold changedBy. destruct t. cbn. f_equal. rewrite <- (map_id in_ifaces0) at 2. by apply map_ext. Qed.

Lemma ApplyTags_of rows t : (ApplyTags rows t).2 = changedBy (listChange t rows) t.
Proof.
  pose proof (fold_changed rows t (fun _ => (None, None)) (mkTagResult 0 0 [] [])) as E. by rewrite changedBy_none in E.
Qed.

Lemma changedBy_ext f g t : (forall id, f id = g id) -> changedBy f t = changedBy g t.
Proof. intros Hg. unfold changedBy. destruct t. cbn. f_equal. apply map_ext. intros i. by rewrite Hg. Qed.
Lemma changedBy_twice f g t : changedBy g (changedBy f t) = changedBy (fun id => over (f id) (g id)) t.
Proof.
  unfold changedBy. destruct t. cbn. f_equal. rewrite map_map. apply map_ext. intros i.
  destruct (changed_key (f (if_ID i)) i) as (-> & _). apply changed_over.
Qed.

(** What an import does: each interface gets the customer and the tags of
    the last row that names it and no other, and is otherwise as it was; rows
    that name no interface or several change nothing; and the same list once
    more leaves the tables as they are. *)
Theorem import_exact rows t :
  let t' := (ApplyTags rows t).2 in
  t' = changedBy (listChange t rows) t /\ (ApplyTags rows t').2 = t'.
Proof.
  intros t'. split; [apply ApplyTags_of|]. unfold t'. rewrite !ApplyTags_of.
  assert (forall f id, listChange (changedBy f t) rows id = listChange t rows id) as E.
  { intros f id. unfold listChange. generalize ((None, None) : change). induction rows as [|a rs IH]; intros c; [done|].
    cbn [foldl]. rewrite target_changed. apply IH. }
  rewrite changedBy_twice. apply changedBy_ext. intros id. by rewrite E, over_idem.
Qed.

(** Every row is accounted for. *)
Lemma rows_accounted rows t : let r := (ApplyTags rows t).1 in tr_Matched r + len (tr_Unmatched r) + len (tr_Ambiguous r) = len rows.
Proof.
  unfold Circuits.ApplyTags. assert (forall res, let r := (foldl tagRow (res, t) rows).1 in
    tr_Matched r + len (tr_Unmatched r) + len (tr_Ambiguous r) = tr_Matched res + len (tr_Unmatched res) + len (tr_Ambiguous res) + len rows) as H.
  { revert t. induction rows as [|a rows IH]; intros t res; cbn [foldl]; [rewrite len_nil; cbn [fst]; lia|].
    destruct (tagRow (res, t) a) as [res' t'] eqn:E. specialize (IH t' res'). cbv zeta in *. rewrite IH, len_cons.
    unfold Circuits.tagRow in E. repeat case_match; injection E as <- _; cbn [tr_Matched tr_Unmatched tr_Ambiguous set eta];
      rewrite ?len_app, ?len_cons, ?len_nil; lia. }
  exact (H (mkTagResult 0 0 [] [])).
Qed.
End list_facts.

(** ** At work *)

(** A comparison of characters that is that of bytes, and its patterns. *)
Fixpoint likesB (fuel : nat) (p t : bytes) : bool :=
  match fuel with
  | O => false
  | S fuel =>
      match p, t with
      | [], [] => true
      | c :: p', _ =>
          if decide (c = percentSign) then likesB fuel p' t || match t with [] => false | _ :: t' => likesB fuel p t' end
          else match t with
               | [] => false
               | d :: t' =>
                   if decide (c = underscore) then likesB fuel p' t'
                   else if decide (c = backslash) then match p' with e :: p'' => bool_decide (e = d) && likesB fuel p'' t' | [] => false end
                   else bool_decide (c = d) && likesB fuel p' t'
               end
      | [], _ => false
      end
  end.
Definition plainILIKE (v p : string) : bool := likesB (S (length (to_bytes p) + length (to_bytes v))) (to_bytes p) (to_bytes v).

Lemma likesB_spec fuel : forall p t, (length p + length t < fuel)%nat -> likesB fuel p t = true <-> likes eq p t.
Proof.
  induction fuel as [|fuel IH]; intros p t Hf; [lia|]. destruct p as [|c p]; cbn [likesB].
  { destruct t; [split; [intros _; constructor|done]|]. split; [done|inversion 1]. }
  destruct (decide (c = percentSign)) as [->|Hp].
  { rewrite orb_true_iff, likes_percent_inv. rewrite (IH p t) by (cbn in *; lia). split.
    - intros [H|H]; [by exists [], t|]. destruct t as [|d t]; [done|]. apply IH, likes_percent_inv in H as (a & b & -> & Hb); [|cbn in *; lia].
      by exists (d :: a), b.
    - intros (a & b & -> & Hb). destruct a as [|d a]; [by left|right]. cbn [app]. cbn [app length] in Hf. apply IH; [cbn [length]; lia|]. apply likes_percent_inv. by exists a, b. }
  destruct t as [|d t]; [split; [done|inversion 1; subst; done]|].
  destruct (decide (c = underscore)) as [->|Hu].
  { rewrite IH by (cbn in *; lia). split; [by apply likes_any|]. inversion 1; subst; [done|]. exfalso; set_solver. }
  destruct (decide (c = backslash)) as [->|Hb].
  { destruct p as [|e p]; [split; [done|inversion 1; subst; exfalso; set_solver]|]. rewrite andb_true_iff, bool_decide_eq_true, IH by (cbn in *; lia).
    split; [intros [-> ?]; by apply likes_escape|]. inversion 1; subst; [done|]. exfalso; set_solver. }
  rewrite andb_true_iff, bool_decide_eq_true, IH by (cbn in *; lia). split; [intros [-> ?]; apply likes_char; [set_solver|done..]|].
  inversion 1; subst; done.
Qed.
#[local] Instance plainLike : LikeLaws eq plainILIKE.
Proof. intros v p. unfold plainILIKE. apply likesB_spec. lia. Qed.

Lemma like_means_witness :
  LikeLaws eq plainILIKE /\ plainILIKE "ACMExWAN" (likePattern "ACME_WAN") = false /\
  (plainILIKE "the ACME_WAN-3 port" (likePattern "ACME_WAN") = true <->
   shaped eq [[]; to_bytes "ACME_WAN"; []] (to_bytes "the ACME_WAN-3 port")).
Proof.
  split; [exact plainLike|]. split; [by vm_compute|]. exact (@like_means eq plainILIKE plainLike "ACME_WAN" "the ACME_WAN-3 port").
Defined.

Definition anInv : Inv := mkInv
  [mkInvDevice "d1" "edge" "10.0.0.1" "active" "edge" "" "s1" [] [] "" 0]
  [mkIface "i1" "d1" 1 "ge-0/0/0" "ACME-WAN-01" "uplink" None [] "present";
   mkIface "i2" "d1" 2 "ge-0/0/1" "ACME-WAN-02" "uplink" (Some "Globex Ltd") [] "present"] [].
Definition aRule (customer : string) : MatchRule := mkMatchRule [] "alias" "like" "ACME-WAN" customer [] false false true.
Abbreviation demoAssign := (AssignByMatch (fun s => s) (fun s => s) (fun s => s) (fun a b => bool_decide (a = b)) plainILIKE (fun l => l)).
Definition customersOf (t : Inv) : list (option string) := map if_Customer (in_ifaces t).

Example assign_demo : customersOf (demoAssign (aRule "Acme Ltd") anInv).2 = [Some "Acme Ltd"; Some "Globex Ltd"].
Proof. by vm_compute. Qed.

Lemma assign_exact_witness :
  NoDup (map if_ID (in_ifaces anInv)) /\
  in_devices (demoAssign (aRule "Acme Ltd") anInv).2 = in_devices anInv /\
  exists took, (forall i, i ∈ took <-> i ∈ in_ifaces anInv /\
    taken_by (fun s => s) (fun s => s) (fun a b => bool_decide (a = b)) plainILIKE (aRule "Acme Ltd") anInv i) /\
    mr_Updated (demoAssign (aRule "Acme Ltd") anInv).1.1 = len took.
Proof.
  assert (NoDup (map if_ID (in_ifaces anInv))) as Hn by decide_by_compute. split; [exact Hn|].
  pose proof (assign_exact (fun s => s) (fun s => s) (fun s => s) (fun a b => bool_decide (a = b)) plainILIKE (fun l => l)
    (fun l => Permutation_refl l) (aRule "Acme Ltd") anInv Hn) as H.
  assert (ruleClauses (fun s => s) (fun s => s) (aRule "Acme Ltd") = inl [mkClause [ColAlias] true 1 "%ACME-WAN%"]) as E by (by vm_compute).
  rewrite E in H. destruct (demoAssign (aRule "Acme Ltd") anInv) as [[res err] t']. destruct H as (_ & Hd & _ & _ & took & _ & Ht & Hu).
  split; [exact Hd|]. exists took. by split.
Defined.

(** A rule whose customer is a blank is not refused, and not kept from what
    others hold: it writes the blank everywhere. *)
Lemma blank_takes_all : customersOf (demoAssign (aRule " ") anInv).2 = [Some " "; Some " "].
Proof. by vm_compute. Qed.

(** What is compared is the trimmed name, what is written is not: the token
    that clears, with a blank beside it, becomes a customer. *)
Lemma clear_untrimmed : customersOf (demoAssign (aRule "- ") anInv).2 = [Some "- "; Some "- "].
Proof. by vm_compute. Qed.
