(* ===== verification/Duplicates.v ===== *)
(** Package inventory/adapters/postgres (duplicates.go): devices that look
    like one device, and what folding one into another does.

    The tables are those of Circuits.v, without the columns of times. [lower],
    the order of the rows and the date are parameters, and so is which of the
    statements of a merge fail, and how: a statement that fails ends the
    transaction, and what was done in it is undone. *)
From Stdlib Require Import ZArith Lia.
From stdpp Require Import base list gmap strings pretty numbers sorting.
From S2P Require Import Prelude GoText GoSort NetipParse World Errx Circuits.

Record DuplicateGroup : Type := mkDuplicateGroup { dg_Match : string; dg_Value : string; dg_Devices : list InvDevice }.
Record MergeResult : Type := mkMergeResult {
  me_KeptID : string; me_KeptName : string; me_RetiredID : string; me_RetiredName : string; me_AltAddresses : list string;
  me_TagsAdded : list string; me_MetricsMoved : bool; me_HistoryMoved : bool
}.

Definition liveDevice (d : InvDevice) : Prop := iv_Status d <> "retired".
#[export] Instance liveDevice_dec d : Decision (liveDevice d).
Proof. unfold liveDevice. apply _. Defined.
Definition liveDevices (t : Inv) : list InvDevice := filter liveDevice (in_devices t).

Definition older (a b : InvDevice) : Prop := iv_Created a <= iv_Created b.
#[export] Instance older_dec a b : Decision (older a b).
Proof. unfold older. apply _. Defined.

(** A row of the query: what ties the device to others, and the device. *)
Abbreviation DupRow := (string * string * InvDevice)%type.

Section duplicates.
Context (lower : string -> string) (order : list DupRow -> list DupRow).

Definition bySerial (t : Inv) : list InvDevice :=
  filter (fun d => iv_Serial d <> "" /\ 1 < len (filter (fun d' => iv_Serial d' = iv_Serial d) (liveDevices t))) (liveDevices t).
Definition bySysName (t : Inv) : list InvDevice :=
  filter (fun d => iv_SysName d <> ""
      /\ 1 < len (filter (fun d' => iv_SysName d' <> "" /\ lower (iv_SysName d') = lower (iv_SysName d)) (liveDevices t))
      /\ iv_ID d ∉ map iv_ID (bySerial t))
    (liveDevices t).
Definition dupRows (t : Inv) : list DupRow :=
  order (map (fun d => ("serial", iv_Serial d, d)) (bySerial t) ++ map (fun d => ("sys_name", lower (iv_SysName d), d)) (bySysName t)).

(** [cur] is the last group of [out]. *)
Definition groupStep (out : list DuplicateGroup) (r : DupRow) : list DuplicateGroup :=
  let '(match_, value, d) := r in
  match last out with
  | Some cur =>
      if bool_decide (dg_Match cur <> match_) || bool_decide (dg_Value cur <> value) then out ++ [mkDuplicateGroup match_ value [d]]
      else removelast out ++ [mkDuplicateGroup (dg_Match cur) (dg_Value cur) (dg_Devices cur ++ [d])]
  | None => out ++ [mkDuplicateGroup match_ value [d]]
  end.
Definition Duplicates (t : Inv) : list DuplicateGroup := foldl groupStep [] (dupRows t).

(** [ORDER BY created_at LIMIT 1]. *)
Definition oldest (l : list InvDevice) : option InvDevice := head (merge_sort older l).

Definition MatchByIdentity (t : Inv) (sysName serial : string) : option (InvDevice * string) :=
  if negb (bool_decide (serial = "")) then
    d ← oldest (filter (fun d => iv_Serial d = serial) (liveDevices t)); Some (d, "serial")
  else if negb (bool_decide (sysName = "")) then
    d ← oldest (filter (fun d => lower (iv_SysName d) = lower sysName) (liveDevices t)); Some (d, "sys_name")
  else None.
End duplicates.

(** ** Merging *)

Definition updateDevice (id : string) (f : InvDevice -> InvDevice) (t : Inv) : Inv :=
  t <| in_devices := map (fun d => if decide (iv_ID d = id) then f d else d) (in_devices t) |>.
Definition deviceOf (id : string) (t : Inv) : option InvDevice := head (filter (fun d => iv_ID d = id) (in_devices t)).

(** An address beside those there are, once. *)
Definition withAlt (addr : string) (d : InvDevice) : InvDevice :=
  if decide (addr ∈ iv_Alt d) then d else d <| iv_Alt := iv_Alt d ++ [addr] |>.

Definition AddAltAddress (deviceID addr : string) (t : Inv) : (list string + Err) * Inv :=
  match head (filter (fun d => iv_ID d = deviceID /\ liveDevice d) (in_devices t)) with
  | None => (inr (New KindNotFound "device not found"), t)
  | Some d => (inl (iv_Alt (withAlt addr d)), updateDevice deviceID (fun d => if decide (liveDevice d) then withAlt addr d else d) t)
  end.

Definition newline : byte := zb 10.
Definition trimNewlines (s : string) : string :=
  let nl := fun c => bool_decide (c = newline) in
  of_bytes (reverse (drop_while nl (reverse (drop_while nl (to_bytes s))))).

Section merge.
Context (today : string) (distinct : list string -> list string).

Definition retire (keptName : string) (d : InvDevice) : InvDevice :=
  d <| iv_Status := "retired" |>
    <| iv_Notes := trimNewlines (iv_Notes d +:+ of_bytes [newline] +:+ "Merged into " +:+ keptName +:+ " on " +:+ today) |>.
Definition stopPolling (dupID : string) (t : Inv) : Inv :=
  t <| in_schedules := map (fun s => if decide (s.1 = dupID) then (s.1, false) else s) (in_schedules t) |>.

(** The statements of a merge, in the order they are made, and what each does
    when the database refuses it. *)
Inductive Statement : Type :=
  Begin | LoadSurvivor | LoadDuplicate | RecordAddress (nth : nat) | MergeTags | RetireDuplicate | DisableSchedules | Commit.
Context (refused : Statement -> option Err).

(** A function of the tables inside the transaction. *)
Abbreviation Tx A := (Inv -> (A + Err) * Inv).
Definition attempt {A} (s : Statement) (msg : string) (run : Tx A) : Tx A := fun t =>
  match refused s with Some e => (inr (kindError KindTransient (ErrWrap msg e)), t) | None => run t end.
Definition bindTx {A B} (m : Tx A) (f : A -> Tx B) : Tx B := fun t =>
  match m t with (inl x, t) => f x t | (inr e, t) => (inr e, t) end.
#[local] Notation "'let*' x := m 'in' f" := (bindTx m (fun x => f)) (at level 10, x pattern, m at level 100, f at level 200).

(** [InTx]: what the function did is kept when it returned no error and the
    commit went through. *)
Definition InTx {A} (fn : Tx A) : Tx A := fun t =>
  match refused Begin with
  | Some e => (inr (kindError KindTransient (ErrWrap "pgx: begin" e)), t)
  | None =>
      match fn t with
      | (inr e, _) => (inr e, t)
      | (inl x, t') =>
          match refused Commit with
          | Some e => (inr (kindError KindTransient (ErrWrap "pgx: commit" e)), t)
          | None => (inl x, t')
          end
      end
  end.

Definition readRow {A} (read : Inv -> option A) (missing : Err) : Tx A := fun t =>
  match read t with Some x => (inl x, t) | None => (inr missing, t) end.
Definition addAltAddressTx (i : nat) (keepID a : string) : Tx (list string) :=
  attempt (RecordAddress i) "record alternate address" (fun t =>
    let t := updateDevice keepID (withAlt a) t in
    (inl (match deviceOf keepID t with Some d => iv_Alt d | None => [] end), t)).
(** The loop over the addresses; what the last one returned. *)
Fixpoint addAddresses (i : nat) (keepID : string) (got addrs : list string) : Tx (list string) :=
  match addrs with
  | [] => fun t => (inl got, t)
  | a :: addrs => let* got := addAltAddressTx i keepID a in addAddresses (S i) keepID got addrs
  end.
(** [jsonb_agg(DISTINCT)]: [distinct] is the order it gives the tags. *)
Definition mergeTags (keepID : string) (dupTags : list string) : Tx (list string) :=
  if bool_decide (dupTags = []) then fun t => (inl [], t) else
  attempt MergeTags "merge tags" (fun t =>
    let t := updateDevice keepID (fun d => d <| iv_Tags := distinct (iv_Tags d ++ dupTags) |>) t in
    (inl (match deviceOf keepID t with Some d => iv_Tags d | None => [] end), t)).

Definition mergeTx (keepID dupID : string) : Tx MergeResult :=
  let* keptName := attempt LoadSurvivor "load survivor"
    (readRow (fun t => iv_Name <$> head (filter (fun d => iv_ID d = keepID /\ liveDevice d) (in_devices t)))
       (New KindNotFound "the device to keep was not found")) in
  let* dup := attempt LoadDuplicate "load duplicate" (readRow (deviceOf dupID) (New KindNotFound "the duplicate was not found")) in
  if bool_decide (iv_Status dup = "retired") then fun t => (inr (New KindConflict "that device is already retired"), t) else
  let* alts := addAddresses 0 keepID [] (iv_IP dup :: iv_Alt dup) in
  let* added := mergeTags keepID (iv_Tags dup) in
  let* _ := attempt RetireDuplicate "retire duplicate" (fun t => (inl tt, updateDevice dupID (retire keptName) t)) in
  let* _ := attempt DisableSchedules "disable duplicate schedules" (fun t => (inl tt, stopPolling dupID t)) in
  fun t => (inl (mkMergeResult keepID keptName dupID (iv_Name dup) alts added false false), t).

Definition Merge (keepID dupID : string) : Tx MergeResult :=
  if bool_decide (keepID = dupID) then fun t => (inr (New KindInvalid "a device cannot be merged into itself"), t)
  else InTx (mergeTx keepID dupID).
End merge.

(** * Properties *)

(** ** Groups *)

Section groups.
Context (lower : string -> string) (order : list DupRow -> list DupRow).

Definition rowKey (r : DupRow) : string * string := (r.1.1, r.1.2).
Definition groupKey (g : DuplicateGroup) : string * string := (dg_Match g, dg_Value g).
Definition groupRows (g : DuplicateGroup) : list DupRow := map (fun d => (dg_Match g, dg_Value g, d)) (dg_Devices g).

(** Rows in the order of their keys: those of a key are together. *)
Fixpoint together (l : list DupRow) : Prop :=
  match l with
  | [] => True
  | r :: l => together l /\ match l with [] => True | r' :: _ => rowKey r = rowKey r' \/ rowKey r ∉ map rowKey l end
  end.
Class OrderLaws : Prop := { order_perm : forall l, order l ≡ₚ l; order_together : forall l, together (order l) }.

Lemma together_snoc l r : together (l ++ [r]) -> together l /\ (rowKey r ∈ map rowKey l -> option_map rowKey (last l) = Some (rowKey r)).
Proof.
  induction l as [|x l IH]; [by split; [|intros ?%elem_of_nil]|]. cbn [app together]. intros [Ht Hx].
  destruct (IH Ht) as [H1 H2]. destruct l as [|y l].
  - split; [done|]. cbn in *. intros [E|E]%elem_of_cons; [by rewrite E|by apply elem_of_nil in E].
  - split; [split; [done|]|].
    + cbn [app] in Hx. destruct Hx as [Hx|Hx]; [by left|right]. intros Hin. apply Hx.
      change (y :: l ++ [r]) with ((y :: l) ++ [r]). rewrite map_app. apply elem_of_app. by left.
    + intros [E|E]%elem_of_cons; [|by apply H2]. cbn [app] in Hx. rewrite last_cons_cons.
      destruct Hx as [Hx|Hx]; [apply H2; rewrite E, Hx; by left|]. destruct Hx.
      change (y :: l ++ [r]) with ((y :: l) ++ [r]). rewrite map_app. apply elem_of_app. right. rewrite <- E. by left.
Qed.

(** The groups of rows that are together. *)
Record grouped (rows : list DupRow) (out : list DuplicateGroup) : Prop := mkGrouped {
  gr_rows : concat (map groupRows out) = rows;
  gr_keys : NoDup (map groupKey out);
  gr_last : option_map groupKey (last out) = option_map rowKey (last rows);
  gr_some : Forall (fun g => dg_Devices g <> []) out
}.

Lemma removelast_last {A} (l : list A) x : last l = Some x -> l = removelast l ++ [x].
Proof. intros H. apply last_Some in H as [l' ->]. by rewrite removelast_last. Qed.

Lemma groupStep_grouped rows out r : together (rows ++ [r]) -> grouped rows out -> grouped (rows ++ [r]) (groupStep out r).
Proof.
  intros Ht [Hr Hk Hl Hs]. destruct (together_snoc _ _ Ht) as [_ Htk]. destruct r as [[m v] d].
  assert (forall g, g ∈ out -> groupKey g ∈ map rowKey rows) as Hin.
  { intros g Hg. rewrite <- Hr. rewrite Forall_forall in Hs. specialize (Hs g Hg). destruct (dg_Devices g) as [|x xs] eqn:E; [done|].
    apply list_elem_of_fmap. exists (dg_Match g, dg_Value g, x). split; [done|]. apply list_elem_of_In, in_concat. exists (groupRows g).
    split; [by apply in_map, list_elem_of_In|]. apply list_elem_of_In. unfold groupRows. rewrite E. by left. }
  assert (grouped (rows ++ [(m, v, d)]) (out ++ [mkDuplicateGroup m v [d]]) \/ groupKey <$> last out = Some (m, v)) as Hnew.
  { destruct (decide ((m, v) ∈ map rowKey rows)) as [Hi|Hi]; [right; etrans; [exact Hl|exact (Htk Hi)]|left]. split.
    - rewrite map_app, concat_app, Hr. done.
    - rewrite map_app. apply NoDup_app. split; [done|]. split; [|apply NoDup_singleton].
      intros k (g & -> & Hg)%list_elem_of_fmap [E|E]%elem_of_cons; [|by apply elem_of_nil in E]. apply Hi.
      replace (m, v) with (groupKey g) by exact E. by apply Hin.
    - by rewrite !last_snoc.
    - apply Forall_app. split; [done|]. by constructor. }
  cbn [groupStep]. destruct (last out) as [cur|] eqn:El.
  - destruct (_ || _) eqn:Ec.
    + destruct Hnew as [Hn|Hn]; [done|]. cbn in Hn. injection Hn as Em Ev. rewrite Em, Ev, !bool_decide_false in Ec by naive_solver. done.
    + apply orb_false_iff in Ec as [Em%bool_decide_eq_false Ev%bool_decide_eq_false]. apply dec_stable in Em, Ev.
      apply removelast_last in El. rewrite El in Hr, Hk, Hs. set (out' := removelast out) in *. rewrite map_app, concat_app in Hr. rewrite map_app in Hk.
      apply Forall_app in Hs as [Hs _]. split.
      * rewrite map_app, concat_app, <- Hr. cbn. rewrite !app_nil_r, <- app_assoc. f_equal. unfold groupRows. cbn. rewrite map_app. cbn. by rewrite Em, Ev.
      * rewrite map_app. exact Hk.
      * rewrite !last_snoc. cbn. unfold groupKey, rowKey. cbn. by rewrite Em, Ev.
      * apply Forall_app. split; [done|]. constructor; [|constructor]. cbn. by destruct (dg_Devices cur).
  - destruct Hnew as [Hn|Hn]; [done|]. by cbn in Hn.
Qed.

Lemma Duplicates_grouped `{!OrderLaws} t : grouped (dupRows lower order t) (Duplicates lower order t).
Proof.
  unfold Duplicates. pose proof (order_together (map (fun d => ("serial", iv_Serial d, d)) (bySerial t) ++ map (fun d => ("sys_name", lower (iv_SysName d), d)) (bySysName lower t))) as Ht.
  fold (dupRows lower order t) in Ht. induction (dupRows lower order t) as [|r rows IH] using rev_ind; [by split; try constructor|].
  rewrite foldl_app. cbn [foldl]. destruct (together_snoc _ _ Ht) as [Ht' _]. by apply groupStep_grouped, IH.
Qed.

Lemma NoDup_map_filter {A B} (f : A -> B) (P : A -> Prop) `{forall x, Decision (P x)} l : NoDup (map f l) -> NoDup (map f (filter P l)).
Proof.
  induction l as [|x l IH]; [done|]. intros [Hx Hn]%NoDup_cons. rewrite filter_cons. case_decide; [|by apply IH].
  apply NoDup_cons. split; [|by apply IH]. intros (y & E & [_ Hy]%list_elem_of_filter)%list_elem_of_fmap. apply Hx. rewrite E. by apply list_elem_of_fmap_2.
Qed.

Lemma len_two {A} (l : list A) a b : a ∈ l -> b ∈ l -> a <> b -> 1 < len l.
Proof.
  intros Ha Hb Hne. destruct l as [|x [|y l]]; [by apply elem_of_nil in Ha| |rewrite !len_cons; pose_len l; lia].
  apply list_elem_of_singleton in Ha, Hb. congruence.
Qed.

(** The devices that look like one: the groups are of different keys, each
    of live devices that report its serial number or its name; a device is in
    one group at most; and two live devices of one serial number are in the
    group of that number. *)
Theorem duplicates_exact `{!OrderLaws} t : NoDup (map iv_ID (in_devices t)) ->
  let gs := Duplicates lower order t in
  NoDup (map groupKey gs) /\ NoDup (map iv_ID (concat (map dg_Devices gs))) /\
  (forall g d, g ∈ gs -> d ∈ dg_Devices g -> liveDevice d /\
     (dg_Match g = "serial" /\ dg_Value g = iv_Serial d \/ dg_Match g = "sys_name" /\ dg_Value g = lower (iv_SysName d))) /\
  (forall a b, a ∈ liveDevices t -> b ∈ liveDevices t -> a <> b -> iv_Serial a = iv_Serial b -> iv_Serial a <> "" ->
     exists g, g ∈ gs /\ dg_Match g = "serial" /\ dg_Value g = iv_Serial a /\ a ∈ dg_Devices g /\ b ∈ dg_Devices g).
Proof.
  intros Hn gs. destruct (Duplicates_grouped t) as [Hr Hk _ _]. fold gs in Hr, Hk.
  assert (forall r, r ∈ dupRows lower order t <-> r.2 ∈ bySerial t /\ r.1 = ("serial", iv_Serial r.2) \/ r.2 ∈ bySysName lower t /\ r.1 = ("sys_name", lower (iv_SysName r.2))) as Hrows.
  { intros [k d]. unfold dupRows. rewrite order_perm, elem_of_app, !list_elem_of_fmap. cbn. split.
    - intros [(d' & [= -> ->] & Hd)|(d' & [= -> ->] & Hd)]; [by left|by right].
    - intros [[Hd ->]|[Hd ->]]; [left|right]; by exists d. }
  assert (forall g d, g ∈ gs -> d ∈ dg_Devices g -> (dg_Match g, dg_Value g, d) ∈ dupRows lower order t) as Hg.
  { intros g d Hgs Hd. rewrite <- Hr. apply list_elem_of_In, in_concat. exists (groupRows g). split; [by apply in_map, list_elem_of_In|].
    apply list_elem_of_In, list_elem_of_fmap. by exists d. }
  assert (NoDup (map iv_ID (map snd (dupRows lower order t)))) as Hnd.
  { unfold dupRows. rewrite order_perm, !map_app, !map_map. cbn. apply NoDup_app.
    assert (forall (P : InvDevice -> Prop) (dec : forall d, Decision (P d)) l, NoDup (map iv_ID l) -> NoDup (map iv_ID (filter P l))) as Hf.
    { intros P dec l Hl. by apply NoDup_map_filter. }
    split; [by apply Hf, Hf|]. split; [|by apply Hf, Hf]. intros x Hx (d & -> & Hd)%list_elem_of_fmap.
    apply list_elem_of_filter in Hd as [(_ & _ & Hd) _]. done. }
  split; [done|]. split; [|split].
  - replace (concat (map dg_Devices gs)) with (map snd (dupRows lower order t)); [done|]. rewrite <- Hr, concat_map, map_map. f_equal.
    apply map_ext. intros g. unfold groupRows. rewrite map_map. cbn. apply map_id.
  - intros g d Hgs Hd. specialize (Hg g d Hgs Hd). apply Hrows in Hg. cbn in Hg. destruct Hg as [[Hd' [= -> ->]]|[Hd' [= -> ->]]];
      apply list_elem_of_filter in Hd' as [_ [Hl _]%list_elem_of_filter]; auto.
  - intros a b Ha Hb Hne Es Hse. assert (forall d, d ∈ liveDevices t -> iv_Serial d = iv_Serial a -> d ∈ bySerial t) as Hser.
    { intros d Hd Ed. apply list_elem_of_filter. split; [|done]. split; [by rewrite Ed|].
      apply (len_two _ a b); [apply list_elem_of_filter; split; [by rewrite Ed|done]..|done]. }
    assert (forall d, d ∈ liveDevices t -> iv_Serial d = iv_Serial a -> exists g, g ∈ gs /\ groupKey g = ("serial", iv_Serial a) /\ d ∈ dg_Devices g) as Hgr.
    { intros d Hd Ed. assert (("serial", iv_Serial d, d) ∈ dupRows lower order t) as Hin by (apply Hrows; left; split; [by apply Hser|done]).
      rewrite <- Hr in Hin. apply list_elem_of_In, in_concat in Hin as (l & (g & <- & Hgs)%in_map_iff & Hin).
      apply list_elem_of_In, list_elem_of_fmap in Hin as (d' & [= Em Ev <-] & Hin). exists g. split; [by apply list_elem_of_In|].
      split; [|done]. unfold groupKey. by rewrite <- Em, <- Ev, Ed. }
    destruct (Hgr a Ha eq_refl) as (g & Hgs & Ek & Hag), (Hgr b Hb (eq_sym Es)) as (g' & Hgs' & Ek' & Hbg).
    assert (g' = g) as -> by (eapply (NoDup_map_inj groupKey); [exact Hk|done|done|congruence]).
    exists g. unfold groupKey in Ek. injection Ek as -> ->. done.
Qed.
End groups.

(** ** Merging *)

Section merge_facts.
Context (today : string) (distinct : list string -> list string).
Context (refused : Statement -> option Err).
Hypothesis distinct_elem : forall l x, x ∈ distinct l <-> x ∈ l.

Lemma withAlt_other a d : iv_ID (withAlt a d) = iv_ID d /\ iv_Status (withAlt a d) = iv_Status d /\ iv_Tags (withAlt a d) = iv_Tags d.
Proof. unfold withAlt. by case_decide. Qed.
Lemma withAlt_elem a d x : x ∈ iv_Alt (withAlt a d) <-> x ∈ iv_Alt d \/ x = a.
Proof. unfold withAlt. case_decide as Ha; [|cbn; set_solver]. split; [by left|]. by intros [?| ->]. Qed.

Definition withAlts (addrs : list string) (d : InvDevice) : InvDevice := foldl (fun d a => withAlt a d) d addrs.
#[local] Arguments withAlts : simpl never.
Lemma withAlts_other addrs d : iv_ID (withAlts addrs d) = iv_ID d /\ iv_Status (withAlts addrs d) = iv_Status d /\ iv_Tags (withAlts addrs d) = iv_Tags d.
Proof.
  revert d. induction addrs as [|a addrs IH]; intros d; [done|].
  change (withAlts (a :: addrs) d) with (withAlts addrs (withAlt a d)). destruct (IH (withAlt a d)) as (-> & -> & ->). apply withAlt_other.
Qed.
Lemma withAlts_elem addrs d x : x ∈ iv_Alt (withAlts addrs d) <-> x ∈ iv_Alt d \/ x ∈ addrs.
Proof.
  revert d. induction addrs as [|a addrs IH]; intros d; [cbn; set_solver|].
  change (withAlts (a :: addrs) d) with (withAlts addrs (withAlt a d)). rewrite IH, withAlt_elem. set_solver.
Qed.

Lemma updateDevice_twice id f g t : (forall d, iv_ID (f d) = iv_ID d) -> updateDevice id g (updateDevice id f t) = updateDevice id (fun d => g (f d)) t.
Proof.
  intros Hf. unfold updateDevice. destruct t. cbn. f_equal. rewrite map_map. apply map_ext. intros d.
  destruct (decide (iv_ID d = id)) as [E|E]; [|by rewrite decide_False]. by rewrite decide_True by (by rewrite Hf).
Qed.
Lemma addresses_recorded id addrs t : foldl (fun t a => updateDevice id (withAlt a) t) t addrs = updateDevice id (withAlts addrs) t.
Proof.
  revert t. induction addrs as [|a addrs IH]; intros t; cbn [foldl].
  { unfold updateDevice, withAlts. destruct t as [ds is_ ss]. cbn. f_equal. rewrite <- (map_id ds) at 1. apply map_ext. intros d. by case_decide. }
  rewrite IH, updateDevice_twice; [done|]. intros d. apply withAlt_other.
Qed.

Lemma head_filter_spec {A} (P : A -> Prop) `{forall x, Decision (P x)} l x : head (filter P l) = Some x -> x ∈ l /\ P x.
Proof.
  intros E. apply head_Some in E as [l' E]. assert (x ∈ filter P l) as Hx by (rewrite E; by left).
  apply list_elem_of_filter in Hx as [? ?]. done.
Qed.

(** A statement of the transaction, when it does what it does. *)
Abbreviation InTx := (InTx refused).
Abbreviation mergeTx := (mergeTx today distinct refused).
Abbreviation addAddresses := (addAddresses refused).
Abbreviation Merge := (Merge today distinct refused).

Lemma deviceOf_update id f t : (forall d, iv_ID (f d) = iv_ID d) -> deviceOf id (updateDevice id f t) = f <$> deviceOf id t.
Proof.
  intros Hf. unfold deviceOf, updateDevice. destruct t as [ds is_ ss]. cbn. induction ds as [|d ds IH]; [done|]. cbn [map]. rewrite !filter_cons.
  destruct (decide (iv_ID d = id)) as [E|E]; rewrite ?Hf.
  - by rewrite !decide_True by done.
  - rewrite !decide_False by done. exact IH.
Qed.
Lemma addAddresses_ok addrs : forall i id got t alts t', addAddresses i id got addrs t = (inl alts, t') ->
  t' = updateDevice id (withAlts addrs) t /\ alts = (if decide (addrs = []) then got else match deviceOf id t' with Some d => iv_Alt d | None => [] end).
Proof.
  induction addrs as [|a addrs IH]; intros i id got t alts t'; cbn [Duplicates.addAddresses].
  { intros [= <- <-]. split; [|done]. unfold updateDevice, withAlts. destruct t as [ds is_ ss]. cbn. f_equal. rewrite <- (map_id ds) at 1.
    apply map_ext. intros d. by case_decide. }
  unfold bindTx, addAltAddressTx, attempt. destruct (refused _); [done|]. intros [Ht Ha]%IH.
  rewrite updateDevice_twice in Ht by (intros; apply withAlt_other). split; [exact Ht|]. rewrite Ha, (decide_False (P := a :: addrs = [])) by done.
  case_decide as Hnil; [|done]. subst addrs. by rewrite Ht.
Qed.
Lemma addAddresses_fails addrs : forall i id got t e t', addAddresses i id got addrs t = (inr e, t') -> exists s, refused s <> None.
Proof.
  induction addrs as [|a addrs IH]; intros i id got t e t'; cbn [Duplicates.addAddresses]; [done|].
  unfold bindTx, addAltAddressTx, attempt. destruct (refused _) eqn:E; [intros _; by eexists; rewrite E|]. apply IH.
Qed.
Lemma InTx_spec {A} (fn : Inv -> (A + Err) * Inv) t :
  match InTx fn t with
  | (inl x, t') => fn t = (inl x, t') /\ refused Begin = None /\ refused Commit = None
  | (inr e, t') => t' = t /\ ((exists s, refused s <> None) \/ exists t', fn t = (inr e, t'))
  end.
Proof.
  unfold Duplicates.InTx. destruct (refused Begin) eqn:Eb; [split; [done|left; exists Begin; by rewrite Eb]|].
  destruct (fn t) as [[x|e] t'] eqn:E; [|split; [done|right; by exists t']].
  destruct (refused Commit) eqn:Ec; [split; [done|left; exists Commit; by rewrite Ec]|done].
Qed.

(** Why a merge may be refused by what is in the tables. *)
Definition unfit (keepID dupID : string) (t : Inv) : Prop :=
  (forall d, d ∈ in_devices t -> iv_ID d = keepID -> iv_Status d = "retired") \/
  (forall d, d ∈ in_devices t -> iv_ID d <> dupID) \/
  (exists d, d ∈ in_devices t /\ iv_ID d = dupID /\ iv_Status d = "retired").

Definition survivor (dup keep : InvDevice) : InvDevice :=
  (withAlts (iv_IP dup :: iv_Alt dup) keep) <| iv_Tags := if decide (iv_Tags dup = []) then iv_Tags keep else distinct (iv_Tags keep ++ iv_Tags dup) |>.

Lemma head_filter_none {A} (P : A -> Prop) `{forall x, Decision (P x)} l : head (filter P l) = None -> forall x, x ∈ l -> ~ P x.
Proof. intros E x Hx HP. assert (x ∈ filter P l) as Hin by (by apply list_elem_of_filter). destruct (filter P l); [by apply elem_of_nil in Hin|done]. Qed.

(** What the transaction does, when each statement is done. *)
Lemma mergeTx_ok keepID dupID t res t' : mergeTx keepID dupID t = (inl res, t') ->
  exists keep dup, head (filter (fun d => iv_ID d = keepID /\ liveDevice d) (in_devices t)) = Some keep /\ deviceOf dupID t = Some dup /\
    liveDevice dup /\ me_KeptName res = iv_Name keep /\ me_RetiredName res = iv_Name dup /\
    t' = stopPolling dupID (updateDevice dupID (retire today (iv_Name keep)) (updateDevice keepID (survivor dup) t)).
Proof.
  unfold Duplicates.mergeTx, bindTx at 1. unfold attempt at 1, readRow at 1. destruct (refused LoadSurvivor); [done|].
  destruct (head _) as [keep|] eqn:Ek; [|done]. cbn [fmap option_fmap option_map]. unfold bindTx at 1, attempt at 1, readRow at 1.
  destruct (refused LoadDuplicate); [done|]. destruct (deviceOf dupID t) as [dup|] eqn:Ed; [|done]. case_bool_decide as Hs; [done|].
  unfold bindTx at 1. destruct (addAddresses _ _ _ _ t) as [[alts|e] t1] eqn:Ea; [|done]. apply addAddresses_ok in Ea as [-> _].
  unfold bindTx at 1, mergeTags. set (addrs := iv_IP dup :: iv_Alt dup).
  assert (forall d, iv_ID (withAlts addrs d) = iv_ID d) as Hid by (intros; apply withAlts_other).
  assert (forall d, iv_Tags (withAlts addrs d) = iv_Tags d) as Htags by (intros; apply withAlts_other).
  intros Hm. exists keep, dup. do 3 (split; [done|]). revert Hm.
  assert (forall (f : InvDevice -> InvDevice) t2, (forall d, f d = survivor dup d) -> updateDevice keepID f t2 = updateDevice keepID (survivor dup) t2) as Hext.
  { intros f t2 Hf. unfold updateDevice. destruct t2. cbn. f_equal. apply map_ext. intros d. case_decide; [apply Hf|done]. }
  case_bool_decide as Ht.
  - unfold bindTx, attempt. destruct (refused RetireDuplicate); [done|]. destruct (refused DisableSchedules); [done|]. intros [= <- <-].
    split_and!; [done..|]. do 2 f_equal. apply Hext. intros d. unfold survivor. rewrite decide_True by done.
    rewrite <- (Htags d). fold addrs. generalize (withAlts addrs d). by intros [].
  - unfold attempt at 1. destruct (refused MergeTags); [done|]. unfold bindTx, attempt. destruct (refused RetireDuplicate); [done|].
    destruct (refused DisableSchedules); [done|]. intros [= <- <-]. split_and!; [done..|]. rewrite updateDevice_twice by done. do 2 f_equal.
    apply Hext. intros d. unfold survivor. rewrite decide_False by done. by rewrite Htags.
Qed.
Lemma mergeTx_fails keepID dupID t e t' : mergeTx keepID dupID t = (inr e, t') -> unfit keepID dupID t \/ exists s, refused s <> None.
Proof.
  assert (forall s x, refused s = Some x -> unfit keepID dupID t \/ exists s, refused s <> None) as Hr by (intros s x E; right; exists s; by rewrite E).
  unfold Duplicates.mergeTx, bindTx at 1. unfold attempt at 1, readRow at 1. destruct (refused LoadSurvivor) eqn:E1; [intros _; by eapply Hr|].
  destruct (head _) as [keep|] eqn:Ek; cbn [fmap option_fmap option_map].
  2: { intros _. left. left. intros d Hd Ed. destruct (decide (iv_Status d = "retired")) as [|Hd']; [done|]. by destruct (head_filter_none _ _ Ek d Hd). }
  unfold bindTx at 1, attempt at 1, readRow at 1. destruct (refused LoadDuplicate) eqn:E2; [intros _; by eapply Hr|].
  destruct (deviceOf dupID t) as [dup|] eqn:Ed.
  2: { intros _. left. right. left. intros d Hd. exact (head_filter_none _ _ Ed d Hd). }
  apply head_filter_spec in Ed as [Hd Ed]. case_bool_decide as Hs; [intros _; left; right; right; by exists dup|].
  unfold bindTx at 1. destruct (addAddresses _ _ _ _ t) as [[alts|e'] t1] eqn:Ea; [|intros _; right; by eapply addAddresses_fails].
  unfold bindTx at 1, mergeTags, attempt at 1. case_bool_decide; [|destruct (refused MergeTags) eqn:E3; [intros _; by eapply Hr|]];
    unfold bindTx, attempt; (destruct (refused RetireDuplicate) eqn:E4; [intros _; by eapply Hr|]);
    (destruct (refused DisableSchedules) eqn:E5; [intros _; by eapply Hr|]); done.
Qed.

(** The addresses there were stay first, and nothing else of the device is
    touched. *)
Lemma withAlts_only addrs d : exists more, withAlts addrs d = d <| iv_Alt := iv_Alt d ++ more |>.
Proof.
  revert d. induction addrs as [|a addrs IH]; intros d; [exists []; destruct d; cbn; by rewrite app_nil_r|].
  change (withAlts (a :: addrs) d) with (withAlts addrs (withAlt a d)). destruct (IH (withAlt a d)) as [more ->]. unfold withAlt.
  case_decide; [by exists more|]. exists (a :: more). destruct d. cbn. by rewrite <- app_assoc.
Qed.
Lemma survivor_only dup keep : exists more tags, survivor dup keep = keep <| iv_Alt := iv_Alt keep ++ more |> <| iv_Tags := tags |> /\
  (forall a, a ∈ iv_Alt keep ++ more <-> a ∈ iv_Alt keep \/ a = iv_IP dup \/ a ∈ iv_Alt dup) /\
  (forall x, x ∈ tags <-> x ∈ iv_Tags keep \/ x ∈ iv_Tags dup).
Proof.
  unfold survivor. destruct (withAlts_only (iv_IP dup :: iv_Alt dup) keep) as [more E]. eexists more, _. rewrite E. split; [done|]. split.
  - intros a. pose proof (withAlts_elem (iv_IP dup :: iv_Alt dup) keep a) as Hw. rewrite E in Hw. cbn [iv_Alt set eta] in Hw. rewrite Hw. by rewrite elem_of_cons.
  - intros x. case_decide as Ht; [rewrite Ht; set_solver|]. by rewrite distinct_elem, elem_of_app.
Qed.

(** C36. What a merge does: when it succeeds, the device kept was live and is
    as it was but for its addresses, to which those the duplicate answered on
    are added at the end, and its tags, which are its own and the duplicate's;
    the duplicate is retired, with a note of it, and is as it was otherwise;
    its schedules are disabled, and no other device, schedule or interface is
    touched. It fails when the two are one, when one of them is not there or
    is retired, or when the database refuses a statement, whichever it is;
    then nothing at all is changed. *)
Theorem merge_exact keepID dupID t : NoDup (map iv_ID (in_devices t)) ->
  let '(r, t') := Merge keepID dupID t in
  match r with
  | inr _ => t' = t /\ (keepID = dupID \/ unfit keepID dupID t \/ exists s, refused s <> None)
  | inl res => exists keep dup more tags, keep ∈ in_devices t /\ dup ∈ in_devices t /\ iv_ID keep = keepID /\ iv_ID dup = dupID /\ keepID <> dupID /\
      iv_Status keep <> "retired" /\ iv_Status dup <> "retired" /\
      me_KeptName res = iv_Name keep /\ me_RetiredName res = iv_Name dup /\
      in_ifaces t' = in_ifaces t /\
      Forall2 (fun s s' => s' = (s.1, if decide (s.1 = dupID) then false else s.2)) (in_schedules t) (in_schedules t') /\
      (forall a, a ∈ iv_Alt keep ++ more <-> a ∈ iv_Alt keep \/ a = iv_IP dup \/ a ∈ iv_Alt dup) /\
      (forall x, x ∈ tags <-> x ∈ iv_Tags keep \/ x ∈ iv_Tags dup) /\
      Forall2 (fun d d' =>
        (d = keep -> d' = keep <| iv_Alt := iv_Alt keep ++ more |> <| iv_Tags := tags |>) /\
        (d = dup -> d' = dup <| iv_Status := "retired" |>
           <| iv_Notes := trimNewlines (iv_Notes dup +:+ of_bytes [zb 10] +:+ "Merged into " +:+ iv_Name keep +:+ " on " +:+ today) |>) /\
        (d <> keep -> d <> dup -> d' = d)) (in_devices t) (in_devices t')
  end.
Proof.
  intros Hn. unfold Duplicates.Merge. case_bool_decide as Hne; [by auto|].
  pose proof (InTx_spec (mergeTx keepID dupID) t) as Htx. destruct (InTx _ t) as [[res|e] t'].
  2: { destruct Htx as [-> [Hr|(t1 & E)]]; [by auto|]. apply mergeTx_fails in E. split; [done|]. by right. }
  destruct Htx as [(keep & dup & Ek & Ed & Hl & Hkn & Hrn & ->)%mergeTx_ok _].
  apply head_filter_spec in Ek as [Hk [Ek Hkl]]. apply head_filter_spec in Ed as [Hd Ed].
  destruct (survivor_only dup keep) as (more & tags & Es & Halt & Htag). exists keep, dup, more, tags. rewrite <- Es.
  assert (forall x d, x ∈ in_devices t -> d ∈ in_devices t -> iv_ID d = iv_ID x -> d = x) as Hinj by (intros x d ???; by apply (NoDup_map_inj iv_ID (in_devices t))).
  assert (forall d, iv_ID (survivor dup d) = iv_ID d) as Hf.
  { intros d. destruct (survivor_only dup d) as (? & ? & -> & _). done. }
  split_and!; try done.
  - apply Forall2_fmap_r, Forall2_same_length_lookup_2; [done|]. intros k [n b] s' H1 H2. cbn in H2. rewrite H1 in H2. injection H2 as <-. cbn. by case_decide.
  - cbn. rewrite map_map. apply Forall2_fmap_r, Forall2_same_length_lookup_2; [done|]. intros k d d' H1 H2. assert (d' = d) as -> by congruence.
    apply list_elem_of_lookup_2 in H1. cbn. destruct (decide (iv_ID d = keepID)) as [E|E].
    + rewrite Hf, decide_False by congruence. assert (d = keep) as -> by (apply Hinj; congruence). split_and!; [done|intros ->; congruence|done].
    + destruct (decide (iv_ID d = dupID)) as [E'|E'].
      * assert (d = dup) as -> by (apply Hinj; congruence). split_and!; [intros ->; congruence|done|done].
      * split_and!; [intros ->; congruence|intros ->; congruence|done].
Qed.
End merge_facts.

(** Approval at discovery: a candidate with a serial number is matched by
    that number or not at all, one without by its name; the match is a live
    device, and none is missed. *)
Theorem identity_by_serial lower t sysName serial :
  match MatchByIdentity lower t sysName serial with
  | Some (d, by_) => d ∈ liveDevices t /\ (by_ = "serial" /\ serial <> "" /\ iv_Serial d = serial \/
      by_ = "sys_name" /\ serial = "" /\ lower (iv_SysName d) = lower sysName)
  | None => serial <> "" /\ (forall d, d ∈ liveDevices t -> iv_Serial d <> serial) \/
      serial = "" /\ (sysName = "" \/ forall d, d ∈ liveDevices t -> lower (iv_SysName d) <> lower sysName)
  end.
Proof.
  assert (forall (P : InvDevice -> Prop) (dec : forall d, Decision (P d)),
    match oldest (filter P (liveDevices t)) with Some d => d ∈ liveDevices t /\ P d | None => forall d, d ∈ liveDevices t -> ~ P d end) as Ho.
  { intros P dec. unfold oldest. destruct (head _) as [d|] eqn:E.
    - apply head_Some in E as [l E]. assert (d ∈ filter P (liveDevices t)) as Hd by (rewrite <- (merge_sort_Permutation older), E; by left).
      apply list_elem_of_filter in Hd as [? ?]. done.
    - intros d Hd HP. assert (d ∈ merge_sort older (filter P (liveDevices t))) as Hin by (rewrite merge_sort_Permutation; by apply list_elem_of_filter).
      destruct (merge_sort _ _); [by apply elem_of_nil in Hin|done]. }
  unfold MatchByIdentity. case_bool_decide as Hs; cbn [negb].
  - case_bool_decide as Hn; cbn [negb]; [right; auto|]. specialize (Ho (fun d => lower (iv_SysName d) = lower sysName) _).
    destruct (oldest _) as [d|]; cbn; [destruct Ho; auto|right; auto].
  - specialize (Ho (fun d => iv_Serial d = serial) _). destruct (oldest _) as [d|]; cbn; [destruct Ho; auto|left; auto].
Qed.

(** ** At work *)

Definition aDevice (id name ip sys serial : string) (tags : list string) : InvDevice := mkInvDevice id name ip "active" sys serial "s1" tags [] "" 0.
Definition twins : Inv := mkInv
  [aDevice "d1" "edge" "10.0.0.1" "edge" "SN1" ["core"]; aDevice "d2" "edge2" "10.0.0.2" "edge" "SN1" ["lab"]; aDevice "d3" "edge3" "10.0.0.3" "Edge" "" []]
  [] [("d1", true); ("d2", true)].
Definition inOrder (l : list DupRow) : list DupRow := l.
Definition lowerAscii (s : string) : string := of_bytes (map (fun c => if within 65 (bz c) 90 then zb (bz c + 32) else c) (to_bytes s)).

(** The third device has the name of two that are one by their serial: it is
    listed as a group of its own, of one. *)
Lemma group_of_one : map (fun g => (groupKey g, map iv_ID (dg_Devices g))) (Duplicates lowerAscii inOrder twins) =
  [(("serial", "SN1"), ["d1"; "d2"]); (("sys_name", "edge"), ["d3"])].
Proof. by vm_compute. Qed.

(** An order of the rows: by kind of match and value, byte by byte. *)
Definition keyLe (a b : DupRow) : Prop := pair_le (rowKey a) (rowKey b).
#[local] Instance keyLe_dec a b : Decision (keyLe a b).
Proof. unfold keyLe. apply _. Defined.
#[local] Instance keyLe_trans : Transitive keyLe.
Proof. intros a b c. unfold keyLe. apply pair_le_trans. Qed.
#[local] Instance keyLe_total : Total keyLe.
Proof. intros a b. unfold keyLe. apply pair_le_total. Qed.
Definition byKey (l : list DupRow) : list DupRow := merge_sort keyLe l.
Lemma sorted_together l : StronglySorted keyLe l -> together l.
Proof.
  induction 1 as [|r l Hs IH Hall]; [done|]. split; [done|]. destruct l as [|r' l]; [done|].
  destruct (decide (rowKey r = rowKey r')) as [E|E]; [by left|right]. intros [E'|(y & E' & Hy)%list_elem_of_fmap]%elem_of_cons; [done|].
  apply E. apply Forall_cons in Hall as [H1 _]. apply StronglySorted_inv in Hs as [_ H2]. rewrite Forall_forall in H2. specialize (H2 y Hy).
  apply pair_le_antisym; [exact H1|]. unfold keyLe in H2. by rewrite <- E' in H2.
Qed.
#[local] Instance byKey_laws : OrderLaws byKey.
Proof. split; intros l; [apply merge_sort_Permutation|]. apply sorted_together. apply StronglySorted_merge_sort; apply _. Qed.

Lemma duplicates_exact_witness :
  NoDup (map iv_ID (in_devices twins)) /\ NoDup (map iv_ID (concat (map dg_Devices (Duplicates lowerAscii byKey twins)))).
Proof.
  assert (NoDup (map iv_ID (in_devices twins))) as Hn by decide_by_compute. split; [exact Hn|].
  exact (proj1 (proj2 (duplicates_exact lowerAscii byKey twins Hn))).
Defined.

Definition distinctOf (l : list string) : list string := remove_dups l.
Definition noneRefused (s : Statement) : option Err := None.
(** The database goes away when the duplicate is to be retired. *)
Definition lostAtRetire (s : Statement) : option Err := match s with RetireDuplicate => Some (ErrText "connection lost") | _ => None end.
Abbreviation demoMerge := (Merge "2026-01-01" distinctOf).

Lemma merge_exact_witness :
  NoDup (map iv_ID (in_devices twins)) /\ in_ifaces (demoMerge noneRefused "d1" "d2" twins).2 = in_ifaces twins /\
  (demoMerge lostAtRetire "d1" "d2" twins).2 = twins.
Proof.
  assert (NoDup (map iv_ID (in_devices twins))) as Hn by decide_by_compute. split; [exact Hn|].
  pose proof (fun refused => merge_exact "2026-01-01" distinctOf refused (fun l x => elem_of_remove_dups l x) "d1" "d2" twins Hn) as H. split.
  - specialize (H noneRefused). destruct (demoMerge noneRefused "d1" "d2" twins) as [[res|e] t'].
    + destruct H as (keep & dup & more & tags & _ & _ & _ & _ & _ & _ & _ & _ & _ & E & _). exact E.
    + destruct H as [-> _]. reflexivity.
  - specialize (H lostAtRetire). destruct (demoMerge lostAtRetire "d1" "d2" twins) as [[res|e] t'] eqn:E; [vm_compute in E; discriminate|]. apply H.
Defined.

(** What was merged, and what the merge that failed left half done and undid. *)
Example merge_demo :
  map (fun d => (iv_Status d, iv_Alt d, iv_Tags d)) (in_devices (demoMerge noneRefused "d1" "d2" twins).2) =
    [("active", ["10.0.0.2"], ["core"; "lab"]); ("retired", [], ["lab"]); ("active", [], [])] /\
  map iv_Alt (in_devices (mergeTx "2026-01-01" distinctOf lostAtRetire "d1" "d2" twins).2) = [["10.0.0.2"]; []; []].
Proof. by vm_compute. Qed.

(** [tags_added] is every tag the device has in the end. *)
Lemma all_tags_added :
  match (demoMerge noneRefused "d1" "d2" twins).1 with inl res => me_TagsAdded res = ["core"; "lab"] | inr _ => False end.
Proof. by vm_compute. Qed.
