(* ===== verification/Discovery.v ===== *)
(** Packages collection/pollerrt (discovery.go), collection/app (discovery.go),
    and the queue of finds in collection/adapters: sweeping a subnet for
    devices that answer SNMP, and the operator's decision on what it found.

    The probes of a sweep run at once: admitting an address, the end of a
    probe and the cancelling of the sweep are steps, taken in any order. The
    SNMP session is a collaborator. The statements are functions of the
    tables; the cast to [inet] and the order of rows are the database's. *)
From Stdlib Require Import ZArith Lia.
From stdpp Require Import base list gmap strings numbers sorting.
From S2P Require Import Prelude GoText GoSort Netip NetipParse World Errx Sdk Wire.

(** ** The addresses of a sweep *)

Definition discoveryConcurrency : Z := 48.
Definition discoveryMaxHosts : Z := 4096.

(** [Addr.Next]: the zero address after the last. *)
Definition Addr_Next (a : Addr) : Addr :=
  match a with
  | AddrZero => AddrZero
  | V4 z => if z =? 2 ^ 32 - 1 then AddrZero else V4 (z + 1)
  | V6 z zone => if z =? 2 ^ 128 - 1 then AddrZero else V6 (z + 1) zone
  end.
Definition Masked (p : Prefix) : Prefix := default (mkPrefix AddrZero (-1)) (Addr_Prefix (pip p) (pbits p)).

Definition errTooLarge (e : string) : Err := ErrText e.

Fixpoint hostLoop (n : nat) (i total bits : Z) (addr : Addr) (out : list string) : list string :=
  match n with
  | O => out
  | S n =>
      let out := if ((0 <? i) || (31 <=? bits)) && negb ((bits <? 31) && (i =? total - 1)) then out ++ [Addr_String addr] else out in
      hostLoop n (i + 1) total bits (Addr_Next addr) out
  end.

(** What is no prefix gives the error of [netip.ParsePrefix]. *)
Definition expandCIDR (parseError : string -> Err) (cidr : string) : list string + Err :=
  match ParsePrefix cidr with
  | None => inr (parseError cidr)
  | Some p =>
      let p := Masked p in
      if negb (Is4 (pip p)) then inr (errTooLarge "only IPv4 prefixes are supported") else
      let total := Z.shiftl 1 (32 - pbits p) in
      if discoveryMaxHosts + 2 <? total then inr (errTooLarge "prefix too large: max /20 (4096 hosts) per sweep")
      else inl (hostLoop (Z.to_nat total) 0 total (pbits p) (pip p) [])
  end.

(** ** Probing one address *)

Class ProbeWorld (W : Type) : Type := {
  NewSNMPSession : PollJob -> M W (option Err);
  sessionGet : PollJob -> list string -> M W (list Var * option Err);
  (** the [String] method of a value, where its type has one *)
  Stringer : Value -> option string
}.

Definition oidSysName : string := ".1.3.6.1.2.1.1.5.0".
Definition oidSysDescr : string := ".1.3.6.1.2.1.1.1.0".
Definition oidSysObjectID : string := ".1.3.6.1.2.1.1.2.0".

Section probe.
Context {W : Type} `{ProbeWorld W}.

Definition snmpString (v : Value) : string :=
  match v with VBytes b => of_bytes b | VString s => s | _ => default "" (Stringer v) end.

Definition hostVar (h : DiscoveredHost) (v : Var) : DiscoveredHost :=
  let s := snmpString (Value_ v) in
  if bool_decide (OID v = oidSysName) then mkDiscoveredHost (dh_IP h) s (dh_SysDescr h) (dh_SysObjectID h) (dh_CredentialID h)
  else if bool_decide (OID v = oidSysDescr) then mkDiscoveredHost (dh_IP h) (dh_SysName h) s (dh_SysObjectID h) (dh_CredentialID h)
  else if bool_decide (OID v = oidSysObjectID) then mkDiscoveredHost (dh_IP h) (dh_SysName h) (dh_SysDescr h) s (dh_CredentialID h)
  else h.
Definition hostOf (ip : string) (c : NamedCred) (vars : list Var) : DiscoveredHost :=
  foldl hostVar (mkDiscoveredHost ip "" "" "" (nc_CredentialID c)) vars.
Definition useful (h : DiscoveredHost) : bool := negb (bool_decide (dh_SysName h = "") && bool_decide (dh_SysDescr h = "")).

Definition probeJob (ip : string) (port : Z) (timeout : Duration) (c : NamedCred) : PollJob :=
  mkPollJob "" "" "" "" "" ip port "" (nc_Cred c) zeroTime 0 (timeout / Millisecond) 0.

(** One turn of the loop of [probeHost]. *)
Definition tryCred (ip : string) (port : Z) (timeout : Duration) (c : NamedCred) : M W (option DiscoveredHost) :=
  let job := probeJob ip port timeout c in
  err ← NewSNMPSession job;
  match err with
  | Some _ => mret None
  | None =>
      '(vars, err) ← sessionGet job [oidSysName; oidSysDescr; oidSysObjectID];
      if negb (bool_decide (err = None)) || bool_decide (len vars = 0) then mret None else
      let host := hostOf ip c vars in
      mret (if useful host then Some host else None)
  end.
Fixpoint probeHost (ip : string) (port : Z) (timeout : Duration) (creds : list NamedCred) : M W (option DiscoveredHost) :=
  match creds with
  | [] => mret None
  | c :: creds =>
      h ← tryCred ip port timeout c;
      match h with Some h => mret (Some h) | None => probeHost ip port timeout creds end
  end.
End probe.

Definition sweepTimeout (job : DiscoveryJob) : Duration :=
  let t := dj_TimeoutMS job * Millisecond in if t <=? 0 then 1500 * Millisecond else t.
Definition sweepPort (job : DiscoveryJob) : Z := if dj_Port job =? 0 then 161 else dj_Port job.

(** ** The sweep

    [answers]: what [probeHost] gives of each address; none is probed twice. *)

Record Sweep : Type := mkSweep { sw_todo : list string; sw_running : list string; sw_found : list DiscoveredHost; sw_cancelled : bool }.
#[export] Instance eta_Sweep : Eta Sweep := fun s => mkSweep (sw_todo s) (sw_running s) (sw_found s) (sw_cancelled s).

Inductive sweepTurn : Type := Admit | Finish (k : nat) | Cancel.

Section sweep.
Context (answers : string -> option DiscoveredHost).

Definition sweepStep (s : Sweep) (t : sweepTurn) : Sweep :=
  match t with
  | Admit =>
      match sw_todo s with
      | ip :: todo =>
          if sw_cancelled s || (discoveryConcurrency <=? len (sw_running s)) then s
          else s <| sw_todo := todo |> <| sw_running := sw_running s ++ [ip] |>
      | [] => s
      end
  | Cancel => if bool_decide (sw_todo s = []) then s else s <| sw_cancelled := true |>
  | Finish k =>
      match sw_running s !! k with
      | Some ip => s <| sw_running := delete k (sw_running s) |> <| sw_found := sw_found s ++ option_list (answers ip) |>
      | None => s
      end
  end.
Definition sweepRun (hosts : list string) (ts : list sweepTurn) : Sweep := foldl sweepStep (mkSweep hosts [] [] false) ts.

(** The loop is left and [wg.Wait] returns. *)
Definition swept (s : Sweep) : bool :=
  bool_decide (sw_running s = []) && (sw_cancelled s || bool_decide (sw_todo s = [])).

(** [executeDiscovery]: what is published, [None] while probes run. *)
Definition executeDiscovery (parseError : string -> Err) (PollerID : string) (job : DiscoveryJob) (ts : list sweepTurn) : option DiscoveryResult :=
  let res := mkDiscoveryResult (dj_JobID job) (dj_RuleID job) PollerID in
  match expandCIDR parseError (dj_CIDR job) with
  | inr err => Some (res 0 [] (Err_Error err))
  | inl hosts =>
      let s := sweepRun hosts ts in
      if swept s then Some (res (len hosts) (sw_found s) (if sw_cancelled s then "cancelled" else "")) else None
  end.
End sweep.

(** ** The queue of finds *)

Record DiscoveryRule : Type := mkDiscoveryRule {
  rl_ID : string; rl_SiteID : string; rl_CIDR : string; rl_CredentialIDs : list string; rl_Enabled : bool
}.
(** A row of [platform.discovered_devices]; a text column is null or a text. *)
Record FoundRow : Type := mkFoundRow {
  fr_ID : string; fr_RuleID : string; fr_IP : string; fr_SysName : option string; fr_SysObjectID : option string;
  fr_SysDescr : option string; fr_ConnectorID : option string; fr_CredentialID : string; fr_State : string;
  fr_First : Time; fr_Last : Time
}.
#[export] Instance eta_FoundRow : Eta FoundRow := fun r =>
  mkFoundRow (fr_ID r) (fr_RuleID r) (fr_IP r) (fr_SysName r) (fr_SysObjectID r) (fr_SysDescr r) (fr_ConnectorID r)
    (fr_CredentialID r) (fr_State r) (fr_First r) (fr_Last r).
#[export] Instance FoundRow_eq_dec : EqDecision FoundRow.
Proof. solve_decision. Defined.

(** The rules, the finds, the ids of the connectors, and of each device its
    management address and status. *)
Record Queue : Type := mkQueue {
  qu_rules : list DiscoveryRule; qu_found : list FoundRow; qu_connectors : list string; qu_devices : list (string * string)
}.
#[export] Instance eta_Queue : Eta Queue := fun q => mkQueue (qu_rules q) (qu_found q) (qu_connectors q) (qu_devices q).

Record Discovered : Type := mkDiscovered {
  di_ID : string; di_RuleID : string; di_SiteID : string; di_IP : string; di_SysName : string; di_SysDescr : string;
  di_SysObjectID : string; di_ConnectorID : string; di_CredentialID : string; di_State : string; di_Managed : bool
}.

Definition nullif (s : string) : option string := if bool_decide (s = "") then None else Some s.
Definition discovered_states : list string := ["pending"; "approved"; "ignored"].

Definition ruleNotFound : Err := New KindNotFound "discovery rule not found".
Definition foundNotFound : Err := New KindNotFound "discovered device not found".

Section queue.
(** the cast to [inet], as the text of the address; the error of a statement *)
Context (inet : string -> option string) (dbError : Err).
(** the order of [ORDER BY seen_last_at DESC] *)
Context (newestFirst : list FoundRow -> list FoundRow).

Definition GetRule (q : Queue) (ruleID : string) : DiscoveryRule + Err :=
  match filter (fun r => rl_ID r = ruleID) (qu_rules q) with r :: _ => inl r | [] => inr ruleNotFound end.

(** The finds of a rule go with it. *)
Definition DeleteRule (q : Queue) (ruleID : string) : Queue * option Err :=
  if decide (ruleID ∈ map rl_ID (qu_rules q)) then
    (q <| qu_rules := filter (fun r => rl_ID r <> ruleID) (qu_rules q) |>
       <| qu_found := filter (fun f => fr_RuleID f <> ruleID) (qu_found q) |>, None)
  else (q, Some ruleNotFound).

(** The row a host is recorded as: the columns the statement sets when there
    is one already, or a new row. *)
Definition refreshed (now : Time) (h : DiscoveredHost) (connector : string) (r : FoundRow) : FoundRow :=
  r <| fr_SysName := nullif (dh_SysName h) |> <| fr_SysObjectID := nullif (dh_SysObjectID h) |>
    <| fr_SysDescr := nullif (dh_SysDescr h) |> <| fr_ConnectorID := nullif connector |>
    <| fr_CredentialID := dh_CredentialID h |> <| fr_Last := now |>.
Definition newRow (id ruleID ip : string) (now : Time) (h : DiscoveredHost) (connector : string) : FoundRow :=
  mkFoundRow id ruleID ip (nullif (dh_SysName h)) (nullif (dh_SysObjectID h)) (nullif (dh_SysDescr h)) (nullif connector)
    (dh_CredentialID h) "pending" now now.

Definition sameFind (ruleID ip : string) (r : FoundRow) : Prop := fr_RuleID r = ruleID /\ fr_IP r = ip.
#[local] Instance sameFind_dec ruleID ip r : Decision (sameFind ruleID ip r).
Proof. unfold sameFind. apply _. Defined.

(** The statement of [UpsertFound]: refused for an address that is none, for
    a rule that is gone, and for a connector that is not in the catalog. *)
Definition upsertRow (q : Queue) (id ruleID : string) (now : Time) (h : DiscoveredHost) (connector : string) : option Queue :=
  ip ← inet (dh_IP h);
  if negb (bool_decide (ruleID ∈ map rl_ID (qu_rules q))) ||
     negb (bool_decide (connector = "" \/ connector ∈ qu_connectors q)) then None
  else
    Some (q <| qu_found :=
      if decide (Exists (sameFind ruleID ip) (qu_found q))
      then map (fun r => if decide (sameFind ruleID ip r) then refreshed now h connector r else r) (qu_found q)
      else qu_found q ++ [newRow id ruleID ip now h connector] |>).

(** [id]: the ids made, one for each host. *)
Fixpoint upsertLoop (q : Queue) (ruleID : string) (match_ : option (string -> string -> string)) (ids : list string)
    (now : Time) (hosts : list DiscoveredHost) (n : Z) : Queue * (Z * option Err) :=
  match hosts with
  | [] => (q, (n, None))
  | h :: hosts =>
      let connector := match match_ with Some f => f (dh_SysObjectID h) (dh_SysDescr h) | None => "" end in
      match upsertRow q (hd "" ids) ruleID now h connector with
      | None => (q, (n, Wrap KindTransient (Some dbError) "upsert discovered device"))
      | Some q => upsertLoop q ruleID match_ (tl ids) now hosts (n + 1)
      end
  end.
Definition UpsertFound q ruleID hosts match_ ids now := upsertLoop q ruleID match_ ids now hosts 0.

Definition isManaged (q : Queue) (ip : string) : bool := bool_decide (Exists (fun d => d.1 = ip /\ d.2 <> "retired") (qu_devices q)).

Definition shown (q : Queue) (r : FoundRow) : option Discovered :=
  rule ← head (filter (fun rl => rl_ID rl = fr_RuleID r) (qu_rules q));
  Some (mkDiscovered (fr_ID r) (fr_RuleID r) (rl_SiteID rule) (fr_IP r) (default "" (fr_SysName r)) (default "" (fr_SysDescr r))
    (default "" (fr_SysObjectID r)) (default "" (fr_ConnectorID r)) (fr_CredentialID r) (fr_State r) (isManaged q (fr_IP r))).

Definition listLimit : Z := 500.
Definition ListFound (q : Queue) (state : string) : list Discovered + Err :=
  if bool_decide (state = "") then inl (take (Z.to_nat listLimit) (omap (shown q) (newestFirst (qu_found q))))
  else if negb (bool_decide (state ∈ discovered_states)) then inr (kindError KindTransient (ErrWrap "list discovered" dbError))
  else inl (take (Z.to_nat listLimit) (omap (shown q) (newestFirst (filter (fun r => fr_State r = state) (qu_found q))))).

Definition GetFound (q : Queue) (foundID : string) : Discovered + Err :=
  match ListFound q "" with
  | inr e => inr e
  | inl all => match filter (fun d => di_ID d = foundID) all with d :: _ => inl d | [] => inr foundNotFound end
  end.

Definition SetFoundState (q : Queue) (foundID state : string) : Queue * option Err :=
  if negb (bool_decide (state ∈ discovered_states)) then (q, Some (kindError KindTransient (ErrWrap "set discovered state" dbError)))
  else if bool_decide (foundID ∈ map fr_ID (qu_found q)) then
    (q <| qu_found := map (fun r => if decide (fr_ID r = foundID) then r <| fr_State := state |> else r) (qu_found q) |>, None)
  else (q, Some foundNotFound).

(** ** The service *)

(** [HandleResult]: an error of the sweep is logged, and what it found is
    stored all the same. *)
Definition HandleResult (q : Queue) (match_ : option (string -> string -> string)) (ids : list string) (now : Time) (res : DiscoveryResult)
    : Queue * option Err :=
  let '(q, (_, err)) := UpsertFound q (dr_RuleID res) (dr_Found res) match_ ids now in (q, err).
Definition Ignore (q : Queue) (foundID : string) : Queue * option Err := SetFoundState q foundID "ignored".

Definition CreateRule (q : Queue) (id siteID cidr : string) (credentialIDs : list string) (sites : list string) (cidrCast : string -> option string)
    : Queue * (DiscoveryRule + Err) :=
  if bool_decide (siteID = "") || bool_decide (cidr = "") || bool_decide (credentialIDs = []) then
    (q, inr (New KindInvalid "site_id, cidr and at least one credential are required"))
  else
    match cidrCast cidr with
    | Some stored =>
        if bool_decide (siteID ∈ sites) then
          (q <| qu_rules := qu_rules q ++ [mkDiscoveryRule id siteID stored credentialIDs true] |>, inl (mkDiscoveryRule id siteID cidr credentialIDs true))
        else (q, inr (kindError KindInvalid (ErrWrap "insert discovery rule" dbError)))
    | None => (q, inr (kindError KindInvalid (ErrWrap "insert discovery rule" dbError)))
    end.

(** [Named]: a credential that cannot be resolved drops out. *)
Definition Named (resolve : string -> option SNMPCred) (names : string -> string) (ids : list string) : list NamedCred :=
  omap (fun cid => cred ← resolve cid; Some (mkNamedCred cid (names cid) cred)) ids.

(** [Run]: the job it publishes. *)
Definition Run (q : Queue) (resolve : string -> option SNMPCred) (names : string -> string) (jobID ruleID : string) : DiscoveryJob + Err :=
  match GetRule q ruleID with
  | inr e => inr e
  | inl rule =>
      let creds := Named resolve names (rl_CredentialIDs rule) in
      if bool_decide (creds = []) then inr (New KindInvalid "no usable credentials on this rule")
      else inl (mkDiscoveryJob "discovery" jobID (rl_ID rule) (rl_SiteID rule) (rl_CIDR rule) 161 creds 1500)
  end.
End queue.

(** ** The operator's decision *)

Record OnboardInput : Type := mkOnboardInput {
  ob_Name : string; ob_MgmtIP : string; ob_SiteID : string; ob_CredentialID : string; ob_ConnectorID : string
}.
Record ApproveRequest : Type := mkApproveRequest { ap_Name : string; ap_SiteID : string; ap_Force : bool; ap_AttachTo : string }.
Inductive approval : Type :=
  | Refused (e : Err)
  | AttachedTo (device address : string)
  | DuplicateIdentity (device : string)
  | CreatedDevice (id : string).

Section approve.
Context (dbError : Err) (newestFirst : list FoundRow -> list FoundRow).
(** Creating a device, by the address it is managed at; recording an address
    on one; and the device that reports a name already. Each may be missing. *)
Context (Onboard : option (Queue -> OnboardInput -> string + Err)) (AttachAddress : option (Queue -> string -> string -> option Err)).
Context (IdentityMatch : option (Queue -> string -> option string)).

Definition onboard (Onboard : Queue -> OnboardInput -> string + Err) (q : Queue) (input : OnboardInput) : Queue * (string + Err) :=
  match Onboard q input with
  | inl id => (q <| qu_devices := qu_devices q ++ [(ob_MgmtIP input, "pending")] |>, inl id)
  | inr e => (q, inr e)
  end.

Definition firstNamed (names : list string) : string := default "" (head (filter (fun s => s <> "") names)).

(** The find is settled whichever way it went. *)
Definition settle (q : Queue) (foundID : string) (a : approval) : Queue * approval :=
  match SetFoundState dbError q foundID "approved" with
  | (q, Some e) => (q, Refused e)
  | (q, None) => (q, a)
  end.

(** [approve] of adapters/httpapi; the body is taken decoded. *)
Definition approve (q : Queue) (foundID : string) (req : ApproveRequest) : Queue * approval :=
  match Onboard with
  | None => (q, Refused (New KindTransient "onboarding unavailable"))
  | Some Onboard =>
  match GetFound dbError newestFirst q foundID with
  | inr e => (q, Refused e)
  | inl found =>
      if di_Managed found then (q, Refused (New KindConflict "a device with that management IP is already managed")) else
      if negb (bool_decide (ap_AttachTo req = "")) then
        match AttachAddress with
        | None => (q, Refused (New KindTransient "attaching addresses is unavailable"))
        | Some attach =>
            match attach q (ap_AttachTo req) (di_IP found) with
            | Some e => (q, Refused e)
            | None => settle q (di_ID found) (AttachedTo (ap_AttachTo req) (di_IP found))
            end
        end
      else
        match (if ap_Force req || bool_decide (di_SysName found = "") then None else
                 match IdentityMatch with Some f => f q (di_SysName found) | None => None end) with
        | Some device => (q, DuplicateIdentity device)
        | None =>
            let input := mkOnboardInput (firstNamed [ap_Name req; di_SysName found; di_IP found]) (di_IP found)
              (firstNamed [ap_SiteID req; di_SiteID found]) (di_CredentialID found) (di_ConnectorID found) in
            match onboard Onboard q input with
            | (q, inr e) => (q, Refused e)
            | (q, inl id) => settle q (di_ID found) (CreatedDevice id)
            end
        end
  end
  end.
End approve.

(** * Properties *)

(** ** The addresses of a prefix *)

Definition keepHost (total bits i : Z) : bool := ((0 <? i) || (31 <=? bits)) && negb ((bits <? 31) && (i =? total - 1)).

Lemma hostLoop_spec base total bits n i out : base + i + Z.of_nat n <= 2 ^ 32 ->
  hostLoop n i total bits (V4 (base + i)) out =
  out ++ map (fun j => Addr_String (V4 (base + j))) (filter (fun j => keepHost total bits j = true) (seqZ i (Z.of_nat n))).
Proof.
  revert i out. induction n as [|n IH]; intros i out Hn; [by rewrite app_nil_r|].
  rewrite seqZ_cons by lia. rewrite filter_cons. cbn [hostLoop].
  replace (Z.pred (Z.of_nat (S n))) with (Z.of_nat n) by lia.
  assert (forall o, hostLoop n (i + 1) total bits (Addr_Next (V4 (base + i))) o =
    o ++ map (fun j => Addr_String (V4 (base + j))) (filter (fun j => keepHost total bits j = true) (seqZ (Z.succ i) (Z.of_nat n)))) as Hr.
  { intros o. cbn [Addr_Next]. destruct (Z.eqb_spec (base + i) (2 ^ 32 - 1)) as [E|E].
    - assert (n = O) as -> by lia. by rewrite app_nil_r.
    - replace (base + i + 1) with (base + (i + 1)) by lia. rewrite IH by lia. by rewrite Z.add_1_r. }
  rewrite Hr. fold (keepHost total bits i).
  destruct (keepHost total bits i) eqn:E; [rewrite decide_True by done|by rewrite decide_False by congruence].
  by rewrite <- app_assoc.
Qed.

(** The network address of a prefix, and its broadcast address. *)
Definition network (z bits : Z) : Z := mask_val z 32 bits.
Definition broadcast (z bits : Z) : Z := network z bits + 2 ^ (32 - bits) - 1.

Lemma network_eq z bits : 0 <= bits <= 32 -> network z bits = 2 ^ (32 - bits) * (z / 2 ^ (32 - bits)).
Proof. intros. unfold network, mask_val. rewrite Z.shiftl_mul_pow2, Z.shiftr_div_pow2 by lia. lia. Qed.

Lemma network_bounds z bits : 0 <= z < 2 ^ 32 -> 0 <= bits <= 32 -> 0 <= network z bits /\ broadcast z bits < 2 ^ 32.
Proof.
  intros Hz Hb. unfold broadcast. rewrite network_eq by done. set (s := 2 ^ (32 - bits)).
  assert (0 < s) by (apply Z.pow_pos_nonneg; lia).
  assert (2 ^ 32 = s * 2 ^ bits) as Ep by (unfold s; rewrite <- Z.pow_add_r by lia; f_equal; lia).
  pose proof (Z.div_pos z s). assert (z / s < 2 ^ bits) by (apply Z.div_lt_upper_bound; lia). nia.
Qed.

Lemma Contains_network z bits y : 0 <= bits <= 32 ->
  Contains (mkPrefix (V4 z) bits) (V4 y) = true <-> network z bits <= y <= broadcast z bits.
Proof.
  intros Hb. rewrite Contains_spec by (simpl; lia). simpl. unfold broadcast. rewrite network_eq by done. set (s := 2 ^ (32 - bits)).
  assert (0 < s) by (apply Z.pow_pos_nonneg; lia). pose proof (Z.div_mod y s). pose proof (Z.mod_pos_bound y s). split.
  - intros (_ & _ & _ & _ & E). rewrite <- E. lia.
  - intros Hy. split_and!; [lia|reflexivity|congruence|reflexivity|]. apply Z.le_antisymm; [apply Z.lt_succ_r, Z.div_lt_upper_bound | apply Z.div_le_lower_bound]; nia.
Qed.

Definition parsesAs (cidr : string) (z bits : Z) : Prop := ParsePrefix cidr = Some (mkPrefix (V4 z) bits).

(** An IPv4 prefix is swept when it is a /20 or longer, whole but for its
    network and broadcast addresses, in order and without repetition. *)
Lemma expand_v4 parseError cidr z bits : 0 <= z < 2 ^ 32 -> 0 <= bits <= 32 -> parsesAs cidr z bits ->
  expandCIDR parseError cidr =
  if bits <? 20 then inr (errTooLarge "prefix too large: max /20 (4096 hosts) per sweep")
  else inl (map (fun j => Addr_String (V4 (network z bits + j))) (filter (fun j => keepHost (2 ^ (32 - bits)) bits j = true) (seqZ 0 (2 ^ (32 - bits))))).
Proof.
  intros Hz Hb E. unfold expandCIDR. rewrite E.
  assert (Masked (mkPrefix (V4 z) bits) = mkPrefix (V4 (network z bits)) bits) as ->.
  { unfold Masked, Addr_Prefix. simpl. destruct (Z.ltb_spec bits 0); [lia|]. destruct (Z.ltb_spec 32 bits); [lia|]. simpl.
    unfold PrefixFrom. simpl. destruct (Z.leb_spec 0 bits), (Z.leb_spec bits 32); try lia. done. }
  simpl. rewrite Z.shiftl_1_l. change (discoveryMaxHosts + 2) with 4098. assert (0 < 2 ^ (32 - bits)) as Hp by (apply Z.pow_pos_nonneg; lia).
  destruct (network_bounds z bits Hz Hb) as [Hn Hbr]. unfold broadcast in Hbr.
  destruct (Z.ltb_spec bits 20).
  - assert (2 ^ 13 <= 2 ^ (32 - bits)) by (apply Z.pow_le_mono_r; lia). destruct (Z.ltb_spec 4098 (2 ^ (32 - bits))); [done|lia].
  - assert (2 ^ (32 - bits) <= 2 ^ 12) by (apply Z.pow_le_mono_r; lia). destruct (Z.ltb_spec 4098 (2 ^ (32 - bits))); [lia|].
    f_equal. rewrite <- (Z.add_0_r (network z bits)) at 1. rewrite hostLoop_spec by lia. by rewrite Z2Nat.id by lia.
Qed.

Lemma keepHost_iff bits j : 0 <= j < 2 ^ (32 - bits) ->
  keepHost (2 ^ (32 - bits)) bits j = true <-> (bits < 31 -> j <> 0 /\ j <> 2 ^ (32 - bits) - 1).
Proof.
  intros Hj. unfold keepHost. destruct (Z.ltb_spec 0 j), (Z.leb_spec 31 bits), (Z.ltb_spec bits 31), (Z.eqb_spec j (2 ^ (32 - bits) - 1)); simpl; lia.
Qed.

Lemma seqZ_sorted m n : StronglySorted Z.lt (seqZ m n).
Proof.
  destruct (Z.neg_nonneg_cases n) as [Hn|Hn]; [rewrite seqZ_nil by lia; constructor|].
  revert m. pattern n. apply natlike_ind; [intros; rewrite seqZ_nil by lia; constructor| |done].
  intros k Hk IH m. rewrite seqZ_cons by lia. rewrite Z.pred_succ. constructor; [apply IH|].
  apply Forall_forall. intros y Hy%elem_of_seqZ. lia.
Qed.

(** An address is swept exactly when the prefix contains it and it is
    neither the network address nor the broadcast address of a prefix that
    has them: each once, in ascending order, at most 4096 in all. A prefix
    shorter than a /20 is refused. *)
Theorem expand_exact parseError cidr z bits : 0 <= z < 2 ^ 32 -> 0 <= bits <= 32 -> parsesAs cidr z bits ->
  match expandCIDR parseError cidr with
  | inr _ => bits < 20
  | inl out => 20 <= bits /\ len out <= discoveryMaxHosts /\
      exists ys, out = map (fun y => Addr_String (V4 y)) ys /\ StronglySorted Z.lt ys /\
        forall y, y ∈ ys <->
          Contains (mkPrefix (V4 z) bits) (V4 y) = true /\ (bits < 31 -> y <> network z bits /\ y <> broadcast z bits)
  end.
Proof.
  intros Hz Hb E. rewrite (expand_v4 parseError cidr z bits) by done. destruct (Z.ltb_spec bits 20); [done|].
  set (s := 2 ^ (32 - bits)). set (js := filter _ _).
  assert (0 < s <= 4096) as Hs by (unfold s; split; [apply Z.pow_pos_nonneg; lia | change 4096 with (2 ^ 12); apply Z.pow_le_mono_r; lia]).
  split_and!; [done| |exists (map (fun j => network z bits + j) js); split_and!].
  - unfold len. rewrite length_map. unfold js. pose proof (length_filter (fun j => keepHost s bits j = true) (seqZ 0 s)).
    rewrite length_seqZ in *. unfold discoveryMaxHosts. lia.
  - by rewrite map_map.
  - eapply (StronglySorted_fmap _ Z.lt); [|apply filter_sorted, seqZ_sorted]. lia.
  - intros y. rewrite Contains_network by done. rewrite list_elem_of_fmap. unfold js, broadcast. fold s. split.
    + intros (j & -> & [Hk Hj%elem_of_seqZ]%list_elem_of_filter). pose proof (proj1 (keepHost_iff bits j ltac:(fold s; lia)) Hk) as Hk'. fold s in Hk'. lia.
    + intros [Hy Hk]. exists (y - network z bits). split; [lia|]. apply list_elem_of_filter. rewrite elem_of_seqZ. split; [|lia].
      apply (keepHost_iff bits); fold s; lia.
Qed.

(** ** Any order of turns *)

Section sweep_facts.
Context (answers : string -> option DiscoveredHost).

(** [hosts] are those whose probe has ended, those being probed, and those
    to come. *)
Definition accounted (hosts : list string) (s : Sweep) : Prop :=
  exists ended, hosts ≡ₚ ended ++ sw_running s ++ sw_todo s /\ sw_found s = omap answers ended /\
    len (sw_running s) <= discoveryConcurrency.

Lemma sweepStep_accounted hosts s t : accounted hosts s -> accounted hosts (sweepStep answers s t).
Proof.
  intros (ended & Hp & Hf & Hr). destruct t as [|k|]; cbn [sweepStep].
  - destruct (sw_todo s) as [|ip todo] eqn:Et; [by exists ended; rewrite Et|].
    destruct (sw_cancelled s || _) eqn:E; [by exists ended; rewrite Et|]. exists ended. simpl. split_and!; [|done|].
    + rewrite Hp. by rewrite <- (assoc_L (++)).
    + apply orb_false_iff in E as [_ E%Z.leb_gt]. rewrite len_app, len_cons, len_nil. lia.
  - destruct (sw_running s !! k) as [ip|] eqn:Ek; [|by exists ended]. exists (ended ++ [ip]). simpl. split_and!.
    + trans (ended ++ (ip :: delete k (sw_running s)) ++ sw_todo s); [rewrite Hp; by rewrite <- (delete_Permutation _ _ _ Ek)|].
      by rewrite <- (assoc_L (++)).
    + by rewrite Hf, omap_app.
    + unfold len in *. pose proof (lookup_lt_Some _ _ _ Ek). rewrite length_delete by eauto. lia.
  - case_bool_decide; by exists ended.
Qed.
Lemma sweepRun_accounted hosts ts : accounted hosts (sweepRun answers hosts ts).
Proof.
  unfold sweepRun. assert (accounted hosts (mkSweep hosts [] [] false)) as H by (exists []; split_and!; [done..|discriminate]).
  revert H. generalize (mkSweep hosts [] [] false). induction ts as [|t ts IH]; intros s H; [done|]. by apply IH, sweepStep_accounted.
Qed.

(** Wherever the sweep is, ending the probes that run and admitting the rest
    one by one brings it to its end. *)
Lemma sweep_drains s : exists ts, sw_running (foldl (sweepStep answers) s ts) = [] /\ sw_todo (foldl (sweepStep answers) s ts) = sw_todo s.
Proof.
  remember (length (sw_running s)) as n eqn:En. revert s En. induction n as [|n IH]; intros s En.
  - exists []. split; [|done]. by apply nil_length_inv.
  - destruct (sw_running s) as [|ip r] eqn:Er; [done|]. destruct (IH (sweepStep answers s (Finish 0))) as (ts & H1 & H2).
    { cbn [sweepStep]. rewrite Er. simpl. by injection En. }
    exists (Finish 0 :: ts).
    change (foldl (sweepStep answers) s (Finish 0 :: ts)) with (foldl (sweepStep answers) (sweepStep answers s (Finish 0)) ts).
    split; [done|]. rewrite H2. cbn [sweepStep]. by rewrite Er.
Qed.
Lemma sweep_ends s : exists ts, swept (foldl (sweepStep answers) s ts) = true.
Proof.
  remember (length (sw_todo s)) as n eqn:En. revert s En. induction n as [|n IH]; intros s En.
  - destruct (sweep_drains s) as (ts & H1 & H2). exists ts. unfold swept. rewrite H1, H2.
    by rewrite (nil_length_inv (sw_todo s)), orb_true_r.
  - destruct (sweep_drains s) as (ts & H1 & H2). set (s' := foldl _ s ts) in *.
    destruct (sw_cancelled s') eqn:Ec. { exists ts. fold s'. unfold swept. by rewrite H1, Ec. }
    destruct (sw_todo s) as [|ip todo] eqn:Et; [done|]. destruct (IH (sweepStep answers s' Admit)) as [ts' H'].
    { cbn [sweepStep]. rewrite H2, Ec, H1. simpl. by injection En. }
    exists (ts ++ Admit :: ts'). rewrite foldl_app. done.
Qed.
End sweep_facts.

(** C23. However its probes interleave, a sweep that is not cancelled reports
    each address of the prefix that answers exactly once and nothing else; at
    no time do more than 48 probes run, and it can always be brought to its
    end. A cancelled one reports some of those that answer, each once. *)
Theorem sweep_exact parseError answers PollerID job hosts : expandCIDR parseError (dj_CIDR job) = inl hosts ->
  (forall ts, len (sw_running (sweepRun answers hosts ts)) <= discoveryConcurrency) /\
  (forall ts, exists more, is_Some (executeDiscovery answers parseError PollerID job (ts ++ more))) /\
  (forall ts res, executeDiscovery answers parseError PollerID job ts = Some res ->
    dr_Scanned res = len hosts /\
    (dr_Error res = "" -> dr_Found res ≡ₚ omap answers hosts) /\
    exists missed, dr_Found res ++ missed ≡ₚ omap answers hosts).
Proof.
  intros E. unfold executeDiscovery. rewrite E. split_and!.
  - intros ts. destruct (sweepRun_accounted answers hosts ts) as (_ & _ & _ & H). done.
  - intros ts. destruct (sweep_ends answers (sweepRun answers hosts ts)) as [more H]. exists more.
    unfold sweepRun in *. rewrite foldl_app, H. eauto.
  - intros ts res Hres. destruct (sweepRun_accounted answers hosts ts) as (ended & Hp & Hf & _).
    set (s := sweepRun answers hosts ts) in *. clearbody s. destruct (swept s) eqn:Hs; [|done]. injection Hres as <-. simpl. unfold swept in Hs. apply andb_true_iff in Hs as [Hr%bool_decide_eq_true Hs].
    rewrite Hf. rewrite Hr in Hp. split_and!; [done| |exists (omap answers (sw_todo s)); by rewrite Hp, omap_app].
    intros Hc. destruct (sw_cancelled _); [done|]. apply bool_decide_eq_true in Hs. rewrite Hs, app_nil_r in Hp. by rewrite Hp.
Qed.

(** ** What an operator decided stays decided *)

Definition kept (r r' : FoundRow) : Prop :=
  fr_ID r' = fr_ID r /\ fr_RuleID r' = fr_RuleID r /\ fr_IP r' = fr_IP r /\ fr_State r' = fr_State r /\ fr_First r' = fr_First r.
#[export] Instance kept_preorder : PreOrder kept.
Proof. split; [by intros ?|]. intros a b c (?&?&?&?&?) (?&?&?&?&?). repeat split; congruence. Qed.

(** The rows there were, in their places, and new ones that wait. *)
Definition extends (l l' : list FoundRow) : Prop :=
  exists old fresh, l' = old ++ fresh /\ Forall2 kept l old /\ Forall (fun r => fr_State r = "pending") fresh.
#[export] Instance extends_preorder : PreOrder extends.
Proof.
  split.
  - intros l. exists l, []. by rewrite app_nil_r.
  - intros l l1 l2 (old & fresh & -> & Hk & Hf) (old1 & fresh1 & -> & Hk1 & Hf1).
    apply Forall2_app_inv_l in Hk1 as (k1 & k2 & Hk1 & Hk2 & ->). exists k1, (k2 ++ fresh1). split_and!.
    + by rewrite <- (assoc_L (++)).
    + by etrans.
    + apply Forall_app_2; [|done]. revert Hf. induction Hk2 as [|r r' f k (_ & _ & _ & E & _) _ IH]; [done|].
      intros [Hr Hf]%Forall_cons_1. constructor; [congruence|by apply IH].
Qed.
Lemma extends_elem l l' r : extends l l' -> r ∈ l -> exists r', r' ∈ l' /\ kept r r'.
Proof.
  intros (old & fresh & -> & Hk & _) (i & Hi)%list_elem_of_lookup_1. destruct (Forall2_lookup_l _ _ _ _ _ Hk Hi) as (r' & Hi' & Hr).
  exists r'. split; [|done]. apply elem_of_app. left. by eapply list_elem_of_lookup_2.
Qed.

Definition findKey (r : FoundRow) : string * string := (fr_RuleID r, fr_IP r).
Definition keyed (l : list FoundRow) : Prop := NoDup (map findKey l).

(** A row that shows what was last reported of its host. *)
Definition reports (ruleID ip : string) (now : Time) (h : DiscoveredHost) (connector : string) (r : FoundRow) : Prop :=
  sameFind ruleID ip r /\ fr_SysName r = nullif (dh_SysName h) /\ fr_SysObjectID r = nullif (dh_SysObjectID h) /\
  fr_SysDescr r = nullif (dh_SysDescr h) /\ fr_ConnectorID r = nullif connector /\ fr_CredentialID r = dh_CredentialID h /\ fr_Last r = now.

Section queue_facts.
Context (inet : string -> option string) (dbError : Err).

Lemma sameFind_key ruleID ip r : sameFind ruleID ip r <-> findKey r = (ruleID, ip).
Proof. unfold sameFind, findKey. split; [by intros [-> ->]|by intros [= -> ->]]. Qed.

Lemma upsertRow_rules q id ruleID now h c q' : upsertRow inet q id ruleID now h c = Some q' ->
  qu_rules q' = qu_rules q /\ qu_connectors q' = qu_connectors q /\ qu_devices q' = qu_devices q.
Proof. unfold upsertRow. destruct (inet _); simpl; [|done]. destruct (_ || _); [done|]. by intros [= <-]. Qed.

Lemma upsertRow_spec q id ruleID now h c q' : upsertRow inet q id ruleID now h c = Some q' -> keyed (qu_found q) ->
  exists ip, inet (dh_IP h) = Some ip /\ keyed (qu_found q') /\ extends (qu_found q) (qu_found q') /\
    (exists r, r ∈ qu_found q' /\ reports ruleID ip now h c r) /\
    (forall r, ~ sameFind ruleID ip r -> r ∈ qu_found q' <-> r ∈ qu_found q).
Proof.
  unfold upsertRow. destruct (inet (dh_IP h)) as [ip|]; simpl; [|done]. destruct (_ || _); [done|]. intros [= <-] Hk. exists ip.
  split; [done|]. simpl. destruct (decide _) as [He|Hne].
  - set (f := fun r => if decide (sameFind ruleID ip r) then refreshed now h c r else r).
    assert (forall r, findKey (f r) = findKey r) as Hf by (intros r; unfold f; by case_decide).
    split_and!.
    + unfold keyed in *. rewrite map_map. erewrite map_ext; [done|]. apply Hf.
    + exists (map f (qu_found q)), []. rewrite app_nil_r. split_and!; [done| |done]. apply Forall2_fmap_r, Forall_Forall2_diag, Forall_true.
      intros r. cbn. unfold f. by case_decide.
    + apply Exists_exists in He as (r & Hr & Hs). exists (refreshed now h c r). split; [|by split_and!].
      apply list_elem_of_fmap. exists r. split; [|done]. unfold f. by rewrite decide_True.
    + intros r Hn. rewrite list_elem_of_fmap. split.
      * intros (r0 & -> & Hr0). unfold f in *. case_decide as Hs; [|done]. exfalso. by apply Hn.
      * intros Hr. exists r. split; [|done]. unfold f. by rewrite decide_False.
  - split_and!.
    + unfold keyed in *. rewrite map_app. apply NoDup_app. split_and!; [done| |apply NoDup_singleton].
      intros k (r & -> & Hr)%list_elem_of_fmap Hk'%list_elem_of_singleton. apply Hne, Exists_exists. exists r. split; [done|].
      by apply sameFind_key.
    + exists (qu_found q), [newRow id ruleID ip now h c]. split_and!; [done|done|by constructor].
    + exists (newRow id ruleID ip now h c). split; [apply elem_of_app; right; by apply list_elem_of_singleton|by split_and!].
    + intros r Hn. rewrite elem_of_app, list_elem_of_singleton. split; [|by left]. intros [?| ->]; [done|]. exfalso. by apply Hn.
Qed.

Definition connectorOf (match_ : option (string -> string -> string)) (h : DiscoveredHost) : string :=
  match match_ with Some f => f (dh_SysObjectID h) (dh_SysDescr h) | None => "" end.

(** No host of [hosts] is the find of [r]. *)
Definition unnamed (ruleID : string) (hosts : list DiscoveredHost) (r : FoundRow) : Prop :=
  Forall (fun h => forall ip, inet (dh_IP h) = Some ip -> ~ sameFind ruleID ip r) hosts.

Lemma upsertLoop_extends ruleID match_ now hosts : forall q ids n q' r,
  upsertLoop inet dbError q ruleID match_ ids now hosts n = (q', r) -> keyed (qu_found q) ->
  keyed (qu_found q') /\ extends (qu_found q) (qu_found q') /\
  (forall r, unnamed ruleID hosts r -> r ∈ qu_found q' <-> r ∈ qu_found q).
Proof.
  induction hosts as [|h hosts IH]; intros q ids n q' r E Hk; cbn [upsertLoop] in E; [by injection E as <- <-|].
  fold (connectorOf match_ h) in E. destruct (upsertRow _ _ _ _ _ _ _) as [q1|] eqn:E1; [|by injection E as <- <-].
  destruct (upsertRow_spec _ _ _ _ _ _ _ E1 Hk) as (ip & Hip & Hk1 & Hx1 & _ & Hu1).
  destruct (IH _ _ _ _ _ E Hk1) as (Hk2 & Hx2 & Hu2). split_and!; [done|by etrans|].
  intros r' [Hn Hns]%Forall_cons_1. rewrite Hu2 by done. apply Hu1. by apply Hn.
Qed.

Lemma upsertLoop_reports ruleID match_ now hosts : forall q ids n q' m,
  upsertLoop inet dbError q ruleID match_ ids now hosts n = (q', (m, None)) -> keyed (qu_found q) ->
  NoDup (map (fun h => inet (dh_IP h)) hosts) ->
  m = n + len hosts /\
  forall h, h ∈ hosts -> exists ip r, inet (dh_IP h) = Some ip /\ r ∈ qu_found q' /\ reports ruleID ip now h (connectorOf match_ h) r.
Proof.
  induction hosts as [|h hosts IH]; intros q ids n q' m E Hk Hd; cbn [upsertLoop] in E.
  { injection E as <- <-. split; [by rewrite len_nil, Z.add_0_r|]. intros h Hh%elem_of_nil. done. }
  fold (connectorOf match_ h) in E. destruct (upsertRow _ _ _ _ _ _ _) as [q1|] eqn:E1; [|done].
  destruct (upsertRow_spec _ _ _ _ _ _ _ E1 Hk) as (ip & Hip & Hk1 & Hx1 & (r1 & Hr1 & Hrep) & Hu1).
  apply NoDup_cons in Hd as [Hni Hd]. destruct (IH _ _ _ _ _ E Hk1 Hd) as [-> Hall]. rewrite len_cons.
  split; [lia|]. intros h' [->|Hh']%elem_of_cons; [|by apply Hall].
  destruct (upsertLoop_extends _ _ _ _ _ _ _ _ _ E Hk1) as (_ & _ & Hu2).
  exists ip, r1. split_and!; [done| |done]. apply Hu2; [|done]. apply Forall_forall. intros h' Hh' ip' Hip' Hs.
  destruct Hrep as [Hs1 _]. apply Hni. rewrite Hip. apply list_elem_of_fmap. exists h'. split; [|done].
  rewrite sameFind_key in Hs, Hs1. congruence.
Qed.
End queue_facts.

(** What the results of sweeps do to the queue, one after the other. *)
Definition handleAll inet dbError match_ (q : Queue) (rs : list (list string * Time * DiscoveryResult)) : Queue :=
  foldl (fun q r => fst (HandleResult inet dbError q match_ r.1.1 r.1.2 r.2)) q rs.

(** C24. However often a subnet is swept and whatever is reported, the queue
    has one entry for each rule and address, an entry keeps its id, its first
    sighting and what the operator decided on it, and a new entry waits. A
    result that is stored without error shows each host it reports with what
    was last heard of it and leaves every other entry as it was. *)
Theorem decisions_stick inet dbError match_ q : keyed (qu_found q) ->
  (forall rs, keyed (qu_found (handleAll inet dbError match_ q rs)) /\ extends (qu_found q) (qu_found (handleAll inet dbError match_ q rs))) /\
  (forall ids now res q', HandleResult inet dbError q match_ ids now res = (q', None) ->
    NoDup (map (fun h => inet (dh_IP h)) (dr_Found res)) ->
    (forall r, unnamed inet (dr_RuleID res) (dr_Found res) r -> r ∈ qu_found q' <-> r ∈ qu_found q) /\
    (forall h, h ∈ dr_Found res -> exists ip r, inet (dh_IP h) = Some ip /\ r ∈ qu_found q' /\
      reports (dr_RuleID res) ip now h (connectorOf match_ h) r)).
Proof.
  intros Hk. split.
  - intros rs. unfold handleAll. revert q Hk. induction rs as [|[[ids now] res] rs IH]; intros q Hk; [done|].
    cbn [foldl]. unfold HandleResult at 2 4, UpsertFound. simpl. destruct (upsertLoop _ _ _ _ _ _ _ _ _) as [q1 [m err]] eqn:E. simpl.
    destruct (upsertLoop_extends _ _ _ _ _ _ _ _ _ _ _ E Hk) as (Hk1 & Hx1 & _). destruct (IH q1 Hk1) as [? ?]. split; [done|by etrans].
  - intros ids now res q' E Hd. unfold HandleResult, UpsertFound in E. destruct (upsertLoop _ _ _ _ _ _ _ _ _) as [q1 [m err]] eqn:E1.
    injection E as <- ->. split; [by eapply upsertLoop_extends|]. by eapply upsertLoop_reports.
Qed.

(** ** Nothing is managed that was not approved *)

Definition approveRow (foundID : string) (r : FoundRow) : FoundRow := if decide (fr_ID r = foundID) then r <| fr_State := "approved" |> else r.

Section approve_facts.
Context (dbError : Err) (newestFirst : list FoundRow -> list FoundRow).
Context (order_perm : forall l, newestFirst l ≡ₚ l).
Context (Onboard : option (Queue -> OnboardInput -> string + Err)) (AttachAddress : option (Queue -> string -> string -> option Err)).
Context (IdentityMatch : option (Queue -> string -> option string)).

Lemma GetFound_row q foundID found : GetFound dbError newestFirst q foundID = inl found ->
  exists r, r ∈ qu_found q /\ shown q r = Some found /\ fr_ID r = foundID /\ di_ID found = foundID.
Proof.
  unfold GetFound, ListFound. simpl. destruct (filter _ _) as [|d l] eqn:E; [done|]. intros [= ->].
  assert (found ∈ found :: l) as Hin by by left. rewrite <- E in Hin. apply list_elem_of_filter in Hin as [Hid Hin].
  apply elem_of_take in Hin as (i & Hi & _). apply list_elem_of_lookup_2, list_elem_of_omap in Hi as (r & Hr & Hs).
  rewrite order_perm in Hr. exists r. split_and!; [done|done| |done]. unfold shown in Hs. destruct (head _); simpl in Hs; [|done].
  injection Hs as <-. done.
Qed.

Lemma settle_row q foundID a r : r ∈ qu_found q -> fr_ID r = foundID ->
  settle dbError q foundID a = (q <| qu_found := map (approveRow foundID) (qu_found q) |>, a).
Proof.
  intros Hr Hid. unfold settle, SetFoundState. simpl. rewrite bool_decide_true; [done|]. rewrite <- Hid. by apply list_elem_of_fmap_2.
Qed.

(** A device comes to be managed only by an approval, one device by each
    that succeeds: with the address, the credential and the connector of the
    find, of which no device was in charge before, and the find is settled. An
    approval that is refused, or held back because a device of that name
    exists, changes nothing; storing the result of a sweep makes no device. *)
Theorem approve_exact q foundID req q' a :
  approve dbError newestFirst Onboard AttachAddress IdentityMatch q foundID req = (q', a) ->
  (forall inet match_ ids now res, qu_devices (fst (HandleResult inet dbError q match_ ids now res)) = qu_devices q) /\
  match a with
  | Refused _ => q' = q
  | DuplicateIdentity device => q' = q /\ ap_Force req = false /\ exists same name, IdentityMatch = Some same /\ same q name = Some device
  | AttachedTo device address =>
      q' = q <| qu_found := map (approveRow foundID) (qu_found q) |> /\
      device = ap_AttachTo req /\ (exists attach, AttachAddress = Some attach /\ attach q device address = None) /\ exists r, r ∈ qu_found q /\ fr_ID r = foundID /\ address = fr_IP r
  | CreatedDevice id =>
      exists r input, r ∈ qu_found q /\ fr_ID r = foundID /\ isManaged q (fr_IP r) = false /\
        ob_MgmtIP input = fr_IP r /\ ob_CredentialID input = fr_CredentialID r /\ ob_ConnectorID input = default "" (fr_ConnectorID r) /\
        (exists create, Onboard = Some create /\ create q input = inl id) /\
        q' = q <| qu_devices := qu_devices q ++ [(fr_IP r, "pending")] |> <| qu_found := map (approveRow foundID) (qu_found q) |>
  end.
Proof.
  intros E. split.
  { intros. unfold HandleResult, UpsertFound. generalize 0. revert q E ids. generalize (dr_Found res). intros hosts q _.
    revert q. induction hosts as [|h hosts IH]; intros q ids n; [done|]. cbn [upsertLoop]. destruct (upsertRow _ _ _ _ _ _ _) as [q1|] eqn:E1; [|done].
    rewrite IH. apply upsertRow_rules in E1. tauto. }
  unfold approve in E. destruct Onboard as [create|] eqn:Ec; [|by injection E as <- <-]. destruct (GetFound _ _ _ _) as [found|e] eqn:Eg; [|by injection E as <- <-].
  destruct (GetFound_row _ _ _ Eg) as (r & Hr & Hs & Hid & Hdid).
  unfold shown in Hs. destruct (head _) as [rule|]; simpl in Hs; [|done]. injection Hs as <-. simpl in *.
  destruct (isManaged q (fr_IP r)) eqn:Em; [by injection E as <- <-|].
  destruct (negb _).
  - destruct AttachAddress as [attach|] eqn:Eat; [|by injection E as <- <-].
    destruct (attach _ _ _) as [e|] eqn:Ea; [by injection E as <- <-|]. rewrite (settle_row q _ _ r) in E by done. injection E as <- <-. rewrite Hdid. split_and!; eauto.
  - destruct (if ap_Force req || _ then None else _) as [device|] eqn:Ei.
    { injection E as <- <-. destruct (ap_Force req); [done|]. simpl in Ei. case_bool_decide; [done|].
      destruct IdentityMatch as [same|]; [|done]. split_and!; eauto. }
    unfold onboard in E. simpl in E. set (input := mkOnboardInput _ _ _ _ _) in E.
    destruct (create q input) as [id|e] eqn:Eo; [|by injection E as <- <-].
    rewrite (settle_row _ _ _ r) in E by done. injection E as <- <-. rewrite Hdid. exists r, input. split_and!; eauto.
Qed.
End approve_facts.

(** ** A probe stops at the first credential that works *)

Section probe_facts.
Context {W : Type} `{ProbeWorld W}.

Lemma hostVar_keeps h v : dh_IP (hostVar h v) = dh_IP h /\ dh_CredentialID (hostVar h v) = dh_CredentialID h.
Proof. unfold hostVar. by repeat case_bool_decide. Qed.
Lemma hostOf_keeps ip c vars : dh_IP (hostOf ip c vars) = ip /\ dh_CredentialID (hostOf ip c vars) = nc_CredentialID c.
Proof.
  unfold hostOf. set (h := mkDiscoveredHost ip "" "" "" _). change (dh_IP (foldl hostVar h vars) = dh_IP h /\ dh_CredentialID (foldl hostVar h vars) = dh_CredentialID h).
  clearbody h. revert h. induction vars as [|v vars IH]; intros h; [done|]. simpl. destruct (IH (hostVar h v)) as [-> ->]. apply hostVar_keeps.
Qed.
Lemma tryCred_host ip port t c w h w' : tryCred ip port t c w = (Some h, w') ->
  dh_IP h = ip /\ dh_CredentialID h = nc_CredentialID c /\ useful h = true.
Proof.
  unfold tryCred, mbind, M_bind. destruct (NewSNMPSession _ _) as [[e|] w1]; [done|]. destruct (sessionGet _ _ _) as [[vars err] w2].
  destruct (_ || _); [done|]. intros [= Eh _]. destruct (useful (hostOf ip c vars)) eqn:Eu; [|done]. injection Eh as <-.
  destruct (hostOf_keeps ip c vars). done.
Qed.

Inductive tried (ip : string) (port : Z) (t : Duration) : list NamedCred -> W -> W -> Prop :=
  | tried_nil w : tried ip port t [] w w
  | tried_cons c cs w w1 w2 : tryCred ip port t c w = (None, w1) -> tried ip port t cs w1 w2 -> tried ip port t (c :: cs) w w2.

Lemma probe_first ip port t creds w h w' : probeHost ip port t creds w = (Some h, w') ->
  exists pre c post w1, creds = pre ++ c :: post /\ tried ip port t pre w w1 /\ tryCred ip port t c w1 = (Some h, w') /\
    dh_IP h = ip /\ dh_CredentialID h = nc_CredentialID c /\ useful h = true.
Proof.
  revert w. induction creds as [|c creds IH]; intros w; cbn [probeHost]; [done|].
  unfold mbind, M_bind. destruct (tryCred ip port t c w) as [[h'|] w1] eqn:Et.
  - intros [= -> ->]. exists [], c, creds, w. destruct (tryCred_host _ _ _ _ _ _ _ Et) as (?&?&?). split_and!; try done. constructor.
  - intros (pre & c' & post & w2 & -> & Ht & Hrest)%IH. exists (c :: pre), c', post, w2. split; [done|]. split; [by econstructor|done].
Qed.
End probe_facts.

(** ** Limits of the queue *)

(** The result of a sweep whose rule is gone by then can never be stored; the
    consumer puts it back into the queue each time. *)
Lemma orphan_result inet dbError match_ ids now res q : ~ dr_RuleID res ∈ map rl_ID (qu_rules q) -> dr_Found res <> [] ->
  exists e, HandleResult inet dbError q match_ ids now res = (q, Some e).
Proof.
  intros Hr Hf. unfold HandleResult, UpsertFound. destruct (dr_Found res) as [|h hosts]; [done|]. cbn [upsertLoop].
  unfold upsertRow. destruct (inet (dh_IP h)); simpl; [|eauto]. rewrite bool_decide_false by done. eauto.
Qed.

(** [GetFound] looks among the newest 500 finds: an older one cannot be
    approved, though it can be ignored. *)
Definition crowded : Queue :=
  mkQueue [mkDiscoveryRule "r" "hq" "10.0.0.0/20" ["c"] true]
    (map (fun n => mkFoundRow (Itoa n) "r" (Addr_String (V4 (167772160 + n))) None None None None "c" "pending" 0 (- n)) (seqZ 0 501)) [] [].
Example old_find_hidden : GetFound (ErrText "") (fun l => l) crowded "500" = inr foundNotFound /\
  snd (SetFoundState (ErrText "") crowded "500" "ignored") = None /\ (exists d, GetFound (ErrText "") (fun l => l) crowded "499" = inl d).
Proof. split_and!; [vm_compute; reflexivity|vm_compute; reflexivity|eexists; vm_compute; reflexivity]. Qed.

(** ** Examples *)

Definition noPrefix (cidr : string) : Err := ErrText cidr.
Example small_sweep : expandCIDR noPrefix "192.0.2.5/29" =
  inl ["192.0.2.1"; "192.0.2.2"; "192.0.2.3"; "192.0.2.4"; "192.0.2.5"; "192.0.2.6"].
Proof. vm_compute. reflexivity. Qed.
Example pair_sweep : expandCIDR noPrefix "192.0.2.0/31" = inl ["192.0.2.0"; "192.0.2.1"].
Proof. vm_compute. reflexivity. Qed.
Example top_sweep : expandCIDR noPrefix "255.255.255.255/32" = inl ["255.255.255.255"].
Proof. vm_compute. reflexivity. Qed.

Theorem expand_exact_witness : parsesAs "192.0.2.5/29" 3221225989 29 /\
  match expandCIDR noPrefix "192.0.2.5/29" with
  | inr _ => 29 < 20
  | inl out => 20 <= 29 /\ len out <= discoveryMaxHosts /\
      exists ys, out = map (fun y => Addr_String (V4 y)) ys /\ StronglySorted Z.lt ys /\
        forall y, y ∈ ys <->
          Contains (mkPrefix (V4 3221225989) 29) (V4 y) = true /\ (29 < 31 -> y <> network 3221225989 29 /\ y <> broadcast 3221225989 29)
  end.
Proof. split; [reflexivity|]. apply (expand_exact noPrefix "192.0.2.5/29" 3221225989 29); [lia|lia|reflexivity]. Defined.

Definition demoJob : DiscoveryJob := mkDiscoveryJob "discovery" "j1" "r" "hq" "192.0.2.5/29" 161 [] 1500.
Definition demoHost : DiscoveredHost := mkDiscoveredHost "192.0.2.3" "core1" "" ".1.3.6.1.4.1.9.1" "c".
Definition demoAnswers (ip : string) : option DiscoveredHost := if bool_decide (ip = "192.0.2.3") then Some demoHost else None.
Definition demoHosts : list string := ["192.0.2.1"; "192.0.2.2"; "192.0.2.3"; "192.0.2.4"; "192.0.2.5"; "192.0.2.6"].
Example sweep_runs : executeDiscovery demoAnswers noPrefix "p1" demoJob (replicate 6 Admit ++ [Finish 2; Finish 0; Finish 3; Finish 0; Finish 0; Finish 0]) =
  Some (mkDiscoveryResult "j1" "r" "p1" 6 [demoHost] "").
Proof. vm_compute. reflexivity. Qed.

Theorem sweep_exact_witness : expandCIDR noPrefix (dj_CIDR demoJob) = inl demoHosts /\
  (forall ts, len (sw_running (sweepRun demoAnswers demoHosts ts)) <= discoveryConcurrency) /\
  (forall ts, exists more, is_Some (executeDiscovery demoAnswers noPrefix "p1" demoJob (ts ++ more))) /\
  (forall ts res, executeDiscovery demoAnswers noPrefix "p1" demoJob ts = Some res ->
    dr_Scanned res = len demoHosts /\
    (dr_Error res = "" -> dr_Found res ≡ₚ omap demoAnswers demoHosts) /\
    exists missed, dr_Found res ++ missed ≡ₚ omap demoAnswers demoHosts).
Proof. split; [vm_compute; reflexivity|]. apply (sweep_exact noPrefix demoAnswers "p1" demoJob demoHosts). vm_compute. reflexivity. Defined.

Definition demoQueue : Queue :=
  mkQueue [mkDiscoveryRule "r" "hq" "192.0.2.0/29" ["c"] true]
    [mkFoundRow "f1" "r" "192.0.2.3" (Some "old") None None None "c" "ignored" 5 5;
     mkFoundRow "f2" "r" "192.0.2.4" None None (Some "a switch") None "c" "pending" 5 5] ["generic"] [].
Definition demoInet (s : string) : option string := Some s.
Definition demoResult : DiscoveryResult := mkDiscoveryResult "j1" "r" "p1" 6 [demoHost] "".

Theorem decisions_stick_witness : keyed (qu_found demoQueue) /\
  (forall rs, keyed (qu_found (handleAll demoInet (ErrText "") None demoQueue rs)) /\
    extends (qu_found demoQueue) (qu_found (handleAll demoInet (ErrText "") None demoQueue rs))) /\
  map fr_State (qu_found (handleAll demoInet (ErrText "") None demoQueue [(["x"], 9, demoResult)])) = ["ignored"; "pending"].
Proof.
  assert (keyed (qu_found demoQueue)) as Hk by (unfold keyed; apply (bool_decide_unpack _); vm_compute; exact I). split; [done|].
  split; [apply (decisions_stick demoInet (ErrText "") None demoQueue Hk)|]. vm_compute. reflexivity.
Defined.

Definition demoOnboard (q : Queue) (input : OnboardInput) : string + Err := inl ("d-" +:+ ob_Name input).
Definition demoAttach (q : Queue) (device ip : string) : option Err := None.
Definition demoIdentity (q : Queue) (name : string) : option string := None.
Definition demoRequest : ApproveRequest := mkApproveRequest "edge" "" false "".

Theorem approve_exact_witness : exists q',
  approve (ErrText "") (fun l => l) (Some demoOnboard) (Some demoAttach) (Some demoIdentity) demoQueue "f2" demoRequest = (q', CreatedDevice "d-edge") /\
  exists r input, r ∈ qu_found demoQueue /\ fr_ID r = "f2" /\ isManaged demoQueue (fr_IP r) = false /\
    ob_MgmtIP input = fr_IP r /\ ob_CredentialID input = fr_CredentialID r /\ ob_ConnectorID input = default "" (fr_ConnectorID r) /\
    (exists create, Some demoOnboard = Some create /\ create demoQueue input = inl "d-edge") /\
    q' = demoQueue <| qu_devices := qu_devices demoQueue ++ [(fr_IP r, "pending")] |> <| qu_found := map (approveRow "f2") (qu_found demoQueue) |>.
Proof.
  set (r := approve (ErrText "") (fun l => l) (Some demoOnboard) (Some demoAttach) (Some demoIdentity) demoQueue "f2" demoRequest).
  assert (r = (fst r, CreatedDevice "d-edge")) as E by (vm_compute; reflexivity). exists (fst r). split; [exact E|].
  exact (proj2 (approve_exact (ErrText "") (fun l => l) (fun l => Permutation_refl l) (Some demoOnboard) (Some demoAttach) (Some demoIdentity) demoQueue "f2" demoRequest _ _ E)).
Defined.
