(* ===== verification/Execute.v ===== *)
(** Package collection/pollerrt (runtime.go, session.go, icmp.go): what a
    poller does with one delivery. A job is decoded, run with the connector
    of its device over an SNMP session, its samples go to the pending batch
    of Poller.v, and the delivery is settled.

    The device, gosnmp and the pinger answer from a state of their own; what
    the poller does to the rest of the system is a log of events. What a
    connector does, it does through the session it is handed. *)
From Stdlib Require Import ZArith Lia.
From Stdlib Require Import SpecFloat.
From stdpp Require Import base list gmap strings numbers.
From S2P Require Import Prelude GoText World Errx Float64 Sdk Generic Vendors Wire.

(** ** The session *)

Inductive authProtocol : Type := SHA256 | SHA | MD5.
Inductive privProtocol : Type := AES256 | AES | DES.
Inductive credVersion : Type := Version2c (community : string)
  | Version3 (user authPass privPass : string) (auth : option authProtocol) (priv : option privProtocol) (authPriv : bool) (context : string).

Record GoSNMP : Type := mkGoSNMP { g_Target : string; g_Port : Z; g_Timeout : Duration; g_Retries : Z; g_Version : credVersion }.

Class Gosnmp (St : Type) : Type := {
  Connect : GoSNMP -> M St (option Err);
  gosnmpGet : GoSNMP -> list string -> M St (list Var * option Err);
  BulkWalk : GoSNMP -> string -> M St (list Var * option Err);
  deviceNow : M St Time
}.

Definition authOf (proto : string) : option authProtocol :=
  if bool_decide (proto = "sha256") then Some SHA256 else if bool_decide (proto = "sha1") then Some SHA
  else if bool_decide (proto = "md5") then Some MD5 else None.
Definition privOf (proto : string) : option privProtocol :=
  if bool_decide (proto = "aes256") then Some AES256 else if bool_decide (proto = "aes128") then Some AES
  else if bool_decide (proto = "des") then Some DES else None.

(** [NewSNMPSession], up to the connecting. *)
Definition sessionConfig (Quote : string -> string) (job : PollJob) : GoSNMP + Err :=
  let timeout := int64 (j_TimeoutMS job * Millisecond) in
  let timeout := if timeout =? 0 then 5 * Second else timeout in
  if (j_Port job <? 1) || (65535 <? j_Port job) then
    inr (ErrText ("snmp port " +:+ Itoa (j_Port job) +:+ " is out of range for device " +:+ j_DeviceID job))
  else
    let g := mkGoSNMP (j_MgmtIP job) (uint16 (j_Port job)) timeout (j_Retries job) in
    let c := j_Cred job in
    if bool_decide (sc_Version c = "v2c") then inl (g (Version2c (sc_Community c)))
    else if bool_decide (sc_Version c = "v3") then
      let priv := privOf (sc_PrivProto c) in
      inl (g (Version3 (sc_Username c) (sc_AuthPass c) (sc_PrivPass c) (authOf (sc_AuthProto c)) priv (bool_decide (is_Some priv)) (sc_Context c)))
    else inr (ErrText ("pollerrt: unsupported credential version " +:+ Quote (sc_Version c))).

(** [Get] gives nothing with an error, [Walk] what came before it. *)
#[local] Instance sessionOf {St} `{Gosnmp St} (g : GoSNMP) : Session St := {
  sGet oids := '(vars, err) ← gosnmpGet g oids; mret (match err with Some _ => [] | None => vars end, err);
  sWalk root := BulkWalk g root;
  sNow := deviceNow
}.

(** ** ICMP *)

(** What the pinger has to say: it could not run, or its statistics. *)
Record Statistics : Type := mkStatistics {
  st_PacketsRecv : Z; st_PacketLoss : float64; st_Rtts : list Duration; st_MinRtt : Duration; st_AvgRtt : Duration; st_MaxRtt : Duration
}.

Section icmp.
(** the bits of a float64, as a message carries it *)
Context (bits : float64 -> Z).

Definition fabs (f : float64) : float64 := SFabs f.
Fixpoint jitterSum (sum : float64) (rtts : list Duration) : float64 :=
  match rtts with
  | r0 :: ((r1 :: _) as rest) => jitterSum (fadd sum (fabs (fsub (Seconds_float r1) (Seconds_float r0)))) rest
  | _ => sum
  end.
Definition jitter (rtts : list Duration) : float64 :=
  if 1 <? len rtts then fdiv (jitterSum (float_of 0) rtts) (float_of (len rtts - 1)) else float_of 0.

Definition probeICMP (device : string) (now : Time) (stats : Statistics + Err) : list Sample * option Err :=
  let s := fun name labels v => mkSample device name labels (now / Millisecond) (bits v) in
  match stats with
  | inr err => ([s "netinv_icmp_probe_error" ∅ (float_of 1)], Some err)
  | inl st =>
      let loss := fdiv (st_PacketLoss st) (float_of 100) in
      let loss := match loss with S754_nan => float_of 1 | _ => loss end in
      ([s "netinv_icmp_up" ∅ (float_of (if 0 <? st_PacketsRecv st then 1 else 0));
        s "netinv_icmp_loss_ratio" ∅ loss;
        s "netinv_icmp_probe_error" ∅ (float_of 0)] ++
       (if 0 <? st_PacketsRecv st then
          [s "netinv_icmp_rtt_seconds" {["stat" := "min"]} (Seconds_float (st_MinRtt st));
           s "netinv_icmp_rtt_seconds" {["stat" := "avg"]} (Seconds_float (st_AvgRtt st));
           s "netinv_icmp_rtt_seconds" {["stat" := "max"]} (Seconds_float (st_MaxRtt st));
           s "netinv_icmp_jitter_seconds" ∅ (jitter (st_Rtts st))]
        else []), None)
  end.
End icmp.

(** ** Connectors *)

(** What a connector can collect; a capability it lacks is missing. *)
Record Collector (St : Type) : Type := mkCollector {
  co_Interfaces : option (Session St -> M St (outcome (list Sdk.Sample + Err)));
  co_Health : option (Session St -> M St (list Sdk.Sample + Err));
  co_Inventory : option (Session St -> M St (InventorySnapshot + Err));
  co_Topology : option (Session St -> M St (list Adjacency + Err))
}.
Arguments mkCollector {St}.
Arguments co_Interfaces {St}.
Arguments co_Health {St}.
Arguments co_Inventory {St}.
Arguments co_Topology {St}.

(** The nil connector, which the type assertions find lacking everything. *)
Definition noConnector {St} : Collector St := mkCollector None None None None.

(** The connectors of the repository. *)
Definition inTree {St} `{MapRange} (ToLower : string -> string) (EqualFold : string -> string -> bool) (showFloat : float64 -> string) (ParseFloat : string -> option float64) (id : string) : Collector St :=
  mkCollector (Some (fun _ => CollectInterfaces))
    (Some (fun _ => out ← healthOf ToLower EqualFold showFloat ParseFloat id; mret (inl out)))
    (Some (fun _ => inventoryOf showFloat id))
    (Some (fun _ => adjs ← CollectTopology showFloat; mret (inl adjs))).

(** ** One delivery *)

(** What reaches the rest of the system: a session opened or closed, a poll
    counted as good or failed, samples appended to the pending batch, a message published, a sweep run, the
    settlement of the delivery. *)
Inductive event : Type :=
  | Opened (g : GoSNMP)
  | Closed
  | Counted (ok : bool)
  | Appended (samples : list Sample)
  | Published (r : SyncResult)
  | Swept (job : DiscoveryJob)
  | Acked
  | Rejected.

(** What the body of a delivery decodes to: nothing, a poll, or a job of the
    family discovery, whose own fields may not decode. *)
Inductive delivery : Type :=
  | Malformed
  | Poll (job : PollJob)
  | Sweep (job : option DiscoveryJob).

Section deliveries.
Context {St : Type} `{Gosnmp St}.
Context (Quote : string -> string) (bits : float64 -> Z) (PollerID : string).
Context (ByID : string -> option (Collector St)).
(** the clock, the pinger, the broker's answer to a result, a sweep's error *)
Context (clock : M St Time) (ping : PollJob -> M St (Statistics + Err)) (confirm : SyncResult -> M St (option Err))
  (executeDiscovery : DiscoveryJob -> M St (option Err)).

Abbreviation W := (St * list event)%type.
Definition on {A} (m : M St A) : M W A := fun w => let '(a, s) := m w.1 in (a, (s, w.2)).
Definition act (e : event) : M W unit := fun w => (tt, (w.1, w.2 ++ [e])).

(** [NewSNMPSession]. *)
Definition NewSession (job : PollJob) : M W (GoSNMP + Err) :=
  match sessionConfig Quote job with
  | inr e => mret (inr e)
  | inl g =>
      err ← on (Connect g);
      match err with
      | Some e => mret (inr (ErrWrap "pollerrt: connect" e))
      | None => _ ← act (Opened g); mret (inl g)
      end
  end.

Definition wireSample (device : string) (s : Sdk.Sample) : Sample :=
  mkSample device (s_Name s) (s_Labels s) (s_At s / Millisecond) (bits (s_Value s)).

(** The cases traffic and health: open, collect, close. *)
Definition collectMetrics (job : PollJob) (collect : option (Session St -> M St (outcome (list Sdk.Sample + Err)))) : M W (outcome (list Sample * option Err)) :=
  match collect with
  | None => mret (Ret ([], None))
  | Some collect =>
      sess ← NewSession job;
      match sess with
      | inr e => mret (Ret ([], Some e))
      | inl g =>
          r ←? on (collect (sessionOf g));
          _ ← act Closed;
          mret (Ret (match r with
                     | inr e => ([], Some e)
                     | inl ss => (map (wireSample (j_DeviceID job)) ss, None)
                     end))
      end
  end.

Definition wireInterface (i : InterfaceRecord) : SyncInterface :=
  mkSyncInterface (ir_IfIndex i) (ir_Name i) (ir_Alias i) (ir_Descr i) (ir_IfType i) (ir_MTU i) (ir_SpeedBPS i)
    (ir_PhysAddress i) (ir_AdminStatus i) (ir_OperStatus i).
Definition wireAdjacency (a : Adjacency) : SyncAdjacency :=
  mkSyncAdjacency (ad_LocalIfIndex a) (ad_RemoteSysName a) (ad_RemotePortID a) (ad_RemoteChassis a) (ad_Protocol a).
Definition wireSnapshot (snap : InventorySnapshot) (adjs : list Adjacency) : SyncSnapshot :=
  mkSyncSnapshot (Sdk.sn_SysName snap) (Sdk.sn_SysDescr snap) (Sdk.sn_SysObjectID snap) (Sdk.sn_SysLocation snap) (Sdk.sn_SysContact snap)
    (Sdk.sn_UptimeS snap) (Sdk.sn_Vendor snap) (Sdk.sn_Model snap) (Sdk.sn_Serial snap) (Sdk.sn_OSVersion snap)
    (map wireInterface (Sdk.sn_Interfaces snap)) (map wireAdjacency adjs).

(** Neighbours that cannot be had leave the snapshot without any. *)
Definition neighbours (conn : Collector St) (g : GoSNMP) : M W (list Adjacency) :=
  match co_Topology conn with
  | None => mret []
  | Some topo => r ← on (topo (sessionOf g)); mret (match r with inl adjs => adjs | inr _ => [] end)
  end.

(** Publishing the result: the broker's error goes before that of the device. *)
Definition publishSync (res : SyncResult) (err : option Err) : M W (option Err) :=
  _ ← act (Published res);
  perr ← on (confirm res);
  mret (match perr with Some e => Some e | None => err end).

Definition executeSync (conn : Collector St) (job : PollJob) : M W (option Err) :=
  now ← on clock;
  let res := mkSyncResult (j_JobID job) (j_DeviceID job) PollerID (j_Trigger job) now in
  let failed := fun e => res (Err_Error e) None in
  match co_Inventory conn with
  | None => mret None
  | Some inv =>
      sess ← NewSession job;
      match sess with
      | inr e => publishSync (failed e) (Some e)
      | inl g =>
          r ← on (inv (sessionOf g));
          err ← match r with
                | inr e => publishSync (failed e) (Some e)
                | inl snap => adjs ← neighbours conn g; publishSync (res "" (Some (wireSnapshot snap adjs))) None
                end;
          _ ← act Closed;
          mret err
      end
  end.

Definition connectorOf (id : string) : Collector St :=
  match ByID id with Some c => c | None => default noConnector (ByID "generic") end.

Definition execute (job : PollJob) : M W (outcome (list Sample * option Err)) :=
  let conn := connectorOf (j_ConnectorID job) in
  if bool_decide (j_Family job = "traffic") then collectMetrics job (co_Interfaces conn)
  else if bool_decide (j_Family job = "icmp") then
    stats ← on (ping job); now ← on clock; mret (Ret (probeICMP bits (j_DeviceID job) now stats))
  else if bool_decide (j_Family job = "sync") then err ← executeSync conn job; mret (Ret ([], err))
  else if bool_decide (j_Family job = "health") then
    collectMetrics job (collect ← co_Health conn; Some (fun s => r ← collect s; mret (Ret r)))
  else mret (Ret ([], None)).

Definition outcomeSamples (family device : string) (ok : bool) (now : Time) (dur : Duration) : list Sample :=
  [mkSample device "netinv_poll_success" {["family" := family]} (now / Millisecond) (bits (float_of (if ok then 1 else 0)));
   mkSample device "netinv_poll_duration_seconds" {["family" := family]} (now / Millisecond) (bits (Seconds_float dur))].

(** [handle]: the delivery is acknowledged whatever came of the job. *)
Definition handle (d : delivery) : M W (outcome unit) :=
  match d with
  | Malformed | Sweep None => _ ← act Rejected; mret (Ret tt)
  | Sweep (Some job) => _ ← on (executeDiscovery job); _ ← act (Swept job); _ ← act Acked; mret (Ret tt)
  | Poll job =>
      start ← on clock;
      r ←? execute job;
      stop ← on clock;
      let ok := bool_decide (r.2 = None) in
      _ ← act (Counted ok);
      now ← on clock;
      _ ← act (Appended (r.1 ++ outcomeSamples (j_Family job) (j_DeviceID job) ok now (time_Sub stop start)));
      _ ← act Acked;
      mret (Ret tt)
  end.

(** * Properties *)

(** A sample of a connector as it is sent: of the device of the job, to the
    millisecond. *)
Definition sentAs (device : string) (a : Sdk.Sample) (b : Sample) : Prop :=
  b = mkSample device (s_Name a) (s_Labels a) (s_At a / 1000000) (bits (s_Value a)).

(** A snapshot says what the connector said, field by field. *)
Definition sameInterface (a : InterfaceRecord) (b : SyncInterface) : Prop :=
  b = mkSyncInterface (ir_IfIndex a) (ir_Name a) (ir_Alias a) (ir_Descr a) (ir_IfType a) (ir_MTU a) (ir_SpeedBPS a)
    (ir_PhysAddress a) (ir_AdminStatus a) (ir_OperStatus a).
Definition sameAdjacency (a : Adjacency) (b : SyncAdjacency) : Prop :=
  b = mkSyncAdjacency (ad_LocalIfIndex a) (ad_RemoteSysName a) (ad_RemotePortID a) (ad_RemoteChassis a) (ad_Protocol a).
Definition says (snap : InventorySnapshot) (adjs : list Adjacency) (b : SyncSnapshot) : Prop :=
  exists ifaces neighbours, Forall2 sameInterface (Sdk.sn_Interfaces snap) ifaces /\ Forall2 sameAdjacency adjs neighbours /\
  b = mkSyncSnapshot (Sdk.sn_SysName snap) (Sdk.sn_SysDescr snap) (Sdk.sn_SysObjectID snap) (Sdk.sn_SysLocation snap) (Sdk.sn_SysContact snap)
    (Sdk.sn_UptimeS snap) (Sdk.sn_Vendor snap) (Sdk.sn_Model snap) (Sdk.sn_Serial snap) (Sdk.sn_OSVersion snap) ifaces neighbours.

(** The session of a job, from the state [s]: refused or not reached, for the
    reason given, or open. *)
Inductive reaches (job : PollJob) (s : St) : (GoSNMP + Err) -> St -> Prop :=
  | reaches_refused e : sessionConfig Quote job = inr e -> reaches job s (inr e) s
  | reaches_lost g e s' : sessionConfig Quote job = inl g -> Connect g s = (Some e, s') -> reaches job s (inr (ErrWrap "pollerrt: connect" e)) s'
  | reaches_open g s' : sessionConfig Quote job = inl g -> Connect g s = (None, s') -> reaches job s (inl g) s'.

(** A collection for samples: whether it went well, its samples, its events. *)
Inductive collects (job : PollJob) (collect : option (Session St -> M St (outcome (list Sdk.Sample + Err)))) (s : St)
    : bool -> list Sample -> list event -> St -> Prop :=
  | collects_nothing : collect = None -> collects job collect s true [] [] s
  | collects_unreached e s' : is_Some collect -> reaches job s (inr e) s' -> collects job collect s false [] [] s'
  | collects_failed f g e s1 s2 : collect = Some f -> reaches job s (inl g) s1 -> f (sessionOf g) s1 = (Ret (inr e), s2) ->
      collects job collect s false [] [Opened g; Closed] s2
  | collects_done f g ss samples s1 s2 : collect = Some f -> reaches job s (inl g) s1 -> f (sessionOf g) s1 = (Ret (inl ss), s2) ->
      Forall2 (sentAs (j_DeviceID job)) ss samples -> collects job collect s true samples [Opened g; Closed] s2.

(** The neighbours a snapshot is given: none where they cannot be had. *)
Inductive meets (conn : Collector St) (g : GoSNMP) (s : St) : list Adjacency -> St -> Prop :=
  | meets_nobody : co_Topology conn = None -> meets conn g s [] s
  | meets_failed topo e s' : co_Topology conn = Some topo -> topo (sessionOf g) s = (inr e, s') -> meets conn g s [] s'
  | meets_some topo adjs s' : co_Topology conn = Some topo -> topo (sessionOf g) s = (inl adjs, s') -> meets conn g s adjs s'.

(** A sync, from after its clock said [now]: the one result it tells, or none of
    a device whose connector has no inventory. *)
Inductive syncs (job : PollJob) (now : Time) (s : St) : bool -> list event -> St -> Prop :=
  | syncs_nothing : co_Inventory (connectorOf (j_ConnectorID job)) = None -> syncs job now s true [] s
  | syncs_unreached e perr s1 s2 : is_Some (co_Inventory (connectorOf (j_ConnectorID job))) -> reaches job s (inr e) s1 ->
      let r := mkSyncResult (j_JobID job) (j_DeviceID job) PollerID (j_Trigger job) now (Err_Error e) None in
      confirm r s1 = (perr, s2) -> syncs job now s false [Published r] s2
  | syncs_failed inv g e perr s1 s2 s3 : co_Inventory (connectorOf (j_ConnectorID job)) = Some inv -> reaches job s (inl g) s1 ->
      inv (sessionOf g) s1 = (inr e, s2) ->
      let r := mkSyncResult (j_JobID job) (j_DeviceID job) PollerID (j_Trigger job) now (Err_Error e) None in
      confirm r s2 = (perr, s3) -> syncs job now s false [Opened g; Published r; Closed] s3
  | syncs_done inv g snap adjs b perr s1 s2 s3 s4 : co_Inventory (connectorOf (j_ConnectorID job)) = Some inv -> reaches job s (inl g) s1 ->
      inv (sessionOf g) s1 = (inl snap, s2) -> meets (connectorOf (j_ConnectorID job)) g s2 adjs s3 -> says snap adjs b ->
      let r := mkSyncResult (j_JobID job) (j_DeviceID job) PollerID (j_Trigger job) now "" (Some b) in
      confirm r s3 = (perr, s4) -> syncs job now s (bool_decide (perr = None)) [Opened g; Published r; Closed] s4.

(** A job by its family. *)
Inductive course (job : PollJob) (s : St) : bool -> list Sample -> list event -> St -> Prop :=
  | course_traffic ok samples pre s' : j_Family job = "traffic" ->
      collects job (co_Interfaces (connectorOf (j_ConnectorID job))) s ok samples pre s' -> course job s ok samples pre s'
  | course_health ok samples pre s' : j_Family job = "health" ->
      collects job (f ← co_Health (connectorOf (j_ConnectorID job)); Some (fun sess => r ← f sess; mret (Ret r))) s ok samples pre s' ->
      course job s ok samples pre s'
  | course_icmp stats now s1 s2 : j_Family job = "icmp" -> ping job s = (stats, s1) -> clock s1 = (now, s2) ->
      course job s (bool_decide (is_Some (match stats with inl st => Some st | inr _ => None end))) (probeICMP bits (j_DeviceID job) now stats).1 [] s2
  | course_sync now ok pre s1 s2 : j_Family job = "sync" -> clock s = (now, s1) -> syncs job now s1 ok pre s2 -> course job s ok [] pre s2
  | course_other : j_Family job ∉ ["traffic"; "health"; "icmp"; "sync"] -> course job s true [] [] s.

(** One delivery from the state [s]: its events, and the state after. *)
Definition settled (d : delivery) (s : St) (log : list event) (s' : St) : Prop :=
  match d with
  | Malformed | Sweep None => log = [Rejected] /\ s' = s
  | Sweep (Some job) => log = [Swept job; Acked] /\ exists e, executeDiscovery job s = (e, s')
  | Poll job => exists start s0 ok samples pre s1 stop s2 now,
      clock s = (start, s0) /\ course job s0 ok samples pre s1 /\ clock s1 = (stop, s2) /\ clock s2 = (now, s') /\
      log = pre ++ [Counted ok;
        Appended (samples ++
          [mkSample (j_DeviceID job) "netinv_poll_success" {["family" := j_Family job]} (now / 1000000) (bits (float_of (if ok then 1 else 0)));
           mkSample (j_DeviceID job) "netinv_poll_duration_seconds" {["family" := j_Family job]} (now / 1000000) (bits (Seconds_float (time_Sub stop start)))]);
        Acked]
  end.

(** A collector that comes to its end. *)
Definition total (collect : option (Session St -> M St (outcome (list Sdk.Sample + Err)))) : Prop :=
  match collect with Some f => forall sess s, exists r s', f sess s = (Ret r, s') | None => True end.

Lemma NewSession_cases job w : exists r s', reaches job w.1 r s' /\
  NewSession job w = (r, (s', w.2 ++ match r with inl g => [Opened g] | inr _ => [] end)).
Proof.
  unfold NewSession, mbind, M_bind. destruct (sessionConfig Quote job) as [g|e] eqn:E.
  - unfold on. destruct (Connect g w.1) as [[e|] s] eqn:Ec; eexists _, s; (split; [by econstructor|]); [by rewrite app_nil_r|done].
  - exists (inr e), w.1. split; [by constructor|]. rewrite app_nil_r. by destruct w.
Qed.

Lemma collectMetrics_course job collect w : total collect -> exists samples err s pre,
  collectMetrics job collect w = (Ret (samples, err), (s, w.2 ++ pre)) /\ collects job collect w.1 (bool_decide (err = None)) samples pre s.
Proof.
  intros Ht. destruct collect as [f|]; [|exists [], None, w.1, []; rewrite app_nil_r; split; [by destruct w|by constructor]].
  unfold collectMetrics, obind, mbind, M_bind. destruct (NewSession_cases job w) as ([g|e] & s & Hr & ->).
  2: { exists [], (Some e), s, []. split; [done|]. eapply collects_unreached; [done|exact Hr]. }
  unfold on. simpl. destruct (Ht (sessionOf g) s) as (r & s' & E). rewrite E. simpl. destruct r as [ss|e].
  - eexists _, _, s', [Opened g; Closed]. rewrite <- (assoc_L (++)). split; [done|]. eapply collects_done; [done..|].
    apply Forall2_fmap_r, Forall_Forall2_diag, List.Forall_forall. done.
  - eexists _, _, s', [Opened g; Closed]. rewrite <- (assoc_L (++)). split; [done|]. by eapply collects_failed.
Qed.

Lemma publishSync_log res err w : exists s perr, confirm res w.1 = (perr, s) /\
  publishSync res err w = (match perr with Some e => Some e | None => err end, (s, w.2 ++ [Published res])).
Proof. unfold publishSync, mbind, M_bind, act, on. simpl. destruct (confirm res w.1) as [perr s]. by exists s, perr. Qed.

Lemma neighbours_meets conn g w : exists adjs s, neighbours conn g w = (adjs, (s, w.2)) /\ meets conn g w.1 adjs s.
Proof.
  unfold neighbours, mbind, M_bind, on. destruct (co_Topology conn) as [topo|] eqn:E; [|exists [], w.1; split; [by destruct w|by constructor]].
  destruct (topo (sessionOf g) w.1) as [[adjs|e] s] eqn:Et; eexists _, s; (split; [done|]); [by eapply meets_some|by eapply meets_failed].
Qed.

Lemma wireSnapshot_says snap adjs : says snap adjs (wireSnapshot snap adjs).
Proof.
  unfold says, wireSnapshot. eexists _, _. split; [|split; [|done]]; apply Forall2_fmap_r, Forall_Forall2_diag, List.Forall_forall; done.
Qed.

Lemma executeSync_course job w : exists err s now s0 pre, executeSync (connectorOf (j_ConnectorID job)) job w = (err, (s, w.2 ++ pre)) /\
  clock w.1 = (now, s0) /\ syncs job now s0 (bool_decide (err = None)) pre s.
Proof.
  unfold executeSync. set (conn := connectorOf _). unfold mbind, M_bind. unfold on at 1. destruct (clock w.1) as [now s0] eqn:Ec.
  destruct (co_Inventory conn) as [inv|] eqn:Ei.
  2:{ exists None, s0, now, s0, []. rewrite app_nil_r. split; [done|]. split; [done|]. by constructor. }
  destruct (NewSession_cases job (s0, w.2)) as ([g|e] & s & Hr & ->); cbn [fst snd] in *.
  2:{ destruct (publishSync_log (mkSyncResult (j_JobID job) (j_DeviceID job) PollerID (j_Trigger job) now (Err_Error e) None) (Some e) (s, w.2 ++ [])) as (s' & perr & Hc & ->).
    eexists _, s', now, s0, [_]. rewrite app_nil_r. split; [done|]. split; [done|]. rewrite bool_decide_false by (by destruct perr).
    eapply syncs_unreached; [by eexists|exact Hr|exact Hc]. }
  unfold on. cbn [fst snd]. destruct (inv (sessionOf g) s) as [[snap|e] s1] eqn:Ev.
  - destruct (neighbours_meets conn g (s1, w.2 ++ [Opened g])) as (adjs & s2 & -> & Hm). cbn [fst snd] in *.
    destruct (publishSync_log (mkSyncResult (j_JobID job) (j_DeviceID job) PollerID (j_Trigger job) now "" (Some (wireSnapshot snap adjs))) None (s2, w.2 ++ [Opened g])) as (s' & perr & Hc & ->).
    simpl. eexists _, s', now, s0, [Opened g; Published _; Closed]. rewrite <- !(assoc_L (++)). split; [done|]. split; [done|].
    assert (bool_decide (match perr with Some e => Some e | None => None end = None) = bool_decide (perr = None)) as -> by (by destruct perr).
    eapply syncs_done; [done|exact Hr|exact Ev|exact Hm|apply wireSnapshot_says|exact Hc].
  - destruct (publishSync_log (mkSyncResult (j_JobID job) (j_DeviceID job) PollerID (j_Trigger job) now (Err_Error e) None) (Some e) (s1, w.2 ++ [Opened g])) as (s' & perr & Hc & ->).
    simpl. eexists _, s', now, s0, [Opened g; Published _; Closed]. rewrite <- !(assoc_L (++)). split; [done|]. split; [done|].
    rewrite bool_decide_false by (by destruct perr). eapply syncs_failed; [done|exact Hr|exact Ev|exact Hc].
Qed.

Lemma probeICMP_ok device now stats :
  bool_decide ((probeICMP bits device now stats).2 = None) = bool_decide (is_Some (match stats with inl st => Some st | inr _ => None end)).
Proof. apply bool_decide_ext. destruct stats; simpl; naive_solver. Qed.

Lemma execute_course job w : total (co_Interfaces (connectorOf (j_ConnectorID job))) -> exists samples err s pre,
  execute job w = (Ret (samples, err), (s, w.2 ++ pre)) /\ course job w.1 (bool_decide (err = None)) samples pre s.
Proof.
  intros Ht. unfold execute. repeat case_bool_decide.
  - destruct (collectMetrics_course job _ w Ht) as (samples & err & s & pre & -> & Hc). exists samples, err, s, pre. split; [done|]. by constructor.
  - unfold mbind, M_bind, on. destruct (ping job w.1) as [stats s1] eqn:Ep. simpl. destruct (clock s1) as [now s2] eqn:Ec. simpl.
    pose proof (probeICMP_ok (j_DeviceID job) now stats) as Eok. destruct (probeICMP _ _ _ _) as [samples err] eqn:Epr. cbn [snd] in Eok. exists samples, err, s2, []. rewrite app_nil_r. split; [done|].
    rewrite Eok. replace samples with (probeICMP bits (j_DeviceID job) now stats).1 by (by rewrite Epr). by econstructor.
  - destruct (executeSync_course job w) as (err & s & now & s0 & pre & E & Hk & Hc). unfold mbind, M_bind. rewrite E. exists [], err, s, pre. split; [done|]. by econstructor.
  - set (collect := co_Health _ ≫= _). destruct (collectMetrics_course job collect w) as (samples & err & s & pre & -> & Hc).
    { unfold collect. destruct (co_Health _) as [f|]; simpl; [|done]. intros sess s. unfold mbind, M_bind. destruct (f sess s) as [r s']. by exists r, s'. }
    exists samples, err, s, pre. split; [done|]. by apply course_health.
  - exists [], None, w.1, []. rewrite app_nil_r. split; [by destruct w|]. apply course_other.
    intros [?|[?|[?|[?|?%elem_of_nil]%elem_of_cons]%elem_of_cons]%elem_of_cons]%elem_of_cons; done.
Qed.

End deliveries.

(** The connectors of the repository come to their ends. *)
Section in_tree.
Context {W : Type} `{Session W, MapRange}.

Lemma probeLoop_total fuel now cm : forall missing r w, (length missing < fuel)%nat -> exists r' w', probeLoop fuel now cm missing r w = (Ret r', w').
Proof.
  induction fuel as [|fuel IH]; intros missing r w Hf; [lia|]. cbn [probeLoop].
  destruct (bool_decide (missing = []) || _) eqn:E; [by eexists _, _|]. apply orb_false_iff in E as [E%bool_decide_eq_false _].
  unfold mbind, M_bind. destruct (sGet _ w) as [[vars [e|]] w']; [by eexists _, _|]. apply IH.
  rewrite length_drop. destruct missing; [done|]. simpl in *. unfold probeBatch. lia.
Qed.
Lemma repairLoop_total now ifT ifX idxs cols : forall r w, exists r' w', repairLoop now ifT ifX idxs cols r w = (Ret r', w').
Proof.
  induction cols as [|cm cols IH]; intros r w; cbn [repairLoop]; [by eexists _, _|]. destruct (_ <=? 0); [by eexists _, _|].
  destruct (_ || _); [apply IH|].
  destruct (probeLoop_total (S (length (missingOf (pick ifT ifX (table cm)) (rp_seen r) cm idxs))) now cm
    (missingOf (pick ifT ifX (table cm)) (rp_seen r) cm idxs) r w) as (r1 & w1 & E); [lia|].
  rewrite (obind_ret _ _ _ _ _ E). apply IH.
Qed.
Lemma CollectInterfaces_total w : exists r w', CollectInterfaces w = (Ret r, w').
Proof.
  unfold CollectInterfaces, walk, mbind, M_bind. destruct (sNow w) as [now w1]. cbn -[trafficLoop fillCounterGaps].
  destruct (sWalk oidIfTable w1) as [[vars [e|]] w2]; cbn -[trafficLoop fillCounterGaps]; [by eexists _, _|].
  destruct (sWalk oidIfXTable w2) as [[varsX errX] w3]; cbn -[trafficLoop fillCounterGaps]. destruct (trafficLoop _ _ _) as [seen samples].
  set (ifX := match _ with inl m => m | inr _ => ∅ end). unfold fillCounterGaps. unfold obind at 1. unfold mbind, M_bind.
  case_bool_decide; [by eexists _, _|].
  destruct (repairLoop_total now (byOID vars) ifX (indexes (byOID vars)) trafficCols (mkRepair seen samples 0 maxProbeVarbinds) w3) as (r1 & w4 & E).
  rewrite (obind_ret _ _ _ _ _ E). by eexists _, _.
Qed.
End in_tree.

(** A probe that could not run says so and nothing of the device; one that ran
    says whether the device answered. *)
Lemma probe_honest bits device now stats :
  let '(samples, err) := probeICMP bits device now stats in
  (err = None <-> exists st, stats = inl st) /\
  (forall s, s ∈ samples -> sm_DeviceID s = device) /\
  match stats with
  | inr _ => samples = [mkSample device "netinv_icmp_probe_error" ∅ (now / Millisecond) (bits (float_of 1))]
  | inl st =>
      head samples = Some (mkSample device "netinv_icmp_up" ∅ (now / Millisecond) (bits (float_of (if 0 <? st_PacketsRecv st then 1 else 0)))) /\
  mkSample device "netinv_icmp_probe_error" ∅ (now / Millisecond) (bits (float_of 0)) ∈ samples
  end.
Proof.
  destruct stats as [st|e]; simpl; split_and!; [naive_solver| |done|set_solver|naive_solver|set_solver|done].
  intros s Hs. destruct (0 <? _); set_solver.
Qed.

(** A session is opened to the port of the job or not at all. *)
Lemma session_port Quote job g : sessionConfig Quote job = inl g -> g_Port g = j_Port job /\ 1 <= g_Port g <= 65535.
Proof.
  unfold sessionConfig. destruct (_ || _) eqn:E; [done|]. apply orb_false_iff in E as [E1%Z.ltb_ge E2%Z.ltb_ge].
  assert (uint16 (j_Port job) = j_Port job) as Eu by (apply Z.mod_small; lia). rewrite Eu.
  case_bool_decide; [intros [= <-]; simpl; lia|]. case_bool_decide; [intros [= <-]; simpl; lia|done].
Qed.

(** ** Examples *)

(** A device that answers its system group and walks to nothing; a connect to
    port 1 fails. *)
#[local] Instance demoGosnmp : Gosnmp unit := {
  Connect g := mret (if g_Port g =? 1 then Some (ErrText "refused") else None);
  gosnmpGet g oids := mret (map (fun oid => mkVar oid (VString "x")) oids, None);
  BulkWalk g root := mret ([], None);
  deviceNow := mret 0
}.
Definition demoCred : SNMPCred := mkSNMPCred "v2c" "public" "" "" "" "" "" "".
Definition demoPoll (family : string) (port : Z) : PollJob :=
  mkPollJob "j1" "d1" "hq" family "schedule" "192.0.2.3" port "cisco-ios" demoCred 0 60 2000 1.
Definition demoByID (id : string) : option (Collector unit) :=
  Some (@inTree unit anyRange (fun s => s) (fun a b => bool_decide (a = b)) (fun _ => "0") (fun _ => None) id).
Definition demoClock : M unit Time := mret (10 * Second).
Definition demoPing (job : PollJob) : M unit (Statistics + Err) := mret (inr (ErrText "no socket")).
Definition demoConfirm (r : SyncResult) : M unit (option Err) := mret None.
Definition demoSweep (job : DiscoveryJob) : M unit (option Err) := mret None.
Definition demoHandle := handle (fun s => s) (fun _ => 0) "p1" demoByID demoClock demoPing demoConfirm demoSweep.

Definition eventName (e : event) : string :=
  match e with
  | Opened _ => "opened" | Closed => "closed" | Counted ok => if ok then "ok" else "failed" | Appended _ => "appended" | Published r => if decide (sr_Error r = "") then "snapshot" else sr_Error r
  | Swept _ => "swept" | Acked => "acked" | Rejected => "rejected"
  end.
Definition storyOf (d : delivery) : list string := map eventName (snd (snd (demoHandle d (tt, [])))).

Example story_sync : storyOf (Poll (demoPoll "sync" 161)) = ["opened"; "snapshot"; "closed"; "ok"; "appended"; "acked"].
Proof. vm_compute. reflexivity. Qed.
Example story_refused : storyOf (Poll (demoPoll "sync" 1)) = ["pollerrt: connect: refused"; "failed"; "appended"; "acked"].
Proof. vm_compute. reflexivity. Qed.
Example story_traffic : storyOf (Poll (demoPoll "traffic" 161)) = ["opened"; "closed"; "ok"; "appended"; "acked"].
Proof. vm_compute. reflexivity. Qed.
Example story_port : storyOf (Poll (demoPoll "health" 99999)) = ["failed"; "appended"; "acked"].
Proof. vm_compute. reflexivity. Qed.

