(* ===== verification/Live.v ===== *)
(** Package maps (live.go): what a published map shows of the present. Rates
    are carried through gaps of collection, interfaces are followed when they
    are renumbered, and the age of what is shown travels with it.

    The metrics store, the rows of the database and the cache answer from
    outside; a query that fails gives what the code makes of it. *)
From Stdlib Require Import ZArith Lia SpecFloat.
From stdpp Require Import base list gmap strings pretty numbers.
From S2P Require Import Prelude GoText Errx Float64 MapDoc Polling.

Record NodeLive : Type := mkNodeLive { nl_ID : string; nl_State : string }.
Record LinkLive : Type := mkLinkLive {
  ll_ID : string; ll_InBPS : float64; ll_OutBPS : float64; ll_UtilIn : float64; ll_UtilOut : float64; ll_State : string;
  ll_CapacityBPS : float64; ll_DataAgeS : Z
}.
#[export] Instance eta_LinkLive : Eta LinkLive := fun l =>
  mkLinkLive (ll_ID l) (ll_InBPS l) (ll_OutBPS l) (ll_UtilIn l) (ll_UtilOut l) (ll_State l) (ll_CapacityBPS l) (ll_DataAgeS l).
Record LiveData : Type := mkLiveData { lv_AsOf : Time; lv_Nodes : list NodeLive; lv_Links : list LinkLive }.

Definition zero : float64 := float_of 0.

(** ** Windows *)

Definition pollOr60 (PollInterval : option Duration) : Duration :=
  let poll := default 0 PollInterval in if poll <=? 0 then 60 * Second else poll.

Definition staleAfter (PollInterval : option Duration) : Z :=
  let s := int_of (Seconds_float (2 * pollOr60 PollInterval)) in if s <? 120 then 120 else s.

(** The window of a rate, and how far back a value is carried. *)
Definition windows (PollInterval : option Duration) : Duration * Duration :=
  let rate := 4 * pollOr60 PollInterval in
  let rate := if rate <? 5 * Minute then 5 * Minute else rate in
  let carry := 6 * rate in
  (rate, if Hour <? carry then Hour else carry).

Definition dur (d : Duration) : string :=
  let d := if d <? Second then Second else d in Itoa (int_of (Seconds_float d)) +:+ "s".

(** ** One link *)

(** A device and an interface index, as the labels of a series have them. *)
Abbreviation key := (string * string)%type.

Definition linkEndpoint (l : Link) : option (Endpoint * bool) :=
  match l_AEndpoint l, l_BEndpoint l with
  | Some a, _ => Some (a, false)
  | None, Some b => Some (b, true)
  | None, None => None
  end.

(** The loop over the two ends; [None] when an end is not known. *)
Fixpoint slowestOf (wan : gmap string float64) (slowest : float64) (eps : list (option Endpoint)) : option float64 :=
  match eps with
  | [] => Some slowest
  | None :: eps => slowestOf wan slowest eps
  | Some ep :: eps =>
      match wan !! ep_DeviceID ep with
      | Some c =>
          if fle c zero then None
          else slowestOf wan (if feq slowest zero || flt c slowest then c else slowest) eps
      | None => None
      end
  end.
Definition linkCapacity (l : Link) (ifSpeed : float64) (wan : gmap string float64) : float64 :=
  if 0 <? l_BandwidthBPS l then float_of (l_BandwidthBPS l)
  else if flt zero ifSpeed then ifSpeed
  else default zero (slowestOf wan zero [l_AEndpoint l; l_BEndpoint l]).

(** What the queries gave. *)
Record readings : Type := mkReadings {
  rateIn : gmap key float64; rateOut : gmap key float64; speed : gmap key float64; oper : gmap key float64; lastSeen : gmap key float64;
  curIdx : gmap string string; icmpUp : gmap string float64; worst : gmap string string; wan : gmap string float64
}.

Definition at_ {K} `{Countable K} (m : gmap K float64) (k : K) : float64 := default zero (m !! k).

(** The interface a link is read from: the index it has now, or else the one
    drawn. *)
Definition linkKey (r : readings) (l : Link) (ep : Endpoint) (mirrored : bool) : key :=
  let drawn := Itoa (ep_IfIndex ep) in
  (ep_DeviceID ep,
   match curIdx r !! (l_ID l +:+ (if mirrored then "/b" else "/a")) with
   | Some cur => if bool_decide (cur = "") then drawn else cur
   | None => drawn
   end).

Definition operState (status : float64) : string :=
  if feq status (float_of 1) then "up" else if feq status (float_of 2) then "down" else "nodata".

(** The age in seconds of a sample at the Unix time [ts]. *)
Definition ageOf (now : Time) (ts : float64) : Z := int_of (Seconds_float (time_Sub now (time_Unix (int_of ts) 0))).

Definition utilOf (bps cap : float64) : float64 := if flt zero cap then fdiv (fmul (float_of 100) bps) cap else zero.

Definition withAge (stale age : Z) (ll : LinkLive) : LinkLive :=
  if 0 <? age then
    let ll := ll <| ll_DataAgeS := age |> in
    if (stale <? age) && negb (bool_decide (ll_State ll = "down")) then ll <| ll_State := "stale" |> else ll
  else ll.

Definition linkLive (r : readings) (now : Time) (stale : Z) (l : Link) : LinkLive :=
  match linkEndpoint l with
  | None => mkLinkLive (l_ID l) zero zero zero zero "nodata" zero 0
  | Some (ep, mirrored) =>
      let k := linkKey r l ep mirrored in
      let '(i, o) := if mirrored then (at_ (rateOut r) k, at_ (rateIn r) k) else (at_ (rateIn r) k, at_ (rateOut r) k) in
      let cap := linkCapacity l (at_ (speed r) k) (wan r) in
      let ll := mkLinkLive (l_ID l) i o (utilOf i cap) (utilOf o cap) (operState (at_ (oper r) k)) cap 0 in
      match lastSeen r !! k with Some ts => withAge stale (ageOf now ts) ll | None => ll end
  end.

(** ** One node *)

Definition nodeState (r : readings) (n : Node) : string :=
  if bool_decide (n_Kind n = "device") && negb (bool_decide (n_DeviceID n = "")) then
    match icmpUp r !! n_DeviceID n with
    | Some up => if feq up zero then "unreachable" else default "up" (worst r !! n_DeviceID n)
    | None => default "unknown" (worst r !! n_DeviceID n)
    end
  else "unknown".

(** ** The whole map *)

Record VMSeries : Type := mkVMSeries { vs_Labels : gmap string string; vs_Value : float64 }.
Definition label (s : VMSeries) (name : string) : string := default "" (vs_Labels s !! name).

Definition byInterface (ss : list VMSeries) : gmap key float64 :=
  foldl (fun m s => <[(label s "device_id", label s "if_index") := vs_Value s]> m) ∅ ss.
Definition byDevice (ss : list VMSeries) : gmap string float64 :=
  foldl (fun m s => <[label s "device_id" := vs_Value s]> m) ∅ ss.

(** The rows of [map_links] joined with the interfaces they are bound to. *)
Definition indexRow (m : gmap string string) (row : string * (option string * option string)) : gmap string string :=
  let '(linkKey, (aIdx, bIdx)) := row in
  let m := match aIdx with Some i => <[linkKey +:+ "/a" := i]> m | None => m end in
  match bIdx with Some i => <[linkKey +:+ "/b" := i]> m | None => m end.
Definition indexRows (rows : list (string * (option string * option string))) : gmap string string := foldl indexRow ∅ rows.
Definition severityRows (rows : list (string * Z)) : gmap string string :=
  foldl (fun m row => <[row.1 := if row.2 =? 1 then "critical" else "warning"]> m) ∅ rows.

Definition endpointDevices (l : Link) : list string :=
  omap (fun ep => match ep with Some e => if bool_decide (ep_DeviceID e = "") then None else Some (ep_DeviceID e) | None => None end)
    [l_AEndpoint l; l_BEndpoint l].
Definition wanIDs (def : MapDef) : list string :=
  omap (fun n => if bool_decide (n_DeviceID n = "") then None else Some (n_DeviceID n)) (d_Nodes def) ++
  concat (map endpointDevices (d_Links def)).

Section live.
(** the cadence, [None] when nobody tells; the metrics store; the rows of the
    three statements, those that could be read *)
Context (PollInterval : option Duration) (Query : string -> list VMSeries + Err).
Context (linkRows : list (string * (option string * option string))) (alertRows : list (string * Z)) (wanRows : list string -> list (string * Z)).

Definition wanCapacities (def : MapDef) : gmap string float64 :=
  let ids := wanIDs def in
  if bool_decide (ids = []) then ∅ else foldl (fun m row => <[row.1 := float_of row.2]> m) ∅ (wanRows ids).

Definition liveQuery (expr : string) : gmap key float64 + Err :=
  match Query expr with inl ss => inl (byInterface ss) | inr e => inr (kindError KindTransient (ErrWrap "live query" e)) end.

Definition rateExpr (metric : string) : string :=
  let '(rw, carry) := windows PollInterval in
  "last_over_time((rate(" +:+ metric +:+ "[" +:+ dur rw +:+ "]) * 8)[" +:+ dur carry +:+ ":" +:+ dur rw +:+ "])".
Definition overExpr (fn metric : string) : string := fn +:+ "(" +:+ metric +:+ "[" +:+ dur (snd (windows PollInterval)) +:+ "])".

(** The five queries, in order; the first that fails ends it. *)
Fixpoint liveQueries (exprs : list string) : list (gmap key float64) + Err :=
  match exprs with
  | [] => inl []
  | expr :: exprs =>
      match liveQuery expr with
      | inr e => inr e
      | inl m => match liveQueries exprs with inl ms => inl (m :: ms) | inr e => inr e end
      end
  end.
Definition liveExprs : list string :=
  [rateExpr "netinv_if_in_octets_total"; rateExpr "netinv_if_out_octets_total"; overExpr "last_over_time" "netinv_if_speed_bps";
   overExpr "last_over_time" "netinv_if_oper_status"; overExpr "tlast_over_time" "netinv_if_in_octets_total"].

Definition readingsOf (def : MapDef) (ms : list (gmap key float64)) : readings :=
  let m := fun i => default ∅ (ms !! i) in
  mkReadings (m 0%nat) (m 1%nat) (m 2%nat) (m 3%nat) (m 4%nat) (indexRows linkRows)
    (match Query "netinv_icmp_up" with inl ss => byDevice ss | inr _ => ∅ end) (severityRows alertRows) (wanCapacities def).

(** [Live]: what the cache holds is served as it is. *)
Definition Live (cached : option LiveData) (load : MapDef + Err) (now : Time) : LiveData + Err :=
  match cached with
  | Some data => inl data
  | None =>
      match load with
      | inr e => inr e
      | inl def =>
          match liveQueries liveExprs with
          | inr e => inr e
          | inl ms =>
              let r := readingsOf def ms in
              inl (mkLiveData now (map (fun n => mkNodeLive (n_ID n) (nodeState r n)) (d_Nodes def))
                     (map (linkLive r now (staleAfter PollInterval)) (d_Links def)))
          end
      end
  end.
End live.

(** * Properties *)

Lemma feq_finite x s m e : feq x (S754_finite s m e) = true -> x = S754_finite s m e.
Proof.
  unfold feq, SFeqb. destruct x as [[]|[]| |s' m' e']; cbn [SFcompare]; try (by destruct s). intros Hc.
  assert (forall b, (if b : bool then CompOpp (Pos.compare_cont Eq m' m) else Pos.compare_cont Eq m' m) = Eq -> m' = m) as Hm.
  { intros b. change (Pos.compare_cont Eq m' m) with (m' ?= m)%positive.
    destruct (Pos.compare_spec m' m); by destruct b. }
  destruct s', s; try done; destruct (Z.compare_spec e' e) as [->|?|?]; try done.
  - rewrite (Hm true); [done|]. by destruct (CompOpp _).
  - rewrite (Hm false); [done|]. by destruct (Pos.compare_cont _ _ _).
Qed.

(** What a link is said to be: down when the interface says so, stale when its
    newest sample is too old, up when the interface says so, and unknown
    otherwise. *)
Definition older (age : option Z) (stale : Z) : bool := match age with Some a => stale <? a | None => false end.
Definition verdict (status : float64) (age : option Z) (stale : Z) : string :=
  if feq status (float_of 2) then "down" else if older age stale then "stale"
  else if feq status (float_of 1) then "up" else "nodata".

(** The rates of the interface a link is read from, and what it is said to be. *)
Lemma link_exact r now stale l : 0 <= stale ->
  let ll := linkLive r now stale l in
  match linkEndpoint l with
  | None => ll = mkLinkLive (l_ID l) zero zero zero zero "nodata" zero 0
  | Some (ep, mirrored) =>
      let k := linkKey r l ep mirrored in
      let age := ageOf now <$> lastSeen r !! k in
      ll_ID ll = l_ID l /\ ll_State ll = verdict (at_ (oper r) k) age stale /\ ll_DataAgeS ll = Z.max 0 (default 0 age) /\
      (ll_InBPS ll, ll_OutBPS ll) = (if mirrored then (at_ (rateOut r) k, at_ (rateIn r) k) else (at_ (rateIn r) k, at_ (rateOut r) k)) /\
      ll_CapacityBPS ll = linkCapacity l (at_ (speed r) k) (wan r) /\
      ll_UtilIn ll = utilOf (ll_InBPS ll) (ll_CapacityBPS ll) /\ ll_UtilOut ll = utilOf (ll_OutBPS ll) (ll_CapacityBPS ll)
  end.
Proof.
  intros Hs. unfold linkLive. destruct (linkEndpoint l) as [[ep mirrored]|]; [|done]. cbv zeta.
  set (k := linkKey r l ep mirrored). set (cap := linkCapacity _ _ _).
  assert (operState (at_ (oper r) k) = if feq (at_ (oper r) k) (float_of 2) then "down" else if feq (at_ (oper r) k) (float_of 1) then "up" else "nodata") as Ho.
  { unfold operState. destruct (feq _ (float_of 1)) eqn:E1; [|done]. apply feq_finite in E1. by rewrite E1. }
  assert (forall i o, let ll := mkLinkLive (l_ID l) i o (utilOf i cap) (utilOf o cap) (operState (at_ (oper r) k)) cap 0 in
    let ll := match lastSeen r !! k with Some ts => withAge stale (ageOf now ts) ll | None => ll end in
    ll_ID ll = l_ID l /\ ll_State ll = verdict (at_ (oper r) k) (ageOf now <$> lastSeen r !! k) stale /\
    ll_DataAgeS ll = Z.max 0 (default 0 (ageOf now <$> lastSeen r !! k)) /\ (ll_InBPS ll, ll_OutBPS ll) = (i, o) /\ ll_CapacityBPS ll = cap /\
    ll_UtilIn ll = utilOf (ll_InBPS ll) (ll_CapacityBPS ll) /\ ll_UtilOut ll = utilOf (ll_OutBPS ll) (ll_CapacityBPS ll)) as Hll.
  { intros i o. cbv zeta. rewrite Ho. unfold verdict. destruct (lastSeen r !! k) as [ts|]; cbn -[utilOf feq float_of]; [|done].
    unfold withAge. set (age := ageOf now ts). clear Ho. generalize (feq (at_ (oper r) k) (float_of 2)) (feq (at_ (oper r) k) (float_of 1)).
    intros two one. destruct (Z.ltb_spec 0 age), (Z.ltb_spec stale age), two, one; cbn -[utilOf]; split_and!; try done; try (case_bool_decide; simpl); lia. }
  destruct mirrored; apply Hll.
Qed.

Lemma linkLive_ID r now stale l : ll_ID (linkLive r now stale l) = l_ID l.
Proof.
  unfold linkLive. destruct (linkEndpoint l) as [[ep m]|]; [|done]. destruct (if m then _ else _). destruct (lastSeen r !! _); [|done].
  unfold withAge. destruct (0 <? _); [|done]. by destruct (_ && _).
Qed.

(** ** How a link is drawn *)

(** The link turned around. *)
Definition flipped (l : Link) : Link :=
  mkLink (l_ID l) (l_To l) (l_From l) (l_ToHandle l) (l_FromHandle l) (l_BEndpoint l) (l_AEndpoint l) (l_BandwidthBPS l).
(** What is shown of it with the two directions exchanged. *)
Definition exchanged (ll : LinkLive) : LinkLive :=
  mkLinkLive (ll_ID ll) (ll_OutBPS ll) (ll_InBPS ll) (ll_UtilOut ll) (ll_UtilIn ll) (ll_State ll) (ll_CapacityBPS ll) (ll_DataAgeS ll).

Lemma linkCapacity_flipped l s w : l_AEndpoint l = None \/ l_BEndpoint l = None -> linkCapacity (flipped l) s w = linkCapacity l s w.
Proof. unfold linkCapacity. simpl. intros [-> | ->]; destruct (0 <? _), (flt zero s); try done; by destruct (l_AEndpoint l), (l_BEndpoint l). Qed.

Lemma linkLive_ext r now stale l l' ep ep' m : l_ID l' = l_ID l -> linkEndpoint l = Some (ep, m) -> linkEndpoint l' = Some (ep', m) ->
  linkKey r l' ep' m = linkKey r l ep m -> (forall s, linkCapacity l' s (wan r) = linkCapacity l s (wan r)) ->
  linkLive r now stale l' = linkLive r now stale l.
Proof. intros Hid E E' Hk Hc. unfold linkLive. by rewrite E, E', Hk, Hid, Hc. Qed.

(** The same with the indexes at its two ends changed. *)
Definition redrawn (a b : Z) (l : Link) : Link :=
  l <| l_AEndpoint := (fun ep => mkEndpoint (ep_DeviceID ep) a) <$> l_AEndpoint l |>
    <| l_BEndpoint := (fun ep => mkEndpoint (ep_DeviceID ep) b) <$> l_BEndpoint l |>.

(** A document with one of its links drawn another way, the row of that link
    with its two ends exchanged, and the answer with that link turned. *)
Definition alterLink (id : string) (f : Link -> Link) (def : MapDef) : MapDef :=
  def <| d_Links := map (fun l => if decide (l_ID l = id) then f l else l) (d_Links def) |>.
Definition turnedRow (id : string) (row : string * (option string * option string)) : string * (option string * option string) :=
  if decide (row.1 = id) then (row.1, (row.2.2, row.2.1)) else row.
Definition turnedLink (id : string) (out : LiveData) : LiveData :=
  mkLiveData (lv_AsOf out) (lv_Nodes out) (map (fun ll => if decide (ll_ID ll = id) then exchanged ll else ll) (lv_Links out)).

Definition oneEnded (l : Link) : Prop := l_AEndpoint l = None \/ l_BEndpoint l = None.
(** The link has a row, and its row says what index that end has now. *)
Definition boundNow (rows : list (string * (option string * option string))) (id : string) (b : bool) : Prop :=
  id ∈ map fst rows /\
  Forall (fun row => row.1 = id -> exists cur, (if b then row.2.2 else row.2.1) = Some cur /\ cur <> "") rows.

Definition side (b : bool) : string := if b then "/b" else "/a".
Lemma side_inj id id' m m' : id +:+ side m = id' +:+ side m' -> id = id' /\ m = m'.
Proof.
  intros E%(f_equal to_bytes). rewrite !to_bytes_app in E. apply app_inj_2 in E as [E1 E2]; [|by destruct m, m'].
  split; [|by destruct m, m']. by rewrite <- (of_to_bytes id), E1, of_to_bytes.
Qed.

Lemma indexRow_at M row id m : indexRow M row !! (id +:+ side m) =
  if decide (row.1 = id) then match (if m then row.2.2 else row.2.1) with Some i => Some i | None => M !! (id +:+ side m) end
  else M !! (id +:+ side m).
Proof.
  destruct row as [k [ai bi]]. cbn [indexRow fst snd].
  assert (forall (N : gmap string string) m' i, <[k +:+ side m' := i]> N !! (id +:+ side m) =
    if decide (k = id /\ m' = m) then Some i else N !! (id +:+ side m)) as Hi.
  { intros N m' i. case_decide as Hd; [destruct Hd as [-> ->]; apply lookup_insert_eq|].
    apply lookup_insert_ne. intros E%side_inj. by destruct Hd. }
  pose proof (fun N => Hi N false) as Ha. pose proof (fun N => Hi N true) as Hb. cbn [side] in Ha, Hb.
  destruct ai as [ai|], bi as [bi|]; rewrite ?Hb, ?Ha; destruct m; repeat case_decide; naive_solver.
Qed.
Lemma indexRows_snoc rows row : indexRows (rows ++ [row]) = indexRow (indexRows rows) row.
Proof. unfold indexRows. by rewrite foldl_app. Qed.

(** Turning the row of a link turns what is known of its ends, and of no
    other's. *)
Lemma indexRows_turned id rows id' m :
  indexRows (map (turnedRow id) rows) !! (id' +:+ side m) = indexRows rows !! (id' +:+ side (if decide (id' = id) then negb m else m)).
Proof.
  induction rows as [|row rows IH] using rev_ind; [done|]. rewrite map_app. cbn [map]. rewrite !indexRows_snoc, !indexRow_at, IH.
  unfold turnedRow. destruct (decide (row.1 = id)) as [->|Hr]; cbn [fst snd]; repeat case_decide; subst; try done; by destruct m.
Qed.
Lemma boundNow_index rows id m : boundNow rows id m -> exists cur, indexRows rows !! (id +:+ side m) = Some cur /\ cur <> "".
Proof.
  intros [Hin Hall]. induction rows as [|row rows IH] using rev_ind; [by apply elem_of_nil in Hin|].
  apply Forall_app in Hall as [Hall Hrow]. apply Forall_cons_1 in Hrow as [Hrow _]. rewrite map_app, elem_of_app in Hin. rewrite indexRows_snoc, indexRow_at.
  case_decide as Hd; [destruct (Hrow Hd) as (cur & -> & Hc); by exists cur|]. apply IH; [|done].
  destruct Hin as [?|Hin]; [done|]. by apply list_elem_of_singleton in Hin.
Qed.

(** What a link shows depends on the readings of its own interface only. *)
Lemma linkKey_curIdx r r' l ep m :
  curIdx r' !! (l_ID l +:+ side m) = curIdx r !! (l_ID l +:+ side m) -> linkKey r' l ep m = linkKey r l ep m.
Proof. unfold linkKey. change (if m then "/b" else "/a") with (side m). by intros ->. Qed.

Definition withIdx (r : readings) (idx : gmap string string) : readings :=
  mkReadings (rateIn r) (rateOut r) (speed r) (oper r) (lastSeen r) idx (icmpUp r) (worst r) (wan r).

Lemma linkLive_withIdx r idx now stale l :
  (forall m, idx !! (l_ID l +:+ side m) = curIdx r !! (l_ID l +:+ side m)) -> linkLive (withIdx r idx) now stale l = linkLive r now stale l.
Proof.
  intros Hi. unfold linkLive. destruct (linkEndpoint l) as [[ep m]|]; [|done]. by rewrite (linkKey_curIdx r (withIdx r idx) l ep m (Hi m)).
Qed.
Lemma linkLive_flipped r idx now stale l : oneEnded l ->
  (forall m, idx !! (l_ID l +:+ side (negb m)) = curIdx r !! (l_ID l +:+ side m)) ->
  linkLive (withIdx r idx) now stale (flipped l) = exchanged (linkLive r now stale l).
Proof.
  intros Ho Hi. assert (forall ep m, linkKey (withIdx r idx) (flipped l) ep (negb m) = linkKey r l ep m) as Hk.
  { intros ep m. unfold linkKey. cbn [l_ID flipped curIdx withIdx]. specialize (Hi m). unfold side in Hi. by rewrite Hi. }
  assert (linkEndpoint (flipped l) = (fun e : Endpoint * bool => (e.1, negb e.2)) <$> linkEndpoint l) as He.
  { unfold linkEndpoint. simpl. by destruct Ho as [-> | ->]; [destruct (l_BEndpoint l)|destruct (l_AEndpoint l)]. }
  unfold linkLive. rewrite He. destruct (linkEndpoint l) as [[ep m]|]; [|done]. cbn [fmap option_fmap option_map fst snd]. rewrite Hk.
  rewrite linkCapacity_flipped by done. unfold withAge. cbn -[utilOf].
  destruct m; destruct (lastSeen r !! _); cbn -[utilOf]; try done; (destruct (0 <? _); [|done]); by destruct (_ && _).
Qed.
Lemma linkLive_redrawn r now stale l a b :
  (forall ep m, linkEndpoint l = Some (ep, m) -> exists cur, curIdx r !! (l_ID l +:+ side m) = Some cur /\ cur <> "") ->
  linkLive r now stale (redrawn a b l) = linkLive r now stale l.
Proof.
  intros Hb. assert (forall s, linkCapacity (redrawn a b l) s (wan r) = linkCapacity l s (wan r)) as Hc.
  { intros s. unfold linkCapacity. cbn. by destruct (l_AEndpoint l), (l_BEndpoint l). }
  destruct (linkEndpoint l) as [[ep m]|] eqn:E.
  - destruct (Hb ep m eq_refl) as (cur & Hcur & Hne).
    apply (linkLive_ext _ _ _ _ _ ep (mkEndpoint (ep_DeviceID ep) (if m then b else a)) m); [done|done| | |done].
    + revert E. unfold linkEndpoint. cbn. destruct (l_AEndpoint l), (l_BEndpoint l); cbn; by intros [= <- <-].
    + unfold linkKey. change (l_ID (redrawn a b l)) with (l_ID l). change (if m then "/b" else "/a") with (side m). rewrite Hcur. by rewrite bool_decide_false.
  - unfold linkLive. rewrite E. revert E. unfold linkEndpoint. cbn. by destruct (l_AEndpoint l), (l_BEndpoint l).
Qed.

Lemma wanIDs_alter id f def : (forall l, l ∈ d_Links def -> l_ID l = id -> endpointDevices (f l) = endpointDevices l) ->
  wanIDs (alterLink id f def) = wanIDs def.
Proof.
  intros Hf. unfold wanIDs, alterLink. cbn [d_Nodes d_Links set eta]. apply (f_equal (fun l => _ ++ concat l)). rewrite map_map. apply map_ext_in. intros l Hl%list_elem_of_In.
  case_decide; [by apply Hf|done].
Qed.
(** The whole answer, when one link of the document is altered. *)
Lemma Live_alter PollInterval Query rows rows' alertRows wanRows now id f g def :
  (forall l, l ∈ d_Links def -> l_ID l = id -> endpointDevices (f l) = endpointDevices l) ->
  (forall r l stale, curIdx r = indexRows rows -> l ∈ d_Links def ->
     linkLive (withIdx r (indexRows rows')) now stale (if decide (l_ID l = id) then f l else l) =
     (if decide (l_ID l = id) then g (linkLive r now stale l) else linkLive r now stale l)) ->
  Live PollInterval Query rows' alertRows wanRows None (inl (alterLink id f def)) now =
  match Live PollInterval Query rows alertRows wanRows None (inl def) now with
  | inl out => inl (mkLiveData (lv_AsOf out) (lv_Nodes out) (map (fun ll => if decide (ll_ID ll = id) then g ll else ll) (lv_Links out)))
  | inr e => inr e
  end.
Proof.
  intros Hd Hl. unfold Live. destruct (liveQueries _ _) as [ms|e]; [|done]. cbn [lv_AsOf lv_Nodes lv_Links].
  assert (readingsOf Query rows' alertRows wanRows (alterLink id f def) ms = withIdx (readingsOf Query rows alertRows wanRows def ms) (indexRows rows')) as ->.
  { unfold readingsOf, withIdx, wanCapacities. rewrite wanIDs_alter by done. reflexivity. }
  set (r := readingsOf Query rows _ _ _ _). do 2 f_equal. cbn [d_Links alterLink set eta]. rewrite !map_map. apply map_ext_in. intros l Hin%list_elem_of_In.
  rewrite (Hl r) by done. by rewrite linkLive_ID.
Qed.

(** C27. One interface describes the whole wire, whichever way the link is
    drawn: when a link with one end, on either side, is turned around, and
    with it the row that says which interface each end is bound to, the map
    that is answered is the same but for that link, whose two directions are
    exchanged; the query that fails, fails the same. And however the indexes
    at the ends of a link are drawn, the map is the same while the row of the
    link says what index the interface it is read from has now. *)
Theorem drawn_either_way PollInterval Query rows alertRows wanRows now def id :
  ((forall l, l ∈ d_Links def -> l_ID l = id -> oneEnded l) ->
   Live PollInterval Query (map (turnedRow id) rows) alertRows wanRows None (inl (alterLink id flipped def)) now =
   match Live PollInterval Query rows alertRows wanRows None (inl def) now with
   | inl out => inl (turnedLink id out) | inr e => inr e end) /\
  ((forall l ep b, l ∈ d_Links def -> l_ID l = id -> linkEndpoint l = Some (ep, b) -> boundNow rows id b) ->
   forall a b, Live PollInterval Query rows alertRows wanRows None (inl (alterLink id (redrawn a b) def)) now =
     Live PollInterval Query rows alertRows wanRows None (inl def) now).
Proof.
  split.
  - intros Ho. apply Live_alter.
    + intros l Hl E. unfold endpointDevices. cbn [flipped l_AEndpoint l_BEndpoint].
      destruct (Ho l Hl E) as [-> | ->]; simpl; by repeat case_match.
    + intros r l stale Hr Hl. pose proof (fun m => indexRows_turned id rows (l_ID l) m) as Ht. case_decide as E.
      * apply linkLive_flipped; [by apply Ho|]. intros m. by rewrite Ht, Hr, negb_involutive.
      * apply linkLive_withIdx. intros m. by rewrite Ht, Hr.
  - intros Hb a b. etransitivity; [apply (Live_alter _ _ rows rows _ _ _ id _ (fun ll => ll))|].
    + intros l Hl E. unfold endpointDevices. cbn. by destruct (l_AEndpoint l), (l_BEndpoint l).
    + intros r l stale Hr Hl. assert (withIdx r (indexRows rows) = r) as -> by (rewrite <- Hr; by destruct r).
      case_decide as E; [|done]. apply linkLive_redrawn. intros ep m Hep. rewrite Hr, E. apply boundNow_index.
      by apply (Hb l ep).
    + destruct (Live _ _ _ _ _ _ _ _) as [out|e]; [|done]. destruct out. cbn. do 2 f_equal. rewrite <- (map_id lv_Links0) at 2.
      apply map_ext. intros ll. by case_decide.
Qed.

(** ** Capacity *)

Lemma slowestOf_from w eps : forall s v, slowestOf w s eps = Some v -> v = s \/ exists ep, Some ep ∈ eps /\ w !! ep_DeviceID ep = Some v.
Proof.
  induction eps as [|[ep|] eps IH]; intros s v; cbn [slowestOf]; [intros [= ->]; by left| |].
  - destruct (w !! ep_DeviceID ep) as [c|] eqn:Ec; [|done]. destruct (fle c zero); [done|].
    intros [-> |(ep' & Hin & Hv)]%IH; [|right; exists ep'; split; [by right|done]].
    destruct (_ || _); [right; exists ep; split; [by left|done]|by left].
  - intros [-> |(ep' & Hin & Hv)]%IH; [by left|right; exists ep'; split; [by right|done]].
Qed.
Lemma slowestOf_unknown w eps ep : Some ep ∈ eps -> w !! ep_DeviceID ep = None -> forall s, slowestOf w s eps = None.
Proof.
  induction eps as [|e eps IH]; intros Hin Hn s; [by apply elem_of_nil in Hin|]. apply elem_of_cons in Hin as [<-|Hin]; cbn [slowestOf]; [by rewrite Hn|].
  destruct e as [e|]; [|by apply IH]. destruct (w !! ep_DeviceID e); [|done]. destruct (fle _ zero); [done|]. by apply IH.
Qed.

(** Traffic is divided by what the operator says of the link, else by the speed
    of the interface, else by the slower of the uplinks of the devices at its
    ends; if one of these is not known, by nothing. *)
Lemma capacity_slowest l ifSpeed w : l_BandwidthBPS l <= 0 -> flt zero ifSpeed = false ->
  (linkCapacity l ifSpeed w = zero \/
   exists ep, Some ep ∈ [l_AEndpoint l; l_BEndpoint l] /\ w !! ep_DeviceID ep = Some (linkCapacity l ifSpeed w)) /\
  (forall ep, Some ep ∈ [l_AEndpoint l; l_BEndpoint l] -> w !! ep_DeviceID ep = None -> linkCapacity l ifSpeed w = zero).
Proof.
  intros Hb Hs. unfold linkCapacity. destruct (Z.ltb_spec 0 (l_BandwidthBPS l)); [lia|]. rewrite Hs. split.
  - destruct (slowestOf _ _ _) as [v|] eqn:E; [|by left]. by apply slowestOf_from in E.
  - intros ep Hin Hn. by rewrite (slowestOf_unknown _ _ _ Hin Hn).
Qed.

(** ** Windows *)

(** At any cadence that can be set, a value is carried at least as long as it
    takes to notice that it is old, a rate spans at least four polls and is
    carried at least once, and nothing is carried for more than an hour. *)
Lemma windows_fit s : s ∈ Allowed ->
  let '(rate, carry) := windows (Some (s * Second)) in
  4 * (s * Second) <= rate <= carry /\ carry <= Hour /\ 2 * s <= staleAfter (Some (s * Second)) /\ staleAfter (Some (s * Second)) * Second <= carry.
Proof.
  intros Hs. unfold Allowed in Hs. repeat (apply elem_of_cons in Hs as [->|Hs]; [vm_compute; intuition discriminate|]). by apply elem_of_nil in Hs.
Qed.

(** ** The whole map *)

Lemma severityRows_spec rows d :
  match severityRows rows !! d with
  | Some sev => sev <> "up"
  | None => Forall (fun row : string * Z => row.1 <> d) rows
  end.
Proof.
  unfold severityRows. induction rows as [|row rows IH] using rev_ind; [cbn [foldl]; rewrite lookup_empty; constructor|].
  rewrite foldl_app. cbn [foldl]. destruct (decide (row.1 = d)) as [->|Hne].
  - rewrite lookup_insert_eq. destruct (row.2 =? 1); discriminate.
  - rewrite lookup_insert_ne by done. destruct (_ !! d); [done|]. apply Forall_app. split; [done|]. by constructor.
Qed.

Lemma nodeState_up r n : nodeState r n = "up" -> (forall sev, worst r !! n_DeviceID n = Some sev -> sev <> "up") ->
  n_Kind n = "device" /\ (exists up, icmpUp r !! n_DeviceID n = Some up /\ feq up zero = false) /\ worst r !! n_DeviceID n = None.
Proof.
  unfold nodeState. case_bool_decide; [|done]. case_bool_decide; [done|]. cbn [negb andb]. intros E Hw.
  destruct (icmpUp r !! n_DeviceID n) as [up|]; [destruct (feq up zero) eqn:Ez; [done|]|].
  - destruct (worst r !! n_DeviceID n) as [sev|] eqn:Es; [by apply Hw in E|]. split_and!; [done|by exists up|done].
  - destruct (worst r !! n_DeviceID n) as [sev|] eqn:Es; [by apply Hw in E|done].
Qed.

Lemma staleAfter_floor PollInterval : 120 <= staleAfter PollInterval.
Proof. unfold staleAfter. cbv zeta. destruct (Z.ltb_spec (int_of (Seconds_float (2 * pollOr60 PollInterval))) 120); lia. Qed.

Lemma linkLive_up r now stale l : 0 <= stale -> ll_State (linkLive r now stale l) = "up" ->
  exists ep m, linkEndpoint l = Some (ep, m) /\ feq (at_ (oper r) (linkKey r l ep m)) (float_of 1) = true /\ ll_DataAgeS (linkLive r now stale l) <= stale.
Proof.
  intros Hs Hu. pose proof (link_exact r now stale l Hs) as H. cbv zeta in H. destruct (linkEndpoint l) as [[ep m]|]; [|by rewrite H in Hu].
  destruct H as (_ & Hv & Ha & _). exists ep, m. rewrite Hv in Hu. rewrite Ha. unfold verdict, older in Hu.
  destruct (feq _ (float_of 2)); [done|]. destruct (ageOf now <$> _) as [age|]; cbn [default].
  - destruct (Z.ltb_spec stale age); [done|]. destruct (feq _ (float_of 1)); [|done]. simpl. split_and!; [done|done|lia].
  - destruct (feq _ (float_of 1)); [|done]. simpl. split_and!; [done|done|lia].
Qed.
(** The map that is answered has an entry for each node and each link, in
    order; a device is shown as up only if it answers and nothing is wrong
    with it, and a link as up only if its interface is and the newest sample
    is not too old. *)
Theorem map_honest PollInterval Query linkRows alertRows wanRows def now out :
  Live PollInterval Query linkRows alertRows wanRows None (inl def) now = inl out ->
  map nl_ID (lv_Nodes out) = map n_ID (d_Nodes def) /\ map ll_ID (lv_Links out) = map l_ID (d_Links def) /\
  exists r, lv_Links out = map (linkLive r now (staleAfter PollInterval)) (d_Links def) /\
    (forall i n nl, d_Nodes def !! i = Some n -> lv_Nodes out !! i = Some nl -> nl_State nl = "up" ->
      n_Kind n = "device" /\ (exists up, icmpUp r !! n_DeviceID n = Some up /\ feq up zero = false) /\
      Forall (fun row => row.1 <> n_DeviceID n) alertRows) /\
    (forall i l ll, d_Links def !! i = Some l -> lv_Links out !! i = Some ll -> ll_State ll = "up" ->
      exists ep m, linkEndpoint l = Some (ep, m) /\ feq (at_ (oper r) (linkKey r l ep m)) (float_of 1) = true /\
        ll_DataAgeS ll <= staleAfter PollInterval).
Proof.
  unfold Live. destruct (liveQueries _ _) as [ms|e]; [|done]. set (r := readingsOf _ _ _ _ _ _). intros [= <-]. cbn [lv_Nodes lv_Links].
  rewrite !map_map. split; [done|]. split; [apply map_ext; intros; apply linkLive_ID|]. exists r. split_and!; [done|..].
  - intros i n nl Hn Hnl Hu. rewrite list_lookup_fmap, Hn in Hnl. injection Hnl as <-. cbn [nl_State] in Hu.
    pose proof (severityRows_spec alertRows (n_DeviceID n)) as Hsev. change (severityRows alertRows) with (worst r) in Hsev.
    destruct (nodeState_up r n Hu) as (Hk & Hup & Hw); [intros sev Es; by rewrite Es in Hsev|]. rewrite Hw in Hsev. done.
  - intros i l ll Hl Hll Hu. rewrite list_lookup_fmap, Hl in Hll. injection Hll as <-. apply linkLive_up; [|done].
    pose proof (staleAfter_floor PollInterval). lia.
Qed.

(** ** Examples *)

Definition demoLabels (dev idx : string) : gmap string string := <["device_id" := dev]> {["if_index" := idx]}.
(** One gateway whose interface was drawn at index 76 and has index 41 now. *)
Definition demoQuery (expr : string) : list VMSeries + Err :=
  if HasPrefix expr "last_over_time((rate(netinv_if_in" then inl [mkVMSeries (demoLabels "gw" "41") (float_of 8000)]
  else if HasPrefix expr "last_over_time(netinv_if_oper" then inl [mkVMSeries (demoLabels "gw" "41") (float_of 1)]
  else if HasPrefix expr "tlast_over_time" then inl [mkVMSeries (demoLabels "gw" "41") (float_of 970)]
  else if HasPrefix expr "netinv_icmp_up" then inl [mkVMSeries (demoLabels "gw" "") (float_of 1)] else inl [].
Definition demoMap : MapDef :=
  mkMapDef mapSchema "uplinks" [mkNode "n1" "device" "gw" "" "" "" 0 0; mkNode "n2" "cloud" "" "" "" "" 0 0]
    [mkLink "l1" "n1" "n2" "" "" (Some (mkEndpoint "gw" 76)) None 16000].
Definition demoRows : list (string * (option string * option string)) := [("l1", (Some "41", None))].
Definition demoLive : LiveData + Err := Live (Some (60 * Second)) demoQuery demoRows [] (fun _ => []) None (inl demoMap) (1000 * Second).

Example demo_live : match demoLive with
  | inl out => map nl_State (lv_Nodes out) = ["up"; "unknown"] /\
      map (fun ll => (ll_State ll, ll_InBPS ll, ll_UtilIn ll, ll_DataAgeS ll)) (lv_Links out) = [("up", float_of 8000, float_of 50, 30)]
  | inr _ => False
  end.
Proof. vm_compute. by split. Qed.
Example demo_exprs : liveExprs (Some (60 * Second)) !! 0%nat = Some "last_over_time((rate(netinv_if_in_octets_total[300s]) * 8)[1800s:300s])".
Proof. vm_compute. reflexivity. Qed.

Theorem map_honest_witness : exists out, demoLive = inl out /\ map nl_ID (lv_Nodes out) = ["n1"; "n2"].
Proof.
  destruct demoLive as [out|e] eqn:E; [|vm_compute in E; discriminate]. exists out. split; [done|].
  exact (proj1 (map_honest _ _ _ _ _ _ _ _ E)).
Defined.

(** The gateway is bound to index 41; the link turned shows the rate that came
    in as going out. *)
Theorem drawn_either_way_witness :
  let live rows def := Live (Some (60 * Second)) demoQuery rows [] (fun _ => []) None (inl def) (1000 * Second) in
  live (map (turnedRow "l1") demoRows) (alterLink "l1" flipped demoMap) =
    match live demoRows demoMap with inl out => inl (turnedLink "l1" out) | inr e => inr e end /\
  live demoRows (alterLink "l1" (redrawn 9 0) demoMap) = live demoRows demoMap.
Proof.
  intros live. destruct (drawn_either_way (Some (60 * Second)) demoQuery demoRows [] (fun _ => []) (1000 * Second) demoMap "l1") as [Hf Hr].
  split; [apply Hf|apply Hr]; clear Hf Hr live.
  - intros l [<-|[]]%list_elem_of_In _. by right.
  - intros l ep b [<-|[]]%list_elem_of_In _ [= <- <-]. split; [by left|]. constructor; [|constructor]. intros _. by exists "41".
Defined.
Example demo_turned :
  match Live (Some (60 * Second)) demoQuery (map (turnedRow "l1") demoRows) [] (fun _ => []) None (inl (alterLink "l1" flipped demoMap)) (1000 * Second) with
  | inl out => map (fun ll => (ll_State ll, ll_InBPS ll, ll_OutBPS ll)) (lv_Links out) = [("up", zero, float_of 8000)]
  | inr _ => False
  end.
Proof. vm_compute. reflexivity. Qed.
