(* ===== verification/Reports.v ===== *)
(** Package reports (bandwidth.go, bycustomer.go, series.go): what a set of
    interfaces carried over a period, by interface and by customer, and the
    charts of it.

    The inventory and the metrics store answer from outside; [%q] is a
    parameter. Where totals are no numbers, Go's stable sort may leave another
    order than the one here. *)
From Stdlib Require Import ZArith Lia SpecFloat.
From stdpp Require Import base list gmap strings pretty numbers sorting.
From S2P Require Import Prelude GoText GoSort NetipParse Errx Float64 MapDoc Sdk Live.

(** ** Go's float64 and Duration *)

Definition IsNaN (f : float64) : bool := match f with S754_nan => true | _ => false end.
(** [math.Max]. *)
Definition Max_float (x y : float64) : float64 :=
  match x, y with
  | S754_infinity false, _ | _, S754_infinity false => S754_infinity false
  | S754_nan, _ | _, S754_nan => S754_nan
  | S754_zero true, S754_zero _ => y
  | _, _ => if flt y x then x else y
  end.
Definition maxf (a b : float64) : float64 := if flt b a then a else b.

(** [time.Duration.Round]: to the nearest multiple, halves away from zero. *)
Definition Round (d m : Duration) : Duration :=
  if m <=? 0 then d else
  let r := Z.rem d m in
  if d <? 0 then
    let r := - r in if r + r <? m then d + r else Z.max minDuration (d - m + r)
  else if r + r <? m then d - r else Z.min maxDuration (d + m - r).

(** ** Rows *)

Record InterfaceSearchRow : Type := mkInterfaceSearchRow {
  is_DeviceID : string; is_DeviceName : string; is_IfIndex : Z; is_Name : string; is_Alias : string; is_Descr : string;
  is_SpeedBPS : Z; is_Customer : string
}.
Record InterfaceFilter : Type := mkInterfaceFilter { fi_Q : string; fi_Customer : string }.

(** A pair of directions, and of the statistics a row has of each. *)
Record Dirs : Type := mkDirs { d_In : float64; d_Out : float64 }.
Record Row : Type := mkRow {
  rw_DeviceID : string; rw_DeviceName : string; rw_Customer : string; rw_IfIndex : Z; rw_Name : string; rw_Alias : string; rw_Descr : string;
  rw_SpeedBPS : Z; rw_Interfaces : Z;
  rw_Avg : Dirs; rw_P95 : Dirs; rw_Max : Dirs; rw_Total : Dirs;
  rw_AvgUtil : float64; rw_P95Util : float64; rw_MaxUtil : float64
}.
#[export] Instance eta_Row : Eta Row := fun r =>
  mkRow (rw_DeviceID r) (rw_DeviceName r) (rw_Customer r) (rw_IfIndex r) (rw_Name r) (rw_Alias r) (rw_Descr r) (rw_SpeedBPS r) (rw_Interfaces r)
    (rw_Avg r) (rw_P95 r) (rw_Max r) (rw_Total r) (rw_AvgUtil r) (rw_P95Util r) (rw_MaxUtil r).

Record Report : Type := mkReport {
  rp_Query : string; rp_Customer : string; rp_GroupedBy : string; rp_From : Time; rp_To : Time; rp_Truncated : bool; rp_Rows : list Row;
  rp_ifaces : list InterfaceSearchRow
}.

Definition unmeasured : float64 := float_of (-1).
Definition noDirs : Dirs := mkDirs zero zero.
Definition rowOf (i : InterfaceSearchRow) : Row :=
  mkRow (is_DeviceID i) (is_DeviceName i) (is_Customer i) (is_IfIndex i) (is_Name i) (is_Alias i) (is_Descr i) (is_SpeedBPS i) 0
    noDirs noDirs noDirs noDirs unmeasured unmeasured unmeasured.

Inductive stat : Type := StAvg | StP95 | StMax | StTotal.
#[export] Instance stat_eq_dec : EqDecision stat.
Proof. solve_decision. Defined.
Definition statOf (st : stat) (r : Row) : Dirs :=
  match st with StAvg => rw_Avg r | StP95 => rw_P95 r | StMax => rw_Max r | StTotal => rw_Total r end.

Definition setDir (dir : string) (v : float64) (d : Dirs) : Dirs :=
  if bool_decide (dir = "out") then mkDirs (d_In d) v else mkDirs v (d_Out d).
Definition assignStat (st : stat) (dir : string) (v : float64) (r : Row) : Row :=
  match st with
  | StAvg => r <| rw_Avg := setDir dir v (rw_Avg r) |>
  | StP95 => r <| rw_P95 := setDir dir v (rw_P95 r) |>
  | StMax => r <| rw_Max := setDir dir v (rw_Max r) |>
  | StTotal => r <| rw_Total := setDir dir v (rw_Total r) |>
  end.

(** The key of a row, and what finds the row of a sample: the pointers of the
    code are places in the list of rows. *)
Definition rowKey (deviceID : string) (ifIndex : Z) : string := deviceID +:+ "|" +:+ Itoa ifIndex.
Definition places (ks : list string) : gmap string nat := foldl (fun m e => <[e.2 := e.1]> m) ∅ (imap pair ks).
(** What a sample or series does to the entry it is for; to none, if it is for
    none. *)
Definition place {A S} (at_ : gmap string nat) (k : S -> string) (f : S -> A -> A) (l : list A) (s : S) : list A :=
  match at_ !! k s with Some i => alter (f s) i l | None => l end.

Definition MaxRows : Z := 500.
Definition MaxGroups : nat := 200.
Definition maxQueryLen : Z := 14000.
Definition MaxCharts : nat := 60.

Definition reportLimit (limit : Z) : Z := if (limit <=? 0) || (MaxRows <? limit) then MaxRows else limit.

Definition rateWindow (PollInterval : option Duration) : Duration :=
  let w := 4 * pollOr60 PollInterval in if w <? 5 * Minute then 5 * Minute else w.

(** The step of a subquery: at most [points] of them, and no shorter than the
    window of a rate. *)
Definition stepOver (points win rateWin : Duration) : Duration :=
  let step := Z.quot win points in Round (if step <? rateWin then rateWin else step) Second.
Definition subStep (win rateWin : Duration) : Duration := stepOver 720 win rateWin.
Definition chartStep (win rateWin : Duration) : Duration := stepOver 140 win rateWin.

(** ** The text of the queries *)

Definition quoted (s : string) : string := of_bytes [zb 34] +:+ s +:+ of_bytes [zb 34].
Definition directed (fn metric tail dir : string) : string :=
  "label_set(" +:+ fn +:+ "(" +:+ metric +:+ tail +:+ ", " +:+ quoted "dir" +:+ ", " +:+ quoted dir +:+ ")".
(** Both directions of what [sel] selects: bits per second over a window, and
    the bytes of a window. *)
Definition braces (sel : string) : string := "{" +:+ sel +:+ "}".
Definition ratedOver (sel : string) (d : Duration) : string :=
  directed "rate" "netinv_if_in_octets_total" (sel +:+ "[" +:+ dur d +:+ "]) * 8") "in" +:+ " or " +:+
  directed "rate" "netinv_if_out_octets_total" (sel +:+ "[" +:+ dur d +:+ "]) * 8") "out".
Definition totalOver (sel : string) (d : Duration) : string :=
  directed "increase" "netinv_if_in_octets_total" (sel +:+ "[" +:+ dur d +:+ "])") "in" +:+ " or " +:+
  directed "increase" "netinv_if_out_octets_total" (sel +:+ "[" +:+ dur d +:+ "])") "out".
Definition ratedSeries (rateWin : Duration) : string := ratedOver "" rateWin.
Definition totalsExpr (win : Duration) : string := totalOver "" win.
Definition ratedAt (step : Duration) (sel : string) : string := ratedOver (braces sel) step.
Definition totalOf (win : Duration) (sel : string) : string := totalOver (braces sel) win.

(** The statistic of a series over the window; totals are their own. *)
Definition rollup (st : stat) (win step : Duration) (u : string) : string :=
  let over := "(" +:+ u +:+ ")[" +:+ dur win +:+ ":" +:+ dur step +:+ "])" in
  match st with
  | StAvg => "avg_over_time(" +:+ over
  | StP95 => "quantile_over_time(0.95, " +:+ over
  | StMax => "max_over_time(" +:+ over
  | StTotal => u
  end.
Definition stats : list stat := [StAvg; StP95; StMax; StTotal].

(** The devices of a set of interfaces in the order they are met, each with
    its indexes as texts, sorted. *)
Definition groupIndexes (ifaces : list (string * Z)) : gmap string (list string) * list string :=
  foldl (fun '(m, order) i =>
    (<[i.1 := default [] (m !! i.1) ++ [Itoa i.2]]> m, if bool_decide (is_Some (m !! i.1)) then order else order ++ [i.1]))
    (∅, []) ifaces.
Definition selectors (ifaces : list (string * Z)) : list (string * list string) :=
  let '(m, order) := groupIndexes ifaces in map (fun d => (d, sort_Strings (default [] (m !! d)))) order.

(** Expressions packed into queries, as long as they fit. *)
Fixpoint batches (out cur : list string) (size : Z) (es : list string) : list string :=
  match es with
  | [] => if bool_decide (cur = []) then out else out ++ [Join cur " or "]
  | e :: es =>
      if negb (bool_decide (cur = [])) && (maxQueryLen <? size + slen e + 4)
      then batches (out ++ [Join cur " or "]) [e] (slen e + 4) es
      else batches out (cur ++ [e]) (size + slen e + 4) es
  end.

Definition custLabel : string := "netinv_group".

Section text.
Context (Quote : string -> string).

Definition selectorText (s : string * list string) : string :=
  "device_id=" +:+ Quote s.1 +:+ ",if_index=~" +:+ Quote (Join s.2 "|").
Definition ifaceKey (i : InterfaceSearchRow) : string * Z := (is_DeviceID i, is_IfIndex i).
Definition groupExpr (series : string -> string) (name : string) (ifaces : list InterfaceSearchRow) : string :=
  "label_set(sum by (dir) (" +:+ Join (map (fun s => series (selectorText s)) (selectors (map ifaceKey ifaces))) " or " +:+ "), "
  +:+ Quote custLabel +:+ ", " +:+ Quote name +:+ ")".
Definition batchGroups (series : string -> string) (groups : gmap string (list InterfaceSearchRow)) (names : list string) : list string :=
  batches [] [] 0 (map (fun n => groupExpr series n (default [] (groups !! n))) names).
Definition interfaceBatches (series : string -> string) (rows : list Row) : list string :=
  batches [] [] 0 (map (fun s => series (selectorText s)) (selectors (map (fun r => (rw_DeviceID r, rw_IfIndex r)) rows))).
End text.

(** ** Groups *)

Definition groupBy (ifaces : list InterfaceSearchRow) : gmap string (list InterfaceSearchRow) :=
  foldl (fun m i => <[is_Customer i := default [] (m !! is_Customer i) ++ [i]]> m) ∅ ifaces.

(** The speed of a group: 0 as soon as one member's is not known. *)
Fixpoint groupSpeed (sum : Z) (g : list InterfaceSearchRow) : Z :=
  match g with [] => sum | i :: g => if is_SpeedBPS i <=? 0 then 0 else groupSpeed (int64 (sum + is_SpeedBPS i)) g end.
Definition groupRow (n : string) (g : list InterfaceSearchRow) : Row :=
  mkRow "" "" n 0 "" "" "" (groupSpeed 0 g) (len g) noDirs noDirs noDirs noDirs unmeasured unmeasured unmeasured.

(** ** Reports *)

Definition total (r : Row) : float64 := fadd (d_In (rw_Total r)) (d_Out (rw_Total r)).
Definition busier (a b : Row) : bool := flt (total b) (total a).
(** [sort.SliceStable]. *)
Definition notBelow (a b : Row) : Prop := busier b a = false.
#[export] Instance notBelow_dec a b : Decision (notBelow a b).
Proof. unfold notBelow. apply _. Defined.
Definition busiestFirst (rows : list Row) : list Row := merge_sort notBelow rows.

Definition withUtil (max : float64 -> float64 -> float64) (r : Row) : Row :=
  if 0 <? rw_SpeedBPS r then
    let pct := fun d => fdiv (fmul (float_of 100) (max (d_In d) (d_Out d))) (float_of (rw_SpeedBPS r)) in
    ((r <| rw_AvgUtil := pct (rw_Avg r) |>) <| rw_P95Util := pct (rw_P95 r) |>) <| rw_MaxUtil := pct (rw_Max r) |>
  else r.

Definition sampleKey (s : VMSeries) : string := rowKey (label s "device_id") (AtoiValue (label s "if_index")).
Definition assignSample (st : stat) (s : VMSeries) (r : Row) : Row := assignStat st (label s "dir") (vs_Value s) r.
Definition assignNumber (st : stat) (s : VMSeries) (r : Row) : Row := if IsNaN (vs_Value s) then r else assignSample st s r.

(** Queries one after the other, each sample to its row; the first that fails
    ends it. *)
Fixpoint answer {S A} (QueryAt : string -> list S + Err) (put : stat -> list A -> S -> list A) (rows : list A) (qs : list (stat * string)) : list A + Err :=
  match qs with
  | [] => inl rows
  | (st, expr) :: qs =>
      match QueryAt expr with
      | inr e => inr e
      | inl samples => answer QueryAt put (foldl (put st) rows samples) qs
      end
  end.

Definition errWindow : Err := New KindInvalid "the report window ends before it starts".
Definition emptyReport (f : InterfaceFilter) (by_ : string) (from to_ : Time) (truncated : bool) (ifaces : list InterfaceSearchRow) : Report :=
  mkReport (fi_Q f) (fi_Customer f) by_ from to_ truncated [] ifaces.
#[export] Instance eta_Report : Eta Report := fun r =>
  mkReport (rp_Query r) (rp_Customer r) (rp_GroupedBy r) (rp_From r) (rp_To r) (rp_Truncated r) (rp_Rows r) (rp_ifaces r).

Section service.
(** the inventory: interfaces up to a limit, and how many there are in all;
    the metrics store, at an instant *)
Context (Quote : string -> string) (FindInterfaces : InterfaceFilter -> Z -> Z -> (list InterfaceSearchRow * Z) + Err).
Context (QueryAt : Time -> string -> list VMSeries + Err) (PollInterval : option Duration).

Definition bandwidthQueries (win : Duration) : list (stat * string) :=
  let rateWin := rateWindow PollInterval in
  map (fun st => (st, rollup st win (subStep win rateWin) (match st with StTotal => totalsExpr win | _ => ratedSeries rateWin end))) stats.

Definition Bandwidth (f : InterfaceFilter) (from to_ : Time) (limit : Z) : Report + Err :=
  if negb (from <? to_) then inr errWindow else
  match FindInterfaces f (reportLimit limit) 0 with
  | inr e => inr e
  | inl (ifaces, found) =>
      let rep := emptyReport f "" from to_ (len ifaces <? found) ifaces in
      if bool_decide (ifaces = []) then inl rep else
      let rows := map rowOf ifaces in
      let byKey := places (map (fun r => rowKey (rw_DeviceID r) (rw_IfIndex r)) rows) in
      match answer (QueryAt to_) (fun st => place byKey sampleKey (assignNumber st)) rows (bandwidthQueries (time_Sub to_ from)) with
      | inr e => inr e
      | inl rows => inl (rep <| rp_Rows := busiestFirst (map (withUtil Max_float) rows) |>)
      end
  end.

Definition groupNames (groups : gmap string (list InterfaceSearchRow)) : list string := sort_Strings (map fst (map_to_list groups)).
Definition customerQueries (groups : gmap string (list InterfaceSearchRow)) (names : list string) (win : Duration) : list (stat * string) :=
  let rateWin := rateWindow PollInterval in
  concat (map (fun st =>
    map (fun batch => (st, rollup st win (subStep win rateWin) batch))
      (batchGroups Quote (match st with StTotal => totalOf win | _ => ratedAt rateWin end) groups names)) stats).

Definition ByCustomer (f : InterfaceFilter) (from to_ : Time) (limit : Z) : Report + Err :=
  if negb (from <? to_) then inr errWindow else
  match FindInterfaces f (reportLimit limit) 0 with
  | inr e => inr e
  | inl (ifaces, found) =>
      let rep := emptyReport f "customer" from to_ (len ifaces <? found) ifaces in
      if bool_decide (ifaces = []) then inl rep else
      let groups := groupBy ifaces in
      let all := groupNames groups in
      let rep := rep <| rp_Truncated := rp_Truncated rep || (Z.of_nat MaxGroups <? len all) |> in
      let names := take MaxGroups all in
      let rows := map (fun n => groupRow n (default [] (groups !! n))) names in
      match answer (QueryAt to_) (fun st => place (places (map rw_Customer rows)) (fun s => label s custLabel) (assignSample st)) rows
              (customerQueries groups names (time_Sub to_ from)) with
      | inr e => inr e
      | inl rows => inl (rep <| rp_Rows := busiestFirst (map (withUtil maxf) rows) |>)
      end
  end.
End service.

(** ** Charts *)

Record Point : Type := mkPoint { T_ : Z; V_ : float64 }.
Record Series : Type := mkSeries { se_Labels : gmap string string; se_Points : list Point }.
Record Chart : Type := mkChart { ch_Title : string; ch_Subtitle : string; ch_In : list Point; ch_Out : list Point }.
#[export] Instance eta_Chart : Eta Chart := fun c => mkChart (ch_Title c) (ch_Subtitle c) (ch_In c) (ch_Out c).
Definition Empty (c : Chart) : bool := bool_decide (ch_In c = []) && bool_decide (ch_Out c = []).

Definition chartTitle (r : Row) : string :=
  if 0 <? rw_Interfaces r then (if bool_decide (rw_Customer r = "") then "(untagged)" else rw_Customer r)
  else if bool_decide (rw_Alias r <> "") then rw_Alias r
  else if bool_decide (rw_Name r <> "") then rw_Name r else "ifIndex " +:+ Itoa (rw_IfIndex r).
Definition chartSubtitle (r : Row) : string :=
  if 0 <? rw_Interfaces r then (if rw_Interfaces r =? 1 then "1 circuit" else Itoa (rw_Interfaces r) +:+ " circuits")
  else rw_Customer r.
Definition blankChart (r : Row) : Chart := mkChart (chartTitle r) (chartSubtitle r) [] [].

Definition seLabel (se : Series) (name : string) : string := default "" (se_Labels se !! name).
Definition setPoints (se : Series) (c : Chart) : Chart :=
  if bool_decide (seLabel se "dir" = "out") then c <| ch_Out := se_Points se |> else c <| ch_In := se_Points se |>.
Definition seriesKey (se : Series) : string := rowKey (seLabel se "device_id") (AtoiValue (seLabel se "if_index")).

Section charts.
Context (Quote : string -> string) (PollInterval : option Duration).
(** the metrics store over a window; [None] when there is none to ask *)
Context (Charts : option (string -> Time -> Time -> Duration -> list Series + Err)).

Definition drawCharts (q : string -> list Series + Err) (k : Series -> string) (ks : list string) (rows : list Row) (exprs : list string) : list Chart + Err :=
  answer q (fun _ => place (places ks) k setPoints) (map blankChart rows) (map (pair StAvg) exprs).

Definition interfaceCharts (q : string -> list Series + Err) (rows : list Row) (step : Duration) : list Chart + Err :=
  drawCharts q seriesKey (map (fun r => rowKey (rw_DeviceID r) (rw_IfIndex r)) rows) rows (interfaceBatches Quote (ratedAt step) rows).
Definition customerCharts (q : string -> list Series + Err) (ifaces : list InterfaceSearchRow) (rows : list Row) (step : Duration) : list Chart + Err :=
  drawCharts q (fun se => seLabel se custLabel) (map rw_Customer rows) rows
    (batchGroups Quote (ratedAt step) (groupBy ifaces) (sort_Strings (map rw_Customer rows))).

(** No charts at all when there is nobody to ask or nothing to draw. *)
Definition BuildCharts (rep : Report) : option (list Chart) + Err :=
  match Charts with
  | None => inl None
  | Some QueryRange =>
      if bool_decide (rp_Rows rep = []) then inl None else
      let rows := take MaxCharts (rp_Rows rep) in
      let step := chartStep (time_Sub (rp_To rep) (rp_From rep)) (rateWindow PollInterval) in
      let q := fun expr => QueryRange expr (rp_From rep) (rp_To rep) step in
      match (if bool_decide (rp_GroupedBy rep = "customer") then customerCharts q (rp_ifaces rep) rows step else interfaceCharts q rows step) with
      | inl cs => inl (Some cs)
      | inr e => inr e
      end
  end.
End charts.

(** * Lemmas *)

(** ** Keys *)

Lemma bar_inj {A} (c : A) : forall a b x y, c ∉ x -> c ∉ y -> a ++ c :: x = b ++ c :: y -> a = b /\ x = y.
Proof.
  induction a as [|a0 a IH]; intros [|b0 b] x y Hx Hy E; cbn in E; simplify_eq; [done|..].
  - destruct Hx. apply elem_of_app. right. by left.
  - destruct Hy. apply elem_of_app. right. by left.
  - by destruct (IH b x y Hx Hy ltac:(done)) as [-> ->].
Qed.

Lemma Itoa_no_bar z : zb 124 ∉ to_bytes (Itoa z).
Proof.
  assert (forall z, 0 <= z -> zb 124 ∉ to_bytes (Itoa z)) as H.
  { intros w Hw Hin. destruct (Itoa_digits w Hw) as (_ & Hd & _). rewrite Forall_forall in Hd. by apply Hd in Hin. }
  destruct (Z_le_gt_dec 0 z) as [Hz|Hz]; [by apply H|]. destruct z as [|p|p]; try lia.
  assert (to_bytes (Itoa (Z.neg p)) = zb 45 :: to_bytes (Itoa (Z.pos p))) as -> by reflexivity.
  rewrite not_elem_of_cons. split; [done|]. apply H. lia.
Qed.

#[export] Instance rowKey_inj : Inj2 (=) (=) (=) rowKey.
Proof.
  intros d i d' i' E. unfold rowKey in E. apply (f_equal to_bytes) in E. rewrite !to_bytes_app in E.
  change (to_bytes "|") with [zb 124] in E. cbn [app] in E. apply bar_inj in E as [E1 E2]; [|apply Itoa_no_bar..].
  split; [by rewrite <- (of_to_bytes d), E1, of_to_bytes|]. apply Itoa_inj. by rewrite <- (of_to_bytes (Itoa i)), E2, of_to_bytes.
Qed.

#[export] Instance pairKey_inj : Inj (=) (=) (fun p : string * Z => rowKey p.1 p.2).
Proof. intros [d i] [d' i'] E. cbn in E. by apply (inj2 rowKey) in E as [-> ->]. Qed.

(** ** Places *)

Lemma places_snoc ks k : places (ks ++ [k]) = <[k := length ks]> (places ks).
Proof. unfold places. rewrite imap_app, foldl_app. cbn. by rewrite Nat.add_0_r. Qed.

(** The key an entry is found under: its own, unless a later entry has it too. *)
Definition own (ks : list string) (i : nat) : option string := k ← ks !! i; if decide (k ∈ drop (S i) ks) then None else Some k.

Lemma places_own ks k i : places ks !! k = Some i <-> own ks i = Some k.
Proof.
  unfold own. induction ks as [|k' ks IH] using rev_ind; [unfold places; cbn; by rewrite lookup_empty|].
  rewrite places_snoc. destruct (decide (i = length ks)) as [->|Hi].
  { rewrite list_lookup_middle by done. cbn. rewrite drop_ge by (rewrite length_app; cbn; lia). rewrite decide_False by apply not_elem_of_nil.
    split; [|intros [= ->]; by rewrite lookup_insert_eq]. intros [[<- _]|[_ E]]%lookup_insert_Some; [done|].
    apply IH in E. by rewrite lookup_ge_None_2 in E by lia. }
  destruct (ks !! i) as [x|] eqn:Ex.
  - pose proof (lookup_lt_Some _ _ _ Ex) as Hlt. rewrite lookup_app_l, Ex by lia. cbn in IH |- *. rewrite drop_app_le by lia.
    destruct (decide (k = k')) as [->|Hk].
    + rewrite lookup_insert_eq. split; [intros [= ?]; lia|]. destruct (decide (x ∈ drop (S i) ks ++ [k'])) as [Hd|Hd]; [done|]. intros [= ->]. destruct Hd. apply elem_of_app. right. by left.
    + rewrite lookup_insert_ne, IH by done. rewrite (decide_ext (x ∈ drop (S i) ks ++ [k']) (x ∈ drop (S i) ks \/ x = k')) by (rewrite elem_of_app, list_elem_of_singleton; done).
      destruct (decide (x ∈ drop (S i) ks)) as [Hd|Hd]; [by rewrite decide_True by (by left)|].
      destruct (decide (x = k')) as [->|Hx]; [rewrite decide_True by (by right)|rewrite decide_False by tauto; done]. split; [intros [= ->]|]; done.
  - apply lookup_ge_None in Ex. rewrite lookup_ge_None_2 by (rewrite length_app; cbn; lia). cbn. split; [|done].
    intros [[_ E]|[_ E]]%lookup_insert_Some; [lia|]. by apply IH in E.
Qed.

Lemma own_NoDup ks i : NoDup ks -> own ks i = ks !! i.
Proof.
  intros Hnd. unfold own. destruct (ks !! i) as [k|] eqn:E; [|done]. cbn. rewrite decide_False; [done|]. intros [j Hj]%list_elem_of_lookup.
  rewrite lookup_drop in Hj. assert (i = (S i + j)%nat); [by eapply NoDup_lookup|lia].
Qed.

Section placing.
Context {A S : Type} (ks : list string) (k : S -> string) (f : S -> A -> A).

(** What the samples of a key do to its entry. *)
Definition taken (key : option string) (a : A) (ss : list S) : A := foldl (fun a s => f s a) a (filter (fun s => key = Some (k s)) ss).

Lemma place_lookup l s i : place (places ks) k f l s !! i = (if bool_decide (own ks i = Some (k s)) then f s else id) <$> l !! i.
Proof.
  unfold place. destruct (places ks !! k s) as [j|] eqn:E.
  - destruct (decide (i = j)) as [->|Hn].
    + rewrite list_lookup_alter_eq. by rewrite bool_decide_true by (by apply places_own).
    + rewrite list_lookup_alter_ne by done. rewrite bool_decide_false; [by destruct (l !! i)|].
      intros E'%places_own. congruence.
  - rewrite bool_decide_false; [by destruct (l !! i)|]. intros E'%places_own. congruence.
Qed.

Lemma places_owned ss : forall l, foldl (place (places ks) k f) l ss = imap (fun i a => taken (own ks i) a ss) l.
Proof.
  induction ss as [|s ss IH]; intros l; cbn [foldl].
  - apply list_eq. intros i. rewrite list_lookup_imap. by destruct (l !! i).
  - rewrite IH. apply list_eq. intros i. rewrite !list_lookup_imap, place_lookup.
    destruct (l !! i) as [a|]; [|done]. cbn [fmap option_fmap option_map]. f_equal. unfold taken. rewrite filter_cons.
    case_decide; [rewrite bool_decide_true by done | rewrite bool_decide_false by done]; done.
Qed.

Lemma places_taken ss l : NoDup ks -> foldl (place (places ks) k f) l ss = imap (fun i a => taken (ks !! i) a ss) l.
Proof. intros Hnd. rewrite places_owned. apply imap_ext. intros i a _. by rewrite own_NoDup. Qed.
End placing.

(** ** Queries that are answered *)

Definition tagged {S} (samples : string -> list S) (qs : list (stat * string)) : list (stat * S) :=
  concat (map (fun q => map (pair q.1) (samples q.2)) qs).

Lemma place_tagged {A S} at_ (k : S -> string) (f : stat -> S -> A -> A) st ss : forall l,
  foldl (place at_ k (f st)) l ss = foldl (place at_ (fun e => k e.2) (fun e => f e.1 e.2)) l (map (pair st) ss).
Proof. induction ss as [|s ss IH]; [done|]. intros l. cbn [foldl map]. by rewrite IH. Qed.

Lemma answer_all {A S} (Q : string -> list S + Err) (samples : string -> list S) at_ k (f : stat -> S -> A -> A) qs : forall l,
  (forall q, q ∈ qs -> Q q.2 = inl (samples q.2)) ->
  answer Q (fun st => place at_ k (f st)) l qs = inl (foldl (place at_ (fun e => k e.2) (fun e => f e.1 e.2)) l (tagged samples qs)).
Proof.
  induction qs as [|[st q] qs IH]; intros l Hq; [done|]. cbn [answer].
  pose proof (Hq (st, q) ltac:(by left)) as E. cbn [snd] in E. rewrite E.
  rewrite IH by (intros q' H; apply Hq; by right). unfold tagged. cbn [map concat fst snd]. by rewrite foldl_app, place_tagged.
Qed.

(** The first that fails ends it. *)
Lemma answer_first {A S} (Q : string -> list S + Err) (put : stat -> list A -> S -> list A) q e qs1 qs2 : forall l,
  (forall q, q ∈ qs1 -> exists ss, Q q.2 = inl ss) -> Q q.2 = inr e -> answer Q put l (qs1 ++ q :: qs2) = inr e.
Proof.
  induction qs1 as [|[st q1] qs1 IH]; intros l Hq He; [destruct q as [st q]; cbn in *; by rewrite He|].
  cbn [answer app]. destruct (Hq (st, q1)) as [ss E]; [by left|]. cbn in E. rewrite E. apply IH; [|done]. intros q' H. apply Hq. by right.
Qed.

(** ** Figures *)

(** The newest of the values a statistic has in one direction. *)
Definition figure (es : list (stat * VMSeries)) (st : stat) (out : bool) : float64 :=
  default zero (last (omap (fun e : stat * VMSeries =>
    if bool_decide (e.1 = st /\ bool_decide (label e.2 "dir" = "out") = out) then Some (vs_Value e.2) else None) es)).
Definition measured (es : list (stat * VMSeries)) (st : stat) : Dirs := mkDirs (figure es st false) (figure es st true).
Definition filled (es : list (stat * VMSeries)) (r : Row) : Row :=
  (((r <| rw_Avg := measured es StAvg |>) <| rw_P95 := measured es StP95 |>) <| rw_Max := measured es StMax |>) <| rw_Total := measured es StTotal |>.

Lemma figure_snoc es st' s st out : figure (es ++ [(st', s)]) st out =
  if bool_decide (st' = st /\ bool_decide (label s "dir" = "out") = out) then vs_Value s else figure es st out.
Proof. unfold figure. rewrite omap_app. cbn. case_bool_decide; [by rewrite last_snoc | by rewrite app_nil_r]. Qed.

Lemma filled_all es r : rw_Avg r = noDirs -> rw_P95 r = noDirs -> rw_Max r = noDirs -> rw_Total r = noDirs ->
  foldl (fun r e => assignSample e.1 e.2 r) r es = filled es r.
Proof.
  intros E1 E2 E3 E4. induction es as [|[st s] es IH] using rev_ind.
  - destruct r; cbn in *. by subst.
  - rewrite foldl_app, IH. cbn [foldl fst snd]. unfold assignSample, filled, measured. rewrite !figure_snoc.
    destruct st; cbn; unfold setDir; destruct (bool_decide (label s "dir" = "out")) eqn:Eo; cbn;
      repeat case_bool_decide; intuition congruence.
Qed.

Lemma foldl_numbers es : forall r, foldl (fun r e => assignNumber e.1 e.2 r) r es =
  foldl (fun r e => assignSample e.1 e.2 r) r (filter (fun e => IsNaN (vs_Value e.2) = false) es).
Proof.
  induction es as [|e es IH]; intros r; [done|]. cbn [foldl]. rewrite IH, filter_cons. unfold assignNumber.
  destruct (IsNaN _) eqn:E; case_decide; done.
Qed.

Lemma busiest_perm rows : busiestFirst rows ≡ₚ rows.
Proof. apply merge_sort_Permutation. Qed.

Lemma flt_asym x y : flt x y = true -> flt y x = false.
Proof.
  unfold flt, SFltb. destruct x as [sx|sx| |sx mx ex], y as [sy|sy| |sy my ey]; cbn [SFcompare]; try done;
    try (destruct sx; done); try (destruct sy; done); try (destruct sx, sy; done).
  destruct sx, sy; try done; rewrite (Z.compare_antisym ex ey); destruct (ex ?= ey)%Z; cbn; try done;
    change (Pos.compare_cont Eq my mx) with (my ?= mx)%positive; change (Pos.compare_cont Eq mx my) with (mx ?= my)%positive;
    rewrite (Pos.compare_antisym mx my); by destruct (mx ?= my)%positive.
Qed.

#[export] Instance notBelow_total : Total notBelow.
Proof. intros a b. unfold notBelow, busier. destruct (flt (total a) (total b)) eqn:E; [right; by apply flt_asym|by left]. Qed.

(** ** Groups *)

Section collecting.
Context {A B : Type} (k : A -> string) (v : A -> B).
Definition collect (l : list A) : gmap string (list B) := foldl (fun m x => <[k x := default [] (m !! k x) ++ [v x]]> m) ∅ l.

Lemma collect_snoc l x : collect (l ++ [x]) = <[k x := default [] (collect l !! k x) ++ [v x]]> (collect l).
Proof. unfold collect. by rewrite foldl_app. Qed.

Lemma collect_spec l n : default [] (collect l !! n) = map v (filter (fun x => k x = n) l) /\ (is_Some (collect l !! n) <-> n ∈ map k l).
Proof.
  induction l as [|x l IH] using rev_ind; [unfold collect; cbn; rewrite lookup_empty; split; [done|]; split; [by intros []|by intros ?%elem_of_nil]|].
  rewrite collect_snoc, filter_app, !map_app, elem_of_app. destruct IH as [IH1 IH2]. rewrite filter_cons, filter_nil. cbn [map].
  destruct (decide (k x = n)) as [<-|Hn].
  - rewrite lookup_insert_eq. cbn. rewrite IH1. split; [done|]. split; [intros _; right; by left|by eexists].
  - rewrite lookup_insert_ne by done. cbn. rewrite app_nil_r, IH2. split; [done|]. split; [by left|].
    intros [?|[->|?%elem_of_nil]%elem_of_cons]; done.
Qed.
End collecting.

Lemma groupBy_collect ifaces : groupBy ifaces = collect is_Customer id ifaces.
Proof. done. Qed.

Lemma groupBy_spec ifaces n : default [] (groupBy ifaces !! n) = filter (fun i => is_Customer i = n) ifaces.
Proof. rewrite groupBy_collect, (proj1 (collect_spec _ _ _ _)). apply map_id. Qed.

Lemma groupNames_spec ifaces : NoDup (groupNames (groupBy ifaces)) /\ StronglySorted str_le (groupNames (groupBy ifaces)) /\
  forall n, n ∈ groupNames (groupBy ifaces) <-> n ∈ map is_Customer ifaces.
Proof.
  unfold groupNames, sort_Strings. split_and!.
  - apply NoDup_merge_sort, NoDup_fst_map_to_list.
  - apply StronglySorted_merge_sort; apply _.
  - intros n. transitivity (is_Some (groupBy ifaces !! n)); [|exact (proj2 (collect_spec is_Customer id ifaces n))].
    rewrite elem_of_merge_sort. change (map ?f ?l) with (f <$> l). rewrite list_elem_of_fmap. split.
    + intros [[n' g] [-> H]]. apply elem_of_map_to_list in H. by eexists.
    + intros [g Hg]. exists (n, g). split; [done|]. by apply elem_of_map_to_list.
Qed.

(** A group's speed is what its members have together, when all of them say. *)
Definition speedTogether (g : list InterfaceSearchRow) : Z :=
  if bool_decide (Forall (fun i => 0 < is_SpeedBPS i) g) then int64 (foldr Z.add 0 (map is_SpeedBPS g)) else 0.


Lemma groupSpeed_spec g : groupSpeed 0 g = speedTogether g.
Proof.
  assert (forall sum, Forall (fun i => 0 < is_SpeedBPS i) g -> groupSpeed (int64 sum) g = int64 (sum + foldr Z.add 0 (map is_SpeedBPS g))) as Hall.
  { induction g as [|i g IH]; intros sum Hg; cbn; [f_equal; lia|]. apply Forall_cons in Hg as [Hi Hg].
    rewrite (proj2 (Z.leb_gt _ _)) by done. rewrite int64_add, IH by done. f_equal. lia. }
  assert (forall sum, ~ Forall (fun i => 0 < is_SpeedBPS i) g -> groupSpeed sum g = 0) as Hno.
  { clear Hall. induction g as [|i g IH]; intros sum Hg; [destruct Hg; by constructor|]. cbn. destruct (is_SpeedBPS i <=? 0) eqn:E; [done|].
    apply IH. intros H. apply Hg. constructor; [lia|done]. }
  unfold speedTogether. case_bool_decide as H; [by apply (Hall 0)|by apply Hno].
Qed.

(** ** Queries that fit *)

Definition weight (c : list string) : Z := foldr Z.add 0 (map (fun e => slen e + 4) c).

Lemma weight_app a b : weight (a ++ b) = weight a + weight b.
Proof. unfold weight. induction a as [|x a IH]; cbn; [done|]. unfold weight in IH. rewrite IH. lia. Qed.

Lemma slen_app a b : slen (a +:+ b) = slen a + slen b.
Proof. unfold slen. by rewrite to_bytes_app, len_app. Qed.

Lemma slen_Join c : c <> [] -> slen (Join c " or ") = weight c - 4.
Proof.
  induction c as [|s [|s' c] IH]; [done|intros _; cbn; lia|]. intros _. change (Join (s :: s' :: c) " or ") with (s +:+ " or " +:+ Join (s' :: c) " or ").
  rewrite !slen_app, IH by done. change (slen " or ") with 4. cbn. lia.
Qed.

(** A chunk that is asked as one query. *)
Definition fits (c : list string) : Prop := c <> [] /\ (length c = 1%nat \/ slen (Join c " or ") <= maxQueryLen - 4).

Lemma batches_chunks {A} (g : A -> string) es : forall out cur, (cur = [] \/ fits (map g cur)) ->
  exists chunks, batches out (map g cur) (weight (map g cur)) (map g es) = out ++ map (fun c => Join (map g c) " or ") chunks /\
    concat chunks = cur ++ es /\ Forall (fun c => fits (map g c)) chunks.
Proof.
  induction es as [|e es IH]; intros out cur Hc; cbn [batches map].
  - case_bool_decide as E.
    + exists []. apply map_eq_nil in E as ->. by rewrite app_nil_r.
    + exists [cur]. cbn. rewrite app_nil_r. split_and!; [done..|]. constructor; [|done]. by destruct Hc as [->|Hc].
  - destruct (negb _ && _) eqn:E.
    + apply andb_true_iff in E as [Hn _]. rewrite negb_true_iff, bool_decide_eq_false in Hn.
      destruct (IH (out ++ [Join (map g cur) " or "]) [e]) as (cs & E1 & E2 & E3); [right; split; [done|by left]|].
      replace (slen (g e) + 4) with (weight (map g [e])) by (cbn; lia). exists (cur :: cs).
      cbn [map] in E1 |- *. rewrite E1. cbn. rewrite E2, <- app_assoc. split_and!; [done..|]. constructor; [|done].
      destruct Hc as [->|Hc]; [done|done].
    + destruct (IH out (cur ++ [e])) as (cs & E1 & E2 & E3).
      { right. rewrite map_app. split; [by destruct (map g cur)|]. apply andb_false_iff in E as [E|E].
        - rewrite negb_false_iff, bool_decide_eq_true in E. rewrite E. by left.
        - right. rewrite slen_Join by (by destruct (map g cur)). rewrite weight_app. apply Z.ltb_ge in E. cbn. lia. }
      exists cs. rewrite map_app, weight_app in E1. cbn in E1. rewrite Z.add_0_r, Z.add_assoc in E1. rewrite E1, E2, <- app_assoc. done.
Qed.

Lemma batches_fit {A} (g : A -> string) es : exists chunks, batches [] [] 0 (map g es) = map (fun c => Join (map g c) " or ") chunks /\
  concat chunks = es /\ Forall (fun c => fits (map g c)) chunks.
Proof. apply (batches_chunks g es [] []). by left. Qed.

(** ** Selectors *)

Lemma groupIndexes_spec l : (groupIndexes l).1 = collect fst (fun i => Itoa i.2) l /\ NoDup (groupIndexes l).2 /\
  forall d, d ∈ (groupIndexes l).2 <-> d ∈ map fst l.
Proof.
  induction l as [|[d0 i0] l (IH1 & IH2 & IH3)] using rev_ind; [split_and!; [done|constructor|done]|].
  unfold groupIndexes in *. rewrite foldl_app, collect_snoc. cbn [foldl fst snd]. destruct (foldl _ _ l) as [m order]. cbn [fst snd] in *. subst m.
  split; [done|]. destruct (bool_decide (is_Some _)) eqn:Es; rewrite ?bool_decide_eq_true, ?bool_decide_eq_false, (proj2 (collect_spec _ _ _ _)) in Es;
    rewrite <- IH3 in Es.
  - split; [done|]. intros d. rewrite map_app, elem_of_app, IH3. cbn. rewrite list_elem_of_singleton. split; [by left|].
    intros [?| ->]; [done|]. by rewrite <- IH3.
  - split.
    + apply NoDup_app. split_and!; [done| |by apply NoDup_singleton]. intros d Hd ->%list_elem_of_singleton. done.
    + intros d. rewrite map_app, !elem_of_app, IH3. done.
Qed.

(** Each device once, with the indexes of its members and no other. *)
Lemma selectors_exact l : NoDup (map fst (selectors l)) /\
  forall d i, (exists idx, (d, idx) ∈ selectors l /\ Itoa i ∈ idx) <-> (d, i) ∈ l.
Proof.
  unfold selectors. destruct (groupIndexes_spec l) as (E & Hnd & Ho). destruct (groupIndexes l) as [m order]. cbn [fst snd] in *. subst m. split.
  - rewrite map_map. cbn. by rewrite map_id.
  - intros d i. split.
    + intros (idx & Hin & Hi). apply list_elem_of_fmap in Hin as (d' & [= <- ->] & Hd). unfold sort_Strings in Hi.
      rewrite elem_of_merge_sort, (proj1 (collect_spec _ _ _ _)) in Hi.
      apply list_elem_of_fmap in Hi as ([d' i'] & Ei & Hf). apply list_elem_of_filter in Hf as [Hk Hin]. cbn in *. apply Itoa_inj in Ei. by subst.
    + intros Hin. eexists. split.
      * apply list_elem_of_fmap. exists d. split; [done|]. apply Ho, list_elem_of_fmap. by exists (d, i).
      * unfold sort_Strings. rewrite elem_of_merge_sort, (proj1 (collect_spec _ _ _ _)).
        apply list_elem_of_fmap. exists (d, i). split; [done|]. by apply list_elem_of_filter.
Qed.

(** ** Charts *)

Definition lastPoints (ss : list Series) (out : bool) : list Point :=
  default [] (last (omap (fun se => if bool_decide (bool_decide (seLabel se "dir" = "out") = out) then Some (se_Points se) else None) ss)).
Definition drawn (ss : list Series) (r : Row) : Chart := mkChart (chartTitle r) (chartSubtitle r) (lastPoints ss false) (lastPoints ss true).

Lemma drawn_all ss r : foldl (fun c se => setPoints se c) (blankChart r) ss = drawn ss r.
Proof.
  induction ss as [|se ss IH] using rev_ind; [done|]. rewrite foldl_app, IH. cbn [foldl].
  unfold setPoints, drawn, lastPoints. rewrite !omap_app. cbn.
  destruct (bool_decide (seLabel se "dir" = "out")); do 2 case_bool_decide; try done; by rewrite app_nil_r, last_snoc.
Qed.

Lemma foldl_snd {A B} (f : B -> A -> A) es : forall a, foldl (fun a (e : stat * B) => f e.2 a) a es = foldl (fun a s => f s a) a (map snd es).
Proof. induction es as [|e es IH]; [done|]. intros a. cbn. by rewrite IH. Qed.

(** Every row's chart holds what came for its key, and nothing else. *)
Lemma drawCharts_exact (q : string -> list Series + Err) samples k ks rows exprs : NoDup ks -> length ks = length rows ->
  (forall e, e ∈ exprs -> q e = inl (samples e)) ->
  drawCharts q k ks rows exprs = inl (imap (fun i r => drawn (filter (fun se => ks !! i = Some (k se)) (concat (map samples exprs))) r) rows).
Proof.
  intros Hnd Hl Hq. unfold drawCharts. rewrite (answer_all q samples _ k (fun _ => setPoints)).
  2:{ intros [st e] Hin. apply list_elem_of_fmap in Hin as (e' & [= -> ->] & He). by apply Hq. }
  rewrite places_taken by done. f_equal. apply list_eq. intros i. rewrite !list_lookup_imap, list_lookup_fmap.
  destruct (rows !! i) as [r|]; [|done]. cbn. f_equal. unfold taken. rewrite (foldl_snd setPoints), drawn_all. f_equal.
  unfold tagged. rewrite map_map. cbn [fst snd]. induction exprs as [|e exprs IH]; [done|]. cbn [map concat].
  rewrite !filter_app, map_app, IH by (intros e' H; apply Hq; by right). f_equal.
  induction (samples e) as [|se ss IH']; [done|]. cbn [map]. rewrite !filter_cons. cbn [snd]. case_decide; cbn [map]; by rewrite IH'.
Qed.

Section properties.
Context (Quote : string -> string) (FindInterfaces : InterfaceFilter -> Z -> Z -> (list InterfaceSearchRow * Z) + Err).
Context (QueryAt : Time -> string -> list VMSeries + Err) (PollInterval : option Duration).

(** What a report on an interface is made from: the numbers that came for it. *)
Definition isNumberFor (i : InterfaceSearchRow) (e : stat * VMSeries) : Prop :=
  IsNaN (vs_Value e.2) = false /\ label e.2 "device_id" = is_DeviceID i /\ AtoiValue (label e.2 "if_index") = is_IfIndex i.
#[export] Instance isNumberFor_dec i e : Decision (isNumberFor i e).
Proof. unfold isNumberFor. apply _. Defined.
Definition interfaceRow (es : list (stat * VMSeries)) (i : InterfaceSearchRow) : Row := withUtil Max_float (filled (filter (isNumberFor i) es) (rowOf i)).

(** What a report on a customer is made from. *)
Definition customerRow (es : list (stat * VMSeries)) (ifaces : list InterfaceSearchRow) (n : string) : Row :=
  let g := filter (fun i => is_Customer i = n) ifaces in
  withUtil maxf (filled (filter (fun e => label e.2 custLabel = n) es)
    (mkRow "" "" n 0 "" "" "" (speedTogether g) (len g) noDirs noDirs noDirs noDirs unmeasured unmeasured unmeasured)).

(** The row of the interface at [i]: a later interface with its device and index
    has the numbers of both. *)
Definition measuredRow (es : list (stat * VMSeries)) (ifaces : list InterfaceSearchRow) (i : nat) (f : InterfaceSearchRow) : Row :=
  if decide (Exists (fun g => is_DeviceID g = is_DeviceID f /\ is_IfIndex g = is_IfIndex f) (drop (S i) ifaces))
  then withUtil Max_float (rowOf f) else interfaceRow es f.

Lemma rows_measured es ifaces :
  map (withUtil Max_float) (foldl (place (places (map (fun r => rowKey (rw_DeviceID r) (rw_IfIndex r)) (map rowOf ifaces)))
    (fun e => sampleKey e.2) (fun e => assignNumber e.1 e.2)) (map rowOf ifaces) es) = imap (measuredRow es ifaces) ifaces.
Proof.
  rewrite places_owned. apply list_eq. intros i. rewrite list_lookup_fmap, !list_lookup_imap, !list_lookup_fmap. destruct (ifaces !! i) as [f|] eqn:Ef; [|done]. cbn.
  f_equal. set (ks := map _ (map rowOf ifaces)).
  assert (own ks i = if decide (Exists (fun g => is_DeviceID g = is_DeviceID f /\ is_IfIndex g = is_IfIndex f) (drop (S i) ifaces))
    then None else Some (rowKey (is_DeviceID f) (is_IfIndex f))) as ->.
  { unfold own, ks. rewrite !list_lookup_fmap, Ef. cbn -[drop]. apply decide_ext. change (map ?g ?l) with (g <$> l). rewrite <- !fmap_drop, Exists_exists.
    rewrite !list_elem_of_fmap. setoid_rewrite list_elem_of_fmap. split.
    - intros (r & E & g & -> & Hg). cbn in E. apply (inj2 rowKey) in E as [E1 E2]. by exists g.
    - intros (g & Hg & E1 & E2). exists (rowOf g). split; [cbn; by rewrite E1, E2|by exists g]. }
  unfold measuredRow. case_decide as Hd; [f_equal; unfold taken|].
  - induction es as [|e es IH]; [done|]. rewrite filter_cons. by rewrite decide_False.
  - unfold interfaceRow, taken. f_equal. rewrite foldl_numbers, filled_all by done. f_equal. rewrite list_filter_filter.
    apply list_filter_iff. intros e. unfold isNumberFor, sampleKey. split.
    + intros [Hn [= E]]. by apply (inj2 rowKey) in E as [-> ->].
    + intros (Hn & -> & ->). done.
Qed.

Lemma rows_grouped es ifaces names : NoDup names ->
  let rows := map (fun n => groupRow n (default [] (groupBy ifaces !! n))) names in
  map (withUtil maxf) (foldl (place (places (map rw_Customer rows)) (fun e => label e.2 custLabel) (fun e => assignSample e.1 e.2)) rows es) =
  map (customerRow es ifaces) names.
Proof.
  intros Hnd rows. assert (map rw_Customer rows = names) as Ek by (unfold rows; rewrite map_map; apply map_id).
  rewrite places_taken by (by rewrite Ek). rewrite Ek.
  apply list_eq. intros i. unfold rows. rewrite !list_lookup_fmap, list_lookup_imap, !list_lookup_fmap.
  destruct (names !! i) as [n|] eqn:En; [|done]. cbn.
  unfold customerRow, taken, groupRow. rewrite groupBy_spec, groupSpeed_spec. do 2 f_equal. rewrite filled_all by done. f_equal.
  apply list_filter_iff. intros e. split; [by intros [= ->]|by intros ->].
Qed.

(** C26. A bandwidth report has one row for each interface found, and each row
    the numbers that came for its device and index - the newest of each
    statistic and direction, none of another's - with the busiest first. Two
    interfaces found with one device and index, a missing one and the one that
    took its index, share what came for it: the one found later has all of it
    and the other nothing ([index_shared]). Whatever the store answers that
    belongs to no interface of the report is left out. *)
Theorem bandwidth_exact f from to_ limit ifaces found samples :
  from < to_ -> FindInterfaces f (reportLimit limit) 0 = inl (ifaces, found) ->
  (forall q, q ∈ bandwidthQueries PollInterval (time_Sub to_ from) -> QueryAt to_ q.2 = inl (samples q.2)) ->
  exists rep, Bandwidth FindInterfaces QueryAt PollInterval f from to_ limit = inl rep /\
    rp_Rows rep ≡ₚ imap (measuredRow (tagged samples (bandwidthQueries PollInterval (time_Sub to_ from))) ifaces) ifaces /\
    Sorted notBelow (rp_Rows rep) /\ rp_Truncated rep = (len ifaces <? found).
Proof.
  intros Hw Hf Hq. unfold Bandwidth. rewrite (proj2 (Z.ltb_lt _ _) Hw), Hf. cbn [negb].
  case_bool_decide as He; [subst ifaces; eexists; split; [reflexivity|]; cbn; split_and!; [done|constructor|done]|].
  rewrite (answer_all (QueryAt to_) samples _ sampleKey assignNumber) by done. eexists. split; [reflexivity|]. cbn [rp_Rows rp_Truncated set emptyReport].
  rewrite rows_measured. split_and!; [apply busiest_perm|apply Sorted_merge_sort, _|done].
Qed.

(** A report by customer has one row for each customer of the interfaces
    found, in a limit, those of no customer under their own; the row is made
    from what came for that customer, counts its interfaces, and has their
    speed together only when every one of them has a speed. *)
Theorem customers_exact f from to_ limit ifaces found samples :
  let names := groupNames (groupBy ifaces) in
  let queries := customerQueries Quote PollInterval (groupBy ifaces) (take MaxGroups names) (time_Sub to_ from) in
  from < to_ -> FindInterfaces f (reportLimit limit) 0 = inl (ifaces, found) ->
  (forall q, q ∈ queries -> QueryAt to_ q.2 = inl (samples q.2)) ->
  (forall n, n ∈ names <-> exists i, i ∈ ifaces /\ is_Customer i = n) /\
  exists rep, ByCustomer Quote FindInterfaces QueryAt PollInterval f from to_ limit = inl rep /\
    rp_Rows rep ≡ₚ map (customerRow (tagged samples queries) ifaces) (take MaxGroups names) /\
    Sorted notBelow (rp_Rows rep) /\ rp_Truncated rep = (len ifaces <? found) || (Z.of_nat MaxGroups <? len names).
Proof.
  intros names queries Hw Hf Hq. destruct (groupNames_spec ifaces) as (Hnd & _ & Hn). split.
  { intros n. unfold names. rewrite Hn. change (map ?f ?l) with (f <$> l). rewrite list_elem_of_fmap. naive_solver. }
  unfold ByCustomer. rewrite (proj2 (Z.ltb_lt _ _) Hw), Hf. cbn [negb].
  case_bool_decide as He; [subst ifaces; eexists; split; [reflexivity|]; cbn; split_and!; [done|constructor|by rewrite orb_false_r]|].
  fold names. rewrite (answer_all (QueryAt to_) samples _ (fun s => label s custLabel) assignSample) by done.
  eexists. split; [reflexivity|]. cbn [rp_Rows rp_Truncated set emptyReport].
  rewrite rows_grouped by (eapply sublist_NoDup; [exact Hnd|apply sublist_take]). split_and!; [apply busiest_perm|apply Sorted_merge_sort, _|done].
Qed.
(** The queries of a report by customer: for each statistic the customers
    in order, cut into queries and each customer whole in one of them; a query
    is short enough for the store, or is of one customer alone; and a customer
    is asked for by its devices, each once, with the indexes of its own
    interfaces on that device and no other. *)
Theorem groups_asked ifaces names win st :
  let group n := groupExpr Quote (match st with StTotal => totalOf win | _ => ratedAt (rateWindow PollInterval) end) n
    (filter (fun i => is_Customer i = n) ifaces) in
  (exists chunks, concat chunks = names /\
    map snd (filter (fun q => q.1 = st) (customerQueries Quote PollInterval (groupBy ifaces) names win)) =
      map (fun c => rollup st win (subStep win (rateWindow PollInterval)) (Join (map group c) " or ")) chunks /\
    Forall (fun c => c <> [] /\ (length c = 1%nat \/ slen (Join (map group c) " or ") < maxQueryLen)) chunks) /\
  forall n, let sels := selectors (map ifaceKey (filter (fun i => is_Customer i = n) ifaces)) in
    NoDup (map fst sels) /\
    forall d ix, (exists idx, (d, idx) ∈ sels /\ Itoa ix ∈ idx) <-> exists i, i ∈ ifaces /\ is_Customer i = n /\ is_DeviceID i = d /\ is_IfIndex i = ix.
Proof.
  intros group. split.
  - destruct (batches_fit group names) as (chunks & E1 & E2 & E3). exists chunks. split_and!; [done| |].
    + transitivity (map (rollup st win (subStep win (rateWindow PollInterval))) (batches [] [] 0 (map group names))); [|by rewrite E1, map_map].
      assert (forall st' (l : list string), map snd (filter (fun q : stat * string => q.1 = st) (map (fun b => (st', rollup st' win (subStep win (rateWindow PollInterval)) b)) l)) =
        if decide (st' = st) then map (rollup st win (subStep win (rateWindow PollInterval))) l else []) as Hf.
      { intros st' l. case_decide as Es; induction l as [|b l IH]; try done; cbn [map]; rewrite filter_cons; cbn [fst]; case_decide; try done.
        cbn [map snd]. by rewrite IH, Es. }
      assert (forall series, batchGroups Quote series (groupBy ifaces) names =
        batches [] [] 0 (map (fun n => groupExpr Quote series n (filter (fun i => is_Customer i = n) ifaces)) names)) as Hb
        by (intros series; unfold batchGroups; f_equal; apply map_ext; intros n; by rewrite groupBy_spec).
      unfold customerQueries, stats. cbn [map concat]. rewrite !filter_app, !map_app, !Hf, !Hb. unfold group.
      destruct st; cbn [decide]; rewrite ?decide_True, ?decide_False by done; cbn [app]; by rewrite ?app_nil_r.
    + eapply Forall_impl; [exact E3|]. intros c [Hn Hl]. rewrite length_map in Hl. split; [by intros ->|]. destruct Hl as [?|?]; [by left|right; lia].
  - intros n. destruct (selectors_exact (map ifaceKey (filter (fun i => is_Customer i = n) ifaces))) as [H1 H2]. split; [done|].
    intros d ix. rewrite H2. change (map ?f ?l) with (f <$> l). rewrite list_elem_of_fmap. split.
    + intros (i & [= -> ->] & [Hi1 Hi2]%list_elem_of_filter). by exists i.
    + intros (i & Hi & Hc & <- & <-). exists i. split; [done|]. by apply list_elem_of_filter.
Qed.

(** What finds a row's series, with one row for each customer or not. *)
Definition chartKey (grouped : bool) (r : Row) : string := if grouped then rw_Customer r else rowKey (rw_DeviceID r) (rw_IfIndex r).
Definition seriesFor (grouped : bool) (se : Series) : string := if grouped then seLabel se custLabel else seriesKey se.
Definition chartQueries (rep : Report) : list string :=
  let rows := take MaxCharts (rp_Rows rep) in
  let rate := ratedAt (chartStep (time_Sub (rp_To rep) (rp_From rep)) (rateWindow PollInterval)) in
  if bool_decide (rp_GroupedBy rep = "customer") then batchGroups Quote rate (groupBy (rp_ifaces rep)) (sort_Strings (map rw_Customer rows))
  else interfaceBatches Quote rate rows.

(** The charts of a report are those of its first rows, in their order, each
    with the series of its own row. *)
Lemma charts_exact QueryRange rep samples :
  let grouped := bool_decide (rp_GroupedBy rep = "customer") in
  let rows := take MaxCharts (rp_Rows rep) in
  rp_Rows rep <> [] -> NoDup (map (chartKey grouped) rows) ->
  (forall e, e ∈ chartQueries rep ->
     QueryRange e (rp_From rep) (rp_To rep) (chartStep (time_Sub (rp_To rep) (rp_From rep)) (rateWindow PollInterval)) = inl (samples e)) ->
  BuildCharts Quote PollInterval (Some QueryRange) rep = inl (Some
    (map (fun r => drawn (filter (fun se => seriesFor grouped se = chartKey grouped r) (concat (map samples (chartQueries rep)))) r) rows)).
Proof.
  intros grouped rows Hne Hnd Hq. unfold BuildCharts. rewrite bool_decide_false by done. fold rows. fold grouped.
  assert (forall ks k es, ks = map (chartKey grouped) rows -> k = seriesFor grouped -> es = chartQueries rep ->
    drawCharts (fun e => QueryRange e (rp_From rep) (rp_To rep) (chartStep (time_Sub (rp_To rep) (rp_From rep)) (rateWindow PollInterval))) k ks rows es =
    inl (map (fun r => drawn (filter (fun se => seriesFor grouped se = chartKey grouped r) (concat (map samples (chartQueries rep)))) r) rows)) as H.
  { intros ks k es -> -> ->. rewrite (drawCharts_exact _ samples) by (rewrite ?length_map; done). f_equal. apply list_eq. intros i.
    rewrite list_lookup_imap, !list_lookup_fmap. destruct (rows !! i) as [r|] eqn:Er; [|done].
    cbn. do 2 f_equal. apply list_filter_iff. intros se. split; [by intros [= ->]|by intros ->]. }
  unfold customerCharts, interfaceCharts. unfold chartQueries in H |- *. fold grouped rows in H |- *.
  destruct grouped; erewrite H; done.
Qed.
End properties.

(** ** Examples *)

(** Three interfaces of two devices, two of them for one customer; the store
    knows one thing more than was asked, and has no average for one of them. *)
Definition demoIfaces : list InterfaceSearchRow :=
  [mkInterfaceSearchRow "r1" "edge" 3 "ge0" "ACME-WAN" "" 1000 "acme"; mkInterfaceSearchRow "r1" "edge" 12 "ge1" "" "" 0 "";
   mkInterfaceSearchRow "r2" "core" 3 "xe0" "ACME-DC" "" 4000 "acme"].
Definition demoFind (f : InterfaceFilter) (limit offset : Z) : (list InterfaceSearchRow * Z) + Err := inl (demoIfaces, 3).
Definition demoQuote (s : string) : string := quoted s.
Definition demoSeries (dev idx dir : string) (v : float64) : VMSeries :=
  mkVMSeries (<["dir" := dir]> (<["device_id" := dev]> {["if_index" := idx]})) v.
Definition demoSamples (expr : string) : list VMSeries :=
  if HasPrefix expr "avg" then [demoSeries "r1" "3" "in" (float_of 100); demoSeries "r1" "12" "in" S754_nan; demoSeries "r9" "3" "out" (float_of 7)]
  else if HasPrefix expr "label_set(increase" then [demoSeries "r2" "3" "out" (float_of 900); demoSeries "r1" "3" "in" (float_of 50)] else [].
Definition demoStore (at_ : Time) (expr : string) : list VMSeries + Err := inl (demoSamples expr).
Definition demoFilter : InterfaceFilter := mkInterfaceFilter "" "".
Definition demoReport : Report + Err := Bandwidth demoFind demoStore (Some Minute) demoFilter 0 (24 * Hour) 0.

Example demo_report : match demoReport with
  | inl rep => map (fun r => (rw_DeviceID r, rw_IfIndex r, d_In (rw_Avg r), rw_AvgUtil r)) (rp_Rows rep) =
      [("r2", 3, zero, zero); ("r1", 3, float_of 100, float_of 10); ("r1", 12, zero, unmeasured)]
  | inr _ => False
  end.
Proof. vm_compute. reflexivity. Qed.
Example demo_selectors : selectors (map ifaceKey demoIfaces) = [("r1", ["12"; "3"]); ("r2", ["3"])].
Proof. vm_compute. reflexivity. Qed.

Theorem bandwidth_exact_witness : exists rep, demoReport = inl rep /\ length (rp_Rows rep) = 3%nat.
Proof.
  destruct (bandwidth_exact demoFind demoStore (Some Minute) demoFilter 0 (24 * Hour) 0 demoIfaces 3 demoSamples) as (rep & E & Hp & _).
  - done.
  - done.
  - done.
  - exists rep. split; [done|]. by rewrite Hp.
Defined.

(** A missing interface whose index another has taken: the numbers of both go to
    the one found later, which need not be the one that is there. *)
Definition sharedFind (f : InterfaceFilter) (limit offset : Z) : (list InterfaceSearchRow * Z) + Err :=
  inl ([mkInterfaceSearchRow "r1" "edge" 3 "ge0" "" "" 1000 ""; mkInterfaceSearchRow "r1" "edge" 3 "ge9" "" "" 1000 ""], 2).
Lemma index_shared : match Bandwidth sharedFind demoStore (Some Minute) demoFilter 0 (24 * Hour) 0 with
  | inl rep => map (fun r => (rw_Name r, d_In (rw_Avg r))) (rp_Rows rep) = [("ge9", float_of 100); ("ge0", zero)]
  | inr _ => False
  end.
Proof. vm_compute. reflexivity. Qed.

(** By customer: the two interfaces of one add up. *)
Definition demoGrouped (expr : string) : list VMSeries :=
  if HasPrefix expr "max" then [mkVMSeries (<["dir" := "in"]> {[custLabel := "acme"]}) (float_of 2500)] else [].
Definition demoCustomers : Report + Err :=
  ByCustomer demoQuote demoFind (fun _ e => inl (demoGrouped e)) (Some Minute) demoFilter 0 (24 * Hour) 0.
Example demo_customers : match demoCustomers with
  | inl rep => map (fun r => (rw_Customer r, rw_Interfaces r, rw_SpeedBPS r, rw_MaxUtil r)) (rp_Rows rep) =
      [("", 1, 0, unmeasured); ("acme", 2, 5000, float_of 50)]
  | inr _ => False
  end.
Proof. vm_compute. reflexivity. Qed.

Theorem customers_exact_witness : exists rep, demoCustomers = inl rep /\ length (rp_Rows rep) = 2%nat.
Proof.
  destruct (customers_exact demoQuote demoFind (fun _ e => inl (demoGrouped e)) (Some Minute) demoFilter 0 (24 * Hour) 0 demoIfaces 3 demoGrouped) as (_ & rep & E & Hp & _).
  - done.
  - done.
  - done.
  - exists rep. split; [done|]. rewrite Hp. vm_compute. reflexivity.
Defined.
