(* ===== verification/Devices.v ===== *)
(** Packages inventory/app (devices.go) and inventory/adapters/postgres
    (devices.go): adding, changing, listing and removing devices, and the
    polling schedule that follows them.

    A statement is a function of the tables, and a transaction that fails
    leaves them as they were. PostgreSQL's reading of an address ([inet], as
    [host] shows it again), its [ILIKE] and [LIKE] and the order of its
    collation are parameters, as are [strings.ToLower] and [%q]. New
    identifiers, the clock and the jitter come from outside. *)
From Stdlib Require Import ZArith Lia.
From stdpp Require Import base list gmap strings pretty numbers sorting.
From S2P Require Import Prelude GoText GoSort NetipParse Errx.

(** ** Devices *)

Inductive DeviceStatus : Type := DevicePending | DeviceActive | DeviceUnreachable | DeviceDisabled | DeviceRetired.
#[export] Instance DeviceStatus_eq_dec : EqDecision DeviceStatus.
Proof. solve_decision. Defined.
Definition status_text (s : DeviceStatus) : string :=
  match s with
  | DevicePending => "pending" | DeviceActive => "active" | DeviceUnreachable => "unreachable" | DeviceDisabled => "disabled"
  | DeviceRetired => "retired"
  end.

(** [any], as far as attributes and the audit trail use it. *)
Inductive Any : Type := ANil | ANum (z : Z) | AText (s : string) | AList (l : list string).
#[export] Instance Any_eq_dec : EqDecision Any.
Proof. solve_decision. Defined.

Record Device : Type := mkDevice {
  ID : string; TenantID : string; SiteID : string; ConnectorID : string; CredentialID : string; ProfileID : string;
  Name : string; MgmtIP : string; Status : DeviceStatus; SysName : string; SysDescr : string; Vendor : string; Model : string;
  SerialNumber : string; OSVersion : string; Tags : list string; Notes : string; Attrs : gmap string Any;
  WANCapacityBPS : Z; CreatedAt : Time; UpdatedAt : Time
}.
#[export] Instance eta_Device : Eta Device := fun d =>
  mkDevice (ID d) (TenantID d) (SiteID d) (ConnectorID d) (CredentialID d) (ProfileID d) (Name d) (MgmtIP d) (Status d) (SysName d)
    (SysDescr d) (Vendor d) (Model d) (SerialNumber d) (OSVersion d) (Tags d) (Notes d) (Attrs d) (WANCapacityBPS d) (CreatedAt d)
    (UpdatedAt d).
Definition Pollable (d : Device) : bool := bool_decide (Status d ∈ [DeviceActive; DevicePending; DeviceUnreachable]).

(** What a request says; [None] is a field that is absent where the code tells
    it from an empty one. *)
Record DeviceInput : Type := mkDeviceInput {
  di_Name : string; di_MgmtIP : string; di_SiteID : string; di_ConnectorID : string; di_CredentialID : string; di_ProfileID : string;
  di_Tags : option (list string); di_Notes : string; di_SNMPPort : Z; di_WANCapacityBPS : option Z; di_FlowExporters : option (list string)
}.
#[export] Instance eta_DeviceInput : Eta DeviceInput := fun i =>
  mkDeviceInput (di_Name i) (di_MgmtIP i) (di_SiteID i) (di_ConnectorID i) (di_CredentialID i) (di_ProfileID i) (di_Tags i) (di_Notes i)
    (di_SNMPPort i) (di_WANCapacityBPS i) (di_FlowExporters i).

(** ** The tables *)

(** A profile: the interval of each family, and the families it enables. *)
Record Profile : Type := mkProfile { traffic : Z; health : Z; icmp : Z; sync : Z; families_enabled : list string }.
Record Slot : Type := mkSlot { interval_s : Z; next_due_at : Time; enabled : bool }.
#[export] Instance eta_Slot : Eta Slot := fun s => mkSlot (interval_s s) (next_due_at s) (enabled s).
Record Event : Type := mkEvent { ev_Action : string; ev_Object : string; ev_Before : gmap string Any; ev_After : gmap string Any }.

Record DB : Type := mkDB {
  devices : list Device; schedule : gmap (string * string) Slot; asset_history : list (string * string); audit : list Event;
  sites : list string; connectors : list (string * bool); credentials : list string; profiles : gmap string Profile
}.
#[export] Instance eta_DB : Eta DB := fun t =>
  mkDB (devices t) (schedule t) (asset_history t) (audit t) (sites t) (connectors t) (credentials t) (profiles t).

Definition write (e : Event) (t : DB) : DB := t <| audit := audit t ++ [e] |>.

Definition errNotFound : Err := New KindNotFound "device not found".
Definition errConflict : Err := New KindConflict "a device with that management IP already exists".
(** What the driver says of a statement that failed. *)
Definition pgError (msg : string) : Err := ErrText msg.
Definition transient (msg : string) (e : Err) : Err := kindError KindTransient (ErrWrap msg e).

Definition deviceOf (id : string) (t : DB) : option Device := head (filter (fun d => ID d = id) (devices t)).
Definition Get (id : string) (t : DB) : Device + Err := match deviceOf id t with Some d => inl d | None => inr errNotFound end.

(** The unique index on tenant and address, of devices that are not retired;
    the primary key. *)
Definition clash (d d' : Device) : Prop :=
  Status d <> DeviceRetired /\ Status d' <> DeviceRetired /\ TenantID d = TenantID d' /\ MgmtIP d = MgmtIP d'.
#[export] Instance clash_dec d d' : Decision (clash d d').
Proof. unfold clash. apply _. Defined.
Definition taken (d : Device) (t : DB) : bool := bool_decide (Exists (fun d' => ID d' <> ID d /\ clash d d') (devices t)).

Definition RefsExist (siteID connectorID credentialID profileID : string) (t : DB) : option Err :=
  if negb (bool_decide (siteID ∈ sites t)) then Some (New KindInvalid "site not found")
  else if negb (bool_decide ((connectorID, true) ∈ connectors t)) then Some (New KindInvalid "connector not found or disabled")
  else if negb (bool_decide (credentialID ∈ credentials t)) then Some (New KindInvalid "credential not found")
  else if negb (bool_decide (is_Some (profiles t !! profileID))) then Some (New KindInvalid "polling profile not found")
  else None.

Definition families (p : Profile) : list (string * Z) := [("traffic", traffic p); ("health", health p); ("icmp", icmp p); ("sync", sync p)].

(** ** The schedule of a device *)

Section schedules.
(** the moment, the draw below an interval, and the order of the range over
    the map of families *)
Context (now : Time) (IntN : string -> Z -> Z) (order : list (string * Z) -> list (string * Z)).

Definition slotStep (deviceID : string) (on : list string) (tbl : gmap (string * string) Slot) (e : string * Z) : gmap (string * string) Slot :=
  let '(family, interval) := e in
  if negb (bool_decide (family ∈ on)) then delete (deviceID, family) tbl else
  let due := if bool_decide (family = "sync") then now else now + IntN family interval * Second in
  match tbl !! (deviceID, family) with
  | Some s => <[(deviceID, family) := s <| interval_s := interval |>]> tbl
  | None => <[(deviceID, family) := mkSlot interval due true]> tbl
  end.
Definition insertSchedules (deviceID profileID : string) (t : DB) : DB + Err :=
  match profiles t !! profileID with
  | None => inr (kindError KindInvalid (ErrWrap "load profile" (pgError "no rows in result set")))
  | Some p => inl (t <| schedule := foldl (slotStep deviceID (families_enabled p)) (schedule t) (order (families p)) |>)
  end.
End schedules.

(** ** Statements of the repository *)

Section repository.
Context (inet : string -> option string) (now : Time) (IntN : string -> Z -> Z) (order : list (string * Z) -> list (string * Z)).

Definition repoCreate (d : Device) (t : DB) : option Err * DB :=
  match inet (MgmtIP d) with
  | None => (Some (transient "insert device" (pgError "invalid input syntax for type inet")), t)
  | Some ip =>
      let d := ((d <| MgmtIP := ip |>) <| CreatedAt := now |>) <| UpdatedAt := now |> in
      if taken d t || bool_decide (is_Some (deviceOf (ID d) t)) then (Some errConflict, t) else
      match insertSchedules now IntN order (ID d) (ProfileID d) (t <| devices := devices t ++ [d] |>) with
      | inl t' => (None, t')
      | inr e => (Some e, t)
      end
  end.

(** What an UPDATE writes of a device. *)
Definition rewrite_ (ip : string) (d old : Device) : Device :=
  mkDevice (ID old) (TenantID old) (SiteID d) (ConnectorID d) (CredentialID d) (ProfileID d) (Name d) ip (Status old) (SysName old)
    (SysDescr old) (Vendor old) (Model old) (SerialNumber old) (OSVersion old) (Tags d) (Notes d) (Attrs d) (WANCapacityBPS d) (CreatedAt old)
    now.
Definition updateWhere (id : string) (f : Device -> Device) (t : DB) : DB :=
  t <| devices := map (fun d => if bool_decide (ID d = id) then f d else d) (devices t) |>.

Definition repoUpdate (d : Device) (t : DB) : option Err * DB :=
  match inet (MgmtIP d) with
  | None => (Some (transient "update device" (pgError "invalid input syntax for type inet")), t)
  | Some ip =>
      match deviceOf (ID d) t with
      | None => (Some errNotFound, t)
      | Some old =>
          if taken (rewrite_ ip d old) t then (Some errConflict, t) else
          match insertSchedules now IntN order (ID d) (ProfileID d) (updateWhere (ID d) (rewrite_ ip d) t) with
          | inl t' => (None, t')
          | inr e => (Some e, t)
          end
      end
  end.

Definition withStatus (s : DeviceStatus) (d : Device) : Device := (d <| Status := s |>) <| UpdatedAt := now |>.
Definition enableAll (id : string) (on : bool) (tbl : gmap (string * string) Slot) : gmap (string * string) Slot :=
  map_imap (fun k s => Some (if bool_decide (k.1 = id) then s <| enabled := on |> else s)) tbl.
(** An address that another device has taken meanwhile is an error of the
    index, which this statement does not tell from any other. *)
Definition repoSetStatus (id : string) (s : DeviceStatus) (t : DB) : option Err * DB :=
  match deviceOf id t with
  | None => (Some errNotFound, t)
  | Some d =>
      if taken (withStatus s d) t then (Some (transient "set device status" (pgError "duplicate key value violates unique constraint")), t) else
      let on := bool_decide (s = DeviceActive) || bool_decide (s = DevicePending) in
      (None, (updateWhere id (withStatus s) t) <| schedule := enableAll id on (schedule t) |>)
  end.

(** What is owned by the device goes with it. *)
Definition repoPurge (id : string) (t : DB) : option Err * DB :=
  match deviceOf id t with
  | None => (Some errNotFound, t)
  | Some _ =>
      (None, ((t <| asset_history := filter (fun h => h.2 <> id) (asset_history t) |>) <| devices := filter (fun d => ID d <> id) (devices t) |>)
        <| schedule := filter (fun '(k, _) => k.1 <> id) (schedule t) |>)
  end.
End repository.

(** ** Lists *)

Record DeviceFilter : Type := mkDeviceFilter { f_SiteID : string; f_Status : list string; f_Query : string; f_Cursor : string; f_Limit : Z }.
Definition listLimit (n : Z) : nat := if (n <=? 0) || (200 <? n) then 50%nat else Z.to_nat n.

Section list_.
(** the order of the text columns, [ILIKE], [LIKE] *)
Context (id_le : relation string) `{forall a b, Decision (id_le a b)} (ILIKE LIKE : string -> string -> bool).

Definition byID (d d' : Device) : Prop := id_le (ID d) (ID d').
#[export] Instance byID_dec d d' : Decision (byID d d').
Proof. unfold byID. apply _. Defined.
Definition queried (q : string) (d : Device) : bool :=
  let p := "%" +:+ q +:+ "%" in ILIKE (Name d) p || LIKE (MgmtIP d) p || ILIKE (SerialNumber d) p || ILIKE (SysName d) p.
(** The rows of a filter. A status that is not one of the type matches nothing
    here; the database refuses such a text, and the handler answers an error. *)
Definition listed (f : DeviceFilter) (d : Device) : Prop :=
  (f_SiteID f <> "" -> SiteID d = f_SiteID f) /\
  (if bool_decide (f_Status f = []) then Status d <> DeviceRetired else status_text (Status d) ∈ f_Status f) /\
  (f_Query f <> "" -> queried (f_Query f) d = true).
#[export] Instance listed_dec f d : Decision (listed f d).
Proof. unfold listed. destruct (bool_decide _); apply _. Defined.

(** One more than is asked for is read, to know whether anything follows. *)
Definition List (f : DeviceFilter) (t : DB) : list Device * string :=
  let limit := listLimit (f_Limit f) in
  let after := filter (fun d => id_le (f_Cursor f) (ID d) /\ ID d <> f_Cursor f /\ listed f d) (devices t) in
  let out := take (S limit) (merge_sort byID after) in
  if (limit <? length out)%nat then let page := take limit out in (page, match last page with Some d => ID d | None => "" end)
  else (out, "").
End list_.

(** ** The service *)

Definition ebind {A B} (m : A + Err) (k : A -> B + Err) : B + Err := match m with inl a => k a | inr e => inr e end.
Notation "x ←e m ; k" := (ebind m (fun x => k)) (at level 20, m at level 100, k at level 200, right associativity) : go_scope.

Definition orDefault (v def : string) : string := if bool_decide (v = "") then def else v.
Definition errPort : Err := New KindInvalid "snmp_port must be between 1 and 65535".
Definition errAddress : Err := New KindInvalid "mgmt_ip is not a valid IP address".
Definition isAddr (s : string) : bool := bool_decide (is_Some (ParseAddr s)).
Definition portOf (d : Device) : Any := default ANil (Attrs d !! "snmp_port").

Section service.
Context (Quote : string -> string).
Context (inet : string -> option string) (now : Time) (IntN : string -> Z -> Z) (order : list (string * Z) -> list (string * Z)).

Definition validate (i : DeviceInput) (t : DB) : option Err :=
  if bool_decide (di_Name i = "") || bool_decide (di_MgmtIP i = "") || bool_decide (di_SiteID i = "") || bool_decide (di_CredentialID i = "")
  then Some (New KindInvalid "name, mgmt_ip, site_id and credential_id are required")
  else if negb (isAddr (di_MgmtIP i)) then Some errAddress
  else if (di_SNMPPort i <? 0) || (65535 <? di_SNMPPort i) then Some errPort
  else RefsExist (di_SiteID i) (di_ConnectorID i) (di_CredentialID i) (di_ProfileID i) t.

Definition newDevice (id : string) (i : DeviceInput) : Device :=
  mkDevice id "t_default" (di_SiteID i) (di_ConnectorID i) (di_CredentialID i) (di_ProfileID i) (di_Name i) (di_MgmtIP i) DevicePending
    "" "" "" "" "" "" (default [] (di_Tags i)) (di_Notes i)
    (if (0 <? di_SNMPPort i) && negb (di_SNMPPort i =? 161) then {["snmp_port" := ANum (di_SNMPPort i)]} else ∅) 0 zeroTime zeroTime.
Definition withDefaults (i : DeviceInput) : DeviceInput :=
  (i <| di_ConnectorID := orDefault (di_ConnectorID i) "generic" |>) <| di_ProfileID := orDefault (di_ProfileID i) "pp_default" |>.

Definition Create (id : string) (i : DeviceInput) (t : DB) : (Device + Err) * DB :=
  let i := withDefaults i in
  match validate i t with
  | Some e => (inr e, t)
  | None =>
      let d := newDevice id i in
      match repoCreate inet now IntN order d t with
      | (Some e, t) => (inr e, t)
      | (None, t) =>
          let t := write (mkEvent "device.create" id ∅
            (<["name" := AText (Name d)]> (<["mgmt_ip" := AText (MgmtIP d)]> {["site_id" := AText (SiteID d)]}))) t in
          (Get id t, t)
      end
  end.

(** The further addresses a device sends flow from: none of them blank, none
    its own. *)
Fixpoint cleanLoop (mgmtIP : string) (l : list string) : list string + Err :=
  match l with
  | [] => inl []
  | a :: l =>
      let a := TrimSpace a in
      if bool_decide (a = "") then cleanLoop mgmtIP l
      else if negb (isAddr a) then inr (New KindInvalid ("flow_exporters: " +:+ Quote a +:+ " is not a valid IP address"))
      else out ←e cleanLoop mgmtIP l; inl (if bool_decide (a <> mgmtIP) then a :: out else out)
  end.
Definition cleanFlowExporters (l : option (list string)) (mgmtIP : string) : list string + Err :=
  match l with None => inl [] | Some l => cleanLoop mgmtIP l end.
Definition validateFlowExporters (l : option (list string)) : option Err :=
  match cleanFlowExporters l "" with inl _ => None | inr e => Some e end.

Definition setAddress (i : DeviceInput) (d : Device) : Device + Err :=
  if bool_decide (di_MgmtIP i <> "") && bool_decide (di_MgmtIP i <> MgmtIP d) then
    (if isAddr (di_MgmtIP i) then inl (d <| MgmtIP := di_MgmtIP i |>) else inr errAddress)
  else inl d.
Definition setPort (i : DeviceInput) (d : Device) : Device + Err :=
  if di_SNMPPort i =? 0 then inl d
  else if (di_SNMPPort i <? 1) || (65535 <? di_SNMPPort i) then inr errPort
  else inl (d <| Attrs := if di_SNMPPort i =? 161 then delete "snmp_port" (Attrs d) else <["snmp_port" := ANum (di_SNMPPort i)]> (Attrs d) |>).
Definition setRefs (i : DeviceInput) (d : Device) : Device :=
  (((((d <| Name := orDefault (di_Name i) (Name d) |>) <| SiteID := orDefault (di_SiteID i) (SiteID d) |>)
    <| CredentialID := orDefault (di_CredentialID i) (CredentialID d) |>) <| ProfileID := orDefault (di_ProfileID i) (ProfileID d) |>)
    <| ConnectorID := orDefault (di_ConnectorID i) (ConnectorID d) |>) <| Tags := default (Tags d) (di_Tags i) |>.
Definition setExporters (i : DeviceInput) (d : Device) : Device + Err :=
  match di_FlowExporters i with
  | None => inl d
  | Some _ =>
      clean ←e cleanFlowExporters (di_FlowExporters i) (MgmtIP d);
      inl (d <| Attrs := if bool_decide (clean = []) then delete "flow_exporters" (Attrs d) else <["flow_exporters" := AList clean]> (Attrs d) |>)
  end.
Definition setCapacity (i : DeviceInput) (d : Device) : Device + Err :=
  match di_WANCapacityBPS i with
  | None => inl d
  | Some c => if c <? 0 then inr (New KindInvalid "wan_capacity_bps cannot be negative") else inl (d <| WANCapacityBPS := c |>)
  end.

(** The device as a request asks for it. *)
Definition edited (i : DeviceInput) (d : Device) : Device + Err :=
  d ←e setAddress i d; d ←e setPort i d; d ←e setExporters i (setRefs i d); setCapacity i (d <| Notes := di_Notes i |>).

Definition auditOf (d : Device) : gmap string Any :=
  <["name" := AText (Name d)]> (<["site_id" := AText (SiteID d)]> (<["credential_id" := AText (CredentialID d)]>
  (<["profile_id" := AText (ProfileID d)]> (<["notes" := AText (Notes d)]> (<["wan_capacity_bps" := ANum (WANCapacityBPS d)]>
  (<["mgmt_ip" := AText (MgmtIP d)]> {["snmp_port" := portOf d]})))))).

Definition Update (id : string) (i : DeviceInput) (t : DB) : (Device + Err) * DB :=
  match Get id t with
  | inr e => (inr e, t)
  | inl old =>
      match edited i old with
      | inr e => (inr e, t)
      | inl d =>
          match RefsExist (SiteID d) (ConnectorID d) (CredentialID d) (ProfileID d) t with
          | Some e => (inr e, t)
          | None =>
              match repoUpdate inet now IntN order d t with
              | (Some e, t) => (inr e, t)
              | (None, t) => (inl d, write (mkEvent "device.update" id (auditOf old) (auditOf d)) t)
              end
          end
      end
  end.

Definition SetStatus (id : string) (s : DeviceStatus) (t : DB) : option Err * DB :=
  match repoSetStatus now id s t with
  | (Some e, t) => (Some e, t)
  | (None, t) => (None, write (mkEvent ("device." +:+ status_text s) id ∅ ∅) t)
  end.

Definition Purge (id : string) (t : DB) : option Err * DB :=
  match Get id t with
  | inr e => (Some e, t)
  | inl d =>
      if negb (bool_decide (Status d = DeviceRetired))
      then (Some (New KindConflict "device must be retired before it can be permanently deleted"), t) else
      match repoPurge id t with
      | (Some e, t) => (Some e, t)
      | (None, t) => (None, write (mkEvent "device.purge" id (<["name" := AText (Name d)]> {["mgmt_ip" := AText (MgmtIP d)]}) ∅) t)
      end
  end.

(** ** Import *)

Record ImportRowResult : Type := mkImportRowResult { ir_Row : Z; ir_Name : string; ir_DeviceID : string; ir_Error : string }.

Section import.
(** what the reader of the file gives: the header, and its records, [None]
    where one cannot be parsed; identifiers *)
Context (ToLower : string -> string) (newID : Z -> string).

Definition columns (header : list string) : gmap string nat := foldl (fun m e => <[ToLower (TrimSpace e.2) := e.1]> m) ∅ (imap pair header).
Definition missingColumn (col : gmap string nat) : option string :=
  head (filter (fun c => col !! c = None) ["name"; "mgmt_ip"; "site_id"; "credential_id"]).
Definition field (col : gmap string nat) (rec : list string) (name : string) : string :=
  match col !! name with Some i => match rec !! i with Some v => TrimSpace v | None => "" end | None => "" end.
Definition rowInput (col : gmap string nat) (rec : list string) : DeviceInput :=
  let get := field col rec in
  mkDeviceInput (get "name") (get "mgmt_ip") (get "site_id") (get "connector_id") (get "credential_id") (get "profile_id")
    (if bool_decide (get "tags" <> "") then Some (Split (get "tags") (zb 59)) else None) "" 0 None None.

Definition importRow (col : gmap string nat) (row : Z) (rec : option (list string)) (t : DB) : ImportRowResult * DB :=
  match rec with
  | None => (mkImportRowResult row "" "" "unparseable row", t)
  | Some rec =>
      let i := rowInput col rec in
      match Create (newID row) i t with
      | (inr e, t) => (mkImportRowResult row (di_Name i) "" (Err_Error e), t)
      | (inl d, t) => (mkImportRowResult row (di_Name i) (ID d) "", t)
      end
  end.
Fixpoint importRows (col : gmap string nat) (row : Z) (recs : list (option (list string))) (t : DB) : list ImportRowResult * DB :=
  match recs with
  | [] => ([], t)
  | rec :: recs =>
      let '(r, t) := importRow col row rec t in
      let '(rs, t) := importRows col (row + 1) recs t in (r :: rs, t)
  end.
Definition imported (rs : list ImportRowResult) : list ImportRowResult := filter (fun r => ir_Error r = "") rs.

Definition ImportCSV (header : option (list string)) (recs : list (option (list string))) (t : DB) : (list ImportRowResult + Err) * DB :=
  match header with
  | None => (inr (New KindInvalid "empty or unreadable CSV"), t)
  | Some header =>
      let col := columns header in
      match missingColumn col with
      | Some c => (inr (New KindInvalid ("missing required CSV column " +:+ Quote c)), t)
      | None =>
          let '(results, t) := importRows col 2 recs t in
          let t := write (mkEvent "device.import" "" ∅ (<["rows" := ANum (len results)]> {["created" := ANum (len (imported results))]})) t in
          (if bool_decide (results = []) then inr (New KindInvalid "CSV contains no data rows") else inl results, t)
      end
  end.
End import.

(** ** The OID browser *)

Record OIDValue : Type := mkOIDValue { ov_OID : string; ov_Type : string; ov_Value : string }.
Record WalkResult : Type := mkWalkResult { wr_Values : list OIDValue; wr_Complete : bool; wr_Stopped : string }.

Definition DefaultWalkObjects : Z := 1000.
Definition MaxWalkObjects : Z := 500000.
Definition ClampWalkLimit (n : Z) : Z := if n <=? 0 then DefaultWalkObjects else if MaxWalkObjects <? n then MaxWalkObjects else n.

Definition mib2 : string := ".1.3.6.1.2.1".
(** The vault gives the kind of a credential and its secret; the walker what
    it found, with an error or without. Either may be missing. *)
Definition WalkOIDs {Kind Secret : Type} (Vault : option ((string -> Kind + Err) * (string -> Secret + Err)))
    (Walker : option (string -> Z -> Kind -> Secret -> string -> Z -> WalkResult * option Err)) (id root : string) (limit : Z) (t : DB)
    : (WalkResult + Err) * DB :=
  match Vault, Walker with
  | Some (VaultGet, Decrypt), Some Walk =>
      let root := orDefault root mib2 in
      let asked :=
        d ←e Get id t; kind ←e VaultGet (CredentialID d); secret ←e Decrypt (CredentialID d);
        let port := match Attrs d !! "snmp_port" with Some (ANum v) => if 0 <? v then v else 161 | _ => 161 end in
        let '(res, err) := Walk (MgmtIP d) port kind secret root limit in
        match err with Some e => if bool_decide (wr_Values res = []) then inr e else inl res | None => inl res end in
      match asked with
      | inr e => (inr e, t)
      | inl res =>
          (inl res, write (mkEvent "device.oid_walk" id ∅ (<["root" := AText root]> (<["returned" := ANum (len (wr_Values res))]>
            (<["complete" := AText (if wr_Complete res then "true" else "false")]> {["stopped" := AText (wr_Stopped res)]})))) t)
      end
  | _, _ => (inr (New KindTransient "OID browsing is not configured"), t)
  end.
End service.

(** ** What the operations do, one after another *)

(** A request, and what it finds: the moment, its identifiers, the draws and
    the order of the range over the families. *)
Inductive request : Type :=
  | RCreate (id : string) (i : DeviceInput)
  | RUpdate (id : string) (i : DeviceInput)
  | RStatus (id : string) (s : DeviceStatus)
  | RPurge (id : string)
  | RImport (header : option (list string)) (recs : list (option (list string)))
  | RList (f : DeviceFilter).
Record circumstances : Type := mkCircumstances {
  c_now : Time; c_IntN : string -> Z -> Z; c_order : list (string * Z) -> list (string * Z); c_ID : Z -> string
}.
Definition usual (c : circumstances) : Prop := forall l, c_order c l ≡ₚ l.

Section run.
Context (Quote ToLower : string -> string) (inet : string -> option string).
Definition perform (c : circumstances) (r : request) (t : DB) : DB :=
  match r with
  | RCreate id i => (Create inet (c_now c) (c_IntN c) (c_order c) id i t).2
  | RUpdate id i => (Update Quote inet (c_now c) (c_IntN c) (c_order c) id i t).2
  | RStatus id s => (SetStatus (c_now c) id s t).2
  | RPurge id => (Purge id t).2
  | RImport header recs => (ImportCSV Quote inet (c_now c) (c_IntN c) (c_order c) ToLower (c_ID c) header recs t).2
  | RList _ => t
  end.
Definition performAll (l : list (circumstances * request)) (t : DB) : DB := foldl (fun t cr => perform cr.1 cr.2 t) t l.
End run.

(** * Lemmas *)

(** ** Devices by identifier *)

Lemma deviceOf_Some id t d : deviceOf id t = Some d -> d ∈ devices t /\ ID d = id.
Proof. intros [l E]%head_Some. assert (d ∈ filter (fun d => ID d = id) (devices t)) as H by (rewrite E; by left). by apply list_elem_of_filter in H as [? ?]. Qed.

Lemma deviceOf_In d t : NoDup (map ID (devices t)) -> d ∈ devices t -> deviceOf (ID d) t = Some d.
Proof.
  unfold deviceOf. induction (devices t) as [|d0 l IH]; [by intros _ ?%elem_of_nil|]. cbn [map]. rewrite NoDup_cons, filter_cons. intros [Hno Hnd].
  rewrite elem_of_cons. intros [->|Hin]; [by rewrite decide_True|]. rewrite decide_False; [by apply IH|].
  intros E. destruct Hno. rewrite E. by apply list_elem_of_fmap_2.
Qed.

Lemma deviceOf_None id t : deviceOf id t = None <-> id ∉ map ID (devices t).
Proof.
  unfold deviceOf. rewrite head_None. induction (devices t) as [|d l IH]; [split; [intros _; apply not_elem_of_nil|done]|].
  cbn [map]. rewrite filter_cons, not_elem_of_cons. case_decide as E; [split; [done|intros [? _]; congruence]|]. rewrite IH. naive_solver.
Qed.

Lemma update_IDs_kept id f t : (forall d, ID (f d) = ID d) -> map ID (devices (updateWhere id f t)) = map ID (devices t).
Proof. intros Hf. cbn. rewrite map_map. apply map_ext. intros d. by destruct (bool_decide _). Qed.

Lemma updateWhere_deviceOf id f t id' : (forall d, ID (f d) = ID d) ->
  deviceOf id' (updateWhere id f t) = if bool_decide (id' = id) then f <$> deviceOf id' t else deviceOf id' t.
Proof.
  intros Hf. unfold deviceOf, updateWhere. cbn [devices set]. induction (devices t) as [|d l IH]; [by case_bool_decide|]. cbn [map].
  rewrite !filter_cons. assert (ID (if bool_decide (ID d = id) then f d else d) = ID d) as -> by (destruct (bool_decide (ID d = id)); [apply Hf|done]).
  destruct (decide (ID d = id')) as [E|E]; [|exact IH]. cbn. rewrite E. by case_bool_decide.
Qed.

(** ** The schedule *)

Section schedules.
Context (now : Time) (IntN : string -> Z -> Z).
Abbreviation slotStep := (slotStep now IntN).

Lemma slotStep_other id on tbl e k : k.1 <> id -> slotStep id on tbl e !! k = tbl !! k.
Proof.
  intros Hk. destruct e as [fam iv]. unfold slotStep. assert ((id, fam) <> k) by (intros <-; done).
  destruct (negb _); [by rewrite lookup_delete_ne|]. destruct (tbl !! (id, fam)); by rewrite lookup_insert_ne.
Qed.

Lemma slotStep_same id on tbl fam iv fam' :
  interval_s <$> slotStep id on tbl (fam, iv) !! (id, fam') =
  if bool_decide (fam' = fam) then (if bool_decide (fam ∈ on) then Some iv else None) else interval_s <$> tbl !! (id, fam').
Proof.
  unfold slotStep. destruct (bool_decide (fam ∈ on)) eqn:Eo; cbn [negb].
  - destruct (decide (fam' = fam)) as [->|E]; [rewrite (bool_decide_true (fam = fam)) by done; destruct (tbl !! (id, fam)); by rewrite lookup_insert_eq|].
    rewrite (bool_decide_false (fam' = fam)) by done. destruct (tbl !! (id, fam)); by rewrite lookup_insert_ne by congruence.
  - cbn. destruct (decide (fam' = fam)) as [->|E]; [by rewrite bool_decide_true, lookup_delete_eq by done|].
    rewrite (bool_decide_false (fam' = fam)) by done. by rewrite lookup_delete_ne by congruence.
Qed.

Lemma slotStep_enabled id on tbl e k s : slotStep id on tbl e !! k = Some s ->
  enabled s = true \/ exists s0, tbl !! k = Some s0 /\ enabled s = enabled s0.
Proof.
  destruct e as [fam iv]. unfold slotStep. destruct (negb _).
  - rewrite lookup_delete_Some. intros [_ H]. right. by exists s.
  - destruct (tbl !! (id, fam)) as [s0|] eqn:Es; rewrite lookup_insert_Some; intros [[<- <-]|[_ H]]; cbn; try (by left); right; naive_solver.
Qed.

Lemma slots_other id on l k : k.1 <> id -> forall tbl, foldl (slotStep id on) tbl l !! k = tbl !! k.
Proof. intros Hk. induction l as [|e l IH]; intros tbl; [done|]. cbn [foldl]. by rewrite IH, slotStep_other. Qed.

Lemma slots_enabled id on l k s : forall tbl, foldl (slotStep id on) tbl l !! k = Some s ->
  enabled s = true \/ exists s0, tbl !! k = Some s0 /\ enabled s = enabled s0.
Proof.
  induction l as [|e l IH]; intros tbl; cbn [foldl]; [right; by exists s|]. intros [H|(s0 & H & ->)]%IH; [by left|]. by apply slotStep_enabled in H.
Qed.

(** The interval a family has in a list, if it is on. *)
Definition slotFor (on : list string) (l : list (string * Z)) (fam : string) : option Z :=
  if bool_decide (fam ∈ on) then snd <$> head (filter (fun e => e.1 = fam) l) else None.

Lemma slots_same id on l fam : NoDup l.*1 -> forall tbl,
  interval_s <$> foldl (slotStep id on) tbl l !! (id, fam) =
  if bool_decide (fam ∈ l.*1) then slotFor on l fam else interval_s <$> tbl !! (id, fam).
Proof.
  induction l as [|[f iv] l IH]; [done|]. cbn [fmap list_fmap fst]. rewrite NoDup_cons. intros [Hno Hnd] tbl. cbn [foldl]. rewrite IH, slotStep_same by done.
  unfold slotFor. rewrite filter_cons. cbn [fst]. destruct (decide (fam = f)) as [->|Hn].
  - rewrite (bool_decide_false (f ∈ l.*1)), (bool_decide_true (f = f)) by done. rewrite (bool_decide_true (f ∈ f :: l.*1)) by (by left).
    by rewrite decide_True.
  - rewrite (bool_decide_false (fam = f)), decide_False by congruence.
    rewrite (bool_decide_ext (fam ∈ f :: l.*1) (fam ∈ l.*1)) by (rewrite elem_of_cons; naive_solver). done.
Qed.
End schedules.

Lemma slotFor_perm on l l' fam : NoDup l.*1 -> l ≡ₚ l' -> slotFor on l fam = slotFor on l' fam.
Proof.
  intros Hnd Hp. unfold slotFor. case_bool_decide; [|done].
  assert (forall l (iv : Z), NoDup l.*1 -> (snd <$> head (filter (fun e : string * Z => e.1 = fam) l) = Some iv <-> (fam, iv) ∈ l)) as Hh.
  { clear. induction l as [|[f iv] l IH]; intros iv'; cbn [fmap list_fmap fst]; [split; [done|by intros ?%elem_of_nil]|].
    rewrite NoDup_cons, filter_cons, elem_of_cons. intros [Hno Hnd]. cbn [fst]. case_decide as E.
    - subst. cbn. split; [intros [= ->]; by left|]. intros [[= ->]|Hin]; [done|]. destruct Hno. by apply (list_elem_of_fmap_2 fst) in Hin.
    - rewrite IH by done. naive_solver. }
  apply option_eq. intros iv. rewrite !Hh by (try rewrite <- Hp; done). by rewrite Hp.
Qed.

Lemma families_NoDup p : NoDup (families p).*1.
Proof. cbn. repeat (constructor; [rewrite ?not_elem_of_cons; split_and?; try done; apply not_elem_of_nil|]). constructor. Qed.

(** What the profile of a device asks for. *)
Definition wanted (t : DB) (k : string * string) : option Z :=
  match deviceOf k.1 t with
  | None => None
  | Some d => match profiles t !! ProfileID d with None => None | Some p => slotFor (families_enabled p) (families p) k.2 end
  end.

Lemma slotFor_none on l fam : fam ∉ l.*1 -> slotFor on l fam = None.
Proof.
  intros Hno. unfold slotFor. case_bool_decide; [|done]. rewrite list_filter_none; [done|]. intros e He E. destruct Hno. rewrite <- E. by apply list_elem_of_fmap_2.
Qed.

Lemma insertSchedules_spec now IntN order id pid t t' : (forall l, order l ≡ₚ l) -> insertSchedules now IntN order id pid t = inl t' ->
  exists p, profiles t !! pid = Some p /\ t' = t <| schedule := schedule t' |> /\
    (forall k, k.1 <> id -> schedule t' !! k = schedule t !! k) /\
    (forall fam, (fam ∉ (families p).*1 -> schedule t !! (id, fam) = None) ->
       interval_s <$> schedule t' !! (id, fam) = slotFor (families_enabled p) (families p) fam) /\
    (forall k s, schedule t' !! k = Some s -> enabled s = true \/ exists s0, schedule t !! k = Some s0 /\ enabled s = enabled s0).
Proof.
  intros Ho. unfold insertSchedules. destruct (profiles t !! pid) as [p|]; [|done]. intros [= <-]. exists p. cbn [schedule set].
  assert (NoDup (order (families p)).*1) as Hnd by (rewrite Ho; apply families_NoDup).
  split_and!; [done|by destruct t|intros k Hk; by apply slots_other| |intros k s; apply slots_enabled].
  intros fam Hfam. rewrite slots_same, (slotFor_perm _ _ (families p)) by done.
  rewrite (bool_decide_ext _ (fam ∈ (families p).*1)) by (by rewrite Ho). case_bool_decide as Hin; [done|].
  by rewrite slotFor_none, Hfam by done.
Qed.

Lemma taken_false d t : taken d t = false -> forall d', d' ∈ devices t -> ID d' <> ID d -> ~ clash d d'.
Proof. unfold taken. rewrite bool_decide_eq_false, Exists_exists. intros H d' Hin Hn Hc. apply H. exists d'. done. Qed.

(** ** What is true of the tables *)

Record db_ok (t : DB) : Prop := mkDbOk {
  ok_ids : NoDup (map ID (devices t));
  ok_addresses : forall d d', d ∈ devices t -> d' ∈ devices t -> clash d d' -> ID d = ID d';
  ok_schedule : forall k, interval_s <$> schedule t !! k = wanted t k;
  ok_awake : forall d fam s, d ∈ devices t -> Status d = DevicePending \/ Status d = DeviceActive ->
    schedule t !! (ID d, fam) = Some s -> enabled s = true
}.

Lemma ok_write e t : db_ok t -> db_ok (write e t).
Proof. intros []. by constructor. Qed.

Lemma ok_no_slots t id fam : db_ok t -> deviceOf id t = None -> schedule t !! (id, fam) = None.
Proof. intros Hok Hd. pose proof (ok_schedule t Hok (id, fam)) as E. unfold wanted in E. cbn in E. rewrite Hd in E. by apply fmap_None in E. Qed.

Lemma ok_families t d fam p : db_ok t -> d ∈ devices t -> fam ∉ (families p).*1 -> schedule t !! (ID d, fam) = None.
Proof.
  intros Hok Hd Hno. pose proof (ok_schedule t Hok (ID d, fam)) as E. unfold wanted in E. cbn [fst snd] in E.
  rewrite (deviceOf_In _ _ (ok_ids _ Hok) Hd) in E. destruct (profiles t !! ProfileID d) as [p'|]; [|by apply fmap_None in E].
  rewrite slotFor_none in E by exact Hno. by apply fmap_None in E.
Qed.

Lemma ok_repoPurge id t : db_ok t -> db_ok (repoPurge id t).2.
Proof.
  intros Hok. unfold repoPurge. destruct (deviceOf id t) as [old|] eqn:Eo; [|done]. cbn [snd]. set (t' := _ <| schedule := _ |>).
  assert (forall x, x ∈ devices t' <-> ID x <> id /\ x ∈ devices t) as Hin by (intros x; exact (list_elem_of_filter (fun d => ID d <> id) (devices t) x)).
  assert (NoDup (map ID (devices t'))) as Hids by (eapply sublist_NoDup; [apply (ok_ids _ Hok)|cbn; apply (fmap_sublist ID), sublist_filter]).
  constructor; [done|..].
  - intros x y [_ Hx]%Hin [_ Hy]%Hin. by apply (ok_addresses t).
  - intros [id' fam]. unfold wanted. cbn [fst snd]. change (schedule t') with (filter (fun '(k, _) => k.1 <> id) (schedule t)).
    destruct (decide (id' = id)) as [->|Hn].
    + assert (deviceOf id t' = None) as -> by (apply deviceOf_None; intros (x & Ex & Hx)%list_elem_of_fmap; apply (proj1 (Hin x)) in Hx as [Hx _]; congruence).
      rewrite (proj2 (map_lookup_filter_None _ _ _)); [done|]. right. by intros s _ [].
    + assert (deviceOf id' t' = deviceOf id' t) as ->.
      { unfold deviceOf. cbn. rewrite list_filter_filter. f_equal. apply list_filter_iff. intros x. naive_solver. }
      transitivity (interval_s <$> schedule t !! (id', fam)); [|exact (ok_schedule t Hok (id', fam))]. f_equal. apply option_eq. intros s. rewrite map_lookup_filter_Some. naive_solver.
  - intros x fam s [_ Hx]%Hin Hst Hl. apply map_lookup_filter_Some in Hl as [Hl _]. by apply (ok_awake t Hok x fam).
Qed.

Section preserved.
Context (Quote ToLower : string -> string) (inet : string -> option string) (now : Time) (IntN : string -> Z -> Z).
Context (order : list (string * Z) -> list (string * Z)) (Ho : forall l, order l ≡ₚ l).

Lemma ok_repoCreate d t : Status d = DevicePending -> db_ok t -> db_ok (repoCreate inet now IntN order d t).2.
Proof.
  intros Hst Hok. unfold repoCreate. destruct (inet (MgmtIP d)) as [ip|]; [|done]. set (d1 := set UpdatedAt _ _).
  assert (ID d1 = ID d /\ ProfileID d1 = ProfileID d) as [Eid Epf] by done.
  destruct (taken d1 t) eqn:Et; cbn [orb]; [done|]. destruct (bool_decide (is_Some _)) eqn:Es; [done|].
  rewrite bool_decide_eq_false, <- eq_None_not_Some in Es. pose proof (proj1 (deviceOf_None _ _) Es) as Hnew.
  destruct (insertSchedules _ _ _ _ _ _) as [t'|e] eqn:Ei; [|done]. cbn [snd].
  apply insertSchedules_spec in Ei as (p & Ep & Et' & Hother & Hsame & Hen); [|done]. cbn [schedule profiles set] in *.
  assert (devices t' = devices t ++ [d1]) as Ed by (rewrite Et'; done). assert (profiles t' = profiles t) as Epr by (rewrite Et'; done).
  assert (forall id, id <> ID d -> deviceOf id t' = deviceOf id t) as Hdev.
  { intros id Hn. unfold deviceOf. rewrite Ed, filter_app, filter_cons, decide_False by (rewrite Eid; congruence). by rewrite filter_nil, app_nil_r. }
  assert (NoDup (map ID (devices t'))) as Hids.
  { rewrite Ed, map_app. apply NoDup_app. split_and!; [apply Hok| |apply NoDup_singleton].
    intros id Hin ->%list_elem_of_singleton. by rewrite Eid in Hin. }
  assert (deviceOf (ID d) t' = Some d1) as Hd1 by (rewrite <- Eid; apply deviceOf_In; [done|rewrite Ed, elem_of_app; right; by left]).
  assert (forall fam, interval_s <$> schedule t' !! (ID d, fam) = slotFor (families_enabled p) (families p) fam) as Hs.
  { intros fam. rewrite <- Hsame; [done|]. intros _. by apply ok_no_slots. }
  constructor; [done|..].
  - intros x y. rewrite Ed, !elem_of_app, !list_elem_of_singleton. intros [Hx| ->] [Hy| ->] Hc; [by apply (ok_addresses t)| | |done].
    + destruct (decide (ID x = ID d1)) as [?|Hn]; [done|]. destruct (taken_false _ _ Et x Hx Hn). by destruct Hc as (?&?&?&?).
    + destruct (decide (ID y = ID d1)) as [?|Hn]; [done|]. by destruct (taken_false _ _ Et y Hy Hn).
  - intros [id fam]. unfold wanted. cbn [fst snd]. rewrite Epr. destruct (decide (id = ID d)) as [->|Hn].
    + rewrite Hd1, Ep. apply Hs.
    + rewrite Hdev, Hother by done. apply (ok_schedule t Hok (id, fam)).
  - intros x fam s. rewrite Ed, elem_of_app, list_elem_of_singleton. intros Hx Hst' Hl.
    destruct (Hen _ _ Hl) as [?|(s0 & Hl0 & ->)]; [done|]. destruct Hx as [Hx| ->]; [by apply (ok_awake t Hok x fam)|].
    rewrite Eid, ok_no_slots in Hl0 by done. done.
Qed.

Lemma ok_repoUpdate d t : db_ok t -> db_ok (repoUpdate inet now IntN order d t).2.
Proof.
  intros Hok. unfold repoUpdate. destruct (inet (MgmtIP d)) as [ip|]; [|done].
  destruct (deviceOf (ID d) t) as [old|] eqn:Eo; [|done]. destruct (taken _ t) eqn:Et; [done|].
  destruct (insertSchedules _ _ _ _ _ _) as [t'|e] eqn:Ei; [|done]. cbn [snd].
  apply insertSchedules_spec in Ei as (p & Ep & Et' & Hother & Hsame & Hen); [|done].
  set (f := rewrite_ now ip d) in *. set (t1 := updateWhere (ID d) f t) in *.
  change (schedule t1) with (schedule t) in *. change (profiles t1) with (profiles t) in *.
  assert (devices t' = devices t1) as Ed by (rewrite Et'; done). assert (profiles t' = profiles t) as Epr by (rewrite Et'; done).
  assert (forall id, deviceOf id t' = deviceOf id t1) as Hdev by (intros id; unfold deviceOf; by rewrite Ed).
  pose proof (deviceOf_Some _ _ _ Eo) as [Hold Eid].
  assert (NoDup (map ID (devices t'))) as Hids by (rewrite Ed; unfold t1; rewrite update_IDs_kept by done; apply Hok).
  assert (forall x, x ∈ devices t' -> (ID x = ID d /\ x = f old) \/ (ID x <> ID d /\ x ∈ devices t)) as Hin.
  { intros x Hx. pose proof (deviceOf_In _ _ Hids Hx) as Ex. rewrite Hdev in Ex. unfold t1 in Ex. rewrite updateWhere_deviceOf in Ex by done.
    case_bool_decide as E; [|right; split; [done|]; by apply deviceOf_Some in Ex as [? _]].
    left. split; [done|]. rewrite E, Eo in Ex. by injection Ex as <-. }
  constructor; [done|..].
  - intros x y Hx Hy Hc. destruct (Hin x Hx) as [[E1 ->]|[E1 Hx']], (Hin y Hy) as [[E2 ->]|[E2 Hy']]; [done| | |by apply (ok_addresses t)].
    + destruct (taken_false _ _ Et y Hy'); [by rewrite E1|done].
    + destruct (taken_false _ _ Et x Hx'); [by rewrite E2|]. by destruct Hc as (?&?&?&?).
  - intros [id fam]. unfold wanted. cbn [fst snd]. rewrite Epr, Hdev. unfold t1. rewrite updateWhere_deviceOf by done.
    case_bool_decide as E; [subst id|rewrite Hother by done; apply (ok_schedule t Hok (id, fam))].
    rewrite Eo. cbn. rewrite Ep. apply Hsame. rewrite <- Eid. by apply ok_families.
  - intros x fam s Hx Hst Hl. destruct (Hen _ _ Hl) as [?|(s0 & Hl0 & ->)]; [done|].
    destruct (Hin x Hx) as [[E1 ->]|[E1 Hx']]; [|by apply (ok_awake t Hok x fam)]. apply (ok_awake t Hok old fam); [done|done|exact Hl0].
Qed.

Lemma enableAll_lookup id on tbl k : enableAll id on tbl !! k = (fun s => if bool_decide (k.1 = id) then s <| enabled := on |> else s) <$> tbl !! k.
Proof. unfold enableAll. rewrite map_lookup_imap. by destruct (tbl !! k). Qed.

Lemma ok_repoSetStatus id s t : db_ok t -> db_ok (repoSetStatus now id s t).2.
Proof.
  intros Hok. unfold repoSetStatus. destruct (deviceOf id t) as [old|] eqn:Eo; [|done]. destruct (taken _ t) eqn:Et; [done|]. cbn [snd].
  set (f := withStatus now s) in *. set (t' := _ <| schedule := _ |>). pose proof (deviceOf_Some _ _ _ Eo) as [Hold Eid].
  assert (forall id', deviceOf id' t' = if bool_decide (id' = id) then f <$> deviceOf id' t else deviceOf id' t) as Hdev
    by (intros id'; by apply (updateWhere_deviceOf id f t)).
  assert (NoDup (map ID (devices t'))) as Hids by (change (devices t') with (devices (updateWhere id f t)); rewrite update_IDs_kept by done; apply Hok).
  assert (forall x, x ∈ devices t' -> (ID x = id /\ x = f old) \/ (ID x <> id /\ x ∈ devices t)) as Hin.
  { intros x Hx. pose proof (deviceOf_In _ _ Hids Hx) as Ex. rewrite Hdev in Ex.
    case_bool_decide as E; [|right; split; [done|]; by apply deviceOf_Some in Ex as [? _]].
    left. split; [done|]. rewrite E, Eo in Ex. by injection Ex as <-. }
  constructor; [done|..].
  - intros x y Hx Hy Hc. destruct (Hin x Hx) as [[E1 ->]|[E1 Hx']], (Hin y Hy) as [[E2 ->]|[E2 Hy']]; [done| | |by apply (ok_addresses t)].
    + destruct (taken_false _ _ Et y Hy'); [by rewrite E1|done].
    + destruct (taken_false _ _ Et x Hx'); [by rewrite E2|]. by destruct Hc as (?&?&?&?).
  - intros [id' fam]. unfold wanted. cbn [fst snd]. rewrite Hdev. change (schedule t') with (enableAll id (bool_decide (s = DeviceActive) || bool_decide (s = DevicePending)) (schedule t)).
    rewrite enableAll_lookup. transitivity (interval_s <$> schedule t !! (id', fam)); [destruct (schedule t !! _); [|done]; cbn; by case_bool_decide|].
    rewrite (ok_schedule t Hok). unfold wanted. cbn [fst snd]. change (profiles t') with (profiles t).
    case_bool_decide as E; [|done]. rewrite E, Eo. done.
  - intros x fam s' Hx Hst Hl. change (schedule t') with (enableAll id (bool_decide (s = DeviceActive) || bool_decide (s = DevicePending)) (schedule t)) in Hl.
    rewrite enableAll_lookup in Hl. destruct (schedule t !! (ID x, fam)) as [s0|] eqn:E0; [|done]. cbn in Hl. injection Hl as <-.
    destruct (Hin x Hx) as [[E1 ->]|[E1 Hx']].
    + rewrite bool_decide_true by done. cbn in *. destruct Hst as [-> | ->]; done.
    + rewrite bool_decide_false by done. by apply (ok_awake t Hok x fam).
Qed.

Lemma ok_Create id i t : db_ok t -> db_ok (Create inet now IntN order id i t).2.
Proof.
  intros Hok. unfold Create. destruct (validate _ t); [done|]. pose proof (ok_repoCreate (newDevice id (withDefaults i)) t eq_refl Hok) as H.
  destruct (repoCreate _ _ _ _ _ t) as [[e|] t']; [done|]. by apply ok_write.
Qed.

Lemma ok_importRows newID col recs : forall row t, db_ok t -> db_ok (importRows inet now IntN order newID col row recs t).2.
Proof.
  induction recs as [|rec recs IH]; intros row t Hok; [done|]. cbn [importRows].
  assert (db_ok (importRow inet now IntN order newID col row rec t).2) as H.
  { destruct rec as [rec|]; [|done]. cbn [importRow]. pose proof (ok_Create (newID row) (rowInput col rec) t Hok) as H.
    by destruct (Create _ _ _ _ _ _ t) as [[d|e] t']. }
  destruct (importRow _ _ _ _ _ _ _ _ _) as [r t1]. pose proof (IH (row + 1) t1 H) as H'.
  by destruct (importRows _ _ _ _ _ _ _ _ _) as [rs t2].
Qed.
End preserved.

Lemma ok_perform Quote ToLower inet c r t : usual c -> db_ok t -> db_ok (perform Quote ToLower inet c r t).
Proof.
  intros Hc Hok. destruct r as [id i|id i|id s|id|header recs|f]; cbn [perform]; [by apply ok_Create| | | | |done].
  - unfold Update. destruct (Get id t) as [old|e]; [|done]. destruct (edited _ _ _) as [d|e]; [|done]. destruct (RefsExist _ _ _ _ _); [done|].
    pose proof (ok_repoUpdate inet (c_now c) (c_IntN c) (c_order c) Hc d t Hok) as H. destruct (repoUpdate _ _ _ _ _ _) as [[e|] t']; [done|]. by apply ok_write.
  - unfold SetStatus. pose proof (ok_repoSetStatus (c_now c) id s t Hok) as H. destruct (repoSetStatus _ _ _ _) as [[e|] t']; [done|]. by apply ok_write.
  - unfold Purge. destruct (Get id t) as [d|e]; [|done]. destruct (negb _); [done|]. pose proof (ok_repoPurge id t Hok) as H.
    destruct (repoPurge id t) as [[e|] t']; [done|]. by apply ok_write.
  - unfold ImportCSV. destruct header as [h|]; [|done]. destruct (missingColumn _); [done|].
    pose proof (ok_importRows inet (c_now c) (c_IntN c) (c_order c) Hc (c_ID c) (columns ToLower h) recs 2 t Hok) as H.
    destruct (importRows _ _ _ _ _ _ _ _ _) as [rs t']. cbn [snd]. by apply ok_write.
Qed.

(** ** Requests *)

Lemma cleanLoop_spec Quote ip l : forall out, cleanLoop Quote ip l = inl out ->
  out = filter (fun a => a <> "" /\ a <> ip) (map TrimSpace l) /\ Forall (fun a => isAddr a = true) out.
Proof.
  induction l as [|a l IH]; intros out; cbn [cleanLoop map]; [intros [= <-]; done|]. rewrite filter_cons.
  destruct (bool_decide (TrimSpace a = "")) eqn:E1; [apply bool_decide_eq_true in E1; rewrite decide_False by naive_solver; apply IH|].
  destruct (isAddr (TrimSpace a)) eqn:E2; cbn [negb]; [|done]. destruct (cleanLoop Quote ip l) as [out'|e]; [|done]. cbn.
  destruct (IH out' eq_refl) as [-> Hf]. apply bool_decide_eq_false in E1.
  destruct (bool_decide (TrimSpace a <> ip)) eqn:E3; intros [= <-].
  - apply bool_decide_eq_true in E3. rewrite decide_True by done. split; [done|]. by constructor.
  - apply bool_decide_eq_false, dec_stable in E3. by rewrite decide_False by naive_solver.
Qed.

(** The attributes after an edit. *)
Definition attrAfter (i : DeviceInput) (ip : string) (old : gmap string Any) (k : string) : option Any :=
  if bool_decide (k = "snmp_port") then
    (if di_SNMPPort i =? 0 then old !! k else if di_SNMPPort i =? 161 then None else Some (ANum (di_SNMPPort i)))
  else if bool_decide (k = "flow_exporters") then
    match di_FlowExporters i with
    | None => old !! k
    | Some l => let l := filter (fun a => a <> "" /\ a <> ip) (map TrimSpace l) in if bool_decide (l = []) then None else Some (AList l)
    end
  else old !! k.

Record edit (i : DeviceInput) (old d : Device) : Prop := mkEdit {
  e_same : (ID d, TenantID d, Status d, SysName d, SysDescr d, Vendor d, Model d, SerialNumber d, OSVersion d, CreatedAt d) =
    (ID old, TenantID old, Status old, SysName old, SysDescr old, Vendor old, Model old, SerialNumber old, OSVersion old, CreatedAt old);
  e_given : Name d = orDefault (di_Name i) (Name old) /\ SiteID d = orDefault (di_SiteID i) (SiteID old) /\
    CredentialID d = orDefault (di_CredentialID i) (CredentialID old) /\ ProfileID d = orDefault (di_ProfileID i) (ProfileID old) /\
    ConnectorID d = orDefault (di_ConnectorID i) (ConnectorID old) /\ Tags d = default (Tags old) (di_Tags i) /\
    WANCapacityBPS d = default (WANCapacityBPS old) (di_WANCapacityBPS i) /\ Notes d = di_Notes i;
  e_ip : MgmtIP d = orDefault (di_MgmtIP i) (MgmtIP old);
  e_attrs : forall k, Attrs d !! k = attrAfter i (MgmtIP d) (Attrs old) k;
  e_sane : 0 <= di_SNMPPort i <= 65535 /\ (forall c, di_WANCapacityBPS i = Some c -> 0 <= c) /\ (MgmtIP d <> MgmtIP old -> isAddr (MgmtIP d) = true)
}.

Lemma setAddress_spec i d d' : setAddress i d = inl d' ->
  d' = d <| MgmtIP := orDefault (di_MgmtIP i) (MgmtIP d) |> /\ (MgmtIP d' <> MgmtIP d -> isAddr (MgmtIP d') = true).
Proof.
  unfold setAddress, orDefault. destruct (decide (di_MgmtIP i = "")) as [E|E].
  { rewrite E. intros [= <-]. by destruct d. }
  rewrite (bool_decide_true (di_MgmtIP i <> "")), (bool_decide_false (di_MgmtIP i = "")) by done. cbn [andb].
  destruct (decide (di_MgmtIP i = MgmtIP d)) as [E'|E'].
  { rewrite bool_decide_false by (intros H; exact (H E')). intros [= <-]. rewrite E'. by destruct d. }
  rewrite bool_decide_true by done. destruct (isAddr _) eqn:Ea; [|done]. by intros [= <-].
Qed.

Lemma setPort_spec i d d' : setPort i d = inl d' -> 0 <= di_SNMPPort i <= 65535 /\
  d' = d <| Attrs := Attrs d' |> /\ forall k, Attrs d' !! k =
    if bool_decide (k = "snmp_port") then (if di_SNMPPort i =? 0 then Attrs d !! k else if di_SNMPPort i =? 161 then None else Some (ANum (di_SNMPPort i)))
    else Attrs d !! k.
Proof.
  unfold setPort. destruct (di_SNMPPort i =? 0) eqn:E0.
  { intros [= <-]. split; [lia|]. split; [by destruct d|]. intros k. by destruct (bool_decide _). }
  destruct (_ || _) eqn:Eb; [done|]. intros [= <-]. split; [lia|]. split; [done|]. intros k. cbn [Attrs set].
  destruct (di_SNMPPort i =? 161); (destruct (decide (k = "snmp_port")) as [->|E]; [rewrite bool_decide_true by done|rewrite bool_decide_false by done]);
    by rewrite ?lookup_delete_eq, ?lookup_insert_eq, ?lookup_delete_ne, ?lookup_insert_ne by done.
Qed.

Lemma setExporters_spec Quote i d d' : setExporters Quote i d = inl d' ->
  d' = d <| Attrs := Attrs d' |> /\ forall k, Attrs d' !! k =
    if bool_decide (k = "flow_exporters") then
      match di_FlowExporters i with
      | None => Attrs d !! k
      | Some l => let l := filter (fun a => a <> "" /\ a <> MgmtIP d) (map TrimSpace l) in if bool_decide (l = []) then None else Some (AList l)
      end
    else Attrs d !! k.
Proof.
  unfold setExporters. destruct (di_FlowExporters i) as [l|]; [|intros [= <-]; split; [by destruct d|]; intros k; by destruct (bool_decide _)].
  unfold cleanFlowExporters. destruct (cleanLoop _ _ _) as [out|e] eqn:Ec; [|done]. cbn [ebind]. intros [= <-]. split; [done|].
  apply cleanLoop_spec in Ec as [<- _]. intros k. cbn [Attrs set]. cbv zeta.
  destruct (bool_decide (out = [])); (destruct (decide (k = "flow_exporters")) as [->|E]; [rewrite (bool_decide_true (_ = "flow_exporters")) by done|rewrite (bool_decide_false (_ = "flow_exporters")) by done]);
    by rewrite ?lookup_delete_eq, ?lookup_insert_eq, ?lookup_delete_ne, ?lookup_insert_ne by done.
Qed.

Lemma edited_spec Quote i old d : edited Quote i old = inl d -> edit i old d.
Proof.
  unfold edited. destruct (setAddress i old) as [d1|] eqn:E1; [|done]. cbn [ebind]. destruct (setPort i d1) as [d2|] eqn:E2; [|done]. cbn [ebind].
  destruct (setExporters _ i (setRefs i d2)) as [d3|] eqn:E3; [|done]. cbn [ebind]. unfold setCapacity. intros E4.
  apply setAddress_spec in E1 as [E1 Ha]. apply setPort_spec in E2 as (Hp & E2 & Hk2). apply setExporters_spec in E3 as [E3 Hk3].
  assert (MgmtIP d2 = MgmtIP d1) as Em by (by rewrite E2).
  assert (d = (d3 <| Notes := di_Notes i |>) <| WANCapacityBPS := default (WANCapacityBPS old) (di_WANCapacityBPS i) |> /\
    forall c, di_WANCapacityBPS i = Some c -> 0 <= c) as [-> Hc].
  { destruct (di_WANCapacityBPS i) as [c|]; [destruct (c <? 0) eqn:Ec; [done|]; injection E4 as <-; split; [done|]; intros c' [= <-]; lia|].
    injection E4 as <-. split; [|done]. cbn [default]. rewrite E3, E2, E1. done. }
  constructor; [by rewrite E3, E2, E1|by rewrite E3, E2, E1|by rewrite E3, E2, E1| |].
  - intros k. change (Attrs (set WANCapacityBPS _ _)) with (Attrs d3). change (MgmtIP (set WANCapacityBPS _ _)) with (MgmtIP d3).
    assert (MgmtIP d3 = MgmtIP d1) as -> by (by rewrite E3). rewrite Hk3. change (Attrs (setRefs i d2)) with (Attrs d2).
    change (MgmtIP (setRefs i d2)) with (MgmtIP d2). rewrite Em. unfold attrAfter.
    assert (Attrs d1 = Attrs old) as Ea by (by rewrite E1). rewrite Ea in Hk2. rewrite Hk2.
    destruct (decide (k = "flow_exporters")) as [->|Hn]; [by rewrite !(bool_decide_true (_ = _)) by done|].
    rewrite (bool_decide_false (k = "flow_exporters")) by done. done.
  - split_and!; [lia|lia|done|]. change (MgmtIP (set WANCapacityBPS _ _)) with (MgmtIP d3).
    assert (MgmtIP d3 = MgmtIP d1) as -> by (by rewrite E3). done.
Qed.

Lemma Create_spec inet now IntN order id i t : match Create inet now IntN order id i t with
  | (inr e, t') => Err_Error e <> "" /\ t' = t
  | (inl d, t') => ID d = id /\ Status d = DevicePending /\ deviceOf id t = None /\ devices t' = devices t ++ [d]
  end.
Proof.
  unfold Create, validate, RefsExist. repeat (destruct (_ : bool); [split; done|]). unfold repoCreate. cbn [newDevice MgmtIP].
  destruct (inet _) as [ip|]; [|split; [|done]; cbn; by intros [=]]. set (d1 := set UpdatedAt _ _).
  destruct (taken d1 t); cbn [orb]; [split; [|done]; cbn; by intros [=]|].
  destruct (bool_decide (is_Some _)) eqn:Es; [split; [|done]; cbn; by intros [=]|].
  rewrite bool_decide_eq_false, <- eq_None_not_Some in Es. change (ID d1) with id in Es. unfold insertSchedules.
  destruct (profiles _ !! _); [|split; [|done]; cbn; by intros [=]]. unfold Get, deviceOf, write. cbn [devices set].
  apply deviceOf_None in Es as Es'. unfold deviceOf in Es. rewrite filter_app, filter_cons, filter_nil, decide_True by done.
  destruct (filter _ (devices t)); [|done]. cbn. done.
Qed.

Lemma Create_adds inet now IntN order id i t id' d : deviceOf id' t = Some d ->
  deviceOf id' (Create inet now IntN order id i t).2 = Some d.
Proof.
  intros Hd. pose proof (Create_spec inet now IntN order id i t) as H. destruct (Create _ _ _ _ _ _ _) as [[d'|e] t']; [|destruct H as [_ ->]; done].
  destruct H as (_ & _ & _ & E). unfold deviceOf in *. cbn [snd]. rewrite E, filter_app. by destruct (filter _ (devices t)).
Qed.

(** ** Import *)

Lemma importRows_spec inet now IntN order newID col recs : forall row t, match importRows inet now IntN order newID col row recs t with
  | (rs, t') => map ir_Row rs = map (fun k => row + Z.of_nat k) (seq 0 (length recs)) /\
      exists new, devices t' = devices t ++ new /\ map ID new = map ir_DeviceID (imported rs)
  end.
Proof.
  induction recs as [|rec recs IH]; intros row t; cbn [importRows]; [split; [done|]; exists []; by rewrite app_nil_r|].
  destruct (importRow inet now IntN order newID col row rec t) as [r t1] eqn:Er.
  assert (ir_Row r = row /\ (ir_Error r = "" /\ (exists d, devices t1 = devices t ++ [d] /\ ID d = ir_DeviceID r) \/ ir_Error r <> "" /\ devices t1 = devices t)) as [Hrow Hr].
  { destruct rec as [rec|]; cbn [importRow] in Er; [|injection Er as <- <-; split; [done|]; by right].
    pose proof (Create_spec inet now IntN order (newID row) (rowInput col rec) t) as H.
    destruct (Create _ _ _ _ _ _ t) as [[d|e] t0]; injection Er as <- <-; (split; [done|]).
    - left. split; [done|]. exists d. by destruct H as (_ & _ & _ & ?).
    - right. by destruct H as [? ->]. }
  specialize (IH (row + 1) t1). destruct (importRows _ _ _ _ _ _ _ _ t1) as [rs t2]. destruct IH as (E & new & En & Eid). split.
  - cbn [length seq map]. rewrite Hrow, E, <- seq_shift, map_map. f_equal; [lia|]. apply map_ext. intros k. lia.
  - unfold imported in *. rewrite filter_cons. destruct Hr as [[He (d & Ed & Hd)]|[He Ed]].
    + exists (d :: new). rewrite En, Ed, <- app_assoc, decide_True by done. cbn [map]. by rewrite Eid, Hd.
    + exists new. by rewrite En, Ed, decide_False.
Qed.

Lemma importRows_adds inet now IntN order newID col recs id d : forall row t, deviceOf id t = Some d ->
  deviceOf id (importRows inet now IntN order newID col row recs t).2 = Some d.
Proof.
  induction recs as [|rec recs IH]; intros row t Hd; [done|]. cbn [importRows].
  assert (deviceOf id (importRow inet now IntN order newID col row rec t).2 = Some d) as H.
  { destruct rec as [rec|]; [|done]. cbn [importRow]. pose proof (Create_adds inet now IntN order (newID row) (rowInput col rec) t id d Hd) as H.
    by destruct (Create _ _ _ _ _ _ t) as [[d'|e] t']. }
  destruct (importRow _ _ _ _ _ _ _ _ _) as [r t1]. pose proof (IH (row + 1) t1 H) as H'.
  by destruct (importRows _ _ _ _ _ _ _ _ t1) as [rs t2].
Qed.

(** ** Pages *)

Section pages.
Context (id_le : relation string) `{forall a b, Decision (id_le a b)} `{!PartialOrder id_le} `{!Total id_le} (ILIKE LIKE : string -> string -> bool).
Abbreviation List := (List id_le ILIKE LIKE).
Abbreviation listed := (listed ILIKE LIKE).
Abbreviation byID := (byID id_le).

(** Following the cursors from one page to the next. *)
Fixpoint pages (fuel : nat) (f : DeviceFilter) (t : DB) : list Device :=
  match fuel with
  | O => []
  | S fuel =>
      let '(page, next) := List f t in
      page ++ (if bool_decide (next = "") then [] else pages fuel (mkDeviceFilter (f_SiteID f) (f_Status f) (f_Query f) next (f_Limit f)) t)
  end.

Definition after (f : DeviceFilter) (t : DB) : list Device :=
  filter (fun d => id_le (f_Cursor f) (ID d) /\ ID d <> f_Cursor f /\ listed f d) (devices t).

#[export] Instance byID_trans : Transitive byID.
Proof. intros a b c. unfold Devices.byID. apply transitivity. Qed.
#[export] Instance byID_total : Total byID.
Proof. intros a b. unfold Devices.byID. apply total. done. Qed.

Lemma same_ID t d d' : NoDup (map ID (devices t)) -> d ∈ devices t -> d' ∈ devices t -> ID d = ID d' -> d = d'.
Proof. intros Hnd Hd Hd' E. pose proof (deviceOf_In _ _ Hnd Hd) as H1. rewrite E, (deviceOf_In _ _ Hnd Hd') in H1. by injection H1 as <-. Qed.

(** What follows the last of a page is what is left of the list. *)
Lemma after_last f t pre d post : NoDup (map ID (devices t)) -> merge_sort byID (after f t) = pre ++ d :: post ->
  merge_sort byID (after (mkDeviceFilter (f_SiteID f) (f_Status f) (f_Query f) (ID d) (f_Limit f)) t) = post.
Proof.
  intros Hnd E. assert (StronglySorted byID (pre ++ d :: post)) as Hs by (rewrite <- E; apply StronglySorted_merge_sort; apply _).
  assert (pre ++ d :: post ≡ₚ after f t) as Hp by (rewrite <- E; apply merge_sort_Permutation).
  assert (NoDup (pre ++ d :: post)) as Hnd' by (rewrite Hp; apply NoDup_filter; by eapply NoDup_fmap_1).
  assert (forall x, x ∈ pre ++ d :: post -> x ∈ devices t) as Hin by (intros x Hx; rewrite Hp in Hx; by apply list_elem_of_filter in Hx as [_ ?]).
  set (P := fun x => id_le (ID d) (ID x) /\ ID x <> ID d).
  assert (after (mkDeviceFilter (f_SiteID f) (f_Status f) (f_Query f) (ID d) (f_Limit f)) t ≡ₚ filter P (pre ++ d :: post)) as Hf.
  { rewrite Hp. unfold after. rewrite list_filter_filter. cbn [f_Cursor]. apply Permutation_refl'. apply list_filter_iff. intros x. unfold P.
    change (listed (mkDeviceFilter _ _ _ _ _) x) with (listed f x). split; [|naive_solver]. intros (H1 & H2 & H3). split_and!; try done.
    - assert (d ∈ after f t) as Hd by (rewrite <- Hp; apply elem_of_app; right; by left). apply list_elem_of_filter in Hd as [(Hc & _ & _) _]. by etrans.
    - intros Ex. apply H2. assert (d ∈ after f t) as Hd by (rewrite <- Hp; apply elem_of_app; right; by left).
      apply list_elem_of_filter in Hd as [(Hc & _ & _) _]. apply (anti_symm id_le); [by rewrite Ex|done]. }
  assert (filter P (pre ++ d :: post) = post) as Hpost.
  { rewrite filter_app, filter_cons. apply StronglySorted_app in Hs as (Hpre & _ & Hpost). apply StronglySorted_cons in Hpost as [Hall _].
    rewrite list_filter_none, decide_False; [|by intros [_ []]|].
    - cbn. apply list_filter_all. intros x Hx. rewrite Forall_forall in Hall. split; [by apply Hall|]. intros Ex.
      assert (x = d) as -> by (apply (same_ID t); [done|apply Hin, elem_of_app; right; by right|apply Hin, elem_of_app; right; by left|done]).
      apply NoDup_app in Hnd' as (_ & _ & [Hno _]%NoDup_cons). done.
    - intros x Hx [H1 H2]. apply H2, (anti_symm id_le); [|done]. apply (Hpre x d); [done|by left]. }
  apply (StronglySorted_unique_strong byID).
  - intros x y Hx Hy H1 H2. apply (proj1 (elem_of_merge_sort byID _ _)) in Hx. rewrite Hf, Hpost in Hx.
    apply (same_ID t); [done|apply Hin, elem_of_app; right; by right..|by apply (anti_symm id_le)].
  - apply StronglySorted_merge_sort; apply _.
  - apply StronglySorted_app in Hs as (_ & _ & Hs). by apply StronglySorted_cons in Hs as [_ ?].
  - by rewrite merge_sort_Permutation, Hf, Hpost.
Qed.
Lemma listLimit_pos n : (0 < listLimit n)%nat.
Proof. unfold listLimit. destruct (_ || _) eqn:E; [lia|]. apply orb_false_iff in E as [E _]. lia. Qed.

Lemma pages_after fuel : forall f t, NoDup (map ID (devices t)) -> Forall (fun d => ID d <> "") (devices t) -> (length (after f t) < fuel)%nat ->
  pages fuel f t = merge_sort byID (after f t).
Proof.
  induction fuel as [|fuel IH]; intros f t Hnd Hne Hlen; [lia|]. cbn [pages]. unfold Devices.List. fold (after f t).
  assert (length (after f t) = length (merge_sort byID (after f t))) as El by (by rewrite merge_sort_Permutation). rewrite El in Hlen. clear El.
  destruct (merge_sort byID (after f t)) as [|x L] eqn:EL.
  { rewrite take_nil. cbn. done. }
  rewrite <- EL in *. set (L' := merge_sort byID (after f t)) in *. pose proof (listLimit_pos (f_Limit f)) as Hpos. set (n := listLimit (f_Limit f)) in *.
  rewrite length_take. destruct (n <? _)%nat eqn:En.
  2:{ apply Nat.ltb_ge in En. rewrite bool_decide_true, app_nil_r by done. apply take_ge. lia. }
  apply Nat.ltb_lt in En. rewrite take_take, Nat.min_l by lia.
  destruct (last (take n L')) as [d|] eqn:Ed.
  2:{ apply last_None in Ed. apply (f_equal length) in Ed. rewrite length_take in Ed. cbn in Ed. lia. }
  apply last_Some in Ed as [pre Epre].
  assert (L' = pre ++ d :: drop n L') as Es by (rewrite <- (take_drop n L') at 1; by rewrite Epre, <- app_assoc).
  assert (d ∈ devices t) as Hd.
  { assert (d ∈ L') as Hd by (rewrite Es; apply elem_of_app; right; by left). unfold L' in Hd. rewrite elem_of_merge_sort in Hd.
    by apply list_elem_of_filter in Hd as [_ ?]. }
  rewrite Forall_forall in Hne. rewrite bool_decide_false by (by apply Hne). pose proof (after_last f t pre d (drop n L') Hnd Es) as Ea.
  rewrite IH; [|done|by apply Forall_forall|].
  - rewrite Ea. apply take_drop.
  - assert (forall l : list Device, length (merge_sort byID l) = length l) as Hl by (intros l; by rewrite merge_sort_Permutation).
    rewrite <- Hl, Ea, length_drop. lia.
Qed.
End pages.

(** * Theorems *)

(** C21. Whatever is asked of it, and in whatever order, the inventory stays
    consistent: no two devices of one identifier, no two that are not retired
    at one address, for every device exactly the polls its profile enables, at
    the intervals of the profile, and none for a device that is not there -
    and no poll of a pending or active device is switched off. *)
Theorem devices_consistent Quote ToLower inet l t :
  devices t = [] -> schedule t = ∅ -> Forall (fun cr => usual cr.1) l -> db_ok (performAll Quote ToLower inet l t).
Proof.
  intros Hd Hs Hl. assert (db_ok t) as Hok.
  { constructor; [by rewrite Hd; constructor|intros ??; by rewrite Hd, elem_of_nil| |intros ???; by rewrite Hd, elem_of_nil].
    intros k. rewrite Hs, lookup_empty. unfold wanted, deviceOf. by rewrite Hd. }
  unfold performAll. revert t Hok Hd Hs. induction Hl as [|cr l Hc Hl IH]; intros t Hok _ _; [done|]. cbn [foldl].
  assert (forall t, db_ok t -> db_ok (foldl (fun t cr => perform Quote ToLower inet cr.1 cr.2 t) t l)) as IH'.
  { clear IH. induction Hl as [|cr' l' Hc' Hl' IH]; intros t' Hok'; [done|]. cbn [foldl]. by apply IH, ok_perform. }
  by apply IH', ok_perform.
Qed.

(** An update that is refused changes nothing. One that is not changes the
    one device: what the request gives is taken, what it leaves out stays -
    the notes alone are written whether given or not - and what the device
    itself reports, its status and its identifier cannot be written. *)
Theorem update_exact Quote inet now IntN order id i t :
  match Update Quote inet now IntN order id i t with
  | (inr _, t') => t' = t
  | (inl d, t') => exists old ip, deviceOf id t = Some old /\ edit i old d /\
      inet (MgmtIP d) = Some ip /\ deviceOf id t' = Some ((d <| MgmtIP := ip |>) <| UpdatedAt := now |>) /\
      (forall id', id' <> id -> deviceOf id' t' = deviceOf id' t) /\ (forall k, k.1 <> id -> schedule t' !! k = schedule t !! k)
  end.
Proof.
  unfold Update, Get. destruct (deviceOf id t) as [old|] eqn:Eo; [|done]. destruct (edited Quote i old) as [d|e] eqn:Ee; [|done].
  destruct (RefsExist _ _ _ _ t); [done|]. apply edited_spec in Ee. pose proof (e_same _ _ _ Ee) as Es. injection Es as E1 E2 E3 E4 E5 E6 E7 E8 E9 E10.
  pose proof (deviceOf_Some _ _ _ Eo) as [_ Eid]. unfold repoUpdate. destruct (inet (MgmtIP d)) as [ip|] eqn:Ei; [|done]. rewrite E1, Eid, Eo.
  destruct (taken _ t); [done|]. unfold insertSchedules. destruct (profiles _ !! _) as [p|]; [|done]. exists old, ip.
  set (f := rewrite_ now ip d). split_and!; [done..| | |].
  - transitivity (deviceOf id (updateWhere id f t)); [done|]. rewrite updateWhere_deviceOf, bool_decide_true, Eo by done. cbn. f_equal.
    unfold f, rewrite_. rewrite <- E1, <- E2, <- E3, <- E4, <- E5, <- E6, <- E7, <- E8, <- E9, <- E10. by destruct d.
  - intros id' Hn. transitivity (deviceOf id' (updateWhere id f t)); [done|]. by rewrite updateWhere_deviceOf, bool_decide_false by done.
  - intros k Hk. cbn. by apply slots_other.
Qed.

(** The only way for a device to go is that it is purged, retired already;
    then nothing of it is left, neither polls nor history. *)
Theorem purge_two_step Quote ToLower inet c r t id d :
  deviceOf id t = Some d -> deviceOf id (perform Quote ToLower inet c r t) = None ->
  r = RPurge id /\ Status d = DeviceRetired /\
  (forall fam, schedule (perform Quote ToLower inet c r t) !! (id, fam) = None) /\ id ∉ map snd (asset_history (perform Quote ToLower inet c r t)).
Proof.
  intros Hd. destruct r as [id' i|id' i|id' s|id'|header recs|f]; cbn [perform]; [by rewrite (Create_adds _ _ _ _ _ _ _ _ _ Hd)| | | | |congruence].
  - unfold Update. destruct (Get id' t) as [old|]; [|cbn; congruence]. destruct (edited _ _ _) as [d'|]; [|cbn; congruence].
    destruct (RefsExist _ _ _ _ _); [cbn; congruence|]. unfold repoUpdate. destruct (inet _) as [ip|]; [|cbn; congruence].
    destruct (deviceOf (ID d') t) as [old'|]; [|cbn; congruence]. destruct (taken _ t); [cbn; congruence|]. unfold insertSchedules.
    destruct (profiles _ !! _); [|cbn; congruence]. intros Hn. change (deviceOf id (updateWhere (ID d') (rewrite_ (c_now c) ip d') t) = None) in Hn. revert Hn.
    rewrite updateWhere_deviceOf, Hd by done. by case_bool_decide.
  - unfold SetStatus, repoSetStatus. destruct (deviceOf id' t) as [old|]; [|cbn; congruence]. destruct (taken _ t); [cbn; congruence|].
    intros Hn. change (deviceOf id (updateWhere id' (withStatus (c_now c) s) t) = None) in Hn. revert Hn.
    rewrite updateWhere_deviceOf, Hd by done. by case_bool_decide.
  - unfold Purge, Get, repoPurge. destruct (deviceOf id' t) as [old|] eqn:Eo; [|cbn; congruence].
    destruct (bool_decide (Status old = DeviceRetired)) eqn:Er; [|cbn; congruence]. apply bool_decide_eq_true in Er. cbn [negb snd].
    intros Hn. destruct (decide (id' = id)) as [->|Hne].
    + split; [done|]. split; [congruence|]. split.
      * intros fam. cbn. apply map_lookup_filter_None. right. by intros s _ [].
      * cbn. intros (h & Eh & Hin)%list_elem_of_fmap. apply list_elem_of_filter in Hin as [Hh _]. congruence.
    + unfold deviceOf in Hn, Hd. cbn in Hn. rewrite list_filter_filter in Hn.
      rewrite (list_filter_iff _ (fun d => ID d = id)) in Hn by (intros x; naive_solver). congruence.
  - unfold ImportCSV. destruct header as [h|]; [|cbn; congruence]. destruct (missingColumn _); [cbn; congruence|].
    pose proof (importRows_adds inet (c_now c) (c_IntN c) (c_order c) (c_ID c) (columns ToLower h) recs id d 2 t Hd) as H.
    destruct (importRows _ _ _ _ _ _ _ _ _) as [rs t']. cbn [snd] in *. intros Hn. change (deviceOf id t' = None) in Hn. congruence.
Qed.

(** C37. Going from page to page by the cursors shows every device the filter
    admits exactly once, in the order of the identifiers, whatever the size of
    a page; and there is a last page. *)
Theorem pages_whole id_le `{forall a b, Decision (id_le a b)} `{!PartialOrder id_le} `{!Total id_le} ILIKE LIKE f t fuel :
  NoDup (map ID (devices t)) -> (forall d, d ∈ devices t -> id_le "" (ID d) /\ ID d <> "") -> f_Cursor f = "" -> (length (devices t) < fuel)%nat ->
  pages id_le ILIKE LIKE fuel f t = merge_sort (byID id_le) (filter (listed ILIKE LIKE f) (devices t)).
Proof.
  intros Hnd Hne Hc Hlen. assert (after id_le ILIKE LIKE f t = filter (listed ILIKE LIKE f) (devices t)) as E.
  { unfold after. rewrite Hc. clear Hlen Hnd. induction (devices t) as [|d l IH]; [done|]. rewrite !filter_cons, IH by (intros d' Hd'; apply Hne; by right).
    destruct (Hne d) as [H1 H2]; [by left|]. do 2 case_decide; naive_solver. }
  rewrite (pages_after id_le ILIKE LIKE fuel f t); [by rewrite E|done|apply Forall_forall; intros d Hd; by apply Hne|]. rewrite E.
  eapply Nat.le_lt_trans; [apply length_filter|done].
Qed.

(** Of a file that is imported every record is answered for under its own
    line, and the devices there are more of than before are those answered for
    without an error, in the order of the file. *)
Theorem import_accounted Quote inet now IntN order ToLower newID header recs t :
  match ImportCSV Quote inet now IntN order ToLower newID header recs t with
  | (inr _, t') => devices t' = devices t
  | (inl rs, t') => map ir_Row rs = map (fun k => 2 + Z.of_nat k) (seq 0 (length recs)) /\
      exists new, devices t' = devices t ++ new /\ map ID new = map ir_DeviceID (imported rs)
  end.
Proof.
  unfold ImportCSV. destruct header as [h|]; [|done]. destruct (missingColumn _); [done|].
  pose proof (importRows_spec inet now IntN order newID (columns ToLower h) recs 2 t) as H. destruct (importRows _ _ _ _ _ _ _ _ _) as [rs t'].
  destruct H as (E & new & En & Ei). case_bool_decide as Er; [|split; [done|]; by exists new]. subst rs. cbn. rewrite En.
  apply map_eq_nil in Ei as ->. by rewrite app_nil_r.
Qed.

(** ** Examples *)

#[export] Instance str_le_preorder : PartialOrder str_le.
Proof. split; [split; [intros a; unfold str_le; apply str_lt_irrefl|apply _]|apply _]. Qed.

Definition demoProfiles : gmap string Profile :=
  <["pp_slow" := mkProfile 600 900 60 86400 ["traffic"; "icmp"]]> {["pp_default" := mkProfile 60 300 30 21600 ["traffic"; "health"; "icmp"; "sync"]]}.
Definition emptyDB : DB := mkDB [] ∅ [] [] ["s1"] [("generic", true)] ["c1"] demoProfiles.
Definition demoInput (name ip : string) : DeviceInput := mkDeviceInput name ip "s1" "" "c1" "" None "rack 4" 0 None None.
Definition nothing : DeviceInput := mkDeviceInput "" "" "" "" "" "" None "" 0 None None.
Definition demoInet (s : string) : option string := if isAddr s then Some s else None.
Definition calm : circumstances := mkCircumstances 1000 (fun _ i => i - 1) (fun l => l) (fun row => "d" +:+ Itoa row).
Definition calmly (rs : list request) (t : DB) : DB := performAll (fun s => s) (fun s => s) demoInet (map (pair calm) rs) t.
Definition twoDevices : DB := calmly [RCreate "d1" (demoInput "edge" "10.0.0.1"); RCreate "d2" (demoInput "core" "10.0.0.2")] emptyDB.
Definition updated (id : string) (i : DeviceInput) (t : DB) : DB := calmly [RUpdate id i] t.
Definition shown (t : DB) : list (string * string * string * string) := map (fun d => (ID d, Name d, status_text (Status d), Notes d)) (devices t).
Definition polls (id : string) (t : DB) : list (option Z) := map (fun fam => interval_s <$> schedule t !! (id, fam)) ["traffic"; "health"; "icmp"; "sync"].

Example two_devices : shown twoDevices = [("d1", "edge", "pending", "rack 4"); ("d2", "core", "pending", "rack 4")] /\
  polls "d2" twoDevices = [Some 60; Some 300; Some 30; Some 21600].
Proof. vm_compute. by split. Qed.
Example slow_profile : polls "d1" (updated "d1" (nothing <| di_ProfileID := "pp_slow" |>) twoDevices) = [Some 600; None; Some 60; None].
Proof. vm_compute. reflexivity. Qed.
Example pages_of_one : map ID (pages str_le (fun _ _ => true) (fun _ _ => true) 3 (mkDeviceFilter "" [] "" "" 1) twoDevices) = ["d1"; "d2"].
Proof. vm_compute. reflexivity. Qed.

(** An update of the name alone takes the notes away. *)
Lemma notes_lost : shown (updated "d1" (nothing <| di_Name := "edge-1" |>) twoDevices) =
  [("d1", "edge-1", "pending", ""); ("d2", "core", "pending", "rack 4")].
Proof. vm_compute. reflexivity. Qed.

(** A device that moves to an address it exports flow from lists it twice. *)
Lemma own_exporter :
  let t := updated "d1" (nothing <| di_MgmtIP := "10.0.0.9" |>) (updated "d1" (nothing <| di_FlowExporters := Some ["10.0.0.9"] |>) twoDevices) in
  (fun d => (MgmtIP d, Attrs d !! "flow_exporters")) <$> deviceOf "d1" t = Some ("10.0.0.9", Some (AList ["10.0.0.9"])).
Proof. vm_compute. reflexivity. Qed.

(** A retired device whose address is in use again cannot be enabled, which is
    reported as a passing fault. *)
Lemma enable_taken :
  let t := calmly [RStatus "d1" DeviceRetired; RCreate "d3" (demoInput "new" "10.0.0.1")] twoDevices in
  AsKind <$> (SetStatus 0 "d1" DeviceActive t).1 =
    Some (Some (KindTransient, ErrWrap "set device status" (pgError "duplicate key value violates unique constraint"))) /\
  map ID (devices t) = ["d1"; "d2"; "d3"].
Proof. vm_compute. by split. Qed.

Theorem devices_consistent_witness : db_ok twoDevices.
Proof. apply devices_consistent; [done|done|]. apply Forall_fmap, Forall_true. by intros r l. Defined.

Theorem purge_two_step_witness :
  let t := calmly [RStatus "d1" DeviceRetired] twoDevices in
  deviceOf "d1" (perform (fun s => s) (fun s => s) demoInet calm (RPurge "d1") t) = None /\
  forall d, deviceOf "d1" t = Some d -> Status d = DeviceRetired.
Proof.
  intros t. assert (deviceOf "d1" (perform (fun s => s) (fun s => s) demoInet calm (RPurge "d1") t) = None) as E by (vm_compute; reflexivity).
  split; [done|]. intros d Hd. by destruct (purge_two_step _ _ _ _ _ _ _ _ Hd E) as (_ & ? & _).
Defined.

Theorem pages_whole_witness : map ID (pages str_le (fun _ _ => true) (fun _ _ => true) 3 (mkDeviceFilter "" [] "" "" 1) twoDevices) = ["d1"; "d2"].
Proof.
  rewrite (pages_whole str_le).
  - vm_compute. reflexivity.
  - decide_by_compute.
  - assert (Forall (fun d => str_le "" (ID d) /\ ID d <> "") (devices twoDevices)) as H by decide_by_compute.
    intros d Hd. rewrite Forall_forall in H. by apply H.
  - reflexivity.
  - assert (length (devices twoDevices) = 2%nat) as -> by (vm_compute; reflexivity). lia.
Defined.
