(* ===== verification/Vault.v ===== *)
(** Packages platform/cryptox (envelope.go), inventory/domain (types.go),
    inventory/app (credentials.go), inventory/adapters/postgres (store.go) and
    collection/adapters/secrets (resolver.go): the credentials of devices,
    sealed at rest and opened where they are used.

    AES-GCM is a parameter with the law that what is sealed opens and nothing
    else does, JSON one with the law that a secret of valid text comes back;
    what is drawn at random is given. The vault is written against the class
    of key providers. Statements are functions of the table, and a failing one
    changes nothing. *)
From Stdlib Require Import ZArith Lia.
From stdpp Require Import base list gmap strings pretty numbers sorting.
From S2P Require Import Prelude GoText Errx Wire.

(** ** Envelopes *)

(** [cipher.AEAD] of AES: a key, a nonce and a text. *)
Class AEAD : Type := {
  Seal : bytes -> bytes -> bytes -> bytes;
  Open_ : bytes -> bytes -> bytes -> option bytes;
  open_seal : forall k n c p, Open_ k n c = Some p <-> c = Seal k n p
}.

Definition NonceSize : nat := 12%nat.
(** [aes.NewCipher] takes keys of these sizes. *)
Definition keyError (key : bytes) : option Err :=
  if bool_decide (length key ∈ [16; 24; 32]%nat) then None else Some (ErrText ("crypto/aes: invalid key size " +:+ Itoa (len key))).

Section gcm.
Context `{AEAD}.
(** [rand.Read] into a nonce or a key; [None] when there is no randomness. *)
Definition gcmSeal (key plaintext : bytes) (nonce : option bytes) : bytes + Err :=
  match keyError key with
  | Some e => inr e
  | None => match nonce with Some n => inl (n ++ Seal key n plaintext) | None => inr (ErrText "no randomness") end
  end.
Definition gcmOpen (key sealed : bytes) : bytes + Err :=
  match keyError key with
  | Some e => inr e
  | None =>
      if (length sealed <? NonceSize)%nat then inr (ErrText "cryptox: sealed data too short")
      else match Open_ key (take NonceSize sealed) (drop NonceSize sealed) with
           | Some pt => inl pt
           | None => inr (ErrWrap "cryptox: authentication failed" (ErrText "cipher: message authentication failed"))
           end
  end.
End gcm.

Class KeyProvider (K : Type) : Type := {
  WrapDEK : K -> bytes -> option bytes -> (bytes * Z) + Err;
  UnwrapDEK : K -> bytes -> Z -> bytes + Err;
  CurrentVersion : K -> Z
}.

Record Envelope : Type := mkEnvelope { Ciphertext : bytes; WrappedDEK : bytes; KeyVersion : Z }.

(** What one sealing draws: the key, and the nonces of the payload and of the
    wrapping. *)
Record draws : Type := mkDraws { dr_dek : option bytes; dr_payload : option bytes; dr_wrap : option bytes }.

Section envelope.
Context `{AEAD} {K : Type} `{KeyProvider K}.
Definition Encrypt (kp : K) (plaintext : bytes) (d : draws) : Envelope + Err :=
  match dr_dek d with
  | None => inr (ErrWrap "cryptox: dek" (ErrText "no randomness"))
  | Some dek =>
      match gcmSeal dek plaintext (dr_payload d) with
      | inr e => inr e
      | inl ct => match WrapDEK kp dek (dr_wrap d) with inr e => inr e | inl (wrapped, ver) => inl (mkEnvelope ct wrapped ver) end
      end
  end.
Definition Decrypt (kp : K) (e : Envelope) : bytes + Err :=
  match UnwrapDEK kp (WrappedDEK e) (KeyVersion e) with inr e => inr e | inl dek => gcmOpen dek (Ciphertext e) end.
End envelope.

(** ** Keys from the environment *)

Record EnvMasterKey : Type := mkEnvMasterKey { keys : gmap Z bytes; current : Z }.

(** Of several keys of the wrong size one is named, whichever the range over
    the map meets first. *)
Definition NewEnvMasterKey (ks : gmap Z bytes) (cur : Z) : EnvMasterKey + Err :=
  if negb (bool_decide (is_Some (ks !! cur))) then inr (ErrText ("cryptox: current key version " +:+ Itoa cur +:+ " not provided"))
  else match head (filter (fun vk => length vk.2 <> 32%nat) (map_to_list ks)) with
  | Some (v, k) => inr (ErrText ("cryptox: key version " +:+ Itoa v +:+ " is " +:+ Itoa (len k) +:+ " bytes, want 32"))
  | None => inl (mkEnvMasterKey ks cur)
  end.

(** [DecodeString] is that of [base64.StdEncoding]. *)
Definition LoadEnvMasterKey (Getenv : string -> string) (DecodeString : string -> bytes + Err) : EnvMasterKey + Err :=
  let raw := Getenv "NETINV_MASTER_KEY" in
  if bool_decide (raw = "") then inr (ErrText "cryptox: NETINV_MASTER_KEY not set") else
  match DecodeString raw with
  | inr e => inr (ErrWrap "cryptox: NETINV_MASTER_KEY" e)
  | inl key =>
      let prev := Getenv "NETINV_MASTER_KEY_PREV" in
      if bool_decide (prev = "") then NewEnvMasterKey {[1 := key]} 1 else
      match DecodeString prev with
      | inr e => inr (ErrWrap "cryptox: NETINV_MASTER_KEY_PREV" e)
      | inl pk => NewEnvMasterKey (<[0 := pk]> {[1 := key]}) 1
      end
  end.

#[export] Instance env_keys `{AEAD} : KeyProvider EnvMasterKey := {|
  WrapDEK m dek nonce := match gcmSeal (default [] (keys m !! current m)) dek nonce with inl w => inl (w, current m) | inr e => inr e end;
  UnwrapDEK m wrapped v :=
    match keys m !! v with None => inr (ErrText ("cryptox: unknown key version " +:+ Itoa v)) | Some key => gcmOpen key wrapped end;
  CurrentVersion m := current m
|}.

(** ** Credentials *)

Inductive CredentialKind : Type := SNMPv2c | SNMPv3 | OtherKind (kind : string).
#[export] Instance CredentialKind_eq_dec : EqDecision CredentialKind.
Proof. solve_decision. Defined.
Definition kind_text (k : CredentialKind) : string := match k with SNMPv2c => "snmp_v2c" | SNMPv3 => "snmp_v3" | OtherKind s => s end.

Record Secret : Type := mkSecret {
  Community : string; Username : string; AuthProtocol : string; AuthPassword : string; PrivProtocol : string; PrivPassword : string;
  Context_ : string
}.
Definition PublicMeta (kind : CredentialKind) (s : Secret) : gmap string string :=
  match kind with
  | SNMPv2c => ∅
  | _ => <["username" := Username s]> (<["auth_protocol" := AuthProtocol s]> {["priv_protocol" := PrivProtocol s]})
  end.

Definition validateSecret (kind : CredentialKind) (s : Secret) : option Err :=
  let invalid := fun msg => Some (New KindInvalid msg) in
  match kind with
  | SNMPv2c => if bool_decide (Community s = "") then invalid "community is required for snmp_v2c" else None
  | SNMPv3 =>
      if bool_decide (Username s = "") || bool_decide (AuthProtocol s = "") || bool_decide (AuthPassword s = "")
      then invalid "username, auth_protocol and auth_password are required for snmp_v3"
      else if negb (bool_decide (AuthProtocol s ∈ ["sha1"; "sha256"; "md5"])) then invalid "auth_protocol must be sha1, sha256 or md5"
      else if bool_decide (PrivProtocol s = "") then None
      else if negb (bool_decide (PrivProtocol s ∈ ["aes128"; "aes256"; "des"])) then invalid "priv_protocol must be aes128, aes256 or des"
      else if bool_decide (PrivPassword s = "") then invalid "priv_password required with priv_protocol" else None
  | OtherKind _ => invalid "kind must be snmp_v2c or snmp_v3"
  end.

(** A row of the table, and what is shown of it. *)
Record CredRow : Type := mkCredRow {
  cr_ID : string; cr_Name : string; cr_Kind : CredentialKind; cr_Envelope : Envelope; cr_Meta : gmap string string; cr_CreatedBy : string;
  cr_Created : Time; cr_Updated : Time
}.
#[export] Instance eta_CredRow : Eta CredRow := fun r =>
  mkCredRow (cr_ID r) (cr_Name r) (cr_Kind r) (cr_Envelope r) (cr_Meta r) (cr_CreatedBy r) (cr_Created r) (cr_Updated r).
Record Credential : Type := mkCredential {
  c_ID : string; c_Name : string; c_Kind : CredentialKind; c_Meta : gmap string string; c_DeviceCount : Z; c_Created : Time; c_Updated : Time
}.
Record Event : Type := mkEvent { ev_Action : string; ev_Object : string; ev_After : gmap string string }.

(** The table; for every device its credential and whether it is retired; the
    audit trail. *)
Record VaultDB : Type := mkVaultDB { rows : list CredRow; deviceCreds : list (string * bool); trail : list Event }.
#[export] Instance eta_VaultDB : Eta VaultDB := fun t => mkVaultDB (rows t) (deviceCreds t) (trail t).

Definition rowOf (id : string) (t : VaultDB) : option CredRow := head (filter (fun r => cr_ID r = id) (rows t)).
Definition setRow (id : string) (f : CredRow -> CredRow) (t : VaultDB) : VaultDB :=
  t <| rows := map (fun r => if bool_decide (cr_ID r = id) then f r else r) (rows t) |>.
Definition errNoCredential : Err := New KindNotFound "credential not found".
Definition errNameTaken : Err := New KindConflict "a credential with that name already exists".
Definition pgError (msg : string) : Err := ErrText msg.

Definition DeviceCount (id : string) (t : VaultDB) : Z := len (filter (fun d => d = (id, false)) (deviceCreds t)).
Definition scanCred (t : VaultDB) (r : CredRow) : Credential :=
  mkCredential (cr_ID r) (cr_Name r) (cr_Kind r) (cr_Meta r) (DeviceCount (cr_ID r) t) (cr_Created r) (cr_Updated r).
Definition Get (id : string) (t : VaultDB) : Credential + Err :=
  match rowOf id t with Some r => inl (scanCred t r) | None => inr errNoCredential end.
(** In the order [ORDER BY] gives. *)
Definition List (by_name : list CredRow -> list CredRow) (t : VaultDB) : list Credential := map (scanCred t) (by_name (rows t)).

Section vault.
Context `{AEAD} {K : Type} `{KeyProvider K} (kp : K).
Context (Marshal : Secret -> bytes) (Unmarshal : bytes -> Secret + Err).

Definition seal (s : Secret) (d : draws) : Envelope + Err := Encrypt kp (Marshal s) d.
Definition sealed (s : Secret) (d : draws) : Envelope + Err :=
  match seal s d with inl env => inl env | inr e => inr (kindError KindInternal (ErrWrap "seal credential" e)) end.

Definition Store (id name : string) (kind : CredentialKind) (s : Secret) (createdBy : string) (d : draws) (now : Time) (t : VaultDB)
    : (Credential + Err) * VaultDB :=
  match sealed s d with
  | inr e => (inr e, t)
  | inl env =>
      if bool_decide (name ∈ map cr_Name (rows t)) || bool_decide (id ∈ map cr_ID (rows t)) then (inr errNameTaken, t) else
      match kind with
      | OtherKind _ => (inr (kindError KindTransient (ErrWrap "insert credential" (pgError "invalid input value for enum"))), t)
      | _ =>
          let t := t <| rows := rows t ++ [mkCredRow id name kind env (PublicMeta kind s) createdBy now now] |> in (Get id t, t)
      end
  end.

Definition UpdateSecret (id : string) (s : Secret) (d : draws) (now : Time) (t : VaultDB) : option Err * VaultDB :=
  match Get id t with
  | inr e => (Some e, t)
  | inl cred =>
      match sealed s d with
      | inr e => (Some e, t)
      | inl env => (None, setRow id (fun r => ((r <| cr_Envelope := env |>) <| cr_Meta := PublicMeta (c_Kind cred) s |>) <| cr_Updated := now |>) t)
      end
  end.

Definition Rename (id name : string) (now : Time) (t : VaultDB) : option Err * VaultDB :=
  match rowOf id t with
  | None => (Some errNoCredential, t)
  | Some _ =>
      if bool_decide (Exists (fun r => cr_Name r = name /\ cr_ID r <> id) (rows t)) then (Some errNameTaken, t)
      else (None, setRow id (fun r => (r <| cr_Name := name |>) <| cr_Updated := now |>) t)
  end.

(** Retired devices do not count, and the foreign key sees them all the same. *)
Definition Delete (id : string) (t : VaultDB) : option Err * VaultDB :=
  match Get id t with
  | inr e => (Some e, t)
  | inl cred =>
      if 0 <? c_DeviceCount cred then (Some (New KindConflict "credential is in use by devices"), t)
      else if bool_decide (id ∈ map fst (deviceCreds t)) then (Some (New KindConflict "credential is referenced"), t)
      else (None, t <| rows := filter (fun r => cr_ID r <> id) (rows t) |>)
  end.

Definition openSecret (env : Envelope) : Secret + Err :=
  match Decrypt kp env with
  | inr e => inr (kindError KindInternal (ErrWrap "unseal credential" e))
  | inl plain => match Unmarshal plain with inl s => inl s | inr e => inr (kindError KindInternal (ErrWrap "decode credential" e)) end
  end.
Definition DecryptSecret (id : string) (t : VaultDB) : Secret + Err :=
  match rowOf id t with None => inr errNoCredential | Some r => openSecret (cr_Envelope r) end.

(** ** The service *)

Definition write (e : Event) (t : VaultDB) : VaultDB := t <| trail := trail t ++ [e] |>.

Definition CredCreate (id name : string) (kind : CredentialKind) (s : Secret) (actor : string) (d : draws) (now : Time) (t : VaultDB)
    : (Credential + Err) * VaultDB :=
  if bool_decide (name = "") then (inr (New KindInvalid "name is required"), t) else
  match validateSecret kind s with
  | Some e => (inr e, t)
  | None =>
      match Store id name kind s actor d now t with
      | (inr e, t) => (inr e, t)
      | (inl cred, t) => (inl cred, write (mkEvent "credential.create" (c_ID cred) (<["name" := name]> {["kind" := kind_text kind]})) t)
      end
  end.

Definition CredUpdateSecret (id : string) (s : Secret) (d : draws) (now : Time) (t : VaultDB) : option Err * VaultDB :=
  match Get id t with
  | inr e => (Some e, t)
  | inl cred =>
      match validateSecret (c_Kind cred) s with
      | Some e => (Some e, t)
      | None =>
          match UpdateSecret id s d now t with
          | (Some e, t) => (Some e, t)
          | (None, t) => (None, write (mkEvent "credential.rotate" id ∅) t)
          end
      end
  end.

Definition CredDelete (id : string) (t : VaultDB) : option Err * VaultDB :=
  match Delete id t with (Some e, t) => (Some e, t) | (None, t) => (None, write (mkEvent "credential.delete" id ∅) t) end.

Record TestResult : Type := mkTestResult { te_Result : string; te_SysName : string; te_LatencyMS : Z; te_Detail : string }.
(** The tester probes a target. *)
Definition CredTest (Tester : string -> Z -> CredentialKind -> Secret -> TestResult) (id target : string) (port : Z) (t : VaultDB)
    : (TestResult + Err) * VaultDB :=
  match Get id t with
  | inr e => (inr e, t)
  | inl cred =>
      match DecryptSecret id t with
      | inr e => (inr e, t)
      | inl s =>
          let res := Tester target (if port =? 0 then 161 else port) (c_Kind cred) s in
          (inl res, write (mkEvent "credential.test" id (<["target" := target]> {["result" := te_Result res]})) t)
      end
  end.
End vault.

(** ** The resolver of the scheduler *)

Definition toWire (kind : CredentialKind) (s : Secret) : SNMPCred :=
  match kind with
  | SNMPv2c => mkSNMPCred "v2c" (Community s) "" "" "" "" "" ""
  | _ => mkSNMPCred "v3" "" (Username s) (AuthProtocol s) (AuthPassword s) (PrivProtocol s) (PrivPassword s) (Context_ s)
  end.

(** What was resolved, and when. *)
Record cached : Type := mkCached { ca_cred : SNMPCred; ca_at : Time }.
Record Resolver : Type := mkResolver { TTL : Duration; cache : gmap string cached }.

(** The moments of a call: when the cache is looked at, when the vault answers
    for the credential and for its secret, when that is kept. *)
Record moments : Type := mkMoments { m_look : Time; m_get : Time; m_secret : Time; m_keep : Time }.

Definition Resolve (VaultGet : Time -> string -> CredentialKind + Err) (VaultSecret : Time -> string -> Secret + Err)
    (id : string) (m : moments) (r : Resolver) : (SNMPCred + Err) * Resolver :=
  let r := mkResolver (if TTL r =? 0 then Minute else TTL r) (cache r) in
  let fetch :=
    match VaultGet (m_get m) id with
    | inr e => (inr e, r)
    | inl kind =>
        match VaultSecret (m_secret m) id with
        | inr e => (inr e, r)
        | inl s => let c := toWire kind s in (inl c, mkResolver (TTL r) (<[id := mkCached c (m_keep m)]> (cache r)))
        end
    end in
  match cache r !! id with
  | Some c => if time_Sub (m_look m) (ca_at c) <? TTL r then (inl (ca_cred c), r) else fetch
  | None => fetch
  end.

(** * Properties *)

(** ** Envelopes *)

Section sealing.
Context `{AEAD}.

Lemma gcm_seals key p n : length key = 32%nat -> length n = NonceSize ->
  gcmSeal key p (Some n) = inl (n ++ Seal key n p) /\ gcmOpen key (n ++ Seal key n p) = inl p.
Proof.
  intros Hk Hn. unfold gcmSeal, gcmOpen, keyError. rewrite bool_decide_true by (rewrite Hk; right; right; by left). split; [done|].
  rewrite length_app, Hn. rewrite (proj2 (Nat.ltb_ge _ _)) by lia. rewrite <- Hn, take_app_length, drop_app_length.
  by rewrite (proj2 (open_seal key n _ p) eq_refl).
Qed.

Lemma gcm_opens key sealed p : gcmOpen key sealed = inl p -> exists n, sealed = n ++ Seal key n p /\ length n = NonceSize.
Proof.
  unfold gcmOpen. destruct (keyError key); [done|]. destruct (_ <? _)%nat eqn:E; [done|]. apply Nat.ltb_ge in E.
  destruct (Open_ _ _ _) as [pt|] eqn:Eo; [|done]. intros [= <-]. apply open_seal in Eo. exists (take NonceSize sealed).
  rewrite <- Eo, take_drop, length_take. split; [done|lia].
Qed.

Lemma provided ks cur m : NewEnvMasterKey ks cur = inl m ->
  m = mkEnvMasterKey ks cur /\ is_Some (ks !! cur) /\ forall v k, ks !! v = Some k -> length k = 32%nat.
Proof.
  unfold NewEnvMasterKey. destruct (bool_decide (is_Some _)) eqn:Ec; [|done]. apply bool_decide_eq_true in Ec. cbn [negb].
  destruct (head _) as [[v k]|] eqn:Eh; [done|]. intros [= <-]. split; [done|]. split; [done|]. intros v k Hk. apply head_None in Eh.
  destruct (decide (length k = 32%nat)) as [?|Hn]; [done|]. exfalso.
  assert ((v, k) ∈ filter (fun vk : Z * bytes => length vk.2 <> 32%nat) (map_to_list ks)) as Hin
    by (apply list_elem_of_filter; split; [done|by apply elem_of_map_to_list]).
  rewrite Eh in Hin. by apply elem_of_nil in Hin.
Qed.

(** A provider that opens what it wrapped. *)
Class Opens {K} `{KeyProvider K} (kp : K) : Prop := opens : forall dek n,
  length dek = 32%nat -> length n = NonceSize -> exists w v, WrapDEK kp dek (Some n) = inl (w, v) /\ UnwrapDEK kp w v = inl dek.

Lemma env_opens ks cur m : NewEnvMasterKey ks cur = inl m -> Opens m.
Proof.
  intros (-> & [key Hkey] & Hlen)%provided dek n Hdek Hn. destruct (gcm_seals key dek n) as [E1 E2]; [by eapply Hlen|done|].
  eexists _, cur. unfold WrapDEK, UnwrapDEK, env_keys. cbn [keys current]. rewrite Hkey. change (default [] (Some key)) with key. rewrite E1. by split.
Qed.

Definition drawn (d : draws) (dek np nw : bytes) : Prop :=
  d = mkDraws (Some dek) (Some np) (Some nw) /\ length dek = 32%nat /\ length np = NonceSize /\ length nw = NonceSize.

Lemma seal_opens {K} `{KeyProvider K} (kp : K) `{!Opens kp} p d dek np nw : drawn d dek np nw ->
  exists e, Encrypt kp p d = inl e /\ Decrypt kp e = inl p /\ UnwrapDEK kp (WrappedDEK e) (KeyVersion e) = inl dek.
Proof.
  intros (-> & Hd & Hp & Hw). destruct (opens (kp := kp) dek nw Hd Hw) as (w & v & E1 & E2). destruct (gcm_seals dek p np Hd Hp) as [E3 E4].
  exists (mkEnvelope (np ++ Seal dek np p) w v). unfold Encrypt, Decrypt. cbn [dr_dek dr_payload dr_wrap WrappedDEK KeyVersion Ciphertext].
  by rewrite E3, E1, E2, E4.
Qed.

(** What is sealed with keys of the environment opens to what it was; and
    whatever else is put in its place opens, if at all, only to what was sealed
    under the very same key. *)
Theorem envelope_roundtrip ks cur m p d dek np nw : NewEnvMasterKey ks cur = inl m -> drawn d dek np nw ->
  exists e, Encrypt m p d = inl e /\ Decrypt m e = inl p /\
    forall ct p', Decrypt m (mkEnvelope ct (WrappedDEK e) (KeyVersion e)) = inl p' ->
      exists n, ct = n ++ Seal dek n p' /\ length n = NonceSize.
Proof.
  intros Hm Hd. pose proof (env_opens _ _ _ Hm) as Ho. destruct (seal_opens m p d dek np nw Hd) as (e & E1 & E2 & E3). exists e.
  split; [done|]. split; [done|]. intros ct p'. unfold Decrypt. cbn [WrappedDEK KeyVersion Ciphertext]. rewrite E3. apply gcm_opens.
Qed.

(** A key wrapped anew under a later version opens what it sealed. *)
Lemma rewrap_opens {K K'} `{KeyProvider K} `{KeyProvider K'} (kp : K) (kp' : K') `{!Opens kp} `{!Opens kp'} p d dek np nw n e :
  drawn d dek np nw -> length n = NonceSize -> Encrypt kp p d = inl e ->
  exists w v, WrapDEK kp' dek (Some n) = inl (w, v) /\ Decrypt kp' (mkEnvelope (Ciphertext e) w v) = inl p.
Proof.
  intros Hd Hn E. destruct (seal_opens kp p d dek np nw Hd) as (e' & E1 & E2 & E3). rewrite E in E1. injection E1 as <-.
  destruct Hd as (_ & Hl & _). destruct (opens (kp := kp') dek n Hl Hn) as (w & v & E4 & E5). exists w, v. split; [done|].
  unfold Decrypt in *. cbn [WrappedDEK KeyVersion Ciphertext]. rewrite E5. by rewrite E3 in E2.
Qed.

(** The previous key of the environment is under a version that nothing was
    ever sealed with: with or without it, every envelope that was sealed opens
    the same, or does not. *)
Lemma previous_unused Getenv DecodeString m m' p d e :
  let without := fun v => if bool_decide (v = "NETINV_MASTER_KEY_PREV") then "" else Getenv v in
  LoadEnvMasterKey Getenv DecodeString = inl m -> LoadEnvMasterKey without DecodeString = inl m' ->
  (forall older e0, LoadEnvMasterKey older DecodeString = inl e0 -> Encrypt e0 p d = inl e -> Decrypt m e = Decrypt m' e).
Proof.
  intros without Hm Hm' older e0 He0 Hs.
  assert (forall g x, LoadEnvMasterKey g DecodeString = inl x -> current x = 1) as Hcur.
  { intros g x. unfold LoadEnvMasterKey. destruct (bool_decide _); [done|]. destruct (DecodeString _) as [key|]; [|done].
    destruct (bool_decide _); [intros (-> & _)%provided; done|]. destruct (DecodeString _); [|done]. by intros (-> & _)%provided. }
  assert (KeyVersion e = 1) as Ev.
  { unfold Encrypt in Hs. destruct (dr_dek d); [|done]. destruct (gcmSeal _ _ _); [|done]. unfold WrapDEK, env_keys in Hs.
    destruct (gcmSeal _ _ _); [|done]. injection Hs as <-. cbn. by eapply Hcur. }
  assert (keys m !! 1 = keys m' !! 1) as Ek.
  { revert Hm Hm'. unfold LoadEnvMasterKey.
    change (without "NETINV_MASTER_KEY") with (Getenv "NETINV_MASTER_KEY"). change (without "NETINV_MASTER_KEY_PREV") with "".
    destruct (bool_decide (Getenv "NETINV_MASTER_KEY" = "")); [done|]. destruct (DecodeString (Getenv "NETINV_MASTER_KEY")) as [key|]; [|done].
    rewrite (bool_decide_true ("" = "")) by done. intros H1 (-> & _)%provided. cbn [keys]. rewrite lookup_singleton_eq.
    destruct (bool_decide _); [by apply provided in H1 as (-> & _)|]. destruct (DecodeString _) as [pk|]; [|done]. by apply provided in H1 as (-> & _). }
  unfold Decrypt, UnwrapDEK, env_keys. by rewrite Ev, Ek.
Qed.
End sealing.

(** ** The vault as a map *)

Inductive request : Type :=
  | RCreate (id name : string) (kind : CredentialKind) (s : Secret) (actor : string)
  | RUpdate (id : string) (s : Secret)
  | RRename (id name : string)
  | RDelete (id : string)
  | RTest (id target : string) (port : Z).

(** Done or refused. *)
Definition done_ {A} (r : A + Err) : bool := match r with inl _ => true | inr _ => false end.

Lemma rowOf_setRow id f t id' : (forall r, cr_ID (f r) = cr_ID r) ->
  rowOf id' (setRow id f t) = if bool_decide (id' = id) then f <$> rowOf id' t else rowOf id' t.
Proof.
  intros Hf. unfold rowOf, setRow. cbn [rows set]. induction (rows t) as [|r l IH]; [by case_bool_decide|]. cbn [map].
  rewrite !filter_cons. assert (cr_ID (if bool_decide (cr_ID r = id) then f r else r) = cr_ID r) as -> by (destruct (bool_decide (cr_ID r = id)); [apply Hf|done]).
  destruct (decide (cr_ID r = id')) as [E|E]; [|exact IH]. cbn. rewrite E. by case_bool_decide.
Qed.

Lemma setRow_ids id f t : (forall r, cr_ID (f r) = cr_ID r) -> map cr_ID (rows (setRow id f t)) = map cr_ID (rows t).
Proof. intros Hf. cbn. rewrite map_map. apply map_ext. intros r. by destruct (bool_decide _). Qed.

Lemma rowOf_None id t : rowOf id t = None <-> id ∉ map cr_ID (rows t).
Proof.
  unfold rowOf. rewrite head_None. induction (rows t) as [|r l IH]; [split; [intros _; apply not_elem_of_nil|done]|].
  cbn [map]. rewrite filter_cons, not_elem_of_cons. case_decide as E; [split; [done|intros [? _]; congruence]|]. rewrite IH. naive_solver.
Qed.

Section refinement.
Context `{AEAD} {K : Type} `{KeyProvider K} (kp : K) `{!Opens kp}.
Context (Marshal : Secret -> bytes) (Unmarshal : bytes -> Secret + Err).
Context (Tester : string -> Z -> CredentialKind -> Secret -> TestResult).

Definition perform (d : draws) (now : Time) (rq : request) (t : VaultDB) : bool * VaultDB :=
  match rq with
  | RCreate id name kind s actor => let '(r, t) := CredCreate kp Marshal id name kind s actor d now t in (done_ r, t)
  | RUpdate id s => let '(r, t) := CredUpdateSecret kp Marshal id s d now t in (bool_decide (r = None), t)
  | RRename id name => let '(r, t) := Rename id name now t in (bool_decide (r = None), t)
  | RDelete id => let '(r, t) := CredDelete id t in (bool_decide (r = None), t)
  | RTest id target port => let '(r, t) := CredTest kp Unmarshal Tester id target port t in (done_ r, t)
  end.

(** What a request that is done does to the map of secrets. *)
Definition effect (rq : request) (m : gmap string Secret) : gmap string Secret :=
  match rq with
  | RCreate id _ _ s _ | RUpdate id s => <[id := s]> m
  | RDelete id => delete id m
  | RRename _ _ | RTest _ _ _ => m
  end.

Definition secretOf (rq : request) : option Secret := match rq with RCreate _ _ _ s _ | RUpdate _ s => Some s | _ => None end.
(** A request whose secret survives the encoding, with draws of full size. *)
Definition sound (r : draws * Time * request) : Prop :=
  (exists dek np nw, drawn r.1.1 dek np nw) /\ forall s, secretOf r.2 = Some s -> Unmarshal (Marshal s) = inl s.

(** The table and the map after the same requests. *)
Definition both (l : list (draws * Time * request)) (tm : VaultDB * gmap string Secret) : VaultDB * gmap string Secret :=
  foldl (fun tm r => let '(ok, t) := perform r.1.1 r.1.2 r.2 tm.1 in (t, if ok : bool then effect r.2 tm.2 else tm.2)) tm l.

Record keeps (t : VaultDB) (m : gmap string Secret) : Prop := mkKeeps {
  k_ids : NoDup (map cr_ID (rows t));
  k_same : forall id, match m !! id with
    | Some s => exists r, rowOf id t = Some r /\ openSecret kp Unmarshal (cr_Envelope r) = inl s
    | None => rowOf id t = None
    end
}.

Lemma keeps_write e t m : keeps t m -> keeps (write e t) m.
Proof. intros []. by constructor. Qed.

Lemma sealed_opens s d dek np nw : drawn d dek np nw -> Unmarshal (Marshal s) = inl s ->
  exists env, sealed kp Marshal s d = inl env /\ openSecret kp Unmarshal env = inl s.
Proof.
  intros Hd Hs. destruct (seal_opens kp (Marshal s) d dek np nw Hd) as (e & E1 & E2 & _). exists e. unfold sealed, seal, openSecret.
  by rewrite E1, E2, Hs.
Qed.

Lemma keeps_perform r t m : sound r -> keeps t m ->
  let '(ok, t') := perform r.1.1 r.1.2 r.2 t in keeps t' (if ok : bool then effect r.2 m else m).
Proof.
  intros [(dek & np & nw & Hd) Hs] Hk. destruct r as [[d now] rq]. cbn [fst snd] in *. destruct rq as [id name kind s actor|id s|id name|id|id target port]; cbn [perform].
  - destruct (sealed_opens s d dek np nw Hd (Hs s eq_refl)) as (env & E1 & E2). unfold CredCreate. destruct (bool_decide (name = "")); [done|].
    destruct (validateSecret kind s) eqn:Ev; [done|]. unfold Store. rewrite E1. destruct (bool_decide (name ∈ _)); [done|]. cbn [orb].
    destruct (bool_decide (id ∈ _)) eqn:Ei; [done|]. apply bool_decide_eq_false in Ei. pose proof (proj2 (rowOf_None id t) Ei) as Er.
    set (row := mkCredRow id name kind env (PublicMeta kind s) actor now now). set (t' := t <| rows := rows t ++ [row] |>).
    assert (rowOf id t' = Some row /\ forall id', id' <> id -> rowOf id' t' = rowOf id' t) as [E3 E4].
    { unfold rowOf, t' in *. cbn [rows set]. split.
      - rewrite filter_app, filter_cons, decide_True by done. by destruct (filter _ (rows t)).
      - intros id' Hn. rewrite filter_app, filter_cons, decide_False, filter_nil, app_nil_r by (cbn; congruence). done. }
    assert (keeps t' (<[id := s]> m)) as Hk'.
    { constructor; [cbn; rewrite map_app; apply NoDup_app; split_and!; [apply Hk|by intros x Hx ->%list_elem_of_singleton|apply NoDup_singleton]|].
      intros id'. destruct (decide (id' = id)) as [->|Hn]; [rewrite lookup_insert_eq; by exists row|]. rewrite lookup_insert_ne, E4 by done. apply Hk. }
    destruct kind as [| |other]; [| |done]; unfold Get; rewrite E3; cbn [done_]; by apply keeps_write.
  - destruct (sealed_opens s d dek np nw Hd (Hs s eq_refl)) as (env & E1 & E2). unfold CredUpdateSecret, UpdateSecret, Get.
    destruct (rowOf id t) as [row|] eqn:Er; [|done]. destruct (validateSecret _ s); [done|]. rewrite E1. cbn. apply keeps_write.
    set (f := fun r => _). constructor; [rewrite setRow_ids by done; apply Hk|]. intros id'. rewrite rowOf_setRow by done.
    destruct (decide (id' = id)) as [->|Hn].
    + rewrite lookup_insert_eq, bool_decide_true, Er by done. by exists (f row).
    + rewrite lookup_insert_ne, bool_decide_false by done. apply Hk.
  - unfold Rename. destruct (rowOf id t) as [row|] eqn:Er; [|done]. destruct (bool_decide (Exists _ _)); [done|]. cbn.
    set (f := fun r => _). constructor; [rewrite setRow_ids by done; apply Hk|]. intros id'. rewrite rowOf_setRow by done.
    pose proof (k_same _ _ Hk id') as Hid. case_bool_decide as E; [|done]. destruct (m !! id') as [s|]; [|by rewrite Hid].
    destruct Hid as (r & -> & Ho). by exists (f r).
  - unfold CredDelete, Delete, Get. destruct (rowOf id t) as [row|] eqn:Er; [|done]. destruct (0 <? _); [done|]. destruct (bool_decide (id ∈ _)); [done|].
    cbn. apply keeps_write. constructor; [eapply sublist_NoDup; [apply (k_ids _ _ Hk)|cbn; apply (fmap_sublist cr_ID), sublist_filter]|].
    intros id'. unfold rowOf. cbn. rewrite list_filter_filter. destruct (decide (id' = id)) as [->|Hn].
    + rewrite lookup_delete_eq. rewrite list_filter_none; [done|]. intros r _ []. done.
    + rewrite lookup_delete_ne by done. pose proof (k_same _ _ Hk id') as Hid.
      rewrite (list_filter_iff _ (fun r => cr_ID r = id')) by (intros r; naive_solver). done.
  - unfold CredTest. destruct (Get id t); [|done]. destruct (DecryptSecret _ _ _ _); [|done]. cbn. by apply keeps_write.
Qed.

(** C22. The vault is a map from identifiers to secrets: after any requests the
    secret that opens for a credential is the one that was last given for it
    and accepted, and there is none where there is no credential. *)
Theorem vault_refines l devs id :
  Forall sound l -> let '(t, m) := both l (mkVaultDB [] devs [], ∅) in
  DecryptSecret kp Unmarshal id t = match m !! id with Some s => inl s | None => inr errNoCredential end.
Proof.
  intros Hl. assert (forall t m, keeps t m -> keeps (both l (t, m)).1 (both l (t, m)).2) as Hboth.
  { induction Hl as [|r l Hr Hl IH]; intros t m Hk; [done|]. unfold both. cbn [foldl fst snd].
    pose proof (keeps_perform r t m Hr Hk) as H'. destruct (perform _ _ _ t) as [ok t']. apply IH, H'. }
  assert (keeps (mkVaultDB [] devs []) ∅) as Hempty by (constructor; [constructor|intros id'; by rewrite lookup_empty]).
  pose proof (Hboth _ _ Hempty) as Hk. destruct (both l _) as [t m]. cbn [fst snd] in Hk. pose proof (k_same _ _ Hk id) as Hid. unfold DecryptSecret.
  destruct (m !! id) as [s|]; [|by rewrite Hid]. by destruct Hid as (r & -> & ?).
Qed.

(** Nothing a user or the audit trail is shown of a new credential depends
    on its passwords: of two secrets with the same public part, accepted both
    or neither, the answer, the list and the trail are the same. *)
Theorem nothing_shown id name kind s s' actor d dek np nw now t :
  drawn d dek np nw -> PublicMeta kind s = PublicMeta kind s' -> validateSecret kind s = validateSecret kind s' ->
  let r := CredCreate kp Marshal id name kind s actor d now t in let r' := CredCreate kp Marshal id name kind s' actor d now t in
  r.1 = r'.1 /\ trail r.2 = trail r'.2 /\ List (fun l => l) r.2 = List (fun l => l) r'.2.
Proof.
  intros Hd Hm Hv. unfold CredCreate. destruct (bool_decide (name = "")); [done|]. rewrite Hv. destruct (validateSecret kind s'); [done|].
  destruct (seal_opens kp (Marshal s) d dek np nw Hd) as (e & E & _). destruct (seal_opens kp (Marshal s') d dek np nw Hd) as (e' & E' & _).
  unfold Store, sealed, seal. rewrite E, E'. destruct (bool_decide (name ∈ _)); [done|]. cbn [orb]. destruct (bool_decide (id ∈ _)) eqn:Ei; [done|].
  apply bool_decide_eq_false, rowOf_None in Ei. rewrite Hm.
  assert (forall env, rowOf id (t <| rows := rows t ++ [mkCredRow id name kind env (PublicMeta kind s') actor now now] |>) =
    Some (mkCredRow id name kind env (PublicMeta kind s') actor now now)) as Hr.
  { intros env. unfold rowOf in *. cbn [rows set]. rewrite filter_app, filter_cons, decide_True by done. by destruct (filter _ (rows t)). }
  destruct kind; [| |done]; unfold Get; rewrite !Hr; cbn; (split; [done|]; split; [done|]); unfold List; cbn; by rewrite !map_app.
Qed.
End refinement.

(** ** The resolver *)

Section resolver.
Context (VaultGet : Time -> string -> CredentialKind + Err) (VaultSecret : Time -> string -> Secret + Err).

(** What the vault gave a call, and what the call made of it. *)
Definition gave (id : string) (m : moments) (c : SNMPCred) : Prop :=
  exists kind s, VaultGet (m_get m) id = inl kind /\ VaultSecret (m_secret m) id = inl s /\ c = toWire kind s.

(** Calls that follow one another, each with what it was answered. *)
Fixpoint resolveAll (calls : list (string * moments)) (r : Resolver) : list (SNMPCred + Err) * Resolver :=
  match calls with
  | [] => ([], r)
  | (id, m) :: calls =>
      let '(a, r) := Resolve VaultGet VaultSecret id m r in
      let '(rest, r) := resolveAll calls r in (a :: rest, r)
  end.

Definition ttlOf (r : Resolver) : Duration := if TTL r =? 0 then Minute else TTL r.
Definition honest (seen : list (string * moments)) (r : Resolver) : Prop := forall id c,
  cache r !! id = Some c -> exists m, (id, m) ∈ seen /\ gave id m (ca_cred c) /\ ca_at c = m_keep m.

Lemma Resolve_honest seen id m r : honest seen r -> let '(a, r') := Resolve VaultGet VaultSecret id m r in
  honest (seen ++ [(id, m)]) r' /\ ttlOf r' = ttlOf r /\
  forall c, a = inl c -> gave id m c \/ exists m', (id, m') ∈ seen /\ gave id m' c /\ time_Sub (m_look m) (m_keep m') < ttlOf r.
Proof.
  intros Hh. unfold Resolve. fold (ttlOf r). cbn [TTL cache].
  assert (honest (seen ++ [(id, m)]) (mkResolver (ttlOf r) (cache r))) as Hkept.
  { intros id' c Hc. destruct (Hh id' c Hc) as (m' & Hm & ?). exists m'. split; [|done]. apply elem_of_app. by left. }
  assert (ttlOf (mkResolver (ttlOf r) (cache r)) = ttlOf r) as Ht by (unfold ttlOf; cbn; destruct (TTL r =? 0) eqn:E; [done|by rewrite E]).
  assert (forall a r', (match VaultGet (m_get m) id with
      | inl kind => match VaultSecret (m_secret m) id with
          | inl s => (inl (toWire kind s), mkResolver (ttlOf r) (<[id := mkCached (toWire kind s) (m_keep m)]> (cache r)))
          | inr e => (inr e, mkResolver (ttlOf r) (cache r)) end
      | inr e => (inr e, mkResolver (ttlOf r) (cache r)) end) = (a, r') ->
    honest (seen ++ [(id, m)]) r' /\ ttlOf r' = ttlOf r /\ forall c, a = inl c -> gave id m c) as Hfetch.
  { intros a r'. destruct (VaultGet _ _) as [kind|e] eqn:Eg; [|intros [= <- <-]; by split_and!].
    destruct (VaultSecret _ _) as [s|e] eqn:Es; [|intros [= <- <-]; by split_and!]. intros [= <- <-].
    assert (gave id m (toWire kind s)) as Hg by (by exists kind, s). split_and!; [|exact Ht|by intros c [= <-]].
    intros id' c. cbn [cache]. destruct (decide (id' = id)) as [->|Hn]; [|rewrite lookup_insert_ne by done; apply Hkept].
    rewrite lookup_insert_eq. intros [= <-]. exists m. split; [apply elem_of_app; right; by left|]. by split. }
  destruct (cache r !! id) as [c0|] eqn:Ec.
  - destruct (_ <? _) eqn:Ew.
    + split_and!; [done|done|]. intros c [= <-]. right. destruct (Hh id c0 Ec) as (m' & Hm & Hg & Ha). exists m'. rewrite <- Ha. split_and!; [done|done|lia].
    + destruct (match VaultGet (m_get m) id with inl _ => _ | inr _ => _ end) as [a r'] eqn:E. destruct (Hfetch a r' eq_refl) as (? & ? & Hc).
      split_and!; [done|done|]. intros c E'. left. by apply Hc.
  - destruct (match VaultGet (m_get m) id with inl _ => _ | inr _ => _ end) as [a r'] eqn:E. destruct (Hfetch a r' eq_refl) as (? & ? & Hc).
    split_and!; [done|done|]. intros c E'. left. by apply Hc.
Qed.

(** A credential a poll is given is what the vault held for it: when it was
    asked for, or when an earlier call asked, and that was kept for less than
    the time a credential is kept. *)
Theorem resolver_fresh ttl calls k c :
  (resolveAll calls (mkResolver ttl ∅)).1 !! k = Some (inl c) ->
  exists id m, calls !! k = Some (id, m) /\ (gave id m c \/
    exists j m', (j < k)%nat /\ calls !! j = Some (id, m') /\ gave id m' c /\ time_Sub (m_look m) (m_keep m') < if ttl =? 0 then Minute else ttl).
Proof.
  change (if ttl =? 0 then Minute else ttl) with (ttlOf (mkResolver ttl ∅)).
  assert (forall calls seen r k, honest seen r -> (resolveAll calls r).1 !! k = Some (inl c) ->
    exists id m, calls !! k = Some (id, m) /\ (gave id m c \/ exists m', (id, m') ∈ seen ++ take k calls /\ gave id m' c /\
      time_Sub (m_look m) (m_keep m') < ttlOf r)) as Hall.
  { clear calls k. intros calls. induction calls as [|[id m] calls IH]; intros seen r k Hh; [done|]. cbn [resolveAll].
    pose proof (Resolve_honest seen id m r Hh) as H. destruct (Resolve _ _ id m r) as [a r']. destruct H as (Hh' & Ht & Ha).
    specialize (IH (seen ++ [(id, m)]) r'). destruct (resolveAll calls r') as [rest r'']. cbn [fst] in *. destruct k as [|k]; cbn.
    - intros [= ->]. exists id, m. split; [done|]. destruct (Ha c eq_refl) as [Hg|(m' & Hm & ?)]; [by left|]. right. exists m'. by rewrite app_nil_r.
    - intros Hk. destruct (IH k Hh' Hk) as (id' & m' & Hc & Hg). exists id', m'. split; [done|]. rewrite Ht, <- app_assoc in Hg. exact Hg. }
  intros Hk. destruct (Hall calls [] (mkResolver ttl ∅) k) as (id & m & Hc & Hg); [by intros id c'; cbn [cache]; rewrite lookup_empty|done|].
  exists id, m. split; [done|]. destruct Hg as [?|(m' & Hm & ?)]; [by left|]. right. apply list_elem_of_lookup_1 in Hm as [j Hj].
  cbn in Hj. apply lookup_take_Some in Hj as [Hj Hlt]. by exists j, m'.
Qed.
End resolver.

(** ** Examples *)

(** A cipher that hides nothing and forges nothing. *)
Definition plainSeal (k n p : bytes) : bytes := k ++ n ++ p.
Definition plainOpen (k n c : bytes) : option bytes :=
  if bool_decide (take (length k + length n) c = k ++ n) then Some (drop (length k + length n) c) else None.
Lemma plain_law k n c p : plainOpen k n c = Some p <-> c = plainSeal k n p.
Proof.
  unfold plainOpen, plainSeal. rewrite <- length_app. case_bool_decide as E.
  - split; [intros [= <-]|intros ->; by rewrite app_assoc, drop_app_length]. rewrite app_assoc. rewrite <- (take_drop (length (k ++ n)) c) at 1. by rewrite E.
  - split; [done|]. intros ->. destruct E. by rewrite app_assoc, take_app_length.
Qed.
#[local] Instance plainAEAD : AEAD := {| Seal := plainSeal; Open_ := plainOpen; open_seal := plain_law |}.

Definition oldKey : bytes := replicate 32 (zb 1).
Definition newKey : bytes := replicate 32 (zb 2).
Definition demoDecode (s : string) : bytes + Err :=
  if bool_decide (s = "old") then inl oldKey else if bool_decide (s = "new") then inl newKey else inr (ErrText "illegal base64 data").
Definition before (v : string) : string := if bool_decide (v = "NETINV_MASTER_KEY") then "old" else "".
Definition during (v : string) : string :=
  if bool_decide (v = "NETINV_MASTER_KEY") then "new" else if bool_decide (v = "NETINV_MASTER_KEY_PREV") then "old" else "".
Definition demoDraws : draws := mkDraws (Some (replicate 32 (zb 7))) (Some (replicate 12 (zb 8))) (Some (replicate 12 (zb 9))).
Definition demoSecret (community : string) : Secret := mkSecret community "" "" "" "" "" "".
Definition demoMarshal (s : Secret) : bytes := to_bytes (Community s).
Definition demoUnmarshal (b : bytes) : Secret + Err := inl (demoSecret (of_bytes b)).
Definition demoRing : gmap Z bytes := {[1 := oldKey]}.
Definition demoKeys : EnvMasterKey := mkEnvMasterKey demoRing 1.
Lemma demo_loaded : NewEnvMasterKey demoRing 1 = inl demoKeys.
Proof. vm_compute. reflexivity. Qed.
Definition demoTester (target : string) (port : Z) (kind : CredentialKind) (s : Secret) : TestResult := mkTestResult "ok" "" 1 (Community s).

Lemma demo_drawn : drawn demoDraws (replicate 32 (zb 7)) (replicate 12 (zb 8)) (replicate 12 (zb 9)).
Proof. by split_and!. Qed.

(** With the old key kept as the previous one, what was sealed before the
    change of keys does not open after it. *)
Lemma rotation_locks_out : match LoadEnvMasterKey before demoDecode, LoadEnvMasterKey during demoDecode with
  | inl m, inl m' =>
      match Encrypt m (to_bytes "public") demoDraws with
      | inl e => Decrypt m e = inl (to_bytes "public") /\ done_ (Decrypt m' e) = false
      | inr _ => False
      end
  | _, _ => False
  end.
Proof. vm_compute. by split. Qed.

Theorem envelope_roundtrip_witness :
  exists e, Encrypt demoKeys (to_bytes "public") demoDraws = inl e /\ Decrypt demoKeys e = inl (to_bytes "public").
Proof.
  destruct (envelope_roundtrip demoRing 1 demoKeys (to_bytes "public") demoDraws _ _ _ demo_loaded demo_drawn)
    as (e & E1 & E2 & _). by exists e.
Defined.

Definition demoRequests : list (draws * Time * request) :=
  [(demoDraws, 1, RCreate "c1" "core" SNMPv2c (demoSecret "public") "u1"); (demoDraws, 2, RCreate "c2" "core" SNMPv2c (demoSecret "x") "u1");
   (demoDraws, 3, RUpdate "c1" (demoSecret "s3cret")); (demoDraws, 4, RUpdate "c1" (demoSecret ""))].

Theorem vault_refines_witness : (let '(t, m) := both demoKeys demoMarshal demoUnmarshal demoTester demoRequests (mkVaultDB [] [] [], ∅) in
    DecryptSecret demoKeys demoUnmarshal "c1" t = match m !! "c1" with Some s => inl s | None => inr errNoCredential end) /\
  (both demoKeys demoMarshal demoUnmarshal demoTester demoRequests (mkVaultDB [] [] [], ∅)).2 !! "c1" = Some (demoSecret "s3cret").
Proof.
  assert (Opens demoKeys) as Ho by exact (env_opens _ _ _ demo_loaded). split.
  - apply (vault_refines demoKeys). unfold demoRequests. repeat (apply Forall_cons; split; [split; [eexists _, _, _; exact demo_drawn|]|]); [..|by apply Forall_nil];
      intros s [= <-]; reflexivity.
  - vm_compute. reflexivity.
Defined.

Theorem nothing_shown_witness :
  (CredCreate demoKeys demoMarshal "c1" "core" SNMPv2c (demoSecret "public") "u1" demoDraws 1 (mkVaultDB [] [] [])).1 =
  (CredCreate demoKeys demoMarshal "c1" "core" SNMPv2c (demoSecret "s3cret") "u1" demoDraws 1 (mkVaultDB [] [] [])).1.
Proof.
  assert (Opens demoKeys) as Ho by exact (env_opens _ _ _ demo_loaded).
  destruct (nothing_shown demoKeys demoMarshal "c1" "core" SNMPv2c (demoSecret "public") (demoSecret "s3cret") "u1" demoDraws _ _ _ 1 (mkVaultDB [] [] [])
    demo_drawn eq_refl eq_refl) as [H _]. exact H.
Defined.

(** The community is changed at 50: a call at 40 is still answered what the
    vault held at 10, a call at 80 no more. *)
Definition demoVault (t : Time) (id : string) : Secret + Err := inl (demoSecret (if t <? 50 then "old" else "new")).
Definition calls : list (string * moments) := map (fun t => ("c1", mkMoments t t t t)) [10; 55; 80].
Definition answers : list (SNMPCred + Err) := (resolveAll (fun _ _ => inl SNMPv2c) demoVault calls (mkResolver 60 ∅)).1.
Example demo_answers : map (fun a => match a with inl c => sc_Community c | inr _ => "" end) answers = ["old"; "old"; "new"].
Proof. vm_compute. reflexivity. Qed.
Theorem resolver_fresh_witness : exists id m, calls !! 1%nat = Some (id, m) /\ id = "c1".
Proof.
  assert (answers !! 1%nat = Some (inl (toWire SNMPv2c (demoSecret "old")))) as E by (vm_compute; reflexivity).
  destruct (resolver_fresh _ _ _ _ _ _ E) as (id & m & Hc & _). exists id, m. split; [done|]. by injection Hc as <-.
Defined.
