(* ===== verification/Sites.v ===== *)
(** Packages inventory/app (sites.go) and inventory/adapters/postgres
    (store.go): the sites devices, pollers and discovery rules are at.

    A statement is a function of the tables, with their foreign keys; one that
    fails changes nothing. *)
From Stdlib Require Import ZArith Lia.
From stdpp Require Import base list gmap strings pretty numbers sorting.
From S2P Require Import Prelude GoText Errx.

Record Site : Type := mkSite {
  ID : string; TenantID : string; Name : string; ParentSiteID : option string; Location : string; Contact : string; Status : string;
  CreatedAt : Time; UpdatedAt : Time
}.
#[export] Instance eta_Site : Eta Site := fun s =>
  mkSite (ID s) (TenantID s) (Name s) (ParentSiteID s) (Location s) (Contact s) (Status s) (CreatedAt s) (UpdatedAt s).
Record SiteInput : Type := mkSiteInput { in_Name : string; in_Parent : option string; in_Location : string; in_Contact : string }.

(** What a row of the audit trail says of a site, before and after. *)
Record Said : Type := mkSaid { sd_Name : string; sd_Location : string; sd_Contact : option string; sd_Parent : option (option string) }.
Record Event : Type := mkEvent { ev_Action : string; ev_Object : string; ev_Before : option Said; ev_After : option Said }.

(** The sites, and the site of every device - with whether it is retired -, of
    every poller, of every discovery rule, and of the rows of any other table. *)
Record DB : Type := mkDB {
  sites : list Site; devices : list (string * bool); pollers : list string; rules : list string; others : list string; trail : list Event
}.
#[export] Instance eta_DB : Eta DB := fun t => mkDB (sites t) (devices t) (pollers t) (rules t) (others t) (trail t).

Definition siteOf (id : string) (t : DB) : option Site := head (filter (fun s => ID s = id) (sites t)).
Definition errNoSite : Err := New KindNotFound "site not found".
Definition errSameName : Err := New KindConflict "a site with that name already exists".
Definition pgError (msg : string) : Err := ErrText msg.
Definition transient (msg : string) (e : Err) : Err := kindError KindTransient (ErrWrap msg e).
Definition Get (id : string) (t : DB) : Site + Err := match siteOf id t with Some s => inl s | None => inr errNoSite end.
Definition List (by_name : list Site -> list Site) (t : DB) : list Site := by_name (sites t).

(** The foreign key of a parent. *)
Definition parentThere (p : option string) (t : DB) : bool := match p with None => true | Some p => bool_decide (p ∈ map ID (sites t)) end.
Definition nameTaken (id tenant name : string) (t : DB) : bool :=
  bool_decide (Exists (fun s => ID s <> id /\ TenantID s = tenant /\ Name s = name) (sites t)).

Definition repoCreate (now : Time) (s : Site) (t : DB) : option Err * DB :=
  if bool_decide (ID s ∈ map ID (sites t)) || nameTaken (ID s) (TenantID s) (Name s) t then (Some errSameName, t)
  else if negb (parentThere (ParentSiteID s) t) then (Some (transient "insert site" (pgError "violates foreign key constraint")), t)
  else (None, t <| sites := sites t ++ [(s <| CreatedAt := now |>) <| UpdatedAt := now |>] |>).

Definition rewrite_ (now : Time) (s old : Site) : Site :=
  ((((old <| Name := Name s |>) <| ParentSiteID := ParentSiteID s |>) <| Location := Location s |>) <| Contact := Contact s |>) <| UpdatedAt := now |>.
Definition repoUpdate (now : Time) (s : Site) (t : DB) : option Err * DB :=
  match siteOf (ID s) t with
  | None => (Some errNoSite, t)
  | Some old =>
      if nameTaken (ID s) (TenantID old) (Name s) t then (Some errSameName, t)
      else if negb (parentThere (ParentSiteID s) t) then (Some (transient "update site" (pgError "violates foreign key constraint")), t)
      else (None, t <| sites := map (fun x => if bool_decide (ID x = ID s) then rewrite_ now s x else x) (sites t) |>)
  end.

Definition count {A} (P : A -> Prop) `{forall x, Decision (P x)} (l : list A) : Z := len (filter P l).
(** How many of each still refer to a site: devices, retired ones, child
    sites, pollers, rules. *)
Definition references (id : string) (t : DB) : list Z :=
  [count (fun d => d = (id, false)) (devices t); count (fun d => d = (id, true)) (devices t);
   count (fun s => ParentSiteID s = Some id) (sites t); count (fun p => p = id) (pollers t); count (fun r => r = id) (rules t)].
Definition nouns : list (string * (string * string)) :=
  [("1 device", ("", " devices")); ("1 retired device (move or purge it first)", ("", " retired devices (move or purge them first)"));
   ("1 child site", ("", " child sites")); ("1 enrolled poller", ("", " enrolled pollers")); ("1 discovery rule", ("", " discovery rules"))].
Definition blocker (e : Z * (string * (string * string))) : option string :=
  if e.1 =? 1 then Some e.2.1 else if 1 <? e.1 then Some (e.2.2.1 +:+ Itoa e.1 +:+ e.2.2.2) else None.
Definition blockers (id : string) (t : DB) : list string := omap blocker (zip (references id t) nouns).

Definition repoDelete (id : string) (t : DB) : option Err * DB :=
  if negb (bool_decide (blockers id t = [])) then (Some (New KindConflict ("site still has " +:+ Join (blockers id t) ", ")), t)
  else if bool_decide (id ∈ others t) then (Some (New KindConflict "site is still referenced by another record"), t)
  else match siteOf id t with
  | None => (Some errNoSite, t)
  | Some _ => (None, t <| sites := filter (fun s => ID s <> id) (sites t) |>)
  end.

(** ** The service *)

Definition write (e : Event) (t : DB) : DB := t <| trail := trail t ++ [e] |>.
Definition said (s : Site) : Said := mkSaid (Name s) (Location s) (Some (Contact s)) None.

Definition noParent (i : SiteInput) (t : DB) : bool :=
  match in_Parent i with Some p => match Get p t with inr _ => true | inl _ => false end | None => false end.
Definition Create (now : Time) (id : string) (i : SiteInput) (t : DB) : (Site + Err) * DB :=
  if bool_decide (in_Name i = "") then (inr (New KindInvalid "name is required"), t)
  else if noParent i t then (inr (New KindInvalid "parent site not found"), t) else
  let s := mkSite id "t_default" (in_Name i) (in_Parent i) (in_Location i) (in_Contact i) "active" zeroTime zeroTime in
  match repoCreate now s t with
  | (Some e, t) => (inr e, t)
  | (None, t) => (inl s, write (mkEvent "site.create" id None (Some (mkSaid (Name s) (Location s) None None))) t)
  end.

Definition Update (now : Time) (id : string) (i : SiteInput) (t : DB) : (Site + Err) * DB :=
  match Get id t with
  | inr e => (inr e, t)
  | inl old =>
      let s := ((old <| Name := if bool_decide (in_Name i <> "") then in_Name i else Name old |>) <| Location := in_Location i |>) <| Contact := in_Contact i |> in
      if bool_decide (in_Parent i = Some id) then (inr (New KindInvalid "site cannot be its own parent"), t) else
      let s := match in_Parent i with Some p => s <| ParentSiteID := Some p |> | None => s end in
      match repoUpdate now s t with
      | (Some e, t) => (inr e, t)
      | (None, t) => (inl s, write (mkEvent "site.update" id (Some (said old)) (Some (said s))) t)
      end
  end.

Definition Delete (id : string) (t : DB) : option Err * DB :=
  match Get id t with
  | inr e => (Some e, t)
  | inl s =>
      match repoDelete id t with
      | (Some e, t) => (Some e, t)
      | (None, t) => (None, write (mkEvent "site.delete" id (Some (mkSaid (Name s) (Location s) (Some (Contact s)) (Some (ParentSiteID s)))) None) t)
      end
  end.

(** * Properties *)

(** Everything that is at a site is at one there is. *)
Definition whole (t : DB) : Prop :=
  NoDup (map ID (sites t)) /\
  forall id, id ∈ map fst (devices t) ++ omap ParentSiteID (sites t) ++ pollers t ++ rules t ++ others t -> id ∈ map ID (sites t).

Inductive request : Type := RCreate (id : string) (i : SiteInput) | RUpdate (id : string) (i : SiteInput) | RDelete (id : string).
Definition perform (now : Time) (r : request) (t : DB) : DB :=
  match r with RCreate id i => (Create now id i t).2 | RUpdate id i => (Update now id i t).2 | RDelete id => (Delete id t).2 end.

Lemma siteOf_Some id t s : siteOf id t = Some s -> s ∈ sites t /\ ID s = id.
Proof. intros [l E]%head_Some. assert (s ∈ filter (fun s => ID s = id) (sites t)) as H by (rewrite E; by left). by apply list_elem_of_filter in H as [? ?]. Qed.

Lemma siteOf_None id t : siteOf id t = None <-> id ∉ map ID (sites t).
Proof.
  unfold siteOf. rewrite head_None. induction (sites t) as [|r l IH]; [split; [intros _; apply not_elem_of_nil|done]|].
  cbn [map]. rewrite filter_cons, not_elem_of_cons. case_decide as E; [split; [done|intros [? _]; congruence]|]. rewrite IH. naive_solver.
Qed.

Lemma count_zero {A} (P : A -> Prop) `{forall x, Decision (P x)} l : count P l = 0 <-> forall x, x ∈ l -> ~ P x.
Proof.
  unfold count, len. split.
  - intros E x Hx HP. assert (x ∈ filter P l) as Hin by (by apply list_elem_of_filter). destruct (filter P l); [by apply elem_of_nil in Hin|done].
  - intros Hno. by rewrite list_filter_none.
Qed.

Lemma count_nonneg {A} (P : A -> Prop) `{forall x, Decision (P x)} l : 0 <= count P l.
Proof. apply len_nonneg. Qed.

(** Nobody is at a site that nothing stands in the way of. *)
Lemma blockers_none id t : blockers id t = [] <->
  ((id, false) ∉ devices t) /\ ((id, true) ∉ devices t) /\ (id ∉ omap ParentSiteID (sites t)) /\ (id ∉ pollers t) /\ (id ∉ rules t).
Proof.
  assert (forall z n, 0 <= z -> blocker (z, n) = None <-> z = 0) as Hb.
  { intros z n Hz. unfold blocker. cbn [fst]. destruct (z =? 1) eqn:E1; [split; [done|lia]|]. destruct (1 <? z) eqn:E2; [split; [done|lia]|]. split; [lia|done]. }
  assert (forall e l, omap blocker (e :: l) = [] <-> blocker e = None /\ omap blocker l = []) as Ho
    by (intros e l; cbn; destruct (blocker e); naive_solver).
  unfold blockers, references, nouns. cbn [zip zip_with]. rewrite !Ho, !Hb, !count_zero by apply count_nonneg. cbn [omap list_omap].
  rewrite list_elem_of_omap. naive_solver.
Qed.

Lemma whole_perform now r t : whole t -> whole (perform now r t).
Proof.
  intros [Hnd Hw]. destruct r as [id i|id i|id]; cbn [perform].
  - unfold Create. destruct (bool_decide _); [done|]. destruct (noParent i t); [done|]. unfold repoCreate. cbn [ID ParentSiteID TenantID Name].
    destruct (bool_decide (id ∈ _)) eqn:Ei; [done|]. cbn [orb]. destruct (nameTaken _ _ _ t); [done|]. destruct (parentThere (in_Parent i) t) eqn:Ep; [|done].
    apply bool_decide_eq_false in Ei. cbn. unfold whole. cbn [write sites devices pollers rules others set]. rewrite map_app. split.
    + apply NoDup_app. split_and!; [done|by intros x Hx ->%list_elem_of_singleton|apply NoDup_singleton].
    + intros x. rewrite omap_app, !elem_of_app. intros Hx. assert (x ∈ map ID (sites t) \/ Some x = in_Parent i) as [?|E].
      { destruct Hx as [Hx|[[Hx|Hx]|Hx]]; [left; apply Hw; rewrite !elem_of_app; by left|left; apply Hw; rewrite !elem_of_app; right; by left| |
          left; apply Hw; rewrite !elem_of_app; tauto]. right. cbn in Hx. destruct (in_Parent i); [|by apply elem_of_nil in Hx].
        by apply list_elem_of_singleton in Hx as ->. }
      * by left.
      * left. unfold parentThere in Ep. rewrite <- E in Ep. by apply bool_decide_eq_true in Ep.
  - unfold Update, Get. destruct (siteOf id t) as [old|] eqn:Eo; [|done]. destruct (bool_decide _); [done|]. set (s := match in_Parent i with Some _ => _ | None => _ end).
    unfold repoUpdate. destruct (siteOf (ID s) t) as [o|]; [|done]. destruct (nameTaken _ _ _ t); [done|].
    destruct (parentThere (ParentSiteID s) t) eqn:Ep; [|done]. cbn. unfold whole. cbn [write sites devices pollers rules others set].
    set (f := fun x => if bool_decide (ID x = ID s) then rewrite_ now s x else x).
    assert (map ID (map f (sites t)) = map ID (sites t)) as Em by (rewrite map_map; apply map_ext; intros x; unfold f; by destruct (bool_decide (ID x = ID s))).
    rewrite Em. split; [done|]. intros x. rewrite !elem_of_app. intros Hx.
    assert (x ∈ map ID (sites t) \/ Some x = ParentSiteID s) as [?|E]; [|done|unfold parentThere in Ep; rewrite <- E in Ep; by apply bool_decide_eq_true in Ep].
    destruct Hx as [Hx|[Hx|Hx]]; [left; apply Hw; rewrite !elem_of_app; by left| |left; apply Hw; rewrite !elem_of_app; tauto].
    apply list_elem_of_omap in Hx as (y & Hy & Ey). apply list_elem_of_fmap in Hy as (z & -> & Hz). unfold f in Ey.
    destruct (bool_decide (ID z = ID s)); [right; by rewrite <- Ey|]. left. apply Hw. rewrite !elem_of_app. right. left. apply list_elem_of_omap. by exists z.
  - unfold Delete, Get. destruct (siteOf id t) as [old|] eqn:Eo; [|done]. unfold repoDelete. destruct (bool_decide (blockers id t = [])) eqn:Eb; [|done].
    cbn [negb]. apply bool_decide_eq_true, blockers_none in Eb as (H1 & H2 & H3 & H4 & H5). destruct (bool_decide (id ∈ others t)) eqn:E6; [done|].
    apply bool_decide_eq_false in E6. rewrite Eo. cbn. unfold whole. cbn [write sites devices pollers rules others set]. split.
    + eapply sublist_NoDup; [exact Hnd|]. apply (fmap_sublist ID), sublist_filter.
    + intros x. rewrite !elem_of_app. intros Hx. assert (x <> id /\ x ∈ map ID (sites t)) as [Hn Hin].
      { split.
        - intros ->. destruct Hx as [Hx|[Hx|[?|[?|?]]]]; [| |done..].
          + apply list_elem_of_fmap in Hx as ([y [|]] & -> & Hy); done.
          + apply H3. apply list_elem_of_omap in Hx as (y & Hy & Ey). apply list_elem_of_filter in Hy as [_ Hy]. apply list_elem_of_omap. by exists y.
        - apply Hw. rewrite !elem_of_app. destruct Hx as [?|[Hx|?]]; [by left| |tauto]. right. left.
          apply list_elem_of_omap in Hx as (y & Hy & Ey). apply list_elem_of_filter in Hy as [_ Hy]. apply list_elem_of_omap. by exists y. }
      apply list_elem_of_fmap in Hin as (s & -> & Hs). apply list_elem_of_fmap. exists s. split; [done|]. by apply list_elem_of_filter.
Qed.

(** Whatever is asked, everything that is at a site is at one there is. *)
Theorem sites_whole l t : whole t -> whole (foldl (fun t r => perform r.1 r.2 t) t l).
Proof. revert t. induction l as [|r l IH]; intros t Hw; [done|]. cbn [foldl]. apply IH, whole_perform, Hw. Qed.

(** A site is deleted just when it is there and nothing is at it; otherwise
    nothing changes, and as long as devices, sites, pollers or rules are at it
    the refusal says of each kind how many, of those that are none nothing. *)
Theorem delete_exact id t :
  match Delete id t with
  | (None, t') => is_Some (siteOf id t) /\ sites t' = filter (fun s => ID s <> id) (sites t) /\
      id ∉ map fst (devices t) ++ omap ParentSiteID (sites t) ++ pollers t ++ rules t ++ others t
  | (Some e, t') => t' = t /\
      (siteOf id t = None /\ e = errNoSite \/
       blockers id t <> [] /\ e = New KindConflict ("site still has " +:+ Join (blockers id t) ", ") \/
       blockers id t = [] /\ id ∈ others t /\ e = New KindConflict "site is still referenced by another record")
  end.
Proof.
  unfold Delete, Get. destruct (siteOf id t) as [s|] eqn:Es; [|split; [done|by left]]. unfold repoDelete.
  destruct (bool_decide (blockers id t = [])) eqn:Eb; cbn [negb]; [apply bool_decide_eq_true in Eb|apply bool_decide_eq_false in Eb; split; [done|right; by left]].
  destruct (bool_decide (id ∈ others t)) eqn:Eo; [apply bool_decide_eq_true in Eo; split; [done|right; by right]|]. apply bool_decide_eq_false in Eo.
  rewrite Es. split; [done|]. split; [done|]. apply blockers_none in Eb as (H1 & H2 & H3 & H4 & H5). rewrite !elem_of_app.
  intros [Hx|[?|[?|[?|?]]]]; try done. apply list_elem_of_fmap in Hx as ([y [|]] & -> & Hy); done.
Qed.

(** ** Examples *)

Definition demoIn (name : string) (p : option string) : SiteInput := mkSiteInput name p "" "".
Definition emptyDB : DB := mkDB [] [] [] [] [] [].
Definition asked (l : list request) (t : DB) : DB := foldl (fun t r => perform 0 r t) t l.
Definition twoSites : DB := asked [RCreate "s1" (demoIn "north" None); RCreate "s2" (demoIn "south" (Some "s1"))] emptyDB.

(** Two sites can be made each other's parent; neither can be deleted then. *)
Lemma parents_in_circle :
  let t := asked [RUpdate "s1" (demoIn "" (Some "s2"))] twoSites in
  map (fun s => (ID s, ParentSiteID s)) (sites t) = [("s1", Some "s2"); ("s2", Some "s1")] /\
  (Delete "s1" t).1 = Some (New KindConflict "site still has 1 child site") /\ (Delete "s2" t).1 = Some (New KindConflict "site still has 1 child site").
Proof. vm_compute. by split_and!. Qed.
(** A parent that is not there is an invalid request when a site is made, and a
    passing fault when it is changed. *)
Lemma parent_missing :
  (Create 0 "s3" (demoIn "west" (Some "s9")) twoSites).1 = inr (New KindInvalid "parent site not found") /\
  (Update 0 "s2" (demoIn "" (Some "s9")) twoSites).1 = inr (transient "update site" (pgError "violates foreign key constraint")).
Proof. vm_compute. by split. Qed.
Example all_named : blockers "s1" (twoSites <| devices := [("s1", true); ("s1", false); ("s1", false)] |>) =
  ["2 devices"; "1 retired device (move or purge it first)"; "1 child site"].
Proof. vm_compute. reflexivity. Qed.

Theorem sites_whole_witness : whole twoSites.
Proof.
  unfold twoSites, asked. pose proof (sites_whole [(0, RCreate "s1" (demoIn "north" None)); (0, RCreate "s2" (demoIn "south" (Some "s1")))] emptyDB) as H.
  apply H. split; [constructor|]. intros id Hid. by apply elem_of_nil in Hid.
Defined.
