(* ===== verification/Fleet.v ===== *)
(** Packages collection/app (pollers.go), collection/adapters/postgres
    (pollers.go), collection/domain (poller.go) and collection/pollerrt
    (agent.go): enrolling pollers, their heartbeats, and what is known of the
    queue of a site.

    Statements are functions of the tables. The digest, the encoding of random
    bytes, JSON and the calls over HTTP are parameters. *)
From Stdlib Require Import ZArith Lia.
From stdpp Require Import base list gmap strings pretty numbers sorting.
From S2P Require Import Prelude GoText Errx.

Inductive PollerStatus : Type := PollerPending | PollerActive | PollerDisabled.
#[export] Instance PollerStatus_eq_dec : EqDecision PollerStatus.
Proof. solve_decision. Defined.
Definition poller_text (s : PollerStatus) : string := match s with PollerPending => "pending" | PollerActive => "active" | PollerDisabled => "disabled" end.

Record HeartbeatStats : Type := mkHeartbeatStats {
  PollsOK : Z; PollsFailed : Z; Batches : Z; BufferDepth : Z; BufferBytes : Z; Workers : Z
}.
(** A poller as its row has it, the hash of its token included. *)
Record Poller : Type := mkPoller {
  ID : string; TenantID : string; SiteID : string; Name : string; TokenHash : string; Status : PollerStatus; Version : string;
  LastHeartbeatAt : option Time; Stats : option HeartbeatStats; CreatedAt : Time
}.
#[export] Instance eta_Poller : Eta Poller := fun p =>
  mkPoller (ID p) (TenantID p) (SiteID p) (Name p) (TokenHash p) (Status p) (Version p) (LastHeartbeatAt p) (Stats p) (CreatedAt p).

Record SiteHealth : Type := mkSiteHealth { sh_Consumers : Z; sh_Queued : Z; sh_NoConsumerSince : option Time; sh_CheckedAt : Time }.
Record Event : Type := mkEvent { ev_Action : string; ev_Object : string; ev_Detail : gmap string string }.
Record DB : Type := mkDB { pollers : list Poller; sites : list string; site_health : gmap string SiteHealth; trail : list Event }.
#[export] Instance eta_DB : Eta DB := fun t => mkDB (pollers t) (sites t) (site_health t) (trail t).
Definition write (e : Event) (t : DB) : DB := t <| trail := trail t ++ [e] |>.

Definition errNoPoller : Err := New KindNotFound "poller not found".
Definition pgError (msg : string) : Err := ErrText msg.
Definition pollerOf (P : Poller -> Prop) `{forall p, Decision (P p)} (t : DB) : Poller + Err :=
  match head (filter P (pollers t)) with Some p => inl p | None => inr errNoPoller end.
Definition setPoller (id : string) (f : Poller -> Poller) (t : DB) : DB :=
  t <| pollers := map (fun p => if bool_decide (ID p = id) then f p else p) (pollers t) |>.
Definition exists_ (id : string) (t : DB) : bool := bool_decide (id ∈ map ID (pollers t)).

(** ** Statements *)

Definition enrollTTL : Duration := 15 * Minute.

Definition CreatePending (now : Time) (id site name hash : string) (t : DB) : option Err * DB :=
  if exists_ id t || negb (bool_decide (site ∈ sites t))
  then (Some (kindError KindTransient (ErrWrap "insert poller" (pgError "violates constraint"))), t)
  else (None, t <| pollers := pollers t ++ [mkPoller id "t_default" site name hash PollerPending "" None None now] |>).
Definition FindByEnrollHash (now : Time) (hash : string) (t : DB) : Poller + Err :=
  pollerOf (fun p => TokenHash p = hash /\ Status p = PollerPending /\ LastHeartbeatAt p = None /\ now - enrollTTL < CreatedAt p) t.
Definition BindAuthToken (id hash version : string) (t : DB) : option Err * DB :=
  if exists_ id t then (None, setPoller id (fun p => (p <| TokenHash := hash |>) <| Version := version |>) t) else (Some errNoPoller, t).
Definition AuthByToken (id hash : string) (t : DB) : Poller + Err :=
  pollerOf (fun p => ID p = id /\ TokenHash p = hash /\ Status p <> PollerDisabled) t.
Definition repoHeartbeat (id version : string) (stats : HeartbeatStats) (at_ : Time) (t : DB) : DB :=
  setPoller id (fun p => ((p <| LastHeartbeatAt := Some at_ |>) <| Version := if bool_decide (version = "") then Version p else version |>) <| Stats := Some stats |>) t.
Definition Get (id : string) (t : DB) : Poller + Err := pollerOf (fun p => ID p = id) t.
Definition List (by_name : list Poller -> list Poller) (t : DB) : list Poller := by_name (pollers t).
Definition SetStatus (id : string) (s : PollerStatus) (t : DB) : option Err * DB :=
  if exists_ id t then (None, setPoller id (fun p => p <| Status := s |>) t) else (Some errNoPoller, t).

(** Since when a site has had no consumer: kept through later observations of
    none, gone with the first of one. *)
Definition RecordSiteQueue (now : Time) (site : string) (consumers queued : Z) (t : DB) : option Err * DB :=
  if negb (bool_decide (site ∈ sites t)) then (Some (kindError KindTransient (ErrWrap "record site queue" (pgError "violates foreign key constraint"))), t) else
  let since := match site_health t !! site with
    | None => if consumers =? 0 then Some now else None
    | Some h => if 0 <? consumers then None else match sh_NoConsumerSince h with Some s => Some s | None => Some now end
    end in
  (None, t <| site_health := <[site := mkSiteHealth consumers queued since now]> (site_health t) |>).

(** ** The service *)

Section service.
(** [sha256] in hexadecimal; [rand.Read] of 24 bytes in base64, [None] when it
    fails *)
Context (hashOf : string -> string).

Definition newToken (prefix : string) (raw : option string) : (string * string) + Err :=
  match raw with Some r => let plain := prefix +:+ "_" +:+ r in inl (plain, hashOf plain) | None => inr (ErrText "no randomness") end.

Definition IssueEnrollToken (now : Time) (id name site : string) (raw : option string) (t : DB) : ((string * string) + Err) * DB :=
  if bool_decide (name = "") || bool_decide (site = "") then (inr (New KindInvalid "name and site_id are required"), t) else
  match newToken "pe" raw with
  | inr e => (inr e, t)
  | inl (plain, hash) =>
      match CreatePending now id site name hash t with
      | (Some e, t) => (inr e, t)
      | (None, t) => (inl (id, plain), write (mkEvent "poller.enroll_token.issue" id (<["name" := name]> {["site_id" := site]})) t)
      end
  end.

Record RegisterResult : Type := mkRegisterResult { rr_PollerID : string; rr_SiteID : string; rr_AuthToken : string; rr_Status : string }.

(** The two statements of a registration, between which others may run. *)
Definition registerFind (now : Time) (enrollToken : string) (t : DB) : Poller + Err :=
  match FindByEnrollHash now (hashOf enrollToken) t with inl p => inl p | inr _ => inr (New KindUnauthorized "invalid enrollment token") end.
Definition registerBind (p : Poller) (version : string) (raw : option string) (t : DB) : (RegisterResult + Err) * DB :=
  match newToken "pt" raw with
  | inr e => (inr e, t)
  | inl (plain, hash) =>
      match BindAuthToken (ID p) hash version t with
      | (Some e, t) => (inr e, t)
      | (None, t) =>
          (inl (mkRegisterResult (ID p) (SiteID p) plain (poller_text (Status p))),
           write (mkEvent "poller.register" (ID p) (<["version" := version]> {["site_id" := SiteID p]})) t)
      end
  end.
Definition Register (now : Time) (enrollToken version : string) (raw : option string) (t : DB) : (RegisterResult + Err) * DB :=
  match registerFind now enrollToken t with inr e => (inr e, t) | inl p => registerBind p version raw t end.

Definition Heartbeat (now : Time) (id token version : string) (stats : HeartbeatStats) (t : DB) : option Err * DB :=
  match AuthByToken id (hashOf token) t with
  | inr _ => (Some (New KindUnauthorized "invalid poller credentials"), t)
  | inl _ => (None, repoHeartbeat id version stats now t)
  end.

Definition withStatus (action id : string) (s : PollerStatus) (t : DB) : option Err * DB :=
  match SetStatus id s t with (Some e, t) => (Some e, t) | (None, t) => (None, write (mkEvent action id ∅) t) end.
Definition Approve (id : string) (t : DB) : option Err * DB := withStatus "poller.approve" id PollerActive t.
Definition Disable (id : string) (t : DB) : option Err * DB := withStatus "poller.disable" id PollerDisabled t.
End service.

(** ** The agent of a poller *)

Record Identity : Type := mkIdentity { id_PollerID : string; id_SiteID : string; id_AuthToken : string }.
(** The file its identity is kept in, and the tokens it has registered with. *)
Record AgentWorld : Type := mkAgentWorld { identityFile : option bytes; registered : list string }.
(** What the API answers, or that it cannot be reached. *)
Inductive response : Type := Unreachable | Answered (status : Z) (body : option RegisterResult).

Section agent.
Context (Marshal : Identity -> bytes) (Unmarshal : bytes -> option Identity).
(** the API, and whether the directory and the file can be written *)
Context (register : string -> string -> response) (writable : bool).

Definition saved (w : AgentWorld) : option Identity :=
  raw ← identityFile w; i ← Unmarshal raw; if bool_decide (id_PollerID i <> "") then Some i else None.

Definition Enroll (enrollToken version : string) (w : AgentWorld) : (Identity + Err) * AgentWorld :=
  match saved w with
  | Some i => (inl i, w)
  | None =>
      if bool_decide (enrollToken = "") then (inr (ErrText "agent: no saved identity and no NETINV_ENROLL_TOKEN"), w) else
      let w := mkAgentWorld (identityFile w) (registered w ++ [enrollToken]) in
      match register enrollToken version with
      | Unreachable => (inr (ErrWrap "agent: register" (ErrText "unreachable")), w)
      | Answered status body =>
          if negb (status =? 201) then (inr (ErrText ("agent: register status " +:+ Itoa status)), w) else
          match body with
          | None => (inr (ErrText "unexpected end of JSON input"), w)
          | Some res =>
              let i := mkIdentity (rr_PollerID res) (rr_SiteID res) (rr_AuthToken res) in
              if writable then (inl i, mkAgentWorld (Some (Marshal i)) (registered w)) else (inr (ErrText "cannot write identity"), w)
          end
      end
  end.
End agent.

(** * Properties *)

(** ** What a poller can show *)

(** A registration is two calls, its look-up and its write: [CBind k] goes on
    with the registration that looked up as the [k]th. *)
Inductive call : Type :=
  | CIssue (now : Time) (id name site : string) (raw : option string)
  | CLook (now : Time) (token : string)
  | CBind (k : nat) (version : string) (raw : option string)
  | CHeartbeat (now : Time) (id token version : string) (stats : HeartbeatStats)
  | CApprove (id : string) | CDisable (id : string)
  | CQueue (now : Time) (site : string) (consumers queued : Z).

Section properties.
Context (hashOf : string -> string) {hash_inj : Inj (=) (=) hashOf}.

(** The tables, and of each registration the poller its look-up found, until it
    has written. *)
Record Desk : Type := mkDesk { tables : DB; looked : list (option Poller) }.

(** A call, with the token it gave out and for which poller. *)
Definition serve (c : call) (d : Desk) : option (string * string) * Desk :=
  let t := tables d in let l := looked d in
  match c with
  | CIssue now id name site raw => match IssueEnrollToken hashOf now id name site raw t with (inl g, t) => (Some g, mkDesk t l) | (inr _, t) => (None, mkDesk t l) end
  | CLook now token => (None, mkDesk t (l ++ [match registerFind hashOf now token t with inl p => Some p | inr _ => None end]))
  | CBind k version raw =>
      match l !! k with
      | Some (Some p) =>
          match registerBind hashOf p version raw t with
          | (inl r, t) => (Some (rr_PollerID r, rr_AuthToken r), mkDesk t (<[k := None]> l))
          | (inr _, t) => (None, mkDesk t (<[k := None]> l))
          end
      | _ => (None, d)
      end
  | CHeartbeat now id token version stats => (None, mkDesk (Heartbeat hashOf now id token version stats t).2 l)
  | CApprove id => (None, mkDesk (Approve id t).2 l)
  | CDisable id => (None, mkDesk (Disable id t).2 l)
  | CQueue now site consumers queued => (None, mkDesk (RecordSiteQueue now site consumers queued t).2 l)
  end.
Fixpoint runs (l : list call) (d : Desk) : list (string * string) * Desk :=
  match l with
  | [] => ([], d)
  | c :: l => let (g, d) := serve c d in let (gs, d) := runs l d in (from_option (fun g => [g]) [] g ++ gs, d)
  end.
(** The last token given out for a poller. *)
Definition lastGiven (id : string) (given : list (string * string)) : option string := snd <$> last (filter (fun g => g.1 = id) given).

(** A row of each poller, with the hash of the last token given for it. *)
Definition tokens_ok (given : list (string * string)) (t : DB) : Prop :=
  NoDup (map ID (pollers t)) /\
  forall id, id ∈ map ID (pollers t) \/ is_Some (lastGiven id given) ->
    exists p, p ∈ pollers t /\ ID p = id /\ exists token, lastGiven id given = Some token /\ TokenHash p = hashOf token.

Lemma lastGiven_snoc id given g : lastGiven id (given ++ [g]) = if bool_decide (g.1 = id) then Some g.2 else lastGiven id given.
Proof.
  unfold lastGiven. rewrite filter_app, filter_cons. case_bool_decide; case_decide; try done.
  - by rewrite filter_nil, last_snoc.
  - by rewrite filter_nil, app_nil_r.
Qed.

Lemma lastGiven_in id given token : lastGiven id given = Some token -> (id, token) ∈ given.
Proof.
  unfold lastGiven. intros (g & E & ->)%fmap_Some. apply last_Some_elem_of, list_elem_of_filter in E as [<- ?]. by destruct g.
Qed.
Lemma given_last id token given : (id, token) ∈ given -> is_Some (lastGiven id given).
Proof.
  intros Hin. unfold lastGiven. apply fmap_is_Some. rewrite last_is_Some. intros E.
  assert ((id, token) ∈ filter (fun g => g.1 = id) given) as H by (by apply list_elem_of_filter). rewrite E in H. by apply elem_of_nil in H.
Qed.

Lemma pollerOf_inl (P : Poller -> Prop) `{forall p, Decision (P p)} t p : pollerOf P t = inl p -> p ∈ pollers t /\ P p.
Proof.
  unfold pollerOf. destruct (head (filter P (pollers t))) as [q|] eqn:E; [|done]. intros [= ->].
  apply head_Some_elem_of, list_elem_of_filter in E. tauto.
Qed.
Lemma pollerOf_some (P : Poller -> Prop) `{forall p, Decision (P p)} t p : p ∈ pollers t -> P p -> exists q, pollerOf P t = inl q.
Proof.
  intros Hin HP. unfold pollerOf. assert (p ∈ filter P (pollers t)) as H2 by (by apply list_elem_of_filter).
  destruct (filter P (pollers t)); [by apply elem_of_nil in H2|by eexists].
Qed.

Lemma unique_id t p q : NoDup (map ID (pollers t)) -> p ∈ pollers t -> q ∈ pollers t -> ID p = ID q -> p = q.
Proof.
  intros Hnd [i Hi]%list_elem_of_lookup [j Hj]%list_elem_of_lookup E.
  assert (i = j) as ->; [|congruence]. eapply NoDup_lookup; [exact Hnd| |]; rewrite list_lookup_fmap; [by rewrite Hi|rewrite Hj; cbn; by rewrite E].
Qed.

(** Changing a row other than in its identifier. *)
Lemma setPoller_ids id f t : (forall p, ID (f p) = ID p) -> map ID (pollers (setPoller id f t)) = map ID (pollers t).
Proof. intros Hf. cbn. rewrite map_map. apply map_ext. intros p. destruct (bool_decide _); [apply Hf|done]. Qed.

Lemma setPoller_keeps given id f t : (forall p, ID (f p) = ID p /\ TokenHash (f p) = TokenHash p) -> tokens_ok given t -> tokens_ok given (setPoller id f t).
Proof.
  intros Hf [Hnd Hw]. unfold tokens_ok. rewrite setPoller_ids by apply Hf. split; [done|]. intros x Hx.
  destruct (Hw x Hx) as (p & Hp & <- & token & Hl & Ht).
  exists (if bool_decide (ID p = id) then f p else p). split_and!.
  - cbn. apply list_elem_of_fmap. by exists p.
  - destruct (bool_decide _); [apply Hf|done].
  - exists token. split; [done|]. destruct (bool_decide _); [destruct (Hf p) as [_ ->]|]; done.
Qed.

Lemma setPoller_given given id token f t : (forall p, ID (f p) = ID p /\ TokenHash (f p) = hashOf token) -> id ∈ map ID (pollers t) ->
  tokens_ok given t -> tokens_ok (given ++ [(id, token)]) (setPoller id f t).
Proof.
  intros Hf Hid [Hnd Hw]. unfold tokens_ok. rewrite setPoller_ids by apply Hf. split; [done|]. intros x. rewrite lastGiven_snoc. cbn [fst snd]. intros Hx.
  assert (exists p, p ∈ pollers t /\ ID p = x /\ exists token, lastGiven x given = Some token /\ TokenHash p = hashOf token) as (p & Hp & <- & tk & Hl & Ht).
  { apply Hw. destruct Hx as [?|Hx]; [by left|]. case_bool_decide; [subst; by left|by right]. }
  exists (if bool_decide (ID p = id) then f p else p). split_and!.
  - cbn. apply list_elem_of_fmap. by exists p.
  - destruct (bool_decide (ID p = id)); [apply Hf|done].
  - clear Hx. rewrite (bool_decide_ext (id = ID p) (ID p = id)) by done. case_bool_decide; [exists token; split; [done|apply Hf]|by exists tk].
Qed.

Lemma audit_keeps given e t : tokens_ok given t -> tokens_ok given (write e t).
Proof. done. Qed.

Lemma newToken_hash prefix raw plain hash : newToken hashOf prefix raw = inl (plain, hash) -> hash = hashOf plain.
Proof. unfold newToken. destruct raw; [|done]. by intros [= <- <-]. Qed.

Lemma registerBind_given p version raw t r t2 : registerBind hashOf p version raw t = (inl r, t2) ->
  ID p ∈ map ID (pollers t) /\ rr_PollerID r = ID p /\
  t2 = write (mkEvent "poller.register" (ID p) (<["version" := version]> {["site_id" := SiteID p]}))
    (setPoller (ID p) (fun q => (q <| TokenHash := hashOf (rr_AuthToken r) |>) <| Version := version |>) t).
Proof.
  unfold registerBind. destruct (newToken hashOf "pt" raw) as [[plain hash]|] eqn:E; [|done]. apply newToken_hash in E as ->.
  unfold BindAuthToken, exists_. destruct (bool_decide (ID p ∈ _)) eqn:Ei; [|done]. apply bool_decide_eq_true in Ei. by intros [= <- <-].
Qed.
Lemma registerBind_refused p version raw t e t2 : registerBind hashOf p version raw t = (inr e, t2) -> t2 = t.
Proof. unfold registerBind, newToken, BindAuthToken. destruct raw; [|by intros [= _ <-]]. destruct (exists_ _ _); [done|by intros [= _ <-]]. Qed.

Lemma serve_keeps given c d : tokens_ok given (tables d) -> tokens_ok (given ++ from_option (fun g => [g]) [] (serve c d).1) (tables (serve c d).2).
Proof.
  intros Hok. destruct d as [t l]. cbn [tables] in Hok.
  destruct c as [now id name site raw|now token|k version raw|now id token version stats|id|id|now site consumers queued]; cbn [serve tables looked].
  - unfold IssueEnrollToken. destruct (_ || _); [by rewrite app_nil_r|]. destruct (newToken hashOf "pe" raw) as [[plain hash]|] eqn:E; [|by rewrite app_nil_r].
    apply newToken_hash in E as ->. unfold CreatePending, exists_. destruct (bool_decide (id ∈ _)) eqn:Ei; [by rewrite app_nil_r|].
    apply bool_decide_eq_false in Ei. cbn [orb]. destruct (negb _); [by rewrite app_nil_r|]. cbn. apply audit_keeps. destruct Hok as [Hnd Hw].
    unfold tokens_ok. cbn. rewrite map_app. split.
    + apply NoDup_app. split_and!; [done|by intros x Hx ->%list_elem_of_singleton|apply NoDup_singleton].
    + intros x. rewrite lastGiven_snoc. cbn [fst snd]. intros Hx. case_bool_decide as Ex.
      * subst x. eexists. split; [apply elem_of_app; right; by apply list_elem_of_singleton|]. split; [done|]. by exists plain.
      * destruct (Hw x) as (p & Hp & Ep & ?); [|exists p; rewrite elem_of_app; auto].
        destruct Hx as [[?|?%list_elem_of_singleton]%elem_of_app|?]; [by left|by subst|by right].
  - by rewrite app_nil_r.
  - destruct (l !! k) as [[p|]|]; try (by rewrite app_nil_r). destruct (registerBind hashOf p version raw t) as [[r|e] t2] eqn:E.
    + apply registerBind_given in E as (Hin & Er & ->). cbn [from_option fst snd tables]. rewrite Er. by apply audit_keeps, setPoller_given.
    + apply registerBind_refused in E as ->. by rewrite app_nil_r.
  - cbn [from_option]. rewrite app_nil_r. unfold Heartbeat. destruct (AuthByToken _ _ _); [|done]. cbn [snd]. by apply setPoller_keeps.
  - cbn [from_option]. rewrite app_nil_r. unfold Approve, withStatus, SetStatus. destruct (exists_ _ _); [|done]. cbn. apply audit_keeps. by apply setPoller_keeps.
  - cbn [from_option]. rewrite app_nil_r. unfold Disable, withStatus, SetStatus. destruct (exists_ _ _); [|done]. cbn. apply audit_keeps. by apply setPoller_keeps.
  - cbn [from_option]. rewrite app_nil_r. unfold RecordSiteQueue. destruct (negb _); done.
Qed.

Lemma runs_keeps l d given : tokens_ok given (tables d) -> tokens_ok (given ++ (runs l d).1) (tables (runs l d).2).
Proof.
  revert d given. induction l as [|c l IH]; intros d given Hok; cbn [runs]; [by rewrite app_nil_r|].
  apply (serve_keeps _ c) in Hok. destruct (serve c d) as [g d1]. cbn [fst snd] in Hok. apply IH in Hok. destruct (runs l d1) as [gs d2]. cbn [fst snd] in *. by rewrite app_assoc.
Qed.

Lemma runs_app l1 l2 d : runs (l1 ++ l2) d = ((runs l1 d).1 ++ (runs l2 (runs l1 d).2).1, (runs l2 (runs l1 d).2).2).
Proof.
  revert d. induction l1 as [|c l1 IH]; intros d; cbn [runs app fst snd]; [by destruct (runs l2 d)|].
  destruct (serve c d) as [g d1]. rewrite IH. destruct (runs l1 d1) as [gs d2]. cbn [fst snd]. by rewrite app_assoc.
Qed.

(** What a look-up found stays until it is used. *)
Lemma serve_looked c d k x : looked d !! k = Some x -> looked (serve c d).2 !! k = Some x \/ looked (serve c d).2 !! k = Some None.
Proof.
  intros E. destruct d as [t l]. cbn [looked] in E. destruct c as [now id name site raw|now token|j version raw| | | |]; cbn [serve tables looked]; try (by left).
  - destruct (IssueEnrollToken _ _ _ _ _ _ _) as [[]]; by left.
  - left. cbn. by apply lookup_app_l_Some.
  - destruct (l !! j) as [[p|]|] eqn:Ej; try (by left). assert (forall t2, looked (mkDesk t2 (<[j:=None]> l)) !! k = Some x \/ looked (mkDesk t2 (<[j:=None]> l)) !! k = Some None) as H.
    { intros t2. cbn. destruct (decide (j = k)) as [->|Hne]; [right; apply list_lookup_insert_eq; by eapply lookup_lt_Some|left; by rewrite list_lookup_insert_ne]. }
    destruct (registerBind _ _ _ _ _) as [[]]; apply H.
Qed.
Lemma runs_looked l k p : forall d x, looked d !! k = Some x -> looked (runs l d).2 !! k = Some (Some p) -> x = Some p.
Proof.
  induction l as [|c l IH]; intros d x E; cbn [runs]; [cbn; intros H; congruence|].
  pose proof (serve_looked c d k x E) as Hc. destruct (serve c d) as [g d1]. cbn [snd] in Hc. specialize (IH d1). destruct (runs l d1) as [gs d2] eqn:El. cbn [snd] in *.
  intros H. destruct Hc as [Hc|Hc]; [by eapply IH|]. by specialize (IH _ Hc H).
Qed.

(** A heartbeat is taken just when it shows the last token that was given out
    for its poller, and the poller is not disabled. *)
Lemma heartbeat_taken given t now id token version stats : tokens_ok given t ->
  (Heartbeat hashOf now id token version stats t).1 = None <->
  lastGiven id given = Some token /\ exists p, p ∈ pollers t /\ ID p = id /\ Status p <> PollerDisabled.
Proof using hash_inj.
  intros [Hnd Hw]. unfold Heartbeat, AuthByToken. split.
  - destruct (pollerOf _ t) as [p|] eqn:Ep; [|done]. intros _. apply pollerOf_inl in Ep as (Hp & <- & Ht & Hs).
    destruct (Hw (ID p)) as (q & Hq & Eq & tk & Hl & Hqt); [left; by apply list_elem_of_fmap_2|].
    apply (unique_id t) in Eq as ->; [|done..]. rewrite Ht in Hqt. apply (inj hashOf) in Hqt as ->. split; [done|by exists p].
  - intros (Hl & p & Hp & <- & Hs). destruct (Hw (ID p)) as (q & Hq & Eq & tk & Hl2 & Hqt); [left; by apply list_elem_of_fmap_2|].
    apply (unique_id t) in Eq as ->; [|done..]. assert (tk = token) as -> by congruence.
    destruct (pollerOf_some (fun p' => ID p' = ID p /\ TokenHash p' = hashOf token /\ Status p' <> PollerDisabled) t p) as [r ->]; done.
Qed.

(** A registration is taken just when it shows the last token given out for a
    poller that waits, was never heard of and was made in the last quarter of
    an hour. *)
Lemma register_taken given t now token version raw : tokens_ok given t ->
  is_Some raw -> (exists r, (Register hashOf now token version raw t).1 = inl r) <->
  exists p, p ∈ pollers t /\ lastGiven (ID p) given = Some token /\ Status p = PollerPending /\ LastHeartbeatAt p = None /\ now - enrollTTL < CreatedAt p.
Proof using hash_inj.
  intros [Hnd Hw] [r Hr]. subst raw. unfold Register, registerFind, FindByEnrollHash. split.
  - destruct (pollerOf _ t) as [p|] eqn:Ep; [|by intros []]. intros _. apply pollerOf_inl in Ep as (Hp & Ht & Hs & Hl & Hc). exists p.
    destruct (Hw (ID p)) as (q & Hq & Eq & tk & Hlg & Hqt); [left; by apply list_elem_of_fmap_2|].
    apply (unique_id t) in Eq as ->; [|done..]. rewrite Ht in Hqt. by apply (inj hashOf) in Hqt as ->.
  - intros (p & Hp & Hl & Hs & Hh & Hc). destruct (Hw (ID p)) as (q & Hq & Eq & tk & Hl2 & Hqt); [left; by apply list_elem_of_fmap_2|].
    apply (unique_id t) in Eq as ->; [|done..]. assert (tk = token) as -> by congruence.
    edestruct (pollerOf_some (fun p => TokenHash p = hashOf token /\ Status p = PollerPending /\ LastHeartbeatAt p = None /\ now - enrollTTL < CreatedAt p) t p) as [x Hx]; [done|done|].
    rewrite Hx. apply pollerOf_inl in Hx as [Hx _]. unfold registerBind, newToken, BindAuthToken, exists_.
    rewrite bool_decide_eq_true_2 by (by apply list_elem_of_fmap_2). by eexists.
Qed.
End properties.

(** ** Since when a site has had no consumer *)

(** An observation of the queue of a site. *)
Record observation : Type := mkObservation { ob_now : Time; ob_consumers : Z; ob_queued : Z }.
Definition observe (site : string) (t : DB) (o : observation) : DB := (RecordSiteQueue (ob_now o) site (ob_consumers o) (ob_queued o) t).2.
(** The first of the observations of none that follow the last of some, the
    latest observation coming first. *)
Fixpoint noneSince (l : list observation) : option Time :=
  match l with
  | [] => None
  | o :: l => if ob_consumers o =? 0 then Some (default (ob_now o) (noneSince l)) else None
  end.

Lemma lastGiven_app id a b token : lastGiven id (a ++ b) = Some token -> (id, token) ∈ b \/ (id ∉ map fst b /\ (id, token) ∈ a).
Proof.
  induction b as [|g b IH] using rev_ind.
  - rewrite app_nil_r. intros E%lastGiven_in. right. split; [apply not_elem_of_nil|done].
  - rewrite app_assoc, lastGiven_snoc. case_bool_decide as E.
    + intros [= <-]. left. apply elem_of_app. right. rewrite <- E. apply list_elem_of_singleton. by destruct g.
    + intros [?|[Hn ?]]%IH; [left; apply elem_of_app; by left|]. right. split; [|done]. rewrite map_app, elem_of_app. cbn.
      intros [?|?%list_elem_of_singleton]; congruence.
Qed.

Lemma registerFind_inl hashOf now token t p : registerFind hashOf now token t = inl p -> p ∈ pollers t /\ TokenHash p = hashOf token.
Proof. unfold registerFind, FindByEnrollHash. destruct (pollerOf _ t) as [q|] eqn:Ep; [|done]. intros [= ->]. by apply pollerOf_inl in Ep as (Hp & Ht & _). Qed.

Lemma tokens_ok_empty hashOf t : pollers t = [] -> tokens_ok hashOf [] t.
Proof. intros E. unfold tokens_ok. rewrite E. split; [apply NoDup_nil_2|]. intros id [H|[? H]]; [by apply elem_of_nil in H|done]. Qed.

(** C31. The look-up and the write of a registration fall as they like among
    everything else that is asked. Once a registration with an enrolment token
    has written, the token is good for nothing: a registration that looks it up
    from then on is refused, and so is a heartbeat, as long as no token is drawn
    twice. And a heartbeat is taken just when it shows the last token given out
    for its poller and the poller is not disabled. (Two registrations that both
    look up before either writes both succeed: that is [registered_twice].) *)
Theorem enrol_once (hashOf : string -> string) {hash_inj : Inj (=) (=) hashOf} l1 now token l2 version raw l3 t0 :
  pollers t0 = [] ->
  let before := runs hashOf (l1 ++ CLook now token :: l2) (mkDesk t0 []) in
  let k := length (looked (runs hashOf l1 (mkDesk t0 [])).2) in
  let all := runs hashOf ((l1 ++ CLook now token :: l2) ++ CBind k version raw :: l3) (mkDesk t0 []) in
  NoDup (map snd all.1) ->
  is_Some (serve hashOf (CBind k version raw) before.2).1 ->
  (forall now version raw, Register hashOf now token version raw (tables all.2) = (inr (New KindUnauthorized "invalid enrollment token"), tables all.2)) /\
  (forall now id version stats, Heartbeat hashOf now id token version stats (tables all.2) = (Some (New KindUnauthorized "invalid poller credentials"), tables all.2)) /\
  (forall now id shown version stats, (Heartbeat hashOf now id shown version stats (tables all.2)).1 = None <->
    lastGiven id all.1 = Some shown /\ exists p, p ∈ pollers (tables all.2) /\ ID p = id /\ Status p <> PollerDisabled).
Proof.
  intros Ht0 before k all Hnd Hs. pose proof (runs_keeps hashOf l1 (mkDesk t0 []) [] (tokens_ok_empty _ _ Ht0)) as Hok1. cbn [app] in Hok1.
  pose proof (runs_keeps hashOf ((l1 ++ CLook now token :: l2) ++ CBind k version raw :: l3) (mkDesk t0 []) [] (tokens_ok_empty _ _ Ht0)) as Hok. cbn [app] in Hok. fold all in Hok.
  assert (exists p r, (ID p, token) ∈ before.1 /\ (serve hashOf (CBind k version raw) before.2).1 = Some (ID p, r)) as (p & r & Hin & Hr).
  { unfold before in *. clear Hok. rewrite runs_app in *. cbn [fst snd runs] in *. set (d1 := (runs hashOf l1 (mkDesk t0 [])).2) in *. set (g1 := (runs hashOf l1 (mkDesk t0 [])).1) in *.
    set (x := match registerFind hashOf now token (tables d1) with inl p => Some p | inr _ => None end). set (d2 := mkDesk (tables d1) (looked d1 ++ [x])).
    change (serve hashOf (CLook now token) d1) with (None : option (string * string), d2) in *. cbn [from_option app] in *.
    pose proof (runs_looked hashOf l2 k) as Hk. specialize (fun p => Hk p d2 x). destruct (runs hashOf l2 d2) as [g2 d3] eqn:E2. cbn [fst snd] in *.
    cbn [serve] in Hs |- *. destruct (looked d3 !! k) as [[p|]|] eqn:Ek; try (by destruct Hs).
    assert (x = Some p) as Ex by (apply Hk; [cbn; unfold k; by apply list_lookup_middle|done]).
    unfold x in Ex. destruct (registerFind hashOf now token (tables d1)) as [q|] eqn:Ef; [|done]. injection Ex as ->. apply registerFind_inl in Ef as [Hp Hh].
    destruct (registerBind hashOf p version raw (tables d3)) as [[r|e] t4] eqn:Eb; [|by destruct Hs]. apply registerBind_given in Eb as (_ & Er & _).
    exists p, (rr_AuthToken r). split; [|by cbn; rewrite Er]. destruct Hok1 as [Hnd1 Hw1].
    destruct (Hw1 (ID p)) as (q & Hq & Eq & tk & Hl & Hqt); [left; by apply list_elem_of_fmap_2|].
    apply (unique_id (tables d1)) in Eq as ->; [|done..]. rewrite Hh in Hqt. apply (inj hashOf) in Hqt as <-. apply lastGiven_in in Hl. apply elem_of_app. by left. }
  assert (forall id, lastGiven id all.1 <> Some token) as Hspent.
  { intros id E. unfold all in E, Hnd. rewrite runs_app in E, Hnd. fold before in E, Hnd. cbn [fst runs] in E, Hnd. destruct before as [g1 d1]. cbn [fst snd] in *.
    destruct (serve hashOf (CBind k version raw) d1) as [g d2]. cbn [fst] in Hr. subst g. destruct (runs hashOf l3 d2) as [g2 d3]. cbn [fst snd from_option] in *.
    rewrite map_app in Hnd. apply NoDup_app in Hnd as (Hn1 & Hdis & Hn2). apply lastGiven_app in E as [E|[Hni E]].
    - apply (Hdis token); [by apply (list_elem_of_fmap_2 snd) in Hin|by apply (list_elem_of_fmap_2 snd) in E].
    - assert (id = ID p) as ->; [|apply Hni; by left].
      apply list_elem_of_lookup in Hin as [i Hi]. apply list_elem_of_lookup in E as [j Hj].
      assert (i = j) as ->; [|congruence]. eapply NoDup_lookup; [exact Hn1| |]; rewrite list_lookup_fmap; [by rewrite Hi|by rewrite Hj]. }
  split_and!.
  - intros now' version' raw'. unfold Register, registerFind, FindByEnrollHash. destruct (pollerOf _ _) as [q|] eqn:Ep; [|done]. exfalso.
    apply pollerOf_inl in Ep as (Hp & Hh & _). destruct Hok as [Hn Hw]. destruct (Hw (ID q)) as (q' & Hq & Eq & tk & Hl & Hqt); [left; by apply list_elem_of_fmap_2|].
    apply (unique_id (tables all.2)) in Eq as ->; [|done..]. rewrite Hh in Hqt. apply (inj hashOf) in Hqt as <-. by apply Hspent in Hl.
  - intros now' id version' stats. assert ((Heartbeat hashOf now' id token version' stats (tables all.2)).1 <> None) as H
      by (rewrite (heartbeat_taken hashOf all.1) by done; intros [E _]; by apply Hspent in E).
    unfold Heartbeat in *. by destruct (AuthByToken _ _ _).
  - intros. by apply heartbeat_taken.
Qed.

Definition noTable : DB := mkDB [] ["site_a"] ∅ [].
Definition issued : list call := [CIssue 0 "plr_1" "north" "site_a" (Some "aa")].
Definition aPoller : DB := tables (runs (fun s => s) issued (mkDesk noTable [])).2.
(** Somebody else looks it up too, and is approved, before the first writes. *)
Definition enrolled : DB := tables (runs (fun s => s) ((issued ++ CLook 1 "pe_aa" :: [CLook 2 "pe_aa"]) ++ CBind 0 "1.0" (Some "cc") :: [CApprove "plr_1"]) (mkDesk noTable [])).2.

Lemma enrol_once_witness : Register (fun s => s) 5 "pe_aa" "1.0" (Some "bb") enrolled = (inr (New KindUnauthorized "invalid enrollment token"), enrolled).
Proof.
  apply (enrol_once (fun s => s) (hash_inj := fun x y E => E) issued 1 "pe_aa" [CLook 2 "pe_aa"] "1.0" (Some "cc") [CApprove "plr_1"] noTable).
  - reflexivity.
  - vm_compute. repeat constructor; set_solver.
  - vm_compute. by eexists.
Defined.

(** Two registrations that both look before either writes both succeed, the
    first with a token that is good for nothing. *)
Lemma registered_twice : exists p a ta b tb,
  registerFind (fun s => s) 1 "pe_aa" aPoller = inl p /\ registerBind (fun s => s) p "1.0" (Some "bb") aPoller = (inl a, ta) /\
  registerBind (fun s => s) p "1.0" (Some "cc") ta = (inl b, tb) /\
  (Heartbeat (fun s => s) 2 "plr_1" (rr_AuthToken a) "" (mkHeartbeatStats 0 0 0 0 0 0) tb).1 <> None.
Proof. do 5 eexists. split_and!; [reflexivity|reflexivity|reflexivity|vm_compute; done]. Qed.

(** The enrolment token is good for heartbeats as well, long after its
    quarter of an hour. *)
Lemma enrolment_beats : (Heartbeat (fun s => s) (1000 * enrollTTL) "plr_1" "pe_aa" "" (mkHeartbeatStats 0 0 0 0 0 0) aPoller).1 = None.
Proof. reflexivity. Qed.

(** A poller approved before it registered never can. *)
Lemma approved_early : (Register (fun s => s) 1 "pe_aa" "1.0" (Some "bb") (Approve "plr_1" aPoller).2).1 = inr (New KindUnauthorized "invalid enrollment token").
Proof. reflexivity. Qed.

(** ** Since when a site has had no consumer *)

(** What is kept of a site is the latest observation, and as the moment
    since when it has no consumer the first of the observations of none that
    follow the last of some. *)
Theorem since_exact site o l t : site ∈ sites t -> site_health t !! site = None -> Forall (fun o => 0 <= ob_consumers o) (o :: l) ->
  site_health (foldr (fun o t => observe site t o) t (o :: l)) !! site = Some (mkSiteHealth (ob_consumers o) (ob_queued o) (noneSince (o :: l)) (ob_now o)).
Proof.
  intros Hs Hn Hf. assert (forall l, sites (foldr (fun o t => observe site t o) t l) = sites t) as Hsites.
  { intros k. induction k as [|x k IH]; [done|]. cbn [foldr]. unfold observe, RecordSiteQueue. destruct (negb _); [done|]. by cbn. }
  revert o Hf. induction l as [|o2 l IH]; intros o [Ho Hf]%Forall_cons; cbn [foldr]; unfold observe at 1, RecordSiteQueue.
  - rewrite (bool_decide_eq_true_2 (site ∈ sites t)), Hn by done. cbn [negb snd]. cbn. rewrite lookup_insert_eq. cbn [noneSince].
    by destruct (ob_consumers o =? 0).
  - rewrite (bool_decide_eq_true_2 (site ∈ _)) by (rewrite <- (Hsites (o2 :: l)) in Hs; exact Hs). cbn [negb snd].
    specialize (IH o2 Hf). cbn [foldr] in IH. rewrite IH. cbn [sh_NoConsumerSince site_health set]. rewrite lookup_insert_eq. do 2 f_equal.
    cbn [noneSince]. destruct (ob_consumers o =? 0) eqn:E.
    + assert ((0 <? ob_consumers o) = false) as -> by lia. by destruct (ob_consumers o2 =? 0).
    + by assert ((0 <? ob_consumers o) = true) as -> by lia.
Qed.

Lemma since_exact_witness : site_health (foldr (fun o t => observe "site_a" t o) noTable [mkObservation 30 0 4; mkObservation 20 0 2; mkObservation 10 1 0]) !! "site_a"
  = Some (mkSiteHealth 0 4 (Some 20) 30).
Proof. apply (since_exact "site_a" (mkObservation 30 0 4) [mkObservation 20 0 2; mkObservation 10 1 0] noTable); [by left|done|repeat constructor; done]. Defined.

(** ** The agent *)

(** An agent that has registered once stays who it is: started again,
    whatever it is given and whatever the API says, it asks for nothing and
    is the same. *)
Theorem enrolled_once Marshal Unmarshal register writable token version w i w2 :
  (forall i, Unmarshal (Marshal i) = Some i) ->
  Enroll Marshal Unmarshal register writable token version w = (inl i, w2) -> id_PollerID i <> "" ->
  forall register' writable' token' version', Enroll Marshal Unmarshal register' writable' token' version' w2 = (inl i, w2).
Proof.
  intros HM He Hid register' writable' token' version'. assert (saved Unmarshal w2 = Some i) as Hsv; [|unfold Enroll; by rewrite Hsv].
  unfold Enroll in He. destruct (saved Unmarshal w) as [j|] eqn:Es; [by injection He as -> ->|].
  destruct (bool_decide (token = "")); [done|]. destruct (register token version) as [|status body]; [done|]. destruct (negb _); [done|].
  destruct body as [res|]; [|done]. destruct writable; [|done]. injection He as <- <-. unfold saved. cbn. rewrite HM. cbn. by rewrite bool_decide_eq_true_2.
Qed.
