(* ===== verification/Rules.v ===== *)
(** Packages alerting/app (rules.go), alerting/adapters/httpapi (alerts.go)
    and what it asks of alerting/adapters/postgres (store.go): the rules an
    operator writes, the acknowledgement of alerts, their list, and silences.

    A handler is a function of the tables; what it answers is the value it
    renders. A JSON document that is only stored is its text. *)
From Stdlib Require Import ZArith Lia.
From stdpp Require Import base list gmap strings numbers sorting.
From S2P Require Import Prelude GoText Errx Alerts.

(** A row of [alerting.alert_rules]. *)
Record RuleRow : Type := mkRuleRow {
  rl_ID : string; rl_Name : string; rl_Kind : string; rl_Severity : string; rl_Expr : option string;
  rl_Condition : string; rl_Annotations : string; rl_Enabled : bool; rl_Builtin : bool
}.
#[export] Instance eta_RuleRow : Eta RuleRow := fun r =>
  mkRuleRow (rl_ID r) (rl_Name r) (rl_Kind r) (rl_Severity r) (rl_Expr r) (rl_Condition r) (rl_Annotations r) (rl_Enabled r) (rl_Builtin r).
Record Silence : Type := mkSilence {
  si_ID : string; si_Scope : labels; si_Reason : string; si_Starts : Time; si_Ends : Time; si_By : string; si_Revoked : option Time
}.
#[export] Instance eta_Silence : Eta Silence := fun s =>
  mkSilence (si_ID s) (si_Scope s) (si_Reason s) (si_Starts s) (si_Ends s) (si_By s) (si_Revoked s).
(** A row of [alert_events]; the comment of an acknowledgement is its detail. *)
Record AlertEvent : Type := mkAlertEvent { ae_Alert : string; ae_Event : string; ae_Actor : string; ae_Comment : option string }.
(** What the audit is told of a rule: its name, severity, expression and
    whether it is enabled, or how many alerts fire. *)
Record RuleSaid : Type := mkRuleSaid {
  sd_Name : option string; sd_Severity : option string; sd_Expr : option string; sd_Enabled : option bool; sd_Firing : option Z
}.
Record AuditEvent : Type := mkAuditEvent { au_Action : string; au_ID : string; au_Before : option RuleSaid; au_After : option RuleSaid }.
Record DB : Type := mkDB { rules : list RuleRow; instances : Table; events : list AlertEvent; silences : list Silence; trail : list AuditEvent }.
#[export] Instance eta_DB : Eta DB := fun t => mkDB (rules t) (instances t) (events t) (silences t) (trail t).

(** ** Input *)

Record RuleInput : Type := mkRuleInput {
  in_Name : string; in_Kind : string; in_Severity : string; in_Expr : string;
  in_Condition : option string; in_Annotations : option string; in_Enabled : option bool
}.
#[export] Instance eta_RuleInput : Eta RuleInput := fun i =>
  mkRuleInput (in_Name i) (in_Kind i) (in_Severity i) (in_Expr i) (in_Condition i) (in_Annotations i) (in_Enabled i).
Definition ruleKinds : list string := ["threshold"; "state"; "inventory"].
Definition ruleSeverities : list string := ["critical"; "warning"; "info"].
Definition invalid (msg : string) : Err := New KindInvalid msg.

Definition queryError (msg : string) : string :=
  let msg := TrimSpace msg in if 300 <? slen msg then of_bytes (take 300 (to_bytes msg)) +:+ "…" else msg.

(** [backend] tells whether it takes an expression, [Some] error when not;
    there may be none to ask. What is answered is the input as it has become. *)
Definition Validate (backend : option (string -> option string)) (creating : bool) (i : RuleInput) : RuleInput + Err :=
  let i := (i <| in_Name := TrimSpace (in_Name i) |>) <| in_Expr := TrimSpace (in_Expr i) |> in
  let named := creating || negb (bool_decide (in_Name i = "")) in
  if named && bool_decide (in_Name i = "") then inr (invalid "name is required")
  else if named && (120 <? slen (in_Name i)) then inr (invalid "name must be 120 characters or fewer")
  else if negb (bool_decide (in_Kind i = "")) && negb (bool_decide (in_Kind i ∈ ruleKinds)) then inr (invalid "kind must be one of threshold, state, inventory")
  else if negb (bool_decide (in_Severity i = "")) && negb (bool_decide (in_Severity i ∈ ruleSeverities)) then inr (invalid "severity must be one of critical, warning, info")
  else
    let i := if creating then (i <| in_Kind := if bool_decide (in_Kind i = "") then "threshold" else in_Kind i |>)
                                 <| in_Severity := if bool_decide (in_Severity i = "") then "warning" else in_Severity i |> else i in
    if creating && bool_decide (in_Kind i = "threshold") && bool_decide (in_Expr i = "") then inr (invalid "a threshold rule needs an expression to evaluate")
    else match backend, in_Expr i with
         | Some query, String _ _ => match query (in_Expr i) with
                                     | Some e => inr (invalid ("the metrics backend rejected this expression: " +:+ queryError e))
                                     | None => inl i
                                     end
         | _, _ => inl i
         end.

(** ** Rules *)

Record RuleSummary : Type := mkRuleSummary { rs_Rule : RuleRow; rs_Expr : string; rs_Firing : Z }.
Definition summary (t : DB) (r : RuleRow) : RuleSummary :=
  mkRuleSummary r (default "" (rl_Expr r)) (len (filter (fun i => RuleID i = rl_ID r /\ isLive i) (instances t))).
(** [ORDER BY r.name], as the database sorts. *)
Definition loadRules (by_name : list RuleRow -> list RuleRow) (id : string) (t : DB) : list RuleSummary :=
  map (summary t) (by_name (if bool_decide (id = "") then rules t else filter (fun r => rl_ID r = id) (rules t))).
Definition errNoRule : Err := New KindNotFound "rule not found".
Definition oneRule (id : string) (t : DB) : RuleSummary + Err :=
  match loadRules (fun l => l) id t with s :: _ => inl s | [] => inr errNoRule end.

(** Quoted as [%q] does where there is nothing to escape. *)
Definition quoted (s : string) : string := of_bytes [zb 34] +:+ s +:+ of_bytes [zb 34].
Definition DeleteGuard (s : RuleSummary) : option Err :=
  if rl_Builtin (rs_Rule s)
  then Some (New KindConflict (quoted (rl_Name (rs_Rule s)) +:+ " is a built-in rule and cannot be deleted — disable it instead")) else None.

Definition jsonbOr (v : option string) (fallback : string) : option string :=
  match v with Some raw => Some raw | None => if bool_decide (fallback = "") then None else Some fallback end.
Definition auditRule (action id : string) (before after : option RuleSaid) (t : DB) : DB := t <| trail := trail t ++ [mkAuditEvent action id before after] |>.
Definition said (s : RuleSummary) : RuleSaid :=
  mkRuleSaid (Some (rl_Name (rs_Rule s))) (Some (rl_Severity (rs_Rule s))) (Some (rs_Expr s)) (Some (rl_Enabled (rs_Rule s))) None.

Definition nullif (s : string) : option string := if bool_decide (s = "") then None else Some s.
Definition pgError : Err := ErrText "violates constraint".

Definition createRule (backend : option (string -> option string)) (id : string) (body : option RuleInput) (t : DB) : (RuleSummary + Err) * DB :=
  match body with
  | None => (inr (invalid "malformed JSON body"), t)
  | Some i =>
      match Validate backend true i with
      | inr e => (inr e, t)
      | inl i =>
          let enabled := default true (in_Enabled i) in
          if bool_decide (id ∈ map rl_ID (rules t)) || bool_decide (in_Name i ∈ map rl_Name (rules t))
          then (inr (kindError KindConflict (ErrWrap "could not create rule — the name may already be in use" pgError)), t) else
          let r := mkRuleRow id (in_Name i) (in_Kind i) (in_Severity i) (nullif (in_Expr i)) (default "{}" (jsonbOr (in_Condition i) "{}"))
                     (default "{}" (jsonbOr (in_Annotations i) "{}")) enabled false in
          let t := t <| rules := rules t ++ [r] |> in
          let t := auditRule "alert_rule.create" id None (Some (mkRuleSaid (Some (in_Name i)) (Some (in_Severity i)) (Some (in_Expr i)) (Some enabled) None)) t in
          (oneRule id t, t)
      end
  end.

(** The columns of the update, each kept where nothing was said. *)
Definition overlay (i : RuleInput) (r : RuleRow) : RuleRow :=
  mkRuleRow (rl_ID r) (default (rl_Name r) (nullif (in_Name i))) (default (rl_Kind r) (nullif (in_Kind i))) (default (rl_Severity r) (nullif (in_Severity i)))
    (match nullif (in_Expr i) with Some e => Some e | None => rl_Expr r end)
    (default (rl_Condition r) (jsonbOr (in_Condition i) "")) (default (rl_Annotations r) (jsonbOr (in_Annotations i) ""))
    (default (rl_Enabled r) (in_Enabled i)) (rl_Builtin r).
Definition setRule (id : string) (f : RuleRow -> RuleRow) (t : DB) : DB :=
  t <| rules := map (fun r => if bool_decide (rl_ID r = id) then f r else r) (rules t) |>.

Definition updateRule (backend : option (string -> option string)) (id : string) (body : option RuleInput) (t : DB) : (RuleSummary + Err) * DB :=
  match oneRule id t with
  | inr e => (inr e, t)
  | inl before =>
      match body with
      | None => (inr (invalid "malformed JSON body"), t)
      | Some i =>
          match Validate backend false i with
          | inr e => (inr e, t)
          | inl i =>
              if bool_decide (Exists (fun r => rl_ID r <> id /\ rl_Name r = default (rl_Name (rs_Rule before)) (nullif (in_Name i))) (rules t))
              then (inr (kindError KindConflict (ErrWrap "could not update rule — the name may already be in use" pgError)), t) else
              let t := setRule id (overlay i) t in
              match oneRule id t with
              | inr e => (inr e, t)
              | inl after => (inl after, auditRule "alert_rule.update" id (Some (said before)) (Some (said after)) t)
              end
          end
      end
  end.

(** [store.DeleteRule]: the alerts of the rule, what happened to them, and the
    rule, in a transaction. *)
Definition DeleteRule (id : string) (t : DB) : option Err * DB :=
  let left := pg_DeleteInstances (instances t) id in
  if bool_decide (id ∈ map rl_ID (rules t))
  then (None, ((t <| instances := left |>) <| events := filter (fun e => ae_Alert e ∈ map ID left) (events t) |>) <| rules := filter (fun r => rl_ID r <> id) (rules t) |>)
  else (Some errNoRule, t).

Definition deleteRule (id : string) (t : DB) : option Err * DB :=
  match oneRule id t with
  | inr e => (Some e, t)
  | inl rule =>
      match DeleteGuard rule with
      | Some e => (Some e, t)
      | None =>
          match DeleteRule id t with
          | (Some e, t) => (Some e, t)
          | (None, t) => (None, auditRule "alert_rule.delete" id
              (Some (mkRuleSaid (Some (rl_Name (rs_Rule rule))) (Some (rl_Severity (rs_Rule rule))) (Some (rs_Expr rule)) None (Some (rs_Firing rule)))) None t)
          end
      end
  end.

Definition setRuleEnabled (enabled : bool) (id : string) (t : DB) : option Err * DB :=
  if bool_decide (id ∈ map rl_ID (rules t))
  then (None, auditRule "alert_rule.set_enabled" id (Some (mkRuleSaid None None None (Some (negb enabled)) None)) (Some (mkRuleSaid None None None (Some enabled) None))
          (setRule id (fun r => r <| rl_Enabled := enabled |>) t))
  else (Some errNoRule, t).

(** ** Alerts *)

Definition state_text (s : AlertState) : string :=
  match s with StateFiring => "firing" | StateAcked => "acknowledged" | StateResolved => "resolved" | StateFlapping => "flapping" end.
Definition state_texts : list string := map state_text [StateFiring; StateAcked; StateResolved; StateFlapping].

Record ListFilter : Type := mkListFilter { lf_States : list string; lf_Severity : list string; lf_DeviceID : string; lf_Limit : Z }.
#[export] Instance eta_ListFilter : Eta ListFilter := fun f => mkListFilter (lf_States f) (lf_Severity f) (lf_DeviceID f) (lf_Limit f).

(** [strings.SplitN(part, ":", 3)]: the first two fields and all the rest. *)
Definition SplitN3 (part : string) : option (string * string * string) :=
  match Split part (zb 58) with a :: b :: c :: rest => Some (a, b, Join (c :: rest) ":") | _ => None end.
Definition filterPart (f : ListFilter) (part : string) : ListFilter :=
  match SplitN3 part with
  | Some (a, b, v) =>
      let k := a +:+ ":" +:+ b in
      if bool_decide (k = "state:in") then f <| lf_States := Split v (zb 124) |>
      else if bool_decide (k = "severity:in") then f <| lf_Severity := Split v (zb 124) |>
      else if bool_decide (k = "device:eq") then f <| lf_DeviceID := v |> else f
  | None => f
  end.
Definition parseFilter (query : string) : ListFilter := foldl filterPart (mkListFilter [] [] "" 0) (Split query (zb 44)).

(** Where an enumeration puts its values. *)
Definition rank (sev : string) : Z := if bool_decide (sev = "critical") then 0 else if bool_decide (sev = "warning") then 1 else 2.
Definition urgent (a b : Instance_) : Prop :=
  rank (Severity a) < rank (Severity b) \/ (rank (Severity a) = rank (Severity b) /\ FiredAt b <= FiredAt a).
#[export] Instance urgent_dec : RelDecision urgent.
Proof. intros a b. unfold urgent. apply _. Defined.
Definition matches (f : ListFilter) (i : Instance_) : bool :=
  (if bool_decide (lf_States f = []) then bool_decide (isLive i) else bool_decide (state_text (State i) ∈ lf_States f)) &&
  (bool_decide (lf_Severity f = []) || bool_decide (Severity i ∈ lf_Severity f)) &&
  (bool_decide (lf_DeviceID f = "") || bool_decide (DeviceID i = lf_DeviceID f)).
Definition limitOf (f : ListFilter) : Z := if (lf_Limit f <=? 0) || (200 <? lf_Limit f) then 50 else lf_Limit f.
(** A text that is no value of the enumeration cannot be cast to it. *)
Definition List (f : ListFilter) (t : DB) : list Instance_ + Err :=
  if bool_decide (Forall (fun s => s ∈ state_texts) (lf_States f)) && bool_decide (Forall (fun s => s ∈ ruleSeverities) (lf_Severity f))
  then inl (take (Z.to_nat (limitOf f)) (merge_sort urgent (filter (fun i => Is_true (matches f i)) (instances t))))
  else inr (kindError KindTransient (ErrWrap "list alerts" (ErrText "invalid input value for enum"))).
Definition list_ (query : string) (t : DB) : list Instance_ + Err := List (parseFilter query) t.

Definition Get (id : string) (t : DB) : Instance_ + Err :=
  match head (filter (fun i => ID i = id) (instances t)) with Some i => inl i | None => inr (New KindNotFound "alert not found") end.
Definition Events (id : string) (t : DB) : list AlertEvent := filter (fun e => ae_Alert e = id) (events t).
Definition AppendEvent (e : AlertEvent) (t : DB) : DB := if bool_decide (ae_Alert e ∈ map ID (instances t)) then t <| events := events t ++ [e] |> else t.
Definition get (id : string) (t : DB) : (Instance_ * list AlertEvent) + Err :=
  match Get id t with inl i => inl (i, Events id t) | inr e => inr e end.

Definition ack (now : Time) (user id comment : string) (t : DB) : (Instance_ + Err) * DB :=
  match pg_Ack (instances t) id user comment now with
  | None => (inr (New KindConflict "alert is not in an acknowledgeable state"), t)
  | Some l => let t := AppendEvent (mkAlertEvent id "acked" user (Some comment)) (t <| instances := l |>) in (Get id t, t)
  end.
Definition unack (user id : string) (t : DB) : (Instance_ + Err) * DB :=
  match pg_Unack (instances t) id with
  | None => (inr (New KindConflict "alert is not acknowledged"), t)
  | Some l => let t := AppendEvent (mkAlertEvent id "unacked" user None) (t <| instances := l |>) in (Get id t, t)
  end.

(** ** Silences *)

Record SilenceInput : Type := mkSilenceInput { sl_Scope : labels; sl_Reason : string; sl_DurationS : Z }.
(** The first moment past what the database can hold. *)
Definition endTimestamp : Time := 9224318016000 * Second.
Definition createSilence (now : Time) (user id : string) (body : option SilenceInput) (t : DB) : (string + Err) * DB :=
  let refused := (inr (invalid "scope, reason and duration_s are required"), t) in
  match body with
  | None => refused
  | Some i =>
      if bool_decide (sl_Scope i = ∅) || bool_decide (sl_Reason i = "") || (sl_DurationS i <=? 0) then refused else
      if bool_decide (id ∈ map si_ID (silences t)) || (endTimestamp <=? now + sl_DurationS i * Second) then (inr pgError, t) else
      (inl id, t <| silences := silences t ++ [mkSilence id (sl_Scope i) (sl_Reason i) now (now + sl_DurationS i * Second) user None] |>)
  end.
Definition revocable (id : string) (s : Silence) : bool := bool_decide (si_ID s = id) && bool_decide (si_Revoked s = None).
Definition revokeSilence (now : Time) (id : string) (t : DB) : option Err * DB :=
  if existsb (revocable id) (silences t)
  then (None, t <| silences := map (fun s => if revocable id s then s <| si_Revoked := Some now |> else s) (silences t) |>)
  else (Some (New KindNotFound "silence not found or already revoked"), t).
(** What [store.Silenced] reads. *)
Definition activeAt (now : Time) (s : Silence) : bool := bool_decide (si_Revoked s = None) && (si_Starts s <=? now) && (now <? si_Ends s).
Definition Silenced (now : Time) (ls : labels) (t : DB) : bool :=
  pg_Silenced (map (fun s => Some (si_Scope s)) (filter (fun s => Is_true (activeAt now s)) (silences t))) ls.

(** * Properties *)

Inductive request : Type :=
  | RCreate (backend : option (string -> option string)) (id : string) (body : option RuleInput)
  | RUpdate (backend : option (string -> option string)) (id : string) (body : option RuleInput)
  | RDelete (id : string) | REnable (enabled : bool) (id : string)
  | RAck (now : Time) (user id comment : string) | RUnack (user id : string)
  | RSilence (now : Time) (user id : string) (body : option SilenceInput) | RRevoke (now : Time) (id : string)
  (** what the evaluator writes; an alert needs its rule *)
  | RFire (i : Instance_) | RResolve (id : string) (at_ : Time) | RFlap (id : string).
Definition perform (r : request) (t : DB) : DB :=
  match r with
  | RCreate b id body => (createRule b id body t).2
  | RUpdate b id body => (updateRule b id body t).2
  | RDelete id => (deleteRule id t).2
  | REnable e id => (setRuleEnabled e id t).2
  | RAck now user id c => (ack now user id c t).2
  | RUnack user id => (unack user id t).2
  | RSilence now user id body => (createSilence now user id body t).2
  | RRevoke now id => (revokeSilence now id t).2
  | RFire i => if bool_decide (RuleID i ∈ map rl_ID (rules t)) then match pg_Fire (instances t) i with Some l => t <| instances := l |> | None => t end else t
  | RResolve id at_ => t <| instances := pg_Resolve (instances t) id at_ |>
  | RFlap id => t <| instances := pg_SetFlapping (instances t) id |>
  end.
Definition performs (l : list request) (t : DB) : DB := foldl (fun t r => perform r t) t l.

(** ** What is always so of the rules *)

Definition rule_ok (r : RuleRow) : Prop :=
  rl_Kind r ∈ ruleKinds /\ rl_Severity r ∈ ruleSeverities /\ 0 < slen (rl_Name r) <= 120 /\ rl_Expr r <> Some "".
Record whole (t : DB) : Prop := mkWhole {
  wh_ids : NoDup (map rl_ID (rules t)); wh_names : NoDup (map rl_Name (rules t)); wh_rules : Forall rule_ok (rules t);
  wh_alerts : forall i, i ∈ instances t -> RuleID i ∈ map rl_ID (rules t);
  wh_events : forall e, e ∈ events t -> ae_Alert e ∈ map ID (instances t)
}.
Definition builtin (id : string) (t : DB) : Prop := exists r, r ∈ rules t /\ rl_ID r = id /\ rl_Builtin r = true.

Lemma nullif_Some s x : nullif s = Some x <-> s <> "" /\ x = s.
Proof. unfold nullif. case_bool_decide; naive_solver. Qed.

(** What is left of an input that was accepted. *)
Lemma Validate_ok b creating i j : Validate b creating i = inl j ->
  in_Name j = TrimSpace (in_Name i) /\ in_Expr j = TrimSpace (in_Expr i) /\
  in_Condition j = in_Condition i /\ in_Annotations j = in_Annotations i /\ in_Enabled j = in_Enabled i /\
  (in_Name j <> "" \/ creating = true -> 0 < slen (in_Name j) <= 120) /\
  (in_Kind j <> "" \/ creating = true -> in_Kind j ∈ ruleKinds) /\ (in_Severity j <> "" \/ creating = true -> in_Severity j ∈ ruleSeverities) /\
  (creating = false -> in_Kind j = in_Kind i /\ in_Severity j = in_Severity i) /\
  (creating = true -> in_Kind j = "threshold" -> in_Expr j <> "") /\
  (forall q, b = Some q -> in_Expr j <> "" -> q (in_Expr j) = None).
Proof.
  unfold Validate. set (i0 := set in_Expr _ _).
  assert (in_Name i0 = TrimSpace (in_Name i) /\ in_Expr i0 = TrimSpace (in_Expr i) /\ in_Kind i0 = in_Kind i /\ in_Severity i0 = in_Severity i /\
    in_Condition i0 = in_Condition i /\ in_Annotations i0 = in_Annotations i /\ in_Enabled i0 = in_Enabled i) as (E1 & E2 & E3 & E4 & E5 & E6 & E7) by done.
  clearbody i0. rewrite <- E1, <- E2, <- E3, <- E4, <- E5, <- E6, <- E7. clear E1 E2 E3 E4 E5 E6 E7 i.
  destruct ((creating || _) && bool_decide (in_Name i0 = "")) eqn:C1; [done|]. destruct (_ && (120 <? _)) eqn:C2; [done|].
  destruct (negb (bool_decide (in_Kind i0 = "")) && _) eqn:C3; [done|]. destruct (negb (bool_decide (in_Severity i0 = "")) && _) eqn:C4; [done|].
  set (i1 := if creating then _ else _).
  assert (in_Name i1 = in_Name i0 /\ in_Expr i1 = in_Expr i0 /\ in_Condition i1 = in_Condition i0 /\ in_Annotations i1 = in_Annotations i0 /\ in_Enabled i1 = in_Enabled i0)
    as (E1 & E2 & E3 & E4 & E5) by (by unfold i1; destruct creating).
  assert (in_Name i0 <> "" \/ creating = true -> 0 < slen (in_Name i0) <= 120) as Hn.
  { intros Hc. assert (creating || negb (bool_decide (in_Name i0 = "")) = true) as Hcn by (destruct Hc as [?| ->]; [rewrite bool_decide_eq_false_2 by done; apply orb_true_r|done]).
    rewrite Hcn in C1, C2. cbn [andb] in C1, C2. apply bool_decide_eq_false in C1. pose proof (slen_zero (in_Name i0)). unfold slen in *. pose proof (len_nonneg (to_bytes (in_Name i0))).
    apply Z.ltb_ge in C2. split; [|done]. destruct (decide (len (to_bytes (in_Name i0)) = 0)); [naive_solver|lia]. }
  assert (in_Kind i1 <> "" \/ creating = true -> in_Kind i1 ∈ ruleKinds) as Hk.
  { intros Hc. assert (in_Kind i1 = if creating then if bool_decide (in_Kind i0 = "") then "threshold" else in_Kind i0 else in_Kind i0) as E by (by unfold i1; destruct creating).
    rewrite E in *. clear E. destruct (bool_decide (in_Kind i0 = "")) eqn:Ee.
    - apply bool_decide_eq_true in Ee. destruct creating; [by left|naive_solver].
    - cbn [negb andb] in C3. apply negb_false_iff, bool_decide_eq_true in C3. by destruct creating. }
  assert (in_Severity i1 <> "" \/ creating = true -> in_Severity i1 ∈ ruleSeverities) as Hs.
  { intros Hc. assert (in_Severity i1 = if creating then if bool_decide (in_Severity i0 = "") then "warning" else in_Severity i0 else in_Severity i0) as E by (by unfold i1; destruct creating).
    rewrite E in *. clear E. destruct (bool_decide (in_Severity i0 = "")) eqn:Ee.
    - apply bool_decide_eq_true in Ee. destruct creating; [right; by left|naive_solver].
    - cbn [negb andb] in C4. apply negb_false_iff, bool_decide_eq_true in C4. by destruct creating. }
  assert (creating = false -> in_Kind i1 = in_Kind i0 /\ in_Severity i1 = in_Severity i0) as Hsame by (by unfold i1; intros ->).
  clearbody i1. destruct (creating && bool_decide (in_Kind i1 = "threshold") && _) eqn:C5; [done|]. intros Hj.
  assert (j = i1 /\ forall q, b = Some q -> in_Expr i1 <> "" -> q (in_Expr i1) = None) as [-> Hq].
  { destruct b as [q|], (in_Expr i1) eqn:Ei; try (injection Hj as <-; split; [done|congruence]).
    destruct (q _) eqn:Eq; [done|]. injection Hj as <-. split; [done|]. intros ? [= <-] _. congruence. }
  rewrite E1. split_and!; try done. intros -> Hkt He. by rewrite (bool_decide_eq_true_2 _ Hkt), (bool_decide_eq_true_2 _ He) in C5.
Qed.

Lemma oneRule_inl id t s : id <> "" -> oneRule id t = inl s -> rs_Rule s ∈ rules t /\ rl_ID (rs_Rule s) = id /\ s = summary t (rs_Rule s).
Proof.
  intros Hid. unfold oneRule, loadRules. rewrite bool_decide_eq_false_2 by done. destruct (filter _ _) as [|r l] eqn:E; [done|]. intros [= <-].
  assert (r ∈ filter (fun r => rl_ID r = id) (rules t)) as H by (rewrite E; by left). apply list_elem_of_filter in H as [? ?]. done.
Qed.
Lemma oneRule_found id t : id <> "" -> (exists s, oneRule id t = inl s) <-> id ∈ map rl_ID (rules t).
Proof.
  intros Hid. split.
  - intros [s Hs]. apply oneRule_inl in Hs as (? & <- & _); [|done]. by apply list_elem_of_fmap_2.
  - intros (r & -> & Hr)%list_elem_of_fmap. unfold oneRule, loadRules. rewrite bool_decide_eq_false_2 by done.
    assert (r ∈ filter (fun r' => rl_ID r' = rl_ID r) (rules t)) as H by (by apply list_elem_of_filter). destruct (filter _ _); [by apply elem_of_nil in H|by eexists].
Qed.
Lemma oneRule_inr id t e : oneRule id t = inr e -> e = errNoRule.
Proof. unfold oneRule. destruct (loadRules _ _ _); [by intros [= <-]|done]. Qed.

Lemma rule_unique t r s : NoDup (map rl_ID (rules t)) -> r ∈ rules t -> s ∈ rules t -> rl_ID r = rl_ID s -> r = s.
Proof.
  intros Hnd [i Hi]%list_elem_of_lookup [j Hj]%list_elem_of_lookup E. assert (i = j) as ->; [|congruence].
  eapply NoDup_lookup; [exact Hnd| |]; rewrite list_lookup_fmap; [by rewrite Hi|rewrite Hj; cbn; by rewrite E].
Qed.
Lemma setRule_ids id f t : (forall r, rl_ID (f r) = rl_ID r) -> map rl_ID (rules (setRule id f t)) = map rl_ID (rules t).
Proof. intros Hf. cbn. rewrite map_map. apply map_ext. intros r. case_bool_decide; [apply Hf|done]. Qed.

(** A change to a rule that is refused leaves everything as it was. One
    that is accepted changes just what was said of it, blanks around a name
    or an expression apart, and no other rule; the metrics backend has taken
    an expression that is said; and the audit holds the rule as it was and as
    it is. *)
Theorem rule_update_exact b id i t : id <> "" -> NoDup (map rl_ID (rules t)) ->
  let (answer, t') := updateRule b id (Some i) t in
  match answer with
  | inr _ => t' = t
  | inl s => exists r, r ∈ rules t /\ rl_ID r = id /\ rs_Rule s ∈ rules t' /\
      rs_Rule s = mkRuleRow id
        (if bool_decide (TrimSpace (in_Name i) = "") then rl_Name r else TrimSpace (in_Name i))
        (if bool_decide (in_Kind i = "") then rl_Kind r else in_Kind i) (if bool_decide (in_Severity i = "") then rl_Severity r else in_Severity i)
        (if bool_decide (TrimSpace (in_Expr i) = "") then rl_Expr r else Some (TrimSpace (in_Expr i)))
        (default (rl_Condition r) (in_Condition i)) (default (rl_Annotations r) (in_Annotations i)) (default (rl_Enabled r) (in_Enabled i)) (rl_Builtin r) /\
      (forall q, b = Some q -> TrimSpace (in_Expr i) <> "" -> q (TrimSpace (in_Expr i)) = None) /\
      (forall o, rl_ID o <> id -> o ∈ rules t' <-> o ∈ rules t) /\
      t' = t <| rules := rules t' |> <| trail := trail t ++ [mkAuditEvent "alert_rule.update" id (Some (said (summary t r))) (Some (said s))] |>
  end.
Proof.
  intros Hid Hnd. unfold updateRule. destruct (oneRule id t) as [before|e] eqn:Eb; [|done]. apply oneRule_inl in Eb as (Hb & Hbid & Hbs); [|done].
  destruct (Validate b false i) as [j|e] eqn:Ev; [|done]. apply Validate_ok in Ev as (E1 & E2 & E3 & E4 & E5 & Hn & Hk & Hs & Hsame & _ & Hq).
  destruct (Hsame eq_refl) as [E6 E7]. destruct (bool_decide (Exists _ _)); [done|].
  destruct (oneRule id (setRule id (overlay j) t)) as [after|e] eqn:Ea.
  - pose proof Ea as Ea'. apply oneRule_inl in Ea as (Ha & Haid & Has); [|done]. exists (rs_Rule before). split; [done|]. split; [done|]. split; [done|].
    assert (rs_Rule after = overlay j (rs_Rule before)) as Eo.
    { assert (overlay j (rs_Rule before) ∈ rules (setRule id (overlay j) t)) as Hin
        by (cbn; apply list_elem_of_fmap; exists (rs_Rule before); split; [by rewrite bool_decide_eq_true_2|done]).
      apply (rule_unique (setRule id (overlay j) t)); [by rewrite setRule_ids|done|done|by rewrite Haid]. }
    split.
    { rewrite Eo. unfold overlay, nullif, jsonbOr. rewrite E1, E2, E3, E4, E5, E6, E7, Hbid. cbn.
      by repeat case_bool_decide; destruct (in_Condition i), (in_Annotations i). }
    split; [intros q Eqb; rewrite <- E2; by apply Hq|]. split.
    + intros o Ho. cbn. rewrite list_elem_of_fmap. split.
      * intros (x & -> & Hx). case_bool_decide; [by cbn in Ho|done].
      * intros Hx. exists o. by rewrite bool_decide_eq_false_2.
    + rewrite <- Hbs. done.
  - apply oneRule_inr in Ea as Hne. destruct (proj2 (oneRule_found id (setRule id (overlay j) t) Hid)) as [s Es]; [|by rewrite Es in Ea].
    rewrite setRule_ids by done. rewrite <- Hbid. by apply list_elem_of_fmap_2.
Qed.

(** *** The invariant *)

Lemma pg_update_ids l g f : (forall i, ID (f i) = ID i /\ RuleID (f i) = RuleID i) -> map ID (pg_update l g f) = map ID l /\ map RuleID (pg_update l g f) = map RuleID l.
Proof. intros Hf. unfold pg_update. rewrite !map_map. split; apply map_ext; intros i; (destruct (g i); [apply Hf|done]). Qed.

Lemma whole_instances t l : map ID l = map ID (instances t) -> map RuleID l = map RuleID (instances t) -> whole t -> whole (t <| instances := l |>).
Proof.
  intros E1 E2 [? ? ? Ha He]. constructor; cbn; [done..| |by rewrite E1].
  intros i Hi. assert (RuleID i ∈ map RuleID l) as Hin by (by apply list_elem_of_fmap_2). rewrite E2 in Hin. apply list_elem_of_fmap in Hin as (j & -> & ?). by apply Ha.
Qed.
Lemma whole_append e t : whole t -> whole (AppendEvent e t).
Proof.
  intros Hw. unfold AppendEvent. destruct (bool_decide _) eqn:E; [|done]. apply bool_decide_eq_true in E. destruct Hw. constructor; cbn; try done.
  intros x [?| ->%list_elem_of_singleton]%elem_of_app; auto.
Qed.

Lemma NoDup_snoc {A} (l : list A) x : NoDup l -> x ∉ l -> NoDup (l ++ [x]).
Proof. intros. apply NoDup_app. split_and!; [done|by intros y Hy ->%list_elem_of_singleton|apply NoDup_singleton]. Qed.

Lemma whole_create b id body t : whole t -> whole (createRule b id body t).2.
Proof.
  intros Hw. unfold createRule. destruct body as [i|]; [|done]. destruct (Validate b true i) as [j|] eqn:Ev; [|done].
  apply Validate_ok in Ev as (E1 & E2 & E3 & E4 & E5 & Hn & Hk & Hs & _ & _ & _).
  destruct (bool_decide (id ∈ _)) eqn:Ei; [done|]. destruct (bool_decide (in_Name j ∈ _)) eqn:Enm; [done|]. cbn [orb snd].
  apply bool_decide_eq_false in Ei, Enm. destruct Hw as [H1 H2 H3 H4 H5]. constructor; cbn; rewrite ?map_app.
  - by apply NoDup_snoc.
  - by apply NoDup_snoc.
  - apply Forall_app. split; [done|]. apply Forall_singleton. unfold rule_ok. cbn. split_and!; [by apply Hk; right|by apply Hs; right|by apply Hn; right..|].
    intros E%nullif_Some. naive_solver.
  - intros x Hx. apply elem_of_app. left. by apply H4.
  - done.
Qed.

Lemma rule_names_distinct id f t : (forall r, rl_ID (f r) = rl_ID r) -> NoDup (map rl_ID (rules t)) -> NoDup (map rl_Name (rules t)) ->
  (forall r s, r ∈ rules t -> rl_ID r = id -> s ∈ rules t -> rl_ID s <> id -> rl_Name s <> rl_Name (f r)) -> NoDup (map rl_Name (rules (setRule id f t))).
Proof.
  cbn. induction (rules t) as [|r l IH]; intros Hf H1 H2 Hd; [by apply NoDup_nil_2|]. cbn in *.
  apply NoDup_cons in H1 as [Hr1 H1]. apply NoDup_cons in H2 as [Hr2 H2]. apply NoDup_cons. split.
  - intros (x & E & Hx)%list_elem_of_fmap. apply list_elem_of_fmap in Hx as (y & -> & Hy). rewrite list_elem_of_fmap in Hr1.
    destruct (decide (rl_ID r = id)) as [Er|Er], (decide (rl_ID y = id)) as [Ey|Ey];
      rewrite ?(bool_decide_eq_true_2 _ Er), ?(bool_decide_eq_false_2 _ Er), ?(bool_decide_eq_true_2 _ Ey), ?(bool_decide_eq_false_2 _ Ey) in E.
    + apply Hr1. exists y. split; [congruence|done].
    + eapply (Hd r y); [by left|done|by right|done|done].
    + eapply (Hd y r); [by right|done|by left|done|done].
    + apply Hr2. rewrite E. by apply list_elem_of_fmap_2.
  - apply IH; [done|done|done|]. intros x s ? ? ? ?. apply Hd; [by right|done|by right|done].
Qed.

Lemma whole_update b id body t : id <> "" -> whole t -> whole (updateRule b id body t).2.
Proof.
  intros Hid Hw. unfold updateRule. destruct (oneRule id t) as [before|e] eqn:Eb; [|done]. apply oneRule_inl in Eb as (Hb & Hbid & Hbs); [|done].
  destruct body as [i|]; [|done]. destruct (Validate b false i) as [j|e] eqn:Ev; [|done]. apply Validate_ok in Ev as (_ & _ & _ & _ & _ & Hn & Hk & Hs & _ & _ & _).
  destruct (bool_decide (Exists _ _)) eqn:Ex; [done|]. apply bool_decide_eq_false in Ex.
  assert (whole (setRule id (overlay j) t)) as Hw2.
  { destruct Hw as [H1 H2 H3 H4 H5]. assert (map rl_ID (rules (setRule id (overlay j) t)) = map rl_ID (rules t)) as Eids by (by apply setRule_ids). constructor.
    - by rewrite Eids.
    - apply rule_names_distinct; [done..|]. intros r s Hr Er Hsx Es E. apply Ex. apply Exists_exists. exists s. split; [done|]. split; [done|].
      assert (r = rs_Rule before) as <- by (apply (rule_unique t); [done..|congruence]). exact E.
    - cbn. apply Forall_fmap. eapply Forall_impl; [exact H3|]. intros r Hr. cbn. case_bool_decide; [|done]. unfold rule_ok, overlay in *. cbn.
      destruct Hr as (R1 & R2 & R3 & R4). unfold nullif. split_and!.
      + case_bool_decide; [done|]. apply Hk. by left.
      + case_bool_decide; [done|]. apply Hs. by left.
      + case_bool_decide; [apply R3|]. apply Hn. by left.
      + case_bool_decide; [apply R3|]. apply Hn. by left.
      + case_bool_decide; [done|congruence].
    - rewrite Eids. exact H4.
    - exact H5. }
  destruct (oneRule id (setRule id (overlay j) t)); [|done]. cbn [snd]. destruct Hw2. by constructor.
Qed.

Lemma whole_delete id t : whole t -> whole (deleteRule id t).2.
Proof.
  intros Hw. unfold deleteRule. destruct (oneRule id t) as [s|]; [|done]. destruct (DeleteGuard s); [done|]. unfold DeleteRule.
  destruct (bool_decide _); [|done]. cbn [snd]. destruct Hw as [H1 H2 H3 H4 H5]. constructor; cbn.
  - eapply sublist_NoDup; [exact H1|]. apply fmap_sublist, sublist_filter.
  - eapply sublist_NoDup; [exact H2|]. apply fmap_sublist, sublist_filter.
  - rewrite Forall_forall in H3 |- *. intros r [_ Hr]%list_elem_of_filter. by apply H3.
  - intros i [Hi1 Hi2]%list_elem_of_filter. apply H4 in Hi2. apply list_elem_of_fmap in Hi2 as (r & E & Hr). rewrite E in *.
    apply list_elem_of_fmap. exists r. split; [done|]. by apply list_elem_of_filter.
  - intros e [? ?]%list_elem_of_filter. done.
Qed.

Lemma whole_enable e id t : whole t -> whole (setRuleEnabled e id t).2.
Proof.
  intros Hw. unfold setRuleEnabled. destruct (bool_decide _); [|done]. cbn [snd]. destruct Hw as [H1 H2 H3 H4 H5].
  set (f := fun r => r <| rl_Enabled := e |>).
  assert (map rl_ID (rules (setRule id f t)) = map rl_ID (rules t)) as E1 by (by apply setRule_ids).
  assert (map rl_Name (rules (setRule id f t)) = map rl_Name (rules t)) as E2 by (cbn; rewrite map_map; apply map_ext; intros r; by case_bool_decide).
  constructor; cbn [auditRule rules instances events set]; [by rewrite E1|by rewrite E2| |by rewrite E1|done].
  cbn. apply Forall_fmap. eapply Forall_impl; [exact H3|]. intros r Hr. cbn. by case_bool_decide.
Qed.

(** The routes hold an identifier that is not empty. *)
Definition addressed (r : request) : Prop := match r with RUpdate _ id _ | RDelete id => id <> "" | _ => True end.

Lemma rules_whole_perform r t : addressed r -> whole t -> whole (perform r t).
Proof.
  intros Ha Hw. destruct r as [b id body|b id body|id|e id|now user id c|user id|now user id body|now id|i|id at_|id]; cbn [perform].
  - by apply whole_create.
  - by apply whole_update.
  - by apply whole_delete.
  - by apply whole_enable.
  - unfold ack, pg_Ack. destruct (existsb _ _); [|done]. apply whole_append, whole_instances; [by apply pg_update_ids..|done].
  - unfold unack, pg_Unack. destruct (existsb _ _); [|done]. apply whole_append, whole_instances; [by apply pg_update_ids..|done].
  - unfold createSilence. destruct body; [|done]. destruct (_ || _ || _); [done|]. destruct (_ || _); [done|]. destruct Hw. by constructor.
  - unfold revokeSilence. destruct (existsb _ _); [|done]. destruct Hw. by constructor.
  - destruct (bool_decide _) eqn:Er; [|done]. apply bool_decide_eq_true in Er. destruct (pg_Fire _ _) as [l|] eqn:Ef; [|done]. apply pg_Fire_inv in Ef as ->.
    destruct Hw as [H1 H2 H3 H4 H5]. constructor; cbn; [done..| |].
    + intros x [?| ->%list_elem_of_singleton]%elem_of_app; [by apply H4|done].
    + intros x Hx. rewrite map_app. apply elem_of_app. left. by apply H5.
  - apply whole_instances; [by apply pg_update_ids..|done].
  - apply whole_instances; [by apply pg_update_ids..|done].
Qed.

(** A rule that is shipped stays, and stays shipped. *)
Lemma builtin_perform r id t : addressed r -> NoDup (map rl_ID (rules t)) -> builtin id t -> builtin id (perform r t).
Proof.
  intros Hadd Hnd (x & Hx & Ex & Hb).
  assert (forall rid f t2, (forall r, rl_ID (f r) = rl_ID r /\ rl_Builtin (f r) = rl_Builtin r) -> rules t2 = rules (setRule rid f t) -> builtin id t2) as Hset.
  { intros rid f t2 Hf E. exists (if bool_decide (rl_ID x = rid) then f x else x). rewrite E. cbn. split; [apply list_elem_of_fmap; by exists x|].
    destruct (Hf x). case_bool_decide; split; congruence. }
  assert (forall t2, rules t2 = rules t -> builtin id t2) as Hsame by (intros t2 E; exists x; by rewrite E).
  destruct r as [b rid body|b rid body|rid|e rid|now user rid c|user rid|now user rid body|now rid|i|rid at_|rid]; cbn [perform].
  - unfold createRule. destruct body; [|by apply Hsame]. destruct (Validate _ _ _); [|by apply Hsame]. destruct (_ || _); [by apply Hsame|].
    exists x. cbn. split; [apply elem_of_app; by left|done].
  - unfold updateRule. destruct (oneRule rid t); [|by apply Hsame]. destruct body; [|by apply Hsame]. destruct (Validate _ _ _) as [j|]; [|by apply Hsame].
    destruct (bool_decide _); [by apply Hsame|]. destruct (oneRule _ (setRule _ _ _)); by apply (Hset rid (overlay j)).
  - unfold deleteRule. destruct (oneRule rid t) as [s|] eqn:Es; [|by apply Hsame]. destruct (DeleteGuard s) eqn:Eg; [by apply Hsame|].
    unfold DeleteRule. destruct (bool_decide _); [|by apply Hsame]. exists x. cbn. split; [|done]. apply list_elem_of_filter. split; [|done].
    intros E. apply oneRule_inl in Es as (Hs & Es & _); [|done]. assert (rs_Rule s = x) as Esx by (apply (rule_unique t); [done..|congruence]).
    unfold DeleteGuard in Eg. by rewrite Esx, Hb in Eg.
  - unfold setRuleEnabled. destruct (bool_decide _); [|by apply Hsame]. by apply (Hset rid (fun r => r <| rl_Enabled := e |>)).
  - unfold ack. destruct (pg_Ack _ _ _ _ _); [|by apply Hsame]. unfold AppendEvent. destruct (bool_decide _); by apply Hsame.
  - unfold unack. destruct (pg_Unack _ _); [|by apply Hsame]. unfold AppendEvent. destruct (bool_decide _); by apply Hsame.
  - unfold createSilence. destruct body; [|by apply Hsame]. destruct (_ || _ || _); [by apply Hsame|]. destruct (_ || _); by apply Hsame.
  - unfold revokeSilence. destruct (existsb _ _); by apply Hsame.
  - destruct (bool_decide _); [|by apply Hsame]. destruct (pg_Fire _ _); by apply Hsame.
  - by apply Hsame.
  - by apply Hsame.
Qed.

(** C30. Whatever is asked, and whatever the evaluator writes meanwhile: no two
    rules have an identifier or a name in common, each has a kind and a
    severity there are, a name of one to 120 bytes and no empty expression,
    every alert is of a rule there is and every event of an alert there is;
    and no rule that was shipped is ever lost. *)
Theorem rules_whole l t : Forall addressed l -> whole t -> whole (performs l t) /\ forall id, builtin id t -> builtin id (performs l t).
Proof.
  unfold performs. revert t. induction l as [|r l IH]; intros t Hl Hw; [done|]. apply Forall_cons in Hl as [Hr Hl]. cbn [foldl].
  destruct (IH (perform r t) Hl) as [H1 H2]; [by apply rules_whole_perform|]. split; [done|]. intros id Hb. apply H2, builtin_perform; [done|apply Hw|done].
Qed.

Definition shipped : RuleRow := mkRuleRow "ar_1" "Device down" "threshold" "critical" (Some "up == 0") "{}" "{}" true true.
Definition someTables : DB := mkDB [shipped] [] [] [] [].
Definition saying (name kind sev expr : string) : RuleInput := mkRuleInput name kind sev expr None None None.

Lemma someTables_whole : whole someTables.
Proof.
  constructor.
  - repeat constructor; set_solver.
  - repeat constructor; set_solver.
  - repeat constructor; vm_compute; done.
  - intros i Hi. by apply elem_of_nil in Hi.
  - intros i Hi. by apply elem_of_nil in Hi.
Qed.

Lemma rules_whole_witness :
  let l := [RCreate None "ar_2" (Some (saying " Link flaps " "" "" "flaps > 3")); RDelete "ar_1"; RDelete "ar_2"] in
  rules (performs l someTables) = [shipped] /\ whole (performs l someTables) /\ builtin "ar_1" (performs l someTables).
Proof.
  intros l. split; [vm_compute; reflexivity|]. destruct (rules_whole l someTables) as [H1 H2].
  - repeat constructor; done.
  - exact someTables_whole.
  - split; [exact H1|]. apply H2. exists shipped. split; [by left|done].
Defined.

Lemma rule_update_exact_witness : exists s, (updateRule (Some (fun _ => None)) "ar_1" (Some (saying "  " "" "warning" " up < 1 ")) someTables).1 = inl s /\
  rl_Name (rs_Rule s) = "Device down" /\ rl_Severity (rs_Rule s) = "warning" /\ rl_Expr (rs_Rule s) = Some "up < 1".
Proof.
  pose proof (rule_update_exact (Some (fun _ => None)) "ar_1" (saying "  " "" "warning" " up < 1 ") someTables) as H.
  destruct (updateRule _ _ _ _) as [[s|e] t'] eqn:E.
  - exists s. split; [done|]. destruct H as (r & Hr & _ & _ & -> & _); [done|apply someTables_whole|]. apply list_elem_of_singleton in Hr as ->. by vm_compute.
  - exfalso. vm_compute in E. discriminate.
Defined.

(** A rule can be turned into a threshold rule that has nothing to evaluate,
    which its creation refuses. *)
Lemma threshold_inert : exists s t,
  createRule None "ar_2" (Some (saying "Port count" "inventory" "" "")) someTables = (inl s, t) /\
  (createRule None "ar_2" (Some (saying "Port count" "threshold" "" "")) someTables).1 = inr (invalid "a threshold rule needs an expression to evaluate") /\
  exists s2, (updateRule None "ar_2" (Some (saying "" "threshold" "" "")) t).1 = inl s2 /\ rl_Kind (rs_Rule s2) = "threshold" /\ rs_Expr s2 = "" /\ rl_Enabled (rs_Rule s2) = true.
Proof. do 2 eexists. split_and!; [vm_compute; reflexivity..|]. eexists. split_and!; vm_compute; reflexivity. Qed.

(** The audit of enabling a rule says that it was disabled, also when it was
    not. *)
Lemma enabled_before : last (trail (setRuleEnabled true "ar_1" someTables).2)
  = Some (mkAuditEvent "alert_rule.set_enabled" "ar_1" (Some (mkRuleSaid None None None (Some false) None)) (Some (mkRuleSaid None None None (Some true) None)))
  /\ rl_Enabled shipped = true.
Proof. done. Qed.

(** ** The list of alerts *)

#[export] Instance urgent_trans : Transitive urgent.
Proof. intros a b c. unfold urgent. lia. Qed.
#[export] Instance urgent_total : Total urgent.
Proof. intros a b. unfold urgent. lia. Qed.

(** The page is as many of the alerts asked for as fit, the most severe
    first and the latest first of one severity; whatever is left out is no
    more urgent than anything on it. A state or severity there is none of is
    an error. *)
Theorem list_exact f t :
  match List f t with
  | inr _ => Exists (fun s => s ∉ state_texts) (lf_States f) \/ Exists (fun s => s ∉ ruleSeverities) (lf_Severity f)
  | inl page => exists rest, page ++ rest ≡ₚ filter (fun i => Is_true (matches f i)) (instances t) /\
      StronglySorted urgent page /\ (forall i j, i ∈ page -> j ∈ rest -> urgent i j) /\
      (rest = [] \/ len page = limitOf f) /\ len page <= limitOf f <= 200
  end.
Proof.
  unfold List. destruct (bool_decide (Forall _ (lf_States f))) eqn:E1; [destruct (bool_decide (Forall _ (lf_Severity f))) eqn:E2|]; cbn [andb].
  - set (all := filter _ _). pose proof (StronglySorted_merge_sort urgent all) as Hs. pose proof (merge_sort_Permutation urgent all) as Hp.
    set (n := Z.to_nat (limitOf f)). rewrite <- (take_drop n (merge_sort urgent all)) in Hs, Hp. exists (drop n (merge_sort urgent all)).
    assert (0 <= limitOf f <= 200) as Hl by (unfold limitOf; destruct (_ || _) eqn:E; lia).
    split; [done|]. apply StronglySorted_app in Hs as (Hx & H1 & H2). split; [done|]. split; [done|]. unfold len. rewrite length_take. split; [|lia].
    destruct (decide (n <= length (merge_sort urgent all))%nat); [right; lia|left]. apply drop_ge. lia.
  - right. apply bool_decide_eq_false in E2. apply not_Forall_Exists; [intros x; apply _|done].
  - left. apply bool_decide_eq_false in E1. apply not_Forall_Exists; [intros x; apply _|done].
Qed.

(** What the console asks for is read back. *)
Lemma parseFilter_example : parseFilter "state:in:firing|flapping,nonsense,device:eq:dev:7" = mkListFilter ["firing"; "flapping"] [] "dev:7" 0.
Proof. vm_compute. reflexivity. Qed.

(** ** Silences *)

Lemma Silenced_spec now ls t : Silenced now ls t = true <-> exists s, s ∈ silences t /\ activeAt now s = true /\ scopeMatches ls (si_Scope s) = true.
Proof.
  unfold Silenced, pg_Silenced. rewrite existsb_exists. split.
  - intros (o & Ho & Hm). apply list_elem_of_In in Ho. apply list_elem_of_fmap in Ho as (s & -> & Hs). apply list_elem_of_filter in Hs as [Ha Hs].
    exists s. split; [done|]. split; [by apply Is_true_eq_true|done].
  - intros (s & Hs & Ha & Hm). exists (Some (si_Scope s)). split; [|done]. apply list_elem_of_In, list_elem_of_fmap. exists s. split; [done|].
    apply list_elem_of_filter. split; [by apply Is_true_eq_left|done].
Qed.

(** A silence, once made, has its scope and its time for good; and once
    revoked it stays so. *)
Definition kept (s : Silence) (t : DB) : Prop := s ∈ silences t /\ NoDup (map si_ID (silences t)).
Definition revokes (id : string) (r : request) : Prop := match r with RRevoke _ x => x = id | _ => False end.

Lemma silences_perform r t : (exists s, silences (perform r t) = silences t ++ [s] /\ si_ID s ∉ map si_ID (silences t)) \/
  (exists now id, r = RRevoke now id /\ silences (perform r t) = map (fun s => if revocable id s then s <| si_Revoked := Some now |> else s) (silences t)) \/
  silences (perform r t) = silences t.
Proof.
  destruct r as [b rid body|b rid body|rid|e rid|now user rid c|user rid|now user rid body|now rid|i|rid at_|rid]; cbn [perform].
  - right; right. unfold createRule. destruct body; [|done]. destruct (Validate _ _ _); [|done]. by destruct (_ || _).
  - right; right. unfold updateRule. destruct (oneRule rid t); [|done]. destruct body; [|done]. destruct (Validate _ _ _) as [j|]; [|done].
    destruct (bool_decide _); [done|]. by destruct (oneRule _ (setRule _ _ _)).
  - right; right. unfold deleteRule. destruct (oneRule rid t) as [s|]; [|done]. destruct (DeleteGuard s); [done|]. unfold DeleteRule. by destruct (bool_decide _).
  - right; right. unfold setRuleEnabled. by destruct (bool_decide _).
  - right; right. unfold ack. destruct (pg_Ack _ _ _ _ _); [|done]. unfold AppendEvent. by destruct (bool_decide _).
  - right; right. unfold unack. destruct (pg_Unack _ _); [|done]. unfold AppendEvent. by destruct (bool_decide _).
  - unfold createSilence. destruct body as [i|]; [|by right; right]. destruct (_ || _ || _); [by right; right|].
    destruct (bool_decide (rid ∈ _)) eqn:E; [by right; right|]. cbn [orb]. destruct (_ <=? _); [by right; right|]. left. eexists. split; [done|]. by apply bool_decide_eq_false in E.
  - unfold revokeSilence. destruct (existsb _ _); [|by right; right]. right; left. by exists now, rid.
  - right; right. destruct (bool_decide _); [|done]. by destruct (pg_Fire _ _).
  - by right; right.
  - by right; right.
Qed.

Lemma kept_perform s r t : ~ revokes (si_ID s) r -> kept s t -> kept s (perform r t).
Proof.
  intros Hr [Hs Hn]. unfold kept. destruct (silences_perform r t) as [(x & -> & Hx)|[(now & id & -> & ->)| ->]]; [| |done].
  - split; [apply elem_of_app; by left|]. rewrite map_app. by apply NoDup_snoc.
  - split.
    + apply list_elem_of_fmap. exists s. split; [|done]. unfold revocable. rewrite (bool_decide_eq_false_2 (si_ID s = id)); [done|]. intros E. by apply Hr.
    + rewrite map_map. erewrite map_ext; [exact Hn|]. intros x. by destruct (revocable id x).
Qed.
Lemma revoked_perform s r t : si_Revoked s <> None -> kept s t -> kept s (perform r t).
Proof.
  intros Hr [Hs Hn]. unfold kept. destruct (silences_perform r t) as [(x & -> & Hx)|[(now & id & -> & ->)| ->]]; [| |done].
  - split; [apply elem_of_app; by left|]. rewrite map_app. by apply NoDup_snoc.
  - split.
    + apply list_elem_of_fmap. exists s. split; [|done]. unfold revocable. by rewrite (bool_decide_eq_false_2 (si_Revoked s = None)), andb_false_r.
    + rewrite map_map. erewrite map_ext; [exact Hn|]. intros x. by destruct (revocable id x).
Qed.

(** A silence that is accepted suppresses, from then on and until its time
    is over, every alert with all the labels of its scope, whatever else is
    asked but to revoke it. Revoking it is then accepted, and it suppresses
    nothing any more: what is silenced at any later moment is so through
    another silence. *)
Theorem silence_life now user id i t l : NoDup (map si_ID (silences t)) ->
  (createSilence now user id (Some i) t).1 = inl id -> Forall (fun r => ~ revokes id r) l ->
  let t1 := performs l (createSilence now user id (Some i) t).2 in
  (forall at_ ls, scopeMatches ls (sl_Scope i) = true -> now <= at_ < now + sl_DurationS i * Second -> Silenced at_ ls t1 = true) /\
  (forall now2, (revokeSilence now2 id t1).1 = None /\
    forall l2 at_ ls, let t2 := performs l2 (revokeSilence now2 id t1).2 in
      Silenced at_ ls t2 = true <-> exists s, s ∈ silences t2 /\ si_ID s <> id /\ activeAt at_ s = true /\ scopeMatches ls (si_Scope s) = true).
Proof.
  intros Hnd Hc Hl t1. set (s := mkSilence id (sl_Scope i) (sl_Reason i) now (now + sl_DurationS i * Second) user None).
  assert (kept s t1) as [Hs Hn].
  { unfold t1, createSilence in *. destruct (_ || _ || _); [done|]. destruct (bool_decide (id ∈ _)) eqn:Ei; [done|]. cbn [orb] in *. destruct (_ <=? _); [done|]. cbn [snd].
    apply bool_decide_eq_false in Ei. set (t0 := set silences _ _). assert (kept s t0) as Hk.
    { split; [apply elem_of_app; right; by apply list_elem_of_singleton|]. cbn. rewrite map_app. by apply NoDup_snoc. }
    clearbody t0. clear Hc. revert t0 Hk. induction l as [|r l IH]; intros t0 Hk; [done|]. apply Forall_cons in Hl as [Hr Hl]. apply (IH Hl). by apply kept_perform. }
  clearbody t1. split.
  - intros at_ ls Hm Ha. apply Silenced_spec. exists s. split; [done|]. split; [|done]. unfold activeAt. cbn. lia.
  - intros now2. unfold revokeSilence. assert (existsb (revocable id) (silences t1) = true) as Eex.
    { apply existsb_exists. exists s. split; [by apply list_elem_of_In|]. unfold revocable. by rewrite !bool_decide_eq_true_2. }
    rewrite Eex. split; [done|]. intros l2 at_ ls. cbn [snd]. set (t3 := set silences _ t1). set (s2 := s <| si_Revoked := Some now2 |>).
    assert (kept s2 t3) as Hk.
    { split.
      - cbn. apply list_elem_of_fmap. exists s. split; [|done]. unfold revocable. by rewrite !bool_decide_eq_true_2.
      - cbn. rewrite map_map. erewrite map_ext; [exact Hn|]. intros x. by destruct (revocable id x). }
    assert (kept s2 (performs l2 t3)) as [Hs2 Hn2].
    { clearbody t3. revert t3 Hk. induction l2 as [|r l2 IH]; intros t3 Hk; [done|]. apply IH. by apply revoked_perform. }
    cbn zeta. rewrite Silenced_spec. split; [|naive_solver]. intros (x & Hx & Ha & Hm). exists x. split; [done|]. split; [|done]. intros E.
    assert (x = s2) as ->; [|done]. apply list_elem_of_lookup in Hx as [m Hm']. apply list_elem_of_lookup in Hs2 as [n Hn'].
    assert (m = n) as ->; [|congruence]. eapply NoDup_lookup; [exact Hn2| |]; rewrite list_lookup_fmap; [by rewrite Hm'|rewrite Hn'; by rewrite E].
Qed.

Lemma silence_life_witness :
  let t1 := (createSilence 0 "usr_1" "sil_1" (Some (mkSilenceInput {["device_id" := "d1"]} "works" 60)) someTables).2 in
  Silenced (59 * Second) (<["if_index" := "3"]> {["device_id" := "d1"]}) t1 = true /\ Silenced (60 * Second) (<["if_index" := "3"]> {["device_id" := "d1"]}) t1 = false.
Proof.
  intros t1. split; [|vm_compute; reflexivity].
  apply (silence_life 0 "usr_1" "sil_1" (mkSilenceInput {["device_id" := "d1"]} "works" 60) someTables []); [apply NoDup_nil_2|vm_compute; reflexivity|apply Forall_nil_2|vm_compute; reflexivity|vm_compute; split; [discriminate|reflexivity]].
Defined.
