(* ===== verification/Settings.v ===== *)
(** Packages platform/settings (mirror.go, branding.go) and platform/vmwrite
    (mirror.go): where the collected metrics are copied to and how, and what a
    printed report looks like.

    JSON, [url.Parse], base64, [%q] and what the targets answer are
    parameters. *)
From Stdlib Require Import ZArith Lia.
From stdpp Require Import base list gmap strings numbers sorting.
From S2P Require Import Prelude GoText Errx Float64.

(** ** Where metrics are copied *)

Record Mirror : Type := mkMirror { mi_Enabled : bool; mi_URLs : list string }.
Definition mirrorTargets (m : Mirror) : list string := if mi_Enabled m then mi_URLs m else [].

(** [strings.TrimRight(s, "/")]. *)
Definition TrimSlashes (s : string) : string := of_bytes (reverse (drop_while (fun c => bool_decide (c = zb 47)) (reverse (to_bytes s)))).
Record URL : Type := mkURL { u_Scheme : string; u_Host : string; u_Path : string }.
Definition invalid (msg : string) : Err := New KindInvalid msg.

Section mirror.
Context (Parse : string -> option URL) (Quote : string -> string).
Context {Doc : Type} (Marshal : Mirror -> Doc) (Unmarshal : Doc -> option Mirror).

Definition validateURL (raw : string) : option Err :=
  match Parse raw with
  | None => Some (invalid (Quote raw +:+ " is not a URL"))
  | Some u =>
      if negb (bool_decide (u_Scheme u = "http")) && negb (bool_decide (u_Scheme u = "https")) then Some (invalid (Quote raw +:+ " needs an http:// or https:// scheme"))
      else if bool_decide (u_Host u = "") then Some (invalid (Quote raw +:+ " has no host"))
      else if negb (bool_decide (u_Path u = "")) && negb (bool_decide (u_Path u = "/"))
      then Some (invalid (Quote raw +:+ " should be the base address only — the import path is added for you")) else None
  end.

(** [clean] is the list so far, which is what was seen. *)
Fixpoint cleanURLs (clean l : list string) : list string + Err :=
  match l with
  | [] => inl clean
  | raw :: l =>
      let u := TrimSlashes (TrimSpace raw) in
      if bool_decide (u = "") then cleanURLs clean l else
      match validateURL u with
      | Some e => inr e
      | None => cleanURLs (if bool_decide (u ∈ clean) then clean else clean ++ [u]) l
      end
  end.

(** The row of the setting, when there is one; [up] is whether the database
    answers. *)
Definition GetMirror (up : bool) (row : option Doc) : Mirror + Err :=
  if negb up then inr (kindError KindTransient (ErrWrap "read mirror setting" (ErrText "unreachable"))) else
  match row with
  | None => inl (mkMirror false [])
  | Some raw => match Unmarshal raw with
                | Some m => inl m
                | None => inr (kindError KindInternal (ErrWrap "decode mirror setting" (ErrText "invalid character")))
                end
  end.
Definition PutMirror (up : bool) (m : Mirror) (row : option Doc) : (Mirror + Err) * option Doc :=
  match cleanURLs [] (mi_URLs m) with
  | inr e => (inr e, row)
  | inl clean =>
      if mi_Enabled m && bool_decide (clean = []) then (inr (invalid "copying is enabled but no destination is set"), row) else
      let m := mkMirror (mi_Enabled m) clean in
      if up then (inl m, Some (Marshal m)) else (inr (kindError KindTransient (ErrWrap "write mirror setting" (ErrText "unreachable"))), row)
  end.

(** ** What is known of the setting *)

Record Cache : Type := mkCache { ca_refresh : Duration; ca_val : Mirror; ca_last : Time }.
Definition NewCache (refresh : Duration) : Cache := mkCache (if refresh <=? 0 then 30 * Second else refresh) (mkMirror false []) zeroTime.
(** When a call looks, what a read answers, and when that is kept. *)
Record moment : Type := mkMoment { mo_look : Time; mo_read : Mirror + Err; mo_keep : Time }.
Definition Targets (m : moment) (c : Cache) : list string * Cache :=
  if time_Sub (mo_look m) (ca_last c) <? ca_refresh c then (mirrorTargets (ca_val c), c) else
  match mo_read m with
  | inr _ => (mirrorTargets (ca_val c), mkCache (ca_refresh c) (ca_val c) (mo_keep m))
  | inl v => (mirrorTargets v, mkCache (ca_refresh c) v (mo_keep m))
  end.
End mirror.

(** ** Copying *)

Inductive reply : Type := Unreachable (e : Err) | Answered (code : Z) (body : bytes).
(** Every request sent, the counters by target, and the failures logged. *)
Record Target : Type := mkTarget {
  sent : list (string * bytes); mirrorSamples : gmap string Z; mirrorFailed : gmap string Z;
  warnOnce : gmap string Time; warnings : list (string * Time)
}.
#[export] Instance eta_Target : Eta Target := fun t => mkTarget (sent t) (mirrorSamples t) (mirrorFailed t) (warnOnce t) (warnings t).
Definition Inc (k : string) (m : gmap string Z) : gmap string Z := <[k := default 0 (m !! k) + 1]> m.

(** [strings.Split(v, ",")], trimmed, without the empty. *)
Definition ParseMirrors (v : string) : list string := filter (fun p => p <> "") (map TrimSpace (Split v (zb 44))).

Section import.
(** what a target answers to a body, and the clock, as far as it has come *)
Context (answer : Target -> string -> bytes -> reply) (clock : Target -> Time) (StatusText : Z -> string).

Definition post (base : string) (body : bytes) (t : Target) : option Err * Target :=
  let e := match answer t base body with
           | Unreachable e => Some e
           | Answered code b => if 300 <=? code then Some (ErrText ("import status " +:+ StatusText code +:+ ": " +:+ of_bytes (take 512 b))) else None
           end in
  (e, t <| sent := sent t ++ [(base +:+ "/api/v1/import", body)] |>).

Definition warn (url : string) (t : Target) : Target :=
  let now := clock t in
  let recent := match warnOnce t !! url with Some last => time_Sub now last <? Minute | None => false end in
  if recent then t else (t <| warnOnce := <[url := now]> (warnOnce t) |>) <| warnings := warnings t ++ [(url, now)] |>.

Definition mirror (url : string) (body : bytes) (t : Target) : Target :=
  match post url body t with
  | (Some _, t) => warn url (t <| mirrorFailed := Inc url (mirrorFailed t) |>)
  | (None, t) => t <| mirrorSamples := Inc url (mirrorSamples t) |>
  end.

(** [mirrors] is [MirrorsFn], asked once the primary store has taken the body. *)
Definition Import (primary : string) (mirrors : Target -> list string) (body : bytes) (t : Target) : option Err * Target :=
  match post primary body t with
  | (Some e, t) => (Some e, t)
  | (None, t) => (None, foldl (fun t m => mirror m body t) t (mirrors t))
  end.
End import.

(** ** Branding *)

Record Branding : Type := mkBranding {
  Company : string; Subtitle : string; Logo : string; Footer : string; Accent : string; Columns : list string; Charts : string; ChartSize : string
}.
#[export] Instance eta_Branding : Eta Branding := fun b =>
  mkBranding (Company b) (Subtitle b) (Logo b) (Footer b) (Accent b) (Columns b) (Charts b) (ChartSize b).
Definition noBranding : Branding := mkBranding "" "" "" "" "" [] "" "".
Record ReportColumn : Type := mkReportColumn { Key : string; Title : string; Width : float64; Right : bool }.
Definition col (k t : string) (w : Z) (r : bool) : ReportColumn := mkReportColumn k t (float_of w) r.
Definition ReportColumns : list ReportColumn :=
  [col "customer" "Customer" 34 false; col "device" "Device" 32 false; col "interface" "Interface" 24 false; col "alias" "Alias" 52 false;
   col "descr" "Description" 40 false; col "speed" "Speed" 20 true; col "avg_in" "Avg in" 21 true; col "avg_out" "Avg out" 21 true;
   col "p95_in" "P95 in" 21 true; col "p95_out" "P95 out" 21 true; col "peak_in" "Peak in" 21 true; col "peak_out" "Peak out" 21 true;
   col "total_in" "Total in" 22 true; col "total_out" "Total out" 22 true; col "util_p95" "Util p95" 21 true].
Definition DefaultReportColumns : list string :=
  ["customer"; "alias"; "speed"; "avg_in"; "avg_out"; "p95_in"; "p95_out"; "peak_in"; "peak_out"; "util_p95"].

Definition columnByKey (k : string) : option ReportColumn := head (filter (fun c => Key c = k) ReportColumns).
Definition columnsByKey (keys : list string) : list ReportColumn := omap columnByKey keys.
Definition ColumnsOrDefault (b : Branding) : list ReportColumn :=
  match columnsByKey (Columns b) with [] => columnsByKey DefaultReportColumns | out => out end.
Definition ChartsEnabled (b : Branding) : bool := negb (bool_decide (TrimSpace (Charts b) = "none")).
Definition ChartsPerRow (b : Branding) : Z := if bool_decide (TrimSpace (ChartSize b) = "full") then 1 else 2.
Definition CompanyOrDefault (b : Branding) : string := if bool_decide (TrimSpace (Company b) = "") then "NetInv" else Company b.

Definition hexVal (c : byte) : option Z :=
  let z := bz c in
  if within 48 z 57 then Some (z - 48) else if within 97 z 102 then Some (z - 97 + 10) else if within 65 z 70 then Some (z - 65 + 10) else None.
Definition hexPair (a b : byte) : Z := (0 * 16 + default 0 (hexVal a)) * 16 + default 0 (hexVal b).
(** The six digits of [hexColour.FindStringSubmatch]. *)
Definition hexColour (s : string) : option (list byte) :=
  match to_bytes s with
  | h :: ds => if bool_decide (h = zb 35) && bool_decide (length ds = 6%nat) && forallb (fun c => bool_decide (is_Some (hexVal c))) ds then Some ds else None
  | [] => None
  end.
Definition AccentRGB (b : Branding) : Z * Z * Z :=
  match hexColour (TrimSpace (Accent b)) with
  | Some [a; b; c; d; e; f] => (hexPair a b, hexPair c d, hexPair e f)
  | _ => (51, 65, 85)
  end.

Section branding.
Context (DecodeString : string -> option bytes) (Quote : string -> string).

(** The two groups of [dataURI.FindStringSubmatch]. *)
Definition imageKinds : list string := ["png"; "jpeg"; "jpg"; "gif"].
Definition dataURI (s : string) : option (string * string) :=
  head (omap (fun k =>
    let p := to_bytes ("data:image/" +:+ k +:+ ";base64,") in
    let rest := drop (length p) (to_bytes s) in
    if bool_decide (take (length p) (to_bytes s) = p) && negb (bool_decide (rest = [])) && negb (bool_decide (zb 10 ∈ rest))
    then Some (k, of_bytes rest) else None) imageKinds).
Definition LogoBytes (b : Branding) : option bytes * string :=
  match dataURI (TrimSpace (Logo b)) with
  | None => (None, "")
  | Some (k, data) => match DecodeString data with
                      | None => (None, "")
                      | Some raw => (Some raw, if bool_decide (k = "jpg") then "jpeg" else k)
                      end
  end.
Definition maxLogoBytes : Z := 512 * 1024.
Definition maxBrandTextLen : Z := 200.

(** The texts with their names, in the order the map is walked. *)
Definition texts (b : Branding) : list (string * string) := [("company", Company b); ("subtitle", Subtitle b); ("footer", Footer b)].
Fixpoint columnError (seen cols : list string) : option Err :=
  match cols with
  | [] => None
  | k :: cols =>
      match columnsByKey [k] with
      | [] => Some (invalid ("unknown report column " +:+ Quote k))
      | _ => if bool_decide (k ∈ seen) then Some (invalid ("report column " +:+ Quote k +:+ " is listed twice")) else columnError (k :: seen) cols
      end
  end.
Definition logoError (b : Branding) : option Err :=
  if bool_decide (Logo b = "") then None else
  let (raw, kind) := LogoBytes b in
  if bool_decide (kind = "") then Some (invalid "logo must be a data: URI holding a PNG, JPEG or GIF")
  else if maxLogoBytes <? len (default [] raw)
  then Some (invalid ("logo is " +:+ Itoa (len (default [] raw) / 1024) +:+ " KB; the limit is " +:+ Itoa (maxLogoBytes / 1024) +:+ " KB")) else None.
Definition q (s : string) : string := of_bytes [zb 34] +:+ s +:+ of_bytes [zb 34].

Definition normalized (walk : list (string * string) -> list (string * string)) (b : Branding) : Branding + Err :=
  let b := mkBranding (TrimSpace (Company b)) (TrimSpace (Subtitle b)) (TrimSpace (Logo b)) (TrimSpace (Footer b)) (TrimSpace (Accent b))
             (Columns b) (Charts b) (ChartSize b) in
  match head (filter (fun nv => maxBrandTextLen < slen nv.2) (walk (texts b))) with
  | Some nv => inr (invalid (nv.1 +:+ " is longer than " +:+ Itoa maxBrandTextLen +:+ " characters"))
  | None =>
      if negb (bool_decide (Accent b = "")) && bool_decide (hexColour (Accent b) = None) then inr (invalid ("accent must be a #rrggbb colour, got " +:+ Quote (Accent b)))
      else if negb (bool_decide (TrimSpace (Charts b) ∈ [""; "each"; "none"])) then inr (invalid ("charts must be " +:+ q "each" +:+ " or " +:+ q "none" +:+ ", got " +:+ Quote (Charts b)))
      else if negb (bool_decide (TrimSpace (ChartSize b) ∈ [""; "compact"; "full"]))
      then inr (invalid ("chart_size must be " +:+ q "compact" +:+ " or " +:+ q "full" +:+ ", got " +:+ Quote (ChartSize b)))
      else match columnError [] (Columns b) with
           | Some e => inr e
           | None => match logoError b with Some e => inr e | None => inl b end
           end
  end.

Context {Doc : Type} (Marshal : Branding -> Doc) (Unmarshal : Doc -> option Branding).
Definition GetBranding (up : bool) (row : option Doc) : Branding + Err :=
  if negb up then inr (kindError KindTransient (ErrWrap "read branding setting" (ErrText "unreachable"))) else
  match row with
  | None => inl noBranding
  | Some raw => match Unmarshal raw with
                | Some b => inl b
                | None => inr (kindError KindInternal (ErrWrap "decode branding setting" (ErrText "invalid character")))
                end
  end.
Definition PutBranding (walk : list (string * string) -> list (string * string)) (up : bool) (b : Branding) (row : option Doc) : (Branding + Err) * option Doc :=
  match normalized walk b with
  | inr e => (inr e, row)
  | inl b => if up then (inl b, Some (Marshal b)) else (inr (kindError KindTransient (ErrWrap "write branding setting" (ErrText "unreachable"))), row)
  end.
End branding.

(** * Properties *)

(** ** The setting *)

Section mirror_properties.
Context (Parse : string -> option URL) (Quote : string -> string).
Context {Doc : Type} (Marshal : Mirror -> Doc) (Unmarshal : Doc -> option Mirror).

(** An address as it is kept. *)
Definition tidy (raw : string) : string := TrimSlashes (TrimSpace raw).

Lemma cleanURLs_ok l : forall clean out, cleanURLs Parse Quote clean l = inl out -> NoDup clean ->
  (exists more, out = clean ++ more) /\ NoDup out /\
  (forall u, u ∈ out <-> u ∈ clean \/ (u <> "" /\ exists raw, raw ∈ l /\ u = tidy raw)) /\
  (forall raw, raw ∈ l -> tidy raw <> "" -> validateURL Parse Quote (tidy raw) = None).
Proof.
  induction l as [|raw l IH]; intros clean out; cbn [cleanURLs].
  - intros [= <-] Hn. split; [exists []; by rewrite app_nil_r|]. split; [done|]. split; [|by intros raw ?%elem_of_nil].
    intros u. split; [by left|]. by intros [?|(_ & raw & ?%elem_of_nil & _)].
  - fold (tidy raw). destruct (bool_decide (tidy raw = "")) eqn:E0.
    + apply bool_decide_eq_true in E0. intros H Hn. destruct (IH _ _ H Hn) as (H1 & H2 & H3 & H4). split; [done|]. split; [done|]. split.
      * intros u. rewrite H3. split; (intros [?|(Hu & r & Hr & ->)]; [by left|right; split; [done|]; exists r]); [split; [by right|done]|].
        apply elem_of_cons in Hr as [->|Hr]; [done|by split].
      * intros r [->|Hr]%elem_of_cons Hne; [done|by apply H4].
    + apply bool_decide_eq_false in E0. destruct (validateURL Parse Quote (tidy raw)) eqn:Ev; [done|]. intros H Hn.
      set (c2 := if bool_decide (tidy raw ∈ clean) then clean else clean ++ [tidy raw]) in H.
      assert (NoDup c2 /\ (exists more, c2 = clean ++ more) /\ forall u, u ∈ c2 <-> u ∈ clean \/ u = tidy raw) as (Hn2 & (more & Hm) & Hin).
      { unfold c2. case_bool_decide as Ei.
        - split; [done|]. split; [exists []; by rewrite app_nil_r|]. intros u. split; [by left|]. by intros [?| ->].
        - split; [apply NoDup_app; split_and!; [done|by intros x Hx ->%list_elem_of_singleton|apply NoDup_singleton]|].
          split; [by eexists|]. intros u. by rewrite elem_of_app, list_elem_of_singleton. }
      clearbody c2. destruct (IH _ _ H Hn2) as ((more2 & ->) & H2 & H3 & H4). split; [exists (more ++ more2); by rewrite Hm, app_assoc|]. split; [done|]. split.
      * intros u. rewrite H3, Hin. split.
        -- intros [[?| ->]|(Hu & r & Hr & ->)]; [by left|right; split; [done|]; exists raw; split; [by left|done]|right; split; [done|]; exists r; split; [by right|done]].
        -- intros [?|(Hu & r & [->|Hr]%elem_of_cons & ->)]; [by left; left|by left; right|right; split; [done|]; by exists r].
      * intros r [->|Hr]%elem_of_cons Hne; [done|by apply H4].
Qed.

(** A setting that is accepted is read back as it was answered: each
    address asked for, without blanks and slashes around it, once, every one
    of them checked, and at least one where copying is on. One that is
    refused changes nothing. *)
Theorem mirror_roundtrip up m row : (forall m, Unmarshal (Marshal m) = Some m) ->
  match PutMirror Parse Quote Marshal up m row with
  | (inr _, row') => row' = row
  | (inl m', row') => GetMirror Unmarshal true row' = inl m' /\ mi_Enabled m' = mi_Enabled m /\ NoDup (mi_URLs m') /\
      (mi_Enabled m = true -> mi_URLs m' <> []) /\
      forall u, u ∈ mi_URLs m' <-> u <> "" /\ validateURL Parse Quote u = None /\ exists raw, raw ∈ mi_URLs m /\ u = tidy raw
  end.
Proof.
  intros HM. unfold PutMirror. destruct (cleanURLs _ _ _ _) as [clean|e] eqn:Ec; [|done].
  destruct (mi_Enabled m && bool_decide (clean = [])) eqn:Ee; [done|]. destruct up; [|done].
  apply cleanURLs_ok in Ec as (_ & Hn & Hin & Hv); [|apply NoDup_nil_2]. cbn [mi_URLs mi_Enabled]. split; [unfold GetMirror; cbn; by rewrite HM|].
  split; [done|]. split; [done|]. split.
  - intros E. rewrite E in Ee. cbn in Ee. by apply bool_decide_eq_false in Ee.
  - intros u. rewrite Hin. split.
    + intros [?%elem_of_nil|(Hu & raw & Hr & ->)]; [done|]. split; [done|]. split; [by apply Hv|by exists raw].
    + intros (Hu & _ & raw & Hr & ->). right. split; [done|by exists raw].
Qed.
End mirror_properties.

Definition httpOnly (s : string) : option URL := if bool_decide (String.prefix "http://" s) then Some (mkURL "http" "vm2:8428" "") else None.

Lemma mirror_roundtrip_witness :
  match PutMirror httpOnly (fun s => s) (fun m => m) true (mkMirror true [" http://vm2:8428/ "; ""; "http://vm2:8428"]) None with
  | (inl m', row') => GetMirror Some true row' = inl m' /\ mi_URLs m' = ["http://vm2:8428"]
  | _ => False
  end.
Proof.
  pose proof (mirror_roundtrip httpOnly (fun s => s) (fun m => m) Some true (mkMirror true [" http://vm2:8428/ "; ""; "http://vm2:8428"]) None (fun _ => eq_refl)) as H.
  destruct (PutMirror _ _ _ _ _ _) as [[m'|e] row'] eqn:E.
  - split; [apply H|]. vm_compute in E. by injection E as <- _.
  - vm_compute in E. discriminate.
Defined.

(** ** What is known of it *)

(** The reads made, the last first. *)
Fixpoint looks (l : list moment) (c : Cache) : list moment * Cache :=
  match l with
  | [] => ([], c)
  | m :: l =>
      let (log, c) := looks l c in
      let asked := negb (time_Sub (mo_look m) (ca_last c) <? ca_refresh c) in
      (if asked then m :: log else log, (Targets m c).2)
  end.
Fixpoint lastRead (log : list moment) : Mirror :=
  match log with
  | [] => mkMirror false []
  | m :: log => match mo_read m with inl v => v | inr _ => lastRead log end
  end.

Definition errBlip : Err := ErrText "timeout".

(** Calls, the last first: what is copied to is what the last read that
    was answered says, and the setting has been asked, answered or not, no
    longer ago than the time to refresh. *)
Theorem setting_followed refresh m l : ca_refresh (NewCache refresh) <= time_Sub (mo_look m) zeroTime ->
  let r := looks (m :: l) (NewCache refresh) in
  (Targets m (looks l (NewCache refresh)).2).1 = mirrorTargets (lastRead r.1) /\
  exists asked, head r.1 = Some asked /\ (asked = m \/ time_Sub (mo_look m) (mo_keep asked) < ca_refresh (NewCache refresh)).
Proof.
  intros Hz. cbn [looks]. set (c0 := NewCache refresh) in *.
  assert (forall l, let r := looks l c0 in ca_val r.2 = lastRead r.1 /\ ca_refresh r.2 = ca_refresh c0 /\
    ca_last r.2 = from_option mo_keep zeroTime (head r.1)) as Hinv.
  { clear m l Hz. induction l as [|m l IH]; [done|]. cbn [looks]. destruct (looks l c0) as [log c]. cbn [fst snd] in *. destruct IH as (I1 & I2 & I3).
    unfold Targets. destruct (_ <? _); cbn [negb fst snd]; [done|]. cbn [lastRead head from_option].
    destruct (mo_read m); cbn [snd ca_val ca_refresh ca_last]; done. }
  destruct (Hinv l) as (I1 & I2 & I3). clear Hinv. destruct (looks l c0) as [log c]. cbn [fst snd] in *. unfold Targets.
  destruct (time_Sub (mo_look m) (ca_last c) <? ca_refresh c) eqn:E; cbn [negb fst snd].
  - apply Z.ltb_lt in E. rewrite I2, I3 in E. destruct log as [|a log]; [cbn [head from_option] in E; lia|]. split; [by rewrite I1|]. exists a. split; [done|]. by right.
  - cbn [lastRead head]. destruct (mo_read m); cbn [fst snd]; rewrite <- ?I1; (split; [done|]; exists m; split; [done|by left]).
Qed.

Lemma setting_followed_witness :
  let on := mkMirror true ["http://vm2:8428"] in let first := mkMoment (100 * Second) (inl on) (101 * Second) in
  (Targets (mkMoment (140 * Second) (inr errBlip) (141 * Second)) (looks [first] (NewCache 0)).2).1 = ["http://vm2:8428"].
Proof. apply (setting_followed 0 (mkMoment (140 * Second) (inr errBlip) (141 * Second)) [mkMoment (100 * Second) (inl (mkMirror true ["http://vm2:8428"])) (101 * Second)]). vm_compute. discriminate. Defined.

(** ** Copying *)

Section import_properties.
Context (answer : Target -> string -> bytes -> reply) (clock : Target -> Time) (StatusText : Z -> string).

Definition times (url : string) (t : Target) : Z := default 0 (mirrorSamples t !! url) + default 0 (mirrorFailed t !! url).

Lemma mirror_step url body t : let t' := mirror answer clock StatusText url body t in
  sent t' = sent t ++ [(url +:+ "/api/v1/import", body)] /\ forall u, times u t' = times u t + if bool_decide (u = url) then 1 else 0.
Proof.
  unfold mirror. destruct (post _ _ _ _ _) as [[e|] t1] eqn:Ep.
  - assert (t1 = t <| sent := sent t ++ [(url +:+ "/api/v1/import", body)] |>) as -> by (unfold post in Ep; congruence).
    unfold warn. match goal with |- context[if ?b then _ else _] => generalize b end. intros []; cbn zeta; (split; [done|]); intros u; unfold times, Inc; cbn;
      case_bool_decide as E; subst; rewrite ?lookup_insert_eq, ?lookup_insert_ne by done; cbn; lia.
  - assert (t1 = t <| sent := sent t ++ [(url +:+ "/api/v1/import", body)] |>) as -> by (unfold post in Ep; congruence).
    cbn zeta. split; [done|]. intros u. unfold times, Inc. cbn. case_bool_decide as E; subst; rewrite ?lookup_insert_eq, ?lookup_insert_ne by done; cbn; lia.
Qed.

(** A body goes to the primary store first. If that does not take it the
    error is returned and nothing is sent elsewhere. If it does, the import
    has succeeded whatever becomes of the copies: each mirror is sent the
    same body once, in order, and each is counted as copied or as a hole. *)
Theorem copies_exact primary mirrors body t :
  let (e, t') := Import answer clock StatusText primary mirrors body t in
  e = (post answer StatusText primary body t).1 /\
  match e with
  | Some _ => t' = t <| sent := sent t ++ [(primary +:+ "/api/v1/import", body)] |>
  | None =>
      let targets := mirrors (t <| sent := sent t ++ [(primary +:+ "/api/v1/import", body)] |>) in
      sent t' = sent t ++ map (fun u => (u +:+ "/api/v1/import", body)) (primary :: targets) /\
      forall u, times u t' = times u t + len (filter (fun m => u = m) targets)
  end.
Proof.
  unfold Import. destruct (post _ _ _ _ _) as [[e|] t1] eqn:Ep.
  - split; [done|]. unfold post in Ep. congruence.
  - split; [done|]. assert (t1 = t <| sent := sent t ++ [(primary +:+ "/api/v1/import", body)] |>) as E1 by (unfold post in Ep; congruence).
    assert (forall l t1, let t2 := foldl (fun t m => mirror answer clock StatusText m body t) t1 l in
      sent t2 = sent t1 ++ map (fun u => (u +:+ "/api/v1/import", body)) l /\ forall u, times u t2 = times u t1 + len (filter (fun m => u = m) l)) as H.
    { clear. induction l as [|m l IH]; intros t1; cbn [foldl map]; [rewrite app_nil_r; split; [done|]; intros u; rewrite filter_nil, len_nil; lia|].
      destruct (IH (mirror answer clock StatusText m body t1)) as [-> H2]. destruct (mirror_step m body t1) as [-> H4]. rewrite <- app_assoc. split; [done|].
      intros u. rewrite H2, H4, filter_cons. case_decide as E.
      - rewrite bool_decide_eq_true_2 by done. rewrite len_cons. lia.
      - rewrite bool_decide_eq_false_2 by done. lia. }
    rewrite E1. destruct (H (mirrors (t <| sent := sent t ++ [(primary +:+ "/api/v1/import", body)] |>)) (t <| sent := sent t ++ [(primary +:+ "/api/v1/import", body)] |>)) as [H1 H2].
    cbn zeta in *. split; [rewrite H1; cbn; by rewrite <- app_assoc|]. intros u. by rewrite H2.
Qed.

(** Of one target no two failures are logged within a minute. *)
Fixpoint spaced (l : list Time) : Prop :=
  match l with a :: ((b :: _) as l') => Minute <= b - a /\ spaced l' | _ => True end.
Definition loggedAt (url : string) (t : Target) : list Time := map snd (filter (fun w => w.1 = url) (warnings t)).
Definition warned_ok (t : Target) : Prop := forall url, spaced (loggedAt url t) /\ last (loggedAt url t) = warnOnce t !! url.

Lemma spaced_snoc l x : spaced l -> (forall y, last l = Some y -> Minute <= x - y) -> spaced (l ++ [x]).
Proof.
  induction l as [|a l IH]; [done|]. destruct l as [|b l]; cbn [app spaced]; intros Hs Hl; [split; [by apply Hl|done]|].
  destruct Hs as [? Hs]. split; [done|]. by apply IH.
Qed.

Lemma time_Sub_atleast now last_ d : 0 < d -> d <= time_Sub now last_ -> d <= now - last_.
Proof. unfold time_Sub, maxDuration, minDuration. change Minute with (60 * 10^9) in *. intros; lia. Qed.

Lemma warn_ok url t : warned_ok t -> warned_ok (warn clock url t).
Proof.
  intros Hok. unfold warn. destruct (match warnOnce t !! url with Some _ => _ | None => _ end) eqn:E; [done|]. intros u. unfold loggedAt. cbn.
  rewrite filter_app, map_app, filter_cons. cbn. destruct (Hok u) as [H1 H2]. unfold loggedAt in H1, H2. destruct (decide (url = u)) as [<-|Hne].
  - rewrite lookup_insert_eq. cbn. split; [|apply last_snoc]. apply spaced_snoc; [done|]. intros y Hy. rewrite H2 in Hy. rewrite Hy in E.
    apply Z.ltb_ge in E. apply time_Sub_atleast; [done|done].
  - rewrite lookup_insert_ne by done. cbn. by rewrite app_nil_r.
Qed.

Lemma warned_import primary mirrors body t : warned_ok t -> warned_ok (Import answer clock StatusText primary mirrors body t).2.
Proof.
  intros Hok. unfold Import. destruct (post _ _ _ _ _) as [e t1] eqn:Ep.
  assert (warned_ok t1) as H1 by (assert (t1 = t <| sent := sent t ++ [(primary +:+ "/api/v1/import", body)] |>) as -> by (unfold post in Ep; congruence); exact Hok).
  clear Ep Hok. destruct e; [done|]. cbn [snd]. generalize (mirrors t1). intros ms. revert t1 H1. induction ms as [|m l IH]; intros t1 H1; [done|]. cbn [foldl]. apply IH.
  unfold mirror. destruct (post answer StatusText m body t1) as [[e|] t2] eqn:Ep;
    (assert (t2 = t1 <| sent := sent t1 ++ [(m +:+ "/api/v1/import", body)] |>) as -> by (unfold post in Ep; congruence)); [apply warn_ok|]; exact H1.
Qed.

(** Of one target no two failures are logged within a minute, whatever
    comes and whatever the clock does. *)
Theorem warnings_spaced primary (l : list ((Target -> list string) * bytes)) url :
  spaced (loggedAt url (foldl (fun t b => (Import answer clock StatusText primary b.1 b.2 t).2) (mkTarget [] ∅ ∅ ∅ []) l)).
Proof.
  assert (forall t, warned_ok t -> warned_ok (foldl (fun t b => (Import answer clock StatusText primary b.1 b.2 t).2) t l)) as H.
  { induction l as [|b l IH]; intros t Ht; [done|]. cbn [foldl]. apply IH. by apply warned_import. }
  apply H. intros u. unfold loggedAt. cbn. by rewrite lookup_empty.
Qed.
End import_properties.

(** ** Branding *)

Section branding_properties.
Context (DecodeString : string -> option bytes) (Quote : string -> string).
Context {Doc : Type} (Marshal : Branding -> Doc) (Unmarshal : Doc -> option Branding).

Lemma columnByKey_Key k c : columnByKey k = Some c -> Key c = k.
Proof. unfold columnByKey. intros H%head_Some_elem_of. by apply list_elem_of_filter in H as [? _]. Qed.

Lemma columnError_none cols : forall seen, columnError Quote seen cols = None ->
  map Key (columnsByKey cols) = cols /\ NoDup cols /\ forall k, k ∈ cols -> k ∉ seen.
Proof.
  induction cols as [|k cols IH]; intros seen; cbn [columnError]; [intros _; split; [done|]; split; [apply NoDup_nil_2|by intros k ?%elem_of_nil]|].
  unfold columnsByKey at 1 2. cbn [omap list_omap]. destruct (columnByKey k) as [c|] eqn:Ec; [|done]. destruct (bool_decide (k ∈ seen)) eqn:Es; [done|].
  apply bool_decide_eq_false in Es. intros (H1 & H2 & H3)%IH. apply columnByKey_Key in Ec. cbn [map]. rewrite Ec. unfold columnsByKey in H1. rewrite H1.
  split; [done|]. split.
  - apply NoDup_cons. split; [|done]. intros Hk. apply (H3 k Hk). by left.
  - intros x [->|Hx]%elem_of_cons; [done|]. intros Hin. apply (H3 x Hx). by right.
Qed.

Lemma dataURI_kind s k d : dataURI s = Some (k, d) -> k ∈ imageKinds.
Proof.
  unfold dataURI. intros H%head_Some_elem_of. apply list_elem_of_omap in H as (x & Hx & E). destruct (_ && _); [|done]. by injection E as -> _.
Qed.

(** What is accepted of a branding is what the report shows: the columns
    asked for, each once and in their order, or those by default when there
    is none; texts of at most 200 bytes; and a logo, where there is one, that
    can be drawn and has at most 512 KB. It is read back as it was answered;
    what is refused changes nothing. *)
Theorem branding_honoured walk up b row : (forall l, walk l ≡ₚ l) -> (forall b, Unmarshal (Marshal b) = Some b) ->
  match PutBranding DecodeString Quote Marshal walk up b row with
  | (inr _, row') => row' = row
  | (inl b', row') => GetBranding Unmarshal true row' = inl b' /\
      map Key (ColumnsOrDefault b') = match Columns b with [] => DefaultReportColumns | cols => cols end /\ NoDup (Columns b) /\
      slen (Company b') <= 200 /\ slen (Subtitle b') <= 200 /\ slen (Footer b') <= 200 /\
      (Accent b' <> "" -> is_Some (hexColour (Accent b'))) /\ ChartsEnabled b' = ChartsEnabled b /\ ChartsPerRow b' = ChartsPerRow b /\
      (Logo b' <> "" -> exists raw kind, LogoBytes DecodeString b' = (Some raw, kind) /\ kind ∈ ["png"; "jpeg"; "gif"] /\ len raw <= 512 * 1024)
  end.
Proof.
  intros Hw HM. unfold PutBranding, normalized. set (b1 := mkBranding _ _ _ _ _ _ _ _).
  destruct (head (filter _ (walk (texts b1)))) eqn:Et; [done|]. destruct (_ && bool_decide (hexColour (Accent b1) = None)) eqn:Ea; [done|].
  destruct (negb (bool_decide (TrimSpace (Charts b1) ∈ _))); [done|]. destruct (negb (bool_decide (TrimSpace (ChartSize b1) ∈ _))); [done|].
  destruct (columnError Quote [] (Columns b1)) eqn:Ec; [done|]. destruct (logoError DecodeString b1) eqn:El; [done|]. destruct up; [|done].
  apply columnError_none in Ec as (E1 & E2 & _). split; [unfold GetBranding; cbn; by rewrite HM|]. split.
  { unfold ColumnsOrDefault. change (Columns b1) with (Columns b) in *. destruct (columnsByKey (Columns b)) as [|c l] eqn:E.
    - cbn in E1. rewrite <- E1. reflexivity.
    - rewrite E1. by destruct (Columns b). }
  split; [done|]. assert (forall nv, nv ∈ texts b1 -> slen nv.2 <= 200) as Ht.
  { intros nv Hnv. apply head_None in Et. destruct (decide (maxBrandTextLen < slen nv.2)) as [Hl|?]; [|unfold maxBrandTextLen in *; lia]. exfalso.
    assert (nv ∈ filter (fun nv => maxBrandTextLen < slen nv.2) (walk (texts b1))) as H by (apply list_elem_of_filter; split; [done|by rewrite Hw]).
    rewrite Et in H. by apply elem_of_nil in H. }
  split; [apply (Ht ("company", Company b1)); by left|]. split; [apply (Ht ("subtitle", Subtitle b1)); right; by left|].
  split; [apply (Ht ("footer", Footer b1)); right; right; by left|]. split.
  { intros Hne. rewrite (bool_decide_eq_false_2 (Accent b1 = "")) in Ea by done. cbn [negb andb] in Ea. apply bool_decide_eq_false in Ea. by destruct (hexColour (Accent b1)). }
  split; [done|]. split; [done|]. intros Hne. unfold logoError in El. rewrite (bool_decide_eq_false_2 (Logo b1 = "")) in El by done.
  destruct (LogoBytes DecodeString b1) as [raw kind] eqn:Elb. unfold LogoBytes in Elb. destruct (dataURI _) as [[k d]|] eqn:Ed; [|by injection Elb as <- <-].
  destruct (DecodeString d) as [r|]; [|by injection Elb as <- <-]. injection Elb as <- <-. apply dataURI_kind in Ed.
  destruct (bool_decide ((if bool_decide (k = "jpg") then "jpeg" else k) = "")); [done|]. destruct (maxLogoBytes <? _) eqn:Em; [done|]. apply Z.ltb_ge in Em.
  exists r, (if bool_decide (k = "jpg") then "jpeg" else k). split; [done|]. split; [|exact Em].
  unfold imageKinds in Ed. rewrite !elem_of_cons, elem_of_nil in Ed. destruct Ed as [->|[->|[->|[->|[]]]]]; cbn; set_solver.
Qed.
End branding_properties.

Lemma branding_honoured_witness :
  match PutBranding (fun _ => None) (fun s => s) (fun b => b) (fun l => l) true (noBranding <| Company := " Acme " |> <| Columns := ["speed"; "alias"] |>) None with
  | (inl b', _) => Company b' = "Acme" /\ map Key (ColumnsOrDefault b') = ["speed"; "alias"]
  | _ => False
  end.
Proof.
  pose proof (branding_honoured (fun _ => None) (fun s => s) (fun b => b) Some (fun l => l) true (noBranding <| Company := " Acme " |> <| Columns := ["speed"; "alias"] |>) None) as H.
  destruct (PutBranding _ _ _ _ _ _ _) as [[b'|e] row'] eqn:E.
  - split; [vm_compute in E; by injection E as <- _|]. by apply H.
  - vm_compute in E. discriminate.
Defined.

(** Hexadecimal digits are read back. *)
Lemma hex_pair c : exists h l, to_bytes (hex_digit (bz c / 16)) = [h] /\ to_bytes (hex_digit (bz c mod 16)) = [l] /\
  hexVal h = Some (bz c / 16) /\ hexVal l = Some (bz c mod 16).
Proof. destruct c; do 2 eexists; by split_and!. Qed.

(** The colour said is the colour drawn. *)
Lemma accent_drawn b r g bl : TrimSpace (Accent b) = "#" +:+ hex_bytes [r; g; bl] -> AccentRGB b = (bz r, bz g, bz bl).
Proof.
  intros E. unfold AccentRGB. rewrite E. unfold hexColour. cbn [hex_bytes]. rewrite !to_bytes_app.
  destruct (hex_pair r) as (r1 & r2 & -> & -> & R1 & R2), (hex_pair g) as (g1 & g2 & -> & -> & G1 & G2), (hex_pair bl) as (b1 & b2 & -> & -> & B1 & B2).
  cbn [app forallb length to_bytes String.list_byte_of_string]. change (to_bytes "#") with [zb 35]. change (to_bytes "") with (@nil byte). cbn [app forallb length].
  rewrite !bool_decide_eq_true_2 by eauto using mk_is_Some. cbn [andb]. unfold hexPair. rewrite R1, R2, G1, G2, B1, B2. cbn [default].
  assert (forall c, (0 * 16 + bz c / 16) * 16 + bz c mod 16 = bz c) as Hb by (intros c; pose proof (Z.div_mod (bz c) 16); lia).
  cbn -[Z.div Z.modulo Z.mul Z.add]. by rewrite !Hb.
Qed.
