(* ===== verification/Channels.v ===== *)
(** Packages notify/adapters/postgres (store.go), notify/adapters/senders
    (senders.go) and notify/adapters/httpapi (channels.go): the channels that
    notifications go to, with their sealed secrets, and the senders.

    JSON, HMAC, [http.CanonicalHeaderKey], the printing of floats and times,
    SMTP and what an endpoint answers are parameters; statements are functions
    of the table. *)
From Stdlib Require Import ZArith Lia.
From stdpp Require Import base list gmap strings pretty numbers sorting.
From S2P Require Import Prelude GoText World Errx Wire GoSort Vault Notify.

(** A row of [notify.channels]. *)
Record ChannelRow : Type := mkChannelRow {
  cw_ID : string; cw_Name : string; cw_Kind : string; cw_Config : list (string * Json);
  cw_Secret : bytes; cw_DEK : bytes; cw_KeyVersion : option Z; cw_Enabled : bool; cw_Created : Time
}.
Abbreviation Table := (list ChannelRow).
Definition kinds : list string := ["email"; "webhook"; "slack"].
Definition invalid (msg : string) : Err := New KindInvalid msg.

Section store.
Context `{AEAD} {K : Type} `{KeyProvider K} (kp : K).
(** [json.Marshal] of a secret, and what [json.Unmarshal] makes of a text. *)
Context (Marshal : gmap string string -> bytes) (Unmarshal : bytes -> gmap string string).
Context (by_name : Table -> Table).

Definition unseal (r : ChannelRow) : Channel + Err :=
  let ch := mkChannel (cw_ID r) (cw_Name r) (cw_Kind r) (cw_Config r) in
  if 0 <? len (cw_Secret r) then
    match Decrypt kp (mkEnvelope (cw_Secret r) (cw_DEK r) (default 1 (cw_KeyVersion r))) with
    | inr e => inr (kindError KindInternal (ErrWrap "unseal channel secret" e))
    | inl plain => inl (ch (Unmarshal plain))
    end
  else inl (ch ∅).
Fixpoint unsealAll (l : Table) : list Channel + Err :=
  match l with
  | [] => inl []
  | r :: l => match unseal r with inr e => inr e | inl ch => match unsealAll l with inr e => inr e | inl chs => inl (ch :: chs) end end
  end.
Definition EnabledChannels_ (t : Table) : list Channel + Err := unsealAll (by_name (filter (fun r => Is_true (cw_Enabled r)) t)).

Definition repoCreate (id name kind : string) (config : list (string * Json)) (secret : gmap string string) (d : draws) (now : Time) (t : Table)
    : (string + Err) * Table :=
  let row := fun ct dek ver => mkChannelRow id name kind config ct dek (if ver =? 0 then None else Some ver) true now in
  let insert := fun r =>
    if bool_decide (id ∈ map cw_ID t) || bool_decide (name ∈ map cw_Name t) || negb (bool_decide (kind ∈ kinds))
    then (inr (kindError KindConflict (ErrWrap "insert channel" (ErrText "violates constraint"))), t) else (inl id, t ++ [r]) in
  if bool_decide (secret = ∅) then insert (row [] [] 0) else
  match Encrypt kp (Marshal secret) d with
  | inr e => (inr (kindError KindInternal (ErrWrap "seal channel secret" e)), t)
  | inl env => insert (row (Ciphertext env) (WrappedDEK env) (KeyVersion env))
  end.

(** What is listed of a channel. *)
Record Listed : Type := mkListed { li_ID : string; li_Name : string; li_Kind : string; li_Config : list (string * Json); li_Enabled : bool; li_Created : Time }.
Definition repoList (t : Table) : list Listed :=
  map (fun r => mkListed (cw_ID r) (cw_Name r) (cw_Kind r) (cw_Config r) (cw_Enabled r) (cw_Created r)) (by_name t).
Definition repoDelete (id : string) (t : Table) : option Err * Table :=
  if bool_decide (id ∈ map cw_ID t) then (None, filter (fun r => cw_ID r <> id) t) else (Some (New KindNotFound "channel not found"), t).

(** ** The handlers *)

Record CreateRequest : Type := mkCreateRequest { cq_Name : string; cq_Kind : string; cq_Config : list (string * Json); cq_Secret : gmap string string }.
Definition create (id : string) (body : option CreateRequest) (d : draws) (now : Time) (t : Table) : (string + Err) * Table :=
  match body with
  | None => (inr (invalid "name and kind are required"), t)
  | Some q =>
      if bool_decide (cq_Name q = "") || bool_decide (cq_Kind q = "") then (inr (invalid "name and kind are required"), t)
      else if negb (bool_decide (cq_Kind q ∈ kinds)) then (inr (invalid "kind must be email, webhook or slack"), t)
      else repoCreate id (cq_Name q) (cq_Kind q) (cq_Config q) (cq_Secret q) d now t
  end.
Definition testEvent : AlertEvent := mkAlertEvent "alert.fired" "test" "" "Test notification" "info" "" "" ∅ 0 zeroTime "NetInv channel test — configuration works." "".
(** [Some] error is the failure the sender told of. *)
Definition test (senderOf : string -> option (Channel -> AlertEvent -> option Err)) (id : string) (t : Table) : option Err + Err :=
  match EnabledChannels_ t with
  | inr e => inr e
  | inl chs =>
      match head (filter (fun ch => ch_ID ch = id) chs) with
      | None => inr (New KindNotFound "channel not found or disabled")
      | Some ch => match senderOf (ch_Kind ch) with
                   | None => inr (invalid ("no sender for kind " +:+ ch_Kind ch))
                   | Some send => inl (send ch testEvent)
                   end
      end
  end.
End store.

(** ** Senders *)

Definition field (k : string) (l : list (string * Json)) : option Json := snd <$> head (filter (fun kv => kv.1 = k) l).
Definition asString (j : option Json) : string := match j with Some (JString s) => s | _ => "" end.
Definition newline : string := of_bytes [zb 10].
Definition crlf : string := of_bytes [zb 13; zb 10].

Inductive reply : Type := Unreachable (e : Err) | Answered (status : Z).
Record Request : Type := mkRequest { rq_URL : string; rq_Header : gmap string string; rq_Body : bytes }.
Record Mail : Type := mkMail { ml_Addr : string; ml_Auth : option (string * string); ml_From : string; ml_To : list string; ml_Message : string }.

Section senders.
Context (ToUpper : string -> string) (fmt_g : Z -> string) (float_int : Z -> Z) (RFC3339 : Time -> string).
Context (MarshalEvent : AlertEvent -> bytes) (MarshalText : string -> bytes).
Context (Canonical : string -> string) (hmac_sha256 : bytes -> bytes -> bytes) (badURL : string -> option Err).

Definition subject (ev : AlertEvent) : string :=
  let verb := if bool_decide (ev_Event ev = "alert.resolved") then "RESOLVED" else "FIRING" in
  "[" +:+ verb +:+ "] [" +:+ ToUpper (ev_Severity ev) +:+ "] " +:+ ev_RuleName ev.
Definition textBody (ev : AlertEvent) : string :=
  let dev := default "" (ev_Labels ev !! "device") in let ifn := default "" (ev_Labels ev !! "if_index") in
  subject ev +:+ newline +:+ newline +:+ ev_Summary ev +:+ newline +:+
  (if bool_decide (dev = "") then "" else "Device: " +:+ dev +:+ newline) +:+
  (if bool_decide (ifn = "") then "" else "Interface index: " +:+ ifn +:+ newline) +:+
  "Value: " +:+ fmt_g (ev_Value ev) +:+ newline +:+ "Fired: " +:+ RFC3339 (ev_FiredAt ev) +:+ newline +:+
  (if bool_decide (ev_GraphURL ev = "") then "" else "Graph: " +:+ ev_GraphURL ev +:+ newline).

Definition strings_of (j : option Json) : list string := match j with Some (JArray l) => omap (fun x => match x with JString s => Some s | _ => None end) l | _ => [] end.
Definition emailOf (ch : Channel) (ev : AlertEvent) : Mail + Err :=
  let host := asString (field "host" (ch_Config ch)) in let from := asString (field "from" (ch_Config ch)) in
  let port := match field "port" (ch_Config ch) with Some (JNumber b) => float_int b | _ => 0 end in
  let to := strings_of (field "to" (ch_Config ch)) in
  if bool_decide (host = "") || bool_decide (from = "") || bool_decide (to = []) then inr (invalid "email channel misconfigured") else
  let pw := default "" (ch_Secret ch !! "password") in
  inl (mkMail (host +:+ ":" +:+ Itoa port)
    (if bool_decide (pw = "") then None else Some (asString (field "username" (ch_Config ch)), pw)) from to
    ("From: " +:+ from +:+ crlf +:+ "To: " +:+ Join to ", " +:+ crlf +:+ "Subject: " +:+ subject ev +:+ crlf +:+
     "Content-Type: text/plain; charset=utf-8" +:+ crlf +:+ crlf +:+ textBody ev)).
Definition Email_Send (SendMail : Mail -> option Err) (ch : Channel) (ev : AlertEvent) : option Err :=
  match emailOf ch ev with
  | inr e => Some e
  | inl m => match SendMail m with Some e => Some (kindError KindTransient (ErrWrap "smtp send" e)) | None => None end
  end.

Definition doPost (r : reply) : option Err :=
  match r with
  | Unreachable e => Some (kindError KindTransient (ErrWrap "post" e))
  | Answered status =>
      if status <? 300 then None
      else if status <? 500 then Some (invalid ("endpoint rejected notification (status " +:+ Itoa status +:+ ")"))
      else Some (New KindTransient ("endpoint error (status " +:+ Itoa status +:+ ")"))
  end.

(** [req.Header.Set]; [walk] is the order the configured headers come in. *)
Definition Header_Set (k v : string) (h : gmap string string) : gmap string string := <[Canonical k := v]> h.
Definition setHeaders (j : option Json) (walk : list (string * Json) -> list (string * Json)) (h : gmap string string) : gmap string string :=
  match j with
  | Some (JObject l) => foldl (fun h kv => match kv.2 with JString s => Header_Set kv.1 s h | _ => h end) h (walk l)
  | _ => h
  end.
Definition webhookOf (walk : list (string * Json) -> list (string * Json)) (ch : Channel) (ev : AlertEvent) : Request + Err :=
  let url := asString (field "url" (ch_Config ch)) in
  let url := if bool_decide (url = "") then default "" (ch_Secret ch !! "url") else url in
  if bool_decide (url = "") then inr (invalid "webhook channel misconfigured") else
  let payload := MarshalEvent ev in
  match badURL url with
  | Some e => inr e
  | None =>
      let h := setHeaders (field "headers" (ch_Config ch)) walk (Header_Set "Content-Type" "application/json" ∅) in
      let key := default "" (ch_Secret ch !! "hmac_key") in
      inl (mkRequest url (if bool_decide (key = "") then h else Header_Set "X-NetInv-Signature" ("sha256=" +:+ hex_bytes (hmac_sha256 (to_bytes key) payload)) h) payload)
  end.
Definition slackOf (ch : Channel) (ev : AlertEvent) : Request + Err :=
  let url := default "" (ch_Secret ch !! "url") in
  if bool_decide (url = "") then inr (invalid "slack channel misconfigured") else
  let emoji := if bool_decide (ev_Event ev = "alert.resolved") then ":large_green_circle:"
               else if bool_decide (ev_Severity ev = "warning") then ":large_yellow_circle:" else ":red_circle:" in
  let text := emoji +:+ " *" +:+ subject ev +:+ "*" +:+ newline +:+ ev_Summary ev in
  let text := if bool_decide (ev_GraphURL ev = "") then text else text +:+ newline +:+ "<" +:+ ev_GraphURL ev +:+ "|View graph>" in
  match badURL url with
  | Some e => inr e
  | None => inl (mkRequest url (Header_Set "Content-Type" "application/json" ∅) (MarshalText text))
  end.
Definition Webhook_Send (post : Request -> reply) walk (ch : Channel) (ev : AlertEvent) : option Err :=
  match webhookOf walk ch ev with inr e => Some e | inl r => doPost (post r) end.
Definition Slack_Send (post : Request -> reply) (ch : Channel) (ev : AlertEvent) : option Err :=
  match slackOf ch ev with inr e => Some e | inl r => doPost (post r) end.
End senders.

(** * Properties *)

(** ** Channels *)

Section channels.
Context `{AEAD} {K : Type} `{KeyProvider K} (kp : K).
Context (Marshal : gmap string string -> bytes) (Unmarshal : bytes -> gmap string string).
Context (by_name : Table -> Table) (by_name_perm : forall l, by_name l ≡ₚ l).

Definition opened (r : ChannelRow) (ch : Channel) : Prop := cw_Enabled r = true /\ unseal kp Unmarshal r = inl ch /\ cw_ID r = ch_ID ch.

Lemma unsealAll_all l chs : Forall2 opened l chs -> unsealAll kp Unmarshal l = inl chs.
Proof. induction 1 as [|r ch l chs (_ & Ho & _) _ IH]; cbn [unsealAll]; [done|]. by rewrite Ho, IH. Qed.

Lemma opened_perm l l' chs : l ≡ₚ l' -> Forall2 opened l chs -> exists chs', Forall2 opened l' chs' /\ chs' ≡ₚ chs.
Proof.
  intros Hp. revert chs. induction Hp as [|x l l' Hp IH|x y l|l l2 l3 H1 IH1 H2 IH2]; intros chs Hf.
  - exists chs. split; done.
  - apply Forall2_cons_inv_l in Hf as (c & chs' & Hc & Hf & ->). apply IH in Hf as (k & Hk & Ep). exists (c :: k). split; [by constructor|]. by rewrite Ep.
  - apply Forall2_cons_inv_l in Hf as (c & chs' & Hc & Hf & ->). apply Forall2_cons_inv_l in Hf as (c2 & chs'' & Hc2 & Hf & ->).
    exists (c2 :: c :: chs''). split; [constructor; [done|by constructor]|]. apply Permutation_swap.
  - apply IH1 in Hf as (k & Hk & Ek). apply IH2 in Hk as (k2 & Hk2 & Ek2). exists k2. split; [done|]. by rewrite Ek2.
Qed.

Lemma enabled_all l chs : Forall2 opened l chs -> filter (fun r => Is_true (cw_Enabled r)) l = l.
Proof. induction 1 as [|r ch l chs (He & _) _ IH]; [done|]. rewrite filter_cons, He, IH. by case_decide. Qed.

(** One secret that does not open keeps every channel from being notified. *)
Lemma one_bad_stops_all r e t : r ∈ t -> cw_Enabled r = true -> unseal kp Unmarshal r = inr e -> exists e', EnabledChannels_ kp Unmarshal by_name t = inr e'.
Proof using by_name_perm.
  intros Hr He Hu. unfold EnabledChannels_. assert (r ∈ by_name (filter (fun r => Is_true (cw_Enabled r)) t)) as Hin
    by (rewrite by_name_perm; apply list_elem_of_filter; split; [by apply Is_true_eq_left|done]).
  induction (by_name _) as [|x l IH]; [by apply elem_of_nil in Hin|]. cbn [unsealAll]. destruct (unseal kp Unmarshal x) as [ch|e'] eqn:Ex; [|by eexists].
  apply elem_of_cons in Hin as [<-|Hin]; [congruence|]. destruct (IH Hin) as [e' ->]. by eexists.
Qed.
End channels.

Inductive ask : Type := ACreate (id : string) (body : option CreateRequest) (d : draws) (now : Time) | ADelete (id : string).

Section asks.
Context `{AEAD} (m : EnvMasterKey).
Context (Marshal : gmap string string -> bytes) (Unmarshal : bytes -> gmap string string) (by_name : Table -> Table).

(** A request done on the table, and on what the channels are said to be. *)
Definition both (a : ask) (s : Table * list Channel) : Table * list Channel :=
  match a with
  | ACreate id body d now =>
      match create m Marshal id body d now s.1, body with
      | (inl _, t), Some q => (t, s.2 ++ [mkChannel id (cq_Name q) (cq_Kind q) (cq_Config q) (cq_Secret q)])
      | (_, t), _ => (t, s.2)
      end
  | ADelete id => match repoDelete id s.1 with (None, t) => (t, filter (fun ch => ch_ID ch <> id) s.2) | (Some _, t) => (t, s.2) end
  end.
Definition asks (l : list ask) : Table * list Channel := foldl (fun s a => both a s) ([], []) l.
(** What is drawn has its size, and JSON gives the secret back. *)
Definition sound (a : ask) : Prop :=
  match a with
  | ACreate _ (Some q) d _ => cq_Secret q <> ∅ -> (exists dek np nw, drawn d dek np nw) /\ Unmarshal (Marshal (cq_Secret q)) = cq_Secret q
  | _ => True
  end.

Lemma both_ok ks a s : NewEnvMasterKey ks 1 = inl m -> sound a -> Forall2 (opened m Unmarshal) s.1 s.2 -> Forall2 (opened m Unmarshal) (both a s).1 (both a s).2.
Proof.
  intros Hm Ha Hs. destruct a as [id body d now|id]; cbn [both].
  - unfold create. destruct body as [q|]; [|done]. destruct (bool_decide _ || _); [done|]. destruct (negb _); [done|].
    unfold repoCreate. destruct (bool_decide (cq_Secret q = ∅)) eqn:Ee.
    + apply bool_decide_eq_true in Ee. destruct (_ || _ || _); [done|]. cbn [fst snd]. apply Forall2_app; [done|]. constructor; [|constructor].
      split; [done|]. split; [|done]. unfold unseal. cbn. by rewrite Ee.
    + apply bool_decide_eq_false in Ee. destruct (Ha Ee) as [(dek & np & nw & Hd) HM]. pose proof (env_opens _ _ _ Hm) as Ho. destruct (seal_opens m (Marshal (cq_Secret q)) d dek np nw Hd) as (env & E1 & E2 & _). rewrite E1.
      destruct (_ || _ || _); [done|]. cbn [fst snd]. apply Forall2_app; [done|]. constructor; [|constructor]. split; [done|]. split; [|done].
      assert (KeyVersion env = 1 /\ 0 < len (Ciphertext env)) as [Ev El].
      { destruct Hd as (-> & Hk & Hn & _). unfold Encrypt in E1. cbn [dr_dek dr_payload dr_wrap] in E1. unfold gcmSeal at 1 in E1. destruct (keyError dek); [done|].
        unfold WrapDEK, env_keys in E1. destruct (gcmSeal _ _ _); [|done]. injection E1 as <-. cbn [KeyVersion Ciphertext]. split.
        - apply provided in Hm as (-> & _). done.
        - rewrite len_app. unfold len at 1. rewrite Hn. pose proof (len_nonneg (Seal dek np (Marshal (cq_Secret q)))). unfold NonceSize. lia. }
      unfold unseal. cbn [cw_Secret cw_DEK cw_KeyVersion]. rewrite (proj2 (Z.ltb_lt _ _) El), Ev. cbn [Z.eqb default]. destruct env as [ct w v]. cbn in *. subst v.
      rewrite E2. cbn. by rewrite HM.
  - unfold repoDelete. destruct (bool_decide _); [|done]. cbn [fst snd]. induction Hs as [|r ch l chs Ho Hs IH]; [done|]. rewrite !filter_cons.
    destruct Ho as (H1 & H2 & H3). rewrite H3. case_decide; [constructor; [done|exact IH]|exact IH].
Qed.

(** C33. After any creations and deletions of channels, what is notified are
    exactly those created and not deleted, each with the configuration and
    the secret it was given. *)
Theorem channels_exact ks l : NewEnvMasterKey ks 1 = inl m -> (forall t, by_name t ≡ₚ t) -> Forall sound l ->
  exists chs, EnabledChannels_ m Unmarshal by_name (asks l).1 = inl chs /\ chs ≡ₚ (asks l).2.
Proof.
  intros Hm Hb Hl. assert (Forall2 (opened m Unmarshal) (asks l).1 (asks l).2) as Hall.
  { unfold asks. assert (Forall2 (opened m Unmarshal) (([], []) : Table * list Channel).1 (([], []) : Table * list Channel).2) as H0 by constructor. revert H0.
    generalize (([], []) : Table * list Channel). induction Hl as [|a l Ha Hl IH]; intros s Hs; [done|]. cbn [foldl]. apply IH. by eapply both_ok. }
  unfold EnabledChannels_. rewrite (enabled_all m Unmarshal _ _ Hall).
  apply (opened_perm m Unmarshal _ (by_name (asks l).1)) in Hall as (chs & Hc & Ep); [|by rewrite Hb]. exists chs. split; [by apply unsealAll_all|done].
Qed.
End asks.

#[local] Existing Instance plainAEAD.
Definition hook : gmap string string := {["url" := "https://hooks.example.org/T0"]}.
Definition demoAsks : list ask :=
  [ACreate "nc_1" (Some (mkCreateRequest "chat" "slack" [] hook)) demoDraws 0;
   ACreate "nc_2" (Some (mkCreateRequest "pager" "webhook" [("url", JString "https://pager.example.org")] ∅)) demoDraws 1; ADelete "nc_3"].

Lemma channels_exact_witness : exists chs,
  EnabledChannels_ demoKeys (fun _ => hook) (fun t => t) (asks demoKeys (fun _ => []) demoAsks).1 = inl chs /\ chs ≡ₚ (asks demoKeys (fun _ => []) demoAsks).2 /\
  map ch_ID (asks demoKeys (fun _ => []) demoAsks).2 = ["nc_1"; "nc_2"].
Proof.
  destruct (channels_exact demoKeys (fun _ => []) (fun _ => hook) (fun t => t) demoRing demoAsks) as (chs & H1 & H2).
  - exact demo_loaded.
  - done.
  - constructor; [intros _; split; [do 3 eexists; exact demo_drawn|reflexivity]|]. constructor; [by intros []|]. by constructor.
  - exists chs. split; [exact H1|]. split; [exact H2|]. vm_compute. reflexivity.
Defined.

(** When the master key is changed, the sealed secret of one channel stops
    them all, the one without a secret included. *)
Lemma rotation_silences : exists m', LoadEnvMasterKey during demoDecode = inl m' /\
  exists e, EnabledChannels_ m' (fun _ => hook) (fun t => t) (asks demoKeys (fun _ => []) demoAsks).1 = inr e.
Proof. eexists. split; [vm_compute; reflexivity|]. eexists. vm_compute. reflexivity. Qed.

(** ** Senders *)

Section senders_properties.
Context (ToUpper : string -> string) (fmt_g : Z -> string) (float_int : Z -> Z) (RFC3339 : Time -> string).
Context (MarshalEvent : AlertEvent -> bytes) (Canonical : string -> string) (hmac_sha256 : bytes -> bytes -> bytes) (badURL : string -> option Err).

(** A webhook carries the event and, when the channel has a key, the
    signature of just the body that is sent, whatever headers it is
    configured with; without a key none is made. It goes to the address of the
    configuration, or of the secret when there is none. *)
Theorem webhook_signed walk ch ev r : webhookOf MarshalEvent Canonical hmac_sha256 badURL walk ch ev = inl r ->
  rq_Body r = MarshalEvent ev /\ rq_URL r <> "" /\
  (asString (field "url" (ch_Config ch)) <> "" -> rq_URL r = asString (field "url" (ch_Config ch))) /\
  (asString (field "url" (ch_Config ch)) = "" -> ch_Secret ch !! "url" = Some (rq_URL r)) /\
  (forall key, ch_Secret ch !! "hmac_key" = Some key -> key <> "" ->
    rq_Header r !! Canonical "X-NetInv-Signature" = Some ("sha256=" +:+ hex_bytes (hmac_sha256 (to_bytes key) (rq_Body r)))).
Proof.
  unfold webhookOf. set (cfg := asString _). destruct (bool_decide ((if bool_decide (cfg = "") then _ else cfg) = "")) eqn:Eu; [done|]. apply bool_decide_eq_false in Eu.
  destruct (badURL _); [done|]. intros [= <-]. cbn [rq_Body rq_URL rq_Header]. split; [done|]. split; [done|]. split; [intros Hc; by rewrite bool_decide_eq_false_2|]. split.
  - intros Hc. rewrite bool_decide_eq_true_2 in Eu |- * by done. by destruct (ch_Secret ch !! "url").
  - intros key Hk Hne. rewrite Hk. cbn [default]. rewrite bool_decide_eq_false_2 by done. unfold Header_Set. by rewrite lookup_insert_eq.
Qed.

(** Where what the network says is not classified, a delivery is tried again just when it did not answer or
    said it was its own fault. *)
Lemma doPost_retried r : (forall e, r = Unreachable e -> origin e = None) -> retryable (doPost r) = true <-> (exists e, r = Unreachable e) \/ (exists s, r = Answered s /\ 500 <= s).
Proof.
  intros Hu. destruct r as [e|s]; cbn [doPost].
  - split; [intros _; left; by exists e|]. intros _. apply bool_decide_eq_true_2. unfold kindOf. cbn. by rewrite (Hu e).
  - destruct (s <? 300) eqn:E1; [|destruct (s <? 500) eqn:E2].
    + split; [done|]. intros [[e H]|(x & [= <-] & Hx)]; [done|lia].
    + split; [done|]. intros [[e H]|(x & [= <-] & Hx)]; [done|lia].
    + split; [intros _; right; exists s; split; [done|lia]|]. intros _. apply bool_decide_eq_true_2. reflexivity.
Qed.

(** A line break in the name of a rule ends the subject: what follows is read
    as headers of the message. *)
Lemma header_said name line ch ev m : ev_RuleName ev = name +:+ crlf +:+ line -> emailOf ToUpper fmt_g float_int RFC3339 ch ev = inl m ->
  exists before, ml_Message m = before +:+ crlf +:+ line +:+ crlf +:+ "Content-Type: text/plain; charset=utf-8" +:+ crlf +:+ crlf +:+ textBody ToUpper fmt_g RFC3339 ev.
Proof.
  intros En. unfold emailOf. set (from := asString (field "from" _)). set (to := strings_of _). destruct (_ || _ || _); [done|]. intros [= <-]. cbn [ml_Message]. unfold subject at 1. rewrite En.
  set (verb := if bool_decide (ev_Event ev = _) then _ else _). set (sev := ToUpper _). set (body := textBody _ _ _ _).
  exists ("From: " +:+ from +:+ crlf +:+ "To: " +:+ Join to ", " +:+ crlf +:+ "Subject: " +:+ "[" +:+ verb +:+ "] [" +:+ sev +:+ "] " +:+ name).
  clearbody from to verb sev body. generalize (Join to ", "). intros tos. rewrite !append_assoc. reflexivity.
Qed.
End senders_properties.

Definition aChannel : Channel := mkChannel "nc_1" "pager" "webhook" [("url", JString "https://pager.example.org"); ("headers", JObject [("X-NetInv-Signature", JString "none")])]
  {["hmac_key" := "k"]}.
Lemma webhook_signed_witness :
  match webhookOf (fun _ => to_bytes "{}") (fun s => s) (fun k p => k ++ p) (fun _ => None) (fun l => l) aChannel testEvent with
  | inl r => rq_Header r !! "X-NetInv-Signature" = Some ("sha256=" +:+ hex_bytes (to_bytes "k" ++ rq_Body r)) /\ rq_Body r = to_bytes "{}"
  | inr _ => False
  end.
Proof.
  pose proof (webhook_signed (fun _ => to_bytes "{}") (fun s => s) (fun k p => k ++ p) (fun _ => None) (fun l => l) aChannel testEvent) as H.
  destruct (webhookOf _ _ _ _ _ _ _) as [r|e] eqn:E.
  - destruct (H r eq_refl) as (H1 & _ & _ & _ & H2). split; [by apply H2|exact H1].
  - vm_compute in E. discriminate.
Defined.
