(* ===== verification/Series.v ===== *)
(** Packages metrics/adapters/victoriametrics (writer.go) and
    metrics/adapters/postgres (labels.go), and the ingester of cmd/ingester as
    it is put together: batches written to the metrics store, with the copies
    of Settings.v and the settlement of Ingest.v.

    JSON and what the stores answer are parameters. *)
From Stdlib Require Import ZArith Lia.
From stdpp Require Import base list gmap strings pretty numbers sorting.
From S2P Require Import Prelude GoText World Errx Retry Wire Settings Ingest.

(** ** The writer *)

Record importLine : Type := mkImportLine { il_Metric : gmap string string; il_Values : list Z; il_Timestamps : list Z }.
(** The loop over the labels comes after the name. *)
Definition lineOf (s : EnrichedSample) : importLine :=
  mkImportLine (es_Labels s ∪ {["__name__" := es_Name s]}) [es_Value s] [es_TSMillis s].

(** What the writer acts on: everything that was sent, and what the parts of
    the process keep. [wo_settled] is how deliveries were settled. *)
Record Process : Type := mkProcess { wo_target : Target; wo_settled : list string }.

Section writer.
(** [Encode] is a line of JSON with its end, [None] for a value it has no
    notation for *)
Context (Encode : importLine -> option bytes).
Context (answer : Target -> string -> bytes -> reply) (clock : Target -> Time) (StatusText : Z -> string) (BaseURL : string).

Fixpoint encodeAll (l : list EnrichedSample) : option bytes :=
  match l with [] => Some [] | s :: l => b ← Encode (lineOf s); bs ← encodeAll l; Some (b ++ bs) end.

(** [mirrors] is [None] where no target was installed. *)
Definition Write (mirrors : option (Target -> list string)) (samples : list EnrichedSample) (t : Target) : option Err * Target :=
  match samples with
  | [] => (None, t)
  | _ =>
      match encodeAll samples with
      | None => (Some (kindError KindInternal (ErrWrap "vm: encode" (ErrText "json: unsupported value"))), t)
      | Some body =>
          match mirrors with
          | Some fn => Import answer clock StatusText BaseURL fn body t
          | None =>
              let t' := t <| sent := sent t ++ [(BaseURL +:+ "/api/v1/import", body)] |> in
              match answer t BaseURL body with
              | Unreachable e => (Some (kindError KindTransient (ErrWrap "vm: post" e)), t')
              | Answered code b =>
                  if 300 <=? code then
                    let kind := if (400 <=? code) && (code <? 500) then KindInvalid else KindTransient in
                    (Some (New kind ("vm: import status " +:+ Itoa code +:+ ": " +:+ of_bytes (take 512 b))), t')
                  else (None, t')
              end
          end
      end
  end.

(** *** The labels of the devices *)

Record DeviceRow : Type := mkDeviceRow { dv_ID : string; dv_Name : string; dv_Site : string; dv_Vendor : option string; dv_Retired : bool }.
Definition LabelSnapshot (up : bool) (sites : gmap string string) (devices : list DeviceRow) : gmap string DeviceLabels + Err :=
  if negb up then inr (kindError KindTransient (ErrWrap "label snapshot" (ErrText "unreachable"))) else
  inl (list_to_map (omap (fun d =>
    if dv_Retired d then None else
    match sites !! dv_Site d with Some site => Some (dv_ID d, mkDeviceLabels (dv_Name d) site (default "" (dv_Vendor d))) | None => None end) devices)).

(** *** The ingester *)

Context (mirrors : option (Target -> list string)) (snap : gmap string DeviceLabels).
#[local] Instance ProcessWorld : IngestWorld Process := {
  Snapshot w := (Some snap, w);
  WriteSeries l w := let '(e, t) := Write mirrors l (wo_target w) in (e, mkProcess t (wo_settled w));
  IngestWait _ w := (None, w);
  Ack w := (tt, mkProcess (wo_target w) (wo_settled w ++ ["ack"]));
  Nack again w := (tt, mkProcess (wo_target w) (wo_settled w ++ [if again : bool then "requeue" else "drop"]));
  Reject again w := (tt, mkProcess (wo_target w) (wo_settled w ++ [if again : bool then "requeue" else "drop"]))
}.
Definition ingest (batch : MetricBatch) (w : Process) : outcome unit * Process := handle 10 snap (Some batch) w.
End writer.

(** The destinations of cmd/ingester: those of the environment, then those of
    the setting. *)
Definition destinations (fixed : list string) (setting : Target -> list string) : option (Target -> list string) := Some (fun t => fixed ++ setting t).

(** * Properties *)

Section fate.
Context (Encode : importLine -> option bytes).
Context (answer : Target -> string -> bytes -> reply) (clock : Target -> Time) (StatusText : Z -> string) (BaseURL : string).
Context (snap : gmap string DeviceLabels).
(** What the network says of a failure is not classified. *)
Hypothesis network : forall t u b e, answer t u b = Unreachable e -> origin e = None.

Abbreviation Write := (Write Encode answer clock StatusText BaseURL).
Abbreviation ingest := (ingest Encode answer clock StatusText BaseURL).
Definition enriched (batch : MetricBatch) : list EnrichedSample := map (enrichSample snap) (mb_Samples batch).
Definition taken (t : Target) (body : bytes) : bool := match answer t BaseURL body with Answered code _ => code <? 300 | Unreachable _ => false end.
Definition primaryPost (body : bytes) : string * bytes := (BaseURL +:+ "/api/v1/import", body).

(** A write through a target is taken, or fails with what no retry is made
    for. *)
Lemma Write_target fn l t body : l <> [] -> encodeAll Encode l = Some body ->
  let t1 := t <| sent := sent t ++ [primaryPost body] |> in
  if taken t body then exists t', Write (Some fn) l t = (None, t') /\ sent t' = sent t ++ map (fun u => (u +:+ "/api/v1/import", body)) (BaseURL :: fn t1)
  else exists e, Write (Some fn) l t = (Some e, t1) /\ kindOf (Some e) = KindUnknown.
Proof using network.
  intros Hl Hb. unfold Series.Write. destruct l as [|s l]; [done|]. rewrite Hb. unfold Import, post, taken. fold (primaryPost body).
  destruct (answer t BaseURL body) as [e|code b] eqn:Ea.
  - exists e. split; [done|]. unfold kindOf. cbn. by rewrite (network t BaseURL body e Ea).
  - rewrite Z.leb_antisym. destruct (code <? 300); cbn [negb]; [|by eexists]. eexists. split; [reflexivity|].
    set (t1 := set sent _ t). assert (forall l t1, sent (foldl (fun t m => mirror answer clock StatusText m body t) t1 l) = sent t1 ++ map (fun u => (u +:+ "/api/v1/import", body)) l) as H.
    { clear. induction l as [|m l IH]; intros t1; cbn [foldl map]; [by rewrite app_nil_r|].
      rewrite IH. destruct (mirror_step answer clock StatusText m body t1) as [-> _]. by rewrite <- app_assoc. }
    rewrite H. unfold t1. cbn. by rewrite <- app_assoc.
Qed.

(** C32. What becomes of a batch in the ingester as it is deployed: if the
    metrics store takes it when first asked, it is copied to every
    destination and acknowledged. If not, for whatever passing reason, it is
    not tried again and not queued again: it is lost. *)
Theorem batch_fate fn batch w body : enriched batch <> [] -> encodeAll Encode (enriched batch) = Some body ->
  let t := wo_target w in
  exists t', ingest (Some fn) snap batch w = (Ret tt, mkProcess t' (wo_settled w ++ [if taken t body then "ack" else "drop"])) /\
    sent t' = sent t ++ map (fun u => (u +:+ "/api/v1/import", body))
      (BaseURL :: if taken t body then fn (t <| sent := sent t ++ [primaryPost body] |>) else []).
Proof using network.
  intros Hne Hb t. pose proof (Write_target fn (enriched batch) t body Hne Hb) as H.
  set (PW := ProcessWorld Encode answer clock StatusText BaseURL (Some fn) snap).
  assert (forall r t', retryable r = false -> Write (Some fn) (enriched batch) t = (r, t') ->
    Do (WriteSeries (IngestWorld := PW) (enriched batch)) (IngestWait (IngestWorld := PW)) writePolicy 10 w = (Ret r, mkProcess t' (wo_settled w))) as HD.
  { intros r t' Hr E. unfold Do. cbn [Do_loop]. unfold mbind, M_bind. cbn [WriteSeries PW ProcessWorld]. fold t. rewrite E, Hr. cbn [negb]. by rewrite orb_true_r. }
  unfold Series.ingest, handle. fold (enriched batch) PW. destruct (taken t body).
  - destruct H as (t' & E & Hs). exists t'. split; [|exact Hs]. by rewrite (obind_ret _ _ _ _ _ (HD None t' eq_refl E)).
  - destruct H as (e & E & Hk). assert (retryable (Some e) = false) as Hr by (unfold retryable; rewrite Hk; done).
    exists (t <| sent := sent t ++ [primaryPost body] |>). split; [|reflexivity]. rewrite (obind_ret _ _ _ _ _ (HD _ _ Hr E)). rewrite Hk. done.
Qed.

(** Without a target, an outage of the store is waited for: ten attempts, and
    then the batch is queued again. *)
Lemma direct_requeues e batch w body : enriched batch <> [] -> encodeAll Encode (enriched batch) = Some body -> (forall t u b, answer t u b = Unreachable e) ->
  exists t', ingest None snap batch w = (Ret tt, mkProcess t' (wo_settled w ++ ["requeue"])) /\ sent t' = sent (wo_target w) ++ replicate 10 (primaryPost body).
Proof using network.
  intros Hne Hb Ha. assert (kindOf (Some (kindError KindTransient (ErrWrap "vm: post" e))) = KindTransient) as Hk.
  { unfold kindOf. cbn. by rewrite (network (wo_target w) BaseURL body e (Ha _ _ _)). }
  assert (forall t, Write None (enriched batch) t = (Some (kindError KindTransient (ErrWrap "vm: post" e)), t <| sent := sent t ++ [primaryPost body] |>)) as HW.
  { intros t. unfold Series.Write. destruct (enriched batch) as [|s l]; [done|]. rewrite Hb. by rewrite Ha. }
  set (PW := ProcessWorld Encode answer clock StatusText BaseURL None snap).
  set (err := kindError KindTransient (ErrWrap "vm: post" e)) in *.
  set (loop := Do_loop (WriteSeries (IngestWorld := PW) (enriched batch)) (IngestWait (IngestWorld := PW)) writePolicy).
  assert (forall fuel attempt d s, loop (S fuel) attempt d s =
    (if 10 <=? attempt then mret (Ret (Some err)) else loop fuel (attempt + 1) (nextDelay writePolicy d))
      (mkProcess ((wo_target s) <| sent := sent (wo_target s) ++ [primaryPost body] |>) (wo_settled s))) as Hstep.
  { intros fuel attempt d s. unfold loop. cbn [Do_loop]. unfold mbind, M_bind. cbn [WriteSeries IngestWait PW ProcessWorld]. rewrite HW. unfold retryable. rewrite Hk.
    rewrite (bool_decide_eq_false_2 (Some err = None)), (bool_decide_eq_true_2 (KindTransient = KindTransient)) by done. cbn [orb negb].
    change (MaxAttempts writePolicy) with 10. change (0 <? 10) with true. cbn [andb]. by destruct (10 <=? attempt). }
  assert (forall k attempt d s, attempt + Z.of_nat k = 10 ->
    exists t', loop (S k) attempt d s = (Ret (Some err), mkProcess t' (wo_settled s)) /\ sent t' = sent (wo_target s) ++ replicate (S k) (primaryPost body)) as H.
  { induction k as [|k IH]; intros attempt d s Hat; rewrite Hstep.
    - assert ((10 <=? attempt) = true) as -> by lia. by eexists.
    - assert ((10 <=? attempt) = false) as -> by lia.
      destruct (IH (attempt + 1) (nextDelay writePolicy d) (mkProcess ((wo_target s) <| sent := sent (wo_target s) ++ [primaryPost body] |>) (wo_settled s)) ltac:(lia)) as (t' & E & Hs).
      rewrite E. exists t'. split; [done|]. rewrite Hs. cbn. by rewrite <- app_assoc. }
  destruct (H 9%nat 1 (BaseDelay writePolicy) w eq_refl) as (t' & E & Hs). exists t'. split; [|exact Hs].
  unfold Series.ingest, handle. fold (enriched batch) PW. unfold Do. fold loop. rewrite (obind_ret _ _ _ _ _ E). rewrite Hk. done.
Qed.
End fate.

(** ** At work *)

Definition demoBatch : MetricBatch := mkMetricBatch "plr_1" "site_a" [mkSample "d1" "netinv_if_in_octets_total" {["if_index" := "3"]} 1000 7].
Definition restarting (t : Target) (u : string) (b : bytes) : reply := if bool_decide (sent t = []) then Answered 503 (to_bytes "starting") else Answered 204 [].
Definition idle : Process := mkProcess (mkTarget [] ∅ ∅ ∅ []) [].

(** A store that is back for the second attempt is never asked again. *)
Lemma batch_fate_witness : exists t', ingest (fun _ => Some []) restarting (fun _ => 0) (fun _ => "") "http://vm:8428" (Some (fun _ => ["http://vm2:8428"])) ∅ demoBatch idle
    = (Ret tt, mkProcess t' ["drop"]) /\ sent t' = [("http://vm:8428/api/v1/import", [])].
Proof.
  destruct (batch_fate (fun _ => Some []) restarting (fun _ => 0) (fun _ => "") "http://vm:8428" ∅
    ltac:(intros t u b e; unfold restarting; destruct (bool_decide _); discriminate) (fun _ => ["http://vm2:8428"]) demoBatch idle [] ltac:(discriminate) eq_refl) as (t' & H1 & H2).
  exists t'. split; [exact H1|exact H2].
Defined.

(** A label of a sample can take the place of the metric's name. *)
Lemma name_overridden : il_Metric (lineOf (mkEnrichedSample "netinv_icmp_up" {["__name__" := "other"]} 0 0)) !! "__name__" = Some "other".
Proof. reflexivity. Qed.
