(* ===== verification/Queries.v ===== *)
(** Package metrics/adapters/httpapi (query.go): the operators' way to the
    metrics store, and its bounds on what may be asked.

    A handler answers what is forwarded, or an error. The reading of RFC 3339
    times and of durations is a parameter. *)
From Stdlib Require Import ZArith Lia.
From stdpp Require Import base list gmap strings pretty numbers sorting.
From S2P Require Import Prelude GoText GoSort NetipParse Errx Float64.

(** [PollInterval] may be nil. *)
Record QueryProxy : Type := mkQueryProxy { PollInterval : option Duration; MaxRange : Duration }.
Definition defaultMaxRange : Duration := 730 * 24 * Hour.
Definition minStep : Duration := 15 * Second.
Definition maxRange (q : QueryProxy) : Duration := if 0 <? MaxRange q then MaxRange q else defaultMaxRange.
Definition plural (n : Z) : string := if n =? 1 then "" else "s".

(** What is forwarded: the path and the parameters. *)
Record Forwarded : Type := mkForwarded { fw_Path : string; fw_Params : gmap string string }.
Record Limits : Type := mkLimits { max_range_s : Z; poll_interval_s : Z }.
Definition limits (q : QueryProxy) : Limits :=
  let poll := match PollInterval q with Some d => if 0 <? d then d else 60 * Second | None => 60 * Second end in
  mkLimits (int_of (Seconds_float (maxRange q))) (int_of (Seconds_float poll)).
(** [None] is an answer that cannot be read. *)
Definition names (answer : option (list string)) : list string + Err :=
  match answer with
  | None => inr (kindError KindTransient (ErrWrap "decode metric names" (ErrText "unexpected EOF")))
  | Some data => inl (sort_Strings (filter (fun n => Is_true (HasPrefix n "netinv_")) data))
  end.

Section query.
Context (ParseRFC3339 : string -> option Time) (ParseDuration : string -> option Duration).
(** [int(d.Hours() / 24)], and the text of a duration *)
Context (Days : Duration -> Z) (Duration_String : Duration -> string).

Definition invalid (msg : string) : Err := New KindInvalid msg.
Definition roundDays (d : Duration) : string := let days := Days d in if days <=? 0 then Duration_String d else Itoa days +:+ " day" +:+ plural days.
Definition parseTime (s : string) : option Time :=
  if bool_decide (s = "") then None else match Atoi s with Some u => Some (time_Unix u 0) | None => ParseRFC3339 s end.
Definition get (k : string) (qs : gmap string string) : string := default "" (qs !! k).

Definition instant (qs : gmap string string) : Forwarded + Err :=
  let expr := get "query" qs in
  if bool_decide (expr = "") then inr (invalid "query parameter is required") else
  let params := {["query" := expr]} in
  inl (mkForwarded "/api/v1/query" (if bool_decide (get "time" qs = "") then params else <["time" := get "time" qs]> params)).

(** The step asked for. *)
Definition askedStep (s : string) : Duration :=
  if bool_decide (s = "") then 60 * Second else
  match ParseDuration s with
  | Some d => d
  | None => match Atoi s with Some secs => int64 (secs * Second) | None => 60 * Second end
  end.
Definition stepOf (range : Duration) (s : string) : Duration :=
  let step := Z.max minStep (askedStep s) in
  if 11000 <? Z.quot range step then Z.quot range 11000 else step.
Definition rangeQuery (q : QueryProxy) (qs : gmap string string) : Forwarded + Err :=
  let expr := get "query" qs in
  match parseTime (get "start" qs), parseTime (get "end" qs) with
  | Some start, Some end_ =>
      if bool_decide (expr = "") then inr (invalid "query, start and end (RFC3339 or unix) are required") else
      let range := time_Sub end_ start in
      if maxRange q <? range then inr (invalid ("range exceeds the " +:+ roundDays (maxRange q) +:+ " query limit")) else
      let step := stepOf range (get "step" qs) in
      inl (mkForwarded "/api/v1/query_range"
        (<["query" := expr]> (<["start" := Itoa (Unix start)]> (<["end" := Itoa (Unix end_)]> {["step" := Itoa (int_of (Seconds_float step))]}))))
  | _, _ => inr (invalid "query, start and end (RFC3339 or unix) are required")
  end.

(** * Properties *)

(** A range query is forwarded only with an expression and two times, no
    further apart than the limit, and then as it was asked: with a step of at
    least 15 seconds, no finer than asked, that makes at most 11000 points,
    or else the finest that does. *)
Theorem range_bounded q qs f : rangeQuery q qs = inl f ->
  exists start end_, parseTime (get "start" qs) = Some start /\ parseTime (get "end" qs) = Some end_ /\ get "query" qs <> "" /\
    let range := time_Sub end_ start in let step := stepOf range (get "step" qs) in
    range <= maxRange q /\ 15 * Second <= step /\ askedStep (get "step" qs) <= step /\ Z.quot range step <= 11000 /\
    (step = Z.max minStep (askedStep (get "step" qs)) \/ 11000 < Z.quot range (Z.max minStep (askedStep (get "step" qs))) /\ 11000 * step <= range < 11000 * (step + 1)) /\
    fw_Params f !! "query" = Some (get "query" qs) /\ fw_Params f !! "step" = Some (Itoa (int_of (Seconds_float step))).
Proof.
  unfold rangeQuery. destruct (parseTime (get "start" qs)) as [start|]; [|done]. destruct (parseTime (get "end" qs)) as [end_|]; [|done].
  destruct (bool_decide (get "query" qs = "")) eqn:Eq; [done|]. apply bool_decide_eq_false in Eq. destruct (maxRange q <? time_Sub end_ start) eqn:Er; [done|].
  intros [= <-]. exists start, end_. split; [done|]. split; [done|]. split; [done|]. cbn zeta. set (range := time_Sub end_ start) in *. clearbody range.
  apply Z.ltb_ge in Er. split; [done|]. cbn [fw_Params].
  assert (forall step, step = stepOf range (get "step" qs) -> 15 * Second <= step /\ askedStep (get "step" qs) <= step /\ Z.quot range step <= 11000 /\
    (step = Z.max minStep (askedStep (get "step" qs)) \/ 11000 < Z.quot range (Z.max minStep (askedStep (get "step" qs))) /\ 11000 * step <= range < 11000 * (step + 1))) as H.
  { intros step ->. unfold stepOf. set (asked := askedStep _). clearbody asked. set (step := Z.max minStep asked). assert (15 * Second <= step /\ asked <= step) as [H1 H2] by (unfold step, minStep; lia).
    assert (0 < step) as H0 by (unfold Second in H1; lia). clearbody step. destruct (11000 <? Z.quot range step) eqn:E.
    - apply Z.ltb_lt in E. assert (11001 * step <= range) as Hb.
      { destruct (Z_lt_le_dec range 0) as [Hn|Hn]; [pose proof (Z.quot_opp_l range step ltac:(lia)); pose proof (Z.quot_pos (- range) step ltac:(lia) ltac:(lia)); lia|].
        rewrite Z.quot_div_nonneg in E by lia. pose proof (Z.mul_div_le range step ltac:(lia)). nia. }
      assert (0 <= range) as Hr by lia. rewrite (Z.quot_div_nonneg range 11000) by lia. pose proof (Z.div_mod range 11000 ltac:(lia)) as Hd. pose proof (Z.mod_pos_bound range 11000 ltac:(lia)) as Hm.
      set (s2 := range / 11000) in *. assert (step <= s2) as Hs by (unfold s2; apply Z.div_le_lower_bound; lia).
      split; [lia|]. split; [lia|]. split; [|right; split; [done|lia]]. unfold Second in H1.
      rewrite Z.quot_div_nonneg by lia. apply Z.lt_succ_r. apply Z.div_lt_upper_bound; [lia|]. nia.
    - apply Z.ltb_ge in E. split; [done|]. split; [done|]. split; [done|]. by left. }
  destruct (H _ eq_refl) as (H1 & H2 & H3 & H4). split_and!; try done.
Qed.
End query.

(** Two years at a step of a minute: the step is cut to whole seconds after the
    points were counted, and the store is asked for more than 11000. *)
Lemma step_cut :
  let range := 730 * 24 * Hour in let step := stepOf (fun _ => None) range "60" in
  Z.quot range step <= 11000 /\ int_of (Seconds_float step) = 5733 /\ 11000 < Z.quot range (5733 * Second).
Proof. split_and!; vm_compute; done. Qed.

Lemma range_bounded_witness :
  match rangeQuery (fun _ => None) (fun _ => None) (fun d => d / (24 * Hour)) (fun _ => "") (mkQueryProxy None 0)
    (<["query" := "up"]> (<["start" := "1000"]> {["end" := "4600"]})) with
  | inl f => fw_Params f !! "query" = Some "up" /\ fw_Params f !! "step" = Some "60"
  | inr _ => False
  end.
Proof.
  pose proof (range_bounded (fun _ => None) (fun _ => None) (fun d => d / (24 * Hour)) (fun _ => "") (mkQueryProxy None 0) (<["query" := "up"]> (<["start" := "1000"]> {["end" := "4600"]}))) as H.
  destruct (rangeQuery _ _ _ _ _ _) as [f|e] eqn:E.
  - destruct (H f eq_refl) as (start & end_ & Hs & He & _ & H1). split; [apply H1|]. destruct H1 as (_ & _ & _ & _ & _ & _ & ->).
    vm_compute in Hs, He. injection Hs as <-. injection He as <-. by vm_compute.
  - vm_compute in E. discriminate.
Defined.
