(* ===== verification/Browse.v ===== *)
(** Package inventory/adapters/snmptest (snmptest.go, oidwalk.go, walk.go):
    the SNMP the core does itself. A credential is tested by asking for one
    name, and the OID browser walks a subtree by GETBULK.

    gosnmp and the device behind it answer from a state of their own. The walk
    is proved against any answers, and against an agent that holds a sorted
    set of objects and answers from it, short or not at all as it likes. *)
From Stdlib Require Import ZArith Lia.
From stdpp Require Import base list gmap strings pretty numbers sorting.
From S2P Require Import Prelude GoText GoSort NetipParse World Errx Float64 Sdk Wire Execute Vault Devices.

(** ** The order of OIDs *)

Definition dot_ : byte := zb 46.
(** [arcs]: the numbers of a dotted OID. *)
Definition arcs (oid : string) : option (list Z) :=
  let s := Sdk.TrimPrefix (TrimSpace oid) "." in
  if bool_decide (s = "") then None else mapM Atoi (Split s dot_).

(** [strings.Compare]. *)
Definition strings_Compare (a b : string) : Z := if bool_decide (a = b) then 0 else if str_lt a b then -1 else 1.
(** The loop of [compareOID] and the switch after it. *)
Fixpoint cmpArcs (x y : list Z) : Z :=
  match x, y with
  | a :: x, b :: y => if a =? b then cmpArcs x y else if a <? b then -1 else 1
  | [], _ :: _ => -1
  | _ :: _, [] => 1
  | [], [] => 0
  end.
Definition compareOID (a b : string) : Z :=
  match arcs a, arcs b with Some x, Some y => cmpArcs x y | _, _ => strings_Compare a b end.

Definition underRoot (oid root : string) : bool :=
  let o := Sdk.TrimPrefix (TrimSpace oid) "." in
  let r := Sdk.TrimPrefix (TrimSpace root) "." in
  if bool_decide (r = "") then negb (bool_decide (o = "")) else bool_decide (o = r) || HasPrefix o (r +:+ ".").

(** ** The client *)

(** A gosnmp client; without a version it is one for SNMPv1 with the empty
    community, as the library makes it. *)
Record Client : Type := mkClient {
  cl_Target : string; cl_Port : Z; cl_Timeout : Duration; cl_Retries : Z; cl_MaxRepetitions : Z; cl_Version : option credVersion
}.
Definition newClient (target : string) (port : Z) (kind : CredentialKind) (secret : Secret) (timeout : Duration) : Client :=
  mkClient target (uint16 port) timeout 1 25
    match kind with
    | SNMPv2c => Some (Version2c (Vault.Community secret))
    | SNMPv3 =>
        let priv := privOf (PrivProtocol secret) in
        Some (Version3 (Vault.Username secret) (AuthPassword secret) (PrivPassword secret) (authOf (AuthProtocol secret)) priv
          (bool_decide (is_Some priv)) (Context_ secret))
    | OtherKind _ => None
    end.

(** A variable of a response, with its tag. *)
Record Pdu : Type := mkPdu { v_Name : string; v_Type : Z; v_Value : Value }.
Definition NoSuchObject : Z := 128.
Definition NoSuchInstance : Z := 129.
Definition EndOfMibView : Z := 130.

(** A response: whether its error status is NoError, and the name of that. *)
Record SnmpPacket : Type := mkSnmpPacket { sp_NoError : bool; sp_Status : string; sp_Variables : list Pdu }.

(** What gosnmp does for a client. *)
Class Snmp (St : Type) : Type := {
  Dial : Client -> St -> option Err * St;
  SnmpGet : Client -> list string -> St -> (SnmpPacket + Err) * St;
  GetBulk : Client -> list string -> Z -> St -> (list Pdu + Err) * St
}.

Section tester.
Context {St : Type} `{Snmp St}.
(** the text of a float64, as [%v] shows it *)
Context (FormatFloat : float64 -> string).

(** ** Testing a credential *)

Definition sysNameOID : string := ".1.3.6.1.2.1.1.5.0".

Definition classify (err : Err) (latency : Z) : TestResult :=
  let msg := Err_Error err in
  if Contains_str msg "timeout" then mkTestResult "timeout" "" latency ""
  else if Contains_str msg "authentication" || Contains_str msg "unknown username" || Contains_str msg "wrong digest"
  then mkTestResult "auth_failure" "" latency ""
  else if Contains_str msg "decryption" || Contains_str msg "privacy" then mkTestResult "priv_failure" "" latency ""
  else mkTestResult "error" "" latency msg.

(** [Test]; [latency] is what the clock says between its two readings. *)
Definition Test_ (latency : Z) (target : string) (port : Z) (kind : CredentialKind) (secret : Secret) (st : St) : TestResult * St :=
  let g := newClient target port kind secret (3 * Second) in
  match Dial g st with
  | (Some err, st) => (mkTestResult "error" "" 0 ("socket: " +:+ Err_Error err), st)
  | (None, st) =>
      match SnmpGet g [sysNameOID] st with
      | (inr err, st) => (classify err latency, st)
      | (inl pkt, st) =>
          (match negb (sp_NoError pkt), sp_Variables pkt with
           | false, v :: _ => mkTestResult "ok" (match v_Value v with VBytes b => of_bytes b | _ => "" end) latency ""
           | _, _ => mkTestResult "error" "" latency ("SNMP error status " +:+ sp_Status pkt)
           end, st)
      end
  end.

(** ** Walking *)

Definition hexDigits : string := "0123456789abcdef".
Definition hexUpper (d : Z) : byte := if d <? 10 then zb (48 + d) else zb (55 + d).
(** [%X] of a byte. *)
Definition hexOfByte (b : Z) : string := of_bytes (if b <? 16 then [hexUpper b] else [hexUpper (Z.shiftr b 4); hexUpper (Z.land b 15)]).
Definition snmpTypeName (t : Z) : string :=
  if t =? 4 then "OctetString" else if t =? 2 then "Integer" else if t =? 65 then "Counter32" else if t =? 70 then "Counter64"
  else if t =? 66 then "Gauge32" else if t =? 67 then "TimeTicks" else if t =? 6 then "OID" else if t =? 64 then "IPAddress"
  else if (t =? NoSuchObject) || (t =? NoSuchInstance) then "NoSuchObject"
  else "0x" +:+ hexOfByte (t mod 256).

Definition printable (b : bytes) : bool := forallb (fun c => within 32 (bz c) 126) b.
Definition nibble (d : Z) : string := match String.get (Z.to_nat d) hexDigits with Some c => String c "" | None => "" end.
Definition hexByte (b : byte) : string := nibble (Z.shiftr (bz b) 4) +:+ nibble (Z.land (bz b) 15).
Definition renderValue (p : Pdu) : string :=
  match v_Value p with
  | VBytes x => if printable x then of_bytes x else Join (map hexByte x) ":"
  | VString s => s
  | VInt z => Itoa z
  | VFloat f => FormatFloat f
  | VOther shown => shown
  end.
Definition valueOf (v : Pdu) : OIDValue := mkOIDValue (v_Name v) (snmpTypeName (v_Type v)) (renderValue v).

(** The variables of one response: the walk is over, or goes on from the last
    one taken. *)
Fixpoint takeVars (root : string) (limit : Z) (vs : list Pdu) (out : list OIDValue) (next : string) : WalkResult + (list OIDValue * string) :=
  match vs with
  | [] => inr (out, next)
  | v :: vs =>
      if v_Type v =? EndOfMibView then inl (mkWalkResult out true "")
      else if (v_Type v =? NoSuchObject) || (v_Type v =? NoSuchInstance) then inl (mkWalkResult out true "")
      else if negb (underRoot (v_Name v) root) then inl (mkWalkResult out true "")
      else if (compareOID (v_Name v) next <=? 0) && (0 <? len out) then
        inl (mkWalkResult out false ("agent returned a non-increasing OID (" +:+ v_Name v +:+ " after " +:+ next +:+ ")"))
      else
        let out := out ++ [valueOf v] in
        if limit <=? len out then inr (out, v_Name v) else takeVars root limit vs out (v_Name v)
  end.

Definition emptyResponse : string := "agent returned an empty response before the end of the subtree".
Definition ceiling (limit : Z) : string := "reached the " +:+ Itoa limit +:+ "-object ceiling".
(** The loop, in [fuel] turns. *)
Fixpoint walkLoop (fuel : nat) (g : Client) (root : string) (limit : Z) (out : list OIDValue) (next : string) (st : St) : outcome ((WalkResult + Err) * St) :=
  match fuel with
  | O => OutOfFuel
  | S fuel =>
      if limit <=? len out then Ret (inl (mkWalkResult out false (ceiling limit)), st) else
      match GetBulk g [next] (cl_MaxRepetitions g) st with
      | (inr err, st) =>
          Ret (if bool_decide (out = []) then inr (kindError KindTransient (ErrWrap "snmp walk" err))
               else inl (mkWalkResult out false ("agent stopped responding: " +:+ Err_Error err)), st)
      | (inl [], st) => Ret (inl (mkWalkResult out false emptyResponse), st)
      | (inl vs, st) =>
          match takeVars root limit vs out next with
          | inl res => Ret (inl res, st)
          | inr (out, next) => walkLoop fuel g root limit out next st
          end
      end
  end.

(** Each turn but the last takes a variable. *)
Definition Walk (target : string) (port : Z) (kind : CredentialKind) (secret : Secret) (root : string) (limit : Z) (st : St)
    : outcome ((WalkResult + Err) * St) :=
  let limit := ClampWalkLimit limit in
  let root := if bool_decide (TrimSpace root = "") then mib2 else root in
  let g := newClient target port kind secret (5 * Second) in
  match Dial g st with
  | (Some err, st) => Ret (inr (kindError KindTransient (ErrWrap "snmp connect" err)), st)
  | (None, st) => walkLoop (S (Z.to_nat limit)) g root limit [] root st
  end.
End tester.

(** The walker of the device service, while the agent stands at [st]. *)
Definition walker {St : Type} `{Snmp St} (FormatFloat : float64 -> string) (st : St)
    (target : string) (port : Z) (kind : CredentialKind) (secret : Secret) (root : string) (limit : Z) : WalkResult * option Err :=
  match Walk FormatFloat target port kind secret root limit st with
  | Ret (inl w, _) => (w, None)
  | Ret (inr e, _) => (mkWalkResult [] false "", Some e)
  | _ => (mkWalkResult [] false "", None)
  end.

(** * Properties *)

(** ** Whatever the agent answers *)

(** Each value comes after the one before it. *)
Definition grows (out : list OIDValue) : Prop :=
  forall i a b, out !! i = Some a -> out !! S i = Some b -> 0 < compareOID (ov_OID b) (ov_OID a).
Definition walked (root : string) (limit : Z) (out : list OIDValue) : Prop :=
  Forall (fun v => underRoot (ov_OID v) root = true) out /\ grows out /\ len out <= limit.
(** A walk under way: the next request starts from the last value. *)
Definition underway (root : string) (limit : Z) (out : list OIDValue) (next : string) : Prop :=
  walked root limit out /\ forall v, last out = Some v -> ov_OID v = next.
(** A walk that stopped short says why. *)
Definition told (w : WalkResult) : Prop := wr_Complete w = bool_decide (wr_Stopped w = "").

Lemma grows_snoc out next v : grows out -> (forall u, last out = Some u -> ov_OID u = next) ->
  (out = [] \/ 0 < compareOID (ov_OID v) next) -> grows (out ++ [v]).
Proof.
  intros Hg Hl Hv i a b Ha Hb. destruct (decide (S i < length out)%nat) as [Hi|Hi].
  - rewrite lookup_app_l in Ha, Hb by lia. by eapply Hg.
  - pose proof (lookup_lt_Some _ _ _ Hb) as Hlen. rewrite length_app in Hlen. cbn in Hlen.
    assert (S i = length out) as Ei by lia. rewrite Ei, list_lookup_middle in Hb by done. injection Hb as <-.
    rewrite lookup_app_l in Ha by lia. destruct Hv as [->|Hv]; [done|].
    rewrite (Hl a); [done|]. rewrite last_lookup. by rewrite <- Ei.
Qed.

Section any_agent.
Context {St : Type} `{Snmp St} (FormatFloat : float64 -> string).

Lemma takeVars_keeps root limit vs : forall out next, underway root limit out next -> len out < limit ->
  match takeVars FormatFloat root limit vs out next with
  | inl w => walked root limit (wr_Values w) /\ told w
  | inr (out', next') => underway root limit out' next' /\ len out <= len out' /\ (vs <> [] -> len out < len out')
  end.
Proof.
  induction vs as [|v vs IH]; intros out next Hu Hlt; cbn [takeVars]; [by split|].
  destruct (_ =? _); [by destruct Hu|]. destruct (_ || _); [by destruct Hu|]. destruct (underRoot _ _) eqn:Er; cbn [negb]; [|by destruct Hu].
  destruct (_ && _) eqn:Ec; [by destruct Hu|]. destruct Hu as [(Hf & Hg & Hn) Hl].
  assert (underway root limit (out ++ [valueOf FormatFloat v]) (v_Name v)) as Hu'.
  { split; [split; [|split]|].
    - apply Forall_app_2; [done|]. by constructor.
    - apply (grows_snoc _ next); [done..|]. apply andb_false_iff in Ec as [Ec%Z.leb_gt|Ec%Z.ltb_ge]; [by right|]. left.
      unfold len in Ec. destruct out; [done|]. cbn in Ec. lia.
    - unfold len in *. rewrite length_app. cbn. lia.
    - intros u. rewrite last_snoc. by intros [= <-]. }
  assert (len (out ++ [valueOf FormatFloat v]) = len out + 1) as El by (unfold len; rewrite length_app; cbn; lia).
  destruct (Z.leb_spec limit (len (out ++ [valueOf FormatFloat v]))); [split; [done|lia]|].
  specialize (IH _ _ Hu' ltac:(lia)). destruct (takeVars _ _ _ vs _ _) as [w|[out' next']]; [done|]. destruct IH as (IH & Hle & _). split; [done|]. lia.
Qed.

Lemma walkLoop_ends fuel g root limit : forall out next st, underway root limit out next -> limit - len out < Z.of_nat fuel ->
  exists r st', walkLoop FormatFloat fuel g root limit out next st = Ret (r, st') /\
  match r with inl w => walked root limit (wr_Values w) /\ told w | inr e => exists err, e = kindError KindTransient (ErrWrap "snmp walk" err) end.
Proof.
  induction fuel as [|fuel IH]; intros out next st Hu Hf; cbn [walkLoop]; [destruct Hu as [(_ & _ & Hn) _]; lia|].
  destruct (Z.leb_spec limit (len out)); [eexists _, _; split; [done|]; by destruct Hu|].
  destruct (GetBulk _ _ _ st) as [[vs|err] st']; last first.
  { eexists _, _. split; [done|]. case_bool_decide; [by eexists|]. by destruct Hu. }
  destruct vs as [|v vs]; [eexists _, _; split; [done|]; by destruct Hu|].
  pose proof (takeVars_keeps root limit (v :: vs) out next Hu ltac:(lia)) as Ht.
  destruct (takeVars _ _ _ _ _ _) as [w|[out' next']]; [by eexists _, _|]. destruct Ht as (Hu' & _ & Hmore). apply IH; [done|].
  specialize (Hmore ltac:(done)). lia.
Qed.

(** C28. Whatever a device answers, a walk comes to its end within the limit that
    was asked for, which is never above half a million: every object it
    returns lies in the subtree and after the one before it, and a walk that
    is not complete says why it stopped. *)
Theorem walk_ends target port kind secret root limit st :
  exists r st', Walk FormatFloat target port kind secret root limit st = Ret (r, st') /\
  match r with
  | inl w =>
      Forall (fun v => underRoot (ov_OID v) (if bool_decide (TrimSpace root = "") then mib2 else root) = true) (wr_Values w) /\
      grows (wr_Values w) /\ len (wr_Values w) <= ClampWalkLimit limit <= MaxWalkObjects /\ (wr_Complete w = true <-> wr_Stopped w = "")
  | inr e => exists msg err, e = kindError KindTransient (ErrWrap msg err)
  end.
Proof.
  unfold Walk. destruct (Dial _ st) as [[err|] st1]; [eexists _, _; split; [done|]; by eexists _, _|].
  set (r := if bool_decide _ then _ else _). set (n := ClampWalkLimit limit).
  assert (0 < n <= MaxWalkObjects) as Hn.
  { unfold n, ClampWalkLimit, DefaultWalkObjects, MaxWalkObjects. destruct (Z.leb_spec limit 0); [lia|]. destruct (Z.ltb_spec 500000 limit); lia. }
  destruct (walkLoop_ends (S (Z.to_nat n)) (newClient target port kind secret (5 * Second)) r n [] r st1) as (w & st' & -> & Hw).
  { split; [|done]. split; [done|]. split; [by intros i a b Ha|]. unfold len; cbn; lia. }
  { unfold len. cbn. lia. }
  eexists _, _. split; [done|]. destruct w as [w|e]; [|destruct Hw as [err ->]; by eexists _, _].
  destruct Hw as ((? & ? & ?) & Ht). split; [done|]. split; [done|]. split; [lia|]. rewrite Ht. by rewrite bool_decide_eq_true.
Qed.
End any_agent.

(** ** OIDs as texts *)

Definition arc (z : Z) : Prop := 0 <= z < 2 ^ 32.
Definition dotted (x : list Z) : string := Join (map Itoa x) ".".
(** Written with a leading dot or without. *)
Definition spells (s : string) (x : list Z) : Prop := s = dotted x \/ s = "." +:+ dotted x.

Lemma Atoi_Itoa z : arc z -> Atoi (Itoa z) = Some z.
Proof.
  intros Hz. unfold arc in Hz. destruct (Itoa_digits z) as (Hv & Hd & Hne); [lia|]. unfold Atoi.
  destruct (to_bytes (Itoa z)) as [|c b]; [done|]. pose proof (Forall_inv Hd) as Hc. cbn in Hc. unfold isDigit, within in Hc.
  apply andb_true_iff in Hc as [H1%Z.leb_le H2%Z.leb_le].
  destruct (Z.eqb_spec (bz c) 45); [lia|]. destruct (Z.eqb_spec (bz c) 43); [lia|].
  rewrite decide_False by done. rewrite Hv. cbn -[Z.pow]. destruct (Z.leb_spec (- 2 ^ 63) z); [|lia]. by destruct (Z.ltb_spec z (2 ^ 63)); [|lia].
Qed.
Lemma Itoa_arc_inj a b : arc a -> arc b -> Itoa a = Itoa b -> a = b.
Proof. intros Ha Hb E. apply (f_equal Atoi) in E. rewrite !Atoi_Itoa in E by done. by injection E. Qed.
Lemma Itoas_inj x y : Forall arc x -> Forall arc y -> map Itoa x = map Itoa y -> x = y.
Proof.
  intros Hx. revert y. induction Hx as [|a x Ha Hx IH]; intros [|b y]; [done..|]. intros Hy [=E1 E2].
  apply Forall_cons in Hy as [Hb Hy]. f_equal; [by apply Itoa_arc_inj|by apply IH].
Qed.
Lemma Itoa_chars z : arc z -> Forall (fun c => isDigit c = true) (to_bytes (Itoa z)) /\ to_bytes (Itoa z) <> [].
Proof. intros Hz. unfold arc in Hz. destruct (Itoa_digits z) as (_ & ? & ?); [lia|done]. Qed.

Lemma Join_app a b : a <> [] -> b <> [] -> Join (a ++ b) "." = Join a "." +:+ "." +:+ Join b ".".
Proof.
  intros Ha Hb. induction a as [|s a IH]; [done|]. destruct a as [|s' a].
  - cbn [app Join]. by destruct b.
  - change ((s :: s' :: a) ++ b) with (s :: ((s' :: a) ++ b)). cbn [Join]. cbn [app]. cbn [app] in IH. rewrite IH by done.
    by rewrite !append_assoc.
Qed.
Lemma split_bytes_app sep : forall a acc b, split_bytes sep acc (a ++ sep :: b) = split_bytes sep acc a ++ split_bytes sep [] b.
Proof. induction a as [|c a IH]; intros acc b; cbn [app split_bytes]; [by rewrite decide_True|]. destruct (decide _); [cbn; by rewrite IH|by rewrite IH]. Qed.
Lemma Split_app a b : Split (a +:+ "." +:+ b) dot_ = Split a dot_ ++ Split b dot_.
Proof. unfold Split. rewrite !to_bytes_app. change (to_bytes ".") with [dot_]. cbn [app]. by rewrite split_bytes_app, fmap_app. Qed.

Lemma Split_dotted x : x <> [] -> Forall arc x -> Split (dotted x) dot_ = map Itoa x.
Proof.
  intros Hne Hx. unfold dotted. change "." with (of_bytes [dot_]). apply Split_Join; [by destruct x|].
  apply Forall_map. eapply Forall_impl; [exact Hx|]. intros z Hz. cbn. destruct (Itoa_chars z Hz) as [Hd _]. intros Hin.
  by apply (proj1 (Forall_forall _ _) Hd) in Hin.
Qed.

Lemma dotted_bytes x : x <> [] -> Forall arc x -> Forall (fun c => plain c = true) (to_bytes (dotted x)) /\
  exists c b, to_bytes (dotted x) = c :: b /\ isDigit c = true.
Proof.
  assert (forall c, isDigit c = true -> plain c = true) as Hdp.
  { intros c. unfold isDigit, plain, within. rewrite !andb_true_iff, !Z.leb_le. lia. }
  intros Hne Hx. induction Hx as [|z x Hz Hx IH]; [done|]. destruct (Itoa_chars z Hz) as [Hd Hn].
  assert (Forall (fun c => plain c = true) (to_bytes (Itoa z))) as Hp by (eapply Forall_impl; [exact Hd|]; exact Hdp).
  destruct (to_bytes (Itoa z)) as [|c b] eqn:Ez; [done|]. pose proof (Forall_inv Hd) as Hc. cbn in Hc.
  destruct x as [|y x].
  - unfold dotted. cbn [map Join]. rewrite Ez. split; [done|]. by eexists _, _.
  - destruct IH as [IH _]; [done|]. unfold dotted in *. cbn [map Join] in *. rewrite !to_bytes_app, Ez. split; [|by eexists _, _].
    apply Forall_app_2; [done|]. apply Forall_app_2; [by repeat constructor|done].
Qed.

Lemma trimmed s x : spells s x -> x <> [] -> Forall arc x -> Sdk.TrimPrefix (TrimSpace s) "." = dotted x.
Proof.
  intros Hs Hne Hx. destruct (dotted_bytes x Hne Hx) as (Hp & c & b & Eb & Hc).
  assert (TrimSpace s = s) as ->.
  { pose proof (TrimSpace_plain (to_bytes s) 0 0) as E. cbn [blanks replicate app] in E. rewrite app_nil_r, of_to_bytes in E. apply E.
    - destruct Hs as [->| ->]; [done|]. rewrite to_bytes_app. by constructor.
    - destruct Hs as [->| ->]; [by rewrite Eb|]. done. }
  destruct Hs as [->| ->]; [|unfold Sdk.TrimPrefix; cbn; by destruct (dotted x)]. unfold Sdk.TrimPrefix. destruct (dotted x) as [|d t] eqn:E; [done|].
  cbn [CutPrefix]. rewrite decide_False; [done|]. intros <-. unfold to_bytes in Eb. cbn in Eb. injection Eb as <- _. done.
Qed.

Lemma dotted_ne x : x <> [] -> Forall arc x -> dotted x <> "".
Proof. intros Hne Hx E. destruct (dotted_bytes x Hne Hx) as (_ & c & b & Eb & _). by rewrite E in Eb. Qed.
Lemma arcs_spelled s x : spells s x -> x <> [] -> Forall arc x -> arcs s = Some x.
Proof.
  intros Hs Hne Hx. unfold arcs. rewrite (trimmed s x) by done. rewrite bool_decide_false by by apply dotted_ne.
  rewrite Split_dotted by done. clear Hs Hne. induction Hx as [|z x Hz Hx IH]; [done|]. cbn [map mapM]. by rewrite Atoi_Itoa, IH by done.
Qed.
Lemma compare_spelled s t x y : spells s x -> spells t y -> x <> [] -> y <> [] -> Forall arc x -> Forall arc y -> compareOID s t = cmpArcs x y.
Proof. intros. unfold compareOID. by rewrite (arcs_spelled s x), (arcs_spelled t y) by done. Qed.

(** A text lies under a root just when its numbers begin with the root's. *)
Lemma underRoot_spelled o s x r : spells o x -> spells s r -> x <> [] -> r <> [] -> Forall arc x -> Forall arc r ->
  underRoot o s = bool_decide (r `prefix_of` x).
Proof.
  intros Ho Hs Hx Hr Fx Fr. unfold underRoot. rewrite (trimmed o x), (trimmed s r) by done. rewrite bool_decide_false by by apply dotted_ne.
  apply eq_true_iff_eq. rewrite orb_true_iff, !bool_decide_eq_true, HasPrefix_spec. split.
  - intros [E|[t E]].
    + exists []. rewrite app_nil_r. apply (f_equal (fun u => Split u dot_)) in E. rewrite !Split_dotted in E by done. by apply Itoas_inj.
    + rewrite append_assoc in E. apply (f_equal (fun u => Split u dot_)) in E. rewrite Split_app, !Split_dotted in E by done.
      exists (drop (length r) x). rewrite <- (take_drop (length r) x) at 1. f_equal.
      apply (f_equal (take (length r))) in E. rewrite firstn_map, take_app_length' in E by (by rewrite length_map).
      symmetry. apply Itoas_inj; [done|by apply Forall_take|done].
  - intros [y ->]. destruct (decide (y = [])) as [->|Hy]; [left; by rewrite app_nil_r|right].
    exists (dotted y). unfold dotted. rewrite map_app, Join_app; [|by destruct r|by destruct y]. by rewrite append_assoc.
Qed.

(** ** The order of the agent *)

Lemma cmp_refl x : cmpArcs x x = 0.
Proof. induction x as [|a x IH]; [done|]. cbn. by rewrite Z.eqb_refl. Qed.
Lemma cmp_trans x : forall y z, cmpArcs x y = -1 -> cmpArcs y z = -1 -> cmpArcs x z = -1.
Proof.
  induction x as [|a x IH]; intros [|b y] [|c z]; cbn; try done.
  destruct (Z.eqb_spec a b) as [->|Hab]; destruct (Z.eqb_spec b c) as [->|Hbc]; [by apply IH|by destruct (Z.ltb_spec b c)|by rewrite (proj2 (Z.eqb_neq a c))|].
  destruct (Z.ltb_spec a b); [|done]. destruct (Z.ltb_spec b c); [|done]. intros _ _.
  rewrite (proj2 (Z.eqb_neq a c)) by lia. by rewrite (proj2 (Z.ltb_lt a c)) by lia.
Qed.
Lemma cmp_flip x : forall y, cmpArcs x y = -1 -> cmpArcs y x = 1.
Proof.
  induction x as [|a x IH]; intros [|b y]; cbn; try done. rewrite Z.eqb_sym. destruct (Z.eqb_spec b a); [by apply IH|].
  destruct (Z.ltb_spec a b); [|done]. by destruct (Z.ltb_spec b a); [lia|].
Qed.
(** Once past a subtree the order does not come back to it. *)
Lemma cmp_past r : forall x y, cmpArcs r x = -1 -> ~ r `prefix_of` x -> cmpArcs x y = -1 -> ~ r `prefix_of` y.
Proof.
  induction r as [|a r IH]; intros x y Hx Hn Hy Hp; [by destruct Hn; apply prefix_nil|].
  destruct Hp as [t ->]. destruct x as [|b x]; [done|]. cbn in Hx, Hy. rewrite Z.eqb_sym in Hx.
  destruct (Z.eqb_spec b a) as [->|Hne].
  - apply (IH x (r ++ t) Hx); [|done|by apply prefix_app_r]. intros Hp. by apply Hn, prefix_cons.
  - destruct (Z.ltb_spec a b); [|done]. by destruct (Z.ltb_spec b a); [lia|].
Qed.
Lemma cmp_below r y : y <> [] -> cmpArcs r (r ++ y) = -1.
Proof. intros Hy. induction r as [|a r IH]; [by destruct y|]. cbn. by rewrite Z.eqb_refl. Qed.

(** ** An agent that holds a set of objects *)

Definition object : Type := list Z * (Z * Value).
Definition before (o o' : object) : Prop := cmpArcs o.1 o'.1 = -1.
Definition object_ok (o : object) : Prop :=
  o.1 <> [] /\ Forall arc o.1 /\ o.2.1 <> NoSuchObject /\ o.2.1 <> NoSuchInstance /\ o.2.1 <> EndOfMibView.
Definition spelt (o : object) : string := "." +:+ dotted o.1.
Definition pduOf (o : object) : Pdu := mkPdu (spelt o) o.2.1 o.2.2.
Definition endOf (name : string) : Pdu := mkPdu name EndOfMibView (VOther "<nil>").

Section mib.
Context (mib : list object).

Definition after (a : list Z) : list object := filter (fun o => cmpArcs a o.1 = -1) mib.
(** The next [k] objects in order after a name, and the mark of the end when
    there are fewer. *)
Definition answerBulk (name : string) (k : nat) : list Pdu :=
  match arcs name with
  | None => []
  | Some a => map pduOf (take k (after a)) ++ (if (length (after a) <? k)%nat then [endOf name] else [])
  end.
(** What the agent does with the requests to come: it gives as many as it
    likes up to what was asked, or the request fails. After those it gives
    what it is asked for. *)
#[local] Instance mibAgent : Snmp (list (nat + Err)) := {
  Dial _ st := (None, st);
  SnmpGet _ oids st := (inl (mkSnmpPacket true "NoError" (concat (map (fun oid => map pduOf (filter (fun o => Some o.1 = arcs oid) mib)) oids))), st);
  GetBulk _ oids reps st :=
    let name := default "" (head oids) in
    match st with
    | [] => (inl (answerBulk name (Z.to_nat reps)), [])
    | inl k :: st => (inl (answerBulk name (Nat.min k (Z.to_nat reps))), st)
    | inr err :: st => (inr err, st)
    end
}.

(** What is under a root, the object at the root itself among it, and what lies
    below it. *)
Definition subtree (r : list Z) : list object := filter (fun o => r `prefix_of` o.1) mib.
Definition below (r : list Z) : list object := filter (fun o => r `prefix_of` o.1 /\ o.1 <> r) mib.

(** The two are one unless the agent has an object at the root itself. *)
Lemma below_subtree r : Forall (fun o => o.1 <> r) mib -> below r = subtree r.
Proof.
  unfold below, subtree. generalize mib. intros l. induction 1 as [|o l Ho Hl IH]; [done|]. destruct (decide (r `prefix_of` o.1)).
  - rewrite !filter_cons_True by done. by f_equal.
  - rewrite !filter_cons_False by tauto. done.
Qed.

Context (Hsorted : StronglySorted before mib) (Hok : Forall object_ok mib).

Lemma after_from a S1 o S2 : after a = S1 ++ o :: S2 -> after o.1 = S2.
Proof.
  intros E. assert (o ∈ after a) as [Ho _]%list_elem_of_filter by (rewrite E; set_solver).
  assert (StronglySorted before (after a)) as Hs by (by apply filter_sorted).
  assert (after o.1 = filter (fun o' => cmpArcs o.1 o'.1 = -1) (after a)) as ->.
  { unfold after. rewrite list_filter_filter. apply list_filter_iff. intros o'. split; [|tauto]. intros H. split; [done|]. by eapply cmp_trans. }
  rewrite E in Hs |- *. clear E. induction S1 as [|u S1 IH]; cbn [app] in *.
  - rewrite filter_cons_False by (rewrite cmp_refl; done). apply StronglySorted_inv in Hs as [_ Hs].
    induction Hs as [|v S2 Hv Hs IH]; [done|]. by rewrite filter_cons_True, IH.
  - apply StronglySorted_inv in Hs as [Hs Hu]. rewrite filter_cons_False; [by apply IH|]. intros Hc.
    apply Forall_app in Hu as [_ Hu]. apply Forall_cons in Hu as [Hu _]. unfold before in Hu. apply cmp_flip in Hu. lia.
Qed.

(** After the root come the objects below it, and then no more of them. *)
Lemma after_root r : exists B, after r = below r ++ B /\ Forall (fun o => ~ r `prefix_of` o.1) B.
Proof.
  assert (below r = filter (fun o => r `prefix_of` o.1) (after r)) as ->.
  { unfold below, after. rewrite list_filter_filter. apply list_filter_iff. intros o. split; intros [H1 H2]; (split; [done|]).
    - destruct H1 as [t E]. rewrite E. apply cmp_below. intros ->. by rewrite app_nil_r in E.
    - intros E. rewrite E, cmp_refl in H2. done. }
  assert (StronglySorted before (after r)) as Hs by (by apply filter_sorted).
  assert (Forall (fun o => cmpArcs r o.1 = -1) (after r)) as Ha by (apply Forall_forall; intros o [? _]%list_elem_of_filter; done).
  induction Hs as [|o l Hs IH Ho]; [by exists []|]. apply Forall_cons in Ha as [Ha Hl].
  destruct (decide (r `prefix_of` o.1)) as [Hp|Hp].
  - destruct (IH Hl) as (B & E & HB). exists B. rewrite filter_cons_True by done. split; [by rewrite E at 1|done].
  - assert (Forall (fun o => ~ r `prefix_of` o.1) l) as Hn.
    { eapply Forall_impl; [exact Ho|]. intros o' Hb. by eapply cmp_past. }
    exists (o :: l). rewrite filter_cons_False by done. rewrite list_filter_none by (intros o' Ho'; by eapply Forall_forall in Hn).
    split; [done|]. by constructor.
Qed.

Context (FormatFloat : float64 -> string).
Definition shown (o : object) : OIDValue := valueOf FormatFloat (pduOf o).
Lemma object_spelt o : spells (spelt o) o.1.
Proof. by right. Qed.

(** One response: it brings the walk to the end of the subtree, or to an
    object of it. *)
Lemma takeVars_agent root r limit (Sub : list object) : forall B a next k out name,
  spells root r -> r <> [] -> Forall arc r -> spells next a -> a <> [] -> Forall arc a ->
  Forall object_ok (Sub ++ B) -> Forall (fun o => cmpArcs a o.1 = -1) Sub -> StronglySorted before Sub ->
  Forall (fun o => r `prefix_of` o.1) Sub -> Forall (fun o => ~ r `prefix_of` o.1) B -> (0 < k)%nat -> len out < limit ->
  let vs := map pduOf (take k (Sub ++ B)) ++ (if (length (Sub ++ B) <? k)%nat then [endOf name] else []) in
  takeVars FormatFloat root limit vs out next = inl (mkWalkResult (out ++ map shown Sub) true "") \/
  exists S1 o S2, Sub = S1 ++ o :: S2 /\ len out + len S1 < limit /\ (limit <= len out + len S1 + 1 \/ S1 ++ [o] = take k Sub) /\
    takeVars FormatFloat root limit vs out next = inr (out ++ map shown (S1 ++ [o]), spelt o).
Proof.
  induction Sub as [|s Sub IH]; intros B a next k out name Hroot Hr Fr Hnext Ha Fa Hobj Hgt Hsort Hin Hout Hk Hlim; cbv zeta.
  { left. rewrite app_nil_r. destruct k as [|k]; [lia|]. destruct B as [|b B]; [done|]. cbn [app take map].
    apply Forall_cons in Hobj as [(Hb1 & Hb2 & Hb3 & Hb4 & Hb5) _]. apply Forall_cons in Hout as [Hb _]. cbn [takeVars pduOf v_Type v_Name].
    rewrite (proj2 (Z.eqb_neq _ _) Hb5), (proj2 (Z.eqb_neq _ _) Hb3), (proj2 (Z.eqb_neq _ _) Hb4). cbn [orb].
    rewrite (underRoot_spelled _ root b.1 r), bool_decide_false by (done || apply object_spelt). done. }
  destruct k as [|k]; [lia|]. cbn [app take map length] in *.
  apply Forall_cons in Hobj as [(Hb1 & Hb2 & Hb3 & Hb4 & Hb5) Hobj]. apply Forall_cons in Hin as [Hs Hin]. apply Forall_cons in Hgt as [Hgs Hgt].
  apply StronglySorted_inv in Hsort as [Hsort Hbefore].
  assert (forall rest, takeVars FormatFloat root limit (pduOf s :: rest) out next =
    if limit <=? len (out ++ [shown s]) then inr (out ++ [shown s], spelt s) else takeVars FormatFloat root limit rest (out ++ [shown s]) (spelt s)) as Estep.
  { intros rest. cbn [takeVars pduOf v_Type v_Name].
    rewrite (proj2 (Z.eqb_neq _ _) Hb5), (proj2 (Z.eqb_neq _ _) Hb3), (proj2 (Z.eqb_neq _ _) Hb4). cbn [orb].
    rewrite (underRoot_spelled _ root s.1 r), bool_decide_true by (done || apply object_spelt). cbn [negb].
    rewrite (compare_spelled _ next s.1 a) by (done || apply object_spelt). by rewrite (cmp_flip _ _ Hgs). }
  rewrite Estep. assert (len (out ++ [shown s]) = len out + 1) as El by (unfold len; rewrite length_app; cbn; lia). rewrite El.
  destruct (Z.leb_spec limit (len out + 1)) as [Hfull|Hmore].
  { right. exists [], s, Sub. split; [done|]. split; [unfold len in *; cbn; lia|]. split; [left; unfold len in *; cbn; lia|done]. }
  destruct (decide (k = 0%nat)) as [->|Hk0].
  { right. exists [], s, Sub. split; [done|]. split; [unfold len in *; cbn; lia|]. split; [by right|]. by destruct Sub, B. }
  change (S (length (Sub ++ B)) <? S k)%nat with (length (Sub ++ B) <? k)%nat.
  destruct (IH B s.1 (spelt s) k (out ++ [shown s]) name) as [IHl|(S1 & o & S2 & -> & H1 & H2 & IHr)];
    [done..|apply object_spelt|done|done|done|done|done|done|done|lia|lia| |].
  - left. rewrite IHl. by rewrite <- app_assoc.
  - right. exists (s :: S1), o, S2. split; [done|]. unfold len in *. rewrite length_app in H1, H2. cbn in H1, H2. split; [cbn; lia|]. split.
    + destruct H2 as [H2|H2]; [left; cbn; lia|right]. cbn. by rewrite H2.
    + rewrite IHr. by rewrite <- app_assoc.
Qed.

Lemma answerBulk_nil name a k : arcs name = Some a -> answerBulk name k = [] -> k = 0%nat.
Proof.
  intros Ea. unfold answerBulk. rewrite Ea. intros [E1 E2]%app_eq_nil. apply map_eq_nil in E1. destruct k as [|k]; [done|].
  destruct (after a); [by destruct (Nat.ltb_spec (@length object []) (S k)); [|cbn in *; lia]|done].
Qed.

(** A request that is answered with something. *)
Definition answers (x : nat + Err) : Prop := exists k, x = inl (S k).

(** What a walk comes to of the objects [Sub] still ahead of it. *)
Definition outcome_ok (limit : Z) (out : list OIDValue) (Sub : list object) (sched : list (nat + Err)) (res : WalkResult + Err) : Prop :=
  match res with
  | inl w => exists n, (n <= length Sub)%nat /\ wr_Values w = out ++ map shown (take n Sub) /\ (wr_Complete w = true -> n = length Sub)
  | inr e => out = [] /\ exists err st, sched = inr err :: st
  end /\ (Forall answers sched -> len out + len Sub < limit -> res = inl (mkWalkResult (out ++ map shown Sub) true "")).

Lemma outcome_here limit out Sub sched reason : ~ (Forall answers sched /\ len out + len Sub < limit) ->
  outcome_ok limit out Sub sched (inl (mkWalkResult out false reason)).
Proof. intros Hn. split; [|tauto]. exists 0%nat. cbn. rewrite app_nil_r. split; [lia|done]. Qed.

(** The turn that got to [o]: what follows is as it was from there. *)
Lemma outcome_later limit out S1 o S2 sched sched' res :
  outcome_ok limit (out ++ map shown (S1 ++ [o])) S2 sched' res -> (Forall answers sched -> Forall answers sched') ->
  outcome_ok limit out (S1 ++ o :: S2) sched res.
Proof.
  intros [H1 H2] Hs. split.
  - destruct res as [w|e]; [|destruct H1 as [H1 _]; by rewrite map_app, app_assoc in H1; destruct (out ++ map shown S1)].
    destruct H1 as (n & Hn & E & Hc). exists (length S1 + S n)%nat. rewrite E. split; [rewrite length_app; cbn; lia|]. split.
    + rewrite take_app_add. cbn. by rewrite !map_app, <- !app_assoc.
    + intros Hw. rewrite (Hc Hw), length_app. cbn. lia.
  - intros Ha Hl. rewrite H2; [by rewrite !map_app, <- !app_assoc|by apply Hs|]. unfold len in *.
    rewrite !length_app, length_map, length_app in *. cbn in *. lia.
Qed.

Lemma walkLoop_agent g root r limit fuel : cl_MaxRepetitions g = 25 -> spells root r -> r <> [] -> Forall arc r ->
  forall Sub B a next out sched, spells next a -> a <> [] -> Forall arc a -> after a = Sub ++ B ->
  Forall (fun o => r `prefix_of` o.1) Sub -> Forall (fun o => ~ r `prefix_of` o.1) B -> len out <= limit -> limit - len out < Z.of_nat fuel ->
  exists res st', walkLoop FormatFloat fuel g root limit out next sched = Ret (res, st') /\ outcome_ok limit out Sub sched res.
Proof.
  intros Hg Hroot Hr Fr. induction fuel as [|fuel IH]; intros Sub B a next out sched Hnext Ha Fa Ea Hin Hout Hl Hf; [lia|].
  cbn [walkLoop]. destruct (Z.leb_spec limit (len out)).
  { eexists _, _. split; [done|]. apply outcome_here. intros [_ ?]. unfold len in *. lia. }
  assert (forall k st', (Forall answers sched -> (0 < k)%nat /\ Forall answers st') -> exists res st'',
    match answerBulk next k with
    | [] => Ret (inl (mkWalkResult out false emptyResponse), st')
    | _ :: _ => match takeVars FormatFloat root limit (answerBulk next k) out next with
                 | inl res => Ret (inl res, st') | inr (out, next) => walkLoop FormatFloat fuel g root limit out next st' end
    end = Ret (res, st'') /\ outcome_ok limit out Sub sched res) as Hturn.
  { intros k st' Hk. pose proof (arcs_spelled next a Hnext Ha Fa) as Earcs. destruct (answerBulk next k) as [|v vs] eqn:Ev.
    { eexists _, _. split; [done|]. apply outcome_here. intros [Hs _]. apply (answerBulk_nil _ a) in Ev as ->; [|done]. destruct (Hk Hs). lia. }
    rewrite <- Ev. unfold answerBulk in Ev |- *. rewrite Earcs in Ev |- *. rewrite Ea in Ev |- *.
    assert (0 < k)%nat as Hk0 by (destruct k; [by destruct (length (Sub ++ B)); rewrite take_0 in Ev|lia]).
    assert (Forall object_ok (Sub ++ B) /\ Forall (fun o => cmpArcs a o.1 = -1) (Sub ++ B)) as [Hobj [Hgt _]%Forall_app].
    { rewrite <- Ea. split; apply Forall_forall; intros o [Ho Hm]%list_elem_of_filter; [by eapply Forall_forall in Hok|done]. }
    assert (StronglySorted before Sub) as Hss.
    { apply (StronglySorted_app_1_l _ Sub B). rewrite <- Ea. by apply filter_sorted. }
    destruct (takeVars_agent root r limit Sub B a next k out next) as [E|(S1 & o & S2 & E1 & H1 & _ & E)]; [done..| |].
    - rewrite E. eexists _, _. split; [done|]. split; [|done]. exists (length Sub). by rewrite firstn_all.
    - rewrite E. subst Sub. rewrite <- app_assoc in Ea. apply Forall_app in Hobj as [Hobj _].
      pose proof (proj1 (Forall_forall _ _) Hobj o ltac:(set_solver)) as (Ho1 & Ho2 & _).
      destruct (IH S2 B o.1 (spelt o) (out ++ map shown (S1 ++ [o])) st') as (res & st'' & E' & Hres); [apply object_spelt|done|done| | |done| | |].
      + by apply (after_from a S1 o).
      + apply Forall_app in Hin as [_ Hin]. by apply Forall_cons in Hin as [_ Hin].
      + unfold len in *. rewrite length_app, length_map, length_app. cbn. lia.
      + unfold len in *. rewrite length_app, length_map, length_app. cbn. lia.
      + exists res, st''. split; [done|]. eapply outcome_later; [exact Hres|]. intros Hs. by destruct (Hk Hs). }
  destruct sched as [|[k|err] sched].
  - cbn [GetBulk mibAgent head default]. rewrite Hg. apply Hturn. intros _. split; [cbn; lia|constructor].
  - cbn [GetBulk mibAgent head default]. rewrite Hg. apply Hturn. intros [[k' [= ->]] Hs]%Forall_cons. split; [|done].
    change (Z.to_nat 25) with 25%nat. lia.
  - cbn [GetBulk mibAgent]. eexists _, _. split; [done|]. case_bool_decide as Eo; [|apply outcome_here; by intros [[[? ?] _]%Forall_cons _]].
    split; [split; [done|by eexists _, _]|]. by intros [[? ?] _]%Forall_cons.
Qed.

Lemma Walk_agent target port kind secret root r limit sched :
  spells root r -> r <> [] -> Forall arc r ->
  exists res st', Walk FormatFloat target port kind secret root limit sched = Ret (res, st') /\
    outcome_ok (ClampWalkLimit limit) [] (below r) sched res.
Proof.
  intros Hroot Hr Fr. unfold Walk. cbn [Dial mibAgent].
  assert (TrimSpace root <> "") as Hblank.
  { intros E. pose proof (trimmed root r Hroot Hr Fr) as E'. rewrite E in E'. by apply (dotted_ne r Hr Fr). }
  rewrite bool_decide_false by done. destruct (after_root r) as (B & EB & HB). set (n := ClampWalkLimit limit).
  assert (0 < n) as Hn by (unfold n, ClampWalkLimit, DefaultWalkObjects, MaxWalkObjects; destruct (Z.leb_spec limit 0); [lia|]; by destruct (Z.ltb_spec 500000 limit)).
  destruct (walkLoop_agent (newClient target port kind secret (5 * Second)) root r n (S (Z.to_nat n)) eq_refl Hroot Hr Fr (below r) B r root [] sched)
    as (res & st' & -> & Hres); [done..| |done| | |by exists res, st'].
  - apply Forall_forall. by intros o [[? _] _]%list_elem_of_filter.
  - unfold len. cbn. lia.
  - unfold len. cbn. lia.
Qed.

(** An object asked for as a root is not below itself: what the agent holds
    there is not found, and the walk is complete. *)
Lemma instance_not_found target port kind secret o limit : o ∈ mib -> below o.1 = [] ->
  exists st', Walk FormatFloat target port kind secret (spelt o) limit [] = Ret (inl (mkWalkResult [] true ""), st').
Proof.
  intros Ho Hb. pose proof (proj1 (Forall_forall _ _) Hok o Ho) as (H1 & H2 & _).
  destruct (Walk_agent target port kind secret (spelt o) o.1 limit []) as (res & st' & E & _ & H); [apply object_spelt|done..|].
  exists st'. rewrite E, H, Hb; [done|constructor|]. rewrite Hb. unfold ClampWalkLimit, DefaultWalkObjects, MaxWalkObjects, len. cbn.
  destruct (Z.leb_spec limit 0); [lia|]. by destruct (Z.ltb_spec 500000 limit).
Qed.

(** C17. Through the OID browser, against an agent that answers from the objects
    it holds, a few at a time and not always: what is returned is the
    beginning of what lies strictly below the root, object for object in order
    and none left out, and is said to be complete only when that is all of it:
    the whole subtree, unless the agent has an object at the root itself, which
    a walk never returns ([instance_not_found]). A device there is, whose agent
    answers every request, is walked to the end below any root that has fewer
    objects below it than the limit. *)
Theorem walk_honest (VaultGet : string -> CredentialKind + Err) (Decrypt : string -> Secret + Err) id root r limit sched t :
  spells root r -> r <> [] -> Forall arc r ->
  let res := fst (WalkOIDs (Some (VaultGet, Decrypt)) (Some (walker FormatFloat sched)) id root limit t) in
  match res with
  | inl w => (exists n, wr_Values w = map shown (take n (below r))) /\
      (wr_Complete w = true -> wr_Values w = map shown (below r) /\
        (Forall (fun o => o.1 <> r) mib -> wr_Values w = map shown (subtree r)))
  | inr _ => True
  end /\
  (Forall answers sched -> len (below r) < ClampWalkLimit limit ->
   forall d kind secret, Get id t = inl d -> VaultGet (CredentialID d) = inl kind -> Decrypt (CredentialID d) = inl secret ->
   res = inl (mkWalkResult (map shown (below r)) true "")).
Proof.
  intros Hroot Hr Fr. cbv zeta. unfold WalkOIDs.
  assert (orDefault root mib2 = root) as ->.
  { unfold orDefault. rewrite bool_decide_false; [done|]. intros ->. destruct Hroot as [E|E]; [by apply (dotted_ne r)|done]. }
  destruct (Get id t) as [d|e]; cbn; [|done].
  destruct (VaultGet _) as [kind|e] eqn:Ek; cbn; [|split; [done|]; intros _ _ d' k' s' [= <-]; congruence].
  destruct (Decrypt _) as [secret|e] eqn:Es; cbn; [|split; [done|]; intros _ _ d' k' s' [= <-]; congruence].
  set (port := match _ with Some _ => _ | None => _ end).
  destruct (Walk_agent (MgmtIP d) port kind secret root r limit sched) as (res & st' & E & H1 & H2); [done..|].
  unfold walker. rewrite E. destruct res as [w|e]; cbn.
  - split; [|intros Ha Hl _ _ _ _ _ _; exact (H2 Ha Hl)]. destruct H1 as (n & Hn & -> & Hc). split; [by exists n|].
    intros Hw. rewrite (Hc Hw), firstn_all. split; [done|]. intros Hr'. by rewrite below_subtree.
  - split; [done|]. intros Ha Hl _ _ _ _ _ _. by specialize (H2 Ha Hl).
Qed.
End mib.

(** ** Tested as polled *)

(** The client a credential is tested with is set up as the session a poll
    with it opens, as long as the port is one. *)
Lemma tested_as_polled Quote target kind secret timeout job :
  (forall k, kind <> OtherKind k) -> j_Cred job = toWire kind secret -> 1 <= j_Port job <= 65535 ->
  exists g, sessionConfig Quote job = inl g /\
    cl_Version (newClient target (j_Port job) kind secret timeout) = Some (g_Version g) /\
    cl_Port (newClient target (j_Port job) kind secret timeout) = g_Port g.
Proof.
  intros Hk Hc Hp. unfold sessionConfig. destruct (Z.ltb_spec (j_Port job) 1); [lia|]. destruct (Z.ltb_spec 65535 (j_Port job)); [lia|].
  cbn [orb]. rewrite Hc. destruct kind as [| |k]; [by eexists|by eexists|by destruct (Hk k)].
Qed.
(** A port that is none is cut to sixteen bits: the test goes to another. *)
Lemma test_port_cut target kind secret timeout : cl_Port (newClient target 65697 kind secret timeout) = 161.
Proof. reflexivity. Qed.

(** ** Examples *)

Definition demoMib : list object :=
  [([1; 3; 6; 1; 2; 1; 1; 5; 0], (4, VBytes (to_bytes "edge"))); ([1; 3; 6; 1; 2; 1; 2; 1; 0], (2, VInt 2));
   ([1; 3; 6; 1; 2; 1; 2; 2; 1; 9], (66, VInt 100)); ([1; 3; 6; 1; 2; 1; 2; 2; 1; 10], (4, VBytes [zb 0; zb 171]));
   ([1; 3; 6; 1; 2; 1; 20; 1], (70, VInt 7))].
Definition demoSecret : Secret := mkSecret "public" "" "" "" "" "" "".
Definition noFloats (f : float64) : string := "".

Lemma demoMib_ok : StronglySorted before demoMib /\ Forall object_ok demoMib.
Proof.
  split; [repeat constructor|]. unfold demoMib. repeat (constructor; [repeat split; try done; repeat constructor; unfold arc; cbn; lia|]). constructor.
Qed.

(** The table at 2 is returned whole, whatever is at 20; an agent that fails
    at the second request gives the first object only. *)
Theorem walk_honest_witness :
  fst (WalkOIDs (Some (fun _ => inl SNMPv2c, fun _ => inl demoSecret))
         (Some (@walker _ (mibAgent demoMib) noFloats [inl 1%nat; inl 2%nat])) "d1" "1.3.6.1.2.1.2" 0 twoDevices)
  = inl (mkWalkResult [mkOIDValue ".1.3.6.1.2.1.2.1.0" "Integer" "2"; mkOIDValue ".1.3.6.1.2.1.2.2.1.9" "Gauge32" "100";
                       mkOIDValue ".1.3.6.1.2.1.2.2.1.10" "OctetString" "00:ab"] true "").
Proof.
  destruct demoMib_ok as [Hs Ho].
  destruct (walk_honest demoMib Hs Ho noFloats (fun _ => inl SNMPv2c) (fun _ => inl demoSecret) "d1" "1.3.6.1.2.1.2" [1; 3; 6; 1; 2; 1; 2] 0
    [inl 1%nat; inl 2%nat] twoDevices) as [_ H].
  - left. reflexivity.
  - discriminate.
  - repeat constructor; unfold arc; cbn; lia.
  - etransitivity; [|vm_compute; reflexivity]. eapply H.
    + repeat constructor; unfold answers; eauto.
    + vm_compute. reflexivity.
    + vm_compute. reflexivity.
    + reflexivity.
    + reflexivity.
Defined.
Example stopped_short :
  @Walk _ (mibAgent demoMib) noFloats "10.0.0.1" 161 SNMPv2c demoSecret ".1.3.6.1.2.1.2" 0 [inl 1%nat; inr (ErrText "request timeout")]
  = Ret (inl (mkWalkResult [mkOIDValue ".1.3.6.1.2.1.2.1.0" "Integer" "2"] false "agent stopped responding: request timeout"), []).
Proof. vm_compute. reflexivity. Qed.
Example nine_before_ten : compareOID ".1.3.6.1.2.1.9" ".1.3.6.1.2.1.10" = -1 /\ underRoot ".1.30.1" ".1.3" = false /\ underRoot ".1.3" ".1.3" = true.
Proof. vm_compute. done. Qed.
