(* ===== verification/Capacity.v ===== *)
(** Package platform/capacity (capacity.go): what the metrics store says of
    itself and of what is written to it, the projection made from that, and
    the warnings.

    The HTTP client, the JSON of an answer, the database and the texts of
    floats are parameters; the scanner of lines is the library's, written
    out. *)
From Stdlib Require Import ZArith Lia.
From Stdlib Require Import SpecFloat.
From stdpp Require Import base list gmap strings pretty numbers sorting.
From S2P Require Import Prelude GoText NetipParse World Errx Float64 Sdk.

(** ** The report *)

Record Disk : Type := mkDisk { UsedBytes : Z; FreeBytes : Z }.
Record Metrics : Type := mkMetrics { Series : Z; Samples : Z; BytesPerSample : float64; SamplesPerDay : float64; EffectiveIntervalS : float64 }.
Record Growth : Type := mkGrowth { BytesPerDay : float64; BytesPerDevicePerYear : float64; DaysUntilFull : float64; MaxRetentionS : float64 }.
Record Report : Type := mkReport {
  RetentionS : Z; rp_Disk : Disk; rp_Metrics : Metrics; rp_Growth : Growth; Devices : Z; Warnings : list string
}.

Definition zero : float64 := float_of 0.
Definition day : Duration := 24 * Hour.

(** ** Projecting *)

Definition growth (d : Disk) (m : Metrics) (devices : Z) : Growth :=
  let unknown := mkGrowth zero zero (float_of (-1)) (float_of (-1)) in
  if fle (SamplesPerDay m) zero || fle (BytesPerSample m) zero then unknown else
  let perDay := fmul (SamplesPerDay m) (BytesPerSample m) in
  if fle perDay zero then mkGrowth perDay zero (float_of (-1)) (float_of (-1)) else
  mkGrowth perDay
    (if 0 <? devices then fdiv (fmul perDay (float_of 365)) (float_of devices) else zero)
    (fdiv (float_of (FreeBytes d)) perDay)
    (fmul (fdiv (float_of (int64 (FreeBytes d + UsedBytes d))) perDay) (Seconds_float day)).

(** ** What the store says of itself *)

Fixpoint lines_ (acc b : bytes) : list bytes :=
  match b with
  | [] => if decide (acc = []) then [] else [reverse acc]
  | c :: b => if decide (c = zb 10) then reverse acc :: lines_ [] b else lines_ (c :: acc) b
  end.
Definition dropCR (l : bytes) : bytes := match reverse l with c :: r => if decide (c = zb 13) then reverse r else l | [] => l end.
Definition maxLine : Z := 1048576.
(** The lines of [bufio.Scanner] with its buffer of a mebibyte, up to one
    that does not fit. *)
Fixpoint scanned (ls : list bytes) : list string * option Err :=
  match ls with
  | [] => ([], None)
  | l :: ls => if maxLine <=? len l then ([], Some (ErrText "bufio.Scanner: token too long"))
               else let '(rest, err) := scanned ls in (of_bytes (dropCR l) :: rest, err)
  end.

Record vmVitals : Type := mkVitals { dataBytes : Z; freeBytes : Z; rows : Z }.

Section capacity.
Context (ParseFloat : string -> option float64) (Fmt0 Fmt1 : float64 -> string).

Definition parseMetricLine (line : string) : option (string * float64) :=
  match to_bytes line with
  | [] => None
  | c :: _ =>
      if decide (c = zb 35) then None else
      match cut_last (to_bytes line) (zb 32) with
      | None => None
      | Some (name, value) => v ← ParseFloat (TrimSpace (of_bytes value)); Some (TrimSpace (of_bytes name), v)
      end
  end.

(** One turn of the loop over the lines. *)
Definition vital (v : vmVitals) (line : string) : vmVitals :=
  match parseMetricLine line with
  | None => v
  | Some (name, val) =>
      if HasPrefix name "vm_data_size_bytes" || HasPrefix name "vm_indexdb_size_bytes" then
        mkVitals (int64 (dataBytes v + int_of val)) (freeBytes v) (rows v)
      else if HasPrefix name "vm_free_disk_space_bytes" then mkVitals (dataBytes v) (int_of val) (rows v)
      else if HasPrefix name "vm_rows{" then mkVitals (dataBytes v) (freeBytes v) (int64 (rows v + int_of val))
      else v
  end.

(** An HTTP answer: its status and its body. *)
Definition readVitals (resp : (Z * bytes) + Err) : vmVitals + Err :=
  match resp with
  | inr err => inr (ErrWrap "metrics store unreachable" err)
  | inl (status, body) =>
      if negb (status =? 200) then inr (ErrText ("metrics store returned " +:+ Itoa status)) else
      let '(ls, err) := scanned (lines_ [] body) in
      match err with Some e => inr e | None => inl (foldl vital (mkVitals 0 0 0) ls) end
  end.

(** ** Warnings *)

(** [d.Hours]. *)
Definition Hours_float (d : Duration) : float64 := fadd (float_of (Z.quot d Hour)) (fdiv (float_of (Z.rem d Hour)) (float_of Hour)).
Definition humanDuration (d : Duration) : string :=
  let days := fdiv (Hours_float d) (float_of 24) in
  if fle (float_of 365) days then Fmt1 (fdiv days (float_of 365)) +:+ " years"
  else if fle (float_of 60) days then Fmt0 (fdiv days (float_of 30)) +:+ " months"
  else if fle (float_of 1) days then Fmt0 days +:+ " days"
  else Fmt0 (Hours_float d) +:+ " hours".

Definition diskFills (g : Growth) : string :=
  "Disk fills in about " +:+ Fmt0 (DaysUntilFull g) +:+ " days at the current rate. VictoriaMetrics stops " +:+
  "accepting writes when it does, which stops collection.".
Definition tooLong (g : Growth) (retention : Duration) : string :=
  "Retention is set to " +:+ humanDuration retention +:+ " but this volume sustains about " +:+
  humanDuration (int64 (int_of (MaxRetentionS g) * Second)) +:+ " at the current " +:+
  "rate. The oldest data will be dropped early, by disk pressure rather " +:+ "than by policy.".
Definition noSamples : string :=
  "No samples were written in the last hour, so growth cannot " +:+
  "be projected. Collection may have stopped — check that every queue has a " +:+ "consumer.".

Definition filling (g : Growth) : bool := fle zero (DaysUntilFull g) && flt (DaysUntilFull g) (float_of 30).
Definition outgrown (g : Growth) (retention : Duration) : bool :=
  flt zero (MaxRetentionS g) && (0 <? retention) && flt (MaxRetentionS g) (Seconds_float retention).
Definition warnings (m : Metrics) (g : Growth) (retention : Duration) : list string :=
  (if filling g then [diskFills g] else []) ++ (if outgrown g retention then [tooLong g retention] else []) ++
  (if fle (SamplesPerDay m) zero then [noSamples] else []).

(** ** Collecting *)

(** An instant query: the values of the first series of the answer as JSON
    gives them, the second of which is a text, or is not; [None] is an answer
    that was not had or read, or has no series. *)
Definition instant (answer : option (list (option string))) : option float64 :=
  match answer with Some (_ :: v :: _) => ParseFloat (default "" v) | _ => None end.

Definition seriesQuery : string := "count%28%7B__name__%3D~%22netinv_.%2A%22%7D%29".
Definition samplesQuery : string := "sum%28count_over_time%28%7B__name__%3D~%22netinv_.%2A%22%7D%5B1h%5D%29%29".
Definition seriesCount (Query : string -> option (list (option string))) : Z := int_of (default zero (instant (Query seriesQuery))).
Definition samplesPerDay (Query : string -> option (list (option string))) : float64 :=
  match instant (Query samplesQuery) with Some v => fmul v (float_of 24) | None => zero end.
(** The rows of platform.polling_schedule, or no answer. *)
Definition deviceCount (schedule : option (list (string * Z))) : Z :=
  match schedule with
  | Some rows => len (remove_dups (map fst (filter (fun r => 0 < r.2) rows)))
  | None => 0
  end.

Definition Collect (Retention : Duration) (vitals : (Z * bytes) + Err) (Query : string -> option (list (option string)))
    (schedule : option (list (string * Z))) : Report + Err :=
  match readVitals vitals with
  | inr e => inr e
  | inl vm =>
      let disk := mkDisk (dataBytes vm) (freeBytes vm) in
      let perSample := if 0 <? rows vm then fdiv (float_of (dataBytes vm)) (float_of (rows vm)) else zero in
      let series := seriesCount Query in
      let perDay := samplesPerDay Query in
      let interval := if (0 <? series) && flt zero perDay then fdiv (Seconds_float day) (fdiv perDay (float_of series)) else zero in
      let m := mkMetrics series (rows vm) perSample perDay interval in
      let devices := deviceCount schedule in
      let g := growth disk m devices in
      inl (mkReport (int_of (Seconds_float Retention)) disk m g devices (warnings m g Retention))
  end.
End capacity.

(** * Properties *)

Section properties.
Context (ParseFloat : string -> option float64) (Fmt0 Fmt1 : float64 -> string).

(** ** What the store says is added up *)

(** The numbers of the lines whose name begins in one of some ways. *)
Definition numbers (prefixes : list string) (ls : list string) : list Z :=
  omap (fun l => '(name, v) ← parseMetricLine ParseFloat l; if existsb (HasPrefix name) prefixes then Some (int_of v) else None) ls.
Definition dataNames : list string := ["vm_data_size_bytes"; "vm_indexdb_size_bytes"].
Definition freeNames : list string := ["vm_free_disk_space_bytes"].
Definition rowNames : list string := ["vm_rows{"].
Definition total (l : list Z) : Z := foldr Z.add 0 l.

Lemma names_apart name p q : HasPrefix name p = true -> HasPrefix p q || HasPrefix q p = false -> HasPrefix name q = false.
Proof. intros Hp Hd. destruct (HasPrefix name q) eqn:Hq; [|done]. by rewrite (prefixes_nested name p q) in Hd. Qed.

(** One line: its number goes to the one count it is about. *)
Lemma vital_step v l : vital ParseFloat v l =
  mkVitals (match numbers dataNames [l] with [z] => int64 (dataBytes v + z) | _ => dataBytes v end)
    (default (freeBytes v) (last (numbers freeNames [l])))
    (match numbers rowNames [l] with [z] => int64 (rows v + z) | _ => rows v end).
Proof.
  unfold vital, numbers. cbn [omap list_omap]. destruct (parseMetricLine ParseFloat l) as [[name val]|]; [|by destruct v]. cbn [mbind option_bind existsb dataNames freeNames rowNames].
  rewrite !orb_false_r. destruct (HasPrefix name "vm_data_size_bytes") eqn:E1.
  { by rewrite (names_apart _ _ "vm_free_disk_space_bytes" E1), (names_apart _ _ "vm_rows{" E1). }
  destruct (HasPrefix name "vm_indexdb_size_bytes") eqn:E2.
  { by rewrite (names_apart _ _ "vm_free_disk_space_bytes" E2), (names_apart _ _ "vm_rows{" E2). }
  cbn [orb]. destruct (HasPrefix name "vm_free_disk_space_bytes") eqn:E3; [by rewrite (names_apart _ _ "vm_rows{" E3)|].
  by destruct (HasPrefix name "vm_rows{"), v.
Qed.

Lemma numbers_cons prefixes l ls : numbers prefixes (l :: ls) = numbers prefixes [l] ++ numbers prefixes ls.
Proof. change (l :: ls) with ([l] ++ ls). unfold numbers. apply omap_app. Qed.
Lemma numbers_one prefixes l : numbers prefixes [l] = [] \/ exists z, numbers prefixes [l] = [z].
Proof. unfold numbers. cbn [omap list_omap]. destruct (_ ≫= _); [right; by eexists|by left]. Qed.

(** The occupied space and the rows are the sums of what the lines say, the
    free space is what the last of them says. *)
Lemma vitals_exact ls : forall v,
  foldl (vital ParseFloat) v ls =
  mkVitals (if decide (numbers dataNames ls = []) then dataBytes v else int64 (dataBytes v + total (numbers dataNames ls)))
    (default (freeBytes v) (last (numbers freeNames ls)))
    (if decide (numbers rowNames ls = []) then rows v else int64 (rows v + total (numbers rowNames ls))).
Proof.
  assert (forall old one rest, (one = [] \/ exists z, one = [z]) ->
    (if decide (rest = []) then (match one with [z] => int64 (old + z) | _ => old end)
     else int64 ((match one with [z] => int64 (old + z) | _ => old end) + total rest))
    = (if decide ((one ++ rest) = []) then old else int64 (old + total (one ++ rest)))) as Hsum.
  { intros old one rest [->|[z ->]]; cbn [app]; [done|]. rewrite (decide_False (P := z :: rest = [])) by done. cbn [total foldr].
    destruct (decide (rest = [])) as [->|Hr]; [cbn; by rewrite Z.add_0_r|]. rewrite int64_add. f_equal. unfold total. lia. }
  induction ls as [|l ls IH]; intros v; [by destruct v|]. cbn [foldl]. rewrite IH, vital_step. cbn [dataBytes freeBytes rows].
  rewrite !(numbers_cons _ l ls). rewrite !Hsum by apply numbers_one. f_equal.
  rewrite last_app. by destruct (last (numbers freeNames ls)).
Qed.

(** ** What is told *)

Lemma unknown_growth d m devices : fle (SamplesPerDay m) zero = true ->
  growth d m devices = mkGrowth zero zero (float_of (-1)) (float_of (-1)).
Proof. intros E. unfold growth. by rewrite E. Qed.

(** The capacity report is refused only when the store does not say what it
    holds. Otherwise the space is what the store's lines add up to, and the
    warnings are just those there is ground for: when nothing seems to be
    written that alone is told and nothing is projected. *)
Theorem capacity_told Retention vitals Query schedule :
  match Collect ParseFloat Fmt0 Fmt1 Retention vitals Query schedule with
  | inr e => readVitals ParseFloat vitals = inr e
  | inl r => exists status body ls,
      vitals = inl (status, body) /\ status = 200 /\ scanned (lines_ [] body) = (ls, None) /\
      UsedBytes (rp_Disk r) = int64 (total (numbers dataNames ls)) /\ FreeBytes (rp_Disk r) = default 0 (last (numbers freeNames ls)) /\
      if fle (samplesPerDay ParseFloat Query) zero
      then Warnings r = [noSamples] /\ DaysUntilFull (rp_Growth r) = float_of (-1) /\ MaxRetentionS (rp_Growth r) = float_of (-1)
      else noSamples ∉ Warnings r /\ (diskFills Fmt0 (rp_Growth r) ∈ Warnings r <-> filling (rp_Growth r) = true) /\
           (tooLong Fmt0 Fmt1 (rp_Growth r) Retention ∈ Warnings r <-> outgrown (rp_Growth r) Retention = true)
  end.
Proof.
  unfold Collect, readVitals. destruct vitals as [[status body]|e]; [|done]. destruct (Z.eqb_spec status 200) as [Es|]; cbn [negb]; [|done].
  destruct (scanned (lines_ [] body)) as [ls [e|]] eqn:El; [done|]. rewrite vitals_exact. cbn [dataBytes freeBytes rows].
  exists status, body, ls. split; [done|]. split; [done|]. split; [done|]. cbn [rp_Disk rp_Growth Warnings UsedBytes FreeBytes]. split; [|split; [done|]].
  { destruct (decide _) as [->|]; [done|]. by rewrite Z.add_0_l. }
  set (m := mkMetrics _ _ _ _ _). set (g := growth _ _ _). destruct (fle (samplesPerDay ParseFloat Query) zero) eqn:E.
  - assert (g = mkGrowth zero zero (float_of (-1)) (float_of (-1))) as -> by by apply unknown_growth.
    split; [|done]. unfold warnings. change (SamplesPerDay m) with (samplesPerDay ParseFloat Query). rewrite E. by vm_compute.
  - unfold warnings. change (SamplesPerDay m) with (samplesPerDay ParseFloat Query). rewrite E, app_nil_r.
    assert (noSamples <> diskFills Fmt0 g /\ noSamples <> tooLong Fmt0 Fmt1 g Retention /\ diskFills Fmt0 g <> tooLong Fmt0 Fmt1 g Retention) as (H1 & H2 & H3) by done.
    destruct (filling g), (outgrown g Retention); cbn [app]; set_solver.
Qed.

(** A store that says what it holds and does not answer queries is reported
    as one to which nothing was written in the last hour. *)
Lemma query_failed_told Retention vitals Query schedule r :
  Collect ParseFloat Fmt0 Fmt1 Retention vitals Query schedule = inl r -> Query samplesQuery = None -> Warnings r = [noSamples].
Proof.
  intros E Hq. unfold Collect in E. destruct (readVitals _ _); [|done]. injection E as <-. cbn [Warnings].
  assert (samplesPerDay ParseFloat Query = zero) as -> by (unfold samplesPerDay; by rewrite Hq). rewrite unknown_growth by done. by vm_compute.
Qed.
End properties.

(** ** Examples, as the tests of the package have them *)

Definition gb : Z := 2 ^ 30.
Definition plainFmt (f : float64) : string := Itoa (int_of f).
Definition demoMetrics (perDay : Z) : Metrics := mkMetrics 2000 0 (float_of 1) (float_of perDay) zero.

Example a_fleet_grows :
  let g := growth (mkDisk (2 * gb) (8 * gb)) (demoMetrics 3000000) 10 in
  BytesPerDay g = float_of 3000000 /\ int_of (DaysUntilFull g) = 2863 /\ int_of (BytesPerDevicePerYear g) = 109500000.
Proof. vm_compute. done. Qed.
Example comfortable :
  let d := mkDisk (2 * gb) (500 * gb) in let m := demoMetrics 3000000 in
  warnings plainFmt plainFmt m (growth d m 0) (730 * day) = [].
Proof. vm_compute. reflexivity. Qed.
Example five_days_left :
  let d := mkDisk gb gb in let m := demoMetrics 200000000 in
  warnings plainFmt plainFmt m (growth d m 0) day = [diskFills plainFmt (growth d m 0)].
Proof. vm_compute. reflexivity. Qed.
